(* ===== verification/_CoqProject ===== *)
-Q . S2P
Prelude.v
Rect.v
Region.v
RegionFacts.v
RegionLaws.v
RectSet.v
Mines.v
MinesFacts.v
MinesPlay.v
MinesLaws.v
Bytes.v
SxfsFormat.v
SxfsFormatFacts.v
SxfsCore.v
SxfsDevice.v
SxfsAlloc.v
SxfsOps.v
SxfsWalk.v
SxfsTree.v
SxfsWalkFacts.v
SxfsLaws.v
SxfsPersist.v
SxfsLimits.v
SxfsWalkLaws.v
Gpt.v
GptFacts.v
GptDisk.v
GptEdit.v
GptFree.v
GptLaws.v
Shell.v
ShellParse.v
ShellRun.v
Heap.v
HeapFacts.v
HeapBlocks.v
HeapArenas.v
HeapOps.v
HeapRealloc.v
HeapLaws.v
LibcTime.v
LibcNum.v
LibcFormat.v
LibcMatch.v
LibcInet.v
MinesScores.v
RegionClip.v
Painter.v
PainterFacts.v
PainterLaws.v
Scene.v
SceneFacts.v
WmClient.v
SceneFrames.v
SceneRun.v
SceneLaws.v
SceneStage.v
Consent.v
ConsentText.v
ConsentRun.v
Elevation.v
ElevationLaws.v
Presentation.v
Wm.v
WmInput.v
WmList.v
WmOpen.v
WmScene.v
WmMouse.v
WmRequests.v
WmCommit.v
WmStack.v
WmFocus.v
WmKeep.v
WmSteps.v
WmLaws.v
WmFrames.v
WmExamples.v
WmListLaws.v
WmHandover.v
