(* ===== verification/Prelude.v ===== *)
(** * SavanXP: a verification development

    SavanXP is an operating system for x86_64: a kernel in C++ and, in C, the
    libraries and programs around it.  This development models the C code that
    carries rules of its own and can be read in full: the window manager, the
    compositor and the geometry the desktop is drawn with, the elevation prompt
    and its broker, the disk libraries, the allocator and the pure part of the C
    runtime, the command line, and a game.  Source paths below are relative to
    the root of the repository.

    ** The parts and how they interact

    - [system/gfx] draws.  Rectangles ([gfx2d.c]) are the unit of everything; a
      region is a set of pixels in Y bands, combined with rectangles by one
      sweep; a damage set is a small list of rectangles to repaint; a painter
      fills and copies pixels through an origin and a clip.
    - [system/compositord] shows the desktop.  [compositord_scene.c] keeps the
      surfaces the window manager attached, the layers of its last commit and
      the damage not yet shown, composes them with a painter over regions, and
      acknowledges frames.  Clients publish frames into a ring of batches in
      memory they share with it, with [include/sxn/sxnwm.h].
    - [system/windowd] is the window manager.  One session record holds the
      application windows and their stacking order, the windows of the desktop,
      the focus, the fullscreen window and the drags; its main loop reads keys
      and mouse events, reaps ended programs, admits connections, serves the
      requests and hints windows leave in their headers, publishes a list of
      its windows in memory the desktop reads, and commits the scene to
      compositord as a list of layers with the damage.  [windowd_layout.c] is
      its geometry, [windowd_presentation.c] what a window shows of its program.
    - [windowd_consent.c] is the elevation prompt, a part of windowd that has
      all the input while it is up.  [system/elevationd] is the broker that
      starts programs as the system: it reads requests of the library call
      [include/sxn/sxnelevate.h], asks the prompt through a port, and reports
      to the requester when the program starts and ends.
    - [libsxfs] keeps the SxFS file system on the host side, over two block
      callbacks: metadata in a context in memory, data in place on the device.
      [include/sxfs] holds the format and the ownership table it shares with the
      kernel.
    - [libsxdisk] keeps GUID partition tables, over the same kind of callbacks
      and over the CRC of [include/shared/crc32.h].
    - [subsystems/posix/sdk/v1/runtime/posix.c] is the C runtime of user
      programs: heap, numbers, formatted output, calendar, matching and sorting,
      addresses.
    - [subsystems/posix/userland] holds programs; [shell_core.c] parses command
      lines and runs pipelines over system calls, [mines_board.c] is the rules
      of Minesweeper, whose score file is written and read with the runtime's
      own [fprintf] and [atoi].

    ** Files

    Each component has a file of definitions (the source translated, function by
    function, under the source's names), files of facts, and a file of
    properties.

    - Prelude (this file): tactics, C integers, results and the state monad,
      lists as arrays, counted and fuelled loops, C strings.
    - Rect: [struct sx_rect] and its operations; the clippers to a surface.
    - Region, RegionFacts, RegionLaws: [struct sx_region], the sweep of
      [sx_region_apply_rect] and the operations built on it.
    - RectSet: [struct sx_rect_set].
    - Painter, PainterFacts, PainterLaws: the bitmaps, brushes, clips, fills and
      blits of [gfx2d.c]; RegionClip: intersections never overflow.
    - Scene: [compositord_scene.c]; WmClient: the publishing half of [sxnwm.h];
      SceneFacts: what a composition paints; SceneFrames: the frame protocol;
      SceneRun: the window manager, the clients and compositord as a transition
      system, with its invariant; SceneLaws, SceneStage: properties.
    - Presentation: [windowd_presentation.c].
    - Wm: the session, the layout, stacking, focus, frames, fullscreen and the
      hit test of [windowd.c] and [windowd_layout.c]; WmInput: keys, hotkeys,
      Alt+Tab, the pointer, closing, the layers of the scene
      ([windowd_render.c]); WmOpen: connections, dialogs, popups, reaping;
      WmRequests: the desktop's windows, task requests, the resolution; WmList:
      the published list, its two readers, and the hints in a header; WmCommit:
      the commit, and the processes to reap.
      WmStack, WmFocus, WmKeep, WmSteps: the session invariant, operation by
      operation; WmLaws: the main loop as a transition system and its
      properties; WmScene: the scene against the input; WmFrames: round trips of
      frames; WmMouse: coalescing; WmListLaws: the list and who reads it; WmHandover:
      the commit together with compositord's; WmExamples: sessions that run.
    - Consent: the state and the text of the prompt; ConsentText: what it shows
      against what will run; ConsentRun: when it answers yes.
    - Elevation: [elevationd.c] and [sxnelevate.h]; ElevationLaws: the request
      on the wire, and the broker and the prompt together as one system.
    - Mines, MinesFacts, MinesPlay, MinesLaws: [mines_board.c], the board;
      MinesScores: its best times.
    - Bytes: little-endian records.
    - SxfsFormat, SxfsFormatFacts: [sxfs_format.h] and [sxfs_ownership.h];
      SxfsCore: [sxfs_core.c]; SxfsDevice, SxfsAlloc, SxfsOps: facts about
      device, allocation, operations; SxfsWalk, SxfsTree, SxfsWalkFacts: the
      tree walk; SxfsLaws, SxfsPersist, SxfsLimits, SxfsWalkLaws: properties.
    - Gpt, GptFacts, GptDisk, GptEdit, GptFree, GptLaws: [sxdisk.c], [crc32.h].
    - Shell, ShellParse, ShellRun: [shell_core.c].
    - Heap, HeapFacts, HeapBlocks, HeapArenas, HeapOps, HeapRealloc, HeapLaws:
      the allocator of [posix.c].
    - LibcTime, LibcNum, LibcFormat, LibcMatch, LibcInet: the rest of the
      runtime that is modelled.

    ** How code is modelled

    A C unsigned integer is a [Z] with its wrap written out ([u8] to [u64]); a
    signed one is a [Z], with [s32] or [s64] where the source narrows.  A struct
    is a record, an array a list, an array cell [at_] and [set_at].  A function
    that mutates a context and returns a status is a function from the context
    to the context it leaves and a [res]: nothing is rolled back on failure,
    because the source does not.  File-scope variables are a record ([scene]);
    memory shared between processes is part of it, and what the others write to
    it are steps of their own: a client paints into its surface at one step and
    submits the frame at another, and a ring that is full refuses the frame and
    leaves the pixels painted.  A buffer several functions share is part of
    the context (the [dir_scratch] of SxFS).  The heap is a byte-addressed
    memory, in which headers, arenas and alignment tags are stored and read as
    bytes.  C strings are lists of characters without the terminator, unless the
    source depends on what follows it (a format of [printf] is a list with it).
    Null-pointer tests of arguments are left out.

    What is not C code of the repository is a parameter: the block callbacks
    (class [BlockDevice]; laws [ReliableDevice]: reads and writes within the
    device succeed; instance a RAM disk; and any such device that breaks at a
    given write, with an arbitrary part of it done, for the crash theorem), the
    random bytes of a GUID, the cursor images, the results of the system calls
    of the compositor (the calls without a result are logged), what a port, a
    pipe, a process or a mode change answers to windowd and elevationd, and the
    time, the page source of the heap (class [PageSource] with
    its laws, instance [bump_source]), the system calls of the shell (class
    [ShellOs], with an instance), the seed of the game, whether a score file can
    be opened.

    ** Fuel

    Loops whose end is not structural take fuel, and each has a proof that the
    fuel given is enough: the sweep of a region takes at most two turns per band
    and three more ([region_sweep_terminates]); a parser takes a turn per
    character ([shell_parse_terminates]; path resolution, [printf], [fnmatch],
    file lines likewise); the cascade of the game takes a turn per push, and a
    push past the static stack is an outcome of its own; the rejection loop of
    the generator ends after two draws ([mines_random_below_ends]); the walk of
    a volume takes one turn per entry and one per directory, 4096 inodes of at
    most 4095 entries ([sxfs_walk_exact], with the binary fuel of [st_loop]);
    the clip iterator takes one turn per rectangle of the clip; a client's ring
    has eight slots, each good for one sequence number, so nine turns consume it
    whatever it holds ([consume_terminates]); lists of heap blocks and arenas
    have as many turns as a state with the
    invariant has blocks ([heap_refines] says every action returns).

    ** What the theorems show

    - Geometry: any program of region operations refines sets of pixels, exactly
      or as a marked superset; the representation is canonical; enumeration
      partitions; damage is never lost; blits, fills, frames and scaled blits
      change exactly the visible pixels, each once, inside any nesting of clip
      rectangles; a scaled blit samples the proportional place as long as the
      products of the sizes stay in an [int].
    - Compositor: one composition draws the frontmost layer on the damage and
      nothing elsewhere; after a run of the window manager, of clients that
      keep to the protocol and of clients that do not, a frame makes the screen
      show the scene, except where a client has painted what it has not submitted;
      a client that keeps to the protocol is never broken off and gets every frame
      back.  The runs leave out compositions in which a region overflows, after
      which the screen can be wrong ([overflow_shows_back_layer]), and attaches
      to an id a layer still names.
    - Window manager: in every session the main loop can reach, the stacking
      order holds each live window once, dialogs and popups lie above their
      owner and are minimized with it, and the keys go to the desktop or to a live
      window that is not minimized and has no dialog over it; a raise is exact; on
      the plain desktop the window the pointer hits is the one whose layer is in
      front; maximizing and fullscreen put back the frame, the size and the state;
      coalesced mouse events lose no motion, position, wheel or button; what a
      commit hands over is what compositord composes from, every layer and every
      dirty pixel; the published list holds each main window once, its ids lead
      back to them, and its two readers never take it half written, with the
      updates of the sequence number ordered as they are written (the source has no
      barrier there); whatever a window publishes of itself is kept well formed.
    - Elevation: each program that runs elevated for another than the system has a
      yes of its own, given to a prompt that was open for that very path and these
      arguments and drew them, by a fresh press or click of the user after the
      prompt was armed; while it is up the prompt is in front of everything and
      no event reaches a client; the text it shows can be read back into the
      program and arguments and all of it is drawn; the request the library
      packs is the one the broker parses.
    - SxFS, on a device without I/O failures and with the files of one extent this
      core writes: after any operations no sector belongs to two files and all are
      marked and inside the data region; stored data is read back and no other
      file changes; a flushed volume opens as it was; allocation is first fit;
      a walk ends and meets each allocated inode exactly once.
    - Partition tables: written tables are read back, from either copy; a write
      that fails or is interrupted at any sector leaves the old or the new table; edits keep partitions
      disjoint; the free extents are exactly the free space.
    - Heap: every action refines an abstract heap of disjoint objects that keep
      their bytes; releasing everything releases the arenas; exactly when
      [malloc] fails.
    - Runtime: the calendar is the Gregorian one, day by day; times, integers
      and addresses round trip; [snprintf] prints what its format says
      (but pads with zeros in front of a sign);
      [fnmatch] is the language of its pattern, classes included; [qsort] sorts.
    - Command line: printed pipelines parse back; descriptors balance on every
      path of the executor.
    - Minesweeper: the board invariant through any game, a safe first click, the
      cascade is reachability, best times persist.
    - Where the code departs from its comments or from the standard, an example
      runs the definitions on an input that shows it.

    ** What is not modelled

    The kernel (C++, hardware), the widget toolkit, the GPU side of
    compositord, the OpenGL rasteriser, the desktop programs and the vendored
    ports: I/O, presentation, floating point or third-party code.  Of the
    modelled files: windowd's painting of frames, its connections up to the hello
    and the set-up of a client's channels and surface (the outcome is an
    argument), its shutting down; the pixels of the prompt's box; the lines, polygons and text of
    the painter, the waiting and input of [sxnwm.h]; locks around the heap and
    streams, floating-point conversions, [strftime], the string functions, signal
    and descriptor sets, the streams and sockets of the runtime; the shell's
    capture of an external command (a poll loop); self tests. *)

From Stdlib Require Export ZArith Lia ZifyBool.
From stdpp Require Export base tactics list numbers option sets.

#[export] Set Default Goal Selector "!".
#[export] Set Warnings "-clear-no-such-hyp".
Open Scope Z_scope.

(** ** Tactics of the development *)

(** Splits an innermost boolean test of the goal, of a hypothesis, of either. *)
Ltac split_test b :=
  lazymatch b with
  | context [if _ then _ else _] => fail
  | _ => destruct b eqn:?
  end.
Ltac case_if :=
  match goal with
  | |- context [if ?b then _ else _] => split_test b
  end.
Ltac case_if_in H :=
  match type of H with
  | context [if ?b then _ else _] => split_test b
  end.
Ltac case_any :=
  match goal with
  | |- context [if ?b then _ else _] => split_test b
  | H : context [if ?b then _ else _] |- _ => split_test b
  end.
Ltac case_ifs := repeat case_if.

(** Destructs conjunctions in hypotheses and splits those of the goal. *)
Ltac conjs := repeat match goal with
  | H : _ /\ _ |- _ => destruct H
  | |- _ /\ _ => split
  end.

(** [lia] after the case splits: the everyday closing step. *)
Ltac ifs_lia := case_ifs; simpl in *; lia.

(** [lia] with division and remainder by constants. *)
Ltac divs := Z.div_mod_to_equations; lia.

(** ** Fixed-width integers of C

    A C object of an unsigned type of [w] bits is a [Z] in [0 .. 2^w - 1]; every
    operation of the source that can leave that range is followed by the wrap
    below.  A C [int] is a [Z]; signed overflow is undefined in C, so the
    definitions follow the source on every execution C defines, and [int32]
    is the range the bounds theorems speak of. *)

Definition u8 (x : Z) : Z := x mod 256.
Definition u16 (x : Z) : Z := x mod 65536.
Definition u32 (x : Z) : Z := x mod 4294967296.
Definition u64 (x : Z) : Z := x mod 18446744073709551616.

Definition INT_MIN : Z := -2147483648.
Definition INT_MAX : Z := 2147483647.
Definition int32 (x : Z) : Prop := INT_MIN <= x <= INT_MAX.

Lemma u8_id x : 0 <= x < 256 -> u8 x = x.
Proof. apply Z.mod_small. Qed.
Lemma u16_id x : 0 <= x < 65536 -> u16 x = x.
Proof. apply Z.mod_small. Qed.
Lemma u32_id x : 0 <= x < 4294967296 -> u32 x = x.
Proof. apply Z.mod_small. Qed.
Lemma u64_id x : 0 <= x < 18446744073709551616 -> u64 x = x.
Proof. apply Z.mod_small. Qed.
Lemma u8_range x : 0 <= u8 x < 256.
Proof. apply Z.mod_pos_bound; lia. Qed.
Lemma u16_range x : 0 <= u16 x < 65536.
Proof. apply Z.mod_pos_bound; lia. Qed.
Lemma u32_range x : 0 <= u32 x < 4294967296.
Proof. apply Z.mod_pos_bound; lia. Qed.
Lemma u64_range x : 0 <= u64 x < 18446744073709551616.
Proof. apply Z.mod_pos_bound; lia. Qed.

Create HintDb width.
Create Rewrite HintDb arrays.
Create Rewrite HintDb width.
#[export] Hint Resolve u8_range u16_range u32_range u64_range : width.
#[export] Hint Rewrite u8_id u16_id u32_id u64_id using lia : width.

(** ** Results of fallible operations

    A function of the source that returns a status code and mutates its
    context is a function from the context to the context it leaves and a
    [res]: the context is kept on failure too, because the source does not
    roll it back. *)

Inductive res (E A : Type) : Type :=
| Ok (a : A)
| Fail (e : E).
Arguments Ok {E A} _.
Arguments Fail {E A} _.

Definition is_ok {E A} (r : res E A) : bool :=
  match r with Ok _ => true | Fail _ => false end.

Definition st (S E A : Type) : Type := S -> S * res E A.

Definition st_ret {S E A} (a : A) : st S E A := fun s => (s, Ok a).
Definition st_fail {S E A} (e : E) : st S E A := fun s => (s, Fail e).
Definition st_bind {S E A B} (m : st S E A) (k : A -> st S E B) : st S E B :=
  fun s => match m s with
           | (s', Ok a) => k a s'
           | (s', Fail e) => (s', Fail e)
           end.
Definition st_get {S E} : st S E S := fun s => (s, Ok s).
Definition st_put {S E} (s : S) : st S E unit := fun _ => (s, Ok tt).
Definition st_mod {S E} (f : S -> S) : st S E unit := fun s => (f s, Ok tt).

Declare Scope st_scope.
Delimit Scope st_scope with st.
Notation "'let!' x ':=' m 'in' k" := (st_bind m (fun x => k))
  (at level 10, x pattern, m at level 100, k at level 200) : st_scope.
Notation "m ';;;' k" := (st_bind m (fun _ => k))
  (at level 199, right associativity) : st_scope.

Lemma st_bind_ok {S E A B} (m : st S E A) (k : A -> st S E B) s s' b :
  st_bind m k s = (s', Ok b) ->
  exists s1 a, m s = (s1, Ok a) /\ k a s1 = (s', Ok b).
Proof. unfold st_bind. destruct (m s) as [s1 [a|e]] eqn:Hm; naive_solver. Qed.

Lemma st_bind_fail {S E A B} (m : st S E A) (k : A -> st S E B) s s' e :
  st_bind m k s = (s', Fail e) ->
  m s = (s', Fail e) \/ exists s1 a, m s = (s1, Ok a) /\ k a s1 = (s', Fail e).
Proof. unfold st_bind. destruct (m s) as [s1 [a|e']] eqn:Hm; naive_solver. Qed.

(** A loop of unknown length over a stateful body: [inl] goes on, [inr] is the
    result.  The fuel is binary, so that a bound of millions of turns can be
    written down and evaluated. *)
Fixpoint st_loop {S E A R} (p : positive) (f : A -> st S E (A + R)) (a : A) : st S E (A + R) :=
  let again p r := match r with inl a => st_loop p f a | inr r => st_ret (inr r) end in
  match p with
  | xH => f a
  | xO p => st_bind (st_loop p f a) (again p)
  | xI p => st_bind (f a) (fun r => st_bind (again p r) (again p))
  end.

(** The rule of that loop: [Inv] carries a budget that each turn lowers.  What
    is left over after [p] turns says that [p] was at most the budget. *)
Lemma st_loop_rule {S E A R} (Inv : nat -> A -> S -> Prop) (Post : R -> S -> Prop) (Err : E -> S -> Prop)
    (f : A -> st S E (A + R)) :
  (forall n a s, Inv n a s ->
     match f a s with
     | (s', Ok (inl a')) => exists n', (n' < n)%nat /\ Inv n' a' s'
     | (s', Ok (inr r)) => Post r s'
     | (s', Fail e) => Err e s'
     end) ->
  forall p n a s, Inv n a s ->
    match st_loop p f a s with
    | (s', Ok (inl a')) => exists n', (n' + Pos.to_nat p <= n)%nat /\ Inv n' a' s'
    | (s', Ok (inr r)) => Post r s'
    | (s', Fail e) => Err e s'
    end.
Proof.
  intros Hf. induction p as [p IH|p IH|]; intros n a s HI; cbn [st_loop]; unfold st_bind, st_ret.
  - specialize (Hf n a s HI). destruct (f a s) as [s1 [[a1|r]|e]]; [|done..]. destruct Hf as (n1 & Hn1 & H1).
    specialize (IH n1 a1 s1 H1) as H2. destruct (st_loop p f a1 s1) as [s2 [[a2|r]|e]]; [|done..]. destruct H2 as (n2 & Hn2 & H2).
    specialize (IH n2 a2 s2 H2) as H3. destruct (st_loop p f a2 s2) as [s3 [[a3|r]|e]]; [|done..]. destruct H3 as (n3 & Hn3 & H3).
    exists n3. split; [lia|done].
  - specialize (IH n a s HI) as H1. destruct (st_loop p f a s) as [s1 [[a1|r]|e]]; [|done..]. destruct H1 as (n1 & Hn1 & H1).
    specialize (IH n1 a1 s1 H1) as H2. destruct (st_loop p f a1 s1) as [s2 [[a2|r]|e]]; [|done..]. destruct H2 as (n2 & Hn2 & H2).
    exists n2. split; [lia|done].
  - specialize (Hf n a s HI). destruct (f a s) as [s1 [[a1|r]|e]]; [|done..]. destruct Hf as (n1 & Hn1 & H1). exists n1. split; [lia|done].
Qed.

(** ** Lists as C arrays *)

(** Reading an array cell: [d] stands for what the source never reads. *)
Definition at_ {A} (d : A) (l : list A) (i : Z) : A :=
  if i <? 0 then d else nth (Z.to_nat i) l d.
Definition set_at {A} (l : list A) (i : Z) (x : A) : list A :=
  if i <? 0 then l else <[Z.to_nat i := x]> l.
Definition zlen {A} (l : list A) : Z := Z.of_nat (length l).

Lemma length_set_at {A} (l : list A) i x : length (set_at l i x) = length l.
Proof. unfold set_at. case_if; [done|]. apply length_insert. Qed.

Lemma zlen_set_at {A} (l : list A) i x : zlen (set_at l i x) = zlen l.
Proof. unfold zlen. by rewrite length_set_at. Qed.

Lemma zlen_nonneg {A} (l : list A) : 0 <= zlen l.
Proof. unfold zlen. lia. Qed.

Lemma nth_insert_eq {A} (d : A) l i x :
  (i < length l)%nat -> nth i (<[i:=x]> l) d = x.
Proof. intros H. by rewrite nth_lookup, list_lookup_insert_eq. Qed.

Lemma nth_insert_ne {A} (d : A) l i j x :
  i <> j -> nth j (<[i:=x]> l) d = nth j l d.
Proof. intros H. by rewrite !nth_lookup, list_lookup_insert_ne. Qed.

Lemma at_set_at_eq {A} (d : A) l i x :
  0 <= i < zlen l -> at_ d (set_at l i x) i = x.
Proof.
  unfold at_, set_at, zlen. intros H.
  destruct (i <? 0) eqn:?; [lia|]. apply nth_insert_eq. lia.
Qed.

Lemma at_set_at_ne {A} (d : A) l i j x :
  i <> j -> at_ d (set_at l i x) j = at_ d l j.
Proof.
  unfold at_, set_at. intros H.
  destruct (j <? 0) eqn:?; [done|]. destruct (i <? 0) eqn:?; [done|].
  apply nth_insert_ne. lia.
Qed.

Lemma at_set_at {A} (d : A) l i j x :
  0 <= i < zlen l -> at_ d (set_at l i x) j = if i =? j then x else at_ d l j.
Proof.
  intros H. case_if.
  - replace j with i by lia. by apply at_set_at_eq.
  - apply at_set_at_ne. lia.
Qed.

Lemma at_out {A} (d : A) l i : zlen l <= i -> at_ d l i = d.
Proof.
  unfold at_, zlen. intros H. case_if; [done|]. apply nth_overflow. lia.
Qed.

Lemma at_neg {A} (d : A) l i : i < 0 -> at_ d l i = d.
Proof. unfold at_. intros H. case_if; [done|lia]. Qed.

Lemma at_ext {A} (d : A) l k :
  length l = length k -> (forall i, 0 <= i < zlen l -> at_ d l i = at_ d k i) -> l = k.
Proof.
  intros Hl H. apply (nth_ext _ _ d d); [done|]. intros n Hn.
  specialize (H (Z.of_nat n)). unfold at_, zlen in H.
  destruct (Z.of_nat n <? 0) eqn:?; [lia|]. rewrite Nat2Z.id in H. apply H. lia.
Qed.

Lemma zlen_app {A} (l k : list A) : zlen (l ++ k) = zlen l + zlen k.
Proof. unfold zlen. rewrite length_app. lia. Qed.

Lemma zlen_snoc {A} (l : list A) a : zlen (l ++ [a]) = zlen l + 1.
Proof. unfold zlen. rewrite length_app. simpl. lia. Qed.

Lemma at_app_last {A} (d : A) l a i :
  0 <= i -> at_ d (l ++ [a]) i = if i =? zlen l then a else at_ d l i.
Proof.
  intros Hi. unfold at_. destruct (i <? 0) eqn:?; [lia|]. unfold zlen. case_if.
  - rewrite app_nth2 by lia. by replace (Z.to_nat i - length l)%nat with 0%nat by lia.
  - destruct (Z_lt_le_dec i (Z.of_nat (length l))).
    + apply app_nth1. lia.
    + rewrite (nth_overflow l), (nth_overflow (l ++ [a])); rewrite ?length_app; simpl; lia || done.
Qed.

Lemma at_replicate {A} (a : A) n i : at_ a (replicate n a) i = a.
Proof.
  unfold at_. case_if; [done|]. rewrite nth_lookup. destruct (decide (Z.to_nat i < n)%nat).
  - by rewrite lookup_replicate_2.
  - rewrite lookup_ge_None_2; [done|]. rewrite length_replicate. lia.
Qed.

#[export] Hint Rewrite @length_set_at @zlen_set_at : arrays.

Lemma drop_S_cons {A} (d : A) (l : list A) n : (n < length l)%nat -> drop n l = nth n l d :: drop (S n) l.
Proof.
  revert n. induction l as [|x l IH]; intros n Hn; [simpl in Hn; lia|]. destruct n as [|n]; [done|]. simpl. apply IH. simpl in Hn. lia.
Qed.

(** The C loop [for (i = 0; i < n; ++i) f(i)] over a state. *)
Definition for_z {S} (lo hi : Z) (f : Z -> S -> S) (s : S) : S :=
  fold_left (fun s i => f (lo + Z.of_nat i) s) (seq 0 (Z.to_nat (hi - lo))) s.

Lemma for_z_nil {S} lo hi (f : Z -> S -> S) s : hi <= lo -> for_z lo hi f s = s.
Proof. intros H. unfold for_z. by replace (Z.to_nat (hi - lo)) with 0%nat by lia. Qed.

Lemma for_z_last {S} lo hi (f : Z -> S -> S) s :
  lo <= hi -> for_z lo (hi + 1) f s = f hi (for_z lo hi f s).
Proof.
  intros H. unfold for_z.
  replace (Z.to_nat (hi + 1 - lo)) with (Z.to_nat (hi - lo) + 1)%nat by lia.
  rewrite seq_app, fold_left_app. simpl. f_equal. lia.
Qed.

(** The invariant rule of that loop. *)
Lemma for_z_ind {S} (P : Z -> S -> Prop) lo hi (f : Z -> S -> S) s :
  lo <= hi -> P lo s ->
  (forall i s, lo <= i < hi -> P i s -> P (i + 1) (f i s)) ->
  P hi (for_z lo hi f s).
Proof.
  intros Hle H0 Hstep.
  assert (Hn : forall n : nat, lo + Z.of_nat n <= hi -> P (lo + Z.of_nat n) (for_z lo (lo + Z.of_nat n) f s)).
  { induction n as [|n IH]; intros Hn.
    - rewrite for_z_nil by lia. by replace (lo + Z.of_nat 0) with lo by lia.
    - replace (lo + Z.of_nat (Datatypes.S n)) with (lo + Z.of_nat n + 1) by lia.
      rewrite for_z_last by lia. apply Hstep; [lia|]. apply IH. lia. }
  specialize (Hn (Z.to_nat (hi - lo))).
  replace (lo + Z.of_nat (Z.to_nat (hi - lo))) with hi in Hn by lia. auto with lia.
Qed.

Lemma for_z_ext {S} lo hi (f f' : Z -> S -> S) s :
  (forall i s, lo <= i < hi -> f i s = f' i s) -> for_z lo hi f s = for_z lo hi f' s.
Proof.
  intros E. destruct (Z_le_gt_dec lo hi); [|by rewrite !for_z_nil by lia].
  apply (for_z_ind (fun i s' => s' = for_z lo i f' s)); [done|by rewrite for_z_nil by lia|].
  intros i s' Hi ->. rewrite for_z_last by lia. by apply E.
Qed.

(** The C string at the front of a buffer: what precedes the terminator. *)
Fixpoint c_string (l : list Z) : list Z :=
  match l with
  | [] => []
  | c :: t => if c =? 0 then [] else c :: c_string t
  end.

Lemma c_string_app t k : Forall (fun c => c <> 0) t -> c_string (t ++ 0 :: k) = t.
Proof. induction 1 as [|c t Hc Ht IH]; [done|]. cbn [app c_string]. case_if; [lia|]. by rewrite IH. Qed.
