(* ===== verification/Rect.v ===== *)
(** * Rectangles (system/gfx/gfx2d.c, system/gfx/pixels.c)

    The geometry every graphical component works with: [struct sx_rect] and its
    operations, the two clippers that guard every write to a pixel buffer, and
    what they mean as sets of points. *)

From S2P Require Import Prelude.

(** [struct sx_rect] (include/sxgfx/gfx2d.h). *)
Record sx_rect := mk_rect { rx : Z; ry : Z; rw : Z; rh : Z }.

#[export] Instance sx_rect_eq_dec : EqDecision sx_rect.
Proof. solve_decision. Defined.

Definition sx_rect_make (x y width height : Z) : sx_rect := mk_rect x y width height.
Definition sx_rect_is_empty (r : sx_rect) : bool := (rw r <=? 0) || (rh r <=? 0).
Definition sx_rect_right (r : sx_rect) : Z := rx r + rw r.
Definition sx_rect_bottom (r : sx_rect) : Z := ry r + rh r.
Definition sx_rect_translate (r : sx_rect) (dx dy : Z) : sx_rect :=
  mk_rect (rx r + dx) (ry r + dy) (rw r) (rh r).

Definition sx_rect_intersect (left right : sx_rect) : sx_rect :=
  let x := if rx left >? rx right then rx left else rx right in
  let y := if ry left >? ry right then ry left else ry right in
  let r := if sx_rect_right left <? sx_rect_right right
           then sx_rect_right left else sx_rect_right right in
  let b := if sx_rect_bottom left <? sx_rect_bottom right
           then sx_rect_bottom left else sx_rect_bottom right in
  let width := r - x in
  let height := b - y in
  mk_rect x y (if width <? 0 then 0 else width) (if height <? 0 then 0 else height).

Definition sx_rect_union (left right : sx_rect) : sx_rect :=
  let x := if rx left <? rx right then rx left else rx right in
  let y := if ry left <? ry right then ry left else ry right in
  let r := if sx_rect_right left >? sx_rect_right right
           then sx_rect_right left else sx_rect_right right in
  let b := if sx_rect_bottom left >? sx_rect_bottom right
           then sx_rect_bottom left else sx_rect_bottom right in
  if sx_rect_is_empty left then right
  else if sx_rect_is_empty right then left
  else mk_rect x y (r - x) (b - y).

Definition sx_rect_contains_point (r : sx_rect) (x y : Z) : bool :=
  negb (sx_rect_is_empty r) &&
  (x >=? rx r) && (y >=? ry r) && (x <? sx_rect_right r) && (y <? sx_rect_bottom r).

(** The clip of [gfx_clip_rect] (pixels.c): [None] is the return value 0, which
    leaves the caller's variables alone; [pitch], [iw] and [ih] are the fields
    of [struct savanxp_fb_info]. *)
Definition gfx_clip_rect (pitch iw ih : Z) (r : sx_rect) : option sx_rect :=
  if pitch =? 0 then None
  else if (rw r <=? 0) || (rh r <=? 0) then None
  else
    let '(x, w) := if rx r <? 0 then (0, rw r + rx r) else (rx r, rw r) in
    let '(y, h) := if ry r <? 0 then (0, rh r + ry r) else (ry r, rh r) in
    if (w <=? 0) || (h <=? 0) then None
    else if (x >=? iw) || (y >=? ih) then None
    else
      let w := if x + w >? iw then iw - x else w in
      let h := if y + h >? ih then ih - y else h in
      if (w <=? 0) || (h <=? 0) then None else Some (mk_rect x y w h).

(** [sx_clip_rect_to_bitmap] (gfx2d.c) on a bitmap that has pixels: the rect it
    leaves in place when it returns 1. *)
Definition sx_clip_rect_to_bitmap (bw bh : Z) (r : sx_rect) : option sx_rect :=
  if (rw r <=? 0) || (rh r <=? 0) then None
  else
    let '(x, w) := if rx r <? 0 then (0, rw r + rx r) else (rx r, rw r) in
    let '(y, h) := if ry r <? 0 then (0, rh r + ry r) else (ry r, rh r) in
    if (w <=? 0) || (h <=? 0) || (x >=? bw) || (y >=? bh) then None
    else
      let right := if x + w >? bw then bw else x + w in
      let bottom := if y + h >? bh then bh else y + h in
      let w' := right - x in
      let h' := bottom - y in
      if (w' >? 0) && (h' >? 0) then Some (mk_rect x y w' h') else None.

(** ** Rectangles as sets of points *)

Definition in_rect (r : sx_rect) (x y : Z) : Prop :=
  rx r <= x < rx r + rw r /\ ry r <= y < ry r + rh r.

Create HintDb rect.

Ltac rect_unfold :=
  unfold sx_rect_make, sx_rect_translate, sx_rect_contains_point, sx_rect_intersect,
    sx_rect_union, sx_rect_is_empty, sx_rect_right, sx_rect_bottom, in_rect in *;
  simpl in *.
Ltac rect_lia := rect_unfold; repeat (case_any; simpl in *; try lia); lia.

Lemma contains_point_iff r x y :
  sx_rect_contains_point r x y = true <-> in_rect r x y.
Proof. rect_lia. Qed.

Lemma in_rect_empty r x y : sx_rect_is_empty r = true -> ~ in_rect r x y.
Proof. rect_lia. Qed.

Lemma empty_no_points r :
  sx_rect_is_empty r = true <-> forall x y, ~ in_rect r x y.
Proof.
  split; [intros H x y; by apply in_rect_empty|].
  intros H. specialize (H (rx r) (ry r)). rect_lia.
Qed.

Lemma in_rect_intersect a b x y :
  in_rect (sx_rect_intersect a b) x y <-> in_rect a x y /\ in_rect b x y.
Proof. rect_lia. Qed.

Lemma in_rect_union_l a b x y : in_rect a x y -> in_rect (sx_rect_union a b) x y.
Proof. rect_lia. Qed.
Lemma in_rect_union_r a b x y : in_rect b x y -> in_rect (sx_rect_union a b) x y.
Proof. rect_lia. Qed.

(** The union is the smallest rectangle that covers both. *)
Lemma union_least a b c :
  (forall x y, in_rect a x y -> in_rect c x y) ->
  (forall x y, in_rect b x y -> in_rect c x y) ->
  forall x y, in_rect (sx_rect_union a b) x y -> in_rect c x y.
Proof.
  intros Ha Hb x y Hu.
  unfold sx_rect_union in Hu.
  destruct (sx_rect_is_empty a) eqn:Ea; [by apply Hb|].
  destruct (sx_rect_is_empty b) eqn:Eb; [by apply Ha|].
  pose proof (Ha (rx a) (ry a)). pose proof (Ha (rx a + rw a - 1) (ry a + rh a - 1)).
  pose proof (Hb (rx b) (ry b)). pose proof (Hb (rx b + rw b - 1) (ry b + rh b - 1)).
  rect_lia.
Qed.

#[export] Hint Resolve in_rect_union_l in_rect_union_r : rect.

(** The clip computes exactly the intersection with the buffer's rectangle. *)
Definition buffer_rect (iw ih : Z) : sx_rect := mk_rect 0 0 iw ih.

Lemma gfx_clip_rect_points pitch iw ih r r' :
  gfx_clip_rect pitch iw ih r = Some r' ->
  sx_rect_is_empty r' = false /\
  forall x y, in_rect r' x y <-> in_rect r x y /\ in_rect (buffer_rect iw ih) x y.
Proof.
  unfold gfx_clip_rect, buffer_rect. intros H.
  repeat (case_if_in H; simpl in H; try discriminate); simplify_eq;
    (split; [|intros x y]); rect_lia.
Qed.

Lemma gfx_clip_rect_none pitch iw ih r :
  pitch <> 0 -> gfx_clip_rect pitch iw ih r = None ->
  forall x y, ~ (in_rect r x y /\ in_rect (buffer_rect iw ih) x y).
Proof.
  unfold gfx_clip_rect, buffer_rect. intros Hp H x y.
  repeat (case_if_in H; simpl in H; try discriminate); simplify_eq; rect_lia.
Qed.

(** The painter's clipper and the pixel clipper agree. *)
Lemma clip_to_bitmap_agrees pitch iw ih r :
  pitch <> 0 -> sx_clip_rect_to_bitmap iw ih r = gfx_clip_rect pitch iw ih r.
Proof.
  unfold sx_clip_rect_to_bitmap, gfx_clip_rect. intros Hp.
  destruct (pitch =? 0) eqn:?; [lia|].
  repeat (case_if; simpl; try reflexivity; try lia); f_equal; f_equal; lia.
Qed.
