(* ===== verification/Region.v ===== *)
(** * Banded regions (system/gfx/gfx2d.c, "Banded regions")

    [struct sx_region]: Y bands, each with its X spans, the shape the compositor
    and the painter clip against.  The arrays of the source are lists here and
    the counts their lengths; cells past a count are never read.  The three
    operations against a rectangle share one sweep, [sx_region_apply_rect], and
    are modelled through it as in the source.  The theorems about them are in
    RegionFacts. *)

From S2P Require Import Prelude Rect.

Definition SX_REGION_MAX_BANDS : Z := 32.
Definition SX_REGION_MAX_SPANS_PER_BAND : Z := 8.

Record sx_region_span := mk_span { sp_x0 : Z; sp_x1 : Z }.
Record sx_region_band := mk_band { bd_y0 : Z; bd_y1 : Z; bd_spans : list sx_region_span }.
Record sx_region := mk_region { rg_bands : list sx_region_band; rg_overflowed : bool }.

#[export] Instance sx_region_span_eq_dec : EqDecision sx_region_span.
Proof. solve_decision. Defined.
#[export] Instance sx_region_band_eq_dec : EqDecision sx_region_band.
Proof. solve_decision. Defined.
#[export] Instance sx_region_eq_dec : EqDecision sx_region.
Proof. solve_decision. Defined.

Inductive sx_region_op := OP_UNION | OP_SUBTRACT | OP_INTERSECT.

Definition sx_region_clear : sx_region := mk_region [] false.
Definition sx_region_is_empty (r : sx_region) : bool :=
  match rg_bands r with [] => true | _ => false end.

Definition sx_region_copy (source : option sx_region) : sx_region :=
  match source with Some r => r | None => sx_region_clear end.

Definition sx_region_set_rect (rect : sx_rect) : sx_region :=
  if sx_rect_is_empty rect then sx_region_clear
  else mk_region
         [mk_band (ry rect) (sx_rect_bottom rect)
                  [mk_span (rx rect) (sx_rect_right rect)]] false.

Definition span0 : sx_region_span := mk_span 0 0.
Definition band0 : sx_region_band := mk_band 0 0 [].

(** [spans[0].x0] and [spans[span_count - 1].x1]. *)
Definition band_left (b : sx_region_band) : Z := sp_x0 (hd span0 (bd_spans b)).
Definition band_right (b : sx_region_band) : Z := sp_x1 (List.last (bd_spans b) span0).

Definition sx_region_bounds (r : sx_region) : sx_rect :=
  match rg_bands r with
  | [] => sx_rect_make 0 0 0 0
  | first :: rest =>
      let '(x0, x1) :=
        fold_left (fun '(x0, x1) band =>
                     (if band_left band <? x0 then band_left band else x0,
                      if band_right band >? x1 then band_right band else x1))
                  rest (band_left first, band_right first) in
      sx_rect_make x0 (bd_y0 first) (x1 - x0)
                   (bd_y1 (List.last (rg_bands r) band0) - bd_y0 first)
  end.

Definition sx_region_rect_count (r : sx_region) : Z :=
  fold_left (fun total b => total + zlen (bd_spans b)) (rg_bands r) 0.

Fixpoint rect_at_from (bs : list sx_region_band) (seen index : Z) : option sx_rect :=
  match bs with
  | [] => None
  | b :: rest =>
      let span_count := zlen (bd_spans b) in
      if index <? seen + span_count then
        let s := at_ span0 (bd_spans b) (index - seen) in
        Some (sx_rect_make (sp_x0 s) (bd_y0 b) (sp_x1 s - sp_x0 s) (bd_y1 b - bd_y0 b))
      else rect_at_from rest (seen + span_count) index
  end.
Definition sx_region_rect_at (r : sx_region) (index : Z) : option sx_rect :=
  rect_at_from (rg_bands r) 0 index.

Fixpoint contains_point_from (bs : list sx_region_band) (x y : Z) : bool :=
  match bs with
  | [] => false
  | b :: rest =>
      if y <? bd_y0 b then false
      else if y >=? bd_y1 b then contains_point_from rest x y
      else existsb (fun s => (x >=? sp_x0 s) && (x <? sp_x1 s)) (bd_spans b)
  end.
Definition sx_region_contains_point (r : sx_region) (x y : Z) : bool :=
  contains_point_from (rg_bands r) x y.

Definition sx_region_collapse (r : sx_region) : sx_region :=
  let bounds := sx_region_bounds r in
  if sx_rect_is_empty bounds then mk_region [] true
  else mk_region
         [mk_band (ry bounds) (sx_rect_bottom bounds)
                  [mk_span (rx bounds) (sx_rect_right bounds)]] true.

(** The first loop of [sx_span_list_add]: the spans left of the insertion
    point, the hull, and the spans right of it. *)
Fixpoint span_absorb (spans : list sx_region_span) (x0 x1 : Z)
  : list sx_region_span * Z * Z * list sx_region_span :=
  match spans with
  | [] => ([], x0, x1, [])
  | s :: rest =>
      if sp_x1 s <? x0 then
        let '(before, a0, a1, after) := span_absorb rest x0 x1 in (s :: before, a0, a1, after)
      else if sp_x0 s >? x1 then ([], x0, x1, s :: rest)
      else span_absorb rest (if sp_x0 s <? x0 then sp_x0 s else x0)
                            (if sp_x1 s >? x1 then sp_x1 s else x1)
  end.

(** [None]: it did not fit (the source returns 0). *)
Definition sx_span_list_add (spans : list sx_region_span) (x0 x1 : Z)
  : option (list sx_region_span) :=
  if x0 >=? x1 then Some spans
  else
    let '(before, a0, a1, after) := span_absorb spans x0 x1 in
    if zlen (before ++ after) >=? SX_REGION_MAX_SPANS_PER_BAND then None
    else Some (before ++ mk_span a0 a1 :: after).

(** The body of the loop over the band's spans, for each operation. *)
Definition span_step (op : sx_region_op) (rx0 rx1 : Z) (rect_covers_row : bool)
    (s : sx_region_span) (out : list sx_region_span) : option (list sx_region_span) :=
  let x0 := sp_x0 s in
  let x1 := sp_x1 s in
  match op with
  | OP_UNION => sx_span_list_add out x0 x1
  | OP_INTERSECT =>
      let c0 := if x0 >? rx0 then x0 else rx0 in
      let c1 := if x1 <? rx1 then x1 else rx1 in
      if c0 <? c1 then sx_span_list_add out c0 c1 else Some out
  | OP_SUBTRACT =>
      if negb rect_covers_row || (rx1 <=? x0) || (rx0 >=? x1)
      then sx_span_list_add out x0 x1
      else
        match (if x0 <? rx0 then sx_span_list_add out x0 rx0 else Some out) with
        | None => None
        | Some out => if rx1 <? x1 then sx_span_list_add out rx1 x1 else Some out
        end
  end.

Fixpoint span_loop (op : sx_region_op) (rx0 rx1 : Z) (rect_covers_row : bool)
    (spans out : list sx_region_span) : option (list sx_region_span) :=
  match spans with
  | [] => Some out
  | s :: rest =>
      match span_step op rx0 rx1 rect_covers_row s out with
      | None => None
      | Some out => span_loop op rx0 rx1 rect_covers_row rest out
      end
  end.

Definition sx_span_list_apply (spans : list sx_region_span) (rx0 rx1 : Z)
    (op : sx_region_op) (rect_covers_row : bool) : option (list sx_region_span) :=
  match op with
  | OP_UNION =>
      match span_loop op rx0 rx1 rect_covers_row spans [] with
      | None => None
      | Some out => if rect_covers_row then sx_span_list_add out rx0 rx1 else Some out
      end
  | OP_INTERSECT =>
      if negb rect_covers_row then Some []
      else span_loop op rx0 rx1 rect_covers_row spans []
  | OP_SUBTRACT => span_loop op rx0 rx1 rect_covers_row spans []
  end.

Fixpoint sx_bands_equal (left right : list sx_region_span) : bool :=
  match left, right with
  | [], [] => true
  | a :: l, b :: r => (sp_x0 a =? sp_x0 b) && (sp_x1 a =? sp_x1 b) && sx_bands_equal l r
  | _, _ => false
  end.

Definition sx_region_append_band (out : list sx_region_band) (y0 y1 : Z)
    (spans : list sx_region_span) : option (list sx_region_band) :=
  let push :=
    if zlen out >=? SX_REGION_MAX_BANDS then None
    else Some (out ++ [mk_band y0 y1 spans]) in
  if (y0 >=? y1) || (zlen spans <=? 0) then Some out
  else match list.last out with
       | None => push
       | Some previous =>
           if (bd_y1 previous =? y0) && sx_bands_equal (bd_spans previous) spans
           then Some (removelast out ++ [mk_band (bd_y0 previous) y1 (bd_spans previous)])
           else push
       end.

(** [if (!have_next || edge < next) next = edge]. *)
Definition min_edge (next : option Z) (edge : Z) : option Z :=
  match next with
  | None => Some edge
  | Some n => if edge <? n then Some edge else Some n
  end.

(** The scan of one turn of the sweep: the band covering [cut] and the nearest
    band edge below it. *)
Definition sweep_scan (bs : list sx_region_band) (cut : Z)
  : option sx_region_band * option Z :=
  fold_left (fun '(covering, next) b =>
               if (bd_y0 b <=? cut) && (cut <? bd_y1 b)
               then (Some b, min_edge next (bd_y1 b))
               else if bd_y0 b >? cut then (covering, min_edge next (bd_y0 b))
               else (covering, next)) bs (None, None).

(** The rectangle's own edges join the scan: always for a union, and only while
    a band covers [cut] otherwise. *)
Definition sweep_next (op : sx_region_op) (ry0 ry1 cut : Z)
    (covering : option sx_region_band) (next : option Z) : option Z :=
  match op with
  | OP_UNION =>
      let next := if ry0 >? cut then min_edge next ry0 else next in
      if ry1 >? cut then min_edge next ry1 else next
  | _ =>
      match covering, next with
      | Some _, Some n =>
          let n := if (ry0 >? cut) && (ry0 <? n) then ry0 else n in
          Some (if (ry1 >? cut) && (ry1 <? n) then ry1 else n)
      | _, _ => next
      end
  end.

(** The [while (ok)] loop.  Outer [None]: out of fuel, which [sweep_fuel]
    excludes (RegionFacts.sweep_terminates); inner [None]: [ok] became 0. *)
Fixpoint sweep (fuel : nat) (bs : list sx_region_band) (rect : sx_rect)
    (op : sx_region_op) (cut : Z) (scratch : list sx_region_band)
  : option (option (list sx_region_band)) :=
  match fuel with
  | O => None
  | S fuel =>
      let ry0 := ry rect in
      let ry1 := sx_rect_bottom rect in
      let '(covering, next0) := sweep_scan bs cut in
      match sweep_next op ry0 ry1 cut covering next0 with
      | None => Some (Some scratch)
      | Some next =>
          let rect_covers_row := (cut >=? ry0) && (cut <? ry1) in
          let active :=
            match covering, op with
            | Some _, _ => true
            | None, OP_UNION => rect_covers_row
            | None, _ => false
            end in
          if active then
            match sx_span_list_apply (match covering with Some b => bd_spans b | None => [] end)
                    (rx rect) (sx_rect_right rect) op rect_covers_row with
            | None => Some None
            | Some out =>
                match sx_region_append_band scratch cut next out with
                | None => Some None
                | Some scratch => sweep fuel bs rect op next scratch
                end
            end
          else sweep fuel bs rect op next scratch
      end
  end.

(** Every turn moves [cut] to a later edge; there are two per band and the two
    of the rectangle. *)
Definition sweep_fuel (bs : list sx_region_band) : nat := 2 * length bs + 3.

Definition sweep_start (bs : list sx_region_band) (rect : sx_rect) (op : sx_region_op) : Z :=
  let cut := bd_y0 (hd band0 bs) in
  match op with
  | OP_UNION => if ry rect <? cut then ry rect else cut
  | _ => cut
  end.

Definition sx_region_apply_rect (r : sx_region) (rect : sx_rect) (op : sx_region_op)
  : sx_region :=
  if sx_rect_is_empty rect then
    match op with OP_INTERSECT => sx_region_clear | _ => r end
  else if sx_region_is_empty r then
    match op with OP_UNION => sx_region_set_rect rect | _ => r end
  else
    match sweep (sweep_fuel (rg_bands r)) (rg_bands r) rect op
                (sweep_start (rg_bands r) rect op) [] with
    | Some (Some bs) => mk_region bs (rg_overflowed r)
    | Some None =>
        match op with
        | OP_UNION =>
            mk_region (rg_bands (sx_region_set_rect (sx_rect_union (sx_region_bounds r) rect))) true
        | _ => mk_region (rg_bands (sx_region_collapse r)) true
        end
    | None => r
    end.

Definition sx_region_union_rect (r : sx_region) (rect : sx_rect) : sx_region :=
  sx_region_apply_rect r rect OP_UNION.
Definition sx_region_subtract_rect (r : sx_region) (rect : sx_rect) : sx_region :=
  sx_region_apply_rect r rect OP_SUBTRACT.
Definition sx_region_intersect_rect (r : sx_region) (rect : sx_rect) : sx_region :=
  sx_region_apply_rect r rect OP_INTERSECT.
