(* ===== verification/RegionFacts.v ===== *)
(** * Banded regions: invariant, exactness, canonicity

    The point-set semantics of a region, the canonical invariant the comment
    over the region code states, and the proofs that every operation keeps the
    invariant and computes the set operation it is named after, or a marked
    superset when it runs out of bands or spans. *)

From S2P Require Import Prelude Rect Region.

(** ** Points of a region *)

Definition in_span (s : sx_region_span) (x : Z) : Prop := sp_x0 s <= x < sp_x1 s.
Definition in_spans (ss : list sx_region_span) (x : Z) : Prop := Exists (fun s => in_span s x) ss.
Definition covers (b : sx_region_band) (y : Z) : Prop := bd_y0 b <= y < bd_y1 b.
Definition in_bands (bs : list sx_region_band) (x y : Z) : Prop :=
  Exists (fun b => covers b y /\ in_spans (bd_spans b) x) bs.
Definition in_region (r : sx_region) (x y : Z) : Prop := in_bands (rg_bands r) x y.

Definition op_sem (op : sx_region_op) (p q : Prop) : Prop :=
  match op with
  | OP_UNION => p \/ q
  | OP_SUBTRACT => p /\ ~ q
  | OP_INTERSECT => p /\ q
  end.

(** Two regions with the same points: the equivalence coarser than equality. *)
Definition region_equiv (r1 r2 : sx_region) : Prop :=
  forall x y, in_region r1 x y <-> in_region r2 x y.
#[export] Instance region_equiv_equivalence : Equivalence region_equiv.
Proof.
  split.
  - by intros r x y.
  - intros r1 r2 H x y. by rewrite (H x y).
  - intros r1 r2 r3 H1 H2 x y. by rewrite (H1 x y), (H2 x y).
Qed.
#[export] Instance in_region_proper : Proper (region_equiv ==> eq ==> eq ==> iff) in_region.
Proof. intros r1 r2 H x ? <- y ? <-. apply H. Qed.

(** ** The canonical invariant *)

Fixpoint spans_after (lo : Z) (ss : list sx_region_span) : Prop :=
  match ss with
  | [] => True
  | s :: t => lo < sp_x0 s /\ sp_x0 s < sp_x1 s /\ spans_after (sp_x1 s) t
  end.
Definition spans_ok (ss : list sx_region_span) : Prop := exists lo, spans_after lo ss.

Definition band_ok (b : sx_region_band) : Prop :=
  bd_y0 b < bd_y1 b /\ bd_spans b <> [] /\ spans_ok (bd_spans b) /\
  zlen (bd_spans b) <= SX_REGION_MAX_SPANS_PER_BAND.

Definition follows (prev : option sx_region_band) (b : sx_region_band) : Prop :=
  match prev with
  | None => True
  | Some p => bd_y1 p <= bd_y0 b /\ (bd_y1 p = bd_y0 b -> bd_spans p <> bd_spans b)
  end.

Fixpoint bands_ok (prev : option sx_region_band) (bs : list sx_region_band) : Prop :=
  match bs with
  | [] => True
  | b :: t => band_ok b /\ follows prev b /\ bands_ok (Some b) t
  end.

Definition region_ok (r : sx_region) : Prop :=
  bands_ok None (rg_bands r) /\ zlen (rg_bands r) <= SX_REGION_MAX_BANDS.

(** ** Spans *)

Lemma in_spans_nil x : ~ in_spans [] x.
Proof. intros H. inversion H. Qed.
Lemma in_spans_cons s t x : in_spans (s :: t) x <-> in_span s x \/ in_spans t x.
Proof. apply Exists_cons. Qed.
Lemma in_spans_app a b x : in_spans (a ++ b) x <-> in_spans a x \/ in_spans b x.
Proof. apply Exists_app. Qed.

Lemma spans_after_mono lo lo' ss : lo' <= lo -> spans_after lo ss -> spans_after lo' ss.
Proof. destruct ss; simpl; [done|]. intros; conjs; try done; lia. Qed.

Lemma spans_after_bound lo ss x : spans_after lo ss -> in_spans ss x -> lo < x.
Proof.
  revert lo. induction ss as [|s t IH]; intros lo H Hx; [by apply in_spans_nil in Hx|].
  simpl in H. apply in_spans_cons in Hx as [Hx|Hx]; [unfold in_span in Hx; lia|].
  destruct H as (? & ? & H). specialize (IH _ H Hx). lia.
Qed.

Lemma spans_ok_nil : spans_ok [].
Proof. by exists 0. Qed.
#[export] Hint Resolve spans_ok_nil : rect.

(** What the absorbing loop leaves is sorted again and covers the same points
    plus the new span. *)
Lemma span_absorb_spec ss : forall lo x0 x1 before a0 a1 after,
  spans_after lo ss -> lo < x0 -> x0 < x1 ->
  span_absorb ss x0 x1 = (before, a0, a1, after) ->
  spans_after lo (before ++ mk_span a0 a1 :: after) /\
  forall x, in_spans (before ++ mk_span a0 a1 :: after) x <-> in_spans ss x \/ x0 <= x < x1.
Proof.
  induction ss as [|s t IH]; intros lo x0 x1 before a0 a1 after Hok Hlo Hx Ha; simpl in Ha.
  - simplify_eq/=. split; [lia|]. intros x. rewrite in_spans_cons. unfold in_span. simpl. tauto.
  - simpl in Hok. destruct Hok as (H1 & H2 & H3).
    destruct (sp_x1 s <? x0) eqn:E1.
    + destruct (span_absorb t x0 x1) as [[[b' c0] c1] r'] eqn:Et. simplify_eq/=.
      destruct (IH (sp_x1 s) x0 x1 b' a0 a1 after) as [I1 I2]; try done; try lia.
      split; [done|]. intros x. rewrite in_spans_cons, I2, in_spans_cons. tauto.
    + destruct (sp_x0 s >? x1) eqn:E2.
      * simplify_eq/=. split; [conjs; try done; lia|].
        intros x. rewrite in_spans_cons. unfold in_span at 1. simpl. tauto.
      * apply (IH lo) in Ha as [I1 I2]; try lia.
        -- split; [done|]. intros x. rewrite I2, in_spans_cons. unfold in_span.
           repeat case_any; try lia; intuition lia.
        -- apply (spans_after_mono (sp_x1 s)); [lia|done].
        -- case_if; lia.
        -- case_ifs; lia.
Qed.

Lemma sx_span_list_add_spec ss x0 x1 ss' :
  spans_ok ss -> zlen ss <= SX_REGION_MAX_SPANS_PER_BAND ->
  sx_span_list_add ss x0 x1 = Some ss' ->
  spans_ok ss' /\ zlen ss' <= SX_REGION_MAX_SPANS_PER_BAND /\
  forall x, in_spans ss' x <-> in_spans ss x \/ x0 <= x < x1.
Proof.
  intros [lo Hok] Hlen H. unfold sx_span_list_add in H.
  destruct (x0 >=? x1) eqn:E.
  { simplify_eq. split; [by exists lo|]. split; [done|]. intros x. intuition lia. }
  destruct (span_absorb ss x0 x1) as [[[before a0] a1] after] eqn:Ea.
  case_if_in H; simplify_eq.
  apply (span_absorb_spec ss (Z.min lo (x0 - 1))) in Ea as [I1 I2]; try lia.
  2: { apply (spans_after_mono lo); [lia|done]. }
  split; [by eexists|]. split; [|done].
  unfold zlen, SX_REGION_MAX_SPANS_PER_BAND in *. rewrite !length_app in *. simpl. lia.
Qed.

(** One span through the operation: what it contributes. *)
Definition contributes (op : sx_region_op) (rx0 rx1 : Z) (cover : bool) (s : sx_region_span) (x : Z) : Prop :=
  in_span s x /\
  match op with
  | OP_UNION => True
  | OP_INTERSECT => rx0 <= x < rx1
  | OP_SUBTRACT => ~ (cover = true /\ rx0 <= x < rx1)
  end.

Lemma span_step_spec op rx0 rx1 cover s out out' :
  rx0 < rx1 -> spans_ok out -> zlen out <= SX_REGION_MAX_SPANS_PER_BAND ->
  span_step op rx0 rx1 cover s out = Some out' ->
  spans_ok out' /\ zlen out' <= SX_REGION_MAX_SPANS_PER_BAND /\
  forall x, in_spans out' x <-> in_spans out x \/ contributes op rx0 rx1 cover s x.
Proof.
  intros Hr Hok Hlen H. unfold span_step in H. unfold contributes, in_span.
  destruct op.
  - apply sx_span_list_add_spec in H as (? & ? & Hx); try done.
    split; [done|]. split; [done|]. intros x. rewrite Hx. tauto.
  - case_if_in H.
    { apply sx_span_list_add_spec in H as (? & ? & Hx); try done.
      split; [done|]. split; [done|]. intros x. rewrite Hx.
      destruct cover; simpl in *; intuition (try discriminate; try lia). }
    destruct cover; simpl in *; [|discriminate].
    destruct (if sp_x0 s <? rx0 then _ else _) as [o1|] eqn:E1; [|done].
    assert (Ho1 : spans_ok o1 /\ zlen o1 <= SX_REGION_MAX_SPANS_PER_BAND /\
                  forall x, in_spans o1 x <-> in_spans out x \/ sp_x0 s <= x < rx0).
    { case_if_in E1; [by apply sx_span_list_add_spec in E1|]. simplify_eq.
      split; [done|]. split; [done|]. intros x. intuition lia. }
    destruct Ho1 as (K1 & K2 & K3).
    case_if_in H.
    + apply sx_span_list_add_spec in H as (? & ? & Hx); try done.
      split; [done|]. split; [done|]. intros x. rewrite Hx, K3. intuition (try lia).
    + simplify_eq. split; [done|]. split; [done|]. intros x. rewrite K3. intuition (try lia).
  - match type of H with (if ?b then _ else _) = _ => destruct b eqn:E end.
    + apply sx_span_list_add_spec in H as (? & ? & Hx); try done.
      split; [done|]. split; [done|]. intros x. rewrite Hx.
      repeat case_any; intuition lia.
    + simplify_eq. split; [done|]. split; [done|]. intros x.
      repeat case_any; intuition lia.
Qed.

Lemma span_loop_spec op rx0 rx1 cover spans : forall out out',
  rx0 < rx1 -> spans_ok out -> zlen out <= SX_REGION_MAX_SPANS_PER_BAND ->
  span_loop op rx0 rx1 cover spans out = Some out' ->
  spans_ok out' /\ zlen out' <= SX_REGION_MAX_SPANS_PER_BAND /\
  forall x, in_spans out' x <->
            in_spans out x \/ Exists (fun s => contributes op rx0 rx1 cover s x) spans.
Proof.
  induction spans as [|s t IH]; intros out out' Hr Hok Hlen H; simpl in H.
  - simplify_eq. split; [done|]. split; [done|]. intros x. rewrite Exists_nil. tauto.
  - destruct (span_step op rx0 rx1 cover s out) as [o1|] eqn:E1; [|done].
    apply span_step_spec in E1 as (K1 & K2 & K3); try done.
    apply IH in H as (I1 & I2 & I3); try done.
    split; [done|]. split; [done|]. intros x. rewrite I3, K3, Exists_cons. tauto.
Qed.

Lemma contributes_exists op rx0 rx1 cover ss x :
  Exists (fun s => contributes op rx0 rx1 cover s x) ss <->
  in_spans ss x /\
  match op with
  | OP_UNION => True
  | OP_INTERSECT => rx0 <= x < rx1
  | OP_SUBTRACT => ~ (cover = true /\ rx0 <= x < rx1)
  end.
Proof.
  unfold in_spans. induction ss as [|s t IH].
  - rewrite !Exists_nil. tauto.
  - rewrite !Exists_cons, IH. unfold contributes. destruct op; tauto.
Qed.

Lemma sx_span_list_apply_spec spans rx0 rx1 op cover out :
  rx0 < rx1 -> sx_span_list_apply spans rx0 rx1 op cover = Some out ->
  spans_ok out /\ zlen out <= SX_REGION_MAX_SPANS_PER_BAND /\
  forall x, in_spans out x <->
            op_sem op (in_spans spans x) (cover = true /\ rx0 <= x < rx1).
Proof.
  intros Hr H. unfold sx_span_list_apply in H.
  pose proof (in_spans_nil) as Hn.
  assert (Hnil : zlen (@nil sx_region_span) <= SX_REGION_MAX_SPANS_PER_BAND) by done.
  destruct op; simpl.
  - destruct (span_loop _ _ _ _ _ _) as [o1|] eqn:E1; [|done].
    apply span_loop_spec in E1 as (K1 & K2 & K3); auto with rect.
    setoid_rewrite contributes_exists in K3.
    destruct cover.
    + apply sx_span_list_add_spec in H as (? & ? & Hx); try done.
      split; [done|]. split; [done|]. intros x. rewrite Hx, K3. naive_solver.
    + simplify_eq. split; [done|]. split; [done|]. intros x. rewrite K3. naive_solver.
  - apply span_loop_spec in H as (K1 & K2 & K3); auto with rect.
    setoid_rewrite contributes_exists in K3.
    split; [done|]. split; [done|]. intros x. rewrite K3. naive_solver.
  - destruct cover; simpl in H.
    + apply span_loop_spec in H as (K1 & K2 & K3); auto with rect.
      setoid_rewrite contributes_exists in K3.
      split; [done|]. split; [done|]. intros x. rewrite K3. naive_solver.
    + simplify_eq. split; [auto with rect|]. split; [done|]. naive_solver.
Qed.

(** ** Bands *)

Lemma in_bands_nil x y : ~ in_bands [] x y.
Proof. intros H. inversion H. Qed.
Lemma in_bands_cons b t x y :
  in_bands (b :: t) x y <-> (covers b y /\ in_spans (bd_spans b) x) \/ in_bands t x y.
Proof. apply Exists_cons. Qed.
Lemma in_bands_app a b x y : in_bands (a ++ b) x y <-> in_bands a x y \/ in_bands b x y.
Proof. apply Exists_app. Qed.
Lemma list_exists_elem {A} (P : A -> Prop) l : Exists P l <-> exists a, a ∈ l /\ P a.
Proof. apply list.Exists_exists. Qed.
Lemma in_bands_elem bs x y :
  in_bands bs x y <-> exists b, b ∈ bs /\ covers b y /\ in_spans (bd_spans b) x.
Proof. apply list_exists_elem. Qed.

Lemma bands_ok_weaken prev bs : bands_ok prev bs -> bands_ok None bs.
Proof. destruct bs; simpl; naive_solver. Qed.

Lemma last_cons_some {A} (a : A) l : exists z, list.last (a :: l) = Some z.
Proof.
  revert a. induction l as [|b l IH]; intros a; [by exists a|].
  destruct (IH b) as [z Hz]. exists z. by rewrite last_cons_cons.
Qed.

(** A canonical list is extended at its end. *)
Lemma bands_ok_snoc prev l b :
  bands_ok prev (l ++ [b]) <->
  bands_ok prev l /\ band_ok b /\
  follows (match list.last l with Some z => Some z | None => prev end) b.
Proof.
  revert prev. induction l as [|a l IH]; intros prev; simpl; [tauto|].
  rewrite IH. destruct l as [|c l]; [simpl; tauto|].
  rewrite last_cons_cons. destruct (last_cons_some c l) as [z ->]. tauto.
Qed.

Lemma bands_ok_forall prev bs b : bands_ok prev bs -> b ∈ bs -> band_ok b.
Proof.
  revert prev. induction bs as [|a t IH]; intros prev H Hin; [by apply not_elem_of_nil in Hin|].
  simpl in H. destruct H as (H1 & H2 & H3).
  apply elem_of_cons in Hin as [->|Hin]; [done|]. by eapply IH.
Qed.

(** Later bands start where the earlier ones have ended. *)
Lemma bands_ok_order prev bs b :
  bands_ok (Some prev) bs -> b ∈ bs -> bd_y1 prev <= bd_y0 b.
Proof.
  revert prev. induction bs as [|a t IH]; intros prev H Hin; [by apply not_elem_of_nil in Hin|].
  simpl in H. destruct H as ((Hy & _) & (Hle & _) & H3).
  apply elem_of_cons in Hin as [->|Hin]; [done|].
  specialize (IH _ H3 Hin). lia.
Qed.

Lemma bands_cover_unique prev bs b c y :
  bands_ok prev bs -> b ∈ bs -> c ∈ bs -> covers b y -> covers c y -> b = c.
Proof.
  revert prev. induction bs as [|a t IH]; intros prev H Hb Hc Cb Cc; [by apply not_elem_of_nil in Hb|].
  simpl in H. destruct H as (_ & _ & H3). unfold covers in *.
  apply elem_of_cons in Hb as [->|Hb]; apply elem_of_cons in Hc as [->|Hc]; try done.
  - pose proof (bands_ok_order _ _ _ H3 Hc). lia.
  - pose proof (bands_ok_order _ _ _ H3 Hb). lia.
  - by eapply IH.
Qed.

Lemma last_elem {A} (l : list A) z : list.last l = Some z -> z ∈ l.
Proof.
  intros H. apply last_Some in H as [k ->]. apply elem_of_app. right. by constructor.
Qed.

(** The last band ends after every other one. *)
Lemma last_ends_last prev bs z b :
  bands_ok prev bs -> list.last bs = Some z -> b ∈ bs -> bd_y1 b <= bd_y1 z.
Proof.
  revert prev. induction bs as [|a t IH]; intros prev H Hz Hb; [done|].
  simpl in H. destruct H as (Ha & _ & H3). destruct t as [|c t].
  - simplify_eq/=. apply elem_of_cons in Hb as [->|Hb]; [done|by apply not_elem_of_nil in Hb].
  - rewrite last_cons_cons in Hz.
    apply elem_of_cons in Hb as [->|Hb]; [|by eapply IH].
    pose proof (bands_ok_order _ _ z H3 (last_elem _ _ Hz)).
    pose proof (bands_ok_forall _ _ z H3 (last_elem _ _ Hz)) as (? & _). lia.
Qed.

Lemma sx_bands_equal_iff l r : sx_bands_equal l r = true <-> l = r.
Proof.
  revert r. induction l as [|[a0 a1] l IH]; intros [|[b0 b1] r]; simpl; try naive_solver.
  rewrite !andb_true_iff, IH, !Z.eqb_eq. naive_solver.
Qed.

(** Appending the strip [cut, next) above which the list ends. *)
Lemma sx_region_append_band_spec out cut next spans out' :
  bands_ok None out -> zlen out <= SX_REGION_MAX_BANDS ->
  (forall b, b ∈ out -> bd_y1 b <= cut) -> cut < next ->
  spans_ok spans -> zlen spans <= SX_REGION_MAX_SPANS_PER_BAND ->
  sx_region_append_band out cut next spans = Some out' ->
  bands_ok None out' /\ zlen out' <= SX_REGION_MAX_BANDS /\
  (forall b, b ∈ out' -> bd_y1 b <= next) /\
  forall x y, in_bands out' x y <-> in_bands out x y \/ (cut <= y < next /\ in_spans spans x).
Proof.
  intros Hok Hlen Hend Hcn Hs Hsl H. unfold sx_region_append_band in H.
  destruct ((cut >=? next) || (zlen spans <=? 0)) eqn:E0.
  { simplify_eq. assert (spans = []) as -> by (destruct spans; [done|]; unfold zlen in E0; simpl in E0; lia).
    split; [done|]. split; [done|]. split.
    - intros b Hb. specialize (Hend b Hb). lia.
    - intros x y. split; [tauto|]. intros [?|[_ Hn]]; [done|by apply in_spans_nil in Hn]. }
  assert (Hne : spans <> []) by (intros ->; unfold zlen in E0; simpl in E0; lia).
  set (push := if zlen out >=? SX_REGION_MAX_BANDS then None else Some (out ++ [mk_band cut next spans])) in H.
  assert (Hpush : push = Some out' -> follows (list.last out) (mk_band cut next spans) ->
    bands_ok None out' /\ zlen out' <= SX_REGION_MAX_BANDS /\
    (forall b, b ∈ out' -> bd_y1 b <= next) /\
    forall x y, in_bands out' x y <-> in_bands out x y \/ (cut <= y < next /\ in_spans spans x)).
  { subst push. intros Hp Hf. case_if_in Hp; simplify_eq. split; [|split; [|split]].
    - apply bands_ok_snoc. split; [done|]. split; [done|]. by destruct (list.last out).
    - unfold zlen in *. rewrite length_app. simpl. lia.
    - intros b [Hb|Hb]%elem_of_app; [specialize (Hend b Hb); lia|].
      apply list_elem_of_singleton in Hb as ->. done.
    - intros x y. rewrite in_bands_app, in_bands_cons. pose proof (in_bands_nil x y).
      unfold covers. simpl. tauto. }
  destruct (list.last out) as [prev|] eqn:El; [|by apply Hpush].
  destruct ((bd_y1 prev =? cut) && sx_bands_equal (bd_spans prev) spans) eqn:Em.
  - simplify_eq. apply andb_true_iff in Em as [Ey Es]. apply sx_bands_equal_iff in Es.
    apply last_Some in El as [k ->]. rewrite removelast_last.
    apply bands_ok_snoc in Hok as (Hk & Hp & Hf).
    assert (bd_y1 prev = cut) by lia. destruct Hp as (P1 & P2 & P3 & P4).
    split; [|split; [|split]].
    + apply bands_ok_snoc. split; [done|]. split; [|done].
      unfold band_ok. simpl. split; [lia|done].
    + unfold zlen in *. rewrite length_app in *. simpl in *. lia.
    + intros b [Hb|Hb]%elem_of_app.
      * specialize (Hend b ltac:(set_solver)). lia.
      * apply list_elem_of_singleton in Hb as ->. simpl. lia.
    + intros x y. rewrite !in_bands_app, !in_bands_cons. pose proof (in_bands_nil x y).
      unfold covers. simpl. rewrite <- Es.
      assert (bd_y0 prev <= y < next <-> bd_y0 prev <= y < bd_y1 prev \/ cut <= y < next) by lia.
      tauto.
  - apply Hpush; [done|]. simpl.
    specialize (Hend prev (last_elem _ _ El)). split; [done|].
    intros Hy Hss. apply sx_bands_equal_iff in Hss. rewrite Hss in Em. lia.
Qed.

(** ** The sweep *)

Lemma min_edge_spec next e n :
  min_edge next e = Some n ->
  n <= e /\ (match next with Some m => n <= m | None => True end) /\
  (n = e \/ next = Some n).
Proof. unfold min_edge. intros H. repeat case_match; simplify_eq; intuition lia. Qed.

Lemma min_edge_some next e : exists n, min_edge next e = Some n.
Proof. unfold min_edge. repeat case_match; eauto. Qed.

(** What one scan establishes: the covering band, and an edge no band crosses
    before. *)
Definition scan_inv (bs : list sx_region_band) (cut : Z)
    (covering : option sx_region_band) (next : option Z) : Prop :=
  (forall b, covering = Some b -> b ∈ bs /\ covers b cut) /\
  (covering = None -> forall b, b ∈ bs -> ~ covers b cut) /\
  (forall n, next = Some n -> cut < n /\
     (exists b, b ∈ bs /\ (n = bd_y0 b \/ n = bd_y1 b)) /\
     forall b, b ∈ bs -> ~ (cut < bd_y0 b < n) /\ (covers b cut -> n <= bd_y1 b)) /\
  (next = None -> forall b, b ∈ bs -> bd_y0 b <= cut /\ bd_y1 b <= cut).

Lemma sweep_scan_spec bs cut covering next :
  sweep_scan bs cut = (covering, next) -> scan_inv bs cut covering next.
Proof.
  unfold sweep_scan. revert covering next.
  induction bs as [|b bs IH] using rev_ind; intros covering next H.
  - simplify_eq/=. unfold scan_inv. split; [done|]. split; [set_solver|]. split; [done|set_solver].
  - rewrite fold_left_app in H. simpl in H.
    destruct (fold_left _ bs (None, None)) as [c0 n0] eqn:E.
    specialize (IH c0 n0 eq_refl). destruct IH as (I1 & I2 & I3 & I4).
    unfold scan_inv, covers in *.
    assert (Hin : forall c, c ∈ bs ++ [b] <-> c ∈ bs \/ c = b) by set_solver.
    destruct ((bd_y0 b <=? cut) && (cut <? bd_y1 b)) eqn:E1; [|destruct (bd_y0 b >? cut) eqn:E2];
      simplify_eq.
    + split; [intros c [= <-]; set_solver by lia|]. split; [done|].
      destruct (min_edge_some n0 (bd_y1 b)) as [n Hn]. rewrite Hn. split; [|done].
      intros m [= <-]. apply min_edge_spec in Hn as (M1 & M2 & M3).
      assert (Hcut : cut < n) by (destruct M3 as [->| ->]; [lia|by apply I3]).
      split; [done|]. split.
      * destruct M3 as [->| ->]; [exists b; set_solver|].
        destruct (I3 n eq_refl) as (_ & (c & ? & ?) & _). exists c. set_solver.
      * intros c [Hc| ->]%Hin; [|lia]. destruct n0 as [m0|].
        -- destruct (I3 m0 eq_refl) as (_ & _ & K). specialize (K c Hc). lia.
        -- specialize (I4 eq_refl c Hc). lia.
    + split; [set_solver|]. split; [intros -> c [Hc| ->]%Hin; [by apply I2|lia]|].
      destruct (min_edge_some n0 (bd_y0 b)) as [n Hn]. rewrite Hn. split; [|done].
      intros m [= <-]. apply min_edge_spec in Hn as (M1 & M2 & M3).
      assert (Hcut : cut < n) by (destruct M3 as [->| ->]; [lia|by apply I3]).
      split; [done|]. split.
      * destruct M3 as [->| ->]; [exists b; set_solver|].
        destruct (I3 n eq_refl) as (_ & (c & ? & ?) & _). exists c. set_solver.
      * intros c [Hc| ->]%Hin; [|lia]. destruct n0 as [m0|].
        -- destruct (I3 m0 eq_refl) as (_ & _ & K). specialize (K c Hc). lia.
        -- specialize (I4 eq_refl c Hc). lia.
    + split; [set_solver|]. split; [intros -> c [Hc| ->]%Hin; [by apply I2|lia]|].
      split.
      * intros n ->. destruct (I3 n eq_refl) as (K1 & (d & K2 & K3) & K4).
        split; [done|]. split; [exists d; set_solver|].
        intros c [Hc| ->]%Hin; [by apply K4|lia].
      * intros -> c [Hc| ->]%Hin; [by apply I4|lia].
Qed.

Lemma min_edge_after cut (next : option Z) (e n : Z) :
  cut < e -> (forall k, next = Some k -> cut < k) -> min_edge next e = Some n ->
  cut < n /\ n <= e /\ (n = e \/ next = Some n) /\ (forall k, next = Some k -> n <= k).
Proof.
  intros He Hk Hn. apply min_edge_spec in Hn as (M1 & M2 & M3).
  split; [destruct M3 as [->|M3]; auto|]. split; [done|]. split; [done|]. by intros k ->.
Qed.

(** Nothing of the band list changes before the edge the scan found. *)
Lemma scan_inv_steady bs cut covering next0 n :
  scan_inv bs cut covering next0 -> (forall k, next0 = Some k -> n <= k) ->
  forall b y, b ∈ bs -> cut <= y < n -> (covers b y <-> covers b cut).
Proof.
  intros (_ & _ & I3 & I4) Hle b y Hin Hy. unfold covers. destruct next0 as [k|].
  - destruct (I3 k eq_refl) as (_ & _ & K). specialize (K b Hin).
    specialize (Hle k eq_refl). unfold covers in K. lia.
  - specialize (I4 eq_refl b Hin). lia.
Qed.

(** The next edge of the sweep: nothing of the band list, and nothing of the
    rectangle that matters, changes before it. *)
Lemma sweep_next_spec op bs rect cut covering next0 next :
  ry rect < sx_rect_bottom rect ->
  scan_inv bs cut covering next0 ->
  sweep_next op (ry rect) (sx_rect_bottom rect) cut covering next0 = Some next ->
  cut < next /\
  ((exists b, b ∈ bs /\ (next = bd_y0 b \/ next = bd_y1 b)) \/
   next = ry rect \/ next = sx_rect_bottom rect) /\
  (forall b y, b ∈ bs -> cut <= y < next -> (covers b y <-> covers b cut)) /\
  (op = OP_UNION \/ is_Some covering -> forall y, cut <= y < next ->
   (ry rect <= y < sx_rect_bottom rect <-> ry rect <= cut < sx_rect_bottom rect)).
Proof.
  set (r0 := ry rect). set (r1 := sx_rect_bottom rect). intros Hr Hscan H.
  pose proof (scan_inv_steady _ _ _ _ next Hscan) as Hgen.
  destruct Hscan as (_ & _ & I3 & _).
  assert (Hpos : forall k, next0 = Some k -> cut < k) by (intros k Hk; by apply I3).
  assert (Hsrc : forall k, next0 = Some k -> exists b, b ∈ bs /\ (k = bd_y0 b \/ k = bd_y1 b))
    by (intros k Hk; by apply I3).
  destruct op; simpl in H;
    [|destruct covering as [c|];
        [destruct next0 as [n|]; [|done];
         specialize (Hpos n eq_refl); specialize (Hsrc n eq_refl); simplify_eq;
         (split; [repeat case_any; lia|]); (split; [repeat case_any; tauto|]);
         (split; [apply Hgen; intros k [= <-]; repeat case_any; lia|]);
         intros _ y Hy; repeat case_any; lia
        |subst next0; (split; [by apply Hpos|]); (split; [left; by apply Hsrc|]);
         (split; [apply Hgen; intros k [= <-]; lia|]); intros [?|[? ?]]; done]..].
  destruct (r0 >? cut) eqn:E0.
  - destruct (min_edge_some next0 r0) as [n1 Hn1]. rewrite Hn1 in H.
    destruct (min_edge_after cut next0 r0 n1 ltac:(lia) Hpos Hn1) as (A1 & A2 & A3 & A4).
    rewrite (proj2 (Z.gtb_lt _ _)) in H by lia.
    apply (min_edge_after cut) in H as (B1 & B2 & B3 & B4); [|lia|by intros k [= <-]].
    specialize (B4 n1 eq_refl). split; [done|]. split.
    { destruct B3 as [->|[= ->]]; [tauto|]. destruct A3 as [->|A3]; [tauto|]. left. by apply Hsrc. }
    split; [apply Hgen; intros k Hk; specialize (A4 k Hk); lia|]. intros _ y Hy. lia.
  - destruct (r1 >? cut) eqn:E1.
    + apply (min_edge_after cut) in H as (B1 & B2 & B3 & B4); [|lia|done].
      split; [done|]. split; [destruct B3 as [->|B3]; [tauto|left; by apply Hsrc]|].
      split; [by apply Hgen|]. intros _ y Hy. lia.
    + subst next0. split; [by apply Hpos|]. split; [left; by apply Hsrc|].
      split; [apply Hgen; intros k [= <-]; lia|]. intros _ y Hy. lia.
Qed.

(** When no edge is left there is nothing below. *)
Lemma sweep_next_none op bs rect cut covering next0 :
  (forall b, b ∈ bs -> bd_y0 b < bd_y1 b) -> scan_inv bs cut covering next0 ->
  sweep_next op (ry rect) (sx_rect_bottom rect) cut covering next0 = None ->
  (forall b, b ∈ bs -> bd_y1 b <= cut) /\ (op = OP_UNION -> sx_rect_bottom rect <= cut).
Proof.
  intros Hne (I1 & I2 & I3 & I4) H.
  assert (next0 = None /\ (op = OP_UNION -> sx_rect_bottom rect <= cut)) as [-> Hu].
  { destruct op; simpl in H.
    - case_if_in H; [by destruct (min_edge_some (if ry rect >? cut then min_edge next0 (ry rect) else next0)
                                     (sx_rect_bottom rect)) as [? ?]; simplify_eq|].
      case_if_in H; [by destruct (min_edge_some next0 (ry rect)) as [? ?]; simplify_eq|]. split; [done|lia].
    - destruct covering, next0; done.
    - destruct covering, next0; done. }
  split; [|done]. intros b Hb. by apply I4.
Qed.

(** The strip [cut, next) through the operation. *)
Definition strip_active (op : sx_region_op) (covering : option sx_region_band) (rcr : bool) : bool :=
  match covering, op with
  | Some _, _ => true
  | None, OP_UNION => rcr
  | None, _ => false
  end.

Lemma strip_points op bs rect cut covering next0 next x y :
  bands_ok None bs -> ry rect < sx_rect_bottom rect -> scan_inv bs cut covering next0 ->
  sweep_next op (ry rect) (sx_rect_bottom rect) cut covering next0 = Some next ->
  cut <= y < next ->
  let rcr := (cut >=? ry rect) && (cut <? sx_rect_bottom rect) in
  op_sem op (in_bands bs x y) (in_rect rect x y) <->
  strip_active op covering rcr = true /\
  op_sem op (in_spans (match covering with Some b => bd_spans b | None => [] end) x)
            (rcr = true /\ rx rect <= x < sx_rect_right rect).
Proof.
  intros Hok Hr Hs Hn Hy rcr.
  destruct (sweep_next_spec _ _ _ _ _ _ _ Hr Hs Hn) as (_ & _ & Hb & Hrect).
  destruct Hs as (I1 & I2 & _ & _).
  assert (Hcov : in_bands bs x y <-> in_spans (match covering with Some b => bd_spans b | None => [] end) x).
  { rewrite in_bands_elem. destruct covering as [c|].
    - destruct (I1 c eq_refl) as [Hc Cc]. split.
      + intros (b & Hin & Cb & Hx). apply (Hb b y Hin Hy) in Cb.
        by rewrite <- (bands_cover_unique _ _ b c cut Hok Hin Hc Cb Cc).
      + intros Hx. exists c. split; [done|]. split; [by apply (Hb c y Hc Hy)|done].
    - split; [|intros Hx; by apply in_spans_nil in Hx].
      intros (b & Hin & Cb & _). apply (Hb b y Hin Hy) in Cb. exfalso. by eapply I2. }
  assert (Hin : (op = OP_UNION \/ is_Some covering) ->
                (in_rect rect x y <-> rcr = true /\ rx rect <= x < sx_rect_right rect)).
  { intros Hc. specialize (Hrect Hc y Hy). subst rcr. unfold in_rect, sx_rect_right, sx_rect_bottom in *. lia. }
  destruct covering as [c|]; simpl.
  - specialize (Hin ltac:(right; eauto)). destruct op; simpl; tauto.
  - pose proof (in_spans_nil x). destruct op; simpl in *; [|intuition discriminate..].
    specialize (Hin ltac:(by left)). tauto.
Qed.

Definition sweep_inv (op : sx_region_op) (bs : list sx_region_band) (rect : sx_rect)
    (cut : Z) (scratch : list sx_region_band) : Prop :=
  bands_ok None scratch /\ zlen scratch <= SX_REGION_MAX_BANDS /\
  (forall b, b ∈ scratch -> bd_y1 b <= cut) /\
  forall x y, in_bands scratch x y <->
              y < cut /\ op_sem op (in_bands bs x y) (in_rect rect x y).

Lemma sweep_spec fuel op bs rect : forall cut scratch out,
  bands_ok None bs -> rx rect < sx_rect_right rect -> ry rect < sx_rect_bottom rect ->
  sweep_inv op bs rect cut scratch ->
  sweep fuel bs rect op cut scratch = Some (Some out) ->
  bands_ok None out /\ zlen out <= SX_REGION_MAX_BANDS /\
  forall x y, in_bands out x y <-> op_sem op (in_bands bs x y) (in_rect rect x y).
Proof.
  induction fuel as [|fuel IH]; intros cut scratch out Hok Hrx Hry (I1 & I2 & I3 & I4) H; [done|].
  simpl in H. destruct (sweep_scan bs cut) as [covering next0] eqn:Es.
  apply sweep_scan_spec in Es.
  destruct (sweep_next _ _ _ _ _ _) as [next|] eqn:En.
  2: { simplify_eq. split; [done|]. split; [done|].
    destruct (sweep_next_none op bs rect cut covering next0) as [E1 E2]; [|done..|].
    { intros b Hb. by destruct (bands_ok_forall _ _ b Hok Hb). }
    intros x y. rewrite I4. split; [tauto|]. intros Hop. split; [|done].
    destruct (Z_lt_le_dec y cut) as [|Hge]; [done|exfalso].
    assert (Hnb : ~ in_bands bs x y).
    { rewrite in_bands_elem. intros (b & Hb & Cb & _). specialize (E1 b Hb). unfold covers in Cb. lia. }
    destruct op; simpl in Hop; try tauto. destruct Hop as [?|Hop]; [done|].
    specialize (E2 eq_refl). unfold in_rect, sx_rect_bottom in *. lia. }
  pose proof (fun x y => strip_points _ _ _ _ _ _ _ x y Hok Hry Es En) as Hstrip. simpl in Hstrip.
  destruct (sweep_next_spec _ _ _ _ _ _ _ Hry Es En) as (Hcn & _).
  assert (Hsplit : forall x y, (y < next /\ op_sem op (in_bands bs x y) (in_rect rect x y)) <->
            (y < cut /\ op_sem op (in_bands bs x y) (in_rect rect x y)) \/
            (cut <= y < next /\ op_sem op (in_bands bs x y) (in_rect rect x y))).
  { intros x y. assert (y < next <-> y < cut \/ cut <= y < next) by lia. tauto. }
  fold (strip_active op covering ((cut >=? ry rect) && (cut <? sx_rect_bottom rect))) in H.
  destruct (strip_active _ _ _) eqn:Ea.
  - destruct (sx_span_list_apply _ _ _ _ _) as [ss|] eqn:Ess; [|done].
    apply sx_span_list_apply_spec in Ess as (S1 & S2 & S3); [|done].
    destruct (sx_region_append_band _ _ _ _) as [scratch'|] eqn:Eb; [|done].
    apply sx_region_append_band_spec in Eb as (B1 & B2 & B3 & B4); try done.
    apply (IH next scratch'); try done. split; [done|]. split; [done|]. split; [done|].
    intros x y. rewrite B4, I4, Hsplit. specialize (S3 x). specialize (Hstrip x y). tauto.
  - apply (IH next scratch); try done. split; [done|]. split; [done|]. split.
    { intros b Hb. specialize (I3 b Hb). lia. }
    intros x y. rewrite I4, Hsplit. specialize (Hstrip x y). intuition discriminate.
Qed.

(** *** Termination of the sweep *)

Definition edges (bs : list sx_region_band) (rect : sx_rect) : list Z :=
  flat_map (fun b => [bd_y0 b; bd_y1 b]) bs ++ [ry rect; sx_rect_bottom rect].
Definition edges_after (l : list Z) (cut : Z) : nat := length (List.filter (fun e => e >? cut) l).

Lemma edges_after_le l cut next : cut < next -> (edges_after l next <= edges_after l cut)%nat.
Proof.
  intros H. unfold edges_after. induction l as [|e l IH]; simpl; [done|].
  repeat case_if; simpl; lia.
Qed.

Lemma edges_after_lt l cut next :
  cut < next -> In next l -> (edges_after l next < edges_after l cut)%nat.
Proof.
  intros H. induction l as [|e l IH]; [done|]. intros [->|Hin].
  - pose proof (edges_after_le l cut next H). unfold edges_after in *. simpl.
    repeat case_if; simpl; lia.
  - specialize (IH Hin). unfold edges_after in *. simpl. repeat case_if; simpl; lia.
Qed.

Lemma edges_band bs rect b : b ∈ bs -> In (bd_y0 b) (edges bs rect) /\ In (bd_y1 b) (edges bs rect).
Proof.
  intros Hb. apply list_elem_of_In in Hb.
  split; apply in_or_app; left; apply in_flat_map; exists b; simpl; tauto.
Qed.

Lemma edges_length bs rect : length (edges bs rect) = (2 * length bs + 2)%nat.
Proof.
  unfold edges. rewrite length_app. simpl.
  induction bs as [|b bs IH]; simpl; [done|]. simpl in IH. lia.
Qed.

(** The sweep has enough fuel: it visits each edge at most once. *)
Lemma sweep_total fuel op bs rect : forall cut scratch,
  ry rect < sx_rect_bottom rect ->
  (edges_after (edges bs rect) cut < fuel)%nat ->
  sweep fuel bs rect op cut scratch <> None.
Proof.
  induction fuel as [|fuel IH]; intros cut scratch Hr Hf; [lia|]. simpl.
  destruct (sweep_scan bs cut) as [covering next0] eqn:Es. apply sweep_scan_spec in Es.
  destruct (sweep_next _ _ _ _ _ _) as [next|] eqn:En; [|done].
  destruct (sweep_next_spec _ _ _ _ _ _ _ Hr Es En) as (Hcn & Hsrc & _).
  assert (Hin : In next (edges bs rect)).
  { destruct Hsrc as [(b & Hb & [->| ->])|[->| ->]]; [apply edges_band; done..| |];
      apply in_or_app; right; simpl; tauto. }
  pose proof (edges_after_lt _ _ _ Hcn Hin) as Hlt.
  repeat case_match; try done; apply IH; lia.
Qed.
