(* ===== verification/RegionLaws.v ===== *)
(** * Banded regions: what the operations promise

    The theorems a client of [struct sx_region] relies on, proved from the lemmas
    of RegionFacts: each operation keeps the canonical invariant and is exact
    or a marked superset; the sweep ends; equal shapes have equal
    representations; the rectangle enumeration partitions the region. *)

From S2P Require Import Prelude Rect Region RegionFacts.

(** ** Single rectangles *)

Lemma set_rect_ok rect : region_ok (sx_region_set_rect rect).
Proof.
  unfold sx_region_set_rect, region_ok. destruct (sx_rect_is_empty rect) eqn:E; simpl; [done|].
  repeat split; try done; simpl; try (rect_unfold; lia).
  exists (rx rect - 1). simpl. rect_unfold. lia.
Qed.

Lemma set_rect_points rect x y : in_region (sx_region_set_rect rect) x y <-> in_rect rect x y.
Proof.
  unfold sx_region_set_rect, in_region. destruct (sx_rect_is_empty rect) eqn:E; simpl.
  - split; [intros H; by apply in_bands_nil in H|]. intros H. by apply in_rect_empty in H.
  - rewrite in_bands_cons. simpl. rewrite in_spans_cons. pose proof (in_bands_nil x y). pose proof (in_spans_nil x).
    unfold covers, in_span, in_rect, sx_rect_right, sx_rect_bottom. simpl. tauto.
Qed.
#[export] Hint Resolve set_rect_ok : rect.

(** ** The bounding box *)

Lemma last_after lo s t : spans_after lo (s :: t) -> sp_x1 s <= sp_x1 (List.last (s :: t) span0).
Proof.
  revert lo s. induction t as [|u t IH]; intros lo s H; [done|].
  destruct H as (_ & H1 & H2). specialize (IH _ _ H2).
  change (List.last (s :: u :: t) span0) with (List.last (u :: t) span0).
  destruct H2 as (? & ? & _). lia.
Qed.

Lemma spans_between lo s t x :
  spans_after lo (s :: t) -> in_spans (s :: t) x ->
  sp_x0 s <= x < sp_x1 (List.last (s :: t) span0).
Proof.
  revert lo s. induction t as [|u t IH]; intros lo s H Hx.
  - apply in_spans_cons in Hx as [Hx|Hx]; [done|by apply in_spans_nil in Hx].
  - apply in_spans_cons in Hx as [Hx|Hx].
    + pose proof (last_after _ _ _ H). unfold in_span in Hx. lia.
    + destruct H as (_ & H1 & H2). specialize (IH _ _ H2 Hx).
      pose proof (spans_after_bound _ _ _ H2 Hx).
      change (List.last (s :: u :: t) span0) with (List.last (u :: t) span0). lia.
Qed.

Lemma band_between b x :
  band_ok b -> in_spans (bd_spans b) x -> band_left b <= x < band_right b.
Proof.
  intros (_ & Hne & [lo Hs] & _) Hx. unfold band_left, band_right.
  destruct (bd_spans b) as [|s t]; [done|]. by eapply spans_between.
Qed.

(** The two end points are themselves in the band. *)
Lemma last_in_spans lo s t :
  spans_after lo (s :: t) -> in_spans (s :: t) (sp_x1 (List.last (s :: t) span0) - 1).
Proof.
  revert lo s. induction t as [|u t IH]; intros lo s H; apply in_spans_cons.
  - left. simpl in *. unfold in_span. lia.
  - right. destruct H as (_ & _ & H). by apply (IH _ _ H).
Qed.

Lemma band_left_in b : band_ok b -> in_spans (bd_spans b) (band_left b).
Proof.
  intros (_ & Hne & [lo Hs] & _). unfold band_left. destruct (bd_spans b) as [|s t]; [done|].
  apply in_spans_cons. left. simpl in *. unfold in_span. lia.
Qed.
Lemma band_right_in b : band_ok b -> in_spans (bd_spans b) (band_right b - 1).
Proof.
  intros (_ & Hne & [lo Hs] & _). unfold band_right. destruct (bd_spans b) as [|s t]; [done|].
  by apply (last_in_spans lo).
Qed.

Definition hull (acc : Z * Z) (bs : list sx_region_band) : Z * Z :=
  fold_left (fun '(x0, x1) band =>
               (if band_left band <? x0 then band_left band else x0,
                if band_right band >? x1 then band_right band else x1)) bs acc.

Lemma hull_spec bs : forall x0 x1 h0 h1,
  hull (x0, x1) bs = (h0, h1) ->
  (h0 <= x0 /\ x1 <= h1) /\
  (forall b, b ∈ bs -> h0 <= band_left b /\ band_right b <= h1) /\
  (h0 = x0 \/ exists b, b ∈ bs /\ h0 = band_left b) /\
  (h1 = x1 \/ exists b, b ∈ bs /\ h1 = band_right b).
Proof.
  induction bs as [|b bs IH]; intros x0 x1 h0 h1 H; simpl in H.
  { simplify_eq. split; [lia|]. split; [set_solver|]. tauto. }
  apply IH in H as (H1 & H2 & H3 & H4). split; [repeat case_any; lia|]. split; [|split].
  - intros c [->|Hc]%elem_of_cons; [repeat case_any; lia|by apply H2].
  - destruct H3 as [->|(c & ? & ?)]; [|right; exists c; set_solver].
    case_if; [right; exists b; set_solver|by left].
  - destruct H4 as [->|(c & ? & ?)]; [|right; exists c; set_solver].
    case_if; [right; exists b; set_solver|by left].
Qed.

Lemma last_List_last (b : sx_region_band) t z :
  list.last (b :: t) = Some z -> List.last (b :: t) band0 = z.
Proof.
  revert b. induction t as [|c t IH]; intros b H; [by simplify_eq/=|].
  rewrite last_cons_cons in H. by apply IH in H.
Qed.

(** The four sides of the bounding box, each reached by a band. *)
Lemma bounds_shape r first rest :
  region_ok r -> rg_bands r = first :: rest ->
  exists z x0 x1, list.last (rg_bands r) = Some z /\
    sx_region_bounds r = mk_rect x0 (bd_y0 first) (x1 - x0) (bd_y1 z - bd_y0 first) /\
    (forall b, b ∈ rg_bands r -> x0 <= band_left b /\ band_right b <= x1) /\
    (exists b, b ∈ rg_bands r /\ x0 = band_left b) /\
    (exists b, b ∈ rg_bands r /\ x1 = band_right b).
Proof.
  intros [Hok _] E. rewrite E. destruct (last_cons_some first rest) as [z Hz].
  unfold sx_region_bounds. rewrite E, (last_List_last _ _ _ Hz).
  fold (hull (band_left first, band_right first) rest).
  destruct (hull _ rest) as [x0 x1] eqn:Eh. apply hull_spec in Eh as (H1 & H2 & H3 & H4).
  exists z, x0, x1. split; [done|]. split; [done|]. split.
  { intros b [->|Hb]%elem_of_cons; [lia|by apply H2]. }
  split.
  - destruct H3 as [->|(c & ? & ?)]; [exists first; set_solver|exists c; set_solver].
  - destruct H4 as [->|(c & ? & ?)]; [exists first; set_solver|exists c; set_solver].
Qed.

Lemma bounds_cover r x y : region_ok r -> in_region r x y -> in_rect (sx_region_bounds r) x y.
Proof.
  intros Hr Hin. destruct (rg_bands r) as [|f t] eqn:E.
  { unfold in_region in Hin. rewrite E in Hin. by apply in_bands_nil in Hin. }
  destruct (bounds_shape r f t Hr E) as (z & x0 & x1 & Hz & -> & Hx & _).
  destruct Hr as [Hok _]. unfold in_region in Hin.
  apply in_bands_elem in Hin as (b & Hb & Cb & Sb).
  pose proof (band_between b x (bands_ok_forall _ _ _ Hok Hb) Sb). specialize (Hx b Hb).
  pose proof (last_ends_last _ _ _ _ Hok Hz Hb).
  assert (bd_y0 f <= bd_y0 b).
  { rewrite E in *. destruct Hok as ((Hf & _) & _ & Ht). apply elem_of_cons in Hb as [->|Hb]; [done|].
    pose proof (bands_ok_order _ _ _ Ht Hb). lia. }
  unfold covers, in_rect in *. simpl. lia.
Qed.

Lemma bounds_nonempty r :
  region_ok r -> sx_rect_is_empty (sx_region_bounds r) = sx_region_is_empty r.
Proof.
  intros Hr. unfold sx_region_is_empty. destruct (rg_bands r) as [|f t] eqn:E.
  { unfold sx_region_bounds. by rewrite E. }
  assert (Hf : band_ok f) by (destruct Hr as [Hok _]; rewrite E in Hok; apply Hok).
  assert (Hin : in_region r (band_left f) (bd_y0 f)).
  { unfold in_region. rewrite E, in_bands_cons. left. split; [|by apply band_left_in].
    destruct Hf. unfold covers. lia. }
  apply bounds_cover in Hin; [|done].
  destruct (sx_rect_is_empty _) eqn:Ee; [|done]. exfalso. by eapply in_rect_empty.
Qed.

(** ** Overflow: collapse to the bounding box *)

Lemma collapse_bands r : rg_bands (sx_region_collapse r) = rg_bands (sx_region_set_rect (sx_region_bounds r)).
Proof. unfold sx_region_collapse, sx_region_set_rect. by case_if. Qed.

Lemma sweep_start_inv r rect op :
  region_ok r -> rg_bands r <> [] -> sx_rect_is_empty rect = false ->
  sweep_inv op (rg_bands r) rect (sweep_start (rg_bands r) rect op) [].
Proof.
  intros [Hok _] Hne Hr. split; [done|]. split; [done|]. split; [set_solver|].
  intros x y. split; [intros H; by apply in_bands_nil in H|]. intros [Hy Hop]. exfalso.
  destruct (rg_bands r) as [|f t]; [done|]. destruct Hok as ((Hf & _) & _ & Ht).
  assert (Hb : in_bands (f :: t) x y -> bd_y0 f <= y).
  { intros (b & Hb & Cb & _)%in_bands_elem. unfold covers in Cb.
    apply elem_of_cons in Hb as [->|Hb]; [lia|]. pose proof (bands_ok_order _ _ _ Ht Hb). lia. }
  unfold sweep_start in Hy. simpl in Hy. unfold in_rect in Hop. destruct op; simpl in Hop.
  - case_if_in Hy; destruct Hop as [Hop|Hop]; try specialize (Hb Hop); lia.
  - destruct Hop as [Hop _]. specialize (Hb Hop). lia.
  - destruct Hop as [Hop _]. specialize (Hb Hop). lia.
Qed.

(** The [while (ok)] loop always ends: the fuel of the model is enough. *)
Lemma sweep_terminates r rect op :
  sx_rect_is_empty rect = false ->
  sweep (sweep_fuel (rg_bands r)) (rg_bands r) rect op (sweep_start (rg_bands r) rect op) [] <> None.
Proof.
  intros Hr. apply sweep_total; [rect_unfold; lia|].
  unfold edges_after, sweep_fuel.
  pose proof (edges_length (rg_bands r) rect).
  pose proof (List.filter_length_le (fun e => e >? sweep_start (rg_bands r) rect op) (edges (rg_bands r) rect)).
  lia.
Qed.

(** What an operation leaves: the canonical form, a superset always, and the
    exact set unless it is marked. *)
Definition op_promise (op : sx_region_op) (r : sx_region) (rect : sx_rect) (r' : sx_region) : Prop :=
  region_ok r' /\
  (forall x y, op_sem op (in_region r x y) (in_rect rect x y) -> in_region r' x y) /\
  (rg_overflowed r' = false ->
   forall x y, in_region r' x y <-> op_sem op (in_region r x y) (in_rect rect x y)).

Lemma op_promise_exact op r rect r' :
  region_ok r' ->
  (forall x y, in_region r' x y <-> op_sem op (in_region r x y) (in_rect rect x y)) ->
  op_promise op r rect r'.
Proof. intros H1 H2. split; [done|]. split; [|done]. intros x y. by rewrite H2. Qed.

Lemma apply_rect_promise r rect op :
  region_ok r -> op_promise op r rect (sx_region_apply_rect r rect op).
Proof.
  intros Hr. unfold sx_region_apply_rect.
  destruct (sx_rect_is_empty rect) eqn:Er.
  { pose proof (fun x y => in_rect_empty rect x y Er) as Hn.
    destruct op; apply op_promise_exact; try done; intros x y; specialize (Hn x y);
      unfold in_region; simpl; pose proof (in_bands_nil x y); tauto. }
  unfold sx_region_is_empty. destruct (rg_bands r) as [|f t] eqn:Eb.
  { destruct op; apply op_promise_exact; auto with rect; intros x y;
      rewrite ?set_rect_points; unfold in_region; rewrite Eb; simpl;
      pose proof (in_bands_nil x y); tauto. }
  rewrite <- Eb.
  destruct (sweep _ _ _ _ _ _) as [[bs|]|] eqn:Es.
  - apply sweep_spec in Es as (S1 & S2 & S3); try (rect_unfold; lia).
    + by apply op_promise_exact.
    + by destruct Hr.
    + apply sweep_start_inv; try done. by rewrite Eb.
  - assert (Hsup : forall bs, bs = rg_bands (sx_region_set_rect (sx_rect_union (sx_region_bounds r) rect)) \/
        (op <> OP_UNION /\ bs = rg_bands (sx_region_set_rect (sx_region_bounds r))) ->
        op_promise op r rect (mk_region bs true)).
    { intros bs Hbs. split; [|split; [|done]].
      - destruct Hbs as [->|[_ ->]]; apply set_rect_ok.
      - intros x y Hop. pose proof (bounds_cover r x y Hr).
        assert (Hb : in_region (mk_region bs true) x y <-> in_bands bs x y) by done. rewrite Hb.
        destruct Hbs as [->|[Hu ->]]; apply set_rect_points; destruct op; simpl in Hop; try done;
          [destruct Hop|destruct Hop as [? _]..]; auto with rect. }
    destruct op; apply Hsup; rewrite ?collapse_bands; auto.
  - by apply sweep_terminates in Es.
Qed.

(** ** Canonical form *)

Lemma spans_unique l : forall k lo lo',
  spans_after lo l -> spans_after lo' k -> (forall x, in_spans l x <-> in_spans k x) -> l = k.
Proof.
  assert (Hlow : forall s t s' t' lo lo', spans_after lo (s :: t) -> spans_after lo' (s' :: t') ->
            (forall x, in_spans (s :: t) x -> in_spans (s' :: t') x) -> sp_x0 s' <= sp_x0 s).
  { intros s t s' t' lo lo' H H' Hx. specialize (Hx (sp_x0 s)). rewrite !in_spans_cons in Hx.
    destruct H as (? & ? & _), H' as (? & ? & H'). destruct Hx as [Hx|Hx]; [unfold in_span; lia| |].
    - unfold in_span in Hx. lia.
    - pose proof (spans_after_bound _ _ _ H' Hx). lia. }
  assert (Hhigh : forall s t s' t' lo lo', spans_after lo (s :: t) -> spans_after lo' (s' :: t') ->
            sp_x0 s = sp_x0 s' -> (forall x, in_spans (s' :: t') x -> in_spans (s :: t) x) ->
            sp_x1 s' <= sp_x1 s).
  { intros s t s' t' lo lo' (? & ? & H) (? & ? & H') E Hx.
    destruct (Z_le_gt_dec (sp_x1 s') (sp_x1 s)) as [|Hgt]; [done|]. exfalso.
    specialize (Hx (sp_x1 s)). rewrite !in_spans_cons in Hx.
    destruct Hx as [Hx|Hx]; [left; unfold in_span; lia|unfold in_span in Hx; lia|].
    pose proof (spans_after_bound _ _ _ H Hx). lia. }
  induction l as [|s t IH]; intros [|s' t'] lo lo' H H' Hx; [done|..].
  - destruct (Hx (sp_x0 s')) as [_ K]. exfalso. apply (in_spans_nil (sp_x0 s')), K.
    apply in_spans_cons. left. destruct H' as (? & ? & _). unfold in_span. lia.
  - destruct (Hx (sp_x0 s)) as [K _]. exfalso. apply (in_spans_nil (sp_x0 s)), K.
    apply in_spans_cons. left. destruct H as (? & ? & _). unfold in_span. lia.
  - assert (E0 : sp_x0 s = sp_x0 s').
    { pose proof (Hlow s t s' t' _ _ H H' ltac:(apply Hx)).
      pose proof (Hlow s' t' s t _ _ H' H ltac:(apply Hx)). lia. }
    assert (E1 : sp_x1 s = sp_x1 s').
    { pose proof (Hhigh s t s' t' _ _ H H' E0 ltac:(apply Hx)).
      pose proof (Hhigh s' t' s t _ _ H' H (eq_sym E0) ltac:(apply Hx)). lia. }
    destruct H as (_ & _ & H), H' as (_ & _ & H'). f_equal.
    + destruct s, s'. simpl in *. congruence.
    + apply (IH _ _ _ H H'). intros x. specialize (Hx x). rewrite !in_spans_cons in Hx.
      pose proof (spans_after_bound _ _ x H). pose proof (spans_after_bound _ _ x H').
      unfold in_span in Hx. split; intros K.
      * specialize (H0 K). destruct (proj1 Hx (or_intror K)); [lia|done].
      * specialize (H1 K). destruct (proj2 Hx (or_intror K)); [lia|done].
Qed.

(** The spans of a region on row [y]. *)
Definition row (bs : list sx_region_band) (y : Z) : list sx_region_span :=
  match List.find (fun b => (bd_y0 b <=? y) && (y <? bd_y1 b)) bs with
  | Some b => bd_spans b
  | None => []
  end.

Lemma row_cons b t y :
  row (b :: t) y = if (bd_y0 b <=? y) && (y <? bd_y1 b) then bd_spans b else row t y.
Proof. unfold row. simpl. by case_if. Qed.

Lemma row_before p bs y : bands_ok (Some p) bs -> y < bd_y1 p -> row bs y = [].
Proof.
  intros H Hy. unfold row. destruct (List.find _ _) as [b|] eqn:E; [|done].
  apply List.find_some in E as [Hb E]. apply list_elem_of_In in Hb.
  pose proof (bands_ok_order _ _ _ H Hb). lia.
Qed.

Lemma row_ok prev bs y : bands_ok prev bs -> spans_ok (row bs y).
Proof.
  intros H. unfold row. destruct (List.find _ _) as [b|] eqn:E; [|auto with rect].
  apply List.find_some in E as [Hb E]. apply list_elem_of_In in Hb.
  by destruct (bands_ok_forall _ _ _ H Hb) as (_ & _ & ? & _).
Qed.

Lemma row_points prev bs x y : bands_ok prev bs -> in_bands bs x y <-> in_spans (row bs y) x.
Proof.
  revert prev. induction bs as [|b t IH]; intros prev H.
  - unfold row. simpl. split; intros K; [by apply in_bands_nil in K|by apply in_spans_nil in K].
  - destruct H as (_ & _ & H). rewrite in_bands_cons, row_cons, (IH _ H). unfold covers.
    case_if; [|intuition lia]. rewrite (row_before b t y H) by lia.
    pose proof (in_spans_nil x). intuition lia.
Qed.

Lemma bands_unique bs : forall bs' p p',
  bands_ok p bs -> bands_ok p' bs' -> (forall y, row bs y = row bs' y) -> bs = bs'.
Proof.
  assert (Htop : forall b t b' t' p p', bands_ok p (b :: t) -> bands_ok p' (b' :: t') ->
            (forall y, row (b :: t) y = row (b' :: t') y) -> bd_y0 b' <= bd_y0 b).
  { intros b t b' t' p p' (Hb & _ & _) (Hb' & _ & Ht') E. specialize (E (bd_y0 b)).
    destruct Hb as (Hy & Hne & _), Hb' as (Hy' & _ & _).
    destruct (Z_le_gt_dec (bd_y0 b') (bd_y0 b)) as [|Hgt]; [done|]. exfalso.
    rewrite !row_cons, (row_before b' t') in E by (done || lia). repeat case_any; try lia. done. }
  assert (Hend : forall b t b' t' p p', bands_ok p (b :: t) -> bands_ok p' (b' :: t') ->
            bd_y0 b = bd_y0 b' -> bd_spans b = bd_spans b' ->
            (forall y, row (b :: t) y = row (b' :: t') y) -> bd_y1 b' <= bd_y1 b).
  { intros b t b' t' p p' (Hb & _ & Ht) _ E0 Es E. specialize (E (bd_y1 b)).
    destruct Hb as (Hy & Hne & _).
    destruct (Z_le_gt_dec (bd_y1 b') (bd_y1 b)) as [|Hgt]; [done|]. exfalso.
    rewrite !row_cons in E. repeat case_any; try lia. rewrite <- Es in E.
    destruct t as [|c t]; [by unfold row in E; simpl in E|].
    destruct Ht as ((Hc & _) & [Hf1 Hf2] & Ht). rewrite row_cons in E. case_if_in E; [|].
    - apply Hf2; [lia|done].
    - rewrite (row_before c t) in E by (done || lia). done. }
  induction bs as [|b t IH]; intros [|b' t'] p p' H H' E; [done|..].
  - destruct H' as ((Hy & Hne & _) & _ & _). specialize (E (bd_y0 b')). rewrite row_cons in E.
    case_if_in E; [by unfold row in E; simpl in E|lia].
  - destruct H as ((Hy & Hne & _) & _ & _). specialize (E (bd_y0 b)). rewrite row_cons in E.
    case_if_in E; [by unfold row in E; simpl in E|lia].
  - assert (E' : forall y, row (b' :: t') y = row (b :: t) y) by done.
    assert (E0 : bd_y0 b = bd_y0 b').
    { pose proof (Htop _ _ _ _ _ _ H H' E). pose proof (Htop _ _ _ _ _ _ H' H E'). lia. }
    assert (Es : bd_spans b = bd_spans b').
    { pose proof (E (bd_y0 b)) as K. destruct H as ((? & _) & _), H' as ((? & _) & _).
      rewrite !row_cons in K. repeat case_any; try lia. done. }
    assert (E1 : bd_y1 b = bd_y1 b').
    { pose proof (Hend _ _ _ _ _ _ H H' E0 Es E).
      pose proof (Hend _ _ _ _ _ _ H' H (eq_sym E0) (eq_sym Es) E'). lia. }
    destruct H as (_ & _ & H), H' as (_ & _ & H'). f_equal.
    + destruct b, b'. simpl in *. congruence.
    + apply (IH _ _ _ H H'). intros y. specialize (E y). rewrite !row_cons, <- E0, <- E1 in E.
      destruct (Z_lt_le_dec y (bd_y1 b)).
      * by rewrite (row_before b t y H), (row_before b' t' y H') by lia.
      * repeat case_any; try lia. done.
Qed.

(** Two canonical regions with the same points have the same bands. *)
Lemma canonical_bands r r' :
  region_ok r -> region_ok r' -> region_equiv r r' -> rg_bands r = rg_bands r'.
Proof.
  intros [H _] [H' _] E. apply (bands_unique _ _ _ _ H H'). intros y.
  destruct (row_ok _ _ y H) as [lo Hlo], (row_ok _ _ y H') as [lo' Hlo'].
  apply (spans_unique _ _ _ _ Hlo Hlo'). intros x.
  rewrite <- (row_points _ _ x y H), <- (row_points _ _ x y H'). apply E.
Qed.

(** ** Enumeration *)

(** The rectangles of the region in the order [sx_region_rect_at] gives them. *)
Definition span_rect (b : sx_region_band) (s : sx_region_span) : sx_rect :=
  sx_rect_make (sp_x0 s) (bd_y0 b) (sp_x1 s - sp_x0 s) (bd_y1 b - bd_y0 b).
Definition band_rects (bs : list sx_region_band) : list sx_rect :=
  flat_map (fun b => map (span_rect b) (bd_spans b)) bs.

Lemma rect_at_from_lookup bs : forall seen index,
  0 <= seen <= index ->
  rect_at_from bs seen index = band_rects bs !! Z.to_nat (index - seen).
Proof.
  induction bs as [|b t IH]; intros seen index H; simpl; [done|].
  assert (Hl : length (map (span_rect b) (bd_spans b)) = Z.to_nat (zlen (bd_spans b)))
    by (unfold zlen; rewrite length_map; lia).
  pose proof (zlen_nonneg (bd_spans b)). case_if.
  - rewrite lookup_app_l by lia. unfold at_. case_if; [lia|].
    set (k := Z.to_nat (index - seen)) in *.
    assert (Hk : (k < length (bd_spans b))%nat) by (unfold zlen in *; lia).
    rewrite list_lookup_fmap. apply lookup_lt_is_Some_2 in Hk as [s Hs].
    rewrite (nth_lookup_Some _ _ _ _ Hs), Hs. done.
  - rewrite IH by lia. rewrite lookup_app_r by lia. f_equal. lia.
Qed.

Lemma rect_count_length r : sx_region_rect_count r = zlen (band_rects (rg_bands r)).
Proof.
  unfold sx_region_rect_count.
  assert (H : forall bs n, fold_left (fun total b => total + zlen (bd_spans b)) bs n = n + zlen (band_rects bs)).
  { induction bs as [|b t IH]; intros n; simpl; [unfold zlen; simpl; lia|].
    rewrite IH. unfold zlen. rewrite length_app, length_map. lia. }
  rewrite H. lia.
Qed.

Lemma in_span_rect b s x y : in_rect (span_rect b s) x y <-> covers b y /\ in_span s x.
Proof. unfold span_rect, in_rect, covers, in_span. simpl. lia. Qed.

Lemma band_rects_points bs x y : Exists (fun q => in_rect q x y) (band_rects bs) <-> in_bands bs x y.
Proof.
  unfold in_bands. induction bs as [|b t IH]; simpl; [by rewrite !Exists_nil|].
  rewrite Exists_app, IH, Exists_cons, Exists_map.
  setoid_rewrite in_span_rect. unfold in_spans. rewrite !list_exists_elem. naive_solver.
Qed.

Definition disjoint_rects (p q : sx_rect) : Prop := forall x y, in_rect p x y -> ~ in_rect q x y.

Lemma span_rects_disjoint b ss : forall lo, spans_after lo ss ->
  ForallOrdPairs disjoint_rects (map (span_rect b) ss).
Proof.
  induction ss as [|s t IH]; intros lo H; simpl; [constructor|].
  destruct H as (_ & _ & H). constructor; [|by apply (IH _ H)].
  apply List.Forall_forall. intros q (u & <- & Hu)%in_map_iff x y Hx Hy.
  rewrite in_span_rect in Hx, Hy. destruct Hx as [_ Hx], Hy as [_ Hy].
  assert (K : in_spans t x) by (apply list_exists_elem; exists u; by rewrite list_elem_of_In).
  pose proof (spans_after_bound _ _ _ H K). unfold in_span in Hx. lia.
Qed.

Lemma ordpairs_app {A} (R : A -> A -> Prop) l k :
  ForallOrdPairs R l -> ForallOrdPairs R k -> (forall a b, In a l -> In b k -> R a b) ->
  ForallOrdPairs R (l ++ k).
Proof.
  intros Hl Hk H. induction Hl as [|a l Ha Hl IH]; simpl; [done|]. constructor.
  - apply List.Forall_app. split; [done|]. apply List.Forall_forall. intros b Hb. apply H; [by left|done].
  - apply IH. intros c d Hc Hd. apply H; [by right|done].
Qed.

Lemma band_rects_disjoint prev bs : bands_ok prev bs -> ForallOrdPairs disjoint_rects (band_rects bs).
Proof.
  revert prev. induction bs as [|b t IH]; intros prev H; simpl; [constructor|].
  destruct H as ((_ & _ & [lo Hs] & _) & _ & H). apply ordpairs_app.
  - by apply (span_rects_disjoint b _ lo).
  - by eapply IH.
  - intros p q (s & <- & Hs')%in_map_iff Hq x y Hp Hqx. apply in_span_rect in Hp as [Cb _].
    assert (K : in_bands t x y).
    { apply band_rects_points, list_exists_elem. exists q. by rewrite list_elem_of_In. }
    apply in_bands_elem in K as (c & Hc & Cc & _). pose proof (bands_ok_order _ _ _ H Hc).
    unfold covers in *. lia.
Qed.

Lemma ordpairs_lookup {A} (R : A -> A -> Prop) l i j a b :
  ForallOrdPairs R l -> (i < j)%nat -> l !! i = Some a -> l !! j = Some b -> R a b.
Proof.
  intros H. revert i j. induction H as [|c l Hc Hl IH]; intros i j Hij Ha Hb; [done|].
  destruct j as [|j]; [lia|]. destruct i as [|i]; simpl in *.
  - simplify_eq. rewrite List.Forall_forall in Hc. apply Hc, list_elem_of_In.
    by eapply list_elem_of_lookup_2.
  - apply (IH i j); [lia|done..].
Qed.

Lemma contains_from_iff prev bs x y :
  bands_ok prev bs -> contains_point_from bs x y = true <-> in_bands bs x y.
Proof.
  revert prev. induction bs as [|b t IH]; intros prev H; simpl.
  - split; [done|]. intros K. by apply in_bands_nil in K.
  - destruct H as ((Hy & _) & _ & H). rewrite in_bands_cons.
    assert (Hlater : in_bands t x y -> bd_y1 b <= y).
    { intros (c & Hc & Cc & _)%in_bands_elem. pose proof (bands_ok_order _ _ _ H Hc).
      unfold covers in Cc. lia. }
    assert (Hs : existsb (fun s => (x >=? sp_x0 s) && (x <? sp_x1 s)) (bd_spans b) = true <->
                 in_spans (bd_spans b) x).
    { unfold in_spans. rewrite existsb_exists, List.Exists_exists. unfold in_span.
      split; intros (s & ? & ?); exists s; (split; [done|lia]). }
    unfold covers. case_if; [|case_if].
    + split; [done|]. intros [?|K]; [lia|]. specialize (Hlater K). lia.
    + rewrite (IH _ H). intuition lia.
    + rewrite Hs. split; [intros; left; split; [lia|done]|]. intros [[_ ?]|K]; [done|].
      specialize (Hlater K). lia.
Qed.

(** ** Sequences of operations *)

(** The mark is sticky: only an operation that is exact anyway clears it. *)
Lemma apply_rect_flag r rect op :
  rg_overflowed (sx_region_apply_rect r rect op) = false ->
  rg_overflowed r = false \/
  (op = OP_INTERSECT /\ sx_rect_is_empty rect = true) \/
  (op = OP_UNION /\ sx_region_is_empty r = true).
Proof.
  unfold sx_region_apply_rect. intros H.
  destruct (sx_rect_is_empty rect); [destruct op; auto|].
  destruct (sx_region_is_empty r) eqn:E; [destruct op; auto|].
  destruct (sweep _ _ _ _ _ _) as [[bs|]|]; [by left| |by left]. by destruct op.
Qed.

(** A client's program over one region, and the set of points it means. *)
Definition region_step (r : sx_region) (c : sx_region_op * sx_rect) : sx_region :=
  match c with
  | (OP_UNION, rect) => sx_region_union_rect r rect
  | (OP_SUBTRACT, rect) => sx_region_subtract_rect r rect
  | (OP_INTERSECT, rect) => sx_region_intersect_rect r rect
  end.
Definition region_run (prog : list (sx_region_op * sx_rect)) : sx_region :=
  fold_left region_step prog sx_region_clear.
Fixpoint ideal (rprog : list (sx_region_op * sx_rect)) (x y : Z) : Prop :=
  match rprog with
  | [] => False
  | (op, rect) :: rest => op_sem op (ideal rest x y) (in_rect rect x y)
  end.

(** [r] stands for the set [p]. *)
Definition stands_for (r : sx_region) (p : Z -> Z -> Prop) : Prop :=
  region_ok r /\ (forall x y, p x y -> in_region r x y) /\
  (rg_overflowed r = false -> forall x y, in_region r x y <-> p x y).

Lemma empty_region_points r x y : sx_region_is_empty r = true -> ~ in_region r x y.
Proof.
  unfold sx_region_is_empty, in_region. intros H K. destruct (rg_bands r); [|done].
  by apply in_bands_nil in K.
Qed.

Lemma region_step_stands r p op rect :
  stands_for r p ->
  stands_for (region_step r (op, rect)) (fun x y => op_sem op (p x y) (in_rect rect x y)).
Proof.
  intros (Hok & Hsup & Hex).
  assert (Hs : region_step r (op, rect) = sx_region_apply_rect r rect op) by (by destruct op).
  rewrite Hs. destruct (apply_rect_promise r rect op Hok) as (P1 & P2 & P3).
  split; [done|]. split.
  - intros x y Hop. apply P2. specialize (Hsup x y). destruct op; simpl in *; tauto.
  - intros Hf x y. rewrite (P3 Hf x y). apply apply_rect_flag in Hf as [Hf|[[-> He]|[-> He]]].
    + specialize (Hex Hf x y). destruct op; simpl; tauto.
    + apply (in_rect_empty rect x y) in He. simpl. tauto.
    + apply (empty_region_points r x y) in He. specialize (Hsup x y). simpl. tauto.
Qed.

(** ** Properties *)

(** C3. Region programs refine set algebra: after any sequence of
    [sx_region_union_rect], [sx_region_subtract_rect] and
    [sx_region_intersect_rect] from a cleared region, the region is in canonical
    form within its fixed arrays, contains every point of the ideal set, and is
    exactly that set unless its overflow mark is up. *)
Theorem region_program_refines prog :
  let r := region_run prog in
  region_ok r /\ (forall x y, ideal (rev prog) x y -> in_region r x y) /\
  (rg_overflowed r = false -> forall x y, in_region r x y <-> ideal (rev prog) x y).
Proof.
  simpl. change (stands_for (region_run prog) (ideal (rev prog))).
  unfold region_run. induction prog as [|[op rect] prog IH] using rev_ind.
  - split; [done|]. split; [done|]. intros _ x y. simpl. split; [|done].
    intros H. by apply in_bands_nil in H.
  - rewrite fold_left_app, rev_unit. by apply region_step_stands.
Qed.

(** Each single operation on a canonical region keeps the canonical form,
    never loses a point of the result it is named after, and has no other
    points unless the result is marked as overflowed. *)
Theorem region_ops_exact_or_marked r rect :
  region_ok r ->
  op_promise OP_UNION r rect (sx_region_union_rect r rect) /\
  op_promise OP_SUBTRACT r rect (sx_region_subtract_rect r rect) /\
  op_promise OP_INTERSECT r rect (sx_region_intersect_rect r rect).
Proof. intros H. split; [|split]; by apply apply_rect_promise. Qed.

(** The L shape of the witnesses. *)
Definition ell : sx_region :=
  sx_region_union_rect (sx_region_set_rect (mk_rect 0 0 10 4)) (mk_rect 0 4 3 6).

Lemma ell_ok : region_ok ell.
Proof. by apply apply_rect_promise, set_rect_ok. Qed.

Lemma region_ops_exact_or_marked_witness :
  region_ok ell /\ rg_overflowed (sx_region_subtract_rect ell (mk_rect 1 1 2 2)) = false /\
  op_promise OP_SUBTRACT ell (mk_rect 1 1 2 2) (sx_region_subtract_rect ell (mk_rect 1 1 2 2)).
Proof.
  split; [exact ell_ok|]. split; [reflexivity|].
  exact (proj1 (proj2 (region_ops_exact_or_marked ell (mk_rect 1 1 2 2) ell_ok))).
Defined.

(** Equal shapes have one representation: two canonical regions with the
    same points have the same bands and spans. *)
Theorem region_canonical r r' :
  region_ok r -> region_ok r' -> region_equiv r r' -> rg_bands r = rg_bands r'.
Proof. apply canonical_bands. Qed.

Lemma region_canonical_witness :
  rg_bands (sx_region_union_rect ell (mk_rect 2 2 4 1)) = rg_bands ell.
Proof.
  apply (region_canonical (sx_region_union_rect ell (mk_rect 2 2 4 1)) ell).
  - by apply apply_rect_promise, ell_ok.
  - exact ell_ok.
  - reflexivity.
Defined.

(** The sweep behind the three operations ends: with two turns per band and
    three more, the model of its unbounded [while] never runs out. *)
Theorem region_sweep_terminates r rect op :
  sx_rect_is_empty rect = false ->
  exists result, sweep (sweep_fuel (rg_bands r)) (rg_bands r) rect op
                       (sweep_start (rg_bands r) rect op) [] = Some result.
Proof.
  intros H. pose proof (sweep_terminates r rect op H) as K.
  destruct (sweep _ _ _ _ _ _) as [res|]; [by exists res|done].
Qed.

Lemma region_sweep_terminates_witness :
  exists result, sweep (sweep_fuel (rg_bands ell)) (rg_bands ell) (mk_rect 1 1 2 2) OP_SUBTRACT
                       (sweep_start (rg_bands ell) (mk_rect 1 1 2 2) OP_SUBTRACT) [] = Some result.
Proof. apply (region_sweep_terminates ell (mk_rect 1 1 2 2) OP_SUBTRACT). reflexivity. Defined.

(** The enumeration partitions a canonical region: indices below
    [sx_region_rect_count] and only those give a rectangle, a point is in the
    region exactly when it is in one of them, and two different indices give
    rectangles with no common point. *)
Theorem region_rects_partition r :
  region_ok r ->
  (forall i, 0 <= i -> is_Some (sx_region_rect_at r i) <-> i < sx_region_rect_count r) /\
  (forall x y, in_region r x y <->
     exists i q, 0 <= i /\ sx_region_rect_at r i = Some q /\ in_rect q x y) /\
  (forall i j p q x y, 0 <= i -> 0 <= j -> i <> j ->
     sx_region_rect_at r i = Some p -> sx_region_rect_at r j = Some q ->
     in_rect p x y -> ~ in_rect q x y).
Proof.
  intros [Hok _].
  assert (Hat : forall i, 0 <= i -> sx_region_rect_at r i = band_rects (rg_bands r) !! Z.to_nat i).
  { intros i Hi. unfold sx_region_rect_at. rewrite rect_at_from_lookup by lia. f_equal. lia. }
  pose proof (band_rects_disjoint _ _ Hok) as Hd. rewrite rect_count_length.
  split; [|split].
  - intros i Hi. rewrite Hat, lookup_lt_is_Some by done. unfold zlen. lia.
  - intros x y. unfold in_region. rewrite <- band_rects_points, list_exists_elem. split.
    + intros (q & (i & Hi)%list_elem_of_lookup_1 & Hq). exists (Z.of_nat i), q.
      rewrite Hat, Nat2Z.id by lia. auto with lia.
    + intros (i & q & Hi & Hq & Hx). rewrite Hat in Hq by done. exists q.
      split; [by eapply list_elem_of_lookup_2|done].
  - intros i j p q x y Hi Hj Hij Hp Hq Hx Hy. rewrite Hat in Hp, Hq by done.
    destruct (Z_lt_le_dec i j).
    + by apply (ordpairs_lookup _ _ (Z.to_nat i) (Z.to_nat j) _ _ Hd ltac:(lia) Hp Hq x y).
    + by apply (ordpairs_lookup _ _ (Z.to_nat j) (Z.to_nat i) _ _ Hd ltac:(lia) Hq Hp x y).
Qed.

Lemma region_rects_partition_witness :
  sx_region_rect_count ell = 2 /\
  forall x y, in_region ell x y <->
     exists i q, 0 <= i /\ sx_region_rect_at ell i = Some q /\ in_rect q x y.
Proof. split; [reflexivity|]. exact (proj1 (proj2 (region_rects_partition ell ell_ok))). Defined.

(** [sx_region_contains_point] decides membership, and
    [sx_region_bounds] is the least rectangle around a canonical region. *)
Theorem region_queries r :
  region_ok r ->
  (forall x y, sx_region_contains_point r x y = true <-> in_region r x y) /\
  (forall x y, in_region r x y -> in_rect (sx_region_bounds r) x y) /\
  (forall c, (forall x y, in_region r x y -> in_rect c x y) ->
   forall x y, in_rect (sx_region_bounds r) x y -> in_rect c x y).
Proof.
  intros Hr. split; [|split].
  - intros x y. destruct Hr as [Hok _]. by apply (contains_from_iff None).
  - intros x y. by apply bounds_cover.
  - intros c Hc x y Hx. destruct (rg_bands r) as [|f t] eqn:E.
    { exfalso. unfold sx_region_bounds in Hx. rewrite E in Hx. by eapply in_rect_empty in Hx. }
    destruct (bounds_shape r f t Hr E) as (z & x0 & x1 & Hz & Hb & _ & (b & Hb1 & ->) & (c' & Hc1 & ->)).
    rewrite Hb in Hx. destruct Hr as [Hok _].
    assert (Hp : forall d u v, d ∈ rg_bands r -> covers d v -> in_spans (bd_spans d) u -> in_rect c u v).
    { intros d u v Hd Cd Su. apply Hc, in_bands_elem. eauto. }
    assert (Hrow : forall d, d ∈ rg_bands r -> covers d (bd_y0 d) /\ covers d (bd_y1 d - 1)).
    { intros d Hd. destruct (bands_ok_forall _ _ _ Hok Hd) as (? & _). unfold covers. lia. }
    assert (Hf : f ∈ rg_bands r) by (rewrite E; by constructor). pose proof (last_elem _ _ Hz) as Hz'.
    pose proof (Hp b _ _ Hb1 (proj1 (Hrow b Hb1)) (band_left_in _ (bands_ok_forall _ _ _ Hok Hb1))).
    pose proof (Hp c' _ _ Hc1 (proj1 (Hrow c' Hc1)) (band_right_in _ (bands_ok_forall _ _ _ Hok Hc1))).
    pose proof (Hp f _ _ Hf (proj1 (Hrow f Hf)) (band_left_in _ (bands_ok_forall _ _ _ Hok Hf))).
    pose proof (Hp z _ _ Hz' (proj2 (Hrow z Hz')) (band_left_in _ (bands_ok_forall _ _ _ Hok Hz'))).
    unfold in_rect in *. simpl in *. lia.
Qed.

Lemma region_queries_witness :
  sx_region_contains_point ell 2 9 = true /\
  forall x y, sx_region_contains_point ell x y = true <-> in_region ell x y.
Proof. split; [reflexivity|]. exact (proj1 (region_queries ell ell_ok)). Defined.
