(* ===== verification/RectSet.v ===== *)
(** * Rectangle sets (system/gfx/gfx2d.c, [sx_rect_set_*])

    [struct sx_rect_set] is the damage list of the compositor: at most
    [SX_RECT_SET_CAPACITY] rectangles, merged by bounding box.  The array is a
    list here and [count] its length: the cells past [count] are zeroed by the
    source and never read.  The theorems show that no damaged pixel is ever
    dropped, that the list stays within its array, and when a subtraction is
    exact. *)

From S2P Require Import Prelude Rect.

Definition SX_RECT_SET_CAPACITY : Z := 64.

Definition sx_rect_set := list sx_rect.

Definition sx_rect_set_clear : sx_rect_set := [].

(** One turn of the outer loop of [sx_rect_set_compact]: the first empty
    rectangle leaves and the later ones move down; [None] when there is none. *)
Fixpoint drop_first_empty (set : sx_rect_set) : option sx_rect_set :=
  match set with
  | [] => None
  | r :: rest =>
      if negb (sx_rect_is_empty r)
      then match drop_first_empty rest with Some rest' => Some (r :: rest') | None => None end
      else Some rest
  end.
Fixpoint compact_loop (fuel : nat) (set : sx_rect_set) : sx_rect_set :=
  match fuel with
  | O => set
  | S fuel =>
      match drop_first_empty set with
      | None => set
      | Some set' => compact_loop fuel set'
      end
  end.
(** Each turn shortens the list, so [count] turns are enough
    ([compact_is_filter]). *)
Definition sx_rect_set_compact (set : sx_rect_set) : sx_rect_set :=
  compact_loop (length set) set.

Definition sx_ranges_overlap (a_start a_end b_start b_end : Z) : bool :=
  (a_start <? b_end) && (b_start <? a_end).

Definition sx_rects_should_merge (left right : sx_rect) : bool :=
  if negb (sx_rect_is_empty (sx_rect_intersect left right)) then true
  else if ((sx_rect_right left =? rx right) || (sx_rect_right right =? rx left)) &&
          sx_ranges_overlap (ry left) (sx_rect_bottom left) (ry right) (sx_rect_bottom right)
  then true
  else if ((sx_rect_bottom left =? ry right) || (sx_rect_bottom right =? ry left)) &&
          sx_ranges_overlap (rx left) (sx_rect_right left) (rx right) (sx_rect_right right)
  then true
  else false.

(** The first loop of [sx_rect_set_add]: [Some] when a rectangle absorbed the
    new one. *)
Fixpoint merge_into (set : sx_rect_set) (rect : sx_rect) : option sx_rect_set :=
  match set with
  | [] => None
  | existing :: rest =>
      if negb (sx_rect_is_empty existing) && sx_rects_should_merge existing rect
      then Some (sx_rect_union existing rect :: rest)
      else match merge_into rest rect with
           | Some rest' => Some (existing :: rest')
           | None => None
           end
  end.

Definition rect0 : sx_rect := mk_rect 0 0 0 0.

(** The return value and the set left behind. *)
Definition sx_rect_set_add (set : sx_rect_set) (rect : sx_rect) : bool * sx_rect_set :=
  if sx_rect_is_empty rect then (false, set)
  else
    match merge_into set rect with
    | Some set' => (true, sx_rect_set_compact set')
    | None =>
        if zlen set <? SX_RECT_SET_CAPACITY then (true, set ++ [rect])
        else
          (true, [fold_left sx_rect_union (tl set) (sx_rect_union (hd rect0 set) rect)])
    end.

Definition sx_rect_set_push_raw (set : sx_rect_set) (rect : sx_rect) : sx_rect_set :=
  if sx_rect_is_empty rect then set
  else if zlen set <? SX_RECT_SET_CAPACITY then set ++ [rect]
  else set_at set 0 (sx_rect_union (at_ rect0 set 0) rect).

(** The body of the loop of [sx_rect_set_subtract_rect] for one rectangle: up
    to four strips outside the hole. *)
Definition subtract_one (hole : sx_rect) (result : sx_rect_set) (r : sx_rect) : sx_rect_set :=
  if sx_rect_is_empty r then result
  else
    let overlap := sx_rect_intersect r hole in
    if sx_rect_is_empty overlap then sx_rect_set_push_raw result r
    else
      let result :=
        if ry overlap >? ry r
        then sx_rect_set_push_raw result (sx_rect_make (rx r) (ry r) (rw r) (ry overlap - ry r))
        else result in
      let result :=
        if sx_rect_bottom overlap <? sx_rect_bottom r
        then sx_rect_set_push_raw result
               (sx_rect_make (rx r) (sx_rect_bottom overlap) (rw r)
                             (sx_rect_bottom r - sx_rect_bottom overlap))
        else result in
      let result :=
        if rx overlap >? rx r
        then sx_rect_set_push_raw result
               (sx_rect_make (rx r) (ry overlap) (rx overlap - rx r) (rh overlap))
        else result in
      if sx_rect_right overlap <? sx_rect_right r
      then sx_rect_set_push_raw result
             (sx_rect_make (sx_rect_right overlap) (ry overlap)
                           (sx_rect_right r - sx_rect_right overlap) (rh overlap))
      else result.

Definition sx_rect_set_subtract_rect (set : sx_rect_set) (hole : sx_rect) : sx_rect_set :=
  if sx_rect_is_empty hole then set
  else fold_left (subtract_one hole) set sx_rect_set_clear.

Definition sx_rect_set_add_translated (set : sx_rect_set) (rect : sx_rect) (dx dy : Z)
  : bool * sx_rect_set :=
  sx_rect_set_add set (sx_rect_translate rect dx dy).

Definition sx_rect_set_bounds (set : sx_rect_set) : sx_rect :=
  match set with
  | [] => sx_rect_make 0 0 0 0
  | first :: rest => fold_left sx_rect_union rest first
  end.

Definition sx_rect_set_valid (set : sx_rect_set) : bool := negb (zlen set =? 0).

(** ** Points and the array bound *)

Definition in_set (set : sx_rect_set) (x y : Z) : Prop := Exists (fun r => in_rect r x y) set.
Definition set_ok (set : sx_rect_set) : Prop :=
  zlen set <= SX_RECT_SET_CAPACITY /\ Forall (fun r => sx_rect_is_empty r = false) set.

Lemma in_set_nil x y : ~ in_set [] x y.
Proof. intros H. inversion H. Qed.
Lemma in_set_cons r t x y : in_set (r :: t) x y <-> in_rect r x y \/ in_set t x y.
Proof. apply Exists_cons. Qed.
Lemma in_set_app a b x y : in_set (a ++ b) x y <-> in_set a x y \/ in_set b x y.
Proof. apply Exists_app. Qed.
Lemma in_set_snoc a r x y : in_set (a ++ [r]) x y <-> in_set a x y \/ in_rect r x y.
Proof. rewrite in_set_app, in_set_cons. pose proof (in_set_nil x y). tauto. Qed.

(** The compaction keeps exactly the non-empty rectangles. *)
Lemma drop_first_empty_spec set :
  match drop_first_empty set with
  | None => Forall (fun r => sx_rect_is_empty r = false) set
  | Some set' =>
      length set = S (length set') /\
      List.filter (fun r => negb (sx_rect_is_empty r)) set =
      List.filter (fun r => negb (sx_rect_is_empty r)) set'
  end.
Proof.
  induction set as [|r t IH]; simpl; [constructor|].
  destruct (sx_rect_is_empty r) eqn:E; simpl; [done|].
  destruct (drop_first_empty t) as [t'|].
  - destruct IH as [-> IH]. simpl. rewrite E. simpl. by rewrite IH.
  - by constructor.
Qed.

Lemma filter_all_id {A} (f : A -> bool) l : Forall (fun a => f a = true) l -> List.filter f l = l.
Proof. induction 1 as [|a l Ha Hl IH]; simpl; [done|]. by rewrite Ha, IH. Qed.

Lemma compact_is_filter set :
  sx_rect_set_compact set = List.filter (fun r => negb (sx_rect_is_empty r)) set.
Proof.
  unfold sx_rect_set_compact.
  assert (H : forall n s, (length s <= n)%nat ->
            compact_loop n s = List.filter (fun r => negb (sx_rect_is_empty r)) s).
  { induction n as [|n IH]; intros s Hn; [destruct s; simpl in *; [done|lia]|].
    simpl. pose proof (drop_first_empty_spec s) as K. destruct (drop_first_empty s) as [s'|].
    - destruct K as [K ->]. apply IH. lia.
    - symmetry. apply filter_all_id. eapply Forall_impl; [exact K|]. by intros r ->. }
  by apply H.
Qed.

Lemma filter_nonempty_points set x y :
  in_set (List.filter (fun r => negb (sx_rect_is_empty r)) set) x y <-> in_set set x y.
Proof.
  induction set as [|r t IH]; simpl; [done|]. destruct (sx_rect_is_empty r) eqn:E; simpl;
    rewrite ?in_set_cons, IH; [|done]. pose proof (in_rect_empty r x y E). tauto.
Qed.

Lemma union_empty_iff a b :
  sx_rect_is_empty (sx_rect_union a b) = sx_rect_is_empty a && sx_rect_is_empty b.
Proof. rect_lia. Qed.

Lemma merge_into_spec set : forall rect set',
  merge_into set rect = Some set' ->
  length set' = length set /\
  (Forall (fun r => sx_rect_is_empty r = false) set ->
   Forall (fun r => sx_rect_is_empty r = false) set') /\
  forall x y, in_set set x y \/ in_rect rect x y -> in_set set' x y.
Proof.
  induction set as [|e t IH]; intros rect set' H; simpl in H; [done|].
  destruct (negb (sx_rect_is_empty e) && sx_rects_should_merge e rect) eqn:Em.
  - simplify_eq. split; [done|]. split.
    + intros Hf. inversion Hf as [|? ? He Ht]; subst. constructor; [|done].
      by rewrite union_empty_iff, He.
    + intros x y. rewrite !in_set_cons. pose proof (in_rect_union_l e rect x y).
      pose proof (in_rect_union_r e rect x y). tauto.
  - destruct (merge_into t rect) as [t'|] eqn:E; [|done]. simplify_eq.
    destruct (IH rect t' E) as (I1 & I2 & I3). split; [by simpl; rewrite I1|]. split.
    + intros Hf. inversion Hf; subst. constructor; auto.
    + intros x y. rewrite !in_set_cons. specialize (I3 x y). tauto.
Qed.

Lemma fold_union_points l : forall acc x y,
  in_rect acc x y \/ in_set l x y -> in_rect (fold_left sx_rect_union l acc) x y.
Proof.
  induction l as [|r t IH]; intros acc x y H; simpl.
  - destruct H as [H|H]; [done|by apply in_set_nil in H].
  - apply IH. rewrite in_set_cons in H. destruct H as [H|[H|H]]; auto with rect.
Qed.

Lemma fold_union_least l c : forall acc,
  (forall x y, in_rect acc x y \/ in_set l x y -> in_rect c x y) ->
  forall x y, in_rect (fold_left sx_rect_union l acc) x y -> in_rect c x y.
Proof.
  induction l as [|r t IH]; intros acc H x y; simpl; [intros; apply H; by left|].
  apply IH. intros u v [Hu|Hu].
  - revert u v Hu. apply union_least; intros u v Hu; apply H; rewrite in_set_cons; tauto.
  - apply H. rewrite in_set_cons. tauto.
Qed.

Lemma fold_union_nonempty l : forall acc,
  sx_rect_is_empty acc = false -> sx_rect_is_empty (fold_left sx_rect_union l acc) = false.
Proof.
  induction l as [|r t IH]; intros acc H; simpl; [done|]. apply IH. by rewrite union_empty_iff, H.
Qed.

Lemma add_spec set rect :
  set_ok set ->
  set_ok (sx_rect_set_add set rect).2 /\
  forall x y, in_set set x y \/ in_rect rect x y -> in_set (sx_rect_set_add set rect).2 x y.
Proof.
  intros [Hl Hne]. unfold sx_rect_set_add. destruct (sx_rect_is_empty rect) eqn:Er; simpl.
  { split; [done|]. intros x y [H|H]; [done|by apply in_rect_empty in H]. }
  destruct (merge_into set rect) as [set'|] eqn:Em; simpl.
  - apply merge_into_spec in Em as (M1 & M2 & M3). rewrite compact_is_filter.
    rewrite filter_all_id; [|eapply Forall_impl; [by apply M2|]; by intros r ->].
    split; [|done]. split; [unfold zlen; by rewrite M1|by apply M2].
  - case_if; simpl.
    + split; [split; [rewrite zlen_snoc; lia|by apply Forall_app; auto]|].
      intros x y. by rewrite in_set_snoc.
    + destruct set as [|s t]; [done|]. simpl. split.
      * split; [done|]. constructor; [|done]. apply fold_union_nonempty.
        rewrite union_empty_iff, Er. apply andb_false_r.
      * intros x y H. rewrite in_set_cons. left. apply fold_union_points.
        rewrite in_set_cons in H. destruct H as [[H|H]|H]; auto with rect.
Qed.

(** Pushing without merging: exact while there is room. *)
Lemma push_raw_spec set rect :
  set_ok set -> sx_rect_is_empty rect = false ->
  set_ok (sx_rect_set_push_raw set rect) /\
  zlen (sx_rect_set_push_raw set rect) <= zlen set + 1 /\
  (forall x y, in_set set x y \/ in_rect rect x y -> in_set (sx_rect_set_push_raw set rect) x y) /\
  (zlen set < SX_RECT_SET_CAPACITY ->
   forall x y, in_set (sx_rect_set_push_raw set rect) x y <-> in_set set x y \/ in_rect rect x y).
Proof.
  intros [Hl Hne] Er. unfold sx_rect_set_push_raw. rewrite Er. case_if.
  - split; [split; [rewrite zlen_snoc; lia|by apply Forall_app; auto]|].
    split; [rewrite zlen_snoc; lia|]. split; intros; by rewrite ?in_set_snoc.
  - destruct set as [|s t]; [done|].
    inversion Hne as [|? ? Hs Ht]; subst. split; [split; [done|]|].
    { constructor; [|done]. unfold at_. simpl. by rewrite union_empty_iff, Hs. }
    split; [unfold zlen; simpl; lia|]. split; [|lia].
    intros x y. change (set_at (s :: t) 0 ?r) with (r :: t). change (at_ rect0 (s :: t) 0) with s.
    rewrite !in_set_cons.
    pose proof (in_rect_union_l s rect x y). pose proof (in_rect_union_r s rect x y). tauto.
Qed.

(** Pushing a list of rectangles. *)
Lemma push_all_spec l : forall set,
  set_ok set -> Forall (fun r => sx_rect_is_empty r = false) l ->
  let out := fold_left sx_rect_set_push_raw l set in
  set_ok out /\ zlen out <= zlen set + zlen l /\
  (forall x y, in_set set x y \/ in_set l x y -> in_set out x y) /\
  (zlen set + zlen l <= SX_RECT_SET_CAPACITY ->
   forall x y, in_set out x y <-> in_set set x y \/ in_set l x y).
Proof.
  induction l as [|r t IH]; intros set Hok Hne; simpl.
  - split; [done|]. split; [unfold zlen; simpl; lia|].
    split; intros; pose proof (in_set_nil x y); tauto.
  - inversion Hne as [|? ? Hr Ht]; subst.
    destruct (push_raw_spec set r Hok Hr) as (P1 & P2 & P3 & P4).
    destruct (IH _ P1 Ht) as (I1 & I2 & I3 & I4).
    assert (Hz : zlen (r :: t) = zlen t + 1) by (unfold zlen; simpl; lia).
    pose proof (zlen_nonneg t). split; [done|]. split; [lia|]. split.
    + intros x y. rewrite in_set_cons. specialize (P3 x y). specialize (I3 x y). tauto.
    + intros Hc x y. rewrite I4, P4, in_set_cons by lia. tauto.
Qed.

(** The strips of [r] outside the hole, in the order they are pushed. *)
Definition strips (hole r : sx_rect) : sx_rect_set :=
  if sx_rect_is_empty r then []
  else
    let o := sx_rect_intersect r hole in
    if sx_rect_is_empty o then [r]
    else
      (if ry o >? ry r then [sx_rect_make (rx r) (ry r) (rw r) (ry o - ry r)] else []) ++
      (if sx_rect_bottom o <? sx_rect_bottom r
       then [sx_rect_make (rx r) (sx_rect_bottom o) (rw r) (sx_rect_bottom r - sx_rect_bottom o)]
       else []) ++
      (if rx o >? rx r then [sx_rect_make (rx r) (ry o) (rx o - rx r) (rh o)] else []) ++
      (if sx_rect_right o <? sx_rect_right r
       then [sx_rect_make (sx_rect_right o) (ry o) (sx_rect_right r - sx_rect_right o) (rh o)]
       else []).

Lemma subtract_one_strips hole acc r :
  subtract_one hole acc r = fold_left sx_rect_set_push_raw (strips hole r) acc.
Proof. unfold subtract_one, strips. by repeat (case_if; simpl). Qed.

Lemma strips_nonempty hole r : Forall (fun q => sx_rect_is_empty q = false) (strips hole r).
Proof.
  unfold strips. destruct (sx_rect_is_empty r) eqn:Er; [constructor|].
  destruct (sx_rect_is_empty (sx_rect_intersect r hole)) eqn:Eo; [by repeat constructor|].
  set (o := sx_rect_intersect r hole) in *. unfold sx_rect_is_empty in Er, Eo.
  unfold sx_rect_bottom, sx_rect_right.
  assert (Hone : forall (b : bool) q, (b = true -> sx_rect_is_empty q = false) ->
            Forall (fun q => sx_rect_is_empty q = false) (if b then [q] else [])).
  { intros [] q Hq; [constructor; [by apply Hq|]|]; constructor. }
  clearbody o. repeat apply Forall_app_2; apply Hone; unfold sx_rect_is_empty; simpl; lia.
Qed.

Lemma strips_length hole r : zlen (strips hole r) <= 4.
Proof. unfold strips, zlen. repeat (case_if; simpl); lia. Qed.

(** A point of the overlap is in both, so the strips are exactly the rest. *)
Lemma strips_points hole r x y :
  in_set (strips hole r) x y <-> in_rect r x y /\ ~ in_rect hole x y.
Proof.
  unfold strips. destruct (sx_rect_is_empty r) eqn:Er.
  { pose proof (in_rect_empty r x y Er). pose proof (in_set_nil x y). tauto. }
  pose proof (in_rect_intersect r hole x y) as Hi.
  destruct (sx_rect_is_empty (sx_rect_intersect r hole)) eqn:Eo.
  { apply (in_rect_empty _ x y) in Eo. rewrite in_set_cons. pose proof (in_set_nil x y). tauto. }
  assert (Hsub : forall u v, in_rect (sx_rect_intersect r hole) u v -> in_rect r u v)
    by (intros u v; rewrite in_rect_intersect; tauto).
  set (o := sx_rect_intersect r hole) in *. clearbody o. unfold sx_rect_is_empty in Er, Eo.
  pose proof (Hsub (rx o) (ry o)). pose proof (Hsub (rx o + rw o - 1) (ry o + rh o - 1)).
  clear Hsub. unfold in_rect in *. rewrite !in_set_app.
  assert (Hone : forall (b : bool) q, in_set (if b then [q] else []) x y <-> b = true /\ in_rect q x y).
  { intros [] q; [rewrite in_set_cons|]; pose proof (in_set_nil x y); intuition discriminate. }
  rewrite !Hone. unfold in_rect, sx_rect_bottom, sx_rect_right. simpl. lia.
Qed.

Lemma subtract_fold hole l : forall acc,
  fold_left (subtract_one hole) l acc =
  fold_left sx_rect_set_push_raw (flat_map (strips hole) l) acc.
Proof.
  induction l as [|r t IH]; intros acc; simpl; [done|].
  by rewrite fold_left_app, <- subtract_one_strips, IH.
Qed.

Lemma all_strips_points hole l x y :
  in_set (flat_map (strips hole) l) x y <-> in_set l x y /\ ~ in_rect hole x y.
Proof.
  induction l as [|r t IH]; simpl.
  - pose proof (in_set_nil x y). tauto.
  - rewrite in_set_app, in_set_cons, strips_points, IH. tauto.
Qed.

Lemma all_strips_length hole l : zlen (flat_map (strips hole) l) <= 4 * zlen l.
Proof.
  induction l as [|r t IH]; simpl; [done|]. unfold zlen in *. rewrite length_app.
  pose proof (strips_length hole r). unfold zlen in *. simpl. lia.
Qed.

Lemma subtract_spec set hole :
  set_ok set ->
  let out := sx_rect_set_subtract_rect set hole in
  set_ok out /\
  (forall x y, in_set set x y -> ~ in_rect hole x y -> in_set out x y) /\
  (4 * zlen set <= SX_RECT_SET_CAPACITY ->
   forall x y, in_set out x y <-> in_set set x y /\ ~ in_rect hole x y).
Proof.
  intros Hok. unfold sx_rect_set_subtract_rect. destruct (sx_rect_is_empty hole) eqn:Eh; simpl.
  { pose proof (fun x y => in_rect_empty hole x y Eh) as Hn. split; [done|]. split; [done|].
    intros _ x y. specialize (Hn x y). tauto. }
  rewrite subtract_fold.
  assert (Hn : Forall (fun q => sx_rect_is_empty q = false) (flat_map (strips hole) set)).
  { apply List.Forall_flat_map, List.Forall_forall. intros r _. apply strips_nonempty. }
  assert (H0 : set_ok sx_rect_set_clear) by (split; [done|constructor]).
  destruct (push_all_spec _ sx_rect_set_clear H0 Hn) as (P1 & P2 & P3 & P4).
  split; [done|]. split.
  - intros x y Hx Hh. apply P3. right. by apply all_strips_points.
  - intros Hc x y. rewrite P4, all_strips_points.
    + pose proof (in_set_nil x y). unfold sx_rect_set_clear. tauto.
    + pose proof (all_strips_length hole set). change (zlen sx_rect_set_clear) with 0. lia.
Qed.

(** ** Damage accumulation *)

Inductive damage_op := Damage (r : sx_rect) | DamageAt (r : sx_rect) (dx dy : Z) | Undamage (r : sx_rect).

Definition damage_step (set : sx_rect_set) (c : damage_op) : sx_rect_set :=
  match c with
  | Damage r => (sx_rect_set_add set r).2
  | DamageAt r dx dy => (sx_rect_set_add_translated set r dx dy).2
  | Undamage r => sx_rect_set_subtract_rect set r
  end.
Definition damage_run (prog : list damage_op) : sx_rect_set :=
  fold_left damage_step prog sx_rect_set_clear.

(** What must be repainted after the program, latest operation first. *)
Fixpoint must_paint (rprog : list damage_op) (x y : Z) : Prop :=
  match rprog with
  | [] => False
  | Damage r :: rest => must_paint rest x y \/ in_rect r x y
  | DamageAt r dx dy :: rest => must_paint rest x y \/ in_rect r (x - dx) (y - dy)
  | Undamage r :: rest => must_paint rest x y /\ ~ in_rect r x y
  end.

Lemma in_rect_translate r dx dy x y :
  in_rect (sx_rect_translate r dx dy) x y <-> in_rect r (x - dx) (y - dy).
Proof. rect_lia. Qed.

(** No damage is ever lost: after any sequence of additions, translated
    additions and subtractions from a cleared set, the set is within its array
    and without empty entries, and covers every point that must be repainted. *)
Theorem damage_never_lost prog :
  let set := damage_run prog in
  set_ok set /\ forall x y, must_paint (rev prog) x y -> in_set set x y.
Proof.
  simpl. unfold damage_run. induction prog as [|c prog [IH1 IH2]] using rev_ind.
  - split; [split; [done|constructor]|done].
  - rewrite fold_left_app, rev_unit. simpl.
    destruct c as [r|r dx dy|r]; simpl.
    + destruct (add_spec _ r IH1) as [A1 A2]. split; [done|].
      intros x y [H|H]; apply A2; auto.
    + destruct (add_spec _ (sx_rect_translate r dx dy) IH1) as [A1 A2]. split; [done|].
      intros x y [H|H]; apply A2; [auto|right; by apply in_rect_translate].
    + destruct (subtract_spec _ r IH1) as (A1 & A2 & _). split; [done|].
      intros x y [H Hn]. by apply A2; [apply IH2|].
Qed.

(** A subtraction from at most sixteen rectangles is exact: the strips fit
    the array, and what is left is the set minus the hole. *)
Theorem rect_set_subtract_exact set hole :
  set_ok set -> 4 * zlen set <= SX_RECT_SET_CAPACITY ->
  forall x y, in_set (sx_rect_set_subtract_rect set hole) x y <->
              in_set set x y /\ ~ in_rect hole x y.
Proof. intros Hok Hc. by apply subtract_spec. Qed.

Lemma rect_set_subtract_exact_witness :
  zlen (sx_rect_set_subtract_rect [mk_rect 0 0 9 9] (mk_rect 3 3 3 3)) = 4 /\
  forall x y, in_set (sx_rect_set_subtract_rect [mk_rect 0 0 9 9] (mk_rect 3 3 3 3)) x y <->
              in_set [mk_rect 0 0 9 9] x y /\ ~ in_rect (mk_rect 3 3 3 3) x y.
Proof.
  split; [reflexivity|]. apply (rect_set_subtract_exact [mk_rect 0 0 9 9] (mk_rect 3 3 3 3)).
  - split; [done|]. repeat constructor.
  - done.
Defined.

(** [sx_rect_set_bounds] is the least rectangle around the set, and the set
    is reported valid exactly when it holds a rectangle. *)
Theorem rect_set_bounds_least set :
  (forall x y, in_set set x y -> in_rect (sx_rect_set_bounds set) x y) /\
  (forall c, (forall x y, in_set set x y -> in_rect c x y) ->
   forall x y, in_rect (sx_rect_set_bounds set) x y -> in_rect c x y) /\
  (sx_rect_set_valid set = true <-> set <> []).
Proof.
  destruct set as [|r t]; simpl.
  - split; [intros x y H; by apply in_set_nil in H|]. split; [|done].
    intros c _ x y H. by apply in_rect_empty in H.
  - split; [|split].
    + intros x y. rewrite in_set_cons. apply fold_union_points.
    + intros c Hc. apply fold_union_least. intros x y H. apply Hc. by rewrite in_set_cons.
    + unfold sx_rect_set_valid, zlen. simpl. split; [done|]. intros _. lia.
Qed.
