(* ===== verification/Mines.v ===== *)
(** * The Minesweeper rules (subsystems/posix/userland/mines_board.c)

    [struct mines_board] and the operations the game window calls: reset,
    reveal (with the deferred placing of the mines and the cascade), cycle a
    mark, chord.  The global generator [g_random_state] is threaded explicitly.
    [static int stack[MINES_MAX_CELLS]] of the cascade is a list with the bound
    checked at every push: a push past the array, undefined in C, is the
    result [FloodOverflow].  Theorems are in MinesFacts. *)

From S2P Require Import Prelude.

Definition MINES_MAX_COLUMNS : Z := 30.
Definition MINES_MAX_ROWS : Z := 24.
Definition MINES_MAX_CELLS : Z := MINES_MAX_COLUMNS * MINES_MAX_ROWS.

Inductive mines_state := MINES_STATE_READY | MINES_STATE_PLAYING | MINES_STATE_WON | MINES_STATE_LOST.
Inductive mines_mark := MINES_MARK_NONE | MINES_MARK_FLAG | MINES_MARK_QUESTION.

#[export] Instance mines_state_eq_dec : EqDecision mines_state.
Proof. solve_decision. Defined.
#[export] Instance mines_mark_eq_dec : EqDecision mines_mark.
Proof. solve_decision. Defined.

Record mines_cell := mk_cell {
  mine : bool; revealed : bool; mark : mines_mark; neighbours : Z; exploded : bool }.
#[export] Instance mines_cell_eq_dec : EqDecision mines_cell.
Proof. solve_decision. Defined.

Definition cell0 : mines_cell := mk_cell false false MINES_MARK_NONE 0 false.

Record mines_board := mk_board {
  level : Z; columns : Z; rows : Z; mine_count : Z; state : mines_state;
  revealed_count : Z; flag_count : Z; marks_enabled : bool; cells : list mines_cell }.

(** Field updates of a cell and of the board. *)
Definition cell_mine (c : mines_cell) := mk_cell true (revealed c) (mark c) (neighbours c) (exploded c).
Definition cell_reveal (c : mines_cell) := mk_cell (mine c) true (mark c) (neighbours c) (exploded c).
Definition cell_mark (m : mines_mark) (c : mines_cell) :=
  mk_cell (mine c) (revealed c) m (neighbours c) (exploded c).
Definition cell_neighbours (k : Z) (c : mines_cell) :=
  mk_cell (mine c) (revealed c) (mark c) k (exploded c).
Definition cell_explode (c : mines_cell) :=
  mk_cell (mine c) (revealed c) (mark c) (neighbours c) true.

Definition with_cells (b : mines_board) (cs : list mines_cell) :=
  mk_board (level b) (columns b) (rows b) (mine_count b) (state b) (revealed_count b)
           (flag_count b) (marks_enabled b) cs.
Definition with_state (b : mines_board) (s : mines_state) :=
  mk_board (level b) (columns b) (rows b) (mine_count b) s (revealed_count b)
           (flag_count b) (marks_enabled b) (cells b).
Definition with_counts (b : mines_board) (mc rc fc : Z) :=
  mk_board (level b) (columns b) (rows b) mc (state b) rc fc (marks_enabled b) (cells b).

(** [board->cells[index]] and a store to it. *)
Definition cell_at (b : mines_board) (i : Z) : mines_cell := at_ cell0 (cells b) i.
Definition upd_cell (b : mines_board) (i : Z) (f : mines_cell -> mines_cell) : mines_board :=
  with_cells b (set_at (cells b) i (f (cell_at b i))).

(** [k_levels] and [mines_level_info]: columns, rows, mines. *)
Definition MINES_LEVEL_COUNT : Z := 3.
Definition mines_level_info (lvl : Z) : Z * Z * Z :=
  let lvl := if (lvl <? 0) || (lvl >=? MINES_LEVEL_COUNT) then 0 else lvl in
  if lvl =? 0 then (9, 9, 10) else if lvl =? 1 then (16, 16, 40) else (30, 16, 99).

(** ** Random numbers *)

Definition mines_random_seed (seed : Z) : Z := if negb (seed =? 0) then seed else 0x1d872b41.

Definition mines_random_next (state : Z) : Z :=
  let state := Z.lxor state (u32 (Z.shiftl state 13)) in
  let state := Z.lxor state (Z.shiftr state 17) in
  Z.lxor state (u32 (Z.shiftl state 5)).

(** The [for (;;)] of [mines_random_below]; [None] is out of fuel.  For every
    bound up to [MINES_MAX_CELLS] two draws are enough
    ([MinesPlay.random_below_total]). *)
Fixpoint random_loop (fuel : nat) (limit bound st : Z) : option (Z * Z) :=
  match fuel with
  | O => None
  | S fuel =>
      let value := mines_random_next st in
      if value <? limit then Some (value mod bound, value)
      else random_loop fuel limit bound value
  end.
Definition mines_random_below (bound st : Z) : option (Z * Z) :=
  if bound =? 0 then Some (0, st)
  else random_loop 2 (0xffffffff - 0xffffffff mod bound) bound st.

(** ** Cells *)

Definition mines_board_cell_count (b : mines_board) : Z := columns b * rows b.

Definition mines_board_index (b : mines_board) (column row : Z) : Z :=
  if (column <? 0) || (row <? 0) || (column >=? columns b) || (row >=? rows b) then -1
  else row * columns b + column.

(** [mines_board_cell] and [mines_board_cell_const]: [None] is the null pointer. *)
Definition mines_board_cell (b : mines_board) (column row : Z) : option mines_cell :=
  let index := mines_board_index b column row in
  if index <? 0 then None else Some (cell_at b index).

Definition mines_board_reset (b : mines_board) (lvl : Z) : mines_board :=
  let '(c, r, m) := mines_level_info lvl in
  mk_board (if (lvl <? 0) || (lvl >=? MINES_LEVEL_COUNT) then 0 else lvl) c r m
           MINES_STATE_READY 0 0
           (if negb (columns b =? 0) then marks_enabled b else true)
           (replicate (Z.to_nat MINES_MAX_CELLS) cell0).

Definition mines_board_remaining_mines (b : mines_board) : Z := mine_count b - flag_count b.

(** The double loop [dy], [dx] over the 3x3 block, in its order, as (dx, dy). *)
Definition block : list (Z * Z) :=
  [(-1, -1); (0, -1); (1, -1); (-1, 0); (0, 0); (1, 0); (-1, 1); (0, 1); (1, 1)].

Definition mines_around (b : mines_board) (column row : Z) : Z :=
  fold_left (fun count '(dx, dy) =>
      if (dx =? 0) && (dy =? 0) then count
      else match mines_board_cell b (column + dx) (row + dy) with
           | Some neighbour => if mine neighbour then count + 1 else count
           | None => count
           end) block 0.

Definition mines_count_neighbours (b : mines_board) : mines_board :=
  for_z 0 (rows b) (fun row b =>
    for_z 0 (columns b) (fun column b =>
      let index := mines_board_index b column row in
      upd_cell b index (cell_neighbours (u8 (mines_around b column row)))) b) b.

(** ** Placing the mines *)

Definition mine_candidates (count safe_index : Z) : list Z :=
  for_z 0 count (fun index cs => if index =? safe_index then cs else cs ++ [index]) [].

(** One turn of the partial shuffle; the state is the generator, the array and
    the board. *)
Definition place_one (candidate_count index : Z) (s : option (Z * list Z * mines_board))
  : option (Z * list Z * mines_board) :=
  match s with
  | None => None
  | Some (rng, candidates, b) =>
      match mines_random_below (candidate_count - index) rng with
      | None => None
      | Some (v, rng) =>
          let pick := index + v in
          let chosen := at_ 0 candidates pick in
          let candidates := set_at candidates pick (at_ 0 candidates index) in
          let candidates := set_at candidates index chosen in
          Some (rng, candidates, upd_cell b chosen cell_mine)
      end
  end.

Definition mines_place_mines (rng : Z) (b : mines_board) (safe_index : Z)
  : option (Z * mines_board) :=
  let candidates := mine_candidates (mines_board_cell_count b) safe_index in
  let candidate_count := zlen candidates in
  let '(placed, b) :=
    if mine_count b >? candidate_count
    then (candidate_count, with_counts b candidate_count (revealed_count b) (flag_count b))
    else (mine_count b, b) in
  match for_z 0 placed (place_one candidate_count) (Some (rng, candidates, b)) with
  | None => None
  | Some (rng, _, b) => Some (rng, mines_count_neighbours b)
  end.

(** ** End of the game *)

Definition is_flag (m : mines_mark) : bool := bool_decide (m = MINES_MARK_FLAG).

Definition mines_reveal_all_mines (b : mines_board) : mines_board :=
  for_z 0 (mines_board_cell_count b) (fun index b =>
    let c := cell_at b index in
    if mine c && negb (is_flag (mark c)) then upd_cell b index cell_reveal else b) b.

Definition flag_mine (index : Z) (b : mines_board) : mines_board :=
  let c := cell_at b index in
  if mine c && negb (is_flag (mark c))
  then let b := upd_cell b index (cell_mark MINES_MARK_FLAG) in
       with_counts b (mine_count b) (revealed_count b) (flag_count b + 1)
  else b.

Definition mines_check_win (b : mines_board) : mines_board :=
  let safe_cells := mines_board_cell_count b - mine_count b in
  if revealed_count b <? safe_cells then b
  else
    let b := with_state b MINES_STATE_WON in
    for_z 0 (mines_board_cell_count b) flag_mine b.

(** ** The cascade *)

Inductive flood_result :=
| FloodDone (b : mines_board)
| FloodOverflow      (* a push past the static array *)
| FloodFuel.         (* out of fuel: excluded by [MinesFacts.flood_loop] *)

(** The inner double loop: the neighbours pushed for cell [index]; [None] when
    a push is out of the array.  The list's head is the top of the stack. *)
Definition push_neighbour (b : mines_board) (index column row : Z)
    (stack : option (list Z)) (d : Z * Z) : option (list Z) :=
  match stack with
  | None => None
  | Some stack =>
      let neighbour_index := mines_board_index b (column + d.1) (row + d.2) in
      if (neighbour_index <? 0) || (neighbour_index =? index) then Some stack
      else
        let neighbour := cell_at b neighbour_index in
        if revealed neighbour || is_flag (mark neighbour) then Some stack
        else if zlen stack >=? MINES_MAX_CELLS then None
        else Some (neighbour_index :: stack)
  end.

(** [cell->revealed = 1; cell->mark = NONE; revealed_count += 1]. *)
Definition flood_open (b : mines_board) (index : Z) : mines_board :=
  let b := upd_cell b index (fun c => cell_mark MINES_MARK_NONE (cell_reveal c)) in
  with_counts b (mine_count b) (revealed_count b + 1) (flag_count b).

Fixpoint flood (fuel : nat) (b : mines_board) (stack : list Z) : flood_result :=
  match fuel with
  | O => FloodFuel
  | S fuel =>
      match stack with
      | [] => FloodDone b
      | index :: stack =>
          if revealed (cell_at b index) then flood fuel b stack
          else
            let b := flood_open b index in
            if negb (neighbours (cell_at b index) =? 0) then flood fuel b stack
            else
              match fold_left (push_neighbour b index (Z.rem index (columns b))
                                              (Z.quot index (columns b)))
                              block (Some stack) with
              | None => FloodOverflow
              | Some stack => flood fuel b stack
              end
      end
  end.

(** At most eight pushes per revealed cell. *)
Definition flood_fuel (b : mines_board) : nat := 9 * Z.to_nat (mines_board_cell_count b) + 2.

Definition mines_flood_reveal (b : mines_board) (start_index : Z) : flood_result :=
  flood (flood_fuel b) b [start_index].

(** ** The player's operations *)

(** [None]: the cascade wrote past its stack.  Otherwise the generator, the
    board and the return value. *)
Definition mines_board_reveal (rng : Z) (b : mines_board) (column row : Z)
  : option (Z * mines_board * bool) :=
  match state b with
  | MINES_STATE_WON | MINES_STATE_LOST => Some (rng, b, false)
  | _ =>
      let index := mines_board_index b column row in
      if index <? 0 then Some (rng, b, false)
      else
        let cell := cell_at b index in
        if revealed cell || is_flag (mark cell) then Some (rng, b, false)
        else
          match (if decide (state b = MINES_STATE_READY)
                 then match mines_place_mines rng b index with
                      | Some (rng, b) => Some (rng, with_state b MINES_STATE_PLAYING)
                      | None => None
                      end
                 else Some (rng, b)) with
          | None => None
          | Some (rng, b) =>
              if mine (cell_at b index) then
                let b := upd_cell b index (fun c => cell_explode (cell_reveal c)) in
                let b := with_state b MINES_STATE_LOST in
                Some (rng, mines_reveal_all_mines b, true)
              else
                match mines_flood_reveal b index with
                | FloodDone b => Some (rng, mines_check_win b, true)
                | _ => None
                end
          end
  end.

Definition mines_board_cycle_mark (b : mines_board) (column row : Z) : mines_board * bool :=
  match state b with
  | MINES_STATE_WON | MINES_STATE_LOST => (b, false)
  | _ =>
      let index := mines_board_index b column row in
      match mines_board_cell b column row with
      | None => (b, false)
      | Some cell =>
          if revealed cell then (b, false)
          else
            match mark cell with
            | MINES_MARK_NONE =>
                let b := upd_cell b index (cell_mark MINES_MARK_FLAG) in
                (with_counts b (mine_count b) (revealed_count b) (flag_count b + 1), true)
            | MINES_MARK_FLAG =>
                let b := with_counts b (mine_count b) (revealed_count b) (flag_count b - 1) in
                (upd_cell b index (cell_mark (if marks_enabled b then MINES_MARK_QUESTION
                                              else MINES_MARK_NONE)), true)
            | MINES_MARK_QUESTION => (upd_cell b index (cell_mark MINES_MARK_NONE), true)
            end
      end
  end.

Definition chord_flags (b : mines_board) (column row : Z) : Z :=
  fold_left (fun flags '(dx, dy) =>
      match mines_board_cell b (column + dx) (row + dy) with
      | Some neighbour => if is_flag (mark neighbour) then flags + 1 else flags
      | None => flags
      end) block 0.

Definition chord_step (column row : Z) (s : option (Z * mines_board * bool)) (d : Z * Z)
  : option (Z * mines_board * bool) :=
  match s with
  | None => None
  | Some (rng, b, changed) =>
      if (d.1 =? 0) && (d.2 =? 0) then s
      else match mines_board_reveal rng b (column + d.1) (row + d.2) with
           | None => None
           | Some (rng, b, r) => Some (rng, b, changed || r)
           end
  end.

Definition mines_board_chord (rng : Z) (b : mines_board) (column row : Z)
  : option (Z * mines_board * bool) :=
  match state b with
  | MINES_STATE_PLAYING =>
      match mines_board_cell b column row with
      | None => Some (rng, b, false)
      | Some cell =>
          if negb (revealed cell) || (neighbours cell =? 0) then Some (rng, b, false)
          else if negb (chord_flags b column row =? neighbours cell) then Some (rng, b, false)
          else fold_left (chord_step column row) block (Some (rng, b, false))
      end
  | _ => Some (rng, b, false)
  end.
