(* ===== verification/MinesFacts.v ===== *)
(** * The Minesweeper rules: the board invariant

    Counting over the cells, the cascade against its reachability
    specification, the placing of the mines, and the lemmas that each operation
    keeps [board_ok].  The properties are in MinesLaws. *)

From S2P Require Import Prelude Mines.

(** ** Counting *)

Definition b2z (b : bool) : Z := if b then 1 else 0.

Fixpoint cntn (p : Z -> bool) (n : nat) : Z :=
  match n with
  | O => 0
  | S n => cntn p n + b2z (p (Z.of_nat n))
  end.
Definition cnt (p : Z -> bool) (n : Z) : Z := cntn p (Z.to_nat n).

Lemma cntn_ext p q n :
  (forall i, 0 <= i < Z.of_nat n -> p i = q i) -> cntn p n = cntn q n.
Proof.
  induction n as [|n IH]; intros H; simpl; [done|]. rewrite IH, H; [done|lia|]. intros i Hi. apply H. lia.
Qed.

Lemma cnt_ext p q n : (forall i, 0 <= i < n -> p i = q i) -> cnt p n = cnt q n.
Proof. intros H. apply cntn_ext. intros i Hi. apply H. lia. Qed.

Lemma cntn_le p q n :
  (forall i, 0 <= i < Z.of_nat n -> p i = true -> q i = true) -> cntn p n <= cntn q n.
Proof.
  induction n as [|n IH]; intros H; simpl; [done|].
  assert (cntn p n <= cntn q n) by (apply IH; intros i Hi; apply H; lia).
  specialize (H (Z.of_nat n) ltac:(lia)). unfold b2z. repeat case_if; intuition (lia || discriminate).
Qed.
Lemma cnt_le p q n : (forall i, 0 <= i < n -> p i = true -> q i = true) -> cnt p n <= cnt q n.
Proof. intros H. apply cntn_le. intros i Hi. apply H. lia. Qed.

Lemma cnt_nonneg p n : 0 <= cnt p n.
Proof.
  unfold cnt. induction (Z.to_nat n) as [|k IH]; simpl; [done|].
  destruct (p (Z.of_nat k)); simpl; lia.
Qed.

Lemma cnt_none p n : (forall i, 0 <= i < n -> p i = false) -> cnt p n = 0.
Proof.
  intros H. rewrite (cnt_ext p (fun _ => false)) by done. unfold cnt. induction (Z.to_nat n) as [|k IH]; simpl; [done|]. by rewrite IH.
Qed.

Lemma cnt_all n : 0 <= n -> cnt (fun _ => true) n = n.
Proof.
  intros H. unfold cnt. assert (K : forall k, cntn (fun _ => true) k = Z.of_nat k).
  { induction k; [done|]. cbn [cntn]. unfold b2z in *. lia. }
  rewrite K. lia.
Qed.

Lemma cnt_split p q n : cnt p n = cnt (fun i => p i && q i) n + cnt (fun i => p i && negb (q i)) n.
Proof.
  unfold cnt. induction (Z.to_nat n) as [|k IH]; simpl; [done|]. rewrite IH.
  destruct (p _), (q _); simpl; lia.
Qed.

Lemma cntn_pick p n k : 0 <= k < Z.of_nat n ->
  cntn p n = cntn (fun i => p i && negb (i =? k)) n + b2z (p k).
Proof.
  induction n as [|n IH]; intros Hk; [lia|]. simpl.
  destruct (decide (k = Z.of_nat n)) as [->|Hne].
  - rewrite Z.eqb_refl, andb_false_r. simpl.
    rewrite (cntn_ext p (fun i => p i && negb (i =? Z.of_nat n))); [lia|].
    intros i Hi. destruct (i =? Z.of_nat n) eqn:?; [lia|]. by rewrite andb_true_r.
  - rewrite IH by lia. destruct (Z.of_nat n =? k) eqn:?; [lia|]. rewrite andb_true_r. lia.
Qed.

(** Changing one cell. *)
Lemma cnt_change p q n k : 0 <= k < n -> (forall i, 0 <= i < n -> i <> k -> p i = q i) ->
  cnt q n = cnt p n - b2z (p k) + b2z (q k).
Proof.
  intros Hk H. unfold cnt. rewrite (cntn_pick p _ k), (cntn_pick q _ k) by lia.
  rewrite (cntn_ext (fun i => p i && negb (i =? k)) (fun i => q i && negb (i =? k))); [lia|].
  intros i Hi. destruct (i =? k) eqn:E; [by rewrite !andb_false_r|]. rewrite H; [done|lia|lia].
Qed.

Lemma cnt_pos p n k : 0 <= k < n -> p k = true -> 0 < cnt p n.
Proof.
  intros Hk Hp. unfold cnt. rewrite (cntn_pick p _ k) by lia. rewrite Hp. simpl.
  pose proof (cnt_nonneg (fun i => p i && negb (i =? k)) n). unfold cnt in *. lia.
Qed.

Lemma cnt_zero_none p n : cnt p n = 0 -> forall i, 0 <= i < n -> p i = false.
Proof.
  intros H i Hi. destruct (p i) eqn:E; [|done]. pose proof (cnt_pos p n i Hi E). lia.
Qed.

Lemma cnt_witness p n : cnt p n <> 0 -> exists i, 0 <= i < n /\ p i = true.
Proof.
  unfold cnt. intros H.
  assert (K : forall k, cntn p k <> 0 -> exists i, 0 <= i < Z.of_nat k /\ p i = true).
  { induction k as [|k IH]; cbn [cntn]; intros Hk; [done|].
    destruct (p (Z.of_nat k)) eqn:E; [exists (Z.of_nat k); split; [lia|done]|].
    destruct IH as (i & Hi & Hp); [simpl in Hk; lia|]. exists i. split; [lia|done]. }
  destruct (K _ H) as (i & Hi & Hp). exists i. split; [lia|done].
Qed.

(** ** Boards *)

Definition ncells (b : mines_board) : Z := columns b * rows b.

Definition shape (b : mines_board) : Prop :=
  0 < columns b /\ 0 < rows b /\ ncells b <= MINES_MAX_CELLS /\ zlen (cells b) = MINES_MAX_CELLS.

(** Same dimensions. *)
Definition same_dims (b b' : mines_board) : Prop :=
  columns b' = columns b /\ rows b' = rows b /\ zlen (cells b') = zlen (cells b).

#[export] Instance same_dims_pre : PreOrder same_dims.
Proof.
  split; [by intros b|]. intros a b c (A1 & A2 & A3) (B1 & B2 & B3). unfold same_dims.
  by rewrite B1, B2, B3.
Qed.

Lemma same_dims_shape b b' : same_dims b b' -> shape b -> shape b'.
Proof. intros (E1 & E2 & E3). unfold shape, ncells. by rewrite E1, E2, E3. Qed.
Lemma same_dims_ncells b b' : same_dims b b' -> ncells b' = ncells b.
Proof. intros (E1 & E2 & E3). unfold ncells. by rewrite E1, E2. Qed.
Lemma same_dims_index b b' c r :
  same_dims b b' -> mines_board_index b' c r = mines_board_index b c r.
Proof. intros (E1 & E2 & E3). unfold mines_board_index. by rewrite E1, E2. Qed.

Lemma same_dims_upd b i f : same_dims b (upd_cell b i f).
Proof. unfold same_dims, upd_cell, with_cells. simpl. by rewrite zlen_set_at. Qed.
Lemma same_dims_state b s : same_dims b (with_state b s).
Proof. done. Qed.
Lemma same_dims_counts b x y z : same_dims b (with_counts b x y z).
Proof. done. Qed.
Create HintDb mines.
#[export] Hint Resolve same_dims_upd same_dims_state same_dims_counts : mines.

Lemma cell_at_upd b i f j :
  shape b -> 0 <= i < ncells b ->
  cell_at (upd_cell b i f) j = if i =? j then f (cell_at b i) else cell_at b j.
Proof.
  intros (_ & _ & H1 & H2) Hi. unfold cell_at, upd_cell, with_cells. simpl.
  apply at_set_at. lia.
Qed.

Lemma cell_at_counts b x y z i : cell_at (with_counts b x y z) i = cell_at b i.
Proof. done. Qed.
Lemma cell_at_state b s i : cell_at (with_state b s) i = cell_at b i.
Proof. done. Qed.

(** ** Indices *)

Definition col_of (b : mines_board) (i : Z) : Z := i mod columns b.
Definition row_of (b : mines_board) (i : Z) : Z := i / columns b.

Lemma index_range b c r :
  shape b -> 0 <= mines_board_index b c r -> 0 <= mines_board_index b c r < ncells b.
Proof.
  intros (Hc & Hr & _) H. unfold mines_board_index, ncells in *. case_if; [lia|]. nia.
Qed.

Lemma index_of_coords b i :
  shape b -> 0 <= i < ncells b -> mines_board_index b (col_of b i) (row_of b i) = i.
Proof.
  intros (Hc & Hr & _) Hi. unfold mines_board_index, col_of, row_of, ncells in *.
  pose proof (Z.mod_pos_bound i (columns b) Hc).
  assert (0 <= i / columns b < rows b) by (split; [apply Z.div_pos; lia|apply Z.div_lt_upper_bound; lia]).
  case_if; [lia|]. pose proof (Z.div_mod i (columns b)). lia.
Qed.

Lemma index_inv b c r i :
  shape b -> mines_board_index b c r = i -> 0 <= i -> c = col_of b i /\ r = row_of b i.
Proof.
  intros (Hc & Hr & _) H Hi. unfold mines_board_index, col_of, row_of in *. case_if_in H; [lia|].
  subst i. split.
  - rewrite Z.add_comm, Z_mod_plus_full, Z.mod_small; lia.
  - rewrite Z.add_comm, Z_div_plus_full, Z.div_small; lia.
Qed.

(** The cell next to [i] in direction [d], or -1. *)
Definition step (b : mines_board) (i : Z) (d : Z * Z) : Z :=
  mines_board_index b (col_of b i + d.1) (row_of b i + d.2).
Definition adj (b : mines_board) (i j : Z) : Prop :=
  j <> i /\ 0 <= j /\ exists d, In d block /\ step b i d = j.

Lemma adj_range b i j : shape b -> adj b i j -> 0 <= j < ncells b.
Proof. intros Hs (_ & Hj & d & _ & <-). by apply index_range. Qed.

Lemma step_centre b i d :
  shape b -> 0 <= i < ncells b -> In d block -> step b i d = i -> d = (0, 0).
Proof.
  intros Hs Hi Hd E. apply index_inv in E as [E1 E2]; [|done|lia].
  destruct d as [dx dy]. simpl in *. f_equal; lia.
Qed.

Lemma same_dims_adj b b' i j : same_dims b b' -> adj b' i j <-> adj b i j.
Proof.
  intros H. unfold adj, step, col_of, row_of. pose proof H as (-> & _ & _).
  setoid_rewrite (same_dims_index b b' _ _ H). done.
Qed.

(** ** Numbers *)

Definition mines_near (b : mines_board) (i : Z) : Z := mines_around b (col_of b i) (row_of b i).
Definition numbers_ok (b : mines_board) : Prop :=
  forall i, 0 <= i < ncells b -> neighbours (cell_at b i) = mines_near b i.

Definition around_term (b : mines_board) (c r : Z) (d : Z * Z) : Z :=
  if (d.1 =? 0) && (d.2 =? 0) then 0
  else match mines_board_cell b (c + d.1) (r + d.2) with
       | Some neighbour => b2z (mine neighbour)
       | None => 0
       end.

Lemma mines_around_sum b c r :
  mines_around b c r = fold_right Z.add 0 (map (around_term b c r) block).
Proof.
  unfold mines_around.
  assert (H : forall l n, fold_left (fun count '(dx, dy) =>
      if (dx =? 0) && (dy =? 0) then count
      else match mines_board_cell b (c + dx) (r + dy) with
           | Some neighbour => if mine neighbour then count + 1 else count
           | None => count
           end) l n = n + fold_right Z.add 0 (map (around_term b c r) l)).
  { induction l as [|[dx dy] l IH]; intros n; simpl; [lia|]. rewrite IH.
    unfold around_term. simpl. unfold b2z. repeat case_match; lia. }
  by rewrite H.
Qed.

Lemma around_term_range b c r d : 0 <= around_term b c r d <= 1.
Proof. unfold around_term, b2z. repeat case_match; lia. Qed.

Lemma sum_terms_bound b c r l : 0 <= fold_right Z.add 0 (map (around_term b c r) l) <= zlen l.
Proof.
  induction l as [|d l IH]; simpl; [done|]. pose proof (around_term_range b c r d).
  unfold zlen in *. simpl. lia.
Qed.

Lemma mines_around_range b c r : 0 <= mines_around b c r <= 8.
Proof.
  rewrite mines_around_sum. unfold block. simpl. change (around_term b c r (0, 0)) with 0.
  repeat match goal with |- context [around_term b c r ?d] =>
    pose proof (around_term_range b c r d); generalize dependent (around_term b c r d); intros end. lia.
Qed.

(** A cell with number zero has no mine next to it. *)
Lemma mines_near_zero b i j :
  shape b -> 0 <= i < ncells b -> mines_near b i = 0 -> adj b i j -> mine (cell_at b j) = false.
Proof.
  unfold mines_near. rewrite mines_around_sum. intros Hs Hi H0 (Hne & Hj & d & Hd & <-).
  assert (Hterm : around_term b (col_of b i) (row_of b i) d = 0).
  { revert Hd H0. generalize block as l. induction l as [|e l IH]; simpl; intros Hd H0; [done|].
    pose proof (around_term_range b (col_of b i) (row_of b i) e).
    pose proof (sum_terms_bound b (col_of b i) (row_of b i) l).
    destruct Hd as [->|Hd]; [lia|]. apply IH; [done|lia]. }
  unfold around_term in Hterm. destruct ((d.1 =? 0) && (d.2 =? 0)) eqn:E0.
  { exfalso. apply Hne. unfold step. replace d with (0, 0) by (destruct d; simpl in *; f_equal; lia).
    simpl. rewrite !Z.add_0_r. by apply index_of_coords. }
  unfold mines_board_cell in Hterm. fold (step b i d) in Hterm.
  destruct (step b i d <? 0) eqn:E1; [lia|]. unfold b2z in Hterm. by case_if_in Hterm.
Qed.

(** The numbers depend on the mines alone. *)
Lemma mines_around_ext b b' c r :
  same_dims b b' -> (forall i, mine (cell_at b' i) = mine (cell_at b i)) ->
  mines_around b' c r = mines_around b c r.
Proof.
  intros Hd Hm. rewrite !mines_around_sum. f_equal. apply map_ext. intros d.
  unfold around_term, mines_board_cell. rewrite (same_dims_index b b' _ _ Hd).
  case_if; [done|]. case_if; [done|]. by rewrite Hm.
Qed.

Lemma mines_near_ext b b' i :
  same_dims b b' -> (forall i, mine (cell_at b' i) = mine (cell_at b i)) ->
  mines_near b' i = mines_near b i.
Proof.
  intros Hd Hm. unfold mines_near, col_of, row_of. pose proof Hd as (-> & _).
  by apply mines_around_ext.
Qed.

Lemma numbers_ok_ext b b' :
  same_dims b b' ->
  (forall i, mine (cell_at b' i) = mine (cell_at b i) /\
             neighbours (cell_at b' i) = neighbours (cell_at b i)) ->
  numbers_ok b -> numbers_ok b'.
Proof.
  intros Hd H Hn i Hi. rewrite (same_dims_ncells b b' Hd) in Hi.
  rewrite (mines_near_ext b b' i Hd) by (intros; apply H). rewrite <- (Hn i Hi). apply H.
Qed.

(** ** Writing the numbers *)

(** The cells below index [k] have their number. *)
Definition numbered (b : mines_board) (k : Z) (b' : mines_board) : Prop :=
  same_dims b b' /\
  (mine_count b', state b', revealed_count b', flag_count b', marks_enabled b', level b') =
  (mine_count b, state b, revealed_count b, flag_count b, marks_enabled b, level b) /\
  forall i, cell_at b' i =
    if (0 <=? i) && (i <? k) then cell_neighbours (mines_near b i) (cell_at b i) else cell_at b i.

Lemma numbered_step b k b' column row :
  shape b -> numbered b k b' -> 0 <= column < columns b -> 0 <= row < rows b ->
  k = row * columns b + column ->
  numbered b (k + 1)
    (upd_cell b' (mines_board_index b' column row)
              (cell_neighbours (u8 (mines_around b' column row)))).
Proof.
  intros Hs (Hd & Hf & Hc) Hcol Hrow Hk.
  pose proof (same_dims_shape _ _ Hd Hs) as Hs'.
  assert (Hm : forall i, mine (cell_at b' i) = mine (cell_at b i))
    by (intros i; rewrite Hc; by case_if).
  rewrite (mines_around_ext b b' _ _ Hd Hm), (same_dims_index b b' _ _ Hd).
  assert (Hidx : mines_board_index b column row = k)
    by (unfold mines_board_index; case_if; lia).
  destruct (index_inv b column row k Hs Hidx ltac:(nia)) as [Ec Er].
  rewrite Hidx. pose proof (index_range b column row Hs) as Hr. rewrite Hidx in Hr.
  specialize (Hr ltac:(nia)). split; [|split].
  - transitivity b'; [done|auto with mines].
  - done.
  - intros i. rewrite cell_at_upd by (rewrite ?(same_dims_ncells _ _ Hd); done). rewrite !Hc.
    rewrite u8_id by (pose proof (mines_around_range b column row); lia).
    unfold mines_near. rewrite Ec, Er at 1.
    destruct (k =? i) eqn:E; repeat case_if; try lia; try done.
    by replace i with k by lia.
Qed.

Lemma count_neighbours_spec b :
  shape b -> numbered b (ncells b) (mines_count_neighbours b).
Proof.
  intros Hs. unfold mines_count_neighbours, ncells. pose proof Hs as (Hc & Hr & _).
  rewrite Z.mul_comm.
  apply (for_z_ind (fun row b' => numbered b (row * columns b) b')); [lia| |].
  - split; [done|]. split; [done|]. intros i. case_if; [lia|done].
  - intros row b1 Hrow H1. pose proof H1 as ((Ecol & _) & _). rewrite Ecol.
    replace ((row + 1) * columns b) with (row * columns b + columns b) by lia.
    apply (for_z_ind (fun col b' => numbered b (row * columns b + col) b')); [lia| |].
    + by rewrite Z.add_0_r.
    + intros col b2 Hcol H2. rewrite Z.add_assoc. by apply numbered_step.
Qed.

(** ** The cascade *)

Definition flagged (c : mines_cell) : bool := is_flag (mark c).
Definition hidden (b : mines_board) (i : Z) : Prop :=
  revealed (cell_at b i) = false /\ flagged (cell_at b i) = false.

(** The cells a reveal of [start] must open: those reachable through cells with
    number zero, over hidden cells without a flag. *)
Inductive reach (b : mines_board) (start : Z) : Z -> Prop :=
| reach_start : reach b start start
| reach_step i j :
    reach b start i -> neighbours (cell_at b i) = 0 -> adj b i j -> hidden b j ->
    reach b start j.

Lemma reach_hidden b start i : hidden b start -> reach b start i -> hidden b i.
Proof. intros Hs. by induction 1. Qed.
Lemma reach_range b start i :
  shape b -> 0 <= start < ncells b -> reach b start i -> 0 <= i < ncells b.
Proof. intros Hs Hi. induction 1; [done|]. by eapply adj_range. Qed.

Definition opened_cell (c : mines_cell) : mines_cell := cell_mark MINES_MARK_NONE (cell_reveal c).
Definition newly (b b' : mines_board) (i : Z) : bool :=
  revealed (cell_at b' i) && negb (revealed (cell_at b i)).

(** [b'] is [b] with some hidden cells opened and nothing else changed. *)
Definition opened (b b' : mines_board) : Prop :=
  same_dims b b' /\
  (mine_count b', state b', flag_count b', marks_enabled b', level b') =
  (mine_count b, state b, flag_count b, marks_enabled b, level b) /\
  (forall i, cell_at b' i = if newly b b' i then opened_cell (cell_at b i) else cell_at b i) /\
  revealed_count b' = revealed_count b + cnt (newly b b') (ncells b).

Lemma opened_refl b : opened b b.
Proof.
  assert (H : forall i, newly b b i = false) by (intros i; unfold newly; by destruct (revealed _)).
  split; [done|]. split; [done|]. split; [intros i; by rewrite H|]. rewrite cnt_none; [lia|done].
Qed.

Lemma opened_neighbours b b' i :
  opened b b' -> neighbours (cell_at b' i) = neighbours (cell_at b i) /\
                 mine (cell_at b' i) = mine (cell_at b i) /\
                 exploded (cell_at b' i) = exploded (cell_at b i).
Proof. intros (_ & _ & H & _). rewrite H. by case_if. Qed.

Lemma opened_revealed b b' i :
  opened b b' -> revealed (cell_at b' i) = revealed (cell_at b i) || newly b b' i.
Proof.
  intros (_ & _ & H & _). pose proof (f_equal revealed (H i)) as E. rewrite E.
  case_if; simpl; [by rewrite orb_true_r|]. unfold newly in *. by rewrite orb_false_r.
Qed.

Lemma flood_open_cell b index j :
  shape b -> 0 <= index < ncells b ->
  cell_at (flood_open b index) j = if index =? j then opened_cell (cell_at b index) else cell_at b j.
Proof. intros Hs Hi. unfold flood_open. rewrite cell_at_counts. by apply cell_at_upd. Qed.

Lemma opened_step b b' index :
  shape b -> opened b b' -> 0 <= index < ncells b ->
  revealed (cell_at b' index) = false ->
  opened b (flood_open b' index) /\
  forall i, newly b (flood_open b' index) i = (index =? i) || newly b b' i.
Proof.
  intros Hs Ho Hi Hr. pose proof Ho as (Hd & Hf & Hc & Hn).
  pose proof (same_dims_shape _ _ Hd Hs) as Hs'. pose proof (same_dims_ncells _ _ Hd) as En.
  assert (Hr0 : revealed (cell_at b index) = false).
  { rewrite (opened_revealed _ _ _ Ho) in Hr. by apply orb_false_iff in Hr as [? _]. }
  assert (Hnew : newly b b' index = false) by (unfold newly; by rewrite Hr).
  assert (Hcell : forall j, cell_at (flood_open b' index) j =
            if index =? j then opened_cell (cell_at b' index) else cell_at b' j)
    by (intros j; apply flood_open_cell; [done|lia]).
  assert (Hnewly : forall i, newly b (flood_open b' index) i = (index =? i) || newly b b' i).
  { intros i. unfold newly. rewrite Hcell. destruct (index =? i) eqn:E; simpl; [|done].
    replace i with index by lia. by rewrite Hr0. }
  split; [|done]. split; [|split; [|split]].
  - transitivity b'; [done|]. unfold flood_open. transitivity (upd_cell b' index opened_cell); auto with mines.
  - done.
  - intros i. rewrite Hnewly, Hcell. destruct (index =? i) eqn:E; simpl.
    + replace i with index by lia. f_equal. rewrite Hc, Hnew. done.
    + apply Hc.
  - unfold flood_open. simpl. rewrite Hn.
    rewrite (cnt_change (newly b b') (newly b (flood_open b' index)) _ index); [|done|].
    + rewrite Hnewly, Z.eqb_refl, Hnew. simpl. lia.
    + intros i _ Hne. rewrite Hnewly. destruct (index =? i) eqn:?; [lia|done].
Qed.

(** What the double loop pushes. *)
Definition pushable (b : mines_board) (index : Z) (d : Z * Z) (j : Z) : Prop :=
  step b index d = j /\ 0 <= j /\ j <> index /\ hidden b j.

Lemma hidden_test b j :
  revealed (cell_at b j) || is_flag (mark (cell_at b j)) = false <-> hidden b j.
Proof. unfold hidden, flagged. apply orb_false_iff. Qed.

Lemma push_fold_none b index c r l : fold_left (push_neighbour b index c r) l None = None.
Proof. by induction l. Qed.

Lemma push_fold_spec b index l : forall stack stack',
  fold_left (push_neighbour b index (col_of b index) (row_of b index)) l (Some stack) = Some stack' ->
  forall j, In j stack' <-> In j stack \/ exists d, In d l /\ pushable b index d j.
Proof.
  induction l as [|d l IH]; intros stack stack' H j; simpl in H.
  - simplify_eq. split; [by left|]. intros [?|(? & [] & _)]. done.
  - fold (step b index d) in H.
    assert (Hsplit : (exists e, In e (d :: l) /\ pushable b index e j) <->
              pushable b index d j \/ exists e, In e l /\ pushable b index e j)
      by (simpl; naive_solver).
    rewrite Hsplit. unfold pushable at 1.
    destruct ((step b index d <? 0) || (step b index d =? index)) eqn:E1.
    + rewrite (IH _ _ H j). intuition lia.
    + destruct (revealed _ || is_flag _) eqn:E2.
      * rewrite (IH _ _ H j). split; [tauto|]. intros [?|[(<- & _ & _ & Hh)|?]]; try tauto.
        apply hidden_test in Hh. congruence.
      * apply hidden_test in E2. case_if_in H.
        { by rewrite push_fold_none in H. }
        rewrite (IH _ _ H j). simpl. split; [|intuition lia].
        intros [[<-|?]|?]; [|tauto..]. right. left. repeat split; [lia|lia|apply E2..].
Qed.

(** At most one push per direction that leaves the cell. *)
Definition leaving (b : mines_board) (index : Z) (l : list (Z * Z)) : Z :=
  zlen (List.filter (fun d => negb (step b index d =? index)) l).

Lemma push_fold_room b index l : forall stack,
  zlen stack + leaving b index l <= MINES_MAX_CELLS ->
  exists stack',
    fold_left (push_neighbour b index (col_of b index) (row_of b index)) l (Some stack) = Some stack'.
Proof.
  induction l as [|d l IH]; intros stack H; [by eexists|]. simpl. fold (step b index d).
  unfold leaving, zlen in *. simpl in H.
  destruct (step b index d =? index) eqn:E1; simpl in H.
  - rewrite orb_true_r. by apply IH.
  - destruct (step b index d <? 0) eqn:E0; simpl; [apply IH; lia|].
    destruct (revealed _ || is_flag _); [apply IH; lia|].
    case_if; [unfold MINES_MAX_CELLS in *; lia|]. apply IH. simpl. lia.
Qed.

Lemma push_fold_length b index l : forall stack stack',
  fold_left (push_neighbour b index (col_of b index) (row_of b index)) l (Some stack) = Some stack' ->
  zlen stack' <= zlen stack + leaving b index l.
Proof.
  induction l as [|d l IH]; intros stack stack' H; simpl in H; [simplify_eq; unfold leaving, zlen; simpl; lia|].
  fold (step b index d) in H. unfold leaving, zlen in *. simpl.
  destruct (step b index d =? index) eqn:E1; simpl.
  - rewrite orb_true_r in H. by apply IH.
  - destruct (step b index d <? 0) eqn:E0; simpl in H; [apply IH in H; lia|].
    destruct (revealed _ || is_flag _); [apply IH in H; lia|].
    case_if_in H; [by rewrite push_fold_none in H|].
    apply IH in H. simpl in H. lia.
Qed.

Lemma leaving_block b index :
  shape b -> 0 <= index < ncells b -> leaving b index block <= 8.
Proof.
  intros Hs Hi. unfold leaving, block. simpl.
  assert (E : step b index (0, 0) = index).
  { unfold step. simpl. rewrite !Z.add_0_r. by apply index_of_coords. }
  rewrite E, Z.eqb_refl. simpl. unfold zlen. repeat (case_if; simpl); lia.
Qed.

Lemma rem_quot_coords b index :
  shape b -> 0 <= index ->
  Z.rem index (columns b) = col_of b index /\ Z.quot index (columns b) = row_of b index.
Proof.
  intros (Hc & _) Hi. unfold col_of, row_of.
  split; [apply Z.rem_mod_nonneg|apply Z.quot_div_nonneg]; lia.
Qed.

Record flood_inv (b : mines_board) (start : Z) (b' : mines_board) (stack : list Z) : Prop := {
  fi_opened : opened b b';
  fi_stack : forall i, In i stack -> reach b start i;
  fi_newly : forall i, newly b b' i = true -> reach b start i;
  fi_start : newly b b' start = true \/ In start stack;
  fi_closed : forall i j, newly b b' i = true -> neighbours (cell_at b i) = 0 ->
                adj b i j -> hidden b j -> newly b b' j = true \/ In j stack }.

Section flood.
  Context (b : mines_board) (start : Z).
  Hypothesis Hshape : shape b.
  Hypothesis Hstart : 0 <= start < ncells b.
  Hypothesis Hhidden : hidden b start.

Lemma flood_inv_init : flood_inv b start b [start].
Proof.
  assert (H : forall i, newly b b i = false) by (intros i; unfold newly; by destruct (revealed _)).
  split; try (intros i j Hi; by rewrite H in Hi); try (intros i Hi; by rewrite H in Hi).
  - apply opened_refl.
  - intros i [->|[]]. constructor.
  - right. by left.
Qed.

Lemma flood_inv_skip b' index stack :
  flood_inv b start b' (index :: stack) -> revealed (cell_at b' index) = true ->
  flood_inv b start b' stack.
Proof.
  intros [I1 I2 I3 I4 I5] Hr.
  assert (Hidx : newly b b' index = true).
  { unfold newly. rewrite Hr. simpl.
    destruct (reach_hidden b start index Hhidden (I2 index (or_introl eq_refl))) as [-> _]. done. }
  split; try done.
  - intros i Hi. apply I2. by right.
  - destruct I4 as [?|[->|?]]; auto.
  - intros i j Hi H0 Ha Hh. destruct (I5 i j Hi H0 Ha Hh) as [?|[->|?]]; auto.
Qed.

Lemma flood_inv_range b' index stack :
  flood_inv b start b' (index :: stack) -> 0 <= index < ncells b.
Proof. intros [_ I2 _ _ _]. apply (reach_range b start); auto. apply I2. by left. Qed.

(** Hidden now, and hidden at the start: the same for a cell not yet opened. *)
Lemma hidden_opened b' j :
  opened b b' -> hidden b' j <-> hidden b j /\ newly b b' j = false.
Proof.
  intros Ho. unfold hidden. rewrite (opened_revealed _ _ _ Ho).
  pose proof Ho as (_ & _ & Hc & _). specialize (Hc j). unfold flagged.
  destruct (newly b b' j) eqn:E.
  - split; [intros [H _]; by rewrite orb_true_r in H|intros [_ ?]; done].
  - rewrite Hc, orb_false_r. tauto.
Qed.

(** The invariant after opening [index], with the pushes for a zero cell. *)
Lemma flood_inv_open b' index stack stack' :
  flood_inv b start b' (index :: stack) -> revealed (cell_at b' index) = false ->
  (forall j, In j stack -> In j stack') ->
  (forall j, In j stack' -> In j stack \/
             (neighbours (cell_at b index) = 0 /\ adj b index j /\ hidden b j)) ->
  (neighbours (cell_at b index) = 0 ->
   forall j, adj b index j -> hidden (flood_open b' index) j -> In j stack') ->
  flood_inv b start (flood_open b' index) stack'.
Proof.
  intros Hinv Hr Hsub Hsrc Hall. pose proof (flood_inv_range _ _ _ Hinv) as Hi.
  destruct Hinv as [I1 I2 I3 I4 I5].
  destruct (opened_step b b' index Hshape I1 Hi Hr) as [Ho Hn].
  assert (Hreach : reach b start index) by (apply I2; by left).
  split; try done.
  - intros j Hj. destruct (Hsrc j Hj) as [?|(? & ? & ?)]; [apply I2; by right|].
    by apply (reach_step b start index).
  - intros j. rewrite Hn, orb_true_iff. intros [E|E]; [|by apply I3].
    by replace j with index by lia.
  - rewrite Hn. destruct I4 as [->|[->|?]]; [rewrite orb_true_r; auto|rewrite Z.eqb_refl; auto|].
    right. auto.
  - intros i j Hni H0 Ha Hh. rewrite Hn in *. apply orb_true_iff in Hni as [E|E].
    + replace i with index in * by lia. destruct ((index =? j) || newly b b' j) eqn:Ej; [by left|].
      right. apply Hall; try done. apply (hidden_opened _ _ Ho). by rewrite Hn.
    + destruct (I5 i j E H0 Ha Hh) as [->|[->|?]]; [rewrite orb_true_r; auto|rewrite Z.eqb_refl; auto|].
      right. auto.
Qed.

Definition unrevealed (b' : mines_board) : Z :=
  cnt (fun i => negb (revealed (cell_at b' i))) (ncells b).

Lemma unrevealed_open b' index :
  opened b b' -> 0 <= index < ncells b -> revealed (cell_at b' index) = false ->
  unrevealed (flood_open b' index) = unrevealed b' - 1.
Proof.
  intros (Hd & _) Hi Hr. pose proof (same_dims_shape _ _ Hd Hshape) as Hs'.
  assert (Hc : forall j, cell_at (flood_open b' index) j =
            if index =? j then opened_cell (cell_at b' index) else cell_at b' j)
    by (intros j; apply flood_open_cell; [done|by rewrite (same_dims_ncells _ _ Hd)]).
  unfold unrevealed.
  rewrite (cnt_change (fun i => negb (revealed (cell_at b' i)))
             (fun i => negb (revealed (cell_at (flood_open b' index) i))) _ index); [|done|].
  - rewrite Hc, Z.eqb_refl, Hr. simpl. lia.
  - intros i _ Hne. rewrite Hc. destruct (index =? i) eqn:?; [lia|done].
Qed.

(** The pushes for a zero cell, in terms of the board before the cascade. *)
Lemma zero_pushes b' index stack stack' :
  opened b b' -> 0 <= index < ncells b -> revealed (cell_at b' index) = false ->
  fold_left (push_neighbour (flood_open b' index) index
               (Z.rem index (columns (flood_open b' index)))
               (Z.quot index (columns (flood_open b' index)))) block (Some stack) = Some stack' ->
  zlen stack' <= zlen stack + 8 /\
  (forall j, In j stack' <-> In j stack \/ (adj b index j /\ hidden (flood_open b' index) j)).
Proof.
  intros Ho Hi Hr H. destruct (opened_step b b' index Hshape Ho Hi Hr) as [Ho' _].
  pose proof Ho' as (Hd & _). pose proof (same_dims_shape _ _ Hd Hshape) as Hs'.
  destruct (rem_quot_coords (flood_open b' index) index Hs' ltac:(lia)) as [E1 E2].
  rewrite E1, E2 in H. split.
  - apply push_fold_length in H.
    pose proof (leaving_block (flood_open b' index) index Hs' ltac:(rewrite (same_dims_ncells _ _ Hd); lia)).
    lia.
  - intros j. rewrite (push_fold_spec _ _ _ _ _ H j), <- (same_dims_adj b (flood_open b' index) index j Hd).
    unfold adj, pushable. split; intros [?|Hx]; auto; right.
    + destruct Hx as (d & Hd' & Hst & Hj & Hne & Hh). eauto 10.
    + destruct Hx as ((Hne & Hj & d & Hd' & Hst) & Hh). exists d. auto.
Qed.

Lemma flood_loop fuel : forall b' stack,
  flood_inv b start b' stack ->
  zlen stack + 9 * unrevealed b' < Z.of_nat fuel ->
  zlen stack + 8 * unrevealed b' <= 8 * ncells b + 1 ->
  match flood fuel b' stack with
  | FloodDone bf => flood_inv b start bf []
  | FloodOverflow => MINES_MAX_CELLS < 8 * ncells b + 1
  | FloodFuel => False
  end.
Proof.
  induction fuel as [|fuel IH]; intros b' stack Hinv Hfuel Hroom.
  { pose proof (cnt_nonneg (fun i => negb (revealed (cell_at b' i))) (ncells b)).
    unfold unrevealed in *. pose proof (zlen_nonneg stack). lia. }
  cbn [flood]. destruct stack as [|index stack]; [done|].
  assert (Hz : zlen (index :: stack) = zlen stack + 1) by (unfold zlen; simpl; lia).
  pose proof (flood_inv_range _ _ _ Hinv) as Hi.
  destruct (revealed (cell_at b' index)) eqn:Er.
  { apply IH; [by eapply flood_inv_skip|lia..]. }
  pose proof Hinv as [Ho _ _ _ _].
  pose proof (unrevealed_open b' index Ho Hi Er) as Hu.
  destruct (opened_step b b' index Hshape Ho Hi Er) as [Ho' _].
  destruct (opened_neighbours _ _ index Ho') as [-> _].
  destruct (neighbours (cell_at b index) =? 0) eqn:E0; cbn [negb].
  - destruct (fold_left _ block _) as [stack'|] eqn:Ef.
    + destruct (zero_pushes _ _ _ _ Ho Hi Er Ef) as [Hl Hin].
      apply IH; [|lia..]. apply (flood_inv_open b' index stack); try done.
      * intros j Hj. apply Hin. by left.
      * intros j Hj. apply Hin in Hj as [?|[Ha Hh]]; [by left|right].
        split; [lia|]. split; [done|]. by apply (hidden_opened _ _ Ho') in Hh as [? _].
      * intros _ j Ha Hh. apply Hin. by right.
    + destruct (Z_le_gt_dec (zlen stack + 8) MINES_MAX_CELLS) as [Hle|Hgt].
      2: { pose proof (cnt_nonneg (fun i => negb (revealed (cell_at (flood_open b' index) i))) (ncells b)).
           unfold unrevealed in *. lia. }
      exfalso. pose proof Ho' as (Hd & _). pose proof (same_dims_shape _ _ Hd Hshape) as Hs'.
      destruct (rem_quot_coords (flood_open b' index) index Hs' ltac:(lia)) as [E1 E2].
      rewrite E1, E2 in Ef.
      pose proof (leaving_block (flood_open b' index) index Hs' ltac:(rewrite (same_dims_ncells _ _ Hd); lia)).
      destruct (push_fold_room (flood_open b' index) index block stack ltac:(lia)) as [s Hs]. congruence.
  - apply IH; [|lia..]. apply (flood_inv_open b' index stack); try done; [by left|lia].
Qed.

Lemma unrevealed_le b' : unrevealed b' <= ncells b.
Proof.
  unfold unrevealed. rewrite <- (cnt_all (ncells b)) at 2 by (destruct Hshape as (? & ? & _); unfold ncells; nia).
  by apply cnt_le.
Qed.

(** The result of a cascade, with the reachable cells and only those opened. *)
Definition flooded (b' : mines_board) : Prop :=
  opened b b' /\ forall i, newly b b' i = true <-> reach b start i.

Lemma flood_inv_done b' : flood_inv b start b' [] -> flooded b'.
Proof.
  intros [I1 I2 I3 I4 I5]. split; [done|]. intros i. split; [apply I3|].
  induction 1 as [|i j Hr IH H0 Ha Hh]; [by destruct I4|]. by destruct (I5 i j IH H0 Ha Hh).
Qed.

Lemma flood_reveal_spec :
  match mines_flood_reveal b start with
  | FloodDone b' => flooded b'
  | FloodOverflow => MINES_MAX_CELLS < 8 * ncells b + 1
  | FloodFuel => False
  end.
Proof.
  unfold mines_flood_reveal. pose proof (unrevealed_le b) as Hle.
  assert (0 <= ncells b) by (destruct Hshape as (? & ? & _); unfold ncells; nia).
  pose proof (flood_loop (flood_fuel b) b [start] (flood_inv_init)) as H1.
  assert (Hz : zlen [start] = 1) by done. rewrite Hz in H1.
  assert (Hf : Z.of_nat (flood_fuel b) = 9 * ncells b + 2)
    by (unfold flood_fuel, mines_board_cell_count; fold (ncells b); lia).
  specialize (H1 ltac:(lia) ltac:(lia)).
  destruct (flood _ b [start]); try done. by apply flood_inv_done.
Qed.
End flood.
