(* ===== verification/MinesPlay.v ===== *)
(** * The Minesweeper rules: the random generator and the player's operations

    The rejection loop ends after two draws, the shuffle places distinct mines
    away from the first click, and every operation keeps [board_ok]. *)

From S2P Require Import Prelude Mines MinesFacts.

(** ** The generator *)

Definition word32 (x : Z) : Prop := 0 <= x < 4294967296.

Lemma lxor_word32 a b : word32 a -> word32 b -> word32 (Z.lxor a b).
Proof.
  unfold word32. intros Ha Hb. split; [apply Z.lxor_nonneg; lia|].
  destruct (Z.eq_dec (Z.lxor a b) 0) as [->|Hne]; [lia|].
  assert (0 < Z.lxor a b) by (pose proof (proj2 (Z.lxor_nonneg a b)); lia).
  apply (Z.log2_lt_pow2 _ 32); [done|].
  pose proof (Z.log2_lxor a b ltac:(lia) ltac:(lia)).
  assert (Hlog : forall c, 0 <= c < 4294967296 -> Z.log2 c < 32).
  { intros c Hc. destruct (Z.eq_dec c 0) as [->|]; [done|]. apply Z.log2_lt_pow2; lia. }
  pose proof (Hlog a Ha). pose proof (Hlog b Hb). lia.
Qed.

Lemma shiftr_word32 a k : 0 <= k -> word32 a -> word32 (Z.shiftr a k).
Proof.
  unfold word32. intros Hk Ha. rewrite Z.shiftr_div_pow2 by done.
  pose proof (Z.pow_pos_nonneg 2 k ltac:(lia) Hk).
  split; [apply Z.div_pos; lia|]. apply Z.div_lt_upper_bound; nia.
Qed.

Lemma u32_word32 a : word32 (u32 a).
Proof. apply u32_range. Qed.

Lemma random_next_range st : word32 st -> word32 (mines_random_next st).
Proof.
  intros H. unfold mines_random_next.
  repeat apply lxor_word32 || apply shiftr_word32 || apply u32_word32; try done.
Qed.

(** A draw that a bound of at most [MINES_MAX_CELLS] rejects is one of the 720
    largest words, and none of them is followed by another. *)
Definition top_words_recover : bool :=
  forallb (fun k => mines_random_next (4294967295 - Z.of_nat k) <? 4294966576) (seq 0 720).

Lemma top_words_recover_true : top_words_recover = true.
Proof. vm_compute. reflexivity. Qed.

Lemma rejected_then_accepted v : 4294966576 <= v < 4294967296 -> mines_random_next v < 4294966576.
Proof.
  intros Hv. pose proof top_words_recover_true as H. unfold top_words_recover in H.
  rewrite forallb_forall in H. specialize (H (Z.to_nat (4294967295 - v))).
  rewrite in_seq in H. specialize (H ltac:(lia)).
  replace (4294967295 - Z.of_nat (Z.to_nat (4294967295 - v))) with v in H by lia. lia.
Qed.

Lemma random_below_total bound st :
  word32 st -> 0 < bound <= MINES_MAX_CELLS ->
  exists v st', mines_random_below bound st = Some (v, st') /\ 0 <= v < bound /\ word32 st'.
Proof.
  intros Hst Hb. unfold mines_random_below. destruct (bound =? 0) eqn:?; [lia|].
  pose proof (Z.mod_pos_bound 0xffffffff bound ltac:(lia)) as Hm.
  assert (Hmax : MINES_MAX_CELLS = 720) by done.
  set (limit := 0xffffffff - 0xffffffff mod bound) in *.
  assert (Hlimit : 4294966576 <= limit) by lia.
  pose proof (random_next_range st Hst) as H1. pose proof (random_next_range _ H1) as H2.
  cbn [random_loop]. unfold word32 in *.
  assert (Hmod : forall x, 0 <= x mod bound < bound) by (intros x; apply Z.mod_pos_bound; lia).
  case_if; [by do 2 eexists|].
  pose proof (rejected_then_accepted (mines_random_next st) ltac:(lia)) as H3.
  case_if; [by do 2 eexists|lia].
Qed.

(** ** Placing the mines *)

Definition cand_ok (n safe : Z) (cs : list Z) : Prop :=
  (forall i, 0 <= i < zlen cs -> 0 <= at_ 0 cs i < n /\ at_ 0 cs i <> safe) /\
  (forall i j, 0 <= i < zlen cs -> 0 <= j < zlen cs -> at_ 0 cs i = at_ 0 cs j -> i = j).

(** The candidate list after looking at the cells below [k]. *)
Definition cand_inv (n safe k : Z) (cs : list Z) : Prop :=
  cand_ok n safe cs /\ (forall i, 0 <= i < zlen cs -> at_ 0 cs i < k) /\
  zlen cs = k - b2z (safe <? k).

Lemma candidates_spec n safe :
  0 <= safe < n ->
  cand_ok n safe (mine_candidates n safe) /\ zlen (mine_candidates n safe) = n - 1.
Proof.
  intros Hs.
  assert (H : cand_inv n safe n (mine_candidates n safe)).
  { apply (for_z_ind (cand_inv n safe)); [lia| |].
    - unfold cand_inv, cand_ok, b2z. change (zlen []) with 0. case_if; [lia|].
      repeat split; intros; lia.
    - intros k cs Hk ((C1 & C2) & C3 & C4). pose proof (zlen_nonneg cs). unfold cand_inv, b2z in *.
      destruct (k =? safe) eqn:E.
      + split; [done|]. split; [intros i Hi; specialize (C3 i Hi); lia|]. repeat case_any; lia.
      + unfold cand_ok. rewrite zlen_snoc. split; [|split].
        * split.
          -- intros i Hi. rewrite at_app_last by lia. case_if; [lia|]. apply C1. lia.
          -- intros i j Hi Hj. rewrite !at_app_last by lia.
             pose proof (C3 i) as Ki. pose proof (C3 j) as Kj. specialize (C2 i j).
             repeat case_if; lia.
        * intros i Hi. rewrite at_app_last by lia. pose proof (C3 i). case_if; lia.
        * repeat case_any; lia. }
  destruct H as (H1 & _ & H3). split; [done|]. rewrite H3. unfold b2z. case_if; lia.
Qed.

Lemma at_swap (cs : list Z) p k i :
  0 <= p < zlen cs -> 0 <= k < zlen cs ->
  at_ 0 (set_at (set_at cs p (at_ 0 cs k)) k (at_ 0 cs p)) i =
  if k =? i then at_ 0 cs p else if p =? i then at_ 0 cs k else at_ 0 cs i.
Proof.
  intros Hp Hk. rewrite at_set_at by (rewrite zlen_set_at; lia). rewrite at_set_at by lia. done.
Qed.

Lemma cand_ok_swap n safe cs p k :
  cand_ok n safe cs -> 0 <= p < zlen cs -> 0 <= k < zlen cs ->
  cand_ok n safe (set_at (set_at cs p (at_ 0 cs k)) k (at_ 0 cs p)).
Proof.
  intros [C1 C2] Hp Hk. split.
  - intros i Hi. rewrite !zlen_set_at in Hi. rewrite at_swap by done. repeat case_if; by apply C1.
  - intros i j Hi Hj. rewrite !zlen_set_at in *. rewrite !at_swap by done.
    set (sw := fun x => if k =? x then p else if p =? x then k else x).
    assert (Hsw : forall x, (if k =? x then at_ 0 cs p else if p =? x then at_ 0 cs k else at_ 0 cs x) =
                            at_ 0 cs (sw x)) by (intros x; unfold sw; by repeat case_if).
    rewrite !Hsw. intros E. apply C2 in E; unfold sw in *; repeat case_any; lia.
Qed.

(** The board [b'] is [b] but for mines. *)
Definition mines_only (b b' : mines_board) : Prop :=
  same_dims b b' /\
  (state b', revealed_count b', flag_count b', marks_enabled b', level b') =
  (state b, revealed_count b, flag_count b, marks_enabled b, level b) /\
  forall i, revealed (cell_at b' i) = revealed (cell_at b i) /\
            mark (cell_at b' i) = mark (cell_at b i) /\
            exploded (cell_at b' i) = exploded (cell_at b i).

Lemma mines_only_refl b : mines_only b b.
Proof. done. Qed.

(** After [k] turns of the shuffle. *)
Definition place_inv (b : mines_board) (safe : Z) (cc k : Z)
    (s : option (Z * list Z * mines_board)) : Prop :=
  exists rng cs b', s = Some (rng, cs, b') /\ word32 rng /\ cand_ok (ncells b) safe cs /\
    zlen cs = cc /\ mines_only b b' /\ mine_count b' = mine_count b /\
    (forall i, mine (cell_at b' i) = true -> exists j, 0 <= j < k /\ at_ 0 cs j = i) /\
    cnt (fun i => mine (cell_at b' i)) (ncells b) = k.

Lemma place_one_inv b safe cc k s :
  shape b -> 0 <= k < cc -> cc <= MINES_MAX_CELLS ->
  place_inv b safe cc k s -> place_inv b safe cc (k + 1) (place_one cc k s).
Proof.
  intros Hs Hk Hcc (rng & cs & b' & -> & Hr & Hc & Hl & Hm & Hmc & Hfirst & Hcnt). unfold place_one.
  destruct (random_below_total (cc - k) rng Hr ltac:(lia)) as (v & rng' & -> & Hv & Hr').
  set (pick := k + v). assert (Hp : 0 <= pick < zlen cs) by lia.
  set (chosen := at_ 0 cs pick). pose proof Hc as [C1 C2].
  destruct (C1 pick Hp) as [Hch _]. fold chosen in Hch.
  pose proof Hm as (Hd & Hf & Hcell). pose proof (same_dims_shape _ _ Hd Hs) as Hs'.
  pose proof (same_dims_ncells _ _ Hd) as En.
  assert (Hnew : forall i, cell_at (upd_cell b' chosen cell_mine) i =
            if chosen =? i then cell_mine (cell_at b' chosen) else cell_at b' i)
    by (intros i; apply cell_at_upd; [done|lia]).
  assert (Hfree : mine (cell_at b' chosen) = false).
  { destruct (mine (cell_at b' chosen)) eqn:E; [|done]. apply Hfirst in E as (j & Hj & Hjc).
    specialize (C2 j pick ltac:(lia) Hp Hjc). lia. }
  do 3 eexists. split; [reflexivity|]. split; [done|]. split; [apply cand_ok_swap; [done|lia..]|].
  split; [by rewrite !zlen_set_at|]. split; [|split; [|split]].
  - split; [transitivity b'; [done|auto with mines]|]. split; [done|].
    intros i. rewrite Hnew. destruct (chosen =? i) eqn:E; [|apply Hcell].
    replace i with chosen by lia. apply Hcell.
  - done.
  - intros i. rewrite Hnew. intros Hi. destruct (chosen =? i) eqn:E.
    + exists k. split; [lia|]. rewrite at_swap by lia. rewrite Z.eqb_refl. fold chosen. lia.
    + destruct (Hfirst i Hi) as (j & Hj & Hji). exists j. split; [lia|].
      rewrite at_swap by lia. repeat case_if; [lia| |done]. assert (j = pick) by lia. lia.
  - rewrite (cnt_change (fun i => mine (cell_at b' i))
               (fun i => mine (cell_at (upd_cell b' chosen cell_mine) i)) _ chosen); [|done|].
    + rewrite Hcnt, Hfree, Hnew, Z.eqb_refl. simpl. lia.
    + intros i _ Hne. rewrite Hnew. destruct (chosen =? i) eqn:?; [lia|done].
Qed.

Lemma mines_only_counts b mc : mines_only b (with_counts b mc (revealed_count b) (flag_count b)).
Proof. done. Qed.

(** What placing leaves: as many mines as the board says (at most all cells but
    one), none on the first click, and the right numbers. *)
Lemma place_mines_spec rng b safe :
  shape b -> word32 rng -> 0 <= safe < ncells b -> 0 <= mine_count b ->
  (forall i, mine (cell_at b i) = false) ->
  exists rng' b', mines_place_mines rng b safe = Some (rng', b') /\ word32 rng' /\
    mines_only b b' /\ mine_count b' = Z.min (mine_count b) (ncells b - 1) /\
    mine (cell_at b' safe) = false /\ numbers_ok b' /\
    cnt (fun i => mine (cell_at b' i)) (ncells b) = mine_count b'.
Proof.
  intros Hs Hr Hsafe Hmc Hno. unfold mines_place_mines, mines_board_cell_count. fold (ncells b).
  destruct (candidates_spec (ncells b) safe Hsafe) as [Hc Hl]. rewrite Hl.
  set (cs := mine_candidates (ncells b) safe) in *.
  assert (Hmax : ncells b <= MINES_MAX_CELLS) by apply Hs.
  destruct (if mine_count b >? ncells b - 1 then _ else _) as [placed b1] eqn:E1.
  assert (Hb1 : mines_only b b1 /\ mine_count b1 = placed /\
                placed = Z.min (mine_count b) (ncells b - 1) /\
                (forall i, cell_at b1 i = cell_at b i)).
  { case_if_in E1; simplify_eq; (split; [done|]); simpl; (split; [done|]); (split; [lia|done]). }
  destruct Hb1 as (Hb1 & Em & Ep & Ecell). clear E1.
  assert (Hs1 : shape b1) by (apply (same_dims_shape b); [apply Hb1|done]).
  assert (En1 : ncells b1 = ncells b) by (apply same_dims_ncells, Hb1).
  assert (Hinv : place_inv b1 safe (ncells b - 1) placed
                   (for_z 0 placed (place_one (ncells b - 1)) (Some (rng, cs, b1)))).
  { apply (for_z_ind (fun k => place_inv b1 safe (ncells b - 1) k)); [lia| |].
    - exists rng, cs, b1. rewrite En1. split; [done|]. split; [done|]. split; [done|]. split; [done|].
      split; [done|]. split; [done|]. split; [intros i; by rewrite Ecell, Hno|].
      apply cnt_none. intros i _. by rewrite Ecell.
    - intros k s Hk. apply place_one_inv; [done|lia..]. }
  destruct Hinv as (rng' & cs' & b2 & -> & Hr' & [C1 _] & Hl' & Hm2 & Emc & Hfirst & Hcnt).
  assert (Hs2 : shape b2) by (apply (same_dims_shape b1); [apply Hm2|done]).
  destruct (count_neighbours_spec b2 Hs2) as (Hd3 & Hf3 & Hc3).
  assert (En2 : ncells b2 = ncells b) by (rewrite (same_dims_ncells b1 b2); [done|apply Hm2]).
  assert (Hmine : forall i, mine (cell_at (mines_count_neighbours b2) i) = mine (cell_at b2 i))
    by (intros i; rewrite Hc3; by case_if).
  exists rng', (mines_count_neighbours b2).
  split; [done|]. split; [done|]. split; [|split; [|split; [|split]]].
  - destruct Hm2 as (D2 & F2 & K2), Hb1 as (D1 & F1 & K1). split.
    { transitivity b1; [done|]. by transitivity b2. }
    split; [congruence|]. intros i. destruct (K2 i) as (A1 & A2 & A3), (K1 i) as (B1 & B2 & B3).
    rewrite Hc3. case_if; simpl; by rewrite A1, A2, A3, B1, B2, B3.
  - simplify_eq. congruence.
  - rewrite Hmine. destruct (mine (cell_at b2 safe)) eqn:E; [|done].
    apply Hfirst in E as (j & Hj & Hjs). exfalso. by apply (C1 j ltac:(lia)).
  - intros i Hi. rewrite (same_dims_ncells _ _ Hd3) in Hi.
    rewrite (mines_near_ext _ _ i Hd3 Hmine), Hc3. case_if; [done|lia].
  - rewrite (cnt_ext _ (fun i => mine (cell_at b2 i))) by (intros i _; apply Hmine).
    rewrite <- En1, Hcnt. simplify_eq. congruence.
Qed.

(** ** The invariant of a game *)

Definition counts_ok (b : mines_board) : Prop :=
  flag_count b = cnt (fun i => flagged (cell_at b i)) (ncells b) /\
  revealed_count b = cnt (fun i => revealed (cell_at b i) && negb (mine (cell_at b i))) (ncells b) /\
  (forall i, revealed (cell_at b i) = true -> flagged (cell_at b i) = false).

(** The mines are placed and numbered, and none is open. *)
Definition mined (b : mines_board) : Prop :=
  numbers_ok b /\ cnt (fun i => mine (cell_at b i)) (ncells b) = mine_count b.
Definition none_open (b : mines_board) : Prop :=
  forall i, revealed (cell_at b i) = true -> mine (cell_at b i) = false.

Definition board_ok (b : mines_board) : Prop :=
  shape b /\ 0 <= mine_count b /\ counts_ok b /\
  match state b with
  | MINES_STATE_READY =>
      forall i, mine (cell_at b i) = false /\ revealed (cell_at b i) = false
  | MINES_STATE_PLAYING =>
      mined b /\ none_open b /\ revealed_count b < ncells b - mine_count b
  | MINES_STATE_WON =>
      mined b /\ none_open b /\ revealed_count b = ncells b - mine_count b /\
      forall i, 0 <= i < ncells b -> mine (cell_at b i) = true -> flagged (cell_at b i) = true
  | MINES_STATE_LOST =>
      mined b /\ exists i, 0 <= i < ncells b /\ mine (cell_at b i) = true /\
                           exploded (cell_at b i) = true /\ revealed (cell_at b i) = true
  end.

Lemma safe_cells b :
  0 <= ncells b -> cnt (fun i => negb (mine (cell_at b i))) (ncells b) =
  ncells b - cnt (fun i => mine (cell_at b i)) (ncells b).
Proof.
  intros H. pose proof (cnt_split (fun _ => true) (fun i => mine (cell_at b i)) (ncells b)) as E.
  simpl in E. rewrite cnt_all in E by done. lia.
Qed.

Lemma revealed_count_le b :
  shape b -> counts_ok b -> mined b -> revealed_count b <= ncells b - mine_count b.
Proof.
  intros (? & ? & _) (_ & -> & _) (_ & <-). rewrite <- safe_cells by (unfold ncells; nia).
  apply cnt_le. intros i _. by intros [_ ?]%andb_true_iff.
Qed.

(** Cascades open no mine. *)
Lemma reach_no_mine b start i :
  shape b -> 0 <= start < ncells b -> numbers_ok b -> mine (cell_at b start) = false ->
  reach b start i -> mine (cell_at b i) = false.
Proof.
  intros Hs Hi Hn H0. induction 1 as [|i j Hr IH Hz Ha Hh]; [done|].
  pose proof (reach_range b start i Hs Hi Hr) as Hri. rewrite (Hn i Hri) in Hz.
  by apply (mines_near_zero b i j).
Qed.

Lemma flooded_flags b start b' :
  hidden b start -> flooded b start b' -> forall i, flagged (cell_at b' i) = flagged (cell_at b i).
Proof.
  intros Hh [(_ & _ & Hc & _) Hr] i. rewrite Hc. destruct (newly b b' i) eqn:E; [|done].
  apply Hr in E. apply (reach_hidden b start i Hh) in E as [_ ->]. done.
Qed.

Lemma flooded_counts b start b' :
  shape b -> 0 <= start < ncells b -> hidden b start -> counts_ok b -> numbers_ok b ->
  mine (cell_at b start) = false -> flooded b start b' -> counts_ok b'.
Proof.
  intros Hs Hi Hh (C1 & C2 & C3) Hn Hm Hfl. pose proof (flooded_flags _ _ _ Hh Hfl) as Hflag.
  pose proof Hfl as [Ho Hr]. pose proof Ho as (Hd & Hf & Hc & Hrc).
  pose proof (same_dims_ncells _ _ Hd) as En. split; [|split].
  - rewrite En. erewrite cnt_ext; [|intros i _; apply Hflag]. simplify_eq. congruence.
  - rewrite Hrc, En, C2.
    rewrite (cnt_split _ (fun i => revealed (cell_at b i)) (ncells b)
               : cnt (fun i => revealed (cell_at b' i) && negb (mine (cell_at b' i))) _ = _).
    f_equal; apply cnt_ext; intros i _; rewrite (opened_revealed _ _ i Ho);
      destruct (opened_neighbours _ _ i Ho) as (_ & -> & _).
    + by destruct (revealed (cell_at b i)), (newly b b' i), (mine (cell_at b i)).
    + destruct (newly b b' i) eqn:E.
      * rewrite (reach_no_mine b start i) by (done || by apply Hr).
        unfold newly in E. apply andb_true_iff in E as [_ E]. by rewrite E, orb_true_r.
      * rewrite orb_false_r. destruct (revealed (cell_at b i)), (mine (cell_at b i)); done.
  - intros i. rewrite Hflag, (opened_revealed _ _ i Ho). intros [?|E]%orb_true_iff; [by apply C3|].
    apply Hr in E. by apply (reach_hidden b start i Hh) in E as [_ ?].
Qed.

(** ** Winning and losing *)

Lemma flagged_mark c : flagged (cell_mark MINES_MARK_FLAG c) = true.
Proof. done. Qed.

Definition flag_inv (b : mines_board) (k : Z) (b' : mines_board) : Prop :=
  same_dims b b' /\
  (mine_count b', state b', revealed_count b', marks_enabled b', level b') =
  (mine_count b, state b, revealed_count b, marks_enabled b, level b) /\
  flag_count b' = cnt (fun i => flagged (cell_at b' i)) (ncells b) /\
  forall i, cell_at b' i =
    if (0 <=? i) && (i <? k) && mine (cell_at b i) && negb (flagged (cell_at b i))
    then cell_mark MINES_MARK_FLAG (cell_at b i) else cell_at b i.

Lemma flag_all_spec b :
  shape b -> flag_count b = cnt (fun i => flagged (cell_at b i)) (ncells b) ->
  flag_inv b (ncells b) (for_z 0 (ncells b) flag_mine b).
Proof.
  intros Hs Hf. apply (for_z_ind (flag_inv b)).
  - destruct Hs as (? & ? & _). unfold ncells. nia.
  - split; [done|]. split; [done|]. split; [done|]. intros i. by case_if; [lia|].
  - intros k b' Hk (Hd & Hfr & Hfl & Hc). unfold flag_mine.
    pose proof (same_dims_shape _ _ Hd Hs) as Hs'. pose proof (same_dims_ncells _ _ Hd) as En.
    assert (Ek : cell_at b' k = cell_at b k) by (rewrite Hc; by case_if; [lia|]).
    rewrite Ek. fold (flagged (cell_at b k)).
    destruct (mine (cell_at b k) && negb (flagged (cell_at b k))) eqn:E.
    + assert (Hnew : forall i, cell_at (upd_cell b' k (cell_mark MINES_MARK_FLAG)) i =
        if k =? i then cell_mark MINES_MARK_FLAG (cell_at b k) else cell_at b' i)
        by (intros i; rewrite cell_at_upd by (done || lia); by rewrite Ek).
      split; [|split; [done|split]].
      * transitivity b'; [done|]. transitivity (upd_cell b' k (cell_mark MINES_MARK_FLAG)); auto with mines.
      * simpl. rewrite Hfl.
        rewrite (cnt_change (fun i => flagged (cell_at b' i))
          (fun i => flagged (cell_at (upd_cell b' k (cell_mark MINES_MARK_FLAG)) i)) _ k); [|done|].
        -- rewrite Hnew, Z.eqb_refl, Ek. destruct (flagged (cell_at b k)); [|simpl; lia].
           by rewrite andb_false_r in E.
        -- intros i _ Hne. rewrite Hnew. destruct (k =? i) eqn:?; [lia|done].
      * intros i. rewrite cell_at_counts, Hnew, Hc. destruct (k =? i) eqn:Ei.
        -- replace i with k by lia. rewrite <- andb_assoc, E. by case_if; [|lia].
        -- replace (i <? k + 1) with (i <? k) by lia. done.
    + split; [done|]. split; [done|]. split; [done|]. intros i. rewrite Hc.
      destruct (decide (i = k)) as [->|]; [|by replace (i <? k + 1) with (i <? k) by lia].
      rewrite <- !andb_assoc, E, !andb_false_r. done.
Qed.

Lemma check_win_ok b :
  shape b -> 0 <= mine_count b -> counts_ok b -> mined b -> none_open b ->
  state b = MINES_STATE_PLAYING -> board_ok (mines_check_win b).
Proof.
  intros Hs Hmc Hcnt Hm Hno Hst. pose proof (revealed_count_le b Hs Hcnt Hm) as Hle.
  unfold mines_check_win, mines_board_cell_count. fold (ncells b).
  case_if.
  - unfold board_ok. rewrite Hst. split; [done|]. split; [done|]. split; [done|].
    split; [done|]. split; [done|lia].
  - change (columns (with_state b MINES_STATE_WON) * rows (with_state b MINES_STATE_WON)) with (ncells b).
    pose proof Hcnt as (C1 & C2 & C3).
    destruct (flag_all_spec (with_state b MINES_STATE_WON) Hs C1) as (Hd & Hfr & Hfl & Hc).
    set (b' := for_z 0 _ flag_mine _) in *. change (ncells (with_state b MINES_STATE_WON)) with (ncells b) in *.
    setoid_rewrite cell_at_state in Hc.
    assert (Hd' : same_dims b b') by done. pose proof (same_dims_ncells _ _ Hd') as En.
    assert (Hsame : forall i, mine (cell_at b' i) = mine (cell_at b i) /\
              revealed (cell_at b' i) = revealed (cell_at b i) /\
              neighbours (cell_at b' i) = neighbours (cell_at b i))
      by (intros i; rewrite Hc; by case_if).
    injection Hfr as F1 F2 F3 F4 F5. simpl in F1, F2, F3.
    unfold board_ok. rewrite F2. split; [by apply (same_dims_shape b)|]. rewrite F1.
    split; [done|]. split; [split; [by rewrite En|split]|split; [split|split; [|split]]].
    + rewrite F3, En, C2. apply cnt_ext. intros i _. by destruct (Hsame i) as (-> & -> & _).
    + intros i. destruct (Hsame i) as (_ & -> & _). intros Hr. rewrite Hc, (Hno i Hr).
      rewrite andb_false_r. simpl. by apply C3.
    + apply (numbers_ok_ext b b'); [done| |apply Hm]. intros i. by destruct (Hsame i) as (? & _ & ?).
    + rewrite En, F1. destruct Hm as [_ <-]. apply cnt_ext. intros i _. apply Hsame.
    + intros i. destruct (Hsame i) as (-> & -> & _). apply Hno.
    + rewrite F3, En. lia.
    + intros i. rewrite En. intros Hi. destruct (Hsame i) as (-> & _). intros Hmi. rewrite Hc, Hmi.
      destruct (flagged (cell_at b i)) eqn:E; case_if; try done; lia.
Qed.

Definition reveal_inv (b : mines_board) (k : Z) (b' : mines_board) : Prop :=
  same_dims b b' /\
  (mine_count b', state b', revealed_count b', flag_count b', marks_enabled b', level b') =
  (mine_count b, state b, revealed_count b, flag_count b, marks_enabled b, level b) /\
  forall i, cell_at b' i =
    if (0 <=? i) && (i <? k) && mine (cell_at b i) && negb (flagged (cell_at b i))
    then cell_reveal (cell_at b i) else cell_at b i.

Lemma reveal_all_spec b :
  shape b -> reveal_inv b (ncells b) (mines_reveal_all_mines b).
Proof.
  intros Hs. unfold mines_reveal_all_mines, mines_board_cell_count. fold (ncells b).
  apply (for_z_ind (reveal_inv b)).
  - destruct Hs as (? & ? & _). unfold ncells. nia.
  - split; [done|]. split; [done|]. intros i. by case_if; [lia|].
  - intros k b' Hk (Hd & Hfr & Hc).
    pose proof (same_dims_shape _ _ Hd Hs) as Hs'. pose proof (same_dims_ncells _ _ Hd) as En.
    assert (Ek : cell_at b' k = cell_at b k) by (rewrite Hc; by case_if; [lia|]).
    rewrite Ek. fold (flagged (cell_at b k)).
    destruct (mine (cell_at b k) && negb (flagged (cell_at b k))) eqn:E.
    + split; [transitivity b'; auto with mines|]. split; [done|].
      intros i. rewrite cell_at_upd, Ek, Hc by (done || lia). destruct (k =? i) eqn:Ei.
      * replace i with k by lia. rewrite <- andb_assoc, E. by case_if; [|lia].
      * replace (i <? k + 1) with (i <? k) by lia. done.
    + split; [done|]. split; [done|]. intros i. rewrite Hc.
      destruct (decide (i = k)) as [->|]; [|by replace (i <? k + 1) with (i <? k) by lia].
      rewrite <- !andb_assoc, E, !andb_false_r. done.
Qed.

(** The losing branch of [mines_board_reveal]. *)
Definition explode_at (b : mines_board) (index : Z) : mines_board :=
  mines_reveal_all_mines
    (with_state (upd_cell b index (fun c => cell_explode (cell_reveal c))) MINES_STATE_LOST).

Lemma lose_ok b index :
  shape b -> 0 <= mine_count b -> counts_ok b -> mined b ->
  0 <= index < ncells b -> hidden b index -> mine (cell_at b index) = true ->
  board_ok (explode_at b index).
Proof.
  intros Hs Hmc (C1 & C2 & C3) Hm Hi [Hh1 Hh2] Hmi. unfold explode_at.
  set (b1 := with_state (upd_cell b index _) MINES_STATE_LOST).
  assert (Hd1 : same_dims b b1) by (unfold b1; transitivity (upd_cell b index (fun c => cell_explode (cell_reveal c))); auto with mines).
  assert (Hc1 : forall i, cell_at b1 i =
    if index =? i then cell_explode (cell_reveal (cell_at b index)) else cell_at b i)
    by (intros i; unfold b1; rewrite cell_at_state, cell_at_upd; done).
  destruct (reveal_all_spec b1 (same_dims_shape _ _ Hd1 Hs)) as (Hd2 & Hfr & Hc2).
  set (b2 := mines_reveal_all_mines b1) in *. rewrite (same_dims_ncells _ _ Hd1) in Hc2.
  injection Hfr as F1 F2 F3 F4 F5 F6. simpl in F1, F2, F3, F4.
  assert (Hd : same_dims b b2) by (by transitivity b1). pose proof (same_dims_ncells _ _ Hd) as En.
  assert (Hsame : forall i, mine (cell_at b2 i) = mine (cell_at b i) /\
            neighbours (cell_at b2 i) = neighbours (cell_at b i) /\
            mark (cell_at b2 i) = mark (cell_at b i)).
  { intros i. rewrite Hc2. rewrite Hc1. destruct (index =? i) eqn:E; case_if; simpl; try done;
      replace i with index by lia; done. }
  assert (Hrev : forall i, revealed (cell_at b2 i) = true ->
            revealed (cell_at b i) = true \/ (mine (cell_at b i) = true /\ flagged (cell_at b i) = false)).
  { intros i. rewrite Hc2, Hc1. destruct (index =? i) eqn:E.
    - replace i with index by lia. auto.
    - case_if; simpl; [|auto]. right. by destruct (mine (cell_at b i)), (flagged (cell_at b i)); rewrite ?andb_false_r in *. }
  assert (Hrev' : forall i, mine (cell_at b i) = false -> revealed (cell_at b2 i) = revealed (cell_at b i)).
  { intros i Hno. rewrite Hc2, Hc1. destruct (index =? i) eqn:E; [replace i with index in * by lia; congruence|].
    by rewrite Hno, andb_false_r. }
  unfold board_ok. rewrite F2, F1. split; [by apply (same_dims_shape b)|]. split; [done|].
  split; [split; [|split]|split; [split|]].
  - rewrite F4, En, C1. apply cnt_ext. intros i _. unfold flagged. by destruct (Hsame i) as (_ & _ & ->).
  - rewrite F3, En, C2. apply cnt_ext. intros i _. destruct (Hsame i) as (-> & _).
    destruct (mine (cell_at b i)) eqn:E; [by rewrite !andb_false_r|]. by rewrite Hrev'.
  - intros i Hr. unfold flagged. destruct (Hsame i) as (_ & _ & ->).
    destruct (Hrev i Hr) as [?|[_ ?]]; [by apply C3|done].
  - apply (numbers_ok_ext b b2); [done| |apply Hm]. intros i. by destruct (Hsame i) as (? & ? & _).
  - rewrite En, F1. destruct Hm as [_ <-]. apply cnt_ext. intros i _. apply Hsame.
  - exists index. rewrite En. split; [done|]. destruct (Hsame index) as (-> & _). split; [done|].
    rewrite Hc2, Hc1, Z.eqb_refl. by case_if.
Qed.

(** ** The operations *)

Lemma reset_ok b lvl : board_ok (mines_board_reset b lvl).
Proof.
  assert (Hcell : forall i, at_ cell0 (replicate (Z.to_nat MINES_MAX_CELLS) cell0) i = cell0).
  { intros i. unfold at_. case_if; [done|]. rewrite nth_lookup.
    destruct (decide (Z.to_nat i < Z.to_nat MINES_MAX_CELLS)%nat).
    - by rewrite lookup_replicate_2.
    - rewrite lookup_ge_None_2; [done|]. rewrite length_replicate. lia. }
  unfold mines_board_reset, mines_level_info.
  destruct (if _ =? 0 then _ else _) as [[c r] m] eqn:E.
  assert (Hdim : 0 < c /\ 0 < r /\ c * r <= MINES_MAX_CELLS /\ 0 <= m)
    by (unfold MINES_MAX_CELLS, MINES_MAX_COLUMNS, MINES_MAX_ROWS; repeat case_any; simplify_eq; lia).
  unfold board_ok, shape, counts_ok, ncells, cell_at, zlen. simpl. destruct Hdim as (? & ? & ? & ?).
  split; [done|]. split; [done|]. split; [split; [|split]|].
  - symmetry. apply cnt_none. intros i _. by rewrite Hcell.
  - symmetry. apply cnt_none. intros i _. by rewrite Hcell.
  - intros i. by rewrite Hcell.
  - intros i. by rewrite Hcell.
Qed.

Lemma mined_state b s : mined b -> mined (with_state b s).
Proof. intros [H1 H2]. split; [by apply (numbers_ok_ext b)|exact H2]. Qed.

(** A reveal's first part: the board it acts on, mines placed. *)
Lemma reveal_live rng b index :
  board_ok b -> word32 rng -> 0 <= index < ncells b -> hidden b index ->
  state b = MINES_STATE_READY \/ state b = MINES_STATE_PLAYING ->
  exists rng' b',
    (if decide (state b = MINES_STATE_READY)
     then match mines_place_mines rng b index with
          | Some (rng, b) => Some (rng, with_state b MINES_STATE_PLAYING)
          | None => None
          end
     else Some (rng, b)) = Some (rng', b') /\
    word32 rng' /\ same_dims b b' /\ shape b' /\ 0 <= mine_count b' /\ counts_ok b' /\ mined b' /\
    none_open b' /\ hidden b' index /\ state b' = MINES_STATE_PLAYING /\
    (state b = MINES_STATE_READY -> mine (cell_at b' index) = false).
Proof.
  intros (Hs & Hmc & Hcnt & Hst) Hr Hi Hh Hlive.
  destruct (decide (state b = MINES_STATE_READY)) as [E|E].
  - rewrite E in Hst.
    destruct (place_mines_spec rng b index Hs Hr Hi Hmc ltac:(apply Hst))
      as (rng' & b1 & -> & Hr' & (Hd & Hfr & Hcell) & Emc & Hsafe & Hnum & Hc).
    injection Hfr as F1 F2 F3 F4 F5. pose proof (same_dims_ncells _ _ Hd) as En.
    exists rng', (with_state b1 MINES_STATE_PLAYING). split; [done|]. split; [done|].
    assert (Hrev : forall i, revealed (cell_at b1 i) = false)
      by (intros i; destruct (Hcell i) as (-> & _); apply Hst).
    assert (0 <= ncells b) by lia.
    split; [done|]. split; [by apply (same_dims_shape b)|]. simpl. split; [lia|].
    split; [|split; [|split; [|split; [|split; [done|auto]]]]].
    + destruct Hcnt as (C1 & C2 & C3). split; [|split]; simpl.
      * rewrite F3, C1. change (ncells (with_state b1 _)) with (ncells b1). rewrite En.
        apply cnt_ext. intros i _. rewrite cell_at_state. unfold flagged.
        by destruct (Hcell i) as (_ & -> & _).
      * rewrite F2, C2. change (ncells (with_state b1 _)) with (ncells b1). rewrite En.
        rewrite !cnt_none; [done|..]; intros i _.
        -- rewrite cell_at_state. by rewrite Hrev.
        -- by destruct (Hst i) as [_ ->].
      * intros i. rewrite cell_at_state, Hrev. done.
    + apply mined_state. split; [exact Hnum|]. rewrite En. exact Hc.
    + intros i. rewrite cell_at_state, Hrev. done.
    + destruct Hh as [_ Hh]. split; rewrite cell_at_state; [apply Hrev|].
      unfold flagged in *. by destruct (Hcell index) as (_ & -> & _).
  - destruct Hlive as [?|Ep]; [done|]. rewrite Ep in Hst. destruct Hst as (Hm & Hn & _).
    exists rng, b. by repeat (split; [done|]).
Qed.

(** The rest of a reveal, on a live board. *)
Definition reveal_tail (rng : Z) (b : mines_board) (index : Z) : option (Z * mines_board * bool) :=
  if mine (cell_at b index) then
    Some (rng, explode_at b index, true)
  else
    match mines_flood_reveal b index with
    | FloodDone b => Some (rng, mines_check_win b, true)
    | _ => None
    end.

Lemma explode_dims b index : shape b -> same_dims b (explode_at b index).
Proof.
  intros Hs. unfold explode_at.
  set (b1 := with_state (upd_cell b index _) MINES_STATE_LOST).
  assert (Hd1 : same_dims b b1) by (unfold b1; transitivity (upd_cell b index (fun c => cell_explode (cell_reveal c))); auto with mines).
  destruct (reveal_all_spec b1 (same_dims_shape _ _ Hd1 Hs)) as (Hd2 & _). by transitivity b1.
Qed.

Lemma check_win_dims b : shape b -> counts_ok b -> same_dims b (mines_check_win b).
Proof.
  intros Hs (C1 & _). unfold mines_check_win. case_if; [done|].
  by destruct (flag_all_spec (with_state b MINES_STATE_WON) Hs C1) as (Hd & _).
Qed.

Lemma check_win_not_lost b :
  shape b -> counts_ok b -> state b = MINES_STATE_PLAYING -> state (mines_check_win b) <> MINES_STATE_LOST.
Proof.
  intros Hs (C1 & _) Hst. unfold mines_check_win. case_if; [congruence|].
  destruct (flag_all_spec (with_state b MINES_STATE_WON) Hs C1) as (_ & Hf & _).
  injection Hf as _ F2 _ _ _. unfold mines_board_cell_count. simpl. unfold ncells in F2. simpl in F2. congruence.
Qed.

Lemma reveal_tail_ok rng b index :
  shape b -> 0 <= mine_count b -> counts_ok b -> mined b -> none_open b -> hidden b index ->
  0 <= index < ncells b -> state b = MINES_STATE_PLAYING ->
  match reveal_tail rng b index with
  | Some (rng', b', r) =>
      rng' = rng /\ board_ok b' /\ same_dims b b' /\ r = true /\
      (mine (cell_at b index) = false -> state b' <> MINES_STATE_LOST)
  | None => MINES_MAX_CELLS < 8 * ncells b + 1
  end.
Proof.
  intros Hs Hmc Hc Hm Hno Hh Hi Hst. unfold reveal_tail.
  destruct (mine (cell_at b index)) eqn:Em.
  { split; [done|]. split; [by apply lose_ok|]. split; [by apply explode_dims|done]. }
  pose proof (flood_reveal_spec b index Hs Hi Hh) as Hf.
  destruct (mines_flood_reveal b index) as [b'| |]; [|done..].
  pose proof Hf as [(Hd & Hfr & Hcell & Hrc) Hreach]. injection Hfr as F1 F2 F3 F4 F5.
  assert (Hs' : shape b') by (by apply (same_dims_shape b)).
  assert (Hc' : counts_ok b') by (apply (flooded_counts b index); try done; apply Hm).
  assert (Hsame := fun i => opened_neighbours b b' i (proj1 Hf)).
  split; [done|]. split; [|split; [|split; [done|]]].
  - apply check_win_ok; try done; [by rewrite F1| | |congruence].
    + split.
      * apply (numbers_ok_ext b b'); [done| |apply Hm]. intros i. by destruct (Hsame i) as (? & ? & _).
      * rewrite (same_dims_ncells _ _ Hd), F1. destruct Hm as [_ <-]. apply cnt_ext. intros i _. apply Hsame.
    + intros i. destruct (Hsame i) as (_ & -> & _). rewrite (opened_revealed b b' i (proj1 Hf)).
      intros [?|E]%orb_true_iff; [by apply Hno|]. apply Hreach in E.
      by apply (reach_no_mine b index i Hs Hi (proj1 Hm) Em).
  - transitivity b'; [done|]. by apply check_win_dims.
  - intros _. apply check_win_not_lost; try done. congruence.
Qed.

Lemma reveal_ok rng b column row :
  board_ok b -> word32 rng ->
  match mines_board_reveal rng b column row with
  | Some (rng', b', _) =>
      board_ok b' /\ word32 rng' /\ same_dims b b' /\
      (state b = MINES_STATE_READY -> state b' <> MINES_STATE_LOST)
  | None => MINES_MAX_CELLS < 8 * ncells b + 1
  end.
Proof.
  intros Hb Hr. unfold mines_board_reveal.
  assert (Hstay : match Some (rng, b, false) with
    | Some (rng', b', _) => board_ok b' /\ word32 rng' /\ same_dims b b' /\
        (state b = MINES_STATE_READY -> state b' <> MINES_STATE_LOST)
    | None => MINES_MAX_CELLS < 8 * ncells b + 1 end).
  { split; [done|]. split; [done|]. split; [done|]. congruence. }
  assert (Hgo : state b = MINES_STATE_READY \/ state b = MINES_STATE_PLAYING ->
    match (let index := mines_board_index b column row in
      if index <? 0 then Some (rng, b, false)
      else if revealed (cell_at b index) || is_flag (mark (cell_at b index)) then Some (rng, b, false)
      else match (if decide (state b = MINES_STATE_READY)
                 then match mines_place_mines rng b index with
                      | Some (rng, b) => Some (rng, with_state b MINES_STATE_PLAYING)
                      | None => None
                      end
                 else Some (rng, b)) with
          | None => None
          | Some (rng, b) => reveal_tail rng b index
          end) with
    | Some (rng', b', _) => board_ok b' /\ word32 rng' /\ same_dims b b' /\
        (state b = MINES_STATE_READY -> state b' <> MINES_STATE_LOST)
    | None => MINES_MAX_CELLS < 8 * ncells b + 1 end).
  { intros Hlive. cbv zeta. case_if; [exact Hstay|].
    pose proof (index_range b column row ltac:(apply Hb) ltac:(lia)) as Hi.
    set (index := mines_board_index b column row) in *.
    destruct (revealed (cell_at b index) || _) eqn:Eh; [exact Hstay|]. apply hidden_test in Eh.
    destruct (reveal_live rng b index Hb Hr Hi Eh Hlive)
      as (rng' & b1 & -> & Hr' & Hd & Hs1 & Hmc1 & Hc1 & Hm1 & Hn1 & Hh1 & Hst1 & Hfirst).
    pose proof (same_dims_ncells _ _ Hd) as En.
    pose proof (reveal_tail_ok rng' b1 index Hs1 Hmc1 Hc1 Hm1 Hn1 Hh1 ltac:(lia) Hst1) as Ht.
    destruct (reveal_tail rng' b1 index) as [[[rng2 b2] r]|]; [|by rewrite <- En].
    destruct Ht as (-> & H1 & H2 & _ & H3). split; [done|]. split; [done|].
    split; [by transitivity b1|]. auto. }
  destruct (state b) eqn:Est; [apply Hgo; auto..|exact Hstay|exact Hstay].
Qed.

(** Changing the mark of one hidden cell. *)
Lemma mark_ok b index m fc :
  board_ok b -> 0 <= index < ncells b -> revealed (cell_at b index) = false ->
  (state b = MINES_STATE_READY \/ state b = MINES_STATE_PLAYING) ->
  fc = flag_count b - b2z (flagged (cell_at b index)) + b2z (is_flag m) ->
  board_ok (with_counts (upd_cell b index (cell_mark m)) (mine_count b) (revealed_count b) fc).
Proof.
  intros (Hs & Hmc & (C1 & C2 & C3) & Hst) Hi Hr Hlive Hfc.
  set (b' := with_counts _ _ _ _).
  assert (Hd : same_dims b b') by (unfold b'; transitivity (upd_cell b index (cell_mark m)); auto with mines).
  pose proof (same_dims_ncells _ _ Hd) as En.
  assert (Hc : forall i, cell_at b' i = if index =? i then cell_mark m (cell_at b index) else cell_at b i)
    by (intros i; unfold b'; rewrite cell_at_counts; by apply cell_at_upd).
  assert (Hsame : forall i, mine (cell_at b' i) = mine (cell_at b i) /\
            revealed (cell_at b' i) = revealed (cell_at b i) /\
            neighbours (cell_at b' i) = neighbours (cell_at b i)).
  { intros i. rewrite Hc. destruct (index =? i) eqn:E; [|done]. by replace i with index by lia. }
  assert (Hm : mined b -> mined b').
  { intros [M1 M2]. split.
    - apply (numbers_ok_ext b b'); [done| |done]. intros i. by destruct (Hsame i) as (? & _ & ?).
    - rewrite En. simpl. rewrite <- M2. apply cnt_ext. intros i _. apply Hsame. }
  split; [by apply (same_dims_shape b)|]. split; [done|]. split; [split; [|split]|].
  - simpl. rewrite En, Hfc, C1.
    rewrite (cnt_change (fun i => flagged (cell_at b i)) (fun i => flagged (cell_at b' i)) _ index); [|done|].
    + rewrite Hc, Z.eqb_refl. done.
    + intros i _ Hne. rewrite Hc. destruct (index =? i) eqn:?; [lia|done].
  - simpl. rewrite En, C2. apply cnt_ext. intros i _. by destruct (Hsame i) as (-> & -> & _).
  - intros i. destruct (Hsame i) as (_ & -> & _). intros Hri. rewrite Hc.
    destruct (index =? i) eqn:E; [replace i with index in Hri by lia; congruence|by apply C3].
  - simpl. destruct Hlive as [E|E]; rewrite E in *.
    + intros i. destruct (Hsame i) as (-> & -> & _). apply Hst.
    + destruct Hst as (M & N & R). split; [by apply Hm|]. rewrite En. split; [|done].
      intros i. destruct (Hsame i) as (-> & -> & _). apply N.
Qed.

Lemma cycle_mark_ok b column row :
  board_ok b -> board_ok (mines_board_cycle_mark b column row).1 /\
                same_dims b (mines_board_cycle_mark b column row).1 /\
                state (mines_board_cycle_mark b column row).1 = state b.
Proof.
  intros Hb. unfold mines_board_cycle_mark, mines_board_cell.
  destruct (state b) eqn:Est; try done.
  all: destruct (mines_board_index b column row <? 0) eqn:Ei; [done|];
    pose proof (index_range b column row ltac:(apply Hb) ltac:(lia)) as Hi;
    set (index := mines_board_index b column row) in *;
    destruct (revealed (cell_at b index)) eqn:Er; [done|];
    assert (Hd : forall m x y z, same_dims b (with_counts (upd_cell b index (cell_mark m)) x y z))
      by (intros m; transitivity (upd_cell b index (cell_mark m)); auto with mines);
    pose proof (fun m fc => mark_ok b index m fc Hb Hi Er ltac:(auto)) as Hok;
    unfold flagged in Hok;
    destruct (mark (cell_at b index)) eqn:Em; cbn [fst];
    (split; [|split; [apply (Hd _ (mine_count b) (revealed_count b) (flag_count b))|done]]).
  - apply (Hok MINES_MARK_FLAG). change (is_flag MINES_MARK_NONE) with false. simpl. lia.
  - apply (Hok (if marks_enabled b then MINES_MARK_QUESTION else MINES_MARK_NONE)).
    change (is_flag MINES_MARK_FLAG) with true. destruct (marks_enabled b); simpl; lia.
  - apply (Hok MINES_MARK_NONE (flag_count b)). simpl. lia.
  - apply (Hok MINES_MARK_FLAG). change (is_flag MINES_MARK_NONE) with false. simpl. lia.
  - apply (Hok (if marks_enabled b then MINES_MARK_QUESTION else MINES_MARK_NONE)).
    change (is_flag MINES_MARK_FLAG) with true. destruct (marks_enabled b); simpl; lia.
  - apply (Hok MINES_MARK_NONE (flag_count b)). simpl. lia.
Qed.

Lemma chord_ok rng b column row :
  board_ok b -> word32 rng ->
  match mines_board_chord rng b column row with
  | Some (rng', b', _) => board_ok b' /\ word32 rng' /\ same_dims b b'
  | None => MINES_MAX_CELLS < 8 * ncells b + 1
  end.
Proof.
  intros Hb Hr. unfold mines_board_chord.
  assert (Hfold : forall l s, match s with
      | Some (rng', b', _) => board_ok b' /\ word32 rng' /\ same_dims b b'
      | None => MINES_MAX_CELLS < 8 * ncells b + 1 end ->
    match fold_left (chord_step column row) l s with
    | Some (rng', b', _) => board_ok b' /\ word32 rng' /\ same_dims b b'
    | None => MINES_MAX_CELLS < 8 * ncells b + 1 end).
  { induction l as [|d l IH]; intros s Hs; [done|]. cbn [fold_left]. apply IH.
    destruct s as [[[rng1 b1] c1]|]; [|done]. cbn [chord_step]. destruct Hs as (H1 & H2 & H3).
    case_if; [done|]. pose proof (reveal_ok rng1 b1 (column + d.1) (row + d.2) H1 H2) as Hrev.
    destruct (mines_board_reveal rng1 b1 _ _) as [[[rng2 b2] r2]|].
    - destruct Hrev as (R1 & R2 & R3 & _). split; [done|]. split; [done|]. by transitivity b1.
    - by rewrite <- (same_dims_ncells _ _ H3). }
  assert (Hstay : board_ok b /\ word32 rng /\ same_dims b b) by (split; [done|]; split; done).
  destruct (state b); try exact Hstay. destruct (mines_board_cell b column row); [|exact Hstay].
  case_if; [exact Hstay|]. case_if; [exact Hstay|]. apply Hfold. exact Hstay.
Qed.
