(* ===== verification/MinesLaws.v ===== *)
(** * The Minesweeper rules: properties

    What mines_board.h promises of the game: the invariant over every sequence
    of the player's actions, the safety of the first click, the exactness of
    the cascade, what winning means, and where the cascade's fixed stack is
    enough and where it is not. *)

From S2P Require Import Prelude Mines MinesFacts MinesPlay.

(** ** Games *)

Inductive action := AReveal (column row : Z) | AMark (column row : Z) | AChord (column row : Z).

Definition act (s : option (Z * mines_board)) (a : action) : option (Z * mines_board) :=
  match s with
  | None => None
  | Some (rng, b) =>
      match a with
      | AReveal c r =>
          match mines_board_reveal rng b c r with
          | Some (rng, b, _) => Some (rng, b)
          | None => None
          end
      | AMark c r => Some (rng, (mines_board_cycle_mark b c r).1)
      | AChord c r =>
          match mines_board_chord rng b c r with
          | Some (rng, b, _) => Some (rng, b)
          | None => None
          end
      end
  end.

(** A game: a seed, a level, and what the player does. *)
Definition play (seed : Z) (b0 : mines_board) (lvl : Z) (actions : list action)
  : option (Z * mines_board) :=
  fold_left act actions (Some (mines_random_seed seed, mines_board_reset b0 lvl)).

Lemma seed_range seed : word32 seed -> word32 (mines_random_seed seed).
Proof. unfold mines_random_seed, word32. intros H. case_if; lia. Qed.

Definition game_ok (n : Z) (s : option (Z * mines_board)) : Prop :=
  match s with
  | Some (rng, b) => board_ok b /\ word32 rng /\ ncells b = n
  | None => MINES_MAX_CELLS < 8 * n + 1
  end.

Lemma act_ok n s a : game_ok n s -> game_ok n (act s a).
Proof.
  destruct s as [[rng b]|]; [|done]. intros (Hb & Hr & Hn). destruct a as [c r|c r|c r]; cbn [act].
  - pose proof (reveal_ok rng b c r Hb Hr) as H.
    destruct (mines_board_reveal rng b c r) as [[[rng' b'] x]|]; simpl; [|by rewrite <- Hn].
    destruct H as (H1 & H2 & H3 & _). by rewrite (same_dims_ncells _ _ H3).
  - destruct (cycle_mark_ok b c r Hb) as (H1 & H2 & _). simpl. by rewrite (same_dims_ncells _ _ H2).
  - pose proof (chord_ok rng b c r Hb Hr) as H.
    destruct (mines_board_chord rng b c r) as [[[rng' b'] x]|]; simpl; [|by rewrite <- Hn].
    destruct H as (H1 & H2 & H3). by rewrite (same_dims_ncells _ _ H3).
Qed.

Lemma play_ok seed b0 lvl actions :
  word32 seed -> game_ok (ncells (mines_board_reset b0 lvl)) (play seed b0 lvl actions).
Proof.
  intros Hs. unfold play. induction actions as [|a l IH] using rev_ind.
  - split; [apply reset_ok|]. split; [by apply seed_range|done].
  - rewrite fold_left_app. by apply act_ok.
Qed.

(** C25. Every board a game reaches satisfies the invariant [board_ok]: flag and
    reveal counters agree with the cells, the numbers are the true mine counts,
    no open mine while playing, and each state means what its name says.  On a
    beginner board every sequence of actions has a result: the cascade never
    leaves its stack. *)
Theorem mines_game_invariant seed b0 lvl actions :
  word32 seed ->
  (forall rng b, play seed b0 lvl actions = Some (rng, b) -> board_ok b) /\
  (lvl = 0 -> exists rng b, play seed b0 lvl actions = Some (rng, b)).
Proof.
  intros Hs. pose proof (play_ok seed b0 lvl actions Hs) as H. split.
  - intros rng b E. rewrite E in H. apply H.
  - intros ->. destruct (play seed b0 0 actions) as [[rng b]|]; [eauto|].
    exfalso. unfold game_ok, ncells, MINES_MAX_CELLS, MINES_MAX_COLUMNS, MINES_MAX_ROWS in H. simpl in H. lia.
Qed.

Definition blank : mines_board := mk_board 0 0 0 0 MINES_STATE_READY 0 0 true [].

Lemma mines_game_invariant_witness :
  exists rng b, play 12345 blank 0 [AMark 8 8; AReveal 0 0; AChord 1 0] = Some (rng, b) /\ board_ok b.
Proof.
  assert (H : word32 12345) by (unfold word32; lia).
  destruct (mines_game_invariant 12345 blank 0 [AMark 8 8; AReveal 0 0; AChord 1 0] H) as [H1 H2].
  destruct (H2 eq_refl) as (rng & b & E). exists rng, b. split; [exact E|]. exact (H1 rng b E).
Defined.

(** The first click never loses: a reveal on a board whose mines are not
    placed yet leaves a board that is not lost, whatever the generator draws. *)
Theorem mines_first_click_safe rng b column row rng' b' r :
  board_ok b -> word32 rng -> state b = MINES_STATE_READY ->
  mines_board_reveal rng b column row = Some (rng', b', r) -> state b' <> MINES_STATE_LOST.
Proof.
  intros Hb Hr Hst E. pose proof (reveal_ok rng b column row Hb Hr) as H. rewrite E in H. by apply H.
Qed.

Lemma mines_first_click_safe_witness :
  exists rng' b', mines_board_reveal 7 (mines_board_reset blank 0) 4 4 = Some (rng', b', true) /\
                  state b' <> MINES_STATE_LOST.
Proof.
  destruct (mines_board_reveal 7 (mines_board_reset blank 0) 4 4) as [[[rng' b'] r]|] eqn:E.
  - assert (Hr : r = true) by (vm_compute in E; injection E as _ _ E; by symmetry).
    exists rng', b'. rewrite Hr in *. split; [reflexivity|].
    apply (mines_first_click_safe 7 (mines_board_reset blank 0) 4 4 rng' b' true);
      [apply reset_ok|unfold word32; lia|reflexivity|exact E].
  - vm_compute in E. discriminate.
Defined.

(** C39. The cascade opens exactly the cells reachable from the click through
    cells numbered zero and past no flag, changes nothing else, and counts
    them; it always ends, and its stack can only run out on a board of ninety
    cells or more. *)
Theorem mines_cascade_exact b start :
  shape b -> 0 <= start < ncells b -> hidden b start ->
  match mines_flood_reveal b start with
  | FloodDone b' =>
      opened b b' /\ forall i, newly b b' i = true <-> reach b start i
  | FloodOverflow => 90 <= ncells b
  | FloodFuel => False
  end.
Proof.
  intros Hs Hi Hh. pose proof (flood_reveal_spec b start Hs Hi Hh) as H.
  destruct (mines_flood_reveal b start); [done| |done].
  unfold MINES_MAX_CELLS, MINES_MAX_COLUMNS, MINES_MAX_ROWS in H. lia.
Qed.

Lemma mines_cascade_exact_witness :
  shape (mines_board_reset blank 0) /\
  match mines_flood_reveal (mines_board_reset blank 0) 40 with
  | FloodDone b' => opened (mines_board_reset blank 0) b' /\
      forall i, newly (mines_board_reset blank 0) b' i = true <-> reach (mines_board_reset blank 0) 40 i
  | FloodOverflow => 90 <= ncells (mines_board_reset blank 0)
  | FloodFuel => False
  end.
Proof.
  assert (Hs : shape (mines_board_reset blank 0)) by apply reset_ok.
  split; [exact Hs|]. apply (mines_cascade_exact (mines_board_reset blank 0) 40 Hs).
  - unfold ncells. simpl. lia.
  - split; reflexivity.
Defined.

(** Winning means everything: on a reachable board in state WON every cell
    without a mine is open, no mine is, every mine carries a flag and the
    counter of remaining mines shows zero; and while playing some cell without
    a mine is still closed. *)
Theorem mines_win_meaning b :
  board_ok b ->
  (state b = MINES_STATE_WON ->
   (forall i, 0 <= i < ncells b -> revealed (cell_at b i) = negb (mine (cell_at b i))) /\
   (forall i, 0 <= i < ncells b -> flagged (cell_at b i) = mine (cell_at b i)) /\
   mines_board_remaining_mines b = 0) /\
  (state b = MINES_STATE_PLAYING ->
   exists i, 0 <= i < ncells b /\ mine (cell_at b i) = false /\ revealed (cell_at b i) = false).
Proof.
  intros (Hs & Hmc & (C1 & C2 & C3) & Hst).
  assert (Hn : 0 <= ncells b) by (destruct Hs as (? & ? & _); unfold ncells; nia).
  split; intros E; rewrite E in Hst; pose proof Hst as ((_ & Hm) & Hno & Hrest).
  - destruct Hrest as [Hrc Hfl].
    assert (Hopen : forall i, 0 <= i < ncells b -> revealed (cell_at b i) = negb (mine (cell_at b i))).
    { intros i Hi. destruct (mine (cell_at b i)) eqn:Em; simpl.
      - destruct (revealed (cell_at b i)) eqn:Er; [|done]. specialize (Hno i Er). congruence.
      - pose proof (safe_cells b Hn) as Hsafe.
        rewrite (cnt_split _ (fun i => revealed (cell_at b i)) (ncells b)
          : cnt (fun i => negb (mine (cell_at b i))) _ = _) in Hsafe.
        rewrite (cnt_ext (fun i => negb (mine (cell_at b i)) && revealed (cell_at b i))
                   (fun i => revealed (cell_at b i) && negb (mine (cell_at b i)))) in Hsafe
          by (intros; apply andb_comm).
        assert (H0 : cnt (fun i => negb (mine (cell_at b i)) && negb (revealed (cell_at b i))) (ncells b) = 0) by lia.
        pose proof (cnt_zero_none _ _ H0 i Hi) as K. cbv beta in K. rewrite Em in K. by destruct (revealed (cell_at b i)). }
    assert (Hflag : forall i, 0 <= i < ncells b -> flagged (cell_at b i) = mine (cell_at b i)).
    { intros i Hi. destruct (mine (cell_at b i)) eqn:Em; [by apply Hfl|].
      apply C3. by rewrite (Hopen i Hi), Em. }
    split; [done|]. split; [done|]. unfold mines_board_remaining_mines.
    rewrite C1, (cnt_ext _ _ _ Hflag). lia.
  - destruct (decide (cnt (fun i => negb (mine (cell_at b i)) && negb (revealed (cell_at b i))) (ncells b) = 0)) as [H0|Hne].
    + exfalso. pose proof (safe_cells b Hn) as Hsafe. rewrite Hm in Hsafe.
      rewrite (cnt_ext (fun i => negb (mine (cell_at b i)))
                 (fun i => revealed (cell_at b i) && negb (mine (cell_at b i)))) in Hsafe; [lia|].
      intros i Hi. pose proof (cnt_zero_none _ _ H0 i Hi) as K. cbv beta in K.
      destruct (mine (cell_at b i)), (revealed (cell_at b i)); done.
    + destruct (cnt_witness _ _ Hne) as (i & Hi & Hp). exists i. split; [done|].
      by destruct (mine (cell_at b i)), (revealed (cell_at b i)).
Qed.

Lemma mines_win_meaning_witness :
  board_ok (mines_board_reset blank 1) /\
  (state (mines_board_reset blank 1) = MINES_STATE_PLAYING ->
   exists i, 0 <= i < ncells (mines_board_reset blank 1) /\
             mine (cell_at (mines_board_reset blank 1) i) = false /\
             revealed (cell_at (mines_board_reset blank 1) i) = false).
Proof.
  split; [apply reset_ok|]. exact (proj2 (mines_win_meaning (mines_board_reset blank 1) (reset_ok blank 1))).
Defined.

(** The rejection loop of [mines_random_below] ends after at most two draws
    for every bound the game uses, and its value is below the bound. *)
Theorem mines_random_below_ends bound st :
  word32 st -> 0 < bound <= MINES_MAX_CELLS ->
  exists v st', mines_random_below bound st = Some (v, st') /\ 0 <= v < bound /\ word32 st'.
Proof. apply random_below_total. Qed.

Lemma mines_random_below_ends_witness :
  exists v st', mines_random_below 479 0x1d872b41 = Some (v, st') /\ 0 <= v < 479 /\ word32 st'.
Proof.
  apply (mines_random_below_ends 479 0x1d872b41); [unfold word32; lia|].
  unfold MINES_MAX_CELLS, MINES_MAX_COLUMNS, MINES_MAX_ROWS. lia.
Defined.

(** An expert board with its 99 mines in the last rows. *)
Definition crowded : mines_board :=
  Eval vm_compute in
  with_state (mines_count_neighbours
    (for_z 381 480 (fun i b => upd_cell b i cell_mine) (mines_board_reset blank 2))) MINES_STATE_PLAYING.

Lemma all_cells (p : mines_cell -> bool) b :
  forallb p (cells b) = true -> p cell0 = true -> forall i, p (cell_at b i) = true.
Proof.
  intros H H0 i. unfold cell_at, at_. case_if; [done|]. rewrite forallb_forall in H.
  destruct (nth_in_or_default (Z.to_nat i) (cells b) cell0) as [K| ->]; [by apply H|done].
Qed.

Lemma crowded_ok : board_ok crowded.
Proof.
  assert (Hclosed : forall i, revealed (cell_at crowded i) = false).
  { intros i. apply negb_true_iff. revert i. by apply (all_cells (fun c => negb (revealed c))). }
  split; [by repeat split|]. split; [done|]. split; [split; [by vm_compute|split; [by vm_compute|]]|].
  { intros i Hi. by rewrite Hclosed in Hi. }
  split; [split|split; [|done]].
  - assert (H : forallb (fun k => neighbours (cell_at crowded (Z.of_nat k)) =?
                                  mines_near crowded (Z.of_nat k)) (seq 0 480) = true) by (by vm_compute).
    intros i Hi. rewrite forallb_forall in H. specialize (H (Z.to_nat i)). rewrite in_seq in H.
    rewrite Z2Nat.id in H by lia. change (ncells crowded) with 480 in Hi. specialize (H ltac:(lia)). lia.
  - by vm_compute.
  - intros i Hi. by rewrite Hclosed in Hi.
Qed.

(** The stack of the cascade is too small for an expert board: on a board
    that satisfies the invariant, with the ninety-nine mines in the last rows,
    a click in the corner pushes past [stack[MINES_MAX_CELLS]], because a cell
    is pushed once per open neighbour and not once. *)
Theorem mines_expert_stack_overflow :
  board_ok crowded /\ columns crowded = 30 /\ rows crowded = 16 /\ mine_count crowded = 99 /\
  mines_flood_reveal crowded 0 = FloodOverflow /\
  forall rng, mines_board_reveal rng crowded 0 0 = None.
Proof.
  split; [exact crowded_ok|]. split; [done|]. split; [done|]. split; [done|].
  split; [vm_cast_no_check (eq_refl FloodOverflow)|].
  intros rng. vm_cast_no_check (@eq_refl (option (Z * mines_board * bool)) None).
Qed.
