(* ===== verification/Bytes.v ===== *)
(** * Bytes and little-endian records

    On-disk records are byte lists.  [le n v] is the little-endian field of [n]
    bytes, [get n] reads one from the front of a buffer; a record is the
    concatenation of its fields, in order, as the packed C structs are.  A
    decoder undoes an encoder field by field with [get_le]. *)

From S2P Require Import Prelude.

Fixpoint le (n : nat) (v : Z) : list Z :=
  match n with
  | O => []
  | S n => v mod 256 :: le n (v / 256)
  end.
Fixpoint unle (l : list Z) : Z :=
  match l with
  | [] => 0
  | b :: t => b + 256 * unle t
  end.

Definition byte (b : Z) : Prop := 0 <= b < 256.
Definition bytes_ok (l : list Z) : Prop := Forall byte l.

Definition get (n : nat) (l : list Z) : Z * list Z := (unle (take n l), drop n l).
Definition get_bytes (n : nat) (l : list Z) : list Z * list Z := (take n l, drop n l).

Lemma le_length n v : length (le n v) = n.
Proof. revert v. induction n; intros v; simpl; auto. Qed.

Lemma le_bytes n v : bytes_ok (le n v).
Proof.
  revert v. induction n as [|n IH]; intros v; simpl; [constructor|].
  constructor; [apply Z.mod_pos_bound; lia|apply IH].
Qed.

Lemma unle_le n v : unle (le n v) = v mod 256 ^ Z.of_nat n.
Proof.
  revert v. induction n as [|n IH]; intros v.
  - simpl. by rewrite Z.mod_1_r.
  - cbn [le unle]. rewrite IH. rewrite Nat2Z.inj_succ, Z.pow_succ_r by lia.
    rewrite Z.rem_mul_r by (try lia; apply Z.pow_pos_nonneg; lia). lia.
Qed.

Lemma unle_range l : bytes_ok l -> 0 <= unle l < 256 ^ zlen l.
Proof.
  unfold zlen. induction 1 as [|b t Hb Ht IH]; [done|]. cbn [unle length].
  rewrite Nat2Z.inj_succ, Z.pow_succ_r by lia. unfold byte in Hb. nia.
Qed.

Lemma le_unle l : bytes_ok l -> le (length l) (unle l) = l.
Proof.
  induction 1 as [|b t Hb Ht IH]; [done|]. cbn [unle length le]. unfold byte in Hb.
  f_equal.
  - rewrite (Z.mul_comm 256), Z_mod_plus_full. apply Z.mod_small. lia.
  - rewrite (Z.mul_comm 256), Z.div_add, Z.div_small by lia. done.
Qed.

Lemma get_le n v rest : 0 <= v < 256 ^ Z.of_nat n -> get n (le n v ++ rest) = (v, rest).
Proof.
  intros H. unfold get. pose proof (le_length n v) as Hl.
  rewrite take_app_length', drop_app_length' by done. rewrite unle_le, Z.mod_small by done. done.
Qed.

Lemma get_bytes_app n l rest : length l = n -> get_bytes n (l ++ rest) = (l, rest).
Proof. intros H. unfold get_bytes. by rewrite take_app_length', drop_app_length'. Qed.

Lemma get_bytes_all n l : length l = n -> get_bytes n l = (l, []).
Proof. intros H. unfold get_bytes. rewrite take_ge, drop_ge by lia. done. Qed.

Lemma bytes_ok_app l k : bytes_ok (l ++ k) <-> bytes_ok l /\ bytes_ok k.
Proof. apply Forall_app. Qed.
Lemma bytes_ok_replicate n b : byte b -> bytes_ok (replicate n b).
Proof. intros H. by apply Forall_replicate. Qed.
Lemma bytes_ok_take n l : bytes_ok l -> bytes_ok (take n l).
Proof. apply Forall_take. Qed.
Lemma bytes_ok_drop n l : bytes_ok l -> bytes_ok (drop n l).
Proof. apply Forall_drop. Qed.

Lemma bytes_at l i : bytes_ok l -> byte (at_ 0 l i).
Proof.
  intros H. unfold at_, byte. case_if; [lia|]. destruct (nth_in_or_default (Z.to_nat i) l 0) as [K| ->]; [|lia].
  unfold bytes_ok in H. rewrite List.Forall_forall in H. by apply H.
Qed.

Lemma bytes_set_at l i b : bytes_ok l -> byte b -> bytes_ok (set_at l i b).
Proof. intros Hl Hb. unfold set_at. case_if; [done|]. by apply Forall_insert. Qed.

Create HintDb bytes.
#[export] Hint Resolve le_bytes bytes_ok_take bytes_ok_drop : bytes.

(** Splitting a buffer into records of [n] bytes: the first [k] of them. *)
Fixpoint chunks (n k : nat) (l : list Z) : list (list Z) :=
  match k with
  | O => []
  | S k => take n l :: chunks n k (drop n l)
  end.

Lemma chunks_concat n (ls : list (list Z)) rest :
  Forall (fun l => length l = n) ls -> chunks n (length ls) (concat ls ++ rest) = ls.
Proof.
  induction 1 as [|l ls Hl Hls IH]; [done|]. cbn [length chunks concat].
  rewrite <- app_assoc, take_app_length', drop_app_length' by done. by rewrite IH.
Qed.

Lemma chunks_length n k l : length (chunks n k l) = k.
Proof. revert l. induction k; intros l; simpl; auto. Qed.

Lemma concat_length n (ls : list (list Z)) :
  Forall (fun l => length l = n) ls -> length (concat ls) = (n * length ls)%nat.
Proof. induction 1 as [|l ls Hl Hls IH]; simpl; [lia|]. rewrite length_app. lia. Qed.
