(* ===== verification/SxfsFormat.v ===== *)
(** * The SxFS on-disk format (include/sxfs/sxfs_format.h, sxfs_ownership.h)

    Geometry, the on-disk records with their byte encodings, the bitmap and
    checksum primitives, path validation, the validity tests, first-fit search
    and the default ownership table.  [char] strings are byte lists without the
    terminating NUL. *)

From S2P Require Import Prelude Bytes.

(** ** Geometry *)

Definition SXFS_SECTOR_SIZE : Z := 512.
Definition SXFS_VERSION : Z := 2.
Definition SXFS_FLAG_CLEAN : Z := 1.
Definition SXFS_FEATURE_OWNERSHIP : Z := 1.
Definition SXFS_INODE_UNUSED : Z := 0.
Definition SXFS_INODE_FILE : Z := 1.
Definition SXFS_INODE_DIRECTORY : Z := 2.
Definition SXFS_INODE_SIZE : Z := 128.
Definition SXFS_DIR_ENTRY_SIZE : Z := 80.
Definition SXFS_MAX_EXTENTS : Z := 8.
Definition SXFS_INODE_NAME_CAPACITY : Z := 64.
Definition SXFS_PRIMARY_SB_LBA : Z := 0.
Definition SXFS_SECONDARY_SB_LBA : Z := 1.
Definition SXFS_JOURNAL_LBA : Z := 2.
Definition SXFS_BLOCK_BITMAP_SECTORS : Z := 512.
Definition SXFS_INODE_BITMAP_SECTORS : Z := 1.
Definition SXFS_INODE_TABLE_SECTORS : Z := 1024.
Definition SXFS_MAX_TOTAL_SECTORS : Z := SXFS_BLOCK_BITMAP_SECTORS * SXFS_SECTOR_SIZE * 8.
Definition SXFS_JOURNAL_METADATA_SECTORS : Z :=
  SXFS_BLOCK_BITMAP_SECTORS + SXFS_INODE_BITMAP_SECTORS + SXFS_INODE_TABLE_SECTORS.
Definition SXFS_JOURNAL_SECTORS : Z := 1 + SXFS_JOURNAL_METADATA_SECTORS.
Definition SXFS_JOURNAL_MAP_BYTES : Z := (SXFS_JOURNAL_METADATA_SECTORS + 31) / 32 * 4.
Definition SXFS_JOURNAL_KIND_FULL : Z := 0.
Definition SXFS_JOURNAL_KIND_SPARSE : Z := 1.
Definition SXFS_BLOCK_BITMAP_LBA : Z := SXFS_JOURNAL_LBA + SXFS_JOURNAL_SECTORS.
Definition SXFS_INODE_BITMAP_LBA : Z := SXFS_BLOCK_BITMAP_LBA + SXFS_BLOCK_BITMAP_SECTORS.
Definition SXFS_INODE_TABLE_LBA : Z := SXFS_INODE_BITMAP_LBA + SXFS_INODE_BITMAP_SECTORS.
Definition SXFS_DATA_LBA : Z := SXFS_INODE_TABLE_LBA + SXFS_INODE_TABLE_SECTORS.
Definition SXFS_MAX_INODES : Z := 4096.
Definition SXFS_MAX_RECORDS : Z := SXFS_MAX_INODES - 1.
Definition SXFS_MAX_RELATIVE_PATH : Z := 255.
Definition SXFS_MAX_NAME_LENGTH : Z := SXFS_INODE_NAME_CAPACITY - 1.
Definition SXFS_ROOT_INODE : Z := 1.
Definition SXFS_CHECKSUM_BASIS : Z := 2166136261.
Definition SXFS_CHECKSUM_PRIME : Z := 16777619.

Definition sxfs_superblock_magic : list Z := [83; 88; 70; 83; 0; 0; 0; 0].
Definition sxfs_journal_magic : list Z := [83; 88; 74; 78; 76; 0; 0; 0].

(** ** Records *)

Record sxfs_extent := mk_extent { start_lba : Z; sector_count : Z }.

Record sxfs_inode := mk_inode {
  in_inode_id : Z; in_type : Z; in_mode : Z; in_size : Z; in_link_count : Z;
  in_extent_count : Z; in_extents : list sxfs_extent; in_uid : Z; in_gid : Z;
  in_reserved1 : Z; in_mtime : Z; in_reserved : list Z }.

Record sxfs_superblock := mk_superblock {
  sb_magic : list Z; sb_version : Z; sb_checksum : Z; sb_sequence : Z; sb_flags : Z;
  sb_total_sectors : Z; sb_journal_lba : Z; sb_journal_sectors : Z;
  sb_block_bitmap_lba : Z; sb_block_bitmap_sectors : Z;
  sb_inode_bitmap_lba : Z; sb_inode_bitmap_sectors : Z;
  sb_inode_table_lba : Z; sb_inode_table_sectors : Z;
  sb_data_lba : Z; sb_max_inodes : Z; sb_root_inode : Z; sb_features : Z;
  sb_reserved : list Z }.

Record sxfs_journal_header := mk_journal {
  jh_magic : list Z; jh_checksum : Z; jh_sequence : Z; jh_pending : Z;
  jh_metadata_sectors : Z; jh_kind : Z; jh_sector_map : list Z; jh_reserved : list Z }.

Record sxfs_dir_entry := mk_dir_entry {
  de_inode_id : Z; de_type : Z; de_name_length : Z; de_name : list Z; de_reserved : list Z }.

#[export] Instance sxfs_extent_eq_dec : EqDecision sxfs_extent.
Proof. solve_decision. Defined.
#[export] Instance sxfs_inode_eq_dec : EqDecision sxfs_inode.
Proof. solve_decision. Defined.
#[export] Instance sxfs_dir_entry_eq_dec : EqDecision sxfs_dir_entry.
Proof. solve_decision. Defined.

(** ** Byte images of the records *)

Definition enc_extent (e : sxfs_extent) : list Z := le 4 (start_lba e) ++ le 4 (sector_count e).
Fixpoint enc_extents (es : list sxfs_extent) : list Z :=
  match es with
  | [] => []
  | e :: t => enc_extent e ++ enc_extents t
  end.

Definition enc_inode (i : sxfs_inode) : list Z :=
  le 4 (in_inode_id i) ++ le 2 (in_type i) ++ le 2 (in_mode i) ++ le 4 (in_size i) ++
  le 4 (in_link_count i) ++ le 4 (in_extent_count i) ++ enc_extents (in_extents i) ++
  le 4 (in_uid i) ++ le 4 (in_gid i) ++ le 4 (in_reserved1 i) ++ le 8 (in_mtime i) ++
  in_reserved i.

Definition enc_superblock (s : sxfs_superblock) : list Z :=
  sb_magic s ++ le 4 (sb_version s) ++ le 4 (sb_checksum s) ++ le 4 (sb_sequence s) ++
  le 4 (sb_flags s) ++ le 4 (sb_total_sectors s) ++ le 4 (sb_journal_lba s) ++
  le 4 (sb_journal_sectors s) ++ le 4 (sb_block_bitmap_lba s) ++
  le 4 (sb_block_bitmap_sectors s) ++ le 4 (sb_inode_bitmap_lba s) ++
  le 4 (sb_inode_bitmap_sectors s) ++ le 4 (sb_inode_table_lba s) ++
  le 4 (sb_inode_table_sectors s) ++ le 4 (sb_data_lba s) ++ le 4 (sb_max_inodes s) ++
  le 4 (sb_root_inode s) ++ le 4 (sb_features s) ++ sb_reserved s.

Definition enc_journal (j : sxfs_journal_header) : list Z :=
  jh_magic j ++ le 4 (jh_checksum j) ++ le 4 (jh_sequence j) ++ le 4 (jh_pending j) ++
  le 4 (jh_metadata_sectors j) ++ le 4 (jh_kind j) ++ jh_sector_map j ++ jh_reserved j.

Definition enc_dir_entry (e : sxfs_dir_entry) : list Z :=
  le 4 (de_inode_id e) ++ le 2 (de_type e) ++ le 2 (de_name_length e) ++ de_name e ++ de_reserved e.

Fixpoint dec_extents (k : nat) (l : list Z) : list sxfs_extent * list Z :=
  match k with
  | O => ([], l)
  | S k =>
      let '(a, l) := get 4 l in
      let '(n, l) := get 4 l in
      let '(es, l) := dec_extents k l in (mk_extent a n :: es, l)
  end.

Definition dec_inode (l : list Z) : sxfs_inode :=
  let '(id, l) := get 4 l in
  let '(ty, l) := get 2 l in
  let '(mode, l) := get 2 l in
  let '(size, l) := get 4 l in
  let '(links, l) := get 4 l in
  let '(ec, l) := get 4 l in
  let '(es, l) := dec_extents 8 l in
  let '(uid, l) := get 4 l in
  let '(gid, l) := get 4 l in
  let '(r1, l) := get 4 l in
  let '(mtime, l) := get 8 l in
  mk_inode id ty mode size links ec es uid gid r1 mtime (take 24 l).

Definition dec_superblock (l : list Z) : sxfs_superblock :=
  let '(magic, l) := get_bytes 8 l in
  let '(version, l) := get 4 l in
  let '(checksum, l) := get 4 l in
  let '(sequence, l) := get 4 l in
  let '(flags, l) := get 4 l in
  let '(total, l) := get 4 l in
  let '(jlba, l) := get 4 l in
  let '(jsec, l) := get 4 l in
  let '(blba, l) := get 4 l in
  let '(bsec, l) := get 4 l in
  let '(ilba, l) := get 4 l in
  let '(isec, l) := get 4 l in
  let '(tlba, l) := get 4 l in
  let '(tsec, l) := get 4 l in
  let '(data, l) := get 4 l in
  let '(maxi, l) := get 4 l in
  let '(root, l) := get 4 l in
  let '(features, l) := get 4 l in
  mk_superblock magic version checksum sequence flags total jlba jsec blba bsec ilba isec
                tlba tsec data maxi root features (take 436 l).

Definition dec_journal (l : list Z) : sxfs_journal_header :=
  let '(magic, l) := get_bytes 8 l in
  let '(checksum, l) := get 4 l in
  let '(sequence, l) := get 4 l in
  let '(pending, l) := get 4 l in
  let '(msec, l) := get 4 l in
  let '(kind, l) := get 4 l in
  let '(map, l) := get_bytes (Z.to_nat SXFS_JOURNAL_MAP_BYTES) l in
  mk_journal magic checksum sequence pending msec kind map
             (take (Z.to_nat (SXFS_SECTOR_SIZE - 28 - SXFS_JOURNAL_MAP_BYTES)) l).

Definition dec_dir_entry (l : list Z) : sxfs_dir_entry :=
  let '(id, l) := get 4 l in
  let '(ty, l) := get 2 l in
  let '(nl, l) := get 2 l in
  let '(name, l) := get_bytes 64 l in
  mk_dir_entry id ty nl name (take 8 l).

(** ** Primitives *)

Definition sxfs_checksum (data : list Z) : Z :=
  fold_left (fun value b => u32 (Z.lxor value b * SXFS_CHECKSUM_PRIME)) data SXFS_CHECKSUM_BASIS.

Definition sxfs_bitmap_test (bitmap : list Z) (bit : Z) : bool :=
  let byte := bit / 8 in
  let shift := bit mod 8 in
  negb (Z.land (at_ 0 bitmap byte) (u8 (Z.shiftl 1 shift)) =? 0).

Definition sxfs_bitmap_set (bitmap : list Z) (bit : Z) (value : bool) : list Z :=
  let byte := bit / 8 in
  let shift := bit mod 8 in
  let mask := u8 (Z.shiftl 1 shift) in
  if value then set_at bitmap byte (Z.lor (at_ 0 bitmap byte) mask)
  else set_at bitmap byte (Z.land (at_ 0 bitmap byte) (u8 (Z.lnot mask))).

Definition SLASH : Z := 47.
Definition DOT : Z := 46.

(** The loop of [sxfs_path_valid]: [rest] starts at [cursor], and [path] is read
    again at [length - component_length], as in the source. *)
Fixpoint path_loop (path rest : list Z) (length component_length : Z) : bool :=
  let bad_component :=
    (component_length =? 0) || (component_length >? SXFS_MAX_NAME_LENGTH) ||
    (length >? SXFS_MAX_RELATIVE_PATH) ||
    ((component_length =? 1) && (at_ 0 path (length - component_length) =? DOT)) ||
    ((component_length =? 2) && (at_ 0 path (length - component_length) =? DOT) &&
     (at_ 0 path (length - component_length + 1) =? DOT)) in
  match rest with
  | [] => if bad_component then false else length <=? SXFS_MAX_RELATIVE_PATH
  | value :: rest' =>
      if value =? SLASH then
        if bad_component then false else path_loop path rest' length 0
      else if (value <? 0x20) || (value =? 0x7f) || (component_length >=? SXFS_MAX_NAME_LENGTH)
      then false
      else path_loop path rest' (length + 1) (component_length + 1)
  end.
Definition sxfs_path_valid (path : list Z) : bool :=
  match path with
  | [] => false
  | c :: _ => if c =? SLASH then false else path_loop path path 0 0
  end.

Definition sxfs_magic_equals (a b : list Z) : bool :=
  forallb (fun i => at_ 0 a (Z.of_nat i) =? at_ 0 b (Z.of_nat i)) (seq 0 8).

Definition sb_with_checksum (s : sxfs_superblock) (c : Z) : sxfs_superblock :=
  mk_superblock (sb_magic s) (sb_version s) c (sb_sequence s) (sb_flags s) (sb_total_sectors s)
    (sb_journal_lba s) (sb_journal_sectors s) (sb_block_bitmap_lba s) (sb_block_bitmap_sectors s)
    (sb_inode_bitmap_lba s) (sb_inode_bitmap_sectors s) (sb_inode_table_lba s)
    (sb_inode_table_sectors s) (sb_data_lba s) (sb_max_inodes s) (sb_root_inode s)
    (sb_features s) (sb_reserved s).
Definition jh_with_checksum (j : sxfs_journal_header) (c : Z) : sxfs_journal_header :=
  mk_journal (jh_magic j) c (jh_sequence j) (jh_pending j) (jh_metadata_sectors j) (jh_kind j)
             (jh_sector_map j) (jh_reserved j).

Definition sxfs_superblock_checksum (s : sxfs_superblock) : Z :=
  sxfs_checksum (enc_superblock (sb_with_checksum s 0)).
Definition sxfs_journal_checksum (j : sxfs_journal_header) : Z :=
  sxfs_checksum (enc_journal (jh_with_checksum j 0)).

Definition sxfs_superblock_valid (s : sxfs_superblock) : bool :=
  sxfs_magic_equals (sb_magic s) sxfs_superblock_magic &&
  (sb_version s =? SXFS_VERSION) &&
  (sb_journal_lba s =? SXFS_JOURNAL_LBA) &&
  (sb_journal_sectors s =? SXFS_JOURNAL_SECTORS) &&
  (sb_block_bitmap_lba s =? SXFS_BLOCK_BITMAP_LBA) &&
  (sb_block_bitmap_sectors s =? SXFS_BLOCK_BITMAP_SECTORS) &&
  (sb_inode_bitmap_lba s =? SXFS_INODE_BITMAP_LBA) &&
  (sb_inode_bitmap_sectors s =? SXFS_INODE_BITMAP_SECTORS) &&
  (sb_inode_table_lba s =? SXFS_INODE_TABLE_LBA) &&
  (sb_inode_table_sectors s =? SXFS_INODE_TABLE_SECTORS) &&
  (sb_data_lba s =? SXFS_DATA_LBA) &&
  (sb_max_inodes s =? SXFS_MAX_INODES) &&
  (sb_root_inode s =? SXFS_ROOT_INODE) &&
  (sb_total_sectors s >? sb_data_lba s) &&
  (sb_total_sectors s <=? SXFS_MAX_TOTAL_SECTORS) &&
  (sb_checksum s =? sxfs_superblock_checksum s).

Definition sxfs_journal_valid (j : sxfs_journal_header) : bool :=
  sxfs_magic_equals (jh_magic j) sxfs_journal_magic &&
  (jh_checksum j =? sxfs_journal_checksum j) &&
  (jh_metadata_sectors j =? SXFS_JOURNAL_METADATA_SECTORS) &&
  ((jh_kind j =? SXFS_JOURNAL_KIND_FULL) || (jh_kind j =? SXFS_JOURNAL_KIND_SPARSE)).

(** The extents a loop [e < extent_count && e < SXFS_MAX_EXTENTS] visits. *)
Definition live_extents (i : sxfs_inode) : list sxfs_extent :=
  take (Z.to_nat (Z.min (in_extent_count i) SXFS_MAX_EXTENTS)) (in_extents i).

Definition sxfs_inode_capacity_sectors (i : sxfs_inode) : Z :=
  fold_left (fun sectors e => u32 (sectors + sector_count e)) (live_extents i) 0.

(** The loop of [sxfs_find_free_run]: [n] sectors from [sector] are left. *)
Fixpoint free_run_loop (n : nat) (bm : list Z) (sector required run_start run_length : Z) : Z :=
  match n with
  | O => 0
  | S n =>
      if negb (sxfs_bitmap_test bm sector) then
        let run_start := if run_length =? 0 then sector else run_start in
        let run_length := run_length + 1 in
        if run_length >=? required then run_start
        else free_run_loop n bm (sector + 1) required run_start run_length
      else free_run_loop n bm (sector + 1) required run_start 0
  end.
Definition sxfs_find_free_run (bm : list Z) (data_lba total_sectors required : Z) : Z :=
  free_run_loop (Z.to_nat (total_sectors - data_lba)) bm data_lba required 0 0.

(** ** Ownership (sxfs_ownership.h) *)

Definition SXFS_UID_SYSTEM : Z := 0.
Definition SXFS_GID_SYSTEM : Z := 0.
Definition SXFS_UID_USER : Z := 1000.
Definition SXFS_GID_USERS : Z := 100.
Definition SXFS_MODE_TYPE_MASK : Z := 61440.   (* 0170000 *)
Definition SXFS_MODE_DIRECTORY : Z := 16384.   (* 0040000 *)
Definition SXFS_MODE_FILE : Z := 32768.        (* 0100000 *)
Definition SXFS_MODE_STICKY : Z := 512.        (* 01000 *)

Definition sxfs_mode_type_bits (type : Z) : Z :=
  if type =? SXFS_INODE_DIRECTORY then SXFS_MODE_DIRECTORY else SXFS_MODE_FILE.
Definition sxfs_mode_matches_type (mode type : Z) : bool :=
  Z.land mode SXFS_MODE_TYPE_MASK =? sxfs_mode_type_bits type.

Fixpoint sxfs_ownership_path_under (path top : list Z) : bool :=
  match top with
  | [] => match path with [] => true | c :: _ => c =? SLASH end
  | t :: top' =>
      match path with
      | [] => false
      | c :: path' => if negb (c =? t) then false else sxfs_ownership_path_under path' top'
      end
  end.

Definition s_users : list Z := [117; 115; 101; 114; 115].
Definition s_tmp : list Z := [116; 109; 112].
Definition s_bin : list Z := [98; 105; 110].
Definition s_lib : list Z := [108; 105; 98].

(** uid, gid and mode. *)
Definition sxfs_default_ownership (path : list Z) (type : Z) : Z * Z * Z :=
  let directory := type =? SXFS_INODE_DIRECTORY in
  let permissions := if directory then 493 else 420 in   (* 0755 : 0644 *)
  let '(uid, gid, permissions) :=
    if sxfs_ownership_path_under path s_users &&
       (at_ 0 path 5 =? SLASH) && negb (at_ 0 path 6 =? 0)
    then (SXFS_UID_USER, SXFS_GID_USERS, if directory then 448 else 384)  (* 0700 : 0600 *)
    else if (at_ 0 path 0 =? 116) && (at_ 0 path 1 =? 109) && (at_ 0 path 2 =? 112) &&
            (at_ 0 path 3 =? 0) && directory
    then (SXFS_UID_SYSTEM, SXFS_GID_SYSTEM, Z.lor SXFS_MODE_STICKY 511)   (* 0777 *)
    else if sxfs_ownership_path_under path s_bin || sxfs_ownership_path_under path s_lib
    then (SXFS_UID_SYSTEM, SXFS_GID_SYSTEM, 493)
    else (SXFS_UID_SYSTEM, SXFS_GID_SYSTEM, permissions) in
  (uid, gid, u16 (Z.lor (sxfs_mode_type_bits type) permissions)).
