(* ===== verification/SxfsFormatFacts.v ===== *)
(** * The SxFS on-disk format: laws

    Records survive encoding and decoding, the bitmap behaves as an array of
    bits, first-fit finds the first fitting run, and what path validation does
    and does not exclude. *)

From S2P Require Import Prelude Bytes SxfsFormat.

(** ** Record round trips *)

Definition word (n : nat) (v : Z) : Prop := 0 <= v < 256 ^ Z.of_nat n.

Definition extent_wf (e : sxfs_extent) : Prop := word 4 (start_lba e) /\ word 4 (sector_count e).

Definition inode_wf (i : sxfs_inode) : Prop :=
  word 4 (in_inode_id i) /\ word 2 (in_type i) /\ word 2 (in_mode i) /\ word 4 (in_size i) /\
  word 4 (in_link_count i) /\ word 4 (in_extent_count i) /\
  length (in_extents i) = 8%nat /\ Forall extent_wf (in_extents i) /\
  word 4 (in_uid i) /\ word 4 (in_gid i) /\ word 4 (in_reserved1 i) /\ word 8 (in_mtime i) /\
  length (in_reserved i) = 24%nat /\ bytes_ok (in_reserved i).

Definition superblock_wf (s : sxfs_superblock) : Prop :=
  length (sb_magic s) = 8%nat /\ bytes_ok (sb_magic s) /\
  word 4 (sb_version s) /\ word 4 (sb_checksum s) /\ word 4 (sb_sequence s) /\
  word 4 (sb_flags s) /\ word 4 (sb_total_sectors s) /\ word 4 (sb_journal_lba s) /\
  word 4 (sb_journal_sectors s) /\ word 4 (sb_block_bitmap_lba s) /\
  word 4 (sb_block_bitmap_sectors s) /\ word 4 (sb_inode_bitmap_lba s) /\
  word 4 (sb_inode_bitmap_sectors s) /\ word 4 (sb_inode_table_lba s) /\
  word 4 (sb_inode_table_sectors s) /\ word 4 (sb_data_lba s) /\ word 4 (sb_max_inodes s) /\
  word 4 (sb_root_inode s) /\ word 4 (sb_features s) /\
  length (sb_reserved s) = 436%nat /\ bytes_ok (sb_reserved s).

Definition dir_entry_wf (e : sxfs_dir_entry) : Prop :=
  word 4 (de_inode_id e) /\ word 2 (de_type e) /\ word 2 (de_name_length e) /\
  length (de_name e) = 64%nat /\ bytes_ok (de_name e) /\
  length (de_reserved e) = 8%nat /\ bytes_ok (de_reserved e).

(** Reads the fields back one after the other. *)
Ltac decode_fields :=
  repeat first [ rewrite get_le by done | rewrite get_bytes_app by done ].

Lemma dec_enc_extents n es rest :
  length es = n -> Forall extent_wf es -> dec_extents n (enc_extents es ++ rest) = (es, rest).
Proof.
  intros <-. induction 1 as [|e es [H1 H2] Hes IH]; [done|]. cbn [length dec_extents enc_extents].
  unfold enc_extent. rewrite <- !app_assoc. decode_fields. rewrite IH. by destruct e.
Qed.

Lemma dec_enc_inode i : inode_wf i -> dec_inode (enc_inode i) = i.
Proof.
  intros (H1 & H2 & H3 & H4 & H5 & H6 & H7 & H8 & H9 & H10 & H11 & H12 & H13 & H14).
  unfold dec_inode, enc_inode. decode_fields. rewrite dec_enc_extents by done.
  decode_fields. rewrite take_ge by lia. by destruct i.
Qed.

Lemma dec_enc_superblock s : superblock_wf s -> dec_superblock (enc_superblock s) = s.
Proof.
  intros (H1 & H2 & H3 & H4 & H5 & H6 & H7 & H8 & H9 & H10 & H11 & H12 & H13 & H14 & H15 & H16 &
          H17 & H18 & H19 & H20 & H21).
  unfold dec_superblock, enc_superblock. decode_fields. rewrite take_ge by lia. by destruct s.
Qed.

Lemma dec_enc_dir_entry e : dir_entry_wf e -> dec_dir_entry (enc_dir_entry e) = e.
Proof.
  intros (H1 & H2 & H3 & H4 & H5 & H6 & H7).
  unfold dec_dir_entry, enc_dir_entry. decode_fields. rewrite take_ge by lia. by destruct e.
Qed.

(** Record sizes (the SXFS_STATIC_ASSERTs). *)
Lemma enc_extents_length es : length (enc_extents es) = (8 * length es)%nat.
Proof.
  induction es as [|e es IH]; [done|]. cbn [enc_extents length]. rewrite length_app, IH. unfold enc_extent.
  rewrite length_app, !le_length. lia.
Qed.
Lemma enc_inode_length i : inode_wf i -> length (enc_inode i) = 128%nat.
Proof.
  intros (_ & _ & _ & _ & _ & _ & H7 & _ & _ & _ & _ & _ & H13 & _). unfold enc_inode.
  rewrite !length_app, !le_length, enc_extents_length, H7, H13. done.
Qed.
Lemma enc_superblock_length s : superblock_wf s -> length (enc_superblock s) = 512%nat.
Proof.
  intros (H1 & _ & _ & _ & _ & _ & _ & _ & _ & _ & _ & _ & _ & _ & _ & _ & _ & _ & _ & H20 & _).
  unfold enc_superblock. rewrite !length_app, !le_length, H1, H20. done.
Qed.
Lemma enc_dir_entry_length e : dir_entry_wf e -> length (enc_dir_entry e) = 80%nat.
Proof.
  intros (_ & _ & _ & H4 & _ & H6 & _). unfold enc_dir_entry.
  by rewrite !length_app, !le_length, H4, H6.
Qed.

(** ** Bitmaps *)

Lemma mask_bit shift i : 0 <= shift < 8 -> 0 <= i ->
  Z.testbit (u8 (Z.shiftl 1 shift)) i = (i =? shift).
Proof.
  intros Hs Hi. unfold u8. change 256 with (2 ^ 8). rewrite Z.shiftl_1_l.
  destruct (Z_lt_le_dec i 8).
  - rewrite Z.mod_pow2_bits_low by lia. rewrite Z.pow2_bits_eqb by lia. lia.
  - rewrite Z.mod_pow2_bits_high by lia. lia.
Qed.

Lemma test_is_bit bm bit :
  0 <= bit -> sxfs_bitmap_test bm bit = Z.testbit (at_ 0 bm (bit / 8)) (bit mod 8).
Proof.
  intros Hb. unfold sxfs_bitmap_test. pose proof (Z.mod_pos_bound bit 8 ltac:(lia)) as Hm.
  set (x := at_ 0 bm (bit / 8)). set (s := bit mod 8) in *.
  assert (E : forall i, 0 <= i -> Z.testbit (Z.land x (u8 (Z.shiftl 1 s))) i = Z.testbit x i && (i =? s))
    by (intros i Hi; by rewrite Z.land_spec, mask_bit).
  destruct (Z.land x _ =? 0) eqn:Ez; simpl.
  - specialize (E s ltac:(lia)). replace (Z.land x (u8 (Z.shiftl 1 s))) with 0 in E by lia.
    rewrite Z.testbit_0_l, Z.eqb_refl, andb_true_r in E. done.
  - destruct (Z.testbit x s) eqn:Et; [done|]. exfalso.
    assert (Z.land x (u8 (Z.shiftl 1 s)) = 0); [|lia]. apply Z.bits_inj'. intros i Hi.
    rewrite E, Z.testbit_0_l by done. destruct (i =? s) eqn:Ei; [|by rewrite andb_false_r].
    by replace i with s by lia; rewrite Et.
Qed.

Lemma set_byte_bits x s (v : bool) i :
  byte x -> 0 <= s < 8 -> 0 <= i < 8 ->
  Z.testbit (if v then Z.lor x (u8 (Z.shiftl 1 s))
             else Z.land x (u8 (Z.lnot (u8 (Z.shiftl 1 s))))) i =
  if i =? s then v else Z.testbit x i.
Proof.
  intros Hx Hs Hi. destruct v.
  - rewrite Z.lor_spec, mask_bit by lia. destruct (i =? s); [apply orb_true_r|apply orb_false_r].
  - rewrite Z.land_spec. unfold u8 at 1. change 256 with (2 ^ 8).
    rewrite Z.mod_pow2_bits_low, Z.lnot_spec, mask_bit by lia.
    destruct (i =? s); [apply andb_false_r|apply andb_true_r].
Qed.

Lemma byte_bits_high x i : byte x -> 8 <= i -> Z.testbit x i = false.
Proof.
  unfold byte. intros Hx Hi. destruct (Z.eq_dec x 0) as [->|Hne]; [by rewrite Z.testbit_0_l|].
  apply Z.bits_above_log2; [lia|]. assert (Z.log2 x < 8) by (apply Z.log2_lt_pow2; lia). lia.
Qed.

Lemma byte_of_bits x : 0 <= x -> (forall i, 8 <= i -> Z.testbit x i = false) -> byte x.
Proof.
  intros Hx H. split; [done|].
  assert (E : x mod 2 ^ 8 = x).
  { apply Z.bits_inj'. intros i Hi. destruct (Z_lt_le_dec i 8).
    - by rewrite Z.mod_pow2_bits_low.
    - by rewrite Z.mod_pow2_bits_high, H. }
  rewrite <- E. apply Z.mod_pos_bound. lia.
Qed.

Lemma bitmap_set_bytes bm bit v :
  bytes_ok bm -> bytes_ok (sxfs_bitmap_set bm bit v).
Proof.
  intros H. pose proof (bytes_at bm (bit / 8) H) as Hx. unfold sxfs_bitmap_set.
  pose proof (u8_range (Z.shiftl 1 (bit mod 8))) as Hm.
  pose proof (u8_range (Z.lnot (u8 (Z.shiftl 1 (bit mod 8))))) as Hn.
  destruct v; apply bytes_set_at; try done; apply byte_of_bits.
  - apply Z.lor_nonneg. unfold byte in Hx. lia.
  - intros i Hi. rewrite Z.lor_spec, !byte_bits_high; done.
  - apply Z.land_nonneg. unfold byte in Hx. lia.
  - intros i Hi. rewrite Z.land_spec, byte_bits_high; done.
Qed.

Lemma bitmap_set_length bm bit v : length (sxfs_bitmap_set bm bit v) = length bm.
Proof. unfold sxfs_bitmap_set. destruct v; apply length_set_at. Qed.

(** A bitmap is an array of bits. *)
Lemma bitmap_test_set bm bit v bit' :
  bytes_ok bm -> 0 <= bit < 8 * zlen bm -> 0 <= bit' ->
  sxfs_bitmap_test (sxfs_bitmap_set bm bit v) bit' =
  if bit =? bit' then v else sxfs_bitmap_test bm bit'.
Proof.
  intros Hb Hr Hr'. rewrite !test_is_bit by done. pose proof (bytes_at bm (bit / 8) Hb) as Hx.
  pose proof (Z.mod_pos_bound bit 8 ltac:(lia)). pose proof (Z.mod_pos_bound bit' 8 ltac:(lia)).
  assert (Hin : 0 <= bit / 8 < zlen bm) by (split; [apply Z.div_pos; lia|apply Z.div_lt_upper_bound; lia]).
  assert (Hat : at_ 0 (sxfs_bitmap_set bm bit v) (bit' / 8) =
    if bit / 8 =? bit' / 8
    then (if v then Z.lor (at_ 0 bm (bit / 8)) (u8 (Z.shiftl 1 (bit mod 8)))
          else Z.land (at_ 0 bm (bit / 8)) (u8 (Z.lnot (u8 (Z.shiftl 1 (bit mod 8))))))
    else at_ 0 bm (bit' / 8)) by (unfold sxfs_bitmap_set; destruct v; by rewrite at_set_at).
  rewrite Hat. pose proof (Z.div_mod bit 8 ltac:(lia)). pose proof (Z.div_mod bit' 8 ltac:(lia)).
  destruct (bit / 8 =? bit' / 8) eqn:E.
  - rewrite set_byte_bits by done. replace (bit' / 8) with (bit / 8) by lia.
    destruct (bit' mod 8 =? bit mod 8) eqn:E'; destruct (bit =? bit') eqn:Ee; try lia; done.
  - destruct (bit =? bit') eqn:Ee; [|done]. assert (bit = bit') by lia. subst. lia.
Qed.

(** ** First fit *)

(** [n] free sectors from [s]. *)
Definition free_run (bm : list Z) (s n : Z) : Prop :=
  forall k, s <= k < s + n -> sxfs_bitmap_test bm k = false.

(** The state of the search before [sector]: the free run it is in. *)
Lemma free_run_loop_spec n bm required lo : forall sector run_start run_length,
  0 < required -> 0 < lo <= sector -> 0 <= run_length < required ->
  (run_length = 0 \/ (lo <= run_start /\ run_start + run_length = sector /\ free_run bm run_start run_length)) ->
  (forall s, lo <= s -> s + required <= sector -> ~ free_run bm s required) ->
  (run_length = 0 -> sector = lo \/ sxfs_bitmap_test bm (sector - 1) = true) ->
  (0 < run_length -> run_start = lo \/ sxfs_bitmap_test bm (run_start - 1) = true) ->
  let r := free_run_loop n bm sector required run_start run_length in
  (r = 0 /\ forall s, lo <= s -> s + required <= sector + Z.of_nat n -> ~ free_run bm s required) \/
  (lo <= r /\ r + required <= sector + Z.of_nat n /\ free_run bm r required /\
   (forall s, lo <= s < r -> ~ free_run bm s required) /\
   (r = lo \/ sxfs_bitmap_test bm (r - 1) = true)).
Proof.
  induction n as [|n IH]; intros sector run_start run_length Hreq Hlo Hlen Hrun Hnone Hz Hp;
    cbn [free_run_loop]; cbv zeta.
  { left. split; [done|]. intros s Hs1 Hs2. apply Hnone; lia. }
  destruct (sxfs_bitmap_test bm sector) eqn:Et; cbn [negb].
  - destruct (IH (sector + 1) run_start 0) as [[-> H]|(H1 & H2 & H3 & H4 & H5)]; try lia.
    + intros s Hs1 Hs2 Hf. destruct (Z.eq_dec (s + required) (sector + 1)) as [E|].
      * specialize (Hf sector ltac:(lia)). congruence.
      * apply (Hnone s); [lia..|done].
    + intros _. right. by replace (sector + 1 - 1) with sector by lia.
    + left. split; [done|]. intros s ? ?. apply H; lia.
    + right. split; [done|]. split; [lia|]. done.
  - set (rs := if run_length =? 0 then sector else run_start).
    assert (Hrs : lo <= rs /\ rs + run_length = sector /\ free_run bm rs (run_length + 1) /\
                  (rs = lo \/ sxfs_bitmap_test bm (rs - 1) = true)).
    { unfold rs. destruct (run_length =? 0) eqn:E0.
      - split; [lia|]. split; [lia|]. split; [|apply Hz; lia].
        intros k Hk. by replace k with sector by lia.
      - destruct Hrun as [?|(R1 & R2 & R3)]; [lia|]. split; [done|]. split; [done|].
        split; [|apply Hp; lia]. intros k Hk. destruct (Z.eq_dec k sector) as [->|]; [done|]. apply R3. lia. }
    destruct Hrs as (R1 & R2 & R3 & R4). destruct (run_length + 1 >=? required) eqn:Er.
    + right. split; [done|]. split; [lia|]. split; [by replace required with (run_length + 1) by lia|].
      split; [|done]. intros s Hs Hf.
      destruct (Z_lt_le_dec (s + required) (sector + 1)) as [Hlt|Hge]; [apply (Hnone s); [lia..|done]|].
      destruct R4 as [->|R4]; [lia|]. specialize (Hf (rs - 1) ltac:(lia)). congruence.
    + destruct (IH (sector + 1) rs (run_length + 1)) as [[-> H]|(H1 & H2 & H3 & H4 & H5)]; try lia.
      * right. split; [done|]. split; [lia|done].
      * intros s Hs1 Hs2 Hf. destruct (Z.eq_dec (s + required) (sector + 1)) as [E|].
        -- destruct R4 as [->|R4]; [lia|].
           destruct (Z_lt_le_dec s rs); [|lia]. specialize (Hf (rs - 1) ltac:(lia)). congruence.
        -- apply (Hnone s); [lia..|done].
      * left. split; [done|]. intros s ? ?. apply H; lia.
      * right. split; [done|]. split; [lia|]. done.
Qed.

Lemma find_free_run_spec bm data_lba total required :
  0 < required -> 0 < data_lba -> data_lba <= total ->
  let r := sxfs_find_free_run bm data_lba total required in
  (r = 0 /\ forall s, data_lba <= s -> s + required <= total -> ~ free_run bm s required) \/
  (data_lba <= r /\ r + required <= total /\ free_run bm r required /\
   (forall s, data_lba <= s < r -> ~ free_run bm s required) /\
   (r = data_lba \/ sxfs_bitmap_test bm (r - 1) = true)).
Proof.
  intros Hr Hd Ht. unfold sxfs_find_free_run.
  pose proof (free_run_loop_spec (Z.to_nat (total - data_lba)) bm required data_lba data_lba 0 0) as H.
  replace (data_lba + Z.of_nat (Z.to_nat (total - data_lba))) with total in H by lia.
  apply H; lia.
Qed.
