(* ===== verification/SxfsCore.v ===== *)
(** * The SxFS core (libsxfs/sxfs_core.c)

    The volume as the host tools edit it: [struct sxfs_ctx] holds the metadata in
    memory, the data goes through two block callbacks.  The callbacks are a
    parameter, the class [BlockDevice]; what the code relies on of them is the
    class [ReliableDevice], with a RAM disk as an instance.  An operation is a
    function of the context to the context it leaves and a result: on an error
    the context keeps what was already changed, as in the source.  The shared
    buffer [dir_scratch] is part of the context, because [sxfs_remove] depends
    on who wrote it last. *)

From S2P Require Import Prelude Bytes SxfsFormat.
Open Scope st_scope.

Inductive sxfs_err :=
| SXFS_ERR_IO | SXFS_ERR_NO_SPACE | SXFS_ERR_NO_INODES | SXFS_ERR_INVALID
| SXFS_ERR_EXISTS | SXFS_ERR_NOT_FOUND | SXFS_ERR_TOO_LONG.

#[export] Instance sxfs_err_eq_dec : EqDecision sxfs_err.
Proof. solve_decision. Defined.

(** ** The block callbacks *)

(** [read] fills the buffer or fails; [write] leaves a device and reports. *)
Class BlockDevice (D : Type) := {
  dev_read : D -> Z -> Z -> option (list Z);
  dev_write : D -> Z -> Z -> list Z -> D * bool }.

Definition sector_bytes (l : list Z) : Prop := length l = 512%nat /\ bytes_ok l.

(** What sxfs_core.h says of the callbacks: transfers of whole sectors inside
    the device succeed, a read gives what was last written, and a write
    touches no other sector. *)
Class ReliableDevice (D : Type) `{BlockDevice D} := {
  dev_ok : D -> Prop;
  dev_size : D -> Z;
  dev_sector : D -> Z -> list Z;
  dev_sector_ok : forall d k, dev_ok d -> 0 <= k < dev_size d -> sector_bytes (dev_sector d k);
  dev_read_spec : forall d lba n, dev_ok d -> 0 <= lba -> lba + Z.of_nat n <= dev_size d ->
    dev_read d lba (Z.of_nat n) =
    Some (concat (map (fun i => dev_sector d (lba + Z.of_nat i)) (seq 0 n)));
  dev_write_spec : forall d lba n data, dev_ok d -> 0 <= lba -> lba + Z.of_nat n <= dev_size d ->
    length data = (512 * n)%nat -> bytes_ok data ->
    exists d', dev_write d lba (Z.of_nat n) data = (d', true) /\ dev_ok d' /\
      dev_size d' = dev_size d /\
      forall k, dev_sector d' k =
        if (lba <=? k) && (k <? lba + Z.of_nat n)
        then take 512 (drop (512 * Z.to_nat (k - lba)) data) else dev_sector d k }.

(** ** The context *)

Record sxfs_ctx (D : Type) := mk_ctx {
  cx_dev : D; cx_total_sectors : Z; cx_superblock : sxfs_superblock;
  cx_block_bitmap : list Z; cx_inode_bitmap : list Z; cx_inodes : list sxfs_inode;
  cx_dir_scratch : list Z }.
Arguments mk_ctx {D} _ _ _ _ _ _ _.
Arguments cx_dev {D} _.
Arguments cx_total_sectors {D} _.
Arguments cx_superblock {D} _.
Arguments cx_block_bitmap {D} _.
Arguments cx_inode_bitmap {D} _.
Arguments cx_inodes {D} _.
Arguments cx_dir_scratch {D} _.

Definition extent0 : sxfs_extent := mk_extent 0 0.
(** The inode record [memset] leaves. *)
Definition inode0 : sxfs_inode :=
  mk_inode 0 0 0 0 0 0 (replicate 8 extent0) 0 0 0 0 (replicate 24 0).
Definition superblock0 : sxfs_superblock :=
  mk_superblock (replicate 8 0) 0 0 0 0 0 0 0 0 0 0 0 0 0 0 0 0 0 (replicate 436 0).

Section core.
Context {D : Type} `{BlockDevice D}.
Local Abbreviation ctx := (sxfs_ctx D).
Local Abbreviation M := (st (sxfs_ctx D) sxfs_err).

Definition with_dev (c : ctx) (d : D) : ctx :=
  mk_ctx d (cx_total_sectors c) (cx_superblock c) (cx_block_bitmap c) (cx_inode_bitmap c)
         (cx_inodes c) (cx_dir_scratch c).
Definition with_superblock (c : ctx) (s : sxfs_superblock) : ctx :=
  mk_ctx (cx_dev c) (cx_total_sectors c) s (cx_block_bitmap c) (cx_inode_bitmap c)
         (cx_inodes c) (cx_dir_scratch c).
Definition with_block_bitmap (c : ctx) (bm : list Z) : ctx :=
  mk_ctx (cx_dev c) (cx_total_sectors c) (cx_superblock c) bm (cx_inode_bitmap c)
         (cx_inodes c) (cx_dir_scratch c).
Definition with_inode_bitmap (c : ctx) (bm : list Z) : ctx :=
  mk_ctx (cx_dev c) (cx_total_sectors c) (cx_superblock c) (cx_block_bitmap c) bm
         (cx_inodes c) (cx_dir_scratch c).
Definition with_inodes (c : ctx) (tbl : list sxfs_inode) : ctx :=
  mk_ctx (cx_dev c) (cx_total_sectors c) (cx_superblock c) (cx_block_bitmap c)
         (cx_inode_bitmap c) tbl (cx_dir_scratch c).
Definition with_scratch (c : ctx) (l : list Z) : ctx :=
  mk_ctx (cx_dev c) (cx_total_sectors c) (cx_superblock c) (cx_block_bitmap c)
         (cx_inode_bitmap c) (cx_inodes c) l.

Definition sectors_for (bytes : Z) : Z := u32 (bytes + (SXFS_SECTOR_SIZE - 1)) / SXFS_SECTOR_SIZE.

(** [inode_at], [inode_at_const]: [None] is the null pointer. *)
Definition inode_at (c : ctx) (inode_id : Z) : option sxfs_inode :=
  if (inode_id =? 0) || (inode_id >? SXFS_MAX_INODES) then None
  else Some (at_ inode0 (cx_inodes c) (inode_id - 1)).
(** A store through the pointer [inode_at] returned. *)
Definition put_inode (c : ctx) (inode_id : Z) (i : sxfs_inode) : ctx :=
  with_inodes c (set_at (cx_inodes c) (inode_id - 1) i).

Definition inode_capacity_bytes (i : sxfs_inode) : Z :=
  u32 (sxfs_inode_capacity_sectors i * SXFS_SECTOR_SIZE).

Definition in_with_size (i : sxfs_inode) (size : Z) : sxfs_inode :=
  mk_inode (in_inode_id i) (in_type i) (in_mode i) size (in_link_count i) (in_extent_count i)
           (in_extents i) (in_uid i) (in_gid i) (in_reserved1 i) (in_mtime i) (in_reserved i).
Definition in_with_extents (i : sxfs_inode) (ec : Z) (es : list sxfs_extent) : sxfs_inode :=
  mk_inode (in_inode_id i) (in_type i) (in_mode i) (in_size i) (in_link_count i) ec es
           (in_uid i) (in_gid i) (in_reserved1 i) (in_mtime i) (in_reserved i).
Definition in_with_owner (i : sxfs_inode) (uid gid mode : Z) : sxfs_inode :=
  mk_inode (in_inode_id i) (in_type i) mode (in_size i) (in_link_count i) (in_extent_count i)
           (in_extents i) uid gid (in_reserved1 i) (in_mtime i) (in_reserved i).
Definition in_with_mtime (i : sxfs_inode) (mtime : Z) : sxfs_inode :=
  mk_inode (in_inode_id i) (in_type i) (in_mode i) (in_size i) (in_link_count i)
           (in_extent_count i) (in_extents i) (in_uid i) (in_gid i) (in_reserved1 i) mtime
           (in_reserved i).

(** ** Data I/O by extents *)

(** The inner loop of [read_inode_bytes]; [acc] is what [dst] holds up to [pos].
    The flag is 0 when a callback failed. *)
Fixpoint read_run (d : D) (n : nat) (lba want : Z) (acc : list Z) : list Z * bool :=
  match n with
  | O => (acc, true)
  | S n =>
      if zlen acc <? want then
        match dev_read d lba 1 with
        | None => (acc, false)
        | Some sector =>
            let k := if want - zlen acc >? SXFS_SECTOR_SIZE then SXFS_SECTOR_SIZE
                     else want - zlen acc in
            read_run d n (u32 (lba + 1)) want (acc ++ take (Z.to_nat k) sector)
        end
      else (acc, true)
  end.
Fixpoint read_extents (d : D) (es : list sxfs_extent) (want : Z) (acc : list Z) : list Z * bool :=
  match es with
  | [] => (acc, true)
  | e :: t =>
      if zlen acc <? want then
        match read_run d (Z.to_nat (sector_count e)) (start_lba e) want acc with
        | (acc, true) => read_extents d t want acc
        | (acc, false) => (acc, false)
        end
      else (acc, true)
  end.
(** The bytes stored in [dst] from its start, and whether all reads succeeded.
    The extents are the first [extent_count] of the array: a count above its
    size is outside the struct. *)
Definition read_inode_bytes (c : ctx) (i : sxfs_inode) (dst_capacity : Z) : list Z * bool :=
  let want := if in_size i >? dst_capacity then dst_capacity else in_size i in
  read_extents (cx_dev c) (take (Z.to_nat (in_extent_count i)) (in_extents i)) want [].

Definition write_sector (lba count : Z) (data : list Z) : M unit :=
  fun c => let '(d, ok) := dev_write (cx_dev c) lba count data in
           (with_dev c d, if ok then Ok tt else Fail SXFS_ERR_IO).
Definition read_sector (lba count : Z) : M (list Z) :=
  fun c => match dev_read (cx_dev c) lba count with
           | Some data => (c, Ok data)
           | None => (c, Fail SXFS_ERR_IO)
           end.

Definition pad_sector (l : list Z) : list Z :=
  take 512 l ++ replicate (512 - length (take 512 l)) 0.

(** The loops of [write_inode_bytes]: [rest] is [data + pos], and the sectors
    past its end are zeroed. *)
Fixpoint write_run (n : nat) (lba : Z) (rest : list Z) : M (list Z) :=
  match n with
  | O => st_ret rest
  | S n =>
      write_sector lba 1 (pad_sector rest) ;;;
      write_run n (u32 (lba + 1)) (drop 512 rest)
  end.
Fixpoint write_extents (es : list sxfs_extent) (rest : list Z) : M unit :=
  match es with
  | [] => st_ret tt
  | e :: t =>
      let! rest := write_run (Z.to_nat (sector_count e)) (start_lba e) rest in
      write_extents t rest
  end.
Definition write_inode_bytes (inode_id : Z) (data : list Z) : M unit :=
  fun c =>
    match inode_at c inode_id with
    | None => (c, Fail SXFS_ERR_INVALID)
    | Some i =>
        if zlen data >? inode_capacity_bytes i then (c, Fail SXFS_ERR_NO_SPACE)
        else (write_extents (live_extents i) data ;;;
              st_mod (fun c => put_inode c inode_id (in_with_size i (zlen data)))) c
    end.

(** ** Allocation *)

Fixpoint alloc_loop (n : nat) (id : Z) (bm : list Z) : Z * list Z :=
  match n with
  | O => (0, bm)
  | S n =>
      if negb (sxfs_bitmap_test bm (id - 1)) then (id, sxfs_bitmap_set bm (id - 1) true)
      else alloc_loop n (id + 1) bm
  end.
(** The id, 0 when the table is full. *)
Definition allocate_inode : M Z :=
  fun c => let '(id, bm) := alloc_loop (Z.to_nat SXFS_MAX_INODES) 1 (cx_inode_bitmap c) in
           (with_inode_bitmap c bm, Ok id).

Definition find_free_run (c : ctx) (required : Z) : Z :=
  sxfs_find_free_run (cx_block_bitmap c) SXFS_DATA_LBA (cx_total_sectors c) required.

Definition set_extent_bits (bm : list Z) (start count : Z) (value : bool) : list Z :=
  for_z 0 count (fun s bm => sxfs_bitmap_set bm (u32 (start + s)) value) bm.
Definition set_inode_extent_bits (bm : list Z) (i : sxfs_inode) (value : bool) : list Z :=
  fold_left (fun bm e => set_extent_bits bm (start_lba e) (sector_count e) value)
            (live_extents i) bm.

(** The inner and outer loops of [copy_inode_sectors]; the result is [copied]. *)
Fixpoint copy_run (n : nat) (src dst_lba sectors copied : Z) : M Z :=
  match n with
  | O => st_ret copied
  | S n =>
      if copied <? sectors then
        let! sector := read_sector src 1 in
        write_sector (u32 (dst_lba + copied)) 1 sector ;;;
        copy_run n (u32 (src + 1)) dst_lba sectors (copied + 1)
      else st_ret copied
  end.
Fixpoint copy_extents (es : list sxfs_extent) (dst_lba sectors copied : Z) : M unit :=
  match es with
  | [] => st_ret tt
  | e :: t =>
      if copied <? sectors then
        let! copied := copy_run (Z.to_nat (sector_count e)) (start_lba e) dst_lba sectors copied in
        copy_extents t dst_lba sectors copied
      else st_ret tt
  end.
Definition copy_inode_sectors (i : sxfs_inode) (dst_lba sectors : Z) : M unit :=
  copy_extents (live_extents i) dst_lba sectors 0.

Definition one_extent (start count : Z) : list sxfs_extent :=
  mk_extent start count :: replicate 7 extent0.

Definition ensure_capacity (inode_id required_size : Z) : M unit :=
  fun c =>
    match inode_at c inode_id with
    | None => (c, Fail SXFS_ERR_INVALID)
    | Some i =>
        if required_size <=? inode_capacity_bytes i then (c, Ok tt)
        else
          let required_sectors := sectors_for required_size in
          let old_sectors := sxfs_inode_capacity_sectors i in
          let reuse_own_blocks := in_extent_count i <=? 1 in
          let set_own (v : bool) (c : ctx) :=
            with_block_bitmap c (set_inode_extent_bits (cx_block_bitmap c) i v) in
          let c := if reuse_own_blocks then set_own false c else c in
          let start := find_free_run c required_sectors in
          if start =? 0 then
            (if reuse_own_blocks then set_own true c else c, Fail SXFS_ERR_NO_SPACE)
          else
            (copy_inode_sectors i start old_sectors ;;;
             st_mod (fun c => if negb reuse_own_blocks then set_own false c else c) ;;;
             st_mod (fun c => with_block_bitmap c
                       (set_extent_bits (cx_block_bitmap c) start required_sectors true)) ;;;
             st_mod (fun c => put_inode c inode_id
                       (in_with_extents i 1 (one_extent start required_sectors)))) c
    end.

(** ** Directories and paths *)

(** Bytes stored over the front of the scratch buffer. *)
Definition overwrite (buf data : list Z) : list Z := data ++ drop (length data) buf.
(** The [index]-th entry of the scratch buffer. *)
Definition scratch_entry (buf : list Z) (index : Z) : sxfs_dir_entry :=
  dec_dir_entry (take 80 (drop (80 * Z.to_nat index) buf)).

(** The count of entries read; they are in the scratch buffer. *)
Definition read_dir_entries (dir_id : Z) : M Z :=
  fun c =>
    match inode_at c dir_id with
    | None => (c, Fail SXFS_ERR_INVALID)
    | Some i =>
        let count := in_size i / SXFS_DIR_ENTRY_SIZE in
        let count := if count >? SXFS_MAX_RECORDS then SXFS_MAX_RECORDS else count in
        let '(got, ok) := read_inode_bytes c i (count * SXFS_DIR_ENTRY_SIZE) in
        let c := with_scratch c (overwrite (cx_dir_scratch c) got) in
        (c, if ok then Ok (zlen got / SXFS_DIR_ENTRY_SIZE) else Fail SXFS_ERR_IO)
    end.

Definition name_matches (e : sxfs_dir_entry) (name : list Z) : bool :=
  negb (de_inode_id e =? 0) && (de_name_length e =? zlen name) &&
  bool_decide (take (length name) (de_name e) = name).

(** The first entry below [count] with that name, with its index. *)
Fixpoint find_entry (n : nat) (i : Z) (buf name : list Z) : option (Z * sxfs_dir_entry) :=
  match n with
  | O => None
  | S n =>
      let e := scratch_entry buf i in
      if name_matches e name then Some (i, e) else find_entry n (i + 1) buf name
  end.
Definition lookup_entry (count : Z) (name : list Z) : M (option (Z * sxfs_dir_entry)) :=
  fun c => (c, Ok (find_entry (Z.to_nat count) 0 (cx_dir_scratch c) name)).

(** The component before the next slash, and what follows the slash. *)
Fixpoint path_split (p : list Z) : list Z * list Z :=
  match p with
  | [] => ([], [])
  | c :: t => if c =? SLASH then ([], t) else let '(a, b) := path_split t in (c :: a, b)
  end.

Fixpoint resolve_loop (fuel : nat) (p : list Z) (current type : Z) : M (Z * Z) :=
  match fuel with
  | O => st_fail SXFS_ERR_INVALID
  | S fuel =>
      match p with
      | [] => st_ret (current, type)
      | _ =>
          let '(comp, rest) := path_split p in
          if zlen comp =? 0 then st_fail SXFS_ERR_INVALID
          else
            let! c := st_get in
            match inode_at c current with
            | None => st_fail SXFS_ERR_NOT_FOUND
            | Some dir =>
                if negb (in_type dir =? SXFS_INODE_DIRECTORY) then st_fail SXFS_ERR_NOT_FOUND
                else
                  let! count := read_dir_entries current in
                  let! found := lookup_entry count comp in
                  match found with
                  | None => st_fail SXFS_ERR_NOT_FOUND
                  | Some (_, e) => resolve_loop fuel rest (de_inode_id e) (de_type e)
                  end
            end
      end
  end.
(** Every turn consumes a character, so the length of the path is enough fuel. *)
Definition resolve_path (relpath : list Z) : M (Z * Z) :=
  resolve_loop (S (length relpath)) relpath SXFS_ROOT_INODE SXFS_INODE_DIRECTORY.

Definition new_entry (child_id type : Z) (name : list Z) : sxfs_dir_entry :=
  mk_dir_entry child_id type (u16 (zlen name)) (name ++ replicate (64 - length name) 0) (replicate 8 0).

Definition add_dir_entry (parent_id child_id type : Z) (name : list Z) : M unit :=
  let! count := read_dir_entries parent_id in
  if count >=? SXFS_MAX_RECORDS then st_fail SXFS_ERR_NO_SPACE
  else
    st_mod (fun c =>
      let buf := cx_dir_scratch c in
      let at_slot := (80 * Z.to_nat count)%nat in
      with_scratch c (take at_slot buf ++ enc_dir_entry (new_entry child_id type name) ++
                      drop (at_slot + 80) buf)) ;;;
    let count := count + 1 in
    ensure_capacity parent_id (count * SXFS_DIR_ENTRY_SIZE) ;;;
    let! c := st_get in
    write_inode_bytes parent_id (take (80 * Z.to_nat count) (cx_dir_scratch c)).

Definition init_inode (inode_id type : Z) (path : list Z) : M unit :=
  let path := take (Z.to_nat SXFS_MAX_RELATIVE_PATH) path in
  let '(uid, gid, mode) := sxfs_default_ownership path type in
  st_mod (fun c => put_inode c inode_id
    (mk_inode inode_id type mode 0 1 0 (replicate 8 extent0) uid gid 0 0 (replicate 24 0))).

Definition create_child (parent_id : Z) (name : list Z) (type : Z) (path : list Z) : M Z :=
  if (zlen name =? 0) || (zlen name >? SXFS_INODE_NAME_CAPACITY - 1) then st_fail SXFS_ERR_TOO_LONG
  else
    let! child := allocate_inode in
    if child =? 0 then st_fail SXFS_ERR_NO_INODES
    else
      init_inode child type path ;;;
      add_dir_entry parent_id child type name ;;;
      st_ret child.

(** ** Public operations *)

Definition sxfs_ctx_init (d : D) : ctx :=
  mk_ctx d 0 superblock0 (replicate (Z.to_nat (SXFS_BLOCK_BITMAP_SECTORS * SXFS_SECTOR_SIZE)) 0)
         (replicate (Z.to_nat (SXFS_INODE_BITMAP_SECTORS * SXFS_SECTOR_SIZE)) 0)
         (replicate (Z.to_nat SXFS_MAX_INODES) inode0)
         (replicate (Z.to_nat (SXFS_MAX_RECORDS * SXFS_DIR_ENTRY_SIZE)) 0).

Definition fresh_superblock (total_sectors : Z) : sxfs_superblock :=
  mk_superblock sxfs_superblock_magic SXFS_VERSION 0 0 0 total_sectors SXFS_JOURNAL_LBA
    SXFS_JOURNAL_SECTORS SXFS_BLOCK_BITMAP_LBA SXFS_BLOCK_BITMAP_SECTORS SXFS_INODE_BITMAP_LBA
    SXFS_INODE_BITMAP_SECTORS SXFS_INODE_TABLE_LBA SXFS_INODE_TABLE_SECTORS SXFS_DATA_LBA
    SXFS_MAX_INODES SXFS_ROOT_INODE SXFS_FEATURE_OWNERSHIP (replicate 436 0).

Definition sxfs_format (total_sectors : Z) : M unit :=
  if (total_sectors <=? SXFS_DATA_LBA) || (total_sectors >? SXFS_MAX_TOTAL_SECTORS)
  then st_fail SXFS_ERR_INVALID
  else
    st_mod (fun c =>
      mk_ctx (cx_dev c) total_sectors (fresh_superblock total_sectors)
        (for_z 0 SXFS_DATA_LBA (fun sector bm => sxfs_bitmap_set bm sector true)
               (replicate (length (cx_block_bitmap c)) 0))
        (sxfs_bitmap_set (replicate (length (cx_inode_bitmap c)) 0) (SXFS_ROOT_INODE - 1) true)
        (replicate (length (cx_inodes c)) inode0) (cx_dir_scratch c)) ;;;
    init_inode SXFS_ROOT_INODE SXFS_INODE_DIRECTORY [].

Definition journal_header_is_empty (bytes : list Z) : bool := forallb (fun b => b =? 0) bytes.

Definition dec_inodes (l : list Z) : list sxfs_inode :=
  map dec_inode (chunks 128 (Z.to_nat SXFS_MAX_INODES) l).
Definition enc_inodes (tbl : list sxfs_inode) : list Z := concat (map enc_inode tbl).

Definition read_superblock (c : ctx) (lba : Z) : option sxfs_superblock :=
  match dev_read (cx_dev c) lba 1 with
  | Some l => let sb := dec_superblock l in if sxfs_superblock_valid sb then Some sb else None
  | None => None
  end.

Definition sxfs_open : M unit :=
  fun c =>
    let chosen :=
      match read_superblock c SXFS_PRIMARY_SB_LBA, read_superblock c SXFS_SECONDARY_SB_LBA with
      | Some primary, Some secondary =>
          Some (if sb_sequence secondary >? sb_sequence primary then secondary else primary)
      | Some primary, None => Some primary
      | None, Some secondary => Some secondary
      | None, None => None
      end in
    match chosen with
    | None => (c, Fail SXFS_ERR_INVALID)
    | Some sb =>
        if Z.land (sb_flags sb) SXFS_FLAG_CLEAN =? 0 then (c, Fail SXFS_ERR_INVALID)
        else
          (let! journal := read_sector SXFS_JOURNAL_LBA 1 in
           if negb (journal_header_is_empty journal) &&
              (negb (sxfs_journal_valid (dec_journal journal)) ||
               negb (jh_pending (dec_journal journal) =? 0))
           then st_fail SXFS_ERR_INVALID
           else
             st_mod (fun c => mk_ctx (cx_dev c) (sb_total_sectors sb) sb (cx_block_bitmap c)
                                     (cx_inode_bitmap c) (cx_inodes c) (cx_dir_scratch c)) ;;;
             let! bm := read_sector SXFS_BLOCK_BITMAP_LBA SXFS_BLOCK_BITMAP_SECTORS in
             st_mod (fun c => with_block_bitmap c bm) ;;;
             let! ibm := read_sector SXFS_INODE_BITMAP_LBA SXFS_INODE_BITMAP_SECTORS in
             st_mod (fun c => with_inode_bitmap c ibm) ;;;
             let! table := read_sector SXFS_INODE_TABLE_LBA SXFS_INODE_TABLE_SECTORS in
             st_mod (fun c => with_inodes c (dec_inodes table))) c
    end.

(** [sequence = 1; flags = CLEAN; checksum = 0; checksum = sxfs_checksum(sb)]. *)
Definition sealed (s : sxfs_superblock) : sxfs_superblock :=
  let s := mk_superblock (sb_magic s) (sb_version s) 0 1 SXFS_FLAG_CLEAN (sb_total_sectors s)
    (sb_journal_lba s) (sb_journal_sectors s) (sb_block_bitmap_lba s) (sb_block_bitmap_sectors s)
    (sb_inode_bitmap_lba s) (sb_inode_bitmap_sectors s) (sb_inode_table_lba s)
    (sb_inode_table_sectors s) (sb_data_lba s) (sb_max_inodes s) (sb_root_inode s)
    (sb_features s) (sb_reserved s) in
  sb_with_checksum s (sxfs_checksum (enc_superblock s)).

Definition sxfs_flush : M unit :=
  st_mod (fun c => with_superblock c (sealed (cx_superblock c))) ;;;
  let! c := st_get in
  write_sector SXFS_PRIMARY_SB_LBA 1 (enc_superblock (cx_superblock c)) ;;;
  write_sector SXFS_SECONDARY_SB_LBA 1 (enc_superblock (cx_superblock c)) ;;;
  write_sector SXFS_BLOCK_BITMAP_LBA SXFS_BLOCK_BITMAP_SECTORS (cx_block_bitmap c) ;;;
  write_sector SXFS_INODE_BITMAP_LBA SXFS_INODE_BITMAP_SECTORS (cx_inode_bitmap c) ;;;
  write_sector SXFS_INODE_TABLE_LBA SXFS_INODE_TABLE_SECTORS (enc_inodes (cx_inodes c)).

Definition sxfs_mkfs (total_sectors root_uid root_gid root_mode : Z) : M unit :=
  sxfs_format total_sectors ;;;
  (if negb (root_mode =? 0) then
     let! c := st_get in
     match inode_at c SXFS_ROOT_INODE with
     | None => st_fail SXFS_ERR_INVALID
     | Some root =>
         if negb (sxfs_mode_matches_type root_mode SXFS_INODE_DIRECTORY)
         then st_fail SXFS_ERR_INVALID
         else st_mod (fun c => put_inode c SXFS_ROOT_INODE
                                 (in_with_owner root root_uid root_gid root_mode))
     end
   else st_ret tt) ;;;
  sxfs_flush ;;;
  write_sector SXFS_JOURNAL_LBA 1 (replicate 512 0).

(** [consumed] is [p - relpath]. *)
Fixpoint mkdir_loop (fuel : nat) (relpath p : list Z) (consumed parent : Z) : M unit :=
  match fuel with
  | O => st_fail SXFS_ERR_INVALID
  | S fuel =>
      match p with
      | [] => st_ret tt
      | _ =>
          let '(comp, rest) := path_split p in
          if zlen comp =? 0 then st_fail SXFS_ERR_INVALID
          else if zlen comp >? SXFS_INODE_NAME_CAPACITY - 1 then st_fail SXFS_ERR_TOO_LONG
          else
            let! count := read_dir_entries parent in
            let! found := lookup_entry count comp in
            let next := mkdir_loop fuel relpath rest (consumed + zlen comp + 1) in
            match found with
            | Some (_, e) =>
                if negb (de_type e =? SXFS_INODE_DIRECTORY) then st_fail SXFS_ERR_EXISTS
                else next (de_inode_id e)
            | None =>
                let! child := create_child parent comp SXFS_INODE_DIRECTORY
                                (take (Z.to_nat (consumed + zlen comp)) relpath) in
                next child
            end
      end
  end.
Definition sxfs_mkdir_p (relpath : list Z) : M unit :=
  if negb (sxfs_path_valid relpath) then st_fail SXFS_ERR_INVALID
  else mkdir_loop (S (length relpath)) relpath relpath 0 SXFS_ROOT_INODE.

Definition dir_is_empty (dir_id : Z) : M bool :=
  let! count := read_dir_entries dir_id in
  let! c := st_get in
  st_ret (forallb (fun i => de_inode_id (scratch_entry (cx_dir_scratch c) (Z.of_nat i)) =? 0)
                  (seq 0 (Z.to_nat count))).

(** The path cut at its last slash: [None] when there is none. *)
Fixpoint split_leaf (p : list Z) : option (list Z * list Z) :=
  match p with
  | [] => None
  | c :: t =>
      match split_leaf t with
      | Some (parent, leaf) => Some (c :: parent, leaf)
      | None => if c =? SLASH then Some ([], t) else None
      end
  end.

(** The entries after [slot] move down by one. *)
Definition drop_entry (buf : list Z) (slot count : Z) : list Z :=
  let s := (80 * Z.to_nat slot)%nat in
  let e := (80 * Z.to_nat count)%nat in
  take s buf ++ take (e - (s + 80)) (drop (s + 80) buf) ++ drop (e - 80) buf.

Definition sxfs_remove (relpath : list Z) : M unit :=
  if negb (sxfs_path_valid relpath) then st_fail SXFS_ERR_INVALID
  else
    let '(parent_path, leaf) :=
      match split_leaf relpath with
      | Some (pp, leaf) => (Some pp, leaf)
      | None => (None, relpath)
      end in
    if zlen leaf =? 0 then st_fail SXFS_ERR_INVALID
    else
      let! parent :=
        match parent_path with
        | None => st_ret SXFS_ROOT_INODE
        | Some pp =>
            if zlen pp >=? 256 then st_fail SXFS_ERR_TOO_LONG
            else
              let! found := resolve_path pp in
              let '(parent, ptype) := found in
              if negb (ptype =? SXFS_INODE_DIRECTORY) then st_fail SXFS_ERR_NOT_FOUND
              else st_ret parent
        end in
      let! count := read_dir_entries parent in
      let! found := lookup_entry count leaf in
      match found with
      | None => st_fail SXFS_ERR_NOT_FOUND
      | Some (slot, e) =>
          let victim_id := de_inode_id e in
          let! c := st_get in
          match inode_at c victim_id with
          | None => st_fail SXFS_ERR_INVALID
          | Some victim =>
              (if in_type victim =? SXFS_INODE_DIRECTORY then
                 let! empty := dir_is_empty victim_id in
                 if negb empty then st_fail SXFS_ERR_EXISTS else st_ret tt
               else st_ret tt) ;;;
              st_mod (fun c => with_scratch c (drop_entry (cx_dir_scratch c) slot count)) ;;;
              let! c := st_get in
              write_inode_bytes parent (take (80 * Z.to_nat (count - 1)) (cx_dir_scratch c)) ;;;
              st_mod (fun c =>
                match inode_at c victim_id with
                | Some victim =>
                    with_block_bitmap c (set_inode_extent_bits (cx_block_bitmap c) victim false)
                | None => c
                end) ;;;
              st_mod (fun c => with_inode_bitmap c
                                 (sxfs_bitmap_set (cx_inode_bitmap c) (victim_id - 1) false)) ;;;
              st_mod (fun c => put_inode c victim_id inode0)
          end
      end.

Definition sxfs_write_file (relpath data : list Z) : M unit :=
  if negb (sxfs_path_valid relpath) then st_fail SXFS_ERR_INVALID
  else
    let '(parent_path, leaf) :=
      match split_leaf relpath with
      | Some (pp, leaf) => (Some pp, leaf)
      | None => (None, relpath)
      end in
    if zlen leaf =? 0 then st_fail SXFS_ERR_INVALID
    else if zlen leaf >? SXFS_INODE_NAME_CAPACITY - 1 then st_fail SXFS_ERR_TOO_LONG
    else
      let! parent :=
        match parent_path with
        | None => st_ret SXFS_ROOT_INODE
        | Some pp =>
            if zlen pp >=? 256 then st_fail SXFS_ERR_TOO_LONG
            else
              sxfs_mkdir_p pp ;;;
              let! found := resolve_path pp in
              let '(parent, ptype) := found in
              if negb (ptype =? SXFS_INODE_DIRECTORY) then st_fail SXFS_ERR_EXISTS
              else st_ret parent
        end in
      let! file_inode :=
        (fun c =>
           match resolve_path relpath c with
           | (c, Ok (id, ftype)) =>
               if ftype =? SXFS_INODE_DIRECTORY then (c, Fail SXFS_ERR_EXISTS) else (c, Ok id)
           | (c, Fail SXFS_ERR_NOT_FOUND) => create_child parent leaf SXFS_INODE_FILE relpath c
           | (c, Fail e) => (c, Fail e)
           end) in
      ensure_capacity file_inode (zlen data) ;;;
      write_inode_bytes file_inode data.

(** The bytes and [*out_size]. *)
Definition sxfs_read_inode (c : ctx) (inode_id dst_capacity : Z) : res sxfs_err (list Z) :=
  match inode_at c inode_id with
  | None => Fail SXFS_ERR_INVALID
  | Some i =>
      if (in_type i =? SXFS_INODE_UNUSED) || (in_size i >? dst_capacity) then Fail SXFS_ERR_INVALID
      else
        match read_inode_bytes c i dst_capacity with
        | (_, false) => Fail SXFS_ERR_IO
        | (got, true) => if negb (zlen got =? in_size i) then Fail SXFS_ERR_INVALID else Ok got
        end
  end.

Definition sxfs_set_ownership (relpath : list Z) (uid gid mode : Z) : M unit :=
  if negb (sxfs_path_valid relpath) then st_fail SXFS_ERR_INVALID
  else
    let! found := resolve_path relpath in
    let inode_id := found.1 in
    let! c := st_get in
    match inode_at c inode_id with
    | None => st_fail SXFS_ERR_INVALID
    | Some i =>
        if negb (sxfs_mode_matches_type mode (in_type i)) then st_fail SXFS_ERR_INVALID
        else st_mod (fun c => put_inode c inode_id (in_with_owner i uid gid mode))
    end.

Definition sxfs_get_ownership (c : ctx) (inode_id : Z) : res sxfs_err (Z * Z * Z) :=
  match inode_at c inode_id with
  | None => Fail SXFS_ERR_INVALID
  | Some i => Ok (in_uid i, in_gid i, in_mode i)
  end.

Definition sxfs_set_mtime (relpath : list Z) (mtime : Z) : M unit :=
  if negb (sxfs_path_valid relpath) then st_fail SXFS_ERR_INVALID
  else
    let! found := resolve_path relpath in
    let inode_id := found.1 in
    let! c := st_get in
    match inode_at c inode_id with
    | None => st_fail SXFS_ERR_INVALID
    | Some i => st_mod (fun c => put_inode c inode_id (in_with_mtime i mtime))
    end.
End core.

(** ** A RAM disk *)

Record ram := mk_ram { ram_size : Z; ram_sector : Z -> list Z }.

Definition ram_read (d : ram) (lba count : Z) : option (list Z) :=
  if (0 <=? lba) && (0 <=? count) && (lba + count <=? ram_size d)
  then Some (concat (map (fun i => ram_sector d (lba + Z.of_nat i)) (seq 0 (Z.to_nat count))))
  else None.

(** The stored sector is computed once, when it is written. *)
Definition ram_write (d : ram) (lba count : Z) (data : list Z) : ram * bool :=
  if (0 <=? lba) && (0 <=? count) && (lba + count <=? ram_size d) &&
     (zlen data =? 512 * count)
  then
    (mk_ram (ram_size d)
       (if count =? 1 then
          (fun k => if (lba <=? k) && (k <? lba + 1) then data else ram_sector d k)
        else
          (fun k => if (lba <=? k) && (k <? lba + count)
                    then take 512 (drop (512 * Z.to_nat (k - lba)) data) else ram_sector d k)),
     true)
  else (d, false).

#[export] Instance ram_device : BlockDevice ram := { dev_read := ram_read; dev_write := ram_write }.
