(* ===== verification/SxfsDevice.v ===== *)
(** * The SxFS core on a reliable device: reading, writing and moving extents

    What the loops over the block callbacks do to the device, on any device
    that satisfies [ReliableDevice]; and the RAM disk, an instance of it. *)

From S2P Require Import Prelude Bytes SxfsFormat SxfsFormatFacts SxfsCore.
Open Scope st_scope.

(** ** The RAM disk is reliable *)

(** A disk image made of sectors. *)
Definition ram_ok (d : ram) : Prop := forall k, 0 <= k < ram_size d -> sector_bytes (ram_sector d k).

Lemma chunk_sector data n j :
  length data = (512 * n)%nat -> bytes_ok data -> (j < n)%nat ->
  sector_bytes (take 512 (drop (512 * j) data)).
Proof.
  intros Hl Hb Hj. split; [rewrite length_take, length_drop; lia|auto with bytes].
Qed.

Lemma ram_write_sectors d lba n data :
  0 <= lba -> lba + Z.of_nat n <= ram_size d -> length data = (512 * n)%nat ->
  exists d', ram_write d lba (Z.of_nat n) data = (d', true) /\ ram_size d' = ram_size d /\
    forall k, ram_sector d' k =
      if (lba <=? k) && (k <? lba + Z.of_nat n)
      then take 512 (drop (512 * Z.to_nat (k - lba)) data) else ram_sector d k.
Proof.
  intros H1 H2 H3. unfold ram_write.
  match goal with |- context [if ?b then _ else _] => assert (b = true) as -> by (unfold zlen; lia) end.
  eexists. split; [reflexivity|]. split; [done|]. intros k. simpl.
  destruct (Z.of_nat n =? 1) eqn:E; [|done]. replace (Z.of_nat n) with 1 by lia.
  destruct ((lba <=? k) && (k <? lba + 1)) eqn:Ek; [|done].
  replace (Z.to_nat (k - lba)) with 0%nat by lia. simpl. rewrite drop_0, take_ge by lia. done.
Qed.

#[export] Instance ram_reliable : ReliableDevice ram.
Proof.
  refine {| dev_ok := ram_ok; dev_size := ram_size; dev_sector := ram_sector |}.
  - intros d k Hd Hk. by apply Hd.
  - intros d lba n Hd H1 H2. unfold dev_read. simpl. unfold ram_read.
    match goal with |- context [if ?b then _ else _] => assert (b = true) as -> by lia end.
    by rewrite Nat2Z.id.
  - intros d lba n data Hd H1 H2 H3 H4.
    destruct (ram_write_sectors d lba n data H1 H2 H3) as (d' & E & Es & Ek). exists d'.
    split; [exact E|]. split; [|done]. intros k Hk. rewrite Ek. rewrite Es in Hk.
    destruct ((lba <=? k) && (k <? lba + Z.of_nat n)) eqn:Ec; [|by apply Hd].
    apply (chunk_sector data n); [done..|lia].
Defined.

(** ** Sector lists *)

Definition run_lbas (lba : Z) (n : nat) : list Z := map (fun i => lba + Z.of_nat i) (seq 0 n).
Definition extent_lbas (e : sxfs_extent) : list Z := run_lbas (start_lba e) (Z.to_nat (sector_count e)).
(** The sectors of an inode, in the order of its bytes. *)
Definition inode_lbas (i : sxfs_inode) : list Z := flat_map extent_lbas (live_extents i).

Lemma run_lbas_S lba n : run_lbas lba (S n) = lba :: run_lbas (lba + 1) n.
Proof.
  unfold run_lbas. cbn [seq map]. f_equal; [lia|]. rewrite <- seq_shift, map_map.
  apply map_ext. intros i. lia.
Qed.

Lemma run_lbas_app s n m : run_lbas s (n + m) = run_lbas s n ++ run_lbas (s + Z.of_nat n) m.
Proof.
  revert s. induction n as [|n IH]; intros s; [by rewrite Z.add_0_r|].
  cbn [Nat.add]. rewrite !run_lbas_S, IH. cbn [app].
  by replace (s + 1 + Z.of_nat n) with (s + Z.of_nat (S n)) by lia.
Qed.

Lemma run_lbas_length lba n : length (run_lbas lba n) = n.
Proof. unfold run_lbas. by rewrite length_map, length_seq. Qed.

Lemma run_lbas_in lba n k : In k (run_lbas lba n) <-> lba <= k < lba + Z.of_nat n.
Proof.
  unfold run_lbas. rewrite in_map_iff. setoid_rewrite in_seq. split.
  - intros (i & <- & Hi). lia.
  - intros Hk. exists (Z.to_nat (k - lba)). lia.
Qed.

Lemma run_lbas_nodup lba n : List.NoDup (run_lbas lba n).
Proof.
  revert lba. induction n as [|n IH]; intros lba; [constructor|]. rewrite run_lbas_S.
  constructor; [|apply IH]. rewrite run_lbas_in. lia.
Qed.

Lemma NoDup_app_disjoint {A} (l k : list A) : List.NoDup (l ++ k) -> forall a, In a l -> ~ In a k.
Proof.
  induction l as [|b l IH]; intros Hnd a Ha Hk; [done|]. inversion Hnd as [|? ? Hn Hnd']; subst.
  destruct Ha as [->|Ha]; [|by eapply IH]. apply Hn, in_app_iff. by right.
Qed.

Section device.
Context {D : Type} `{ReliableDevice D}.

(** The bytes of a list of sectors. *)
Definition content (d : D) (ls : list Z) : list Z := concat (map (dev_sector d) ls).
Definition on_device (d : D) (ls : list Z) : Prop := forall k, In k ls -> 0 <= k < dev_size d.

Lemma content_length d ls : dev_ok d -> on_device d ls -> length (content d ls) = (512 * length ls)%nat.
Proof.
  intros Hd. unfold content. induction ls as [|k ls IH]; intros Hon; simpl; [done|].
  rewrite length_app, IH by (intros j Hj; apply Hon; by right).
  destruct (dev_sector_ok d k Hd (Hon k (or_introl eq_refl))) as [-> _]. lia.
Qed.

Lemma content_bytes d ls : dev_ok d -> on_device d ls -> bytes_ok (content d ls).
Proof.
  intros Hd. unfold content. induction ls as [|k ls IH]; intros Hon; simpl; [constructor|].
  apply bytes_ok_app. split; [apply (dev_sector_ok d k Hd), Hon; by left|].
  apply IH. intros j Hj. apply Hon. by right.
Qed.

Lemma content_ext d d' ls :
  (forall k, In k ls -> dev_sector d' k = dev_sector d k) -> content d' ls = content d ls.
Proof. intros E. unfold content. f_equal. by apply map_ext_in. Qed.

Lemma read_one d k : dev_ok d -> 0 <= k < dev_size d -> dev_read d k 1 = Some (dev_sector d k).
Proof.
  intros Hd Hk. change 1 with (Z.of_nat 1). rewrite (dev_read_spec d k 1 Hd) by lia.
  simpl. by rewrite Z.add_0_r, app_nil_r.
Qed.

Lemma read_many d lba n :
  dev_ok d -> 0 <= lba -> lba + Z.of_nat n <= dev_size d ->
  dev_read d lba (Z.of_nat n) = Some (content d (run_lbas lba n)).
Proof.
  intros Hd H1 H2. rewrite (dev_read_spec d lba n Hd H1 H2). unfold content, run_lbas.
  by rewrite map_map.
Qed.

Lemma write_one d k data :
  dev_ok d -> 0 <= k < dev_size d -> sector_bytes data ->
  exists d', dev_write d k 1 data = (d', true) /\ dev_ok d' /\ dev_size d' = dev_size d /\
    forall j, dev_sector d' j = if j =? k then data else dev_sector d j.
Proof.
  intros Hd Hk [Hl Hb].
  destruct (dev_write_spec d k 1 data Hd) as (d' & E & Hd' & Es & Ek); [lia..|done|].
  exists d'. split; [done|]. split; [done|]. split; [done|]. intros j. rewrite Ek.
  destruct (j =? k) eqn:Ej.
  - replace ((k <=? j) && (j <? k + Z.of_nat 1)) with true by lia.
    replace (Z.to_nat (j - k)) with 0%nat by lia. simpl. rewrite drop_0, take_ge by lia. done.
  - by replace ((k <=? j) && (j <? k + Z.of_nat 1)) with false by lia.
Qed.

(** ** Reading *)

Definition no_wrap (d : D) : Prop := dev_size d <= 4294967296.

Lemma u32_next d k : no_wrap d -> 0 <= k < dev_size d -> k + 1 < dev_size d -> u32 (k + 1) = k + 1.
Proof. unfold no_wrap. intros. apply u32_id. lia. Qed.

Lemma take_app_min {A} (w : nat) (l k : list A) :
  take w (l ++ k) = take (Nat.min w (length l)) l ++ take (w - length l) k.
Proof.
  rewrite take_app. f_equal. destruct (Nat.le_gt_cases w (length l)).
  - by rewrite Nat.min_l.
  - rewrite Nat.min_r by lia. by rewrite !take_ge by lia.
Qed.

Lemma read_run_spec d n : forall lba want acc,
  dev_ok d -> no_wrap d -> 0 <= lba -> lba + Z.of_nat n <= dev_size d -> zlen acc <= want ->
  read_run d n lba want acc =
  (acc ++ take (Z.to_nat (want - zlen acc)) (content d (run_lbas lba n)), true).
Proof.
  induction n as [|n IH]; intros lba want acc Hd Hw H1 H2 H3; cbn [read_run].
  - unfold run_lbas, content. simpl. by rewrite take_nil, app_nil_r.
  - rewrite run_lbas_S. destruct (zlen acc <? want) eqn:E.
    2: { replace (Z.to_nat (want - zlen acc)) with 0%nat by lia. by rewrite take_0, app_nil_r. }
    rewrite read_one by (done || lia).
    destruct (dev_sector_ok d lba Hd ltac:(lia)) as [Hl _].
    set (s := dev_sector d lba) in *.
    set (k := if want - zlen acc >? SXFS_SECTOR_SIZE then SXFS_SECTOR_SIZE else want - zlen acc).
    assert (Hk : Z.to_nat k = Nat.min (Z.to_nat (want - zlen acc)) 512)
      by (unfold k, SXFS_SECTOR_SIZE; case_if; lia).
    assert (Hlen : zlen (acc ++ take (Z.to_nat k) s) = zlen acc + Z.of_nat (Z.to_nat k))
      by (rewrite zlen_app; unfold zlen at 2; rewrite length_take; lia).
    assert (Hacc : zlen (acc ++ take (Z.to_nat k) s) <= want) by lia.
    assert (Hcont : content d (lba :: run_lbas (lba + 1) n) = s ++ content d (run_lbas (lba + 1) n)) by done.
    rewrite Hcont, take_app_min, Hl, <- Hk, app_assoc.
    destruct n as [|n].
    + cbn [read_run]. unfold run_lbas, content. simpl. by rewrite take_nil, app_nil_r.
    + rewrite (u32_next d lba Hw) by lia. rewrite IH by (done || lia).
      f_equal. f_equal. f_equal. lia.
Qed.

Definition extent_on (d : D) (e : sxfs_extent) : Prop :=
  0 <= start_lba e /\ 0 <= sector_count e /\ start_lba e + sector_count e <= dev_size d.

Lemma content_app d a b : content d (a ++ b) = content d a ++ content d b.
Proof. unfold content. by rewrite map_app, concat_app. Qed.

Lemma read_extents_spec d es : forall want acc,
  dev_ok d -> no_wrap d -> Forall (extent_on d) es -> zlen acc <= want ->
  read_extents d es want acc =
  (acc ++ take (Z.to_nat (want - zlen acc)) (content d (flat_map extent_lbas es)), true).
Proof.
  induction es as [|e es IH]; intros want acc Hd Hw Hes Hacc; cbn [read_extents flat_map].
  - unfold content. simpl. by rewrite take_nil, app_nil_r.
  - inversion Hes as [|? ? (E1 & E2 & E3) Hes']; subst.
    destruct (zlen acc <? want) eqn:E.
    2: { replace (Z.to_nat (want - zlen acc)) with 0%nat by lia. by rewrite take_0, app_nil_r. }
    rewrite read_run_spec by (done || lia). fold (extent_lbas e).
    set (ce := content d (extent_lbas e)).
    assert (Hlen : zlen (acc ++ take (Z.to_nat (want - zlen acc)) ce) =
                   zlen acc + Z.min (want - zlen acc) (zlen ce)).
    { rewrite zlen_app. f_equal. unfold zlen in *. rewrite length_take. lia. }
    rewrite IH by (done || lia). rewrite content_app. fold ce. rewrite take_app, app_assoc.
    f_equal. f_equal. f_equal. rewrite Hlen. unfold zlen. lia.
Qed.

Lemma live_extents_all i :
  in_extent_count i <= SXFS_MAX_EXTENTS ->
  live_extents i = take (Z.to_nat (in_extent_count i)) (in_extents i).
Proof. intros Hc. unfold live_extents. by rewrite Z.min_l. Qed.

(** ** Writing *)

Lemma pad_sector_bytes l : bytes_ok l -> sector_bytes (pad_sector l).
Proof.
  intros Hb. unfold pad_sector. split.
  - rewrite length_app, length_replicate, length_take. lia.
  - apply bytes_ok_app. split; [auto with bytes|]. apply bytes_ok_replicate. unfold byte. lia.
Qed.

(** Data laid out over [n] sectors, zeros behind it. *)
Fixpoint paged (n : nat) (rest : list Z) : list Z :=
  match n with
  | O => []
  | S n => pad_sector rest ++ paged n (drop 512 rest)
  end.

Lemma paged_prefix n : forall rest, (length rest <= 512 * n)%nat -> take (length rest) (paged n rest) = rest.
Proof.
  induction n as [|n IH]; intros rest Hl; [destruct rest; simpl in *; [done|lia]|].
  cbn [paged]. unfold pad_sector. rewrite <- app_assoc.
  destruct (Nat.le_gt_cases (length rest) 512) as [Hle|Hgt].
  - rewrite (take_ge rest 512) by lia. by rewrite take_app_length.
  - rewrite length_take, Nat.min_l by lia. replace (512 - 512)%nat with 0%nat by lia. simpl.
    rewrite take_app, length_take, Nat.min_l by lia. rewrite (take_ge (take 512 rest)) by (rewrite length_take; lia).
    specialize (IH (drop 512 rest)). rewrite length_drop in IH. rewrite IH by lia. apply take_drop.
Qed.

(** Writing a list of distinct sectors one after the other. *)
Definition wrote (d : D) (ls : list Z) (rest : list Z) (d' : D) : Prop :=
  dev_ok d' /\ dev_size d' = dev_size d /\
  content d' ls = paged (length ls) rest /\
  forall k, ~ In k ls -> dev_sector d' k = dev_sector d k.

Lemma wrote_cons d k ls rest d1 d' :
  wrote d [k] rest d1 -> wrote d1 ls (drop 512 rest) d' -> ~ In k ls -> wrote d (k :: ls) rest d'.
Proof.
  intros (A1 & A2 & A3 & A4) (B1 & B2 & B3 & B4) Hk. split; [done|]. split; [congruence|]. split.
  - cbn [length paged]. rewrite <- B3.
    change (content d' (k :: ls)) with (dev_sector d' k ++ content d' ls). f_equal.
    rewrite (B4 k Hk). unfold content in A3. cbn [length paged map concat] in A3.
    by rewrite !app_nil_r in A3.
  - intros j Hj. rewrite B4 by (intros K; apply Hj; by right). apply A4. intros [->|[]]. apply Hj. by left.
Qed.

Lemma wrote_app d ls1 ls2 rest d1 d' :
  wrote d ls1 rest d1 -> wrote d1 ls2 (drop (512 * length ls1) rest) d' ->
  (forall k, In k ls1 -> ~ In k ls2) -> wrote d (ls1 ++ ls2) rest d'.
Proof.
  intros (A1 & A2 & A3 & A4) (B1 & B2 & B3 & B4) Hdis. split; [done|]. split; [congruence|].
  assert (Hpaged : forall n m r, paged (n + m) r = paged n r ++ paged m (drop (512 * n) r)).
  { induction n as [|n IH]; intros m r; [by rewrite drop_0|]. cbn [paged Nat.add].
    rewrite IH, <- app_assoc, drop_drop. do 2 f_equal. f_equal. f_equal. lia. }
  split.
  - rewrite content_app, length_app, Hpaged, <- B3, <- A3. f_equal. apply content_ext.
    intros k Hk. apply B4. by apply Hdis.
  - intros k Hk. rewrite in_app_iff in Hk. rewrite B4 by tauto. apply A4. tauto.
Qed.

(** Only the device of the context changes. *)
Definition dev_only (c c' : sxfs_ctx D) : Prop := c' = with_dev c (cx_dev c').

Lemma with_dev_dev (c : sxfs_ctx D) d : cx_dev (with_dev c d) = d.
Proof. done. Qed.
Lemma with_dev_twice (c : sxfs_ctx D) d d' : with_dev (with_dev c d) d' = with_dev c d'.
Proof. done. Qed.

Lemma write_sector_one c k data :
  dev_ok (cx_dev c) -> 0 <= k < dev_size (cx_dev c) -> sector_bytes data ->
  exists d', write_sector k 1 data c = (with_dev c d', Ok tt) /\ dev_ok d' /\
    dev_size d' = dev_size (cx_dev c) /\
    forall j, dev_sector d' j = if j =? k then data else dev_sector (cx_dev c) j.
Proof.
  intros Hd Hk Hs. destruct (write_one _ k data Hd Hk Hs) as (d' & E & H1 & H2 & H3).
  exists d'. unfold write_sector. rewrite E. done.
Qed.

Lemma write_run_spec n : forall lba rest c,
  dev_ok (cx_dev c) -> no_wrap (cx_dev c) -> 0 <= lba ->
  lba + Z.of_nat n <= dev_size (cx_dev c) -> bytes_ok rest ->
  exists d', write_run n lba rest c = (with_dev c d', Ok (drop (512 * n) rest)) /\
    wrote (cx_dev c) (run_lbas lba n) rest d'.
Proof.
  induction n as [|n IH]; intros lba rest c Hd Hw H1 H2 Hb.
  - exists (cx_dev c). cbn [write_run]. unfold st_ret. rewrite drop_0.
    split; [by destruct c|]. split; [done|]. split; [done|]. split; [done|]. done.
  - cbn [write_run]. unfold st_bind.
    destruct (write_sector_one c lba (pad_sector rest) Hd ltac:(lia) (pad_sector_bytes _ Hb))
      as (d1 & -> & D1 & D2 & D3).
    assert (Hone : wrote (cx_dev c) [lba] rest d1).
    { split; [done|]. split; [done|]. split.
      - unfold content. cbn [map concat length paged]. by rewrite D3, Z.eqb_refl.
      - intros k Hk. rewrite D3. destruct (k =? lba) eqn:E; [|done]. exfalso. apply Hk. left. lia. }
    rewrite run_lbas_S. destruct n as [|n].
    + exists d1. cbn [write_run]. unfold st_ret. split; [done|]. exact Hone.
    + rewrite (u32_next (cx_dev c) lba Hw) by lia.
      destruct (IH (lba + 1) (drop 512 rest) (with_dev c d1)) as (d' & E & Hwr);
        try (simpl; unfold no_wrap in *; rewrite ?D2; done || lia); [auto with bytes|].
      exists d'. rewrite E, with_dev_twice, drop_drop. split.
      * do 3 f_equal. lia.
      * apply (wrote_cons _ _ _ _ d1); [done..|]. rewrite run_lbas_in. lia.
Qed.

Lemma write_extents_spec es : forall rest c,
  dev_ok (cx_dev c) -> no_wrap (cx_dev c) -> Forall (extent_on (cx_dev c)) es ->
  List.NoDup (flat_map extent_lbas es) -> bytes_ok rest ->
  exists d', write_extents es rest c = (with_dev c d', Ok tt) /\
    wrote (cx_dev c) (flat_map extent_lbas es) rest d'.
Proof.
  induction es as [|e es IH]; intros rest c Hd Hw Hes Hnd Hb.
  - exists (cx_dev c). split; [by destruct c|]. by repeat split.
  - inversion Hes as [|? ? (E1 & E2 & E3) Hes']; subst. cbn [write_extents flat_map] in *.
    unfold st_bind.
    destruct (write_run_spec (Z.to_nat (sector_count e)) (start_lba e) rest c) as (d1 & -> & W1);
      [done|done|lia|lia|done|].
    pose proof W1 as (D1 & D2 & _).
    destruct (IH (drop (512 * Z.to_nat (sector_count e)) rest) (with_dev c d1)) as (d' & -> & W2).
    + done.
    + unfold no_wrap in *. simpl. lia.
    + eapply Forall_impl; [exact Hes'|]. intros x (X1 & X2 & X3). unfold extent_on. simpl. rewrite D2. done.
    + by apply NoDup_app_remove_l in Hnd.
    + auto with bytes.
    + exists d'. split; [done|]. apply (wrote_app _ _ _ _ d1); [done| |].
      * by rewrite (run_lbas_length (start_lba e) _ : length (extent_lbas e) = _).
      * intros k K1 K2. by apply (NoDup_app_disjoint _ _ Hnd k).
Qed.
End device.
