(* ===== verification/SxfsAlloc.v ===== *)
(** * The SxFS core: allocation and file contents

    The invariant [vol_ok] of a volume (every sector in use belongs to exactly
    one inode and is marked, and nothing else is), that growing a file keeps it
    and the contents of every file even when the new run overlaps the old one,
    and that what is stored is what is read back. *)

From S2P Require Import Prelude Bytes SxfsFormat SxfsFormatFacts SxfsCore SxfsDevice.
Open Scope st_scope.

(** ** Marking extents *)

Lemma set_extent_bits_spec bm start count v k :
  bytes_ok bm -> 0 <= start -> 0 <= count -> start + count <= 8 * zlen bm ->
  8 * zlen bm <= 4294967296 -> 0 <= k ->
  bytes_ok (set_extent_bits bm start count v) /\
  length (set_extent_bits bm start count v) = length bm /\
  sxfs_bitmap_test (set_extent_bits bm start count v) k =
  if (start <=? k) && (k <? start + count) then v else sxfs_bitmap_test bm k.
Proof.
  intros Hb Hs Hc Hr Hw Hk. unfold set_extent_bits.
  apply (for_z_ind (fun n b => bytes_ok b /\ length b = length bm /\
    sxfs_bitmap_test b k = if (start <=? k) && (k <? start + n) then v else sxfs_bitmap_test bm k)); [done| |].
  - split; [done|]. split; [done|]. by case_if; [lia|].
  - intros n b Hn (B1 & B2 & B3). rewrite u32_id by lia.
    split; [by apply bitmap_set_bytes|]. split; [by rewrite bitmap_set_length|].
    rewrite bitmap_test_set by (done || (unfold zlen in *; lia)). rewrite B3.
    repeat case_if; try done; lia.
Qed.

(** ** Volumes *)

Section volume.
Context {D : Type} `{ReliableDevice D}.

Definition inode_id_ok (id : Z) : Prop := 1 <= id <= SXFS_MAX_INODES.

Definition extent_in_data (total : Z) (e : sxfs_extent) : Prop :=
  SXFS_DATA_LBA <= start_lba e /\ 0 <= sector_count e /\ start_lba e + sector_count e <= total.

(** At most one extent, in the data region, as this core writes them, with room
    for the size.  The format has room for eight, and the kernel's own driver
    uses them; a volume it wrote is outside [vol_ok] unless its files are in one
    piece. *)
Definition inode_ok (total : Z) (i : sxfs_inode) : Prop :=
  0 <= in_extent_count i <= 1 /\ length (in_extents i) = 8%nat /\
  Forall (extent_in_data total) (live_extents i) /\
  0 <= in_size i <= 512 * zlen (inode_lbas i).

Record vol_ok (c : sxfs_ctx D) : Prop := {
  vo_dev : dev_ok (cx_dev c);
  vo_wrap : no_wrap (cx_dev c);
  vo_total : SXFS_DATA_LBA < cx_total_sectors c <= SXFS_MAX_TOTAL_SECTORS;
  vo_size : cx_total_sectors c <= dev_size (cx_dev c);
  vo_bytes : bytes_ok (cx_block_bitmap c);
  vo_bits : 8 * zlen (cx_block_bitmap c) = SXFS_MAX_TOTAL_SECTORS;
  vo_table : zlen (cx_inodes c) = SXFS_MAX_INODES;
  vo_inode : forall id i, inode_id_ok id -> inode_at c id = Some i -> inode_ok (cx_total_sectors c) i;
  vo_marked : forall id i k, inode_id_ok id -> inode_at c id = Some i -> In k (inode_lbas i) ->
    sxfs_bitmap_test (cx_block_bitmap c) k = true;
  vo_owner : forall id id' i i' k, inode_id_ok id -> inode_id_ok id' ->
    inode_at c id = Some i -> inode_at c id' = Some i' ->
    In k (inode_lbas i) -> In k (inode_lbas i') -> id = id' }.

(** Nothing is marked that no file owns. *)
Definition no_leak (c : sxfs_ctx D) : Prop :=
  forall k, SXFS_DATA_LBA <= k < cx_total_sectors c ->
    sxfs_bitmap_test (cx_block_bitmap c) k = true ->
    exists id i, inode_id_ok id /\ inode_at c id = Some i /\ In k (inode_lbas i).

(** *** Inodes *)

Lemma inode_at_ok (c : sxfs_ctx D) id : inode_id_ok id -> inode_at c id = Some (at_ inode0 (cx_inodes c) (id - 1)).
Proof. intros [? ?]. unfold inode_at. by case_if; [lia|]. Qed.

Lemma inode_at_put (c : sxfs_ctx D) id i id' :
  zlen (cx_inodes c) = SXFS_MAX_INODES -> inode_id_ok id -> inode_id_ok id' ->
  inode_at (put_inode c id i) id' = if id =? id' then Some i else inode_at c id'.
Proof.
  intros Hl H1 H2. rewrite !inode_at_ok by done. unfold put_inode, with_inodes. simpl.
  unfold inode_id_ok in *. rewrite at_set_at by lia.
  destruct (id - 1 =? id' - 1) eqn:E; destruct (id =? id') eqn:E'; try lia; done.
Qed.

Lemma inode_lbas_case i :
  0 <= in_extent_count i <= 1 -> length (in_extents i) = 8%nat ->
  (in_extent_count i = 0 /\ live_extents i = [] /\ inode_lbas i = []) \/
  (exists e, in_extent_count i = 1 /\ live_extents i = [e] /\ inode_lbas i = extent_lbas e).
Proof.
  intros Hc Hl. unfold inode_lbas, live_extents, SXFS_MAX_EXTENTS.
  destruct (Z.eq_dec (in_extent_count i) 0) as [E|E].
  - left. rewrite E. done.
  - right. assert (E1 : in_extent_count i = 1) by lia. rewrite E1. destruct (in_extents i) as [|e t]; [done|].
    exists e. split; [done|]. split; [done|]. simpl. apply app_nil_r.
Qed.

Lemma inode_lbas_nodup i :
  0 <= in_extent_count i <= 1 -> length (in_extents i) = 8%nat -> List.NoDup (inode_lbas i).
Proof.
  intros Hc Hl. destruct (inode_lbas_case i Hc Hl) as [(_ & _ & ->)|(e & _ & _ & ->)];
    [constructor|apply run_lbas_nodup].
Qed.

Lemma extent_lbas_in e k :
  0 <= sector_count e -> In k (extent_lbas e) <-> start_lba e <= k < start_lba e + sector_count e.
Proof. intros Hc. unfold extent_lbas. rewrite run_lbas_in. lia. Qed.

Lemma inode_lbas_range total i k :
  inode_ok total i -> In k (inode_lbas i) -> SXFS_DATA_LBA <= k < total.
Proof.
  intros (Hc & Hl & He & _) Hk. destruct (inode_lbas_case i Hc Hl) as [(_ & _ & E)|(e & _ & El & E)];
    rewrite E in Hk; [done|]. rewrite El in He. inversion He as [|? ? (E1 & E2 & E3) _]; subst.
  apply extent_lbas_in in Hk; [lia|done].
Qed.

Lemma capacity_sectors total i :
  inode_ok total i -> SXFS_DATA_LBA < total <= SXFS_MAX_TOTAL_SECTORS ->
  sxfs_inode_capacity_sectors i = zlen (inode_lbas i) /\ zlen (inode_lbas i) < total /\
  inode_capacity_bytes i = 512 * zlen (inode_lbas i).
Proof.
  intros (Hc & Hl & He & _) Ht.
  assert (Hd : 0 < SXFS_DATA_LBA) by done. assert (Hm : SXFS_MAX_TOTAL_SECTORS = 2097152) by done.
  assert (Hs : sxfs_inode_capacity_sectors i = zlen (inode_lbas i) /\ zlen (inode_lbas i) < total).
  { unfold sxfs_inode_capacity_sectors.
    destruct (inode_lbas_case i Hc Hl) as [(_ & El & E)|(e & _ & El & E)]; rewrite E, El in *.
    - split; [done|]. change (zlen []) with 0. lia.
    - inversion He as [|? ? (E1 & E2 & E3) _]; subst. simpl. unfold extent_lbas, zlen.
      rewrite run_lbas_length. rewrite u32_id by lia. lia. }
  destruct Hs as [Hs1 Hs2]. split; [done|]. split; [done|].
  unfold inode_capacity_bytes, SXFS_SECTOR_SIZE. rewrite Hs1. pose proof (zlen_nonneg (inode_lbas i)).
  rewrite u32_id; lia.
Qed.

(** *** Moving a run *)

Lemma copy_run_spec n : forall src dst_lba sectors copied (c : sxfs_ctx D),
  dev_ok (cx_dev c) -> no_wrap (cx_dev c) -> 0 <= src -> src + Z.of_nat n <= dev_size (cx_dev c) ->
  0 <= dst_lba -> 0 <= copied -> dst_lba + copied + Z.of_nat n <= dev_size (cx_dev c) ->
  copied + Z.of_nat n <= sectors ->
  dst_lba + copied <= src \/ src + Z.of_nat n <= dst_lba + copied ->
  exists d', copy_run n src dst_lba sectors copied c = (with_dev c d', Ok (copied + Z.of_nat n)) /\
    dev_ok d' /\ dev_size d' = dev_size (cx_dev c) /\
    forall k, dev_sector d' k =
      if (dst_lba + copied <=? k) && (k <? dst_lba + copied + Z.of_nat n)
      then dev_sector (cx_dev c) (src + (k - (dst_lba + copied))) else dev_sector (cx_dev c) k.
Proof.
  induction n as [|n IH]; intros src dst_lba sectors copied c Hd Hw H1 H2 H3 H4 H5 H6 Hsafe; cbn [copy_run].
  - exists (cx_dev c). rewrite Z.add_0_r. split; [by destruct c|]. split; [done|]. split; [done|].
    intros k. by case_if; [lia|].
  - case_if; [|lia]. unfold st_bind, read_sector. rewrite read_one by (done || lia).
    unfold no_wrap in Hw. rewrite (u32_id (dst_lba + copied)) by lia.
    destruct (write_sector_one c (dst_lba + copied) (dev_sector (cx_dev c) src) Hd ltac:(lia)
                (dev_sector_ok _ src Hd ltac:(lia))) as (d1 & -> & D1 & D2 & D3).
    destruct n as [|n].
    + exists d1. cbn [copy_run]. unfold st_ret. split; [do 2 f_equal; lia|]. split; [done|]. split; [done|].
      intros k. rewrite D3. destruct (k =? dst_lba + copied) eqn:Ek; case_if; try lia; [|done].
      f_equal. lia.
    + rewrite (u32_id (src + 1)) by lia.
      destruct (IH (src + 1) dst_lba sectors (copied + 1) (with_dev c d1))
        as (d' & -> & D4 & D5 & D6); try (unfold no_wrap; simpl; rewrite ?D2; done || lia).
      exists d'. rewrite with_dev_twice. split; [do 2 f_equal; lia|]. split; [done|]. split; [simpl in D5; congruence|].
      intros k. rewrite D6, !with_dev_dev, !D3.
      destruct ((dst_lba + (copied + 1) <=? k) && (k <? dst_lba + (copied + 1) + Z.of_nat (S n))) eqn:Ek.
      * repeat case_if; try lia. f_equal. lia.
      * repeat case_if; try lia; try done. f_equal. lia.
Qed.

(** The part of the invariant that does not speak of the bitmap. *)
Definition base_ok (c : sxfs_ctx D) : Prop :=
  dev_ok (cx_dev c) /\ no_wrap (cx_dev c) /\
  SXFS_DATA_LBA < cx_total_sectors c <= SXFS_MAX_TOTAL_SECTORS /\
  cx_total_sectors c <= dev_size (cx_dev c).

Lemma copy_inode_spec i dst_lba (c : sxfs_ctx D) :
  base_ok c -> inode_ok (cx_total_sectors c) i -> SXFS_DATA_LBA <= dst_lba ->
  dst_lba + zlen (inode_lbas i) <= cx_total_sectors c ->
  (forall e, live_extents i = [e] ->
     dst_lba <= start_lba e \/ start_lba e + sector_count e <= dst_lba) ->
  exists d', copy_inode_sectors i dst_lba (zlen (inode_lbas i)) c = (with_dev c d', Ok tt) /\
    dev_ok d' /\ dev_size d' = dev_size (cx_dev c) /\
    content d' (run_lbas dst_lba (length (inode_lbas i))) = content (cx_dev c) (inode_lbas i) /\
    (forall k, ~ (dst_lba <= k < dst_lba + zlen (inode_lbas i)) -> dev_sector d' k = dev_sector (cx_dev c) k).
Proof.
  intros Hv Hi H1 H2 Hsafe. pose proof Hi as (Hc & Hl & He & _). unfold copy_inode_sectors.
  destruct (inode_lbas_case i Hc Hl) as [(_ & El & E)|(e & _ & El & E)]; rewrite E, El in *.
  - exists (cx_dev c). cbn [copy_extents]. split; [by destruct c|]. destruct Hv as (V1 & _). split; [done|]. split; [done|]. done.
  - inversion He as [|? ? (E1 & E2 & E3) _]; subst. cbn [copy_extents].
    assert (Hz : zlen (extent_lbas e) = sector_count e) by (unfold zlen, extent_lbas; rewrite run_lbas_length; lia).
    assert (Hdata : SXFS_DATA_LBA = 3077) by done.
    destruct Hv as (V1 & V2 & V3 & V4). rewrite Hz in *. specialize (Hsafe e eq_refl).
    case_if.
    + unfold st_bind.
      destruct (copy_run_spec (Z.to_nat (sector_count e)) (start_lba e) dst_lba (sector_count e) 0 c)
        as (d' & -> & D1 & D2 & D3); try done; try lia.
      exists d'. split; [done|]. split; [done|]. split; [done|].
      assert (Hlen : length (extent_lbas e) = Z.to_nat (sector_count e)) by apply run_lbas_length.
      split.
      * rewrite Hlen. unfold content, extent_lbas, run_lbas. rewrite !map_map. f_equal.
        apply map_ext_in. intros j Hj%in_seq. rewrite D3. case_if; [|lia]. f_equal. lia.
      * intros k Hk. rewrite D3. case_if; [lia|done].
    + exists (cx_dev c). split; [by destruct c|]. split; [done|]. split; [done|].
      assert (E0 : sector_count e = 0) by lia. split; [|done].
      unfold extent_lbas. rewrite E0. done.
Qed.

(** *** Growing a file *)

Definition owns (i : sxfs_inode) (k : Z) : bool := existsb (Z.eqb k) (inode_lbas i).

Lemma owns_spec i k : reflect (In k (inode_lbas i)) (owns i k).
Proof.
  apply iff_reflect. unfold owns. rewrite existsb_exists. split.
  - intros Hk. exists k. split; [done|lia].
  - intros (j & Hj & E). by replace k with j by lia.
Qed.

Lemma own_bits_spec total i bm v k :
  inode_ok total i -> total <= 8 * zlen bm -> 8 * zlen bm <= 4294967296 -> bytes_ok bm -> 0 <= k ->
  bytes_ok (set_inode_extent_bits bm i v) /\
  length (set_inode_extent_bits bm i v) = length bm /\
  sxfs_bitmap_test (set_inode_extent_bits bm i v) k =
  if owns i k then v else sxfs_bitmap_test bm k.
Proof.
  intros (Hc & Hl & He & _) Ht Hw Hb Hk. unfold set_inode_extent_bits.
  destruct (inode_lbas_case i Hc Hl) as [(_ & El & E)|(e & _ & El & E)]; rewrite El in *; simpl.
  - unfold owns. by rewrite E.
  - inversion He as [|? ? (E1 & E2 & E3) _]; subst.
    assert (Hd : 0 <= SXFS_DATA_LBA) by done.
    destruct (set_extent_bits_spec bm (start_lba e) (sector_count e) v k) as (S1 & S2 & S3); try done; try lia.
    split; [done|]. split; [done|]. rewrite S3.
    pose proof (extent_lbas_in e k E2) as Hin. rewrite <- E in Hin.
    destruct (owns_spec i k) as [K|K]; rewrite Hin in K; case_if; try done; lia.
Qed.

Lemma sectors_for_spec size :
  0 < size < 4294967296 - 511 ->
  512 * (sectors_for size - 1) < size <= 512 * sectors_for size.
Proof.
  intros Hs. unfold sectors_for, SXFS_SECTOR_SIZE. rewrite u32_id by lia.
  pose proof (Z.div_mod (size + (512 - 1)) 512 ltac:(lia)).
  pose proof (Z.mod_pos_bound (size + (512 - 1)) 512 ltac:(lia)). lia.
Qed.

(** The same volume but for inode [id], which is [i'] now; the other files keep
    their records and their bytes. *)
Definition others_kept (c c' : sxfs_ctx D) (id : Z) : Prop :=
  cx_total_sectors c' = cx_total_sectors c /\
  forall id' i, inode_id_ok id' -> id' <> id -> inode_at c id' = Some i ->
    inode_at c' id' = Some i /\
    content (cx_dev c') (inode_lbas i) = content (cx_dev c) (inode_lbas i).

(** The context after a growth to the run [start, start + required). *)
Definition grown (c : sxfs_ctx D) (id : Z) (i : sxfs_inode) (start required : Z) (d' : D) : sxfs_ctx D :=
  put_inode
    (with_block_bitmap (with_dev c d')
       (set_extent_bits (set_inode_extent_bits (cx_block_bitmap c) i false) start required true))
    id (in_with_extents i 1 (one_extent start required)).

Definition new_run (c : sxfs_ctx D) (i : sxfs_inode) (start required : Z) : Prop :=
  SXFS_DATA_LBA <= start /\ start + required <= cx_total_sectors c /\
  zlen (inode_lbas i) <= required /\
  forall k, start <= k < start + required ->
    In k (inode_lbas i) \/ sxfs_bitmap_test (cx_block_bitmap c) k = false.

Lemma grown_bits c id i start required d' k :
  vol_ok c -> inode_id_ok id -> inode_at c id = Some i -> new_run c i start required -> 0 <= k ->
  0 <= required ->
  bytes_ok (cx_block_bitmap (grown c id i start required d')) /\
  length (cx_block_bitmap (grown c id i start required d')) = length (cx_block_bitmap c) /\
  sxfs_bitmap_test (cx_block_bitmap (grown c id i start required d')) k =
  if (start <=? k) && (k <? start + required) then true
  else if owns i k then false else sxfs_bitmap_test (cx_block_bitmap c) k.
Proof.
  intros Hv Hid Hi (N1 & N2 & _ & _) Hk Hreq. pose proof (vo_inode c Hv id i Hid Hi) as Hok.
  pose proof (vo_total c Hv). pose proof (vo_bits c Hv). assert (Hd : 0 <= SXFS_DATA_LBA) by done.
  assert (Hmax : SXFS_MAX_TOTAL_SECTORS = 2097152) by done.
  destruct (own_bits_spec (cx_total_sectors c) i (cx_block_bitmap c) false k Hok)
    as (O1 & O2 & O3); try lia; [apply (vo_bytes c Hv)|].
  unfold grown. simpl.
  destruct (set_extent_bits_spec (set_inode_extent_bits (cx_block_bitmap c) i false) start required true k)
    as (S1 & S2 & S3); try done; try (unfold zlen in *; rewrite ?O2; lia).
  split; [done|]. split; [congruence|]. by rewrite S3, O3.
Qed.

Lemma grown_inode c id i start required d' id' :
  vol_ok c -> inode_id_ok id -> inode_id_ok id' ->
  inode_at (grown c id i start required d') id' =
  if id =? id' then Some (in_with_extents i 1 (one_extent start required)) else inode_at c id'.
Proof. intros Hv H1 H2. unfold grown. rewrite inode_at_put; [done|apply (vo_table c Hv)|done..]. Qed.

Lemma grown_lbas i start required :
  inode_lbas (in_with_extents i 1 (one_extent start required)) = run_lbas start (Z.to_nat required).
Proof. unfold inode_lbas, live_extents. simpl. apply app_nil_r. Qed.

Lemma new_run_foreign c id i start required id' i' k :
  vol_ok c -> inode_id_ok id -> inode_id_ok id' -> inode_at c id = Some i -> inode_at c id' = Some i' ->
  id' <> id -> new_run c i start required -> In k (inode_lbas i') -> ~ (start <= k < start + required).
Proof.
  intros Hv Hid Hid' Hi Hi' Hne (_ & _ & _ & Hfree) Hk Hrun.
  destruct (Hfree k Hrun) as [Hown|Hbit].
  - apply Hne. by apply (vo_owner c Hv id' id i' i k).
  - by rewrite (vo_marked c Hv id' i' k) in Hbit.
Qed.

Lemma grown_ok c id i start required d' :
  vol_ok c -> inode_id_ok id -> inode_at c id = Some i -> new_run c i start required -> 0 <= required ->
  dev_ok d' -> dev_size d' = dev_size (cx_dev c) -> vol_ok (grown c id i start required d').
Proof.
  intros Hv Hid Hi Hnew Hreq Hd' Hsize. pose proof Hnew as (N1 & N2 & N3 & N4).
  pose proof (fun k => grown_bits c id i start required d' k Hv Hid Hi Hnew) as Hbits.
  pose proof (fun id' => grown_inode c id i start required d' id' Hv Hid) as Hino.
  assert (Hd : 0 <= SXFS_DATA_LBA) by done.
  destruct (Hbits 0 ltac:(lia) Hreq) as (B1 & B2 & _).
  assert (Hrun : forall k, In k (run_lbas start (Z.to_nat required)) <-> start <= k < start + required)
    by (intros k; rewrite run_lbas_in; lia).
  pose proof (vo_inode c Hv id i Hid Hi) as (_ & _ & _ & Hsz).
  pose proof Hv as [V1 V2 V3 V4 V5 V6 V7 V8 V9 V10].
  split; try done.
  - unfold no_wrap in *. simpl. lia.
  - simpl. lia.
  - unfold zlen in *. rewrite B2. done.
  - unfold grown. simpl. unfold zlen in *. rewrite length_set_at. done.
  - intros id' i' Hid' Hi'. change (cx_total_sectors (grown c id i start required d')) with (cx_total_sectors c).
    rewrite Hino in Hi' by done. case_if_in Hi'; [|by apply (V8 id')]. simplify_eq.
    split; [simpl; lia|]. split; [done|]. split.
    + unfold live_extents. simpl. constructor; [|constructor]. done.
    + rewrite grown_lbas. unfold zlen. rewrite run_lbas_length. simpl. lia.
  - intros id' i' k Hid' Hi' Hk. rewrite Hino in Hi' by done. case_if_in Hi'.
    + simplify_eq. rewrite grown_lbas, Hrun in Hk. destruct (Hbits k ltac:(lia) Hreq) as (_ & _ & ->).
      by case_if; [|lia].
    + pose proof (inode_lbas_range _ i' k (V8 id' i' Hid' Hi') Hk).
      destruct (Hbits k ltac:(lia) Hreq) as (_ & _ & ->). case_if; [done|]. destruct (owns_spec i k) as [Hown|Hown].
      * exfalso. specialize (V10 id id' i i' k Hid Hid' Hi Hi' Hown Hk). lia.
      * by apply (V9 id' i').
  - intros id1 id2 i1 i2 k H1 H2 E1 E2 K1 K2. rewrite Hino in E1, E2 by done.
    case_if_in E1; case_if_in E2; simplify_eq; [lia|..].
    + exfalso. rewrite grown_lbas, Hrun in K1. eapply new_run_foreign with (id := id) (id' := id2) in K2; try done. lia.
    + exfalso. rewrite grown_lbas, Hrun in K2. eapply new_run_foreign with (id := id) (id' := id1) in K1; try done. lia.
    + by apply (V10 id1 id2 i1 i2 k).
Qed.

Lemma grown_no_leak c id i start required d' :
  vol_ok c -> inode_id_ok id -> inode_at c id = Some i -> new_run c i start required -> 0 <= required ->
  no_leak c -> no_leak (grown c id i start required d').
Proof.
  intros Hv Hid Hi Hnew Hreq Hleak k Hk. assert (Hd : 0 <= SXFS_DATA_LBA) by done.
  pose proof (fun id' => grown_inode c id i start required d' id' Hv Hid) as Hino.
  destruct (grown_bits c id i start required d' k Hv Hid Hi Hnew ltac:(simpl in Hk; lia) Hreq)
    as (_ & _ & ->). case_if.
  - intros _. exists id, (in_with_extents i 1 (one_extent start required)). split; [done|].
    rewrite Hino by done. rewrite Z.eqb_refl. split; [done|]. rewrite grown_lbas, run_lbas_in. lia.
  - destruct (owns_spec i k) as [Hown|Hown]; [done|]. intros Ht.
    destruct (Hleak k Hk Ht) as (id0 & i0 & O1 & O2 & O3).
    exists id0, i0. split; [done|]. rewrite Hino by done. split; [|done].
    destruct (id =? id0) eqn:E; [|done]. exfalso. apply Hown.
    replace id0 with id in O2 by lia. congruence.
Qed.

Lemma vol_ok_bits c bm :
  vol_ok c -> bytes_ok bm -> length bm = length (cx_block_bitmap c) ->
  (forall k, 0 <= k -> sxfs_bitmap_test bm k = sxfs_bitmap_test (cx_block_bitmap c) k) ->
  vol_ok (with_block_bitmap c bm).
Proof.
  intros [V1 V2 V3 V4 V5 V6 V7 V8 V9 V10] Hb Hl Ht. assert (Hd : 0 <= SXFS_DATA_LBA) by done.
  split; try done.
  - unfold zlen in *. simpl. by rewrite Hl.
  - intros id i k Hid Hi Hk. pose proof (inode_lbas_range _ i k (V8 id i Hid Hi) Hk).
    simpl. rewrite Ht by lia. by apply (V9 id i).
Qed.

Lemma no_leak_bits c bm :
  no_leak c ->
  (forall k, 0 <= k -> sxfs_bitmap_test bm k = sxfs_bitmap_test (cx_block_bitmap c) k) ->
  no_leak (with_block_bitmap c bm).
Proof.
  intros Hl Ht k Hk. assert (Hd : 0 <= SXFS_DATA_LBA) by done. simpl in *. rewrite Ht by lia. by apply Hl.
Qed.

(** The search of [ensure_capacity], after the file's own sectors are freed. *)
Lemma growth_search c id i required :
  vol_ok c -> inode_id_ok id -> inode_at c id = Some i -> zlen (inode_lbas i) < required ->
  let c1 := with_block_bitmap c (set_inode_extent_bits (cx_block_bitmap c) i false) in
  find_free_run c1 required = 0 \/
  (new_run c i (find_free_run c1 required) required /\
   forall e, live_extents i = [e] ->
     find_free_run c1 required <= start_lba e \/
     start_lba e + sector_count e <= find_free_run c1 required).
Proof.
  intros Hv Hid Hi Hreq c1. pose proof (vo_inode c Hv id i Hid Hi) as Hok.
  pose proof (vo_total c Hv) as Ht. pose proof (vo_bits c Hv) as Hb8.
  assert (Hd : SXFS_DATA_LBA = 3077) by done. assert (Hm : SXFS_MAX_TOTAL_SECTORS = 2097152) by done.
  pose proof (zlen_nonneg (inode_lbas i)) as Hz.
  assert (Hbits : forall k, 0 <= k -> sxfs_bitmap_test (cx_block_bitmap c1) k =
            if owns i k then false else sxfs_bitmap_test (cx_block_bitmap c) k).
  { intros k Hk. by apply (own_bits_spec (cx_total_sectors c) i (cx_block_bitmap c) false k Hok);
      [lia..|apply (vo_bytes c Hv)|]. }
  unfold find_free_run. change (cx_total_sectors c1) with (cx_total_sectors c).
  destruct (find_free_run_spec (cx_block_bitmap c1) SXFS_DATA_LBA (cx_total_sectors c) required)
    as [[E _]|(R1 & R2 & R3 & _ & R5)]; [lia..|by left|]. right.
  set (r := sxfs_find_free_run _ _ _ _) in *. split.
  - split; [done|]. split; [done|]. split; [lia|]. intros k Hk. specialize (R3 k Hk).
    rewrite Hbits in R3 by lia. destruct (owns_spec i k); [by left|by right].
  - intros e El. pose proof Hok as (Hc & Hl & He & _). rewrite El in He.
    inversion He as [|? ? (E1 & E2 & E3) _]; subst.
    destruct (Z_le_gt_dec r (start_lba e)) as [|Hgt]; [by left|].
    destruct (Z_le_gt_dec (start_lba e + sector_count e) r) as [|Hlt]; [by right|]. exfalso.
    destruct R5 as [->|R5]; [lia|]. rewrite Hbits in R5 by lia.
    destruct (owns_spec i (r - 1)) as [|Hno]; [done|]. apply Hno.
    unfold inode_lbas. rewrite El. simpl. rewrite app_nil_r. apply extent_lbas_in; lia.
Qed.

(** What [ensure_capacity] leaves. *)
Definition capacity_result (c : sxfs_ctx D) (id : Z) (i : sxfs_inode) (size : Z)
    (r : sxfs_ctx D * res sxfs_err unit) : Prop :=
  match r with
  | (c', Ok tt) =>
      vol_ok c' /\ (no_leak c -> no_leak c') /\ others_kept c c' id /\
      exists i', inode_at c' id = Some i' /\ size <= inode_capacity_bytes i' /\
        in_size i' = in_size i /\ in_type i' = in_type i /\
        take (length (content (cx_dev c) (inode_lbas i))) (content (cx_dev c') (inode_lbas i')) =
        content (cx_dev c) (inode_lbas i)
  | (c', Fail e) =>
      e = SXFS_ERR_NO_SPACE /\ vol_ok c' /\ (no_leak c -> no_leak c') /\ cx_dev c' = cx_dev c /\ cx_inodes c' = cx_inodes c /\
      cx_total_sectors c' = cx_total_sectors c
  end.

Lemma on_device_lbas c id i :
  vol_ok c -> inode_id_ok id -> inode_at c id = Some i -> on_device (cx_dev c) (inode_lbas i).
Proof.
  intros Hv Hid Hi k Hk. pose proof (inode_lbas_range _ i k (vo_inode c Hv id i Hid Hi) Hk).
  pose proof (vo_size c Hv). assert (Hd : 0 <= SXFS_DATA_LBA) by done. lia.
Qed.

Lemma ensure_capacity_spec c id i size :
  vol_ok c -> inode_id_ok id -> inode_at c id = Some i -> 0 <= size < 4294967296 - 511 ->
  capacity_result c id i size (ensure_capacity id size c).
Proof.
  intros Hv Hid Hi Hsize. unfold ensure_capacity. rewrite Hi.
  pose proof (vo_inode c Hv id i Hid Hi) as Hok. pose proof (vo_total c Hv) as Ht.
  destruct (capacity_sectors _ i Hok Ht) as (Hcs & Hcl & Hcb).
  destruct (size <=? inode_capacity_bytes i) eqn:Efit.
  { split; [done|]. split; [done|]. split; [split; [done|]; by intros id' i' _ _ ->|].
    exists i. split; [done|]. split; [lia|]. split; [done|]. split; [done|]. apply firstn_all. }
  pose proof (zlen_nonneg (inode_lbas i)) as Hz. rewrite Hcb in Efit.
  pose proof (sectors_for_spec size ltac:(lia)) as Hsec. rewrite Hcs.
  set (req := sectors_for size) in *. pose proof Hok as (Hc & Hl & _).
  replace (in_extent_count i <=? 1) with true by lia. cbv zeta. cbn [negb].
  set (c1 := with_block_bitmap c (set_inode_extent_bits (cx_block_bitmap c) i false)).
  assert (Hm : SXFS_MAX_TOTAL_SECTORS = 2097152) by done. pose proof (vo_bits c Hv) as Hb8.
  assert (Hd : SXFS_DATA_LBA = 3077) by done.
  pose proof (growth_search c id i req Hv Hid Hi ltac:(lia)) as Hg. cbv zeta in Hg. fold c1 in Hg.
  destruct Hg as [E|[Hnew Hsafe]].
  - rewrite E. cbn [Z.eqb]. split; [done|].
    pose proof (fun k => own_bits_spec (cx_total_sectors c) i (cx_block_bitmap c) false k Hok
                 ltac:(lia) ltac:(lia) (vo_bytes c Hv)) as O1.
    destruct (O1 0 ltac:(lia)) as (A1 & A2 & _).
    pose proof (fun k => own_bits_spec (cx_total_sectors c) i (cx_block_bitmap c1) true k Hok
                 ltac:(unfold zlen in *; simpl; rewrite A2; lia)
                 ltac:(unfold zlen in *; simpl; rewrite A2; lia) A1) as O2.
    destruct (O2 0 ltac:(lia)) as (B1 & B2 & _).
    assert (Hsame : forall k, 0 <= k ->
      sxfs_bitmap_test (set_inode_extent_bits (cx_block_bitmap c1) i true) k =
      sxfs_bitmap_test (cx_block_bitmap c) k).
    { intros k Hk. destruct (O2 k Hk) as (_ & _ & ->). simpl. destruct (O1 k Hk) as (_ & _ & ->).
      destruct (owns_spec i k) as [Hin|]; [|done]. symmetry. by apply (vo_marked c Hv id i). }
    split; [apply (vol_ok_bits c); try done; simpl in *; congruence|].
    split; [intros Hleak; by apply (no_leak_bits c)|done].
  - set (start := find_free_run c1 req) in *. pose proof Hnew as (N1 & N2 & N3 & N4).
    destruct (start =? 0) eqn:E0; [lia|].
    destruct (copy_inode_spec i start c1) as (d' & Ecopy & D1 & D2 & D3 & D4).
    + split; [apply (vo_dev c Hv)|]. split; [apply (vo_wrap c Hv)|]. split; [done|apply (vo_size c Hv)].
    + done.
    + done.
    + simpl. lia.
    + done.
    + unfold st_bind at 1. rewrite Ecopy. unfold st_bind, st_mod.
      change (capacity_result c id i size (grown c id i start req d', Ok tt)).
      pose proof (grown_ok c id i start req d' Hv Hid Hi Hnew ltac:(lia) D1 D2) as Hv'.
      split; [done|]. split; [intros; apply grown_no_leak; done || lia|]. split.
      * split; [done|]. intros id' i' Hid' Hne Hi'. rewrite grown_inode by done.
        destruct (id =? id') eqn:E; [lia|]. split; [done|]. apply content_ext. intros k Hk.
        apply D4. intros Hin.
        apply (new_run_foreign c id i start req id' i' k Hv Hid Hid' Hi Hi' Hne Hnew Hk). lia.
      * exists (in_with_extents i 1 (one_extent start req)).
        rewrite grown_inode by done. rewrite Z.eqb_refl. split; [done|].
        assert (Hcap : inode_capacity_bytes (in_with_extents i 1 (one_extent start req)) =
                       512 * zlen (run_lbas start (Z.to_nat req))).
        { rewrite <- (grown_lbas i start req).
          apply (capacity_sectors (cx_total_sectors c)); [|done].
          apply (vo_inode _ Hv' id); [done|]. rewrite grown_inode by done. by rewrite Z.eqb_refl. }
        rewrite Hcap. unfold zlen at 1. rewrite run_lbas_length. split; [lia|].
        split; [done|]. split; [done|]. rewrite grown_lbas.
        replace (Z.to_nat req) with (length (inode_lbas i) + (Z.to_nat req - length (inode_lbas i)))%nat
          by (unfold zlen in *; lia).
        rewrite run_lbas_app, content_app. change (cx_dev (grown c id i start req d')) with d'.
        rewrite D3. apply take_app_length.
Qed.

(** *** Contents *)

(** The logical bytes of a file. *)
Definition file_bytes (c : sxfs_ctx D) (i : sxfs_inode) : list Z :=
  take (Z.to_nat (in_size i)) (content (cx_dev c) (inode_lbas i)).

Lemma extent_on_data c e :
  vol_ok c -> extent_in_data (cx_total_sectors c) e -> extent_on (cx_dev c) e.
Proof.
  intros Hv (E1 & E2 & E3). pose proof (vo_size c Hv). assert (Hd : 0 <= SXFS_DATA_LBA) by done.
  split; [lia|]. split; [lia|]. lia.
Qed.

Lemma read_inode_bytes_spec c id i cap :
  vol_ok c -> inode_id_ok id -> inode_at c id = Some i -> 0 <= cap ->
  read_inode_bytes c i cap = (take (Z.to_nat cap) (file_bytes c i), true).
Proof.
  intros Hv Hid Hi Hcap. pose proof (vo_inode c Hv id i Hid Hi) as (Hc & Hl & He & Hs).
  unfold read_inode_bytes. rewrite <- live_extents_all by (unfold SXFS_MAX_EXTENTS; lia).
  rewrite read_extents_spec.
  - cbn [app]. change (zlen []) with 0. fold (inode_lbas i). unfold file_bytes.
    rewrite take_take, Z.sub_0_r. f_equal. f_equal. case_if; lia.
  - apply (vo_dev c Hv).
  - apply (vo_wrap c Hv).
  - eapply Forall_impl; [exact He|]. intros e. by apply extent_on_data.
  - change (zlen []) with 0. case_if; lia.
Qed.

Lemma file_bytes_length c id i :
  vol_ok c -> inode_id_ok id -> inode_at c id = Some i -> zlen (file_bytes c i) = in_size i.
Proof.
  intros Hv Hid Hi. pose proof (vo_inode c Hv id i Hid Hi) as (_ & _ & _ & Hs).
  unfold file_bytes, zlen in *. rewrite length_take, content_length;
    [lia|apply (vo_dev c Hv)|by apply (on_device_lbas c id)].
Qed.

Lemma file_bytes_ok c id i :
  vol_ok c -> inode_id_ok id -> inode_at c id = Some i -> bytes_ok (file_bytes c i).
Proof.
  intros Hv Hid Hi. apply bytes_ok_take, content_bytes; [apply (vo_dev c Hv)|by apply (on_device_lbas c id)].
Qed.

Lemma read_inode_spec c id i cap :
  vol_ok c -> inode_id_ok id -> inode_at c id = Some i ->
  in_type i <> SXFS_INODE_UNUSED -> in_size i <= cap ->
  sxfs_read_inode c id cap = Ok (file_bytes c i).
Proof.
  intros Hv Hid Hi Ht Hcap. unfold sxfs_read_inode. rewrite Hi.
  pose proof (vo_inode c Hv id i Hid Hi) as (_ & _ & _ & Hs).
  replace ((in_type i =? SXFS_INODE_UNUSED) || (in_size i >? cap)) with false by lia.
  rewrite (read_inode_bytes_spec c id) by (done || lia).
  pose proof (file_bytes_length c id i Hv Hid Hi) as Hlen.
  rewrite take_ge by (unfold zlen in Hlen; lia). by rewrite Hlen, Z.eqb_refl.
Qed.

(** Replacing an inode by one with the same sectors, over a device whose other
    sectors are kept. *)
Lemma vol_ok_rewrite c id i i' d' :
  vol_ok c -> inode_id_ok id -> inode_at c id = Some i ->
  inode_lbas i' = inode_lbas i -> inode_ok (cx_total_sectors c) i' ->
  dev_ok d' -> dev_size d' = dev_size (cx_dev c) ->
  vol_ok (put_inode (with_dev c d') id i').
Proof.
  intros Hv Hid Hi El Hok Hd' Hsz. pose proof Hv as [V1 V2 V3 V4 V5 V6 V7 V8 V9 V10].
  assert (Hino : forall id', inode_id_ok id' ->
            inode_at (put_inode (with_dev c d') id i') id' = if id =? id' then Some i' else inode_at c id')
    by (intros id' Hid'; by rewrite inode_at_put).
  assert (Hback : forall id' j, inode_id_ok id' ->
            inode_at (put_inode (with_dev c d') id i') id' = Some j ->
            exists j', inode_at c id' = Some j' /\ inode_lbas j = inode_lbas j').
  { intros id' j Hid' Hj. rewrite Hino in Hj by done. case_if_in Hj; [|by eauto]. simplify_eq.
    replace id' with id by lia. eauto. }
  split; try done.
  - unfold no_wrap in *. simpl. lia.
  - simpl. lia.
  - simpl. by rewrite zlen_set_at.
  - intros id' j Hid' Hj. rewrite Hino in Hj by done. case_if_in Hj; [by simplify_eq|by apply (V8 id')].
  - intros id' j k Hid' Hj Hk. destruct (Hback id' j Hid' Hj) as (j' & Hj' & E). rewrite E in Hk.
    by apply (V9 id' j').
  - intros id1 id2 j1 j2 k H1 H2 E1 E2 K1 K2.
    destruct (Hback id1 j1 H1 E1) as (j1' & A1 & A2), (Hback id2 j2 H2 E2) as (j2' & B1 & B2).
    rewrite A2 in K1. rewrite B2 in K2. by apply (V10 id1 id2 j1' j2' k).
Qed.

Lemma no_leak_rewrite c id i i' d' :
  vol_ok c -> inode_id_ok id -> inode_at c id = Some i -> inode_lbas i' = inode_lbas i ->
  no_leak c -> no_leak (put_inode (with_dev c d') id i').
Proof.
  intros Hv Hid Hi El Hleak k Hk Hbit. destruct (Hleak k Hk Hbit) as (id0 & i0 & O1 & O2 & O3).
  assert (Hino : forall id', inode_id_ok id' ->
            inode_at (put_inode (with_dev c d') id i') id' = if id =? id' then Some i' else inode_at c id')
    by (intros id' Hid'; by rewrite inode_at_put; [|apply (vo_table c Hv)|..]).
  destruct (Z.eq_dec id0 id) as [->|Hne].
  - exists id, i'. rewrite Hino by done. rewrite Z.eqb_refl. split; [done|]. split; [done|].
    rewrite El. by simplify_eq.
  - exists id0, i0. rewrite Hino by done. destruct (id =? id0) eqn:?; [lia|]. done.
Qed.

Lemma write_inode_spec c id i data :
  vol_ok c -> inode_id_ok id -> inode_at c id = Some i ->
  zlen data <= inode_capacity_bytes i -> bytes_ok data ->
  exists c', write_inode_bytes id data c = (c', Ok tt) /\ vol_ok c' /\ (no_leak c -> no_leak c') /\
    others_kept c c' id /\
    inode_at c' id = Some (in_with_size i (zlen data)) /\
    file_bytes c' (in_with_size i (zlen data)) = data.
Proof.
  intros Hv Hid Hi Hfit Hb. pose proof (vo_inode c Hv id i Hid Hi) as Hok.
  destruct (capacity_sectors _ i Hok (vo_total c Hv)) as (_ & _ & Hcap).
  unfold write_inode_bytes. rewrite Hi. case_if; [lia|]. pose proof Hok as (Hc & Hl & He & Hs).
  destruct (write_extents_spec (live_extents i) data c) as (d' & E & W1 & W2 & W3 & W4).
  - apply (vo_dev c Hv).
  - apply (vo_wrap c Hv).
  - eapply Forall_impl; [exact He|]. intros e. by apply extent_on_data.
  - by apply inode_lbas_nodup.
  - done.
  - fold (inode_lbas i) in *. unfold st_bind. rewrite E. unfold st_mod.
    eexists. split; [reflexivity|].
    assert (Hz : 0 <= zlen data) by apply zlen_nonneg.
    assert (Hv' : vol_ok (put_inode (with_dev c d') id (in_with_size i (zlen data)))).
    { apply (vol_ok_rewrite c id i); try done. split; [done|]. split; [done|]. split; [done|].
      change (inode_lbas (in_with_size i (zlen data))) with (inode_lbas i). simpl. lia. }
    split; [done|]. split; [intros; by apply (no_leak_rewrite c id i)|]. split; [|split].
    + split; [done|]. intros id' i' Hid' Hne Hi'.
      rewrite inode_at_put by (done || apply (vo_table c Hv)). destruct (id =? id') eqn:?; [lia|].
      split; [done|]. apply content_ext. intros k Hk. apply W4. intros Hin.
      apply Hne. by apply (vo_owner c Hv id' id i' i k).
    + rewrite inode_at_put by (done || apply (vo_table c Hv)). by rewrite Z.eqb_refl.
    + unfold file_bytes. change (inode_lbas (in_with_size i (zlen data))) with (inode_lbas i). simpl.
      rewrite W3. unfold zlen. rewrite Nat2Z.id. apply paged_prefix. unfold zlen in *. lia.
Qed.
End volume.
