(* ===== verification/SxfsOps.v ===== *)
(** * The SxFS core: every operation keeps the volume consistent

    [fs_ok] is [vol_ok] with the sizes of the inode bitmap and of the scratch
    buffer.  Each function of the core, on success and on failure, leaves
    [fs_ok]: proved with one rule for the monad and one lemma per function, for
    any reliable device. *)

From S2P Require Import Prelude Bytes SxfsFormat SxfsFormatFacts SxfsCore SxfsDevice SxfsAlloc.
Open Scope st_scope.

Section ops.
Context {D : Type} `{ReliableDevice D}.
Local Abbreviation ctx := (sxfs_ctx D).
Local Abbreviation M := (st (sxfs_ctx D) sxfs_err).

Record fs_ok (c : ctx) : Prop := {
  fs_vol : vol_ok c;
  fs_ibytes : bytes_ok (cx_inode_bitmap c);
  fs_ibits : 8 * zlen (cx_inode_bitmap c) = SXFS_MAX_INODES;
  fs_scratch : bytes_ok (cx_dir_scratch c);
  fs_scratch_len : zlen (cx_dir_scratch c) = SXFS_MAX_RECORDS * SXFS_DIR_ENTRY_SIZE }.

(** [m] keeps the invariant, whatever it returns, and a value it returns
    satisfies [Q]. *)
Definition keeps {A} (m : M A) (Q : A -> Prop) : Prop :=
  forall c, fs_ok c -> fs_ok (m c).1 /\ match (m c).2 with Ok a => Q a | Fail _ => True end.

Lemma keeps_bind {A B} (m : M A) (k : A -> M B) Q R :
  keeps m Q -> (forall a, Q a -> keeps (k a) R) -> keeps (st_bind m k) R.
Proof.
  intros Hm Hk c Hc. unfold st_bind. destruct (Hm c Hc) as [H1 H2].
  destruct (m c) as [c' [a|e]]; simpl in *; [by apply Hk|done].
Qed.
Lemma keeps_ret {A} (a : A) (Q : A -> Prop) : Q a -> keeps (st_ret a) Q.
Proof. by intros HQ c Hc. Qed.
Lemma keeps_fail {A} e (Q : A -> Prop) : keeps (st_fail e) Q.
Proof. by intros c Hc. Qed.
Lemma keeps_weaken {A} (m : M A) (Q R : A -> Prop) : keeps m Q -> (forall a, Q a -> R a) -> keeps m R.
Proof.
  intros Hm HQ c Hc. destruct (Hm c Hc) as [H1 H2]. split; [done|]. destruct (m c).2; auto.
Qed.
Lemma keeps_mod (f : ctx -> ctx) : (forall c, fs_ok c -> fs_ok (f c)) -> keeps (st_mod f) (fun _ => True).
Proof. intros Hf c Hc. split; [by apply Hf|done]. Qed.
(** A read of the context: the continuation may use that it is consistent. *)
Lemma keeps_get {B} (k : ctx -> M B) R :
  (forall c, fs_ok c -> fs_ok (k c c).1 /\ match (k c c).2 with Ok a => R a | Fail _ => True end) ->
  keeps (st_bind st_get k) R.
Proof. intros Hk c Hc. unfold st_bind, st_get. by apply Hk. Qed.

(** ** The leaves *)

Lemma inode_at_scratch (c : ctx) l id : inode_at (with_scratch c l) id = inode_at c id.
Proof. done. Qed.

Lemma fs_with_scratch c l :
  fs_ok c -> bytes_ok l -> zlen l = SXFS_MAX_RECORDS * SXFS_DIR_ENTRY_SIZE -> fs_ok (with_scratch c l).
Proof.
  intros [F1 F2 F3 F4 F5] Hb Hl. split; try done.
  destruct F1 as [V1 V2 V3 V4 V5 V6 V7 V8 V9 V10]. by split.
Qed.

Lemma overwrite_length buf data :
  (length data <= length buf)%nat -> length (overwrite buf data) = length buf.
Proof. intros Hl. unfold overwrite. rewrite length_app, length_drop. lia. Qed.

Lemma read_dir_keeps dir_id :
  inode_id_ok dir_id -> keeps (read_dir_entries dir_id) (fun n => 0 <= n <= SXFS_MAX_RECORDS).
Proof.
  intros Hid c Hc. unfold read_dir_entries. rewrite inode_at_ok by done.
  set (i := at_ inode0 (cx_inodes c) (dir_id - 1)).
  pose proof (inode_at_ok c dir_id Hid) as Hi. fold i in Hi. pose proof (fs_vol c Hc) as Hv.
  pose proof (vo_inode c Hv dir_id i Hid Hi) as (_ & _ & _ & Hs).
  set (n := in_size i / SXFS_DIR_ENTRY_SIZE).
  assert (Hn : 0 <= n) by (apply Z.div_pos; [lia|done]).
  set (count := if n >? SXFS_MAX_RECORDS then SXFS_MAX_RECORDS else n).
  assert (Hcount : 0 <= count <= SXFS_MAX_RECORDS)
    by (unfold count; assert (0 <= SXFS_MAX_RECORDS) by done; case_if; lia).
  assert (He : SXFS_DIR_ENTRY_SIZE = 80) by done.
  rewrite (read_inode_bytes_spec c dir_id) by (done || lia).
  set (got := take _ (file_bytes c i)).
  assert (Hgot : zlen got <= count * 80) by (unfold got, zlen; rewrite length_take; lia).
  simpl. split.
  - apply fs_with_scratch; [done| |].
    + unfold overwrite. apply bytes_ok_app. split; [|apply bytes_ok_drop, (fs_scratch c Hc)].
      by apply bytes_ok_take, (file_bytes_ok c dir_id).
    + pose proof (fs_scratch_len c Hc) as Hlen. unfold zlen in *. rewrite overwrite_length; lia.
  - rewrite He. pose proof (zlen_nonneg got). split; [apply Z.div_pos; lia|].
    transitivity count; [|lia]. apply Z.div_le_upper_bound; lia.
Qed.

Lemma scratch_entry_wf c i : fs_ok c -> 0 <= de_inode_id (scratch_entry (cx_dir_scratch c) i).
Proof.
  intros Hc. unfold scratch_entry, dec_dir_entry, get, get_bytes. simpl.
  apply unle_range. apply bytes_ok_take, bytes_ok_take, bytes_ok_drop, (fs_scratch c Hc).
Qed.

(** An entry that matches a name has a non-zero inode id. *)
Lemma find_entry_some n : forall i buf name j e,
  find_entry n i buf name = Some (j, e) ->
  e = scratch_entry buf j /\ name_matches e name = true /\ i <= j < i + Z.of_nat n.
Proof.
  induction n as [|n IH]; intros i buf name j e Hf; [done|]. cbn [find_entry] in Hf.
  case_if_in Hf; [simplify_eq; split; [done|]; split; [done|lia]|].
  apply IH in Hf as (? & ? & ?). split; [done|]. split; [done|]. lia.
Qed.

Lemma lookup_keeps count name :
  keeps (lookup_entry count name)
    (fun r => match r with
              | Some (j, e) => 0 <= j < Z.max 0 count /\ 1 <= de_inode_id e
              | None => True
              end).
Proof.
  intros c Hc. unfold lookup_entry. simpl. split; [done|].
  destruct (find_entry _ _ _ _) as [[j e]|] eqn:E; [|done].
  apply find_entry_some in E as (-> & Hm & Hj). split; [lia|].
  pose proof (scratch_entry_wf c j Hc). unfold name_matches in Hm.
  destruct (de_inode_id (scratch_entry (cx_dir_scratch c) j) =? 0) eqn:E; [done|lia].
Qed.

(** *** What leaves the inode bitmap and the scratch buffer alone *)

Definition framed {A} (m : M A) : Prop :=
  forall c, cx_inode_bitmap (m c).1 = cx_inode_bitmap c /\ cx_dir_scratch (m c).1 = cx_dir_scratch c.

Lemma framed_bind {A B} (m : M A) (k : A -> M B) : framed m -> (forall a, framed (k a)) -> framed (st_bind m k).
Proof.
  intros Hm Hk c. unfold st_bind. destruct (Hm c) as [H1 H2].
  destruct (m c) as [c' [a|e]]; simpl in *; [|done]. destruct (Hk a c') as [H3 H4]. split; congruence.
Qed.
Lemma framed_ret {A} (a : A) : framed (st_ret a).
Proof. done. Qed.
Lemma framed_read lba n : framed (read_sector lba n).
Proof. intros c. unfold read_sector. by destruct (dev_read _ _ _). Qed.
Lemma framed_write lba n l : framed (write_sector lba n l).
Proof. intros c. unfold write_sector. by destruct (dev_write _ _ _ _). Qed.

Lemma framed_copy_run n : forall src dst sectors copied, framed (copy_run n src dst sectors copied).
Proof.
  induction n as [|n IH]; intros src dst sectors copied; cbn [copy_run]; [apply framed_ret|].
  case_if; [|apply framed_ret]. apply framed_bind; [apply framed_read|]. intros s.
  apply framed_bind; [apply framed_write|]. intros _. apply IH.
Qed.
Lemma framed_copy es : forall dst sectors copied, framed (copy_extents es dst sectors copied).
Proof.
  induction es as [|e es IH]; intros dst sectors copied; cbn [copy_extents]; [apply framed_ret|].
  case_if; [|apply framed_ret]. apply framed_bind; [apply framed_copy_run|]. intros k. apply IH.
Qed.
Lemma framed_write_run n : forall lba rest, framed (write_run n lba rest).
Proof.
  induction n as [|n IH]; intros lba rest; cbn [write_run]; [apply framed_ret|].
  apply framed_bind; [apply framed_write|]. intros _. apply IH.
Qed.
Lemma framed_write_extents es : forall rest, framed (write_extents es rest).
Proof.
  induction es as [|e es IH]; intros rest; cbn [write_extents]; [apply framed_ret|].
  apply framed_bind; [apply framed_write_run|]. intros r. apply IH.
Qed.

Lemma ensure_frame id size : framed (ensure_capacity id size).
Proof.
  intros c. unfold ensure_capacity. destruct (inode_at c id) as [i|]; [|done]. case_if; [done|].
  cbv zeta. set (c1 := if in_extent_count i <=? 1 then _ else c).
  assert (H1 : cx_inode_bitmap c1 = cx_inode_bitmap c /\ cx_dir_scratch c1 = cx_dir_scratch c)
    by (unfold c1; by case_if).
  destruct H1 as [<- <-]. generalize (find_free_run c1 (sectors_for size)). intros start.
  case_if; [by case_if|]. clearbody c1. revert c1. match goal with |- forall c1, _ (?m c1).1 = _ /\ _ => change (framed m) end.
  repeat (apply framed_bind; [|intros _]); try (intros c'; unfold st_mod; simpl; by try case_if).
  apply framed_copy.
Qed.

Lemma write_frame id data : framed (write_inode_bytes id data).
Proof.
  intros c. unfold write_inode_bytes. destruct (inode_at c id) as [i|]; [|done]. case_if; [done|].
  apply framed_bind; [apply framed_write_extents|]. by intros _ c'.
Qed.

Lemma fs_of_frame c c' :
  fs_ok c -> vol_ok c' -> cx_inode_bitmap c' = cx_inode_bitmap c ->
  cx_dir_scratch c' = cx_dir_scratch c -> fs_ok c'.
Proof. intros [F1 F2 F3 F4 F5] Hv E1 E2. split; rewrite ?E1, ?E2; done. Qed.

Lemma ensure_keeps id size :
  inode_id_ok id -> 0 <= size < 4294967296 - 511 -> keeps (ensure_capacity id size) (fun _ => True).
Proof.
  intros Hid Hsize c Hc. pose proof (inode_at_ok c id Hid) as Hi.
  pose proof (ensure_capacity_spec c id _ size (fs_vol c Hc) Hid Hi Hsize) as Hr.
  destruct (ensure_frame id size c) as [F1 F2].
  destruct (ensure_capacity id size c) as [c' [[]|e]]; simpl in *; (split; [|done]).
  - apply (fs_of_frame c); try done. apply Hr.
  - apply (fs_of_frame c); try done. apply Hr.
Qed.

Lemma write_keeps id data :
  inode_id_ok id -> bytes_ok data -> keeps (write_inode_bytes id data) (fun _ => True).
Proof.
  intros Hid Hb c Hc. pose proof (inode_at_ok c id Hid) as Hi. split.
  2: { by destruct (write_inode_bytes id data c).2. }
  destruct (write_frame id data c) as [F1 F2].
  destruct (Z_le_gt_dec (zlen data) (inode_capacity_bytes (at_ inode0 (cx_inodes c) (id - 1)))).
  - destruct (write_inode_spec c id _ data (fs_vol c Hc) Hid Hi ltac:(lia) Hb) as (c' & E & Hv & _).
    rewrite E in *. by apply (fs_of_frame c).
  - unfold write_inode_bytes. rewrite Hi. by case_if; [|lia].
Qed.

(** *** Inodes *)

Lemma alloc_loop_range n : forall id bm, 1 <= id -> bytes_ok bm ->
  ((alloc_loop n id bm).1 = 0 \/ id <= (alloc_loop n id bm).1 < id + Z.of_nat n) /\
  bytes_ok (alloc_loop n id bm).2 /\ length (alloc_loop n id bm).2 = length bm.
Proof.
  induction n as [|n IH]; intros id bm Hid Hb; cbn [alloc_loop]; [simpl; auto|].
  case_if; cbn [fst snd].
  - split; [lia|]. split; [by apply bitmap_set_bytes|apply bitmap_set_length].
  - destruct (IH (id + 1) bm ltac:(lia) Hb) as (H1 & H2 & H3). split; [lia|]. done.
Qed.

Lemma allocate_keeps : keeps allocate_inode (fun id => id = 0 \/ inode_id_ok id).
Proof.
  intros c Hc. unfold allocate_inode.
  pose proof (alloc_loop_range (Z.to_nat SXFS_MAX_INODES) 1 (cx_inode_bitmap c) ltac:(lia) (fs_ibytes c Hc))
    as (H1 & H2 & H3).
  destruct (alloc_loop _ _ _) as [id bm]. simpl in *. split.
  - destruct Hc as [F1 F2 F3 F4 F5]. destruct F1 as [V1 V2 V3 V4 V5 V6 V7 V8 V9 V10].
    split; [by split|done| |done|done]. unfold zlen in *. simpl. by rewrite H3.
  - unfold inode_id_ok, SXFS_MAX_INODES in *. lia.
Qed.

(** A fresh record owns nothing, whatever was there. *)
Lemma vol_ok_blank c id i :
  vol_ok c -> inode_id_ok id -> inode_lbas i = [] -> inode_ok (cx_total_sectors c) i ->
  vol_ok (put_inode c id i).
Proof.
  intros Hv Hid El Hok. pose proof Hv as [V1 V2 V3 V4 V5 V6 V7 V8 V9 V10].
  assert (Hino : forall id', inode_id_ok id' ->
            inode_at (put_inode c id i) id' = if id =? id' then Some i else inode_at c id')
    by (intros id' Hid'; by rewrite inode_at_put).
  split; try done.
  - simpl. by rewrite zlen_set_at.
  - intros id' j Hid' Hj. rewrite Hino in Hj by done. case_if_in Hj; [by simplify_eq|by apply (V8 id')].
  - intros id' j k Hid' Hj Hk. rewrite Hino in Hj by done. case_if_in Hj; [|by apply (V9 id' j)].
    simplify_eq. by rewrite El in Hk.
  - intros id1 id2 j1 j2 k H1 H2 E1 E2 K1 K2. rewrite Hino in E1, E2 by done.
    case_if_in E1; [simplify_eq; by rewrite El in K1|].
    case_if_in E2; [simplify_eq; by rewrite El in K2|]. by apply (V10 id1 id2 j1 j2 k).
Qed.

Lemma init_keeps id type path : inode_id_ok id -> keeps (init_inode id type path) (fun _ => True).
Proof.
  intros Hid c Hc. unfold init_inode. destruct (sxfs_default_ownership _ _) as [[uid gid] mode].
  unfold st_mod. simpl. split; [|done]. destruct Hc as [F1 F2 F3 F4 F5]. split; try done.
  by apply vol_ok_blank.
Qed.

(** *** Directory updates *)

Lemma inode_id_cases id : 1 <= id -> inode_id_ok id \/ forall c : ctx, inode_at c id = None.
Proof.
  intros Hid. destruct (Z_le_gt_dec id SXFS_MAX_INODES).
  - left. split; lia.
  - right. intros c. unfold inode_at. by case_if; [|lia].
Qed.

Lemma none_keeps {A} (m : M A) id (k : ctx -> sxfs_inode -> ctx * res sxfs_err A) Q :
  (forall c : ctx, inode_at c id = None) ->
  (m = fun c => match inode_at c id with None => (c, Fail SXFS_ERR_INVALID) | Some i => k c i end) ->
  keeps m Q.
Proof. intros Hn -> c Hc. by rewrite Hn. Qed.

Lemma read_dir_keeps' id : 1 <= id -> keeps (read_dir_entries id) (fun n => 0 <= n <= SXFS_MAX_RECORDS).
Proof.
  intros Hid. destruct (inode_id_cases id Hid) as [Hok|Hn]; [by apply read_dir_keeps|].
  intros c Hc. unfold read_dir_entries. by rewrite Hn.
Qed.
Lemma ensure_keeps' id size :
  1 <= id -> 0 <= size < 4294967296 - 511 -> keeps (ensure_capacity id size) (fun _ => True).
Proof.
  intros Hid Hs. destruct (inode_id_cases id Hid) as [Hok|Hn]; [by apply ensure_keeps|].
  intros c Hc. unfold ensure_capacity. by rewrite Hn.
Qed.
Lemma write_keeps' id data : 1 <= id -> bytes_ok data -> keeps (write_inode_bytes id data) (fun _ => True).
Proof.
  intros Hid Hb. destruct (inode_id_cases id Hid) as [Hok|Hn]; [by apply write_keeps|].
  intros c Hc. unfold write_inode_bytes. by rewrite Hn.
Qed.

Lemma new_entry_bytes child type name :
  (length name <= 64)%nat -> bytes_ok name ->
  bytes_ok (enc_dir_entry (new_entry child type name)) /\
  length (enc_dir_entry (new_entry child type name)) = 80%nat.
Proof.
  intros Hl Hb. unfold enc_dir_entry, new_entry. cbn [de_name de_reserved de_inode_id de_type de_name_length].
  split.
  - assert (Hz : forall n, bytes_ok (replicate n 0)) by (intros n; apply bytes_ok_replicate; unfold byte; lia).
    repeat (apply bytes_ok_app; split); auto with bytes.
  - rewrite !length_app, !le_length, !length_replicate. lia.
Qed.

Lemma add_entry_keeps parent child type name :
  1 <= parent -> (length name <= 64)%nat -> bytes_ok name ->
  keeps (add_dir_entry parent child type name) (fun _ => True).
Proof.
  intros Hp Hl Hb. unfold add_dir_entry.
  eapply keeps_bind; [by apply read_dir_keeps'|]. intros count Hcount. simpl in Hcount.
  case_if; [apply keeps_fail|]. destruct (new_entry_bytes child type name Hl Hb) as [Hnb Hnl].
  assert (Hmax : SXFS_MAX_RECORDS = 4095) by done. assert (He : SXFS_DIR_ENTRY_SIZE = 80) by done.
  eapply keeps_bind.
  { apply keeps_mod. intros c Hc. pose proof (fs_scratch c Hc) as Hs.
    pose proof (fs_scratch_len c Hc) as Hsl. apply fs_with_scratch; [done| |].
    - apply bytes_ok_app. split; [auto with bytes|]. apply bytes_ok_app. split; [done|auto with bytes].
    - unfold zlen in *. rewrite !length_app, length_take, length_drop, Hnl. lia. }
  intros _ _. eapply keeps_bind; [apply ensure_keeps'; [done|lia]|]. intros _ _.
  apply keeps_get. intros c Hc. apply write_keeps'; [done| |done]. apply bytes_ok_take, (fs_scratch c Hc).
Qed.

Lemma create_keeps parent name type path :
  1 <= parent -> bytes_ok name -> keeps (create_child parent name type path) (fun id => 1 <= id).
Proof.
  intros Hp Hb. unfold create_child. case_if; [apply keeps_fail|].
  assert (Hcap : SXFS_INODE_NAME_CAPACITY = 64) by done.
  eapply keeps_bind; [apply allocate_keeps|]. intros child Hchild. simpl in Hchild.
  case_if; [apply keeps_fail|]. destruct Hchild as [?|Hchild]; [lia|].
  eapply keeps_bind; [by apply init_keeps|]. intros _ _.
  eapply keeps_bind; [apply add_entry_keeps; [done|unfold zlen in *; lia|done]|]. intros _ _.
  apply keeps_ret. apply Hchild.
Qed.

Lemma path_split_bytes p : bytes_ok p -> bytes_ok (path_split p).1 /\ bytes_ok (path_split p).2.
Proof.
  induction 1 as [|b t Hb Ht IH]; [split; constructor|]. cbn [path_split].
  case_if; [split; [constructor|done]|]. destruct (path_split t) as [x y]. simpl in *.
  destruct IH as [IH1 IH2]. split; [by constructor|done].
Qed.

Lemma resolve_keeps fuel : forall p current type,
  1 <= current -> keeps (resolve_loop fuel p current type) (fun r => 1 <= r.1).
Proof.
  induction fuel as [|fuel IH]; intros p current type Hcur; cbn [resolve_loop]; [apply keeps_fail|].
  destruct p as [|ch p]; [by apply keeps_ret|].
  destruct (path_split (ch :: p)) as [comp rest]. case_if; [apply keeps_fail|].
  apply keeps_get. intros c Hc. destruct (inode_at c current) as [dir|]; [|done].
  case_if; [done|]. revert c Hc. change (keeps (st_bind (read_dir_entries current) (fun count =>
    st_bind (lookup_entry count comp) (fun found => match found with
      | None => st_fail SXFS_ERR_NOT_FOUND
      | Some (_, e) => resolve_loop fuel rest (de_inode_id e) (de_type e)
      end))) (fun r => 1 <= r.1)).
  eapply keeps_bind; [by apply read_dir_keeps'|]. intros count _.
  eapply keeps_bind; [apply lookup_keeps|]. intros [[j e]|] Hf; [|apply keeps_fail].
  apply IH. apply Hf.
Qed.

Lemma mkdir_loop_keeps fuel : forall relpath p consumed parent,
  bytes_ok p -> 1 <= parent -> keeps (mkdir_loop fuel relpath p consumed parent) (fun _ => True).
Proof.
  induction fuel as [|fuel IH]; intros relpath p consumed parent Hb Hp; cbn [mkdir_loop]; [apply keeps_fail|].
  destruct p as [|ch p]; [by apply keeps_ret|].
  destruct (path_split_bytes (ch :: p) Hb) as [B1 B2].
  destruct (path_split (ch :: p)) as [comp rest]. simpl in B1, B2.
  case_if; [apply keeps_fail|]. case_if; [apply keeps_fail|].
  eapply keeps_bind; [by apply read_dir_keeps'|]. intros count _.
  eapply keeps_bind; [apply lookup_keeps|]. intros [[j e]|] Hf; simpl in Hf.
  - case_if; [apply keeps_fail|]. apply IH; [done|apply Hf].
  - eapply keeps_bind; [by apply create_keeps|]. intros child Hchild. by apply IH.
Qed.

(** *** Removal *)

Lemma vol_ok_free c id i :
  vol_ok c -> inode_id_ok id -> inode_at c id = Some i ->
  vol_ok (put_inode (with_block_bitmap c (set_inode_extent_bits (cx_block_bitmap c) i false)) id inode0) /\
  (no_leak c ->
   no_leak (put_inode (with_block_bitmap c (set_inode_extent_bits (cx_block_bitmap c) i false)) id inode0)).
Proof.
  intros Hv Hid Hi. pose proof Hv as [V1 V2 V3 V4 V5 V6 V7 V8 V9 V10].
  assert (Hm : SXFS_MAX_TOTAL_SECTORS = 2097152) by done. assert (Hd : SXFS_DATA_LBA = 3077) by done.
  pose proof (fun k => own_bits_spec (cx_total_sectors c) i (cx_block_bitmap c) false k
                (V8 id i Hid Hi) ltac:(lia) ltac:(lia) V5) as Hbits.
  destruct (Hbits 0 ltac:(lia)) as (B1 & B2 & _).
  set (c' := put_inode _ id inode0).
  assert (Hino : forall id', inode_id_ok id' ->
            inode_at c' id' = if id =? id' then Some inode0 else inode_at c id')
    by (intros id' Hid'; unfold c'; by rewrite inode_at_put).
  assert (Hz : inode_lbas inode0 = []) by done.
  split; [split; try done|].
  - unfold zlen in *. simpl. by rewrite B2.
  - simpl. by rewrite zlen_set_at.
  - intros id' j Hid' Hj. rewrite Hino in Hj by done. case_if_in Hj; [by simplify_eq|by apply (V8 id')].
  - intros id' j k Hid' Hj Hk. rewrite Hino in Hj by done. case_if_in Hj; [simplify_eq; by rewrite Hz in Hk|].
    pose proof (inode_lbas_range _ j k (V8 id' j Hid' Hj) Hk). simpl.
    destruct (Hbits k ltac:(lia)) as (_ & _ & ->). destruct (owns_spec i k) as [Hown|]; [|by apply (V9 id' j)].
    exfalso. specialize (V10 id id' i j k Hid Hid' Hi Hj Hown Hk). lia.
  - intros id1 id2 j1 j2 k H1 H2 E1 E2 K1 K2. rewrite Hino in E1, E2 by done.
    case_if_in E1; [simplify_eq; by rewrite Hz in K1|].
    case_if_in E2; [simplify_eq; by rewrite Hz in K2|]. by apply (V10 id1 id2 j1 j2 k).
  - intros Hleak k Hk. simpl in *. destruct (Hbits k ltac:(lia)) as (_ & _ & ->).
    destruct (owns_spec i k) as [|Hno]; [done|]. intros Ht. destruct (Hleak k Hk Ht) as (id0 & i0 & O1 & O2 & O3).
    exists id0, i0. rewrite Hino by done. split; [done|]. split; [|done].
    destruct (id =? id0) eqn:E; [|done]. exfalso. apply Hno. replace id0 with id in O2 by lia. congruence.
Qed.

Lemma fs_with_ibm c c' bm :
  fs_ok c -> vol_ok c' -> cx_dir_scratch c' = cx_dir_scratch c ->
  bytes_ok bm -> 8 * zlen bm = SXFS_MAX_INODES -> fs_ok (with_inode_bitmap c' bm).
Proof.
  intros [F1 F2 F3 F4 F5] [V1 V2 V3 V4 V5 V6 V7 V8 V9 V10] E Hb Hl.
  split; [by split|done|done|simpl; by rewrite E|simpl; by rewrite E].
Qed.

Lemma release_keeps victim_id :
  1 <= victim_id ->
  keeps (st_mod (fun c : ctx =>
           match inode_at c victim_id with
           | Some victim => with_block_bitmap c (set_inode_extent_bits (cx_block_bitmap c) victim false)
           | None => c
           end) ;;;
         st_mod (fun c => with_inode_bitmap c
                            (sxfs_bitmap_set (cx_inode_bitmap c) (victim_id - 1) false)) ;;;
         st_mod (fun c => put_inode c victim_id inode0)) (fun _ => True).
Proof.
  intros Hid c Hc. unfold st_bind, st_mod. cbn [fst snd]. split; [|done].
  pose proof Hc as [F1 F2 F3 F4 F5].
  assert (Hbm : forall l, l = cx_inode_bitmap c -> bytes_ok (sxfs_bitmap_set l (victim_id - 1) false) /\
                8 * zlen (sxfs_bitmap_set l (victim_id - 1) false) = SXFS_MAX_INODES).
  { intros l ->. split; [by apply bitmap_set_bytes|unfold zlen in *; by rewrite bitmap_set_length]. }
  destruct (inode_id_cases victim_id Hid) as [Hok|Hn].
  - rewrite (inode_at_ok c) by done. set (i := at_ inode0 _ _).
    destruct (vol_ok_free c victim_id i F1 Hok (inode_at_ok c victim_id Hok)) as [Hv _].
    by apply (fs_with_ibm c (put_inode (with_block_bitmap c (set_inode_extent_bits (cx_block_bitmap c) i false))
                               victim_id inode0)); [..|apply Hbm|apply Hbm].
  - rewrite Hn. set (bm := sxfs_bitmap_set _ _ _).
    assert (E : put_inode (with_inode_bitmap c bm) victim_id inode0 = with_inode_bitmap c bm).
    { specialize (Hn c). unfold inode_at in Hn. case_if_in Hn; [|done]. pose proof (vo_table c F1) as V7.
      unfold put_inode, with_inodes. simpl. destruct c as [d t sb b1 b2 tbl scr]. unfold with_inode_bitmap. simpl in *.
      f_equal. unfold set_at. case_if; [lia|]. rewrite list_insert_ge; [done|]. unfold zlen in V7. lia. }
    rewrite E. by apply (fs_with_ibm c c); [..|apply Hbm|apply Hbm].
Qed.

Lemma split_leaf_bytes p pp leaf : bytes_ok p -> split_leaf p = Some (pp, leaf) -> bytes_ok pp /\ bytes_ok leaf.
Proof.
  revert pp leaf. induction p as [|ch p IH]; intros pp leaf Hb E; [done|].
  inversion Hb as [|? ? Hc Hp]; subst. cbn [split_leaf] in E.
  destruct (split_leaf p) as [[a b]|].
  - simplify_eq. destruct (IH a leaf Hp eq_refl) as [I1 I2]. split; [by constructor|done].
  - case_if_in E; [|done]. simplify_eq. split; [constructor|done].
Qed.

Lemma resolve_path_keeps p : keeps (resolve_path p) (fun r => 1 <= r.1).
Proof. apply resolve_keeps. done. Qed.

Lemma dir_is_empty_keeps id : 1 <= id -> keeps (dir_is_empty id) (fun _ => True).
Proof.
  intros Hid. unfold dir_is_empty. eapply keeps_bind; [by apply read_dir_keeps'|]. intros count _.
  apply keeps_get. intros c Hc. by split.
Qed.

Lemma drop_entry_ok buf slot count :
  bytes_ok buf -> 0 <= slot < count -> 80 * count <= zlen buf ->
  bytes_ok (drop_entry buf slot count) /\ zlen (drop_entry buf slot count) = zlen buf.
Proof.
  intros Hb Hs Hc. unfold drop_entry. split.
  - apply bytes_ok_app. split; [auto with bytes|]. apply bytes_ok_app. split; auto with bytes.
  - unfold zlen in *. rewrite !length_app, !length_take, !length_drop. lia.
Qed.

(** Finding the parent directory, for [sxfs_remove] and [sxfs_write_file]. *)
Lemma remove_keeps relpath : bytes_ok relpath -> keeps (sxfs_remove relpath) (fun _ => True).
Proof.
  intros Hb. unfold sxfs_remove. case_if; [apply keeps_fail|].
  destruct (match split_leaf relpath with Some (pp, leaf) => (Some pp, leaf) | None => (None, relpath) end)
    as [parent_path leaf].
  case_if; [apply keeps_fail|].
  eapply (keeps_bind _ _ (fun parent => 1 <= parent)).
  { destruct parent_path as [pp|]; [|by apply keeps_ret]. case_if; [apply keeps_fail|].
    eapply keeps_bind; [apply resolve_path_keeps|]. intros [parent ptype] Hp. simpl in Hp.
    case_if; [apply keeps_fail|by apply keeps_ret]. }
  intros parent Hp. eapply keeps_bind; [by apply read_dir_keeps'|]. intros count Hcount. simpl in Hcount.
  eapply keeps_bind; [apply lookup_keeps|]. intros [[slot e]|] Hf; [|apply keeps_fail].
  destruct Hf as [Hslot Hvic].
  apply keeps_get. intros c Hc. destruct (inode_at c (de_inode_id e)) as [victim|]; [|done].
  revert c Hc. match goal with |- forall c, fs_ok c -> fs_ok (?m c).1 /\ _ => change (keeps m (fun _ => True)) end.
  eapply (keeps_bind _ _ (fun _ => True)).
  { case_if; [|by apply keeps_ret]. eapply keeps_bind; [by apply dir_is_empty_keeps|]. intros empty _.
    case_if; [apply keeps_fail|by apply keeps_ret]. }
  intros _ _. eapply (keeps_bind _ _ (fun _ => True)).
  { apply keeps_mod. intros c Hc. pose proof (fs_scratch_len c Hc) as Hl.
    assert (Hmax : SXFS_MAX_RECORDS = 4095) by done. assert (He : SXFS_DIR_ENTRY_SIZE = 80) by done.
    destruct (drop_entry_ok (cx_dir_scratch c) slot count (fs_scratch c Hc)) as [D1 D2]; [lia..|].
    apply fs_with_scratch; [done..|lia]. }
  intros _ _. apply keeps_get. intros c Hc. revert c Hc.
  assert (Hrest : forall data, bytes_ok data ->
    keeps (write_inode_bytes parent data ;;;
           st_mod (fun c : ctx =>
                match inode_at c (de_inode_id e) with
                | Some victim => with_block_bitmap c (set_inode_extent_bits (cx_block_bitmap c) victim false)
                | None => c
                end) ;;;
           st_mod (fun c => with_inode_bitmap c
                              (sxfs_bitmap_set (cx_inode_bitmap c) (de_inode_id e - 1) false)) ;;;
           st_mod (fun c => put_inode c (de_inode_id e) inode0)) (fun _ => True)).
  { intros data Hdata. eapply keeps_bind; [by apply write_keeps'|]. intros _ _. by apply release_keeps. }
  intros c Hc. apply Hrest; [|done]. apply bytes_ok_take, (fs_scratch c Hc).
Qed.

Lemma mkdir_p_keeps relpath : bytes_ok relpath -> keeps (sxfs_mkdir_p relpath) (fun _ => True).
Proof.
  intros Hb. unfold sxfs_mkdir_p. case_if; [apply keeps_fail|]. by apply mkdir_loop_keeps.
Qed.

Lemma write_file_keeps relpath data :
  bytes_ok relpath -> bytes_ok data -> zlen data < 4294967296 - 511 ->
  keeps (sxfs_write_file relpath data) (fun _ => True).
Proof.
  intros Hb Hdata Hsize. unfold sxfs_write_file. case_if; [apply keeps_fail|].
  assert (Hleaf : bytes_ok (match split_leaf relpath with Some (_, leaf) => leaf | None => relpath end)).
  { destruct (split_leaf relpath) as [[pp lf]|] eqn:E; [|done]. by apply (split_leaf_bytes relpath pp). }
  assert (Hpp : forall pp lf, split_leaf relpath = Some (pp, lf) -> bytes_ok pp)
    by (intros pp lf E; by apply (split_leaf_bytes relpath pp lf)).
  destruct (split_leaf relpath) as [[pp leaf]|];
    (case_if; [apply keeps_fail|]); (case_if; [apply keeps_fail|]).
  all: eapply (keeps_bind _ _ (fun parent => 1 <= parent)).
  1: { case_if; [apply keeps_fail|]. eapply keeps_bind; [apply mkdir_p_keeps; by eapply Hpp|]. intros _ _.
       eapply keeps_bind; [apply resolve_path_keeps|]. intros [parent ptype] Hp. simpl in Hp.
       case_if; [apply keeps_fail|by apply keeps_ret]. }
  2: by apply keeps_ret.
  all: intros parent Hp; eapply (keeps_bind _ _ (fun id => 1 <= id)).
  1,3: intros c Hc; destruct (resolve_path_keeps relpath c Hc) as [R1 R2];
    destruct (resolve_path relpath c) as [c' [[id ftype]|err]]; simpl in R1, R2;
    [by case_if|destruct err; try done; by apply create_keeps].
  all: intros id Hid; pose proof (zlen_nonneg data);
    (eapply keeps_bind; [by apply ensure_keeps'|]); intros _ _; by apply write_keeps'.
Qed.

(** A change of the attributes of an inode. *)
Lemma attr_keeps (c : ctx) id i i' :
  fs_ok c -> 1 <= id -> inode_at c id = Some i -> inode_lbas i' = inode_lbas i ->
  in_extent_count i' = in_extent_count i -> in_extents i' = in_extents i -> in_size i' = in_size i ->
  fs_ok (put_inode c id i').
Proof.
  intros Hc Hid Hi El E1 E2 E3. destruct (inode_id_cases id Hid) as [Hok|Hn]; [|by rewrite Hn in Hi].
  destruct Hc as [F1 F2 F3 F4 F5]. split; try done.
  replace c with (with_dev c (cx_dev c)) by (by destruct c).
  apply (vol_ok_rewrite c id i); try done; [|by destruct F1].
  pose proof (vo_inode c F1 id i Hok Hi) as (O1 & O2 & O3 & O4).
  split; [by rewrite E1|]. split; [by rewrite E2|]. split; [unfold live_extents in *; by rewrite E1, E2|].
  by rewrite E3, El.
Qed.

Lemma set_ownership_keeps relpath uid gid mode : keeps (sxfs_set_ownership relpath uid gid mode) (fun _ => True).
Proof.
  unfold sxfs_set_ownership. case_if; [apply keeps_fail|].
  eapply keeps_bind; [apply resolve_path_keeps|]. intros [id ty] Hid. cbv zeta. cbn [fst] in *.
  apply keeps_get. intros c Hc. destruct (inode_at c id) as [i|] eqn:Ei; [|done].
  case_if; [done|]. split; [|done]. by apply (attr_keeps c id i).
Qed.

Lemma set_mtime_keeps relpath mtime : keeps (sxfs_set_mtime relpath mtime) (fun _ => True).
Proof.
  unfold sxfs_set_mtime. case_if; [apply keeps_fail|].
  eapply keeps_bind; [apply resolve_path_keeps|]. intros [id ty] Hid. cbv zeta. cbn [fst] in *.
  apply keeps_get. intros c Hc. destruct (inode_at c id) as [i|] eqn:Ei; [|done].
  split; [|done]. by apply (attr_keeps c id i).
Qed.
End ops.
