(* ===== verification/SxfsWalk.v ===== *)
(** * Walking an SxFS volume (libsxfs/sxfs_core.c)

    The maintenance traversal of the tree: [validate_directory] reads and checks
    a whole directory, [sxfs_walk] goes down with an explicit stack and calls
    back for every entry, [sxfs_stamp_ownership] uses it to give old inodes an
    owner.  The callback gets the context the walk itself reads, as in the
    source, where the cookie of [stamp_callback] is that very context. *)

From S2P Require Import Prelude Bytes SxfsFormat SxfsFormatFacts SxfsCore SxfsDevice SxfsAlloc SxfsOps.
Open Scope st_scope.

Definition SXFS_WALK_PATH_CAPACITY : Z := SXFS_MAX_RELATIVE_PATH + 1.
Definition kMaxDepth : Z := 33.

Record walk_frame := mk_frame { wf_dir_id : Z; wf_next : Z; wf_count : Z; wf_path_len : Z }.

Section walk.
Context {D : Type} `{BlockDevice D}.
Local Abbreviation ctx := (sxfs_ctx D).
Local Abbreviation M := (st (sxfs_ctx D) sxfs_err).

(** ** Checking a directory *)

Definition has_byte (b : Z) (l : list Z) : bool := existsb (Z.eqb b) l.

(** The tests on a live entry that look at nothing else. *)
Definition entry_refused (e : sxfs_dir_entry) : bool :=
  let n := de_name_length e in
  let name := take (Z.to_nat n) (de_name e) in
  (n =? 0) || (n >? SXFS_INODE_NAME_CAPACITY - 1) || negb (at_ 0 (de_name e) n =? 0) ||
  negb (de_type e =? SXFS_INODE_FILE) && negb (de_type e =? SXFS_INODE_DIRECTORY) ||
  (de_inode_id e >? SXFS_MAX_INODES) ||
  has_byte 47 name || has_byte 92 name || has_byte 58 name || has_byte 0 name ||
  (n =? 1) && (at_ 0 (de_name e) 0 =? 46) ||
  (n =? 2) && (at_ 0 (de_name e) 0 =? 46) && (at_ 0 (de_name e) 1 =? 46).

Definition same_name (previous e : sxfs_dir_entry) : bool :=
  negb (de_inode_id previous =? 0) && (de_name_length previous =? de_name_length e) &&
  bool_decide (take (Z.to_nat (de_name_length e)) (de_name previous) =
               take (Z.to_nat (de_name_length e)) (de_name e)).

(** The loop over the entries in the scratch buffer: the marks it leaves, or
    [None] for the error. *)
Fixpoint validate_loop (n : nat) (index : Z) (c : ctx) (visited : list bool) : option (list bool) :=
  match n with
  | O => Some visited
  | S n =>
      let buf := cx_dir_scratch c in
      let e := scratch_entry buf index in
      if de_inode_id e =? 0 then
        if negb (de_type e =? SXFS_INODE_UNUSED) || negb (de_name_length e =? 0) ||
           negb (at_ 0 (de_name e) 0 =? 0)
        then None else validate_loop n (index + 1) c visited
      else if entry_refused e then None
      else if existsb (fun p => same_name (scratch_entry buf (Z.of_nat p)) e) (seq 0 (Z.to_nat index)) then None
      else if at_ false visited (de_inode_id e - 1) then None
      else
        match inode_at c (de_inode_id e) with
        | None => None
        | Some child =>
            if negb (in_inode_id child =? de_inode_id e) || negb (in_type child =? de_type e) ||
               negb (sxfs_bitmap_test (cx_inode_bitmap c) (de_inode_id e - 1))
            then None
            else validate_loop n (index + 1) c (set_at visited (de_inode_id e - 1) true)
        end
  end.

(** The marks and [*out_count]. *)
Definition validate_directory (dir_id : Z) (visited : list bool) : M (list bool * Z) :=
  let! c := st_get in
  match inode_at c dir_id with
  | None => st_fail SXFS_ERR_INVALID
  | Some directory =>
      if negb (in_type directory =? SXFS_INODE_DIRECTORY) ||
         negb (in_size directory mod SXFS_DIR_ENTRY_SIZE =? 0) ||
         (in_size directory / SXFS_DIR_ENTRY_SIZE >? SXFS_MAX_RECORDS)
      then st_fail SXFS_ERR_INVALID
      else
        let! count := read_dir_entries dir_id in
        if negb (count =? in_size directory / SXFS_DIR_ENTRY_SIZE) then st_fail SXFS_ERR_INVALID
        else
          let! c := st_get in
          match validate_loop (Z.to_nat count) 0 c visited with
          | None => st_fail SXFS_ERR_INVALID
          | Some visited => st_ret (visited, count)
          end
  end.

(** ** Reading one entry *)

Fixpoint locate_loop (es : list sxfs_extent) (offset : Z) : option (Z * Z) :=
  match es with
  | [] => None
  | e :: t =>
      let capacity := sector_count e * SXFS_SECTOR_SIZE in
      if offset <? capacity
      then Some (u32 (start_lba e + u32 (offset / SXFS_SECTOR_SIZE)), offset mod SXFS_SECTOR_SIZE)
      else locate_loop t (offset - capacity)
  end.
(** [*out_lba] and [*out_within]. *)
Definition locate_inode_offset (i : sxfs_inode) (offset : Z) : option (Z * Z) :=
  locate_loop (take (Z.to_nat (in_extent_count i)) (in_extents i)) offset.

Definition read_dir_entry_at (dir_id index : Z) : M sxfs_dir_entry :=
  let! c := st_get in
  match inode_at c dir_id with
  | None => st_fail SXFS_ERR_INVALID
  | Some directory =>
      if negb (in_type directory =? SXFS_INODE_DIRECTORY) then st_fail SXFS_ERR_INVALID
      else
        let offset := index * SXFS_DIR_ENTRY_SIZE in
        if offset + SXFS_DIR_ENTRY_SIZE >? in_size directory then st_fail SXFS_ERR_INVALID
        else
          match locate_inode_offset directory offset with
          | None => st_fail SXFS_ERR_INVALID
          | Some (lba, within) =>
              let sectors := (within + SXFS_DIR_ENTRY_SIZE + SXFS_SECTOR_SIZE - 1) / SXFS_SECTOR_SIZE in
              if sectors >? 2 then st_fail SXFS_ERR_IO
              else
                let! buffer := read_sector lba sectors in
                st_ret (dec_dir_entry (take 80 (drop (Z.to_nat within) buffer)))
          end
  end.

(** ** The traversal *)

Context {K : Type} (visit : list Z -> Z -> Z -> K -> st (sxfs_ctx D) sxfs_err K).

(** [frames] from the top down, [visited], the buffer [path] and the cookie. *)
Record walk := mk_walk { wk_frames : list walk_frame; wk_visited : list bool; wk_path : list Z; wk_cookie : K }.

(** [memcpy] into a buffer. *)
Definition put_at (buf : list Z) (pos : Z) (data : list Z) : list Z :=
  take (Z.to_nat pos) buf ++ data ++ drop (Z.to_nat pos + length data) buf.

(** The path of an entry in the buffer, over the path of its directory, and its
    length. *)
Definition extend_path (path : list Z) (path_len : Z) (e : sxfs_dir_entry) : list Z * Z :=
  let '(path, child_len) :=
    if negb (path_len =? 0) then (set_at path path_len SLASH, path_len + 1) else (path, path_len) in
  let path := put_at path child_len (take (Z.to_nat (de_name_length e)) (de_name e)) in
  let child_len := child_len + de_name_length e in
  (set_at path child_len 0, child_len).

(** The end of a turn, from the test that the directory is finished. *)
Definition walk_turn (frame : walk_frame) (below : list walk_frame) (visited : list bool) (path : list Z) (cookie : K)
  : M (walk + (list bool * K)) :=
  if wf_next frame >=? wf_count frame then
    let path := match below with
                | [] => path
                | parent :: _ => set_at path (wf_path_len parent) 0
                end in
    st_ret (inl (mk_walk below visited path cookie))
  else
    let index := wf_next frame in
    let frame := mk_frame (wf_dir_id frame) (index + 1) (wf_count frame) (wf_path_len frame) in
    let! e := read_dir_entry_at (wf_dir_id frame) index in
    if de_inode_id e =? 0 then st_ret (inl (mk_walk (frame :: below) visited path cookie))
    else
      let required := wf_path_len frame + (if negb (wf_path_len frame =? 0) then 1 else 0) + de_name_length e + 1 in
      if required >? SXFS_WALK_PATH_CAPACITY then st_fail SXFS_ERR_TOO_LONG
      else
        let '(path, child_len) := extend_path path (wf_path_len frame) e in
        let! frames :=
          (if de_type e =? SXFS_INODE_DIRECTORY
           then if zlen (frame :: below) >=? kMaxDepth then st_fail SXFS_ERR_INVALID
                else st_ret (mk_frame (de_inode_id e) 0 0 child_len :: frame :: below)
           else st_ret (frame :: below)) in
        let! cookie := visit (c_string path) (de_inode_id e) (de_type e) cookie in
        st_ret (inl (mk_walk frames visited path cookie)).

(** One turn of the loop: a directory met for the first time is checked whole. *)
Definition walk_step (w : walk) : M (walk + (list bool * K)) :=
  match wk_frames w with
  | [] => st_ret (inr (wk_visited w, wk_cookie w))
  | frame :: below =>
      if wf_next frame =? 0 then
        let! r := validate_directory (wf_dir_id frame) (wk_visited w) in
        let '(visited, count) := r in
        walk_turn (mk_frame (wf_dir_id frame) (wf_next frame) count (wf_path_len frame)) below visited
                  (wk_path w) (wk_cookie w)
      else walk_turn frame below (wk_visited w) (wk_path w) (wk_cookie w)
  end.

(** Turns that suffice: a directory takes one per entry and one to leave it, and
    every inode is entered once. *)
Definition walk_fuel : positive := 16785408.

Definition blank_marks : list bool := replicate (Z.to_nat SXFS_MAX_INODES) false.
Definition blank_path : list Z := replicate (Z.to_nat SXFS_WALK_PATH_CAPACITY) 0.

(** An allocated inode the walk has not met. *)
Definition orphan (c : ctx) (visited : list bool) : bool :=
  existsb (fun k => let id := SXFS_ROOT_INODE + 1 + Z.of_nat k in
                    sxfs_bitmap_test (cx_inode_bitmap c) (id - 1) && negb (at_ false visited (id - 1)))
          (seq 0 (Z.to_nat (SXFS_MAX_INODES - SXFS_ROOT_INODE))).

(** The cookie, [None] if the fuel ran out. *)
Definition sxfs_walk (cookie : K) : M (option K) :=
  let! c := st_get in
  match inode_at c SXFS_ROOT_INODE with
  | None => st_fail SXFS_ERR_INVALID
  | Some root =>
      if negb (in_type root =? SXFS_INODE_DIRECTORY) ||
         negb (sxfs_bitmap_test (cx_inode_bitmap c) (SXFS_ROOT_INODE - 1))
      then st_fail SXFS_ERR_INVALID
      else
        let! r := st_loop walk_fuel walk_step
                    (mk_walk [mk_frame SXFS_ROOT_INODE 0 0 0] (set_at blank_marks (SXFS_ROOT_INODE - 1) true)
                             blank_path cookie) in
        match r with
        | inl _ => st_ret None
        | inr (visited, cookie) =>
            let! c := st_get in
            if orphan c visited then st_fail SXFS_ERR_INVALID else st_ret (Some cookie)
        end
  end.
End walk.

(** ** Ownership of old volumes *)

Section stamp.
Context {D : Type} `{BlockDevice D}.

(** [inode_at] again on the context, and the default of the path. *)
Definition stamp_callback (relpath : list Z) (inode_id type : Z) (_ : unit) : st (sxfs_ctx D) sxfs_err unit :=
  st_mod (fun c =>
    match inode_at c inode_id with
    | None => c
    | Some i =>
        if in_mode i =? 0 then
          let '(uid, gid, mode) := sxfs_default_ownership relpath (in_type i) in
          put_inode c inode_id (in_with_owner i uid gid mode)
        else c
    end).

Definition sb_with_features (s : sxfs_superblock) (features : Z) : sxfs_superblock :=
  mk_superblock (sb_magic s) (sb_version s) (sb_checksum s) (sb_sequence s) (sb_flags s) (sb_total_sectors s)
    (sb_journal_lba s) (sb_journal_sectors s) (sb_block_bitmap_lba s) (sb_block_bitmap_sectors s)
    (sb_inode_bitmap_lba s) (sb_inode_bitmap_sectors s) (sb_inode_table_lba s)
    (sb_inode_table_sectors s) (sb_data_lba s) (sb_max_inodes s) (sb_root_inode s) features (sb_reserved s).

Definition sxfs_stamp_ownership : st (sxfs_ctx D) sxfs_err (option unit) :=
  let! c := st_get in
  match inode_at c SXFS_ROOT_INODE with
  | None => st_fail SXFS_ERR_INVALID
  | Some _ =>
      stamp_callback [] SXFS_ROOT_INODE SXFS_INODE_DIRECTORY tt ;;;
      let! r := sxfs_walk stamp_callback tt in
      match r with
      | None => st_ret None
      | Some _ =>
          st_mod (fun c => with_superblock c
            (sb_with_features (cx_superblock c) (Z.lor (sb_features (cx_superblock c)) SXFS_FEATURE_OWNERSHIP))) ;;;
          st_ret (Some tt)
      end
  end.
End stamp.
