(* ===== verification/SxfsTree.v ===== *)
(** * Directories of an SxFS volume as lists of entries

    On a consistent volume the two ways [sxfs_core.c] reads a directory, whole
    and entry by entry, see the same list; what [validate_directory] accepts is
    a list of well-formed entries with distinct names and fresh inodes. *)

From S2P Require Import Prelude Bytes SxfsFormat SxfsFormatFacts SxfsCore SxfsDevice SxfsAlloc SxfsOps SxfsWalk.
Open Scope st_scope.

Definition entry0 : sxfs_dir_entry := mk_dir_entry 0 0 0 [] [].

Section tree.
Context {D : Type} `{ReliableDevice D}.
Local Abbreviation ctx := (sxfs_ctx D).
Local Abbreviation M := (st (sxfs_ctx D) sxfs_err).

(** What a walk depends on of an inode, and of a context. *)
Definition shape (i : sxfs_inode) : Z * Z * Z * Z * list sxfs_extent :=
  (in_inode_id i, in_type i, in_size i, in_extent_count i, in_extents i).
Definition same_tree (c c' : ctx) : Prop :=
  cx_dev c' = cx_dev c /\ cx_inode_bitmap c' = cx_inode_bitmap c /\
  forall id, option_map shape (inode_at c' id) = option_map shape (inode_at c id).

#[export] Instance same_tree_pre : PreOrder same_tree.
Proof.
  split; [done|]. intros a b c (A1 & A2 & A3) (B1 & B2 & B3).
  split_and!; [congruence|congruence|]. intros id. by rewrite B3.
Qed.

Lemma same_tree_sym (c c' : ctx) : same_tree c c' -> same_tree c' c.
Proof. intros (A1 & A2 & A3). by split_and!. Qed.

(** The bytes of a directory as its entries. *)
Definition entries (c : ctx) (id : Z) : list sxfs_dir_entry :=
  match inode_at c id with
  | None => []
  | Some i => map dec_dir_entry (chunks 80 (Z.to_nat (in_size i / SXFS_DIR_ENTRY_SIZE)) (file_bytes c i))
  end.

Lemma shape_inv i i' : shape i' = shape i ->
  in_inode_id i' = in_inode_id i /\ in_type i' = in_type i /\ in_size i' = in_size i /\ inode_lbas i' = inode_lbas i.
Proof. unfold shape, inode_lbas, live_extents. intros [= -> -> -> -> ->]. done. Qed.

Lemma same_tree_inode c c' id i : same_tree c c' -> inode_at c id = Some i ->
  exists i', inode_at c' id = Some i' /\ shape i' = shape i.
Proof.
  intros (_ & _ & Hs) Hi. specialize (Hs id). rewrite Hi in Hs. destruct (inode_at c' id) as [i'|]; [|done].
  exists i'. split; [done|]. cbn in Hs. congruence.
Qed.

Lemma entries_same c c' id : same_tree c c' -> entries c' id = entries c id.
Proof.
  intros Ht. unfold entries. destruct (inode_at c id) as [i|] eqn:Ei.
  - destruct (same_tree_inode c c' id i Ht Ei) as (i' & -> & Hs). apply shape_inv in Hs as (_ & _ & E1 & E2).
    unfold file_bytes. destruct Ht as (-> & _). by rewrite E1, E2.
  - destruct Ht as (_ & _ & Ht). specialize (Ht id). rewrite Ei in Ht. by destruct (inode_at c' id).
Qed.

Lemma same_tree_scratch (c : ctx) l : same_tree c (with_scratch c l).
Proof. done. Qed.

Lemma at_chunks n k : forall l j, 0 <= j < Z.of_nat k ->
  at_ entry0 (map dec_dir_entry (chunks n k l)) j = dec_dir_entry (take n (drop (n * Z.to_nat j) l)).
Proof.
  induction k as [|k IH]; intros l j Hj; [lia|]. cbn [chunks map]. unfold at_. destruct (j <? 0) eqn:?; [lia|].
  destruct (Z.to_nat j) as [|m] eqn:Em; [by rewrite Nat.mul_0_r|]. cbn [nth].
  specialize (IH (drop n l) (Z.of_nat m) ltac:(lia)). unfold at_ in IH. destruct (Z.of_nat m <? 0) eqn:?; [lia|]. rewrite Nat2Z.id in IH.
  rewrite IH, drop_drop. do 2 f_equal. f_equal. lia.
Qed.

Lemma entries_len (c : ctx) id i : inode_at c id = Some i -> 0 <= in_size i -> zlen (entries c id) = in_size i / 80.
Proof.
  intros Hi Hs. unfold entries, zlen. rewrite Hi, length_map, chunks_length. change SXFS_DIR_ENTRY_SIZE with 80.
  pose proof (Z.div_pos (in_size i) 80). lia.
Qed.

Lemma entries_at (c : ctx) id i j : inode_at c id = Some i -> 0 <= j < in_size i / 80 ->
  at_ entry0 (entries c id) j = dec_dir_entry (take 80 (drop (80 * Z.to_nat j) (file_bytes c i))).
Proof. intros Hi Hj. unfold entries. rewrite Hi. apply at_chunks. change SXFS_DIR_ENTRY_SIZE with 80. lia. Qed.

Lemma content_drop d s m n :
  dev_ok d -> on_device d (run_lbas s (m + n)) ->
  drop (512 * m) (content d (run_lbas s (m + n))) = content d (run_lbas (s + Z.of_nat m) n).
Proof.
  intros Hd Ho. rewrite run_lbas_app, content_app, drop_app_length'; [done|].
  rewrite content_length, run_lbas_length; [done|done|]. intros k Hk. apply Ho. rewrite run_lbas_app. apply in_or_app. by left.
Qed.

(** A window of a buffer does not see past its end. *)
Lemma window_take {A} (l : list A) k n m : (k + n <= m)%nat -> take n (drop k (take m l)) = take n (drop k l).
Proof. intros Hk. rewrite !take_drop_commute, take_take. do 2 f_equal. lia. Qed.
Lemma window_app {A} (l r : list A) k n : (k + n <= length l)%nat -> take n (drop k (l ++ r)) = take n (drop k l).
Proof. intros Hk. rewrite !take_drop_commute. f_equal. by rewrite take_app_le. Qed.

(** An entry read on its own is the entry of the whole directory. *)
Lemma read_entry_spec c id i j :
  fs_ok c -> inode_id_ok id -> inode_at c id = Some i -> in_type i = SXFS_INODE_DIRECTORY ->
  0 <= j < in_size i / 80 ->
  read_dir_entry_at id j c = (c, Ok (at_ entry0 (entries c id) j)).
Proof.
  intros Hc Hid Hi Ht Hj. rewrite (entries_at c id i) by done.
  pose proof (fs_vol c Hc) as Hv. pose proof (vo_inode c Hv id i Hid Hi) as (He & Hl & Hx & Hs).
  pose proof (vo_dev c Hv) as Hd. pose proof (vo_wrap c Hv) as Hw. pose proof (vo_size c Hv) as Hz.
  assert (Hj80 : 80 * (j + 1) <= in_size i) by (Z.div_mod_to_equations; lia).
  destruct (inode_lbas_case i He Hl) as [(E0 & E1 & E2)|(e & E0 & E1 & E2)].
  { rewrite E2 in Hs. change (zlen []) with 0 in Hs. lia. }
  assert (Hxe : extent_in_data (cx_total_sectors c) e) by (rewrite E1 in Hx; by inversion Hx). destruct Hxe as (X1 & X2 & X3).
  assert (HD : 0 < SXFS_DATA_LBA) by done. unfold no_wrap in Hw.
  rewrite E2 in Hs. unfold extent_lbas, zlen in Hs. rewrite run_lbas_length in Hs.
  unfold read_dir_entry_at, st_bind, st_get. rewrite Hi, Ht. cbn [Z.eqb Pos.eqb SXFS_INODE_DIRECTORY negb].
  change SXFS_DIR_ENTRY_SIZE with 80. destruct (j * 80 + 80 >? in_size i) eqn:?; [lia|].
  unfold locate_inode_offset. rewrite <- live_extents_all by (unfold SXFS_MAX_EXTENTS; lia). rewrite E1. cbn [locate_loop].
  change SXFS_SECTOR_SIZE with 512. set (q := j * 80 / 512). set (w := (j * 80) mod 512).
  assert (Eq : j * 80 = 512 * q + w /\ 0 <= w < 512 /\ 0 <= q) by (unfold q, w; Z.div_mod_to_equations; lia).
  clearbody q w. destruct Eq as (Eq & Hwr & Hq). destruct (j * 80 <? sector_count e * 512) eqn:?; [|lia].
  rewrite (u32_id q) by lia. rewrite u32_id by lia.
  set (n := (w + 80 + 512 - 1) / 512). assert (Hn : 1 <= n <= 2 /\ w + 80 <= 512 * n /\ 512 * (n - 1) < w + 80) by (unfold n; Z.div_mod_to_equations; lia).
  clearbody n. destruct (n >? 2) eqn:?; [lia|].
  assert (Hend : start_lba e + q + n <= dev_size (cx_dev c)) by lia.
  unfold read_sector. replace n with (Z.of_nat (Z.to_nat n)) by lia. rewrite dev_read_spec by (done || lia).
  unfold st_ret. do 2 f_equal. f_equal.
  unfold file_bytes. rewrite window_take by lia.
  replace (inode_lbas i) with (run_lbas (start_lba e) (Z.to_nat q + (Z.to_nat n + Z.to_nat (sector_count e - q - n))))
    by (rewrite E2; unfold extent_lbas; f_equal; lia).
  assert (Ho : on_device (cx_dev c) (run_lbas (start_lba e) (Z.to_nat q + (Z.to_nat n + Z.to_nat (sector_count e - q - n))))).
  { intros k Hk. apply run_lbas_in in Hk. lia. }
  replace (80 * Z.to_nat j)%nat with (512 * Z.to_nat q + Z.to_nat w)%nat by lia.
  rewrite <- drop_drop, content_drop, run_lbas_app, content_app by done.
  rewrite window_app.
  - rewrite Z2Nat.id by lia. do 2 f_equal. unfold content, run_lbas. by rewrite map_map.
  - rewrite content_length, run_lbas_length; [lia|done|]. intros k Hk. apply run_lbas_in in Hk. lia.
Qed.

Lemma read_dir_spec c id i :
  fs_ok c -> inode_id_ok id -> inode_at c id = Some i -> in_size i mod 80 = 0 -> in_size i / 80 <= SXFS_MAX_RECORDS ->
  exists l, read_dir_entries id c = (with_scratch c l, Ok (in_size i / 80)) /\ fs_ok (with_scratch c l) /\
    forall j, 0 <= j < in_size i / 80 -> scratch_entry l j = at_ entry0 (entries c id) j.
Proof.
  intros Hc Hid Hi Hm Hr. pose proof (read_dir_keeps id Hid c Hc) as [Hk _]. pose proof (fs_vol c Hc) as Hv.
  pose proof (vo_inode c Hv id i Hid Hi) as (_ & _ & _ & Hs). pose proof (file_bytes_length c id i Hv Hid Hi) as Hf.
  unfold read_dir_entries in *. rewrite Hi in *. change SXFS_DIR_ENTRY_SIZE with 80 in *.
  destruct (in_size i / 80 >? SXFS_MAX_RECORDS) eqn:?; [lia|].
  rewrite (read_inode_bytes_spec c id i) in * by (done || (Z.div_mod_to_equations; lia)).
  rewrite take_ge in * by (unfold zlen in Hf; Z.div_mod_to_equations; lia). rewrite Hf in *.
  eexists. split; [done|]. split; [done|]. intros j Hj. rewrite (entries_at c id i) by done.
  unfold scratch_entry, overwrite. rewrite window_app; [done|]. unfold zlen in Hf. Z.div_mod_to_equations; lia.
Qed.

(** ** What validation accepts *)

(** The inodes a directory names. *)
Definition live_ids (es : list sxfs_dir_entry) : list Z :=
  flat_map (fun e => if de_inode_id e =? 0 then [] else [de_inode_id e]) es.

Definition entry_name (e : sxfs_dir_entry) : list Z := take (Z.to_nat (de_name_length e)) (de_name e).

(** A live entry is well formed and names an allocated inode of its type. *)
Definition entry_valid (c : ctx) (e : sxfs_dir_entry) : Prop :=
  de_inode_id e <> 0 ->
  entry_refused e = false /\ sxfs_bitmap_test (cx_inode_bitmap c) (de_inode_id e - 1) = true /\
  exists i, inode_at c (de_inode_id e) = Some i /\ in_type i = de_type e.

Fixpoint distinct_names (pre rest : list sxfs_dir_entry) : Prop :=
  match rest with
  | [] => True
  | e :: t => (de_inode_id e <> 0 -> Forall (fun p => same_name p e = false) pre) /\ distinct_names (pre ++ [e]) t
  end.

(** [visited'] is [visited] with the marks of [ids]. *)
Definition marked (visited visited' : list bool) (ids : list Z) : Prop :=
  zlen visited' = zlen visited /\
  forall id, inode_id_ok id -> at_ false visited' (id - 1) = at_ false visited (id - 1) || existsb (Z.eqb id) ids.

Lemma validate_loop_spec c rest : forall pre visited visited',
  (forall j, 0 <= j < zlen (pre ++ rest) -> scratch_entry (cx_dir_scratch c) j = at_ entry0 (pre ++ rest) j) ->
  Forall (fun e => 0 <= de_inode_id e) rest -> zlen visited = SXFS_MAX_INODES ->
  validate_loop (length rest) (zlen pre) c visited = Some visited' ->
  Forall (entry_valid c) rest /\ distinct_names pre rest /\ List.NoDup (live_ids rest) /\
  Forall (fun id => inode_id_ok id /\ at_ false visited (id - 1) = false) (live_ids rest) /\
  marked visited visited' (live_ids rest).
Proof.
  induction rest as [|e rest IH]; intros pre visited visited' Hbuf Hpos Hlen Hval.
  { cbn in Hval. simplify_eq. split_and!; try constructor; [done|]. intros id _. cbn. by rewrite orb_false_r. }
  assert (He : scratch_entry (cx_dir_scratch c) (zlen pre) = e).
  { rewrite Hbuf by (rewrite zlen_app; unfold zlen; cbn [length]; lia).
    unfold at_, zlen. case_if; [lia|]. rewrite Nat2Z.id, app_nth2, Nat.sub_diag by lia. done. }
  inversion Hpos as [|? ? Hp Hpos' ]; subst x l. cbn [length validate_loop] in Hval. rewrite He in Hval.
  assert (Happ : pre ++ e :: rest = (pre ++ [e]) ++ rest) by (by rewrite <- app_assoc). rewrite Happ in Hbuf.
  rewrite <- (zlen_snoc pre e) in Hval. cbn [distinct_names live_ids flat_map]. fold (live_ids rest).
  destruct (de_inode_id e =? 0) eqn:Eid.
  { case_if_in Hval; [done|]. apply IH in Hval as (V1 & V2 & V3 & V4 & V5); try done. cbn [app].
    split_and!; try done; [|lia]. constructor; [|done]. intros ?; lia. }
  destruct (entry_refused e) eqn:Er; [done|]. destruct (existsb _ (seq 0 _)) eqn:Ed in Hval; [done|].
  destruct (at_ false visited (de_inode_id e - 1)) eqn:Ev; [done|].
  destruct (inode_at c (de_inode_id e)) as [child|] eqn:Ech; [|done].
  destruct (negb (in_inode_id child =? de_inode_id e) || negb (in_type child =? de_type e) || _) eqn:Eb in Hval; [done|].
  assert (Hidr : inode_id_ok (de_inode_id e)).
  { unfold inode_id_ok. unfold inode_at in Ech. destruct ((de_inode_id e =? 0) || (de_inode_id e >? SXFS_MAX_INODES)) eqn:?; [done|]. lia. }
  assert (Hr : 0 <= de_inode_id e - 1 < zlen visited) by (rewrite Hlen; unfold inode_id_ok in Hidr; lia).
  apply IH in Hval as (V1 & V2 & V3 & V4 & V5 & V6); try done; [|by rewrite zlen_set_at].
  cbn [app]. split_and!.
  - constructor; [|done]. intros _. split; [done|]. split; [|exists child; split; [done|lia]].
    destruct (sxfs_bitmap_test _ _); [done|]. cbn in Eb. by rewrite !orb_true_r in Eb.
  - intros _. apply List.Forall_forall. intros x Hx. destruct (same_name x e) eqn:Es; [|done].
    apply (In_nth _ _ entry0) in Hx as (m & Hm & <-). rewrite <- not_true_iff_false in Ed. destruct Ed. apply existsb_exists. exists m.
    split; [apply in_seq; unfold zlen; lia|]. rewrite Hbuf by (rewrite !zlen_app; unfold zlen; lia).
    unfold at_. case_if; [lia|]. rewrite Nat2Z.id, <- app_assoc, app_nth1 by done. done.
  - done.
  - constructor; [|done]. intros Hin. rewrite List.Forall_forall in V4. destruct (V4 _ Hin) as [_ Hf].
    by rewrite at_set_at_eq in Hf.
  - constructor; [done|]. eapply Forall_impl; [exact V4|]. intros id [Hi Hf]. split; [done|].
    destruct (Z.eq_dec id (de_inode_id e)) as [->|]; [done|]. rewrite at_set_at_ne in Hf by lia. done.
  - split; [by rewrite V5, zlen_set_at|]. intros id Hi. rewrite V6 by done. cbn [existsb]. rewrite at_set_at by done.
    destruct (de_inode_id e - 1 =? id - 1) eqn:E1; destruct (id =? de_inode_id e) eqn:E2; cbn [orb]; rewrite ?orb_true_r; done || lia.
Qed.

Definition dir_valid (c : ctx) (id : Z) : Prop :=
  Forall (entry_valid c) (entries c id) /\ distinct_names [] (entries c id) /\ List.NoDup (live_ids (entries c id)) /\
  exists i, inode_at c id = Some i /\ in_type i = SXFS_INODE_DIRECTORY /\
    in_size i mod 80 = 0 /\ zlen (entries c id) = in_size i / 80 /\ in_size i / 80 <= SXFS_MAX_RECORDS.

(** The fields of an entry that was read are in their ranges. *)
Definition entry_shape (e : sxfs_dir_entry) : Prop :=
  0 <= de_inode_id e /\ 0 <= de_name_length e /\ length (de_name e) = 64%nat.

Lemma dec_entry_shape l : bytes_ok l -> (80 <= length l)%nat -> entry_shape (dec_dir_entry (take 80 l)).
Proof.
  intros Hb Hl. unfold dec_dir_entry, get, get_bytes, entry_shape. simpl.
  assert (Hp : bytes_ok (take 80 l)) by by apply bytes_ok_take.
  split; [by apply unle_range, bytes_ok_take|]. split; [by apply unle_range, bytes_ok_take, bytes_ok_drop, bytes_ok_drop|].
  rewrite length_take, !length_drop, length_take. lia.
Qed.

Lemma entries_shape c id : fs_ok c -> inode_id_ok id -> Forall entry_shape (entries c id).
Proof.
  intros Hc Hid. unfold entries. rewrite inode_at_ok by done. set (i := at_ _ _ _).
  assert (Hi : inode_at c id = Some i) by by apply inode_at_ok.
  apply Forall_map. assert (Hb : bytes_ok (file_bytes c i)) by (by apply (file_bytes_ok c id); [apply Hc|..]).
  pose proof (file_bytes_length c id i (fs_vol c Hc) Hid Hi) as Hl.
  pose proof (vo_inode c (fs_vol c Hc) id i Hid Hi) as (_ & _ & _ & Hs).
  assert (Hk : (80 * Z.to_nat (in_size i / SXFS_DIR_ENTRY_SIZE) <= length (file_bytes c i))%nat).
  { change SXFS_DIR_ENTRY_SIZE with 80. unfold zlen in Hl. Z.div_mod_to_equations; lia. }
  revert Hb Hk. generalize (file_bytes c i) as l, (Z.to_nat (in_size i / SXFS_DIR_ENTRY_SIZE)) as k. clear.
  intros l k. revert l. induction k as [|k IH]; intros l Hb Hk; [constructor|]. cbn [chunks].
  constructor; [apply dec_entry_shape; [done|lia]|]. apply IH; [by apply bytes_ok_drop|]. rewrite length_drop. lia.
Qed.

Lemma validate_spec c id visited :
  fs_ok c -> inode_id_ok id -> zlen visited = SXFS_MAX_INODES ->
  exists l, (validate_directory id visited c).1 = with_scratch c l /\ fs_ok (with_scratch c l) /\
  match (validate_directory id visited c).2 with
  | Fail _ => True
  | Ok (visited', count) =>
      dir_valid c id /\ count = zlen (entries c id) /\
      Forall (fun id => inode_id_ok id /\ at_ false visited (id - 1) = false) (live_ids (entries c id)) /\
      marked visited visited' (live_ids (entries c id))
  end.
Proof.
  intros Hc Hid Hlen. assert (Hsame : with_scratch c (cx_dir_scratch c) = c) by (by destruct c).
  unfold validate_directory, st_bind, st_get. pose proof (inode_at_ok c id Hid) as Hi. rewrite Hi. set (i := at_ _ _ _) in *.
  pose proof (vo_inode c (fs_vol c Hc) id i Hid Hi) as (_ & _ & _ & Hs).
  case_if; [exists (cx_dir_scratch c); rewrite Hsame; done|]. change SXFS_DIR_ENTRY_SIZE with 80 in *.
  destruct (read_dir_spec c id i) as (l & -> & Hl & Hsc); [done..|lia|lia|].
  exists l. rewrite Z.eqb_refl. cbn [negb]. destruct (validate_loop _ _ _ _) as [visited'|] eqn:Ev; [|done].
  split; [done|]. split; [done|]. cbn. pose proof (entries_len c id i Hi ltac:(lia)) as Hlen2.
  assert (En : Z.to_nat (in_size i / 80) = length (entries c id)) by (unfold zlen in Hlen2; lia). rewrite En in Ev.
  apply (validate_loop_spec (with_scratch c l) (entries c id) [] visited visited') in Ev as (V1 & V2 & V3 & V4 & V5);
    [|intros j Hj; cbn [app] in *; apply Hsc; lia|eapply Forall_impl; [by apply entries_shape|by intros e (? & _)]|done].
  unfold dir_valid. split_and!; try (done || lia). exists i. split_and!; [done|lia|lia|done|lia].
Qed.

(** The same tree has the same valid directories. *)
Lemma dir_valid_same c c' id : same_tree c c' -> dir_valid c id -> dir_valid c' id.
Proof.
  intros Ht (V1 & V2 & V3 & i & V4 & V5 & V8 & V6 & V7). unfold dir_valid. rewrite (entries_same c c' id Ht).
  split_and!; try done.
  - eapply Forall_impl; [exact V1|]. intros e He Hne. destruct (He Hne) as (E1 & E2 & ch & E3 & E4).
    destruct (same_tree_inode c c' _ ch Ht E3) as (ch' & Hc' & Hs'). apply shape_inv in Hs' as (_ & S2 & _).
    split; [done|]. split; [by destruct Ht as (_ & -> & _)|]. exists ch'. split; [done|congruence].
  - destruct (same_tree_inode c c' id i Ht V4) as (i' & Hi' & Hs'). apply shape_inv in Hs' as (_ & S2 & S3 & _).
    exists i'. split_and!; congruence.
Qed.
End tree.
