(* ===== verification/SxfsWalkFacts.v ===== *)
(** * Walking an SxFS volume: the rule

    The invariant of the loop of [sxfs_walk] over the marks, the stack and the
    path buffer, the budget that bounds its turns, and the rule a client uses:
    what every call back keeps holds of visits that are exactly the allocated
    inodes.  Paths that lead to an inode resolve to it. *)

From S2P Require Import Prelude Bytes SxfsFormat SxfsFormatFacts SxfsCore SxfsDevice SxfsAlloc SxfsOps SxfsWalk SxfsTree.
Open Scope st_scope.

Definition join (p name : list Z) : list Z := if zlen p =? 0 then name else p ++ SLASH :: name.

(** ** The path buffer *)

Lemma set_at_split {A} (l : list A) i x : 0 <= i < zlen l ->
  set_at l i x = take (Z.to_nat i) l ++ x :: drop (S (Z.to_nat i)) l.
Proof.
  intros Hi. unfold set_at, zlen in *. case_if; [lia|]. apply insert_take_drop. lia.
Qed.

Lemma take_set_at {A} (l : list A) i x n : Z.of_nat n <= i -> take n (set_at l i x) = take n l.
Proof. intros Hi. unfold set_at. case_if; [done|]. apply take_insert_ge. lia. Qed.

(** A name and a terminator copied into a buffer. *)
Lemma put_name path cl name :
  0 <= cl -> cl + zlen name < zlen path ->
  exists rest, set_at (put_at path cl name) (cl + zlen name) 0 = take (Z.to_nat cl) path ++ name ++ 0 :: rest /\
    zlen (take (Z.to_nat cl) path ++ name ++ 0 :: rest) = zlen path.
Proof.
  intros Hcl Hr. assert (Hput : zlen (put_at path cl name) = zlen path)
    by (unfold put_at, zlen in *; rewrite !length_app, length_take, length_drop; lia).
  exists (drop (S (Z.to_nat (cl + zlen name))) (put_at path cl name)).
  assert (E : set_at (put_at path cl name) (cl + zlen name) 0 =
    take (Z.to_nat cl) path ++ name ++ 0 :: drop (S (Z.to_nat (cl + zlen name))) (put_at path cl name)).
  { rewrite set_at_split by (unfold zlen in *; lia). rewrite app_assoc. f_equal. unfold put_at. rewrite app_assoc.
    apply take_app_length'. unfold zlen in *. rewrite length_app, length_take. lia. }
  split; [done|]. by rewrite <- E, zlen_set_at.
Qed.

Lemma extend_path_spec path pl e :
  0 <= pl -> zlen (entry_name e) = de_name_length e ->
  pl + (if negb (pl =? 0) then 1 else 0) + de_name_length e + 1 <= zlen path ->
  let p := join (take (Z.to_nat pl) path) (entry_name e) in
  exists rest, extend_path path pl e = (p ++ 0 :: rest, zlen p) /\ zlen (p ++ 0 :: rest) = zlen path /\
    take (Z.to_nat pl) p = take (Z.to_nat pl) path /\ pl <= zlen p.
Proof.
  intros Hpl Hname Hroom p. unfold extend_path. fold (entry_name e). pose proof (zlen_nonneg (entry_name e)) as Hn.
  assert (Hp : length (take (Z.to_nat pl) path) = Z.to_nat pl)
    by (unfold zlen in *; rewrite length_take; destruct (negb (pl =? 0)); lia).
  assert (Hp' : zlen (take (Z.to_nat pl) path) = pl) by (unfold zlen; lia). subst p. unfold join. rewrite Hp'.
  rewrite <- Hname in *. destruct (pl =? 0) eqn:E; cbn [negb] in *.
  - destruct (put_name path pl (entry_name e)) as (rest & -> & Hl); [lia..|]. replace (Z.to_nat pl) with 0%nat in * by lia.
    exists rest. cbn [take app] in *. split_and!; [|done|done|lia]. f_equal. lia.
  - destruct (put_name (set_at path pl SLASH) (pl + 1) (entry_name e)) as (rest & -> & Hl); [lia|rewrite zlen_set_at; lia|].
    exists rest. rewrite zlen_set_at in Hl.
    assert (Et : take (Z.to_nat (pl + 1)) (set_at path pl SLASH) = take (Z.to_nat pl) path ++ [SLASH]).
    { rewrite set_at_split by lia. replace (Z.to_nat (pl + 1)) with (Z.to_nat pl + 1)%nat by lia.
      rewrite firstn_app, Hp, take_take. replace (Z.to_nat pl + 1 - Z.to_nat pl)%nat with 1%nat by lia.
      f_equal. f_equal. lia. }
    rewrite Et in *. rewrite <- !app_assoc in *. cbn [app] in *. rewrite <- ?app_assoc. cbn [app]. split_and!.
    + f_equal. rewrite zlen_app, Hp'. unfold zlen. cbn [length]. lia.
    + done.
    + by rewrite take_app_length'.
    + rewrite zlen_app. unfold zlen in *. cbn [length]. lia.
Qed.

Section laws.
Context {D : Type} `{ReliableDevice D}.
Local Abbreviation ctx := (sxfs_ctx D).
Local Abbreviation M := (st (sxfs_ctx D) sxfs_err).

(** ** Paths that name an inode *)

(** From the root through live entries of valid directories. *)
Inductive names (c : ctx) : list Z -> Z -> Prop :=
| names_root : names c [] SXFS_ROOT_INODE
| names_child p d e : names c p d -> dir_valid c d -> In e (entries c d) -> de_inode_id e <> 0 ->
    names c (join p (entry_name e)) (de_inode_id e).

Lemma refused_name e : entry_shape e -> entry_refused e = false ->
  zlen (entry_name e) = de_name_length e /\ 1 <= de_name_length e <= 63 /\
  ~ In 0 (entry_name e) /\ ~ In SLASH (entry_name e).
Proof.
  intros (_ & Hn & Hl). unfold entry_refused, entry_name, has_byte. intros Hr.
  change (SXFS_INODE_NAME_CAPACITY - 1) with 63 in Hr. repeat (apply orb_false_iff in Hr as [Hr ?]).
  assert (HB : forall b l, existsb (Z.eqb b) l = false -> ~ In b l).
  { intros b l Hf Hin. assert (existsb (Z.eqb b) l = true); [|congruence]. apply existsb_exists. exists b. by rewrite Z.eqb_refl. }
  split; [unfold zlen; rewrite length_take; lia|]. split; [lia|]. split; by apply HB.
Qed.

Lemma join_no_zero p name : ~ In 0 p -> ~ In 0 name -> ~ In 0 (join p name).
Proof.
  intros Hp Hn. unfold join. case_if; [done|]. intros Hin. apply in_app_or in Hin as [Hi|[Hs|Hi]]; [by apply Hp|discriminate Hs|by apply Hn].
Qed.

Lemma names_in_range c p id : fs_ok c -> names c p id -> inode_id_ok id /\ ~ In 0 p.
Proof.
  intros Hc. induction 1 as [|p d e Hn [IH1 IH2] Hd He Hne]; [split; [done|by intros []]|].
  destruct Hd as (V1 & _). rewrite List.Forall_forall in V1. destruct (V1 e He Hne) as (Hr & _ & i & Hi & _).
  pose proof (entries_shape c d Hc IH1) as Hs. rewrite List.Forall_forall in Hs. specialize (Hs e He).
  destruct (refused_name e Hs Hr) as (_ & _ & Hz & _). split; [|by apply join_no_zero].
  destruct Hs as (Hs & _). unfold inode_at in Hi. unfold inode_id_ok. case_if_in Hi; [done|lia].
Qed.

(** ** What has been met *)

Local Abbreviation visits := (list (list Z * Z * Z)).
Definition visited_ids (tr : visits) : list Z := map (fun v => v.1.2) tr.

(** The inodes a frame has marked and not yet called back for. *)
Definition pending (c : ctx) (f : walk_frame) : list Z :=
  if wf_next f =? 0 then [] else live_ids (drop (Z.to_nat (wf_next f)) (entries c (wf_dir_id f))).

(** The marks are the root, what was called back for and what is pending,
    each once, and all of it is allocated. *)
Record accounted (c : ctx) (tr : visits) (todo : list Z) (visited : list bool) : Prop := {
  ac_len : zlen visited = SXFS_MAX_INODES;
  ac_nodup : List.NoDup (SXFS_ROOT_INODE :: visited_ids tr ++ todo);
  ac_range : Forall inode_id_ok (SXFS_ROOT_INODE :: visited_ids tr ++ todo);
  ac_alloc : Forall (fun id => sxfs_bitmap_test (cx_inode_bitmap c) (id - 1) = true) (SXFS_ROOT_INODE :: visited_ids tr ++ todo);
  ac_marks : forall id, inode_id_ok id ->
    at_ false visited (id - 1) = existsb (Z.eqb id) (SXFS_ROOT_INODE :: visited_ids tr ++ todo) }.

Lemma inode_ids_bound l : List.NoDup l -> Forall inode_id_ok l -> (length l <= 4096)%nat.
Proof.
  intros Hn Hf. replace 4096%nat with (length (map (fun k => 1 + Z.of_nat k) (seq 0 4096))) by (rewrite length_map; apply length_seq).
  apply NoDup_incl_length; [done|]. intros x Hx. rewrite List.Forall_forall in Hf. specialize (Hf x Hx).
  unfold inode_id_ok in Hf. change SXFS_MAX_INODES with 4096 in Hf. apply in_map_iff. exists (Z.to_nat (x - 1)). split; [lia|].
  apply in_seq. lia.
Qed.

Lemma accounted_bound c tr todo visited : accounted c tr todo visited -> (length tr <= 4095)%nat.
Proof.
  intros [A1 A2 A3 A4 A5]. pose proof (inode_ids_bound _ A2 A3) as Hb. cbn [length] in Hb. rewrite length_app in Hb.
  unfold visited_ids in Hb. rewrite length_map in Hb. lia.
Qed.

(** A call back moves an inode from what is pending to what was visited. *)
Lemma accounted_visit c tr p id ty todo visited :
  accounted c tr (id :: todo) visited -> accounted c (tr ++ [(p, id, ty)]) todo visited.
Proof.
  intros [A1 A2 A3 A4 A5]. assert (E : visited_ids (tr ++ [(p, id, ty)]) ++ todo = visited_ids tr ++ id :: todo).
  { unfold visited_ids. rewrite map_app, <- app_assoc. done. }
  split; rewrite ?E; try done.
Qed.

(** Marking the entries of a directory. *)
Lemma accounted_mark c tr todo visited visited' es :
  accounted c tr todo visited -> Forall (entry_valid c) es -> List.NoDup (live_ids es) ->
  Forall (fun id => inode_id_ok id /\ at_ false visited (id - 1) = false) (live_ids es) ->
  marked visited visited' (live_ids es) -> accounted c tr (live_ids es ++ todo) visited'.
Proof.
  intros [A1 A2 A3 A4 A5] He Hn Hf [M1 M2]. 
  assert (Hp : Permutation (live_ids es ++ SXFS_ROOT_INODE :: visited_ids tr ++ todo) (SXFS_ROOT_INODE :: visited_ids tr ++ live_ids es ++ todo)).
  { rewrite <- Permutation_middle. apply perm_skip. rewrite !app_assoc. apply Permutation_app_tail, Permutation_app_comm. }
  assert (Hin : forall id, In id (live_ids es) -> exists e, In e es /\ de_inode_id e = id /\ de_inode_id e <> 0).
  { intros id Hi. apply in_flat_map in Hi as (e & Hie & Hx). case_if_in Hx; [done|]. destruct Hx as [<-|[]]. exists e. split_and!; [done..|lia]. }
  split.
  - by rewrite M1.
  - eapply Permutation_NoDup; [exact Hp|]. apply NoDup_ListNoDup, NoDup_app. split_and!; [by apply NoDup_ListNoDup|..|by apply NoDup_ListNoDup].
    intros x Hx Hx2. rewrite !list_elem_of_In in *. rewrite List.Forall_forall in Hf. destruct (Hf x Hx) as [Hok Hun].
    rewrite A5 in Hun by done. assert (existsb (Z.eqb x) (SXFS_ROOT_INODE :: visited_ids tr ++ todo) = true); [|congruence].
    apply existsb_exists. exists x. by rewrite Z.eqb_refl.
  - rewrite <- Hp. apply Forall_app. split; [|done]. eapply Forall_impl; [exact Hf|]. by intros ? [].
  - rewrite <- Hp. apply Forall_app. split; [|done]. apply List.Forall_forall. intros id Hi. destruct (Hin id Hi) as (e & He1 & <- & He2).
    rewrite List.Forall_forall in He. by destruct (He e He1 He2) as (_ & ? & _).
  - intros id Hi. rewrite M2, A5 by done. apply eq_iff_eq_true. rewrite orb_true_iff, !existsb_exists.
    assert (HP : forall x, In x (live_ids es) \/ In x (SXFS_ROOT_INODE :: visited_ids tr ++ todo) <-> In x (SXFS_ROOT_INODE :: visited_ids tr ++ live_ids es ++ todo)).
    { intros x. rewrite <- in_app_iff. split; apply Permutation_in; [done|by symmetry]. }
    split.
    + intros [(x & Hx & E)|(x & Hx & E)]; exists x; (split; [apply HP; auto|done]).
    + intros (x & Hx & E). apply HP in Hx as [Hx|Hx]; [right|left]; eauto.
Qed.

(** ** The loop *)

Section rule.
Context {K : Type} (visit : list Z -> Z -> Z -> K -> st (sxfs_ctx D) sxfs_err K) (c0 : ctx).
(** A property of the visits made, the cookie and the context, that the scratch
    buffer does not matter to and every call back keeps; a call back may change
    the context, but not the tree. *)
Context (I : visits -> K -> ctx -> Prop).
Definition typed (id ty : Z) : Prop := exists i, inode_at c0 id = Some i /\ in_type i = ty.
Hypothesis I_scratch : forall tr k c l, I tr k c -> I tr k (with_scratch c l).
Hypothesis I_visit : forall tr k c p id ty,
  I tr k c -> fs_ok c -> same_tree c0 c -> names c0 p id -> typed id ty ->
  match visit p id ty k c with
  | (c', Ok k') => I (tr ++ [(p, id, ty)]) k' c' /\ fs_ok c' /\ same_tree c c'
  | (c', Fail _) => fs_ok c'
  end.
Hypothesis fs0 : fs_ok c0.

(** A frame of the stack: its path is in the buffer, and once its directory was
    read its cursor is inside it. *)
Definition frame_named (path : list Z) (f : walk_frame) : Prop :=
  0 <= wf_path_len f < 256 /\ names c0 (take (Z.to_nat (wf_path_len f)) path) (wf_dir_id f).
Definition cursor_ok (f : walk_frame) : Prop :=
  dir_valid c0 (wf_dir_id f) /\ wf_count f = zlen (entries c0 (wf_dir_id f)) /\ 0 <= wf_next f <= wf_count f.
Fixpoint frames_ok (path : list Z) (fs : list walk_frame) : Prop :=
  match fs with
  | [] => True
  | f :: below =>
      frame_named path f /\ (wf_next f = 0 \/ 1 <= wf_next f /\ cursor_ok f) /\
      Forall (fun g => wf_path_len g <= wf_path_len f) below /\ frames_ok path below
  end.

(** The turns a frame still takes, entries of its own only. *)
#[local] Opaque Nat.mul.
Definition turns (f : walk_frame) : nat :=
  if wf_next f =? 0 then 4097%nat else S (Z.to_nat (wf_count f - wf_next f)).
Definition budget (tr : visits) (fs : list walk_frame) : nat :=
  (4098 * (4095 - length tr) + list_sum (map turns fs))%nat.

Lemma sum_turns f fs : list_sum (map turns (f :: fs)) = (turns f + list_sum (map turns fs))%nat.
Proof. done. Qed.

(** What does not change between turns. *)
Definition settled (tr : visits) (path : list Z) (k : K) (c : ctx) : Prop :=
  fs_ok c /\ same_tree c0 c /\ I tr k c /\ zlen path = 256 /\ Forall (fun v => names c0 v.1.1 v.1.2 /\ typed v.1.2 v.2) tr.

Definition inv (n : nat) (w : walk) (c : ctx) : Prop :=
  exists tr, settled tr (wk_path w) (wk_cookie w) c /\ frames_ok (wk_path w) (wk_frames w) /\
    accounted c0 tr (flat_map (pending c0) (wk_frames w)) (wk_visited w) /\ n = budget tr (wk_frames w).

(** The result of the loop. *)
Definition post (r : list bool * K) (c : ctx) : Prop :=
  exists tr, fs_ok c /\ same_tree c0 c /\ I tr r.2 c /\ accounted c0 tr [] r.1 /\
    Forall (fun v => names c0 v.1.1 v.1.2 /\ typed v.1.2 v.2) tr.

Lemma frames_ok_path path path' fs :
  Forall (fun f => take (Z.to_nat (wf_path_len f)) path' = take (Z.to_nat (wf_path_len f)) path) fs ->
  frames_ok path fs -> frames_ok path' fs.
Proof.
  induction 1 as [|f fs Hf Hfs IH]; [done|]. cbn [frames_ok]. intros ((N1 & N2) & H2 & H3 & H4).
  split; [|by auto]. split; [done|]. by rewrite Hf.
Qed.

Lemma frames_ok_lens path f fs : frames_ok path (f :: fs) -> Forall (fun g => 0 <= wf_path_len g <= wf_path_len f) (f :: fs).
Proof.
  intros (((N1 & N1') & _) & _ & H3 & H4). constructor; [lia|]. clear N1'.
  assert (Hp : Forall (fun g => 0 <= wf_path_len g) fs).
  { clear H3. induction fs as [|g fs IH]; [constructor|]. destruct H4 as (((? & _) & _) & _ & _ & ?). constructor; [done|]. by apply IH. }
  apply List.Forall_forall. intros g Hg. rewrite List.Forall_forall in H3, Hp. split; [by apply Hp|by apply H3].
Qed.

(** Leaving a directory. *)
Lemma frames_ok_pop path fs :
  frames_ok path fs ->
  frames_ok (match fs with [] => path | parent :: _ => set_at path (wf_path_len parent) 0 end) fs.
Proof.
  destruct fs as [|f fs]; [done|]. intros Hf. pose proof (frames_ok_lens path f fs Hf) as Hl.
  eapply frames_ok_path; [|done]. eapply Forall_impl; [exact Hl|]. intros g [Hg1 Hg2]. apply take_set_at. lia.
Qed.

Lemma live_ids_drop es j e : 0 <= j < zlen es -> at_ entry0 es j = e ->
  live_ids (drop (Z.to_nat j) es) =
  (if de_inode_id e =? 0 then [] else [de_inode_id e]) ++ live_ids (drop (Z.to_nat (j + 1)) es) /\ In e es.
Proof.
  intros Hj He. unfold at_, zlen in *. destruct (j <? 0) eqn:?; [lia|].
  replace (Z.to_nat (j + 1)) with (S (Z.to_nat j)) by lia. split.
  - rewrite (drop_S_cons entry0 es (Z.to_nat j)), He by lia. done.
  - rewrite <- He. apply nth_In. lia.
Qed.

(** What a callback leaves, for the frames the turn has chosen. *)
Lemma call_ok tr path path' k c frame below frames visited e p :
  settled tr path k c -> frames_ok path' frames -> zlen path' = 256 ->
  flat_map (pending c0) frames = pending c0 frame ++ flat_map (pending c0) below ->
  (list_sum (map turns frames) <= 4097 + turns frame + list_sum (map turns below))%nat ->
  names c0 p (de_inode_id e) -> typed (de_inode_id e) (de_type e) ->
  accounted c0 tr (de_inode_id e :: pending c0 frame ++ flat_map (pending c0) below) visited ->
  match (let! cookie := visit p (de_inode_id e) (de_type e) k in
         st_ret (@inl walk (list bool * K) (mk_walk frames visited path' cookie))) c with
  | (c', Ok (inl w)) =>
      exists n, (n < 4098 * (4095 - length tr) + S (turns frame) + list_sum (map turns below))%nat /\ inv n w c'
  | (_, Ok (inr _)) => False
  | (c', Fail _) => fs_ok c'
  end.
Proof.
  intros (S1 & S2 & S3 & S4 & S5) Hfr Hlen Hpend Hturns Hnm Hty Hacc. unfold st_bind.
  pose proof (I_visit tr k c p (de_inode_id e) (de_type e) S3 S1 S2 Hnm Hty) as Hv.
  destruct (visit _ _ _ _ c) as [c' [k'|err]]; [|exact Hv]. destruct Hv as (W1 & W2 & W3). cbv beta iota delta [st_ret].
  pose proof (accounted_visit c0 tr p (de_inode_id e) (de_type e) _ visited Hacc) as Hacc'.
  pose proof (accounted_bound _ _ _ _ Hacc') as Hb. rewrite length_app in Hb. cbn [length] in Hb.
  exists (budget (tr ++ [(p, de_inode_id e, de_type e)]) frames). split.
  - unfold budget. rewrite length_app. cbn [length]. lia.
  - exists (tr ++ [(p, de_inode_id e, de_type e)]). cbn [wk_path wk_frames wk_cookie wk_visited]. rewrite Hpend. split_and!; try done.
    split_and!; try done; [by etrans|]. apply Forall_app. split; [done|]. by constructor.
Qed.

(** A turn that calls back. *)
Lemma visit_ok tr path k c frame below visited e :
  settled tr path k c -> frame_named path frame -> 1 <= wf_next frame -> cursor_ok frame ->
  Forall (fun g => wf_path_len g <= wf_path_len frame) below -> frames_ok path below ->
  In e (entries c0 (wf_dir_id frame)) -> de_inode_id e <> 0 ->
  wf_path_len frame + (if negb (wf_path_len frame =? 0) then 1 else 0) + de_name_length e + 1 <= 256 ->
  accounted c0 tr (de_inode_id e :: pending c0 frame ++ flat_map (pending c0) below) visited ->
  match (let '(path, child_len) := extend_path path (wf_path_len frame) e in
         let! frames :=
           (if de_type e =? SXFS_INODE_DIRECTORY
            then if zlen (frame :: below) >=? kMaxDepth then st_fail SXFS_ERR_INVALID
                 else st_ret (mk_frame (de_inode_id e) 0 0 child_len :: frame :: below)
            else st_ret (frame :: below)) in
         let! cookie := visit (c_string path) (de_inode_id e) (de_type e) k in
         st_ret (@inl walk (list bool * K) (mk_walk frames visited path cookie))) c with
  | (c', Ok (inl w)) =>
      exists n, (n < 4098 * (4095 - length tr) + S (turns frame) + list_sum (map turns below))%nat /\ inv n w c'
  | (_, Ok (inr _)) => False
  | (c', Fail _) => fs_ok c'
  end.
Proof.
  intros HS [Hpl Hnm] Hn1 Hcur Hlens Hbelow Hin Hne Hroom Hacc. pose proof HS as (S1 & S2 & S3 & S4 & S5).
  destruct (names_in_range c0 _ _ fs0 Hnm) as [Hid Hnz]. destruct Hcur as [Hd Hc2].
  pose proof (entries_shape c0 _ fs0 Hid) as Hsh. rewrite List.Forall_forall in Hsh. specialize (Hsh e Hin).
  pose proof Hd as (V1 & _). rewrite List.Forall_forall in V1. destruct (V1 e Hin Hne) as (Hr & _ & Hty).
  destruct (refused_name e Hsh Hr) as (N1 & N2 & N3 & N4).
  destruct (extend_path_spec path (wf_path_len frame) e) as (rest & -> & Hlen & Htk & Hle); [lia|done|lia|].
  set (p := join _ _) in *. assert (Hnp : names c0 p (de_inode_id e)) by (by apply (names_child c0 _ (wf_dir_id frame))).
  assert (Hz : Forall (fun x => x <> 0) p).
  { apply List.Forall_forall. intros x Hx ->. by destruct (join_no_zero _ _ Hnz N3). }
  rewrite (c_string_app p rest Hz).
  assert (Hpre : forall g : walk_frame, 0 <= wf_path_len g <= wf_path_len frame ->
    take (Z.to_nat (wf_path_len g)) (p ++ 0 :: rest) = take (Z.to_nat (wf_path_len g)) path).
  { intros g Hg. rewrite take_app_le by (unfold zlen in Hle; lia).
    replace (Z.to_nat (wf_path_len g)) with (Nat.min (Z.to_nat (wf_path_len g)) (Z.to_nat (wf_path_len frame))) by lia.
    by rewrite <- !take_take, Htk. }
  assert (Hfr : frames_ok (p ++ 0 :: rest) (frame :: below)).
  { assert (Hf0 : frames_ok path (frame :: below)) by (cbn [frames_ok]; split_and!; try done; by right).
    eapply frames_ok_path; [|exact Hf0]. eapply Forall_impl; [exact (frames_ok_lens _ _ _ Hf0)|]. exact Hpre. }
  unfold st_bind at 1. destruct (de_type e =? SXFS_INODE_DIRECTORY).
  2: { apply (call_ok tr path _ k c frame below); try done; [by rewrite Hlen|]. rewrite sum_turns. lia. }
  destruct (zlen (frame :: below) >=? kMaxDepth); [done|].
  apply (call_ok tr path _ k c frame below); try done;
    try (rewrite Hlen; done); try (rewrite !sum_turns; unfold turns at 1; cbn [wf_next Z.eqb]; lia).
  pose proof (frames_ok_lens _ _ _ Hfr) as Hl2. split; [|split; [by left|]; split; [|exact Hfr]].
  - assert (zlen p + 1 <= zlen (p ++ 0 :: rest)) by (rewrite zlen_app; unfold zlen; cbn [length]; lia).
    split; cbn [wf_path_len wf_dir_id]; [pose proof (zlen_nonneg p); lia|]. rewrite take_app_length' by (unfold zlen; lia). done.
  - cbn [wf_path_len]. eapply Forall_impl; [exact Hl2|]. intros g [? ?]. lia.
Qed.

(** A turn from a directory that was read. *)
Lemma turn_ok tr frame below visited path k c :
  settled tr path k c -> frame_named path frame -> cursor_ok frame ->
  Forall (fun g => wf_path_len g <= wf_path_len frame) below -> frames_ok path below ->
  accounted c0 tr (live_ids (drop (Z.to_nat (wf_next frame)) (entries c0 (wf_dir_id frame))) ++ flat_map (pending c0) below) visited ->
  match walk_turn visit frame below visited path k c with
  | (c', Ok (inl w)) =>
      exists n, (n < 4098 * (4095 - length tr) + S (Z.to_nat (wf_count frame - wf_next frame)) + list_sum (map turns below))%nat /\ inv n w c'
  | (_, Ok (inr _)) => False
  | (c', Fail _) => fs_ok c'
  end.
Proof.
  intros (S1 & S2 & S3 & S4 & S5) [Hpl Hnm] (Hd & Hcnt & Hnext) Hlens Hbelow Hacc. unfold walk_turn.
  destruct (wf_next frame >=? wf_count frame) eqn:Edone.
  { exists (budget tr below). split; [unfold budget; lia|]. exists tr. cbn [wk_path wk_frames wk_cookie wk_visited]. split_and!; [..|done].
    - split_and!; try done. destruct below; [done|]. by rewrite zlen_set_at.
    - by apply frames_ok_pop.
    - rewrite drop_ge in Hacc by (unfold zlen in Hcnt; lia). done. }
  destruct (names_in_range c0 _ _ fs0 Hnm) as [Hid Hnz]. pose proof Hd as (V1 & V2 & V3 & di & V4 & V5 & V8 & V6 & V7).
  destruct (same_tree_inode c0 c _ di S2 V4) as (di' & Hdi' & Hsh). apply shape_inv in Hsh as (_ & T2 & T3 & _).
  unfold st_bind at 1. rewrite (read_entry_spec c (wf_dir_id frame) di') by (done || congruence || (rewrite T3; lia)). rewrite (entries_same c0 c _ S2).
  set (e := at_ entry0 (entries c0 (wf_dir_id frame)) (wf_next frame)).
  assert (Hj : 0 <= wf_next frame < zlen (entries c0 (wf_dir_id frame))) by lia.
  destruct (live_ids_drop _ _ e Hj eq_refl) as [Elive Hin]. rewrite Elive in Hacc.
  set (frame' := mk_frame (wf_dir_id frame) (wf_next frame + 1) (wf_count frame) (wf_path_len frame)).
  assert (Hpend : pending c0 frame' = live_ids (drop (Z.to_nat (wf_next frame + 1)) (entries c0 (wf_dir_id frame)))).
  { unfold pending. cbn [wf_next wf_dir_id frame']. destruct (wf_next frame + 1 =? 0) eqn:?; [lia|done]. }
  assert (Hturn : turns frame' = Z.to_nat (wf_count frame - wf_next frame)).
  { unfold turns. cbn [wf_next wf_count frame']. destruct (wf_next frame + 1 =? 0) eqn:?; lia. }
  assert (Hcur : 1 <= wf_next frame' /\ cursor_ok frame').
  { split; [cbn; lia|]. split; [exact Hd|]. cbn. lia. }
  destruct (de_inode_id e =? 0) eqn:Eid.
  { exists (budget tr (frame' :: below)). split; [unfold budget; rewrite sum_turns, Hturn; lia|].
    exists tr. cbn [wk_path wk_frames wk_cookie wk_visited]. split_and!; [done| |cbn [flat_map]; by rewrite Hpend|done].
    cbn [frames_ok]. split_and!; try done. by right. }
  change SXFS_WALK_PATH_CAPACITY with 256. cbn [app] in Hacc. rewrite <- Hpend in Hacc. rewrite <- Hturn.
  cbn [wf_path_len frame']. destruct (_ >? 256) eqn:?; [exact S1|]. destruct Hcur as [Hc1 Hc2].
  apply (visit_ok tr path k c frame'); try (done || lia). cbn [wf_path_len frame']. lia.
Qed.

Lemma step_ok n w c : inv n w c ->
  match walk_step visit w c with
  | (c', Ok (inl w')) => exists n', (n' < n)%nat /\ inv n' w' c'
  | (c', Ok (inr r)) => post r c'
  | (c', Fail _) => fs_ok c'
  end.
Proof.
  intros (tr & HS & Hfr & Hacc & ->). pose proof HS as (S1 & S2 & S3 & S4 & S5). unfold walk_step.
  destruct (wk_frames w) as [|f below] eqn:Ef; [by exists tr|].
  destruct Hfr as (Hnm & Hcur & Hlens & Hbelow). pose proof Hnm as [_ Hnm']. destruct (names_in_range c0 _ _ fs0 Hnm') as [Hid _].
  cbn [flat_map] in Hacc. unfold budget. rewrite sum_turns. unfold pending at 1 in Hacc. unfold turns at 1.
  destruct (wf_next f =? 0) eqn:En.
  - unfold st_bind. destruct (validate_spec c (wf_dir_id f) (wk_visited w) S1 Hid (ac_len _ _ _ _ Hacc)) as (l & Ec & Hl & Hr).
    destruct (validate_directory _ _ c) as [c1 [[visited count]|err]]; cbn [fst snd] in Ec, Hr; subst c1; [|exact Hl].
    destruct Hr as (Hd & -> & Hun & Hmk). rewrite (entries_same c0 c _ S2) in *.
    apply (dir_valid_same c c0) in Hd; [|by apply same_tree_sym]. pose proof Hd as (V1 & V2 & V3 & di & _ & _ & _ & V6 & V7).
    opose proof* (turn_ok tr (mk_frame (wf_dir_id f) (wf_next f) (zlen (entries c0 (wf_dir_id f))) (wf_path_len f)) below visited
      (wk_path w) (wk_cookie w) (with_scratch c l)) as HT; cbn [wf_count wf_next wf_dir_id wf_path_len] in *; [..|].
    + split_and!; try done. by apply I_scratch.
    + exact Hnm.
    + pose proof (zlen_nonneg (entries c0 (wf_dir_id f))). split; [done|]. split; [done|]. cbn [wf_next wf_count]. lia.
    + exact Hlens.
    + exact Hbelow.
    + replace (Z.to_nat (wf_next f)) with 0%nat by lia. rewrite drop_0. by eapply accounted_mark.
    + destruct (walk_turn _ _ _ _ _ _ _) as [c' [[w'|r]|err]]; [|destruct HT|exact HT].
      destruct HT as (n' & Hn' & Hi). exists n'. split; [|exact Hi]. change SXFS_MAX_RECORDS with 4095 in V7. lia.
  - destruct Hcur as [Hcur|[Hc1 Hc2]]; [lia|].
    pose proof (turn_ok tr f below (wk_visited w) (wk_path w) (wk_cookie w) c HS Hnm Hc2 Hlens Hbelow Hacc) as HT.
    destruct (walk_turn _ _ _ _ _ _ _) as [c' [[w'|r]|err]]; [|destruct HT|exact HT].
    destruct HT as (n' & Hn' & Hi). exists n'. split; [lia|exact Hi].
Qed.

Lemma root_accounted :
  sxfs_bitmap_test (cx_inode_bitmap c0) (SXFS_ROOT_INODE - 1) = true ->
  accounted c0 [] [] (set_at blank_marks (SXFS_ROOT_INODE - 1) true).
Proof.
  intros Hb. assert (Hl : zlen blank_marks = SXFS_MAX_INODES) by (unfold zlen, blank_marks; rewrite length_replicate; done).
  split.
  - by rewrite zlen_set_at.
  - constructor; [by intros []|constructor].
  - by constructor.
  - by constructor.
  - intros id Hid. rewrite at_set_at by (rewrite Hl; done). unfold blank_marks. rewrite at_replicate. cbn [visited_ids map app existsb].
    rewrite orb_false_r. destruct (SXFS_ROOT_INODE - 1 =? id - 1) eqn:?, (id =? SXFS_ROOT_INODE) eqn:?; done || lia.
Qed.

Lemma orphan_false c tr visited :
  accounted c tr [] visited -> orphan c visited = false ->
  List.NoDup (visited_ids tr) /\
  forall id, In id (visited_ids tr) <->
    inode_id_ok id /\ id <> SXFS_ROOT_INODE /\ sxfs_bitmap_test (cx_inode_bitmap c) (id - 1) = true.
Proof.
  intros [A1 A2 A3 A4 A5] Ho. rewrite app_nil_r in *. inversion A2 as [|? ? Hr Hn]; subst. split; [done|]. intros id. split.
  - intros Hin. inversion A3; inversion A4; subst. rewrite List.Forall_forall in *. split; [auto|]. split; [|auto]. by intros ->.
  - intros (Hid & Hne & Hb). assert (Hm : at_ false visited (id - 1) = true).
    { unfold orphan in Ho. rewrite <- not_true_iff_false, existsb_exists in Ho. destruct (at_ false visited (id - 1)) eqn:E; [done|].
      destruct Ho. unfold inode_id_ok in Hid. change SXFS_MAX_INODES with 4096 in Hid. change SXFS_ROOT_INODE with 1 in Hne. exists (Z.to_nat (id - 2)).
      split; [apply in_seq; change (Z.to_nat (SXFS_MAX_INODES - SXFS_ROOT_INODE)) with 4095%nat; lia|].
      cbv zeta. replace (SXFS_ROOT_INODE + 1 + Z.of_nat (Z.to_nat (id - 2))) with id by (change SXFS_ROOT_INODE with 1; lia). by rewrite Hb, E. }
    rewrite A5 in Hm by done. apply existsb_exists in Hm as (x & [<-|Hx] & E); [lia|]. by replace id with x by lia.
Qed.

(** The rule of a walk: it does not run out of fuel, and if it succeeds the
    property holds of some visits that are exactly the allocated inodes. *)
Lemma walk_rule k : I [] k c0 ->
  match sxfs_walk visit k c0 with
  | (c', Ok (Some k')) =>
      exists tr, fs_ok c' /\ same_tree c0 c' /\ I tr k' c' /\ List.NoDup (visited_ids tr) /\
        (forall id, In id (visited_ids tr) <->
          inode_id_ok id /\ id <> SXFS_ROOT_INODE /\ sxfs_bitmap_test (cx_inode_bitmap c0) (id - 1) = true) /\
        Forall (fun v => names c0 v.1.1 v.1.2 /\ typed v.1.2 v.2) tr
  | (_, Ok None) => False
  | (c', Fail _) => fs_ok c'
  end.
Proof.
  intros HI. unfold sxfs_walk, st_bind, st_get. destruct (inode_at c0 SXFS_ROOT_INODE) as [root|] eqn:Er; [|exact fs0].
  destruct (negb (in_type root =? SXFS_INODE_DIRECTORY) || _) eqn:Et; [exact fs0|].
  assert (Hb : sxfs_bitmap_test (cx_inode_bitmap c0) (SXFS_ROOT_INODE - 1) = true) by (destruct (sxfs_bitmap_test _ _); [done|]; cbn in Et; by rewrite orb_true_r in Et).
  set (w0 := mk_walk _ _ _ _). assert (Hi0 : inv (budget [] [mk_frame SXFS_ROOT_INODE 0 0 0]) w0 c0).
  { exists []. split; [split_and!; try done; constructor|]. split; [|split; [by apply root_accounted|done]].
    split; [|by split; [left|]]. split; [done|]. apply names_root. }
  pose proof (st_loop_rule inv post (fun _ => fs_ok) (walk_step visit) step_ok walk_fuel _ _ _ Hi0) as HL.
  destruct (st_loop _ _ _ _) as [c' [[w|[visited k']]|err]]; [|..|exact HL].
  { destruct HL as (n' & Hn' & _). unfold budget, turns in Hn'. cbn [length map wf_next Z.eqb list_sum foldr] in Hn'.
    assert (Hf : Z.of_nat (Pos.to_nat walk_fuel) = 16785408) by (by rewrite positive_nat_Z). lia. }
  destruct HL as (tr & P1 & P2 & P3 & P4 & P5). cbn [fst snd] in *.
  destruct (orphan c' visited) eqn:Eo; [exact P1|]. assert (Ho : orphan c0 visited = false).
  { unfold orphan in *. by destruct P2 as (_ & <- & _). }
  destruct (orphan_false c0 tr visited P4 Ho) as [Q1 Q2]. exists tr. by split_and!.
Qed.
End rule.

(** ** Paths resolve *)

Lemma find_entry_first n : forall i buf name j,
  i <= j < i + Z.of_nat n -> name_matches (scratch_entry buf j) name = true ->
  (forall m, i <= m < j -> name_matches (scratch_entry buf m) name = false) ->
  find_entry n i buf name = Some (j, scratch_entry buf j).
Proof.
  induction n as [|n IH]; intros i buf name j Hj Hm Hf; [lia|]. cbn [find_entry].
  destruct (Z.eq_dec i j) as [->|]; [by rewrite Hm|]. rewrite Hf by lia. apply IH; [lia|done|]. intros m ?. apply Hf. lia.
Qed.

Lemma distinct_at rest : forall pre i j,
  distinct_names pre rest -> 0 <= i < j -> zlen pre <= j < zlen (pre ++ rest) ->
  de_inode_id (at_ entry0 (pre ++ rest) j) <> 0 ->
  same_name (at_ entry0 (pre ++ rest) i) (at_ entry0 (pre ++ rest) j) = false.
Proof.
  induction rest as [|e rest IH]; intros pre i j Hd Hi Hj Hne; [rewrite app_nil_r in *; lia|].
  destruct Hd as [H1 H2]. destruct (Z.eq_dec j (zlen pre)) as [->|].
  - assert (E : at_ entry0 (pre ++ e :: rest) (zlen pre) = e).
    { unfold at_, zlen. case_if; [lia|]. by rewrite Nat2Z.id, app_nth2, Nat.sub_diag by lia. }
    rewrite E in *. specialize (H1 Hne). rewrite List.Forall_forall in H1. apply H1.
    unfold at_, zlen in *. case_if; [lia|]. rewrite app_nth1 by lia. apply nth_In. lia.
  - replace (pre ++ e :: rest) with ((pre ++ [e]) ++ rest) in * by (by rewrite <- app_assoc).
    apply IH; try done. rewrite zlen_snoc. lia.
Qed.

Lemma path_split_app name rest : ~ In SLASH name -> path_split (name ++ SLASH :: rest) = (name, rest).
Proof.
  induction name as [|x name IH]; intros Hn; [done|]. cbn [app path_split]. destruct (x =? SLASH) eqn:E.
  - destruct Hn. left. lia.
  - rewrite IH; [done|]. intros ?. apply Hn. by right.
Qed.
Lemma path_split_whole name : ~ In SLASH name -> path_split name = (name, []).
Proof.
  induction name as [|x name IH]; intros Hn; [done|]. cbn [path_split]. destruct (x =? SLASH) eqn:E.
  - destruct Hn. left. lia.
  - rewrite IH; [done|]. intros ?. apply Hn. by right.
Qed.

(** A valid directory resolves its own entries. *)
Lemma resolve_step c d e fuel p rest ty :
  fs_ok c -> inode_id_ok d -> dir_valid c d -> In e (entries c d) -> de_inode_id e <> 0 ->
  path_split p = (entry_name e, rest) ->
  exists l, fs_ok (with_scratch c l) /\
    resolve_loop (S fuel) p d ty c = resolve_loop fuel rest (de_inode_id e) (de_type e) (with_scratch c l).
Proof.
  intros Hc Hd (V1 & V2 & V3 & i & V4 & V5 & V8 & V6 & V7) Hin Hne Hsp.
  pose proof (entries_shape c d Hc Hd) as Hsh. rewrite List.Forall_forall in Hsh, V1.
  destruct (V1 e Hin Hne) as (Hr & _). destruct (refused_name e (Hsh e Hin) Hr) as (N1 & N2 & _ & _).
  destruct (read_dir_spec c d i Hc Hd V4 V8 V7) as (l & Erd & Hl & Hsc). exists l. split; [done|].
  cbn [resolve_loop]. destruct p as [|x p]; [injection Hsp as En _; rewrite <- En in N1; change (zlen []) with 0 in N1; lia|].
  rewrite Hsp. destruct (zlen (entry_name e) =? 0) eqn:?; [lia|]. unfold st_bind, st_get. rewrite V4, V5. change (negb (SXFS_INODE_DIRECTORY =? SXFS_INODE_DIRECTORY)) with false. cbv beta iota.
  rewrite Erd. unfold lookup_entry. cbn [cx_dir_scratch with_scratch].
  apply (In_nth _ _ entry0) in Hin as (m & Hm & Em).
  assert (Ha : at_ entry0 (entries c d) (Z.of_nat m) = e) by (unfold at_; case_if; [lia|]; by rewrite Nat2Z.id).
  assert (Hnm : forall e', name_matches e' (entry_name e) = same_name e' e).
  { intros e'. unfold name_matches, same_name. rewrite N1. do 2 f_equal. unfold zlen in N1. by replace (length (entry_name e)) with (Z.to_nat (de_name_length e)) by lia. }
  assert (Hs : scratch_entry l (Z.of_nat m) = e) by (rewrite Hsc; [done|unfold zlen in V6; lia]).
  rewrite (find_entry_first _ 0 l (entry_name e) (Z.of_nat m)); [by rewrite Hs| |..].
  - unfold zlen in V6. lia.
  - rewrite Hs, Hnm. unfold same_name. rewrite Z.eqb_refl, bool_decide_true by done. destruct (de_inode_id e =? 0) eqn:?; [lia|done].
  - intros k Hk. rewrite Hsc, Hnm by (unfold zlen in V6; lia). rewrite <- Ha.
    apply (distinct_at (entries c d) [] k (Z.of_nat m)); cbn [app]; [done|lia| |by rewrite Ha].
    unfold zlen in *. cbn [length]. lia.
Qed.

Lemma join_join p name rest : name <> [] -> join (join p name) rest = join p (name ++ SLASH :: rest).
Proof.
  intros Hn. unfold join. destruct (zlen p =? 0) eqn:Ep.
  - destruct (zlen name =? 0) eqn:E; [|done]. destruct name; [done|]. unfold zlen in E. cbn [length] in E. lia.
  - rewrite zlen_app. pose proof (zlen_nonneg p). pose proof (zlen_nonneg (SLASH :: name)). case_if; [lia|]. by rewrite <- app_assoc.
Qed.

(** Only the root has the empty path. *)
Lemma names_empty c id : fs_ok c -> names c [] id -> id = SXFS_ROOT_INODE.
Proof.
  intros Hc Hn. inversion Hn as [|p d e Hn' Hd Hin Hne E]; [done|]. destruct (names_in_range c p d Hc Hn') as [Hid _].
  pose proof (entries_shape c d Hc Hid) as Hsh. rewrite List.Forall_forall in Hsh.
  pose proof Hd as (V1 & _). rewrite List.Forall_forall in V1. destruct (V1 e Hin Hne) as (Hrf & _).
  destruct (refused_name e (Hsh e Hin) Hrf) as (N1 & N2 & _ & _). unfold join in E. destruct (zlen p =? 0).
  - rewrite E in N1. change (zlen []) with 0 in N1. lia.
  - by destruct p.
Qed.

Lemma with_scratch_twice (c : ctx) l l' : with_scratch (with_scratch c l) l' = with_scratch c l'.
Proof. done. Qed.

(** Resolution reaches the directory a path names, with the rest of the path. *)
Lemma resolve_prefix c p d : fs_ok c -> names c p d -> forall rest fuel,
  rest <> [] -> (length (join p rest) < fuel)%nat ->
  exists l fuel' ty, (length rest < fuel')%nat /\ fs_ok (with_scratch c l) /\
    resolve_loop fuel (join p rest) SXFS_ROOT_INODE SXFS_INODE_DIRECTORY c = resolve_loop fuel' rest d ty (with_scratch c l).
Proof.
  intros Hc. induction 1 as [|p d e Hn IH Hd Hin Hne]; intros rest fuel Hr Hf.
  { exists (cx_dir_scratch c), fuel, SXFS_INODE_DIRECTORY. replace (with_scratch c (cx_dir_scratch c)) with c by (by destruct c). done. }
  destruct (names_in_range c p d Hc Hn) as [Hid _].
  pose proof (entries_shape c d Hc Hid) as Hsh. rewrite List.Forall_forall in Hsh.
  pose proof Hd as (V1 & _). rewrite List.Forall_forall in V1. destruct (V1 e Hin Hne) as (Hrf & _).
  destruct (refused_name e (Hsh e Hin) Hrf) as (N1 & N2 & _ & N4).
  assert (Hnn : entry_name e <> []) by (intros E; rewrite E in N1; change (zlen []) with 0 in N1; lia).
  rewrite join_join in * by done. destruct (IH (entry_name e ++ SLASH :: rest) fuel) as (l & fuel' & ty & Hfu & Hl & ->); [by destruct (entry_name e)|done|].
  destruct fuel' as [|fuel']; [lia|].
  destruct (resolve_step (with_scratch c l) d e fuel' (entry_name e ++ SLASH :: rest) rest ty) as (l' & Hl' & ->); try done; [by apply path_split_app|].
  rewrite with_scratch_twice in *. exists l', fuel', (de_type e). split; [|done]. rewrite length_app in Hfu. cbn [length] in Hfu. lia.
Qed.

Lemma resolve_names c p id ty : fs_ok c -> names c p id -> p <> [] -> typed c id ty ->
  exists l, resolve_path p c = (with_scratch c l, Ok (id, ty)).
Proof.
  intros Hc Hn Hp (i & Hi & Hty). destruct Hn as [|p d e Hn Hd Hin Hne]; [done|].
  destruct (names_in_range c p d Hc Hn) as [Hid _].
  pose proof (entries_shape c d Hc Hid) as Hsh. rewrite List.Forall_forall in Hsh.
  pose proof Hd as (V1 & _). rewrite List.Forall_forall in V1. destruct (V1 e Hin Hne) as (Hrf & _ & i' & Hi' & Hty').
  destruct (refused_name e (Hsh e Hin) Hrf) as (N1 & N2 & _ & N4).
  assert (Hnn : entry_name e <> []) by (intros E; rewrite E in N1; change (zlen []) with 0 in N1; lia).
  unfold resolve_path. destruct (resolve_prefix c p d Hc Hn (entry_name e) (S (length (join p (entry_name e))))) as (l & fuel' & ty' & Hfu & Hl & ->); [done|lia|].
  destruct fuel' as [|fuel']; [lia|].
  destruct (resolve_step (with_scratch c l) d e fuel' (entry_name e) [] ty') as (l' & Hl' & ->); try done; [by apply path_split_whole|].
  exists l'. destruct fuel' as [|fuel']; [destruct (entry_name e); [done|cbn [length] in Hfu; lia]|]. cbn. unfold st_ret. do 3 f_equal. congruence.
Qed.

(** ** Stamping *)

Lemma names_same c c' p id : same_tree c c' -> names c p id -> names c' p id.
Proof.
  intros Ht. induction 1 as [|p d e Hn IH Hd Hin Hne]; [constructor|].
  apply (names_child c' p d); [done|by apply (dir_valid_same c)|by rewrite (entries_same c c')|done].
Qed.

(** An inode with the default owner of a path, if it had none. *)
Definition stamped (p : list Z) (i : sxfs_inode) : sxfs_inode :=
  if in_mode i =? 0
  then let '(uid, gid, mode) := sxfs_default_ownership p (in_type i) in in_with_owner i uid gid mode
  else i.

Lemma stamped_shape p i : shape (stamped p i) = shape i /\ in_mode (stamped p i) <> 0.
Proof.
  unfold stamped. destruct (in_mode i =? 0) eqn:E; [|split; [done|lia]].
  assert (Hm : let '(_, _, m) := sxfs_default_ownership p (in_type i) in m <> 0) by (unfold sxfs_default_ownership, sxfs_mode_type_bits; by case_ifs).
  destruct (sxfs_default_ownership p (in_type i)) as [[u g] m]. done.
Qed.

Lemma stamped_twice p q i : stamped q (stamped p i) = stamped p i.
Proof. unfold stamped at 1. destruct (in_mode (stamped p i) =? 0) eqn:E; [|done]. destruct (stamped_shape p i) as [_ ?]. lia. Qed.

Definition attrs_only (c c' : ctx) (f : Z -> sxfs_inode -> sxfs_inode) : Prop :=
  cx_superblock c' = cx_superblock c /\
  forall id i, inode_id_ok id -> inode_at c id = Some i -> inode_at c' id = Some (f id i).

Lemma stamp_call c p id ty : fs_ok c -> inode_id_ok id ->
  exists c', stamp_callback p id ty tt c = (c', Ok tt) /\ fs_ok c' /\ same_tree c c' /\
    attrs_only c c' (fun id' i => if id' =? id then stamped p i else i).
Proof.
  intros Hc Hid. unfold stamp_callback, st_mod. eexists. split; [done|]. pose proof (inode_at_ok c id Hid) as Hi. rewrite Hi.
  set (i := at_ _ _ _) in *. destruct (stamped_shape p i) as [Hs Hm]. unfold stamped in Hs. destruct (in_mode i =? 0) eqn:Em.
  2: { split_and!; try done. split; [done|]. intros id' i' Hid' Hi'. destruct (id' =? id) eqn:E; [|done]. assert (i' = i) as -> by (replace id' with id in Hi' by lia; congruence).
       unfold stamped. by rewrite Em. }
  assert (Hput : forall i', shape i' = shape i -> stamped p i = i' -> fs_ok (put_inode c id i') /\ same_tree c (put_inode c id i') /\
    attrs_only c (put_inode c id i') (fun id' i => if id' =? id then stamped p i else i)).
  { intros i' Hsh Hst. pose proof (vo_table c (fs_vol c Hc)) as Htab. split_and!.
    - pose proof Hsh as Hsh2. apply shape_inv in Hsh2 as (_ & _ & E3 & E4). unfold shape in Hsh. simplify_eq. by apply (attr_keeps c id i); try (unfold inode_id_ok in Hid; lia).
    - split_and!; try done. intros id'. destruct (decide (inode_id_ok id')) as [Hok|Hno].
      + rewrite inode_at_put by done. destruct (id =? id') eqn:E; [|done]. replace id' with id by lia. rewrite Hi. cbn [option_map]. by rewrite Hsh.
      + unfold inode_at, inode_id_ok in *. destruct ((id' =? 0) || (id' >? SXFS_MAX_INODES)) eqn:?; [done|].
        assert (id' < 0) by lia. unfold at_. case_if; [done|lia].
    - split; [done|]. intros id' i2 Hid' Hi2. rewrite inode_at_put by done. destruct (id =? id') eqn:E, (id' =? id) eqn:E'; try lia; [|done].
      assert (i2 = i) as -> by (replace id' with id in Hi2 by lia; congruence). by rewrite Hst. }
  assert (Est : stamped p i = let '(u, g, m) := sxfs_default_ownership p (in_type i) in in_with_owner i u g m) by (unfold stamped; by rewrite Em).
  destruct (sxfs_default_ownership p (in_type i)) as [[u g] m]. by apply Hput.
Qed.

(** What stamping has done after some calls. *)
Definition stamping (c : ctx) (tr : visits) (_ : unit) (c' : ctx) : Prop :=
  cx_superblock c' = cx_superblock c /\
  forall id i, inode_id_ok id -> inode_at c id = Some i ->
    (~ In id (visited_ids tr) -> inode_at c' id = Some i) /\
    (In id (visited_ids tr) -> exists p, names c p id /\ inode_at c' id = Some (stamped p i)).

Lemma stamping_walk c : fs_ok c ->
  match sxfs_walk stamp_callback tt c with
  | (c', Ok (Some _)) =>
      fs_ok c' /\ same_tree c c' /\ cx_superblock c' = cx_superblock c /\
      forall id i, inode_id_ok id -> inode_at c id = Some i ->
        if sxfs_bitmap_test (cx_inode_bitmap c) (id - 1) && negb (id =? SXFS_ROOT_INODE)
        then exists p, names c p id /\ inode_at c' id = Some (stamped p i)
        else inode_at c' id = Some i
  | (_, Ok None) => False
  | (c', Fail _) => fs_ok c'
  end.
Proof.
  intros Hc. opose proof* (walk_rule stamp_callback c (stamping c) _ _ Hc tt) as HW.
  - intros tr k c1 l H1. exact H1.
  - intros tr [] c1 p id ty [Hsb Hall] Hf Ht Hn _. destruct (names_in_range c p id Hc Hn) as [Hid _].
    destruct (stamp_call c1 p id ty Hf Hid) as (c2 & -> & Hf2 & Ht2 & Hsb2 & Hi2). split; [|done].
    split; [congruence|]. intros id' i Hid' Hi. destruct (Hall id' i Hid' Hi) as [A1 A2].
    unfold visited_ids in *. rewrite map_app, in_app_iff. cbn [map In fst snd]. split.
    + intros Hni. rewrite (Hi2 id' i) by (done || (apply A1; tauto)). destruct (id' =? id) eqn:?; [|done]. destruct Hni. right. left. lia.
    + intros Hor. destruct (in_dec Z.eq_dec id' (map (fun v => v.1.2) tr)) as [Hin|Hnin].
      * destruct (A2 Hin) as (q & Hq & Hqi). exists q. split; [done|]. rewrite (Hi2 _ _ Hid' Hqi), stamped_twice. by destruct (id' =? id).
      * destruct Hor as [|[->|[]]]; [done|]. exists p. split; [done|]. by rewrite (Hi2 _ _ Hid' (A1 Hnin)), Z.eqb_refl.
  - split; [done|]. intros id i Hid Hi. split; [done|by intros []].
  - destruct (sxfs_walk stamp_callback tt c) as [c' [[[]|]|err]]; [|done..]. destruct HW as (tr & W1 & W2 & [W3 W4] & W5 & W6 & W7).
    split_and!; try done. intros id i Hid Hi. destruct (W4 id i Hid Hi) as [A1 A2]. specialize (W6 id).
    destruct (sxfs_bitmap_test _ _ && _) eqn:E; [apply A2, W6; split_and!; [done|lia|by destruct (sxfs_bitmap_test _ _)]|].
    apply A1. intros Hin. apply W6 in Hin as (_ & Hne & Hb). rewrite Hb in E. cbn in E. lia.
Qed.

Lemma fs_with_superblock c sb : fs_ok c -> fs_ok (with_superblock c sb).
Proof. intros [F1 F2 F3 F4 F5]. split; try done. destruct F1. by split. Qed.

Lemma stamp_spec c : fs_ok c ->
  match sxfs_stamp_ownership c with
  | (c', Ok (Some _)) =>
      fs_ok c' /\ same_tree c c' /\
      sb_features (cx_superblock c') = Z.lor (sb_features (cx_superblock c)) SXFS_FEATURE_OWNERSHIP /\
      forall id i, inode_id_ok id -> inode_at c id = Some i ->
        if sxfs_bitmap_test (cx_inode_bitmap c) (id - 1) || (id =? SXFS_ROOT_INODE)
        then exists p, names c p id /\ inode_at c' id = Some (stamped p i)
        else inode_at c' id = Some i
  | (_, Ok None) => False
  | (c', Fail _) => fs_ok c'
  end.
Proof.
  intros Hc. unfold sxfs_stamp_ownership, st_bind, st_get. rewrite (inode_at_ok c SXFS_ROOT_INODE) by done.
  destruct (stamp_call c [] SXFS_ROOT_INODE SXFS_INODE_DIRECTORY Hc) as (c1 & -> & Hf1 & Ht1 & Hsb1 & Hi1); [done|].
  pose proof (stamping_walk c1 Hf1) as HW. destruct (sxfs_walk stamp_callback tt c1) as [c2 [[[]|]|err]]; [|done..].
  destruct HW as (W1 & W2 & W3 & W4). cbn. split; [by apply fs_with_superblock|]. split; [by etrans|]. split; [by rewrite W3, Hsb1|].
  intros id i Hid Hi. change (inode_at (with_superblock c2 _) id) with (inode_at c2 id).
  specialize (W4 id _ Hid (Hi1 id i Hid Hi)). destruct Ht1 as (T1 & T2 & T3). rewrite T2 in W4.
  destruct (id =? SXFS_ROOT_INODE) eqn:E.
  - rewrite orb_true_r. rewrite andb_false_r in W4. exists []. split; [|done]. replace id with SXFS_ROOT_INODE by lia. constructor.
  - rewrite orb_false_r. rewrite andb_true_r in W4. case_if; [|done]. destruct W4 as (p & Hp & Hpi). exists p. split; [|done].
    apply (names_same c1 c); [|done]. by apply same_tree_sym.
Qed.

Lemma stamp_keeps : keeps sxfs_stamp_ownership (fun _ => True).
Proof.
  intros c Hc. pose proof (stamp_spec c Hc) as HS. destruct (sxfs_stamp_ownership c) as [c' [[u|]|e]]; [|done..].
  split; [apply HS|done].
Qed.
End laws.
