(* ===== verification/SxfsLaws.v ===== *)
(** * SxFS: properties

    What a user of libsxfs relies on: consistency of the volume under every
    sequence of operations, what is stored is read back, a flushed volume opens
    as it was, and the behaviours where the code falls short of its comments. *)

From S2P Require Import Prelude Bytes SxfsFormat SxfsFormatFacts SxfsCore SxfsDevice SxfsAlloc SxfsOps SxfsWalk SxfsTree SxfsWalkFacts.
Open Scope st_scope.

(** ** A fresh volume *)

Lemma test_zeros n k : sxfs_bitmap_test (replicate n 0) k = false.
Proof.
  unfold sxfs_bitmap_test, at_. case_if; [done|]. rewrite nth_lookup.
  destruct (decide (Z.to_nat (k / 8) < n)%nat).
  - rewrite lookup_replicate_2 by done. done.
  - rewrite lookup_ge_None_2; [done|]. rewrite length_replicate. lia.
Qed.

Lemma format_bits n k :
  SXFS_DATA_LBA <= 8 * Z.of_nat n -> 0 <= k ->
  bytes_ok (for_z 0 SXFS_DATA_LBA (fun sector bm => sxfs_bitmap_set bm sector true) (replicate n 0)) /\
  length (for_z 0 SXFS_DATA_LBA (fun sector bm => sxfs_bitmap_set bm sector true) (replicate n 0)) = n /\
  sxfs_bitmap_test
    (for_z 0 SXFS_DATA_LBA (fun sector bm => sxfs_bitmap_set bm sector true) (replicate n 0)) k =
  (k <? SXFS_DATA_LBA).
Proof.
  intros Hn Hk. apply (for_z_ind (fun s bm => bytes_ok bm /\ length bm = n /\
    sxfs_bitmap_test bm k = (k <? s))); [done| |].
  - split; [apply bytes_ok_replicate; unfold byte; lia|]. split; [apply length_replicate|].
    rewrite test_zeros. lia.
  - intros s bm Hs (B1 & B2 & B3). split; [by apply bitmap_set_bytes|].
    split; [by rewrite bitmap_set_length|]. rewrite bitmap_test_set by (done || (unfold zlen; lia)).
    rewrite B3. case_if; lia.
Qed.

Section fresh.
Context {D : Type} `{ReliableDevice D}.

(** A context with arrays of the declared sizes. *)
Definition ctx_sized (c : sxfs_ctx D) : Prop :=
  8 * zlen (cx_block_bitmap c) = SXFS_MAX_TOTAL_SECTORS /\
  8 * zlen (cx_inode_bitmap c) = SXFS_MAX_INODES /\
  zlen (cx_inodes c) = SXFS_MAX_INODES /\
  bytes_ok (cx_dir_scratch c) /\ zlen (cx_dir_scratch c) = SXFS_MAX_RECORDS * SXFS_DIR_ENTRY_SIZE.

(** A volume whose inodes are all unused. *)
Lemma vol_ok_empty (c : sxfs_ctx D) :
  dev_ok (cx_dev c) -> no_wrap (cx_dev c) ->
  SXFS_DATA_LBA < cx_total_sectors c <= SXFS_MAX_TOTAL_SECTORS ->
  cx_total_sectors c <= dev_size (cx_dev c) -> bytes_ok (cx_block_bitmap c) ->
  8 * zlen (cx_block_bitmap c) = SXFS_MAX_TOTAL_SECTORS -> zlen (cx_inodes c) = SXFS_MAX_INODES ->
  (forall id i, inode_at c id = Some i -> i = inode0) -> vol_ok c.
Proof.
  intros H1 H2 H3 H4 H5 H6 H7 Hempty. split; try assumption.
  - intros id i _ Hi. by apply Hempty in Hi as ->.
  - intros id i k _ Hi Hk. by apply Hempty in Hi as ->.
  - intros id id' i i' k _ _ Hi _ Hk. by apply Hempty in Hi as ->.
Qed.

(** The volume [sxfs_format] leaves, over any bitmap that marks the metadata. *)
Definition formatted (c : sxfs_ctx D) (total : Z) (bm ibm : list Z) (tbl : list sxfs_inode)
    (root : sxfs_inode) : sxfs_ctx D :=
  put_inode (mk_ctx (cx_dev c) total (fresh_superblock total) bm ibm tbl (cx_dir_scratch c))
            SXFS_ROOT_INODE root.

Lemma formatted_ok c total bm ibm tbl uid gid mode :
  ctx_sized c -> dev_ok (cx_dev c) -> no_wrap (cx_dev c) ->
  SXFS_DATA_LBA < total <= SXFS_MAX_TOTAL_SECTORS -> total <= dev_size (cx_dev c) ->
  bytes_ok bm -> length bm = length (cx_block_bitmap c) ->
  (forall k, 0 <= k -> sxfs_bitmap_test bm k = (k <? SXFS_DATA_LBA)) ->
  bytes_ok ibm -> length ibm = length (cx_inode_bitmap c) ->
  tbl = replicate (length (cx_inodes c)) inode0 ->
  let c' := formatted c total bm ibm tbl
    (mk_inode SXFS_ROOT_INODE SXFS_INODE_DIRECTORY mode 0 1 0 (replicate 8 extent0) uid gid 0 0 (replicate 24 0)) in
  fs_ok c' /\ no_leak c' /\ cx_dev c' = cx_dev c.
Proof.
  intros (S1 & S2 & S3 & S4 & S5) Hd Hw Ht Hsz B1 B2 Hbits I1 I2 Et c'.
  assert (Htl : zlen tbl = SXFS_MAX_INODES) by (rewrite Et; unfold zlen in *; by rewrite length_replicate).
  assert (Htbl : forall i, at_ inode0 tbl i = inode0) by (intros i; rewrite Et; apply at_replicate).
  clear Et. unfold zlen in S1, S2, S3.
  assert (Hv : vol_ok c').
  { unfold c', formatted. apply vol_ok_blank; [|done..]. apply vol_ok_empty; try assumption.
    - cbn [cx_block_bitmap]. unfold zlen. by rewrite B2.
    - intros id i. unfold inode_at. case_if; [done|]. cbn [cx_inodes]. rewrite Htbl. by intros [= <-]. }
  split; [|split; [|done]].
  - split; try assumption. cbn [cx_inode_bitmap c' formatted put_inode with_inodes]. unfold zlen. by rewrite I2.
  - intros k Hk Hbit. unfold c', formatted, put_inode, with_inodes in Hk, Hbit.
    cbn [cx_total_sectors cx_block_bitmap] in Hk, Hbit.
    assert (0 < SXFS_DATA_LBA) by done. rewrite Hbits in Hbit by lia. lia.
Qed.

Lemma format_ok c total :
  ctx_sized c -> dev_ok (cx_dev c) -> no_wrap (cx_dev c) ->
  SXFS_DATA_LBA < total <= SXFS_MAX_TOTAL_SECTORS -> total <= dev_size (cx_dev c) ->
  exists c', sxfs_format total c = (c', Ok tt) /\ fs_ok c' /\ no_leak c' /\ cx_dev c' = cx_dev c.
Proof.
  intros Hs Hd Hw Ht Hsz. unfold sxfs_format.
  replace ((total <=? SXFS_DATA_LBA) || (total >? SXFS_MAX_TOTAL_SECTORS)) with false by lia.
  unfold st_bind, st_mod, init_inode.
  destruct (sxfs_default_ownership _ _) as [[uid gid] mode]. cbn [fst snd].
  eexists. split; [reflexivity|].
  assert (Hbits : SXFS_DATA_LBA <= 8 * Z.of_nat (length (cx_block_bitmap c))).
  { destruct Hs as (S1 & _). unfold zlen in S1. lia. }
  apply formatted_ok; [done..|apply (format_bits _ 0); [done|lia]|apply (format_bits _ 0); [done|lia]| |
    apply bitmap_set_bytes, bytes_ok_replicate; unfold byte; lia| |done].
  - intros k Hk. by apply format_bits.
  - by rewrite bitmap_set_length, length_replicate.
Qed.

(** ** Programs over a volume *)

Inductive command :=
| WriteFile (path data : list Z)
| MkdirP (path : list Z)
| Remove (path : list Z)
| SetOwnership (path : list Z) (uid gid mode : Z)
| SetMtime (path : list Z) (mtime : Z)
| StampOwnership.

Definition exec (c : sxfs_ctx D) (cmd : command) : sxfs_ctx D :=
  (match cmd with
   | WriteFile p d => sxfs_write_file p d c
   | MkdirP p => sxfs_mkdir_p p c
   | Remove p => sxfs_remove p c
   | SetOwnership p u g m => sxfs_set_ownership p u g m c
   | SetMtime p t => sxfs_set_mtime p t c
   | StampOwnership => (sxfs_stamp_ownership ;;; st_ret tt) c
   end).1.

(** Paths are bytes, and file sizes leave room for rounding up to a sector in
    32 bits. *)
Definition command_ok (cmd : command) : Prop :=
  match cmd with
  | WriteFile p d => bytes_ok p /\ bytes_ok d /\ zlen d < 4294967296 - 511
  | MkdirP p | Remove p => bytes_ok p
  | _ => True
  end.

Lemma exec_ok c cmd : fs_ok c -> command_ok cmd -> fs_ok (exec c cmd).
Proof.
  intros Hc Hcmd. destruct cmd as [p d|p|p|p u g m|p t|]; simpl in *.
  - destruct Hcmd as (H1 & H2 & H3). by apply write_file_keeps.
  - by apply mkdir_p_keeps.
  - by apply remove_keeps.
  - by apply set_ownership_keeps.
  - by apply set_mtime_keeps.
  - apply (keeps_bind sxfs_stamp_ownership _ (fun _ => True) (fun _ => True) stamp_keeps); [|done]. intros a _. by apply keeps_ret.
Qed.
End fresh.

(** C8. Volume safety: on any device whose reads and writes never fail, of at
    most 2^32 sectors, after formatting and any sequence of file writes (of less
    than 2^32 - 511 bytes each), directory creations, removals, attribute changes
    and ownership stamping, whether each succeeds or is refused, every sector of
    every file lies in the data region and is marked in the block bitmap, and no
    sector belongs to two files.  A device that fails in the middle of growing a
    file is not covered: there the code leaves the file's own blocks unmarked. *)
Theorem sxfs_volume_safe {D : Type} `{ReliableDevice D} (c : sxfs_ctx D) total cmds :
  ctx_sized c -> dev_ok (cx_dev c) -> no_wrap (cx_dev c) ->
  SXFS_DATA_LBA < total <= SXFS_MAX_TOTAL_SECTORS -> total <= dev_size (cx_dev c) ->
  Forall command_ok cmds ->
  exists c0, sxfs_format total c = (c0, Ok tt) /\ vol_ok (fold_left exec cmds c0).
Proof.
  intros Hs Hd Hw Ht Hsz Hcmds. destruct (format_ok c total Hs Hd Hw Ht Hsz) as (c0 & E & Hf & _).
  exists c0. split; [done|]. apply fs_vol. clear E. revert c0 Hf.
  induction Hcmds as [|cmd cmds Hc Hcs IH]; intros c0 Hf; simpl; [done|]. apply IH. by apply exec_ok.
Qed.

(** A blank RAM disk of 3200 sectors. *)
Definition disk : ram := mk_ram 3200 (fun _ => replicate 512 0).
Definition ctx0 : sxfs_ctx ram := sxfs_ctx_init disk.

Lemma ctx0_sized : ctx_sized ctx0.
Proof.
  unfold ctx_sized, ctx0, sxfs_ctx_init, zlen.
  cbn [cx_block_bitmap cx_inode_bitmap cx_inodes cx_dir_scratch]. rewrite !length_replicate.
  rewrite !Z2Nat.id by (apply Z.leb_le; reflexivity).
  split; [reflexivity|]. split; [reflexivity|]. split; [reflexivity|]. split; [|reflexivity].
  apply bytes_ok_replicate. unfold byte. lia.
Qed.
Lemma disk_ok : dev_ok disk.
Proof. intros k Hk. split; [done|]. apply bytes_ok_replicate. unfold byte. lia. Qed.

Lemma sxfs_volume_safe_witness :
  exists c0, sxfs_format 3200 ctx0 = (c0, Ok tt) /\
    vol_ok (fold_left exec [WriteFile [97; 47; 98] [1; 2; 3]; MkdirP [99]; Remove [97; 47; 98]] c0).
Proof.
  apply (sxfs_volume_safe ctx0 3200 [WriteFile [97; 47; 98] [1; 2; 3]; MkdirP [99]; Remove [97; 47; 98]]).
  - exact ctx0_sized.
  - exact disk_ok.
  - unfold no_wrap. simpl. lia.
  - split; reflexivity || done.
  - simpl. lia.
  - repeat constructor; unfold byte; lia.
Defined.

(** C13. What is stored is what is read, on a device without I/O errors and a
    volume as this core writes it (files of at most one extent): growing a file to the size of new data
    and writing it either succeeds, and then reading the file gives exactly the
    data and every other file keeps its record and its bytes, or fails for
    lack of a free run, and then the device and all records are as before.
    Either way no sector is leaked.  The new run may overlap the old one. *)
Theorem sxfs_store_roundtrip {D : Type} `{ReliableDevice D} (c : sxfs_ctx D) id i data :
  vol_ok c -> inode_id_ok id -> inode_at c id = Some i -> in_type i <> SXFS_INODE_UNUSED ->
  bytes_ok data -> zlen data < 4294967296 - 511 ->
  match (ensure_capacity id (zlen data) ;;; write_inode_bytes id data) c with
  | (c', Ok tt) =>
      vol_ok c' /\ (no_leak c -> no_leak c') /\
      sxfs_read_inode c' id (zlen data) = Ok data /\
      forall id' i', inode_id_ok id' -> id' <> id -> inode_at c id' = Some i' ->
        inode_at c' id' = Some i' /\ file_bytes c' i' = file_bytes c i'
  | (c', Fail e) =>
      e = SXFS_ERR_NO_SPACE /\ vol_ok c' /\ (no_leak c -> no_leak c') /\
      cx_dev c' = cx_dev c /\ cx_inodes c' = cx_inodes c
  end.
Proof.
  intros Hv Hid Hi Hty Hb Hsz. pose proof (zlen_nonneg data) as Hz. unfold st_bind.
  pose proof (ensure_capacity_spec c id i (zlen data) Hv Hid Hi ltac:(lia)) as Hr.
  destruct (ensure_capacity id (zlen data) c) as [c1 [[]|e]]; [|by destruct Hr as (? & ? & ? & ? & ? & _)].
  destruct Hr as (Hv1 & Hl1 & (_ & Ho1) & i1 & Hi1 & Hcap & _ & Ety & _).
  destruct (write_inode_spec c1 id i1 data Hv1 Hid Hi1 Hcap Hb)
    as (c2 & -> & Hv2 & Hl2 & (_ & Ho2) & Hi2 & Hbytes).
  split; [done|]. split; [auto|]. split.
  - rewrite (read_inode_spec c2 id (in_with_size i1 (zlen data)) (zlen data)); try done.
    + by rewrite Hbytes.
    + simpl. by rewrite Ety.
  - intros id' i' Hid' Hne Hi'. destruct (Ho1 id' i' Hid' Hne Hi') as [A1 A2].
    destruct (Ho2 id' i' Hid' Hne A1) as [B1 B2]. split; [done|]. unfold file_bytes. by rewrite B2, A2.
Qed.

Definition fresh_ctx : sxfs_ctx ram := (sxfs_format 3200 ctx0).1.

Lemma fresh_ctx_ok : fs_ok fresh_ctx /\ no_leak fresh_ctx.
Proof.
  destruct (format_ok ctx0 3200) as (c0 & E & H1 & H2 & _).
  - exact ctx0_sized.
  - exact disk_ok.
  - unfold no_wrap. simpl. lia.
  - split; reflexivity || done.
  - simpl. lia.
  - unfold fresh_ctx. rewrite E. by split.
Qed.

Lemma sxfs_store_roundtrip_witness :
  exists c', (ensure_capacity 1 3 ;;; write_inode_bytes 1 [7; 8; 9]) fresh_ctx = (c', Ok tt) /\
             sxfs_read_inode c' 1 3 = Ok [7; 8; 9].
Proof.
  pose proof (sxfs_store_roundtrip fresh_ctx 1 (at_ inode0 (cx_inodes fresh_ctx) 0) [7; 8; 9]
    (fs_vol _ (proj1 fresh_ctx_ok))) as H.
  change (zlen [7; 8; 9]) with 3 in H.
  assert (Hok : is_ok ((ensure_capacity 1 3 ;;; write_inode_bytes 1 [7; 8; 9]) fresh_ctx).2 = true)
    by (vm_compute; reflexivity).
  destruct ((ensure_capacity 1 3 ;;; write_inode_bytes 1 [7; 8; 9]) fresh_ctx) as [c' [[]|e]]; [|done].
  exists c'. split; [done|]. apply H.
  - split; reflexivity || done.
  - vm_compute. reflexivity.
  - vm_compute. done.
  - repeat constructor; unfold byte; lia.
  - lia.
Defined.
