(* ===== verification/SxfsPersist.v ===== *)
(** * SxFS: what is flushed is what is opened

    [sxfs_flush] writes the superblock twice and the three metadata areas;
    [sxfs_open] finds the same metadata again on any reliable device, and the
    data region is not touched. *)

From S2P Require Import Prelude Bytes SxfsFormat SxfsFormatFacts SxfsCore SxfsDevice SxfsAlloc SxfsOps SxfsLaws.
Open Scope st_scope.

Section persist.
Context {D : Type} `{ReliableDevice D}.
Local Abbreviation ctx := (sxfs_ctx D).

(** The [n] sectors from [lba] hold [data]. *)
Definition holds (d : D) (lba n : Z) (data : list Z) : Prop := content d (run_lbas lba (Z.to_nat n)) = data.

Lemma content_pieces n : forall (d : D) lba data,
  length data = (512 * n)%nat ->
  (forall k, lba <= k < lba + Z.of_nat n ->
     dev_sector d k = take 512 (drop (512 * Z.to_nat (k - lba)) data)) ->
  content d (run_lbas lba n) = data.
Proof.
  induction n as [|n IH]; intros d lba data Hl Hs.
  - destruct data; [done|simpl in Hl; lia].
  - rewrite run_lbas_S. unfold content. cbn [map concat]. fold (content d (run_lbas (lba + 1) n)).
    rewrite (IH d (lba + 1) (drop 512 data)).
    + rewrite Hs by lia. replace (Z.to_nat (lba - lba)) with 0%nat by lia.
      rewrite Nat.mul_0_r, drop_0. apply take_drop.
    + rewrite length_drop. lia.
    + intros k Hk. rewrite Hs by lia. rewrite drop_drop. f_equal. f_equal. lia.
Qed.

(** One multi-sector transfer: it lands, and every other area is kept. *)
Lemma write_span (c : ctx) lba n data :
  dev_ok (cx_dev c) -> 0 <= lba -> 0 <= n -> lba + n <= dev_size (cx_dev c) ->
  zlen data = 512 * n -> bytes_ok data ->
  exists d', write_sector lba n data c = (with_dev c d', Ok tt) /\ dev_ok d' /\
    dev_size d' = dev_size (cx_dev c) /\ holds d' lba n data /\
    (forall k, k < lba \/ lba + n <= k -> dev_sector d' k = dev_sector (cx_dev c) k).
Proof.
  intros Hd H1 H2 H3 Hl Hb. unfold zlen in Hl.
  destruct (dev_write_spec (cx_dev c) lba (Z.to_nat n) data Hd H1) as (d' & E & Hd' & Es & Ek); [lia|lia|done|].
  rewrite Z2Nat.id in E, Ek by lia. exists d'. unfold write_sector. rewrite E.
  split; [done|]. split; [done|]. split; [done|]. split.
  - apply content_pieces; [lia|]. intros k Hk. rewrite Ek.
    by replace ((lba <=? k) && (k <? lba + n)) with true by lia.
  - intros k Hk. rewrite Ek. by replace ((lba <=? k) && (k <? lba + n)) with false by lia.
Qed.

Lemma holds_kept (d d' : D) lba n data :
  (forall k, lba <= k < lba + n -> dev_sector d' k = dev_sector d k) ->
  holds d lba n data -> holds d' lba n data.
Proof.
  intros Hk Hh. unfold holds in *. rewrite <- Hh. apply content_ext. intros k Hin.
  apply run_lbas_in in Hin. apply Hk. lia.
Qed.

Lemma read_span (c : ctx) lba n data :
  dev_ok (cx_dev c) -> 0 <= lba -> 0 <= n -> lba + n <= dev_size (cx_dev c) ->
  holds (cx_dev c) lba n data -> dev_read (cx_dev c) lba n = Some data.
Proof.
  intros Hd H1 H2 H3 Hh. replace n with (Z.of_nat (Z.to_nat n)) at 1 by lia.
  rewrite (read_many _ lba (Z.to_nat n) Hd H1) by lia. unfold holds in Hh. by rewrite Hh.
Qed.

(** *** The metadata records *)

Lemma enc_inodes_ok tbl :
  Forall inode_wf tbl -> length (enc_inodes tbl) = (128 * length tbl)%nat.
Proof.
  intros Ht. unfold enc_inodes. rewrite (concat_length 128); [by rewrite length_map|].
  apply Forall_map. eapply Forall_impl; [done|]. intros i Hi. by apply enc_inode_length.
Qed.

Lemma dec_enc_inodes tbl :
  Forall inode_wf tbl -> zlen tbl = SXFS_MAX_INODES -> dec_inodes (enc_inodes tbl) = tbl.
Proof.
  intros Ht Hl. unfold dec_inodes, enc_inodes.
  replace (Z.to_nat SXFS_MAX_INODES) with (length (map enc_inode tbl)) by (rewrite length_map; unfold zlen in Hl; lia).
  rewrite <- (app_nil_r (concat _)). rewrite chunks_concat.
  - rewrite map_map. rewrite <- (map_id tbl) at 2. apply map_ext_in. intros i Hi.
    apply dec_enc_inode. rewrite List.Forall_forall in Ht. by apply Ht.
  - apply Forall_map. eapply Forall_impl; [done|]. intros i Hi. by apply enc_inode_length.
Qed.

Lemma enc_extents_bytes es : bytes_ok (enc_extents es).
Proof.
  induction es as [|e es IH]; [constructor|]. cbn [enc_extents]. unfold enc_extent.
  apply bytes_ok_app. split; [|done]. apply bytes_ok_app. split; apply le_bytes.
Qed.

Lemma enc_inode_bytes i : inode_wf i -> bytes_ok (enc_inode i).
Proof.
  intros (_ & _ & _ & _ & _ & _ & _ & _ & _ & _ & _ & _ & _ & H14). unfold enc_inode.
  rewrite !bytes_ok_app. repeat split; try apply le_bytes; [apply enc_extents_bytes|done].
Qed.

Lemma enc_inodes_bytes tbl : Forall inode_wf tbl -> bytes_ok (enc_inodes tbl).
Proof.
  induction 1 as [|i tbl Hi Ht IH]; [constructor|]. unfold enc_inodes. cbn [map concat].
  apply bytes_ok_app. split; [by apply enc_inode_bytes|done].
Qed.

Lemma enc_superblock_bytes s : superblock_wf s -> bytes_ok (enc_superblock s).
Proof.
  intros (_ & H2 & _ & _ & _ & _ & _ & _ & _ & _ & _ & _ & _ & _ & _ & _ & _ & _ & _ & _ & H21).
  unfold enc_superblock. rewrite !bytes_ok_app. repeat split; try apply le_bytes; done.
Qed.

Lemma checksum_range data : word 4 (sxfs_checksum data).
Proof.
  unfold sxfs_checksum. assert (Hb : word 4 SXFS_CHECKSUM_BASIS) by (split; reflexivity || done).
  revert Hb. generalize SXFS_CHECKSUM_BASIS. induction data as [|b data IH]; intros v Hv; [done|].
  cbn [fold_left]. apply IH. apply u32_range.
Qed.

(** The fields [sxfs_format] sets and no operation changes. *)
Definition geometry_ok (s : sxfs_superblock) : Prop :=
  s = mk_superblock sxfs_superblock_magic SXFS_VERSION (sb_checksum s) (sb_sequence s) (sb_flags s)
    (sb_total_sectors s) SXFS_JOURNAL_LBA SXFS_JOURNAL_SECTORS SXFS_BLOCK_BITMAP_LBA
    SXFS_BLOCK_BITMAP_SECTORS SXFS_INODE_BITMAP_LBA SXFS_INODE_BITMAP_SECTORS SXFS_INODE_TABLE_LBA
    SXFS_INODE_TABLE_SECTORS SXFS_DATA_LBA SXFS_MAX_INODES SXFS_ROOT_INODE
    SXFS_FEATURE_OWNERSHIP (replicate 436 0) /\
  SXFS_DATA_LBA < sb_total_sectors s <= SXFS_MAX_TOTAL_SECTORS.

Lemma sealed_wf s : geometry_ok s -> superblock_wf (sealed s).
Proof.
  intros [E Ht]. rewrite E. unfold sealed. set (t := sb_total_sectors s) in *. cbn [sb_magic sb_version
    sb_total_sectors sb_journal_lba sb_journal_sectors sb_block_bitmap_lba sb_block_bitmap_sectors
    sb_inode_bitmap_lba sb_inode_bitmap_sectors sb_inode_table_lba sb_inode_table_sectors sb_data_lba
    sb_max_inodes sb_root_inode sb_features sb_reserved].
  set (x := sxfs_checksum _). assert (Hx : word 4 x) by apply checksum_range. clearbody x.
  assert (Hd : 0 < SXFS_DATA_LBA) by done. assert (Hm : SXFS_MAX_TOTAL_SECTORS < 4294967296) by done.
  assert (Hw : word 4 t) by (unfold word; change (256 ^ Z.of_nat 4) with 4294967296; lia).
  unfold superblock_wf, sb_with_checksum. cbn [sb_magic sb_version sb_checksum sb_sequence sb_flags
    sb_total_sectors sb_journal_lba sb_journal_sectors sb_block_bitmap_lba sb_block_bitmap_sectors
    sb_inode_bitmap_lba sb_inode_bitmap_sectors sb_inode_table_lba sb_inode_table_sectors sb_data_lba
    sb_max_inodes sb_root_inode sb_features sb_reserved].
  repeat split; try done; try apply Hx; try apply Hw.
  - unfold sxfs_superblock_magic. repeat constructor; unfold byte; lia.
  - apply bytes_ok_replicate. unfold byte. lia.
Qed.

Lemma sealed_valid s : geometry_ok s -> sxfs_superblock_valid (sealed s) = true.
Proof.
  intros [E Ht]. rewrite E. set (t := sb_total_sectors s) in *. unfold sxfs_superblock_valid, sxfs_superblock_checksum.
  change (sb_with_checksum (sealed ?x) 0) with (sb_with_checksum (sealed x) 0).
  set (s' := mk_superblock _ _ _ _ _ t _ _ _ _ _ _ _ _ _ _ _ _ _).
  assert (Ec : sb_checksum (sealed s') = sxfs_checksum (enc_superblock (sb_with_checksum (sealed s') 0))) by reflexivity.
  rewrite <- Ec. unfold sealed, sb_with_checksum, s'. set (x := sxfs_checksum _).
  cbn [sb_magic sb_version sb_checksum sb_sequence sb_flags
    sb_total_sectors sb_journal_lba sb_journal_sectors sb_block_bitmap_lba sb_block_bitmap_sectors
    sb_inode_bitmap_lba sb_inode_bitmap_sectors sb_inode_table_lba sb_inode_table_sectors sb_data_lba
    sb_max_inodes sb_root_inode sb_features sb_reserved].
  change (sxfs_magic_equals sxfs_superblock_magic sxfs_superblock_magic) with true.
  rewrite !Z.eqb_refl. lia.
Qed.

(** *** Flushing and opening *)

Definition journal_clean (sector : list Z) : bool :=
  journal_header_is_empty sector ||
  (sxfs_journal_valid (dec_journal sector) && (jh_pending (dec_journal sector) =? 0)).

(** A context that can be written out: what [sxfs_format] makes of any context
    and the records keep to their field widths. *)
Record storable (c : ctx) : Prop := {
  sr_dev : dev_ok (cx_dev c);
  sr_size : SXFS_DATA_LBA <= dev_size (cx_dev c);
  sr_geometry : geometry_ok (cx_superblock c);
  sr_bytes : bytes_ok (cx_block_bitmap c);
  sr_bits : 8 * zlen (cx_block_bitmap c) = SXFS_MAX_TOTAL_SECTORS;
  sr_ibytes : bytes_ok (cx_inode_bitmap c);
  sr_ibits : 8 * zlen (cx_inode_bitmap c) = SXFS_MAX_INODES;
  sr_table : zlen (cx_inodes c) = SXFS_MAX_INODES;
  sr_inodes : Forall inode_wf (cx_inodes c) }.

(** The metadata of [c] is on the device. *)
Record stored (c : ctx) (d : D) : Prop := {
  st_sb0 : holds d SXFS_PRIMARY_SB_LBA 1 (enc_superblock (sealed (cx_superblock c)));
  st_sb1 : holds d SXFS_SECONDARY_SB_LBA 1 (enc_superblock (sealed (cx_superblock c)));
  st_bm : holds d SXFS_BLOCK_BITMAP_LBA SXFS_BLOCK_BITMAP_SECTORS (cx_block_bitmap c);
  st_ibm : holds d SXFS_INODE_BITMAP_LBA SXFS_INODE_BITMAP_SECTORS (cx_inode_bitmap c);
  st_tbl : holds d SXFS_INODE_TABLE_LBA SXFS_INODE_TABLE_SECTORS (enc_inodes (cx_inodes c)) }.

(** The values of the layout, as [lia] sees them. *)
Ltac layout :=
  assert (SXFS_PRIMARY_SB_LBA = 0) by reflexivity; assert (SXFS_SECONDARY_SB_LBA = 1) by reflexivity;
  assert (SXFS_JOURNAL_LBA = 2) by reflexivity; assert (SXFS_BLOCK_BITMAP_LBA = 1540) by reflexivity;
  assert (SXFS_BLOCK_BITMAP_SECTORS = 512) by reflexivity; assert (SXFS_INODE_BITMAP_LBA = 2052) by reflexivity;
  assert (SXFS_INODE_BITMAP_SECTORS = 1) by reflexivity; assert (SXFS_INODE_TABLE_LBA = 2053) by reflexivity;
  assert (SXFS_INODE_TABLE_SECTORS = 1024) by reflexivity; assert (SXFS_DATA_LBA = 3077) by reflexivity;
  assert (SXFS_MAX_TOTAL_SECTORS = 2097152) by reflexivity; assert (SXFS_MAX_INODES = 4096) by reflexivity.

Lemma flush_spec (c : ctx) :
  storable c ->
  exists c1, sxfs_flush c = (c1, Ok tt) /\ stored c (cx_dev c1) /\ dev_ok (cx_dev c1) /\
    dev_size (cx_dev c1) = dev_size (cx_dev c) /\
    (forall k, k = SXFS_JOURNAL_LBA \/ SXFS_DATA_LBA <= k -> dev_sector (cx_dev c1) k = dev_sector (cx_dev c) k).
Proof.
  intros [S1 S2 S3 S4 S5 S6 S7 S8 S9]. unfold sxfs_flush, st_mod, st_get, st_bind at 1.
  pose proof (sealed_wf _ S3) as Hw. layout.
  set (c0 := with_superblock c (sealed (cx_superblock c))).
  assert (Hl : zlen (enc_superblock (cx_superblock c0)) = 512 * 1)
    by (unfold zlen; rewrite enc_superblock_length by done; reflexivity).
  assert (Hb : bytes_ok (enc_superblock (cx_superblock c0))) by (by apply enc_superblock_bytes).
  assert (Htl : zlen (enc_inodes (cx_inodes c0)) = 512 * 1024)
    by (unfold zlen in *; rewrite enc_inodes_ok by done; cbn [cx_inodes c0 with_superblock]; lia).
  assert (Htb : bytes_ok (enc_inodes (cx_inodes c0))) by (by apply enc_inodes_bytes).
  unfold st_bind. cbv beta iota zeta.
  destruct (write_span c0 SXFS_PRIMARY_SB_LBA 1 (enc_superblock (cx_superblock c0)) S1)
    as (d1 & -> & O1 & Z1 & W1 & K1); [cbn [cx_dev c0 with_superblock]; lia..|done|].
  change (cx_dev c0) with (cx_dev c) in Z1, K1.
  destruct (write_span (with_dev c0 d1) SXFS_SECONDARY_SB_LBA 1 (enc_superblock (cx_superblock c0)) O1)
    as (d2 & -> & O2 & Z2 & W2 & K2); [rewrite ?with_dev_dev; lia..|done|].
  destruct (write_span (with_dev c0 d2) SXFS_BLOCK_BITMAP_LBA SXFS_BLOCK_BITMAP_SECTORS (cx_block_bitmap c0) O2)
    as (d3 & E3 & O3 & Z3 & W3 & K3);
    [rewrite ?with_dev_dev in *; lia..|change (cx_block_bitmap c0) with (cx_block_bitmap c); lia|done|].
  rewrite with_dev_twice, E3. 
  destruct (write_span (with_dev c0 d3) SXFS_INODE_BITMAP_LBA SXFS_INODE_BITMAP_SECTORS (cx_inode_bitmap c0) O3)
    as (d4 & E4 & O4 & Z4 & W4 & K4);
    [rewrite ?with_dev_dev in *; lia..|change (cx_inode_bitmap c0) with (cx_inode_bitmap c); lia|done|].
  rewrite with_dev_twice, E4.
  destruct (write_span (with_dev c0 d4) SXFS_INODE_TABLE_LBA SXFS_INODE_TABLE_SECTORS (enc_inodes (cx_inodes c0)) O4)
    as (d5 & E5 & O5 & Z5 & W5 & K5); [rewrite ?with_dev_dev in *; lia..|done|].
  rewrite with_dev_twice, E5. rewrite with_dev_twice. rewrite !with_dev_dev in *.
  eexists. split; [reflexivity|]. rewrite with_dev_dev. split; [|split; [done|split; [lia|]]].
  - split.
    + refine (holds_kept d1 _ _ _ _ _ W1). intros k Hk. rewrite K5, K4, K3, K2 by lia. done.
    + refine (holds_kept d2 _ _ _ _ _ W2). intros k Hk. rewrite K5, K4, K3 by lia. done.
    + refine (holds_kept d3 _ _ _ _ _ W3). intros k Hk. rewrite K5, K4 by lia. done.
    + refine (holds_kept d4 _ _ _ _ _ W4). intros k Hk. rewrite K5 by lia. done.
    + done.
  - intros k Hk. rewrite K5, K4, K3, K2, K1 by lia. done.
Qed.

Lemma read_superblock_stored (c : ctx) s lba :
  dev_ok (cx_dev c) -> 0 <= lba -> lba + 1 <= dev_size (cx_dev c) -> geometry_ok s ->
  holds (cx_dev c) lba 1 (enc_superblock (sealed s)) -> read_superblock c lba = Some (sealed s).
Proof.
  intros Hd H1 H2 Hg Hh. unfold read_superblock. rewrite (read_span c lba 1 _ Hd H1) by (done || lia).
  rewrite dec_enc_superblock by (by apply sealed_wf). by rewrite sealed_valid.
Qed.

Lemma open_spec (c c2 : ctx) :
  storable c -> stored c (cx_dev c2) -> dev_ok (cx_dev c2) -> SXFS_DATA_LBA <= dev_size (cx_dev c2) ->
  journal_clean (dev_sector (cx_dev c2) SXFS_JOURNAL_LBA) = true ->
  sxfs_open c2 =
  (mk_ctx (cx_dev c2) (sb_total_sectors (cx_superblock c)) (sealed (cx_superblock c)) (cx_block_bitmap c)
          (cx_inode_bitmap c) (cx_inodes c) (cx_dir_scratch c2), Ok tt).
Proof.
  intros [S1 S2 S3 S4 S5 S6 S7 S8 S9] [T1 T2 T3 T4 T5] Hd Hsz Hj. layout. unfold sxfs_open.
  rewrite !(read_superblock_stored c2 (cx_superblock c)) by (done || lia).
  replace (sb_sequence _ >? sb_sequence _) with false by lia.
  change (Z.land (sb_flags (sealed (cx_superblock c))) SXFS_FLAG_CLEAN =? 0) with false.
  cbv beta iota. unfold st_bind, st_mod, st_fail. unfold read_sector at 1.
  rewrite read_one by (done || lia). unfold journal_clean in Hj.
  match goal with |- context [if ?b then _ else _] => assert (b = false) as -> end.
  { destruct (journal_header_is_empty _), (sxfs_journal_valid _), (jh_pending _ =? 0); done. }
  unfold read_sector. cbn [cx_dev].
  rewrite (read_span c2 SXFS_BLOCK_BITMAP_LBA _ _ Hd) by (done || lia). cbn [cx_dev with_block_bitmap].
  rewrite (read_span c2 SXFS_INODE_BITMAP_LBA _ _ Hd) by (done || lia). cbn [cx_dev with_inode_bitmap].
  rewrite (read_span c2 SXFS_INODE_TABLE_LBA _ _ Hd) by (done || lia).
  by rewrite dec_enc_inodes.
Qed.

(** *** A formatted volume can be stored *)

Lemma default_mode_word p ty : let '(u, g, m) := sxfs_default_ownership p ty in
  word 4 u /\ word 4 g /\ word 2 m.
Proof.
  unfold sxfs_default_ownership. repeat case_if; unfold SXFS_UID_USER, SXFS_GID_USERS, SXFS_UID_SYSTEM, SXFS_GID_SYSTEM;
    (split; [done|]); (split; [done|]); apply u16_range.
Qed.

Lemma inode0_wf : inode_wf inode0.
Proof.
  unfold inode_wf, inode0. cbn. repeat split; try done; repeat constructor; done.
Qed.

Lemma blank_inode_wf id ty m u g :
  word 4 id -> word 2 ty -> word 2 m -> word 4 u -> word 4 g ->
  inode_wf (mk_inode id ty m 0 1 0 (replicate 8 extent0) u g 0 0 (replicate 24 0)).
Proof.
  intros Hid Hty Hm Hu Hg. pose proof inode0_wf as Hz. unfold inode_wf, inode0 in *. cbn in *.
  by repeat match goal with |- _ /\ _ => split end; apply Hid || apply Hz || done.
Qed.

Lemma format_storable c total :
  ctx_sized c -> dev_ok (cx_dev c) -> SXFS_DATA_LBA < total <= SXFS_MAX_TOTAL_SECTORS ->
  total <= dev_size (cx_dev c) ->
  exists c', sxfs_format total c = (c', Ok tt) /\ storable c' /\ cx_dev c' = cx_dev c /\
             sb_total_sectors (cx_superblock c') = total.
Proof.
  intros (S1 & S2 & S3 & S4 & S5) Hd Ht Hsz. unfold sxfs_format.
  replace ((total <=? SXFS_DATA_LBA) || (total >? SXFS_MAX_TOTAL_SECTORS)) with false by lia.
  unfold st_bind, st_mod, init_inode.
  pose proof (default_mode_word (take (Z.to_nat SXFS_MAX_RELATIVE_PATH) []) SXFS_INODE_DIRECTORY) as Hw.
  destruct (sxfs_default_ownership _ _) as [[uid gid] mode]. destruct Hw as (Hu & Hg & Hm). cbn [fst snd].
  eexists. split; [reflexivity|].
  assert (Hbits : SXFS_DATA_LBA <= 8 * Z.of_nat (length (cx_block_bitmap c))) by (unfold zlen in S1; lia).
  destruct (format_bits _ 0 Hbits ltac:(lia)) as (B1 & B2 & _). unfold zlen in *.
  split; [|split; reflexivity]. unfold put_inode, with_inodes. split; cbn [cx_dev cx_superblock cx_block_bitmap cx_inode_bitmap cx_inodes].
  - exact Hd.
  - lia.
  - split; [reflexivity|exact Ht].
  - exact B1.
  - unfold zlen. rewrite B2. exact S1.
  - apply bitmap_set_bytes, bytes_ok_replicate. unfold byte. lia.
  - unfold zlen. rewrite bitmap_set_length, length_replicate. exact S2.
  - rewrite zlen_set_at. unfold zlen. rewrite length_replicate. exact S3.
  - unfold set_at. case_if; [apply Forall_replicate, inode0_wf|].
    apply Forall_insert; [apply Forall_replicate, inode0_wf|].
    apply blank_inode_wf; [split; reflexivity || done..|exact Hm|exact Hu|exact Hg].
Qed.
End persist.

(** C32. Persistence: flushing a volume and opening the device again, from any
    context, gives back the same block bitmap, inode bitmap, inode table and
    size; no data sector is written.  It holds for any reliable device whose
    journal header is clean. *)
Theorem sxfs_flush_open {D : Type} `{ReliableDevice D} (c : sxfs_ctx D) :
  storable c -> journal_clean (dev_sector (cx_dev c) SXFS_JOURNAL_LBA) = true ->
  exists c1, sxfs_flush c = (c1, Ok tt) /\
    (forall k, SXFS_DATA_LBA <= k -> dev_sector (cx_dev c1) k = dev_sector (cx_dev c) k) /\
    forall c2, cx_dev c2 = cx_dev c1 ->
      exists c3, sxfs_open c2 = (c3, Ok tt) /\ cx_dev c3 = cx_dev c1 /\
        cx_total_sectors c3 = sb_total_sectors (cx_superblock c) /\
        cx_block_bitmap c3 = cx_block_bitmap c /\ cx_inode_bitmap c3 = cx_inode_bitmap c /\
        cx_inodes c3 = cx_inodes c.
Proof.
  intros Hs Hj. destruct (flush_spec c Hs) as (c1 & E & Hst & Hd & Hz & Hk).
  exists c1. split; [done|]. split; [auto|]. intros c2 E2. eexists. split.
  - apply (open_spec c c2 Hs); rewrite E2; [done|done|rewrite Hz; apply Hs|]. rewrite Hk by (by left). done.
  - by rewrite E2.
Qed.

Lemma fresh_storable : storable fresh_ctx /\ cx_dev fresh_ctx = disk.
Proof.
  destruct (format_storable ctx0 3200) as (c0 & E & H1 & H2 & _).
  - exact ctx0_sized.
  - exact disk_ok.
  - split; reflexivity || done.
  - simpl. lia.
  - unfold fresh_ctx. rewrite E. by split.
Qed.

Lemma sxfs_flush_open_witness :
  exists c1, sxfs_flush fresh_ctx = (c1, Ok tt) /\
    exists c3, sxfs_open (sxfs_ctx_init (cx_dev c1)) = (c3, Ok tt) /\
               cx_inodes c3 = cx_inodes fresh_ctx.
Proof.
  destruct (sxfs_flush_open fresh_ctx (proj1 fresh_storable)) as (c1 & E & _ & Ho).
  - rewrite (proj2 fresh_storable). vm_compute. reflexivity.
  - exists c1. split; [done|]. destruct (Ho (sxfs_ctx_init (cx_dev c1)) eq_refl) as (c3 & E3 & _ & _ & _ & _ & Ei).
    exists c3. by split.
Defined.
