(* ===== verification/SxfsLimits.v ===== *)
(** * SxFS: paths, ownership, first fit, and where the code falls short

    What path validation guarantees and what it misses; the ownership table;
    first-fit allocation; and three executions, evaluated in full, in which the
    library loses data or leaves a stale bit. *)

From S2P Require Import Prelude Bytes SxfsFormat SxfsFormatFacts SxfsCore SxfsDevice SxfsAlloc SxfsOps SxfsLaws.
Open Scope st_scope.

(** ** Paths *)

(** The components of a path: what lies between the slashes. *)
Fixpoint components (p : list Z) : list (list Z) :=
  match p with
  | [] => [[]]
  | c :: t =>
      if c =? SLASH then [] :: components t
      else match components t with
           | [] => [[c]]
           | comp :: rest => (c :: comp) :: rest
           end
  end.

Definition name_char (c : Z) : Prop := 0x20 <= c /\ c <> 0x7f /\ c <> SLASH.
Definition good_name (name : list Z) : Prop :=
  1 <= zlen name <= SXFS_MAX_NAME_LENGTH /\ Forall name_char name.

Lemma components_cons p : exists comp rest, components p = comp :: rest.
Proof.
  induction p as [|c t IH]; [by exists [], []|]. simpl. case_if; [by exists [], (components t)|].
  destruct IH as (comp & rest & ->). by exists (c :: comp), rest.
Qed.

Lemma zlen_cons {A} (a : A) l : zlen (a :: l) = zlen l + 1.
Proof. unfold zlen. cbn [length]. lia. Qed.

(** From [component_length] characters into a component. *)
Lemma path_loop_sound path rest : forall length component_length,
  0 <= component_length -> path_loop path rest length component_length = true ->
  match components rest with
  | [] => False
  | comp :: others =>
      1 <= component_length + zlen comp <= SXFS_MAX_NAME_LENGTH /\ Forall name_char comp /\
      Forall good_name others
  end.
Proof.
  assert (Hmax : SXFS_MAX_NAME_LENGTH = 63) by done.
  induction rest as [|c rest IH]; intros len cl Hcl Hv; cbn [path_loop components] in *.
  - case_if_in Hv; [done|]. change (zlen []) with 0. split; [lia|]. by split.
  - destruct (c =? SLASH) eqn:Ec.
    + case_if_in Hv; [done|]. apply IH in Hv; [|done]. destruct (components rest) as [|comp others]; [done|].
      change (zlen []) with 0. split; [lia|]. split; [constructor|].
      destruct Hv as (H1 & H2 & H3). by constructor.
    + case_if_in Hv; [done|]. apply IH in Hv; [|lia]. destruct (components_cons rest) as (comp & others & E).
      rewrite E in *. destruct Hv as (H1 & H2 & H3). rewrite zlen_cons. split; [lia|].
      split; [|done]. constructor; [|done]. unfold name_char. lia.
Qed.

(** Path validation: every component of an accepted path is non-empty, fits
    the 64-byte name field with its terminator, and holds no control character. *)
Theorem sxfs_path_valid_components path :
  sxfs_path_valid path = true -> Forall good_name (components path).
Proof.
  unfold sxfs_path_valid. destruct path as [|c t]; [done|]. destruct (c =? SLASH) eqn:Ec; [done|].
  intros Hv. apply path_loop_sound in Hv; [|done].
  destruct (components (c :: t)) as [|comp others]; [done|]. destruct Hv as (H1 & H2 & H3).
  constructor; [by split|done].
Qed.

Lemma sxfs_path_valid_components_witness : Forall good_name (components [98; 105; 110; 47; 115; 104]).
Proof. apply sxfs_path_valid_components. reflexivity. Defined.

(** The rule against [.] and [..] holds only in the first component: the
    index the test reads does not count the slashes, so [a/..] and [a/.] pass,
    while [..] alone does not, and the harmless [a/y./b] is refused. *)
Theorem sxfs_path_dotdot_accepted :
  sxfs_path_valid [97; 47; 46; 46] = true /\ sxfs_path_valid [97; 47; 46] = true /\
  sxfs_path_valid [46; 46] = false /\ sxfs_path_valid [46] = false /\
  components [97; 47; 46; 46] = [[97]; [46; 46]] /\
  sxfs_path_valid [97; 47; 121; 46; 47; 98] = false.
Proof. repeat split. Qed.

(** ** Ownership *)

(** The default mode always carries the type bits of the inode it is for, so
    [sxfs_set_ownership] and the kernel accept it, and its permission bits and
    ids fit their fields. *)
Theorem sxfs_default_ownership_typed path type :
  let '(uid, gid, mode) := sxfs_default_ownership path type in
  sxfs_mode_matches_type mode type = true /\ 0 <= mode < 65536 /\
  (uid = SXFS_UID_SYSTEM \/ uid = SXFS_UID_USER) /\
  (uid = SXFS_UID_USER -> sxfs_ownership_path_under path s_users = true).
Proof.
  unfold sxfs_default_ownership, sxfs_mode_matches_type, sxfs_mode_type_bits.
  destruct (type =? SXFS_INODE_DIRECTORY), (sxfs_ownership_path_under path s_users);
    simpl; repeat case_if; repeat split; auto; done.
Qed.

(** ** First fit *)

(** First fit: the search returns the lowest run of free sectors of the
    required length inside the data region, or 0 exactly when there is none. *)
Theorem sxfs_first_fit {D : Type} (c : sxfs_ctx D) required :
  0 < required -> SXFS_DATA_LBA <= cx_total_sectors c ->
  let r := find_free_run c required in
  (r = 0 <-> forall s, SXFS_DATA_LBA <= s -> s + required <= cx_total_sectors c ->
                       ~ free_run (cx_block_bitmap c) s required) /\
  (r <> 0 -> SXFS_DATA_LBA <= r /\ r + required <= cx_total_sectors c /\
             free_run (cx_block_bitmap c) r required /\
             forall s, SXFS_DATA_LBA <= s < r -> ~ free_run (cx_block_bitmap c) s required).
Proof.
  intros Hr Ht r. assert (Hd : 0 < SXFS_DATA_LBA) by done.
  destruct (find_free_run_spec (cx_block_bitmap c) SXFS_DATA_LBA (cx_total_sectors c) required Hr Hd Ht)
    as [[E Hn]|(H1 & H2 & H3 & H4 & _)]; change (sxfs_find_free_run _ _ _ _) with r in *; clearbody r.
  - split; [by split|]. by intros Hne.
  - split; [|done]. split; [intros E; lia|]. intros Hn. by destruct (Hn r H1 H2).
Qed.

Lemma sxfs_first_fit_witness : free_run (cx_block_bitmap fresh_ctx) (find_free_run fresh_ctx 5) 5.
Proof.
  apply (sxfs_first_fit fresh_ctx 5).
  - lia.
  - apply Z.leb_le. vm_compute. reflexivity.
  - apply Z.eqb_neq. vm_compute. reflexivity.
Defined.

(** ** Executions that lose something *)

Definition p_a : list Z := [97].
Definition p_d : list Z := [100].
Definition p_dx : list Z := [100; 47; 120].

Definition build : st (sxfs_ctx ram) sxfs_err unit :=
  sxfs_write_file p_a [1; 2; 3] ;;; sxfs_mkdir_p p_d ;;; sxfs_write_file p_dx [7; 8].

(** What the kernel driver's unlink of [d/x] leaves: the entry zeroed in place
    (sector 3079), the data sector and the inode freed. *)
Definition kernel_unlink : st (sxfs_ctx ram) sxfs_err unit :=
  write_sector 3079 1 (replicate 512 0) ;;;
  st_mod (fun c => with_block_bitmap c (sxfs_bitmap_set (cx_block_bitmap c) 3080 false)) ;;;
  st_mod (fun c => with_inode_bitmap c (sxfs_bitmap_set (cx_inode_bitmap c) 3 false)) ;;;
  st_mod (fun c => put_inode c 4 inode0).

(** The removal of [d], and the lookup of [a] before and after. *)
Definition judge (c : sxfs_ctx ram) :=
  ((sxfs_remove p_d c).2, (resolve_path p_a c).2, (resolve_path p_a (sxfs_remove p_d c).1).2).

(** Removing an empty directory can lose its siblings: the emptiness test
    reads the victim's entries into the buffer that holds the parent's, and the
    parent is then rewritten from it.  Here [d] holds one deleted entry, as the
    kernel leaves it; [sxfs_remove] of [d] succeeds and the file [a] beside it
    is gone. *)
Theorem sxfs_remove_loses_sibling :
  judge ((build ;;; kernel_unlink) fresh_ctx).1 =
  (Ok tt, Ok (2, SXFS_INODE_FILE), Fail SXFS_ERR_NOT_FOUND).
Proof. vm_compute. reflexivity. Qed.

(** The volume left by a store of 2^32 - 1 bytes into [a]. *)
Definition after_huge (c : sxfs_ctx ram) :=
  ((ensure_capacity 2 4294967295 c).2,
   (sxfs_read_inode c 2 3, sxfs_read_inode (ensure_capacity 2 4294967295 c).1 2 3)).

(** The rounding of a size to sectors wraps at 32 bits: reserving 2^32 - 1
    bytes reports success with no sector at all, and the content the file had
    can no longer be read. *)
Theorem sxfs_capacity_wraps :
  sectors_for 4294967295 = 0 /\
  after_huge (sxfs_write_file p_a [1; 2; 3] fresh_ctx).1 =
  (Ok tt, (Ok [1; 2; 3], Fail SXFS_ERR_INVALID)).
Proof. vm_compute. split; reflexivity. Qed.

(** A volume of one data sector whose root directory has six entries. *)
Definition full_root : st (sxfs_ctx ram) sxfs_err unit :=
  sxfs_format 3078 ;;; sxfs_mkdir_p [97] ;;; sxfs_mkdir_p [98] ;;; sxfs_mkdir_p [99] ;;;
  sxfs_mkdir_p [100] ;;; sxfs_mkdir_p [101] ;;; sxfs_mkdir_p [102].
Definition orphan (c : sxfs_ctx ram) :=
  let inode_used (c : sxfs_ctx ram) := sxfs_bitmap_test (cx_inode_bitmap c) 7 in
  ((sxfs_mkdir_p [103] c).2, inode_used c, inode_used (sxfs_mkdir_p [103] c).1,
   (resolve_path [103] (sxfs_mkdir_p [103] c).1).2).

(** A creation that fails for lack of space leaks its inode: the directory
    is not there, but the inode it was given stays marked as used. *)
Theorem sxfs_failed_create_leaks_inode :
  orphan (full_root ctx0).1 = (Fail SXFS_ERR_NO_SPACE, false, true, Fail SXFS_ERR_NOT_FOUND).
Proof. vm_compute. reflexivity. Qed.
