(* ===== verification/SxfsWalkLaws.v ===== *)
(** * What a walk of an SxFS volume visits

    On a consistent volume [sxfs_walk] ends; when it succeeds it has called back
    once for every allocated inode but the root, under a path that names it, and
    [sxfs_stamp_ownership] has given each of them an owner. *)

From S2P Require Import Prelude Bytes SxfsFormat SxfsFormatFacts SxfsCore SxfsDevice SxfsAlloc SxfsOps SxfsWalk SxfsTree SxfsWalkFacts SxfsLaws.
Open Scope st_scope.

(** ** The walk *)

(** A callback that only remembers its calls. *)
Definition record {D} (p : list Z) (id ty : Z) (k : list (list Z * Z * Z)) : st (sxfs_ctx D) sxfs_err (list (list Z * Z * Z)) :=
  st_ret (k ++ [(p, id, ty)]).

(** C20. A walk of a consistent volume as this core writes them (every inode has
    at most one extent; the kernel's volumes may have more) always ends, and leaves the volume as it
    was but for the scratch buffer.  When it succeeds it has called back exactly
    once for every allocated inode but the root and for no other; each call had
    the type of the inode and a path that resolves to it. *)
Theorem sxfs_walk_exact {D : Type} `{ReliableDevice D} (c : sxfs_ctx D) : fs_ok c ->
  match sxfs_walk record [] c with
  | (c', Ok (Some calls)) =>
      (exists l, c' = with_scratch c l) /\ List.NoDup (visited_ids calls) /\
      (forall id, In id (visited_ids calls) <->
        inode_id_ok id /\ id <> SXFS_ROOT_INODE /\ sxfs_bitmap_test (cx_inode_bitmap c) (id - 1) = true) /\
      (forall p id ty, In (p, id, ty) calls ->
        exists l, resolve_path p c = (with_scratch c l, Ok (id, ty)))
  | (_, Ok None) => False
  | (_, Fail _) => True
  end.
Proof.
  intros Hc. pose proof (walk_rule record c (fun tr k c' => k = tr /\ exists l, c' = with_scratch c l)) as HW.
  specialize (HW ltac:(intros tr k c1 l [-> [l1 ->]]; split; [done|by exists l])).
  specialize (HW ltac:(intros tr k c1 p id ty [-> [l ->]] Hf _ _ _; unfold record, st_ret; split; [split; [done|by exists l]|by split])).
  assert (Hs : c = with_scratch c (cx_dir_scratch c)) by (by destruct c).
  specialize (HW Hc [] (conj eq_refl (ex_intro _ _ Hs))).
  destruct (sxfs_walk record [] c) as [c' [[k'|]|err]]; [|done..]. destruct HW as (tr & W1 & W2 & [-> W3] & W4 & W5 & W6).
  split_and!; try done. intros p id ty Hin. rewrite List.Forall_forall in W6. destruct (W6 _ Hin) as [N1 N2]. cbn in N1, N2.
  apply resolve_names; try done. intros ->.
  assert (In id (visited_ids tr)) as Hv%W5 by (apply in_map_iff; by exists ([], id, ty)). destruct Hv as (_ & Hne & _).
  by apply names_empty in N1.
Qed.

(** A directory with a file in it. *)
Definition small_volume : sxfs_ctx ram :=
  exec (exec fresh_ctx (MkdirP [97])) (WriteFile [97; 47; 98] [1; 2; 3]).

Lemma small_volume_ok : fs_ok small_volume.
Proof.
  apply exec_ok; [apply exec_ok; [apply fresh_ctx_ok|]|]; cbn [command_ok].
  - by repeat constructor.
  - split; [by repeat constructor|]. split; [by repeat constructor|]. unfold zlen. cbn [length]. lia.
Qed.

Lemma small_volume_calls : (sxfs_walk record [] small_volume).2 = Ok (Some [([97], 2, 2); ([97; 47; 98], 3, 1)]).
Proof. vm_compute. reflexivity. Qed.

Lemma sxfs_walk_exact_witness :
  fs_ok small_volume /\
  forall p id ty, In (p, id, ty) [([97], 2, 2); ([97; 47; 98], 3, 1)] ->
    exists l, resolve_path p small_volume = (with_scratch small_volume l, Ok (id, ty)).
Proof.
  split; [exact small_volume_ok|].
  pose proof (sxfs_walk_exact small_volume small_volume_ok) as HW. pose proof small_volume_calls as HC.
  destruct (sxfs_walk record [] small_volume) as [c' r]. cbn [snd] in HC. subst r. apply HW.
Defined.

(** ** Stamping *)

(** Stamping always ends; when it succeeds the volume has the feature, every
    allocated inode has a mode, those that had one are untouched, and the others
    have the default owner of a path that leads to them. *)
Theorem sxfs_stamp_complete {D : Type} `{ReliableDevice D} (c : sxfs_ctx D) : fs_ok c ->
  match sxfs_stamp_ownership c with
  | (c', Ok (Some _)) =>
      sb_features (cx_superblock c') = Z.lor (sb_features (cx_superblock c)) SXFS_FEATURE_OWNERSHIP /\
      forall id i, inode_id_ok id -> inode_at c id = Some i ->
        sxfs_bitmap_test (cx_inode_bitmap c) (id - 1) = true ->
        exists i', inode_at c' id = Some i' /\ in_mode i' <> 0 /\ (in_mode i <> 0 -> i' = i) /\
          (in_mode i = 0 -> exists p, names c p id /\
             (in_uid i', in_gid i', in_mode i') = sxfs_default_ownership p (in_type i))
  | (_, Ok None) => False
  | (c', Fail _) => fs_ok c'
  end.
Proof.
  intros Hc. pose proof (stamp_spec c Hc) as HS. destruct (sxfs_stamp_ownership c) as [c' [[[]|]|e]]; [|done..].
  destruct HS as (_ & _ & H3 & H4). split; [done|]. intros id i Hid Hi Hb. specialize (H4 id i Hid Hi). rewrite Hb in H4. cbn [orb] in H4.
  destruct H4 as (p & Hp & Hs). exists (stamped p i). split; [done|]. split; [apply stamped_shape|]. unfold stamped. split.
  - intros Hne. by destruct (in_mode i =? 0) eqn:?; [lia|].
  - intros ->. cbn [Z.eqb]. exists p. split; [done|]. by destruct (sxfs_default_ownership p (in_type i)) as [[u g] m].
Qed.
