(* ===== verification/Gpt.v ===== *)
(** * GUID partition tables (libsxdisk/sxdisk.c, include/shared/crc32.h)

    [struct sxdisk_gpt] in memory and its two copies on the disk.  The sector
    callbacks of [struct sxdisk_io] are the class [BlockDevice] of SxfsCore; the
    random callback is the 16 bytes it would give, [None] when there is none.
    Sectors are byte lists; 64-bit arithmetic wraps. *)

From S2P Require Import Prelude Bytes SxfsCore.
Open Scope st_scope.

(** ** CRC-32 *)

Definition crc_bit (crc : Z) : Z :=
  Z.lxor (Z.shiftr crc 1) (Z.land 0xEDB88320 (u32 (0 - Z.land crc 1))).
Definition crc_byte (crc b : Z) : Z := Nat.iter 8 crc_bit (Z.lxor crc b).
Definition not32 (x : Z) : Z := u32 (Z.lnot x).

Definition sx_crc32_update (crc : Z) (data : list Z) : Z :=
  not32 (fold_left crc_byte data (not32 crc)).
Definition sx_crc32 (data : list Z) : Z := sx_crc32_update 0 data.

(** ** Data *)

Definition SXDISK_SECTOR_SIZE : Z := 512.
Definition SXDISK_GPT_ENTRY_COUNT : Z := 128.
Definition SXDISK_GPT_ENTRY_SIZE : Z := 128.
Definition SXDISK_GPT_ARRAY_SECTORS : Z :=
  SXDISK_GPT_ENTRY_COUNT * SXDISK_GPT_ENTRY_SIZE / SXDISK_SECTOR_SIZE.
Definition SXDISK_ALIGN_SECTORS : Z := 2048.
Definition SXDISK_GUID_SIZE : Z := 16.
Definition SXDISK_NAME_UNITS : Z := 36.
Definition SXDISK_MIN_DISK_SECTORS : Z :=
  2 * SXDISK_ALIGN_SECTORS + 2 * (1 + SXDISK_GPT_ARRAY_SECTORS) + 1.
Definition GPT_HEADER_SIZE : Z := 92.
Definition GPT_REVISION : Z := 0x00010000.
Definition MBR_TABLE_OFFSET : Z := 446.
Definition MBR_BOOT_CODE_SIZE : Z := 440.

Inductive sxdisk_err :=
| SXDISK_ERR_IO | SXDISK_ERR_INVALID | SXDISK_ERR_NO_SPACE | SXDISK_ERR_FULL | SXDISK_ERR_NOT_FOUND.
#[export] Instance sxdisk_err_eq_dec : EqDecision sxdisk_err.
Proof. solve_decision. Defined.

Record sxdisk_gpt_entry := mk_entry {
  type_guid : list Z; unique_guid : list Z; first_lba : Z; last_lba : Z; attributes : Z;
  ge_name : list Z }.
#[export] Instance sxdisk_gpt_entry_eq_dec : EqDecision sxdisk_gpt_entry.
Proof. solve_decision. Defined.

Record sxdisk_gpt := mk_gpt {
  disk_sectors : Z; first_usable : Z; last_usable : Z; disk_guid : list Z; from_backup : bool;
  entries : list sxdisk_gpt_entry }.

Record sxdisk_extent := mk_free { ex_first_lba : Z; ex_sector_count : Z }.

Definition zero_guid : list Z := replicate 16 0.
(** What [memset] leaves. *)
Definition entry0 : sxdisk_gpt_entry := mk_entry zero_guid zero_guid 0 0 0 (replicate 36 0).
Definition gpt0 : sxdisk_gpt := mk_gpt 0 0 0 zero_guid false (replicate 128 entry0).

Definition sxdisk_type_esp : list Z :=
  [0x28; 0x73; 0x2a; 0xc1; 0x1f; 0xf8; 0xd2; 0x11; 0xba; 0x4b; 0x00; 0xa0; 0xc9; 0x3e; 0xc9; 0x3b].
Definition sxdisk_type_sxfs : list Z :=
  [0x79; 0x80; 0x7c; 0x27; 0x0e; 0x90; 0x7e; 0x47; 0x99; 0xd8; 0x4f; 0xee; 0x14; 0x96; 0xd3; 0x70].
Definition sxdisk_type_basic_data : list Z :=
  [0xa2; 0xa0; 0xd0; 0xeb; 0xe5; 0xb9; 0x33; 0x44; 0x87; 0xc0; 0x68; 0xb6; 0xb7; 0x26; 0x99; 0xc7].
Definition sxdisk_type_linux : list Z :=
  [0xaf; 0x3d; 0xc6; 0x0f; 0x83; 0x84; 0x72; 0x47; 0x8e; 0x79; 0x3d; 0x69; 0xd8; 0x47; 0x7d; 0xe4].

(** The 128 bytes of an entry, and the array of them. *)
Definition enc_entry (e : sxdisk_gpt_entry) : list Z :=
  type_guid e ++ unique_guid e ++ le 8 (first_lba e) ++ le 8 (last_lba e) ++ le 8 (attributes e) ++
  concat (map (le 2) (ge_name e)).
Definition dec_entry (l : list Z) : sxdisk_gpt_entry :=
  let '(type, l) := get_bytes 16 l in
  let '(unique, l) := get_bytes 16 l in
  let '(first, l) := get 8 l in
  let '(last, l) := get 8 l in
  let '(attrs, l) := get 8 l in
  mk_entry type unique first last attrs (map unle (chunks 2 36 l)).
Definition enc_entries (es : list sxdisk_gpt_entry) : list Z := concat (map enc_entry es).
Definition dec_entries (l : list Z) : list sxdisk_gpt_entry := map dec_entry (chunks 128 128 l).

(** ** Little-endian fields of a sector *)

(** A store of [data] at offset [off] of a buffer, and the bytes there. *)
Definition put_at (buf : list Z) (off : nat) (data : list Z) : list Z :=
  take off buf ++ data ++ drop (off + length data) buf.
Definition field (buf : list Z) (off n : nat) : list Z := take n (drop off buf).

Definition put16 (value : Z) : list Z := [u8 value; u8 (Z.shiftr value 8)].
Definition put32 (value : Z) : list Z :=
  [u8 value; u8 (Z.shiftr value 8); u8 (Z.shiftr value 16); u8 (Z.shiftr value 24)].
Definition put64 (value : Z) : list Z := put32 (u32 value) ++ put32 (u32 (Z.shiftr value 32)).
Definition get32 (buf : list Z) (off : nat) : Z :=
  let b k := nth (off + k) buf 0 in
  Z.lor (Z.lor (Z.lor (b 0%nat) (u32 (Z.shiftl (b 1%nat) 8))) (u32 (Z.shiftl (b 2%nat) 16)))
        (u32 (Z.shiftl (b 3%nat) 24)).
Definition get64 (buf : list Z) (off : nat) : Z :=
  Z.lor (get32 buf off) (u64 (Z.shiftl (get32 buf (off + 4)) 32)).

Definition sxdisk_guid_is_zero (guid : list Z) : bool :=
  forallb (fun i => at_ 0 guid (Z.of_nat i) =? 0) (seq 0 16).

(** [random] is what the callback fills in. *)
Definition new_guid (random : option (list Z)) : list Z :=
  let out := match random with Some bytes => bytes | None => zero_guid end in
  let out := set_at out 7 (u8 (Z.lor (Z.land (at_ 0 out 7) 0x0f) 0x40)) in
  set_at out 8 (u8 (Z.lor (Z.land (at_ 0 out 8) 0x3f) 0x80)).

Definition array_sectors_end (entries_lba : Z) : Z := u64 (entries_lba + SXDISK_GPT_ARRAY_SECTORS).

Definition sxdisk_gpt_init (sectors : Z) (random : option (list Z)) : res sxdisk_err sxdisk_gpt :=
  if sectors <? SXDISK_MIN_DISK_SECTORS then Fail SXDISK_ERR_INVALID
  else Ok (mk_gpt sectors (array_sectors_end 2) (sectors - 2 - SXDISK_GPT_ARRAY_SECTORS)
                  (new_guid random) false (replicate 128 entry0)).

(** ** Reading *)

Definition s_efi_part : list Z := [69; 70; 73; 32; 80; 65; 82; 84].

Section io.
Context {D : Type} `{BlockDevice D}.
Local Abbreviation G := (st sxdisk_gpt sxdisk_err).

(** The state is [*gpt]: its entries are overwritten as soon as they are read. *)
Definition load_copy (d : D) (sectors lba : Z) : G unit :=
  match dev_read d lba 1 with
  | None => st_fail SXDISK_ERR_IO
  | Some sector =>
      if negb (bool_decide (field sector 0 8 = s_efi_part)) then st_fail SXDISK_ERR_INVALID
      else
        let header_size := get32 sector 12 in
        if (header_size <? GPT_HEADER_SIZE) || (header_size >? SXDISK_SECTOR_SIZE)
        then st_fail SXDISK_ERR_INVALID
        else
          let stored := get32 sector 16 in
          let sector := put_at sector 16 (put32 0) in
          if negb (sx_crc32 (take (Z.to_nat header_size) sector) =? stored) ||
             negb (get64 sector 24 =? lba)
          then st_fail SXDISK_ERR_INVALID
          else
            let first := get64 sector 40 in
            let last := get64 sector 48 in
            let entries_lba := get64 sector 72 in
            let entry_count := get32 sector 80 in
            let entry_size := get32 sector 84 in
            let entries_crc := get32 sector 88 in
            if negb (entry_count =? SXDISK_GPT_ENTRY_COUNT) ||
               negb (entry_size =? SXDISK_GPT_ENTRY_SIZE) ||
               (entries_lba <? 2) || (array_sectors_end entries_lba >? sectors) ||
               (first >? last) || (last >=? sectors)
            then st_fail SXDISK_ERR_INVALID
            else
              match dev_read d entries_lba SXDISK_GPT_ARRAY_SECTORS with
              | None => st_fail SXDISK_ERR_IO
              | Some array =>
                  st_mod (fun g => mk_gpt (disk_sectors g) (first_usable g) (last_usable g)
                                     (disk_guid g) (from_backup g) (dec_entries array)) ;;;
                  if negb (sx_crc32 array =? entries_crc) then st_fail SXDISK_ERR_INVALID
                  else st_mod (fun g => mk_gpt sectors first last (field sector 56 16)
                                               (from_backup g) (entries g))
              end
  end.

(** The table left in [*gpt], and the return code. *)
Definition sxdisk_gpt_read (d : D) (sectors : Z) : sxdisk_gpt * res sxdisk_err unit :=
  if sectors <? SXDISK_MIN_DISK_SECTORS then (gpt0, Fail SXDISK_ERR_INVALID)
  else
    match load_copy d sectors 1 gpt0 with
    | (g, Fail SXDISK_ERR_IO) => (g, Fail SXDISK_ERR_IO)
    | (g, Ok tt) => (g, Ok tt)
    | (g, Fail _) =>
        match load_copy d sectors (sectors - 1) g with
        | (_, Fail e) => (gpt0, Fail e)
        | (g, Ok tt) => (mk_gpt (disk_sectors g) (first_usable g) (last_usable g) (disk_guid g)
                                true (entries g), Ok tt)
        end
    end.

(** ** Writing *)

Definition build_header (g : sxdisk_gpt) (lba alternate entries_lba entries_crc : Z) : list Z :=
  let sector := replicate 512 0 in
  let sector := put_at sector 0 s_efi_part in
  let sector := put_at sector 8 (put32 GPT_REVISION) in
  let sector := put_at sector 12 (put32 GPT_HEADER_SIZE) in
  let sector := put_at sector 24 (put64 lba) in
  let sector := put_at sector 32 (put64 alternate) in
  let sector := put_at sector 40 (put64 (first_usable g)) in
  let sector := put_at sector 48 (put64 (last_usable g)) in
  let sector := put_at sector 56 (disk_guid g) in
  let sector := put_at sector 72 (put64 entries_lba) in
  let sector := put_at sector 80 (put32 SXDISK_GPT_ENTRY_COUNT) in
  let sector := put_at sector 84 (put32 SXDISK_GPT_ENTRY_SIZE) in
  let sector := put_at sector 88 (put32 entries_crc) in
  put_at sector 16 (put32 (sx_crc32 (take (Z.to_nat GPT_HEADER_SIZE) sector))).

(** The protective MBR over what sector 0 held. *)
Definition protective_mbr (sector : list Z) (last : Z) : list Z :=
  let boot := Z.to_nat MBR_BOOT_CODE_SIZE in
  let table := Z.to_nat MBR_TABLE_OFFSET in
  let sector := put_at sector boot (replicate (512 - boot) 0) in
  let sector := put_at sector (table + 1) [0x00; 0x02; 0x00; 0xee; 0xff; 0xff; 0xff] in
  let sector := put_at sector (table + 8) (put32 1) in
  let sector := put_at sector (table + 12)
                  (put32 (if last >? 0xffffffff then 0xffffffff else u32 last)) in
  put_at sector 510 (put16 0xaa55).

(** One write callback. *)
Definition put_sectors (lba count : Z) (data : list Z) : st D sxdisk_err unit :=
  fun d => let '(d, ok) := dev_write d lba count data in
           (d, if ok then Ok tt else Fail SXDISK_ERR_IO).

Definition sxdisk_gpt_write (g : sxdisk_gpt) : st D sxdisk_err unit :=
  if disk_sectors g <? SXDISK_MIN_DISK_SECTORS then st_fail SXDISK_ERR_INVALID
  else
    let last := disk_sectors g - 1 in
    let backup_entries := last - SXDISK_GPT_ARRAY_SECTORS in
    let array := enc_entries (entries g) in
    let entries_crc := sx_crc32 array in
    let! d := st_get in
    match dev_read d 0 1 with
    | None => st_fail SXDISK_ERR_IO
    | Some sector =>
        put_sectors 0 1 (protective_mbr sector last) ;;;
        put_sectors backup_entries SXDISK_GPT_ARRAY_SECTORS array ;;;
        put_sectors last 1 (build_header g last 1 backup_entries entries_crc) ;;;
        put_sectors 2 SXDISK_GPT_ARRAY_SECTORS array ;;;
        put_sectors 1 1 (build_header g 1 last 2 entries_crc)
    end.
End io.

(** ** Editing *)

Definition sxdisk_entry_in_use (e : sxdisk_gpt_entry) : bool := negb (sxdisk_guid_is_zero (type_guid e)).

(** [None] is the null pointer. *)
Definition sxdisk_gpt_entry_at (g : sxdisk_gpt) (number : Z) : option sxdisk_gpt_entry :=
  if (number =? 0) || (number >? SXDISK_GPT_ENTRY_COUNT) then None
  else let e := at_ entry0 (entries g) (number - 1) in
       if sxdisk_entry_in_use e then Some e else None.

Definition align_up (value : Z) : Z :=
  u64 (u64 (value + SXDISK_ALIGN_SECTORS - 1) / SXDISK_ALIGN_SECTORS * SXDISK_ALIGN_SECTORS).

(** The [while] of the insertion sort: [out] from its last element. *)
Fixpoint shift_down (e : sxdisk_gpt_entry) (rev_out : list sxdisk_gpt_entry) : list sxdisk_gpt_entry :=
  match rev_out with
  | x :: t => if first_lba x >? first_lba e then x :: shift_down e t else e :: rev_out
  | [] => [e]
  end.
Definition sorted_entries (g : sxdisk_gpt) : list sxdisk_gpt_entry :=
  fold_left (fun out e => if sxdisk_entry_in_use e then rev (shift_down e (rev out)) else out)
            (entries g) [].

(** The loop of [sxdisk_gpt_free_extents] from one partition on. *)
Fixpoint free_loop (used : list sxdisk_gpt_entry) (cursor last : Z) : list sxdisk_extent :=
  let start := align_up cursor in
  let gap limit :=
    if (limit >? start) && (limit - start >=? SXDISK_ALIGN_SECTORS)
    then [mk_free start (limit - start)] else [] in
  match used with
  | [] => gap (u64 (last + 1))
  | e :: t =>
      gap (first_lba e) ++
      free_loop t (if u64 (last_lba e + 1) >? cursor then u64 (last_lba e + 1) else cursor) last
  end.
(** All the extents found: the source counts them and stores the first [capacity]. *)
Definition free_extents (g : sxdisk_gpt) : list sxdisk_extent :=
  free_loop (sorted_entries g) (first_usable g) (last_usable g).
(** What is stored in [out], and the return value. *)
Definition sxdisk_gpt_free_extents (g : sxdisk_gpt) (capacity : nat) : list sxdisk_extent * Z :=
  (take capacity (free_extents g), zlen (free_extents g)).

(** [name] without its terminator. *)
Definition sxdisk_entry_set_name (name : list Z) : list Z :=
  let units := map (fun c => if c <? 0x80 then c else 63) (take (Z.to_nat SXDISK_NAME_UNITS) name) in
  units ++ replicate (Z.to_nat SXDISK_NAME_UNITS - length units) 0.

(** [n] turns of the loop, with [room] characters left before the terminator. *)
Fixpoint get_name_loop (units : list Z) (room : nat) : list Z :=
  match units, room with
  | unit :: t, S room =>
      if unit =? 0 then []
      else (if (unit >=? 0x20) && (unit <? 0x7f) then unit else 63) :: get_name_loop t room
  | _, _ => []
  end.
(** The string left in [out]; a zero capacity leaves [out] alone. *)
Definition sxdisk_entry_get_name (e : sxdisk_gpt_entry) (capacity : nat) : option (list Z) :=
  match capacity with
  | O => None
  | S room => Some (get_name_loop (ge_name e) room)
  end.

(** The scan of [sxdisk_gpt_add]: [None] when a used entry overlaps the range,
    else the first empty slot, [SXDISK_GPT_ENTRY_COUNT] when there is none. *)
Fixpoint add_scan (es : list sxdisk_gpt_entry) (index slot first last : Z) : option Z :=
  match es with
  | [] => Some slot
  | e :: t =>
      if negb (sxdisk_entry_in_use e)
      then add_scan t (index + 1) (if slot =? SXDISK_GPT_ENTRY_COUNT then index else slot) first last
      else if (first <=? last_lba e) && (first_lba e <=? last) then None
      else add_scan t (index + 1) slot first last
  end.

Definition with_entries (g : sxdisk_gpt) (es : list sxdisk_gpt_entry) : sxdisk_gpt :=
  mk_gpt (disk_sectors g) (first_usable g) (last_usable g) (disk_guid g) (from_backup g) es.

(** The table, and the 1-based number of the new entry. *)
Definition sxdisk_gpt_add (first sector_count : Z) (type : list Z) (name : option (list Z))
    (random : option (list Z)) : st sxdisk_gpt sxdisk_err Z :=
  fun g =>
    if sxdisk_guid_is_zero type || (sector_count =? 0) then (g, Fail SXDISK_ERR_INVALID)
    else
      let last := u64 (u64 (first + sector_count) - 1) in
      if (last <? first) || (first <? first_usable g) || (last >? last_usable g)
      then (g, Fail SXDISK_ERR_NO_SPACE)
      else
        match add_scan (entries g) 0 SXDISK_GPT_ENTRY_COUNT first last with
        | None => (g, Fail SXDISK_ERR_NO_SPACE)
        | Some slot =>
            if slot =? SXDISK_GPT_ENTRY_COUNT then (g, Fail SXDISK_ERR_FULL)
            else
              let e := mk_entry type (new_guid random) first last 0
                         (match name with
                          | Some name => sxdisk_entry_set_name name
                          | None => replicate 36 0
                          end) in
              (with_entries g (set_at (entries g) slot e), Ok (slot + 1))
        end.

Definition sxdisk_gpt_remove (number : Z) : st sxdisk_gpt sxdisk_err unit :=
  fun g =>
    match sxdisk_gpt_entry_at g number with
    | None => (g, Fail SXDISK_ERR_NOT_FOUND)
    | Some _ => (with_entries g (set_at (entries g) (number - 1) entry0), Ok tt)
    end.

(** ** Names of types and GUIDs *)

Inductive type_label := EfiSystem | SavanxpSxfs | BasicData | LinuxFilesystem.
Definition sxdisk_type_name (guid : list Z) : option type_label :=
  let guid := take 16 guid in
  if bool_decide (guid = sxdisk_type_esp) then Some EfiSystem
  else if bool_decide (guid = sxdisk_type_sxfs) then Some SavanxpSxfs
  else if bool_decide (guid = sxdisk_type_basic_data) then Some BasicData
  else if bool_decide (guid = sxdisk_type_linux) then Some LinuxFilesystem
  else None.

Inductive mbr_label := Fat12 | Fat16 | Fat32 | NtfsExfat | LinuxSwap | MbrLinux | GptProtective | MbrEfiSystem.
Definition sxdisk_mbr_type_name (type : Z) : option mbr_label :=
  if type =? 0x01 then Some Fat12
  else if (type =? 0x04) || (type =? 0x06) || (type =? 0x0e) then Some Fat16
  else if (type =? 0x0b) || (type =? 0x0c) then Some Fat32
  else if type =? 0x07 then Some NtfsExfat
  else if type =? 0x82 then Some LinuxSwap
  else if type =? 0x83 then Some MbrLinux
  else if type =? 0xee then Some GptProtective
  else if type =? 0xef then Some MbrEfiSystem
  else None.

Definition hex_digit (v : Z) : Z := if v <? 10 then 48 + v else 55 + v.
Definition guid_order : list Z := [3; 2; 1; 0; 5; 4; 7; 6; 8; 9; 10; 11; 12; 13; 14; 15].
(** The characters before the terminator. *)
Definition sxdisk_guid_format (guid : list Z) : list Z :=
  flat_map (fun index =>
      let value := at_ 0 guid (at_ 0 guid_order index) in
      (if (index =? 4) || (index =? 6) || (index =? 8) || (index =? 10) then [45] else []) ++
      [hex_digit (Z.shiftr value 4); hex_digit (Z.land value 0x0f)])
    (map Z.of_nat (seq 0 16)).
