(* ===== verification/GptFacts.v ===== *)
(** * GUID partition tables: the bytes

    Little-endian fields, buffers patched at an offset, CRC-32 composition, the
    byte image of entries, and the fields of the header [build_header] makes. *)

From S2P Require Import Prelude Bytes SxfsFormatFacts SxfsCore SxfsDevice Gpt.

(** ** Fields *)

Lemma put32_le v : put32 v = le 4 v.
Proof.
  unfold put32, u8. cbn [le]. rewrite !Z.shiftr_div_pow2 by lia. rewrite !Z.div_div by lia. reflexivity.
Qed.
Lemma le_app a : forall b v, le (a + b) v = le a v ++ le b (v / 256 ^ Z.of_nat a).
Proof.
  induction a as [|a IH]; intros b v.
  - cbn [le app Nat.add]. change (256 ^ Z.of_nat 0) with 1. by rewrite Z.div_1_r.
  - cbn [le app Nat.add]. rewrite IH. rewrite Nat2Z.inj_succ, Z.pow_succ_r by lia.
    rewrite Z.div_div by (try apply Z.pow_pos_nonneg; lia). done.
Qed.
Lemma le_mod n : forall v, le n (v mod 256 ^ Z.of_nat n) = le n v.
Proof.
  induction n as [|n IH]; intros v; [done|]. cbn [le].
  rewrite Nat2Z.inj_succ, Z.pow_succ_r by lia.
  assert (Hp : 0 < 256 ^ Z.of_nat n) by (apply Z.pow_pos_nonneg; lia).
  rewrite Z.rem_mul_r by lia. f_equal.
  - rewrite (Z.mul_comm 256), Z_mod_plus_full. apply Z.mod_mod. lia.
  - rewrite (Z.mul_comm 256), Z.div_add by lia. rewrite (Z.div_small (v mod 256)) by (apply Z.mod_pos_bound; lia).
    apply IH.
Qed.
Lemma put64_le v : put64 v = le 8 v.
Proof.
  unfold put64. rewrite !put32_le. change 8%nat with (4 + 4)%nat. rewrite le_app.
  rewrite Z.shiftr_div_pow2 by lia. unfold u32. change 4294967296 with (256 ^ Z.of_nat 4).
  change (2 ^ 32) with (256 ^ Z.of_nat 4). by rewrite !le_mod.
Qed.

Lemma lor_shift a b k : 0 <= k -> 0 <= a < 2 ^ k -> Z.lor a (Z.shiftl b k) = a + b * 2 ^ k.
Proof.
  intros Hk Ha. rewrite <- (Z.shiftl_mul_pow2 b k) by done.
  assert (Hland : Z.land a (Z.shiftl b k) = 0).
  { apply Z.bits_inj'. intros i Hi. rewrite Z.land_spec, Z.bits_0.
    destruct (Z_lt_le_dec i k); [rewrite (Z.shiftl_spec_low b k i) by done; apply andb_false_r|].
    replace a with (a mod 2 ^ k) by (by apply Z.mod_small). by rewrite Z.mod_pow2_bits_high by lia. }
  rewrite <- Z.lxor_lor by done. by rewrite Z.add_nocarry_lxor.
Qed.

Lemma get32_unle buf off :
  bytes_ok buf -> (off + 4 <= length buf)%nat -> get32 buf off = unle (field buf off 4).
Proof.
  intros Hb Hl. unfold get32, field.
  assert (E : take 4 (drop off buf) = [nth (off + 0) buf 0; nth (off + 1) buf 0; nth (off + 2) buf 0; nth (off + 3) buf 0]).
  { apply (nth_ext _ _ 0 0); [rewrite length_take, length_drop; cbn [length]; lia|]. intros n Hn.
    rewrite length_take, length_drop in Hn. rewrite (nth_lookup (take _ _)), lookup_take_lt, lookup_drop by lia.
    rewrite <- nth_lookup. destruct n as [|[|[|[|n]]]]; try lia; reflexivity. }
  rewrite E. cbn [unle].
  assert (Hn : forall k, byte (nth (off + k) buf 0)).
  { intros k. destruct (nth_in_or_default (off + k) buf 0) as [K| ->]; [|unfold byte; lia].
    unfold bytes_ok in Hb. rewrite List.Forall_forall in Hb. by apply Hb. }
  pose proof (Hn 0%nat) as B0. pose proof (Hn 1%nat) as B1. pose proof (Hn 2%nat) as B2. pose proof (Hn 3%nat) as B3.
  unfold byte in *. clear E Hn.
  generalize dependent (nth (off + 0) buf 0). generalize dependent (nth (off + 1) buf 0).
  generalize dependent (nth (off + 2) buf 0). generalize dependent (nth (off + 3) buf 0).
  intros b3 B3 b2 B2 b1 B1 b0 B0.
  assert (S : forall b k, 0 <= b < 256 -> 0 <= k <= 24 -> u32 (Z.shiftl b k) = Z.shiftl b k).
  { intros b k Hb' Hk. apply u32_id. rewrite Z.shiftl_mul_pow2 by lia.
    assert (0 < 2 ^ k <= 2 ^ 24) by (split; [apply Z.pow_pos_nonneg; lia|apply Z.pow_le_mono_r; lia]).
    change (2 ^ 24) with 16777216 in *. nia. }
  rewrite !S by lia.
  rewrite (lor_shift b0 b1 8), (lor_shift (b0 + b1 * 2 ^ 8) b2 16), (lor_shift _ b3 24);
    change (2 ^ 8) with 256; change (2 ^ 16) with 65536; change (2 ^ 24) with 16777216; lia.
Qed.

Lemma unle_app a b : unle (a ++ b) = unle a + 256 ^ zlen a * unle b.
Proof.
  unfold zlen. induction a as [|x a IH]; cbn [app unle length].
  - change (256 ^ Z.of_nat 0) with 1. lia.
  - rewrite IH. rewrite Nat2Z.inj_succ, Z.pow_succ_r by lia. lia.
Qed.

Lemma get64_unle buf off :
  bytes_ok buf -> (off + 8 <= length buf)%nat -> get64 buf off = unle (field buf off 8).
Proof.
  intros Hb Hl. unfold get64. rewrite !get32_unle by (done || lia).
  assert (E : field buf off 8 = field buf off 4 ++ field buf (off + 4) 4).
  { unfold field. rewrite <- drop_drop. rewrite <- (take_drop 4 (drop off buf)) at 1.
    rewrite take_app. rewrite length_take, length_drop. rewrite take_ge by (rewrite length_take, length_drop; lia).
    do 2 f_equal. lia. }
  rewrite E, unle_app.
  assert (L : forall o, (o + 4 <= length buf)%nat -> zlen (field buf o 4) = 4 /\ 0 <= unle (field buf o 4) < 256 ^ 4).
  { intros o Ho. assert (L : zlen (field buf o 4) = 4) by (unfold zlen, field; rewrite length_take, length_drop; lia).
    split; [done|]. replace (256 ^ 4) with (256 ^ zlen (field buf o 4)) by (by rewrite L).
    apply unle_range. unfold field. auto with bytes. }
  destruct (L off ltac:(lia)) as [L1 R1]. destruct (L (off + 4)%nat ltac:(lia)) as [L2 R2].
  rewrite L1. set (x := unle (field buf off 4)) in *. set (y := unle (field buf (off + 4) 4)) in *.
  change (256 ^ 4) with 4294967296 in *. rewrite u64_id by (rewrite Z.shiftl_mul_pow2; lia).
  rewrite lor_shift by lia. lia.
Qed.

(** ** Patched buffers *)

Lemma field_lookup buf off n i :
  field buf off n !! i = if (i <? n)%nat then buf !! (off + i)%nat else None.
Proof.
  unfold field. destruct (i <? n)%nat eqn:E; [apply Nat.ltb_lt in E|apply Nat.ltb_ge in E].
  - by rewrite lookup_take_lt, lookup_drop by lia.
  - by rewrite lookup_take_ge by lia.
Qed.

Lemma put_at_lookup buf off data i :
  (off + length data <= length buf)%nat ->
  put_at buf off data !! i =
  if (off <=? i)%nat && (i <? off + length data)%nat then data !! (i - off)%nat else buf !! i.
Proof.
  intros Hl. unfold put_at. destruct ((off <=? i)%nat && (i <? off + length data)%nat) eqn:E.
  - rewrite lookup_app_r; rewrite length_take; [|lia]. rewrite lookup_app_l by lia. f_equal. lia.
  - destruct (decide (i < off)%nat).
    + rewrite lookup_app_l by (rewrite length_take; lia). by rewrite lookup_take_lt.
    + rewrite lookup_app_r; rewrite length_take; [|lia]. rewrite lookup_app_r by lia. rewrite lookup_drop. f_equal. lia.
Qed.

Lemma put_at_length buf off data :
  (off + length data <= length buf)%nat -> length (put_at buf off data) = length buf.
Proof. intros Hl. unfold put_at. rewrite !length_app, length_take, length_drop. lia. Qed.

Lemma put_at_bytes buf off data : bytes_ok buf -> bytes_ok data -> bytes_ok (put_at buf off data).
Proof. intros Hb Hd. unfold put_at. rewrite !bytes_ok_app. auto with bytes. Qed.

Lemma field_put_same buf off data :
  (off + length data <= length buf)%nat -> field (put_at buf off data) off (length data) = data.
Proof.
  intros Hl. apply list_eq. intros i. rewrite field_lookup, put_at_lookup by done.
  destruct (i <? length data)%nat eqn:E.
  - replace ((off <=? off + i)%nat && (off + i <? off + length data)%nat) with true by lia. f_equal. lia.
  - rewrite lookup_ge_None_2; [done|lia].
Qed.

Lemma field_put_other buf off data o n :
  (off + length data <= length buf)%nat -> (o + n <= off \/ off + length data <= o)%nat ->
  field (put_at buf off data) o n = field buf o n.
Proof.
  intros Hl Hd. apply list_eq. intros i. rewrite !field_lookup. destruct (i <? n)%nat eqn:E; [|done].
  rewrite put_at_lookup by done.
  by replace ((off <=? o + i)%nat && (o + i <? off + length data)%nat) with false by lia.
Qed.

(** Putting back what was there. *)
Lemma put_back buf off data data' :
  (off + length data <= length buf)%nat -> length data = length data' -> field buf off (length data) = data' ->
  put_at (put_at buf off data) off data' = buf.
Proof.
  intros Hl El Ef. apply list_eq. intros i.
  rewrite put_at_lookup by (rewrite put_at_length; lia). rewrite put_at_lookup by done. rewrite <- El.
  destruct ((off <=? i)%nat && (i <? off + length data)%nat) eqn:E; [|done].
  rewrite <- Ef, field_lookup. replace (i - off <? length data)%nat with true by lia. f_equal. lia.
Qed.

(** ** CRC-32 *)

Lemma not32_range x : word 4 (not32 x).
Proof. apply u32_range. Qed.
Lemma crc_range data : word 4 (sx_crc32 data).
Proof. apply not32_range. Qed.

Lemma not32_involutive x : word 4 x -> not32 (not32 x) = x.
Proof.
  unfold word, not32, u32. change (256 ^ Z.of_nat 4) with 4294967296. intros Hx.
  replace (Z.lnot x) with (- x - 1) by (unfold Z.lnot; lia).
  replace (Z.lnot _) with (- ((- x - 1) mod 4294967296) - 1) by (unfold Z.lnot; lia).
  replace ((- x - 1) mod 4294967296) with (4294967295 - x)
    by (apply Z.mod_unique_pos with (-1); lia).
  symmetry. apply Z.mod_unique_pos with (-1); lia.
Qed.

Lemma shiftr_word x k : 0 <= k -> word 4 x -> word 4 (Z.shiftr x k).
Proof.
  unfold word. change (256 ^ Z.of_nat 4) with (2 ^ 32). intros Hk Hx. rewrite Z.shiftr_div_pow2 by done.
  assert (0 < 2 ^ k) by (by apply Z.pow_pos_nonneg). split; [apply Z.div_pos; lia|].
  apply (Z.le_lt_trans _ x); [|lia]. apply Z.div_le_upper_bound; [done|]. nia.
Qed.

Lemma word_log2 x : 0 <= x -> word 4 x <-> Z.log2 x < 32.
Proof.
  intros Hx. unfold word. change (256 ^ Z.of_nat 4) with (2 ^ 32).
  destruct (Z.eq_dec x 0) as [->|]; [done|]. rewrite Z.log2_lt_pow2 by lia. lia.
Qed.
Lemma lxor_word a b : word 4 a -> word 4 b -> word 4 (Z.lxor a b).
Proof.
  intros Ha Hb. pose proof (proj1 Ha). pose proof (proj1 Hb). apply word_log2 in Ha, Hb; try done.
  apply word_log2; [by apply Z.lxor_nonneg|]. pose proof (Z.log2_lxor a b ltac:(done) ltac:(done)). lia.
Qed.
Lemma land_word a b : word 4 a -> word 4 b -> word 4 (Z.land a b).
Proof.
  intros Ha Hb. pose proof (proj1 Ha). pose proof (proj1 Hb). apply word_log2 in Ha, Hb; try done.
  apply word_log2; [apply Z.land_nonneg; by left|]. pose proof (Z.log2_land a b ltac:(done) ltac:(done)). lia.
Qed.

Lemma crc_byte_word crc b : word 4 crc -> byte b -> word 4 (crc_byte crc b).
Proof.
  intros Hc Hb. unfold crc_byte.
  assert (Hw : word 4 b) by (unfold word, byte in *; change (256 ^ Z.of_nat 4) with 4294967296; lia).
  pose proof (lxor_word _ _ Hc Hw) as H0. revert H0. generalize (Z.lxor crc b). generalize 8%nat.
  induction n as [|n IH]; intros x Hx; [done|]. cbn [Nat.iter]. specialize (IH x Hx). unfold crc_bit at 1.
  apply lxor_word; [by apply shiftr_word|]. apply land_word; [done|apply u32_range].
Qed.

Lemma crc_fold_word data : forall crc, bytes_ok data -> word 4 crc -> word 4 (fold_left crc_byte data crc).
Proof.
  induction data as [|b data IH]; intros crc Hb Hc; [done|]. inversion Hb; subst. cbn [fold_left].
  apply IH; [done|]. by apply crc_byte_word.
Qed.

(** ** Entries *)

Definition entry_wf (e : sxdisk_gpt_entry) : Prop :=
  length (type_guid e) = 16%nat /\ bytes_ok (type_guid e) /\
  length (unique_guid e) = 16%nat /\ bytes_ok (unique_guid e) /\
  word 8 (first_lba e) /\ word 8 (last_lba e) /\ word 8 (attributes e) /\
  length (ge_name e) = 36%nat /\ Forall (word 2) (ge_name e).

Lemma enc_name_length units : length (concat (map (le 2) units)) = (2 * length units)%nat.
Proof.
  rewrite (concat_length 2); [by rewrite length_map|]. apply Forall_map, Forall_true. intros u. apply le_length.
Qed.

Lemma enc_entry_length e : entry_wf e -> length (enc_entry e) = 128%nat.
Proof.
  intros (H1 & _ & H3 & _ & _ & _ & _ & H8 & _). unfold enc_entry.
  rewrite !length_app, !le_length, enc_name_length, H1, H3, H8. reflexivity.
Qed.

Lemma concat_bytes {A} (f : A -> list Z) (l : list A) : (forall a, bytes_ok (f a)) -> bytes_ok (concat (map f l)).
Proof.
  intros Hf. induction l as [|a l IH]; [constructor|]. cbn [map concat]. apply bytes_ok_app. by split.
Qed.

Lemma enc_entry_bytes e : entry_wf e -> bytes_ok (enc_entry e).
Proof.
  intros (_ & H2 & _ & H4 & _). unfold enc_entry. rewrite !bytes_ok_app.
  repeat split; try apply le_bytes; try done. apply concat_bytes. intros u. apply le_bytes.
Qed.

Lemma dec_enc_entry e : entry_wf e -> dec_entry (enc_entry e) = e.
Proof.
  intros (H1 & H2 & H3 & H4 & H5 & H6 & H7 & H8 & H9). unfold dec_entry, enc_entry. decode_fields.
  rewrite <- (app_nil_r (concat _)). replace 36%nat with (length (map (le 2) (ge_name e))) by (by rewrite length_map).
  rewrite chunks_concat by (apply Forall_map, Forall_true; intros u; apply le_length).
  rewrite map_map. replace (map (fun x => unle (le 2 x)) (ge_name e)) with (ge_name e); [by destruct e|].
  rewrite <- (map_id (ge_name e)) at 1. apply map_ext_in. intros u Hu. rewrite unle_le.
  rewrite List.Forall_forall in H9. symmetry. apply Z.mod_small, H9, Hu.
Qed.

Lemma enc_entries_length es : Forall entry_wf es -> length (enc_entries es) = (128 * length es)%nat.
Proof.
  intros He. unfold enc_entries. rewrite (concat_length 128); [by rewrite length_map|].
  apply Forall_map. eapply Forall_impl; [done|]. intros e Hwf. by apply enc_entry_length.
Qed.
Lemma enc_entries_bytes es : Forall entry_wf es -> bytes_ok (enc_entries es).
Proof.
  unfold enc_entries. induction 1 as [|e es He Hes IH]; [constructor|]. cbn [map concat].
  apply bytes_ok_app. split; [by apply enc_entry_bytes|done].
Qed.
Lemma dec_enc_entries es : Forall entry_wf es -> length es = 128%nat -> dec_entries (enc_entries es) = es.
Proof.
  intros He Hl. unfold dec_entries, enc_entries. rewrite <- (app_nil_r (concat _)).
  replace (chunks 128 128) with (chunks 128 (length (map enc_entry es))) by (by rewrite length_map, Hl).
  rewrite chunks_concat.
  - rewrite map_map. rewrite <- (map_id es) at 2. apply map_ext_in. intros e Hin. apply dec_enc_entry.
    rewrite List.Forall_forall in He. by apply He.
  - apply Forall_map. eapply Forall_impl; [done|]. intros e Hwf. by apply enc_entry_length.
Qed.

(** ** The header *)

(** The header before its checksum is stored. *)
Definition header_body (g : sxdisk_gpt) (lba alternate entries_lba entries_crc : Z) : list Z :=
  s_efi_part ++ put32 GPT_REVISION ++ put32 GPT_HEADER_SIZE ++ replicate 8 0 ++ put64 lba ++
  put64 alternate ++ put64 (first_usable g) ++ put64 (last_usable g) ++ disk_guid g ++
  put64 entries_lba ++ put32 SXDISK_GPT_ENTRY_COUNT ++ put32 SXDISK_GPT_ENTRY_SIZE ++
  put32 entries_crc ++ replicate 420 0.

Lemma build_header_eq g lba alternate elba ecrc :
  length (disk_guid g) = 16%nat ->
  build_header g lba alternate elba ecrc =
  let body := header_body g lba alternate elba ecrc in
  put_at body 16 (put32 (sx_crc32 (take (Z.to_nat GPT_HEADER_SIZE) body))).
Proof.
  intros Hl. unfold build_header, header_body. generalize dependent (disk_guid g). intros guid Hl.
  do 16 (destruct guid as [|? guid]; [discriminate Hl|]). destruct guid as [|? guid]; [|discriminate Hl].
  clear Hl. cbv zeta. reflexivity.
Qed.
