(* ===== verification/GptDisk.v ===== *)
(** * GUID partition tables on a reliable disk

    What [load_copy] makes of a sector [build_header] wrote, in front of any
    array; the five writes of [sxdisk_gpt_write] as a script; and a device that
    breaks in the middle of a write. *)

From S2P Require Import Prelude Bytes SxfsFormatFacts SxfsCore SxfsDevice SxfsPersist Gpt GptFacts.
Open Scope st_scope.

(** A table this library makes: a full array of entries that fit their fields,
    on a disk large enough. *)
Record gpt_wf (g : sxdisk_gpt) : Prop := {
  gw_count : length (entries g) = 128%nat;
  gw_entries : Forall entry_wf (entries g);
  gw_guid : length (disk_guid g) = 16%nat;
  gw_guid_bytes : bytes_ok (disk_guid g);
  gw_size : SXDISK_MIN_DISK_SECTORS <= disk_sectors g < 2 ^ 63;
  gw_usable : 0 <= first_usable g <= last_usable g;
  gw_last : last_usable g < disk_sectors g }.

Definition array_of (g : sxdisk_gpt) : list Z := enc_entries (entries g).

Lemma array_of_ok g : gpt_wf g -> zlen (array_of g) = 512 * SXDISK_GPT_ARRAY_SECTORS /\ bytes_ok (array_of g).
Proof.
  intros Hg. unfold array_of. split; [|apply enc_entries_bytes, Hg].
  unfold zlen. rewrite enc_entries_length by apply Hg. rewrite (gw_count g Hg). reflexivity.
Qed.

(** The table as [sxdisk_gpt_read] returns it. *)
Definition loaded (g : sxdisk_gpt) (backup : bool) : sxdisk_gpt :=
  mk_gpt (disk_sectors g) (first_usable g) (last_usable g) (disk_guid g) backup (entries g).

(** *** The fields of a header *)

Section header.
Variables (g : sxdisk_gpt) (lba alternate elba ecrc : Z).
Hypothesis Hg : gpt_wf g.
Local Abbreviation body := (header_body g lba alternate elba ecrc).

Lemma body_length : length body = 512%nat.
Proof.
  unfold header_body. rewrite !length_app, !put64_le, !put32_le, !le_length, (gw_guid g Hg), !length_replicate. reflexivity.
Qed.
Lemma body_bytes : bytes_ok body.
Proof.
  unfold header_body. rewrite !put64_le, !put32_le, !bytes_ok_app.
  assert (Hz : forall n, bytes_ok (replicate n 0)) by (intros n; apply bytes_ok_replicate; unfold byte; lia).
  repeat split; try apply le_bytes; try apply Hz; [|apply Hg].
  unfold s_efi_part. repeat constructor; unfold byte; lia.
Qed.

(** Cutting the [n]-byte field behind a prefix of known length. *)
Lemma field_behind pre x post off :
  length pre = off -> field (pre ++ x ++ post) off (length x) = x.
Proof. intros <-. unfold field. by rewrite drop_app_length, take_app_length. Qed.

Lemma body_fields :
  field body 0 8 = s_efi_part /\ field body 12 4 = le 4 GPT_HEADER_SIZE /\ field body 16 4 = le 4 0 /\
  field body 24 8 = le 8 lba /\ field body 40 8 = le 8 (first_usable g) /\
  field body 48 8 = le 8 (last_usable g) /\ field body 56 16 = disk_guid g /\
  field body 72 8 = le 8 elba /\ field body 80 4 = le 4 SXDISK_GPT_ENTRY_COUNT /\
  field body 84 4 = le 4 SXDISK_GPT_ENTRY_SIZE /\ field body 88 4 = le 4 ecrc.
Proof.
  unfold header_body. rewrite <- !put64_le, <- !put32_le. pose proof (gw_guid g Hg) as Hl.
  generalize dependent (disk_guid g). intros guid Hl.
  do 16 (destruct guid as [|? guid]; [discriminate Hl|]). destruct guid as [|? guid]; [|discriminate Hl].
  clear Hl. repeat match goal with |- _ /\ _ => split end; reflexivity.
Qed.
End header.

Lemma get32_field buf off v :
  bytes_ok buf -> (off + 4 <= length buf)%nat -> word 4 v -> field buf off 4 = le 4 v -> get32 buf off = v.
Proof. intros Hb Hl Hv E. rewrite get32_unle by done. rewrite E, unle_le. by apply Z.mod_small. Qed.
Lemma get64_field buf off v :
  bytes_ok buf -> (off + 8 <= length buf)%nat -> word 8 v -> field buf off 8 = le 8 v -> get64 buf off = v.
Proof. intros Hb Hl Hv E. rewrite get64_unle by done. rewrite E, unle_le. by apply Z.mod_small. Qed.

Definition backup_lba (g : sxdisk_gpt) : Z := disk_sectors g - 1 - SXDISK_GPT_ARRAY_SECTORS.

(** The values of the layout, as [lia] sees them. *)
Ltac gpt_layout :=
  assert (SXDISK_GPT_ARRAY_SECTORS = 32) by reflexivity;
  assert (SXDISK_MIN_DISK_SECTORS = 4163) by reflexivity; unfold backup_lba in *.

Section disk.
Context {D : Type} `{ReliableDevice D}.

(** A header of [g] at [lba] in front of the bytes [array]: the table loads
    exactly when the array has the checksum the header carries. *)
Lemma load_copy_spec (d : D) g lba alternate elba array g0 :
  gpt_wf g -> dev_ok d -> dev_size d = disk_sectors g -> 0 <= lba < disk_sectors g ->
  2 <= elba -> elba + SXDISK_GPT_ARRAY_SECTORS <= disk_sectors g ->
  dev_sector d lba = build_header g lba alternate elba (sx_crc32 (array_of g)) ->
  holds d elba SXDISK_GPT_ARRAY_SECTORS array ->
  load_copy d (disk_sectors g) lba g0 =
  if sx_crc32 array =? sx_crc32 (array_of g)
  then (mk_gpt (disk_sectors g) (first_usable g) (last_usable g) (disk_guid g) (from_backup g0)
               (dec_entries array), Ok tt)
  else (with_entries g0 (dec_entries array), Fail SXDISK_ERR_INVALID).
Proof.
  intros Hg Hd Hsz Hlba He1 He2 Hhdr Harr. pose proof Hg as [G1 G2 G3 G4 G5 G6 G7].
  assert (Ha : SXDISK_GPT_ARRAY_SECTORS = 32) by reflexivity.
  set (ecrc := sx_crc32 (array_of g)) in *.
  pose proof (body_length g lba alternate elba ecrc Hg) as Bl.
  pose proof (body_bytes g lba alternate elba ecrc Hg) as Bb.
  destruct (body_fields g lba alternate elba ecrc Hg) as (F1 & F2 & F3 & F4 & F5 & F6 & F7 & F8 & F9 & F10 & F11).
  rewrite build_header_eq in Hhdr by done. cbv zeta in Hhdr.
  set (body := header_body g lba alternate elba ecrc) in *.
  set (hcrc := sx_crc32 (take (Z.to_nat GPT_HEADER_SIZE) body)) in *.
  assert (Hecrc : word 4 ecrc) by apply crc_range. assert (Hhcrc : word 4 hcrc) by apply crc_range.
  clearbody body ecrc.
  assert (P4 : forall v, length (put32 v) = 4%nat) by reflexivity.
  unfold load_copy. rewrite read_one by (done || lia). rewrite Hhdr.
  assert (Hb1 : bytes_ok (put_at body 16 (put32 hcrc))) by (apply put_at_bytes; [done|rewrite put32_le; apply le_bytes]).
  assert (Hl1 : length (put_at body 16 (put32 hcrc)) = 512%nat) by (rewrite put_at_length; rewrite ?P4, ?Bl; lia).
  assert (Hother : forall o n, (o + n <= 16 \/ 20 <= o)%nat ->
            field (put_at body 16 (put32 hcrc)) o n = field body o n)
    by (intros o n Ho; apply field_put_other; rewrite ?P4, ?Bl; lia).
  rewrite (Hother 0 8)%nat by lia. rewrite F1, bool_decide_true by done. cbn [negb].
  rewrite (get32_field _ 12 GPT_HEADER_SIZE);
    [|done|rewrite Hl1; lia|done|rewrite Hother by lia; done].
  change ((GPT_HEADER_SIZE <? GPT_HEADER_SIZE) || (GPT_HEADER_SIZE >? SXDISK_SECTOR_SIZE)) with false. cbv iota.
  rewrite (get32_field _ 16 hcrc);
    [|done|rewrite Hl1; lia|done|].
  2: { rewrite <- put32_le. change 4%nat with (length (put32 hcrc)). apply field_put_same. rewrite P4, Bl. lia. }
  rewrite (put_back body 16 (put32 hcrc) (put32 0));
    [|rewrite P4, Bl; lia|done|rewrite put32_le; exact F3].
  fold hcrc. rewrite Z.eqb_refl.
  assert (W8 : forall v, 0 <= v < disk_sectors g -> word 8 v)
    by (intros v Hv; unfold word; change (256 ^ Z.of_nat 8) with (2 ^ 64); lia).
  rewrite (get64_field body 24 lba) by (rewrite ?Bl; (done || lia || (apply W8; lia))).
  rewrite Z.eqb_refl. cbn [negb orb].
  rewrite (get64_field body 40 (first_usable g)) by (rewrite ?Bl; (done || lia || (apply W8; lia))).
  rewrite (get64_field body 48 (last_usable g)) by (rewrite ?Bl; (done || lia || (apply W8; lia))).
  rewrite (get64_field body 72 elba) by (rewrite ?Bl; (done || lia || (apply W8; lia))).
  rewrite (get32_field body 80 SXDISK_GPT_ENTRY_COUNT) by (rewrite ?Bl; (done || lia)).
  rewrite (get32_field body 84 SXDISK_GPT_ENTRY_SIZE) by (rewrite ?Bl; (done || lia)).
  rewrite (get32_field body 88 ecrc) by (rewrite ?Bl; (done || lia)).
  rewrite !Z.eqb_refl. unfold array_sectors_end. rewrite u64_id by lia.
  match goal with |- context [if ?b then _ else _] => assert (b = false) as -> by lia end.
  assert (Hread : dev_read d elba SXDISK_GPT_ARRAY_SECTORS = Some array).
  { unfold holds in Harr. rewrite Ha in *. change 32 with (Z.of_nat 32) at 1. rewrite read_many by (done || lia).
    by rewrite <- Harr. }
  rewrite Hread, F7. unfold st_bind, st_mod. cbv beta iota.
  destruct (sx_crc32 array =? ecrc); reflexivity.
Qed.

(** *** The two copies *)

Definition copy_at (d : D) (g : sxdisk_gpt) (lba alternate elba : Z) : Prop :=
  dev_sector d lba = build_header g lba alternate elba (sx_crc32 (array_of g)) /\
  holds d elba SXDISK_GPT_ARRAY_SECTORS (array_of g).
Definition primary (d : D) (g : sxdisk_gpt) : Prop := copy_at d g 1 (disk_sectors g - 1) 2.
Definition backup (d : D) (g : sxdisk_gpt) : Prop :=
  copy_at d g (disk_sectors g - 1) 1 (backup_lba g).

Lemma read_primary (d : D) g :
  gpt_wf g -> dev_ok d -> dev_size d = disk_sectors g -> primary d g ->
  sxdisk_gpt_read d (disk_sectors g) = (loaded g false, Ok tt).
Proof.
  intros Hg Hd Hsz [H1 H2]. pose proof Hg as [G1 G2 G3 G4 G5 G6 G7]. gpt_layout.
  unfold sxdisk_gpt_read. case_if; [lia|].
  rewrite (load_copy_spec d g 1 (disk_sectors g - 1) 2 (array_of g)) by (done || lia).
  rewrite Z.eqb_refl. cbv iota beta. unfold loaded. f_equal. f_equal. by apply dec_enc_entries.
Qed.

(** A primary header of one table in front of an array with another checksum:
    the backup is used. *)
Lemma read_backup (d : D) g0 g a :
  gpt_wf g0 -> gpt_wf g -> dev_ok d -> dev_size d = disk_sectors g -> disk_sectors g0 = disk_sectors g ->
  dev_sector d 1 = build_header g0 1 (disk_sectors g0 - 1) 2 (sx_crc32 (array_of g0)) ->
  holds d 2 SXDISK_GPT_ARRAY_SECTORS a -> sx_crc32 a <> sx_crc32 (array_of g0) -> backup d g ->
  sxdisk_gpt_read d (disk_sectors g) = (loaded g true, Ok tt).
Proof.
  intros Hg0 Hg Hd Hsz Eds Hh Ha Hne [H1 H2]. pose proof Hg as [G1 G2 G3 G4 G5 G6 G7]. gpt_layout.
  unfold sxdisk_gpt_read. case_if; [lia|]. rewrite <- Eds at 1.
  rewrite (load_copy_spec d g0 1 (disk_sectors g0 - 1) 2 a) by (done || lia).
  case_if; [lia|]. cbv iota beta.
  rewrite (load_copy_spec d g (disk_sectors g - 1) 1 (disk_sectors g - 1 - SXDISK_GPT_ARRAY_SECTORS) (array_of g))
    by (done || lia).
  rewrite Z.eqb_refl. cbv iota beta. unfold loaded. f_equal. cbn [disk_sectors first_usable last_usable disk_guid entries].
  f_equal. by apply dec_enc_entries.
Qed.

Lemma copy_kept (d d' : D) g lba alternate elba :
  (forall k, k = lba \/ elba <= k < elba + SXDISK_GPT_ARRAY_SECTORS -> dev_sector d' k = dev_sector d k) ->
  copy_at d g lba alternate elba -> copy_at d' g lba alternate elba.
Proof.
  intros Hk [H1 H2]. split; [rewrite Hk by (by left); done|].
  apply (holds_kept d); [|done]. intros k Hin. apply Hk. by right.
Qed.

(** *** The script of writes *)

Definition step : Type := (Z * Z * list Z)%type.
Definition gpt_script (g : sxdisk_gpt) (sector0 : list Z) : list step :=
  let last := disk_sectors g - 1 in
  let crc := sx_crc32 (array_of g) in
  [ (0, 1, protective_mbr sector0 last);
    (backup_lba g, SXDISK_GPT_ARRAY_SECTORS, array_of g);
    (last, 1, build_header g last 1 (backup_lba g) crc);
    (2, SXDISK_GPT_ARRAY_SECTORS, array_of g);
    (1, 1, build_header g 1 last 2 crc) ].

Fixpoint run_script (ws : list step) : st D sxdisk_err unit :=
  match ws with
  | [] => st_ret tt
  | (lba, n, data) :: ws => put_sectors lba n data ;;; run_script ws
  end.

Lemma write_is_script (d : D) g sector0 :
  SXDISK_MIN_DISK_SECTORS <= disk_sectors g -> dev_read d 0 1 = Some sector0 ->
  sxdisk_gpt_write g d = run_script (gpt_script g sector0) d.
Proof.
  intros Hs Hr. unfold sxdisk_gpt_write. case_if; [lia|]. unfold st_bind at 1, st_get. rewrite Hr.
  unfold gpt_script, run_script, array_of, backup_lba. unfold st_bind, st_ret.
  repeat match goal with
  | |- context [put_sectors ?a ?b ?c ?e] => destruct (put_sectors a b c e) as [? [[]|?]]; try reflexivity
  end.
Qed.

(** A device left by an interruption: the steps before it are complete, and of
    the step it fell in each sector is either old or new. *)
Inductive interrupted : list step -> D -> D -> Prop :=
| int_done d : interrupted [] d d
| int_torn lba n data ws d d' :
    dev_ok d' -> dev_size d' = dev_size d ->
    (forall k, dev_sector d' k = dev_sector d k \/
       (lba <= k < lba + n /\ dev_sector d' k = field data (512 * Z.to_nat (k - lba)) 512)) ->
    interrupted ((lba, n, data) :: ws) d d'
| int_next lba n data ws d d1 d' :
    put_sectors lba n data d = (d1, Ok tt) -> interrupted ws d1 d' ->
    interrupted ((lba, n, data) :: ws) d d'.

(** *** A disk that fails

    The disk [fd_dev] carries out the first [fd_left] writes it is sent; of the
    next one, only the sectors [fd_landed] names reach it, and it is reported as
    failed.  After that the disk is gone ([fd_gone], a loss of power) or works
    again (a transient error). *)
Record faulty : Type := mk_faulty {
  fd_dev : D; fd_left : option nat; fd_landed : Z -> bool; fd_gone : bool }.

Definition land_sectors (landed : Z -> bool) (lba : Z) (data : list Z) (is_ : list nat) (d : D) : D :=
  fold_left (fun d i => if landed (lba + Z.of_nat i)
                        then (dev_write d (lba + Z.of_nat i) 1 (field data (512 * i) 512)).1 else d) is_ d.

Definition faulty_write (f : faulty) (lba n : Z) (data : list Z) : faulty * bool :=
  match fd_left f with
  | Some (S k) => let '(d, ok) := dev_write (fd_dev f) lba n data in
                  (mk_faulty d (Some k) (fd_landed f) (fd_gone f), ok)
  | Some O => (mk_faulty (land_sectors (fd_landed f) lba data (seq 0 (Z.to_nat n)) (fd_dev f)) None
                         (fd_landed f) (fd_gone f), false)
  | None => if fd_gone f then (f, false)
            else let '(d, ok) := dev_write (fd_dev f) lba n data in
                 (mk_faulty d None (fd_landed f) (fd_gone f), ok)
  end.
#[export] Instance faulty_device : BlockDevice faulty := {
  dev_read f lba n := if fd_gone f && bool_decide (fd_left f = None) then None else dev_read (fd_dev f) lba n;
  dev_write := faulty_write }.

Lemma land_sectors_spec landed lba data m : forall (is_ : list nat) (d : D),
  dev_ok d -> 0 <= lba -> lba + Z.of_nat m <= dev_size d -> length data = (512 * m)%nat -> bytes_ok data ->
  Forall (fun i => (i < m)%nat) is_ ->
  let d' := land_sectors landed lba data is_ d in
  dev_ok d' /\ dev_size d' = dev_size d /\
  forall k, dev_sector d' k = dev_sector d k \/
    (lba <= k < lba + Z.of_nat m /\ dev_sector d' k = field data (512 * Z.to_nat (k - lba)) 512).
Proof.
  induction is_ as [|i is_ IH]; intros d Hd H1 H2 Hl Hb Hi; cbn zeta.
  { split; [done|]. split; [done|]. intros k. by left. }
  inversion Hi as [|? ? Hlt Hi']; subst. unfold land_sectors. cbn [fold_left].
  change (fold_left _ is_ ?x) with (land_sectors landed lba data is_ x).
  destruct (landed (lba + Z.of_nat i)); [|by apply IH].
  assert (Hf : length (field data (512 * i) 512) = (512 * 1)%nat) by (unfold field; rewrite length_take, length_drop; lia).
  assert (Hfb : bytes_ok (field data (512 * i) 512)) by (unfold field; by apply Forall_take, Forall_drop).
  destruct (dev_write_spec d (lba + Z.of_nat i) 1 _ Hd ltac:(lia) ltac:(lia) Hf Hfb) as (d1 & E & Hd1 & Hz1 & Hk1).
  change (Z.of_nat 1) with 1 in *. rewrite E. cbn [fst].
  destruct (IH d1 Hd1 H1 ltac:(lia) Hl Hb Hi') as (A & B & K). split; [done|]. split; [lia|]. intros k.
  destruct (K k) as [->|[R ->]]; [|by right]. rewrite Hk1.
  destruct ((lba + Z.of_nat i <=? k) && (k <? lba + Z.of_nat i + 1)) eqn:Ek; [|by left].
  right. assert (k = lba + Z.of_nat i) as -> by lia. split; [lia|].
  replace (Z.to_nat (lba + Z.of_nat i - (lba + Z.of_nat i))) with 0%nat by lia. rewrite Nat.mul_0_r, drop_0.
  rewrite take_ge by lia. do 2 f_equal. lia.
Qed.

(** An array whose sectors each come from one of two arrays. *)
Definition mixed (a0 a1 a : list Z) : Prop :=
  forall i, (i < 32)%nat ->
    field a (512 * i) 512 = field a0 (512 * i) 512 \/ field a (512 * i) 512 = field a1 (512 * i) 512.

(** One whole write, in terms of sectors. *)
Lemma put_sectors_spec (d d1 : D) lba n data :
  dev_ok d -> 0 <= lba -> 0 <= n -> lba + n <= dev_size d -> zlen data = 512 * n -> bytes_ok data ->
  put_sectors lba n data d = (d1, Ok tt) ->
  dev_ok d1 /\ dev_size d1 = dev_size d /\ holds d1 lba n data /\
  (forall k, k < lba \/ lba + n <= k -> dev_sector d1 k = dev_sector d k).
Proof.
  intros Hd H1 H2 H3 Hl Hb E. unfold put_sectors in E.
  destruct (dev_write_spec d lba (Z.to_nat n) data Hd H1) as (d' & Ew & Hd' & Es & Ek);
    [lia|unfold zlen in Hl; lia|done|]. rewrite Z2Nat.id in Ew, Ek by lia. rewrite Ew in E. simplify_eq.
  split; [done|]. split; [done|]. split.
  - apply content_pieces; [unfold zlen in Hl; lia|]. intros k Hk. rewrite Ek.
    by replace ((lba <=? k) && (k <? lba + n)) with true by lia.
  - intros k Hk. rewrite Ek. by replace ((lba <=? k) && (k <? lba + n)) with false by lia.
Qed.

Lemma holds_one (d : D) lba data : holds d lba 1 data -> dev_sector d lba = data.
Proof.
  unfold holds. change (Z.to_nat 1) with 1%nat. unfold content, run_lbas. cbn [seq map concat].
  by rewrite app_nil_r, Z.add_0_r.
Qed.
End disk.
Arguments mk_faulty {D} _ _ _ _.
Arguments fd_dev {D} _.
Arguments fd_left {D} _.
Arguments fd_landed {D} _ _.
Arguments fd_gone {D} _.
