(* ===== verification/GptEdit.v ===== *)
(** * GUID partition tables: editing

    Adding and removing partitions keeps a table well formed, with the
    partitions inside the usable area and disjoint; the free ranges reported are
    exactly the aligned ranges that can be used. *)

From S2P Require Import Prelude Bytes SxfsFormatFacts SxfsCore Gpt GptFacts GptDisk.
Open Scope st_scope.

(** ** The invariant of an edited table *)

Definition in_range (e : sxdisk_gpt_entry) (first last : Z) : bool :=
  (first <=? last_lba e) && (first_lba e <=? last).
Definition apart (e e' : sxdisk_gpt_entry) : Prop := last_lba e < first_lba e' \/ last_lba e' < first_lba e.

(** Every partition is inside the usable area and no two share a sector. *)
Definition partitions_ok (g : sxdisk_gpt) : Prop :=
  (forall i, 0 <= i < 128 -> sxdisk_entry_in_use (at_ entry0 (entries g) i) = true ->
     first_usable g <= first_lba (at_ entry0 (entries g) i) <= last_lba (at_ entry0 (entries g) i) /\
     last_lba (at_ entry0 (entries g) i) <= last_usable g) /\
  (forall i j, 0 <= i < 128 -> 0 <= j < 128 -> i <> j ->
     sxdisk_entry_in_use (at_ entry0 (entries g) i) = true ->
     sxdisk_entry_in_use (at_ entry0 (entries g) j) = true ->
     apart (at_ entry0 (entries g) i) (at_ entry0 (entries g) j)).

Lemma zero_guid_is_zero : sxdisk_guid_is_zero zero_guid = true.
Proof. reflexivity. Qed.

Lemma entry0_wf : entry_wf entry0.
Proof.
  unfold entry_wf, entry0, zero_guid. cbn [type_guid unique_guid first_lba last_lba attributes ge_name].
  assert (Hz : bytes_ok (replicate 16 0)) by (apply bytes_ok_replicate; unfold byte; lia).
  repeat split; try done. apply Forall_replicate. done.
Qed.

(** The random callback fills 16 bytes. *)
Definition random_ok (r : option (list Z)) : Prop :=
  match r with Some l => length l = 16%nat /\ bytes_ok l | None => True end.

Lemma new_guid_ok r : random_ok r -> length (new_guid r) = 16%nat /\ bytes_ok (new_guid r).
Proof.
  intros Hr. unfold new_guid. set (out := match r with Some b => b | None => zero_guid end).
  assert (Ho : length out = 16%nat /\ bytes_ok out).
  { unfold out. destruct r; [done|]. split; [done|]. apply bytes_ok_replicate. unfold byte. lia. }
  clearbody out. destruct Ho as [O1 O2]. split; [by rewrite !length_set_at|].
  apply bytes_set_at; [|apply u8_range]. apply bytes_set_at; [done|apply u8_range].
Qed.

Lemma set_name_ok name : bytes_ok name ->
  length (sxdisk_entry_set_name name) = 36%nat /\ Forall (word 2) (sxdisk_entry_set_name name).
Proof.
  intros Hn. unfold sxdisk_entry_set_name. change (Z.to_nat SXDISK_NAME_UNITS) with 36%nat. split.
  - rewrite length_app, length_replicate, length_map, length_take. lia.
  - apply Forall_app. split; [|by apply Forall_replicate]. apply Forall_map.
    eapply Forall_impl; [apply bytes_ok_take, Hn|]. intros c Hc. unfold byte in Hc. simpl. unfold word.
    change (256 ^ Z.of_nat 2) with 65536. case_if; lia.
Qed.

Lemma at_in (es : list sxdisk_gpt_entry) i :
  0 <= i < zlen es -> In (at_ entry0 es i) es.
Proof. intros Hi. unfold at_. case_if; [lia|]. apply nth_In. unfold zlen in Hi. lia. Qed.

Lemma in_at (es : list sxdisk_gpt_entry) e : In e es -> exists i, 0 <= i < zlen es /\ at_ entry0 es i = e.
Proof.
  intros Hin. apply (In_nth _ _ entry0) in Hin as (n & Hn & E). exists (Z.of_nat n).
  unfold zlen, at_. split; [lia|]. case_if; [lia|]. by rewrite Nat2Z.id.
Qed.

(** *** The scan of [sxdisk_gpt_add] *)

Lemma add_scan_none es : forall index slot first last,
  add_scan es index slot first last = None <->
  exists e, In e es /\ sxdisk_entry_in_use e = true /\ in_range e first last = true.
Proof.
  induction es as [|e es IH]; intros index slot first last; cbn [add_scan].
  - split; [done|]. by intros (e & [] & _).
  - destruct (sxdisk_entry_in_use e) eqn:Eu; cbn [negb].
    + destruct (_ && _) eqn:Er.
      * split; [|done]. intros _. exists e. split; [by left|]. by split.
      * rewrite IH. split; intros (x & H1 & H2 & H3); exists x; (split; [|done]).
        -- by right.
        -- destruct H1 as [->|]; [|done]. unfold in_range in H3. congruence.
    + rewrite IH. split; intros (x & H1 & H2 & H3); exists x; (split; [|done]).
      * by right.
      * destruct H1 as [->|]; [congruence|done].
Qed.

(** The slot kept so far, or the first empty entry from here on. *)
Lemma add_scan_some es : forall index slot first last r,
  0 <= index -> index + zlen es <= SXDISK_GPT_ENTRY_COUNT -> add_scan es index slot first last = Some r ->
  if slot =? SXDISK_GPT_ENTRY_COUNT
  then (r = SXDISK_GPT_ENTRY_COUNT /\ Forall (fun e => sxdisk_entry_in_use e = true) es) \/
       (index <= r < index + zlen es /\ sxdisk_entry_in_use (at_ entry0 es (r - index)) = false /\
        forall k, index <= k < r -> sxdisk_entry_in_use (at_ entry0 es (k - index)) = true)
  else r = slot.
Proof.
  assert (H128 : SXDISK_GPT_ENTRY_COUNT = 128) by reflexivity.
  assert (Hcons : forall e l i, 0 < i -> at_ entry0 (e :: l) i = at_ entry0 l (i - 1)).
  { intros e l i Hi. unfold at_. case_if; [lia|]. case_if; [lia|].
    replace (Z.to_nat i) with (S (Z.to_nat (i - 1))) by lia. done. }
  induction es as [|e es IH]; intros index slot first last r Hi Hl Hs; cbn [add_scan] in Hs.
  - simplify_eq. case_if; [|done]. left. split; [lia|constructor].
  - assert (Hz : zlen (e :: es) = zlen es + 1) by (unfold zlen; cbn [length]; lia). rewrite Hz in Hl.
    pose proof (zlen_nonneg es).
    destruct (sxdisk_entry_in_use e) eqn:Eu; cbn [negb] in Hs.
    + destruct (_ && _); [done|]. apply IH in Hs; [|lia..]. case_if; [|done]. destruct Hs as [[E F]|(R1 & R2 & R3)].
      * left. split; [done|]. by constructor.
      * right. rewrite Hz. split; [lia|]. split; [rewrite Hcons by lia; by replace (r - index - 1) with (r - (index + 1)) by lia|].
        intros k Hk. destruct (decide (k = index)) as [->|]; [by replace (index - index) with 0 by lia|].
        rewrite Hcons by lia. replace (k - index - 1) with (k - (index + 1)) by lia. apply R3. lia.
    + apply IH in Hs; [|lia..]. destruct (slot =? SXDISK_GPT_ENTRY_COUNT) eqn:Es.
      * replace (index =? SXDISK_GPT_ENTRY_COUNT) with false in Hs by lia. subst r. right. rewrite Hz.
        split; [lia|]. replace (index - index) with 0 by lia. split; [done|]. intros k Hk. lia.
      * by rewrite Es in Hs.
Qed.

(** *** What an addition does *)

Definition range_last (first count : Z) : Z := u64 (u64 (first + count) - 1).
Definition range_usable (g : sxdisk_gpt) (first count : Z) : Prop :=
  first_usable g <= first /\ first <= range_last first count <= last_usable g.
Definition range_free (g : sxdisk_gpt) (first last : Z) : Prop :=
  forall i, 0 <= i < 128 -> sxdisk_entry_in_use (at_ entry0 (entries g) i) = true ->
    in_range (at_ entry0 (entries g) i) first last = false.

Lemma range_last_id first count : 0 <= first -> 0 < count -> first + count < 2 ^ 64 -> range_last first count = first + count - 1.
Proof. change (2 ^ 64) with 18446744073709551616. intros H1 H2 H3. unfold range_last. rewrite (u64_id (first + count)), u64_id by lia. done. Qed.

Definition new_partition (first count : Z) (type : list Z) (name random : option (list Z)) : sxdisk_gpt_entry :=
  mk_entry type (new_guid random) first (range_last first count) 0
           (match name with Some n => sxdisk_entry_set_name n | None => replicate 36 0 end).

Lemma gpt_add_spec g first count type name random :
  length (entries g) = 128%nat ->
  match sxdisk_gpt_add first count type name random g with
  | (g', Ok n) =>
      1 <= n <= 128 /\ sxdisk_entry_in_use (at_ entry0 (entries g) (n - 1)) = false /\
      (forall k, 0 <= k < n - 1 -> sxdisk_entry_in_use (at_ entry0 (entries g) k) = true) /\
      g' = with_entries g (set_at (entries g) (n - 1) (new_partition first count type name random)) /\
      sxdisk_guid_is_zero type = false /\ count <> 0 /\
      range_usable g first count /\ range_free g first (range_last first count)
  | (g', Fail e) =>
      g' = g /\
      match e with
      | SXDISK_ERR_INVALID => sxdisk_guid_is_zero type = true \/ count = 0
      | SXDISK_ERR_NO_SPACE => ~ (range_usable g first count /\ range_free g first (range_last first count))
      | SXDISK_ERR_FULL => forall k, 0 <= k < 128 -> sxdisk_entry_in_use (at_ entry0 (entries g) k) = true
      | _ => False
      end
  end.
Proof.
  intros Hl. unfold sxdisk_gpt_add. assert (Hz : zlen (entries g) = 128) by (unfold zlen; lia).
  destruct (sxdisk_guid_is_zero type || (count =? 0)) eqn:E1.
  { split; [done|]. apply orb_true_iff in E1 as [E1|E1]; [by left|right; lia]. }
  change (u64 (u64 (first + count) - 1)) with (range_last first count). set (last := range_last first count).
  destruct ((last <? first) || _ || _) eqn:E2.
  { split; [done|]. intros [U _]. unfold range_usable in U. fold last in U. lia. }
  destruct (add_scan (entries g) 0 SXDISK_GPT_ENTRY_COUNT first last) as [slot|] eqn:Es.
  - apply add_scan_some in Es as Hslot; [|lia|unfold SXDISK_GPT_ENTRY_COUNT; lia]. rewrite Z.eqb_refl in Hslot.
    assert (Hfree : range_free g first last).
    { intros i Hi Hu. destruct (in_range _ first last) eqn:Er; [|done]. exfalso.
      assert (Hn : add_scan (entries g) 0 SXDISK_GPT_ENTRY_COUNT first last = None); [|congruence].
      apply add_scan_none. exists (at_ entry0 (entries g) i). split; [apply at_in; lia|]. by split. }
    change SXDISK_GPT_ENTRY_COUNT with 128 in *. destruct Hslot as [[-> Hall]|(R1 & R2 & R3)].
    + split; [done|]. intros k Hk. rewrite List.Forall_forall in Hall. apply Hall, at_in. lia.
    + case_if; [lia|]. replace (slot + 1 - 1) with slot by lia. rewrite Z.sub_0_r in R2.
      apply orb_false_iff in E1 as [E1 E1']. split; [lia|]. split; [done|].
      split; [intros k Hk; specialize (R3 k); rewrite Z.sub_0_r in R3; apply R3; lia|]. split; [done|].
      split; [done|]. split; [lia|]. split; [unfold range_usable; fold last; lia|done].
  - split; [done|]. intros [_ Hfree]. apply add_scan_none in Es as (e & Hin & Hu & Hr).
    apply in_at in Hin as (i & Hi & <-). rewrite (Hfree i) in Hr; [done|lia|done].
Qed.

(** *** Programs of edits *)

Inductive edit :=
| Add (first count : Z) (type : list Z) (name random : option (list Z))
| Remove (number : Z).
Definition exec_edit (g : sxdisk_gpt) (x : edit) : sxdisk_gpt :=
  match x with
  | Add f c t n r => (sxdisk_gpt_add f c t n r g).1
  | Remove n => (sxdisk_gpt_remove n g).1
  end.
(** Arguments of their C types. *)
Definition edit_ok (x : edit) : Prop :=
  match x with
  | Add f c t n r => 0 <= f < 2 ^ 64 /\ 0 <= c < 2 ^ 64 /\ length t = 16%nat /\ bytes_ok t /\
      match n with Some l => bytes_ok l | None => True end /\ random_ok r
  | Remove n => 0 <= n
  end.

Lemma with_entries_wf g es :
  gpt_wf g -> length es = 128%nat -> Forall entry_wf es -> gpt_wf (with_entries g es).
Proof. intros [G1 G2 G3 G4 G5 G6 G7] H1 H2. by split. Qed.

Lemma set_entry_wf g i e : gpt_wf g -> entry_wf e -> gpt_wf (with_entries g (set_at (entries g) i e)).
Proof.
  intros Hg He. apply with_entries_wf; [done|rewrite length_set_at; apply Hg|].
  unfold set_at. case_if; [apply Hg|]. apply Forall_insert; [apply Hg|done].
Qed.

Lemma new_partition_wf f c t n r : edit_ok (Add f c t n r) -> entry_wf (new_partition f c t n r).
Proof.
  intros (H1 & H2 & H3 & H4 & H5 & H6). destruct (new_guid_ok r H6) as [N1 N2].
  unfold entry_wf, new_partition. cbn [type_guid unique_guid first_lba last_lba attributes ge_name].
  assert (W : forall x, 0 <= x < 2 ^ 64 -> word 8 x) by (intros x Hx; exact Hx).
  split; [done|]. split; [done|]. split; [done|]. split; [done|]. split; [by apply W|].
  split; [apply W, u64_range|]. split; [done|]. destruct n as [l|]; [by apply set_name_ok|].
  split; [done|]. by apply Forall_replicate.
Qed.

Lemma at_set_entry g i e j :
  gpt_wf g -> 0 <= i < 128 -> at_ entry0 (set_at (entries g) i e) j = if i =? j then e else at_ entry0 (entries g) j.
Proof. intros Hg Hi. apply at_set_at. unfold zlen. rewrite (gw_count g Hg). lia. Qed.

Lemma edit_keeps g x :
  gpt_wf g -> partitions_ok g -> edit_ok x -> gpt_wf (exec_edit g x) /\ partitions_ok (exec_edit g x).
Proof.
  intros Hg [P1 P2] Hx. destruct x as [f c t n r|n]; cbn [exec_edit].
  - pose proof (gpt_add_spec g f c t n r (gw_count g Hg)) as Hs.
    destruct (sxdisk_gpt_add f c t n r g) as [g' [k|e]]; cbn [fst]; [|by destruct Hs as [-> _]].
    destruct Hs as (S1 & S2 & S3 & -> & S5 & S6 & [U1 U2] & Hfree).
    split; [by apply set_entry_wf, new_partition_wf|].
    assert (Hap : forall j, 0 <= j < 128 -> sxdisk_entry_in_use (at_ entry0 (entries g) j) = true ->
              apart (at_ entry0 (entries g) j) (new_partition f c t n r)).
    { intros j Hj Hu. specialize (Hfree j Hj Hu). unfold in_range, apart in *.
      cbn [first_lba last_lba new_partition] in *. lia. }
    split; cbn [entries with_entries first_usable last_usable].
    + intros i Hi. rewrite at_set_entry by (done || lia). case_if; [|by apply P1].
      intros _. unfold new_partition. cbn [first_lba last_lba]. lia.
    + intros i j Hi Hj Hne. rewrite !at_set_entry by (done || lia).
      repeat case_if; try lia; intros Hu Hv; [|by apply Hap|by apply P2].
      destruct (Hap j Hj Hv) as [?|?]; [by right|by left].
  - unfold sxdisk_gpt_remove. destruct (sxdisk_gpt_entry_at g n) as [e|] eqn:Ee; cbn [fst]; [|done].
    unfold sxdisk_gpt_entry_at in Ee. change SXDISK_GPT_ENTRY_COUNT with 128 in Ee. simpl in Hx.
    destruct ((n =? 0) || (n >? 128)) eqn:En; [done|]. split; [apply set_entry_wf; [done|apply entry0_wf]|].
    assert (H0 : sxdisk_entry_in_use entry0 = false) by reflexivity.
    split; cbn [entries with_entries first_usable last_usable].
    + intros i Hi. rewrite at_set_entry by (done || lia). case_if; [congruence|by apply P1].
    + intros i j Hi Hj Hne. rewrite !at_set_entry by (done || lia). repeat case_if; try congruence. by apply P2.
Qed.

Lemma init_ok sectors random :
  SXDISK_MIN_DISK_SECTORS <= sectors < 2 ^ 63 -> random_ok random ->
  exists g, sxdisk_gpt_init sectors random = Ok g /\ gpt_wf g /\ partitions_ok g /\ disk_sectors g = sectors.
Proof.
  intros Hs Hr. unfold sxdisk_gpt_init. case_if; [lia|]. eexists. split; [reflexivity|].
  assert (SXDISK_MIN_DISK_SECTORS = 4163) by reflexivity. assert (SXDISK_GPT_ARRAY_SECTORS = 32) by reflexivity.
  destruct (new_guid_ok random Hr) as [N1 N2].
  split; [|split; [|done]].
  - split; cbn [entries disk_guid disk_sectors first_usable last_usable]; try done.
    + apply Forall_replicate, entry0_wf.
    + change (array_sectors_end 2) with 34. lia.
    + lia.
  - assert (Hat : forall i, at_ entry0 (replicate 128 entry0) i = entry0).
    { intros i. apply at_replicate. }
    split; cbn [entries]; [intros i _|intros i j _ _ _]; rewrite !Hat; done.
Qed.

(** Editing keeps the table sound: from a fresh table, after any additions
    and removals, the array has 128 entries that fit their fields, every
    partition lies in the usable area and no two partitions share a sector. *)
Theorem gpt_edit_invariant sectors random edits :
  SXDISK_MIN_DISK_SECTORS <= sectors < 2 ^ 63 -> random_ok random -> Forall edit_ok edits ->
  exists g, sxdisk_gpt_init sectors random = Ok g /\
    gpt_wf (fold_left exec_edit edits g) /\ partitions_ok (fold_left exec_edit edits g).
Proof.
  intros Hs Hr He. destruct (init_ok sectors random Hs Hr) as (g & E & Hg & Hp & _). exists g. split; [done|].
  clear E. revert g Hg Hp. induction He as [|x edits Hx Hxs IH]; intros g Hg Hp; [done|]. cbn [fold_left].
  destruct (edit_keeps g x Hg Hp Hx) as [Hg' Hp']. by apply IH.
Qed.

Definition sample_edits : list edit :=
  [Add 2048 4096 sxdisk_type_esp (Some [69; 70; 73]) None; Add 6144 2048 sxdisk_type_sxfs None None; Remove 1].

Lemma sample_edits_ok : Forall edit_ok sample_edits.
Proof.
  assert (B : forall l, forallb (fun b => (0 <=? b) && (b <? 256)) l = true -> bytes_ok l).
  { intros l Hl. apply List.Forall_forall. intros b Hb. rewrite forallb_forall in Hl. specialize (Hl b Hb).
    unfold byte. lia. }
  assert (Hx : forall f c t n, 0 <= f < 2 ^ 64 -> 0 <= c < 2 ^ 64 -> length t = 16%nat ->
            bytes_ok t -> match n with Some l => bytes_ok l | None => True end -> edit_ok (Add f c t n None)).
  { intros. by split. }
  constructor; [apply Hx; [lia|lia|reflexivity|by apply B|by apply B]|].
  constructor; [apply Hx; [lia|lia|reflexivity|by apply B|exact I]|]. constructor; [done|constructor].
Qed.

Lemma gpt_edit_invariant_witness :
  exists g, sxdisk_gpt_init 20480 None = Ok g /\
    gpt_wf (fold_left exec_edit sample_edits g) /\ partitions_ok (fold_left exec_edit sample_edits g).
Proof.
  apply (gpt_edit_invariant 20480 None sample_edits).
  - split; [apply Z.leb_le; reflexivity|reflexivity].
  - exact I.
  - exact sample_edits_ok.
Defined.

(** What [sxdisk_gpt_add] answers: on success the partition goes to the first
    empty entry, its range was inside the usable area and free, and nothing
    else changes; each error means what sxdisk.h says and changes nothing. *)
Theorem gpt_add_outcomes g first count type name random :
  gpt_wf g ->
  match sxdisk_gpt_add first count type name random g with
  | (g', Ok n) =>
      1 <= n <= 128 /\ sxdisk_gpt_entry_at g n = None /\
      (forall k, 1 <= k < n -> sxdisk_gpt_entry_at g k <> None) /\
      (forall k, 1 <= k <= 128 -> k <> n -> sxdisk_gpt_entry_at g' k = sxdisk_gpt_entry_at g k) /\
      sxdisk_gpt_entry_at g' n = Some (new_partition first count type name random) /\
      range_usable g first count /\ range_free g first (range_last first count)
  | (g', Fail e) =>
      g' = g /\
      match e with
      | SXDISK_ERR_INVALID => sxdisk_guid_is_zero type = true \/ count = 0
      | SXDISK_ERR_NO_SPACE => ~ (range_usable g first count /\ range_free g first (range_last first count))
      | SXDISK_ERR_FULL => forall k, 1 <= k <= 128 -> sxdisk_gpt_entry_at g k <> None
      | _ => False
      end
  end.
Proof.
  intros Hg. pose proof (gpt_add_spec g first count type name random (gw_count g Hg)) as Hs.
  assert (Hat : forall x k, 1 <= k <= 128 -> sxdisk_gpt_entry_at x k =
            if sxdisk_entry_in_use (at_ entry0 (entries x) (k - 1)) then Some (at_ entry0 (entries x) (k - 1)) else None).
  { intros x k Hk. unfold sxdisk_gpt_entry_at. change SXDISK_GPT_ENTRY_COUNT with 128. by case_if; [lia|]. }
  destruct (sxdisk_gpt_add first count type name random g) as [g' [n|e]].
  - destruct Hs as (S1 & S2 & S3 & -> & S5 & S6 & S7). split; [done|]. rewrite !Hat by done.
    split; [by rewrite S2|]. split; [intros k Hk; rewrite Hat, S3 by lia; done|]. cbn [entries with_entries].
    rewrite at_set_entry by (done || lia). rewrite Z.eqb_refl. split; [|split; [|done]].
    + intros k Hk Hne. rewrite !Hat by done. cbn [entries with_entries]. rewrite at_set_entry by (done || lia).
      by case_if; [lia|].
    + unfold sxdisk_entry_in_use. cbn [type_guid new_partition]. by rewrite S5.
  - destruct Hs as [-> Hs]. split; [done|]. destruct e; try done. intros k Hk. rewrite Hat by done.
    by rewrite Hs by lia.
Qed.

Definition fresh_gpt : sxdisk_gpt :=
  match sxdisk_gpt_init 20480 None with Ok g => g | Fail _ => gpt0 end.
Lemma fresh_gpt_ok : gpt_wf fresh_gpt /\ partitions_ok fresh_gpt.
Proof.
  destruct (init_ok 20480 None) as (g & E & Hg & Hp & _).
  - split; [apply Z.leb_le; reflexivity|reflexivity].
  - exact I.
  - unfold fresh_gpt. by rewrite E.
Qed.
Lemma fresh_gpt_wf : gpt_wf fresh_gpt.
Proof. apply fresh_gpt_ok. Qed.
Lemma fresh_gpt_partitions : partitions_ok fresh_gpt.
Proof. apply fresh_gpt_ok. Qed.
Lemma fresh_gpt_free first last : range_free fresh_gpt first last.
Proof.
  intros i Hi Hu. exfalso. unfold fresh_gpt in Hu. cbn [entries sxdisk_gpt_init] in Hu.
  change (entries _) with (replicate 128 entry0) in Hu. by rewrite at_replicate in Hu.
Qed.

Lemma gpt_add_outcomes_witness :
  exists g' n, sxdisk_gpt_add 2048 4096 sxdisk_type_esp None None fresh_gpt = (g', Ok n) /\
    sxdisk_gpt_entry_at g' n = Some (new_partition 2048 4096 sxdisk_type_esp None None).
Proof.
  pose proof (gpt_add_outcomes fresh_gpt 2048 4096 sxdisk_type_esp None None fresh_gpt_wf) as H.
  assert (Hok : is_ok (sxdisk_gpt_add 2048 4096 sxdisk_type_esp None None fresh_gpt).2 = true)
    by (vm_compute; reflexivity).
  destruct (sxdisk_gpt_add 2048 4096 sxdisk_type_esp None None fresh_gpt) as [g' [n|e]]; [|discriminate Hok].
  exists g', n. split; [reflexivity|]. apply H.
Defined.
