(* ===== verification/GptFree.v ===== *)
(** * GUID partition tables: the free ranges

    The insertion sort of the used entries, and the scan for the gaps: an
    aligned range of at least one alignment unit is free exactly when it lies
    inside a reported extent. *)

From S2P Require Import Prelude Bytes SxfsFormatFacts SxfsCore Gpt GptFacts GptDisk GptEdit.
From Stdlib Require Import Sorted Permutation.

(** ** The sort *)

Definition lba_le (a b : sxdisk_gpt_entry) : Prop := first_lba a <= first_lba b.

Lemma shift_down_perm e l : Permutation (e :: l) (shift_down e l).
Proof.
  induction l as [|x l IH]; [done|]. cbn [shift_down]. case_if; [|done].
  rewrite perm_swap. by constructor.
Qed.

Lemma shift_down_sorted e l :
  StronglySorted (fun a b => lba_le b a) l -> StronglySorted (fun a b => lba_le b a) (shift_down e l).
Proof.
  unfold lba_le. induction 1 as [|x l Hl IH Hx]; cbn [shift_down]; [repeat constructor|]. case_if.
  - constructor; [done|]. rewrite <- shift_down_perm. constructor; [lia|done].
  - constructor; [by constructor|]. constructor; [lia|]. eapply Forall_impl; [done|]. simpl. intros; lia.
Qed.

Lemma sorted_rev l :
  StronglySorted (fun a b => lba_le b a) l -> StronglySorted lba_le (rev l).
Proof.
  induction 1 as [|x l Hl IH Hx]; [constructor|]. cbn [rev].
  assert (Hall : Forall (fun y => lba_le y x) (rev l)).
  { apply List.Forall_forall. intros y Hy. apply in_rev in Hy. rewrite List.Forall_forall in Hx. by apply Hx. }
  revert IH Hall. generalize (rev l). clear. induction l as [|y l IH]; intros Hs Ha; cbn [app]; [repeat constructor|].
  inversion Hs; subst. inversion Ha; subst. constructor; [by apply IH|]. apply Forall_app. split; [done|by constructor].
Qed.

Lemma sorted_unrev l :
  StronglySorted lba_le l -> StronglySorted (fun a b => lba_le b a) (rev l).
Proof.
  induction 1 as [|x l Hl IH Hx]; [constructor|]. cbn [rev].
  assert (Hall : Forall (fun y => lba_le x y) (rev l)).
  { apply List.Forall_forall. intros y Hy. apply in_rev in Hy. rewrite List.Forall_forall in Hx. by apply Hx. }
  revert IH Hall. generalize (rev l). clear. induction l as [|y l IH]; intros Hs Ha; cbn [app]; [repeat constructor|].
  inversion Hs; subst. inversion Ha; subst. constructor; [by apply IH|]. apply Forall_app. split; [done|by constructor].
Qed.

Lemma sorted_entries_spec g :
  StronglySorted lba_le (sorted_entries g) /\
  Permutation (List.filter sxdisk_entry_in_use (entries g)) (sorted_entries g).
Proof.
  unfold sorted_entries.
  assert (Hgen : forall es out, StronglySorted lba_le out ->
    let r := fold_left (fun out e => if sxdisk_entry_in_use e then rev (shift_down e (rev out)) else out) es out in
    StronglySorted lba_le r /\ Permutation (out ++ List.filter sxdisk_entry_in_use es) r).
  { induction es as [|e es IH]; intros out Hout; cbn [fold_left List.filter].
    - cbv zeta. split; [done|]. by rewrite app_nil_r.
    - destruct (sxdisk_entry_in_use e); [|by apply IH].
      destruct (IH (rev (shift_down e (rev out)))) as [I1 I2]; [by apply sorted_rev, shift_down_sorted, sorted_unrev|].
      split; [done|]. rewrite <- I2. rewrite <- Permutation_rev, <- shift_down_perm, <- Permutation_rev.
      symmetry. apply Permutation_middle. }
  apply (Hgen (entries g) []). constructor.
Qed.

Lemma sorted_entries_in g e : In e (sorted_entries g) <-> In e (entries g) /\ sxdisk_entry_in_use e = true.
Proof.
  destruct (sorted_entries_spec g) as [_ Hp]. split.
  - intros Hin. apply List.filter_In. by rewrite Hp.
  - intros Hin. rewrite <- Hp. by apply List.filter_In.
Qed.

(** ** The gaps *)

Definition inside (x : sxdisk_extent) (s n : Z) : Prop :=
  ex_first_lba x <= s /\ s + n <= ex_first_lba x + ex_sector_count x.
Definition aligned (s : Z) : Prop := s mod SXDISK_ALIGN_SECTORS = 0.

Lemma align_up_spec v :
  0 <= v < 2 ^ 63 + 1 ->
  aligned (align_up v) /\ v <= align_up v < v + SXDISK_ALIGN_SECTORS.
Proof.
  unfold align_up, aligned, SXDISK_ALIGN_SECTORS. intros Hv.
  rewrite (u64_id (v + 2048 - 1)) by lia.
  assert (Hd : v <= (v + 2048 - 1) / 2048 * 2048 < v + 2048).
  { pose proof (Z.div_mod (v + 2048 - 1) 2048 ltac:(lia)) as E.
    pose proof (Z.mod_pos_bound (v + 2048 - 1) 2048 ltac:(lia)). lia. }
  rewrite u64_id by lia. split; [apply Z.mod_mul; lia|done].
Qed.

(** The least aligned value that is not below. *)
Lemma align_up_least v s : 0 <= v < 2 ^ 63 + 1 -> aligned s -> v <= s -> align_up v <= s.
Proof.
  intros Hv Hs Hle. destruct (align_up_spec v Hv) as [Ha Hb]. unfold aligned, SXDISK_ALIGN_SECTORS in *.
  apply Z.mod_divide in Ha as [a Ha], Hs as [b Hs]; try lia.
Qed.

(** The gap before [limit], as [free_loop] tests it. *)
Definition gap (cursor limit : Z) : list sxdisk_extent :=
  if (limit >? align_up cursor) && (limit - align_up cursor >=? SXDISK_ALIGN_SECTORS)
  then [mk_free (align_up cursor) (limit - align_up cursor)] else [].

Lemma gap_spec cursor limit s n :
  0 <= cursor <= 2 ^ 63 -> aligned s -> SXDISK_ALIGN_SECTORS <= n ->
  (cursor <= s /\ s + n <= limit) <-> exists x, In x (gap cursor limit) /\ inside x s n.
Proof.
  intros Hc Hs Hn. destruct (align_up_spec cursor ltac:(lia)) as [Ha Hb]. unfold gap, inside.
  assert (SXDISK_ALIGN_SECTORS = 2048) by reflexivity. split.
  - intros [H1 H2]. pose proof (align_up_least cursor s ltac:(lia) Hs H1).
    case_if; [|lia]. eexists. split; [by left|]. simpl. lia.
  - intros (x & Hin & Hx). case_if_in Hin; [|done]. destruct Hin as [<-|[]]. simpl in Hx. lia.
Qed.

Lemma gap_shape cursor limit x :
  0 <= cursor <= 2 ^ 63 -> In x (gap cursor limit) ->
  aligned (ex_first_lba x) /\ SXDISK_ALIGN_SECTORS <= ex_sector_count x.
Proof.
  intros Hc Hin. unfold gap in Hin. case_if_in Hin; [|done]. destruct Hin as [<-|[]]. simpl.
  split; [apply align_up_spec; lia|lia].
Qed.

Definition in_usable (last : Z) (e : sxdisk_gpt_entry) : Prop := first_lba e <= last + 1 /\ 0 <= last_lba e <= last.

Lemma next_cursor cursor last e :
  0 <= cursor <= 2 ^ 63 -> last < 2 ^ 63 -> in_usable last e ->
  (if u64 (last_lba e + 1) >? cursor then u64 (last_lba e + 1) else cursor) = Z.max cursor (last_lba e + 1) /\
  0 <= Z.max cursor (last_lba e + 1) <= 2 ^ 63.
Proof. intros Hc Hl [_ He]. rewrite u64_id by lia. case_if; lia. Qed.

Lemma free_loop_spec used : forall cursor last s n,
  StronglySorted lba_le used -> 0 <= cursor <= 2 ^ 63 -> 0 <= last < 2 ^ 63 ->
  Forall (in_usable last) used -> aligned s -> SXDISK_ALIGN_SECTORS <= n ->
  (cursor <= s /\ s + n <= last + 1 /\ Forall (fun e => in_range e s (s + n - 1) = false) used) <->
  exists x, In x (free_loop used cursor last) /\ inside x s n.
Proof.
  induction used as [|e used IH]; intros cursor last s n Hsort Hc Hl Hu Hs Hn; cbn [free_loop].
  - rewrite u64_id by lia. fold (gap cursor (last + 1)). rewrite <- gap_spec by done.
    split; [by intros (H1 & H2 & _)|]. intros [H1 H2]. split; [done|]. by split.
  - inversion Hsort as [|? ? Hsort' Hall]; subst. inversion Hu as [|? ? He Hu']; subst.
    destruct (next_cursor cursor last e Hc ltac:(lia) He) as [-> Hc']. fold (gap cursor (first_lba e)).
    assert (Hiff : (exists x, In x (gap cursor (first_lba e) ++ free_loop used (Z.max cursor (last_lba e + 1)) last) /\
                      inside x s n) <->
                   (exists x, In x (gap cursor (first_lba e)) /\ inside x s n) \/
                   (exists x, In x (free_loop used (Z.max cursor (last_lba e + 1)) last) /\ inside x s n))
      by (setoid_rewrite in_app_iff; naive_solver).
    rewrite Hiff, <- gap_spec, <- IH by done. clear Hiff. unfold in_range, in_usable in *.
    assert (SXDISK_ALIGN_SECTORS = 2048) by reflexivity. split.
    + intros (H1 & H2 & H3). inversion H3 as [|? ? He3 H3']; subst.
      destruct (Z_le_gt_dec (s + n) (first_lba e)); [left; lia|]. right. split; [lia|]. by split.
    + intros [[H1 H2]|(H1 & H2 & H3)].
      * split; [done|]. split; [lia|]. constructor; [lia|]. eapply Forall_impl; [exact Hall|].
        unfold lba_le. simpl. intros x Hx. lia.
      * split; [lia|]. split; [done|]. constructor; [lia|done].
Qed.

Lemma free_loop_shape used : forall cursor last x,
  0 <= cursor <= 2 ^ 63 -> 0 <= last < 2 ^ 63 -> Forall (in_usable last) used ->
  In x (free_loop used cursor last) -> aligned (ex_first_lba x) /\ SXDISK_ALIGN_SECTORS <= ex_sector_count x.
Proof.
  induction used as [|e used IH]; intros cursor last x Hc Hl Hu Hin; cbn [free_loop] in Hin.
  - rewrite u64_id in Hin by lia. fold (gap cursor (last + 1)) in Hin. by apply gap_shape in Hin.
  - inversion Hu as [|? ? He Hu']; subst. destruct (next_cursor cursor last e Hc ltac:(lia) He) as [E Hc'].
    rewrite E in Hin. fold (gap cursor (first_lba e)) in Hin. apply in_app_iff in Hin as [Hin|Hin];
      [by apply gap_shape in Hin|by apply IH in Hin].
Qed.

(** C40. The free ranges are exact: an aligned range of at least 1 MiB is free, that
    is inside the usable area and clear of every partition, if and only if it
    lies inside an extent [sxdisk_gpt_free_extents] reports; each extent starts
    aligned and is at least 1 MiB; the return value counts all of them. *)
Theorem gpt_free_extents_exact g s n :
  gpt_wf g -> partitions_ok g -> aligned s -> SXDISK_ALIGN_SECTORS <= n ->
  ((first_usable g <= s /\ s + n <= last_usable g + 1 /\ range_free g s (s + n - 1)) <->
   exists x, In x (sxdisk_gpt_free_extents g (Z.to_nat (sxdisk_gpt_free_extents g 0).2)).1 /\ inside x s n) /\
  (forall x, In x (free_extents g) -> aligned (ex_first_lba x) /\ SXDISK_ALIGN_SECTORS <= ex_sector_count x).
Proof.
  intros Hg [Hp _] Hs Hn. pose proof Hg as [G1 G2 G3 G4 G5 G6 G7].
  assert (Hz : zlen (entries g) = 128) by (unfold zlen; lia).
  assert (Hu : Forall (in_usable (last_usable g)) (sorted_entries g)).
  { apply List.Forall_forall. intros e He. apply sorted_entries_in in He as [Hin Huse].
    apply in_at in Hin as (i & Hi & <-). destruct (Hp i ltac:(lia) Huse). unfold in_usable. lia. }
  unfold sxdisk_gpt_free_extents. cbn [fst snd]. rewrite take_ge by (unfold zlen; lia). unfold free_extents.
  split; [|intros x Hx; apply free_loop_shape in Hx; [done|lia|lia|done]].
  rewrite <- free_loop_spec; [|apply sorted_entries_spec|lia|lia|done|done|done].
  assert (Hfree : range_free g s (s + n - 1) <-> Forall (fun e => in_range e s (s + n - 1) = false) (sorted_entries g)).
  { rewrite List.Forall_forall. split.
    - intros Hf e He. apply sorted_entries_in in He as [Hin Huse]. apply in_at in Hin as (i & Hi & <-). apply Hf; [lia|done].
    - intros Hf i Hi Huse. apply Hf, sorted_entries_in. split; [apply at_in; lia|done]. }
  by rewrite Hfree.
Qed.

Lemma gpt_free_extents_exact_witness :
  exists x, In x (sxdisk_gpt_free_extents fresh_gpt (Z.to_nat (sxdisk_gpt_free_extents fresh_gpt 0).2)).1 /\
            inside x 2048 4096.
Proof.
  apply (gpt_free_extents_exact fresh_gpt 2048 4096).
  - exact fresh_gpt_wf.
  - exact fresh_gpt_partitions.
  - reflexivity.
  - apply Z.leb_le. reflexivity.
  - split; [apply Z.leb_le; reflexivity|]. split; [apply Z.leb_le; vm_compute; reflexivity|].
    exact (fresh_gpt_free 2048 6143).
Defined.
