(* ===== verification/GptLaws.v ===== *)
(** * GUID partition tables: properties

    A written table is read back from either copy; an interrupted write leaves
    the old or the new table; what adding, removing and the list of free ranges
    guarantee; CRC composition and names. *)

From S2P Require Import Prelude Bytes SxfsFormatFacts SxfsCore SxfsDevice SxfsPersist Gpt GptFacts GptDisk GptEdit.
Open Scope st_scope.

Section writes.
Context {D : Type} `{ReliableDevice D}.

Lemma header_sector g lba alternate elba ecrc :
  gpt_wf g -> zlen (build_header g lba alternate elba ecrc) = 512 * 1 /\
              bytes_ok (build_header g lba alternate elba ecrc).
Proof.
  intros Hg. rewrite build_header_eq by apply Hg. cbv zeta.
  pose proof (body_length g lba alternate elba ecrc Hg) as Bl.
  pose proof (body_bytes g lba alternate elba ecrc Hg) as Bb.
  set (x := sx_crc32 _). clearbody x. set (body := header_body _ _ _ _ _) in *. clearbody body. split.
  - unfold zlen. rewrite put_at_length; [by rewrite Bl|]. rewrite Bl. change (length (put32 x)) with 4%nat. lia.
  - apply put_at_bytes; [done|]. rewrite put32_le. apply le_bytes.
Qed.

Lemma put_at_sector s off data :
  sector_bytes s -> (off + length data <= 512)%nat -> bytes_ok data -> sector_bytes (put_at s off data).
Proof. intros [Hl Hb] Ho Hd. split; [rewrite put_at_length; lia|by apply put_at_bytes]. Qed.

Lemma mbr_sector s last : sector_bytes s -> sector_bytes (protective_mbr s last).
Proof.
  intros Hs. unfold protective_mbr. rewrite !put32_le.
  change (Z.to_nat MBR_BOOT_CODE_SIZE) with 440%nat. change (Z.to_nat MBR_TABLE_OFFSET) with 446%nat.
  repeat apply put_at_sector; rewrite ?le_length, ?length_replicate; cbn [length put16]; try lia; try done;
    try apply le_bytes; [apply bytes_ok_replicate; unfold byte; lia|repeat constructor; unfold byte; lia|].
  unfold put16. repeat constructor; apply u8_range.
Qed.



(** Everything the script of a table needs of the device. *)
Definition ready (d : D) (g : sxdisk_gpt) : Prop := gpt_wf g /\ dev_ok d /\ dev_size d = disk_sectors g.

(** One step of the script, as a fact about the device. *)
Lemma step_done (d d1 : D) g lba n data :
  ready d g -> 0 <= lba -> 0 <= n -> lba + n <= disk_sectors g -> zlen data = 512 * n -> bytes_ok data ->
  put_sectors lba n data d = (d1, Ok tt) ->
  ready d1 g /\ holds d1 lba n data /\
  (forall k, k < lba \/ lba + n <= k -> dev_sector d1 k = dev_sector d k).
Proof.
  intros (Hg & Hd & Hsz) H1 H2 H3 Hl Hb E.
  destruct (put_sectors_spec d d1 lba n data Hd H1 H2) as (A & B & C & K); [lia|done..|].
  split; [|by split]. split; [done|]. split; [done|lia].
Qed.

Lemma step_total (d : D) g lba n data :
  ready d g -> 0 <= lba -> 0 <= n -> lba + n <= disk_sectors g -> zlen data = 512 * n -> bytes_ok data ->
  exists d1, put_sectors lba n data d = (d1, Ok tt).
Proof.
  intros (Hg & Hd & Hsz) H1 H2 H3 Hl Hb. unfold put_sectors.
  destruct (dev_write_spec d lba (Z.to_nat n) data Hd H1) as (d' & E & _); [lia|unfold zlen in Hl; lia|done|].
  rewrite Z2Nat.id in E by lia. rewrite E. by exists d'.
Qed.

(** *** Writing [g1] over [g0] *)

Section over.
Variables (g0 g1 : sxdisk_gpt) (s : list Z).
Hypothesis (Hg1 : gpt_wf g1) (Eds : disk_sectors g1 = disk_sectors g0) (Hs : sector_bytes s).





End over.

(** *** The script run to its end *)

Definition step_fits (g : sxdisk_gpt) (w : step) : Prop :=
  let '(lba, n, data) := w in
  0 <= lba /\ 0 <= n /\ lba + n <= disk_sectors g /\ zlen data = 512 * n /\ bytes_ok data.
Definition step_apart (w w' : step) : Prop :=
  let '(lba, n, _) := w in let '(lba', n', _) := w' in lba + n <= lba' \/ lba' + n' <= lba.
Definition step_holds (d : D) (w : step) : Prop := let '(lba, n, data) := w in holds d lba n data.
Definition step_outside (k : Z) (w : step) : Prop := let '(lba, n, _) := w in k < lba \/ lba + n <= k.

(** Steps on disjoint sectors all land. *)
Lemma run_script_spec g ws : forall d : D,
  ready d g -> Forall (step_fits g) ws -> ForallOrdPairs step_apart ws ->
  exists d', run_script ws d = (d', Ok tt) /\ interrupted ws d d' /\ ready d' g /\
    Forall (step_holds d') ws /\
    (forall k, Forall (step_outside k) ws -> dev_sector d' k = dev_sector d k).
Proof.
  induction ws as [|[[lba n] data] ws IH]; intros d Hr Hf Hp.
  { exists d. split; [done|]. split; [constructor|]. by split. }
  inversion Hf as [|? ? F Hf']; subst. destruct F as (F1 & F2 & F3 & F4 & F5). inversion Hp as [|? ? Ha Hp']; subst.
  destruct (step_total d g lba n data Hr F1 F2 F3 F4 F5) as [d1 E1].
  destruct (step_done d d1 g lba n data Hr F1 F2 F3 F4 F5 E1) as (R1 & W1 & K1).
  destruct (IH d1 R1 Hf' Hp') as (d' & E & Hi & R & Hh & Hk). exists d'. cbn [run_script].
  unfold st_bind. rewrite E1. split; [done|]. split; [by eapply int_next|]. split; [done|]. split.
  - constructor; [|done]. apply (holds_kept d1); [|done]. intros k Hin. apply Hk.
    eapply Forall_impl; [exact Ha|]. intros [[l m] x] Hap. unfold step_apart, step_outside in *. lia.
  - intros k Hout. inversion Hout; subst. rewrite Hk by done. apply K1. done.
Qed.


Lemma gpt_script_fits g s :
  gpt_wf g -> sector_bytes s -> Forall (step_fits g) (gpt_script g s) /\ ForallOrdPairs step_apart (gpt_script g s).
Proof.
  intros Hg [M1 M2]. pose proof Hg as [G1 G2 G3 G4 G5 G6 G7]. destruct (array_of_ok g Hg) as [Al Ab].
  destruct (mbr_sector s (disk_sectors g - 1) (conj M1 M2)) as [M3 M4]. gpt_layout.
  unfold gpt_script, backup_lba. split.
  - pose proof (fun lba a e c => proj1 (header_sector g lba a e c Hg)) as HL.
    pose proof (fun lba a e c => proj2 (header_sector g lba a e c Hg)) as HB.
    repeat (apply List.Forall_cons; [unfold step_fits; split; [lia|]; split; [lia|]; split; [lia|];
      split; [apply HL || exact Al || (unfold zlen; lia)|apply HB || exact Ab || exact M4]|]).
    apply List.Forall_nil.
  - repeat (apply FOP_cons; [repeat (apply List.Forall_cons; [unfold step_apart; lia|]); apply List.Forall_nil|]).
    apply FOP_nil.
Qed.

Lemma write_total (d : D) g :
  ready d g -> exists d' s, sector_bytes s /\ dev_read d 0 1 = Some s /\
    sxdisk_gpt_write g d = (d', Ok tt) /\ ready d' g /\ primary d' g /\ backup d' g /\
    (forall k, SXDISK_GPT_ARRAY_SECTORS + 2 <= k < backup_lba g -> dev_sector d' k = dev_sector d k).
Proof.
  intros Hr. pose proof Hr as (Hg & Hd & Hsz). pose proof Hg as [G1 G2 G3 G4 G5 G6 G7]. gpt_layout.
  pose proof (dev_sector_ok d 0 Hd ltac:(lia)) as Hs0. pose proof (read_one d 0 Hd ltac:(lia)) as Hread.
  set (s := dev_sector d 0) in *. destruct (gpt_script_fits g s Hg Hs0) as [Hf Hp].
  destruct (run_script_spec g _ d Hr Hf Hp) as (d' & E & _ & R & Hh & Hk).
  exists d', s. split; [done|]. split; [done|]. split; [rewrite (write_is_script d g s) by (done || lia); done|].
  split; [done|]. unfold gpt_script in Hh.
  repeat match goal with H : Forall _ (_ :: _) |- _ => inversion H; subst; clear H end. simpl in *.
  split; [split; [by apply holds_one|done]|]. split; [split; [by apply holds_one|done]|].
  intros k Hk'. apply Hk. unfold gpt_script, backup_lba. repeat constructor; simpl; lia.
Qed.
End writes.

(** C37. A table written to any reliable disk of its size is read back unchanged,
    from the primary copy and, if the first two sectors and the primary array
    are lost, from the backup; the partitions' sectors are not touched. *)
Theorem gpt_write_read {D : Type} `{ReliableDevice D} (d : D) g :
  gpt_wf g -> dev_ok d -> dev_size d = disk_sectors g ->
  exists d', sxdisk_gpt_write g d = (d', Ok tt) /\
    sxdisk_gpt_read d' (disk_sectors g) = (loaded g false, Ok tt) /\
    (forall k, SXDISK_GPT_ARRAY_SECTORS + 2 <= k < backup_lba g -> dev_sector d' k = dev_sector d k) /\
    (forall d2, dev_ok d2 -> dev_size d2 = dev_size d ->
       (forall k, SXDISK_GPT_ARRAY_SECTORS + 2 <= k -> dev_sector d2 k = dev_sector d' k) ->
       field (dev_sector d2 1) 0 8 <> s_efi_part ->
       sxdisk_gpt_read d2 (disk_sectors g) = (loaded g true, Ok tt)).
Proof.
  intros Hg Hd Hsz. destruct (write_total d g) as (d' & s & _ & _ & E & (_ & Hd' & Hsz') & Hp & Hb & Hk); [done|].
  exists d'. split; [done|]. split; [by apply read_primary|]. split; [done|].
  intros d2 Hd2 Hsz2 Hk2 Hmagic. pose proof Hg as [G1 G2 G3 G4 G5 G6 G7]. gpt_layout.
  assert (Hb2 : backup d2 g).
  { refine (copy_kept d' d2 g _ _ _ _ Hb). intros k Hin. apply Hk2. unfold backup_lba in *. lia. }
  unfold sxdisk_gpt_read. case_if; [lia|]. unfold load_copy at 1. rewrite read_one by (done || lia).
  rewrite bool_decide_false by done. cbn [negb]. unfold st_fail at 1. cbv iota beta. destruct Hb2 as [B1 B2].
  rewrite (load_copy_spec d2 g (disk_sectors g - 1) 1 (backup_lba g) (array_of g)) by (done || (unfold backup_lba in *; lia)).
  rewrite Z.eqb_refl. cbv iota beta. unfold loaded. cbn [disk_sectors first_usable last_usable disk_guid entries].
  unfold array_of. by rewrite (dec_enc_entries (entries g) G2 G1).
Qed.

Definition blank_disk : ram := mk_ram 20480 (fun _ => replicate 512 0).
Lemma blank_disk_ok : dev_ok blank_disk.
Proof. intros k Hk. split; [done|]. apply bytes_ok_replicate. unfold byte. lia. Qed.
Lemma fresh_gpt_size : disk_sectors fresh_gpt = 20480.
Proof. reflexivity. Qed.

Lemma gpt_write_read_witness :
  exists d', sxdisk_gpt_write fresh_gpt blank_disk = (d', Ok tt) /\
             sxdisk_gpt_read d' 20480 = (loaded fresh_gpt false, Ok tt).
Proof.
  destruct (gpt_write_read blank_disk fresh_gpt fresh_gpt_wf blank_disk_ok) as (d' & H1 & H2 & _).
  - reflexivity.
  - exists d'. split; [exact H1|]. rewrite <- fresh_gpt_size. exact H2.
Defined.



(** A second table for the same disk: the first with one partition. *)
Definition one_partition : edit := Add 2048 4096 sxdisk_type_sxfs None None.
Definition second_gpt : sxdisk_gpt := exec_edit fresh_gpt one_partition.
Lemma second_gpt_wf : gpt_wf second_gpt.
Proof.
  apply edit_keeps; [apply fresh_gpt_wf|apply fresh_gpt_partitions|].
  pose proof sample_edits_ok as Hs. inversion Hs as [|? ? _ Hs']; subst. inversion Hs' as [|? ? F _]; subst.
  destruct F as (_ & _ & T1 & T2 & _). split; [lia|]. split; [lia|]. by split.
Qed.
Lemma second_gpt_size : disk_sectors second_gpt = 20480.
Proof. reflexivity. Qed.


(** The promise of a complete copy does not extend to a repair: when the
    primary header is damaged and the table comes from the backup, a write that
    is interrupted before the backup's new header leaves no valid copy at all. *)
Theorem gpt_repair_not_crash_safe {D : Type} `{ReliableDevice D} (d : D) g0 g1 s :
  gpt_wf g0 -> gpt_wf g1 -> dev_ok d -> dev_size d = disk_sectors g0 -> disk_sectors g1 = disk_sectors g0 ->
  backup d g0 -> field (dev_sector d 1) 0 8 <> s_efi_part -> dev_read d 0 1 = Some s ->
  sx_crc32 (array_of g1) <> sx_crc32 (array_of g0) ->
  sxdisk_gpt_read d (disk_sectors g0) = (loaded g0 true, Ok tt) /\
  exists d', interrupted (gpt_script g1 s) d d' /\
             sxdisk_gpt_read d' (disk_sectors g0) = (gpt0, Fail SXDISK_ERR_INVALID).
Proof.
  intros Hg0 Hg1 Hd Hsz Eds Hb Hbad Hread Hcrc. pose proof Hg0 as [G1 G2 G3 G4 G5 G6 G7]. gpt_layout.
  assert (Hload : forall e : D, dev_ok e -> dev_size e = disk_sectors g0 -> dev_sector e 1 = dev_sector d 1 ->
            load_copy e (disk_sectors g0) 1 gpt0 = (gpt0, Fail SXDISK_ERR_INVALID)).
  { intros e He Hez E1. unfold load_copy. rewrite read_one by (done || lia). rewrite E1, bool_decide_false by done. done. }
  assert (Hback : forall (e : D) a, dev_ok e -> dev_size e = disk_sectors g0 ->
            dev_sector e (disk_sectors g0 - 1) = dev_sector d (disk_sectors g0 - 1) ->
            holds e (backup_lba g0) SXDISK_GPT_ARRAY_SECTORS a ->
            load_copy e (disk_sectors g0) (disk_sectors g0 - 1) gpt0 =
            if sx_crc32 a =? sx_crc32 (array_of g0)
            then (mk_gpt (disk_sectors g0) (first_usable g0) (last_usable g0) (disk_guid g0) false (dec_entries a), Ok tt)
            else (with_entries gpt0 (dec_entries a), Fail SXDISK_ERR_INVALID)).
  { intros e a He Hez E1 Ha. destruct Hb as [B1 _].
    rewrite (load_copy_spec e g0 (disk_sectors g0 - 1) 1 (backup_lba g0) a); (done || unfold backup_lba in *; try lia).
    by rewrite E1. }
  assert (Hmin : (disk_sectors g0 <? SXDISK_MIN_DISK_SECTORS) = false) by lia. split.
  - unfold sxdisk_gpt_read. rewrite Hmin, Hload by done. destruct Hb as [B1 B2].
    rewrite (Hback d (array_of g0)) by done. rewrite Z.eqb_refl. cbv iota beta. unfold loaded, array_of.
    by rewrite (dec_enc_entries (entries g0) G2 G1).
  - assert (Hr : ready d g1) by (split; [done|split; [done|lia]]).
    assert (Hs : sector_bytes s) by (rewrite read_one in Hread by (done || lia); simplify_eq; apply dev_sector_ok; [done|lia]).
    destruct (gpt_script_fits g1 s Hg1 Hs) as [Hf Ho]. unfold gpt_script in *.
    inversion Hf as [|? ? F1 Hf']; subst. inversion Hf' as [|? ? F2 _]; subst.
    destruct F1 as (A1 & A2 & A3 & A4 & A5), F2 as (C1 & C2 & C3 & C4 & C5).
    destruct (step_total d g1 _ _ _ Hr A1 A2 A3 A4 A5) as [d1 E1].
    destruct (step_done d d1 g1 _ _ _ Hr A1 A2 A3 A4 A5 E1) as (R1 & _ & K1).
    destruct (step_total d1 g1 _ _ _ R1 C1 C2 C3 C4 C5) as [d2 E2].
    destruct (step_done d1 d2 g1 _ _ _ R1 C1 C2 C3 C4 C5 E2) as ((_ & Hd2 & Hz2) & W2 & K2).
    exists d2. split.
    + eapply int_next; [exact E1|]. eapply int_next; [exact E2|]. apply int_torn; [done|done|]. intros k. by left.
    + assert (Hk : forall k, k = 1 \/ k = disk_sectors g0 - 1 -> dev_sector d2 k = dev_sector d k)
        by (intros k Hk; unfold backup_lba in *; rewrite K2, K1 by lia; done).
      replace (backup_lba g1) with (backup_lba g0) in W2 by (unfold backup_lba; lia).
      unfold sxdisk_gpt_read. rewrite Hmin, Hload by (done || lia || (apply Hk; by left)).
      rewrite (Hback d2 (array_of g1)) by (done || lia || (apply Hk; by right)).
      destruct (sx_crc32 (array_of g1) =? sx_crc32 (array_of g0)) eqn:Ec; [lia|]. done.
Qed.

(** The disk of [fresh_gpt] with its primary header wiped. *)
Definition wiped_disk : ram :=
  mk_ram 20480 (fun k => if k =? 1 then replicate 512 0 else ram_sector (sxdisk_gpt_write fresh_gpt blank_disk).1 k).

Lemma wiped_disk_ok : dev_ok wiped_disk /\ backup wiped_disk fresh_gpt.
Proof.
  destruct (write_total blank_disk fresh_gpt) as (d0 & _ & _ & _ & E & (_ & Hd & Hsz) & _ & Hb & _).
  { split; [exact fresh_gpt_wf|]. split; [exact blank_disk_ok|]. reflexivity. }
  unfold wiped_disk. rewrite E. cbn [fst]. rewrite fresh_gpt_size in Hsz. split.
  - intros k Hk. cbn [ram_sector ram_size] in *. case_if; [|by apply Hd; simpl in Hsz; rewrite Hsz].
    split; [done|]. apply bytes_ok_replicate. unfold byte. lia.
  - refine (copy_kept d0 _ fresh_gpt _ _ _ _ Hb). unfold backup_lba. rewrite fresh_gpt_size. intros k Hk.
    assert (SXDISK_GPT_ARRAY_SECTORS = 32) by reflexivity. cbn [dev_sector ram_reliable ram_sector].
    case_if; [lia|done].
Qed.

Lemma gpt_repair_not_crash_safe_witness :
  sxdisk_gpt_read wiped_disk 20480 = (loaded fresh_gpt true, Ok tt) /\
  exists d', interrupted (gpt_script second_gpt (dev_sector wiped_disk 0)) wiped_disk d' /\
             sxdisk_gpt_read d' 20480 = (gpt0, Fail SXDISK_ERR_INVALID).
Proof.
  rewrite <- fresh_gpt_size.
  apply (gpt_repair_not_crash_safe wiped_disk fresh_gpt second_gpt (dev_sector wiped_disk 0) fresh_gpt_wf second_gpt_wf).
  - apply wiped_disk_ok.
  - reflexivity.
  - by rewrite second_gpt_size, fresh_gpt_size.
  - apply wiped_disk_ok.
  - vm_compute. discriminate.
  - apply read_one; [apply wiped_disk_ok|]. simpl. lia.
  - apply Z.eqb_neq. vm_compute. reflexivity.
Defined.

(** The CRC continues: [sx_crc32_update] over the CRC of [a] and then [b] is
    the CRC of [a] followed by [b], as crc32.h says; the check value of the
    standard is met. *)
Theorem crc32_continues a b :
  bytes_ok a -> sx_crc32_update (sx_crc32 a) b = sx_crc32 (a ++ b) /\
  sx_crc32 [49; 50; 51; 52; 53; 54; 55; 56; 57] = 0xCBF43926.
Proof.
  intros Ha. split; [|vm_compute; reflexivity]. unfold sx_crc32, sx_crc32_update. rewrite fold_left_app.
  rewrite not32_involutive; [done|]. apply crc_fold_word; [done|apply not32_range].
Qed.
Lemma crc32_continues_witness :
  sx_crc32_update (sx_crc32 [49; 50; 51]) [52] = sx_crc32 ([49; 50; 51] ++ [52]) /\
  sx_crc32 [49; 50; 51; 52; 53; 54; 55; 56; 57] = 0xCBF43926.
Proof. apply (crc32_continues [49; 50; 51] [52]). repeat constructor; unfold byte; lia. Defined.

(** *** Names *)

Definition printable (c : Z) : Prop := 0x20 <= c < 0x7f.

Lemma get_name_units name : forall pad room,
  Forall printable name -> (length name <= room)%nat ->
  get_name_loop (name ++ replicate pad 0) room = name.
Proof.
  induction name as [|c name IH]; intros pad room Hp Hl.
  - destruct pad, room; done.
  - inversion Hp as [|? ? Hc Hp']; subst. destruct room as [|room]; [simpl in Hl; lia|]. cbn [app get_name_loop].
    unfold printable in Hc. rewrite IH; [|done|simpl in Hl; lia]. repeat case_if; try done; lia.
Qed.

(** A partition name of up to 36 printable ASCII characters is read back as
    it was set, in the 37 bytes the header asks for. *)
Theorem gpt_name_roundtrip e name :
  Forall printable name -> (length name <= 36)%nat ->
  sxdisk_entry_get_name (mk_entry (type_guid e) (unique_guid e) (first_lba e) (last_lba e) (attributes e)
                                  (sxdisk_entry_set_name name)) 37 = Some name.
Proof.
  intros Hp Hl. unfold sxdisk_entry_get_name, sxdisk_entry_set_name. cbn [ge_name].
  change (Z.to_nat SXDISK_NAME_UNITS) with 36%nat. rewrite take_ge by lia.
  assert (E : map (fun c => if c <? 128 then c else 63) name = name).
  { rewrite <- (map_id name) at 2. apply map_ext_in. intros c Hc. rewrite List.Forall_forall in Hp.
    specialize (Hp c Hc). unfold printable in Hp. case_if; [done|lia]. }
  rewrite E. f_equal. apply get_name_units; [done|lia].
Qed.
Lemma gpt_name_roundtrip_witness :
  sxdisk_entry_get_name (mk_entry zero_guid zero_guid 0 0 0 (sxdisk_entry_set_name [82; 111; 111; 116])) 37 =
  Some [82; 111; 111; 116].
Proof.
  apply (gpt_name_roundtrip entry0 [82; 111; 111; 116]); [repeat constructor; unfold printable; lia|].
  cbn [length]. lia.
Defined.
