(* ===== verification/Shell.v ===== *)
(** * The command line (subsystems/posix/userland/shell_core.c)

    The tokenizer and parser of pipelines, the search of a command, the
    built-ins and the launch of a pipeline with its descriptors.  The parser
    cuts words out of its own copy of the line in place: a word ends at or
    before the character the cursor stands on, so words never overlap what is
    still to be read, and here they are the lists of their characters.  The
    system calls are a parameter, the class [ShellOs]; what the theorems rely
    on of descriptors is the class [FdOs] of ShellLaws. *)

From S2P Require Import Prelude.
From Stdlib Require Ascii.
From Stdlib Require Import String.

Definition SHELL_MAX_STAGES : Z := 8.
Definition SHELL_MAX_ARGS : Z := 16.
Definition SHELL_MAX_LINE : Z := 256.

Record shell_command_stage := mk_stage {
  argv : list (list Z); input_path : option (list Z); stdout_path : option (list Z);
  stderr_path : option (list Z); stdout_append : bool; stderr_append : bool;
  stderr_to_stdout : bool }.
Definition argc (s : shell_command_stage) : Z := zlen (argv s).

Inductive shell_pending_redirect :=
| SHELL_REDIRECT_NONE | SHELL_REDIRECT_STDIN | SHELL_REDIRECT_STDOUT
| SHELL_REDIRECT_STDOUT_APPEND | SHELL_REDIRECT_STDERR | SHELL_REDIRECT_STDERR_APPEND.
#[export] Instance shell_pending_redirect_eq_dec : EqDecision shell_pending_redirect.
Proof. solve_decision. Defined.
#[export] Instance shell_command_stage_eq_dec : EqDecision shell_command_stage.
Proof. solve_decision. Defined.

Definition SP : Z := 32.
Definition TAB : Z := 9.
Definition PIPE : Z := 124.
Definition LESS : Z := 60.
Definition GREATER : Z := 62.
Definition QUOTE1 : Z := 39.
Definition QUOTE2 : Z := 34.
Definition AMP : Z := 38.
Definition ONE : Z := 49.
Definition TWO : Z := 50.

(** The line up to its first newline. *)
Fixpoint shell_trim_newline (line : list Z) : list Z :=
  match line with
  | [] => []
  | c :: t => if (c =? 10) || (c =? 13) then [] else c :: shell_trim_newline t
  end.

Definition shell_is_space (c : Z) : bool := (c =? SP) || (c =? TAB).
Definition shell_is_operator (c : Z) : bool := (c =? PIPE) || (c =? LESS) || (c =? GREATER).

Fixpoint skip_spaces (cs : list Z) : list Z :=
  match cs with
  | c :: t => if shell_is_space c then skip_spaces t else cs
  | [] => []
  end.

(** ** Words *)

(** The result of [shell_parse_word]: no word at the cursor, a quote left open,
    or the word with the delimiter that ended it (0 at the end of the line) and
    the rest of the line. *)
Inductive word_result :=
| NoWord
| OpenQuote
| Word (word : list Z) (delimiter : Z) (rest : list Z).

Fixpoint word_loop (cs : list Z) (quote : Z) (word : list Z) : word_result :=
  match cs with
  | [] => if negb (quote =? 0) then OpenQuote else Word word 0 []
  | current :: t =>
      if negb (quote =? 0) then
        if current =? quote then word_loop t 0 word
        else word_loop t quote (word ++ [current])
      else if (current =? QUOTE1) || (current =? QUOTE2) then word_loop t current word
      else if shell_is_space current || shell_is_operator current
      then Word word current (skip_spaces t)
      else word_loop t 0 (word ++ [current])
  end.

Definition shell_parse_word (cs : list Z) : word_result :=
  match skip_spaces cs with
  | [] => NoWord
  | c :: t => if shell_is_operator c then NoWord else word_loop (c :: t) 0 []
  end.

(** ** Pipelines *)

Definition stage0 : shell_command_stage := mk_stage [] None None None false false false.

(** What a word becomes: the target of a pending redirection, or an argument;
    [None] is the error return. *)
Definition place_word (pending : shell_pending_redirect) (word : list Z) (s : shell_command_stage)
  : option shell_command_stage :=
  match pending with
  | SHELL_REDIRECT_STDIN =>
      Some (mk_stage (argv s) (Some word) (stdout_path s) (stderr_path s) (stdout_append s)
                     (stderr_append s) (stderr_to_stdout s))
  | SHELL_REDIRECT_STDOUT | SHELL_REDIRECT_STDOUT_APPEND =>
      Some (mk_stage (argv s) (input_path s) (Some word) (stderr_path s)
                     (bool_decide (pending = SHELL_REDIRECT_STDOUT_APPEND))
                     (stderr_append s) (stderr_to_stdout s))
  | SHELL_REDIRECT_STDERR | SHELL_REDIRECT_STDERR_APPEND =>
      Some (mk_stage (argv s) (input_path s) (stdout_path s) (Some word) (stdout_append s)
                     (bool_decide (pending = SHELL_REDIRECT_STDERR_APPEND)) (stderr_to_stdout s))
  | SHELL_REDIRECT_NONE =>
      if argc s + 1 >=? SHELL_MAX_ARGS then None
      else Some (mk_stage (argv s ++ [word]) (input_path s) (stdout_path s) (stderr_path s)
                          (stdout_append s) (stderr_append s) (stderr_to_stdout s))
  end.

Definition merge_stderr (s : shell_command_stage) : shell_command_stage :=
  mk_stage (argv s) (input_path s) (stdout_path s) (stderr_path s) (stdout_append s)
           (stderr_append s) true.

(** The redirection that starts at a [>], and what follows its operator. *)
Definition after_greater (cs : list Z) (plain append : shell_pending_redirect)
  : shell_pending_redirect * list Z :=
  match cs with
  | c :: t => if c =? GREATER then (append, t) else (plain, cs)
  | [] => (plain, [])
  end.

(** The main loop: [done] are the stages before the current one [s].  Every turn
    consumes a character, so the length of the line is enough fuel. *)
Fixpoint parse_loop (fuel : nat) (capacity : Z) (cs : list Z) (done : list shell_command_stage)
    (s : shell_command_stage) (pending : shell_pending_redirect) : option (list shell_command_stage) :=
  match fuel with
  | O => None
  | S fuel =>
      let next_stage cs :=
        if bool_decide (pending <> SHELL_REDIRECT_NONE) || (argc s =? 0) || (zlen done + 1 >=? capacity)
        then None
        else parse_loop fuel capacity cs (done ++ [s]) stage0 SHELL_REDIRECT_NONE in
      let redirect r cs :=
        if bool_decide (pending <> SHELL_REDIRECT_NONE) then None
        else parse_loop fuel capacity cs done s r in
      match skip_spaces cs with
      | [] =>
          if bool_decide (pending <> SHELL_REDIRECT_NONE) then None
          else if existsb (fun s => argc s =? 0) (done ++ [s]) then None
          else Some (done ++ [s])
      | c :: t =>
          if c =? PIPE then next_stage t
          else if c =? LESS then redirect SHELL_REDIRECT_STDIN t
          else if c =? GREATER then
            let '(r, t) := after_greater t SHELL_REDIRECT_STDOUT SHELL_REDIRECT_STDOUT_APPEND in
            redirect r t
          else if (c =? ONE) && (at_ 0 t 0 =? GREATER) then
            let '(r, t) := after_greater (tl t) SHELL_REDIRECT_STDOUT SHELL_REDIRECT_STDOUT_APPEND in
            redirect r t
          else if (c =? TWO) && (at_ 0 t 0 =? GREATER) then
            let t := tl t in
            if (at_ 0 t 0 =? AMP) && (at_ 0 t 1 =? ONE) then
              if bool_decide (pending <> SHELL_REDIRECT_NONE) then None
              else parse_loop fuel capacity (tl (tl t)) done (merge_stderr s) pending
            else
              let '(r, t) := after_greater t SHELL_REDIRECT_STDERR SHELL_REDIRECT_STDERR_APPEND in
              redirect r t
          else
            match shell_parse_word (c :: t) with
            | NoWord | OpenQuote => None
            | Word word delimiter rest =>
                match place_word pending word s with
                | None => None
                | Some s =>
                    if delimiter =? PIPE then
                      if (argc s =? 0) || (zlen done + 1 >=? capacity) then None
                      else parse_loop fuel capacity rest (done ++ [s]) stage0 SHELL_REDIRECT_NONE
                    else
                      parse_loop fuel capacity rest done s
                        (if delimiter =? LESS then SHELL_REDIRECT_STDIN
                         else if delimiter =? GREATER then SHELL_REDIRECT_STDOUT
                         else SHELL_REDIRECT_NONE)
                end
            end
      end
  end.

(** [None] is the return value -1; otherwise the stages, as many as returned. *)
Definition shell_parse_pipeline (line : list Z) (capacity : Z) : option (list shell_command_stage) :=
  if capacity <=? 0 then None
  else parse_loop (S (List.length line)) capacity line [] stage0 SHELL_REDIRECT_NONE.

(** ** The system *)

(** [os_spawn path argv None] is [spawn], [Some (in, out, err)] is [spawn_fds]. *)
Class ShellOs (O : Type) := {
  os_open : list Z -> Z -> O -> O * Z;
  os_close : Z -> O -> O;
  os_pipe : O -> O * option (Z * Z);
  os_spawn : list Z -> list (list Z) -> option (Z * Z * Z) -> O -> O * Z;
  os_waitpid : Z -> Z -> O -> O * Z;
  os_emit : Z -> list Z -> O -> O;
  os_clear : O -> O;
  os_mkdir : list Z -> O -> O * Z;
  os_chdir : list Z -> O -> O * Z;
  os_getcwd : Z -> O -> O * option (list Z);
  os_exec : list Z -> list (list Z) -> O -> O * Z }.

Definition SAVANXP_OPEN_READ : Z := 1.
Definition SAVANXP_OPEN_WRITE : Z := 2.
Definition SAVANXP_OPEN_CREATE : Z := 4.
Definition SAVANXP_OPEN_TRUNCATE : Z := 8.
Definition SAVANXP_OPEN_APPEND : Z := 16.

(** The characters of a message. *)
Definition str (s : string) : list Z :=
  map (fun a => Z.of_nat (Ascii.nat_of_ascii a)) (list_ascii_of_string s).
Definition line_of (s : string) : list Z := str s ++ [10].

Section system.
Context {O : Type} `{ShellOs O}.

(** ** Finding a command *)

(** What [shell_copy_path] leaves in a buffer of [capacity] bytes. *)
Definition shell_copy_path (capacity : Z) (prefix suffix : list Z) : list Z :=
  take (Z.to_nat (capacity - 1)) (prefix ++ suffix).

Definition shell_path_exists (path : list Z) (o : O) : O * bool :=
  let '(o, fd) := os_open path SAVANXP_OPEN_READ o in
  if fd <? 0 then (o, false) else (os_close fd o, true).

Definition s_sxe : list Z := [46; 115; 120; 101].
Definition s_bin_dir : list Z := [47; 98; 105; 110; 47].

(** The path in the buffer, and whether it was found. *)
Definition shell_try_command_path (prefix command : list Z) (capacity : Z) (o : O) : O * (list Z * bool) :=
  let length_ := zlen command in
  let path := shell_copy_path capacity prefix command in
  match shell_path_exists path o with
  | (o, true) => (o, (path, true))
  | (o, false) =>
      if (length_ >=? 4) && bool_decide (drop (Z.to_nat (length_ - 4)) command = s_sxe)
      then (o, (path, false))
      else
        let end_ := zlen path in
        if end_ + 4 >=? capacity then (o, (path, false))
        else
          let path := path ++ shell_copy_path (capacity - end_) [] s_sxe in
          let '(o, found) := shell_path_exists path o in (o, (path, found))
  end.

Definition shell_resolve_command_path (command : list Z) (capacity : Z) (o : O) : O * (list Z * bool) :=
  if at_ 0 command 0 =? 47 then shell_try_command_path [] command capacity o
  else
    match shell_try_command_path s_bin_dir command capacity o with
    | (o, (path, true)) => (o, (path, true))
    | (o, (_, false)) => shell_try_command_path s_bin_dir command capacity o
    end.

(** ** Pipelines of processes *)

Definition close_if (b : bool) (fd : Z) (o : O) : O := if b then os_close fd o else o.

(** The status of the last child waited for. *)
Definition shell_wait_for_children (pids : list Z) (o : O) : O * Z :=
  fold_left (fun '(o, status) pid => os_waitpid pid status o) pids (o, 0).

(** The descriptors of a stage: those of the pipe (-1, -1 when it is the last),
    and its three streams. *)
Record stage_fds := mk_fds { pipe0 : Z; pipe1 : Z; fd_in : Z; fd_out : Z; fd_err : Z; prev : Z }.

Definition close_both (f : stage_fds) (o : O) : O :=
  if pipe0 f >=? 0 then os_close (pipe1 f) (os_close (pipe0 f) o) else o.
Definition close_input (f : stage_fds) : O -> O :=
  close_if ((fd_in f >? 2) && negb (fd_in f =? prev f)) (fd_in f).
Definition close_prev (f : stage_fds) : O -> O := close_if (prev f >=? 0) (prev f).

Definition open_flags (append : bool) : Z :=
  Z.lor (Z.lor SAVANXP_OPEN_WRITE SAVANXP_OPEN_CREATE)
        (if append then SAVANXP_OPEN_APPEND else SAVANXP_OPEN_TRUNCATE).

(** Opening the streams of a stage; [inl] is the error return, after its message
    and its cleanup.  [pids] are the children started so far. *)
Definition open_input (s : shell_command_stage) (f : stage_fds) (o : O) : O * option stage_fds :=
  match input_path s with
  | Some p =>
      let o := close_prev f o in
      let '(o, fd) := os_open p SAVANXP_OPEN_READ o in
      if fd <? 0 then (close_both f (os_emit 2 (line_of "sh: input path not found") o), None)
      else (o, Some (mk_fds (pipe0 f) (pipe1 f) fd (fd_out f) (fd_err f) (-1)))
  | None =>
      if prev f >=? 0 then (o, Some (mk_fds (pipe0 f) (pipe1 f) (prev f) (fd_out f) (fd_err f) (prev f)))
      else (o, Some f)
  end.
Definition open_output (s : shell_command_stage) (is_last : bool) (f : stage_fds) (o : O)
  : O * option stage_fds :=
  match stdout_path s with
  | Some p =>
      let '(o, fd) := os_open p (open_flags (stdout_append s)) o in
      if fd <? 0
      then (close_prev f (close_both f (close_input f
              (os_emit 2 (line_of "sh: unable to open output path") o))), None)
      else (o, Some (mk_fds (pipe0 f) (pipe1 f) (fd_in f) fd (fd_err f) (prev f)))
  | None =>
      if negb is_last then (o, Some (mk_fds (pipe0 f) (pipe1 f) (fd_in f) (pipe1 f) (fd_err f) (prev f)))
      else (o, Some f)
  end.
Definition open_error (s : shell_command_stage) (f : stage_fds) (o : O) : O * option stage_fds :=
  match stderr_path s with
  | Some p =>
      let '(o, fd) := os_open p (open_flags (stderr_append s)) o in
      if fd <? 0
      then (close_prev f (close_both f (close_if (fd_out f >? 2) (fd_out f)
              (close_input f (os_emit 2 (line_of "sh: unable to open error path") o)))), None)
      else (o, Some (mk_fds (pipe0 f) (pipe1 f) (fd_in f) (fd_out f) fd (prev f)))
  | None => (o, Some f)
  end.

(** The cleanup when the command is not found or cannot be started. *)
Definition abandon (f : stage_fds) (o : O) : O :=
  let o := os_emit 2 (line_of "sh: command not found") o in
  let o := close_input f o in
  let o := close_if (fd_out f >? 2) (fd_out f) o in
  let o := close_if ((fd_err f >? 2) && negb (fd_err f =? fd_out f)) (fd_err f) o in
  let o := close_if (pipe0 f >=? 0) (pipe0 f) o in
  let o := close_if (pipe1 f >=? 0) (pipe1 f) o in
  close_prev f o.

(** After the process is started. *)
Definition settle (is_last : bool) (f : stage_fds) (o : O) : O * Z :=
  let o := close_prev f o in
  let o := close_if (fd_in f >? 2) (fd_in f) o in
  let o := close_if (fd_out f >? 2) (fd_out f) o in
  let o := close_if ((fd_err f >? 2) && negb (fd_err f =? fd_out f)) (fd_err f) o in
  (o, if is_last then -1 else pipe0 f).

(** One turn of the loop: the process and the read end for the next stage, or
    [None] for the error return. *)
Definition run_stage (stage_count : Z) (is_last : bool) (s : shell_command_stage) (previous_read_fd : Z)
    (o : O) : O * option (Z * Z) :=
  let simple_spawn := (stage_count =? 1) && bool_decide (input_path s = None) &&
                      bool_decide (stdout_path s = None) && bool_decide (stderr_path s = None) in
  match (if is_last then (o, Some (-1, -1)) else os_pipe o) with
  | (o, None) => 
      (close_if (previous_read_fd >=? 0) previous_read_fd (os_emit 2 (line_of "sh: pipe failed") o), None)
  | (o, Some (p0, p1)) =>
      match open_input s (mk_fds p0 p1 0 1 2 previous_read_fd) o with
      | (o, None) => (o, None)
      | (o, Some f) =>
      match open_output s is_last f o with
      | (o, None) => (o, None)
      | (o, Some f) =>
      match open_error s f o with
      | (o, None) => (o, None)
      | (o, Some f) =>
          let f := if stderr_to_stdout s
                   then mk_fds (pipe0 f) (pipe1 f) (fd_in f) (fd_out f) (fd_out f) (prev f) else f in
          match shell_resolve_command_path (hd [] (argv s)) 256 o with
          | (o, (_, false)) => (abandon f o, None)
          | (o, (path, true)) =>
              let '(o, pid) := os_spawn path (argv s)
                 (if simple_spawn then None else Some (fd_in f, fd_out f, fd_err f)) o in
              if pid <? 0 then (abandon f o, None)
              else let '(o, previous) := settle is_last f o in (o, Some (pid, previous))
          end
      end end end
  end.

Fixpoint run_stages (stage_count : Z) (ss : list shell_command_stage) (previous_read_fd : Z)
    (pids : list Z) (o : O) : O * Z :=
  match ss with
  | [] => shell_wait_for_children pids (close_if (previous_read_fd >=? 0) previous_read_fd o)
  | s :: t =>
      match run_stage stage_count (bool_decide (t = [])) s previous_read_fd o with
      | (o, None) => ((shell_wait_for_children pids o).1, -1)
      | (o, Some (pid, previous)) => run_stages stage_count t previous (pids ++ [pid]) o
      end
  end.
Definition shell_execute_pipeline_stdio (stages : list shell_command_stage) (o : O) : O * Z :=
  run_stages (zlen stages) stages (-1) [] o.

(** ** Built-ins *)

Definition shell_builtins : list (list Z) :=
  map str ["help"%string; "clear"%string; "exit"%string; "exec"%string; "which"%string;
           "mkdir"%string; "cd"%string; "pwd"%string].
Definition shell_is_builtin (command : list Z) : bool :=
  existsb (fun b => bool_decide (command = b)) shell_builtins.

Definition shell_print_help (o : O) : O :=
  fold_left (fun o l => os_emit 1 l o)
    [ line_of "SavanXP v0.4.3 shell";
      line_of "Builtins: help clear exit exec which mkdir cd pwd start";
      line_of "Core: sysinfo uname ps ls cat df echo sleep ticker true false";
      line_of "Storage: mkdir mv rm rmdir truncate sync fscheck";
      line_of "Diagnostics: sysinfo fdtest badptr";
      line_of "Network: netinfo ping udptest udpsend udprecv tcpget";
      line_of "Graphics/audio: desktop console gfxdemo gputest keytest mousetest beep";
      line_of "Examples: sysinfo"; line_of "          df"; line_of "          cd /rescue";
      line_of "          pwd";
      str "          echo " ++ [QUOTE2] ++ str "hola mundo" ++ [QUOTE2] ++ line_of " | cat";
      line_of "          cat < /README"; line_of "          echo hola > /out.txt";
      line_of "          cat /missing > /mixed.txt 2>&1"; line_of "          fscheck";
      line_of "          start notepad";
      line_of "          ping 10.0.2.2  (QEMU user-net smoke test)" ] o.

(** What [shell_current_directory] leaves in a buffer of 256 bytes. *)
Definition shell_current_directory (capacity : Z) (o : O) : O * list Z :=
  match os_getcwd capacity o with
  | (o, Some (c :: t)) => (o, c :: t)
  | (o, _) => (o, str "/")
  end.

Inductive shell_execute_mode := SHELL_EXEC_STDIO | SHELL_EXEC_CAPTURE.
#[export] Instance shell_execute_mode_eq_dec : EqDecision shell_execute_mode.
Proof. solve_decision. Defined.
Inductive shell_execute_result :=
| SHELL_EXEC_RESULT_OK | SHELL_EXEC_RESULT_EXIT | SHELL_EXEC_RESULT_ERROR.

(** The state, whether it was a built-in, and [*exit_requested]. *)
Definition shell_run_builtin (s : shell_command_stage) (mode : shell_execute_mode) (o : O)
  : O * (bool * bool) :=
  let named name := bool_decide (hd [] (argv s) = str name) in
  let arg := nth 1 (argv s) [] in
  if argc s =? 0 then (o, (false, false))
  else if named "help"%string then (shell_print_help o, (true, false))
  else if named "clear"%string then (os_clear o, (true, false))
  else if named "exit"%string then (o, (true, true))
  else if named "exec"%string then
    if bool_decide (mode <> SHELL_EXEC_STDIO)
    then (os_emit 2 (line_of "shell: exec is only available on the console shell") o, (true, false))
    else if argc s <? 2 then (os_emit 2 (line_of "sh: exec requires a command") o, (true, false))
    else
      match shell_resolve_command_path arg 256 o with
      | (o, (_, false)) => (os_emit 2 (line_of "sh: command not found") o, (true, false))
      | (o, (path, true)) =>
          let '(o, result) := os_exec path (tl (argv s)) o in
          (if result <? 0 then os_emit 2 (line_of "sh: exec failed") o else o, (true, false))
      end
  else if named "which"%string then
    if argc s <? 2 then (os_emit 2 (line_of "sh: which requires a command") o, (true, false))
    else
      match shell_resolve_command_path arg 256 o with
      | (o, (_, false)) => (os_emit 2 (line_of "sh: command not found") o, (true, false))
      | (o, (path, true)) => (os_emit 1 [10] (os_emit 1 path o), (true, false))
      end
  else if named "mkdir"%string then
    if argc s <? 2 then (os_emit 2 (line_of "sh: mkdir requires a path") o, (true, false))
    else
      let '(o, r) := os_mkdir arg o in
      (if r <? 0 then os_emit 2 (line_of "sh: mkdir failed") o else o, (true, false))
  else if named "cd"%string then
    let '(o, r) := os_chdir (if argc s <? 2 then str "/" else arg) o in
    (if r <? 0 then os_emit 2 (line_of "sh: cd failed") o else o, (true, false))
  else if named "pwd"%string then
    let '(o, cwd) := shell_current_directory 256 o in
    (os_emit 1 [10] (os_emit 1 cwd o), (true, false))
  else (o, (false, false)).

(** [capture] stands for [shell_execute_capture_external]. *)
Definition shell_execute_line (capture : list Z -> O -> O * Z) (line : list Z)
    (mode : shell_execute_mode) (o : O) : O * shell_execute_result :=
  if zlen line + 1 >? SHELL_MAX_LINE
  then (os_emit 2 (line_of "sh: line too long") o, SHELL_EXEC_RESULT_ERROR)
  else
    match shell_parse_pipeline line SHELL_MAX_STAGES with
    | None => (os_emit 2 (line_of "sh: parse error") o, SHELL_EXEC_RESULT_ERROR)
    | Some stages =>
        let first := hd stage0 stages in
        let builtin :=
          if (zlen stages =? 1) && bool_decide (input_path first = None) &&
             bool_decide (stdout_path first = None) && bool_decide (stderr_path first = None) &&
             shell_is_builtin (hd [] (argv first))
          then shell_run_builtin first mode o else (o, (false, false)) in
        match builtin with
        | (o, (true, exit_requested)) =>
            (o, if exit_requested then SHELL_EXEC_RESULT_EXIT else SHELL_EXEC_RESULT_OK)
        | (o, (false, _)) =>
            match mode with
            | SHELL_EXEC_CAPTURE =>
                let '(o, status) := capture line o in
                (o, if status =? 0 then SHELL_EXEC_RESULT_OK else SHELL_EXEC_RESULT_ERROR)
            | SHELL_EXEC_STDIO =>
                let '(o, status) := shell_execute_pipeline_stdio stages o in
                (o, if status <? 0 then SHELL_EXEC_RESULT_ERROR else SHELL_EXEC_RESULT_OK)
            end
        end
    end.
End system.
