(* ===== verification/ShellParse.v ===== *)
(** * The command line: the parser

    The parser ends on every line and answers independently of the fuel of its
    model; what it accepts fits the arrays of the source; a printed pipeline is
    parsed back; and two lines a user would expect to work that it refuses. *)

From S2P Require Import Prelude Shell.
From Stdlib Require Import(notations) String.

(** ** Progress *)

Lemma skip_spaces_length cs : (length (skip_spaces cs) <= length cs)%nat.
Proof. induction cs as [|c cs IH]; [done|]. cbn [skip_spaces]. case_if; cbn [length]; lia. Qed.

Lemma skip_spaces_idem cs : skip_spaces (skip_spaces cs) = skip_spaces cs.
Proof.
  induction cs as [|c cs IH]; [done|]. cbn [skip_spaces]. destruct (shell_is_space c) eqn:E; [done|].
  cbn [skip_spaces]. by rewrite E.
Qed.

Lemma word_loop_rest cs : forall quote word w d rest,
  word_loop cs quote word = Word w d rest -> (length rest <= length cs)%nat.
Proof.
  induction cs as [|c cs IH]; intros quote word w d rest E; cbn [word_loop] in E.
  - case_if_in E; [done|]. simplify_eq. done.
  - cbn [length]. repeat case_if_in E; try (apply IH in E; lia). simplify_eq. pose proof (skip_spaces_length cs). lia.
Qed.

(** A word that does not start with a separator takes at least one character. *)
Lemma word_loop_progress c cs quote word w d rest :
  shell_is_space c = false -> shell_is_operator c = false ->
  word_loop (c :: cs) quote word = Word w d rest -> (length rest <= length cs)%nat.
Proof.
  intros H1 H2 E. cbn [word_loop] in E. rewrite H1, H2 in E.
  repeat case_if_in E; try discriminate; by apply word_loop_rest in E.
Qed.

Lemma parse_word_progress cs w d rest :
  skip_spaces cs = cs -> shell_parse_word cs = Word w d rest -> (length rest < length cs)%nat.
Proof.
  intros Es E. unfold shell_parse_word in E. rewrite Es in E. destruct cs as [|c cs]; [done|].
  destruct (shell_is_operator c) eqn:Eo; [done|]. cbn [skip_spaces] in Es.
  destruct (shell_is_space c) eqn:Esp.
  - exfalso. apply (f_equal (@length Z)) in Es. pose proof (skip_spaces_length cs). cbn [length] in Es. lia.
  - apply word_loop_progress in E; [cbn [length]; lia|done|done].
Qed.

Lemma after_greater_length cs p a : (length (after_greater cs p a).2 <= length cs)%nat.
Proof. unfold after_greater. destruct cs as [|c cs]; [done|]. case_if; cbn [snd length]; lia. Qed.

(** With more fuel than characters the answer does not depend on the fuel. *)
Lemma parse_loop_fuel n : forall cs m m' capacity prior s pending,
  (length cs <= n)%nat -> (n < m)%nat -> (n < m')%nat ->
  parse_loop m capacity cs prior s pending = parse_loop m' capacity cs prior s pending.
Proof.
  induction n as [|n IH]; intros cs m m' capacity prior s pending Hl Hm Hm';
    (destruct m as [|m]; [lia|]); (destruct m' as [|m']; [lia|]); cbn [parse_loop].
  - destruct cs; [done|simpl in Hl; lia].
  - pose proof (skip_spaces_length cs) as Hs. pose proof (skip_spaces_idem cs) as Hi.
    destruct (skip_spaces cs) as [|c t]; [done|]. cbn [length] in Hs.
    assert (Ht : (length (tl t) <= length t)%nat) by (destruct t; simpl; lia).
    assert (Htt : (length (tl (tl (tl t))) <= length t)%nat) by (destruct t as [|? [|? [|? ?]]]; simpl; lia).
    pose proof (after_greater_length t SHELL_REDIRECT_STDOUT SHELL_REDIRECT_STDOUT_APPEND) as H1.
    pose proof (after_greater_length (tl t) SHELL_REDIRECT_STDOUT SHELL_REDIRECT_STDOUT_APPEND) as H2.
    pose proof (after_greater_length (tl t) SHELL_REDIRECT_STDERR SHELL_REDIRECT_STDERR_APPEND) as H3.
    destruct (after_greater t SHELL_REDIRECT_STDOUT SHELL_REDIRECT_STDOUT_APPEND) as [r1 t1].
    destruct (after_greater (tl t) SHELL_REDIRECT_STDOUT SHELL_REDIRECT_STDOUT_APPEND) as [r2 t2].
    destruct (after_greater (tl t) SHELL_REDIRECT_STDERR SHELL_REDIRECT_STDERR_APPEND) as [r3 t3].
    simpl in H1, H2, H3.
    assert (Hw : forall w d rest, shell_parse_word (c :: t) = Word w d rest -> (length rest <= length t)%nat)
      by (intros w d rest Ew; apply parse_word_progress in Ew; [cbn [length] in Ew; lia|done]).
    destruct (shell_parse_word (c :: t)) as [| |w d rest]; [| |specialize (Hw w d rest eq_refl)];
      [| |destruct (place_word pending w s)]; repeat case_if; try reflexivity; apply IH; lia.
Qed.

(** The parser ends on every line: any fuel above the length of the line gives
    the answer of [shell_parse_pipeline], so a refusal is one of the error
    returns of the source and never an exhausted model. *)
Theorem shell_parse_terminates line capacity fuel :
  0 < capacity -> (length line < fuel)%nat ->
  parse_loop fuel capacity line [] stage0 SHELL_REDIRECT_NONE = shell_parse_pipeline line capacity.
Proof.
  intros Hc Hf. unfold shell_parse_pipeline. case_if; [lia|]. by apply (parse_loop_fuel (length line)); [done|done|lia].
Qed.
Lemma shell_parse_terminates_witness :
  parse_loop 100 8 (str "cat < in | wc > out"%string) [] stage0 SHELL_REDIRECT_NONE =
  shell_parse_pipeline (str "cat < in | wc > out"%string) 8.
Proof. apply shell_parse_terminates; [lia|apply Nat.ltb_lt; reflexivity]. Defined.

(** ** Bounds *)

Definition stage_fits (s : shell_command_stage) : Prop := 1 <= argc s <= SHELL_MAX_ARGS - 1.

Lemma place_word_argc p w s s' :
  place_word p w s = Some s' -> argc s <= SHELL_MAX_ARGS - 1 -> argc s' <= SHELL_MAX_ARGS - 1.
Proof.
  intros E Hs. unfold SHELL_MAX_ARGS in *. destruct p; cbn [place_word] in E; try (simplify_eq; exact Hs).
  unfold SHELL_MAX_ARGS in E. destruct (argc s + 1 >=? 16) eqn:Ea; [done|]. simplify_eq.
  unfold argc in *. cbn [argv]. rewrite zlen_snoc. lia.
Qed.

Lemma parse_loop_bounds fuel : forall cs capacity prior s pending r,
  zlen prior + 1 <= capacity -> Forall stage_fits prior -> argc s <= SHELL_MAX_ARGS - 1 ->
  parse_loop fuel capacity cs prior s pending = Some r ->
  1 <= zlen r <= capacity /\ Forall stage_fits r.
Proof.
  induction fuel as [|fuel IH]; intros cs capacity prior s pending r Hd Hf Hs E; [done|].
  pose proof (zlen_nonneg prior) as Hz. pose proof (zlen_nonneg (argv s)) as Ha. fold (argc s) in Ha.
  assert (H16 : SHELL_MAX_ARGS = 16) by done.
  assert (Hnext : forall s' cs' p', argc s' <= SHELL_MAX_ARGS - 1 ->
            parse_loop fuel capacity cs' prior s' p' = Some r -> 1 <= zlen r <= capacity /\ Forall stage_fits r)
    by (intros s' cs' p' Hs' E'; by apply (IH cs' capacity prior s' p')).
  assert (Hpush : forall s' cs', argc s' <= SHELL_MAX_ARGS - 1 -> (argc s' =? 0) || (zlen prior + 1 >=? capacity) = false ->
            parse_loop fuel capacity cs' (prior ++ [s']) stage0 SHELL_REDIRECT_NONE = Some r ->
            1 <= zlen r <= capacity /\ Forall stage_fits r).
  { intros s' cs' Hs' Hc E'. pose proof (zlen_nonneg (argv s')) as Ha'. fold (argc s') in Ha'.
    apply IH in E'; [done|rewrite zlen_snoc; lia| |done].
    apply Forall_app. split; [done|]. constructor; [unfold stage_fits; lia|constructor]. }
  cbn [parse_loop] in E. destruct (skip_spaces cs) as [|c t].
  - case_if_in E; [done|]. destruct (existsb _ _) eqn:Ex; [done|]. simplify_eq. rewrite zlen_snoc. split; [lia|].
    apply Forall_app. split; [done|]. constructor; [|constructor]. unfold stage_fits. split; [|done].
    rewrite existsb_app in Ex. simpl in Ex. lia.
  - destruct (after_greater t _ _) as [r1 t1]. destruct (after_greater (tl t) SHELL_REDIRECT_STDOUT _) as [r2 t2].
    destruct (after_greater (tl t) SHELL_REDIRECT_STDERR _) as [r3 t3].
    destruct (shell_parse_word (c :: t)) as [| |w d rest]; [| |destruct (place_word pending w s) as [s'|] eqn:Ep];
      try (apply place_word_argc in Ep; [|done]); repeat case_if_in E;
      first [ discriminate E | by apply Hnext in E | by apply Hpush in E
            | apply Hpush in E; [done|done|destruct (bool_decide _); [done|assumption]] ].
Qed.

(** Bounds: an accepted line has between one stage and [SHELL_MAX_STAGES], and
    every stage between one argument and [SHELL_MAX_ARGS - 1], so that the
    terminating null of [argv] is inside the array. *)
Theorem shell_parse_bounds line stages :
  shell_parse_pipeline line SHELL_MAX_STAGES = Some stages ->
  1 <= zlen stages <= SHELL_MAX_STAGES /\ Forall stage_fits stages.
Proof.
  unfold shell_parse_pipeline. case_if; [done|]. apply parse_loop_bounds; [done|constructor|done].
Qed.
Lemma shell_parse_bounds_witness :
  1 <= zlen [mk_stage [str "ls"%string; str "-l"%string] None None None false false false] <= SHELL_MAX_STAGES /\
  Forall stage_fits [mk_stage [str "ls"%string; str "-l"%string] None None None false false false].
Proof. apply (shell_parse_bounds (str "ls -l"%string)). vm_compute. reflexivity. Defined.

(** ** Printing *)

Definition quoted (w : list Z) : list Z := QUOTE1 :: w ++ [QUOTE1; SP].
Definition redirect_to (op : list Z) (p : option (list Z)) : list Z :=
  match p with Some w => op ++ SP :: quoted w | None => [] end.
Definition print_stage (s : shell_command_stage) : list Z :=
  concat (map quoted (argv s)) ++ redirect_to [LESS] (input_path s) ++
  redirect_to (if stdout_append s then [GREATER; GREATER] else [GREATER]) (stdout_path s) ++
  redirect_to (if stderr_append s then [TWO; GREATER; GREATER] else [TWO; GREATER]) (stderr_path s) ++
  (if stderr_to_stdout s then [TWO; GREATER; AMP; ONE; SP] else []).
Fixpoint print_pipeline (p : list shell_command_stage) : list Z :=
  match p with
  | [] => []
  | [s] => print_stage s
  | s :: t => print_stage s ++ PIPE :: SP :: print_pipeline t
  end.

(** A word that single quotes can hold. *)
Definition quotable (w : list Z) : Prop := Forall (fun c => c <> QUOTE1) w.
Definition opt_quotable (p : option (list Z)) : Prop := match p with Some w => quotable w | None => True end.
(** A stage as the parser builds them: an append flag only with its path. *)
Definition stage_wf (s : shell_command_stage) : Prop :=
  stage_fits s /\ Forall quotable (argv s) /\ opt_quotable (input_path s) /\ opt_quotable (stdout_path s) /\
  opt_quotable (stderr_path s) /\ (stdout_path s = None -> stdout_append s = false) /\
  (stderr_path s = None -> stderr_append s = false).

Lemma word_loop_quoted w : forall acc rest,
  quotable w -> word_loop (w ++ QUOTE1 :: SP :: rest) QUOTE1 acc = Word (acc ++ w) SP (skip_spaces rest).
Proof.
  induction w as [|c w IH]; intros acc rest Hq.
  - rewrite app_nil_r. reflexivity.
  - inversion Hq as [|? ? Hc Hq']; subst. cbn [app word_loop]. change (negb (QUOTE1 =? 0)) with true. cbv iota.
    case_if; [lia|]. rewrite IH by done. by rewrite <- app_assoc.
Qed.

Lemma parse_word_quoted w rest :
  quotable w -> shell_parse_word (quoted w ++ rest) = Word w SP (skip_spaces rest).
Proof.
  intros Hq. unfold quoted, shell_parse_word. rewrite <- app_comm_cons, <- app_assoc. cbn [skip_spaces app].
  change (shell_is_space QUOTE1) with false. change (shell_is_operator QUOTE1) with false. cbv iota.
  cbn [word_loop]. change (negb (0 =? 0)) with false. change ((QUOTE1 =? QUOTE1) || (QUOTE1 =? QUOTE2)) with true.
  cbv iota. by rewrite word_loop_quoted.
Qed.

Lemma parse_loop_skip fuel capacity cs prior s p :
  parse_loop fuel capacity (skip_spaces cs) prior s p = parse_loop fuel capacity cs prior s p.
Proof. destruct fuel; [done|]. cbn [parse_loop]. by rewrite skip_spaces_idem. Qed.

(** A quoted word, with or without a pending redirection. *)
Lemma parse_quoted fuel capacity w rest prior s p s' :
  quotable w -> place_word p w s = Some s' ->
  parse_loop (S fuel) capacity (quoted w ++ rest) prior s p =
  parse_loop fuel capacity rest prior s' SHELL_REDIRECT_NONE.
Proof.
  intros Hq Hp. cbn [parse_loop].
  change (skip_spaces (quoted w ++ rest)) with (quoted w ++ rest). unfold quoted at 1. cbn [app].
  change (QUOTE1 =? PIPE) with false. change (QUOTE1 =? LESS) with false. change (QUOTE1 =? GREATER) with false.
  change (QUOTE1 =? ONE) with false. change (QUOTE1 =? TWO) with false. cbn [andb].
  change (QUOTE1 :: (w ++ [QUOTE1; SP]) ++ rest) with (quoted w ++ rest).
  rewrite parse_word_quoted, Hp by done. change (SP =? PIPE) with false. change (SP =? LESS) with false.
  change (SP =? GREATER) with false. cbv iota. apply parse_loop_skip.
Qed.

(** The operators, each followed by a space. *)
Lemma parse_operator fuel capacity rest prior s op r :
  In (op, r) [([LESS], SHELL_REDIRECT_STDIN); ([GREATER], SHELL_REDIRECT_STDOUT);
              ([GREATER; GREATER], SHELL_REDIRECT_STDOUT_APPEND); ([TWO; GREATER], SHELL_REDIRECT_STDERR);
              ([TWO; GREATER; GREATER], SHELL_REDIRECT_STDERR_APPEND)] ->
  parse_loop (S fuel) capacity (op ++ SP :: rest) prior s SHELL_REDIRECT_NONE =
  parse_loop fuel capacity rest prior s r.
Proof.
  intros Hin. rewrite <- (parse_loop_skip fuel capacity rest). 
  change (skip_spaces rest) with (skip_spaces (SP :: rest)). rewrite parse_loop_skip.
  simpl in Hin. destruct Hin as [E|[E|[E|[E|[E|[]]]]]]; simplify_eq; reflexivity.
Qed.

Lemma parse_merge fuel capacity rest prior s :
  parse_loop (S fuel) capacity ([TWO; GREATER; AMP; ONE; SP] ++ rest) prior s SHELL_REDIRECT_NONE =
  parse_loop fuel capacity rest prior (merge_stderr s) SHELL_REDIRECT_NONE.
Proof.
  rewrite <- (parse_loop_skip fuel capacity rest).
  change (skip_spaces rest) with (skip_spaces (SP :: rest)). rewrite parse_loop_skip. reflexivity.
Qed.

Lemma parse_pipe fuel capacity rest prior s :
  argc s <> 0 -> zlen prior + 1 < capacity ->
  parse_loop (S fuel) capacity (PIPE :: SP :: rest) prior s SHELL_REDIRECT_NONE =
  parse_loop fuel capacity rest (prior ++ [s]) stage0 SHELL_REDIRECT_NONE.
Proof.
  intros H1 H2. cbn [parse_loop]. change (skip_spaces (PIPE :: SP :: rest)) with (PIPE :: SP :: rest).
  change (PIPE =? PIPE) with true. cbv iota.
  replace (bool_decide _ || (argc s =? 0) || (zlen prior + 1 >=? capacity)) with false
    by (rewrite bool_decide_false by (intros Hn; by apply Hn); lia).
  rewrite <- (parse_loop_skip fuel capacity rest). change (skip_spaces rest) with (skip_spaces (SP :: rest)).
  by rewrite parse_loop_skip.
Qed.

(** A redirection with its target; nothing when there is none. *)
Lemma parse_target fuel capacity op r p rest prior s s' :
  In (op, r) [([LESS], SHELL_REDIRECT_STDIN); ([GREATER], SHELL_REDIRECT_STDOUT);
              ([GREATER; GREATER], SHELL_REDIRECT_STDOUT_APPEND); ([TWO; GREATER], SHELL_REDIRECT_STDERR);
              ([TWO; GREATER; GREATER], SHELL_REDIRECT_STDERR_APPEND)] ->
  opt_quotable p -> match p with Some w => place_word r w s = Some s' | None => s' = s end ->
  parse_loop (match p with Some _ => 2 | None => 0 end + fuel) capacity (redirect_to op p ++ rest) prior s
             SHELL_REDIRECT_NONE =
  parse_loop fuel capacity rest prior s' SHELL_REDIRECT_NONE.
Proof.
  intros Hop Hq Hp. destruct p as [w|]; cbn [redirect_to Nat.add app]; [|by subst].
  rewrite <- app_assoc, <- app_comm_cons. rewrite (parse_operator _ _ _ _ _ op r) by done. by apply parse_quoted.
Qed.

Definition with_argv (s : shell_command_stage) (l : list (list Z)) : shell_command_stage :=
  mk_stage l (input_path s) (stdout_path s) (stderr_path s) (stdout_append s) (stderr_append s) (stderr_to_stdout s).

Lemma parse_args ws : forall fuel capacity rest prior s,
  Forall quotable ws -> argc s + zlen ws <= SHELL_MAX_ARGS - 1 ->
  parse_loop (length ws + fuel) capacity (concat (map quoted ws) ++ rest) prior s SHELL_REDIRECT_NONE =
  parse_loop fuel capacity rest prior (with_argv s (argv s ++ ws)) SHELL_REDIRECT_NONE.
Proof.
  induction ws as [|w ws IH]; intros fuel capacity rest prior s Hq Ha; cbn [length Nat.add map concat].
  - cbn [app]. rewrite app_nil_r. by destruct s.
  - inversion Hq as [|? ? Hw Hq']; subst. rewrite <- app_assoc.
    assert (Hz : zlen (w :: ws) = zlen ws + 1) by (unfold zlen; cbn [length]; lia). rewrite Hz in Ha.
    pose proof (zlen_nonneg ws). unfold SHELL_MAX_ARGS in Ha.
    rewrite (parse_quoted _ _ w _ _ s _ (with_argv s (argv s ++ [w]))); [|done|].
    + rewrite IH; [|done|unfold argc, with_argv, SHELL_MAX_ARGS in *; cbn [argv]; rewrite zlen_snoc; lia].
      unfold with_argv. cbn [argv input_path stdout_path stderr_path stdout_append stderr_append stderr_to_stdout].
      by rewrite <- app_assoc.
    + cbn [place_word]. unfold SHELL_MAX_ARGS. by case_if; [lia|].
Qed.

Definition stage_cost (s : shell_command_stage) : nat :=
  length (argv s) + match input_path s with Some _ => 2 | None => 0 end +
  match stdout_path s with Some _ => 2 | None => 0 end + match stderr_path s with Some _ => 2 | None => 0 end +
  (if stderr_to_stdout s then 1 else 0).

Lemma parse_stage fuel capacity rest prior s :
  stage_wf s ->
  parse_loop (stage_cost s + fuel) capacity (print_stage s ++ rest) prior stage0 SHELL_REDIRECT_NONE =
  parse_loop fuel capacity rest prior s SHELL_REDIRECT_NONE.
Proof.
  intros (Hf & Hq & Hi & Ho & He & Na & Ne). unfold print_stage, stage_cost. rewrite <- !app_assoc.
  rewrite <- !Nat.add_assoc. rewrite parse_args; [|done|change (argc stage0) with 0; unfold stage_fits, argc in *; lia].
  destruct s as [av ip op ep oa ea m]. cbn [argv input_path stdout_path stderr_path stdout_append stderr_append
    stderr_to_stdout] in *. unfold with_argv, stage0. cbn [argv input_path stdout_path stderr_path stdout_append
    stderr_append stderr_to_stdout app].
  rewrite (parse_target _ _ [LESS] SHELL_REDIRECT_STDIN ip _ _ _ (mk_stage av ip None None false false false));
    [|simpl; tauto|done|by destruct ip].
  rewrite (parse_target _ _ (if oa then [GREATER; GREATER] else [GREATER])
             (if oa then SHELL_REDIRECT_STDOUT_APPEND else SHELL_REDIRECT_STDOUT) op _ _ _
             (mk_stage av ip op None oa false false));
    [|destruct oa; simpl; tauto|done|destruct op, oa; try done; by specialize (Na eq_refl)].
  rewrite (parse_target _ _ (if ea then [TWO; GREATER; GREATER] else [TWO; GREATER])
             (if ea then SHELL_REDIRECT_STDERR_APPEND else SHELL_REDIRECT_STDERR) ep _ _ _
             (mk_stage av ip op ep oa ea false));
    [|destruct ea; simpl; tauto|done|destruct ep, ea; try done; by specialize (Ne eq_refl)].
  destruct m; [|reflexivity]. cbn [Nat.add]. apply parse_merge.
Qed.

Fixpoint pipeline_cost (p : list shell_command_stage) : nat :=
  match p with
  | [] => 0
  | [s] => stage_cost s + 1
  | s :: t => stage_cost s + S (pipeline_cost t)
  end.

Lemma parse_stages p : forall fuel capacity prior,
  p <> [] -> Forall stage_wf p -> Forall stage_fits prior -> zlen prior + zlen p <= capacity ->
  parse_loop (pipeline_cost p + fuel) capacity (print_pipeline p) prior stage0 SHELL_REDIRECT_NONE = Some (prior ++ p).
Proof.
  induction p as [|s p IH]; intros fuel capacity prior Hne Hp Hprior Hc; [done|].
  inversion Hp as [|? ? Hs Hp']; subst. pose proof Hs as (Hf & _). unfold stage_fits in Hf.
  assert (Hz : zlen (s :: p) = zlen p + 1) by (unfold zlen; cbn [length]; lia). rewrite Hz in Hc.
  pose proof (zlen_nonneg p). destruct p as [|s' p].
  - cbn [pipeline_cost print_pipeline]. rewrite <- (app_nil_r (print_stage s)), <- Nat.add_assoc, parse_stage by done.
    cbn [Nat.add parse_loop skip_spaces]. rewrite bool_decide_false by (intros Hn; by apply Hn).
    destruct (existsb _ _) eqn:Ex; [|done]. exfalso. apply existsb_exists in Ex as (x & Hx & Ex).
    apply in_app_iff in Hx as [Hx|[<-|[]]]; [|lia]. rewrite List.Forall_forall in Hprior.
    specialize (Hprior x Hx). unfold stage_fits in Hprior. lia.
  - cbn [print_pipeline]. change (pipeline_cost (s :: s' :: p)) with (stage_cost s + S (pipeline_cost (s' :: p)))%nat.
    rewrite <- Nat.add_assoc, parse_stage by done. cbn [Nat.add].
    assert (Hz' : zlen (s' :: p) = zlen p + 1) by (unfold zlen; cbn [length]; lia). rewrite Hz' in Hc.
    pose proof (zlen_nonneg p). rewrite parse_pipe by lia. rewrite IH; [by rewrite <- app_assoc|done|done| |rewrite zlen_snoc; lia].
    apply Forall_app. split; [done|]. constructor; [done|constructor].
Qed.

(** C38. Round trip: a pipeline of up to [SHELL_MAX_STAGES] stages, whose words single
    quotes can hold, is parsed back exactly from its printed form (every word quoted,
    blanks around the operators), with all its arguments, redirections, append flags and [2>&1]. *)
Theorem shell_parse_print p :
  1 <= zlen p <= SHELL_MAX_STAGES -> Forall stage_wf p ->
  shell_parse_pipeline (print_pipeline p) SHELL_MAX_STAGES = Some p.
Proof.
  intros Hl Hp. unfold shell_parse_pipeline. case_if; [done|]. set (line := print_pipeline p).
  rewrite (parse_loop_fuel (length line) line _ (pipeline_cost p + S (length line))) by lia.
  apply parse_stages; [intros E; rewrite E in Hl; unfold zlen in Hl; cbn [length] in Hl; lia|done|constructor|]. change (zlen []) with 0. lia.
Qed.

Definition sample_pipeline : list shell_command_stage :=
  [mk_stage [str "grep"%string; str "a b|c"%string] (Some (str "in file"%string)) None None false false true;
   mk_stage [str "wc"%string] None (Some (str "out"%string)) (Some (str "log"%string)) true false false].
Lemma shell_parse_print_witness :
  shell_parse_pipeline (print_pipeline sample_pipeline) SHELL_MAX_STAGES = Some sample_pipeline.
Proof.
  apply shell_parse_print; [split; apply Z.leb_le; reflexivity|].
  assert (Hq : forall w, forallb (fun c => negb (c =? QUOTE1)) w = true -> quotable w).
  { intros w Hw. apply List.Forall_forall. intros c Hc. rewrite forallb_forall in Hw. specialize (Hw c Hc). lia. }
  unfold sample_pipeline. repeat constructor; try (apply Z.leb_le; reflexivity); try (by apply Hq); try done.
Defined.

(** Two lines the parser refuses: an append redirection that touches the word
    before it, because the word swallows the first [>] and the second is taken
    for a redirection without a target; and a blank line, although the caller
    has a branch for zero stages. *)
Theorem shell_parse_refuses :
  shell_parse_pipeline (str "echo hola>>out"%string) SHELL_MAX_STAGES = None /\
  shell_parse_pipeline (str "echo hola >>out"%string) SHELL_MAX_STAGES =
    Some [mk_stage [str "echo"%string; str "hola"%string] None (Some (str "out"%string)) None true false false] /\
  shell_parse_pipeline (str "echo hola>out"%string) SHELL_MAX_STAGES =
    Some [mk_stage [str "echo"%string; str "hola"%string] None (Some (str "out"%string)) None false false false] /\
  shell_parse_pipeline (str "   "%string) SHELL_MAX_STAGES = None.
Proof. vm_compute. repeat split. Qed.
