(* ===== verification/ShellRun.v ===== *)
(** * The command line: the descriptors of a pipeline

    On any system whose descriptor calls behave as documented ([FdOs]), the
    shell leaves the descriptors it started with, on success and on every error
    path, for pipelines without the two combinations the code mishandles; for
    those, concrete runs on a small system show what is left open. *)

From S2P Require Import Prelude Shell.
From Stdlib Require Import(notations) String.

(** What the shell relies on: [open] and [pipe] give descriptors that were not in
    use and are not the standard streams, [close] frees one, the other calls
    leave the caller's descriptors alone. *)
Class FdOs (O : Type) `{ShellOs O} := {
  fd_open : O -> Z -> bool;
  os_open_fds : forall p flags o,
    let '(o', fd) := os_open p flags o in
    (fd < 0 /\ forall k, fd_open o' k = fd_open o k) \/
    (2 < fd /\ fd_open o fd = false /\ forall k, fd_open o' k = (k =? fd) || fd_open o k);
  os_close_fds : forall fd o k, fd_open (os_close fd o) k = negb (k =? fd) && fd_open o k;
  os_pipe_fds : forall o,
    match os_pipe o with
    | (o', None) => forall k, fd_open o' k = fd_open o k
    | (o', Some (a, b)) =>
        2 < a /\ 2 < b /\ a <> b /\ fd_open o a = false /\ fd_open o b = false /\
        forall k, fd_open o' k = (k =? a) || (k =? b) || fd_open o k
    end;
  os_spawn_fds : forall p args fds o k, fd_open (os_spawn p args fds o).1 k = fd_open o k;
  os_waitpid_fds : forall pid st o k, fd_open (os_waitpid pid st o).1 k = fd_open o k;
  os_emit_fds : forall fd l o k, fd_open (os_emit fd l o) k = fd_open o k }.

Section balance.
Context {O : Type} `{FdOs O}.
Variable B : Z -> bool.   (* the descriptors open before the pipeline *)

(** The open descriptors are those of [B] and those [S] holds. *)
Definition own (o : O) (S : Z -> bool) : Prop := forall k, fd_open o k = B k || S k.
Definition mine (fd : Z) : Prop := 2 < fd /\ B fd = false.

Lemma own_ext o S S' : own o S -> (forall k, S k = S' k) -> own o S'.
Proof. intros Ho E k. rewrite Ho. by rewrite E. Qed.

Lemma own_emit o S fd l : own o S -> own (os_emit fd l o) S.
Proof. intros Ho k. by rewrite os_emit_fds. Qed.

Lemma own_close_if o S b fd :
  own o S -> (b = true -> mine fd) -> own (close_if b fd o) (fun k => negb (b && (k =? fd)) && S k).
Proof.
  intros Ho Hb k. unfold close_if. destruct b; cbn [andb negb]; [|by rewrite Ho].
  rewrite os_close_fds, Ho. destruct (k =? fd) eqn:E; [|done]. destruct (Hb eq_refl) as [_ Hf].
  replace k with fd by lia. by rewrite Hf.
Qed.

Lemma own_open o S p flags o' fd :
  own o S -> os_open p flags o = (o', fd) ->
  (fd < 0 /\ own o' S) \/ (mine fd /\ S fd = false /\ own o' (fun k => (k =? fd) || S k)).
Proof.
  intros Ho E. pose proof (os_open_fds p flags o) as Hf. rewrite E in Hf. destruct Hf as [[Hn Hk]|(H1 & H2 & Hk)].
  - left. split; [done|]. intros k. by rewrite Hk.
  - right. rewrite Ho in H2. apply orb_false_iff in H2 as [H2 H3]. split; [by split|]. split; [done|].
    intros k. rewrite Hk, Ho. destruct (k =? fd), (B k), (S k); done.
Qed.

(** Looking a command up opens and closes files only. *)
Lemma own_exists o S path : own o S -> own (shell_path_exists path o).1 S.
Proof.
  intros Ho. unfold shell_path_exists. destruct (os_open path SAVANXP_OPEN_READ o) as [o' fd] eqn:E.
  destruct (own_open o S _ _ _ _ Ho E) as [[Hn Ho']|(Hm & Hs & Ho')].
  - case_if; [done|lia].
  - destruct Hm as [Hm Hb]. case_if; [lia|]. cbn [fst].
    apply (own_ext _ (fun k => negb (true && (k =? fd)) && ((k =? fd) || S k))); [by apply (own_close_if o' _ true)|].
    intros k. destruct (k =? fd) eqn:Ek; [|done]. replace k with fd by lia. by rewrite Hs.
Qed.

Lemma own_try prefix command capacity o S : own o S -> own (shell_try_command_path prefix command capacity o).1 S.
Proof.
  intros Ho. unfold shell_try_command_path. set (path := shell_copy_path capacity prefix command).
  pose proof (own_exists o S path Ho) as H1. destruct (shell_path_exists path o) as [o1 [|]]; [done|]. cbn [fst] in H1.
  case_if; [done|]. case_if; [done|]. set (path2 := path ++ _).
  pose proof (own_exists o1 S path2 H1) as H2. by destruct (shell_path_exists path2 o1).
Qed.

Lemma own_resolve command capacity o S : own o S -> own (shell_resolve_command_path command capacity o).1 S.
Proof.
  intros Ho. unfold shell_resolve_command_path. case_if; [by apply own_try|].
  pose proof (own_try s_bin_dir command capacity o S Ho) as H1.
  destruct (shell_try_command_path s_bin_dir command capacity o) as [o1 [p [|]]]; [done|]. by apply own_try.
Qed.

Lemma own_wait pids : forall o st S, own o S ->
  own (fold_left (fun '(o, status) pid => os_waitpid pid status o) pids (o, st)).1 S.
Proof.
  induction pids as [|pid pids IH]; intros o st S Ho; cbn [fold_left]; [done|].
  pose proof (os_waitpid_fds pid st o) as Hw. destruct (os_waitpid pid st o) as [o' st']. apply IH.
  intros k. by rewrite Hw.
Qed.

(** *** The descriptors of one stage *)

Definition held (f : stage_fds) (k : Z) : bool :=
  ((pipe0 f >=? 0) && ((k =? pipe0 f) || (k =? pipe1 f))) || ((fd_in f >? 2) && (k =? fd_in f)) ||
  ((fd_out f >? 2) && (k =? fd_out f)) || ((fd_err f >? 2) && (k =? fd_err f)) ||
  ((prev f >=? 0) && (k =? prev f)).

Record fds_ok (f : stage_fds) : Prop := {
  fo_pipe : (pipe0 f = -1 /\ pipe1 f = -1) \/ (mine (pipe0 f) /\ mine (pipe1 f) /\ pipe0 f <> pipe1 f);
  fo_apart : pipe0 f = -1 \/
    (pipe0 f <> fd_in f /\ pipe0 f <> fd_out f /\ pipe0 f <> fd_err f /\ pipe0 f <> prev f /\ pipe1 f <> prev f);
  fo_in : 0 <= fd_in f <= 2 \/ mine (fd_in f);
  fo_out : 0 <= fd_out f <= 2 \/ mine (fd_out f);
  fo_err : 0 <= fd_err f <= 2 \/ mine (fd_err f);
  fo_prev : prev f = -1 \/ mine (prev f) }.

Lemma own_close_input f o S : own o S -> fds_ok f ->
  own (close_input f o) (fun k => negb (((fd_in f >? 2) && negb (fd_in f =? prev f)) && (k =? fd_in f)) && S k).
Proof. intros Ho [F1 F2 F3 F4 F5 F6]. apply own_close_if; [done|]. intros Hb. destruct F3; [lia|done]. Qed.
Lemma own_close_prev f o S : own o S -> fds_ok f ->
  own (close_prev f o) (fun k => negb ((prev f >=? 0) && (k =? prev f)) && S k).
Proof. intros Ho [F1 F2 F3 F4 F5 F6]. apply own_close_if; [done|]. intros Hb. destruct F6; [lia|done]. Qed.
Lemma own_close_out f o S : own o S -> fds_ok f ->
  own (close_if (fd_out f >? 2) (fd_out f) o) (fun k => negb ((fd_out f >? 2) && (k =? fd_out f)) && S k).
Proof. intros Ho [F1 F2 F3 F4 F5 F6]. apply own_close_if; [done|]. intros Hb. destruct F4; [lia|done]. Qed.
Lemma own_close_err f o S : own o S -> fds_ok f ->
  own (close_if ((fd_err f >? 2) && negb (fd_err f =? fd_out f)) (fd_err f) o)
      (fun k => negb (((fd_err f >? 2) && negb (fd_err f =? fd_out f)) && (k =? fd_err f)) && S k).
Proof. intros Ho [F1 F2 F3 F4 F5 F6]. apply own_close_if; [done|]. intros Hb. destruct F5; [lia|done]. Qed.
Lemma own_close_pipe f o S : own o S -> fds_ok f ->
  own (close_if (pipe0 f >=? 0) (pipe0 f) o) (fun k => negb ((pipe0 f >=? 0) && (k =? pipe0 f)) && S k) /\
  own (close_if (pipe1 f >=? 0) (pipe1 f) o) (fun k => negb ((pipe1 f >=? 0) && (k =? pipe1 f)) && S k).
Proof.
  intros Ho [F1 F2 F3 F4 F5 F6]. split; (apply own_close_if; [done|]); intros Hb; destruct F1 as [[? ?]|(? & ? & ?)]; lia || done.
Qed.
Lemma own_close_both f o S : own o S -> fds_ok f ->
  own (close_both f o) (fun k => negb ((pipe0 f >=? 0) && ((k =? pipe0 f) || (k =? pipe1 f))) && S k).
Proof.
  intros Ho Hf. pose proof Hf as [F1 F2 F3 F4 F5 F6]. unfold close_both. destruct F1 as [[E1 E2]|(M1 & M2 & Hne)].
  - case_if; [lia|]. intros k. by rewrite Ho.
  - pose proof M1 as [? _]. case_if; [|lia]. change (os_close (pipe1 f) ?x) with (close_if true (pipe1 f) x).
    change (os_close (pipe0 f) o) with (close_if true (pipe0 f) o).
    eapply own_ext; [apply own_close_if; [by apply own_close_if|done]|]. intros k. cbn [andb].
    destruct (k =? pipe0 f), (k =? pipe1 f); done.
Qed.

(** Boolean facts about one descriptor: the tests on ranges are decided, those on
    the descriptor split. *)
Ltac ranges :=
  repeat match goal with
  | |- context [?x >? ?y] => first [ replace (x >? y) with true by lia | replace (x >? y) with false by lia ]
  | |- context [?x >=? ?y] => first [ replace (x >=? y) with true by lia | replace (x >=? y) with false by lia ]
  end; cbn [andb orb negb].
Ltac bools :=
  ranges;
  repeat match goal with
  | |- context [?x =? ?y] => destruct (x =? y) eqn:?; cbn [andb orb negb]; try reflexivity
  end; try reflexivity; exfalso; lia.

Definition nothing (k : Z) : bool := false.
Definition opened (f : stage_fds) (r : O * option stage_fds) (Q : stage_fds -> Prop) : Prop :=
  match r with
  | (o', None) => own o' nothing
  | (o', Some f') => fds_ok f' /\ own o' (held f') /\ pipe0 f' = pipe0 f /\ pipe1 f' = pipe1 f /\ Q f'
  end.

Lemma held_pipe f : pipe0 f >= 0 -> held f (pipe0 f) = true /\ held f (pipe1 f) = true.
Proof.
  intros Hp. unfold held. replace (pipe0 f >=? 0) with true by lia. rewrite !Z.eqb_refl.
  cbn [andb orb]. by rewrite orb_true_r.
Qed.

Lemma open_input_spec s f o :
  fds_ok f -> fd_in f = 0 -> fd_out f = 1 -> fd_err f = 2 -> own o (held f) ->
  opened f (open_input s f o) (fun f' => fd_out f' = 1 /\ fd_err f' = 2).
Proof.
  intros Hf E0 E1 E2 Ho. unfold open_input, opened. destruct (input_path s) as [p|].
  - pose proof (own_close_prev f o _ Ho Hf) as H1. destruct (os_open p SAVANXP_OPEN_READ (close_prev f o)) as [o1 fd] eqn:E.
    destruct (own_open _ _ _ _ _ _ H1 E) as [[Hn Ho1]|(Hm & Hs & Ho1)]; clear E H1 Ho.
    + case_if; [|lia]. eapply own_ext; [apply own_close_both; [by apply own_emit|done]|].
      intros k. unfold nothing, held. rewrite E0, E1, E2. clear. destruct (pipe0 f >=? 0), (prev f >=? 0); bools.
    + pose proof Hm as [Hm1 _]. case_if; [lia|]. destruct f as [p0 p1 fi fo fe pv].
      cbn [pipe0 pipe1 fd_in fd_out fd_err prev] in *. subst fi fo fe.
      destruct Hf as [F1 F2 F3 F4 F5 F6]. cbn [pipe0 pipe1 fd_in fd_out fd_err prev] in *.
      split; [|split; [|done]].
      * split; cbn [pipe0 pipe1 fd_in fd_out fd_err prev]; [done| |by right|left; lia|left; lia|by left].
        destruct F1 as [[? ?]|([? _] & [? _] & ?)]; [by left|]. right.
        assert (fd <> p0) by (intros ->; unfold held in Hs; cbn [pipe0 pipe1 fd_in fd_out fd_err prev] in Hs; lia). lia.
      * eapply own_ext; [done|]. intros k. unfold held. cbn [pipe0 pipe1 fd_in fd_out fd_err prev].
        clear Ho1 Hs F3 F4 F5. destruct F1 as [[-> ->]|([? _] & [? _] & ?)].
        -- destruct F6 as [->|[? _]]; bools.
        -- destruct F2 as [?|F2]; [lia|]. destruct F6 as [->|[? _]]; bools.
  - case_if; [|done]. destruct f as [p0 p1 fi fo fe pv]. cbn [pipe0 pipe1 fd_in fd_out fd_err prev] in *. subst fi fo fe.
    destruct Hf as [F1 F2 F3 F4 F5 F6]. cbn [pipe0 pipe1 fd_in fd_out fd_err prev] in *.
    split; [|split; [|done]].
    + split; cbn [pipe0 pipe1 fd_in fd_out fd_err prev]; [done|lia|destruct F6; [lia|by right]|left; lia|left; lia|done].
    + eapply own_ext; [done|]. intros k. unfold held. cbn [pipe0 pipe1 fd_in fd_out fd_err prev].
      clear Ho F2. destruct F6 as [->|[? _]]; [lia|].
      destruct F1 as [[-> ->]|([? _] & [? _] & ?)]; bools.
Qed.

(** The cases of a stage's descriptors. *)
Ltac fd_cases Hf f :=
  destruct f as [p0 p1 fi fo fe pv]; destruct Hf as [F1 F2 F3 F4 F5 F6];
  cbn [pipe0 pipe1 fd_in fd_out fd_err prev] in *.

Lemma open_output_spec s is_last f o :
  fds_ok f -> fd_out f = 1 -> fd_err f = 2 -> (is_last = false -> pipe0 f >= 0) -> own o (held f) ->
  opened f (open_output s is_last f o)
    (fun f' => fd_err f' = 2 /\ (is_last = false -> stdout_path s = None -> fd_out f' = pipe1 f')).
Proof.
  intros Hf E1 E2 Hlast Ho. unfold open_output, opened. destruct (stdout_path s) as [p|].
  - destruct (os_open p (open_flags (stdout_append s)) o) as [o1 fd] eqn:E.
    destruct (own_open _ _ _ _ _ _ Ho E) as [[Hn Ho1]|(Hm & Hs & Ho1)]; clear E Ho.
    + case_if; [|lia]. eapply own_ext;
        [apply own_close_prev; [apply own_close_both; [apply own_close_input; [by apply own_emit|done]|done]|done]|].
      intros k. unfold nothing, held. rewrite E1, E2. clear.
      destruct (pipe0 f >=? 0) eqn:?, (prev f >=? 0) eqn:?, (fd_in f >? 2) eqn:?; bools.
    + pose proof Hm as [Hm1 _]. case_if; [lia|].
      assert (Hp : pipe0 f >= 0 -> pipe0 f <> fd) by (intros Hp E; destruct (held_pipe f Hp); congruence).
      fd_cases Hf f. subst fo fe. split; [|split; [|done]].
      * split; cbn [pipe0 pipe1 fd_in fd_out fd_err prev]; [done| |done|by right|left; lia|done].
        destruct F2; [by left|]. destruct F1 as [[? ?]|([? _] & _)]; [by left|right; lia].
      * eapply own_ext; [done|]. intros k. unfold held. cbn [pipe0 pipe1 fd_in fd_out fd_err prev]. clear Ho1 Hs.
        destruct F1 as [[-> ->]|([? _] & [? _] & ?)], F3 as [?|[? _]], F6 as [->|[? _]]; bools.
  - destruct is_last; cbn [negb]; [do 4 (split; [done|]); by split|]. specialize (Hlast eq_refl). fd_cases Hf f. subst fo fe.
    destruct F1 as [[? ?]|(M0 & M1 & ?)]; [lia|]. pose proof M0 as [? _]. pose proof M1 as [? _].
    split; [|split; [|done]].
    + split; cbn [pipe0 pipe1 fd_in fd_out fd_err prev]; [by right|right; lia|done|by right|left; lia|done].
    + eapply own_ext; [done|]. intros k. unfold held. cbn [pipe0 pipe1 fd_in fd_out fd_err prev]. clear Ho.
      destruct F3 as [?|[? _]], F6 as [->|[? _]]; bools.
Qed.

Lemma open_error_spec s f o :
  fds_ok f -> fd_err f = 2 -> own o (held f) ->
  opened f (open_error s f o) (fun f' => fd_out f' = fd_out f /\ (stderr_path s = None -> fd_err f' = 2)).
Proof.
  intros Hf E2 Ho. unfold open_error, opened. destruct (stderr_path s) as [p|]; [|done].
  destruct (os_open p (open_flags (stderr_append s)) o) as [o1 fd] eqn:E.
  destruct (own_open _ _ _ _ _ _ Ho E) as [[Hn Ho1]|(Hm & Hs & Ho1)]; clear E Ho.
  - case_if; [|lia]. eapply own_ext;
      [apply own_close_prev; [apply own_close_both; [apply own_close_out; [apply own_close_input;
        [by apply own_emit|done]|done]|done]|done]|].
    intros k. unfold nothing, held. rewrite E2. clear.
    destruct (pipe0 f >=? 0) eqn:?, (prev f >=? 0) eqn:?, (fd_in f >? 2) eqn:?, (fd_out f >? 2) eqn:?; bools.
  - pose proof Hm as [Hm1 _]. case_if; [lia|].
    assert (Hp : pipe0 f >= 0 -> pipe0 f <> fd) by (intros Hp E; destruct (held_pipe f Hp); congruence).
    fd_cases Hf f. subst fe. split; [|split; [|done]].
    + split; cbn [pipe0 pipe1 fd_in fd_out fd_err prev]; [done| |done|done|by right|done].
      destruct F2; [by left|]. destruct F1 as [[? ?]|([? _] & _)]; [by left|right; lia].
    + eapply own_ext; [done|]. intros k. unfold held. cbn [pipe0 pipe1 fd_in fd_out fd_err prev]. clear Ho1 Hs.
      destruct F1 as [[-> ->]|([? _] & [? _] & ?)], F3 as [?|[? _]], F4 as [?|[? _]], F6 as [->|[? _]]; bools.
Qed.

Lemma abandon_spec f o : fds_ok f -> own o (held f) -> own (abandon f o) nothing.
Proof.
  intros Hf Ho. unfold abandon. eapply own_ext.
  - apply own_close_prev; [|done]. apply own_close_pipe; [|done]. apply own_close_pipe; [|done].
    apply own_close_err; [|done]. apply own_close_out; [|done]. apply own_close_input; [|done]. by apply own_emit.
  - intros k. unfold nothing, held. clear Ho. fd_cases Hf f. clear F2.
    destruct F1 as [[-> ->]|([? _] & [? _] & _)], F6 as [->|[? _]], F3 as [?|[? _]], F4 as [?|[? _]], F5 as [?|[? _]]; bools.
Qed.

(** What is left of a started stage: the read end for the next one. *)
Definition tail (p k : Z) : bool := (p >=? 0) && (k =? p).

Lemma settle_spec is_last f o :
  fds_ok f -> own o (held f) -> (is_last = true -> pipe0 f = -1) ->
  (is_last = false -> pipe0 f >= 0 /\ fd_out f = pipe1 f) ->
  own (settle is_last f o).1 (tail (settle is_last f o).2) /\
  ((settle is_last f o).2 = -1 \/ mine (settle is_last f o).2).
Proof.
  intros Hf Ho Hl Hn. unfold settle. cbn [fst snd]. split.
  - eapply own_ext.
    + apply own_close_err; [|done]. apply own_close_out; [|done]. apply own_close_if; [by apply own_close_prev|].
      intros Hb. destruct (fo_in f Hf); [lia|done].
    + intros k. unfold tail, held. clear Ho. fd_cases Hf f. destruct is_last.
      * rewrite (Hl eq_refl) in *. destruct F6 as [->|[? _]], F3 as [?|[? _]], F4 as [?|[? _]], F5 as [?|[? _]]; bools.
      * destruct (Hn eq_refl) as [Hp ->]. destruct F1 as [[? ?]|([? _] & [? _] & ?)]; [lia|]. destruct F2 as [?|F2]; [lia|].
        destruct F6 as [->|[? _]], F3 as [?|[? _]], F5 as [?|[? _]]; bools.
  - destruct is_last; [by left|]. destruct (Hn eq_refl) as [Hp _]. destruct (fo_pipe f Hf) as [[? _]|[? _]]; [lia|by right].
Qed.

(** What the code handles: no redirected output before a pipe, and not both a
    file for the error stream and [2>&1]. *)
Definition stage_sane (is_last : bool) (s : shell_command_stage) : Prop :=
  (is_last = false -> stdout_path s = None) /\ (stderr_to_stdout s = true -> stderr_path s = None).

Lemma merged_ok f o :
  fds_ok f -> own o (held f) -> fd_err f = 2 ->
  fds_ok (mk_fds (pipe0 f) (pipe1 f) (fd_in f) (fd_out f) (fd_out f) (prev f)) /\
  own o (held (mk_fds (pipe0 f) (pipe1 f) (fd_in f) (fd_out f) (fd_out f) (prev f))).
Proof.
  intros Hf Ho E. split.
  - fd_cases Hf f. split; cbn [pipe0 pipe1 fd_in fd_out fd_err prev]; try done. lia.
  - eapply own_ext; [done|]. intros k. unfold held. cbn [pipe0 pipe1 fd_in fd_out fd_err prev]. rewrite E.
    change (2 >? 2) with false. destruct ((fd_out f >? 2) && (k =? fd_out f)); cbn [andb orb]; rewrite ?orb_true_r, ?orb_false_r; done.
Qed.

Lemma run_stage_spec stage_count is_last s previous o :
  stage_sane is_last s -> (previous = -1 \/ mine previous) -> own o (tail previous) ->
  match run_stage stage_count is_last s previous o with
  | (o', None) => own o' nothing
  | (o', Some (_, previous')) => own o' (tail previous') /\ (previous' = -1 \/ mine previous')
  end.
Proof.
  intros [Hsane1 Hsane2] Hprev Ho. unfold run_stage.
  assert (Hpipe : match (if is_last then (o, Some (-1, -1)) else os_pipe o) with
    | (o', None) => own o' (tail previous)
    | (o', Some (p0, p1)) =>
        fds_ok (mk_fds p0 p1 0 1 2 previous) /\ own o' (held (mk_fds p0 p1 0 1 2 previous)) /\
        (is_last = true -> p0 = -1) /\ (is_last = false -> p0 >= 0)
    end).
  { destruct is_last.
    - split; [|split; [|done]].
      + split; cbn [pipe0 pipe1 fd_in fd_out fd_err prev]; try (by left); try (left; lia). done.
      + eapply own_ext; [done|]. intros k. unfold tail, held. by cbn [pipe0 pipe1 fd_in fd_out fd_err prev].
    - pose proof (os_pipe_fds o) as Hp. destruct (os_pipe o) as [o' [[a b]|]]; [|intros k; by rewrite Hp].
      destruct Hp as (A1 & A2 & A3 & A4 & A5 & Hk). rewrite Ho in A4, A5. apply orb_false_iff in A4 as [A4 A4'], A5 as [A5 A5'].
      assert (a <> previous /\ b <> previous) as [N1 N2]
        by (destruct Hprev as [->|[? _]]; [lia|]; unfold tail in *; lia).
      split; [|split; [|split; [done|intros _; lia]]].
      + split; cbn [pipe0 pipe1 fd_in fd_out fd_err prev]; [right; by repeat split|right; lia|left; lia|left; lia|left; lia|done].
      + intros k. rewrite Hk, Ho. unfold tail, held. cbn [pipe0 pipe1 fd_in fd_out fd_err prev].
        replace (a >=? 0) with true by lia. change (0 >? 2) with false. change (1 >? 2) with false. change (2 >? 2) with false.
        cbn [andb orb]. rewrite !orb_false_r. destruct (k =? a), (k =? b), (B k); done. }
  destruct (if is_last then (o, Some (-1, -1)) else os_pipe o) as [o1 [[p0 p1]|]].
  2: { eapply own_ext; [apply own_close_if; [by apply own_emit|intros Hb; destruct Hprev; [lia|done]]|].
       intros k. unfold tail, nothing. by destruct ((previous >=? 0) && (k =? previous)). }
  destruct Hpipe as (Hf0 & Ho1 & Hl & Hn).
  pose proof (open_input_spec s (mk_fds p0 p1 0 1 2 previous) o1 Hf0 eq_refl eq_refl eq_refl Ho1) as H1.
  destruct (open_input s _ o1) as [o2 [f1|]]; [|done]. destruct H1 as (Hf1 & Ho2 & P1 & P1' & O1 & R1). cbn [pipe0 pipe1] in *.
  pose proof (open_output_spec s is_last f1 o2 Hf1 O1 R1 ltac:(intros E; rewrite P1; by apply Hn) Ho2) as H2.
  destruct (open_output s is_last f1 o2) as [o3 [f2|]]; [|done]. destruct H2 as (Hf2 & Ho3 & P2 & P2' & R2 & Q2).
  pose proof (open_error_spec s f2 o3 Hf2 R2 Ho3) as H3.
  destruct (open_error s f2 o3) as [o4 [f3|]]; [|done]. destruct H3 as (Hf3 & Ho4 & P3 & P3' & O3 & R3).
  set (f := if stderr_to_stdout s then _ else f3).
  assert (Hff : fds_ok f /\ own o4 (held f) /\ pipe0 f = pipe0 f3 /\ pipe1 f = pipe1 f3 /\ fd_out f = fd_out f3).
  { unfold f. destruct (stderr_to_stdout s) eqn:Em; [|done].
    destruct (merged_ok f3 o4 Hf3 Ho4) as [M1 M2]; [by apply R3, Hsane2|]. done. }
  destruct Hff as (Hff & Hof & E1 & E2 & E3). clearbody f.
  pose proof (own_resolve (hd [] (argv s)) 256 o4 _ Hof) as Hr.
  destruct (shell_resolve_command_path _ _ o4) as [o5 [path [|]]]; cbn [fst] in Hr; [|by apply abandon_spec].
  set (fds := if _ : bool then None else _). pose proof (os_spawn_fds path (argv s) fds o5) as Hsp.
  destruct (os_spawn path (argv s) fds o5) as [o6 pid]. cbn [fst] in Hsp.
  assert (Ho6 : own o6 (held f)) by (intros k; by rewrite Hsp).
  case_if; [by apply abandon_spec|].
  pose proof (settle_spec is_last f o6 Hff Ho6) as Hs. destruct (settle is_last f o6) as [o7 previous']. cbn [fst snd] in Hs.
  apply Hs.
  - intros E. rewrite E1, P3, P2, P1. by apply Hl.
  - intros E. split; [rewrite E1, P3, P2, P1; by apply Hn|]. rewrite E3, O3, E2, P3'. by apply Q2, Hsane1.
Qed.

(** Every stage is one the code handles. *)
Fixpoint pipeline_sane (ss : list shell_command_stage) : Prop :=
  match ss with
  | [] => True
  | s :: t => stage_sane (bool_decide (t = [])) s /\ pipeline_sane t
  end.

Lemma run_stages_spec stage_count ss : forall previous pids o,
  pipeline_sane ss -> (previous = -1 \/ mine previous) -> own o (tail previous) ->
  own (run_stages stage_count ss previous pids o).1 nothing.
Proof.
  induction ss as [|s ss IH]; intros previous pids o Hs Hp Ho; cbn [run_stages].
  - apply own_wait. eapply own_ext; [apply own_close_if; [done|intros Hb; destruct Hp; [lia|done]]|].
    intros k. unfold tail, nothing. by destruct ((previous >=? 0) && (k =? previous)).
  - destruct Hs as [Hs1 Hs2]. pose proof (run_stage_spec stage_count _ s previous o Hs1 Hp Ho) as Hr.
    destruct (run_stage stage_count _ s previous o) as [o1 [[pid previous']|]].
    + destruct Hr as [Hr1 Hr2]. by apply IH.
    + cbn [fst]. by apply own_wait.
Qed.
End balance.

(** C22. No descriptor is leaked and none of the caller's is closed: after a
    pipeline of any length, started or abandoned at any point (no such file, no
    such command, no pipe, no process), the shell has exactly the descriptors
    it had.  It holds for every pipeline without a redirected output before a
    pipe and without [2>&1] together with a file for the error stream. *)
Theorem shell_pipeline_fds_balanced {O : Type} `{FdOs O} (stages : list shell_command_stage) (o : O) :
  pipeline_sane stages ->
  forall k, fd_open (shell_execute_pipeline_stdio stages o).1 k = fd_open o k.
Proof.
  intros Hs k. unfold shell_execute_pipeline_stdio.
  pose proof (run_stages_spec (fd_open o) (zlen stages) stages (-1) [] o Hs (or_introl eq_refl)) as Hr.
  unfold own, nothing, tail in Hr. rewrite Hr; [by rewrite orb_false_r|]. intros k'. by rewrite orb_false_r.
Qed.

(** ** A small system *)

(** Every call succeeds; descriptors above the highest in use; the processes
    started, with the streams they were given. *)
Record toy := mk_toy { toy_fds : list Z; toy_started : list (list Z * option (Z * Z * Z)) }.

Definition toy_next (t : toy) : Z := fold_left Z.max (toy_fds t) 2 + 1.
Definition toy_add (fd : Z) (t : toy) : toy := mk_toy (fd :: toy_fds t) (toy_started t).

#[export] Instance toy_os : ShellOs toy := {
  os_open := fun _ _ t => (toy_add (toy_next t) t, toy_next t);
  os_close := fun fd t => mk_toy (List.filter (fun k => negb (k =? fd)) (toy_fds t)) (toy_started t);
  os_pipe := fun t => let a := toy_next t in let t := toy_add a t in
                      let b := toy_next t in (toy_add b t, Some (a, b));
  os_spawn := fun p _ fds t => (mk_toy (toy_fds t) (toy_started t ++ [(p, fds)]), 100);
  os_waitpid := fun _ _ t => (t, 0);
  os_emit := fun _ _ t => t;
  os_clear := fun t => t;
  os_mkdir := fun _ t => (t, 0);
  os_chdir := fun _ t => (t, 0);
  os_getcwd := fun _ t => (t, None);
  os_exec := fun _ _ t => (t, 0) }.

Definition toy_open (t : toy) (k : Z) : bool := existsb (Z.eqb k) (toy_fds t).

Lemma max_bound l : forall m k, In k l \/ k = m -> k <= fold_left Z.max l m.
Proof.
  induction l as [|x l IH]; intros m k [Hin|E]; cbn [fold_left]; try done; [lia| |].
  - destruct Hin as [->|Hin]; [|by apply IH; left]. transitivity (Z.max m k); [lia|]. apply IH. by right.
  - transitivity (Z.max m x); [lia|]. apply IH. by right.
Qed.

Lemma toy_next_fresh t : 2 < toy_next t /\ toy_open t (toy_next t) = false.
Proof.
  unfold toy_next. pose proof (max_bound (toy_fds t) 2 2 (or_intror eq_refl)). split; [lia|].
  unfold toy_open. destruct (existsb _ _) eqn:E; [|done]. apply existsb_exists in E as (k & Hin & Ek).
  pose proof (max_bound (toy_fds t) 2 k (or_introl Hin)). lia.
Qed.

#[export] Instance toy_fd_os : FdOs toy.
Proof.
  refine {| fd_open := toy_open |}; try done.
  - intros p flags o. cbn [os_open toy_os]. right. destruct (toy_next_fresh o) as [H1 H2]. split; [done|]. by split.
  - intros fd o k. cbn [os_close toy_os]. unfold toy_open. cbn [toy_fds]. induction (toy_fds o) as [|x l IH]; [by rewrite andb_false_r|].
    cbn [List.filter existsb]. destruct (x =? fd) eqn:E; cbn [negb]; cbn [existsb]; rewrite IH; destruct (k =? fd) eqn:E1;
      destruct (k =? x) eqn:E2; try done; lia.
  - intros o. cbn [os_pipe toy_os]. destruct (toy_next_fresh o) as [H1 H2].
    destruct (toy_next_fresh (toy_add (toy_next o) o)) as [H3 H4]. set (b := toy_next (toy_add _ o)) in *.
    set (a := toy_next o) in *. unfold toy_open in H4. cbn [toy_add toy_fds existsb] in H4.
    apply orb_false_iff in H4 as [H4 H5]. split; [done|]. split; [done|]. split; [lia|]. split; [done|]. split; [done|].
    intros k. unfold toy_open. cbn [toy_add toy_fds existsb]. destruct (k =? a), (k =? b); done.
Defined.

Definition toy0 : toy := mk_toy [] [].
Definition run_line (line : String.string) : toy :=
  match shell_parse_pipeline (str line) SHELL_MAX_STAGES with
  | Some stages => (shell_execute_pipeline_stdio stages toy0).1
  | None => toy0
  end.

Definition sane_sample : list shell_command_stage :=
  [mk_stage [str "cat"%string] (Some (str "in"%string)) None (Some (str "log"%string)) false false false;
   mk_stage [str "wc"%string] None (Some (str "out"%string)) None true false true].
Lemma shell_pipeline_fds_balanced_witness :
  fd_open (shell_execute_pipeline_stdio sane_sample toy0).1 4 = fd_open toy0 4.
Proof. apply (shell_pipeline_fds_balanced sane_sample toy0). by repeat split. Defined.

(** The two combinations left out, and a third line, on a system where every
    call succeeds: [a > f | b] leaves the write end of the pipe open in the shell
    while it waits for [b], which reads the other end; [a 2> f 2>&1] leaves the
    file open; [a 2>&1] alone starts [a] without its redirection. *)
Theorem shell_redirection_defects :
  toy_fds (run_line "a > f | b"%string) = [4] /\
  toy_started (run_line "a > f | b"%string) = [(str "/bin/a"%string, Some (0, 5, 2)); (str "/bin/b"%string, Some (3, 1, 2))] /\
  toy_fds (run_line "a 2> f 2>&1"%string) = [3] /\
  toy_started (run_line "a 2>&1"%string) = [(str "/bin/a"%string, None)].
Proof. vm_compute. repeat split. Qed.
