(* ===== verification/Heap.v ===== *)
(** * The heap allocator of the C runtime: definitions

    [malloc] and its family from [subsystems/posix/sdk/v1/runtime/posix.c],
    over a byte-addressed memory.  The structs live in that memory: a block
    header (32 bytes: size, magic, free, next, prev), an arena descriptor (32
    bytes: next, first_block, size, mapped) and the tag of an aligned
    allocation (16 bytes: magic, base) are read and written field by field, as
    the source does, so what a program stores in a block and what the allocator
    stores in its headers share one address space.  A null pointer is 0.

    The page source ([sx_heap_pages_map], [sx_heap_pages_unmap]: weak
    functions over kernel sections that a program may replace) and the address
    of the BSS arena are the class [PageSource].  A loop over a linked list has
    fuel; running out of it is the failure [Stuck] of the monad, which is the
    result of no operation on a heap that the laws of [HeapLaws] cover.  The
    locked entry points only add the lock to the functions modelled here. *)

From S2P Require Import Prelude Bytes.
Open Scope st_scope.

(** ** Memory *)

Definition mem : Type := Z -> Z.

Definition wr_bytes (m : mem) (a : Z) (bs : list Z) : mem :=
  fun x => if (a <=? x) && (x <? a + zlen bs) then at_ 0 bs (x - a) else m x.
Definition rd_bytes (m : mem) (a : Z) (n : nat) : list Z :=
  map (fun i => m (a + Z.of_nat i)) (seq 0 n).

(** A little-endian object of [n] bytes. *)
Definition rd (n : nat) (m : mem) (a : Z) : Z := unle (rd_bytes m a n).
Definition wr (n : nat) (m : mem) (a v : Z) : mem := wr_bytes m a (le n v).

(** [memset] with zero, and the contents of a fresh mapping. *)
Definition zero_range (m : mem) (a n : Z) : mem :=
  fun x => if (a <=? x) && (x <? a + n) then 0 else m x.
(** [memcpy] of disjoint ranges. *)
Definition copy_range (m : mem) (dst src n : Z) : mem :=
  fun x => if (dst <=? x) && (x <? dst + n) then m (src + (x - dst)) else m x.

(** ** Constants and layouts *)

Definition SIZE_MAX : Z := 18446744073709551615.
Definition SX_HEAP_SIZE : Z := 262144.
Definition SX_ARENA_PAGE_SIZE : Z := 4096.
Definition SX_ARENA_FIRST_BYTES : Z := 1048576.
Definition SX_ARENA_MAX_BYTES : Z := 33554432.
Definition SX_ARENA_CAPACITY : Z := 8.
Definition SX_ALLOC_ALIGNMENT : Z := 16.
Definition SX_ALLOC_MIN_SPLIT_SIZE : Z := SX_ALLOC_ALIGNMENT * 2.
Definition SX_ALLOC_MAGIC : Z := 1398292808.
Definition SX_ALIGNED_MAGIC : Z := 5999173267532628300.
Definition ENOMEM : Z := 12.
Definition EINVAL : Z := 22.

(** [struct sx_alloc_header]. *)
Definition HEADER : Z := 32.
Definition h_size (m : mem) (h : Z) : Z := rd 8 m h.
Definition h_magic (m : mem) (h : Z) : Z := rd 4 m (h + 8).
Definition h_free (m : mem) (h : Z) : Z := rd 4 m (h + 12).
Definition h_next (m : mem) (h : Z) : Z := rd 8 m (h + 16).
Definition h_prev (m : mem) (h : Z) : Z := rd 8 m (h + 24).
Definition set_size (h v : Z) (m : mem) : mem := wr 8 m h v.
Definition set_magic (h v : Z) (m : mem) : mem := wr 4 m (h + 8) v.
Definition set_free (h v : Z) (m : mem) : mem := wr 4 m (h + 12) v.
Definition set_next (h v : Z) (m : mem) : mem := wr 8 m (h + 16) v.
Definition set_prev (h v : Z) (m : mem) : mem := wr 8 m (h + 24) v.

(** [struct sx_arena]. *)
Definition a_next (m : mem) (a : Z) : Z := rd 8 m a.
Definition a_first_block (m : mem) (a : Z) : Z := rd 8 m (a + 8).
Definition a_size (m : mem) (a : Z) : Z := rd 8 m (a + 16).
Definition a_mapped (m : mem) (a : Z) : Z := rd 4 m (a + 24).
Definition set_a_next (a v : Z) (m : mem) : mem := wr 8 m a v.
Definition set_a_first_block (a v : Z) (m : mem) : mem := wr 8 m (a + 8) v.
Definition set_a_size (a v : Z) (m : mem) : mem := wr 8 m (a + 16) v.
Definition set_a_mapped (a v : Z) (m : mem) : mem := wr 4 m (a + 24) v.

(** [struct sx_aligned_tag]. *)
Definition t_magic (m : mem) (t : Z) : Z := rd 8 m t.
Definition t_base (m : mem) (t : Z) : Z := rd 8 m (t + 8).

(** ** Sizes *)

(** [(size + mask) & ~mask] for a power of two. *)
Definition round_up (size to : Z) : Z := Z.ldiff (size + (to - 1)) (to - 1).

Definition sx_align_size (size : Z) : Z :=
  if (size =? 0) || (size >? SIZE_MAX - (SX_ALLOC_ALIGNMENT - 1)) then 0
  else round_up size SX_ALLOC_ALIGNMENT.

(** [sizeof(sx_arena)] is 32. *)
Definition sx_arena_header_bytes : Z := round_up 32 SX_ALLOC_ALIGNMENT.
Definition sx_arena_payload (arena : Z) : Z := arena + sx_arena_header_bytes.
Definition sx_arena_overhead : Z := sx_arena_header_bytes + HEADER.
Definition sx_arena_initial_block_size (m : mem) (arena : Z) : Z := a_size m arena - sx_arena_overhead.

(** ** The state and its monad *)

(** Where the pages of an arena come from.  [pages_map] gives the base of a
    fresh mapping or [None] (the null pointer); [bss_base] is [g_heap.bytes]. *)
Class PageSource (P : Type) := {
  pages_map : P -> Z -> P * option Z;
  pages_unmap : P -> Z -> Z -> P;
  bss_base : Z;
}.

Inductive stuck : Set := Stuck.

Section heap.
Context {P : Type} `{!PageSource P}.

Record heap := mk_heap {
  hmem : mem;
  g_arenas : Z;
  g_mapped_arena_count : Z;
  g_mapped_bytes : Z;
  errno : Z;
  pages : P;
}.

Definition H (A : Type) : Type := st heap stuck A.

Definition with_mem (s : heap) (m : mem) : heap :=
  mk_heap m (g_arenas s) (g_mapped_arena_count s) (g_mapped_bytes s) (errno s) (pages s).
Definition with_arenas (s : heap) (a : Z) : heap :=
  mk_heap (hmem s) a (g_mapped_arena_count s) (g_mapped_bytes s) (errno s) (pages s).
Definition with_mapped (s : heap) (count bytes : Z) : heap :=
  mk_heap (hmem s) (g_arenas s) count bytes (errno s) (pages s).
Definition with_errno (s : heap) (e : Z) : heap :=
  mk_heap (hmem s) (g_arenas s) (g_mapped_arena_count s) (g_mapped_bytes s) e (pages s).
Definition with_pages (s : heap) (p : P) : heap :=
  mk_heap (hmem s) (g_arenas s) (g_mapped_arena_count s) (g_mapped_bytes s) (errno s) p.

Definition poke (f : mem -> mem) : H unit := st_mod (fun s => with_mem s (f (hmem s))).
Definition set_errno (e : Z) : H unit := st_mod (fun s => with_errno s e).
(** A read-only loop that may run out of fuel. *)
Definition look {A} (f : mem -> option A) : H A :=
  fun s => match f (hmem s) with Some a => (s, Ok a) | None => (s, Fail Stuck) end.

(** ** Arenas *)

Definition sx_arena_stamp (base size : Z) (mapped : Z) : H Z :=
  if (base =? 0) || (size <=? sx_arena_overhead + SX_ALLOC_MIN_SPLIT_SIZE) then st_ret 0
  else
    poke (set_a_size base size) ;;;
    poke (set_a_mapped base mapped) ;;;
    let block := sx_arena_payload base in
    poke (fun m => set_size block (sx_arena_initial_block_size m base) m) ;;;
    poke (set_magic block SX_ALLOC_MAGIC) ;;;
    poke (set_free block 1) ;;;
    poke (set_next block 0) ;;;
    poke (set_prev block 0) ;;;
    poke (set_a_first_block base block) ;;;
    let! s := st_get in
    poke (set_a_next base (g_arenas s)) ;;;
    st_mod (fun s => with_arenas s base) ;;;
    st_ret base.

Definition sx_allocator_init : H unit :=
  let! s := st_get in
  if negb (g_arenas s =? 0) then st_ret tt
  else sx_arena_stamp bss_base SX_HEAP_SIZE 0 ;;; st_ret tt.

Definition sx_arena_growth_floor (mapped_bytes : Z) : Z :=
  let floor_bytes := mapped_bytes in
  let floor_bytes := if floor_bytes <? SX_ARENA_FIRST_BYTES then SX_ARENA_FIRST_BYTES else floor_bytes in
  if floor_bytes >? SX_ARENA_MAX_BYTES then SX_ARENA_MAX_BYTES else floor_bytes.

Definition sx_heap_pages_map (bytes : Z) : H Z :=
  fun s => match pages_map (pages s) bytes with
           | (p, None) => (with_pages s p, Ok 0)
           | (p, Some a) => (with_mem (with_pages s p) (zero_range (hmem s) a bytes), Ok a)
           end.
Definition sx_heap_pages_unmap (base bytes : Z) : H unit :=
  st_mod (fun s => with_pages s (pages_unmap (pages s) base bytes)).

Definition sx_arena_acquire (payload_bytes : Z) : H Z :=
  let mask := SX_ARENA_PAGE_SIZE - 1 in
  let! s := st_get in
  if g_mapped_arena_count s >=? SX_ARENA_CAPACITY then st_ret 0
  else if payload_bytes >? SIZE_MAX - sx_arena_overhead - mask then st_ret 0
  else
    let wanted := sx_arena_overhead + payload_bytes in
    let wanted := if wanted <? sx_arena_growth_floor (g_mapped_bytes s)
                  then sx_arena_growth_floor (g_mapped_bytes s) else wanted in
    let wanted := round_up wanted SX_ARENA_PAGE_SIZE in
    let! mapped := sx_heap_pages_map wanted in
    if mapped =? 0 then st_ret 0
    else
      let! arena := sx_arena_stamp mapped wanted 1 in
      if arena =? 0 then sx_heap_pages_unmap mapped wanted ;;; st_ret 0
      else
        st_mod (fun s => with_mapped s (u64 (g_mapped_arena_count s + 1))
                                       (u64 (g_mapped_bytes s + wanted))) ;;;
        st_ret arena.

(** The list of arenas: the bootstrap one and eight mapped ones at most, and
    the turn that sees the end of the list. *)
Definition ARENA_FUEL : nat := 10.

Fixpoint arena_for_loop (n : nat) (m : mem) (arena target : Z) : option Z :=
  match n with
  | O => None
  | S n =>
      if arena =? 0 then Some 0
      else
        let start := sx_arena_payload arena in
        let end_ := arena + a_size m arena in
        if (target >=? start) && (target <? end_) then Some arena
        else arena_for_loop n m (a_next m arena) target
  end.
Definition sx_arena_for_address (address : Z) : H Z :=
  let! s := st_get in look (fun m => arena_for_loop ARENA_FUEL m (g_arenas s) address).

Definition sx_arena_is_empty (m : mem) (arena : Z) : bool :=
  let block := if negb (arena =? 0) then a_first_block m arena else 0 in
  negb (block =? 0) && negb (h_free m block =? 0) && (h_prev m block =? 0) &&
  (h_next m block =? 0) && (block =? arena + sx_arena_header_bytes) &&
  (h_size m block =? sx_arena_initial_block_size m arena).

(** The search for the link that holds [arena]: [Some None] when no arena is it,
    [Some (Some 0)] for [&g_arenas], otherwise the arena whose [next] it is. *)
Fixpoint find_link (n : nat) (m : mem) (holder cursor arena : Z) : option (option Z) :=
  match n with
  | O => None
  | S n =>
      if cursor =? 0 then Some None
      else if cursor =? arena then Some (Some holder)
      else find_link n m cursor (a_next m cursor) arena
  end.

Definition sx_arena_release (arena : Z) : H unit :=
  let! s := st_get in
  let m := hmem s in
  if (arena =? 0) || (a_mapped m arena =? 0) || negb (sx_arena_is_empty m arena) then st_ret tt
  else
    let! link := look (fun m => find_link ARENA_FUEL m 0 (g_arenas s) arena) in
    match link with
    | None => st_ret tt
    | Some holder =>
        (if holder =? 0 then st_mod (fun s => with_arenas s (a_next m arena))
         else poke (set_a_next holder (a_next m arena))) ;;;
        st_mod (fun s => with_mapped s (u64 (g_mapped_arena_count s - 1))
                                       (u64 (g_mapped_bytes s - a_size (hmem s) arena))) ;;;
        let! s := st_get in
        sx_heap_pages_unmap arena (a_size (hmem s) arena)
    end.

(** ** Blocks *)

Definition sx_block_is_valid (block : Z) : H bool :=
  if block =? 0 then st_ret false
  else
    let! arena := sx_arena_for_address block in
    if arena =? 0 then st_ret false
    else
      let! s := st_get in
      st_ret (h_magic (hmem s) block =? SX_ALLOC_MAGIC).

Definition sx_blocks_are_adjacent (m : mem) (left right : Z) : bool :=
  negb (left =? 0) && negb (right =? 0) && (left + HEADER + h_size m left =? right).

Definition sx_absorb_next (block : Z) : H bool :=
  let! s := st_get in
  let m := hmem s in
  let next := if negb (block =? 0) then h_next m block else 0 in
  if (next =? 0) || (h_free m next =? 0) || negb (sx_blocks_are_adjacent m block next)
  then st_ret false
  else
    poke (set_size block (u64 (h_size m block + HEADER + h_size m next))) ;;;
    poke (fun m => set_next block (h_next m next) m) ;;;
    poke (fun m => if negb (h_next m block =? 0) then set_prev (h_next m block) block m else m) ;;;
    st_ret true.

(** Of a block and the blocks after it at most one can be absorbed: two free
    blocks are never neighbours. *)
Definition MERGE_FUEL : nat := 3.

Fixpoint merge_loop (n : nat) (block : Z) : H unit :=
  match n with
  | O => st_fail Stuck
  | S n => let! absorbed := sx_absorb_next block in
           if absorbed then merge_loop n block else st_ret tt
  end.
Definition sx_merge_with_next (block : Z) : H unit :=
  let! s := st_get in
  if (block =? 0) || (h_free (hmem s) block =? 0) then st_ret tt else merge_loop MERGE_FUEL block.

Definition sx_split_block (block size : Z) : H unit :=
  let! s := st_get in
  let m := hmem s in
  if (block =? 0) || (h_size m block <=? size) then st_ret tt
  else
    let remaining := h_size m block - size in
    if remaining <? HEADER + SX_ALLOC_MIN_SPLIT_SIZE then st_ret tt
    else
      let tail := block + HEADER + size in
      poke (set_size tail (remaining - HEADER)) ;;;
      poke (set_magic tail SX_ALLOC_MAGIC) ;;;
      poke (set_free tail 1) ;;;
      poke (fun m => set_next tail (h_next m block) m) ;;;
      poke (set_prev tail block) ;;;
      poke (fun m => if negb (h_next m tail =? 0) then set_prev (h_next m tail) tail m else m) ;;;
      poke (set_size block size) ;;;
      poke (set_next block tail) ;;;
      sx_merge_with_next tail.

Fixpoint find_in_blocks (n : nat) (m : mem) (block size : Z) : option Z :=
  match n with
  | O => None
  | S n =>
      if block =? 0 then Some 0
      else if negb (h_free m block =? 0) && (h_size m block >=? size) then Some block
      else find_in_blocks n m (h_next m block) size
  end.
(** A block takes its header and 16 bytes at least. *)
Definition block_fuel (m : mem) (arena : Z) : nat := S (Z.to_nat (a_size m arena / 48)).
Fixpoint find_in_arenas (n : nat) (m : mem) (arena size : Z) : option Z :=
  match n with
  | O => None
  | S n =>
      if arena =? 0 then Some 0
      else match find_in_blocks (block_fuel m arena) m (a_first_block m arena) size with
           | None => None
           | Some block => if negb (block =? 0) then Some block
                           else find_in_arenas n m (a_next m arena) size
           end
  end.

Definition sx_find_free_block (size : Z) : H Z :=
  sx_allocator_init ;;;
  let! s := st_get in
  let! block := look (fun m => find_in_arenas ARENA_FUEL m (g_arenas s) size) in
  if negb (block =? 0) then st_ret block
  else
    let! arena := sx_arena_acquire size in
    if arena =? 0 then st_ret 0
    else
      let! s := st_get in
      let m := hmem s in
      let block := a_first_block m arena in
      st_ret (if negb (block =? 0) && negb (h_free m block =? 0) && (h_size m block >=? size)
              then block else 0).

(** ** The allocator's entry points *)

Definition sx_malloc (size : Z) : H Z :=
  let aligned := sx_align_size size in
  if aligned =? 0 then set_errno ENOMEM ;;; st_ret 0
  else
    let! header := sx_find_free_block aligned in
    if header =? 0 then set_errno ENOMEM ;;; st_ret 0
    else
      sx_split_block header aligned ;;;
      poke (set_free header 0) ;;;
      st_ret (header + HEADER).

Definition sx_calloc (count size : Z) : H Z :=
  let total := u64 (count * size) in
  if negb (count =? 0) && (size >? SIZE_MAX / count) then set_errno ENOMEM ;;; st_ret 0
  else
    let! pointer := sx_malloc total in
    (if negb (pointer =? 0) then poke (fun m => zero_range m pointer total) else st_ret tt) ;;;
    st_ret pointer.

(** The pointer behind an aligned one, or the pointer itself. *)
Definition sx_resolve_aligned (pointer : Z) : H Z :=
  let tag := pointer - 16 in
  let! s := st_get in
  let m := hmem s in
  if negb (t_magic m tag =? SX_ALIGNED_MAGIC) || (t_base m tag =? 0) || (t_base m tag >=? pointer)
  then st_ret pointer
  else
    let header := t_base m tag - HEADER in
    let! valid := sx_block_is_valid header in
    if negb valid || negb (h_free m header =? 0) then st_ret pointer else st_ret (t_base m tag).

Definition sx_free (pointer : Z) : H unit :=
  if pointer =? 0 then st_ret tt
  else
    let! pointer := sx_resolve_aligned pointer in
    let header := pointer - HEADER in
    let! valid := sx_block_is_valid header in
    let! s := st_get in
    if negb valid || negb (h_free (hmem s) header =? 0) then set_errno EINVAL
    else
      poke (set_free header 1) ;;;
      sx_merge_with_next header ;;;
      let! s := st_get in
      let prev := h_prev (hmem s) header in
      (if negb (prev =? 0) && negb (h_free (hmem s) prev =? 0)
       then sx_merge_with_next prev else st_ret tt) ;;;
      let! arena := sx_arena_for_address header in
      sx_arena_release arena.

(** [while (header->size < aligned && sx_absorb_next(header))]. *)
Fixpoint grow_loop (n : nat) (header aligned : Z) : H unit :=
  match n with
  | O => st_fail Stuck
  | S n =>
      let! s := st_get in
      if h_size (hmem s) header <? aligned
      then let! absorbed := sx_absorb_next header in
           if absorbed then grow_loop n header aligned else st_ret tt
      else st_ret tt
  end.

Definition sx_realloc (pointer size : Z) : H Z :=
  if pointer =? 0 then sx_malloc size
  else if size =? 0 then sx_free pointer ;;; st_ret 0
  else
    let header := pointer - HEADER in
    let! valid := sx_block_is_valid header in
    let! s := st_get in
    if negb valid || negb (h_free (hmem s) header =? 0) then set_errno EINVAL ;;; st_ret 0
    else
      let aligned := sx_align_size size in
      if aligned =? 0 then set_errno ENOMEM ;;; st_ret 0
      else if aligned <=? h_size (hmem s) header
      then sx_split_block header aligned ;;; st_ret pointer
      else
        grow_loop MERGE_FUEL header aligned ;;;
        let! s := st_get in
        if h_size (hmem s) header >=? aligned
        then sx_split_block header aligned ;;; st_ret pointer
        else
          let! replacement := sx_malloc size in
          if replacement =? 0 then st_ret 0
          else
            poke (fun m => copy_range m replacement pointer (Z.min (h_size m header) size)) ;;;
            sx_free pointer ;;;
            st_ret replacement.

Definition sx_allocate_aligned (alignment size : Z) : H Z :=
  if alignment <=? SX_ALLOC_ALIGNMENT then sx_malloc size
  else
    let total := u64 (size + alignment + 16) in
    if total <? size then st_ret 0
    else
      let! base := sx_malloc total in
      if base =? 0 then st_ret 0
      else
        let aligned := base + 16 in
        let aligned := aligned + Z.land (u64 (alignment - Z.land aligned (alignment - 1))) (alignment - 1) in
        poke (fun m => wr 8 m (aligned - 16) SX_ALIGNED_MAGIC) ;;;
        poke (fun m => wr 8 m (aligned - 8) base) ;;;
        st_ret aligned.

(** The status and the pointer stored in [*out_pointer] ([None]: not stored). *)
Definition sx_posix_memalign (alignment size : Z) : H (Z * option Z) :=
  if (alignment <? 8) || negb (Z.land alignment (alignment - 1) =? 0) then st_ret (EINVAL, None)
  else
    let! block := sx_allocate_aligned alignment size in
    if block =? 0 then st_ret (ENOMEM, None) else st_ret (0, Some block).

Definition sx_aligned_alloc (alignment size : Z) : H Z :=
  if (alignment =? 0) || negb (Z.land alignment (alignment - 1) =? 0)
  then set_errno EINVAL ;;; st_ret 0
  else sx_allocate_aligned alignment size.

(** [sx_memalign] calls it. *)
Definition sx_memalign (alignment size : Z) : H Z := sx_aligned_alloc alignment size.

End heap.
Arguments heap P : clear implicits.
