(* ===== verification/HeapFacts.v ===== *)
(** * The heap allocator: memory and block lists

    Reads and writes of little-endian objects at disjoint addresses, and the
    representation of a list of blocks in memory.  A block of the logical list
    is free with a size, or used with the bytes it holds: [chain] says that the
    memory holds these blocks one after another, each with a header whose links
    name its neighbours, so a fact about [chain] is a fact about the headers and
    about the contents of every used block at once. *)

From S2P Require Import Prelude Bytes Heap.

(** ** Memory *)

Definition same_on (m m' : mem) (lo hi : Z) : Prop := forall x, lo <= x < hi -> m' x = m x.
Definition same_off (m m' : mem) (lo hi : Z) : Prop := forall x, ~ lo <= x < hi -> m' x = m x.

Lemma same_on_sub m m' lo hi lo' hi' :
  same_on m m' lo hi -> lo <= lo' -> hi' <= hi -> same_on m m' lo' hi'.
Proof. intros S Hl Hh x Hx. apply S. lia. Qed.
Lemma same_off_on m m' lo hi lo' hi' :
  same_off m m' lo hi -> hi' <= lo \/ hi <= lo' -> same_on m m' lo' hi'.
Proof. intros S Hd x Hx. apply S. lia. Qed.
Lemma same_off_weaken m m' lo hi lo' hi' :
  same_off m m' lo hi -> lo' <= lo -> hi <= hi' -> same_off m m' lo' hi'.
Proof. intros S Hl Hh x Hx. apply S. lia. Qed.
Lemma same_off_trans m m1 m2 lo hi :
  same_off m m1 lo hi -> same_off m1 m2 lo hi -> same_off m m2 lo hi.
Proof. intros S S' x Hx. by rewrite S', S by done. Qed.
Lemma same_off_refl m lo hi : same_off m m lo hi.
Proof. by intros x Hx. Qed.

Lemma wr_bytes_off m a bs : same_off m (wr_bytes m a bs) a (a + zlen bs).
Proof. intros x Hx. unfold wr_bytes. case_if; [lia|done]. Qed.
Lemma zlen_le n v : zlen (le n v) = Z.of_nat n.
Proof. unfold zlen. by rewrite le_length. Qed.
Lemma wr_off n m a v : same_off m (wr n m a v) a (a + Z.of_nat n).
Proof. unfold wr. rewrite <- (zlen_le n v). apply wr_bytes_off. Qed.
Lemma wr_in n m a v lo hi : lo <= a -> a + Z.of_nat n <= hi -> same_off m (wr n m a v) lo hi.
Proof. intros Hl Hh. eapply same_off_weaken; [apply wr_off|lia..]. Qed.
Lemma zero_range_off m a n : same_off m (zero_range m a n) a (a + n).
Proof. intros x Hx. unfold zero_range. case_if; [lia|done]. Qed.
Lemma copy_range_off m dst src n : same_off m (copy_range m dst src n) dst (dst + n).
Proof. intros x Hx. unfold copy_range. case_if; [lia|done]. Qed.

Lemma rd_bytes_ext m m' a n : same_on m m' a (a + Z.of_nat n) -> rd_bytes m' a n = rd_bytes m a n.
Proof.
  intros S. unfold rd_bytes. apply map_ext_in. intros i Hi. apply in_seq in Hi. apply S. lia.
Qed.
Lemma rd_ext n m m' a : same_on m m' a (a + Z.of_nat n) -> rd n m' a = rd n m a.
Proof. intros S. unfold rd. by rewrite (rd_bytes_ext m m'). Qed.

Lemma rd_bytes_length m a n : length (rd_bytes m a n) = n.
Proof. unfold rd_bytes. by rewrite length_map, length_seq. Qed.
Lemma at_rd_bytes m a n i : 0 <= i < Z.of_nat n -> at_ 0 (rd_bytes m a n) i = m (a + i).
Proof.
  intros Hi. unfold at_, rd_bytes. case_if; [lia|].
  rewrite (nth_indep _ 0 (m (a + Z.of_nat 0))) by (rewrite length_map, length_seq; lia).
  rewrite (map_nth (fun i => m (a + Z.of_nat i)) _ 0%nat), seq_nth by lia. f_equal. lia.
Qed.
Lemma rd_bytes_app m a n k : rd_bytes m a (n + k) = rd_bytes m a n ++ rd_bytes m (a + Z.of_nat n) k.
Proof.
  apply (at_ext 0).
  - by rewrite length_app, !rd_bytes_length.
  - intros i. unfold zlen. rewrite rd_bytes_length. intros Hi. rewrite at_rd_bytes by done.
    destruct (decide (i < Z.of_nat n)).
    + unfold at_ at 1. destruct (i <? 0) eqn:?; [lia|]. rewrite app_nth1 by (rewrite rd_bytes_length; lia).
      pose proof (at_rd_bytes m a n i) as E. unfold at_ in E. destruct (i <? 0) eqn:?; [lia|]. rewrite E; lia || done.
    + unfold at_ at 1. destruct (i <? 0) eqn:?; [lia|]. rewrite app_nth2 by (rewrite rd_bytes_length; lia).
      rewrite rd_bytes_length. pose proof (at_rd_bytes m (a + Z.of_nat n) k (i - Z.of_nat n)) as E.
      unfold at_ in E. destruct (i - Z.of_nat n <? 0) eqn:?; [lia|].
      replace (Z.to_nat i - n)%nat with (Z.to_nat (i - Z.of_nat n)) by lia.
      rewrite E by lia. f_equal. lia.
Qed.

Lemma rd_bytes_wr m a bs n : n = length bs -> rd_bytes (wr_bytes m a bs) a n = bs.
Proof.
  intros ->. apply (at_ext 0); [apply rd_bytes_length|].
  intros i Hi. unfold zlen in Hi. rewrite rd_bytes_length in Hi. rewrite at_rd_bytes by done.
  unfold wr_bytes, zlen. case_if; [f_equal; lia|lia].
Qed.
Lemma rd_wr_same n m a v : 0 <= v < 256 ^ Z.of_nat n -> rd n (wr n m a v) a = v.
Proof.
  intros Hv. unfold rd, wr. rewrite rd_bytes_wr by (by rewrite le_length).
  by rewrite unle_le, Z.mod_small.
Qed.
Lemma rd_wr_other n k m a b v :
  a + Z.of_nat n <= b \/ b + Z.of_nat k <= a -> rd n (wr k m b v) a = rd n m a.
Proof. intros Hd. apply rd_ext. apply (same_off_on _ _ b (b + Z.of_nat k)); [apply wr_off|lia]. Qed.

(** ** Headers after writes *)

Definition WORD : Z := 18446744073709551616.
(** The end of the address space of a process. *)
Definition USER_TOP : Z := 140737488355328.

Lemma word_lt v : 0 <= v < WORD <-> 0 <= v < 256 ^ Z.of_nat 8.
Proof. by replace (256 ^ Z.of_nat 8) with WORD by reflexivity. Qed.
Lemma half_lt v : 0 <= v < 4294967296 <-> 0 <= v < 256 ^ Z.of_nat 4.
Proof. by replace (256 ^ Z.of_nat 4) with 4294967296 by reflexivity. Qed.

Ltac unfold_fields :=
  unfold h_size, h_magic, h_free, h_next, h_prev, set_size, set_magic, set_free, set_next, set_prev,
    a_next, a_first_block, a_size, a_mapped, set_a_next, set_a_first_block, set_a_size, set_a_mapped,
    t_magic, t_base.

(** Reads through the writes before them. *)
Ltac fields :=
  unfold_fields;
  repeat (first [ rewrite rd_wr_same by (apply word_lt; unfold WORD in *; lia)
                | rewrite rd_wr_same by (apply half_lt; lia)
                | rewrite rd_wr_other by lia ]).

(** ** Lists of blocks *)

Inductive block : Type :=
| Free (n : Z)
| Used (c : list Z).

Definition b_size (b : block) : Z := match b with Free n => n | Used c => zlen c end.
Definition b_free (b : block) : Z := match b with Free _ => 1 | Used _ => 0 end.
Definition b_isfree (b : block) : bool := match b with Free _ => true | Used _ => false end.
Definition b_data (m : mem) (a : Z) (b : block) : Prop :=
  match b with Free _ => True | Used c => rd_bytes m a (length c) = c end.
Definition extent (b : block) : Z := HEADER + b_size b.

Fixpoint span (bs : list block) : Z :=
  match bs with [] => 0 | b :: t => extent b + span t end.

(** The address of the first block of a list that starts at [a] and is followed
    by [nx]. *)
Definition first_at (a : Z) (bs : list block) (nx : Z) : Z :=
  match bs with [] => nx | _ => a end.
(** The address of its last block, [p] before the list. *)
Fixpoint last_at (a p : Z) (bs : list block) : Z :=
  match bs with [] => p | b :: t => last_at (a + extent b) a t end.

Definition header_at (m : mem) (a p : Z) (b : block) (nx : Z) : Prop :=
  h_size m a = b_size b /\ h_magic m a = SX_ALLOC_MAGIC /\ h_free m a = b_free b /\
  h_next m a = nx /\ h_prev m a = p /\ b_data m (a + HEADER) b.

Fixpoint chain (m : mem) (a p : Z) (bs : list block) (nx : Z) : Prop :=
  match bs with
  | [] => True
  | b :: t => header_at m a p b (first_at (a + extent b) t nx) /\ chain m (a + extent b) a t nx
  end.

Definition block_ok (b : block) : Prop := 16 <= b_size b /\ b_size b mod 16 = 0.
Definition blocks_ok (bs : list block) : Prop := Forall block_ok bs.

(** No two free neighbours. *)
Fixpoint spread (bs : list block) : bool :=
  match bs with
  | b :: (c :: _) as t => negb (b_isfree b && b_isfree c) && spread t
  | _ => true
  end.

Lemma span_app l r : span (l ++ r) = span l + span r.
Proof. induction l as [|b l IH]; simpl; [lia|]. rewrite IH. lia. Qed.
Lemma span_nonneg bs : blocks_ok bs -> 0 <= span bs.
Proof.
  induction 1 as [|b bs [Hb _] Hbs IH]; simpl; [lia|]. unfold extent, HEADER. lia.
Qed.
Lemma span_mod bs : blocks_ok bs -> span bs mod 16 = 0.
Proof.
  induction 1 as [|b bs [_ Hb] Hbs IH]; [done|]. cbn [span]. unfold extent, HEADER.
  replace (32 + b_size b + span bs) with (b_size b + span bs + 2 * 16) by lia.
  rewrite Z_mod_plus_full, Zplus_mod, Hb, IH. done.
Qed.
Lemma last_at_app a p l r : last_at a p (l ++ r) = last_at (a + span l) (last_at a p l) r.
Proof.
  revert a p. induction l as [|b l IH]; intros a p; simpl; [f_equal; lia|].
  rewrite IH. f_equal. lia.
Qed.
Lemma first_at_app a l r nx : first_at a (l ++ r) nx = first_at a l (first_at (a + span l) r nx).
Proof. destruct l as [|b l]; simpl; [f_equal; lia|done]. Qed.

Lemma chain_app m a p l r nx :
  chain m a p (l ++ r) nx <->
  chain m a p l (first_at (a + span l) r nx) /\ chain m (a + span l) (last_at a p l) r nx.
Proof.
  revert a p. induction l as [|b l IH]; intros a p; simpl.
  - replace (a + 0) with a by lia. tauto.
  - rewrite IH, first_at_app.
    replace (a + extent b + span l) with (a + (extent b + span l)) by lia. tauto.
Qed.

Lemma b_data_frame m m' a b : b_data m a b -> same_on m m' a (a + b_size b) -> b_data m' a b.
Proof. destruct b as [n|c]; [done|]. simpl. intros Hd S. by rewrite (rd_bytes_ext m m'). Qed.

Lemma header_frame m m' a p b nx :
  block_ok b -> header_at m a p b nx -> same_on m m' a (a + extent b) -> header_at m' a p b nx.
Proof.
  intros [Hb _] (H1 & H2 & H3 & H4 & H5 & H6) S. unfold extent, HEADER in *.
  revert H1 H2 H3 H4 H5. unfold header_at. unfold_fields. intros.
  rewrite !(rd_ext _ m m') by (eapply same_on_sub; [exact S|lia|lia]).
  split_and!; [done..|]. eapply b_data_frame; [done|].
  eapply same_on_sub; [exact S|unfold HEADER; lia..].
Qed.

Lemma chain_frame m m' a p bs nx :
  blocks_ok bs -> chain m a p bs nx -> same_on m m' a (a + span bs) -> chain m' a p bs nx.
Proof.
  intros Hok. revert a p. induction Hok as [|b bs Hb Hbs IH]; intros a p; simpl; [done|].
  intros [Hh Hc] S. pose proof (span_nonneg _ Hbs). assert (0 <= extent b) by (destruct Hb; unfold extent, HEADER; lia).
  split.
  - eapply header_frame; [done..|]. eapply same_on_sub; [exact S|lia..].
  - apply IH; [done|]. eapply same_on_sub; [exact S|lia..].
Qed.

(** The three ways a header of a list changes. *)
Lemma chain_prev m a p q b bs nx :
  block_ok b -> blocks_ok bs -> 0 <= q < WORD ->
  chain m a p (b :: bs) nx -> chain (set_prev a q m) a q (b :: bs) nx.
Proof.
  intros Hb Hbs Hq [Hh Hc]. pose proof (span_nonneg _ Hbs). destruct Hb as [Hb Hb'].
  assert (S : forall lo hi, a + 32 <= lo \/ hi <= a + 24 -> same_on m (set_prev a q m) lo hi).
  { intros lo hi Hd. eapply same_off_on; [apply wr_off|lia]. }
  split.
  - destruct Hh as (H1 & H2 & H3 & H4 & H5 & H6). unfold header_at.
    revert H1 H2 H3 H4 H5. fields. intros. split_and!; [done..|].
    eapply b_data_frame; [done|]. apply S. unfold HEADER. lia.
  - eapply chain_frame; [done..|]. apply S. unfold extent, HEADER. lia.
Qed.
