(* ===== verification/HeapBlocks.v ===== *)
(** * The heap allocator: splitting and merging blocks

    What [sx_absorb_next], [sx_merge_with_next], [sx_split_block] and the
    search do to a list of blocks that memory holds.  Each is a function on the
    logical list ([grow], [coalesce], [split_list]); the memory changes only
    inside the list. *)

From S2P Require Import Prelude Bytes Heap HeapFacts.

Section blocks.
Context {P : Type} `{!PageSource P}.
Implicit Types s : heap P.

(** Runs a sequence of steps that cannot fail. *)
Ltac run := unfold poke, st_bind, st_get, st_mod, st_ret; cbv beta iota.

(** A block that takes the bytes [e] after it; [b] cut to [size]. *)
Definition grow (b : block) (e : list Z) : block :=
  match b with Free n => Free (n + zlen e) | Used c => Used (c ++ e) end.
Definition chop (b : block) (size : Z) : block :=
  match b with Free _ => Free size | Used c => Used (take (Z.to_nat size) c) end.
(** A free block of size [n] before [r]. *)
Definition coalesce (n : Z) (r : list block) : list block :=
  match r with
  | Free k :: t => Free (n + HEADER + k) :: t
  | _ => Free n :: r
  end.
Definition split_list (b : block) (size : Z) (r : list block) : list block :=
  if b_size b - size <? HEADER + SX_ALLOC_MIN_SPLIT_SIZE then b :: r
  else chop b size :: coalesce (b_size b - size - HEADER) r.

(** The first block of [r] is not free. *)
Definition bounded (r : list block) : Prop :=
  match r with Free _ :: _ => False | _ => True end.
#[local] Instance bounded_dec r : Decision (bounded r).
Proof. destruct r as [|[n|c] r]; simpl; apply _. Defined.

(** What the list at [a] must be for the operations on it to be exact. *)
Definition region (m : mem) (a : Z) (bs : list block) : Prop :=
  chain m a 0 bs 0 /\ blocks_ok bs /\ 0 < a /\ a + span bs <= USER_TOP.

Lemma region_split m a l r :
  region m a (l ++ r) ->
  chain m a 0 l (first_at (a + span l) r 0) /\ chain m (a + span l) (last_at a 0 l) r 0 /\
  blocks_ok l /\ blocks_ok r /\ 0 <= span l /\ 0 <= span r /\ 0 < a /\ a + span l + span r <= USER_TOP.
Proof.
  intros (Hc & Hok & Ha & Ht). apply chain_app in Hc as [Hl Hr]. apply Forall_app in Hok as [Ol Or].
  rewrite span_app in Ht. pose proof (span_nonneg _ Ol). pose proof (span_nonneg _ Or).
  split_and!; done || lia.
Qed.

Lemma last_at_range a p l : blocks_ok l -> 0 <= p < WORD -> 0 <= a -> a + span l < WORD -> 0 <= last_at a p l < WORD.
Proof.
  intros Hok. revert a p. induction Hok as [|b l [Hb _] Hl IH]; intros a p Hp Ha Ht; [done|].
  simpl in *. pose proof (span_nonneg _ Hl). unfold extent, HEADER in *. apply IH; lia.
Qed.

Lemma grow_size b e : b_size (grow b e) = b_size b + zlen e.
Proof. destruct b; simpl; [done|]. apply zlen_app. Qed.
Lemma grow_free b e : b_free (grow b e) = b_free b.
Proof. by destruct b. Qed.
Lemma grow_data m a b e :
  b_data m a b -> rd_bytes m (a + b_size b) (length e) = e -> b_data m a (grow b e).
Proof.
  destruct b as [n|c]; [done|]. simpl. intros Hc He. rewrite length_app, rd_bytes_app, Hc.
  f_equal. exact He.
Qed.

(** The memory after the three writes of [sx_absorb_next]. *)
Definition absorbed (m : mem) (h nx : Z) : mem :=
  let m1 := set_size h (u64 (h_size m h + HEADER + h_size m nx)) m in
  let m2 := set_next h (h_next m1 nx) m1 in
  if negb (h_next m2 h =? 0) then set_prev (h_next m2 h) h m2 else m2.

Lemma absorbed_chain m h p b n r :
  chain m h p (b :: Free n :: r) 0 -> blocks_ok (b :: Free n :: r) -> 0 < h -> 0 <= p < WORD ->
  h + span (b :: Free n :: r) <= USER_TOP ->
  let m' := absorbed m h (h + extent b) in
  let e := rd_bytes m (h + extent b) (Z.to_nat (HEADER + n)) in
  chain m' h p (grow b e :: r) 0 /\ same_off m m' h (h + span (b :: Free n :: r)).
Proof.
  intros (Hb & Hf & Hr) Hok Hh Hp Ht. cbn [span first_at] in *.
  apply Forall_cons in Hok as [[Ob _] Hok]. apply Forall_cons in Hok as [[On _] Or].
  pose proof (span_nonneg _ Or) as Hs. cbn [b_size] in *.
  set (nx := h + extent b) in *. assert (Enx : nx = h + (32 + b_size b)) by done. clearbody nx.
  unfold extent in *. cbn [b_size] in *. unfold HEADER, USER_TOP, WORD in *.
  destruct Hb as (B1 & B2 & B3 & B4 & B5 & B6). destruct Hf as (F1 & F2 & F3 & F4 & F5 & _).
  cbv zeta. set (e := rd_bytes m nx (Z.to_nat (32 + n))).
  assert (He : zlen e = 32 + n) by (unfold e, zlen; rewrite rd_bytes_length; lia).
  unfold absorbed. unfold_fields. unfold h_size, h_magic, h_free, h_next, h_prev in *.
  rewrite B1, F1. cbn [b_size]. unfold u64. rewrite Z.mod_small by (unfold HEADER; lia). unfold HEADER.
  set (m1 := wr 8 m h (b_size b + 32 + n)).
  assert (E1 : rd 8 m1 (nx + 16) = first_at (nx + (32 + n)) r 0) by (unfold m1; rewrite rd_wr_other by lia; exact F4).
  rewrite E1. assert (Hfa : 0 <= first_at (nx + (32 + n)) r 0 < 18446744073709551616) by (destruct r; simpl; lia).
  set (m2 := wr 8 m1 (h + 16) (first_at (nx + (32 + n)) r 0)).
  assert (E2 : rd 8 m2 (h + 16) = first_at (nx + (32 + n)) r 0) by (unfold m2; rewrite rd_wr_same by (apply word_lt; exact Hfa); done).
  rewrite E2.
  assert (S2 : same_off m m2 h (h + 24)).
  { apply (same_off_trans _ m1); apply wr_in; lia. }
  set (m3 := if negb (first_at (nx + (32 + n)) r 0 =? 0) then wr 8 m2 (first_at (nx + (32 + n)) r 0 + 24) h else m2).
  assert (S3 : same_off m2 m3 (nx + (32 + n)) (nx + (32 + n) + 32 * (if decide (r = []) then 0 else 1))).
  { unfold m3. destruct r as [|c r]; [apply same_off_refl|]. cbn [first_at].
    destruct (nx + (32 + n) =? 0) eqn:?; [lia|]. cbn [negb]. case_decide; [done|].
    apply wr_in; lia. }
  assert (Hr' : chain m3 (h + (32 + b_size (grow b e))) h r 0).
  { rewrite grow_size, He. replace (h + (32 + (b_size b + (32 + n)))) with (nx + (32 + n)) by lia.
    destruct r as [|c r]; [done|]. cbn [first_at] in *. unfold m3. destruct (nx + (32 + n) =? 0) eqn:?; [lia|].
    pose proof Or as [Oc Or']%Forall_cons. apply (chain_prev _ _ nx); [done..|unfold WORD; lia|].
    eapply chain_frame; [done|exact Hr|]. eapply same_off_on; [exact S2|]. cbn [span]. lia. }
  assert (Hsp : r = [] \/ 48 <= span r).
  { destruct r as [|c r]; [by left|right]. pose proof Or as [[Oc _] Or']%Forall_cons.
    pose proof (span_nonneg _ Or'). cbn [span]. unfold extent, HEADER. lia. }
  split.
  - cbn [chain]. split; [|exact Hr'].
    assert (R3 : forall k a, a + Z.of_nat k <= nx -> rd k m3 a = rd k m2 a).
    { intros k a Hk. apply rd_ext. eapply same_off_on; [exact S3|]. lia. }
    unfold header_at. unfold_fields. rewrite !R3 by lia. unfold m2, m1.
    rewrite grow_size, grow_free, He.
    split_and!.
    + rewrite rd_wr_other, rd_wr_same by (try apply word_lt; unfold WORD; lia). lia.
    + rewrite !rd_wr_other by lia. exact B2.
    + rewrite !rd_wr_other by lia. exact B3.
    + rewrite rd_wr_same by (apply word_lt; exact Hfa). unfold extent, HEADER. rewrite grow_size, He.
      by replace (h + (32 + (b_size b + (32 + n)))) with (nx + (32 + n)) by lia.
    + rewrite !rd_wr_other by lia. exact B5.
    + apply grow_data.
      * eapply b_data_frame; [exact B6|]. intros x Hx. unfold HEADER in Hx. rewrite S3 by (case_decide; lia). apply S2. lia.
      * unfold e. rewrite rd_bytes_length. unfold HEADER. replace (h + 32 + b_size b) with nx by lia.
        apply rd_bytes_ext. intros x Hx. rewrite S3 by (case_decide; lia). apply S2. lia.
  - eapply same_off_trans; [eapply same_off_weaken; [exact S2|lia..]|].
    eapply same_off_weaken; [exact S3|lia|]. case_decide; [lia|]. destruct Hsp; [done|lia].
Qed.

(** A change of the end of a list, seen from the whole list. *)
Lemma region_tail m m' a l r r' :
  region m a (l ++ r) -> r <> [] -> r' <> [] -> blocks_ok r' -> span r' = span r ->
  chain m' (a + span l) (last_at a 0 l) r' 0 ->
  same_off m m' (a + span l) (a + span l + span r) ->
  region m' a (l ++ r') /\ same_off m m' a (a + span (l ++ r)).
Proof.
  intros R Hr Hr' Ok' Hs Hc S. pose proof R as (_ & _ & _ & Ht).
  apply region_split in R as (Cl & _ & Ol & _ & Sl & Sr & Ha & _). split.
  - split_and!; [|by apply Forall_app|done|rewrite !span_app in *; lia].
    apply chain_app. split; [|done].
    replace (first_at (a + span l) r' 0) with (first_at (a + span l) r 0) by (by destruct r, r').
    eapply chain_frame; [done..|]. eapply same_off_on; [exact S|lia].
  - rewrite span_app. eapply same_off_weaken; [exact S|lia..].
Qed.

Lemma region_head m a l b r :
  region m a (l ++ b :: r) ->
  header_at m (a + span l) (last_at a 0 l) b (first_at (a + span l + extent b) r 0) /\
  chain m (a + span l + extent b) (a + span l) r 0 /\ block_ok b /\ blocks_ok r /\
  0 < a + span l /\ 0 <= last_at a 0 l < WORD /\ 0 <= span r /\
  a + span l + extent b + span r <= USER_TOP.
Proof.
  intros R. apply region_split in R as (Cl & [Hh Hc] & Ol & Or & Sl & Sr & Ha & Ht).
  apply Forall_cons in Or as [Ob Or]. cbn [span] in *. pose proof (span_nonneg _ Or).
  assert (0 <= extent b) by (destruct Ob; unfold extent, HEADER; lia).
  split_and!; done || lia || (apply last_at_range; unfold WORD, USER_TOP in *; done || lia).
Qed.

Lemma with_mem_self s : with_mem s (hmem s) = s.
Proof. by destruct s. Qed.

Lemma block_ok_grow b e : block_ok b -> 0 <= zlen e -> zlen e mod 16 = 0 -> block_ok (grow b e).
Proof.
  intros [H1 H2] He He'. unfold block_ok. rewrite grow_size. split; [lia|].
  by rewrite Zplus_mod, H2, He'.
Qed.

Lemma absorb_some s a l b n r :
  region (hmem s) a (l ++ b :: Free n :: r) ->
  exists m' e, sx_absorb_next (a + span l) s = (with_mem s m', Ok true) /\ zlen e = HEADER + n /\
    region m' a (l ++ grow b e :: r) /\ same_off (hmem s) m' a (a + span (l ++ b :: Free n :: r)).
Proof.
  intros R. pose proof (region_head _ _ _ _ _ R) as ((B1 & _ & _ & B4 & _) & [F _] & Ob & Or & Hh & Hp & Sr & Ht).
  destruct F as (_ & _ & F3 & _). cbn [first_at] in B4. set (h := a + span l) in *.
  apply Forall_cons in Or as [[On Om] Or]. cbn [b_size span] in *.
  pose proof (region_split _ _ _ _ R) as (_ & C & _ & Ok' & _).
  destruct (absorbed_chain (hmem s) h (last_at a 0 l) b n r) as [C' S']; [done..|cbn [span]; lia|].
  set (e := rd_bytes (hmem s) (h + extent b) (Z.to_nat (HEADER + n))) in *.
  assert (He : zlen e = HEADER + n) by (unfold e, zlen; rewrite rd_bytes_length; unfold HEADER; lia).
  clearbody e. exists (absorbed (hmem s) h (h + extent b)), e.
  split_and!; [|done|..].
  - unfold sx_absorb_next, absorbed. run. destruct (h =? 0) eqn:E0; [lia|]. cbn [negb]. rewrite B4.
    assert (Hpos : (h + extent b =? 0) = false) by (destruct Ob; unfold extent, HEADER; lia). rewrite Hpos, F3. cbn [b_free].
    unfold sx_blocks_are_adjacent. rewrite E0, Hpos, B1.
    replace (h + HEADER + b_size b) with (h + extent b) by (unfold extent; lia). rewrite Z.eqb_refl. reflexivity.
  - assert (Og : block_ok (grow b e)).
    { apply block_ok_grow; [done|rewrite He; unfold HEADER; lia|]. rewrite He. unfold HEADER. by rewrite Zplus_mod, Om. }
    eapply region_tail; [exact R|done..| |cbn [span]; unfold extent; rewrite grow_size, He; cbn [b_size]; unfold HEADER; lia|exact C'|].
    + by apply Forall_cons.
    + cbn [span] in *. exact S'.
  - rewrite span_app. eapply same_off_weaken; [exact S'|..]; unfold h.
    + apply region_split in R. lia.
    + lia.
Qed.

Lemma absorb_none s a l b r :
  region (hmem s) a (l ++ b :: r) -> bounded r -> sx_absorb_next (a + span l) s = (s, Ok false).
Proof.
  intros R Hr. pose proof (region_head _ _ _ _ _ R) as ((B1 & _ & _ & B4 & _) & C & Ob & Or & Hh & _).
  unfold sx_absorb_next. run. set (h := a + span l) in *. destruct (h =? 0) eqn:E0; [lia|]. cbn [negb]. rewrite B4.
  destruct r as [|[n|c] r]; [done|done|]. cbn [first_at]. destruct C as [(_ & _ & F3 & _) _]. rewrite F3. cbn [b_free].
  case_if; [done|]. rewrite orb_false_iff, orb_false_iff in *. cbn in *. naive_solver.
Qed.

Lemma spread_cons b r : spread (b :: r) = negb (b_isfree b && match r with c :: _ => b_isfree c | [] => false end) && spread r.
Proof. destruct r as [|c r]; [by destruct b|done]. Qed.

Lemma spread_bounded n r : spread (Free n :: r) = true -> bounded r.
Proof. by destruct r as [|[k|c] r]. Qed.

Lemma merge_ok s a l n r :
  region (hmem s) a (l ++ Free n :: r) -> spread r = true ->
  exists m', sx_merge_with_next (a + span l) s = (with_mem s m', Ok tt) /\
    region m' a (l ++ coalesce n r) /\ same_off (hmem s) m' a (a + span (l ++ Free n :: r)).
Proof.
  intros R Hs. pose proof (region_head _ _ _ _ _ R) as ((_ & _ & B3 & _) & _ & _ & _ & Hh & _).
  unfold sx_merge_with_next. unfold st_bind at 1, st_get. cbv beta iota. rewrite B3.
  destruct (a + span l =? 0) eqn:E0; [lia|]. cbn [b_free orb Z.eqb Pos.eqb].
  unfold MERGE_FUEL. cbn [merge_loop]. unfold st_bind at 1.
  destruct (decide (bounded r)) as [Hb|Hb] .
  - rewrite (absorb_none s _ _ _ _ R Hb). exists (hmem s). rewrite with_mem_self.
    split_and!; [done| |apply same_off_refl]. destruct r as [|[k|c] r]; done.
  - destruct r as [|[k|c] r]; [done| |done].
    destruct (absorb_some _ _ _ _ _ _ R) as (m' & e & E & He & R' & S). rewrite E.
    exists m'. unfold st_bind at 1.
    pose proof (absorb_none (with_mem s m') a l _ r R') as A. rewrite A by (by eapply spread_bounded).
    split_and!; [done| |done]. cbn [coalesce grow] in *. rewrite He in R'.
    by replace (n + HEADER + k) with (n + (HEADER + k)) by lia.
Qed.

(** The flag of a block: taking a free block, giving a used one back. *)
Lemma mark_block_ok m a l b b' r :
  region m a (l ++ b :: r) -> b_size b' = b_size b -> b_data m (a + span l + HEADER) b' ->
  let m' := set_free (a + span l) (b_free b') m in
  region m' a (l ++ b' :: r) /\ same_off m m' a (a + span (l ++ b :: r)).
Proof.
  intros R Hsz Hd m'. pose proof (region_head _ _ _ _ _ R) as ((B1 & B2 & B3 & B4 & B5 & B6) & C & Ob & Or & Hh & Hp & Sr & Ht).
  set (h := a + span l) in *. assert (Ee : extent b' = extent b) by (unfold extent; lia).
  assert (S : same_off m m' (h + 12) (h + 16)) by (apply wr_in; lia).
  assert (Hx : 0 <= extent b - 32) by (destruct Ob; unfold extent, HEADER; lia).
  eapply region_tail; [exact R|done..| |cbn [span]; lia| |].
  - apply Forall_cons; split; [|done]. unfold block_ok. by rewrite Hsz.
  - cbn [chain]. rewrite Ee. split.
    + assert (0 <= b_free b' < 4294967296) by (destruct b'; simpl; lia).
      unfold header_at. rewrite Hsz. revert B1 B2 B4 B5. unfold m'. fields. intros.
      split_and!; [done..|].
      eapply b_data_frame; [exact Hd|]. eapply same_off_on; [exact S|]. unfold HEADER. lia.
    + eapply chain_frame; [done..|]. eapply same_off_on; [exact S|]. lia.
  - cbn [span]. eapply same_off_weaken; [exact S|fold h; lia..].
Qed.

(** The memory after [sx_split_block] has cut off the tail. *)
Definition carved (m : mem) (h size rem : Z) : mem :=
  let tail := h + HEADER + size in
  let m := set_size tail (rem - HEADER) m in
  let m := set_magic tail SX_ALLOC_MAGIC m in
  let m := set_free tail 1 m in
  let m := set_next tail (h_next m h) m in
  let m := set_prev tail h m in
  let m := if negb (h_next m tail =? 0) then set_prev (h_next m tail) tail m else m in
  let m := set_size h size m in
  set_next h tail m.

Lemma chop_size b size : 0 <= size <= b_size b -> b_size (chop b size) = size.
Proof. destruct b as [n|c]; simpl; [done|]. unfold zlen. rewrite length_take. lia. Qed.
Lemma chop_free b size : b_free (chop b size) = b_free b.
Proof. by destruct b. Qed.
Lemma chop_data m a b size : 0 <= size <= b_size b -> b_data m a b -> b_data m a (chop b size).
Proof.
  destruct b as [n|c]; [done|]. simpl. unfold zlen. intros Hs Hd. rewrite length_take.
  assert (E : rd_bytes m a (Z.to_nat size + (length c - Z.to_nat size)) = c)
    by (replace (Z.to_nat size + (length c - Z.to_nat size))%nat with (length c) by lia; exact Hd).
  rewrite rd_bytes_app in E. rewrite <- E at 2. rewrite take_app_length' by (rewrite rd_bytes_length; lia).
  f_equal. lia.
Qed.

Lemma carved_chain m h p b size r :
  chain m h p (b :: r) 0 -> blocks_ok (b :: r) -> 0 < h -> 0 <= p < WORD -> h + span (b :: r) <= USER_TOP ->
  16 <= size -> size + HEADER + 16 <= b_size b ->
  let m' := carved m h size (b_size b - size) in
  chain m' h p (chop b size :: Free (b_size b - size - HEADER) :: r) 0 /\
  same_off m m' h (h + span (b :: r)).
Proof.
  intros [Hb Hr] Hok Hh Hp Ht Hs1 Hs2. apply Forall_cons in Hok as [[Ob _] Or].
  pose proof (span_nonneg _ Or) as Hs. cbn [span] in Ht.
  destruct Hb as (B1 & B2 & B3 & B4 & B5 & B6).
  cbv zeta. unfold carved. set (nx := first_at (h + extent b) r 0) in *.
  assert (Hnx : 0 <= nx < WORD) by (unfold nx; destruct r; simpl; unfold WORD, USER_TOP, extent, HEADER in *; lia).
  unfold extent, HEADER, WORD, USER_TOP in *. set (tail := h + 32 + size).
  assert (Et : tail = h + 32 + size) by done. clearbody tail.
  set (m3 := set_free tail 1 _).
  assert (E3 : h_next m3 h = nx) by (rewrite <- B4; unfold m3; fields; done). rewrite E3.
  set (m4 := set_prev tail h (set_next tail nx m3)).
  assert (E4 : h_next m4 tail = nx) by (unfold m4; fields; done). rewrite E4.
  set (m5 := if negb (nx =? 0) then set_prev nx tail m4 else m4).
  assert (S4 : same_off m m4 tail (tail + 32)).
  { unfold m4, m3. repeat (eapply same_off_trans; [|apply wr_in; lia]). apply same_off_refl. }
  set (hr := h + (32 + b_size b)) in *. assert (Ehr : hr = h + (32 + b_size b)) by done. clearbody hr.
  assert (S5 : same_off m4 m5 hr (hr + 32 * (if decide (r = []) then 0 else 1))).
  { unfold m5, nx. destruct r as [|c r]; [apply same_off_refl|]. cbn [first_at].
    destruct (hr =? 0) eqn:?; [lia|]. cbn [negb]. case_decide; [done|]. apply wr_in; lia. }
  set (m7 := set_next h tail (set_size h size m5)).
  assert (S7 : same_off m5 m7 h (h + 24)) by (apply (same_off_trans _ (set_size h size m5)); apply wr_in; lia).
  assert (Hr' : chain m7 hr tail r 0).
  { destruct r as [|c r]; [done|]. pose proof Or as [Oc Or']%Forall_cons.
    apply (chain_frame m5); [done| |eapply same_off_on; [exact S7|lia]].
    unfold m5, nx. cbn [first_at]. destruct (hr =? 0) eqn:?; [lia|]. cbn [negb].
    apply (chain_prev _ _ h); [done..|unfold WORD; lia|].
    eapply chain_frame; [done|exact Hr|]. eapply same_off_on; [exact S4|lia]. }
  assert (Hsp : r = [] \/ 48 <= span r).
  { destruct r as [|c r]; [by left|right]. pose proof Or as [[Oc _] Or']%Forall_cons.
    pose proof (span_nonneg _ Or'). cbn [span]. unfold extent, HEADER. lia. }
  assert (R5 : forall k x, x + Z.of_nat k <= hr -> rd k m5 x = rd k m4 x).
  { intros k x Hk. apply rd_ext. eapply same_off_on; [exact S5|]. lia. }
  assert (R7 : forall k x, h + 24 <= x -> x + Z.of_nat k <= hr -> rd k m7 x = rd k m4 x).
  { intros k x Hk Hk'. rewrite <- R5 by lia. apply rd_ext. eapply same_off_on; [exact S7|]. lia. }
  split.
  - cbn [chain]. unfold extent. rewrite chop_size by lia. cbn [b_size]. unfold HEADER.
    replace (h + (32 + size)) with tail by lia. replace (tail + (32 + (b_size b - size - 32))) with hr by lia.
    split_and!; [| |exact Hr'].
    + unfold header_at. rewrite chop_size, chop_free by lia. cbn [first_at].
      split_and!.
      * unfold m7. fields. done.
      * unfold m7. unfold_fields. rewrite !rd_wr_other, R5 by lia. rewrite <- B2. unfold m4, m3. fields. done.
      * unfold m7. unfold_fields. rewrite !rd_wr_other, R5 by lia. rewrite <- B3. unfold m4, m3. fields. done.
      * unfold m7. fields. done.
      * unfold m7. unfold_fields. rewrite !rd_wr_other, R5 by lia. rewrite <- B5. unfold m4, m3. fields. done.
      * eapply (b_data_frame m).
        -- apply chop_data; [lia|exact B6].
        -- rewrite chop_size by lia. unfold HEADER. intros x Hx. rewrite S7, S5, S4 by (case_decide; lia || lia). done.
    + unfold header_at. cbn [b_size b_free b_data].
      assert (Hn : first_at hr r 0 = nx) by done. rewrite Hn.
      split_and!; [| | | | |done]; unfold_fields; rewrite R7 by lia; unfold m4, m3, SX_ALLOC_MAGIC; fields; done.
  - cbn [span]. unfold extent, HEADER.
    apply (same_off_trans _ m4); [eapply same_off_weaken; [exact S4|lia..]|].
    apply (same_off_trans _ m5); [eapply same_off_weaken; [exact S5|lia|]|eapply same_off_weaken; [exact S7|lia..]].
    case_decide; [lia|]. destruct Hsp; [done|lia].
Qed.

Lemma split_ok s a l b size r :
  region (hmem s) a (l ++ b :: r) -> spread r = true -> 16 <= size -> size mod 16 = 0 -> size <= b_size b ->
  exists m', sx_split_block (a + span l) size s = (with_mem s m', Ok tt) /\
    region m' a (l ++ split_list b size r) /\ same_off (hmem s) m' a (a + span (l ++ b :: r)).
Proof.
  intros R Hs Hsz Hm Hle. pose proof (region_head _ _ _ _ _ R) as ((B1 & _) & _ & Ob & Or & Hh & Hp & Sr & Ht).
  unfold sx_split_block. unfold st_bind at 1, st_get. cbv beta iota. rewrite B1.
  destruct (a + span l =? 0) eqn:E0; [lia|]. cbn [orb]. unfold split_list.
  destruct (b_size b <=? size) eqn:E1.
  { exists (hmem s). rewrite with_mem_self. unfold SX_ALLOC_MIN_SPLIT_SIZE, SX_ALLOC_ALIGNMENT, HEADER.
    case_if; [|lia]. split_and!; [done..|apply same_off_refl]. }
  case_if.
  { exists (hmem s). rewrite with_mem_self. split_and!; [done..|apply same_off_refl]. }
  unfold SX_ALLOC_MIN_SPLIT_SIZE, SX_ALLOC_ALIGNMENT, HEADER in *.
  pose proof (region_split _ _ _ _ R) as (_ & C & _ & Ok' & _ & _ & _ & Ht').
  destruct (carved_chain (hmem s) (a + span l) (last_at a 0 l) b size r) as [C' S']; [done..|lia|lia|unfold HEADER; lia|].
  set (m1 := carved _ _ _ _) in *. unfold HEADER in *.
  assert (Ofree : block_ok (Free (b_size b - size - 32))).
  { destruct Ob as [Ob Ob']. split; cbn [b_size]; [lia|].
    replace (b_size b - size - 32) with (b_size b - size + (-2) * 16) by lia.
    rewrite Z_mod_plus_full, Zminus_mod, Ob', Hm. done. }
  destruct (region_tail (hmem s) m1 a l (b :: r) (chop b size :: Free (b_size b - size - 32) :: r)) as [R1 S1]; [done..| | |done|exact S'|].
  { repeat (apply Forall_cons; split; [|done || idtac]); [|done].
    unfold block_ok. rewrite chop_size by lia. done. }
  { cbn [span]. unfold extent. rewrite chop_size by lia. cbn [b_size]. unfold HEADER. lia. }
  change (chop b size :: Free (b_size b - size - 32) :: r) with ([chop b size] ++ Free (b_size b - size - 32) :: r) in R1.
  rewrite app_assoc in R1.
  destruct (merge_ok (with_mem s m1) a (l ++ [chop b size]) _ r R1 Hs) as (m2 & E2 & R2 & S2).
  exists m2. split_and!.
  - rewrite span_app in E2. cbn [span] in E2. unfold extent in E2. rewrite chop_size in E2 by lia. unfold HEADER in E2.
    replace (a + (span l + (32 + size + 0))) with (a + span l + 32 + size) in E2 by lia.
    exact E2.
  - rewrite <- app_assoc in R2. exact R2.
  - eapply same_off_trans; [exact S1|]. eapply same_off_weaken; [exact S2|lia|].
    rewrite !span_app. cbn [span hmem with_mem]. unfold extent. rewrite chop_size by lia. cbn [b_size]. unfold HEADER. lia.
Qed.
End blocks.
