(* ===== verification/HeapArenas.v ===== *)
(** * The heap allocator: arenas

    The list of arenas as memory holds it, the contract of the page source, and
    what the operations on arenas do: the first arena, asking for a new one,
    finding the one an address is in, the first-fit search, and giving an empty
    one back. *)

From S2P Require Import Prelude Bytes Heap HeapFacts HeapBlocks.

(** ** The page source

    [docs/userland/NATIVE_HEAP.md]: a multiple of 4 KiB, zeroed and private, or
    null; unmap gets exactly what one map returned.  [pages_ok p rs] says that
    [rs] are the ranges mapped in state [p]. *)

Definition apart (r r' : Z * Z) : Prop := r.1 + r.2 <= r'.1 \/ r'.1 + r'.2 <= r.1.

Class PageLaws (P : Type) `{!PageSource P} := {
  pages_ok : P -> list (Z * Z) -> Prop;
  pages_map_some p rs n p' a :
    pages_ok p rs -> 0 < n -> n mod SX_ARENA_PAGE_SIZE = 0 -> pages_map p n = (p', Some a) ->
    0 < a /\ a mod SX_ARENA_PAGE_SIZE = 0 /\ a + n <= USER_TOP /\
    Forall (apart (a, n)) rs /\ apart (a, n) (bss_base, SX_HEAP_SIZE) /\ pages_ok p' ((a, n) :: rs);
  pages_map_none p rs n p' : pages_ok p rs -> pages_map p n = (p', None) -> pages_ok p' rs;
  pages_unmap_ok p l a n r : pages_ok p (l ++ (a, n) :: r) -> pages_ok (pages_unmap p a n) (l ++ r);
  bss_place : 0 < bss_base /\ bss_base mod SX_ALLOC_ALIGNMENT = 0 /\ bss_base + SX_HEAP_SIZE <= USER_TOP;
}.

(** ** Search in a list of blocks *)

Definition fits (size : Z) (b : block) : bool :=
  match b with Free n => size <=? n | Used _ => false end.

Lemma blocks_length bs : blocks_ok bs -> 48 * zlen bs <= span bs.
Proof.
  unfold zlen. induction 1 as [|b bs [Hb _] Hbs IH]; simpl; [lia|]. unfold extent, HEADER. lia.
Qed.

Lemma find_blocks_ok m size n bs a p :
  chain m a p bs 0 -> blocks_ok bs -> 0 < a -> (length bs < n)%nat ->
  (exists l k r, bs = l ++ Free k :: r /\ size <= k /\ Forall (fun b => fits size b = false) l /\
     find_in_blocks n m (first_at a bs 0) size = Some (a + span l)) \/
  (Forall (fun b => fits size b = false) bs /\ find_in_blocks n m (first_at a bs 0) size = Some 0).
Proof.
  intros Hc Hok. revert n a p Hc. induction Hok as [|b bs [Hb Hb'] Hbs IH]; intros n a p Hc Ha Hn.
  { right. split; [constructor|]. destruct n as [|n]; [simpl in Hn; lia|]. done. }
  destruct n as [|n]; [simpl in Hn; lia|]. destruct Hc as [(B1 & _ & B3 & B4 & _) Hc]. cbn [first_at find_in_blocks].
  destruct (a =? 0) eqn:?; [lia|]. rewrite B1, B3, B4.
  assert (Hext : 0 < a + extent b) by (unfold extent, HEADER; lia). simpl in Hn.
  destruct (IH n _ _ Hc Hext) as [(l & k & r & -> & Hk & Hl & Hf)|[Hl Hf]]; [lia|..].
  - destruct (fits size b) eqn:Hb0.
    + left. destruct b as [k'|c]; [|done]. simpl in Hb0. exists [], k', (l ++ Free k :: r). cbn [b_free b_size span].
      split_and!; [done|lia|constructor|]. destruct (k' >=? size) eqn:?; [|lia]. simpl. f_equal. lia.
    + left. exists (b :: l), k, r. split_and!; [done..|by constructor|].
      replace (negb (b_free b =? 0) && (b_size b >=? size)) with false by (destruct b; simpl in *; lia || done).
      rewrite Hf. f_equal. cbn [span]. lia.
  - destruct (fits size b) eqn:Hb0.
    + left. destruct b as [k'|c]; [|done]. simpl in Hb0. exists [], k', bs. cbn [b_free b_size span].
      split_and!; [done|lia|constructor|]. destruct (k' >=? size) eqn:?; [|lia]. simpl. f_equal. lia.
    + right. split; [by constructor|].
      replace (negb (b_free b =? 0) && (b_size b >=? size)) with false by (destruct b; simpl in *; lia || done).
      exact Hf.
Qed.

(** ** Lists of arenas *)

Record arena := mk_arena { ar_base : Z; ar_size : Z; ar_mapped : bool; ar_blocks : list block }.
Definition ar_range (A : arena) : Z * Z := (ar_base A, ar_size A).
Definition with_blocks (A : arena) (bs : list block) : arena :=
  mk_arena (ar_base A) (ar_size A) (ar_mapped A) bs.
Definition ar_start (A : arena) : Z := ar_base A + 32.

Definition arena_rep (m : mem) (A : arena) (nx : Z) : Prop :=
  a_next m (ar_base A) = nx /\ a_first_block m (ar_base A) = ar_start A /\
  a_size m (ar_base A) = ar_size A /\ a_mapped m (ar_base A) = Z.b2z (ar_mapped A) /\
  region m (ar_start A) (ar_blocks A).
Definition arena_ok (A : arena) : Prop :=
  0 < ar_base A /\ ar_base A mod 16 = 0 /\ ar_size A = 32 + span (ar_blocks A) /\
  ar_base A + ar_size A <= USER_TOP /\ ar_blocks A <> [] /\ spread (ar_blocks A) = true.

Definition first_base (As : list arena) (nx : Z) : Z := match As with [] => nx | A :: _ => ar_base A end.
Fixpoint arenas (m : mem) (As : list arena) (nx : Z) : Prop :=
  match As with
  | [] => True
  | A :: t => arena_rep m A (first_base t nx) /\ arenas m t nx
  end.

Lemma first_base_app l r nx : first_base (l ++ r) nx = first_base l (first_base r nx).
Proof. by destruct l. Qed.
Lemma arenas_app m l r nx : arenas m (l ++ r) nx <-> arenas m l (first_base r nx) /\ arenas m r nx.
Proof. induction l as [|A l IH]; simpl; [tauto|]. rewrite IH, first_base_app. tauto. Qed.

Lemma region_frame m m' a bs : region m a bs -> same_on m m' a (a + span bs) -> region m' a bs.
Proof. intros (Hc & Hok & Ha & Ht) S. split_and!; [by eapply chain_frame|done..]. Qed.

Lemma arena_frame m m' A nx :
  arena_ok A -> arena_rep m A nx -> same_on m m' (ar_base A) (ar_base A + ar_size A) -> arena_rep m' A nx.
Proof.
  intros (_ & _ & Hsz & _) (H1 & H2 & H3 & H4 & R) S. pose proof R as (_ & Ok' & _).
  pose proof (span_nonneg _ Ok'). unfold ar_start in *.
  assert (Rd : forall k x, ar_base A <= x -> x + Z.of_nat k <= ar_base A + 32 -> rd k m' x = rd k m x).
  { intros k x Hx Hk. apply rd_ext. eapply same_on_sub; [exact S|lia..]. }
  revert H1 H2 H3 H4. unfold arena_rep. unfold_fields. intros. rewrite !Rd by lia.
  split_and!; [done..|]. eapply region_frame; [exact R|]. eapply same_on_sub; [exact S|unfold ar_start; lia..].
Qed.

Lemma arenas_frame m m' As nx :
  Forall arena_ok As -> arenas m As nx ->
  Forall (fun A => same_on m m' (ar_base A) (ar_base A + ar_size A)) As -> arenas m' As nx.
Proof.
  intros Hok. induction Hok as [|A As HA HAs IH]; [done|]. intros [Hr Hrs] [HS HSs]%Forall_cons.
  split; [by eapply arena_frame|by apply IH].
Qed.

Fixpoint all_apart (rs : list (Z * Z)) : Prop :=
  match rs with [] => True | r :: t => Forall (apart r) t /\ all_apart t end.

Lemma apart_sym r r' : apart r r' -> apart r' r.
Proof. unfold apart. lia. Qed.
Lemma all_apart_mid l r t : all_apart (l ++ r :: t) <-> Forall (apart r) (l ++ t) /\ all_apart (l ++ t).
Proof.
  induction l as [|x l IH]; simpl; [tauto|]. rewrite IH, !Forall_app, !Forall_cons, Forall_app.
  split; intros; destruct_and!; split_and!; auto using apart_sym.
Qed.

Lemma apart_same m m' A A' :
  same_off m m' (ar_base A) (ar_base A + ar_size A) -> apart (ar_range A) (ar_range A') ->
  same_on m m' (ar_base A') (ar_base A' + ar_size A').
Proof. intros S Ha. eapply same_off_on; [exact S|]. unfold apart, ar_range in Ha. simpl in Ha. lia. Qed.

Definition mapped_ranges (As : list arena) : list (Z * Z) :=
  flat_map (fun A => if ar_mapped A then [ar_range A] else []) As.
Fixpoint range_sum (rs : list (Z * Z)) : Z := match rs with [] => 0 | r :: t => r.2 + range_sum t end.

Section arenas.
Context {P : Type} `{!PageSource P} `{!PageLaws P}.
Implicit Types s : heap P.

Ltac run := unfold poke, st_bind, st_get, st_mod, st_ret; cbv beta iota.

Record good (s : heap P) (As : list arena) : Prop := {
  go_list : g_arenas s = first_base As 0;
  go_rep : arenas (hmem s) As 0;
  go_ok : Forall arena_ok As;
  go_apart : all_apart (map ar_range As);
  go_boot : exists Ms B, As = Ms ++ [B] /\ Forall (fun A => ar_mapped A = true) Ms /\
                         ar_mapped B = false /\ ar_range B = (bss_base, SX_HEAP_SIZE);
  go_len : zlen As <= 1 + SX_ARENA_CAPACITY;
  go_count : g_mapped_arena_count s = zlen As - 1;
  go_bytes : g_mapped_bytes s = range_sum (mapped_ranges As);
  go_pages : pages_ok (pages s) (mapped_ranges As);
}.

(** A heap no function has used yet. *)
Definition fresh (s : heap P) : Prop :=
  g_arenas s = 0 /\ g_mapped_arena_count s = 0 /\ g_mapped_bytes s = 0 /\ pages_ok (pages s) [].

(** Rewriting the blocks of one arena. *)
Lemma good_blocks s L A R bs m' :
  good s (L ++ A :: R) -> region m' (ar_start A) bs -> bs <> [] -> spread bs = true ->
  span bs = span (ar_blocks A) ->
  same_off (hmem s) m' (ar_start A) (ar_start A + span (ar_blocks A)) ->
  good (with_mem s m') (L ++ with_blocks A bs :: R).
Proof.
  intros [g1 g2 g3 g4 g5 g6 g7 g8 g9] Hr Hne Hsp Hspan S.
  assert (Em : map ar_range (L ++ with_blocks A bs :: R) = map ar_range (L ++ A :: R)) by (by rewrite !map_app).
  assert (Er : mapped_ranges (L ++ with_blocks A bs :: R) = mapped_ranges (L ++ A :: R))
    by (unfold mapped_ranges; by rewrite !flat_map_app).
  assert (El : zlen (L ++ with_blocks A bs :: R) = zlen (L ++ A :: R)) by (unfold zlen; by rewrite !length_app).
  pose proof g3 as [OL [OA OR]%Forall_cons]%Forall_app. destruct OA as (O1 & O2 & O3 & O4 & O5 & O6).
  assert (S' : same_off (hmem s) m' (ar_base A) (ar_base A + ar_size A)).
  { eapply same_off_weaken; [exact S|unfold ar_start; lia..]. }
  pose proof g4 as Hap. rewrite map_app in Hap. cbn [map] in Hap. apply all_apart_mid in Hap as [Hap _]. rewrite <- map_app in Hap.
  constructor; rewrite ?Em, ?Er, ?El; cbn [with_mem g_arenas hmem g_mapped_arena_count g_mapped_bytes pages]; auto.
  - rewrite g1, !first_base_app. done.
  - apply arenas_app in g2 as [gL [gA gR]].
    apply Forall_map, Forall_app in Hap as [HaL HaR].
    apply arenas_app. split; [|split].
    + eapply arenas_frame; [done|exact gL|]. eapply Forall_impl; [exact HaL|]. intros A' HA'. by eapply apart_same.
    + destruct gA as (A1 & A2 & A3 & A4 & A5). unfold arena_rep, with_blocks, ar_start in *. cbn [ar_base ar_size ar_mapped ar_blocks].
      assert (Rd : forall k x, x + Z.of_nat k <= ar_base A + 32 -> rd k m' x = rd k (hmem s) x).
      { intros k x Hk. apply rd_ext. eapply same_off_on; [exact S|lia]. }
      revert A1 A2 A3 A4. unfold_fields. intros. rewrite !Rd by lia. done.
    + eapply arenas_frame; [done|exact gR|]. eapply Forall_impl; [exact HaR|]. intros A' HA'. by eapply apart_same.
  - apply Forall_app. split; [done|]. apply Forall_cons. split; [|done].
    unfold arena_ok, with_blocks. cbn. split_and!; done || lia.
  - destruct g5 as (Ms & B & E & HM & HB & HR). destruct R as [|A' R].
    + apply app_inj_tail in E as [-> ->]. exists Ms, (with_blocks B bs). done.
    + destruct (exists_last (l:=A' :: R)) as (R' & B' & ER); [done|]. rewrite ER in *.
      rewrite app_comm_cons, app_assoc in E. apply app_inj_tail in E as [<- <-].
      exists (L ++ with_blocks A bs :: R'), B'. rewrite <- app_assoc. split_and!; [done| |done..].
      apply Forall_app in HM as [HL [HA HR']%Forall_cons]. apply Forall_app. split; [done|]. by apply Forall_cons.
Qed.

Lemma good_at s L A R :
  good s (L ++ A :: R) ->
  arena_ok A /\ arena_rep (hmem s) A (first_base R 0) /\ Forall (apart (ar_range A)) (map ar_range (L ++ R)) /\
  (length (L ++ A :: R) <= 9)%nat.
Proof.
  intros [g1 g2 g3 g4 g5 g6 _ _ _]. apply Forall_app in g3 as [_ [OA _]%Forall_cons].
  apply arenas_app in g2 as [_ [gA _]]. rewrite map_app in g4. apply all_apart_mid in g4 as [Hap _].
  rewrite <- map_app in Hap. unfold zlen, SX_ARENA_CAPACITY in g6. split_and!; [done..|lia].
Qed.

Lemma arena_for_loop_ok m n L A R target :
  arenas m (L ++ A :: R) 0 -> Forall arena_ok (L ++ A :: R) ->
  Forall (fun A' => ~ ar_base A' <= target < ar_base A' + ar_size A') L ->
  ar_start A <= target < ar_base A + ar_size A -> (length L < n)%nat ->
  arena_for_loop n m (first_base (L ++ A :: R) 0) target = Some (ar_base A).
Proof.
  intros Hm Hok HL Ht. revert n. induction L as [|A' L IH]; intros n Hn.
  - destruct n as [|n]; [lia|]. destruct Hm as [(_ & _ & H3 & _) _]. apply Forall_cons in Hok as [(Hb & _) _].
    cbn [app first_base arena_for_loop]. unfold sx_arena_payload, ar_start in *. change sx_arena_header_bytes with 32.
    rewrite H3. case_if; [lia|]. case_if; [done|lia].
  - destruct n as [|n]; [simpl in Hn; lia|]. destruct Hm as [(H1 & _ & H3 & _) Hm]. apply Forall_cons in Hok as [(Hb & _) Hok].
    apply Forall_cons in HL as [HA' HL]. cbn [app first_base arena_for_loop].
    unfold sx_arena_payload. change sx_arena_header_bytes with 32. rewrite H1, H3.
    case_if; [lia|]. case_if; [lia|]. apply IH; [done..|simpl in Hn; lia].
Qed.

Lemma arena_for_ok s L A R target :
  good s (L ++ A :: R) -> ar_start A <= target < ar_base A + ar_size A ->
  sx_arena_for_address target s = (s, Ok (ar_base A)).
Proof.
  intros G Ht. destruct (good_at _ _ _ _ G) as (OA & _ & Hap & Hlen). destruct G as [g1 g2 g3 _ _ _ _ _ _].
  unfold sx_arena_for_address. run. unfold look. rewrite g1, arena_for_loop_ok; [done..| |done|].
  - rewrite map_app in Hap. apply Forall_app in Hap as [Hap _]. rewrite Forall_map in Hap.
    eapply Forall_impl; [exact Hap|]. intros A' HA'. unfold apart, ar_range, ar_start in *. simpl in HA'. lia.
  - unfold ARENA_FUEL. rewrite length_app in Hlen. simpl in Hlen. lia.
Qed.

(** First fit over the whole heap. *)
Definition no_fit (size : Z) (A : arena) : Prop := Forall (fun b => fits size b = false) (ar_blocks A).

Lemma find_arenas_ok m size n As :
  arenas m As 0 -> Forall arena_ok As -> (length As < n)%nat ->
  (exists L A R l k r, As = L ++ A :: R /\ ar_blocks A = l ++ Free k :: r /\ size <= k /\
     Forall (no_fit size) L /\ Forall (fun b => fits size b = false) l /\
     find_in_arenas n m (first_base As 0) size = Some (ar_start A + span l)) \/
  (Forall (no_fit size) As /\ find_in_arenas n m (first_base As 0) size = Some 0).
Proof.
  intros Hm Hok. revert n. induction Hok as [|A As OA OAs IH]; intros n Hn.
  { right. split; [constructor|]. by destruct n; [lia|]. }
  destruct n as [|n]; [simpl in Hn; lia|]. destruct Hm as [(H1 & H2 & H3 & _ & Rg) Hm].
  destruct OA as (O1 & O2 & O3 & O4 & O5 & O6). pose proof Rg as (Hc & Hbok & Hst & _).
  cbn [first_base find_in_arenas]. destruct (ar_base A =? 0) eqn:?; [lia|]. unfold block_fuel. rewrite H1, H2, H3.
  pose proof (blocks_length _ Hbok) as Hlen. unfold zlen in Hlen.
  assert (Hfuel : (length (ar_blocks A) < S (Z.to_nat (ar_size A / 48)))%nat).
  { assert (Z.of_nat (length (ar_blocks A)) <= ar_size A / 48) by (apply Z.div_le_lower_bound; lia). lia. }
  pose proof (find_blocks_ok m size _ _ _ _ Hc Hbok Hst Hfuel) as F.
  replace (first_at (ar_start A) (ar_blocks A) 0) with (ar_start A) in F by (by destruct (ar_blocks A)).
  destruct F as [(l & k & r & E & Hk & Hl & Hf)|[Hl Hf]].
  - left. exists [], A, As, l, k, r. split_and!; [done..|]. rewrite Hf.
    assert (blocks_ok l) by (rewrite E in Hbok; by apply Forall_app in Hbok as [? _]).
    pose proof (span_nonneg l ltac:(done)). case_if; [done|]. lia.
  - rewrite Hf. cbn [Z.eqb negb]. destruct (IH Hm n) as [(L & A' & R & l & k & r & -> & E & Hk & HL & Hl' & Hf')|[HL Hf']].
    + simpl in Hn. lia.
    + left. exists (A :: L), A', R, l, k, r. split_and!; [done..| |done|done]. by constructor.
    + right. split; [by constructor|done].
Qed.

(** ** New arenas *)

Definition new_arena (base size : Z) (mapped : bool) : arena :=
  mk_arena base size mapped [Free (size - 64)].

Lemma new_arena_ok base size mapped :
  0 < base -> base mod 16 = 0 -> 96 < size -> base + size <= USER_TOP -> arena_ok (new_arena base size mapped).
Proof.
  intros. unfold arena_ok, new_arena. cbn [ar_base ar_size ar_blocks span spread]. unfold extent, HEADER. cbn [b_size].
  split_and!; done || lia.
Qed.

Lemma stamp_ok s base size mapped :
  0 < base -> 96 < size -> size mod 16 = 0 -> base + size <= USER_TOP -> 0 <= g_arenas s < WORD ->
  exists m', sx_arena_stamp base size (Z.b2z mapped) s = (with_arenas (with_mem s m') base, Ok base) /\
    arena_rep m' (new_arena base size mapped) (g_arenas s) /\ same_off (hmem s) m' base (base + 64).
Proof.
  intros Hb Hs Hm Ht Hg. unfold sx_arena_stamp. unfold SX_ALLOC_MIN_SPLIT_SIZE, SX_ALLOC_ALIGNMENT, sx_arena_overhead, HEADER.
  change sx_arena_header_bytes with 32. case_if; [lia|]. run.
  unfold sx_arena_payload, sx_arena_initial_block_size, sx_arena_overhead, HEADER. change sx_arena_header_bytes with 32.
  cbn [with_mem hmem g_arenas]. set (m0 := set_a_mapped _ _ _).
  assert (E0 : a_size m0 base = size) by (unfold m0; fields; unfold WORD, USER_TOP in *; lia || by rewrite rd_wr_same by (apply word_lt; unfold WORD; lia)).
  rewrite E0. set (m' := set_a_next _ _ _). exists m'. split; [reflexivity|]. split.
  - unfold arena_rep, new_arena, ar_start. cbn [ar_base ar_size ar_mapped ar_blocks].
    assert (0 <= Z.b2z mapped < 4294967296) by (destruct mapped; simpl; lia).
    assert (Hsz : 0 <= size < WORD) by (unfold WORD, USER_TOP in *; lia).
    split_and!.
    + unfold m'. fields. done.
    + unfold m'. fields; unfold USER_TOP in *; lia || by rewrite rd_wr_same by (apply word_lt; unfold WORD; lia).
    + unfold m', m0. fields. done.
    + unfold m', m0. fields. done.
    + unfold region. cbn [chain span first_at]. unfold header_at, extent, HEADER. cbn [b_size b_free b_data].
      split_and!; try done || lia.
      * unfold m'. unfold WORD in *. fields. lia.
      * unfold m', SX_ALLOC_MAGIC. fields. done.
      * unfold m'. fields. done.
      * unfold m'. fields. done.
      * unfold m'. fields. done.
      * constructor; [|done]. split; cbn [b_size]; [lia|].
        replace (size - 64) with (size + (-4) * 16) by lia. by rewrite Z_mod_plus_full.
  - unfold m', m0. repeat (eapply same_off_trans; [|apply wr_in; lia]). apply same_off_refl.
Qed.


Lemma arena_size_pos m A nx : arena_ok A -> arena_rep m A nx -> 32 <= ar_size A.
Proof. intros (_ & _ & O3 & _) (_ & _ & _ & _ & _ & Ok' & _). pose proof (span_nonneg _ Ok'). lia. Qed.

Lemma good_first s As : good s As -> 0 < g_arenas s < USER_TOP.
Proof.
  intros [g1 g2 g3 _ (Ms & B & -> & _) _ _ _ _]. rewrite g1.
  destruct (Ms ++ [B]) as [|A R] eqn:E; [by destruct Ms|]. apply Forall_cons in g3 as [OA _].
  destruct g2 as [gA _]. pose proof (arena_size_pos _ _ _ OA gA). destruct OA as (O1 & _ & _ & O4 & _).
  cbn [first_base]. lia.
Qed.

Lemma init_fresh s :
  fresh s -> exists m', sx_allocator_init s = (with_arenas (with_mem s m') bss_base, Ok tt) /\
    good (with_arenas (with_mem s m') bss_base) [new_arena bss_base SX_HEAP_SIZE false].
Proof.
  intros (f1 & f2 & f3 & f4). destruct bss_place as (B1 & B2 & B3). unfold SX_ALLOC_ALIGNMENT in B2.
  destruct (stamp_ok s bss_base SX_HEAP_SIZE false) as (m' & E & R & S); [done|unfold SX_HEAP_SIZE; lia|done|done|rewrite f1; unfold WORD; lia|].
  exists m'. split.
  - unfold sx_allocator_init. unfold st_bind, st_get, st_ret. rewrite f1. cbn [Z.eqb negb]. cbn [Z.b2z] in E. by rewrite E.
  - constructor; cbn [with_arenas with_mem g_arenas hmem g_mapped_arena_count g_mapped_bytes pages]; auto.
    + cbn [arenas first_base]. rewrite f1 in R. done.
    + constructor; [|constructor]. apply new_arena_ok; unfold SX_HEAP_SIZE in *; done || lia.
    + simpl. auto.
    + by exists [], (new_arena bss_base SX_HEAP_SIZE false).
    + done.
Qed.

Lemma init_good s As : good s As -> sx_allocator_init s = (s, Ok tt).
Proof.
  intros G. pose proof (good_first _ _ G). unfold sx_allocator_init. run. case_if; [done|lia].
Qed.

Lemma round_up_spec x k :
  0 <= k -> let q := 2 ^ k in round_up x q mod q = 0 /\ x <= round_up x q < x + q.
Proof.
  intros Hk q. assert (Hq : 0 < q) by (apply Z.pow_pos_nonneg; lia).
  assert (E : round_up x q = (x + (q - 1)) / q * q).
  { unfold round_up, q. rewrite <- (Z.ones_equiv k) at 2.
    replace (Z.pred (2 ^ k)) with (Z.ones k) by apply Z.ones_equiv.
    rewrite Z.ldiff_ones_r, Z.shiftl_mul_pow2, Z.shiftr_div_pow2 by done. done. }
  rewrite E. split; [apply Z.mod_mul; lia|].
  pose proof (Z.div_mod (x + (q - 1)) q ltac:(lia)). pose proof (Z.mod_pos_bound (x + (q - 1)) q Hq). lia.
Qed.

Lemma mapped_ranges_boot Ms B :
  Forall (fun A => ar_mapped A = true) Ms -> ar_mapped B = false ->
  mapped_ranges (Ms ++ [B]) = map ar_range Ms.
Proof.
  intros HM HB. unfold mapped_ranges. rewrite flat_map_app. cbn [flat_map]. rewrite HB, !app_nil_r.
  induction HM as [|A Ms HA HM IH]; [done|]. cbn [flat_map map]. rewrite HA. simpl. by f_equal.
Qed.

Lemma range_sum_bound m As nx :
  Forall arena_ok As -> arenas m As nx -> 0 <= range_sum (mapped_ranges As) <= zlen As * USER_TOP.
Proof.
  intros Hok. induction Hok as [|A As OA OAs IH]; intros Hm; [done|]. destruct Hm as [HA Hm].
  pose proof (arena_size_pos _ _ _ OA HA) as Hsz. specialize (IH Hm). destruct OA as (O1 & _ & _ & O4 & _).
  unfold mapped_ranges, zlen in *. cbn [flat_map length]. unfold USER_TOP in *.
  destruct (ar_mapped A); cbn [app range_sum ar_range snd]; lia.
Qed.

Lemma good_sum s As : good s As -> 0 <= g_mapped_bytes s <= 9 * USER_TOP.
Proof.
  intros [_ g2 g3 _ _ g6 _ g8 _]. rewrite g8. pose proof (range_sum_bound _ _ _ g3 g2).
  unfold SX_ARENA_CAPACITY, USER_TOP in *. lia.
Qed.

(** The size [sx_arena_acquire] asks for. *)
Definition arena_request (mapped_bytes payload : Z) : Z :=
  let wanted := sx_arena_overhead + payload in
  let wanted := if wanted <? sx_arena_growth_floor mapped_bytes then sx_arena_growth_floor mapped_bytes else wanted in
  round_up wanted SX_ARENA_PAGE_SIZE.

Lemma arena_request_ok b n :
  0 <= n -> let w := arena_request b n in
  w mod 4096 = 0 /\ w mod 16 = 0 /\ n + 64 <= w /\ 1048576 <= w.
Proof.
  intros Hn w. unfold w, arena_request. change sx_arena_overhead with 64.
  set (x := if 64 + n <? sx_arena_growth_floor b then _ else _).
  assert (Hx : 64 + n <= x /\ 1048576 <= x).
  { unfold x, sx_arena_growth_floor, SX_ARENA_FIRST_BYTES, SX_ARENA_MAX_BYTES in *. case_ifs; lia. }
  destruct (round_up_spec x 12 ltac:(lia)) as [R1 R2]. change (2 ^ 12) with 4096 in *.
  change SX_ARENA_PAGE_SIZE with 4096. split_and!; [done| |lia..].
  apply Z.mod_divide in R1 as [q R1]; [|lia]. rewrite R1. replace (q * 4096) with (q * 256 * 16) by lia. apply Z.mod_mul. lia.
Qed.

Lemma good_same s s' As :
  good s As -> g_arenas s' = g_arenas s -> hmem s' = hmem s ->
  g_mapped_arena_count s' = g_mapped_arena_count s -> g_mapped_bytes s' = g_mapped_bytes s ->
  pages_ok (pages s') (mapped_ranges As) -> good s' As.
Proof. intros [g1 g2 g3 g4 g5 g6 g7 g8 g9] E1 E2 E3 E4 Hp. constructor; rewrite ?E1, ?E2, ?E3, ?E4; done. Qed.

(** Putting an arena at the front of the list. *)
Lemma good_push s As base w m' p :
  good s As -> zlen As <= SX_ARENA_CAPACITY ->
  0 < base -> base mod 16 = 0 -> 96 < w -> base + w <= USER_TOP ->
  Forall (apart (base, w)) (mapped_ranges As) -> apart (base, w) (bss_base, SX_HEAP_SIZE) ->
  pages_ok p ((base, w) :: mapped_ranges As) ->
  arena_rep m' (new_arena base w true) (g_arenas s) -> same_off (hmem s) m' base (base + w) ->
  good (mk_heap m' base (u64 (g_mapped_arena_count s + 1)) (u64 (g_mapped_bytes s + w)) (errno s) p)
       (new_arena base w true :: As).
Proof.
  intros G Hlen Hb Hb16 Hw Ht Ha Hbss Hp Hrep S. pose proof (good_sum _ _ G) as Hsum. destruct G as [g1 g2 g3 g4 g5 g6 g7 g8 g9].
  assert (Hall : Forall (apart (base, w)) (map ar_range As)).
  { destruct g5 as (Ms & B & -> & HM & HB & HR). rewrite mapped_ranges_boot in Ha by done.
    rewrite map_app. apply Forall_app. split; [done|]. constructor; [by rewrite HR|constructor]. }
  pose proof (zlen_nonneg As). unfold SX_ARENA_CAPACITY, USER_TOP in *.
  constructor; cbn [g_arenas hmem g_mapped_arena_count g_mapped_bytes pages].
  - done.
  - cbn [arenas]. rewrite <- g1. split; [done|]. eapply arenas_frame; [done..|].
    rewrite Forall_map in Hall. eapply Forall_impl; [exact Hall|]. intros A' HA'. by apply (apart_same _ _ (new_arena base w true)).
  - constructor; [|done]. by apply new_arena_ok.
  - done.
  - destruct g5 as (Ms & B & -> & HM & HB & HR). exists (new_arena base w true :: Ms), B. split_and!; [done| |done..]. by constructor.
  - unfold zlen in *. cbn [length]. unfold SX_ARENA_CAPACITY. lia.
  - rewrite g7, u64_id by lia. unfold zlen. cbn [length]. lia.
  - rewrite g8, u64_id by lia. unfold mapped_ranges. cbn [flat_map new_arena ar_mapped app range_sum ar_range snd ar_size]. lia.
  - done.
Qed.

(** Why [sx_arena_acquire] gives up. *)
Definition refused (s : heap P) (n : Z) : Prop :=
  g_mapped_arena_count s >= SX_ARENA_CAPACITY \/ n > SIZE_MAX - 64 - 4095 \/
  (pages_map (pages s) (arena_request (g_mapped_bytes s) n)).2 = None.

Lemma acquire_ok s As n :
  good s As -> 0 <= n ->
  exists s' r, sx_arena_acquire n s = (s', Ok r) /\ errno s' = errno s /\
    ((r = 0 /\ good s' As /\ refused s n) \/
     (0 < r /\ ~ refused s n /\ exists w, good s' (new_arena r w true :: As) /\ n + 64 <= w)).
Proof.
  intros G Hn. unfold sx_arena_acquire. unfold st_bind at 1, st_get. cbv beta iota zeta.
  change sx_arena_overhead with 64. change (SX_ARENA_PAGE_SIZE - 1) with 4095.
  destruct (g_mapped_arena_count s >=? SX_ARENA_CAPACITY) eqn:E1.
  { exists s, 0. split_and!; [done..|]. left. split_and!; [done..|]. left. lia. }
  destruct (n >? SIZE_MAX - 64 - 4095) eqn:E2.
  { exists s, 0. split_and!; [done..|]. left. split_and!; [done..|]. right. left. lia. }
  destruct (arena_request_ok (g_mapped_bytes s) n Hn) as (W1 & W2 & W3 & W4).
  change (round_up _ SX_ARENA_PAGE_SIZE) with (arena_request (g_mapped_bytes s) n). set (w := arena_request _ _) in *.
  unfold st_bind at 1, sx_heap_pages_map.
  destruct (pages_map (pages s) w) as [p' [a|]] eqn:EM.
  2:{ cbn [Z.eqb]. exists (with_pages s p'), 0. split_and!; [done..|]. left. split_and!; [done| |].
      - apply (good_same s); [done..|]. eapply pages_map_none; [apply (go_pages _ _ G)|exact EM].
      - right. right. unfold w in EM. by rewrite EM. }
  destruct (pages_map_some _ _ w _ _ (go_pages _ _ G) ltac:(lia) W1 EM) as (M1 & M2 & M3 & M4 & M5 & M6).
  destruct (a =? 0) eqn:?; [lia|].
  set (s1 := with_mem (with_pages s p') (zero_range (hmem s) a w)).
  destruct (stamp_ok s1 a w true) as (m' & ES & HR & HS); [done|lia|done|done| |].
  { pose proof (good_first _ _ G). unfold s1, WORD, USER_TOP in *. cbn. lia. }
  unfold st_bind at 1. cbn [Z.b2z] in ES. rewrite ES. destruct (a =? 0) eqn:?; [lia|]. run.
  eexists _, a. split_and!; [reflexivity|reflexivity|]. right. split; [done|]. split.
  { intros [Hr|[Hr|Hr]]; [lia|lia|]. fold w in Hr. by rewrite EM in Hr. }
  exists w. split; [|lia].
  unfold s1 in *. cbn [with_mem with_pages with_arenas with_mapped hmem g_arenas g_mapped_arena_count g_mapped_bytes errno pages] in *.
  apply (good_push s As a w m' p'); try done.
  - rewrite (go_count _ _ G) in E1. lia.
  - apply Z.mod_divide in M2 as [q ->]; [|done]. unfold SX_ARENA_PAGE_SIZE.
    replace (q * 4096) with (q * 256 * 16) by lia. apply Z.mod_mul. lia.
  - lia.
  - eapply same_off_trans; [apply zero_range_off|]. eapply same_off_weaken; [exact HS|lia..].
Qed.

(** ** Giving an arena back *)

Definition empty_arena (A : arena) : bool :=
  match ar_blocks A with [Free _] => true | _ => false end.

Lemma is_empty_ok m A nx : arena_ok A -> arena_rep m A nx -> sx_arena_is_empty m (ar_base A) = empty_arena A.
Proof.
  intros (O1 & _ & O3 & _ & O5 & _) (_ & H2 & H3 & _ & (Hc & Hok & Hst & _)). unfold sx_arena_is_empty, empty_arena.
  destruct (ar_base A =? 0) eqn:?; [lia|]. cbn [negb]. rewrite H2. unfold sx_arena_initial_block_size. rewrite H3.
  change sx_arena_overhead with 64. change sx_arena_header_bytes with 32. unfold ar_start in *.
  destruct (ar_blocks A) as [|b [|c r]]; [done|..].
  - destruct Hc as [(B1 & _ & B3 & B4 & B5 & _) _]. rewrite B1, B3, B4, B5. cbn [first_at span] in *. unfold extent, HEADER in O3.
    destruct b as [k|d]; cbn [b_free b_size] in *; [|by rewrite andb_false_r].
    rewrite !Z.eqb_refl. cbn [Z.eqb negb andb]. lia.
  - destruct Hc as [(_ & _ & _ & B4 & _) _]. rewrite B4. cbn [first_at].
    apply Forall_cons in Hok as [[Ob _] _]. unfold extent, HEADER.
    destruct (ar_base A + 32 + (32 + b_size b) =? 0) eqn:?; [lia|]. rewrite !andb_false_r. by destruct b.
Qed.

Fixpoint last_base (holder : Z) (L : list arena) : Z :=
  match L with [] => holder | A :: t => last_base (ar_base A) t end.

Lemma last_base_snoc holder L A : last_base holder (L ++ [A]) = ar_base A.
Proof. revert holder. induction L as [|B L IH]; intros holder; [done|]. apply IH. Qed.

Lemma find_link_ok m n L A R holder :
  arenas m (L ++ A :: R) 0 -> Forall (fun A' => 0 < ar_base A') (L ++ A :: R) ->
  Forall (fun A' => ar_base A' <> ar_base A) L -> (length L < n)%nat ->
  find_link n m holder (first_base (L ++ A :: R) 0) (ar_base A) = Some (Some (last_base holder L)).
Proof.
  revert n holder. induction L as [|A' L IH]; intros n holder Hm Hp HL Hn.
  - destruct n as [|n]; [lia|]. apply Forall_cons in Hp as [Hp _]. cbn. case_if; [lia|]. by rewrite Z.eqb_refl.
  - destruct n as [|n]; [simpl in Hn; lia|]. destruct Hm as [(H1 & _) Hm]. apply Forall_cons in Hp as [Hp Hp']. apply Forall_cons in HL as [HA' HL].
    cbn [app first_base find_link last_base]. case_if; [lia|]. case_if; [lia|]. rewrite H1. apply IH; [done..|simpl in Hn; lia].
Qed.

Lemma relink_ok m L A nx v :
  arenas m (L ++ [A]) nx -> Forall arena_ok (L ++ [A]) ->
  Forall (apart (ar_range A)) (map ar_range L) -> 0 <= v < WORD ->
  arenas (set_a_next (ar_base A) v m) (L ++ [A]) v.
Proof.
  intros [HL [HA _]]%arenas_app [OL [OA _]%Forall_cons]%Forall_app Hap Hv.
  pose proof (arena_size_pos _ _ _ OA HA) as Hsz.
  assert (S : same_off m (set_a_next (ar_base A) v m) (ar_base A) (ar_base A + 8)) by (apply wr_in; lia).
  apply arenas_app. split; [|split; [|done]].
  - eapply arenas_frame; [done|exact HL|]. rewrite Forall_map in Hap. eapply Forall_impl; [exact Hap|]. intros A' HA'.
    eapply apart_same; [|exact HA']. eapply same_off_weaken; [exact S|lia..].
  - destruct HA as (A1 & A2 & A3 & A4 & A5). unfold arena_rep. revert A2 A3 A4. fields. intros. split_and!; [done..|].
    eapply region_frame; [exact A5|]. eapply same_off_on; [exact S|]. unfold ar_start. lia.
Qed.

Lemma base_ne A A' : 0 < ar_size A -> 0 < ar_size A' -> apart (ar_range A) (ar_range A') -> ar_base A' <> ar_base A.
Proof. unfold apart, ar_range. simpl. lia. Qed.

Lemma arenas_sizes m As nx : Forall arena_ok As -> arenas m As nx -> Forall (fun A => 32 <= ar_size A /\ 0 < ar_base A) As.
Proof.
  intros Hok. induction Hok as [|A As OA OAs IH]; intros Hm; [constructor|]. destruct Hm as [HA Hm]. constructor; [|by apply IH].
  split; [by eapply arena_size_pos|]. by destruct OA.
Qed.

Lemma mapped_ranges_app l r : mapped_ranges (l ++ r) = mapped_ranges l ++ mapped_ranges r.
Proof. apply flat_map_app. Qed.
Lemma range_sum_app l r : range_sum (l ++ r) = range_sum l + range_sum r.
Proof. induction l as [|x l IH]; simpl; [lia|]. rewrite IH. lia. Qed.

(** Taking a mapped arena out of the list. *)
Lemma good_drop s L A R m' p :
  good s (L ++ A :: R) -> ar_mapped A = true -> arenas m' (L ++ R) 0 ->
  pages_ok p (mapped_ranges (L ++ R)) ->
  good (mk_heap m' (first_base (L ++ R) 0) (u64 (g_mapped_arena_count s - 1))
          (u64 (g_mapped_bytes s - ar_size A)) (errno s) p) (L ++ R).
Proof.
  intros G HA Hm Hp. pose proof (good_sum _ _ G) as Hsum.
  pose proof (arenas_sizes _ _ _ (go_ok _ _ G) (go_rep _ _ G)) as Hsz.
  assert (Hsum' : 0 <= range_sum (mapped_ranges (L ++ R))).
  { eapply (range_sum_bound m' _ 0); [|exact Hm]. pose proof (go_ok _ _ G) as [OL [_ OR]%Forall_cons]%Forall_app. by apply Forall_app. }
  destruct G as [g1 g2 g3 g4 g5 g6 g7 g8 g9]. apply Forall_app in g3 as [OL [OA OR]%Forall_cons].
  assert (Hl : zlen (L ++ A :: R) = zlen (L ++ R) + 1) by (unfold zlen; rewrite !length_app; simpl; lia).
  assert (Hb : range_sum (mapped_ranges (L ++ A :: R)) = range_sum (mapped_ranges (L ++ R)) + ar_size A).
  { rewrite !mapped_ranges_app, !range_sum_app. unfold mapped_ranges at 2. cbn [flat_map]. rewrite HA. cbn [app range_sum ar_range snd]. fold (mapped_ranges R). lia. }
  pose proof (zlen_nonneg (L ++ R)). unfold USER_TOP, SX_ARENA_CAPACITY in *.
  constructor; cbn [g_arenas hmem g_mapped_arena_count g_mapped_bytes pages]; auto.
  - by apply Forall_app.
  - rewrite map_app in *. cbn [map] in g4. by apply all_apart_mid in g4 as [_ ?].
  - destruct g5 as (Ms & B & E & HM & HB & HR). destruct R as [|A' R].
    { apply app_inj_tail in E as [-> ->]. congruence. }
    destruct (exists_last (l:=A' :: R)) as (R' & B' & ER); [done|]. rewrite ER in *.
    rewrite app_comm_cons, app_assoc in E. apply app_inj_tail in E as [<- <-].
    exists (L ++ R'), B'. rewrite <- app_assoc. split_and!; [done| |done..].
    apply Forall_app in HM as [HL [_ HR']%Forall_cons]. by apply Forall_app.
  - unfold SX_ARENA_CAPACITY. lia.
  - rewrite g7, Hl, u64_id; [lia|]. split; [|lia].
    destruct g5 as (Ms & B & E & _ & HB & _). destruct (L ++ R) eqn:EL; [|unfold zlen; cbn [length]; lia].
    apply app_eq_nil in EL as [-> ->]. apply (app_inj_tail [] Ms A B) in E as [_ ->]. congruence.
  - rewrite g8, Hb, u64_id; [lia|]. rewrite g8, Hb in Hsum. apply Forall_app in Hsz as [_ [? _]%Forall_cons]. lia.
Qed.

Lemma release_keep s L A R :
  good s (L ++ A :: R) -> ar_mapped A && empty_arena A = false -> sx_arena_release (ar_base A) s = (s, Ok tt).
Proof.
  intros G E. destruct (good_at _ _ _ _ G) as (OA & HA & _). unfold sx_arena_release. run.
  rewrite (is_empty_ok _ _ _ OA HA). destruct HA as (_ & _ & _ & H4 & _). rewrite H4.
  destruct OA as (O1 & _). destruct (ar_base A =? 0) eqn:?; [lia|].
  destruct (ar_mapped A), (empty_arena A); done.
Qed.

Lemma release_drop s L A R :
  good s (L ++ A :: R) -> ar_mapped A && empty_arena A = true ->
  exists s', sx_arena_release (ar_base A) s = (s', Ok tt) /\ good s' (L ++ R) /\ errno s' = errno s.
Proof.
  intros G [Em Ee]%andb_true_iff. destruct (good_at _ _ _ _ G) as (OA & HA & Hap & Hlen).
  pose proof (arenas_sizes _ _ _ (go_ok _ _ G) (go_rep _ _ G)) as Hsz.
  assert (Hlink : find_link ARENA_FUEL (hmem s) 0 (g_arenas s) (ar_base A) = Some (Some (last_base 0 L))).
  { rewrite (go_list _ _ G). apply find_link_ok.
    - apply (go_rep _ _ G).
    - eapply Forall_impl; [exact Hsz|]. by intros ? [_ ?].
    - apply Forall_app in Hsz as [HsL [[HsA _] _]%Forall_cons]. rewrite map_app in Hap. apply Forall_app in Hap as [Hap _]. rewrite Forall_map in Hap.
      rewrite List.Forall_forall in *. intros A' HIn.
      apply base_ne; [lia|specialize (HsL A' HIn); lia|by apply Hap].
    - unfold ARENA_FUEL. rewrite length_app in Hlen. simpl in Hlen. lia. }
  pose proof (go_rep _ _ G) as [GL [GA GR]]%arenas_app. pose proof (go_ok _ _ G) as [OL [_ OR]%Forall_cons]%Forall_app.
  pose proof HA as (H1 & _ & H3 & H4 & _).
  assert (Hfb : 0 <= first_base R 0 < WORD).
  { destruct R as [|A' R]; [unfold WORD; simpl; lia|]. destruct GR as [GA' _]. apply Forall_cons in OR as [OA' _].
    pose proof (arena_size_pos _ _ _ OA' GA'). destruct OA' as (? & _ & _ & ? & _). unfold WORD, USER_TOP in *. simpl. lia. }
  unfold sx_arena_release. unfold st_bind at 1, st_get. cbv beta iota zeta.
  rewrite (is_empty_ok _ _ _ OA HA), H4, Ee, Em. destruct (ar_base A =? 0) eqn:?; [destruct OA; lia|]. cbn [orb negb Z.b2z Z.eqb].
  unfold st_bind at 1, look. rewrite Hlink, H1.
  assert (Hpg : pages_ok (pages_unmap (pages s) (ar_base A) (ar_size A)) (mapped_ranges (L ++ R))).
  { rewrite mapped_ranges_app. apply pages_unmap_ok. pose proof (go_pages _ _ G) as Hp.
    rewrite mapped_ranges_app in Hp. unfold mapped_ranges at 2 in Hp. cbn [flat_map] in Hp. by rewrite Em in Hp. }
  destruct L as [|A0 L0] eqn:EL.
  - cbn [last_base Z.eqb]. run. eexists. split; [reflexivity|]. split; [|done].
    cbn [with_arenas with_mapped with_pages hmem g_arenas g_mapped_arena_count g_mapped_bytes errno pages]. rewrite H3.
    by apply (good_drop s [] A R).
  - destruct (exists_last (l:=L)) as (L' & Hh & EL'); [by rewrite EL|]. rewrite <- EL in *. clear EL A0 L0.
    assert (Elb : last_base 0 L = ar_base Hh) by (rewrite EL'; apply last_base_snoc). rewrite Elb.
    assert (HhA : apart (ar_range A) (ar_range Hh)).
    { rewrite Forall_map, EL', !Forall_app, Forall_cons in Hap. tauto. }
    assert (OHh : arena_ok Hh) by (rewrite EL', Forall_app, Forall_cons in OL; tauto).
    assert (H1' : ar_size Hh >= 32 /\ 0 < ar_base Hh).
    { rewrite EL', !Forall_app, !Forall_cons in Hsz. destruct Hsz as [[_ [? _]] _]. lia. }
    destruct (ar_base Hh =? 0) eqn:?; [lia|]. run.
    set (m' := set_a_next (ar_base Hh) (first_base R 0) (hmem s)).
    assert (S : same_off (hmem s) m' (ar_base Hh) (ar_base Hh + ar_size Hh)) by (apply wr_in; lia).
    pose proof (go_apart _ _ G) as Hall. rewrite EL' in Hall. rewrite <- app_assoc, map_app in Hall. cbn [app map] in Hall.
    apply all_apart_mid in Hall as [Hall _]. rewrite Forall_app, Forall_cons, !Forall_map in Hall. destruct Hall as (HapL & _ & HapR).
    assert (E3 : a_size m' (ar_base A) = ar_size A).
    { rewrite <- H3. unfold_fields. apply rd_ext. eapply same_off_on; [exact S|]. unfold apart, ar_range in HhA. simpl in HhA.
      pose proof (arena_size_pos _ _ _ OA HA). lia. }
    eexists. split; [reflexivity|]. split; [|done].
    cbn [with_mem with_arenas with_mapped with_pages hmem g_arenas g_mapped_arena_count g_mapped_bytes errno pages]. fold m'. rewrite E3.
    assert (Hg : g_arenas s = first_base (L ++ R) 0).
    { rewrite (go_list _ _ G), EL', !first_base_app. by destruct L'. }
    unfold with_pages, with_mapped, with_mem. cbn [hmem g_arenas g_mapped_arena_count g_mapped_bytes errno pages].
    rewrite Hg. apply good_drop; [done..| |done].
    apply arenas_app. split.
    + rewrite EL' in *. apply (relink_ok _ _ _ (first_base (A :: R) 0)); [done|done| |done]. by rewrite Forall_map.
    + eapply arenas_frame; [done|exact GR|]. eapply Forall_impl; [exact HapR|]. intros A' HA'. by eapply apart_same.
Qed.

(** Giving an arena back, if it is a mapped and empty one. *)
Definition released (L : list arena) (A : arena) (R : list arena) : list arena :=
  if ar_mapped A && empty_arena A then L ++ R else L ++ A :: R.
Lemma release_ok s L A R :
  good s (L ++ A :: R) ->
  exists s', sx_arena_release (ar_base A) s = (s', Ok tt) /\ good s' (released L A R) /\ errno s' = errno s.
Proof.
  intros G. unfold released. destruct (ar_mapped A && empty_arena A) eqn:E; [by apply release_drop|].
  exists s. by rewrite (release_keep _ _ _ _ G).
Qed.
End arenas.
