(* ===== verification/HeapOps.v ===== *)
(** * The heap allocator: malloc, free and realloc

    A heap state is described by its used blocks, as pairs of a pointer and the
    bytes it points to ([live]).  [malloc] adds one, [free] takes one away and
    [realloc] replaces one; every other block keeps its place and its bytes. *)

From S2P Require Import Prelude Bytes Heap HeapFacts HeapBlocks HeapArenas.

(** ** Used blocks *)

Fixpoint used_in (a : Z) (bs : list block) : list (Z * list Z) :=
  match bs with
  | [] => []
  | Free n :: t => used_in (a + extent (Free n)) t
  | Used c :: t => (a + HEADER, c) :: used_in (a + extent (Used c)) t
  end.
Definition used_of (A : arena) : list (Z * list Z) := used_in (ar_start A) (ar_blocks A).
Definition used_all (As : list arena) : list (Z * list Z) := flat_map used_of As.

Lemma used_in_app a l r : used_in a (l ++ r) = used_in a l ++ used_in (a + span l) r.
Proof.
  revert a. induction l as [|[n|c] l IH]; intros a; cbn [app used_in span].
  - by replace (a + 0) with a by lia.
  - rewrite IH. do 2 f_equal. lia.
  - rewrite IH. cbn [app]. do 3 f_equal. lia.
Qed.
Lemma used_in_coalesce a n r : used_in a (coalesce n r) = used_in (a + HEADER + n) r.
Proof.
  destruct r as [|[k|c] r]; cbn [coalesce used_in]; unfold extent; cbn [b_size].
  - done.
  - f_equal. lia.
  - do 2 f_equal; [lia|]. f_equal. lia.
Qed.
Lemma used_all_mid L A R : used_all (L ++ A :: R) ≡ₚ used_of A ++ used_all (L ++ R).
Proof.
  unfold used_all. rewrite !flat_map_app. cbn [flat_map]. rewrite Permutation_app_swap_app. done.
Qed.

Lemma span_coalesce n r : span (coalesce n r) = HEADER + n + span r.
Proof. destruct r as [|[k|c] r]; cbn [coalesce span]; unfold extent; cbn [b_size]; unfold HEADER; lia. Qed.

(** ** No free neighbours *)

Lemma spread_app l b r : spread (l ++ b :: r) = spread (l ++ [b]) && spread (b :: r).
Proof.
  induction l as [|c l IH]; [done|]. cbn [app]. rewrite !(spread_cons c), IH.
  destruct l; cbn [app]; by rewrite andb_assoc.
Qed.
Lemma spread_used_l c r : spread (Used c :: r) = spread r.
Proof. by rewrite spread_cons. Qed.
Lemma spread_used_r l c : spread (l ++ [Used c]) = spread l.
Proof.
  induction l as [|b l IH]; [done|]. cbn [app]. rewrite !(spread_cons b), IH.
  destruct l as [|d l]; cbn [app]; [|done]. by destruct b.
Qed.
Lemma spread_tail b r : spread (b :: r) = true -> spread r = true.
Proof. rewrite spread_cons. by intros [_ ?]%andb_true_iff. Qed.
Lemma spread_init l b : spread (l ++ [b]) = true -> spread l = true.
Proof.
  induction l as [|d l IH]; [done|]. cbn [app]. rewrite !(spread_cons d). intros [H1 H2]%andb_true_iff.
  rewrite IH by done. destruct l; cbn [app] in H1; rewrite ?H1; by destruct d.
Qed.
Lemma spread_free_any l n k : spread (l ++ [Free n]) = spread (l ++ [Free k]).
Proof.
  induction l as [|d l IH]; [done|]. cbn [app]. rewrite !(spread_cons d), IH. by destruct l.
Qed.
Lemma spread_coalesce n r : spread r = true -> spread (coalesce n r) = true.
Proof. by destruct r as [|[k|c] r]. Qed.
(** A free block that touches no free block before it can absorb the one after it. *)
Lemma spread_put l n r : spread (l ++ [Free n]) = true -> spread r = true -> spread (l ++ coalesce n r) = true.
Proof.
  intros Hl Hr. pose proof (spread_coalesce n r Hr) as Hc.
  destruct (coalesce n r) as [|b r'] eqn:E; [by destruct r as [|[]]|].
  rewrite spread_app, Hc, andb_true_r.
  assert (exists k, b = Free k) as [k ->] by (destruct r as [|[]]; simpl in E; injection E as <- _; eauto).
  by rewrite (spread_free_any l k n).
Qed.
Lemma spread_free_used l n : spread (l ++ [Free n]) = true <-> spread l = true /\ (l = [] \/ exists l' c, l = l' ++ [Used c]).
Proof.
  split.
  - intros H. split; [by eapply spread_init|]. destruct l as [|d l] using rev_ind; [by left|right].
    destruct d as [k|c]; [|eauto]. rewrite <- app_assoc in H. cbn [app] in H. rewrite spread_app in H. cbn in H. by rewrite andb_false_r in H.
  - intros [Hs [->|(l' & c & ->)]]; [done|]. rewrite <- app_assoc. cbn [app]. rewrite spread_app.
    by rewrite Hs.
Qed.

Section ops.
Context {P : Type} `{!PageSource P} `{!PageLaws P}.
Implicit Types s : heap P.

(** A mapped arena is given back as soon as it is empty. *)
Definition busy (As : list arena) : Prop := Forall (fun A => ar_mapped A && empty_arena A = false) As.

Definition live (s : heap P) (us : list (Z * list Z)) : Prop :=
  (fresh s /\ us = []) \/ exists As, good s As /\ busy As /\ used_all As ≡ₚ us.

Lemma live_perm s us us' : live s us -> us ≡ₚ us' -> live s us'.
Proof.
  intros [[Hf ->]|(As & HG & HB & HU)] E.
  - left. split; [done|]. by apply Permutation_nil in E.
  - right. exists As. split_and!; [done..|]. by rewrite HU.
Qed.

Lemma busy_used A bs c l r : bs = l ++ Used c :: r -> ar_mapped A && empty_arena (with_blocks A bs) = false.
Proof. intros ->. unfold empty_arena. cbn. destruct l as [|[] [|]]; simpl; by rewrite ?andb_false_r. Qed.

(** ** Taking a free block *)

Lemma good_errno s As e : good s As -> good (with_errno s e) As.
Proof. intros G. by apply (good_same s); [| | | | |apply (go_pages _ _ G)]. Qed.

Lemma take_block s L A R l k r sz :
  good s (L ++ A :: R) -> ar_blocks A = l ++ Free k :: r -> 16 <= sz -> sz mod 16 = 0 -> sz <= k ->
  let h := ar_start A + span l in
  exists s' bs c r', (sx_split_block h sz ;;; (poke (set_free h 0) ;;; st_ret (h + HEADER)))%st s = (s', Ok (h + HEADER)) /\
    errno s' = errno s /\ good s' (L ++ with_blocks A bs :: R) /\ sz <= zlen c /\
    bs = l ++ Used c :: r' /\ used_in (h + HEADER + zlen c) r' = used_in (h + HEADER + k) r.
Proof.
  intros G E Hs Hm Hk h. destruct (good_at _ _ _ _ G) as (OA & HA & _). destruct OA as (O1 & O2 & O3 & O4 & O5 & O6).
  destruct HA as (_ & _ & _ & _ & Rg). rewrite E in Rg, O6.
  rewrite spread_app in O6. apply andb_true_iff in O6 as [Sl Sr]. apply spread_tail in Sr as Sr'.
  destruct (split_ok s _ _ _ sz _ Rg Sr' Hs Hm Hk) as (m1 & E1 & R1 & S1). unfold st_bind at 1. fold h in E1. rewrite E1.
  unfold st_bind, poke, st_mod, st_ret.
  assert (Hcase : exists k' r', split_list (Free k) sz r = Free k' :: r' /\ sz <= k' /\ spread r' = true /\
            used_in (h + HEADER + k') r' = used_in (h + HEADER + k) r).
  { unfold split_list. cbn [b_size chop]. case_if.
    - exists k, r. done.
    - exists sz, (coalesce (k - sz - HEADER) r). split_and!; [done|lia|by apply spread_coalesce|].
      rewrite used_in_coalesce. f_equal. lia. }
  destruct Hcase as (k' & r' & Es & Hk' & Sr2 & Hu). rewrite Es in R1.
  pose proof (region_head _ _ _ _ _ R1) as (_ & _ & Ok' & _). destruct Ok' as [Ok1 Ok2]. cbn [b_size] in *.
  set (c := rd_bytes m1 (h + HEADER) (Z.to_nat k')).
  assert (Hc : zlen c = k') by (unfold c, zlen; rewrite rd_bytes_length; lia).
  destruct (mark_block_ok m1 _ l (Free k') (Used c) r' R1) as [R2 S2].
  { done. }
  { cbn [b_data]. unfold c. by rewrite rd_bytes_length. }
  cbn [b_free] in R2, S2. fold h in R2, S2.
  assert (Espan : span (l ++ Used c :: r') = span (ar_blocks A) /\ span (l ++ Free k' :: r') = span (ar_blocks A)).
  { rewrite E, <- Es, !span_app. cbn [span]. unfold extent. cbn [b_size]. rewrite Hc. split.
    - assert (span (split_list (Free k) sz r) = span (Free k :: r)) as Hsp.
      { unfold split_list. cbn [b_size chop]. case_if; [done|]. cbn [span]. rewrite span_coalesce. unfold extent. cbn [b_size]. unfold HEADER. lia. }
      rewrite Es in Hsp. cbn [span] in Hsp. unfold extent in Hsp. cbn [b_size] in Hsp. lia.
    - unfold split_list. cbn [b_size chop]. case_if; [done|]. cbn [span]. rewrite span_coalesce. unfold extent. cbn [b_size]. unfold HEADER. lia. }
  destruct Espan as [Esp Esp'].
  exists (with_mem s (set_free h 0 m1)), (l ++ Used c :: r'), c, r'. split_and!; [done..| |lia|done|by rewrite Hc].
  apply (good_blocks s L A R); [done|exact R2|by destruct l| |done|].
  - rewrite spread_app, spread_used_l, spread_used_r, Sr2, andb_true_r. by eapply spread_init.
  - eapply same_off_trans.
    + rewrite <- E in S1. exact S1.
    + rewrite Esp' in S2. exact S2.
Qed.

(** ** malloc *)

Lemma align_ok n :
  0 <= n <= SIZE_MAX -> let sz := sx_align_size n in
  sz = 0 /\ (n = 0 \/ n > SIZE_MAX - 15) \/ (16 <= sz /\ sz mod 16 = 0 /\ n <= sz /\ sz <= SIZE_MAX /\ n <> 0).
Proof.
  intros Hn sz. unfold sz, sx_align_size, SX_ALLOC_ALIGNMENT. case_if; [left; unfold SIZE_MAX in *; lia|right].
  destruct (round_up_spec n 4 ltac:(lia)) as [R1 R2]. change (2 ^ 4) with 16 in *.
  assert (16 <= round_up n 16) by (apply Z.mod_divide in R1 as [q R1]; lia).
  unfold SIZE_MAX in *. apply Z.mod_divide in R1 as R3; [|lia]. destruct R3 as [q R3]. split_and!; [done|done|lia..].
Qed.

(** No room for [sz] bytes: no block of the heap fits and no arena can be added. *)
Definition exhausted (s : heap P) (sz : Z) : Prop :=
  exists s1 As, sx_allocator_init s = (s1, Ok tt) /\ good s1 As /\ Forall (no_fit sz) As /\ refused s1 sz.

(** The list an operation starts from: a first call makes the first arena. *)
Lemma live_init s us :
  live s us -> exists s1 As, sx_allocator_init s = (s1, Ok tt) /\ good s1 As /\ busy As /\ used_all As ≡ₚ us /\
    errno s1 = errno s /\ (fresh s -> As = [new_arena bss_base SX_HEAP_SIZE false]).
Proof.
  intros [[Hf ->]|(As & HG & HB & HU)].
  - destruct (init_fresh s Hf) as (m' & E & G). eexists _, _. split_and!; [exact E|exact G| | |done|done].
    + by constructor.
    + done.
  - exists s, As. split_and!; [by eapply init_good|done..|].
    intros (Hz & _). pose proof (good_first _ _ HG). lia.
Qed.

Lemma no_fit_find s As sz :
  good s As -> Forall (no_fit sz) As -> find_in_arenas ARENA_FUEL (hmem s) (g_arenas s) sz = Some 0.
Proof.
  intros G HN. rewrite (go_list _ _ G). pose proof (go_len _ _ G) as Hlen. unfold zlen, SX_ARENA_CAPACITY in Hlen.
  destruct (find_arenas_ok (hmem s) sz ARENA_FUEL As (go_rep _ _ G) (go_ok _ _ G)) as [(L & A & R & l & k & r & -> & Eb & Hk & _)|[_ ->]];
    [unfold ARENA_FUEL; lia| |done].
  apply Forall_app in HN as [_ [HN _]%Forall_cons]. unfold no_fit in HN. rewrite Eb in HN.
  apply Forall_app in HN as [_ [HN _]%Forall_cons]. simpl in HN. lia.
Qed.

Lemma find_free_ok s us sz :
  live s us -> 16 <= sz ->
  exists s' h As, sx_find_free_block sz s = (s', Ok h) /\ errno s' = errno s /\ good s' As /\ used_all As ≡ₚ us /\
    ((h = 0 /\ busy As /\ exhausted s sz) \/
     (~ exhausted s sz /\ exists L A R l k r, As = L ++ A :: R /\ ar_blocks A = l ++ Free k :: r /\ sz <= k /\
        h = ar_start A + span l /\ busy (L ++ R))).
Proof.
  intros HL Hs. destruct (live_init _ _ HL) as (s1 & As & E & G & B & U & Er & _).
  unfold sx_find_free_block. unfold st_bind at 1. rewrite E. unfold st_bind at 1, st_get. unfold st_bind at 1, look.
  pose proof (go_len _ _ G) as Hlen. unfold zlen, SX_ARENA_CAPACITY in Hlen.
  assert (Hex : exhausted s sz -> find_in_arenas ARENA_FUEL (hmem s1) (g_arenas s1) sz = Some 0 /\ refused s1 sz).
  { intros (s1' & As' & E' & G' & HN & Hr). rewrite E in E'. injection E' as <-. split; [by eapply no_fit_find|done]. }
  rewrite (go_list _ _ G) in *.
  destruct (find_arenas_ok (hmem s1) sz ARENA_FUEL As (go_rep _ _ G) (go_ok _ _ G)) as [(L & A & R & l & k & r & -> & Eb & Hk & HNL & Hl & Ef)|[HN Ef]];
    [unfold ARENA_FUEL; lia|rewrite Ef in *..].
  - destruct (good_at _ _ _ _ G) as (_ & (_ & _ & _ & _ & Rg) & _). rewrite Eb in Rg.
    pose proof (region_head _ _ _ _ _ Rg) as (_ & _ & _ & _ & Hpos & _).
    case_if; [|lia]. exists s1, (ar_start A + span l), (L ++ A :: R). split_and!; [done..|]. right. split.
    { intros [Hz _]%Hex. injection Hz as Hz. lia. }
    exists L, A, R, l, k, r. split_and!; [done..|]. unfold busy in *. rewrite Forall_app, Forall_cons in B. apply Forall_app. tauto.
  - cbn [Z.eqb negb]. unfold st_bind at 1.
    destruct (acquire_ok s1 As sz G ltac:(lia)) as (s2 & a & -> & Er2 & [(-> & G2 & Hr)|(Ha & Hnr & w & G2 & Hw)]).
    + cbn [Z.eqb]. exists s2, 0, As. split_and!; [done|by rewrite Er2|done..|]. left. split_and!; [done..|]. by exists s1, As.
    + destruct (a =? 0) eqn:?; [lia|]. unfold st_bind, st_get, st_ret.
      pose proof (good_at s2 [] _ _ G2) as (_ & (_ & H2 & _ & _ & Rg) & _). cbn [new_arena ar_base ar_blocks] in H2, Rg. rewrite H2.
      pose proof (region_head _ _ [] _ _ Rg) as ((B1 & _ & B3 & _) & _ & _ & _ & Hpos & _).
      cbn [span] in *. rewrite Z.add_0_r in *. rewrite B1, B3. cbn [b_free b_size].
      case_if; [|unfold ar_start in *; cbn [new_arena ar_base] in *; lia].
      exists s2, (ar_start (new_arena a w true)), (new_arena a w true :: As). split_and!; [done|by rewrite Er2|done|by rewrite <- U|].
      right. split; [by intros [_ Hr]%Hex|].
      exists [], (new_arena a w true), As, [], (w - 64), []. split_and!; [done..|lia|cbn [span]; lia|done].
Qed.

Lemma start_mod A l : arena_ok A -> blocks_ok l -> (ar_start A + span l + HEADER) mod 16 = 0.
Proof.
  intros (_ & O2 & _) Hl. unfold ar_start, HEADER.
  replace (ar_base A + 32 + span l + 32) with (ar_base A + span l + 4 * 16) by lia.
  by rewrite Z_mod_plus_full, Zplus_mod, O2, (span_mod _ Hl).
Qed.

Lemma malloc_ok s us n :
  live s us -> 0 <= n <= SIZE_MAX ->
  exists s' r, sx_malloc n s = (s', Ok r) /\
    ((r = 0 /\ live s' us /\ errno s' = ENOMEM /\ (sx_align_size n = 0 \/ exhausted s (sx_align_size n))) \/
     (0 < r /\ sx_align_size n <> 0 /\ ~ exhausted s (sx_align_size n) /\ r mod 16 = 0 /\ n <> 0 /\ errno s' = errno s /\ exists c, n <= zlen c /\ live s' ((r, c) :: us))).
Proof.
  intros HL Hn. unfold sx_malloc. destruct (align_ok n Hn) as [[E0 Hz]|(A1 & A2 & A3 & A4 & A5)].
  { rewrite E0. cbn [Z.eqb]. unfold set_errno, st_bind, st_mod, st_ret. eexists _, 0. split; [done|]. left. split_and!; [done| |done|by left].
    destruct HL as [[Hf ->]|(As & HG & HB & HU)]; [left; done|right]. exists As. split_and!; [by apply good_errno|done..]. }
  set (sz := sx_align_size n) in *. destruct (sz =? 0) eqn:?; [lia|].
  destruct (find_free_ok _ _ sz HL A1) as (s1 & h & As & E1 & Er1 & G1 & U1 & [(-> & B1 & Hr)|(Hnr & L & A & R & l & k & r & -> & Eb & Hk & -> & B1)]).
  - unfold st_bind at 1. rewrite E1. cbn [Z.eqb]. unfold set_errno, st_bind, st_mod, st_ret. eexists _, 0. split; [done|]. left.
    split_and!; [done| |done|].
    + right. exists As. split_and!; [by apply good_errno|done..].
    + by right.
  - destruct (good_at _ _ _ _ G1) as (OA & (_ & _ & _ & _ & Rg) & _). rewrite Eb in Rg.
    pose proof (region_head _ _ _ _ _ Rg) as (_ & _ & _ & _ & Hpos & _).
    pose proof (region_split _ _ _ _ Rg) as (_ & _ & Ol & _).
    destruct (take_block s1 L A R l k r sz G1 Eb A1 A2 Hk) as (s2 & bs & c & r' & E2 & Er2 & G2 & Hc & -> & Hu).
    unfold st_bind at 1. rewrite E1. destruct (ar_start A + span l =? 0) eqn:?; [lia|]. rewrite E2.
    eexists _, _. split; [reflexivity|]. right. split_and!; [unfold HEADER; lia|fold sz; lia|done|by apply start_mod|done|by rewrite Er2|].
    exists c. split; [lia|]. right. eexists. split; [exact G2|]. split.
    + unfold busy in *. rewrite Forall_app in B1. apply Forall_app. split; [tauto|]. apply Forall_cons. split; [|tauto]. exact (busy_used A _ c l r' eq_refl).
    + rewrite used_all_mid, <- U1, used_all_mid. unfold used_of. cbn [with_blocks ar_blocks ar_start ar_base].
      rewrite Eb, !used_in_app. cbn [used_in]. unfold extent. cbn [b_size].
      unfold ar_start in *. cbn [with_blocks ar_base] in *. rewrite !Z.add_assoc, Hu. solve_Permutation.
Qed.

(** ** free *)

Lemma used_in_elem a bs p c :
  (p, c) ∈ used_in a bs -> exists l r, bs = l ++ Used c :: r /\ p = a + span l + HEADER.
Proof.
  revert a. induction bs as [|[n|d] bs IH]; intros a H; cbn [used_in] in H.
  - by apply not_elem_of_nil in H.
  - destruct (IH _ H) as (l & r & -> & ->). exists (Free n :: l), r. split; [done|]. cbn [span]. lia.
  - apply elem_of_cons in H as [[= -> ->]|H].
    + exists [], bs. split; [done|]. cbn [span]. lia.
    + destruct (IH _ H) as (l & r & -> & ->). exists (Used d :: l), r. split; [done|]. cbn [span]. lia.
Qed.

Lemma locate As p c :
  (p, c) ∈ used_all As ->
  exists L A R l r, As = L ++ A :: R /\ ar_blocks A = l ++ Used c :: r /\ p = ar_start A + span l + HEADER.
Proof.
  intros H. unfold used_all in H. apply list_elem_of_In, in_flat_map in H as (A & HA & H).
  apply list_elem_of_In, list_elem_of_split in HA as (L & R & ->). apply list_elem_of_In, used_in_elem in H as (l & r & E & ->).
  by exists L, A, R, l, r.
Qed.

Lemma block_inside s L A R l b r :
  good s (L ++ A :: R) -> ar_blocks A = l ++ b :: r ->
  ar_start A <= ar_start A + span l < ar_base A + ar_size A /\ 0 < ar_start A + span l.
Proof.
  intros G E. destruct (good_at _ _ _ _ G) as ((O1 & _ & O3 & _) & (_ & _ & _ & _ & Rg) & _). rewrite E in *.
  apply region_split in Rg as (_ & _ & _ & [[Ob _] Or]%Forall_cons & Sl & _ & Ha & _). rewrite span_app in O3. cbn [span] in O3.
  pose proof (span_nonneg _ Or). unfold ar_start, extent, HEADER in *. lia.
Qed.

Lemma valid_ok s L A R l b r :
  good s (L ++ A :: R) -> ar_blocks A = l ++ b :: r ->
  sx_block_is_valid (ar_start A + span l) s = (s, Ok true).
Proof.
  intros G E. destruct (block_inside _ _ _ _ _ _ _ G E) as [Hin Hpos].
  destruct (good_at _ _ _ _ G) as (OA & (_ & _ & _ & _ & Rg) & _). rewrite E in Rg.
  apply region_head in Rg as ((_ & B2 & _) & _).
  unfold sx_block_is_valid. destruct (ar_start A + span l =? 0) eqn:?; [lia|]. unfold st_bind at 1.
  rewrite (arena_for_ok _ _ _ _ _ G Hin). destruct OA as (O1 & _). destruct (ar_base A =? 0) eqn:?; [lia|].
  unfold st_bind, st_get, st_ret. by rewrite B2, Z.eqb_refl.
Qed.

Lemma resolve_direct s L A R l b r :
  good s (L ++ A :: R) -> ar_blocks A = l ++ b :: r ->
  let p := ar_start A + span l + HEADER in sx_resolve_aligned p s = (s, Ok p).
Proof.
  intros G E p. destruct (good_at _ _ _ _ G) as (_ & (_ & _ & _ & _ & Rg) & _). rewrite E in Rg.
  apply region_head in Rg as ((_ & _ & _ & B4 & _) & _ & [Ob _] & Or & Hpos & _ & Sr & Ht).
  unfold sx_resolve_aligned. unfold st_bind at 1, st_get.
  assert (Et : t_magic (hmem s) (p - 16) <> SX_ALIGNED_MAGIC).
  { unfold t_magic. replace (p - 16) with (ar_start A + span l + 16) by (unfold p, HEADER; lia). unfold h_next in B4. rewrite B4.
    unfold SX_ALIGNED_MAGIC, USER_TOP in *. destruct r; cbn [first_at]; [lia|]. lia. }
  case_if; [done|]. destruct (t_magic (hmem s) (p - 16) =? SX_ALIGNED_MAGIC) eqn:?; [lia|done].
Qed.

(** The block before a free block, found through its [prev] link. *)
Lemma prev_ok m a l n r :
  region m a (l ++ Free n :: r) ->
  (l = [] /\ h_prev m (a + span l) = 0) \/
  exists l' b, l = l' ++ [b] /\ h_prev m (a + span l) = a + span l' /\ 0 < a + span l' /\ h_free m (a + span l') = b_free b.
Proof.
  intros R. pose proof (region_head _ _ _ _ _ R) as ((_ & _ & _ & _ & B5 & _) & _).
  destruct l as [|b l' _] using rev_ind; [by left|right]. exists l', b. rewrite <- app_assoc in R. cbn [app] in R.
  pose proof (region_head _ _ _ _ _ R) as ((_ & _ & F3 & _) & _ & _ & _ & Hpos & _).
  split_and!; [done| |done|done]. rewrite B5, last_at_app. done.
Qed.

(** The list after [sx_free] has merged the block with its neighbours. *)
Definition freed (l : list block) (n : Z) (r : list block) : list block :=
  match list.last l with
  | Some (Free k) => removelast l ++ coalesce k (coalesce n r)
  | _ => l ++ coalesce n r
  end.

Lemma freed_facts a l n r :
  spread l = true -> spread r = true ->
  spread (freed l n r) = true /\ freed l n r <> [] /\ span (freed l n r) = span l + HEADER + n + span r /\
  used_in a (freed l n r) = used_in a l ++ used_in (a + span l + HEADER + n) r.
Proof.
  intros Hl Hr. unfold freed. destruct l as [|b l' _] using rev_ind.
  - cbn [list.last app span used_in]. split_and!.
    + by apply spread_coalesce.
    + by destruct r as [|[]].
    + rewrite span_coalesce. unfold HEADER. lia.
    + rewrite used_in_coalesce. f_equal. lia.
  - rewrite last_snoc. destruct b as [k|c].
    + rewrite removelast_last. split_and!.
      * apply spread_put; [done|]. by apply spread_coalesce.
      * destruct l'; [|done]. by destruct r as [|[]].
      * rewrite !span_app, !span_coalesce. cbn [span]. unfold extent, HEADER. cbn [b_size]. lia.
      * rewrite !used_in_app, !used_in_coalesce, span_app. cbn [used_in span]. unfold extent. cbn [b_size]. rewrite app_nil_r.
        do 2 f_equal. lia.
    + split_and!.
      * apply spread_put; [|done]. apply spread_free_used. split; [done|]. right. eauto.
      * by destruct l'.
      * rewrite !span_app, span_coalesce. lia.
      * rewrite (used_in_app a (l' ++ [Used c])), used_in_coalesce. done.
Qed.

Lemma empty_used A : empty_arena A = true -> used_of A = [].
Proof. unfold empty_arena, used_of. by destruct (ar_blocks A) as [|[k|d] [|]]. Qed.

(** Marking the block free and merging it: the part of [sx_free] in one arena. *)
Lemma free_merge s a l c r :
  region (hmem s) a (l ++ Used c :: r) -> spread (l ++ Used c :: r) = true ->
  let h := a + span l in
  exists m', (poke (set_free h 1) ;;; (sx_merge_with_next h ;;;
     (let! s := st_get in
      let prev := h_prev (hmem s) h in
      (if negb (prev =? 0) && negb (h_free (hmem s) prev =? 0)
       then sx_merge_with_next prev else st_ret tt))))%st s = (with_mem s m', Ok tt) /\
    region m' a (freed l (zlen c) r) /\ same_off (hmem s) m' a (a + span (l ++ Used c :: r)).
Proof.
  intros R Sp h. rewrite spread_app in Sp. apply andb_true_iff in Sp as [Sl Sr]. rewrite spread_used_r in Sl. rewrite spread_used_l in Sr.
  destruct (mark_block_ok (hmem s) a l (Used c) (Free (zlen c)) r R) as [R1 S1]; [done..|]. cbn [b_free] in *.
  unfold st_bind at 1, poke, st_mod. set (s1 := with_mem s _). fold h in R1, S1.
  destruct (merge_ok s1 a l (zlen c) r R1 Sr) as (m2 & E2 & R2 & S2). fold h in E2. unfold st_bind at 1. rewrite E2.
  unfold st_bind at 1, st_get.
  assert (Espan : span (l ++ Free (zlen c) :: r) = span (l ++ Used c :: r)) by (by rewrite !span_app).
  assert (S12 : same_off (hmem s) m2 a (a + span (l ++ Used c :: r))).
  { eapply same_off_trans; [exact S1|]. rewrite Espan in S2. exact S2. }
  assert (Ecoa : exists n' r', coalesce (zlen c) r = Free n' :: r' /\ spread (Free n' :: r') = true).
  { pose proof (spread_coalesce (zlen c) r Sr). destruct r as [|[k|d] r]; cbn [coalesce] in *; eauto. }
  destruct Ecoa as (n' & r' & Ec & Sc). unfold freed.
  change (hmem (with_mem s1 m2)) with m2.
  rewrite Ec in *. unfold h. destruct (prev_ok m2 a l n' r' R2) as [[-> ->]|(l' & b & -> & -> & Hpos & ->)].
  - cbn [Z.eqb negb andb list.last]. exists m2. done.
  - destruct (a + span l' =? 0) eqn:?; [lia|]. rewrite last_snoc. destruct b as [k|d]; cbn [b_free Z.eqb negb andb].
    + rewrite removelast_last. rewrite <- app_assoc in R2. cbn [app] in R2.
      destruct (merge_ok (with_mem s1 m2) a l' k (Free n' :: r') R2 Sc) as (m3 & E3 & R3 & S3). rewrite E3.
      exists m3. split_and!; [done|exact R3|]. eapply same_off_trans; [exact S12|].
      eapply same_off_weaken; [exact S3|lia|]. rewrite <- Ec. rewrite !span_app. cbn [span]. rewrite span_coalesce.
      unfold extent. cbn [b_size]. unfold HEADER. lia.
    + exists m2. done.
Qed.

Lemma free_at s L A R l c r p :
  good s (L ++ A :: R) -> ar_blocks A = l ++ Used c :: r -> 0 < p ->
  sx_resolve_aligned p s = (s, Ok (ar_start A + span l + HEADER)) ->
  exists s' As', sx_free p s = (s', Ok tt) /\ errno s' = errno s /\ good s' As' /\ (busy (L ++ R) -> busy As') /\
    used_all (L ++ A :: R) ≡ₚ (ar_start A + span l + HEADER, c) :: used_all As'.
Proof.
  intros G E Hp Er. destruct (block_inside _ _ _ _ _ _ _ G E) as [Hin Hpos].
  destruct (good_at _ _ _ _ G) as (OA & (_ & _ & _ & _ & Rg) & _). pose proof OA as (_ & _ & _ & _ & _ & Sp). rewrite E in Rg, Sp.
  pose proof (region_head _ _ _ _ _ Rg) as ((_ & _ & B3 & _) & _). cbn [b_free] in B3.
  pose proof (free_merge _ _ _ _ _ Rg Sp) as (m' & Em & Rm & Sm).
  pose proof (valid_ok _ _ _ _ _ _ _ G E) as Hv. set (h := ar_start A + span l) in *.
  assert (Spl : spread l = true /\ spread r = true).
  { rewrite spread_app, spread_used_l, spread_used_r in Sp. by apply andb_true_iff in Sp. }
  destruct (freed_facts (ar_start A) l (zlen c) r) as (F1 & F2 & F3 & F4); [tauto..|].
  assert (G1 : good (with_mem s m') (L ++ with_blocks A (freed l (zlen c) r) :: R)).
  { apply good_blocks; [done..| |by rewrite E]. rewrite F3, E, span_app. cbn [span]. unfold extent. cbn [b_size]. lia. }
  destruct (release_ok _ _ _ _ G1) as (s2 & E2 & G2 & Er2).
  exists s2, (released L (with_blocks A (freed l (zlen c) r)) R). split_and!; [|done|done|..].
  - unfold sx_free. destruct (p =? 0) eqn:?; [lia|]. unfold st_bind at 1. rewrite Er. cbv zeta.
    replace (h + HEADER - HEADER) with h by lia. unfold st_bind at 1. rewrite Hv.
    unfold st_bind at 1, st_get. rewrite B3. cbn [negb orb Z.eqb].
    assert (Hrest : (let! arena := sx_arena_for_address h in sx_arena_release arena)%st (with_mem s m') = (s2, Ok tt)).
    { unfold st_bind. rewrite (arena_for_ok _ _ _ _ _ G1); [exact E2|exact Hin]. }
    revert Em Hrest. unfold st_bind, poke, st_mod, st_get. cbv beta iota.
    destruct (sx_merge_with_next h _) as [s3 [[]|]]; [|done]. intros -> Hrest. exact Hrest.
  - unfold busy, released. intros HB. case_if; [done|]. rewrite Forall_app in HB. apply Forall_app. split; [tauto|]. apply Forall_cons. tauto.
  - assert (EU : used_of (with_blocks A (freed l (zlen c) r)) = used_in (ar_start A) l ++ used_in (h + HEADER + zlen c) r).
    { unfold used_of. cbn [with_blocks ar_blocks]. unfold ar_start in *. cbn [with_blocks ar_base]. exact F4. }
    assert (ER : used_all (released L (with_blocks A (freed l (zlen c) r)) R) ≡ₚ used_all (L ++ with_blocks A (freed l (zlen c) r) :: R)).
    { unfold released. case_if; [|done]. rewrite used_all_mid. apply andb_true_iff in Heqb as [_ Hemp].
      by rewrite empty_used. }
    rewrite ER, !used_all_mid, EU. unfold used_of. rewrite E, used_in_app. cbn [used_in]. unfold extent. cbn [b_size].
    fold h. rewrite Z.add_assoc. solve_Permutation.
Qed.

(** ** What a program does with its blocks *)

(** The view of one used block of a heap. *)
Lemma live_at s us p c :
  live s ((p, c) :: us) ->
  exists L A R l r, good s (L ++ A :: R) /\ busy (L ++ A :: R) /\ ar_blocks A = l ++ Used c :: r /\
    p = ar_start A + span l + HEADER /\ used_all (L ++ A :: R) ≡ₚ (p, c) :: us.
Proof.
  intros [[_ ?]|(As & G & B & U)]; [done|].
  assert (HIn : (p, c) ∈ used_all As) by (rewrite U; apply list_elem_of_here).
  destruct (locate _ _ _ HIn) as (L & A & R & l & r & -> & E & ->). by exists L, A, R, l, r.
Qed.

(** Rewriting the arena of a block: what the rest of the heap owns stays. *)
Lemma used_replace L A R bs x y us :
  used_all (L ++ A :: R) ≡ₚ x :: us ->
  (exists u v, used_of A = u ++ x :: v /\ used_of (with_blocks A bs) = u ++ y :: v) ->
  used_all (L ++ with_blocks A bs :: R) ≡ₚ y :: us.
Proof.
  intros U (u & v & E1 & E2). rewrite used_all_mid, E1 in U. rewrite used_all_mid, E2.
  rewrite <- app_assoc in U |- *. cbn [app] in *. rewrite <- Permutation_middle in U |- *.
  apply Permutation_cons_inv in U. by rewrite U.
Qed.

Lemma live_bytes s us p c : live s ((p, c) :: us) -> rd_bytes (hmem s) p (length c) = c.
Proof.
  intros (L & A & R & l & r & G & _ & E & -> & _)%live_at. destruct (good_at _ _ _ _ G) as (_ & (_ & _ & _ & _ & Rg) & _).
  rewrite E in Rg. apply region_head in Rg as ((_ & _ & _ & _ & _ & B6) & _). exact B6.
Qed.

Lemma region_write m m' a l d r :
  region m a (l ++ Used d :: r) ->
  same_off m m' (a + span l + HEADER) (a + span l + HEADER + zlen d) ->
  region m' a (l ++ Used (rd_bytes m' (a + span l + HEADER) (length d)) :: r) /\
  same_off m m' a (a + span (l ++ Used d :: r)).
Proof.
  intros Rg S. pose proof (region_head _ _ _ _ _ Rg) as ((B1 & B2 & B3 & B4 & B5 & _) & C & Ob & Or & Hpos & Hp & Sr & Ht).
  set (d' := rd_bytes _ _ _). assert (Hd : zlen d' = zlen d) by (unfold d', zlen; by rewrite rd_bytes_length).
  assert (Hd' : length d' = length d) by (unfold zlen in Hd; lia).
  set (h := a + span l) in *. unfold extent, HEADER in *. cbn [b_size b_free] in *.
  eapply region_tail; [exact Rg|done..| |cbn [span]; unfold extent; cbn [b_size]; lia| |].
  - apply Forall_cons; split; [|done]. destruct Ob as [Ob1 Ob2]. unfold block_ok. cbn [b_size] in *. by rewrite Hd.
  - cbn [chain]. unfold extent, HEADER. cbn [b_size]. rewrite Hd. split.
    + assert (Rd : forall k x, h <= x -> x + Z.of_nat k <= h + 32 -> rd k m' x = rd k m x).
      { intros k x Hx Hk. apply rd_ext. eapply same_off_on; [exact S|lia]. }
      revert B1 B2 B3 B4 B5. unfold header_at, extent, HEADER. unfold_fields. intros. rewrite !Rd by (fold h; lia).
      cbn [b_size b_free b_data]. rewrite Hd. split_and!; [done..|]. rewrite Hd'. unfold d', HEADER. done.
    + eapply chain_frame; [done|exact C|]. eapply same_off_on; [exact S|]. lia.
  - cbn [span]. unfold extent, HEADER. cbn [b_size]. eapply same_off_weaken; [exact S|fold h; lia..].
Qed.

(** A program that writes inside one block changes that block. *)
Lemma write_used s us q d m' :
  live s ((q, d) :: us) -> same_off (hmem s) m' q (q + zlen d) ->
  live (with_mem s m') ((q, rd_bytes m' q (length d)) :: us).
Proof.
  intros (L & A & R & l & r & G & B & E & -> & U)%live_at S. destruct (good_at _ _ _ _ G) as (OA & (_ & _ & _ & _ & Rg) & _).
  rewrite E in Rg. destruct (region_write _ m' _ _ _ _ Rg S) as [R' S'].
  set (d' := rd_bytes _ _ _) in *. assert (Hd : zlen d' = zlen d) by (unfold d', zlen; by rewrite rd_bytes_length).
  destruct OA as (_ & _ & _ & _ & _ & Sp). rewrite E in Sp.
  right. exists (L ++ with_blocks A (l ++ Used d' :: r) :: R). split_and!.
  - apply good_blocks; [done|exact R'|by destruct l| | |by rewrite E].
    + rewrite spread_app, spread_used_l, spread_used_r in *. exact Sp.
    + rewrite E, !span_app. cbn [span]. unfold extent. cbn [b_size]. lia.
  - unfold busy in *. rewrite Forall_app, Forall_cons in B. apply Forall_app. split; [tauto|]. apply Forall_cons. split; [|tauto].
    exact (busy_used A _ d' l r eq_refl).
  - eapply used_replace; [exact U|]. unfold used_of. cbn [with_blocks ar_blocks]. rewrite E.
    exists (used_in (ar_start A) l), (used_in (ar_start A + span l + HEADER + zlen d) r).
    unfold ar_start in *. cbn [with_blocks ar_base]. rewrite !used_in_app. cbn [used_in]. unfold extent. cbn [b_size].
    rewrite Hd, !Z.add_assoc. done.
Qed.

Lemma free_direct s us p c :
  live s ((p, c) :: us) ->
  exists s', sx_free p s = (s', Ok tt) /\ errno s' = errno s /\ live s' us.
Proof.
  intros (L & A & R & l & r & G & B & E & -> & U)%live_at.
  destruct (block_inside _ _ _ _ _ _ _ G E) as [_ Hpos].
  destruct (free_at s L A R l c r (ar_start A + span l + HEADER) G E ltac:(unfold HEADER; lia) (resolve_direct _ _ _ _ _ _ _ G E)) as (s' & As' & Ef & Er & G' & B' & U').
  exists s'. split_and!; [done..|]. right. exists As'. split_and!; [done| |].
  - apply B'. unfold busy in *. rewrite Forall_app, Forall_cons in B. apply Forall_app. tauto.
  - rewrite U' in U. by apply Permutation_cons_inv in U.
Qed.
End ops.
