(* ===== verification/HeapRealloc.v ===== *)
(** * The heap allocator: calloc, realloc and aligned allocation *)

From S2P Require Import Prelude Bytes Heap HeapFacts HeapBlocks HeapArenas HeapOps.

Section realloc.
Context {P : Type} `{!PageSource P} `{!PageLaws P}.
Implicit Types s : heap P.

(** The used block [c] before [r] became the used block [c'] before [r']. *)
Lemma live_reshape s s' L A R l c r c' r' us :
  good s (L ++ A :: R) -> busy (L ++ A :: R) -> ar_blocks A = l ++ Used c :: r ->
  used_all (L ++ A :: R) ≡ₚ (ar_start A + span l + HEADER, c) :: us ->
  good s' (L ++ with_blocks A (l ++ Used c' :: r') :: R) ->
  used_in (ar_start A + span l + HEADER + zlen c') r' = used_in (ar_start A + span l + HEADER + zlen c) r ->
  live s' ((ar_start A + span l + HEADER, c') :: us).
Proof.
  intros G B E U G' Hu. right. eexists. split; [exact G'|]. split.
  - unfold busy in *. rewrite Forall_app, Forall_cons in B. apply Forall_app. split; [tauto|]. apply Forall_cons. split; [|tauto].
    exact (busy_used A _ c' l r' eq_refl).
  - eapply used_replace; [exact U|]. unfold used_of. cbn [with_blocks ar_blocks]. rewrite E.
    eexists (used_in (ar_start A) l), (used_in (ar_start A + span l + HEADER + zlen c) r).
    unfold ar_start in *. cbn [with_blocks ar_base]. rewrite !used_in_app. cbn [used_in]. unfold extent. cbn [b_size].
    by rewrite !Z.add_assoc, Hu.
Qed.

Lemma split_used s L A R l c r sz :
  good s (L ++ A :: R) -> ar_blocks A = l ++ Used c :: r -> 16 <= sz -> sz mod 16 = 0 -> sz <= zlen c ->
  exists s' c' r', sx_split_block (ar_start A + span l) sz s = (s', Ok tt) /\ errno s' = errno s /\
    good s' (L ++ with_blocks A (l ++ Used c' :: r') :: R) /\ sz <= zlen c' /\ c' = take (length c') c /\
    used_in (ar_start A + span l + HEADER + zlen c') r' = used_in (ar_start A + span l + HEADER + zlen c) r.
Proof.
  intros G E Hs Hm Hk. destruct (good_at _ _ _ _ G) as (OA & (_ & _ & _ & _ & Rg) & _).
  destruct OA as (_ & _ & _ & _ & _ & Sp). rewrite E in Rg, Sp.
  rewrite spread_app, spread_used_r, spread_used_l in Sp. apply andb_true_iff in Sp as [Sl Sr].
  destruct (split_ok s _ _ _ sz _ Rg Sr Hs Hm Hk) as (m1 & E1 & R1 & S1). rewrite E1.
  assert (Hcase : exists c' r', split_list (Used c) sz r = Used c' :: r' /\ sz <= zlen c' /\ c' = take (length c') c /\ spread r' = true /\
      used_in (ar_start A + span l + HEADER + zlen c') r' = used_in (ar_start A + span l + HEADER + zlen c) r /\
      span (Used c' :: r') = span (Used c :: r)).
  { unfold split_list. cbn [b_size chop]. case_if.
    - exists c, r. by rewrite take_ge by lia.
    - exists (take (Z.to_nat sz) c), (coalesce (zlen c - sz - HEADER) r).
      assert (Ht : zlen (take (Z.to_nat sz) c) = sz) by (unfold zlen in *; rewrite length_take; lia).
      split_and!; [done|lia| |by apply spread_coalesce|..].
      + rewrite length_take. f_equal. unfold zlen in *. lia.
      + rewrite used_in_coalesce, Ht. f_equal. lia.
      + cbn [span]. rewrite span_coalesce. unfold extent. cbn [b_size]. rewrite Ht. unfold HEADER. lia. }
  destruct Hcase as (c' & r' & Es & Hc' & Hp & Sr' & Hu & Hspan). rewrite Es in R1.
  exists (with_mem s m1), c', r'. split_and!; [done..| |done|done|done].
  apply good_blocks; [done|exact R1|by destruct l| | |by rewrite E].
  - by rewrite spread_app, spread_used_l, spread_used_r, Sl, Sr'.
  - by rewrite E, !span_app, Hspan.
Qed.

Lemma grow_used s L A R l c r sz :
  good s (L ++ A :: R) -> ar_blocks A = l ++ Used c :: r -> zlen c < sz ->
  exists s' e r', grow_loop MERGE_FUEL (ar_start A + span l) sz s = (s', Ok tt) /\ errno s' = errno s /\
    good s' (L ++ with_blocks A (l ++ Used (c ++ e) :: r') :: R) /\
    h_size (hmem s') (ar_start A + span l) = zlen (c ++ e) /\
    used_in (ar_start A + span l + HEADER + zlen (c ++ e)) r' = used_in (ar_start A + span l + HEADER + zlen c) r.
Proof.
  intros G E Hc. destruct (good_at _ _ _ _ G) as (OA & (_ & _ & _ & _ & Rg) & _).
  destruct OA as (_ & _ & _ & _ & _ & Sp). rewrite E in Rg, Sp.
  rewrite spread_app, spread_used_r, spread_used_l in Sp. apply andb_true_iff in Sp as [Sl Sr].
  pose proof (region_head _ _ _ _ _ Rg) as ((B1 & _) & _). cbn [b_size] in B1.
  unfold MERGE_FUEL. cbn [grow_loop]. unfold st_bind at 1, st_get. rewrite B1. destruct (zlen c <? sz) eqn:?; [|lia].
  unfold st_bind at 1. destruct r as [|[k|d] r].
  - rewrite (absorb_none s _ _ _ _ Rg) by done. exists s, [], []. rewrite app_nil_r. rewrite <- E. destruct A. done.
  - destruct (absorb_some s _ _ _ _ _ Rg) as (m1 & e & E1 & He & R1 & S1). rewrite E1. cbn [grow] in R1.
    assert (G1 : good (with_mem s m1) (L ++ with_blocks A (l ++ Used (c ++ e) :: r) :: R)).
    { apply good_blocks; [done|exact R1|by destruct l| | |by rewrite E].
      - rewrite spread_app, spread_used_l, spread_used_r, Sl. cbn [andb]. by eapply spread_tail.
      - rewrite E, !span_app. cbn [span]. unfold extent. cbn [b_size]. rewrite zlen_app, He. unfold HEADER. lia. }
    pose proof (region_head _ _ _ _ _ R1) as ((B1' & _) & _). cbn [b_size] in B1'.
    unfold st_bind at 1, st_get. change (hmem (with_mem s m1)) with m1. rewrite B1'.
    exists (with_mem s m1), e, r. split_and!; [|done|done|done|].
    + destruct (zlen (c ++ e) <? sz); [|done]. unfold st_bind at 1.
      rewrite (absorb_none (with_mem s m1) _ _ _ _ R1) by (by eapply spread_bounded). done.
    + rewrite zlen_app, He. cbn [used_in]. unfold extent. cbn [b_size]. f_equal. lia.
  - rewrite (absorb_none s _ _ _ _ Rg) by done. exists s, [], (Used d :: r). rewrite app_nil_r. rewrite <- E. destruct A. done.
Qed.

(** The first bytes of two blocks agree. *)
Definition agree (n : Z) (c c' : list Z) : Prop := take (Z.to_nat n) c' = take (Z.to_nat n) c.

Lemma agree_take n c c' : n <= zlen c' -> c' = take (length c') c -> agree n c c'.
Proof. intros Hn ->. unfold agree, zlen in *. rewrite take_take. f_equal. lia. Qed.
Lemma agree_app n c e : n <= zlen c -> agree n c (c ++ e).
Proof. intros Hn. unfold agree, zlen in *. by rewrite take_app_le by lia. Qed.
Lemma agree_trans n c c' c'' : agree n c c' -> agree n c' c'' -> agree n c c''.
Proof. unfold agree. congruence. Qed.
Lemma agree_le n k c c' : 0 <= n <= k -> agree k c c' -> agree n c c'.
Proof.
  unfold agree. intros Hn E. assert (Ea : take (Z.to_nat n) (take (Z.to_nat k) c') = take (Z.to_nat n) (take (Z.to_nat k) c)) by (by rewrite E).
  rewrite !take_take in Ea. by replace (Z.to_nat n `min` Z.to_nat k)%nat with (Z.to_nat n) in Ea by lia.
Qed.

Lemma agree_copy m dst src n k c :
  rd_bytes m src (length c) = c -> 0 <= n <= zlen c -> n <= Z.of_nat k ->
  agree n c (rd_bytes (copy_range m dst src n) dst k).
Proof.
  intros Hc Hn Hk. unfold agree. apply (at_ext 0).
  - unfold zlen in Hn. rewrite !length_take, rd_bytes_length. lia.
  - intros i. unfold zlen. rewrite length_take, rd_bytes_length. intros Hi.
    assert (At : forall l : list Z, at_ 0 (take (Z.to_nat n) l) i = at_ 0 l i).
    { intros x. unfold at_. case_if; [done|]. rewrite !nth_lookup, lookup_take_lt by lia. done. }
    rewrite !At, at_rd_bytes by lia. rewrite <- Hc, at_rd_bytes by (unfold zlen in Hn; lia).
    unfold copy_range. case_if; [f_equal; lia|lia].
Qed.

Lemma realloc_ok s us p c n :
  live s ((p, c) :: us) -> 0 <= n <= SIZE_MAX ->
  exists s' r, sx_realloc p n s = (s', Ok r) /\
    ((n = 0 /\ r = 0 /\ live s' us) \/
     (n <> 0 /\ r = 0 /\ errno s' = ENOMEM /\ exists c', agree (zlen c) c c' /\ zlen c <= zlen c' /\ live s' ((p, c') :: us)) \/
     (0 < r /\ r mod 16 = 0 /\ exists c', n <= zlen c' /\ agree (Z.min (zlen c) n) c c' /\ live s' ((r, c') :: us))).
Proof.
  intros HL Hn. destruct (live_at _ _ _ _ HL) as (L & A & R & l & r & G & B & E & Ep & U).
  destruct (block_inside _ _ _ _ _ _ _ G E) as [_ Hpos].
  pose proof (valid_ok _ _ _ _ _ _ _ G E) as Hv.
  destruct (good_at _ _ _ _ G) as (OA & (_ & _ & _ & _ & Rg) & _). rewrite E in Rg.
  pose proof (region_head _ _ _ _ _ Rg) as ((B1 & _ & B3 & _) & _). cbn [b_size b_free] in B1, B3.
  pose proof (region_split _ _ _ _ Rg) as (_ & _ & Ol & _). pose proof (start_mod A l OA Ol) as Hmod.
  assert (Hp0 : 0 < p) by (rewrite Ep; unfold HEADER; lia).
  unfold sx_realloc. destruct (p =? 0) eqn:?; [lia|].
  destruct (n =? 0) eqn:En.
  { destruct (free_direct _ _ _ _ HL) as (s' & Ef & _ & HL'). unfold st_bind. rewrite Ef. exists s', 0. split; [done|]. left. split_and!; [lia|done..]. }
  pose proof U as U0. rewrite Ep in U0. set (h := ar_start A + span l) in *. rewrite <- Ep in Hmod.
  assert (Eh : p - HEADER = h) by lia. rewrite Eh. unfold st_bind at 1. rewrite Hv. unfold st_bind at 1, st_get. rewrite B3. cbn [negb orb Z.eqb].
  destruct (align_ok n Hn) as [[E0 _]|(A1 & A2 & A3 & A4 & A5)].
  { rewrite E0. cbn [Z.eqb]. unfold set_errno, st_bind, st_mod, st_ret. eexists _, 0. split; [done|]. right. left. split_and!; [lia|done..|].
    exists c. split_and!; [done|lia|]. right. eexists. split_and!; [by apply good_errno|done..]. }
  set (sz := sx_align_size n) in *. destruct (sz =? 0) eqn:?; [lia|]. rewrite B1.
  destruct (sz <=? zlen c) eqn:Ele.
  { destruct (split_used s L A R l c r sz G E) as (s' & c' & r' & Es & _ & G' & Hc' & Hp & Hu); [done|done|lia|].
    unfold st_bind. fold h in Es. rewrite Es. exists s', p. split; [done|]. right. right. split_and!; [lia|done|].
    exists c'. split_and!; [lia|apply agree_take; [lia|done]|]. rewrite Ep. eapply live_reshape; [exact G|done|exact E|exact U0|exact G'|done]. }
  destruct (grow_used s L A R l c r sz G E) as (s1 & e & r1 & Eg & _ & G1 & Hsz & Hu1); [lia|]. fold h in Eg, Hsz.
  assert (HL1 : live s1 ((p, c ++ e) :: us)).
  { rewrite Ep. eapply live_reshape; [exact G|done|exact E|exact U0|exact G1|done]. }
  unfold st_bind at 1. rewrite Eg. unfold st_bind at 1, st_get. rewrite Hsz.
  destruct (zlen (c ++ e) >=? sz) eqn:Ege.
  { destruct (split_used s1 L (with_blocks A (l ++ Used (c ++ e) :: r1)) R l (c ++ e) r1 sz G1 eq_refl) as (s' & c' & r' & Es & _ & G' & Hc' & Hp & Hu); [done|done|lia|].
    change (ar_start (with_blocks A (l ++ Used (c ++ e) :: r1)) + span l) with h in *.
    unfold st_bind. rewrite Es. exists s', p. split; [done|]. right. right. split_and!; [lia|done|].
    exists c'. split_and!; [lia| |].
    - eapply agree_trans; [apply (agree_app _ c e); lia|]. apply agree_take; [lia|done].
    - rewrite Ep. eapply live_reshape; [exact G|done|exact E|exact U0|exact G'|]. rewrite <- Hu1. exact Hu. }
  destruct (malloc_ok s1 _ n HL1 Hn) as (s2 & q & Em & [(-> & HL2 & Her & _)|(Hq & _ & _ & Hqm & _ & _ & d & Hd & HL2)]).
  { unfold st_bind. rewrite Em. cbn [Z.eqb]. exists s2, 0. split; [done|]. right. left. split_and!; [lia|done..|].
    exists (c ++ e). split_and!; [apply agree_app; lia|rewrite zlen_app; pose proof (zlen_nonneg e); lia|done]. }
  unfold st_bind at 1. rewrite Em. destruct (q =? 0) eqn:?; [lia|].
  assert (Hsz2 : h_size (hmem s2) h = zlen (c ++ e)).
  { assert (HL2' : live s2 ((p, c ++ e) :: (q, d) :: us)) by (eapply live_perm; [exact HL2|constructor]).
    apply live_at in HL2' as (L' & A' & R' & l' & r' & G' & _ & E' & Ep' & _).
    destruct (good_at _ _ _ _ G') as (_ & (_ & _ & _ & _ & Rg') & _). rewrite E' in Rg'. apply region_head in Rg' as ((B1' & _) & _).
    by replace h with (ar_start A' + span l') by lia. }
  unfold st_bind at 1, poke, st_mod. rewrite Hsz2.
  pose proof (zlen_nonneg c) as Hzc. pose proof (zlen_nonneg e) as Hze. pose proof (zlen_app c e) as Hza.
  set (m3 := copy_range (hmem s2) q p (Z.min (zlen (c ++ e)) n)).
  assert (HL3 : live (with_mem s2 m3) ((q, rd_bytes m3 q (length d)) :: (p, c ++ e) :: us)).
  { apply write_used; [done|]. eapply same_off_weaken; [apply copy_range_off|lia|]. lia. }
  assert (HL3' : live (with_mem s2 m3) ((p, c ++ e) :: (q, rd_bytes m3 q (length d)) :: us)) by (eapply live_perm; [exact HL3|constructor]).
  destruct (free_direct _ _ _ _ HL3') as (s4 & Ef & _ & HL4). unfold st_bind. rewrite Ef. exists s4, q. split; [done|].
  right. right. split_and!; [lia|done|]. exists (rd_bytes m3 q (length d)). split_and!; [|eapply agree_trans; [apply (agree_app _ c e)|]|done].
  - unfold zlen in *. rewrite rd_bytes_length. lia.
  - lia.
  - apply (agree_le _ (Z.min (zlen (c ++ e)) n)); [lia|].
    apply agree_copy; [|lia|unfold zlen in *; lia].
    eapply live_bytes. eapply live_perm; [exact HL2|constructor].
Qed.

(** ** calloc *)

Lemma rd_zero m a n k : n <= k -> take (Z.to_nat n) (rd_bytes (zero_range m a n) a (Z.to_nat k)) = replicate (Z.to_nat n) 0.
Proof.
  intros Hk. apply (at_ext 0); [rewrite length_take, rd_bytes_length, length_replicate; lia|].
  intros i. unfold zlen. rewrite length_take, rd_bytes_length. intros Hi. rewrite at_replicate.
  unfold at_. case_if; [done|]. rewrite nth_lookup, lookup_take_lt by lia. rewrite <- nth_lookup.
  pose proof (at_rd_bytes (zero_range m a n) a (Z.to_nat k) i) as E. unfold at_ in E. destruct (i <? 0) eqn:?; [lia|].
  rewrite E by lia. unfold zero_range. case_if; [done|lia].
Qed.

Lemma calloc_ok s us k n :
  live s us -> 0 <= k <= SIZE_MAX -> 0 <= n <= SIZE_MAX ->
  exists s' r, sx_calloc k n s = (s', Ok r) /\
    ((r = 0 /\ live s' us /\ errno s' = ENOMEM) \/
     (0 < r /\ r mod 16 = 0 /\ k * n <= SIZE_MAX /\
      exists c, k * n <= zlen c /\ take (Z.to_nat (k * n)) c = replicate (Z.to_nat (k * n)) 0 /\ live s' ((r, c) :: us))).
Proof.
  intros HL Hk Hn. unfold sx_calloc. destruct (negb (k =? 0) && (n >? SIZE_MAX / k)) eqn:Eo.
  { unfold set_errno, st_bind, st_mod, st_ret. eexists _, 0. split; [done|]. left. split_and!; [done| |done].
    destruct HL as [[Hf ->]|(As & HG & HB & HU)]; [left; done|right]. exists As. split_and!; [by apply good_errno|done..]. }
  assert (Hle : 0 <= k * n <= SIZE_MAX).
  { split; [lia|]. destruct (decide (k = 0)) as [->|]; [unfold SIZE_MAX; lia|].
    assert (n <= SIZE_MAX / k) by lia. assert (k * (SIZE_MAX / k) <= SIZE_MAX) by (apply Z.mul_div_le; lia). nia. }
  unfold u64. rewrite Z.mod_small by (unfold SIZE_MAX in Hle; lia).
  destruct (malloc_ok s us (k * n) HL Hle) as (s1 & q & Em & [(-> & HL1 & Her & _)|(Hq & _ & _ & Hqm & _ & _ & d & Hd & HL1)]);
    unfold st_bind; rewrite Em.
  - cbn [Z.eqb negb]. exists s1, 0. split; [done|]. by left.
  - destruct (q =? 0) eqn:?; [lia|]. cbn [negb]. unfold poke, st_mod, st_ret. eexists _, q. split; [done|]. right. split_and!; [done..|lia|].
    exists (rd_bytes (zero_range (hmem s1) q (k * n)) q (length d)). split_and!.
    + unfold zlen in *. by rewrite rd_bytes_length.
    + replace (length d) with (Z.to_nat (zlen d)) by (unfold zlen; lia). by apply rd_zero.
    + apply write_used; [done|]. eapply same_off_weaken; [apply zero_range_off|lia..].
Qed.

(** ** Aligned allocation *)

Lemma pow2_of_land a : 0 < a -> Z.land a (a - 1) = 0 -> exists k, 0 <= k /\ a = 2 ^ k.
Proof.
  intros Ha Hl. exists (Z.log2 a). pose proof (Z.log2_spec a Ha) as [L1 L2]. pose proof (Z.log2_nonneg a). split; [done|].
  destruct (decide (a = 2 ^ Z.log2 a)) as [|Hne]; [done|]. exfalso.
  assert (Hlog : Z.log2 (a - 1) = Z.log2 a) by (apply Z.log2_unique; lia).
  assert (Hb : Z.testbit (Z.land a (a - 1)) (Z.log2 a) = true).
  { rewrite Z.land_spec, Z.bit_log2 by done. rewrite <- Hlog at 1. apply Z.bit_log2.
    assert (0 < 2 ^ Z.log2 a) by (apply Z.pow_pos_nonneg; lia). lia. }
  by rewrite Hl, Z.bits_0 in Hb.
Qed.

Lemma land_mod a x : 0 < a -> Z.land a (a - 1) = 0 -> Z.land x (a - 1) = x mod a.
Proof.
  intros Ha (k & Hk & ->)%pow2_of_land; [|done]. rewrite <- Z.land_ones by done. f_equal. rewrite Z.ones_equiv. lia.
Qed.

Lemma heap_align_up_spec al x :
  0 < al < WORD -> Z.land al (al - 1) = 0 ->
  let p := x + Z.land (u64 (al - Z.land x (al - 1))) (al - 1) in p mod al = 0 /\ x <= p < x + al.
Proof.
  intros Ha Hl p. unfold p. rewrite !(land_mod al) by (done || lia). pose proof (Z.mod_pos_bound x al ltac:(lia)) as Hm.
  unfold u64, WORD in *. rewrite (Z.mod_small (al - x mod al) 18446744073709551616) by lia. pose proof (Z.mod_pos_bound (al - x mod al) al ltac:(lia)) as Hm'. split; [|lia].
  rewrite Zplus_mod_idemp_r. replace (x + (al - x mod al)) with (x - x mod al + 1 * al) by lia.
  rewrite Z_mod_plus_full. rewrite Zminus_mod_idemp_r, Z.sub_diag. apply Z.mod_0_l. lia.
Qed.

(** The tag before an aligned pointer [p] into the block [c] at [b]. *)
Definition tagged (b : Z) (c : list Z) (p : Z) : Prop :=
  b + 16 <= p /\ p <= b + zlen c /\
  take 16 (drop (Z.to_nat (p - b - 16)) c) = le 8 SX_ALIGNED_MAGIC ++ le 8 b.

Lemma slice_rd m b n i k :
  0 <= i -> i + Z.of_nat k <= Z.of_nat n -> take k (drop (Z.to_nat i) (rd_bytes m b n)) = rd_bytes m (b + i) k.
Proof.
  intros Hi Hk. replace n with (Z.to_nat i + (k + (n - Z.to_nat i - k)))%nat by lia.
  rewrite !rd_bytes_app, drop_app_length', take_app_length' by (by rewrite rd_bytes_length). f_equal. lia.
Qed.

Lemma aligned_ok s us al n :
  live s us -> 0 <= n <= SIZE_MAX -> 16 < al < WORD -> Z.land al (al - 1) = 0 ->
  exists s' r, sx_allocate_aligned al n s = (s', Ok r) /\
    ((r = 0 /\ live s' us) \/
     (0 < r /\ r mod al = 0 /\ r mod 16 = 0 /\ exists b c, live s' ((b, c) :: us) /\ tagged b c r /\ r + n <= b + zlen c)).
Proof.
  intros HL Hn Ha Hl. unfold sx_allocate_aligned, SX_ALLOC_ALIGNMENT. destruct (al <=? 16) eqn:?; [lia|].
  set (total := u64 (n + al + 16)). destruct (total <? n) eqn:Et; [by exists s, 0; split; [done|left]|].
  assert (Htot : total = n + al + 16 /\ 0 <= total <= SIZE_MAX).
  { destruct (pow2_of_land al ltac:(lia) Hl) as (k & Hk & Ek).
    assert (k <= 63).
    { destruct (decide (k <= 63)); [done|]. exfalso. assert (2 ^ 64 <= 2 ^ k) by (apply Z.pow_le_mono_r; lia). unfold WORD in Ha. lia. }
    assert (al <= 2 ^ 63) by (rewrite Ek; apply Z.pow_le_mono_r; lia). change (2 ^ 63) with 9223372036854775808 in *.
    unfold total, u64, SIZE_MAX in *. pose proof (Z.mod_pos_bound (n + al + 16) 18446744073709551616 ltac:(lia)).
    destruct (decide (n + al + 16 < 18446744073709551616)).
    - rewrite Z.mod_small by lia. lia.
    - exfalso. revert Et. replace (n + al + 16) with (n + al + 16 - 18446744073709551616 + 1 * 18446744073709551616) by lia.
      rewrite Z_mod_plus_full, Z.mod_small by lia. lia. }
  destruct Htot as [Htot Hr].
  destruct (malloc_ok s us total HL Hr) as (s1 & b & Em & [(-> & HL1 & _)|(Hb & _ & _ & Hbm & _ & _ & c & Hc & HL1)]);
    unfold st_bind at 1; rewrite Em.
  { cbn [Z.eqb]. exists s1, 0. split; [done|]. by left. }
  destruct (b =? 0) eqn:?; [lia|]. destruct (heap_align_up_spec al (b + 16) ltac:(lia) Hl) as [P1 P2]. cbv zeta.
  set (p := b + 16 + _) in *. unfold st_bind, poke, st_mod, st_ret. eexists _, p. split; [done|]. right.
  assert (Hb' : 0 <= b < WORD).
  { apply live_at in HL1 as (L & A & R & l & r & G & _ & E & -> & _). destruct (good_at _ _ _ _ G) as (_ & (_ & _ & _ & _ & Rg) & _).
    rewrite E in Rg. apply region_head in Rg as (_ & _ & [Ob _] & _ & Hpos & _ & Sr & Ht). unfold WORD, USER_TOP, extent, HEADER in *. lia. }
  assert (Hpm : p mod 16 = 0).
  { destruct (pow2_of_land al ltac:(lia) Hl) as (k & Hk & Ek). assert (4 <= k).
    { destruct (decide (4 <= k)); [done|]. exfalso. assert (2 ^ k <= 2 ^ 4) by (apply Z.pow_le_mono_r; lia). change (2 ^ 4) with 16 in *. lia. }
    apply Z.mod_divide in P1 as [q Eq]; [|lia]. rewrite Eq, Ek. replace k with (k - 4 + 4) by lia. rewrite Z.pow_add_r by lia.
    change (2 ^ 4) with 16. rewrite Z.mul_assoc. apply Z.mod_mul. lia. }
  split_and!; [lia|done|done|]. exists b.
  set (m2 := wr 8 (wr 8 (hmem s1) (p - 16) SX_ALIGNED_MAGIC) (p - 8) b). exists (rd_bytes m2 b (length c)).
  assert (Hz : zlen (rd_bytes m2 b (length c)) = zlen c) by (unfold zlen; by rewrite rd_bytes_length).
  split_and!.
  - apply (write_used s1 us b c m2 HL1). unfold m2. eapply same_off_trans; apply wr_in; lia.
  - unfold tagged. rewrite Hz. split_and!; [lia..|]. unfold zlen in *. rewrite slice_rd by lia.
    replace (b + (p - b - 16)) with (p - 16) by lia. change 16%nat with (8 + 8)%nat. rewrite rd_bytes_app. f_equal.
    + unfold m2, wr. erewrite rd_bytes_ext; [apply rd_bytes_wr; by rewrite le_length|]. eapply same_off_on; [apply wr_off|]. lia.
    + replace (p - 16 + Z.of_nat 8) with (p - 8) by lia. unfold m2, wr. apply rd_bytes_wr. by rewrite le_length.
  - rewrite Hz. lia.
Qed.

(** [sx_free] finds the block behind an aligned pointer. *)
Lemma free_tagged s us b c p :
  live s ((b, c) :: us) -> tagged b c p -> exists s', sx_free p s = (s', Ok tt) /\ errno s' = errno s /\ live s' us.
Proof.
  intros HL (T1 & T2 & T3). pose proof (live_bytes _ _ _ _ HL) as Hby.
  apply live_at in HL as (L & A & R & l & r & G & B & E & Eb & U).
  destruct (block_inside _ _ _ _ _ _ _ G E) as [_ Hpos].
  destruct (good_at _ _ _ _ G) as (_ & (_ & _ & _ & _ & Rg) & _). rewrite E in Rg.
  pose proof (region_head _ _ _ _ _ Rg) as ((_ & _ & B3 & _) & _ & _ & _ & _ & _ & Sr & Ht). cbn [b_free] in B3.
  pose proof (valid_ok _ _ _ _ _ _ _ G E) as Hv.
  assert (Hr : rd_bytes (hmem s) (p - 16) (8 + 8) = le 8 SX_ALIGNED_MAGIC ++ le 8 b).
  { rewrite <- T3, <- Hby at 1. unfold zlen in T2. rewrite slice_rd by lia. f_equal. lia. }
  rewrite rd_bytes_app in Hr. apply app_inj_1 in Hr as [Hr1 Hr2]; [|by rewrite rd_bytes_length, le_length].
  assert (Hb : 0 < b < WORD) by (unfold WORD, USER_TOP, extent, HEADER in *; cbn [b_size] in *; pose proof (zlen_nonneg c); lia).
  assert (M1 : t_magic (hmem s) (p - 16) = SX_ALIGNED_MAGIC) by (unfold t_magic, rd; by rewrite Hr1, unle_le).
  assert (M2 : t_base (hmem s) (p - 16) = b).
  { unfold t_base, rd. replace (p - 16 + 8) with (p - 16 + Z.of_nat 8) by lia. rewrite Hr2, unle_le. apply Z.mod_small. apply (proj1 (word_lt b)). lia. }
  assert (Hres : sx_resolve_aligned p s = (s, Ok (ar_start A + span l + HEADER))).
  { unfold sx_resolve_aligned. unfold st_bind at 1, st_get. rewrite M1, M2, Z.eqb_refl. cbn [negb orb].
    destruct (b =? 0) eqn:?; [lia|]. destruct (b >=? p) eqn:?; [lia|]. cbn [orb].
    replace (b - HEADER) with (ar_start A + span l) by lia. unfold st_bind at 1. rewrite Hv, B3. cbn [negb orb Z.eqb]. by rewrite Eb. }
  destruct (free_at s L A R l c r p G E ltac:(lia) Hres) as (s' & As' & Ef & Er & G' & B' & U').
  exists s'. split_and!; [done..|]. right. exists As'. split_and!; [done| |].
  - apply B'. unfold busy in *. rewrite Forall_app, Forall_cons in B. apply Forall_app. tauto.
  - rewrite <- Eb, U in U'. by apply Permutation_cons_inv in U'.
Qed.
End realloc.
