(* ===== verification/HeapLaws.v ===== *)
(** * The heap allocator: what it promises

    The abstract heap is a list of objects, each with its pointer and its bytes.
    A program may allocate, release and resize objects and store bytes inside
    them; [spec_step] says what each action may do to the objects.  The
    allocator refines it: the memory at the pointer of every object holds
    exactly its bytes, whatever the sequence of actions. *)

From S2P Require Import Prelude Bytes Heap HeapFacts HeapBlocks HeapArenas HeapOps HeapRealloc.

(** ** The abstract heap *)

(** [o_tag]: it came from an alignment above 16. *)
Record object := mk_obj { o_ptr : Z; o_tag : bool; o_data : list Z }.
Definition o_range (o : object) : Z * Z := (o_ptr o, zlen (o_data o)).

Inductive action :=
| Malloc (n : Z)
| Calloc (count n : Z)
| Realloc (p n : Z)
| Release (p : Z)
| Aligned (alignment n : Z)
| Store (p off : Z) (bs : list Z).

Definition put_bytes (d : list Z) (off : Z) (bs : list Z) : list Z :=
  take (Z.to_nat off) d ++ bs ++ drop (Z.to_nat off + length bs) d.

(** What a program may do: sizes are 64-bit, pointers are live, stores stay
    inside an object.  [realloc] is for pointers of [malloc]. *)
Definition allowed (O : list object) (act : action) : Prop :=
  match act with
  | Malloc n => 0 <= n <= SIZE_MAX
  | Calloc k n => 0 <= k <= SIZE_MAX /\ 0 <= n <= SIZE_MAX
  | Realloc p n => 0 <= n <= SIZE_MAX /\ (p = 0 \/ exists d, mk_obj p false d ∈ O)
  | Release p => p = 0 \/ exists o, o ∈ O /\ o_ptr o = p
  | Aligned al n => 0 <= al <= SIZE_MAX /\ 0 <= n <= SIZE_MAX
  | Store p off bs => exists o, o ∈ O /\ o_ptr o = p /\ 0 <= off /\ off + zlen bs <= zlen (o_data o)
  end.

(** The result is the returned pointer, 0 for the actions that return none. *)
Inductive spec_step : list object -> action -> Z -> list object -> Prop :=
| ss_null O act :
    match act with Release _ | Store _ _ _ => False | Realloc p n => p = 0 \/ n <> 0 | _ => True end ->
    spec_step O act 0 O
| ss_malloc O n r d : 0 < r -> zlen d = n -> spec_step O (Malloc n) r (mk_obj r false d :: O)
| ss_calloc O k n r : 0 < r ->
    spec_step O (Calloc k n) r (mk_obj r false (replicate (Z.to_nat (k * n)) 0) :: O)
| ss_aligned O al n r d :
    0 < r -> r mod al = 0 -> zlen d = n -> spec_step O (Aligned al n) r (mk_obj r (16 <? al) d :: O)
| ss_realloc_null O n r d : 0 < r -> zlen d = n -> spec_step O (Realloc 0 n) r (mk_obj r false d :: O)
| ss_realloc O1 p d O2 n r d' :
    0 < r -> zlen d' = n -> agree (Z.min (zlen d) n) d d' ->
    spec_step (O1 ++ mk_obj p false d :: O2) (Realloc p n) r (O1 ++ mk_obj r false d' :: O2)
| ss_realloc_zero O1 p d O2 :
    spec_step (O1 ++ mk_obj p false d :: O2) (Realloc p 0) 0 (O1 ++ O2)
| ss_free_null O : spec_step O (Release 0) 0 O
| ss_free O1 o O2 : spec_step (O1 ++ o :: O2) (Release (o_ptr o)) 0 (O1 ++ O2)
| ss_store O1 p t d O2 off bs :
    spec_step (O1 ++ mk_obj p t d :: O2) (Store p off bs) 0 (O1 ++ mk_obj p t (put_bytes d off bs) :: O2).

(** ** The objects of a heap state *)

Definition holds_obj (o : object) (u : Z * list Z) : Prop :=
  u.1 <= o_ptr o /\ o_ptr o + zlen (o_data o) <= u.1 + zlen u.2 /\ o_ptr o mod 16 = 0 /\
  o_data o = take (length (o_data o)) (drop (Z.to_nat (o_ptr o - u.1)) u.2) /\
  if o_tag o then tagged u.1 u.2 (o_ptr o) else o_ptr o = u.1.

Lemma holds_new r c n :
  0 <= n <= zlen c -> r mod 16 = 0 -> holds_obj (mk_obj r false (take (Z.to_nat n) c)) (r, c).
Proof.
  intros Hn Hr. unfold holds_obj. cbn [o_ptr o_data o_tag fst snd]. unfold zlen in *. rewrite length_take, Z.sub_diag.
  split_and!; [lia|lia|done| |done]. cbn [Z.to_nat drop]. f_equal. lia.
Qed.

Section put.
Variables (m : mem) (p off : Z) (bs d : list Z).
Hypothesis Hd : rd_bytes m p (length d) = d.
Hypothesis Hoff : 0 <= off.
Hypothesis Hfit : off + zlen bs <= zlen d.

Lemma rd_put : rd_bytes (wr_bytes m (p + off) bs) p (length d) = put_bytes d off bs.
Proof.
  unfold zlen in *. unfold put_bytes.
  assert (Hs : forall i k, 0 <= i -> i + Z.of_nat k <= Z.of_nat (length d) -> take k (drop (Z.to_nat i) d) = rd_bytes m (p + i) k).
  { intros i k Hi Hk. rewrite <- (slice_rd m p (length d)) by lia. by rewrite Hd. }
  replace (length d) with (Z.to_nat off + (length bs + (length d - Z.to_nat off - length bs)))%nat at 1 by lia.
  rewrite !rd_bytes_app. f_equal; [|f_equal].
  - rewrite (rd_bytes_ext m); [|eapply same_off_on; [apply wr_bytes_off|]; unfold zlen; lia].
    pose proof (Hs 0 (Z.to_nat off)) as H0. change (Z.to_nat 0) with 0%nat in H0. rewrite drop_0 in H0. rewrite H0 by lia. f_equal. lia.
  - replace (p + Z.of_nat (Z.to_nat off)) with (p + off) by lia. by apply rd_bytes_wr.
  - rewrite (rd_bytes_ext m); [|eapply same_off_on; [apply wr_bytes_off|]; unfold zlen; lia].
    replace (Z.to_nat off + length bs)%nat with (Z.to_nat (off + Z.of_nat (length bs))) by lia.
    rewrite <- (take_ge (drop _ d) (length d - Z.to_nat off - length bs)) by (rewrite length_drop; lia).
    rewrite Hs by lia. f_equal. lia.
Qed.
Lemma put_length : length (put_bytes d off bs) = length d.
Proof. rewrite <- rd_put. apply rd_bytes_length. Qed.
End put.

Lemma holds_bytes m o b c :
  holds_obj o (b, c) -> rd_bytes m b (length c) = c -> rd_bytes m (o_ptr o) (length (o_data o)) = o_data o.
Proof.
  intros (H1 & H2 & _ & H4 & _) Hc. cbn [fst snd] in *. unfold zlen in *. rewrite H4 at 2.
  rewrite <- Hc, slice_rd by lia. f_equal. lia.
Qed.

Lemma holds_store m o b c off bs :
  holds_obj o (b, c) -> rd_bytes m b (length c) = c -> 0 <= off -> off + zlen bs <= zlen (o_data o) ->
  holds_obj (mk_obj (o_ptr o) (o_tag o) (put_bytes (o_data o) off bs))
            (b, rd_bytes (wr_bytes m (o_ptr o + off) bs) b (length c)).
Proof.
  intros Ho Hc Hoff Hfit. pose proof (holds_bytes _ _ _ _ Ho Hc) as Hd. destruct Ho as (H1 & H2 & H3 & H4 & H5). cbn [fst snd] in *.
  pose proof (put_length m _ off bs _ Hd Hoff Hfit) as Hl. unfold holds_obj. cbn [o_ptr o_tag o_data fst snd]. unfold zlen in *.
  rewrite Hl, rd_bytes_length. split_and!; [lia|lia|done| |].
  - rewrite slice_rd by lia. replace (b + (o_ptr o - b)) with (o_ptr o) by lia. by rewrite rd_put.
  - destruct (o_tag o); [|done]. destruct H5 as (T1 & T2 & T3). unfold tagged, zlen in *. rewrite rd_bytes_length. split_and!; [lia|lia|].
    rewrite <- Hc in T3. rewrite slice_rd in T3 by lia. rewrite <- T3, slice_rd by lia. apply rd_bytes_ext. eapply same_off_on; [apply wr_bytes_off|]. unfold zlen. lia.
Qed.

(** ** Used blocks do not overlap *)

Definition u_range (u : Z * list Z) : Z * Z := (u.1, zlen u.2).

Lemma used_in_bounds a bs p c :
  blocks_ok bs -> (p, c) ∈ used_in a bs -> a <= p /\ p + zlen c <= a + span bs.
Proof.
  intros Hok (l & r & -> & ->)%used_in_elem. apply Forall_app in Hok as [Hl [Hc Hr]%Forall_cons].
  pose proof (span_nonneg _ Hl). pose proof (span_nonneg _ Hr). rewrite span_app. cbn [span]. unfold extent, HEADER. cbn [b_size]. lia.
Qed.

Lemma used_in_apart a bs : blocks_ok bs -> all_apart (map u_range (used_in a bs)).
Proof.
  intros Hok. revert a. induction Hok as [|b bs Hb Hbs IH]; intros a; [done|]. destruct b as [n|c]; cbn [used_in]; [apply IH|].
  cbn [map all_apart]. split; [|apply IH]. rewrite Forall_map, List.Forall_forall. intros [p d] HIn%list_elem_of_In.
  pose proof (used_in_bounds _ _ _ _ Hbs HIn). unfold apart, u_range, extent in *. cbn [fst snd b_size] in *. left. lia.
Qed.

Lemma all_apart_app l r :
  all_apart (l ++ r) <-> all_apart l /\ all_apart r /\ Forall (fun x => Forall (apart x) r) l.
Proof.
  induction l as [|x l IH]; cbn [app all_apart].
  - split; [intros; split_and!; [done..|constructor]|tauto].
  - rewrite IH, Forall_app, Forall_cons. tauto.
Qed.

Lemma all_apart_perm l r : l ≡ₚ r -> all_apart l -> all_apart r.
Proof.
  induction 1 as [|x l r P IH|x y l|l r t P1 IH1 P2 IH2]; [done|..]; cbn [all_apart].
  - intros [H1 H2]. split; [by rewrite <- P|auto].
  - intros [[H1 H2]%Forall_cons [H3 H4]]. split_and!; [apply Forall_cons; split; [by apply apart_sym|done]|done|done].
  - auto.
Qed.

Lemma used_all_apart m As nx :
  arenas m As nx -> Forall arena_ok As -> all_apart (map ar_range As) -> all_apart (map u_range (used_all As)).
Proof.
  intros Hm Hok. induction Hok as [|A As OA OAs IH]; intros Hap; [done|]. destruct Hm as [HA Hm]. destruct Hap as [Hap Hap'].
  assert (Hin : forall B nb u, arena_rep m B nb -> arena_ok B -> u ∈ used_of B -> ar_base B <= u.1 /\ u.1 + zlen u.2 <= ar_base B + ar_size B).
  { intros B nb [p c] (_ & _ & _ & _ & _ & Hbok & _) (_ & _ & O3 & _) HIn. destruct (used_in_bounds _ _ _ _ Hbok HIn). unfold ar_start in *. cbn [fst snd]. lia. }
  unfold used_all. cbn [flat_map]. fold (used_all As). rewrite map_app. apply all_apart_app. split_and!.
  - destruct HA as (_ & _ & _ & _ & _ & Hbok & _). by apply used_in_apart.
  - by apply IH.
  - rewrite Forall_map, List.Forall_forall. intros u Hu%list_elem_of_In. rewrite Forall_map, List.Forall_forall. intros v Hv.
    apply in_flat_map in Hv as (B & HB & Hv%list_elem_of_In). pose proof (Hin _ _ _ HA OA Hu) as HuA.
    rewrite Forall_map, List.Forall_forall in Hap. specialize (Hap B HB). rewrite List.Forall_forall in OAs. specialize (OAs B HB).
    assert (exists nb, arena_rep m B nb) as [nb HrB].
    { apply list_elem_of_In, list_elem_of_split in HB as (L & R & ->). apply arenas_app in Hm as [_ [HrB _]]. eauto. }
    pose proof (Hin _ _ _ HrB OAs Hv). unfold apart, ar_range, u_range in *. cbn [fst snd] in *. lia.
Qed.

(** ** The refinement *)

Section refines.
Context {P : Type} `{!PageSource P} `{!PageLaws P}.
Implicit Types s : heap P.

Definition perform (act : action) : H Z :=
  match act with
  | Malloc n => sx_malloc n
  | Calloc k n => sx_calloc k n
  | Realloc p n => sx_realloc p n
  | Release p => (sx_free p ;;; st_ret 0)%st
  | Aligned al n => sx_aligned_alloc al n
  | Store p off bs => (poke (fun m => wr_bytes m (p + off) bs) ;;; st_ret 0)%st
  end.

Definition heap_inv (s : heap P) (O : list object) : Prop :=
  exists us, live s us /\ Forall2 holds_obj O us.

(** The memory holds the objects, aligned, in user space and apart. *)
Definition well_placed (m : mem) (O : list object) : Prop :=
  Forall (fun o => rd_bytes m (o_ptr o) (length (o_data o)) = o_data o /\ o_ptr o mod 16 = 0 /\
                   0 < o_ptr o /\ o_ptr o + zlen (o_data o) <= USER_TOP) O /\
  all_apart (map o_range O).

Lemma inv_focus s O1 o O2 :
  heap_inv s (O1 ++ o :: O2) ->
  exists us1 b c us2, live s ((b, c) :: us1 ++ us2) /\ Forall2 holds_obj O1 us1 /\ holds_obj o (b, c) /\ Forall2 holds_obj O2 us2.
Proof.
  intros (us & HL & HF). apply Forall2_app_inv_l in HF as (us1 & us' & F1 & F2 & ->).
  apply Forall2_cons_inv_l in F2 as ([b c] & us2 & Ho & F2 & ->). exists us1, b, c, us2. split_and!; [|done..].
  eapply live_perm; [exact HL|]. by rewrite <- Permutation_middle.
Qed.
Lemma inv_put s O1 o O2 us1 u us2 :
  live s (u :: us1 ++ us2) -> Forall2 holds_obj O1 us1 -> holds_obj o u -> Forall2 holds_obj O2 us2 ->
  heap_inv s (O1 ++ o :: O2).
Proof.
  intros HL F1 Ho F2. exists (us1 ++ u :: us2). split; [|by apply Forall2_app; [|constructor]].
  eapply live_perm; [exact HL|]. by rewrite <- Permutation_middle.
Qed.

Lemma zlen_take n (c : list Z) : 0 <= n <= zlen c -> zlen (take (Z.to_nat n) c) = n.
Proof. unfold zlen. rewrite length_take. lia. Qed.

Lemma malloc_step s O n :
  heap_inv s O -> 0 <= n <= SIZE_MAX ->
  exists s' r, sx_malloc n s = (s', Ok r) /\
    ((r = 0 /\ heap_inv s' O) \/ (0 < r /\ exists d, zlen d = n /\ heap_inv s' (mk_obj r false d :: O))).
Proof.
  intros (us & HL & HF) Hn. destruct (malloc_ok s us n HL Hn) as (s' & r & E & [(-> & HL' & _)|(Hr & _ & _ & Hm & _ & _ & c & Hc & HL')]).
  - exists s', 0. split; [done|]. left. split; [done|]. by exists us.
  - exists s', r. split; [done|]. right. split; [done|]. exists (take (Z.to_nat n) c). split; [apply zlen_take; lia|].
    exists ((r, c) :: us). split; [done|]. constructor; [apply holds_new; [lia|done]|done].
Qed.

Lemma aligned_step s O al n :
  heap_inv s O -> 0 <= al <= SIZE_MAX -> 0 <= n <= SIZE_MAX ->
  exists s' r, sx_aligned_alloc al n s = (s', Ok r) /\
    ((r = 0 /\ heap_inv s' O) \/ (0 < r /\ r mod al = 0 /\ exists d, zlen d = n /\ heap_inv s' (mk_obj r (16 <? al) d :: O))).
Proof.
  intros HI Ha Hn. unfold sx_aligned_alloc. destruct ((al =? 0) || negb (Z.land al (al - 1) =? 0)) eqn:Ebad.
  { unfold set_errno, st_bind, st_mod, st_ret. eexists _, 0. split; [done|]. left. split; [done|]. destruct HI as (us & HL & HF). exists us. split; [|done].
    destruct HL as [[Hf ->]|(As & HG & HB & HU)]; [left; done|right]. exists As. split_and!; [by apply good_errno|done..]. }
  apply orb_false_iff in Ebad as [Enz Hl]. apply negb_false_iff, Z.eqb_eq in Hl.
  assert (Hp : 0 < al < WORD) by (unfold WORD, SIZE_MAX in *; lia).
  destruct (16 <? al) eqn:E16.
  - destruct HI as (us & HL & HF). destruct (aligned_ok s us al n HL Hn ltac:(lia) Hl) as (s' & r & E & [(-> & HL')|(Hr & Hm & Hm16 & b & c & HL' & HT & Hfit)]).
    + exists s', 0. split; [done|]. left. split; [done|]. by exists us.
    + exists s', r. split; [done|]. right. split_and!; [done..|]. destruct HT as (T1 & T2 & T3).
      exists (take (Z.to_nat n) (drop (Z.to_nat (r - b)) c)).
      assert (Hz : zlen (take (Z.to_nat n) (drop (Z.to_nat (r - b)) c)) = n) by (unfold zlen in *; rewrite length_take, length_drop; lia).
      split; [done|]. exists ((b, c) :: us). split; [done|]. constructor; [|done]. unfold holds_obj. cbn [o_ptr o_tag o_data fst snd].
      rewrite Hz. split_and!; [lia|lia|done| |]; [|split_and!; done]. f_equal. unfold zlen in Hz. lia.
  - unfold sx_allocate_aligned, SX_ALLOC_ALIGNMENT. destruct (al <=? 16) eqn:?; [|lia].
    destruct (malloc_step s O n HI Hn) as (s' & r & E & [[-> HI']|(Hr & d & Hd & HI')]).
    + exists s', 0. split; [done|]. by left.
    + exists s', r. split; [done|]. right. split_and!; [done| |by exists d].
      destruct (pow2_of_land al ltac:(lia) Hl) as (k & Hk & Ek).
      assert (Hr16 : r mod 16 = 0) by (destruct HI' as (us' & _ & HF'); apply Forall2_cons_inv_l in HF' as (u & ? & (_ & _ & ? & _) & _); done).
      assert (k <= 4). { destruct (decide (k <= 4)); [done|]. exfalso. assert (2 ^ 5 <= 2 ^ k) by (apply Z.pow_le_mono_r; lia). change (2 ^ 5) with 32 in *. lia. }
      apply Z.mod_divide in Hr16 as [q ->]; [|lia]. rewrite Ek. change 16 with (2 ^ 4). replace 4 with (4 - k + k) by lia.
      rewrite Z.pow_add_r, Z.mul_assoc by lia. apply Z.mod_mul. apply Z.pow_nonzero; lia.
Qed.

Lemma realloc_step s O1 p d O2 n :
  heap_inv s (O1 ++ mk_obj p false d :: O2) -> 0 <= n <= SIZE_MAX ->
  exists s' r O', sx_realloc p n s = (s', Ok r) /\
    spec_step (O1 ++ mk_obj p false d :: O2) (Realloc p n) r O' /\ heap_inv s' O'.
Proof.
  intros (us1 & b & c & us2 & HL & F1 & Ho & F2)%inv_focus Hn. pose proof Ho as (H1 & H2 & H3 & H4 & H5).
  cbn [o_ptr o_data o_tag fst snd] in *. subst b. rewrite Z.sub_diag in H4. change (Z.to_nat 0) with 0%nat in H4. rewrite drop_0 in H4.
  destruct (realloc_ok s _ p c n HL Hn) as (s' & r & E & [(-> & -> & HL')|[(Hn0 & -> & _ & c' & Hag & Hz & HL')|(Hr & Hm & c' & Hc & Hag & HL')]]).
  - exists s', 0, (O1 ++ O2). split_and!; [done|constructor|]. exists (us1 ++ us2). split; [done|by apply Forall2_app].
  - eexists s', 0, _. split_and!; [done|apply ss_null; by right|]. eapply inv_put; [exact HL'|done| |done].
    unfold holds_obj. cbn [o_ptr o_data o_tag fst snd]. rewrite Z.sub_diag. change (Z.to_nat 0) with 0%nat. rewrite drop_0. split_and!; [lia|lia|done| |done].
    apply (agree_le (zlen d)) in Hag; [|pose proof (zlen_nonneg d); lia]. unfold agree, zlen in Hag. rewrite Nat2Z.id in Hag. by rewrite Hag.
  - assert (Hz : zlen (take (Z.to_nat n) c') = n) by (apply zlen_take; lia).
    eexists s', r, _. split_and!; [done| |].
    + apply (ss_realloc O1 p d O2 n r (take (Z.to_nat n) c')); [done..|].
      pose proof (zlen_nonneg d). unfold agree in *. rewrite take_take. replace (Z.to_nat (zlen d `min` n) `min` Z.to_nat n)%nat with (Z.to_nat (zlen d `min` n)) by lia.
      assert (Hag' : agree (Z.min (zlen d) n) c c') by (apply (agree_le _ (Z.min (zlen c) n)); [lia|done]).
      unfold agree in Hag'. rewrite Hag'. assert (Hk : (Z.to_nat (zlen d `min` n) <= length d)%nat) by (unfold zlen; lia).
      revert Hk. generalize (Z.to_nat (zlen d `min` n)). intros k Hk. rewrite H4, take_take. f_equal. lia.
    + eapply inv_put; [exact HL'|done| |done]. apply holds_new; [lia|done].
Qed.

Lemma free_step s O1 o O2 :
  heap_inv s (O1 ++ o :: O2) -> exists s', sx_free (o_ptr o) s = (s', Ok tt) /\ heap_inv s' (O1 ++ O2).
Proof.
  intros (us1 & b & c & us2 & HL & F1 & (_ & _ & _ & _ & Ho) & F2)%inv_focus. cbn [fst snd] in Ho.
  assert (exists s', sx_free (o_ptr o) s = (s', Ok tt) /\ live s' (us1 ++ us2)) as (s' & E & HL').
  { destruct (o_tag o).
    - destruct (free_tagged _ _ _ _ _ HL Ho) as (s' & E & _ & HL'). eauto.
    - rewrite Ho. destruct (free_direct _ _ _ _ HL) as (s' & E & _ & HL'). eauto. }
  exists s'. split; [done|]. exists (us1 ++ us2). split; [done|by apply Forall2_app].
Qed.

Lemma store_step s O1 o O2 off bs :
  heap_inv s (O1 ++ o :: O2) -> 0 <= off -> off + zlen bs <= zlen (o_data o) ->
  heap_inv (with_mem s (wr_bytes (hmem s) (o_ptr o + off) bs)) (O1 ++ mk_obj (o_ptr o) (o_tag o) (put_bytes (o_data o) off bs) :: O2).
Proof.
  intros (us1 & b & c & us2 & HL & F1 & Ho & F2)%inv_focus Hoff Hfit. pose proof (live_bytes _ _ _ _ HL) as Hc.
  eapply inv_put; [|exact F1|by eapply holds_store|exact F2]. apply write_used; [done|].
  destruct Ho as (H1 & H2 & _). cbn [fst snd] in *. eapply same_off_weaken; [apply wr_bytes_off|lia|lia].
Qed.

Lemma heap_inv_placed s O : heap_inv s O -> well_placed (hmem s) O.
Proof.
  intros (us & HL & HF). split.
  - rewrite Forall_forall. intros o (O1 & O2 & ->)%list_elem_of_split.
    destruct (inv_focus s O1 o O2) as (us1 & b & c & us2 & HL' & _ & Ho & _); [by exists us|].
    pose proof (live_bytes _ _ _ _ HL') as Hc. split; [by eapply holds_bytes|].
    apply live_at in HL' as (L & A & R & l & r & G & _ & E & -> & _). destruct (good_at _ _ _ _ G) as (_ & (_ & _ & _ & _ & Rg) & _).
    rewrite E in Rg. apply region_head in Rg as (_ & _ & _ & _ & Hpos & _ & Sr & Ht). destruct Ho as (H1 & H2 & H3 & _). cbn [fst snd] in *.
    unfold extent, HEADER in *. cbn [b_size] in *. split_and!; [done|lia|lia].
  - assert (Hu : all_apart (map u_range us)).
    { destruct HL as [[_ ->]|(As & G & _ & U)]; [done|]. eapply all_apart_perm; [apply Permutation_map; exact U|].
      destruct G. by eapply used_all_apart. }
    clear HL. induction HF as [|o u O us Ho HF IH]; [done|]. cbn [map all_apart] in *. destruct Hu as [Hu1 Hu2]. split; [|by apply IH].
    rewrite Forall_map in Hu1 |- *. clear IH Hu2. induction HF as [|o' u' O us Ho' HF IH]; [constructor|]. apply Forall_cons in Hu1 as [Hu Hu1].
    constructor; [|by apply IH]. destruct Ho as (? & ? & _), Ho' as (? & ? & _). unfold apart, u_range, o_range in *. cbn [fst snd] in *. lia.
Qed.

(** C1. The allocator refines the abstract heap: in a fresh process it has no
    object; from every state that holds the objects [O], every action a program
    may take returns (no loop of the allocator runs out of its fuel), its result
    and its effect on the objects are those of [spec_step], and the state it
    leaves holds the new objects; and a state that holds objects has each of
    them in memory, byte for byte, at a 16-byte aligned address, with no two
    overlapping. *)
Theorem heap_refines :
  (forall s, fresh s -> heap_inv s []) /\
  (forall s O act, heap_inv s O -> allowed O act ->
     exists s' r O', perform act s = (s', Ok r) /\ spec_step O act r O' /\ heap_inv s' O') /\
  (forall s O, heap_inv s O -> well_placed (hmem s) O).
Proof.
  split; [|split; [|apply heap_inv_placed]].
  { intros s Hf. exists []. split; [by left|constructor]. }
  intros s O act HI HA. destruct act as [n|k n|p n|p|al n|p off bs]; cbn [allowed perform] in *.
  - destruct (malloc_step s O n HI HA) as (s' & r & E & [[-> HI']|(Hr & d & Hd & HI')]).
    + exists s', 0, O. split_and!; [done|by constructor|done].
    + exists s', r, (mk_obj r false d :: O). split_and!; [done|by constructor|done].
  - destruct HI as (us & HL & HF). destruct HA as [Hk Hn].
    destruct (calloc_ok s us k n HL Hk Hn) as (s' & r & E & [(-> & HL' & _)|(Hr & Hm & _ & c & Hc & Hz & HL')]).
    + exists s', 0, O. split_and!; [done|by constructor|by exists us].
    + exists s', r, (mk_obj r false (replicate (Z.to_nat (k * n)) 0) :: O). split_and!; [done|by constructor|].
      exists ((r, c) :: us). split; [done|]. constructor; [|done]. rewrite <- Hz. apply holds_new; [nia|done].
  - destruct HA as [Hn [->|[d HIn]]].
    + unfold sx_realloc. cbn [Z.eqb]. destruct (malloc_step s O n HI Hn) as (s' & r & E & [[-> HI']|(Hr & d & Hd & HI')]).
      * exists s', 0, O. split_and!; [done|constructor; by left|done].
      * exists s', r, (mk_obj r false d :: O). split_and!; [done|by constructor|done].
    + apply list_elem_of_split in HIn as (O1 & O2 & ->). by apply realloc_step.
  - destruct HA as [->|(o & HIn & <-)].
    + exists s, 0, O. split_and!; [done|apply ss_free_null|done].
    + apply list_elem_of_split in HIn as (O1 & O2 & ->). destruct (free_step _ _ _ _ HI) as (s' & E & HI').
      exists s', 0, (O1 ++ O2). unfold st_bind. rewrite E. split_and!; [done|apply ss_free|done].
  - destruct HA as [Ha Hn]. destruct (aligned_step s O al n HI Ha Hn) as (s' & r & E & [[-> HI']|(Hr & Hm & d & Hd & HI')]).
    + exists s', 0, O. split_and!; [done|by constructor|done].
    + exists s', r, (mk_obj r (16 <? al) d :: O). split_and!; [done|by constructor|done].
  - destruct HA as ([p' t d] & HIn & <- & Hoff & Hfit). apply list_elem_of_split in HIn as (O1 & O2 & ->).
    eexists _, 0, _. split_and!; [done|apply ss_store|by apply (store_step s O1 (mk_obj p' t d) O2)].
Qed.
End refines.

Section laws.
Context {P : Type} `{!PageSource P} `{!PageLaws P}.
Implicit Types s : heap P.

Lemma empty_of_used A : arena_ok A -> used_of A = [] -> exists n, ar_blocks A = [Free n].
Proof.
  intros (_ & _ & _ & _ & Hne & Hsp) Hu. unfold used_of in Hu.
  destruct (ar_blocks A) as [|[n|c] [|[k|d] r]]; by eauto.
Qed.

(** Memory comes back: when the last object has been released, every mapped
    arena has been given back to the page source and the heap is the one it
    started with, untouched or a single free block over the first arena. *)
Theorem heap_no_leak s :
  heap_inv s [] ->
  g_mapped_arena_count s = 0 /\ g_mapped_bytes s = 0 /\ pages_ok (pages s) [] /\
  (g_arenas s = 0 \/ good s [new_arena bss_base SX_HEAP_SIZE false]).
Proof.
  intros (us & HL & HF). apply Forall2_nil_inv_l in HF as ->.
  destruct HL as [[(F1 & F2 & F3 & F4) _]|(As & G & B & U)]; [by auto|].
  apply Permutation_nil_r in U.
  assert (HE : Forall (fun A => exists n, ar_blocks A = [Free n]) As).
  { pose proof (go_ok _ _ G) as HOk. rewrite List.Forall_forall in *. intros A HA. apply empty_of_used; [by apply HOk|].
    destruct (used_of A) as [|u r] eqn:Eu; [done|]. assert (Hin : In u (used_all As)) by (apply in_flat_map; exists A; rewrite Eu; simpl; auto).
    by rewrite U in Hin. }
  destruct (go_boot _ _ G) as (Ms & A0 & -> & HM & HB & HR).
  assert (HMs : Ms = []).
  { destruct Ms as [|M Ms]; [done|exfalso]. cbn [app] in *. apply Forall_cons in B as [Bm _], HE as [[n En] _], HM as [Mm _].
    unfold empty_arena in Bm. by rewrite Mm, En in Bm. }
  subst Ms. cbn [app] in *. apply Forall_cons in HE as [[n En] _].
  assert (EA : A0 = new_arena bss_base SX_HEAP_SIZE false).
  { pose proof (go_ok _ _ G) as [(_ & _ & O3 & _) _]%Forall_cons. rewrite En in O3. cbn [span] in O3. unfold extent, HEADER in O3. cbn [b_size] in O3.
    destruct A0 as [ba sz mp bl]. unfold ar_range, new_arena in *. cbn in *. injection HR as -> ->. subst. do 3 f_equal. unfold SX_HEAP_SIZE in *. lia. }
  subst A0. destruct G as [g1 g2 g3 g4 g5 g6 g7 g8 g9]. split_and!; [by rewrite g7|by rewrite g8|done|]. right. by constructor.
Qed.

(** When [malloc] gives up: it returns null exactly when the size is 0 or
    cannot be rounded up in 64 bits, or when no free block of the heap is large
    enough and no arena can be added (eight are mapped, or the page source
    refuses).  So it never fails while a block fits. *)
Theorem heap_malloc_null_iff s O n :
  heap_inv s O -> 0 <= n <= SIZE_MAX ->
  (exists s', sx_malloc n s = (s', Ok 0) /\ errno s' = ENOMEM) <->
  (n = 0 \/ n > SIZE_MAX - 15 \/ exhausted s (sx_align_size n)).
Proof.
  intros (us & HL & _) Hn. assert (Hz : sx_align_size n = 0 <-> n = 0 \/ n > SIZE_MAX - 15).
  { destruct (align_ok n Hn) as [[E Hc]|(A1 & A2 & A3 & A4 & A5)]; [tauto|]. split; [lia|]. intros [?|Hbig]; [done|].
    unfold sx_align_size, SX_ALLOC_ALIGNMENT in *. case_if; [done|lia]. }
  destruct (malloc_ok s us n HL Hn) as (s' & r & E & [(-> & _ & Her & Hw)|(Hr & Hnz & Hne & _)]).
  - split; [intros _; tauto|]. intros _. by exists s'.
  - split; [|tauto]. intros (s2 & E2 & _). rewrite E in E2. injection E2 as _ E2. lia.
Qed.
End laws.

(** ** A page source

    Addresses upwards from 16 MiB, never reused, under the end of user space. *)

Definition BSS_AT : Z := 4194304.
#[export] Instance bump_source : PageSource Z := {
  pages_map p n := if p + n <=? USER_TOP then (p + n, Some p) else (p, None);
  pages_unmap p _ _ := p;
  bss_base := BSS_AT;
}.

Definition bump_ok (p : Z) (rs : list (Z * Z)) : Prop :=
  BSS_AT + SX_HEAP_SIZE <= p /\ p mod SX_ARENA_PAGE_SIZE = 0 /\ Forall (fun r => r.1 + r.2 <= p) rs.

#[export, refine] Instance bump_laws : PageLaws Z := { pages_ok := bump_ok }.
Proof.
  - intros p rs n p' a (H1 & H2 & H3) Hn Hm. cbn [pages_map bump_source]. destruct (p + n <=? USER_TOP) eqn:?; [|done].
    intros [= <- <-]. split_and!; [unfold BSS_AT, SX_HEAP_SIZE in *; lia|done|lia| | |].
    + eapply Forall_impl; [exact H3|]. intros r Hr. cbv beta in Hr. right. cbn [fst]. lia.
    + right. cbn [bss_base bump_source fst snd]. done.
    + unfold bump_ok. split_and!; [lia|by rewrite Zplus_mod, H2, Hm|].
      constructor; [cbn [fst snd]; lia|]. eapply Forall_impl; [exact H3|]. intros r Hr. cbv beta in *. lia.
  - intros p rs n p' Hok. cbn [pages_map bump_source]. destruct (p + n <=? USER_TOP); [done|]. by intros [= <-].
  - intros p l a n r (H1 & H2 & H3). unfold bump_ok. split_and!; [done..|]. rewrite !Forall_app, Forall_cons in *. tauto.
  - done.
Defined.

(** A process at its start. *)
Definition boot_heap : heap Z := mk_heap (fun _ => 0) 0 0 0 0 16777216.

Lemma boot_fresh : fresh boot_heap.
Proof. split_and!; [done..|]. unfold pages_ok, bump_laws, bump_ok. split_and!; [done..|constructor]. Qed.

Lemma heap_refines_witness :
  exists s' r O', perform (Malloc 100) boot_heap = (s', Ok r) /\ spec_step [] (Malloc 100) r O' /\ heap_inv s' O'.
Proof.
  destruct (heap_refines (P := Z)) as (H0 & H1 & _). apply H1; [apply H0, boot_fresh|]. split; discriminate.
Defined.

Lemma heap_no_leak_witness : g_mapped_arena_count boot_heap = 0.
Proof.
  apply (heap_no_leak boot_heap). exists []. split; [left; split; [exact boot_fresh|reflexivity]|constructor].
Defined.

Lemma heap_malloc_null_iff_witness : exists s', sx_malloc 0 boot_heap = (s', Ok 0) /\ errno s' = ENOMEM.
Proof.
  apply (heap_malloc_null_iff boot_heap [] 0); [|split; discriminate|left; reflexivity].
  exists []. split; [left; split; [exact boot_fresh|reflexivity]|constructor].
Defined.

(** [realloc] does not know aligned pointers: on a pointer that
    [aligned_alloc] returned and that is live, it looks for a block header
    right before it, finds none, and fails with [EINVAL]; [free] of the same
    pointer succeeds.  A pointer of [malloc] of the same size is resized. *)
Theorem heap_realloc_refuses_aligned :
  match sx_aligned_alloc 64 100 boot_heap with
  | (s, Ok p) =>
      (p, match sx_realloc p 200 s with (s', Ok q) => Some (q, errno s') | _ => None end,
          match sx_free p s with (s', Ok _) => Some (errno s') | _ => None end)
      = (BSS_AT + 128, Some (0, EINVAL), Some 0)
  | _ => False
  end /\
  match sx_malloc 100 boot_heap with
  | (s, Ok p) => (p, match sx_realloc p 200 s with (s', Ok q) => Some (q, errno s') | _ => None end)
                 = (BSS_AT + 64, Some (BSS_AT + 64, 0))
  | _ => False
  end.
Proof. split; vm_compute; reflexivity. Qed.
