(* ===== verification/LibcTime.v ===== *)
(** * The calendar of the C runtime

    The conversions between seconds since 1970 and civil dates of
    [subsystems/posix/sdk/v1/runtime/posix.c]: [sx_days_from_civil],
    [sx_civil_from_days], [sx_gmtime_r], [sx_timegm] and [sx_strftime].  They
    are compared with the Gregorian calendar written down as a calendar: the
    length of the months, the leap rule and the day after a day.

    [long] is a 64-bit [Z] and [int] a 32-bit one, with the casts of the source
    written out; the C division [/] on signed operands is [Z.quot] and [%] is
    [Z.rem]. *)

From S2P Require Import Prelude.

(** Casts to [long] and to [int]. *)
Definition s64 (x : Z) : Z := (x + 9223372036854775808) mod 18446744073709551616 - 9223372036854775808.
Definition s32 (x : Z) : Z := (x + 2147483648) mod 4294967296 - 2147483648.

Lemma s64_id x : -9223372036854775808 <= x < 9223372036854775808 -> s64 x = x.
Proof. intros H. unfold s64. rewrite Z.mod_small; lia. Qed.
Lemma s32_id x : -2147483648 <= x < 2147483648 -> s32 x = x.
Proof. intros H. unfold s32. rewrite Z.mod_small; lia. Qed.

(** ** The code *)

Definition SX_SECONDS_PER_DAY : Z := 86400.

Definition sx_days_from_civil (year month day : Z) : Z :=
  let year := year - (if month <=? 2 then 1 else 0) in
  let era := Z.quot (if year >=? 0 then year else year - 399) 400 in
  let year_of_era := u64 (year - era * 400) in
  let day_of_year := u64 (Z.quot (153 * (month + (if month >? 2 then -3 else 9)) + 2) 5 + day - 1) in
  let day_of_era := u64 (year_of_era * 365 + year_of_era / 4 - year_of_era / 100 + day_of_year) in
  era * 146097 + s64 day_of_era - 719468.

(** Year, month and day. *)
Definition sx_civil_from_days (days : Z) : Z * Z * Z :=
  let days := days + 719468 in
  let era := Z.quot (if days >=? 0 then days else days - 146096) 146097 in
  let day_of_era := u64 (days - era * 146097) in
  let year_of_era := u64 (day_of_era - day_of_era / 1460 + day_of_era / 36524 - day_of_era / 146096) / 365 in
  let civil_year := s64 year_of_era + era * 400 in
  let day_of_year := u64 (day_of_era - (365 * year_of_era + year_of_era / 4 - year_of_era / 100)) in
  let month_prime := (5 * day_of_year + 2) / 153 in
  let day := s32 (day_of_year - (153 * month_prime + 2) / 5 + 1) in
  let month := s32 (month_prime + (if month_prime <? 10 then 3 else -9)) in
  let year := s32 (civil_year + (if month <=? 2 then 1 else 0)) in
  (year, month, day).

Definition sx_floor_div (numerator denominator : Z) : Z :=
  let quotient := Z.quot numerator denominator in
  if negb (Z.rem numerator denominator =? 0) && negb (Bool.eqb (numerator <? 0) (denominator <? 0))
  then quotient - 1 else quotient.

Record tm := mk_tm { tm_sec : Z; tm_min : Z; tm_hour : Z; tm_mday : Z; tm_mon : Z; tm_year : Z;
                     tm_wday : Z; tm_yday : Z; tm_isdst : Z }.

Definition sx_gmtime_r (value : Z) : tm :=
  let seconds := value in
  let days := sx_floor_div seconds SX_SECONDS_PER_DAY in
  let rest := seconds - days * SX_SECONDS_PER_DAY in
  let '(year, month, day) := sx_civil_from_days days in
  mk_tm (s32 (Z.rem rest 60)) (s32 (Z.rem (Z.quot rest 60) 60)) (s32 (Z.quot rest 3600))
        day (month - 1) (year - 1900)
        (s32 (Z.rem (Z.rem days 7 + 11) 7)) (s32 (days - sx_days_from_civil year 1 1)) 0.

(** The time, and the normalised fields. *)
Definition sx_timegm (value : tm) : Z * tm :=
  let days := sx_days_from_civil (tm_year value + 1900) (tm_mon value + 1) (tm_mday value) in
  let seconds := days * SX_SECONDS_PER_DAY + tm_hour value * 3600 + tm_min value * 60 + tm_sec value in
  (seconds, sx_gmtime_r seconds).

(** ** The Gregorian calendar *)

Definition leap (y : Z) : bool := (y mod 4 =? 0) && (negb (y mod 100 =? 0) || (y mod 400 =? 0)).
Definition month_days (y m : Z) : Z :=
  if m =? 2 then (if leap y then 29 else 28)
  else if (m =? 4) || (m =? 6) || (m =? 9) || (m =? 11) then 30 else 31.
Definition valid_date (d : Z * Z * Z) : Prop :=
  let '(y, m, day) := d in 1 <= m <= 12 /\ 1 <= day <= month_days y m.
(** The day after a day. *)
Definition next_day (d : Z * Z * Z) : Z * Z * Z :=
  let '(y, m, day) := d in
  if day <? month_days y m then (y, m, day + 1)
  else if m <? 12 then (y, m + 1, 1) else (y + 1, 1, 1).

(** ** Days from a date *)

(** March-based years: [Y] is the year that starts in March, [mp] counts months from March. *)
Definition year_start (y : Z) : Z := 365 * y + y / 4 - y / 100 + y / 400.
Definition month_start (mp : Z) : Z := (153 * mp + 2) / 5.

Lemma era_floor y : Z.quot (if y >=? 0 then y else y - 399) 400 = y / 400.
Proof.
  destruct (y >=? 0) eqn:E.
  - apply Z.quot_div_nonneg; lia.
  - replace (y - 399) with (- (399 - y)) by lia. rewrite Z.quot_opp_l, Z.quot_div_nonneg by lia. divs.
Qed.
Lemma era_floor' d : Z.quot (if d >=? 0 then d else d - 146096) 146097 = d / 146097.
Proof.
  destruct (d >=? 0) eqn:E.
  - apply Z.quot_div_nonneg; lia.
  - replace (d - 146096) with (- (146096 - d)) by lia. rewrite Z.quot_opp_l, Z.quot_div_nonneg by lia. divs.
Qed.

Lemma year_start_era y :
  let e := y / 400 in let r := y - e * 400 in
  0 <= r < 400 /\ e * 146097 + (r * 365 + r / 4 - r / 100) = year_start y.
Proof. cbv zeta. unfold year_start. divs. Qed.

Lemma days_from_civil_eq y m d :
  1 <= m <= 12 -> 1 <= d <= 31 ->
  sx_days_from_civil y m d =
    (if m <=? 2 then year_start (y - 1) + month_start (m + 9) else year_start y + month_start (m - 3)) + d - 1 - 719468.
Proof.
  intros Hm Hd. unfold sx_days_from_civil. rewrite era_floor.
  set (Y := y - (if m <=? 2 then 1 else 0)). destruct (year_start_era Y) as [R1 R2]. cbv zeta in R1, R2.
  set (e := Y / 400) in *. set (r := Y - e * 400) in *. unfold u64. rewrite (Z.mod_small r) by lia.
  set (mp := m + (if m >? 2 then -3 else 9)). assert (Hmp : 0 <= mp <= 11) by (unfold mp; case_if; lia).
  rewrite Z.quot_div_nonneg by lia. fold (month_start mp).
  assert (Hms : 0 <= month_start mp <= 337) by (unfold month_start; divs).
  rewrite (Z.mod_small (month_start mp + d - 1)) by lia.
  assert (Hr : 0 <= r * 365 + r / 4 - r / 100 <= 146100) by divs.
  rewrite Z.mod_small by lia. rewrite s64_id by lia.
  replace (if m <=? 2 then _ else _) with (year_start Y + month_start mp); [lia|].
  unfold Y, mp. destruct (m <=? 2) eqn:E1, (m >? 2) eqn:E2; try lia; f_equal; f_equal; lia.
Qed.

Ltac each_month m := assert (m = 1 \/ m = 2 \/ m = 3 \/ m = 4 \/ m = 5 \/ m = 6 \/ m = 7 \/ m = 8 \/ m = 9 \/ m = 10 \/ m = 11 \/ m = 12) as Hmonth by lia;
  destruct Hmonth as [->|[->|[->|[->|[->|[->|[->|[->|[->|[->|[->| ->]]]]]]]]]]].

Lemma month_days_range y m : 28 <= month_days y m <= 31.
Proof. unfold month_days. case_ifs; lia. Qed.

(** A leap year has one day more between two Marches. *)
Lemma year_start_next y : year_start y - year_start (y - 1) = if leap y then 366 else 365.
Proof.
  unfold year_start, leap. destruct (y mod 4 =? 0) eqn:E4, (y mod 100 =? 0) eqn:E100, (y mod 400 =? 0) eqn:E400; cbn [andb negb orb]; divs.
Qed.

Lemma days_from_civil_next d :
  valid_date d ->
  let '(y, m, day) := d in let '(y', m', day') := next_day d in
  sx_days_from_civil y' m' day' = sx_days_from_civil y m day + 1.
Proof.
  destruct d as [[y m] day]. cbn [valid_date next_day]. intros [Hm Hd]. pose proof (month_days_range y m) as Hr.
  destruct (day <? month_days y m) eqn:E.
  { rewrite !days_from_civil_eq by lia. lia. }
  assert (day = month_days y m) as -> by lia. clear E Hd. pose proof (year_start_next y) as Hy.
  assert (Hs : year_start (y + 1 - 1) = year_start y) by (f_equal; lia).
  each_month m; cbn [Z.ltb Z.compare Pos.compare Pos.compare_cont]; rewrite !days_from_civil_eq by lia;
    unfold month_days, month_start in *; destruct (leap y); cbn [Z.eqb Pos.eqb orb] in *; case_ifs; divs.
Qed.

(** ** A date from its day *)

(** The year of a day of the 400-year cycle: the estimate of the source, which
    takes back one day per four years, is exact. *)
Lemma year_of_era_exact d :
  0 <= d <= 146096 ->
  let r := (d - d / 1460 + d / 36524 - d / 146096) / 365 in
  let s := d - (365 * r + r / 4 - r / 100) in
  0 <= r < 400 /\ 0 <= s <= 365 /\ (s = 365 -> r = 399 \/ ((r + 1) mod 4 = 0 /\ (r + 1) mod 100 <> 0)).
Proof. intros H. cbv zeta. divs. Qed.

(** The months of a year that starts in March. *)
Lemma month_of_day s :
  0 <= s <= 365 ->
  let mp := (5 * s + 2) / 153 in
  let m := mp + (if mp <? 10 then 3 else -9) in
  let d := s - month_start mp + 1 in
  0 <= mp <= 11 /\ 1 <= m <= 12 /\ 1 <= d /\
  d <= (if m =? 2 then (if s =? 365 then 29 else 28)
        else if (m =? 4) || (m =? 6) || (m =? 9) || (m =? 11) then 30 else 31).
Proof.
  intros Hs. cbv zeta.
  assert (HA : forallb (fun i => let s := Z.of_nat i in
     let mp := (5 * s + 2) / 153 in let m := mp + (if mp <? 10 then 3 else -9) in let d := s - month_start mp + 1 in
     (0 <=? mp) && (mp <=? 11) && (1 <=? m) && (m <=? 12) && (1 <=? d) &&
     (d <=? (if m =? 2 then (if s =? 365 then 29 else 28)
        else if (m =? 4) || (m =? 6) || (m =? 9) || (m =? 11) then 30 else 31))) (seq 0 366) = true) by (vm_compute; reflexivity).
  rewrite forallb_forall in HA. specialize (HA (Z.to_nat s)). rewrite in_seq in HA. specialize (HA ltac:(lia)).
  cbv zeta in HA. rewrite Z2Nat.id in HA by lia. rewrite !andb_true_iff, !Z.leb_le in HA. tauto.
Qed.

(** Days whose year is a 32-bit one. *)
Definition DAYS_MAX : Z := 700000000000.

Lemma civil_from_days_ok days :
  -DAYS_MAX <= days <= DAYS_MAX ->
  let '(y, m, d) := sx_civil_from_days days in
  valid_date (y, m, d) /\ sx_days_from_civil y m d = days /\ -2000000000 <= y <= 2000000000.
Proof.
  intros Hb. unfold DAYS_MAX in Hb. unfold sx_civil_from_days. rewrite era_floor'. set (N := days + 719468). set (e := N / 146097).
  set (doe := N - e * 146097). assert (Hdoe : 0 <= doe <= 146096) by (unfold doe, e; divs).
  assert (He : -4800000 <= e <= 4800000) by (unfold e, N; divs).
  unfold u64. rewrite (Z.mod_small doe) by lia.
  assert (Hf : 0 <= doe - doe / 1460 + doe / 36524 - doe / 146096 < 18446744073709551616) by divs.
  rewrite (Z.mod_small (doe - _ + _ - _)) by exact Hf.
  destruct (year_of_era_exact doe Hdoe) as (Hr & Hs & Hleap). cbv zeta in Hr, Hs, Hleap.
  set (r := (doe - _ + _ - _) / 365) in *. set (s := doe - (365 * r + r / 4 - r / 100)) in *.
  rewrite (Z.mod_small s) by lia. destruct (month_of_day s Hs) as (Hmp & Hm & Hd1 & Hd2). cbv zeta in Hmp, Hm, Hd1, Hd2.
  fold (month_start ((5 * s + 2) / 153)). set (mp := (5 * s + 2) / 153) in *.
  set (m := mp + (if mp <? 10 then 3 else -9)) in *. set (d := s - month_start mp + 1) in *.
  assert (Hdm : d <= 31) by (revert Hd2; case_ifs; lia).
  rewrite !(s32_id d), !(s32_id m) by lia. rewrite s64_id by lia.
  set (Y := r + e * 400). set (y := Y + (if m <=? 2 then 1 else 0)).
  assert (Hy : -1930000000 <= y <= 1930000000) by (unfold y, Y; case_if; lia). rewrite s32_id by lia.
  destruct (year_start_era Y) as [R1 R2]. cbv zeta in R1, R2.
  assert (Ee : Y / 400 = e) by (unfold Y; divs). rewrite Ee in *. replace (Y - e * 400) with r in * by (unfold Y; lia).
  assert (EN : year_start Y + s = N) by (unfold s, doe in *; lia).
  split_and!; [| |lia|lia].
  - split; [lia|]. split; [lia|]. eapply Z.le_trans; [exact Hd2|]. unfold month_days. case_if; [|lia].
    assert (Ey : y = Y + 1) by (unfold y; case_if; lia). case_if; [|case_if; lia].
    assert (leap y = true) as ->; [|lia]. rewrite Ey. unfold leap, Y. assert (Hs5 : s = 365) by lia. specialize (Hleap Hs5). divs.
  - rewrite days_from_civil_eq by lia. unfold y. unfold m at 1 2 3 4.
    destruct (mp <? 10) eqn:Emp; unfold m in *; rewrite ?Emp in *.
    + destruct (mp + 3 <=? 2) eqn:?; [lia|]. replace (Y + 0) with Y by lia. replace (mp + 3 - 3) with mp by lia. unfold d, N in *. lia.
    + destruct (mp + -9 <=? 2) eqn:?; [|lia]. replace (Y + 1 - 1) with Y by lia. replace (mp + -9 + 9) with mp by lia. unfold d, N in *. lia.
Qed.

(** ** A day has one date *)

Definition march_year (y m : Z) : Z := if m <=? 2 then y - 1 else y.
Definition day_of_march_year (m d : Z) : Z := month_start (if m <=? 2 then m + 9 else m - 3) + d - 1.

Lemma days_split y m d :
  valid_date (y, m, d) ->
  sx_days_from_civil y m d = year_start (march_year y m) + day_of_march_year m d - 719468 /\
  0 <= day_of_march_year m d < (if leap (march_year y m + 1) then 366 else 365).
Proof.
  intros [Hm Hd]. pose proof (month_days_range y m). rewrite days_from_civil_eq by lia.
  unfold march_year, day_of_march_year. split; [case_if; lia|].
  unfold month_days, month_start in *.
  each_month m; cbn [Z.eqb Pos.eqb orb Z.leb Z.compare Pos.compare Pos.compare_cont] in *;
    try replace (y - 1 + 1) with y by lia; destruct (leap _); divs.
Qed.

Lemma year_start_mono y y' : y < y' -> year_start y + (if leap (y + 1) then 366 else 365) <= year_start y'.
Proof.
  intros H. pose proof (year_start_next (y + 1)) as E. replace (y + 1 - 1) with y in E by lia.
  assert (year_start (y + 1) <= year_start y') by (unfold year_start; divs). lia.
Qed.

Lemma month_start_inj m d m' d' y y' :
  valid_date (y, m, d) -> valid_date (y', m', d') -> day_of_march_year m d = day_of_march_year m' d' -> m = m' /\ d = d'.
Proof.
  intros [Hm Hd] [Hm' Hd'] E. pose proof (month_days_range y m). pose proof (month_days_range y' m').
  assert (Hlast : forall y m d, 1 <= m <= 12 -> 1 <= d <= month_days y m ->
    (5 * day_of_march_year m d + 2) / 153 = if m <=? 2 then m + 9 else m - 3).
  { clear. intros y m d Hm Hd. unfold month_days, day_of_march_year, month_start in *.
    each_month m; cbn [Z.eqb Pos.eqb orb Z.leb Z.compare Pos.compare Pos.compare_cont] in *; try destruct (leap y); divs. }
  pose proof (Hlast _ _ _ Hm Hd) as L1. pose proof (Hlast _ _ _ Hm' Hd') as L2. rewrite <- E, L1 in L2.
  assert (m = m') by (revert L2; case_ifs; lia). subst m'. unfold day_of_march_year in E. lia.
Qed.

Lemma days_from_civil_inj a b :
  valid_date a -> valid_date b ->
  (let '(y, m, d) := a in sx_days_from_civil y m d) = (let '(y, m, d) := b in sx_days_from_civil y m d) -> a = b.
Proof.
  destruct a as [[y m] d], b as [[y' m'] d']. intros Va Vb E.
  destruct (days_split _ _ _ Va) as [Ea Ra], (days_split _ _ _ Vb) as [Eb Rb]. rewrite Ea, Eb in E.
  assert (EY : march_year y m = march_year y' m').
  { destruct (Z.lt_trichotomy (march_year y m) (march_year y' m')) as [L|[->|L]]; [exfalso|done|exfalso]; apply year_start_mono in L; lia. }
  rewrite EY in E. destruct (month_start_inj m d m' d' y y' Va Vb ltac:(lia)) as [-> ->].
  unfold march_year in EY. destruct (m' <=? 2); do 2 f_equal; lia.
Qed.

Lemma next_day_valid d : valid_date d -> valid_date (next_day d).
Proof.
  destruct d as [[y m] d]. cbn [valid_date next_day]. intros [Hm Hd]. case_if; [cbn; lia|]. case_if; cbn [valid_date].
  - pose proof (month_days_range y (m + 1)). lia.
  - pose proof (month_days_range (y + 1) 1). lia.
Qed.

(** C33. The calendar is the Gregorian calendar: day 0 is the first of January
    of 1970, every day has a valid date, the next day has the date after it, and
    the date of a day is the only valid date with that day; on the
    days up to [DAYS_MAX], 7 * 10^11, on either side of 1970, whose years are
    32-bit numbers. *)
Theorem calendar_exact :
  sx_civil_from_days 0 = (1970, 1, 1) /\
  (forall days, -DAYS_MAX <= days <= DAYS_MAX -> valid_date (sx_civil_from_days days)) /\
  (forall days, -DAYS_MAX <= days < DAYS_MAX -> sx_civil_from_days (days + 1) = next_day (sx_civil_from_days days)) /\
  (forall days y m d, -DAYS_MAX <= days <= DAYS_MAX -> valid_date (y, m, d) ->
     sx_days_from_civil y m d = days <-> sx_civil_from_days days = (y, m, d)).
Proof.
  assert (HV : forall days, -DAYS_MAX <= days <= DAYS_MAX -> valid_date (sx_civil_from_days days) /\
    (let '(y, m, d) := sx_civil_from_days days in sx_days_from_civil y m d) = days).
  { intros days Hb. pose proof (civil_from_days_ok days Hb) as H. by destruct (sx_civil_from_days days) as [[y m] d], H as (H1 & H2 & _). }
  split_and!; [reflexivity|intros days Hb; by apply HV|..].
  - intros days Hb. destruct (HV days) as [V1 E1]; [lia|]. destruct (HV (days + 1)) as [V2 E2]; [lia|].
    apply days_from_civil_inj; [done|by apply next_day_valid|]. rewrite E2. pose proof (days_from_civil_next _ V1) as HN.
    destruct (sx_civil_from_days days) as [[y m] d]. destruct (next_day (y, m, d)) as [[y' m'] d']. lia.
  - intros days y m d Hb V. destruct (HV days Hb) as [V1 E1]. split.
    + intros <-. apply days_from_civil_inj; [done|done|]. exact E1.
    + intros E. rewrite E in E1. exact E1.
Qed.

(** ** Times *)

Definition TIME_MAX : Z := 60000000000000000.

Lemma floor_div_day t : sx_floor_div t SX_SECONDS_PER_DAY = t / 86400.
Proof.
  unfold sx_floor_div, SX_SECONDS_PER_DAY. destruct (86400 <? 0) eqn:?; [lia|].
  destruct (t <? 0) eqn:E; cbn [Bool.eqb negb].
  - rewrite andb_true_r. assert (exists u, t = - u /\ 0 < u) as (u & -> & Hu) by (exists (- t); lia). rewrite Z.quot_opp_l, Z.rem_opp_l, Z.quot_div_nonneg, Z.rem_mod_nonneg by lia. case_if; divs.
  - rewrite andb_false_r. apply Z.quot_div_nonneg; lia.
Qed.

(** Broken-down times: for every time whose year is a 32-bit number the
    fields of [sx_gmtime_r] are in their ranges, the date is the one of the
    calendar, the weekday counts from a Thursday, and [sx_timegm] gives the
    time back and leaves the fields as they are. *)
Theorem gmtime_timegm_roundtrip t :
  -TIME_MAX <= t <= TIME_MAX ->
  let v := sx_gmtime_r t in
  sx_timegm v = (t, v) /\
  0 <= tm_sec v <= 59 /\ 0 <= tm_min v <= 59 /\ 0 <= tm_hour v <= 23 /\
  sx_civil_from_days (t / 86400) = (tm_year v + 1900, tm_mon v + 1, tm_mday v) /\
  tm_wday v = (t / 86400 + 4) mod 7 /\ 0 <= tm_yday v <= 365.
Proof.
  intros Hb v. unfold TIME_MAX in Hb.
  assert (Hd : -DAYS_MAX <= t / 86400 <= DAYS_MAX) by (unfold DAYS_MAX; divs).
  pose proof (civil_from_days_ok _ Hd) as HC. destruct (sx_civil_from_days (t / 86400)) as [[y m] d] eqn:Ed. destruct HC as (HV & HE & Hy).
  set (days := t / 86400) in *. set (rest := t - days * 86400).
  assert (Hrest : 0 <= rest < 86400) by (unfold rest, days; divs).
  assert (Hyd : 0 <= days - sx_days_from_civil y 1 1 <= 365).
  { pose proof HV as [Hm Hday]. pose proof (month_days_range y m). rewrite <- HE, !days_from_civil_eq by lia. unfold month_days, month_start in *.
    pose proof (year_start_next y). each_month m; cbn [Z.eqb Pos.eqb orb Z.leb Z.compare Pos.compare Pos.compare_cont] in *; destruct (leap y); divs. }
  assert (Ev : v = mk_tm (rest mod 60) (rest / 60 mod 60) (rest / 3600) d (m - 1) (y - 1900) ((days + 4) mod 7) (days - sx_days_from_civil y 1 1) 0).
  { unfold v, sx_gmtime_r. rewrite floor_div_day. fold days. rewrite Ed. fold rest. change (SX_SECONDS_PER_DAY) with 86400. fold rest.
    rewrite !Z.quot_div_nonneg, !Z.rem_mod_nonneg by (lia || divs).
    rewrite (s32_id (days - _)) by lia.
    assert (Hw : Z.rem (Z.rem days 7 + 11) 7 = (days + 4) mod 7).
    { destruct (decide (0 <= days)).
      - rewrite (Z.rem_mod_nonneg days) by lia. rewrite Z.rem_mod_nonneg by divs. divs.
      - assert (exists u, days = - u /\ 0 < u) as (u & -> & Hu) by (exists (- days); lia).
        rewrite Z.rem_opp_l, (Z.rem_mod_nonneg u) by lia. rewrite Z.rem_mod_nonneg by divs. divs. }
    rewrite Hw. rewrite !s32_id by divs. done. }
  rewrite Ev. cbn [tm_sec tm_min tm_hour tm_mday tm_mon tm_year tm_wday tm_yday].
  replace (y - 1900 + 1900) with y by lia. replace (m - 1 + 1) with m by lia.
  split_and!; try done; try divs.
  unfold sx_timegm. cbn [tm_sec tm_min tm_hour tm_mday tm_mon tm_year].
  replace (y - 1900 + 1900) with y by lia. replace (m - 1 + 1) with m by lia. rewrite HE.
  assert (Es : days * SX_SECONDS_PER_DAY + rest / 3600 * 3600 + rest / 60 mod 60 * 60 + rest mod 60 = t).
  { unfold SX_SECONDS_PER_DAY. assert (rest / 3600 * 3600 + rest / 60 mod 60 * 60 + rest mod 60 = rest) by divs. unfold rest in *. lia. }
  rewrite Es. fold v. by rewrite Ev.
Qed.

Lemma gmtime_timegm_roundtrip_witness : -TIME_MAX <= -1 <= TIME_MAX /\ sx_timegm (sx_gmtime_r (-1)) = (-1, sx_gmtime_r (-1)).
Proof. split; [unfold TIME_MAX; lia|]. apply (gmtime_timegm_roundtrip (-1)). unfold TIME_MAX; lia. Defined.
