(* ===== verification/LibcNum.v ===== *)
(** * Numbers as text in the C runtime

    Parsing and printing of integers in [posix.c]: [sx_parse_unsigned] and the
    [strtol] family, [sx_unsigned_to_string], [sx_signed_to_string] and the
    precision of [printf].  A C string is the list of its bytes before the
    terminator; a cursor into it is the rest of the list.  An error is the new
    value of [errno]; [None] leaves it. *)

From S2P Require Import Prelude LibcTime.

(** ** Characters *)

Definition C_MINUS : Z := 45.
Definition C_PLUS : Z := 43.
Definition C_0 : Z := 48.
Definition C_9 : Z := 57.

Definition sx_isspace (c : Z) : bool :=
  (c =? 32) || (c =? 9) || (c =? 10) || (c =? 13) || (c =? 12) || (c =? 11).
Definition sx_isprint (c : Z) : bool := (c >=? 32) && (c <=? 126).
Definition sx_isdigit (c : Z) : bool := (c >=? C_0) && (c <=? C_9).
Definition sx_isalpha (c : Z) : bool := (c >=? 97) && (c <=? 122) || (c >=? 65) && (c <=? 90).
Definition sx_isalnum (c : Z) : bool := sx_isalpha c || sx_isdigit c.
Definition sx_islower (c : Z) : bool := (c >=? 97) && (c <=? 122).
Definition sx_isupper (c : Z) : bool := (c >=? 65) && (c <=? 90).
Definition sx_isxdigit (c : Z) : bool :=
  sx_isdigit c || (c >=? 97) && (c <=? 102) || (c >=? 65) && (c <=? 70).
Definition sx_tolower (c : Z) : Z := if (c >=? 65) && (c <=? 90) then c - 65 + 97 else c.
Definition sx_toupper (c : Z) : Z := if (c >=? 97) && (c <=? 122) then c - 97 + 65 else c.

(** ** strtol and its family *)

Definition ULONG_MAX : Z := 18446744073709551615.
Definition LONG_MIN : Z := -9223372036854775808.
Definition LONG_MAX : Z := 9223372036854775807.
Definition E_INVAL : Z := 22.
Definition E_RANGE : Z := 34.

Fixpoint skip_blanks (cs : list Z) : list Z :=
  match cs with
  | c :: t => if sx_isspace c then skip_blanks t else cs
  | [] => []
  end.

(** -1 when the character is no digit. *)
Definition digit_value (c : Z) : Z :=
  if (c >=? C_0) && (c <=? C_9) then c - C_0
  else if (c >=? 97) && (c <=? 102) then c - 97 + 10
  else if (c >=? 65) && (c <=? 70) then c - 65 + 10
  else -1.

(** The digit loop: the value, the count of digits, whether it overflowed, and
    the rest. *)
Fixpoint digit_loop (cs : list Z) (base value digits : Z) (overflow : bool) : Z * Z * bool * list Z :=
  match cs with
  | [] => (value, digits, overflow, [])
  | c :: t =>
      let digit := digit_value c in
      if (digit =? -1) || (digit >=? base) then (value, digits, overflow, cs)
      else if value >? (ULONG_MAX - digit) / base
           then digit_loop t base value (digits + 1) true
           else digit_loop t base (u64 (u64 (value * base) + digit)) (digits + 1) overflow
  end.

(** The base and the cursor after a prefix. *)
Definition base_prefix (cs : list Z) (base : Z) : Z * list Z :=
  match cs with
  | 48 :: x :: t =>
      if base =? 0
      then if (x =? 120) || (x =? 88) then (16, t) else (8, x :: t)
      else if (base =? 16) && ((x =? 120) || (x =? 88)) then (base, t) else (base, cs)
  | 48 :: [] => if base =? 0 then (8, []) else (base, cs)
  | _ => if base =? 0 then (10, cs) else (base, cs)
  end.

(** The value, the end pointer, whether a digit was seen, and [errno]. *)
Definition sx_parse_unsigned (text : list Z) (base : Z) : Z * list Z * bool * option Z :=
  let '(base, cursor) := base_prefix (skip_blanks text) base in
  let '(value, digits, overflow, cursor) := digit_loop cursor base 0 0 false in
  let endptr := if digits =? 0 then text else cursor in
  let success := negb (digits =? 0) in
  if (overflow : bool) then (ULONG_MAX, endptr, success, Some E_RANGE) else (value, endptr, success, None).

(** The value, the end pointer and [errno]. *)
Definition sx_strtol (text : list Z) (base : Z) : Z * list Z * option Z :=
  let cursor := skip_blanks text in
  let '(negative, cursor) :=
    match cursor with
    | 45 :: t => (true, t)
    | 43 :: t => (false, t)
    | _ => (false, cursor)
    end in
  let '(value, endptr, success, err) := sx_parse_unsigned cursor base in
  if negb success then (0, text, Some E_INVAL)
  else (if (negative : bool) then s64 (- s64 value) else s64 value, endptr, err).

Definition sx_strtoul (text : list Z) (base : Z) : Z * list Z * option Z :=
  let '(value, endptr, success, err) := sx_parse_unsigned text base in
  if negb success then (0, text, Some E_INVAL) else (value, endptr, err).

Definition sx_atol (text : list Z) : Z := (sx_strtol text 10).1.1.
Definition sx_atoi (text : list Z) : Z := s32 (sx_strtol text 10).1.1.

(** ** Printing *)

Definition digit_char (uppercase : bool) (d : Z) : Z :=
  if d <? 10 then C_0 + d else (if uppercase then 65 else 97) + (d - 10).

(** The digits of [value] from the last to the first, as the loop stores them;
    64 turns are enough for a 64-bit value in any base from 2. *)
Fixpoint store_digits (n : nat) (value base : Z) (uppercase : bool) : list Z :=
  match n with
  | O => []
  | S n => if value =? 0 then [] else digit_char uppercase (value mod base) :: store_digits n (value / base) base uppercase
  end.
(** The swap loop reverses what was stored. *)
Definition sx_unsigned_to_string (value base : Z) (uppercase : bool) : list Z :=
  if value =? 0 then [C_0] else rev (store_digits 64 value base uppercase).

Definition sx_signed_to_string (value : Z) : list Z :=
  if value <? 0 then C_MINUS :: sx_unsigned_to_string (u64 (- (value + 1) + 1)) 10 false
  else sx_unsigned_to_string value 10 false.

(** [None]: the array [temporary] of 128 bytes is overrun. *)
Definition sx_apply_numeric_precision (buffer : list Z) (precision : Z) : option (list Z) :=
  if (precision <? 0) || (zlen buffer >=? 128) then Some buffer
  else
    let '(sign, digits) := match buffer with 45 :: t => ([C_MINUS], t) | _ => ([], buffer) end in
    if zlen digits >=? precision then Some buffer
    else
      let out := sign ++ replicate (Z.to_nat (precision - zlen digits)) C_0 ++ digits in
      if zlen out <? 128 then Some out else None.

(** ** Printed numbers are read back *)

(** What ends a number: nothing, or a character that is neither a digit of a
    base up to 16 nor the [x] of a prefix. *)
Definition stops (rest : list Z) : Prop :=
  match rest with [] => True | c :: _ => digit_value c = -1 /\ c <> 120 /\ c <> 88 end.

Lemma digit_char_value up d : 0 <= d < 16 -> digit_value (digit_char up d) = d.
Proof. intros H. unfold digit_value, digit_char, C_0, C_9. destruct up; case_ifs; lia. Qed.

Lemma digit_loop_stops rest base v n o : stops rest -> digit_loop rest base v n o = (v, n, o, rest).
Proof. destruct rest as [|c t]; [done|]. intros (H & _). cbn [digit_loop]. by rewrite H. Qed.

Lemma digit_loop_store base up n v k d :
  2 <= base <= 16 -> 0 <= v <= ULONG_MAX -> v < base ^ Z.of_nat n ->
  digit_loop (rev (store_digits n v base up) ++ k) base 0 d false =
  digit_loop k base v (d + zlen (store_digits n v base up)) false.
Proof.
  intros Hb. revert v k. induction n as [|n IH]; intros v k Hv Hn.
  - simpl in Hn. assert (v = 0) as -> by lia. cbn [store_digits rev app]. unfold zlen. f_equal. simpl. lia.
  - cbn [store_digits]. destruct (v =? 0) eqn:E0.
    { assert (v = 0) as -> by lia. unfold zlen. cbn [rev app length]. f_equal. lia. }
    rewrite Nat2Z.inj_succ, Z.pow_succ_r in Hn by lia.
    pose proof (Z.div_mod v base ltac:(lia)) as Hdm. pose proof (Z.mod_pos_bound v base ltac:(lia)) as Hm.
    assert (Hq : 0 <= v / base <= ULONG_MAX) by (split; [apply Z.div_pos; lia|]; unfold ULONG_MAX in *; nia).
    cbn [rev]. rewrite <- app_assoc. cbn [app]. rewrite IH; [|done|apply Z.div_lt_upper_bound; lia].
    cbn [digit_loop]. rewrite digit_char_value by lia.
    destruct ((v mod base =? -1) || (v mod base >=? base)) eqn:?; [lia|].
    assert (Hle : v / base <= (ULONG_MAX - v mod base) / base) by (apply Z.div_le_lower_bound; lia).
    destruct (v / base >? (ULONG_MAX - v mod base) / base) eqn:?; [lia|].
    unfold u64, ULONG_MAX in *. rewrite (Z.mod_small (v / base * base)) by nia. rewrite Z.mod_small by nia.
    f_equal; [lia|]. unfold zlen. cbn [length]. lia.
Qed.

Lemma store_nonempty n v base up : (0 < n)%nat -> v <> 0 -> 0 < zlen (store_digits n v base up).
Proof. intros Hn Hv. destruct n as [|n]; [lia|]. cbn [store_digits]. destruct (v =? 0) eqn:?; [lia|]. unfold zlen. cbn [length]. lia. Qed.

(** The digit loop on a printed number. *)
Lemma digit_loop_print base up v rest :
  2 <= base <= 16 -> 0 <= v <= ULONG_MAX -> stops rest ->
  exists n, 0 < n /\ digit_loop (sx_unsigned_to_string v base up ++ rest) base 0 0 false = (v, n, false, rest).
Proof.
  intros Hb Hv Hs. unfold sx_unsigned_to_string. destruct (v =? 0) eqn:E0.
  - assert (v = 0) as -> by lia. exists 1. split; [lia|]. cbn [app digit_loop].
    change (digit_value C_0) with 0. destruct ((0 =? -1) || (0 >=? base)) eqn:?; [lia|].
    destruct (0 >? (ULONG_MAX - 0) / base) eqn:E.
    { assert (0 <= (ULONG_MAX - 0) / base) by (apply Z.div_pos; unfold ULONG_MAX; lia). lia. }
    change (u64 (u64 (0 * base) + 0)) with 0. by rewrite digit_loop_stops.
  - exists (zlen (store_digits 64 v base up)). split; [apply store_nonempty; lia|].
    rewrite digit_loop_store; [|done|done|].
    + by rewrite digit_loop_stops.
    + apply (Z.lt_le_trans _ (2 ^ 64)); [unfold ULONG_MAX in Hv; change (2 ^ 64) with 18446744073709551616; lia|]. apply Z.pow_le_mono_l. lia.
Qed.

Lemma store_first n v base up :
  2 <= base <= 16 -> 0 < v < base ^ Z.of_nat n ->
  exists d l, rev (store_digits n v base up) = digit_char up d :: l /\ 1 <= d < base.
Proof.
  intros Hb. revert v. induction n as [|n IH]; intros v Hv; [simpl in Hv; lia|].
  cbn [store_digits]. destruct (v =? 0) eqn:?; [lia|]. cbn [rev].
  rewrite Nat2Z.inj_succ, Z.pow_succ_r in Hv by lia. destruct (decide (v < base)) as [Hlt|Hge].
  - exists v, []. rewrite Z.mod_small, Z.div_small by lia. split; [|lia]. destruct n; done.
  - destruct (IH (v / base)) as (d & l & E & Hd).
    + split; [apply Z.div_str_pos; lia|apply Z.div_lt_upper_bound; lia].
    + rewrite E. exists d, (l ++ [digit_char up (v mod base)]). done.
Qed.

(** A printed number starts with a digit, and with [0] only when it is 0. *)
Lemma print_first base up v :
  2 <= base <= 16 -> 0 <= v <= ULONG_MAX ->
  (v = 0 /\ sx_unsigned_to_string v base up = [C_0]) \/
  exists d l, sx_unsigned_to_string v base up = digit_char up d :: l /\ 1 <= d < 16.
Proof.
  intros Hb Hv. unfold sx_unsigned_to_string. destruct (v =? 0) eqn:?; [left; split; [lia|done]|right].
  destruct (store_first 64 v base up Hb) as (d & l & E & Hd).
  - split; [lia|]. apply (Z.lt_le_trans _ (2 ^ 64)); [unfold ULONG_MAX in Hv; change (2 ^ 64) with 18446744073709551616; lia|]. apply Z.pow_le_mono_l. lia.
  - exists d, l. split; [done|lia].
Qed.

Lemma digit_char_shape up d : 1 <= d < 16 -> digit_char up d <> 48 /\ digit_char up d <> 45 /\ digit_char up d <> 43 /\ sx_isspace (digit_char up d) = false.
Proof. intros H. unfold digit_char, C_0, sx_isspace. destruct up; case_ifs; lia. Qed.

Lemma base_prefix_other c t base : c <> 48 -> base <> 0 -> base_prefix (c :: t) base = (base, c :: t).
Proof.
  intros Hc Hb. unfold base_prefix. repeat (match goal with |- context [match ?p with _ => _ end] => is_var p; destruct p end; try done);
    repeat case_if; done || lia.
Qed.

Lemma base_prefix_print base up v rest :
  2 <= base <= 16 -> 0 <= v <= ULONG_MAX -> stops rest ->
  base_prefix (sx_unsigned_to_string v base up ++ rest) base = (base, sx_unsigned_to_string v base up ++ rest).
Proof.
  intros Hb Hv Hs. destruct (print_first base up v Hb Hv) as [[-> ->]|(d & l & -> & Hd)].
  - cbn [app]. unfold base_prefix, C_0. destruct (base =? 0) eqn:?; [lia|]. destruct rest as [|x t]; [done|].
    destruct Hs as (_ & H1 & H2). case_if; [lia|done].
  - apply base_prefix_other; [by apply digit_char_shape|lia].
Qed.

Lemma skip_blanks_id c t : sx_isspace c = false -> skip_blanks (c :: t) = c :: t.
Proof. intros H. cbn [skip_blanks]. by rewrite H. Qed.

Lemma parse_print base up v rest :
  2 <= base <= 16 -> 0 <= v <= ULONG_MAX -> stops rest ->
  sx_parse_unsigned (sx_unsigned_to_string v base up ++ rest) base = (v, rest, true, None).
Proof.
  intros Hb Hv Hs. unfold sx_parse_unsigned.
  assert (Hsk : skip_blanks (sx_unsigned_to_string v base up ++ rest) = sx_unsigned_to_string v base up ++ rest).
  { destruct (print_first base up v Hb Hv) as [[-> ->]|(d & l & -> & Hd)]; apply skip_blanks_id; [done|by apply digit_char_shape]. }
  rewrite Hsk, base_prefix_print by done. destruct (digit_loop_print base up v rest Hb Hv Hs) as (n & Hn & ->).
  destruct (n =? 0) eqn:?; [lia|]. done.
Qed.

(** Printed integers are read back: for every [long], [strtol] in base 10 on
    what [%d] prints, followed by anything that is not part of a number, gives
    the value and stops right after it; and for every [unsigned long], in every
    base from 2 to 16 and either case of letters, [strtoul] does so. *)
Theorem strtol_print_roundtrip rest :
  stops rest ->
  (forall v, LONG_MIN <= v <= LONG_MAX -> sx_strtol (sx_signed_to_string v ++ rest) 10 = (v, rest, None)) /\
  (forall v base up, 2 <= base <= 16 -> 0 <= v <= ULONG_MAX ->
     sx_strtoul (sx_unsigned_to_string v base up ++ rest) base = (v, rest, None)).
Proof.
  intros Hs. split.
  - intros v Hv. unfold LONG_MIN, LONG_MAX in Hv. unfold sx_signed_to_string, sx_strtol. destruct (v <? 0) eqn:Ev.
    + cbn [app]. rewrite skip_blanks_id by done. unfold C_MINUS. unfold u64. rewrite Z.mod_small by lia.
      replace (- (v + 1) + 1) with (- v) by lia. rewrite parse_print by (done || unfold ULONG_MAX; lia). cbn [negb].
      do 2 f_equal. unfold s64. destruct (decide (v = -9223372036854775808)) as [->|]; [reflexivity|].
      rewrite !Z.mod_small by (rewrite ?Z.mod_small; lia). lia.
    + assert (Hu : 0 <= v <= ULONG_MAX) by (unfold ULONG_MAX; lia). pose proof (parse_print 10 false v rest ltac:(lia) Hu Hs) as HP.
      assert (exists c t, sx_unsigned_to_string v 10 false ++ rest = c :: t /\ c <> 45 /\ c <> 43 /\ sx_isspace c = false) as (c & t & E & H1 & H2 & H3).
      { destruct (print_first 10 false v ltac:(lia) Hu) as [[-> ->]|(d & l & -> & Hd)]; eexists _, _; split; try done.
        by pose proof (digit_char_shape false d Hd) as (_ & ? & ? & ?). }
      rewrite E in *. rewrite skip_blanks_id by done.
      replace (match c with 45 => (true, t) | 43 => (false, t) | _ => (false, c :: t) end) with (false, c :: t).
      * rewrite HP. cbn [negb]. by rewrite s64_id by lia.
      * repeat (match goal with |- context [match ?p with _ => _ end] => is_var p; destruct p end; try done).
  - intros v base up Hb Hv. unfold sx_strtoul. by rewrite parse_print.
Qed.

Lemma strtol_print_roundtrip_witness :
  stops [44] /\ sx_strtol (sx_signed_to_string (-9223372036854775808) ++ [44]) 10 = (-9223372036854775808, [44], None).
Proof.
  assert (H : stops [44]) by (split; [reflexivity|split; discriminate]). split; [exact H|].
  refine (proj1 (strtol_print_roundtrip [44] H) (-9223372036854775808) _). unfold LONG_MIN, LONG_MAX. lia.
Defined.

(** Where [strtol] departs from the standard: [0] in base 0 is refused (the
    octal prefix has eaten the only digit), a value above [LONG_MAX] gives -1
    with [ERANGE] instead of [LONG_MAX] (or any other value, silently, below
    2^64), blanks after the sign are accepted, and [strtoul] refuses a sign. *)
Theorem strtol_defects :
  sx_strtol [48] 0 = (0, [48], Some E_INVAL) /\
  sx_strtol (sx_unsigned_to_string 99999999999999999999 10 false) 10 = (-1, [], Some E_RANGE) /\
  sx_strtol (sx_unsigned_to_string 9223372036854775808 10 false) 10 = (LONG_MIN, [], None) /\
  sx_strtol [45; 32; 53] 10 = (-5, [], None) /\
  sx_strtoul [45; 53] 10 = (0, [45; 53], Some E_INVAL).
Proof. repeat split; vm_compute; reflexivity. Qed.
