(* ===== verification/LibcFormat.v ===== *)
(** * printf of the C runtime

    [sx_write_padded], [sx_vformat] and [sx_vsnprintf] of [posix.c].  The format
    is the memory it lies in, terminator and what follows included: a read past
    the end of that memory is the fault [None], as is a variable argument of
    another type than the conversion reads, or an overrun of the 128-byte array
    of the precision code.  A sink is a state and an [emit] that may refuse.
    The branch of the floating-point conversions is the one of a build without
    SSE, which prints [0]. *)

From S2P Require Import Prelude LibcTime LibcNum.

(** What the caller passed. *)
Inductive va :=
| VInt (z : Z)
| VLong (z : Z)
| VStr (s : option (list Z))
| VPtr (z : Z)
| VDouble.

Definition s_null : list Z := [40; 110; 117; 108; 108; 41].

Section format.
Context {S : Type} (emit : Z -> S -> S * bool).

(** One character after another: the state, the count, and whether the sink
    took them all. *)
Fixpoint emit_all (cs : list Z) (s : S) (count : Z) : S * Z * bool :=
  match cs with
  | [] => (s, count, true)
  | c :: t => let '(s, ok) := emit c s in
              if (ok : bool) then emit_all t s (count + 1) else (s, count, false)
  end.

Definition sx_write_padded (text : list Z) (width pad : Z) (left_align : bool) (s : S) : S * Z :=
  let padding := if (width >? 0) && (zlen text <? width) then width - zlen text else 0 in
  let pad := if left_align then 32 else pad in
  let '(s, count, ok) := if left_align then (s, 0, true) else emit_all (replicate (Z.to_nat padding) pad) s 0 in
  if negb ok then (s, count)
  else
    let '(s, count, ok) := emit_all text s count in
    if negb ok then (s, count)
    else if left_align
         then let '(s, count, _) := emit_all (replicate (Z.to_nat padding) pad) s count in (s, count)
         else (s, count).

Fixpoint read_flags (cs : list Z) (pad : Z) (left_align : bool) : list Z * Z * bool :=
  match cs with
  | c :: t => if c =? 45 then read_flags t pad true
              else if c =? 48 then read_flags t 48 left_align
              else (cs, pad, left_align)
  | [] => ([], pad, left_align)
  end.

Fixpoint read_number (cs : list Z) (acc : Z) : Z * list Z :=
  match cs with
  | c :: t => if (c >=? C_0) && (c <=? C_9) then read_number t (acc * 10 + (c - C_0)) else (acc, cs)
  | [] => (acc, [])
  end.

(** [*] or digits, and a negative [*] width is the flag [-]. *)
Definition read_width (cs : list Z) (args : list va) (left_align : bool) : option (Z * bool * list Z * list va) :=
  match cs with
  | 42 :: t => match args with
               | VInt w :: args => if w <? 0 then Some (- w, true, t, args) else Some (w, left_align, t, args)
               | _ => None
               end
  | _ => let '(w, cs) := read_number cs 0 in Some (w, left_align, cs, args)
  end.
Definition read_precision (cs : list Z) (args : list va) : option (Z * list Z * list va) :=
  match cs with
  | 46 :: 42 :: t => match args with VInt p :: args => Some (p, t, args) | _ => None end
  | 46 :: t => let '(p, cs) := read_number t 0 in Some (p, cs, args)
  | _ => Some (-1, cs, args)
  end.
Fixpoint read_longs (cs : list Z) (n : Z) : Z * list Z :=
  match cs with
  | 108 :: t => read_longs t (n + 1)
  | _ => (n, cs)
  end.
Definition read_size (cs : list Z) : bool * list Z :=
  match cs with 122 :: t => (true, t) | _ => (false, cs) end.

(** The integer of a conversion: [long] or [int], signed or not. *)
Definition int_arg (long signed : bool) (args : list va) : option (Z * list va) :=
  match args with
  | VLong z :: args => if long then Some (if signed then s64 z else u64 z, args) else None
  | VInt z :: args => if long then None else Some (if signed then s32 z else u32 z, args)
  | _ => None
  end.

(** One conversion after its [%]: the rest of the format, the arguments, the
    sink and the characters written. *)
Definition conversion (cs : list Z) (args : list va) (s : S) (written : Z)
  : option (list Z * list va * S * Z * bool) :=
  let '(cs, pad, left_align) := read_flags cs 32 false in
  match read_width cs args left_align with
  | None => None
  | Some (width, left_align, cs, args) =>
  match read_precision cs args with
  | None => None
  | Some (precision, cs, args) =>
  let '(long_count, cs) := read_longs cs 0 in
  let '(use_size_t, cs) := read_size cs in
  let long := use_size_t || (long_count >? 0) in
  let padded text t args :=
    let '(s, n) := sx_write_padded text width pad left_align s in Some (t, args, s, written + n, true) in
  let number text t args :=
    match sx_apply_numeric_precision text precision with None => None | Some text => padded text t args end in
  match cs with
  | [] => None
  | c :: t =>
      if c =? 37 then
        let '(s, ok) := emit 37 s in
        Some (t, args, s, if (ok : bool) then written + 1 else written, ok)
      else if c =? 99 then
        match args with VInt z :: args => padded [u8 z] t args | _ => None end
      else if c =? 115 then
        match args with
        | VStr text :: args =>
            let text := match text with Some text => text | None => s_null end in
            padded (if (precision >=? 0) && (precision <? zlen text) then take (Z.to_nat precision) text else text) t args
        | _ => None
        end
      else if (c =? 100) || (c =? 105) then
        match int_arg long true args with Some (z, args) => number (sx_signed_to_string z) t args | None => None end
      else if c =? 117 then
        match int_arg long false args with Some (z, args) => number (sx_unsigned_to_string z 10 false) t args | None => None end
      else if (c =? 120) || (c =? 88) then
        match int_arg long false args with Some (z, args) => number (sx_unsigned_to_string z 16 (c =? 88)) t args | None => None end
      else if c =? 112 then
        match args with VPtr z :: args => padded ([48; 120] ++ sx_unsigned_to_string z 16 false) t args | _ => None end
      else if (c =? 102) || (c =? 70) || (c =? 101) || (c =? 69) || (c =? 103) || (c =? 71) then
        match args with VDouble :: args => padded [48] t args | _ => None end
      else
        let '(s, ok) := emit 37 s in
        if negb ok then Some (t, args, s, written, false)
        else let '(s, ok) := emit c s in
             if negb ok then Some (t, args, s, written, false) else Some (t, args, s, written + 2, true)
  end end end.

(** The loop over the format; each turn takes a character at least. *)
Fixpoint format_loop (n : nat) (cs : list Z) (args : list va) (s : S) (written : Z) : option (S * Z) :=
  match n with
  | O => None
  | Datatypes.S n =>
      match cs with
      | [] => None
      | c :: t =>
          if c =? 0 then Some (s, written)
          else if negb (c =? 37) then
            let '(s, ok) := emit c s in
            if (ok : bool) then format_loop n t args s (written + 1) else Some (s, written)
          else match conversion t args s written with
               | None => None
               | Some (t, args, s, written, ok) =>
                   if (ok : bool) then format_loop n t args s written else Some (s, written)
               end
      end
  end.
Definition sx_vformat (format : list Z) (args : list va) (s : S) : option (S * Z) :=
  format_loop (length format) format args s 0.
End format.

(** ** snprintf *)

Record sx_buffer_sink := mk_sink { bs_buffer : list Z; bs_size : Z; bs_written : Z }.

Definition sx_emit_buffer_char (c : Z) (k : sx_buffer_sink) : sx_buffer_sink * bool :=
  let b := if negb (bs_size k =? 0) && (bs_written k + 1 <? bs_size k)
           then set_at (bs_buffer k) (bs_written k) c else bs_buffer k in
  (mk_sink b (bs_size k) (bs_written k + 1), true).

(** The buffer and the count. *)
Definition sx_vsnprintf (buffer : list Z) (size : Z) (format : list Z) (args : list va) : option (list Z * Z) :=
  match sx_vformat sx_emit_buffer_char format args (mk_sink buffer size 0) with
  | None => None
  | Some (k, written) =>
      if negb (size =? 0)
      then Some (set_at (bs_buffer k) (if bs_written k <? size then bs_written k else size - 1) 0, written)
      else Some (bs_buffer k, written)
  end.

(** ** What a format means

    A format is a list of items; [show] writes it down and [render] is what it
    prints. *)

Inductive conv :=
| Signed (z : Z)                        (* %d with an int *)
| SignedLong (z : Z)                    (* %ld *)
| Unsigned (z : Z)                      (* %u *)
| UnsignedLong (z : Z)                  (* %lu *)
| Hex (upper : bool) (z : Z)            (* %x, %X *)
| HexLong (upper : bool) (z : Z)        (* %lx *)
| Char (c : Z)                          (* %c *)
| Text (s : option (list Z))            (* %s *)
| Pointer (z : Z).                      (* %p *)

Inductive item :=
| Lit (c : Z)
| Percent
| Conv (lj zero : bool) (width : Z) (precision : option Z) (c : conv).

Definition conv_ok (c : conv) : bool :=
  match c with
  | Signed z => (-2147483648 <=? z) && (z <? 2147483648)
  | SignedLong z => (LONG_MIN <=? z) && (z <=? LONG_MAX)
  | Unsigned z | Hex _ z => (0 <=? z) && (z <? 4294967296)
  | UnsignedLong z | HexLong _ z | Pointer z => (0 <=? z) && (z <=? ULONG_MAX)
  | Char c => (0 <=? c) && (c <? 256)
  | Text _ => true
  end.
(** A precision of up to 126 digits stays inside the array of 128. *)
Definition item_ok (i : item) : bool :=
  match i with
  | Lit c => negb (c =? 0) && negb (c =? 37)
  | Percent => true
  | Conv _ _ w p c => (0 <=? w) && (w <=? INT_MAX) && conv_ok c &&
                      match p with Some p => (0 <=? p) && (p <=? 126) | None => true end
  end.

Definition conv_letters (c : conv) : list Z :=
  match c with
  | Signed _ => [100] | SignedLong _ => [108; 100] | Unsigned _ => [117] | UnsignedLong _ => [108; 117]
  | Hex up _ => [if up then 88 else 120] | HexLong up _ => [108; if up then 88 else 120]
  | Char _ => [99] | Text _ => [115] | Pointer _ => [112]
  end.
Definition show (i : item) : list Z :=
  match i with
  | Lit c => [c]
  | Percent => [37; 37]
  | Conv lj zero w p c =>
      [37] ++ (if lj then [45] else []) ++ (if zero then [48] else []) ++
      (if w =? 0 then [] else sx_unsigned_to_string w 10 false) ++
      match p with Some p => 46 :: sx_unsigned_to_string p 10 false | None => [] end ++ conv_letters c
  end.
Definition conv_arg (c : conv) : va :=
  match c with
  | Signed z | Unsigned z | Hex _ z | Char z => VInt z
  | SignedLong z | UnsignedLong z | HexLong _ z => VLong z
  | Text s => VStr s
  | Pointer z => VPtr z
  end.
Definition item_args (i : item) : list va :=
  match i with Conv _ _ _ _ c => [conv_arg c] | _ => [] end.

(** A number with at least [p] digits. *)
Definition with_digits (neg : bool) (digits : list Z) (p : option Z) : list Z :=
  (if neg then [C_MINUS] else []) ++
  match p with Some p => replicate (Z.to_nat (p - zlen digits)) C_0 | None => [] end ++ digits.
Definition dec (z : Z) : list Z := sx_unsigned_to_string z 10 false.
Definition conv_text (p : option Z) (c : conv) : list Z :=
  match c with
  | Signed z | SignedLong z => with_digits (z <? 0) (dec (Z.abs z)) p
  | Unsigned z | UnsignedLong z => with_digits false (dec z) p
  | Hex up z | HexLong up z => with_digits false (sx_unsigned_to_string z 16 up) p
  | Char c => [c]
  | Text s => let s := match s with Some s => s | None => s_null end in
              match p with Some p => take (Z.to_nat p) s | None => s end
  | Pointer z => [48; 120] ++ sx_unsigned_to_string z 16 false
  end.
Definition padded (lj zero : bool) (w : Z) (text : list Z) : list Z :=
  let fill c := replicate (Z.to_nat (w - zlen text)) c in
  if lj then text ++ fill 32 else fill (if zero then 48 else 32) ++ text.
Definition render (i : item) : list Z :=
  match i with
  | Lit c => [c]
  | Percent => [37]
  | Conv lj zero w p c => padded lj zero w (conv_text p c)
  end.

(** ** Reading a format back *)

Lemma read_number_store n v k :
  0 <= v < 10 ^ Z.of_nat n -> read_number (rev (store_digits n v 10 false) ++ k) 0 = read_number k v.
Proof.
  revert v k. induction n as [|n IH]; intros v k Hv.
  - simpl in Hv. by assert (v = 0) as -> by lia.
  - cbn [store_digits]. destruct (v =? 0) eqn:?; [by assert (v = 0) as -> by lia|].
    rewrite Nat2Z.inj_succ, Z.pow_succ_r in Hv by lia. cbn [rev]. rewrite <- app_assoc. cbn [app].
    rewrite IH by (split; [apply Z.div_pos; lia|apply Z.div_lt_upper_bound; lia]). cbn [read_number].
    pose proof (Z.div_mod v 10 ltac:(lia)). pose proof (Z.mod_pos_bound v 10 ltac:(lia)).
    unfold digit_char, C_0, C_9. destruct (v mod 10 <? 10) eqn:?; [|lia].
    destruct ((48 + v mod 10 >=? 48) && (48 + v mod 10 <=? 57)) eqn:?; [|lia]. f_equal. lia.
Qed.

Definition no_digit (k : list Z) : Prop := match k with c :: _ => ~ C_0 <= c <= C_9 | [] => True end.

Lemma read_number_stop k v : no_digit k -> read_number k v = (v, k).
Proof. destruct k as [|c k]; [done|]. intros H. cbn [read_number no_digit] in *. case_if; [lia|done]. Qed.

Lemma read_number_print v k : 0 <= v <= INT_MAX -> no_digit k -> read_number (dec v ++ k) 0 = (v, k).
Proof.
  intros Hv Hk. unfold dec, sx_unsigned_to_string. destruct (v =? 0) eqn:?.
  - assert (v = 0) as -> by lia. cbn [app]. unfold read_number at 1. fold read_number. change ((C_0 >=? C_0) && (C_0 <=? C_9)) with true. cbn [C_0].
    change (0 * 10 + (48 - 48)) with 0. by apply read_number_stop.
  - rewrite read_number_store; [by apply read_number_stop|]. unfold INT_MAX in Hv. split; [lia|].
    apply (Z.lt_le_trans _ (10 ^ 10)); [lia|]. apply Z.pow_le_mono_r; lia.
Qed.

Lemma dec_first v : 0 < v <= INT_MAX -> exists c t, dec v = c :: t /\ 49 <= c <= 57.
Proof.
  intros Hv. unfold dec, sx_unsigned_to_string. destruct (v =? 0) eqn:?; [lia|].
  destruct (store_first 64 v 10 false) as (d & l & E & Hd); [lia| |].
  - unfold INT_MAX in Hv. split; [lia|]. apply (Z.lt_le_trans _ (10 ^ 10)); [lia|]. apply Z.pow_le_mono_r; lia.
  - exists (digit_char false d), l. split; [done|]. unfold digit_char, C_0. case_if; lia.
Qed.

Section meaning.
Context {S : Type} (emit : Z -> S -> S * bool).
Hypothesis emit_takes : forall c s, (emit c s).2 = true.

Definition put (s : S) (cs : list Z) : S := fold_left (fun s c => (emit c s).1) cs s.

Lemma emit_eq c s : emit c s = ((emit c s).1, true).
Proof. rewrite (surjective_pairing (emit c s)) at 1. by rewrite emit_takes. Qed.

Lemma emit_all_put cs s n : emit_all emit cs s n = (put s cs, n + zlen cs, true).
Proof.
  revert s n. induction cs as [|c cs IH]; intros s n; cbn [emit_all].
  - unfold put, zlen. cbn. by rewrite Z.add_0_r.
  - rewrite emit_eq, IH. unfold put, zlen. cbn [fold_left length]. do 2 f_equal. lia.
Qed.

Lemma put_app s a b : put s (a ++ b) = put (put s a) b.
Proof. apply fold_left_app. Qed.

Lemma write_padded_put text w pad lj s :
  0 <= w -> pad = 48 \/ pad = 32 ->
  sx_write_padded emit text w pad lj s =
  (put s (padded lj (pad =? 48) w text), zlen (padded lj (pad =? 48) w text)).
Proof.
  intros Hw Hp. unfold sx_write_padded, padded.
  set (padding := if (w >? 0) && (zlen text <? w) then w - zlen text else 0).
  assert (E : Z.to_nat padding = Z.to_nat (w - zlen text)).
  { unfold padding. pose proof (zlen_nonneg text). case_if; lia. }
  rewrite E. set (k := Z.to_nat (w - zlen text)). destruct lj.
  - cbn [negb]. rewrite emit_all_put. cbn [negb]. rewrite emit_all_put, put_app, zlen_app. do 2 f_equal.
  - rewrite emit_all_put. cbn [negb]. rewrite emit_all_put. cbn [negb].
    replace (if pad =? 48 then 48 else 32) with pad by (case_if; lia). rewrite put_app, zlen_app. do 2 f_equal.
Qed.

Ltac on_char := repeat (match goal with |- context [match ?p with _ => _ end] => is_var p; destruct p end; try done).

Lemma read_width_other c t args lj : c <> 42 ->
  read_width (c :: t) args lj = let '(w, cs) := read_number (c :: t) 0 in Some (w, lj, cs, args).
Proof. intros H. unfold read_width. on_char. Qed.
Lemma read_precision_none c t args : c <> 46 -> read_precision (c :: t) args = Some (-1, c :: t, args).
Proof. intros H. unfold read_precision. on_char. Qed.
Lemma read_precision_some c t args : c <> 42 ->
  read_precision (46 :: c :: t) args = let '(p, cs) := read_number (c :: t) 0 in Some (p, cs, args).
Proof. intros H. unfold read_precision. on_char. Qed.

(** The letters that may follow the numbers of a conversion. *)
Definition letter (c : Z) : Prop := 58 <= c /\ c <> 108 /\ c <> 122.

Lemma read_flags_show (lj zero : bool) c t :
  c <> 45 -> c <> 48 ->
  read_flags ((if lj then [45] else []) ++ (if zero then [48] else []) ++ c :: t) 32 false =
  (c :: t, if zero then 48 else 32, lj).
Proof.
  intros H1 H2. assert (E : forall pad l, read_flags (c :: t) pad l = (c :: t, pad, l)).
  { intros pad l. cbn [read_flags]. case_if; [lia|]. case_if; [lia|]. done. }
  destruct lj, zero; cbn [app read_flags Z.eqb Pos.eqb]; apply E.
Qed.

Lemma read_width_show w c t args lj :
  0 <= w <= INT_MAX -> ~ C_0 <= c <= C_9 -> c <> 42 ->
  read_width ((if w =? 0 then [] else dec w) ++ c :: t) args lj = Some (w, lj, c :: t, args).
Proof.
  intros Hw Hc Hs. destruct (w =? 0) eqn:E0.
  - cbn [app]. rewrite read_width_other by done. rewrite read_number_stop by done. do 4 f_equal. lia.
  - pose proof (read_number_print w (c :: t) Hw Hc) as HR. destruct (dec_first w) as (d & l & E & Hd); [lia|].
    rewrite E in *. cbn [app] in *. rewrite read_width_other by lia. by rewrite HR.
Qed.

Lemma read_precision_show p c t args :
  match p with Some p => 0 <= p <= 126 | None => True end -> letter c \/ c = 108 ->
  read_precision (match p with Some p => 46 :: dec p | None => [] end ++ c :: t) args =
  Some (match p with Some p => p | None => -1 end, c :: t, args).
Proof.
  intros Hp Hc. assert (Hc58 : 58 <= c) by (destruct Hc as [[? _]|]; lia). destruct p as [p|].
  - assert (HR : read_number (dec p ++ c :: t) 0 = (p, c :: t)).
    { apply read_number_print; [unfold INT_MAX; lia|]. cbn [no_digit]. unfold C_9. lia. }
    assert (exists (d : Z) (l : list Z), dec p = d :: l /\ d <> 42) as (d & l & E & Hd).
    { destruct (decide (p = 0)) as [->|]; [by exists 48, []|]. destruct (dec_first p) as (d & l & E & Hd); [unfold INT_MAX; lia|].
      exists d, l. split; [done|lia]. }
    rewrite E in *. cbn [app] in *. rewrite read_precision_some by done. by rewrite HR.
  - cbn [app]. apply read_precision_none. lia.
Qed.

Lemma read_longs_show (long : bool) c t :
  letter c -> read_longs ((if long then [108] else []) ++ c :: t) 0 = ((if long then 1 else 0), c :: t).
Proof.
  intros (_ & H & _). assert (E : forall n, read_longs (c :: t) n = (n, c :: t)) by (intros n; unfold read_longs; on_char).
  destruct long; cbn [app read_longs]; apply E.
Qed.
Lemma read_size_show c t : letter c -> read_size (c :: t) = (false, c :: t).
Proof. intros (_ & _ & H). unfold read_size. on_char. Qed.

Lemma store_length n v base up : (length (store_digits n v base up) <= n)%nat.
Proof. revert v. induction n as [|n IH]; intros v; [done|]. cbn [store_digits]. case_if; simpl; [lia|]. specialize (IH (v / base)). lia. Qed.
Lemma print_length v base up : 1 <= zlen (sx_unsigned_to_string v base up) <= 64.
Proof.
  unfold sx_unsigned_to_string, zlen. case_if; [simpl; lia|]. rewrite length_rev. pose proof (store_length 64 v base up).
  pose proof (store_nonempty 64 v base up ltac:(lia) ltac:(lia)). unfold zlen in *. lia.
Qed.

Lemma precision_show (neg : bool) v base up p :
  2 <= base <= 16 -> 0 <= v <= ULONG_MAX -> match p with Some p => 0 <= p <= 126 | None => True end ->
  sx_apply_numeric_precision ((if neg then [C_MINUS] else []) ++ sx_unsigned_to_string v base up)
    (match p with Some p => p | None => -1 end) = Some (with_digits neg (sx_unsigned_to_string v base up) p).
Proof.
  intros Hb Hv Hp. pose proof (print_length v base up) as Hl. set (ds := sx_unsigned_to_string v base up) in *.
  unfold sx_apply_numeric_precision, with_digits. destruct p as [p|]; [|done].
  destruct ((p <? 0) || (zlen ((if neg then [C_MINUS] else []) ++ ds) >=? 128)) eqn:E1.
  { rewrite zlen_app in E1. destruct neg; unfold zlen in *; simpl in *; lia. }
  assert (Es : match ((if neg then [C_MINUS] else []) ++ ds : list Z) with 45 :: t => ([C_MINUS], t) | _ => (([] : list Z), (if neg then [C_MINUS] else []) ++ ds) end
               = ((if neg then [C_MINUS] else []) : list Z, ds)).
  { destruct neg; [done|]. cbn [app]. destruct (print_first base up v Hb Hv) as [[_ E]|(d & l & E & Hd)]; fold ds in E; rewrite E; [done|].
    pose proof (digit_char_shape up d Hd) as (_ & H & _). set (c := digit_char up d) in *. clearbody c. on_char. }
  rewrite Es. destruct (zlen ds >=? p) eqn:E2.
  - replace (Z.to_nat (p - zlen ds)) with 0%nat by lia. done.
  - match goal with |- context [zlen ?o <? 128] => destruct (zlen o <? 128) eqn:E3 end; [done|]. exfalso.
    rewrite !zlen_app in *. unfold zlen in *. rewrite length_replicate in *. destruct neg; simpl in *; lia.
Qed.

Lemma signed_show z : LONG_MIN <= z <= LONG_MAX -> sx_signed_to_string z = (if z <? 0 then [C_MINUS] else []) ++ dec (Z.abs z).
Proof.
  intros Hz. unfold LONG_MIN, LONG_MAX in Hz. unfold sx_signed_to_string. destruct (z <? 0) eqn:?; cbn [app].
  - unfold u64. rewrite Z.mod_small by lia. unfold dec. do 2 f_equal. lia.
  - unfold dec. f_equal. lia.
Qed.

Lemma conversion_show (lj zero : bool) w p c k args s written :
  item_ok (Conv lj zero w p c) = true ->
  conversion emit ((if lj then [45] else []) ++ (if zero then [48] else []) ++ (if w =? 0 then [] else dec w) ++
     match p with Some p => 46 :: dec p | None => [] end ++ conv_letters c ++ k) (conv_arg c :: args) s written =
  Some (k, args, put s (render (Conv lj zero w p c)), written + zlen (render (Conv lj zero w p c)), true).
Proof.
  intros Hok. cbn [item_ok] in Hok. rewrite !andb_true_iff in Hok. destruct Hok as [[[Hw1 Hw2] Hc] Hp].
  assert (Hw : 0 <= w <= INT_MAX) by lia. assert (Hp' : match p with Some p => 0 <= p <= 126 | None => True end) by (destruct p; lia || done).
  assert (Hl : exists (long : bool) l, conv_letters c = (if long then [108] else []) ++ [l] /\ letter l).
  { unfold letter. destruct c as [z|z|z|z|up z|up z|x|t|z]; cbn [conv_letters];
      [exists false, 100|exists true, 100|exists false, 117|exists true, 117|exists false, (if up then 88 else 120)|
       exists true, (if up then 88 else 120)|exists false, 99|exists false, 115|exists false, 112]; (split; [done|try destruct up; lia]). }
  destruct Hl as (long & l & El & Hlet).
  assert (Hhead : exists h t, conv_letters c ++ k = h :: t /\ (letter h \/ h = 108)).
  { rewrite El. destruct long; cbn [app]; [exists 108, (l :: k); auto|exists l, k; auto]. }
  destruct Hhead as (h & t & Eh & Hh). assert (Hh58 : 58 <= h) by (destruct Hh as [[? _]|]; lia).
  unfold conversion.
  (* flags *)
  assert (Hfl : exists (c0 : Z) (t0 : list Z), (if w =? 0 then [] else dec w) ++ match p with Some p => 46 :: dec p | None => [] end ++ conv_letters c ++ k = c0 :: t0 /\ c0 <> 45 /\ c0 <> 48).
  { destruct (w =? 0) eqn:?; cbn [app].
    - destruct p as [p|]; cbn [app]; [eexists _, _; split; [done|lia]|]. rewrite Eh. exists h, t. split; [done|lia].
    - destruct (dec_first w) as (d & l' & E & Hd); [lia|]. rewrite E. cbn [app]. eexists _, _. split; [done|lia]. }
  destruct Hfl as (c0 & t0 & E0 & Hc0 & Hc0'). rewrite E0, read_flags_show by done. rewrite <- E0. clear c0 t0 E0 Hc0 Hc0'.
  (* width *)
  assert (Hwd : exists (c1 : Z) (t1 : list Z), match p with Some p => 46 :: dec p | None => [] end ++ conv_letters c ++ k = c1 :: t1 /\ ~ C_0 <= c1 <= C_9 /\ c1 <> 42).
  { unfold C_0, C_9. destruct p as [p|]; cbn [app]; [eexists _, _; split; [done|lia]|]. rewrite Eh. exists h, t. split; [done|lia]. }
  destruct Hwd as (c1 & t1 & E1 & Hc1 & Hc1'). rewrite E1, read_width_show by done. rewrite <- E1. clear c1 t1 E1 Hc1 Hc1'.
  rewrite Eh, read_precision_show by done. rewrite <- Eh, El, <- app_assoc. cbn [app].
  rewrite read_longs_show by done. rewrite read_size_show by done.
  set (pad := if zero then 48 else 32).
  assert (HW : forall text, sx_write_padded emit text w pad lj s = (put s (padded lj zero w text), zlen (padded lj zero w text))).
  { intros text. rewrite write_padded_put by (unfold pad; destruct zero; lia). unfold pad. by destruct zero. }
  assert (HN : forall (neg : bool) v base up, 2 <= base <= 16 -> 0 <= v <= ULONG_MAX ->
     sx_apply_numeric_precision ((if neg then [C_MINUS] else []) ++ sx_unsigned_to_string v base up)
       (match p with Some p => p | None => -1 end) = Some (with_digits neg (sx_unsigned_to_string v base up) p)).
  { intros. by apply precision_show. }
  clearbody pad. clear Hh Hh58 Eh Hp.
  destruct c as [z|z|z|z|up z|up z|x|x|z]; destruct long; try discriminate El; cbn [conv_letters app] in El; injection El as <-;
    try destruct up; cbn [Z.eqb Pos.eqb orb Z.gtb Z.compare conv_arg int_arg render conv_text conv_ok] in *.
  - rewrite s32_id by lia. rewrite signed_show by (unfold LONG_MIN, LONG_MAX; lia). unfold dec. rewrite HN by (unfold ULONG_MAX; lia). by rewrite HW.
  - unfold LONG_MIN, LONG_MAX in Hc. rewrite s64_id by lia. rewrite signed_show by (unfold LONG_MIN, LONG_MAX; lia). unfold dec. rewrite HN by (unfold ULONG_MAX; lia). by rewrite HW.
  - rewrite u32_id by lia. unfold dec. pose proof (HN false z 10 false) as E. cbn [app] in E. rewrite E by (unfold ULONG_MAX; lia). by rewrite HW.
  - unfold ULONG_MAX in Hc. rewrite u64_id by lia. unfold dec. pose proof (HN false z 10 false) as E. cbn [app] in E. rewrite E by (unfold ULONG_MAX; lia). by rewrite HW.
  - rewrite u32_id by lia. pose proof (HN false z 16 true) as E. cbn [app] in E. rewrite E by (unfold ULONG_MAX; lia). by rewrite HW.
  - rewrite u32_id by lia. pose proof (HN false z 16 false) as E. cbn [app] in E. rewrite E by (unfold ULONG_MAX; lia). by rewrite HW.
  - unfold ULONG_MAX in Hc. rewrite u64_id by lia. pose proof (HN false z 16 true) as E. cbn [app] in E. rewrite E by (unfold ULONG_MAX; lia). by rewrite HW.
  - unfold ULONG_MAX in Hc. rewrite u64_id by lia. pose proof (HN false z 16 false) as E. cbn [app] in E. rewrite E by (unfold ULONG_MAX; lia). by rewrite HW.
  - rewrite u8_id by lia. by rewrite HW.
  - rewrite HW. set (text := match x with Some s => s | None => s_null end). destruct p as [p|]; [|done]. pose proof (zlen_nonneg text).
    destruct ((p >=? 0) && (p <? zlen text)) eqn:?; [done|]. rewrite (take_ge text) by (unfold zlen in *; lia). done.
  - by rewrite HW.
Qed.

(** A whole format. *)
Lemma format_loop_show is_ k args s written n :
  forallb item_ok is_ = true -> (length (flat_map show is_) < n)%nat ->
  format_loop emit n (flat_map show is_ ++ 0 :: k) (flat_map item_args is_ ++ args) s written =
  Some (put s (flat_map render is_), written + zlen (flat_map render is_)).
Proof.
  revert s written n. induction is_ as [|i is_ IH]; intros s written n Hok Hn; (destruct n as [|n]; [lia|]).
  - cbn. unfold zlen. cbn. by rewrite Z.add_0_r.
  - cbn [forallb] in Hok. apply andb_true_iff in Hok as [Hi Hok]. cbn [flat_map] in *. rewrite <- !app_assoc. rewrite length_app in Hn.
    rewrite put_app, zlen_app, Z.add_assoc. destruct i as [c| |lj zero w p c].
    + cbn [show item_args app format_loop item_ok render] in *. destruct (c =? 0) eqn:?; [done|]. destruct (c =? 37) eqn:?; [done|]. cbn [negb].
      rewrite emit_eq. apply IH; [done|simpl in Hn; lia].
    + cbn [show item_args app format_loop item_ok render Z.eqb Pos.eqb negb] in *.
      change (conversion emit (37 :: flat_map show is_ ++ 0 :: k) (flat_map item_args is_ ++ args) s written)
        with (let '(s, ok) := emit 37 s in Some (flat_map show is_ ++ 0 :: k, flat_map item_args is_ ++ args, s, if (ok : bool) then written + 1 else written, ok)).
      rewrite emit_eq. cbn [negb]. apply IH; [done|simpl in Hn; lia].
    + cbn [show item_args app format_loop Z.eqb Pos.eqb negb]. rewrite <- !app_assoc. rewrite conversion_show by done.
      apply IH; [done|simpl in Hn; lia].
Qed.
End meaning.

(** ** The buffer *)

Lemma put_snoc {S} (emit : Z -> S -> S * bool) s l c : put emit s (l ++ [c]) = (emit c (put emit s l)).1.
Proof. unfold put. by rewrite fold_left_app. Qed.

(** What a buffer of [size] bytes holds after the characters [out]. *)
Definition filled (buffer out : list Z) (size : Z) : list Z :=
  let m := Nat.min (length out) (Z.to_nat (size - 1)) in take m out ++ drop m buffer.

Lemma filled_length buffer out size : size = zlen buffer -> length (filled buffer out size) = length buffer.
Proof. intros ->. unfold filled, zlen. rewrite length_app, length_take, length_drop. lia. Qed.

Lemma put_sink buffer size out :
  size = zlen buffer ->
  put sx_emit_buffer_char (mk_sink buffer size 0) out = mk_sink (filled buffer out size) size (zlen out).
Proof.
  intros Hs. induction out as [|c out IH] using rev_ind.
  - unfold put, filled, zlen. cbn. done.
  - rewrite put_snoc, IH. unfold sx_emit_buffer_char. cbn [bs_buffer bs_size bs_written fst]. rewrite zlen_snoc. f_equal.
    unfold filled. rewrite length_app. cbn [length]. unfold zlen in *.
    destruct (negb (size =? 0) && (Z.of_nat (length out) + 1 <? size)) eqn:E.
    + replace (Nat.min (length out) (Z.to_nat (size - 1))) with (length out) by lia.
      replace (Nat.min (length out + 1) (Z.to_nat (size - 1))) with (length out + 1)%nat by lia.
      rewrite (take_ge out), (take_ge (out ++ [c])) by (rewrite ?length_app; simpl; lia).
      unfold set_at. case_if; [lia|]. rewrite Nat2Z.id. rewrite insert_app_r_alt by lia. rewrite Nat.sub_diag, <- app_assoc. f_equal.
      rewrite (drop_S_cons 0 buffer (length out)) by lia. cbn [app]. by rewrite Nat.add_1_r.
    + replace (Nat.min (length out + 1) (Z.to_nat (size - 1))) with (Nat.min (length out) (Z.to_nat (size - 1))) by lia.
      f_equal. rewrite take_app_le by lia. done.
Qed.

(** The whole call, as one equation. *)
Lemma vsnprintf_text items k args buffer size :
  forallb item_ok items = true -> size = zlen buffer ->
  let out := flat_map render items in
  sx_vsnprintf buffer size (flat_map show items ++ 0 :: k) (flat_map item_args items ++ args) =
  Some (if size =? 0 then buffer
        else take (Z.to_nat (size - 1)) out ++ 0 :: drop (S (Nat.min (length out) (Z.to_nat (size - 1)))) buffer, zlen out).
Proof.
  intros Hok Hs out. unfold sx_vsnprintf, sx_vformat.
  rewrite format_loop_show by (done || (rewrite length_app; simpl; lia)). fold out. rewrite put_sink by done. cbn [bs_buffer bs_written].
  rewrite Z.add_0_l. destruct (size =? 0) eqn:E0; cbn [negb].
  - do 2 f_equal. unfold filled. replace (Z.to_nat (size - 1)) with 0%nat by lia. by rewrite Nat.min_0_r.
  - do 2 f_equal. unfold filled. set (m := Nat.min (length out) (Z.to_nat (size - 1))).
    assert (Hm : Z.of_nat m = (if zlen out <? size then zlen out else size - 1)) by (unfold zlen in *; case_if; lia).
    rewrite <- Hm. unfold set_at. case_if; [lia|]. rewrite Nat2Z.id.
    assert (Hlm : length (take m out) = m) by (rewrite length_take; lia).
    rewrite insert_app_r_alt by lia. rewrite Hlm, Nat.sub_diag. unfold zlen in Hs.
    rewrite (drop_S_cons 0 buffer m) by lia. cbn [insert list_insert]. f_equal.
    unfold m. destruct (Nat.min_spec (length out) (Z.to_nat (size - 1))) as [[? ->]|[? ->]]; [|done].
    by rewrite !take_ge by lia.
Qed.

(** [snprintf] prints what the format says: for every format made of
    characters, [%%] and the integer, character, string and pointer conversions
    with their flags, widths and precisions up to 126, [sx_vsnprintf] returns
    the length of the whole text, stores its first [size - 1] characters and a
    terminator, and leaves the rest of the buffer alone, whatever follows the
    format in memory and whatever arguments are left over.  Zeros that pad go in
    front of a sign, as this runtime has it. *)
Theorem snprintf_renders items k args buffer size :
  forallb item_ok items = true -> size = zlen buffer ->
  let out := flat_map render items in
  sx_vsnprintf buffer size (flat_map show items ++ 0 :: k) (flat_map item_args items ++ args) =
  Some (if size =? 0 then buffer
        else take (Z.to_nat (size - 1)) out ++ 0 :: drop (S (Nat.min (length out) (Z.to_nat (size - 1)))) buffer, zlen out).
Proof. exact (vsnprintf_text items k args buffer size). Qed.

Lemma snprintf_renders_witness :
  forallb item_ok [Lit 97; Conv false true 5 None (Signed 42)] = true /\
  sx_vsnprintf [1; 1; 1; 1] 4 [97; 37; 48; 53; 100; 0] [VInt 42] = Some ([97; 48; 48; 0], 6).
Proof.
  split; [reflexivity|].
  refine (snprintf_renders [Lit 97; Conv false true 5 None (Signed 42)] [] [] [1; 1; 1; 1] 4 _ _); reflexivity.
Defined.

(** Where [printf] goes wrong: a precision above 127 overruns the array of
    the precision code; a format that ends in [%] is read past its terminator
    (the character after it is printed, and with nothing after it the read is
    out of bounds); and zeros are put before the sign of a negative number. *)
Theorem printf_defects :
  sx_vsnprintf [0] 1 [37; 46; 50; 48; 48; 100; 0] [VInt 7] = None /\
  sx_vsnprintf [0; 0; 0; 0; 0] 5 [37; 0; 65; 0] [] = Some ([37; 0; 65; 0; 0], 3) /\
  sx_vsnprintf [0; 0; 0; 0; 0] 5 [37; 0] [] = None /\
  sx_vsnprintf [0; 0; 0; 0; 0; 0] 6 [37; 48; 53; 100; 0] [VInt (-42)] = Some ([48; 48; 45; 52; 50; 0], 5).
Proof. repeat split; vm_compute; reflexivity. Qed.
