(* ===== verification/LibcMatch.v ===== *)
(** * Pattern matching, sorting and searching in the C runtime

    [sx_fnmatch], [sx_qsort] and [sx_bsearch] of [posix.c].  Strings are lists of
    bytes before the terminator.  The elements of an array are values; the
    comparison is a parameter. *)

From S2P Require Import Prelude.

(** ** fnmatch *)

(** A [char] is signed. *)
Definition schar (c : Z) : Z := if c <? 128 then c else c - 256.

Definition SLASH : Z := 47.
Definition STAR : Z := 42.

(** The loop of [sx_fnmatch_class_matches]: what follows the class and whether
    the character is in it. *)
Fixpoint class_loop (pattern : list Z) (character : Z) (matched : bool) : list Z * bool :=
  match pattern with
  | [] => ([], matched)
  | c :: t =>
      if c =? 93 then (t, matched)
      else
        let single := class_loop t character (if c =? character then true else matched) in
        match t with
        | dash :: e :: t' =>
            if (dash =? 45) && negb (e =? 93)
            then class_loop t' character
                   (if (schar character >=? schar c) && (schar character <=? schar e) then true else matched)
            else single
        | _ => single
        end
  end.
Definition sx_fnmatch_class_matches (pattern : list Z) (character : Z) : list Z * bool :=
  let '(negate, pattern) :=
    match pattern with
    | c :: t => if (c =? 33) || (c =? 94) then (true, t) else (false, pattern)
    | [] => (false, [])
    end in
  let '(rest, matched) := class_loop pattern character false in
  (rest, if (negate : bool) then negb matched else matched).

Fixpoint skip_stars (pattern : list Z) : list Z :=
  match pattern with
  | c :: t => if c =? STAR then skip_stars t else pattern
  | [] => []
  end.

Section fnmatch.
(** The flags [FNM_PATHNAME] and [FNM_NOESCAPE]. *)
Variables (pathname noescape : bool).

Definition blocked (c : Z) : bool := pathname && (c =? SLASH).

(** The loop over the positions a star may reach. *)
Fixpoint star_loop (matches : list Z -> bool) (string : list Z) : bool :=
  match string with
  | [] => matches []
  | c :: t => if blocked c then matches string
              else if matches string then true else star_loop matches t
  end.

(** [true] is the result 0.  Each turn takes a character of the pattern. *)
Fixpoint sx_fnmatch_internal (n : nat) (pattern string : list Z) : bool :=
  match n with
  | O => false
  | S n =>
      match pattern with
      | [] => match string with [] => true | _ => false end
      | c :: t =>
          if c =? STAR then
            match skip_stars t with
            | [] => negb (existsb blocked string)
            | p => star_loop (sx_fnmatch_internal n p) string
            end
          else
            match string with
            | [] => false
            | x :: string' =>
                if c =? 63 then if blocked x then false else sx_fnmatch_internal n t string'
                else if c =? 91 then
                  if blocked x then false
                  else let '(rest, matched) := sx_fnmatch_class_matches t x in
                       if (matched : bool) then sx_fnmatch_internal n rest string' else false
                else
                  let '(c, t) :=
                    match t with
                    | e :: t' => if (c =? 92) && negb noescape then (e, t') else (c, t)
                    | [] => (c, t)
                    end in
                  if c =? x then sx_fnmatch_internal n t string' else false
            end
      end
  end.
(** ** What a pattern means *)

(** What stands between the brackets of a class: a list of characters and of
    ranges, the class being all that is in it or, negated, all that is not. *)
Inductive item := One (c : Z) | Range (from upto : Z).
Inductive tok := TStar | TAny | TClass (negated : bool) (items : list item) | TChar (c : Z).

(** The characters of a class; a range includes both ends, compared as
    characters are. *)
Definition in_item (x : Z) (i : item) : Prop :=
  match i with One c => x = c | Range a b => schar a <= schar x <= schar b end.
Definition in_class (negated : bool) (items : list item) (x : Z) : Prop :=
  if negated then ~ Exists (in_item x) items else Exists (in_item x) items.

(** How a class is spelled: up to the closing bracket (or the end), [a-b] is a
    range unless the bracket follows the dash, [!] or [^] in front negates. *)
Fixpoint class_items (pattern : list Z) : list item * list Z :=
  match pattern with
  | [] => ([], [])
  | c :: t =>
      if c =? 93 then ([], t)
      else let single := let '(items, rest) := class_items t in (One c :: items, rest) in
           match t with
           | dash :: e :: t' =>
               if (dash =? 45) && negb (e =? 93)
               then let '(items, rest) := class_items t' in (Range c e :: items, rest)
               else single
           | _ => single
           end
  end.
Definition negated_class (pattern : list Z) : bool :=
  match pattern with c :: _ => (c =? 33) || (c =? 94) | [] => false end.
Definition class_body (pattern : list Z) : list Z := if negated_class pattern then drop 1 pattern else pattern.
Definition after_class (pattern : list Z) : list Z := (class_items (class_body pattern)).2.
Definition class_tok (pattern : list Z) : tok :=
  TClass (negated_class pattern) (class_items (class_body pattern)).1.

Fixpoint toks (n : nat) (pattern : list Z) : list tok :=
  match n with
  | O => []
  | S n =>
      match pattern with
      | [] => []
      | c :: t =>
          if c =? STAR then TStar :: toks n t
          else if c =? 63 then TAny :: toks n t
          else if c =? 91 then class_tok t :: toks n (after_class t)
          else match t with
               | e :: t' => if (c =? 92) && negb noescape then TChar e :: toks n t' else TChar c :: toks n t
               | [] => [TChar c]
               end
      end
  end.

(** The strings of a pattern. *)
Inductive tmatch : list tok -> list Z -> Prop :=
| tm_nil : tmatch [] []
| tm_star ts u v : Forall (fun c => blocked c = false) u -> tmatch ts v -> tmatch (TStar :: ts) (u ++ v)
| tm_any ts c s : blocked c = false -> tmatch ts s -> tmatch (TAny :: ts) (c :: s)
| tm_class ts neg items c s : blocked c = false -> in_class neg items c -> tmatch ts s -> tmatch (TClass neg items :: ts) (c :: s)
| tm_char ts c s : tmatch ts s -> tmatch (TChar c :: ts) (c :: s).


Ltac by_length p := induction p as [p IH] using (well_founded_induction (well_founded_ltof _ (@length Z))); unfold ltof in IH.

(** The loop of the code finds where the class ends, and an item the character is in. *)
Lemma class_loop_spec p x m :
  (class_loop p x m).1 = (class_items p).2 /\
  ((class_loop p x m).2 = true <-> m = true \/ Exists (in_item x) (class_items p).1).
Proof.
  revert m. by_length p. intros m. destruct p as [|c t].
  { cbn. split; [done|]. rewrite Exists_nil. tauto. }
  cbn [class_loop class_items]. destruct (c =? 93); [cbn; split; [done|]; rewrite Exists_nil; tauto|].
  assert (Hs : forall m', (length t < length (c :: t))%nat ->
    let r := class_loop t x (if c =? x then true else m') in
    let k := let '(items, rest) := class_items t in (One c :: items, rest) in
    r.1 = k.2 /\ (r.2 = true <-> m' = true \/ Exists (in_item x) k.1)).
  { intros m' Hl. cbn zeta. destruct (IH t Hl (if c =? x then true else m')) as [-> ->].
    destruct (class_items t) as [items rest]. cbn [fst snd]. split; [done|]. rewrite Exists_cons. cbn [in_item].
    destruct (c =? x) eqn:E; [assert (x = c) by lia; tauto|assert (x <> c) by lia; tauto]. }
  destruct t as [|d [|e t']]; [apply Hs; simpl; lia..|]. destruct ((d =? 45) && negb (e =? 93)); [|apply Hs; simpl; lia].
  destruct (IH t' ltac:(simpl; lia) (if (schar x >=? schar c) && (schar x <=? schar e) then true else m)) as [-> ->].
  destruct (class_items t') as [items rest]. cbn [fst snd]. split; [done|]. rewrite Exists_cons. cbn [in_item].
  destruct ((schar x >=? schar c) && (schar x <=? schar e)) eqn:E;
    [assert (schar c <= schar x <= schar e) by lia; tauto|assert (~ (schar c <= schar x <= schar e)) by lia; tauto].
Qed.
Lemma class_items_length p : (length (class_items p).2 <= length p)%nat.
Proof.
  by_length p. destruct p as [|c t]; [done|]. cbn [class_items]. case_if; [simpl; lia|].
  destruct t as [|d [|e t']]; [simpl; lia|specialize (IH [d]); destruct (class_items [d]); simpl in *; lia|].
  case_if; [specialize (IH t'); destruct (class_items t')|specialize (IH (d :: e :: t')); destruct (class_items (d :: e :: t'))];
    simpl in *; lia.
Qed.
Lemma after_class_length p : (length (after_class p) <= length p)%nat.
Proof.
  unfold after_class. pose proof (class_items_length (class_body p)). unfold class_body in *.
  case_if; rewrite ?length_drop in *; lia.
Qed.
Lemma class_matches_spec t x :
  (sx_fnmatch_class_matches t x).1 = after_class t /\
  ((sx_fnmatch_class_matches t x).2 = true <-> in_class (negated_class t) (class_items (class_body t)).1 x).
Proof.
  unfold sx_fnmatch_class_matches.
  assert (E : match t with c :: t0 => if (c =? 33) || (c =? 94) then (true, t0) else (false, t) | [] => (false, []) end
              = (negated_class t, class_body t)).
  { unfold class_body, negated_class. destruct t as [|c t]; [done|]. by case_if. }
  rewrite E. unfold after_class. destruct (class_loop_spec (class_body t) x false) as [E1 E2].
  destruct (class_loop (class_body t) x false) as [rest matched]. cbn [fst snd] in *. split; [done|].
  unfold in_class. destruct (negated_class t); [rewrite negb_true_iff, <- not_true_iff_false|]; rewrite E2; naive_solver.
Qed.

Lemma toks_fuel n p : (length p <= n)%nat -> toks n p = toks (length p) p.
Proof.
  revert n. by_length p. intros n Hn. destruct p as [|c t]; [by destruct n|]. simpl in Hn. destruct n as [|n]; [lia|].
  assert (HI : forall q, (length q <= length t)%nat -> toks n q = toks (length t) q).
  { intros q Hq. rewrite (IH q) by (simpl; lia). symmetry. apply IH; simpl; lia. }
  cbn [length toks]. case_if; [f_equal; apply HI; lia|]. case_if; [f_equal; apply HI; lia|].
  case_if; [f_equal; apply HI; apply after_class_length|]. destruct t as [|e t']; [done|]. case_if; f_equal; apply HI; simpl; lia.
Qed.

(** The tokens of a pattern. *)
Definition pattern_of (p : list Z) : list tok := toks (length p) p.

Lemma tokens_cons c t :
  pattern_of (c :: t) =
    if c =? STAR then TStar :: pattern_of t
    else if c =? 63 then TAny :: pattern_of t
    else if c =? 91 then class_tok t :: pattern_of (after_class t)
    else match t with
         | e :: t' => if (c =? 92) && negb noescape then TChar e :: pattern_of t' else TChar c :: pattern_of t
         | [] => [TChar c]
         end.
Proof.
  unfold pattern_of. cbn [length toks]. case_if; [done|]. case_if; [done|].
  case_if; [f_equal; apply toks_fuel, after_class_length|]. destruct t as [|e t']; [done|]. case_if; [|done]. f_equal. apply toks_fuel. simpl. lia.
Qed.

Lemma tmatch_star ts s :
  tmatch (TStar :: ts) s <-> exists u v, s = u ++ v /\ Forall (fun c => blocked c = false) u /\ tmatch ts v.
Proof. split; [intros H; inversion H; subst; eauto|]. intros (u & v & -> & Hu & Hv). by constructor. Qed.

Lemma tmatch_star_star ts s : tmatch (TStar :: TStar :: ts) s <-> tmatch (TStar :: ts) s.
Proof.
  rewrite !tmatch_star. split.
  - intros (u & v & -> & Hu & (u' & v' & -> & Hu' & Hv)%tmatch_star). exists (u ++ u'), v'. rewrite <- app_assoc. split_and!; [done| |done]. by apply Forall_app.
  - intros (u & v & -> & Hu & Hv). exists u, v. split_and!; [done..|]. apply tmatch_star. by exists [], v.
Qed.

Lemma skip_stars_match t s : tmatch (TStar :: pattern_of (skip_stars t)) s <-> tmatch (TStar :: pattern_of t) s.
Proof.
  induction t as [|c t IH]; [done|]. cbn [skip_stars]. destruct (c =? STAR) eqn:E; [|done].
  rewrite IH, (tokens_cons c t), E. by rewrite tmatch_star_star.
Qed.
Lemma skip_stars_length t : (length (skip_stars t) <= length t)%nat.
Proof. induction t as [|c t IH]; [done|]. cbn [skip_stars]. case_if; simpl; lia. Qed.

Lemma star_loop_spec f s :
  star_loop f s = true <-> exists u v, s = u ++ v /\ Forall (fun c => blocked c = false) u /\ f v = true.
Proof.
  induction s as [|c s IH]; cbn [star_loop].
  - split; [intros H; by exists [], []|]. intros (u & v & E & _ & Hf). symmetry in E. apply app_eq_nil in E as [-> ->]. done.
  - destruct (blocked c) eqn:Eb.
    + split; [intros H; by exists [], (c :: s)|]. intros (u & v & E & Hu & Hf). destruct u as [|d u]; [by rewrite E|].
      injection E as <- _. apply Forall_cons in Hu as [Hc _]. congruence.
    + destruct (f (c :: s)) eqn:Ef; [split; [intros _; by exists [], (c :: s)|done]|]. rewrite IH. split.
      * intros (u & v & -> & Hu & Hf). exists (c :: u), v. split_and!; [done|by constructor|done].
      * intros (u & v & E & Hu & Hf). destruct u as [|d u]; [cbn in E; subst v; congruence|]. injection E as <- ->.
        apply Forall_cons in Hu as [_ Hu]. by exists u, v.
Qed.

Lemma fnmatch_internal_spec n p s :
  (length p < n)%nat -> sx_fnmatch_internal n p s = true <-> tmatch (pattern_of p) s.
Proof.
  revert p s. induction n as [|n IH]; intros p s Hn; [lia|]. cbn [sx_fnmatch_internal]. destruct p as [|c t].
  { split; [destruct s; [constructor|done]|]. intros H. by inversion H. }
  simpl in Hn. rewrite tokens_cons. destruct (c =? STAR) eqn:Es.
  - rewrite <- skip_stars_match. pose proof (skip_stars_length t) as Hl. destruct (skip_stars t) as [|c' t'] eqn:Esk.
    + rewrite tmatch_star, negb_true_iff. split.
      * intros H. exists s, []. rewrite app_nil_r. split_and!; [done| |constructor]. apply List.Forall_forall. intros x Hx.
        destruct (blocked x) eqn:E; [|done]. assert (existsb blocked s = true) by (apply existsb_exists; eauto). congruence.
      * intros (u & v & -> & Hu & Hv). inversion Hv; subst. rewrite app_nil_r. apply not_true_is_false. intros (x & Hx & Hb)%existsb_exists.
        rewrite List.Forall_forall in Hu. rewrite Hu in Hb; done.
    + rewrite star_loop_spec, tmatch_star. setoid_rewrite IH; [done|lia].
  - destruct s as [|x s].
    { split; [done|]. intros H. exfalso. revert H. case_if; [by inversion 1|]. case_if; [by inversion 1|]. destruct t as [|e t']; [by inversion 1|]. case_if; by inversion 1. }
    destruct (c =? 63) eqn:Eq.
    { destruct (blocked x) eqn:Eb; [split; [done|inversion 1; congruence]|]. rewrite IH by lia. split; [by constructor|]. by inversion 1. }
    destruct (c =? 91) eqn:Ec.
    { destruct (blocked x) eqn:Eb; [split; [done|inversion 1; congruence]|]. destruct (class_matches_spec t x) as [E1 E2].
      destruct (sx_fnmatch_class_matches t x) as [rest matched]. cbn [fst snd] in *. subst rest. unfold class_tok.
      destruct matched; [|split; [done|inversion 1; subst; exfalso; naive_solver]].
      rewrite IH by (pose proof (after_class_length t); lia). split; [constructor; [done|by apply E2|done]|]. by inversion 1. }
    assert (Hch : forall d q, (length q < n)%nat -> (if d =? x then sx_fnmatch_internal n q s else false) = true <-> tmatch (TChar d :: pattern_of q) (x :: s)).
    { intros d q Hq. destruct (d =? x) eqn:E.
      - assert (d = x) as -> by lia. rewrite IH by done. split; [by constructor|]. by inversion 1.
      - split; [done|]. inversion 1; subst. lia. }
    destruct t as [|e t']; [apply (Hch c []); simpl; lia|]. simpl in Hn. case_if; apply Hch; simpl; lia.
Qed.

End fnmatch.

(** The flags are bits of an [int]; no other bit is looked at. *)
Definition FNM_NOESCAPE : Z := 1.
Definition FNM_PATHNAME : Z := 2.
Definition sx_fnmatch (pattern string : list Z) (flags : Z) : bool :=
  sx_fnmatch_internal (negb (Z.land flags FNM_PATHNAME =? 0)) (negb (Z.land flags FNM_NOESCAPE =? 0))
    (S (length pattern)) pattern string.

(** C34. [fnmatch] decides the language of its pattern, whatever the flags: it
    returns 0 exactly for the strings the pattern can be spelled out to.  The
    pattern is read as a list of stars, question marks, classes and characters
    (a backslash quoting the next one unless [FNM_NOESCAPE]); a star stands for
    any string, a question mark for any character, a class for the characters
    and ranges in it, or for all others when it is negated; and with
    [FNM_PATHNAME] only a slash stands for a slash.  [FNM_PERIOD] has no effect. *)
Theorem fnmatch_exact pattern string flags :
  sx_fnmatch pattern string flags = true <->
  tmatch (negb (Z.land flags FNM_PATHNAME =? 0)) (pattern_of (negb (Z.land flags FNM_NOESCAPE =? 0)) pattern) string.
Proof. apply fnmatch_internal_spec. lia. Qed.

(** ** qsort and bsearch *)

Section sorting.
Context {A : Type} (d : A) (compar : A -> A -> Z).

(** Three copies through the scratch element. *)
Definition exchange (l : list A) (i j : Z) : list A := set_at (set_at l i (at_ d l j)) j (at_ d l i).

Definition qsort_inner (count outer : Z) (l : list A) : list A :=
  for_z (outer + 1) count
    (fun inner l => if compar (at_ d l outer) (at_ d l inner) >? 0 then exchange l outer inner else l) l.

(** [scratch]: the element-sized [malloc] succeeded. *)
Definition sx_qsort (scratch : bool) (l : list A) : list A :=
  let count := zlen l in
  if count <? 2 then l
  else if negb scratch then l
  else for_z 0 (count - 1) (qsort_inner count) l.

Definition in_order (a b : A) : Prop := compar a b <= 0.
Hypothesis compar_total : forall a b, compar a b > 0 -> compar b a <= 0.
Hypothesis compar_trans : forall a b c, compar a b <= 0 -> compar b c <= 0 -> compar a c <= 0.

Lemma at_app_mid (l r : list A) x : at_ d (l ++ x :: r) (zlen l) = x.
Proof. unfold at_, zlen. case_if; [lia|]. rewrite Nat2Z.id, app_nth2, Nat.sub_diag by lia. done. Qed.

Lemma split_at (l : list A) i : 0 <= i < zlen l -> exists a b, l = a ++ at_ d l i :: b /\ zlen a = i.
Proof.
  intros Hi. unfold zlen in Hi. exists (take (Z.to_nat i) l), (drop (S (Z.to_nat i)) l). split.
  - rewrite <- (take_drop (Z.to_nat i) l) at 1. f_equal. unfold at_. case_if; [lia|].
    destruct (drop (Z.to_nat i) l) as [|x t] eqn:E; [apply (f_equal length) in E; rewrite length_drop in E; simpl in E; lia|].
    rewrite <- (take_drop (Z.to_nat i) l) at 1. rewrite app_nth2; rewrite length_take_le by lia; [|lia]. rewrite Nat.sub_diag, E. cbn [nth].
    f_equal. rewrite <- Nat.add_1_r, <- drop_drop, E. done.
  - unfold zlen. rewrite length_take. lia.
Qed.

Lemma set_at_mid (l r : list A) x y : set_at (l ++ x :: r) (zlen l) y = l ++ y :: r.
Proof. unfold set_at, zlen. case_if; [lia|]. rewrite Nat2Z.id. by rewrite insert_app_r_alt, Nat.sub_diag by lia. Qed.

Lemma exchange_perm l i j : 0 <= i < j -> j < zlen l -> exchange l i j ≡ₚ l.
Proof.
  intros Hij Hj. destruct (split_at l i) as (a & b & E & Ha); [lia|]. set (x := at_ d l i) in *. unfold exchange. set (y := at_ d l j). fold x.
  assert (Eb : exists b1 b2, b = b1 ++ y :: b2 /\ zlen a + 1 + zlen b1 = j).
  { destruct (split_at l j) as (a' & b' & E' & Ha'); [lia|]. fold y in E'. rewrite E in E'.
    assert (Hp : a ++ x :: b = (a ++ [x]) ++ b) by (by rewrite <- app_assoc). rewrite Hp in E'.
    exists (drop (length (a ++ [x])) a'), b'. unfold zlen in *.
    assert (Hl : (length (a ++ [x]) <= length a')%nat) by (rewrite length_app; simpl; lia).
    split; [|rewrite length_drop, length_app; simpl; lia].
    apply (f_equal (drop (length (a ++ [x])))) in E'. rewrite drop_app_length in E'. rewrite drop_app_le in E' by done. exact E'. }
  destruct Eb as (b1 & b2 & -> & Hb). rewrite E, <- Ha, set_at_mid.
  replace (a ++ y :: b1 ++ y :: b2) with ((a ++ y :: b1) ++ y :: b2) by (by rewrite <- app_assoc).
  replace j with (zlen (a ++ y :: b1)) by (rewrite zlen_app; unfold zlen in *; simpl; lia). rewrite set_at_mid, <- app_assoc.
  cbn [app]. solve_Permutation.
Qed.

Lemma exchange_at l i j k :
  0 <= i < j -> j < zlen l ->
  at_ d (exchange l i j) k = if k =? i then at_ d l j else if k =? j then at_ d l i else at_ d l k.
Proof.
  intros Hij Hj. unfold exchange. rewrite at_set_at by (rewrite zlen_set_at; lia). rewrite at_set_at by lia. case_ifs; done || lia.
Qed.
Lemma zlen_exchange l i j : zlen (exchange l i j) = zlen l.
Proof. unfold exchange. by rewrite !zlen_set_at. Qed.

(** One turn of the outer loop puts the least of the rest at its place. *)
Lemma inner_ok l outer :
  0 <= outer < zlen l - 1 ->
  let l' := qsort_inner (zlen l) outer l in
  l' ≡ₚ l /\ zlen l' = zlen l /\ (forall k, 0 <= k < outer -> at_ d l' k = at_ d l k) /\
  (forall k, outer < k < zlen l -> in_order (at_ d l' outer) (at_ d l' k)) /\
  (forall k, outer <= k < zlen l -> exists k', outer <= k' < zlen l /\ at_ d l' k = at_ d l k').
Proof.
  intros Ho. unfold qsort_inner.
  apply (for_z_ind (fun j l' => l' ≡ₚ l /\ zlen l' = zlen l /\ (forall k, 0 <= k < outer -> at_ d l' k = at_ d l k) /\
    (forall k, outer < k < j -> in_order (at_ d l' outer) (at_ d l' k)) /\
    (forall k, outer <= k < zlen l -> exists k', outer <= k' < zlen l /\ at_ d l' k = at_ d l k'))); [lia| |].
  - split_and!; [done..|intros; lia|]. intros k Hk. by exists k.
  - intros j l' Hj (P1 & P2 & P3 & P4 & P5). destruct (compar (at_ d l' outer) (at_ d l' j) >? 0) eqn:E.
    + assert (HX : forall k, at_ d (exchange l' outer j) k = if k =? outer then at_ d l' j else if k =? j then at_ d l' outer else at_ d l' k)
        by (intros k; apply exchange_at; lia).
      split_and!.
      * rewrite exchange_perm by lia. done.
      * by rewrite zlen_exchange.
      * intros k Hk. rewrite HX. case_ifs; try lia. by apply P3.
      * intros k Hk. rewrite !HX, Z.eqb_refl. unfold in_order in *. destruct (k =? outer) eqn:?; [lia|]. destruct (k =? j) eqn:?.
        -- apply compar_total. lia.
        -- apply (compar_trans _ (at_ d l' outer)); [apply compar_total; lia|apply P4; lia].
      * intros k Hk. rewrite HX. case_ifs; apply P5; lia.
    + split_and!; [done..| |done]. intros k Hk. destruct (decide (k = j)) as [->|]; [unfold in_order; lia|]. apply P4. lia.
Qed.

Lemma qsort_ok l :
  let l' := sx_qsort true l in
  l' ≡ₚ l /\ forall i j, 0 <= i < j -> j < zlen l -> in_order (at_ d l' i) (at_ d l' j).
Proof.
  unfold sx_qsort. destruct (zlen l <? 2) eqn:E2; [split; [done|intros; lia]|]. cbn [negb].
  assert (H : (fun n l' => l' ≡ₚ l /\ zlen l' = zlen l /\
    forall i j, 0 <= i < n -> i < j < zlen l -> in_order (at_ d l' i) (at_ d l' j)) (zlen l - 1) (for_z 0 (zlen l - 1) (qsort_inner (zlen l)) l)).
  { apply for_z_ind; [lia|split_and!; [done..|intros; lia]|]. intros outer l' Ho (P1 & P2 & P3). rewrite <- P2 in *.
    destruct (inner_ok l' outer ltac:(lia)) as (I1 & I2 & I3 & I4 & I5). rewrite P2 in *. split_and!; [by rewrite I1|done|].
    intros i j Hi Hj. destruct (decide (i = outer)) as [->|]; [apply I4; lia|]. rewrite (I3 i) by lia.
    destruct (decide (j < outer)); [rewrite (I3 j) by lia; apply P3; lia|]. destruct (I5 j ltac:(lia)) as (k' & Hk' & ->). apply P3; lia. }
  destruct H as (H1 & _ & H3). split; [done|]. intros i j Hi Hj. apply H3; lia.
Qed.

(** [qsort] sorts: with a comparison that is a total preorder the result is
    a permutation of the array in which no element comes before a smaller one;
    when the scratch element cannot be allocated the array is left as it was. *)
Theorem qsort_sorts l :
  (sx_qsort true l ≡ₚ l /\ forall i j, 0 <= i < j -> j < zlen l -> in_order (at_ d (sx_qsort true l) i) (at_ d (sx_qsort true l) j)) /\
  sx_qsort false l = l.
Proof. split; [apply qsort_ok|]. unfold sx_qsort. by case_if. Qed.
End sorting.

Lemma qsort_sorts_witness :
  sx_qsort 0 (fun a b => a - b) true [3; 1; 2] ≡ₚ [3; 1; 2] /\ sx_qsort 0 (fun a b => a - b) true [3; 1; 2] = [1; 2; 3].
Proof.
  split; [|reflexivity].
  refine (proj1 (proj1 (qsort_sorts 0 (fun a b => a - b) _ _ [3; 1; 2]))); intros; lia.
Defined.

Section searching.
Context {K A : Type} (d : A) (compar : K -> A -> Z).

(** The index of the element found; [Some None] is the null pointer and [None]
    lack of fuel. *)
Fixpoint bsearch_loop (n : nat) (key : K) (l : list A) (left right : Z) : option (option Z) :=
  match n with
  | O => None
  | S n =>
      if left <? right then
        let mid := left + (right - left) / 2 in
        let result := compar key (at_ d l mid) in
        if result =? 0 then Some (Some mid)
        else if result <? 0 then bsearch_loop n key l left mid
        else bsearch_loop n key l (mid + 1) right
      else Some None
  end.
Definition sx_bsearch (key : K) (l : list A) : option (option Z) := bsearch_loop (S (length l)) key l 0 (zlen l).

(** The array is sorted for the key: what is below it comes first. *)
Definition sorted_for (key : K) (l : list A) : Prop :=
  forall i j, 0 <= i < j -> j < zlen l -> compar key (at_ d l j) >= 0 -> compar key (at_ d l i) > 0 \/ compar key (at_ d l i) = 0 /\ compar key (at_ d l j) = 0.

Lemma bsearch_loop_ok n key l left right :
  sorted_for key l -> 0 <= left <= right -> right <= zlen l -> right - left < Z.of_nat n ->
  (forall i, 0 <= i < left -> compar key (at_ d l i) > 0) ->
  (forall i, right <= i < zlen l -> compar key (at_ d l i) < 0) ->
  exists r, bsearch_loop n key l left right = Some r /\
    match r with
    | Some i => 0 <= i < zlen l /\ compar key (at_ d l i) = 0
    | None => forall i, 0 <= i < zlen l -> compar key (at_ d l i) <> 0
    end.
Proof.
  intros Hs. revert left right. induction n as [|n IH]; intros left right Hl Hr Hn HL HR; [lia|]. cbn [bsearch_loop].
  destruct (left <? right) eqn:E.
  - set (mid := left + (right - left) / 2). assert (Hm : left <= mid < right) by (unfold mid; Z.div_mod_to_equations; lia).
    destruct (compar key (at_ d l mid) =? 0) eqn:E0; [exists (Some mid); split; [done|split; lia]|].
    destruct (compar key (at_ d l mid) <? 0) eqn:E1.
    + apply IH; try lia; [done|]. intros i Hi. destruct (decide (i = mid)) as [->|]; [lia|].
      destruct (Z_lt_le_dec (compar key (at_ d l i)) 0) as [|Hge]; [done|]. pose proof (Hs mid i ltac:(lia) ltac:(lia) ltac:(lia)). lia.
    + apply IH; try lia; [|done]. intros i Hi. destruct (decide (i = mid)) as [->|]; [lia|].
      pose proof (Hs i mid ltac:(lia) ltac:(lia) ltac:(lia)). lia.
  - exists None. split; [done|]. intros i Hi. destruct (decide (i < left)) as [H|H]; [specialize (HL i ltac:(lia))|specialize (HR i ltac:(lia))]; lia.
Qed.

Lemma bsearch_ok key l :
  sorted_for key l ->
  exists r, sx_bsearch key l = Some r /\
    match r with
    | Some i => 0 <= i < zlen l /\ compar key (at_ d l i) = 0
    | None => forall i, 0 <= i < zlen l -> compar key (at_ d l i) <> 0
    end.
Proof. intros Hs. apply bsearch_loop_ok; [done|unfold zlen; lia..|intros; lia|intros; lia]. Qed.
End searching.
