(* ===== verification/LibcInet.v ===== *)
(** * Internet addresses in the C runtime

    Byte order and dotted addresses of [posix.c], on top of its own [strtoul]
    and [snprintf]. *)

From S2P Require Import Prelude LibcTime LibcNum LibcFormat.

Definition sx_htonl (v : Z) : Z :=
  Z.lor (Z.lor (Z.lor (Z.shiftl (Z.land v 255) 24) (Z.shiftl (Z.land v 65280) 8))
               (Z.shiftr (Z.land v 16711680) 8)) (Z.shiftr (Z.land v 4278190080) 24).
Definition sx_htons (v : Z) : Z := u16 (Z.lor (Z.shiftl (Z.land v 255) 8) (Z.shiftr (Z.land v 65280) 8)).
Definition sx_ntohl (v : Z) : Z := sx_htonl v.
Definition sx_ntohs (v : Z) : Z := sx_htons v.

Definition INADDR_NONE : Z := 4294967295.
Definition DOT : Z := 46.

(** The loop: the parts read, [None] for the error return. *)
Fixpoint inet_loop (n : nat) (cursor : list Z) (parts : list Z) : option (list Z) :=
  match n with
  | O => Some parts
  | S n =>
      let '(value, end_, _) := sx_strtoul cursor 10 in
      if (zlen end_ =? zlen cursor) || (value >? 255) then None
      else
        let parts := parts ++ [value] in
        match end_ with
        | [] => Some parts
        | c :: t => if negb (c =? DOT) then None else inet_loop n t parts
        end
  end.
Definition join_parts (p : list Z) : Z :=
  Z.lor (Z.lor (Z.lor (u32 (Z.shiftl (at_ 0 p 0) 24)) (u32 (Z.shiftl (at_ 0 p 1) 16)))
               (u32 (Z.shiftl (at_ 0 p 2) 8))) (at_ 0 p 3).
Definition sx_inet_addr (text : list Z) : Z :=
  match inet_loop 4 text [] with
  | None => INADDR_NONE
  | Some parts => if negb (zlen parts =? 4) then INADDR_NONE else join_parts parts
  end.

Definition octet (v i : Z) : Z := Z.land (Z.shiftr v i) 255.
(** ["%u.%u.%u.%u"] with its terminator. *)
Definition dotted_format : list Z := [37; 117; 46; 37; 117; 46; 37; 117; 46; 37; 117; 0].
Definition dotted_args (v : Z) : list va :=
  [VInt (octet v 24); VInt (octet v 16); VInt (octet v 8); VInt (octet v 0)].

(** The static buffer after the call, from any contents before it. *)
Definition sx_inet_ntoa (buffer : list Z) (v : Z) : option (list Z) :=
  match sx_vsnprintf buffer 16 dotted_format (dotted_args v) with
  | Some (buffer, _) => Some buffer
  | None => None
  end.

(** The status and the address stored, in network order. *)
Definition sx_inet_pton (family : Z) (source : list Z) : Z * option Z :=
  if negb (family =? 1) then (-1, None)
  else
    let value := sx_inet_addr source in
    if (value =? INADDR_NONE) && negb (bool_decide (source = [50; 53; 53; 46; 50; 53; 53; 46; 50; 53; 53; 46; 50; 53; 53]))
    then (0, None)
    else (1, Some (u32 (sx_htonl value))).

(** [source] is the [unsigned long] read at the pointer: the four bytes of the
    address and the four after them, which [sx_ntohl] masks away. [None] is the
    null pointer. *)
Definition sx_inet_ntop (family source : Z) (destination : list Z) (size : Z) : option (list Z) :=
  if negb (family =? 1) || (size <? 16) then None
  else
    let value := sx_ntohl source in
    match sx_vsnprintf destination size dotted_format (dotted_args value) with
    | Some (destination, _) => Some destination
    | None => None
    end.

(** ** Facts *)

Lemma octet_range v i : 0 <= octet v i < 256.
Proof.
  unfold octet. change 255 with (Z.ones 8). rewrite Z.land_ones by lia. apply Z.mod_pos_bound. lia.
Qed.


(** A byte of a word, in place. *)
Lemma land_byte v k : 0 <= k -> Z.land v (255 * 2 ^ k) = v / 2 ^ k mod 256 * 2 ^ k.
Proof.
  intros Hk. change 255 with (Z.ones 8). change 256 with (2 ^ 8). rewrite <- (Z.shiftl_mul_pow2 (Z.ones 8)) by done.
  rewrite <- Z.shiftr_div_pow2, <- (Z.land_ones (Z.shiftr v k) 8), <- Z.shiftl_mul_pow2 by lia.
  apply Z.bits_inj'. intros n Hn. rewrite Z.land_spec, !Z.shiftl_spec, Z.land_spec by done.
  destruct (decide (n < k)); [rewrite !(Z.testbit_neg_r _ (n - k)) by lia; by rewrite andb_false_r|].
  rewrite Z.shiftr_spec by lia. by replace (n - k + k) with n by lia.
Qed.

(** Or of disjoint bits is a sum. *)
Lemma lor_add a b k : 0 <= k -> 0 <= b < 2 ^ k -> Z.lor (a * 2 ^ k) b = a * 2 ^ k + b.
Proof.
  intros Hk Hb. pose proof (Z.add_lor_land (a * 2 ^ k) b) as HA. enough (Z.land (a * 2 ^ k) b = 0) by lia. clear HA.
  rewrite <- Z.shiftl_mul_pow2 by done. apply Z.bits_inj'. intros n Hn. rewrite Z.bits_0, Z.land_spec, Z.shiftl_spec by done.
  destruct (decide (n < k)); [by rewrite Z.testbit_neg_r by lia|].
  replace (Z.testbit b n) with false; [apply andb_false_r|]. symmetry.
  destruct (decide (b = 0)) as [->|]; [apply Z.bits_0|]. apply Z.bits_above_log2; [lia|].
  apply Z.log2_lt_pow2; [lia|]. apply (Z.lt_le_trans _ (2 ^ k)); [lia|]. apply Z.pow_le_mono_r; lia.
Qed.

(** Four octets of a word. *)
Definition word_of (a b c d : Z) : Z := a * 16777216 + b * 65536 + c * 256 + d.

Lemma lor_octets a b c d :
  0 <= a < 256 -> 0 <= b < 256 -> 0 <= c < 256 -> 0 <= d < 256 ->
  Z.lor (Z.lor (Z.lor (a * 16777216) (b * 65536)) (c * 256)) d = word_of a b c d.
Proof.
  intros Ha Hb Hc Hd. unfold word_of.
  change (a * 16777216) with (a * 2 ^ 24). rewrite (lor_add a (b * 65536) 24) by (change (2 ^ 24) with 16777216; lia). change (2 ^ 24) with 16777216.
  replace (a * 16777216 + b * 65536) with ((a * 256 + b) * 2 ^ 16) by (change (2 ^ 16) with 65536; lia).
  rewrite (lor_add (a * 256 + b) (c * 256) 16) by (change (2 ^ 16) with 65536; lia). change (2 ^ 16) with 65536.
  replace ((a * 256 + b) * 65536 + c * 256) with ((a * 65536 + b * 256 + c) * 2 ^ 8) by (change (2 ^ 8) with 256; lia).
  rewrite lor_add by (change (2 ^ 8) with 256; lia). change (2 ^ 8) with 256. lia.
Qed.

Lemma octet_eq v i : 0 <= i -> octet v i = v / 2 ^ i mod 256.
Proof. intros Hi. unfold octet. change 255 with (Z.ones 8). by rewrite Z.land_ones, Z.shiftr_div_pow2 by lia. Qed.

Lemma octets_word v : 0 <= v < 4294967296 -> word_of (octet v 24) (octet v 16) (octet v 8) (octet v 0) = v.
Proof.
  intros Hv. rewrite !octet_eq by lia. change (2 ^ 24) with 16777216. change (2 ^ 16) with 65536. change (2 ^ 8) with 256. change (2 ^ 0) with 1.
  unfold word_of. Z.div_mod_to_equations; lia.
Qed.

Lemma htonl_eq v : sx_htonl v = word_of (octet v 0) (octet v 8) (octet v 16) (octet v 24).
Proof.
  rewrite <- lor_octets by apply octet_range. unfold sx_htonl.
  pose proof (land_byte v 0 ltac:(lia)) as E0. pose proof (land_byte v 8 ltac:(lia)) as E8.
  pose proof (land_byte v 16 ltac:(lia)) as E16. pose proof (land_byte v 24 ltac:(lia)) as E24.
  rewrite <- octet_eq in E0, E8, E16, E24 by lia.
  change (255 * 2 ^ 0) with 255 in E0. change (255 * 2 ^ 8) with 65280 in E8. change (255 * 2 ^ 16) with 16711680 in E16. change (255 * 2 ^ 24) with 4278190080 in E24.
  change (2 ^ 0) with 1 in E0. change (2 ^ 8) with 256 in E8. change (2 ^ 16) with 65536 in E16. change (2 ^ 24) with 16777216 in E24.
  rewrite E0, E8, E16, E24, !Z.shiftl_mul_pow2, !Z.shiftr_div_pow2 by lia.
  change (2 ^ 24) with 16777216. change (2 ^ 8) with 256.
  replace (octet v 16 * 65536 / 256) with (octet v 16 * 256) by (Z.div_mod_to_equations; lia).
  replace (octet v 24 * 16777216 / 16777216) with (octet v 24) by (Z.div_mod_to_equations; lia).
  by rewrite <- !Z.mul_assoc.
Qed.

(** Only the low four bytes of the argument count. *)
Lemma ntohl_low h j : sx_ntohl (h + 4294967296 * j) = sx_ntohl h.
Proof.
  unfold sx_ntohl. rewrite !htonl_eq. f_equal; rewrite !octet_eq by lia; change (2 ^ 24) with 16777216; change (2 ^ 16) with 65536; change (2 ^ 8) with 256; change (2 ^ 0) with 1;
    Z.div_mod_to_equations; lia.
Qed.

Lemma htonl_involutive v : 0 <= v < 4294967296 -> sx_ntohl (sx_htonl v) = v /\ 0 <= sx_htonl v < 4294967296.
Proof.
  intros Hv. pose proof (octet_range v 0). pose proof (octet_range v 8). pose proof (octet_range v 16). pose proof (octet_range v 24).
  rewrite (htonl_eq v). assert (Hr : 0 <= word_of (octet v 0) (octet v 8) (octet v 16) (octet v 24) < 4294967296) by (unfold word_of; lia).
  split; [|exact Hr]. unfold sx_ntohl. rewrite htonl_eq.
  assert (HO : forall a b c d, 0 <= a < 256 -> 0 <= b < 256 -> 0 <= c < 256 -> 0 <= d < 256 ->
    octet (word_of a b c d) 0 = d /\ octet (word_of a b c d) 8 = c /\ octet (word_of a b c d) 16 = b /\ octet (word_of a b c d) 24 = a).
  { clear. intros a b c d Ha Hb Hc Hd. rewrite !octet_eq by lia. change (2 ^ 24) with 16777216. change (2 ^ 16) with 65536. change (2 ^ 8) with 256. change (2 ^ 0) with 1.
    unfold word_of. split_and!; Z.div_mod_to_equations; lia. }
  destruct (HO (octet v 0) (octet v 8) (octet v 16) (octet v 24)) as (-> & -> & -> & ->); [done..|]. by apply octets_word.
Qed.

(** ** Dotted addresses *)

Definition dotted (a b c d : Z) : list Z := dec a ++ DOT :: dec b ++ DOT :: dec c ++ DOT :: dec d.

Definition dotted_items (v : Z) : list item :=
  [Conv false false 0 None (Unsigned (octet v 24)); Lit DOT; Conv false false 0 None (Unsigned (octet v 16)); Lit DOT;
   Conv false false 0 None (Unsigned (octet v 8)); Lit DOT; Conv false false 0 None (Unsigned (octet v 0))].

Lemma dotted_items_text v :
  flat_map render (dotted_items v) = dotted (octet v 24) (octet v 16) (octet v 8) (octet v 0) /\ forallb item_ok (dotted_items v) = true.
Proof.
  pose proof (octet_range v 0). pose proof (octet_range v 8). pose proof (octet_range v 16). pose proof (octet_range v 24).
  assert (Hr : forall z, render (Conv false false 0 None (Unsigned z)) = dec z).
  { intros z. cbn [render conv_text]. unfold padded, with_digits. cbn [app]. pose proof (print_length z 10 false) as Hl. fold (dec z) in Hl.
    by replace (Z.to_nat (0 - zlen (dec z))) with 0%nat by lia. }
  split.
  - unfold dotted_items, dotted. cbn [flat_map]. rewrite !Hr. cbn [render app]. by rewrite app_nil_r.
  - unfold dotted_items. cbn [forallb item_ok conv_ok]. unfold DOT, INT_MAX. lia.
Qed.

Lemma dec_octet_length z : 0 <= z < 256 -> 1 <= zlen (dec z) <= 3 /\ Forall (fun c => c <> 0) (dec z).
Proof.
  intros Hz. assert (HA : forallb (fun i => let t := dec (Z.of_nat i) in (1 <=? zlen t) && (zlen t <=? 3) && forallb (fun c => negb (c =? 0)) t) (seq 0 256) = true)
    by (vm_compute; reflexivity).
  rewrite forallb_forall in HA. specialize (HA (Z.to_nat z)). rewrite in_seq in HA. specialize (HA ltac:(lia)). cbv zeta in HA.
  rewrite Z2Nat.id in HA by lia. rewrite !andb_true_iff, !Z.leb_le, forallb_forall in HA. destruct HA as [Hl Hf]. split; [done|].
  apply List.Forall_forall. intros c Hc. specialize (Hf c Hc). lia.
Qed.

Lemma strtoul_octet z rest : 0 <= z < 256 -> stops rest -> sx_strtoul (dec z ++ rest) 10 = (z, rest, None).
Proof. intros Hz Hs. unfold sx_strtoul, dec. rewrite parse_print by (done || unfold ULONG_MAX; lia). done. Qed.

Lemma inet_loop_octet n z rest parts :
  0 <= z < 256 ->
  inet_loop (S n) (dec z ++ DOT :: rest) parts = inet_loop n rest (parts ++ [z]).
Proof.
  intros Hz. cbn [inet_loop]. rewrite strtoul_octet by (done || (split; [reflexivity|split; discriminate])).
  pose proof (dec_octet_length z Hz) as [Hl _]. rewrite zlen_app.
  destruct ((zlen (DOT :: rest) =? zlen (dec z) + zlen (DOT :: rest)) || (z >? 255)) eqn:?; [lia|]. done.
Qed.

Lemma inet_addr_dotted a b c d :
  0 <= a < 256 -> 0 <= b < 256 -> 0 <= c < 256 -> 0 <= d < 256 -> sx_inet_addr (dotted a b c d) = word_of a b c d.
Proof.
  intros Ha Hb Hc Hd. unfold sx_inet_addr, dotted. rewrite !inet_loop_octet by done.
  pose proof (dec_octet_length d Hd) as [Hl _]. cbn [inet_loop app]. rewrite <- (app_nil_r (dec d)), strtoul_octet by done.
  rewrite app_nil_r. destruct ((zlen [] =? zlen (dec d)) || (d >? 255)) eqn:E; [change (zlen (@nil Z)) with 0 in E; lia|].
  change (zlen ([a; b; c] ++ [d]) =? 4) with true. cbn [negb app].
  unfold join_parts. change (at_ 0 [a; b; c; d] 0) with a. change (at_ 0 [a; b; c; d] 1) with b.
  change (at_ 0 [a; b; c; d] 2) with c. change (at_ 0 [a; b; c; d] 3) with d.
  rewrite !Z.shiftl_mul_pow2 by lia. change (2 ^ 24) with 16777216. change (2 ^ 16) with 65536. change (2 ^ 8) with 256.
  rewrite !u32_id by lia. by apply lor_octets.
Qed.

(** Dotted addresses round trip: for every 32-bit address [inet_ntoa] fits
    its 16-byte buffer, whatever it held, and [inet_addr] reads the text back;
    [inet_pton] and [inet_ntop] do so through network order, which is its own
    inverse, whatever lies after the four bytes [inet_ntop] is given. *)
Theorem inet_roundtrip v buffer :
  0 <= v < 4294967296 -> zlen buffer = 16 ->
  exists b, sx_inet_ntoa buffer v = Some b /\ sx_inet_addr (c_string b) = v /\
    (v <> INADDR_NONE -> sx_inet_pton 1 (c_string b) = (1, Some (sx_htonl v))) /\
    (forall above, sx_inet_ntop 1 (sx_htonl v + 4294967296 * above) buffer 16 = Some b).
Proof.
  intros Hv Hb. destruct (dotted_items_text v) as [Et Hok]. set (t := dotted _ _ _ _) in Et.
  pose proof (octet_range v 0) as H0. pose proof (octet_range v 8) as H8. pose proof (octet_range v 16) as H16. pose proof (octet_range v 24) as H24.
  assert (Ht : zlen t <= 15 /\ Forall (fun c => c <> 0) t).
  { pose proof (dec_octet_length _ H0) as [? F0]. pose proof (dec_octet_length _ H8) as [? F8]. pose proof (dec_octet_length _ H16) as [? F16]. pose proof (dec_octet_length _ H24) as [? F24].
    unfold t, dotted. split.
    - rewrite !zlen_app. assert (Hz : forall l : list Z, zlen (DOT :: l) = 1 + zlen l) by (intros l; unfold zlen; simpl; lia). rewrite !Hz, !zlen_app, !Hz, !zlen_app, !Hz. lia.
    - repeat (apply Forall_app; split; [done|]; apply Forall_cons; split; [discriminate|]). done. }
  destruct Ht as [Hl Hnz].
  pose proof (vsnprintf_text (dotted_items v) [] [] buffer 16 Hok (eq_sym Hb)) as HS. cbv zeta in HS. rewrite Et in HS.
  change (flat_map show (dotted_items v) ++ [0]) with dotted_format in HS.
  change (flat_map item_args (dotted_items v) ++ []) with (dotted_args v) in HS. cbn [Z.eqb] in HS.
  rewrite (take_ge t) in HS by (unfold zlen in Hl; change (Z.to_nat (16 - 1)) with 15%nat; lia). eexists. unfold sx_inet_ntoa, sx_inet_ntop. rewrite HS.
  split; [done|]. rewrite c_string_app by done.
  assert (Ea : sx_inet_addr t = v) by (unfold t; rewrite inet_addr_dotted by done; by apply octets_word).
  destruct (htonl_involutive v Hv) as [Hi Hr]. split_and!; [done| |].
  - intros Hne. unfold sx_inet_pton. rewrite Ea. cbn [negb Z.eqb Pos.eqb]. destruct (v =? INADDR_NONE) eqn:?; [lia|]. cbn [andb]. by rewrite u32_id.
  - intros above. cbn [negb Z.eqb Pos.eqb orb Z.ltb Z.compare Pos.compare Pos.compare_cont]. rewrite ntohl_low, Hi, HS. done.
Qed.

Lemma inet_roundtrip_witness :
  exists b, sx_inet_ntoa (replicate 16 7) 3232235777 = Some b /\ sx_inet_addr (c_string b) = 3232235777.
Proof. destruct (inet_roundtrip 3232235777 (replicate 16 7)) as (b & H1 & H2 & _); [lia|reflexivity|]. exists b. split; assumption. Defined.

(** [inet_addr] accepts more than addresses: text after the fourth number
    when a dot comes first, and blanks before a number. *)
Theorem inet_addr_accepts_garbage :
  sx_inet_addr [49; 46; 50; 46; 51; 46; 52; 46; 120; 121] = 16909060 /\
  sx_inet_addr [32; 49; 46; 50; 46; 51; 46; 9; 52] = 16909060.
Proof. split; vm_compute; reflexivity. Qed.
