(* ===== verification/MinesScores.v ===== *)
(** * Minesweeper: the best times (userland/mines_board.c)

    The table of best times and the file it is kept in.  The file is written
    with the runtime's [fprintf] and read line by line with [fgets] into a
    buffer of 64 bytes; whether the path can be found and opened is part of the
    store. *)

From S2P Require Import Prelude Mines LibcTime LibcNum LibcFormat.

Definition MINES_COUNTER_MAX : Z := 999.

Definition k_score_keys : list (list Z) :=
  [ [98; 101; 103; 105; 110; 110; 101; 114];                             (* beginner *)
    [105; 110; 116; 101; 114; 109; 101; 100; 105; 97; 116; 101];         (* intermediate *)
    [101; 120; 112; 101; 114; 116] ].                                    (* expert *)

(** The file ([None] when there is none) and whether [scores_path] and [fopen]
    succeed for reading and for writing. *)
Record scores_store := mk_store { ss_file : option (list Z); ss_reads : bool; ss_writes : bool }.

(** [g_best] and the store. *)
Definition scores : Type := list Z * scores_store.
Definition no_scores : list Z := [0; 0; 0].

Definition mines_scores_best (s : scores) (level : Z) : Z :=
  if (level <? 0) || (level >=? MINES_LEVEL_COUNT) then 0 else at_ 0 s.1 level.

(** ** Writing *)

(** [fprintf] to a stream that takes every character. *)
Definition fprintf_text (format : list Z) (args : list va) : list Z :=
  match sx_vformat (fun c s => (s ++ [c], true)) format args [] with
  | Some (s, _) => s
  | None => []
  end.

(** The comment line, ["%s=%d\n"]. *)
Definition scores_header : list Z :=
  [35; 32; 83; 97; 118; 97; 110; 88; 80; 32; 77; 105; 110; 101; 115; 119; 101; 101; 112; 101; 114; 32; 98; 101;
   115; 116; 32; 116; 105; 109; 101; 115; 44; 32; 105; 110; 32; 115; 101; 99; 111; 110; 100; 115; 10; 0].
Definition score_format : list Z := [37; 115; 61; 37; 100; 10; 0].

Definition scores_text (best : list Z) : list Z :=
  for_z 0 MINES_LEVEL_COUNT
    (fun level text =>
       if at_ 0 best level >? 0
       then text ++ fprintf_text score_format [VStr (Some (at_ [] k_score_keys level)); VInt (at_ 0 best level)]
       else text)
    (fprintf_text scores_header []).

Definition mines_scores_save (s : scores) : scores :=
  if ss_writes s.2 then (s.1, mk_store (Some (scores_text s.1)) (ss_reads s.2) (ss_writes s.2)) else s.

(** ** Reading *)

Fixpoint trim_front (text : list Z) : list Z :=
  match text with
  | c :: t => if (c =? 32) || (c =? 9) then trim_front t else text
  | [] => []
  end.
(** The loop from the end, on the reversed text. *)
Fixpoint trim_back (text : list Z) : list Z :=
  match text with
  | c :: t => if negb (c =? 32) && negb (c =? 9) && negb (c =? 13) && negb (c =? 10) then text else trim_back t
  | [] => []
  end.
Definition mines_trim (text : list Z) : list Z := rev (trim_back (rev (trim_front text))).

(** At most [n] characters, to the end of the line. *)
Fixpoint fgets (n : nat) (text : list Z) : list Z * list Z :=
  match n, text with
  | O, _ => ([], text)
  | _, [] => ([], [])
  | S n, c :: t => if c =? 10 then ([c], t) else let '(line, rest) := fgets n t in (c :: line, rest)
  end.

(** [strchr(line, '=')]: what is before it and what is after. *)
Fixpoint split_at (b : Z) (line : list Z) : option (list Z * list Z) :=
  match line with
  | [] => None
  | c :: t => if c =? b then Some ([], t)
              else match split_at b t with Some (before, after) => Some (c :: before, after) | None => None end
  end.

(** The search of the key, from a level on. *)
Fixpoint find_level (keys : list (list Z)) (level : Z) (key : list Z) : option Z :=
  match keys with
  | [] => None
  | k :: t => if bool_decide (key = k) then Some level else find_level t (level + 1) key
  end.

(** The body of the loop of [mines_scores_load]. *)
Definition score_line (best line : list Z) : list Z :=
  match split_at 61 line with
  | None => best
  | Some (before, after) =>
      if (at_ 0 line 0 =? 35) || (at_ 0 line 0 =? 59) then best
      else
        match find_level k_score_keys 0 (mines_trim before) with
        | None => best
        | Some level =>
            let seconds := sx_atoi (mines_trim after) in
            if (seconds >? 0) && (seconds <=? MINES_COUNTER_MAX) then set_at best level seconds else best
        end
  end.
(** Every line takes a character at least. *)
Fixpoint load_loop (n : nat) (text best : list Z) : list Z :=
  match n, text with
  | O, _ | _, [] => best
  | S n, _ => let '(line, rest) := fgets 63 text in load_loop n rest (score_line best (c_string line))
  end.
Definition load_text (text : list Z) : list Z := load_loop (length text) text no_scores.

Definition mines_scores_load (s : scores) : scores :=
  match ss_file s.2 with
  | Some text => if ss_reads s.2 then (load_text text, s.2) else (no_scores, s.2)
  | None => (no_scores, s.2)
  end.

(** ** Recording *)

Definition mines_scores_record (level seconds : Z) (s : scores) : scores * bool :=
  if (level <? 0) || (level >=? MINES_LEVEL_COUNT) || (seconds <=? 0) then (s, false)
  else
    let seconds := if seconds >? MINES_COUNTER_MAX then MINES_COUNTER_MAX else seconds in
    if negb (at_ 0 s.1 level =? 0) && (seconds >=? at_ 0 s.1 level) then (s, false)
    else (mines_scores_save (set_at s.1 level seconds, s.2), true).

Definition mines_scores_reset (s : scores) : scores := mines_scores_save (no_scores, s.2).

(** ** What is written *)

Definition score_entry (level v : Z) : list Z := at_ [] k_score_keys level ++ 61 :: dec v ++ [10].
Definition header_line : list Z := take 45 scores_header.

Lemma put_append s out : put (fun c (s : list Z) => (s ++ [c], true)) s out = s ++ out.
Proof.
  revert s. induction out as [|c out IH]; intros s; [by rewrite app_nil_r|]. cbn [put fold_left fst]. unfold put in IH.
  by rewrite IH, <- app_assoc.
Qed.

Lemma fprintf_items items :
  forallb item_ok items = true ->
  fprintf_text (flat_map show items ++ [0]) (flat_map item_args items) = flat_map render items.
Proof.
  intros Hok. unfold fprintf_text, sx_vformat. rewrite <- (app_nil_r (flat_map item_args items)).
  rewrite format_loop_show by (done || (rewrite length_app; simpl; lia)). by rewrite put_append.
Qed.

Lemma fprintf_score level v : 0 < v <= MINES_COUNTER_MAX ->
  fprintf_text score_format [VStr (Some (at_ [] k_score_keys level)); VInt v] = score_entry level v.
Proof.
  intros Hv. unfold MINES_COUNTER_MAX in Hv.
  pose proof (fprintf_items [Conv false false 0 None (Text (Some (at_ [] k_score_keys level))); Lit 61; Conv false false 0 None (Signed v); Lit 10]) as HF.
  assert (Hp : forall t, padded false false 0 t = t).
  { intros t. unfold padded. pose proof (zlen_nonneg t). by replace (Z.to_nat (0 - zlen t)) with 0%nat by lia. }
  cbn [flat_map render conv_text app] in HF. rewrite !Hp in HF. unfold with_digits in HF.
  destruct (v <? 0) eqn:?; [lia|]. rewrite Z.abs_eq in HF by lia. cbn [app] in HF. apply HF.
  cbn [forallb item_ok conv_ok]. unfold INT_MAX. lia.
Qed.

Lemma scores_text_eq best : zlen best = 3 -> Forall (fun v => 0 <= v <= MINES_COUNTER_MAX) best ->
  scores_text best = header_line ++ concat (map (fun level => if at_ 0 best level >? 0 then score_entry level (at_ 0 best level) else []) [0; 1; 2]).
Proof.
  intros Hl Hb. assert (Hr : forall level, at_ 0 best level <= MINES_COUNTER_MAX).
  { intros level. destruct (decide (0 <= level < 3)).
    - rewrite List.Forall_forall in Hb. apply Hb. unfold at_, zlen in *. case_if; [lia|]. apply nth_In. lia.
    - unfold MINES_COUNTER_MAX. destruct (decide (level < 0)); [rewrite at_neg|rewrite at_out]; lia. }
  unfold scores_text. change (for_z 0 MINES_LEVEL_COUNT) with (fun (f : Z -> list Z -> list Z) s => f 2 (f 1 (f 0 s))). cbv beta.
  change (fprintf_text scores_header []) with header_line. cbn [map concat]. rewrite app_nil_r.
  pose proof (Hr 0). pose proof (Hr 1). pose proof (Hr 2).
  destruct (at_ 0 best 0 >? 0) eqn:?, (at_ 0 best 1 >? 0) eqn:?, (at_ 0 best 2 >? 0) eqn:?; rewrite ?fprintf_score by lia;
    cbn [app]; rewrite ?app_nil_r, <- ?app_assoc; done.
Qed.

(** ** What is read *)

(** A line the buffer holds whole. *)
Definition short_line (l : list Z) : Prop :=
  exists t, l = t ++ [10] /\ (length t < 63)%nat /\ Forall (fun c => c <> 10 /\ c <> 0) t.

Lemma fgets_line n t rest : (length t < n)%nat -> Forall (fun c => c <> 10 /\ c <> 0) t ->
  fgets n ((t ++ [10]) ++ rest) = (t ++ [10], rest).
Proof.
  revert n. induction t as [|c t IH]; intros n Hn Hf; (destruct n as [|n]; [simpl in Hn; lia|]); [done|].
  inversion Hf as [|? ? [Hc _] Hf']; subst. cbn [app fgets]. destruct (c =? 10) eqn:?; [lia|]. rewrite IH; [done|simpl in Hn; lia|done].
Qed.

Lemma c_string_id l : Forall (fun c => c <> 0) l -> c_string l = l.
Proof. induction 1 as [|c l Hc Hl IH]; [done|]. cbn [c_string]. case_if; [lia|]. by rewrite IH. Qed.

Lemma load_lines ls : Forall short_line ls -> forall n best,
  (length (concat ls) <= n)%nat -> load_loop n (concat ls) best = fold_left score_line ls best.
Proof.
  induction 1 as [|l ls (t & -> & Ht & Hf) Hls IH]; intros n best Hn; [by destruct n|].
  cbn [concat] in *. rewrite !length_app in Hn. cbn [length] in Hn. destruct n as [|n]; [lia|].
  assert (Hne : exists x y, (t ++ [10]) ++ concat ls = x :: y) by (destruct t; cbn; eauto). destruct Hne as (x & y & E).
  cbn [load_loop fold_left]. rewrite E, <- E, fgets_line by (done || lia). rewrite IH by lia. f_equal.
  rewrite c_string_id; [done|]. apply Forall_app. split; [|by repeat constructor]. eapply Forall_impl; [exact Hf|]. by intros ? [].
Qed.

(** The digits of a time, and how they are read. *)
Lemma time_digits v : 0 < v <= MINES_COUNTER_MAX ->
  (length (dec v) <= 3)%nat /\ Forall (fun c => 48 <= c <= 57) (dec v) /\ sx_atoi (mines_trim (dec v ++ [10])) = v.
Proof.
  intros Hv. unfold MINES_COUNTER_MAX in Hv.
  assert (HA : forallb (fun i => let v := Z.of_nat i in (length (dec v) <=? 3)%nat && forallb (fun c => (48 <=? c) && (c <=? 57)) (dec v) &&
    (sx_atoi (mines_trim (dec v ++ [10])) =? v)) (seq 1 999) = true) by (vm_compute; reflexivity).
  rewrite forallb_forall in HA. specialize (HA (Z.to_nat v)). rewrite in_seq, Z2Nat.id in HA by lia. specialize (HA ltac:(lia)). cbv zeta in HA.
  rewrite !andb_true_iff, forallb_forall in HA. destruct HA as [[H1 H2] H3].
  split; [by apply Nat.leb_le|]. split; [|lia]. apply List.Forall_forall. intros c Hc. specialize (H2 c Hc). lia.
Qed.

Lemma split_at_key b key rest : Forall (fun c => c <> b) key -> split_at b (key ++ b :: rest) = Some (key, rest).
Proof.
  induction 1 as [|c key Hc Hk IH]; cbn [app split_at]; [by rewrite Z.eqb_refl|]. destruct (c =? b) eqn:?; [lia|]. by rewrite IH.
Qed.

Definition key_fact (level : Z) : bool :=
  let k := at_ [] k_score_keys level in
  forallb (fun c => (97 <=? c) && (c <=? 122)) k && (length k <? 20)%nat && (0 <? length k)%nat &&
  bool_decide (find_level k_score_keys 0 (mines_trim k) = Some level).
Lemma key_facts level : 0 <= level < 3 -> key_fact level = true.
Proof. intros Hl. assert (level = 0 \/ level = 1 \/ level = 2) as [-> | [-> | ->]] by lia; vm_compute; reflexivity. Qed.

Lemma score_entry_line level v : 0 <= level < 3 -> 0 < v <= MINES_COUNTER_MAX ->
  short_line (score_entry level v) /\ forall best, score_line best (score_entry level v) = set_at best level v.
Proof.
  intros Hl Hv. pose proof (key_facts level Hl) as HK. unfold key_fact in HK. cbv zeta in HK.
  set (k := at_ [] k_score_keys level) in *. rewrite !andb_true_iff, forallb_forall, Nat.ltb_lt, Nat.ltb_lt, bool_decide_eq_true in HK.
  destruct HK as [[[K1 K2] K3] K4]. destruct (time_digits v Hv) as (D1 & D2 & D3). rewrite List.Forall_forall in D2. unfold score_entry. fold k. split.
  - exists (k ++ 61 :: dec v). split; [by rewrite <- app_assoc|]. split; [rewrite length_app; simpl; lia|].
    apply List.Forall_forall. intros c Hc. apply in_app_or in Hc as [Hc|[<-|Hc]]; [specialize (K1 c Hc); lia|done|specialize (D2 c Hc); lia].
  - intros best. unfold score_line. rewrite split_at_key by (apply List.Forall_forall; intros c Hc ->; specialize (K1 61 Hc); lia).
    assert (E0 : exists c t, k = c :: t /\ 97 <= c) by (destruct k as [|c t]; [simpl in K3; lia|]; exists c, t; split; [done|]; specialize (K1 c ltac:(by left)); lia).
    destruct E0 as (c & t & E0 & Hc). assert (Ea : at_ 0 (k ++ 61 :: dec v ++ [10]) 0 = c) by (rewrite E0; done). rewrite Ea.
    destruct ((c =? 35) || (c =? 59)) eqn:?; [lia|]. rewrite K4, D3. unfold MINES_COUNTER_MAX in *. destruct ((v >? 0) && (v <=? 999)) eqn:?; [done|lia].
Qed.

Lemma header_short : short_line header_line /\ forall best, score_line best header_line = best.
Proof.
  split; [|done]. exists (take 44 scores_header). split; [done|]. split; [simpl; lia|]. vm_compute. repeat constructor; discriminate.
Qed.

Definition table_ok (best : list Z) : Prop := zlen best = 3 /\ Forall (fun v => 0 <= v <= MINES_COUNTER_MAX) best.

(** What was saved is what is loaded. *)
Lemma load_saved best : table_ok best -> load_text (scores_text best) = best.
Proof.
  intros [Hl Hb]. rewrite scores_text_eq by done. destruct best as [|a [|b [|c [|]]]]; try (unfold zlen in Hl; simpl in Hl; lia).
  inversion Hb as [|? ? Ha Hb1]; inversion Hb1 as [|? ? Hb2 Hc1]; inversion Hc1 as [|? ? Hc2 _]; subst.
  set (lines := header_line :: (if a >? 0 then [score_entry 0 a] else []) ++ (if b >? 0 then [score_entry 1 b] else []) ++ (if c >? 0 then [score_entry 2 c] else [])).
  change (map _ [0; 1; 2]) with [if a >? 0 then score_entry 0 a else []; if b >? 0 then score_entry 1 b else []; if c >? 0 then score_entry 2 c else []].
  assert (E : header_line ++ concat [if a >? 0 then score_entry 0 a else []; if b >? 0 then score_entry 1 b else []; if c >? 0 then score_entry 2 c else []] = concat lines).
  { subst lines. cbn [concat app]. rewrite !concat_app. destruct (a >? 0), (b >? 0), (c >? 0); cbn [concat app]; by rewrite ?app_nil_r. }
  rewrite E. clear E.
  assert (Hs : Forall short_line lines).
  { subst lines. constructor; [apply header_short|]. repeat (apply Forall_app; split); (case_if; [apply Forall_singleton, score_entry_line; lia|constructor]). }
  unfold load_text. rewrite load_lines by done. subst lines. cbn [fold_left]. rewrite (proj2 header_short).
  assert (E0 : a > 0 -> forall best, score_line best (score_entry 0 a) = set_at best 0 a) by (intros ?; apply score_entry_line; lia).
  assert (E1 : b > 0 -> forall best, score_line best (score_entry 1 b) = set_at best 1 b) by (intros ?; apply score_entry_line; lia).
  assert (E2 : c > 0 -> forall best, score_line best (score_entry 2 c) = set_at best 2 c) by (intros ?; apply score_entry_line; lia).
  destruct (a >? 0) eqn:?, (b >? 0) eqn:?, (c >? 0) eqn:?; cbn [app fold_left]; rewrite ?E0, ?E1, ?E2 by lia;
    unfold set_at, no_scores; cbn [Z.ltb Z.compare];
    change (Z.to_nat 0) with 0%nat; change (Z.to_nat 1) with 1%nat; change (Z.to_nat 2) with 2%nat; cbn; repeat f_equal; lia.
Qed.

(** ** Any file *)

Lemma score_line_ok best line : table_ok best -> table_ok (score_line best line).
Proof.
  intros [Hl Hb]. unfold score_line. destruct (split_at _ _) as [[before after]|]; [|done]. case_if; [done|].
  destruct (find_level _ _ _) as [level|]; [|done]. case_if; [|done]. split; [by rewrite zlen_set_at|].
  unfold set_at. case_if; [done|]. apply Forall_insert; [done|]. lia.
Qed.

Lemma load_text_ok text : table_ok (load_text text).
Proof.
  unfold load_text. assert (H0 : table_ok no_scores) by (split; [done|repeat constructor; done]). revert H0.
  generalize no_scores as best, (length text) as n. intros best n. revert text best.
  induction n as [|n IH]; intros [|c t] best Hb; cbn [load_loop]; try done. destruct (fgets 63 (c :: t)) as [line rest].
  by apply IH, score_line_ok.
Qed.

(** ** Programs *)

Inductive score_action := Record_ (level seconds : Z) | Reset_ | Reload_.

Definition act (s : scores) (a : score_action) : scores :=
  match a with
  | Record_ level seconds => (mines_scores_record level seconds s).1
  | Reset_ => mines_scores_reset s
  | Reload_ => mines_scores_load s
  end.

(** The table a player expects: the lowest time of each level, 0 for none. *)
Definition act_spec (best : list Z) (a : score_action) : list Z :=
  match a with
  | Record_ level seconds =>
      if (0 <=? level) && (level <? 3) && (0 <? seconds)
      then let seconds := Z.min seconds 999 in
           set_at best level (if at_ 0 best level =? 0 then seconds else Z.min seconds (at_ 0 best level))
      else best
  | Reset_ => [0; 0; 0]
  | Reload_ => best
  end.

(** The file holds the table. *)
Definition in_file (s : scores) : Prop :=
  table_ok s.1 /\ ss_reads s.2 = true /\ ss_writes s.2 = true /\
  match ss_file s.2 with Some text => load_text text = s.1 | None => s.1 = no_scores end.

Lemma save_in_file best st : table_ok best -> ss_reads st = true -> ss_writes st = true ->
  in_file (mines_scores_save (best, st)) /\ (mines_scores_save (best, st)).1 = best.
Proof.
  intros Hb Hr Hw. unfold mines_scores_save. cbn [snd]. rewrite Hw. split; [|done]. split_and!; try done. cbn. by apply load_saved.
Qed.

Lemma set_same best level : 0 <= level < zlen best -> set_at best level (at_ 0 best level) = best.
Proof.
  intros Hl. apply (at_ext 0); [by rewrite length_set_at|]. intros i Hi. rewrite zlen_set_at in Hi. rewrite at_set_at by done.
  case_if; [by replace i with level by lia|done].
Qed.

Lemma score_act_ok s a : in_file s -> in_file (act s a) /\ (act s a).1 = act_spec s.1 a.
Proof.
  intros (Hb & Hr & Hw & Hf). destruct s as [best st]. cbn [fst snd] in *. pose proof Hb as [Hl Hv]. destruct a as [level seconds| |]; cbn [act act_spec fst snd].
  - unfold mines_scores_record. cbn [fst snd]. change MINES_LEVEL_COUNT with 3. unfold MINES_COUNTER_MAX.
    destruct ((level <? 0) || (level >=? 3) || (seconds <=? 0)) eqn:E0.
    { destruct ((0 <=? level) && (level <? 3) && (0 <? seconds)) eqn:?; [lia|]. done. }
    destruct ((0 <=? level) && (level <? 3) && (0 <? seconds)) eqn:?; [|lia].
    replace (if seconds >? 999 then 999 else seconds) with (Z.min seconds 999) by (destruct (seconds >? 999) eqn:?; lia).
    destruct (negb (at_ 0 best level =? 0) && (Z.min seconds 999 >=? at_ 0 best level)) eqn:E1; cbn [fst].
    + split; [done|]. destruct (at_ 0 best level =? 0) eqn:?; [done|]. rewrite Z.min_r by lia. by rewrite set_same by lia.
    + assert (Es : (if at_ 0 best level =? 0 then Z.min seconds 999 else Z.min (Z.min seconds 999) (at_ 0 best level)) = Z.min seconds 999).
      { destruct (at_ 0 best level =? 0) eqn:?; [done|]. cbn [negb andb] in E1. lia. }
      rewrite Es. apply save_in_file; [|done|done]. split; [by rewrite zlen_set_at|]. unfold set_at. case_if; [done|].
      apply Forall_insert; [done|]. unfold MINES_COUNTER_MAX. lia.
  - unfold mines_scores_reset. cbn [snd]. apply save_in_file; try done. split; [done|repeat constructor; done].
  - unfold mines_scores_load. cbn [snd]. rewrite Hr. destruct (ss_file st) as [text|] eqn:Ef; rewrite ?Hf.
    + split; [|done]. split_and!; try done. cbn [snd fst]. by rewrite Ef.
    + split; [|done]. split_and!; try done; [split; [done|repeat constructor; done]|]. cbn [snd fst]. by rewrite Ef.
Qed.

(** Best times persist: whatever the file holds when the game starts, the
    table loaded from it has three times of 0 to 999 seconds, and from then on,
    through any records, resets and reloads, the table is the lowest time of
    each level, whether it is asked of the program or of its file. *)
Theorem mines_scores_persist best file actions :
  let start := mines_scores_load (best, mk_store file true true) in
  table_ok start.1 /\
  let s := fold_left act actions start in
  s.1 = fold_left act_spec actions start.1 /\ (mines_scores_load s).1 = s.1.
Proof.
  intros start. assert (H0 : in_file start).
  { subst start. unfold mines_scores_load. destruct file as [text|]; cbn.
    - split_and!; try done. apply load_text_ok.
    - split_and!; try done. split; [done|repeat constructor; done]. }
  split; [apply H0|]. cbv zeta. generalize start H0. clear start H0. induction actions as [|a actions IH]; intros s Hs.
  - split; [done|]. destruct (score_act_ok s Reload_ Hs) as [_ HR]. exact HR.
  - cbn [fold_left]. destruct (score_act_ok s a Hs) as [H1 H2]. rewrite <- H2. by apply IH.
Qed.
