(* ===== verification/RegionClip.v ===== *)
(** * Clipping a region never overflows it

    [sx_region_intersect_rect] needs no more spans or bands than it is given,
    so its result is always exact, whatever the region's overflow mark says. *)

From S2P Require Import Prelude Rect Region RegionFacts RegionLaws.

Lemma absorb_length spans : forall x0 x1 before a0 a1 after,
  span_absorb spans x0 x1 = (before, a0, a1, after) -> zlen (before ++ after) <= zlen spans.
Proof.
  induction spans as [|s t IH]; intros x0 x1 before a0 a1 after H; cbn [span_absorb] in H; [by simplify_eq|].
  assert (Hc : forall k, zlen (s :: k) = 1 + zlen k) by (intros k; unfold zlen; simpl; lia).
  destruct (sp_x1 s <? x0).
  - destruct (span_absorb t x0 x1) as [[[b c0] c1] a] eqn:E. simplify_eq.
    specialize (IH _ _ _ _ _ _ E). cbn [app]. rewrite !Hc. lia.
  - destruct (sp_x0 s >? x1); [by simplify_eq|]. apply IH in H. rewrite Hc. lia.
Qed.

Lemma span_add_fits out x0 x1 :
  zlen out < SX_REGION_MAX_SPANS_PER_BAND ->
  exists out', sx_span_list_add out x0 x1 = Some out' /\ zlen out' <= zlen out + 1.
Proof.
  intros H. unfold sx_span_list_add. destruct (x0 >=? x1); [exists out; split; [done|lia]|].
  destruct (span_absorb out x0 x1) as [[[before a0] a1] after] eqn:E. apply absorb_length in E.
  destruct (_ >=? _) eqn:?; [lia|]. eexists. split; [done|].
  unfold zlen in *. rewrite length_app in *. simpl. lia.
Qed.

Lemma span_loop_fits rx0 rx1 rcr spans : forall out,
  zlen out + zlen spans <= SX_REGION_MAX_SPANS_PER_BAND ->
  exists out', span_loop OP_INTERSECT rx0 rx1 rcr spans out = Some out'.
Proof.
  induction spans as [|s t IH]; intros out H; cbn [span_loop]; [by eexists|].
  assert (Hc : zlen (s :: t) = 1 + zlen t) by (unfold zlen; simpl; lia). pose proof (zlen_nonneg t).
  unfold span_step. destruct (_ <? _).
  - destruct (span_add_fits out (if sp_x0 s >? rx0 then sp_x0 s else rx0) (if sp_x1 s <? rx1 then sp_x1 s else rx1))
      as (out' & -> & Hl); [lia|]. apply IH. lia.
  - apply IH. lia.
Qed.

Lemma span_apply_fits spans rx0 rx1 rcr :
  zlen spans <= SX_REGION_MAX_SPANS_PER_BAND ->
  exists out, sx_span_list_apply spans rx0 rx1 OP_INTERSECT rcr = Some out /\ (rcr = false -> out = []).
Proof.
  intros H. unfold sx_span_list_apply. destruct rcr; simpl; [|by exists []].
  destruct (span_loop_fits rx0 rx1 true spans []) as [out ->]; [unfold zlen in *; simpl; lia|]. by exists out.
Qed.

Lemma append_fits out y0 y1 spans :
  zlen out < SX_REGION_MAX_BANDS ->
  exists out', sx_region_append_band out y0 y1 spans = Some out' /\ zlen out' <= zlen out + 1.
Proof.
  intros H. unfold sx_region_append_band. pose proof (zlen_nonneg out).
  destruct (_ || _); [exists out; split; [done|lia]|].
  assert (Hp : (zlen out >=? SX_REGION_MAX_BANDS) = false) by lia.
  destruct (list.last out) as [p|] eqn:El; [|rewrite Hp; eexists; split; [done|rewrite zlen_snoc; lia]].
  destruct (_ && _); [|rewrite Hp; eexists; split; [done|rewrite zlen_snoc; lia]].
  eexists. split; [done|]. rewrite zlen_snoc. apply last_Some in El as [k ->]. rewrite removelast_last, zlen_snoc. lia.
Qed.

(** The bands the sweep has entered below [cut], inside the rectangle's rows. *)
Definition entered (ry0 : Z) (bs : list sx_region_band) (cut : Z) : Z :=
  zlen (List.filter (fun b => Z.max (bd_y0 b) ry0 <? cut) bs).

Lemma entered_mono ry0 bs cut next : cut <= next -> entered ry0 bs cut <= entered ry0 bs next.
Proof.
  intros H. unfold entered, zlen. induction bs as [|b bs IH]; simpl; [lia|].
  repeat case_if; simpl; lia.
Qed.

Lemma entered_more ry0 bs cut next b :
  b ∈ bs -> cut <= Z.max (bd_y0 b) ry0 < next -> entered ry0 bs cut < entered ry0 bs next.
Proof.
  intros Hb H. apply list_elem_of_In in Hb. induction bs as [|c bs IH]; [done|].
  pose proof (entered_mono ry0 bs cut next ltac:(lia)). unfold entered, zlen in *. simpl.
  destruct Hb as [->|Hb]; [|specialize (IH Hb)]; repeat case_if; simpl; lia.
Qed.

Lemma entered_all ry0 bs cut : entered ry0 bs cut <= zlen bs.
Proof. unfold entered, zlen. pose proof (List.filter_length_le (fun b => Z.max (bd_y0 b) ry0 <? cut) bs). lia. Qed.

Definition an_edge (bs : list sx_region_band) (rect : sx_rect) (cut : Z) : Prop :=
  (exists b, b ∈ bs /\ (cut = bd_y0 b \/ cut = bd_y1 b)) \/ cut = ry rect \/ cut = sx_rect_bottom rect.

(** A cut inside a band and inside the rectangle's rows is where the two begin
    to overlap. *)
Lemma cut_enters bs rect cut b :
  bands_ok None bs -> an_edge bs rect cut -> b ∈ bs -> covers b cut ->
  ry rect <= cut < sx_rect_bottom rect -> cut <= Z.max (bd_y0 b) (ry rect).
Proof.
  intros Hok He Hb Hc Hr. destruct He as [(c & Hcb & [E|E])|[E|E]]; [| |lia|lia].
  - assert (c = b) as ->; [|lia]. apply (bands_cover_unique None bs c b cut); try done.
    destruct (bands_ok_forall _ _ _ Hok Hcb) as [? _]. unfold covers. lia.
  - destruct (Z_le_gt_dec cut (bd_y0 b)) as [|Hgt]; [lia|]. exfalso.
    assert (c = b) as ->; [|unfold covers in Hc; lia].
    destruct (bands_ok_forall _ _ _ Hok Hcb) as [? _].
    apply (bands_cover_unique None bs c b (cut - 1)); try done; unfold covers in *; lia.
Qed.

Lemma sweep_intersect_fits fuel bs rect : forall cut scratch,
  bands_ok None bs -> zlen bs <= SX_REGION_MAX_BANDS -> ry rect < sx_rect_bottom rect ->
  an_edge bs rect cut -> zlen scratch <= entered (ry rect) bs cut ->
  sweep fuel bs rect OP_INTERSECT cut scratch <> Some None.
Proof.
  induction fuel as [|fuel IH]; intros cut scratch Hok Hlen Hr He Hs; [done|]. cbn [sweep].
  destruct (sweep_scan bs cut) as [covering next0] eqn:Es. apply sweep_scan_spec in Es.
  destruct (sweep_next _ _ _ _ _ _) as [next|] eqn:En; [|done].
  destruct (sweep_next_spec _ _ _ _ _ _ _ Hr Es En) as (Hcn & Hsrc & Hsteady & Hrows).
  assert (He' : an_edge bs rect next) by exact Hsrc.
  pose proof (entered_mono (ry rect) bs cut next ltac:(lia)) as Hm.
  destruct covering as [b|]; [|apply IH; try done; lia].
  destruct Es as (I1 & _). destruct (I1 b eq_refl) as [Hb Hc].
  destruct (bands_ok_forall _ _ _ Hok Hb) as (_ & _ & _ & Hbl).
  destruct (span_apply_fits (bd_spans b) (rx rect) (sx_rect_right rect)
              ((cut >=? ry rect) && (cut <? sx_rect_bottom rect)) Hbl) as (out & -> & Hout).
  destruct ((cut >=? ry rect) && (cut <? sx_rect_bottom rect)) eqn:Ercr.
  - assert (Hmore : entered (ry rect) bs cut < entered (ry rect) bs next).
    { apply (entered_more _ _ _ _ b Hb). split; [apply (cut_enters bs); try done; lia|].
      unfold covers in Hc. lia. }
    pose proof (entered_all (ry rect) bs next).
    destruct (append_fits scratch cut next out) as (s' & -> & Hl); [lia|]. apply IH; try done. lia.
  - rewrite (Hout eq_refl). unfold sx_region_append_band. change (zlen (@nil sx_region_span) <=? 0) with true.
    rewrite orb_true_r. apply IH; try done. lia.
Qed.

(** The intersection is exact for every region. *)
Lemma intersect_exact r rect x y :
  region_ok r ->
  (in_region (sx_region_intersect_rect r rect) x y <-> in_region r x y /\ in_rect rect x y).
Proof.
  intros Hr. unfold sx_region_intersect_rect, sx_region_apply_rect. pose proof (in_bands_nil x y) as Hnil.
  destruct (sx_rect_is_empty rect) eqn:Er.
  { pose proof (in_rect_empty rect x y Er). unfold in_region. simpl. tauto. }
  destruct (sx_region_is_empty r) eqn:Ee.
  { pose proof (empty_region_points r x y Ee). tauto. }
  assert (Hne : rg_bands r <> []) by (unfold sx_region_is_empty in Ee; by destruct (rg_bands r)).
  assert (Hrx : rx rect < sx_rect_right rect /\ ry rect < sx_rect_bottom rect) by (revert Er; rect_unfold; lia).
  destruct (sweep _ _ _ _ _ _) as [[bs|]|] eqn:Es.
  - destruct Hr as [Hok Hl]. destruct (sweep_spec _ _ _ _ _ _ _ Hok (proj1 Hrx) (proj2 Hrx)
      (sweep_start_inv r rect OP_INTERSECT (conj Hok Hl) Hne Er) Es) as (_ & _ & H).
    unfold in_region. cbn [rg_bands]. rewrite H. done.
  - exfalso. destruct Hr as [Hok Hl]. revert Es. apply sweep_intersect_fits; [done|done|lia| |].
    + left. destruct (rg_bands r) as [|b bs]; [done|]. exists b. split; [by constructor|]. by left.
    + unfold zlen at 1. simpl. unfold entered. apply zlen_nonneg.
  - by apply sweep_terminates in Es.
Qed.
