(* ===== verification/Painter.v ===== *)
(** * The painter (system/gfx/gfx2d.c, system/gfx/pixels.c)

    [struct sx_painter] draws into a bitmap through an origin, a clip rectangle
    and, when one is pushed, a clip region.  Every primitive walks the device
    pieces that survive the clip ([sx_clip_iter]) and writes each piece.

    A bitmap is its geometry and its pixel buffer, a list of 32-bit words in
    row-major order with [pitch / 4] words per row.  The saved-clip arrays of
    the source are one stack here, whose length is [clip_depth]; cells above
    the depth are never read.  A null painter makes every function return at
    once and is not represented; a null target or a null pixel pointer is
    [None].  Source and target of a blit are different buffers. *)

From S2P Require Import Prelude Rect Region.

(** [struct savanxp_fb_info] (include/abi/savanxp_abi.h). *)
Record fb_info := mk_info {
  fb_width : Z; fb_height : Z; fb_pitch : Z; fb_bpp : Z; fb_buffer_size : Z }.
Definition info0 : fb_info := mk_info 0 0 0 0 0.

Definition SX_PIXEL_FORMAT_BGRX8888 : Z := 1.
Definition SX_PIXEL_FORMAT_BGRA8888 : Z := 2.

Record sx_bitmap := mk_bitmap {
  bm_pixels : option (list Z); bm_info : fb_info; bm_format : Z; bm_owns_pixels : bool }.

Definition sx_bitmap_wrap (pixels : option (list Z)) (info : option fb_info) (format : Z) : sx_bitmap :=
  mk_bitmap pixels (match info with Some i => i | None => info0 end) format false.

Definition gfx_stride_pixels (info : fb_info) : Z :=
  if fb_pitch info =? 0 then 0 else fb_pitch info / 4.

(** ** Pixel arithmetic *)

Definition sx_blend_bgra8888_over_rgb (destination source : Z) : Z :=
  let alpha := Z.land (Z.shiftr source 24) 0xff in
  let inverse_alpha := 255 - alpha in
  let source_blue := Z.land source 0xff in
  let source_green := Z.land (Z.shiftr source 8) 0xff in
  let source_red := Z.land (Z.shiftr source 16) 0xff in
  let destination_blue := Z.land destination 0xff in
  let destination_green := Z.land (Z.shiftr destination 8) 0xff in
  let destination_red := Z.land (Z.shiftr destination 16) 0xff in
  if alpha =? 0 then destination
  else if alpha =? 255 then Z.land source 0x00ffffff
  else
    let blended_blue := (source_blue * alpha + destination_blue * inverse_alpha + 127) / 255 in
    let blended_green := (source_green * alpha + destination_green * inverse_alpha + 127) / 255 in
    let blended_red := (source_red * alpha + destination_red * inverse_alpha + 127) / 255 in
    Z.lor (Z.lor (Z.shiftl blended_red 16) (Z.shiftl blended_green 8)) blended_blue.

(** [struct sx_brush]. *)
Record sx_brush := mk_brush {
  br_colour : Z; br_back_colour : Z; br_pattern : list Z;
  br_has_pattern : bool; br_transparent : bool; br_rop : Z }.

Definition SX_ROP_COPY : Z := 0.
Definition SX_ROP_XOR : Z := 1.
Definition SX_ROP_AND : Z := 2.
Definition SX_ROP_OR : Z := 3.
Definition SX_ROP_INVERT : Z := 4.

Definition sx_pattern_checker_50 : list Z := [0xaa; 0x55; 0xaa; 0x55; 0xaa; 0x55; 0xaa; 0x55].

Definition sx_brush_solid (colour : Z) : sx_brush :=
  mk_brush colour colour (replicate 8 0) false false SX_ROP_COPY.

Definition sx_brush_pattern (pattern : option (list Z)) (colour back_colour : Z) : sx_brush :=
  match pattern with
  | None => mk_brush colour colour (replicate 8 0) false false SX_ROP_COPY
  | Some pattern => mk_brush colour back_colour (take 8 pattern) true false SX_ROP_COPY
  end.

Definition sx_brush_pattern_transparent (pattern : option (list Z)) (colour : Z) : sx_brush :=
  let brush := sx_brush_pattern pattern colour colour in
  mk_brush (br_colour brush) (br_back_colour brush) (br_pattern brush)
           (br_has_pattern brush) (br_has_pattern brush) (br_rop brush).

Definition sx_brush_with_rop (brush : sx_brush) (rop : Z) : sx_brush :=
  if (rop >=? SX_ROP_COPY) && (rop <=? SX_ROP_INVERT)
  then mk_brush (br_colour brush) (br_back_colour brush) (br_pattern brush)
                (br_has_pattern brush) (br_transparent brush) rop
  else brush.

Definition sx_apply_rop (rop destination source : Z) : Z :=
  if rop =? SX_ROP_XOR then Z.land (Z.lxor destination source) 0x00ffffff
  else if rop =? SX_ROP_AND then Z.land (Z.land destination source) 0x00ffffff
  else if rop =? SX_ROP_OR then Z.land (Z.lor destination source) 0x00ffffff
  else if rop =? SX_ROP_INVERT then Z.land (Z.lnot destination) 0x00ffffff
  else source.

Definition sx_brush_covers (brush : sx_brush) (device_x device_y : Z) : bool :=
  negb (Z.land (Z.shiftr (at_ 0 (br_pattern brush) (Z.land device_y 7))
                         (7 - Z.land device_x 7)) 1 =? 0).

(** ** The painter's state *)

Record sx_point := mk_point { pt_x : Z; pt_y : Z }.

(** One cell of each of the [saved_*] arrays. *)
Record saved_clip := mk_saved {
  sv_clip : sx_rect; sv_has_clip : bool;
  sv_region : option sx_region; sv_region_origin : sx_point }.

Definition SX_PAINTER_CLIP_STACK_DEPTH : Z := 16.
Definition SX_PAINTER_ORIGIN_STACK_DEPTH : Z := 16.
Definition SX_FONT_UI : Z := 0.

Record sx_painter := mk_painter {
  p_target : option sx_bitmap;
  p_clip_rect : sx_rect;
  p_has_clip : bool;
  p_saved : list saved_clip;
  p_origin : sx_point;
  p_saved_origin : list sx_point;
  p_font : Z;
  p_clip_region : option sx_region;
  p_clip_region_origin : sx_point }.

Definition sx_painter_init (bitmap : option sx_bitmap) : sx_painter :=
  mk_painter bitmap (sx_rect_make 0 0 0 0) false [] (mk_point 0 0) [] SX_FONT_UI None (mk_point 0 0).

Definition set_clip (p : sx_painter) (rect : sx_rect) (has : bool) (saved : list saved_clip)
    (region : option sx_region) (origin : sx_point) : sx_painter :=
  mk_painter (p_target p) rect has saved (p_origin p) (p_saved_origin p) (p_font p) region origin.

Definition set_origin (p : sx_painter) (origin : sx_point) (saved : list sx_point) : sx_painter :=
  mk_painter (p_target p) (p_clip_rect p) (p_has_clip p) (p_saved p) origin saved (p_font p)
             (p_clip_region p) (p_clip_region_origin p).

(** The int result is the bool. *)
Definition sx_painter_push_origin (p : sx_painter) (dx dy : Z) : sx_painter * bool :=
  if zlen (p_saved_origin p) >=? SX_PAINTER_ORIGIN_STACK_DEPTH then (p, false)
  else (set_origin p (mk_point (pt_x (p_origin p) + dx) (pt_y (p_origin p) + dy))
                   (p_origin p :: p_saved_origin p), true).

Definition sx_painter_pop_origin (p : sx_painter) : sx_painter :=
  match p_saved_origin p with
  | [] => p
  | origin :: rest => set_origin p origin rest
  end.

Definition sx_to_device_rect (p : sx_painter) (rect : sx_rect) : sx_rect :=
  sx_rect_translate rect (pt_x (p_origin p)) (pt_y (p_origin p)).

Definition sx_painter_clip_bounds (p : sx_painter) : sx_rect :=
  if p_has_clip p then sx_rect_translate (p_clip_rect p) (- pt_x (p_origin p)) (- pt_y (p_origin p))
  else match p_target p with
       | Some bm =>
           sx_rect_translate (sx_rect_make 0 0 (fb_width (bm_info bm)) (fb_height (bm_info bm)))
                             (- pt_x (p_origin p)) (- pt_y (p_origin p))
       | None => sx_rect_make 0 0 0 0
       end.

Definition sx_painter_clear_clip (p : sx_painter) : sx_painter :=
  set_clip p (p_clip_rect p) false (p_saved p) None (p_clip_region_origin p).

Definition sx_painter_add_clip_rect (p : sx_painter) (rect : sx_rect) : sx_painter :=
  let rect := sx_to_device_rect p rect in
  if negb (p_has_clip p)
  then set_clip p rect true (p_saved p) (p_clip_region p) (p_clip_region_origin p)
  else set_clip p (sx_rect_intersect (p_clip_rect p) rect) true (p_saved p)
                (p_clip_region p) (p_clip_region_origin p).

Definition sx_painter_push_clip (p : sx_painter) (rect : sx_rect) : sx_painter * bool :=
  if zlen (p_saved p) >=? SX_PAINTER_CLIP_STACK_DEPTH then (p, false)
  else
    let saved := mk_saved (p_clip_rect p) (p_has_clip p) (p_clip_region p) (p_clip_region_origin p)
                 :: p_saved p in
    let rect := sx_to_device_rect p rect in
    let rect := if p_has_clip p then sx_rect_intersect (p_clip_rect p) rect else rect in
    (set_clip p rect true saved (p_clip_region p) (p_clip_region_origin p), true).

Definition sx_painter_push_clip_region (p : sx_painter) (region : option sx_region) : sx_painter * bool :=
  if zlen (p_saved p) >=? SX_PAINTER_CLIP_STACK_DEPTH then (p, false)
  else
    match region with
    | None => sx_painter_push_clip p (sx_rect_make 0 0 0 0)
    | Some r =>
        if sx_region_is_empty r then sx_painter_push_clip p (sx_rect_make 0 0 0 0)
        else match sx_painter_push_clip p (sx_region_bounds r) with
             | (p', false) => (p', false)
             | (p', true) =>
                 (set_clip p' (p_clip_rect p') (p_has_clip p') (p_saved p') (Some r) (p_origin p'), true)
             end
    end.

Definition sx_painter_pop_clip (p : sx_painter) : sx_painter :=
  match p_saved p with
  | [] => p
  | s :: rest => set_clip p (sv_clip s) (sv_has_clip s) rest (sv_region s) (sv_region_origin s)
  end.

(** ** The clip iterator *)

Definition sx_apply_painter_clip (p : sx_painter) (rect : sx_rect) : sx_rect :=
  if negb (p_has_clip p) then rect else sx_rect_intersect rect (p_clip_rect p).

(** [sx_clip_rect_to_bitmap(painter->target, out)]: a null target or one
    without pixels lets nothing through. *)
Definition target_clip (p : sx_painter) (rect : sx_rect) : option sx_rect :=
  match p_target p with
  | Some bm =>
      match bm_pixels bm with
      | Some _ => sx_clip_rect_to_bitmap (fb_width (bm_info bm)) (fb_height (bm_info bm)) rect
      | None => None
      end
  | None => None
  end.

Record sx_clip_iter := mk_iter {
  it_painter : sx_painter; it_rect : sx_rect; it_band : Z; it_span : Z; it_emitted_plain : bool }.

Definition sx_clip_iter_init (p : sx_painter) (device_rect : sx_rect) : sx_clip_iter :=
  mk_iter p (sx_apply_painter_clip p device_rect) 0 0 false.

(** The [while] over the bands.  Each turn moves past a span or a band, so the
    region's spans and bands bound the turns. *)
Fixpoint clip_iter_while (fuel : nat) (bands : list sx_region_band) (it : sx_clip_iter)
  : sx_clip_iter * option sx_rect :=
  match fuel with
  | O => (it, None)
  | S fuel =>
      let p := it_painter it in
      if it_band it <? zlen bands then
        let band := at_ band0 bands (it_band it) in
        let y0 := bd_y0 band + pt_y (p_clip_region_origin p) in
        let y1 := bd_y1 band + pt_y (p_clip_region_origin p) in
        if it_span it >=? zlen (bd_spans band)
        then clip_iter_while fuel bands (mk_iter p (it_rect it) (it_band it + 1) 0 (it_emitted_plain it))
        else
          let span := at_ span0 (bd_spans band) (it_span it) in
          let piece := sx_rect_make (sp_x0 span + pt_x (p_clip_region_origin p)) y0
                                    (sp_x1 span - sp_x0 span) (y1 - y0) in
          let it := mk_iter p (it_rect it) (it_band it) (it_span it + 1) (it_emitted_plain it) in
          let piece := sx_rect_intersect piece (it_rect it) in
          if sx_rect_is_empty piece then clip_iter_while fuel bands it
          else match target_clip p piece with
               | None => clip_iter_while fuel bands it
               | Some out => (it, Some out)
               end
      else (it, None)
  end.

Definition clip_iter_fuel (bands : list sx_region_band) : nat :=
  S (length bands + length (flat_map bd_spans bands)).

(** [None] is the return value 0. *)
Definition sx_clip_iter_next (it : sx_clip_iter) : sx_clip_iter * option sx_rect :=
  let p := it_painter it in
  if sx_rect_is_empty (it_rect it) then (it, None)
  else
    let plain :=
      if it_emitted_plain it then (it, None)
      else (mk_iter p (it_rect it) (it_band it) (it_span it) true, target_clip p (it_rect it)) in
    match p_clip_region p with
    | None => plain
    | Some region =>
        if zlen (rg_bands region) <=? 0 then plain
        else clip_iter_while (clip_iter_fuel (rg_bands region)) (rg_bands region) it
    end.

(** [for (sx_clip_iter_init(...); sx_clip_iter_next(&iter, &piece); ) body]: the
    body changes the pixels only, never what the iterator reads. *)
Fixpoint clip_loop {S : Type} (fuel : nat) (it : sx_clip_iter) (body : sx_rect -> S -> S) (s : S) : S :=
  match fuel with
  | O => s
  | Datatypes.S fuel =>
      match sx_clip_iter_next it with
      | (it, Some piece) => clip_loop fuel it body (body piece s)
      | (_, None) => s
      end
  end.

(** At most one piece per span, or the one of the plain case. *)
Definition clip_loop_fuel (p : sx_painter) : nat :=
  match p_clip_region p with
  | Some region => 2 + length (flat_map bd_spans (rg_bands region))
  | None => 2
  end.

Definition for_pieces {S : Type} (p : sx_painter) (device_rect : sx_rect)
    (body : sx_rect -> S -> S) (s : S) : S :=
  clip_loop (clip_loop_fuel p) (sx_clip_iter_init p device_rect) body s.

(** ** Drawing *)

Definition target_pixels (bm : sx_bitmap) : list Z :=
  match bm_pixels bm with Some px => px | None => [] end.

(** A drawing function changes the pixels of the target and nothing else. *)
Definition draw (p : sx_painter) (f : sx_bitmap -> list Z -> list Z) : sx_painter :=
  match p_target p with
  | None => p
  | Some bm =>
      match bm_pixels bm with
      | None => p
      | Some px =>
          mk_painter (Some (mk_bitmap (Some (f bm px)) (bm_info bm) (bm_format bm) (bm_owns_pixels bm)))
            (p_clip_rect p) (p_has_clip p) (p_saved p) (p_origin p) (p_saved_origin p) (p_font p)
            (p_clip_region p) (p_clip_region_origin p)
      end
  end.

Definition gfx_fill_span (px : list Z) (destination count colour : Z) : list Z :=
  for_z 0 count (fun index px => set_at px (destination + index) colour) px.

Definition gfx_rect (px : list Z) (info : fb_info) (rect : sx_rect) (colour : Z) : list Z :=
  match gfx_clip_rect (fb_pitch info) (fb_width info) (fb_height info) rect with
  | None => px
  | Some c =>
      let pitch_pixels := fb_pitch info / 4 in
      for_z 0 (rh c) (fun row px =>
        gfx_fill_span px ((ry c + row) * pitch_pixels + rx c) (rw c) colour) px
  end.

Definition sx_fill_rect_device (p : sx_painter) (rect : sx_rect) (colour : Z) : sx_painter :=
  draw p (fun bm px => for_pieces p rect (fun piece px => gfx_rect px (bm_info bm) piece colour) px).

(** The body of the per-pixel loop of [sx_fill_rect_device_brush]: [None] is its
    [continue]. *)
Definition brush_source (brush : sx_brush) (x y : Z) : option Z :=
  if negb (br_has_pattern brush) then Some (br_colour brush)
  else if sx_brush_covers brush x y then Some (br_colour brush)
  else if br_transparent brush then None
  else Some (br_back_colour brush).

Definition sx_fill_rect_device_brush (p : sx_painter) (rect : sx_rect) (brush : sx_brush) : sx_painter :=
  if negb (br_has_pattern brush) && (br_rop brush =? SX_ROP_COPY)
  then sx_fill_rect_device p rect (br_colour brush)
  else
    draw p (fun bm px =>
      let stride := gfx_stride_pixels (bm_info bm) in
      for_pieces p rect (fun piece px =>
        for_z (ry piece) (sx_rect_bottom piece) (fun y px =>
          for_z (rx piece) (sx_rect_right piece) (fun x px =>
            match brush_source brush x y with
            | None => px
            | Some source =>
                set_at px (y * stride + x) (sx_apply_rop (br_rop brush) (at_ 0 px (y * stride + x)) source)
            end) px) px) px).

Definition sx_draw_frame_device (p : sx_painter) (rect : sx_rect) (brush : sx_brush) : sx_painter :=
  let p := sx_fill_rect_device_brush p (sx_rect_make (rx rect) (ry rect) (rw rect) 1) brush in
  let p :=
    if rh rect >? 1
    then sx_fill_rect_device_brush p (sx_rect_make (rx rect) (ry rect + rh rect - 1) (rw rect) 1) brush
    else p in
  if rh rect >? 2 then
    let p := sx_fill_rect_device_brush p (sx_rect_make (rx rect) (ry rect + 1) 1 (rh rect - 2)) brush in
    if rw rect >? 1
    then sx_fill_rect_device_brush p
           (sx_rect_make (rx rect + rw rect - 1) (ry rect + 1) 1 (rh rect - 2)) brush
    else p
  else p.

Definition sx_painter_fill (p : sx_painter) (colour : Z) : sx_painter :=
  match p_target p with
  | None => p
  | Some bm =>
      sx_fill_rect_device p (sx_rect_make 0 0 (fb_width (bm_info bm)) (fb_height (bm_info bm))) colour
  end.

Definition sx_painter_fill_rect (p : sx_painter) (rect : sx_rect) (colour : Z) : sx_painter :=
  sx_fill_rect_device p (sx_to_device_rect p rect) colour.

Definition sx_painter_fill_rect_brush (p : sx_painter) (rect : sx_rect) (brush : sx_brush) : sx_painter :=
  sx_fill_rect_device_brush p (sx_to_device_rect p rect) brush.

Definition sx_painter_set_pixel (p : sx_painter) (x y colour : Z) : sx_painter :=
  sx_fill_rect_device p (sx_rect_make (x + pt_x (p_origin p)) (y + pt_y (p_origin p)) 1 1) colour.

Definition sx_painter_hline (p : sx_painter) (x y width colour : Z) : sx_painter :=
  sx_fill_rect_device p (sx_rect_make (x + pt_x (p_origin p)) (y + pt_y (p_origin p)) width 1) colour.

Definition sx_painter_vline (p : sx_painter) (x y height colour : Z) : sx_painter :=
  sx_fill_rect_device p (sx_rect_make (x + pt_x (p_origin p)) (y + pt_y (p_origin p)) 1 height) colour.

Definition sx_painter_draw_frame_brush (p : sx_painter) (rect : sx_rect) (brush : sx_brush) : sx_painter :=
  if (rw rect <=? 0) || (rh rect <=? 0) then p
  else sx_draw_frame_device p (sx_to_device_rect p rect) brush.

Definition sx_painter_draw_frame (p : sx_painter) (rect : sx_rect) (colour : Z) : sx_painter :=
  sx_painter_draw_frame_brush p rect (sx_brush_solid colour).

(** ** Blits *)

(** [memcpy] of [count] pixels between two buffers. *)
Definition copy_pixels (px : list Z) (destination : Z) (source : list Z) (from count : Z) : list Z :=
  for_z 0 count (fun i px => set_at px (destination + i) (at_ 0 source (from + i))) px.

Definition sx_blit_bitmap_piece (target source : sx_bitmap) (px : list Z)
    (dst_x dst_y : Z) (dst_rect : sx_rect) : list Z :=
  let src_rect := sx_rect_make (rx dst_rect - dst_x) (ry dst_rect - dst_y) (rw dst_rect) (rh dst_rect) in
  let src_stride := gfx_stride_pixels (bm_info source) in
  let dst_stride := gfx_stride_pixels (bm_info target) in
  let source_pixels := target_pixels source in
  if bm_format source =? SX_PIXEL_FORMAT_BGRA8888 then
    for_z 0 (rh dst_rect) (fun row px =>
      let destination := (ry dst_rect + row) * dst_stride + rx dst_rect in
      let from := (ry src_rect + row) * src_stride + rx src_rect in
      for_z 0 (rw dst_rect) (fun column px =>
        set_at px (destination + column)
          (sx_blend_bgra8888_over_rgb (at_ 0 px (destination + column))
             (at_ 0 source_pixels (from + column)))) px) px
  else if (rx dst_rect =? 0) && (rx src_rect =? 0) &&
          (rw dst_rect =? dst_stride) && (rw dst_rect =? src_stride) then
    copy_pixels px (ry dst_rect * dst_stride) source_pixels (ry src_rect * src_stride)
      (rw dst_rect * rh dst_rect)
  else
    for_z 0 (rh dst_rect) (fun row px =>
      copy_pixels px ((ry dst_rect + row) * dst_stride + rx dst_rect) source_pixels
        ((ry src_rect + row) * src_stride + rx src_rect) (rw dst_rect)) px.

Definition sx_painter_blit_bitmap (p : sx_painter) (source : option sx_bitmap) (dst_x dst_y : Z) : sx_painter :=
  match source with
  | None => p
  | Some source =>
      match bm_pixels source with
      | None => p
      | Some _ =>
          let dst_x := dst_x + pt_x (p_origin p) in
          let dst_y := dst_y + pt_y (p_origin p) in
          draw p (fun bm px =>
            for_pieces p (sx_rect_make dst_x dst_y (fb_width (bm_info source)) (fb_height (bm_info source)))
              (fun piece px => sx_blit_bitmap_piece bm source px dst_x dst_y piece) px)
      end
  end.

Definition SX_SCALE_NEAREST : Z := 0.
Definition SX_SCALE_BILINEAR : Z := 1.

(** One channel of the bilinear sample. *)
Definition bilinear_channel (p00 p10 p01 p11 wx wy shift : Z) : Z :=
  let c00 := Z.land (Z.shiftr p00 shift) 0xff in
  let c10 := Z.land (Z.shiftr p10 shift) 0xff in
  let c01 := Z.land (Z.shiftr p01 shift) 0xff in
  let c11 := Z.land (Z.shiftr p11 shift) 0xff in
  let top := c00 * (256 - wx) + c10 * wx in
  let low := c01 * (256 - wx) + c11 * wx in
  let value := Z.shiftr (top * (256 - wy) + low * wy + 32768) 16 in
  Z.shiftl (if value >? 255 then 255 else value) shift.

Definition sx_sample_bilinear (source : sx_bitmap) (src_stride : Z) (source_rect : sx_rect) (fx fy : Z) : Z :=
  let x0 := Z.shiftr fx 8 in
  let y0 := Z.shiftr fy 8 in
  let wx := Z.land fx 0xff in
  let wy := Z.land fy 0xff in
  let right := sx_rect_right source_rect - 1 in
  let bottom := sx_rect_bottom source_rect - 1 in
  let x1 := if x0 <? right then x0 + 1 else right in
  let y1 := if y0 <? bottom then y0 + 1 else bottom in
  let texel x y := at_ 0 (target_pixels source) (y * src_stride + x) in
  let p00 := texel x0 y0 in
  let p10 := texel x1 y0 in
  let p01 := texel x0 y1 in
  let p11 := texel x1 y1 in
  fold_left (fun result shift => Z.lor result (bilinear_channel p00 p10 p01 p11 wx wy shift))
            [0; 8; 16; 24] 0.

(** The values a 32-bit [int] and a 64-bit [long] hold. *)
Definition to_int (v : Z) : Z := (v + 2 ^ 31) mod 2 ^ 32 - 2 ^ 31.
Definition to_long (v : Z) : Z := (v + 2 ^ 63) mod 2 ^ 64 - 2 ^ 63.

(** The sample position of one axis, in 8-bit fixed point, clamped to the
    source rectangle: the product in [long], the quotient cast to [int]. *)
Definition bilinear_position (at_pixel dst_start dst_size src_start src_size : Z) : Z :=
  let f := to_int (to_int (Z.quot (to_long (((at_pixel - dst_start) * 2 + 1) * src_size * 128)) dst_size)
                   + to_int (Z.shiftl src_start 8) - 128) in
  let lowest := to_int (Z.shiftl src_start 8) in
  let highest := to_int (Z.shiftl (src_start + src_size - 1) 8) in
  if f <? lowest then lowest else if f >? highest then highest else f.

(** Here the product is an [int]. *)
Definition nearest_position (at_pixel dst_start dst_size src_start src_size : Z) : Z :=
  src_start + Z.quot (to_int ((at_pixel - dst_start) * src_size)) dst_size.

(** The texel a device pixel takes. *)
Definition scaled_sample (source : sx_bitmap) (destination source_rect : sx_rect) (filter x y : Z) : Z :=
  let src_stride := gfx_stride_pixels (bm_info source) in
  if filter =? SX_SCALE_BILINEAR then
    sx_sample_bilinear source src_stride source_rect
      (bilinear_position x (rx destination) (rw destination) (rx source_rect) (rw source_rect))
      (bilinear_position y (ry destination) (rh destination) (ry source_rect) (rh source_rect))
  else
    let source_y := nearest_position y (ry destination) (rh destination) (ry source_rect) (rh source_rect) in
    let source_x := nearest_position x (rx destination) (rw destination) (rx source_rect) (rw source_rect) in
    at_ 0 (target_pixels source) (source_y * src_stride + source_x).

Definition sx_painter_draw_scaled_bitmap (p : sx_painter) (source : option sx_bitmap)
    (destination source_rect : sx_rect) (filter : Z) : sx_painter :=
  match source with
  | None => p
  | Some source =>
      match bm_pixels source with
      | None => p
      | Some _ =>
          if sx_rect_is_empty destination || sx_rect_is_empty source_rect then p
          else
            let source_rect := sx_rect_intersect source_rect
                  (sx_rect_make 0 0 (fb_width (bm_info source)) (fb_height (bm_info source))) in
            if sx_rect_is_empty source_rect then p
            else
              let destination := sx_to_device_rect p destination in
              draw p (fun bm px =>
                let dst_stride := gfx_stride_pixels (bm_info bm) in
                for_pieces p destination (fun target_rect px =>
                  for_z (ry target_rect) (sx_rect_bottom target_rect) (fun y px =>
                    for_z (rx target_rect) (sx_rect_right target_rect) (fun x px =>
                      let source_pixel := scaled_sample source destination source_rect filter x y in
                      if bm_format source =? SX_PIXEL_FORMAT_BGRA8888
                      then set_at px (y * dst_stride + x)
                             (sx_blend_bgra8888_over_rgb (at_ 0 px (y * dst_stride + x)) source_pixel)
                      else set_at px (y * dst_stride + x) source_pixel) px) px) px)
      end
  end.

Definition sx_painter_draw_scaled_bitmap_nearest (p : sx_painter) (source : option sx_bitmap)
    (destination source_rect : sx_rect) : sx_painter :=
  sx_painter_draw_scaled_bitmap p source destination source_rect SX_SCALE_NEAREST.
