(* ===== verification/PainterFacts.v ===== *)
(** * Facts about the painter

    What the clip iterator walks (the visible points, each in exactly one
    piece), what a loop over a piece does to the pixels, and from the two what
    each drawing function does to every pixel of its target. *)

From S2P Require Import Prelude Rect Region RegionFacts RegionLaws Painter.

(** ** Drawing as a change of pixels

    [painted st vis g px px']: with [st] words per row, every pixel of [vis]
    went through [g] exactly once and every other word of the buffer is
    untouched. *)

Definition painted (st : Z) (vis : Z -> Z -> bool) (g : Z -> Z -> Z -> Z) (px px' : list Z) : Prop :=
  length px' = length px /\
  forall x y, 0 <= x < st ->
    at_ 0 px' (y * st + x) =
    if vis x y then g x y (at_ 0 px (y * st + x)) else at_ 0 px (y * st + x).

Lemma painted_none st g px : painted st (fun _ _ => false) g px px.
Proof. done. Qed.

Lemma painted_ext st vis vis' g px px' :
  (forall x y, 0 <= x < st -> vis x y = vis' x y) -> painted st vis g px px' -> painted st vis' g px px'.
Proof. intros E [Hl H]. split; [done|]. intros x y Hx. rewrite <- E by done. by apply H. Qed.

Lemma painted_fun st vis g g' px px' :
  (forall x y v, vis x y = true -> g x y v = g' x y v) -> painted st vis g px px' -> painted st vis g' px px'.
Proof.
  intros E [Hl H]. split; [done|]. intros x y Hx. rewrite (H x y Hx).
  destruct (vis x y) eqn:Hv; [|done]. by apply E.
Qed.

Lemma painted_seq st vis vis' g px px1 px2 :
  (forall x y, vis x y = true -> vis' x y = false) ->
  painted st vis g px px1 -> painted st vis' g px1 px2 ->
  painted st (fun x y => vis x y || vis' x y) g px px2.
Proof.
  intros D [Hl H] [Hl' H']. split; [congruence|]. intros x y Hx. rewrite (H' x y Hx), (H x y Hx).
  destruct (vis x y) eqn:E; simpl; [by rewrite (D x y E)|done].
Qed.

Lemma for_z_shift {S} o n (f : Z -> S -> S) s :
  for_z 0 n (fun i => f (o + i)) s = for_z o (o + n) f s.
Proof.
  unfold for_z. replace (o + n - o) with (n - 0) by lia. generalize (seq 0 (Z.to_nat (n - 0))). intros l.
  revert s. induction l as [|i l IH]; intros s; simpl; [done|].
  replace (o + (0 + Z.of_nat i)) with (o + Z.of_nat i) by lia. apply IH.
Qed.

(** The cells of two pixels are different cells. *)
Lemma cell_inj st x y x' y' :
  0 <= x < st -> 0 <= x' < st -> y * st + x = y' * st + x' -> x = x' /\ y = y'.
Proof. intros. assert (y = y') by nia. subst. lia. Qed.

Lemma cell_painted st g px x y :
  0 <= x < st -> 0 <= y -> y * st + x < zlen px ->
  painted st (fun x' y' => (x' =? x) && (y' =? y)) g px
    (set_at px (y * st + x) (g x y (at_ 0 px (y * st + x)))).
Proof.
  intros Hx Hy Hl. split; [apply length_set_at|]. intros x' y' Hx'.
  rewrite at_set_at by nia. destruct ((x' =? x) && (y' =? y)) eqn:E.
  - replace x' with x by lia. replace y' with y by lia. by rewrite Z.eqb_refl.
  - destruct (y * st + x =? y' * st + x') eqn:E'; [|done].
    destruct (cell_inj st x y x' y'); lia.
Qed.

Definition in_box (x0 x1 y0 y1 x y : Z) : bool :=
  (x0 <=? x) && (x <? x1) && (y0 <=? y) && (y <? y1).

(** A double loop whose turns each paint their own cell paints the box.  The
    buffer keeps its length, so the turn's proof may assume it. *)
Lemma box_painted st g px x0 x1 y0 y1 (cell : Z -> Z -> list Z -> list Z) :
  0 <= x0 -> x1 <= st -> 0 <= y0 -> x0 <= x1 -> y0 <= y1 ->
  (forall x y px', length px' = length px -> x0 <= x < x1 -> y0 <= y < y1 ->
     painted st (fun x' y' => (x' =? x) && (y' =? y)) g px' (cell x y px')) ->
  painted st (in_box x0 x1 y0 y1) g px (for_z y0 y1 (fun y px => for_z x0 x1 (fun x px => cell x y px) px) px).
Proof.
  intros Hx0 Hx1 Hy0 Hx Hy Hc.
  apply (for_z_ind (fun y px' => painted st (in_box x0 x1 y0 y) g px px')); [done| |].
  { eapply painted_ext; [|apply painted_none]. intros x y _. unfold in_box. lia. }
  intros y px' Hy' Hp. assert (Hl : length px' = length px) by apply Hp.
  eapply painted_ext; [|eapply painted_seq; [|exact Hp|]].
  - intros a b _. instantiate (1 := in_box x0 x1 y (y + 1)). unfold in_box. lia.
  - intros a b. unfold in_box. lia.
  - apply (for_z_ind (fun x px2 => painted st (in_box x0 x y (y + 1)) g px' px2)); [done| |].
    + eapply painted_ext; [|apply painted_none]. intros a b _. unfold in_box. lia.
    + intros x px2 Hx' Hp2. assert (Hl2 : length px2 = length px) by (destruct Hp2; congruence).
      eapply painted_ext; [|eapply painted_seq; [|exact Hp2|apply Hc; [done|lia|lia]]];
        intros a b; unfold in_box; lia.
Qed.

(** [memcpy] cell by cell. *)
Lemma copy_pixels_at px d src from n j :
  0 <= d -> 0 <= n -> d + n <= zlen px ->
  zlen (copy_pixels px d src from n) = zlen px /\
  at_ 0 (copy_pixels px d src from n) j =
  if (d <=? j) && (j <? d + n) then at_ 0 src (from + (j - d)) else at_ 0 px j.
Proof.
  intros Hd Hn Hl. unfold copy_pixels.
  apply (for_z_ind (fun i px' => zlen px' = zlen px /\
    at_ 0 px' j = if (d <=? j) && (j <? d + i) then at_ 0 src (from + (j - d)) else at_ 0 px j)); [done| |].
  - split; [done|]. case_if; [lia|done].
  - intros i px' Hi [Hl' Hj]. split; [by rewrite zlen_set_at|].
    rewrite at_set_at by lia. rewrite Hj. destruct (d + i =? j) eqn:E.
    + destruct ((d <=? j) && (j <? d + (i + 1))) eqn:?; [|lia]. f_equal. lia.
    + repeat case_if; try done; lia.
Qed.

(** ** What the clip iterator walks *)

Definition shift_rect (o : sx_point) (q : sx_rect) : sx_rect := sx_rect_translate q (pt_x o) (pt_y o).

Definition clip_piece (p : sx_painter) (rect q : sx_rect) : option sx_rect :=
  let piece := sx_rect_intersect q rect in
  if sx_rect_is_empty piece then None else target_clip p piece.

Definition region_rects (o : sx_point) (bands : list sx_region_band) : list sx_rect :=
  map (shift_rect o) (band_rects bands).

Definition clip_pieces (p : sx_painter) (device_rect : sx_rect) : list sx_rect :=
  let rect := sx_apply_painter_clip p device_rect in
  if sx_rect_is_empty rect then []
  else match p_clip_region p with
       | Some (mk_region (b :: bs) _) =>
           omap (clip_piece p rect) (region_rects (p_clip_region_origin p) (b :: bs))
       | _ => option_list (target_clip p rect)
       end.

(** The spans the iterator has not reached. *)
Definition rest_rects (o : sx_point) (bands : list sx_region_band) (band span : Z) : list sx_rect :=
  map (shift_rect o)
    (map (span_rect (at_ band0 bands band)) (drop (Z.to_nat span) (bd_spans (at_ band0 bands band)))
     ++ band_rects (drop (S (Z.to_nat band)) bands)).

Lemma rest_rects_start o bands : rest_rects o bands 0 0 = region_rects o bands.
Proof.
  unfold rest_rects, region_rects. change (Z.to_nat 0) with 0%nat. rewrite drop_0.
  by destruct bands.
Qed.

Lemma rest_rects_end o bands band : zlen bands <= band -> rest_rects o bands band 0 = [].
Proof.
  intros H. unfold rest_rects. rewrite at_out by done. rewrite (drop_ge bands); [done|]. unfold zlen in H. lia.
Qed.

Lemma rest_rects_band o bands band span :
  0 <= band < zlen bands -> zlen (bd_spans (at_ band0 bands band)) <= span ->
  rest_rects o bands band span = rest_rects o bands (band + 1) 0.
Proof.
  intros Hb Hs. unfold rest_rects, zlen in *. rewrite (drop_ge (bd_spans _)) by lia. cbn [map app].
  f_equal. replace (Z.to_nat (band + 1)) with (S (Z.to_nat band)) by lia.
  change (Z.to_nat 0) with 0%nat. rewrite drop_0.
  destruct (Z_lt_le_dec (band + 1) (Z.of_nat (length bands))) as [Hlt|Hge].
  - rewrite (drop_S_cons band0 bands (S (Z.to_nat band))) by lia. cbn [band_rects flat_map].
    unfold at_. destruct (band + 1 <? 0) eqn:?; [lia|].
    by replace (Z.to_nat (band + 1)) with (S (Z.to_nat band)) by lia.
  - rewrite !drop_ge by lia. rewrite at_out; [done|]. unfold zlen. lia.
Qed.

Lemma rest_rects_span o bands band span :
  0 <= span < zlen (bd_spans (at_ band0 bands band)) ->
  rest_rects o bands band span =
  shift_rect o (span_rect (at_ band0 bands band) (at_ span0 (bd_spans (at_ band0 bands band)) span))
  :: rest_rects o bands band (span + 1).
Proof.
  intros Hs. unfold rest_rects. unfold zlen in Hs.
  rewrite (drop_S_cons span0 _ (Z.to_nat span)) by lia. cbn [map app].
  replace (Z.to_nat (span + 1)) with (S (Z.to_nat span)) by lia.
  assert (E : forall l, at_ span0 l span = nth (Z.to_nat span) l span0)
    by (intros l; unfold at_; destruct (span <? 0) eqn:?; [lia|done]).
  by rewrite E.
Qed.

(** The pieces an iterator that walks a region has still to give. *)
Definition pieces_left (bands : list sx_region_band) (it : sx_clip_iter) : list sx_rect :=
  omap (clip_piece (it_painter it) (it_rect it))
    (rest_rects (p_clip_region_origin (it_painter it)) bands (it_band it) (it_span it)).

Definition same_walk (it it' : sx_clip_iter) : Prop :=
  it_painter it' = it_painter it /\ it_rect it' = it_rect it /\ 0 <= it_band it' /\ 0 <= it_span it'.

Lemma clip_while_spec bands fuel : forall it,
  0 <= it_band it -> 0 <= it_span it ->
  (length bands - Z.to_nat (it_band it)
   + length (rest_rects (p_clip_region_origin (it_painter it)) bands (it_band it) (it_span it)) < fuel)%nat ->
  match pieces_left bands it with
  | [] => snd (clip_iter_while fuel bands it) = None
  | q :: rest => exists it', clip_iter_while fuel bands it = (it', Some q) /\
                   same_walk it it' /\ pieces_left bands it' = rest
  end.
Proof.
  induction fuel as [|fuel IH]; intros it Hb Hs Hf; [lia|].
  destruct it as [p rect band span e]. cbn [it_painter it_rect it_band it_span it_emitted_plain] in *.
  cbn [clip_iter_while it_painter it_rect it_band it_span it_emitted_plain].
  destruct (band <? zlen bands) eqn:Eb.
  2:{ unfold pieces_left. cbn [it_painter it_rect it_band it_span]. unfold rest_rects.
      rewrite at_out by lia. unfold zlen in *. rewrite (drop_ge bands) by lia.
      change (bd_spans band0) with (@nil sx_region_span). by rewrite drop_nil. }
  destruct (span >=? zlen (bd_spans (at_ band0 bands band))) eqn:Es.
  - specialize (IH (mk_iter p rect (band + 1) 0 e)). unfold pieces_left, same_walk in *.
    cbn [it_painter it_rect it_band it_span it_emitted_plain] in *.
    rewrite (rest_rects_band _ bands band span) by lia. apply IH; [lia..|].
    rewrite <- (rest_rects_band _ bands band span) by lia. unfold zlen in *. lia.
  - specialize (IH (mk_iter p rect band (span + 1) e)). unfold pieces_left, same_walk in *.
    cbn [it_painter it_rect it_band it_span it_emitted_plain] in *.
    rewrite (rest_rects_span _ bands band span) in * by lia. cbn [length omap list_omap] in *.
    set (s := at_ span0 (bd_spans (at_ band0 bands band)) span) in *.
    set (o := p_clip_region_origin p) in *.
    replace (sx_rect_make (sp_x0 s + pt_x o) (bd_y0 (at_ band0 bands band) + pt_y o) (sp_x1 s - sp_x0 s)
               (bd_y1 (at_ band0 bands band) + pt_y o - (bd_y0 (at_ band0 bands band) + pt_y o)))
      with (shift_rect o (span_rect (at_ band0 bands band) s))
      by (unfold shift_rect, span_rect, sx_rect_translate, sx_rect_make; simpl; f_equal; lia).
    unfold clip_piece at 1. cbv zeta. destruct (sx_rect_is_empty _) eqn:Ee.
    { apply IH; lia. }
    destruct (target_clip p _) as [out|] eqn:Et; [|apply IH; lia].
    eexists. split; [done|]. simpl. split_and!; try done. lia.
Qed.

Lemma rest_rects_length o bands : length (region_rects o bands) = length (flat_map bd_spans bands).
Proof.
  unfold region_rects, band_rects. rewrite length_map.
  induction bands as [|b t IH]; simpl; [done|]. by rewrite !length_app, length_map, IH.
Qed.

Lemma omap_length {A B} (f : A -> option B) l : (length (omap f l) <= length l)%nat.
Proof.
  induction l as [|a l IH]; [done|]. cbn [omap list_omap length] in *.
  destruct (f a); cbn [length]; unfold omap in *; lia.
Qed.

Lemma rest_rects_le o bands band span : 0 <= band -> 0 <= span ->
  (length (rest_rects o bands band span) <= length (region_rects o bands))%nat.
Proof.
  intros Hb Hs. unfold rest_rects, region_rects. rewrite !length_map.
  destruct (Z_lt_le_dec band (zlen bands)) as [Hlt|Hge].
  - unfold zlen in Hlt. rewrite <- (take_drop (Z.to_nat band) bands) at 4.
    rewrite (drop_S_cons band0 bands (Z.to_nat band)) by lia.
    unfold band_rects at 2. rewrite flat_map_app. cbn [flat_map].
    replace (at_ band0 bands band) with (nth (Z.to_nat band) bands band0)
      by (unfold at_; destruct (band <? 0) eqn:?; [lia|done]).
    unfold band_rects. rewrite !length_app, !length_map, length_drop. lia.
  - rewrite at_out by done. unfold zlen in Hge. rewrite (drop_ge bands) by lia.
    change (bd_spans band0) with (@nil sx_region_span). rewrite drop_nil. simpl. lia.
Qed.

(** The iterator of a region walks its pieces in order. *)
Lemma clip_loop_region {S} p region bands fuel (body : sx_rect -> S -> S) : forall it s,
  it_painter it = p -> p_clip_region p = Some region -> rg_bands region = bands -> bands <> [] ->
  sx_rect_is_empty (it_rect it) = false -> 0 <= it_band it -> 0 <= it_span it ->
  (length (pieces_left bands it) < fuel)%nat ->
  clip_loop fuel it body s = fold_left (fun s q => body q s) (pieces_left bands it) s.
Proof.
  induction fuel as [|fuel IH]; intros it s Hp Hr Hbs Hne He Hb Hs Hf; [lia|].
  cbn [clip_loop]. unfold sx_clip_iter_next. rewrite Hp, He, Hr, Hbs.
  assert (Hz : (zlen bands <=? 0) = false) by (unfold zlen; destruct bands; [done|simpl; lia]). rewrite Hz.
  pose proof (clip_while_spec bands (clip_iter_fuel bands) it Hb Hs) as Hw. rewrite Hp in Hw.
  pose proof (rest_rects_le (p_clip_region_origin p) bands _ _ Hb Hs) as Hle.
  rewrite rest_rects_length in Hle. specialize (Hw ltac:(unfold clip_iter_fuel; lia)).
  destruct (pieces_left bands it) as [|q rest] eqn:El.
  - destruct (clip_iter_while _ _ _) as [it' o]. simpl in Hw. by subst o.
  - destruct Hw as (it' & -> & (H1 & H2 & H3 & H4) & H5). cbn [fold_left]. rewrite <- H5. apply IH.
    + congruence.
    + done.
    + done.
    + done.
    + congruence.
    + done.
    + done.
    + rewrite H5. simpl in Hf. lia.
Qed.

Lemma for_pieces_fold {S} p dev (body : sx_rect -> S -> S) s :
  for_pieces p dev body s = fold_left (fun s q => body q s) (clip_pieces p dev) s.
Proof.
  unfold for_pieces, clip_pieces, clip_loop_fuel.
  destruct (sx_rect_is_empty (sx_apply_painter_clip p dev)) eqn:Ee.
  { destruct (p_clip_region p); cbn [clip_loop Nat.add]; unfold sx_clip_iter_next, sx_clip_iter_init;
      cbn [it_rect it_painter]; by rewrite Ee. }
  assert (Hplain : forall fuel,
            (forall it, it_painter it = p -> it_rect it = sx_apply_painter_clip p dev ->
               sx_clip_iter_next it =
               if it_emitted_plain it then (it, None)
               else (mk_iter p (it_rect it) (it_band it) (it_span it) true, target_clip p (it_rect it))) ->
            clip_loop (2 + fuel) (sx_clip_iter_init p dev) body s =
            fold_left (fun s q => body q s) (option_list (target_clip p (sx_apply_painter_clip p dev))) s).
  { intros fuel Hn. cbn [clip_loop Nat.add]. rewrite Hn by done. cbn [sx_clip_iter_init it_emitted_plain it_rect].
    destruct (target_clip p _); [|done]. by rewrite Hn. }
  destruct (p_clip_region p) as [[[|b bs] ov]|] eqn:Er.
  - apply Hplain. intros it Hp Hrect. unfold sx_clip_iter_next. by rewrite Hp, Hrect, Ee, Er.
  - assert (Hl : pieces_left (b :: bs) (sx_clip_iter_init p dev) =
                 omap (clip_piece p (sx_apply_painter_clip p dev))
                      (region_rects (p_clip_region_origin p) (b :: bs)))
      by (unfold pieces_left; cbn [sx_clip_iter_init it_painter it_rect it_band it_span];
          by rewrite rest_rects_start).
    rewrite (clip_loop_region p (mk_region (b :: bs) ov) (b :: bs)); rewrite ?Hl; try done.
    pose proof (omap_length (clip_piece p (sx_apply_painter_clip p dev))
                  (region_rects (p_clip_region_origin p) (b :: bs))).
    rewrite rest_rects_length in *. cbn [rg_bands]. lia.
  - apply (Hplain 0%nat). intros it Hp Hrect. unfold sx_clip_iter_next. by rewrite Hp, Hrect, Ee, Er.
Qed.

(** ** Which pixels a painter lets through *)

Definition region_shows (p : sx_painter) (x y : Z) : bool :=
  match p_clip_region p with
  | Some r =>
      sx_region_is_empty r ||
      sx_region_contains_point r (x - pt_x (p_clip_region_origin p)) (y - pt_y (p_clip_region_origin p))
  | None => true
  end.

Definition clip_shows (p : sx_painter) (x y : Z) : bool :=
  (negb (p_has_clip p) || sx_rect_contains_point (p_clip_rect p) x y) && region_shows p x y.

Definition bitmap_shows (bm : sx_bitmap) (x y : Z) : bool :=
  sx_rect_contains_point (buffer_rect (fb_width (bm_info bm)) (fb_height (bm_info bm))) x y.

Definition draw_shows (p : sx_painter) (bm : sx_bitmap) (dev : sx_rect) (x y : Z) : bool :=
  sx_rect_contains_point dev x y && clip_shows p x y && bitmap_shows bm x y.

(** A buffer that holds the rows its geometry says. *)
Definition bitmap_ok (bm : sx_bitmap) : Prop :=
  exists px, bm_pixels bm = Some px /\
    0 <= fb_width (bm_info bm) <= gfx_stride_pixels (bm_info bm) /\ 0 <= fb_height (bm_info bm) /\
    0 < gfx_stride_pixels (bm_info bm) /\
    gfx_stride_pixels (bm_info bm) * fb_height (bm_info bm) <= zlen px.

Definition clip_ok (p : sx_painter) : Prop :=
  forall r, p_clip_region p = Some r -> region_ok r.

Lemma bitmap_clip_points w h r q :
  sx_clip_rect_to_bitmap w h r = Some q ->
  sx_rect_is_empty q = false /\ forall x y, in_rect q x y <-> in_rect r x y /\ in_rect (buffer_rect w h) x y.
Proof. rewrite (clip_to_bitmap_agrees 1) by lia. apply gfx_clip_rect_points. Qed.

Lemma bitmap_clip_none w h r x y :
  sx_clip_rect_to_bitmap w h r = None -> ~ (in_rect r x y /\ in_rect (buffer_rect w h) x y).
Proof. rewrite (clip_to_bitmap_agrees 1) by lia. intros H. by apply (gfx_clip_rect_none 1). Qed.

Lemma target_clip_points p bm r :
  p_target p = Some bm -> bitmap_ok bm ->
  forall x y, Exists (fun q => in_rect q x y) (option_list (target_clip p r)) <->
              in_rect r x y /\ in_rect (buffer_rect (fb_width (bm_info bm)) (fb_height (bm_info bm))) x y.
Proof.
  intros Ht (px & Hpx & _) x y. unfold target_clip. rewrite Ht, Hpx.
  destruct (sx_clip_rect_to_bitmap _ _ r) as [q|] eqn:E; simpl.
  - rewrite Exists_cons, Exists_nil. rewrite (proj2 (bitmap_clip_points _ _ _ _ E)). tauto.
  - rewrite Exists_nil. split; [done|]. intros H. by apply (bitmap_clip_none _ _ _ _ _ E) in H.
Qed.

Lemma in_rect_shift o q x y : in_rect (shift_rect o q) x y <-> in_rect q (x - pt_x o) (y - pt_y o).
Proof. unfold shift_rect, in_rect, sx_rect_translate. simpl. lia. Qed.

Lemma region_rects_points o bands x y :
  Exists (fun q => in_rect q x y) (region_rects o bands) <-> in_bands bands (x - pt_x o) (y - pt_y o).
Proof.
  unfold region_rects. rewrite Exists_map, <- band_rects_points. unfold compose.
  rewrite !list_exists_elem. setoid_rewrite in_rect_shift. done.
Qed.

Lemma exists_omap {A B} (f : A -> option B) (P : B -> Prop) l :
  Exists P (omap f l) <-> Exists (fun a => Exists P (option_list (f a))) l.
Proof.
  induction l as [|a l IH]; [by rewrite !Exists_nil|].
  rewrite Exists_cons, <- IH. cbn [omap list_omap]. destruct (f a); simpl.
  - rewrite !Exists_cons, Exists_nil. tauto.
  - rewrite Exists_nil. tauto.
Qed.

Lemma clip_piece_points p bm rect q :
  p_target p = Some bm -> bitmap_ok bm ->
  forall x y, Exists (fun q => in_rect q x y) (option_list (clip_piece p rect q)) <->
              in_rect q x y /\ in_rect rect x y /\
              in_rect (buffer_rect (fb_width (bm_info bm)) (fb_height (bm_info bm))) x y.
Proof.
  intros Ht Hb x y. unfold clip_piece. destruct (sx_rect_is_empty _) eqn:E.
  - simpl. rewrite Exists_nil. pose proof (in_rect_empty _ x y E) as H. rewrite in_rect_intersect in H. tauto.
  - rewrite (target_clip_points p bm) by done. rewrite in_rect_intersect. tauto.
Qed.

Lemma clip_rect_points p dev x y :
  in_rect (sx_apply_painter_clip p dev) x y <->
  in_rect dev x y /\ (p_has_clip p = true -> in_rect (p_clip_rect p) x y).
Proof.
  unfold sx_apply_painter_clip. destruct (p_has_clip p); simpl; [rewrite in_rect_intersect|]; intuition congruence.
Qed.

(** The pieces are the visible points, all of them and no others. *)
Lemma clip_pieces_points p bm dev x y :
  p_target p = Some bm -> bitmap_ok bm -> clip_ok p ->
  Exists (fun q => in_rect q x y) (clip_pieces p dev) <-> draw_shows p bm dev x y = true.
Proof.
  intros Ht Hb Hc.
  assert (Hs : draw_shows p bm dev x y = true <->
    in_rect (sx_apply_painter_clip p dev) x y /\ region_shows p x y = true /\
    in_rect (buffer_rect (fb_width (bm_info bm)) (fb_height (bm_info bm))) x y).
  { unfold draw_shows, clip_shows, bitmap_shows. rewrite !andb_true_iff, orb_true_iff, negb_true_iff.
    rewrite !contains_point_iff, clip_rect_points. destruct (p_has_clip p); intuition congruence. }
  rewrite Hs. clear Hs. unfold clip_pieces. destruct (sx_rect_is_empty _) eqn:Ee.
  { rewrite Exists_nil. pose proof (in_rect_empty _ x y Ee). tauto. }
  unfold region_shows. destruct (p_clip_region p) as [[[|b bs] ov]|] eqn:Er.
  - rewrite (target_clip_points p bm) by done. simpl. tauto.
  - rewrite exists_omap. destruct (Hc _ Er) as [Hok _].
    unfold sx_region_contains_point. cbn [rg_bands sx_region_is_empty orb].
    rewrite (contains_from_iff None) by done. rewrite <- region_rects_points.
    setoid_rewrite (clip_piece_points p bm); [|done..]. rewrite !list_exists_elem. naive_solver.
  - rewrite (target_clip_points p bm) by done. tauto.
Qed.

Definition piece_in (bm : sx_bitmap) (q : sx_rect) : Prop :=
  0 <= rx q /\ 0 < rw q /\ rx q + rw q <= fb_width (bm_info bm) /\
  0 <= ry q /\ 0 < rh q /\ ry q + rh q <= fb_height (bm_info bm).

Lemma target_clip_in p bm r q :
  p_target p = Some bm -> target_clip p r = Some q ->
  piece_in bm q /\ forall x y, in_rect q x y -> in_rect r x y.
Proof.
  intros Ht H. unfold target_clip in H. rewrite Ht in H. destruct (bm_pixels bm); [|done].
  destruct (bitmap_clip_points _ _ _ _ H) as [He Hq]. split; [|intros x y K; by apply Hq].
  assert (H0 : in_rect q (rx q) (ry q)) by (revert He; rect_unfold; lia).
  assert (H1 : in_rect q (rx q + rw q - 1) (ry q + rh q - 1)) by (revert He; rect_unfold; lia).
  apply Hq in H0 as [_ H0]. apply Hq in H1 as [_ H1]. revert He H0 H1.
  unfold piece_in, buffer_rect, in_rect, sx_rect_is_empty. simpl. lia.
Qed.

Lemma clip_piece_in p bm rect q r :
  p_target p = Some bm -> clip_piece p rect q = Some r ->
  piece_in bm r /\ forall x y, in_rect r x y -> in_rect q x y.
Proof.
  intros Ht. unfold clip_piece. case_if; [done|]. intros H.
  destruct (target_clip_in p bm _ _ Ht H) as [H1 H2]. split; [done|].
  intros x y K. apply H2, in_rect_intersect in K. tauto.
Qed.

Lemma ordpairs_omap {A B} (f : A -> option B) (R : A -> A -> Prop) (R' : B -> B -> Prop) l :
  (forall a a' b b', R a a' -> f a = Some b -> f a' = Some b' -> R' b b') ->
  ForallOrdPairs R l -> ForallOrdPairs R' (omap f l).
Proof.
  intros Hf. induction 1 as [|a l Ha Hl IH]; [constructor|]. cbn [omap list_omap].
  destruct (f a) as [b|] eqn:E; [|done]. constructor; [|done].
  apply List.Forall_forall. intros b' Hb'. apply list_elem_of_In in Hb'.
  apply list_elem_of_omap in Hb' as (a' & Ha' & E').
  rewrite List.Forall_forall in Ha. eapply Hf; [apply Ha, list_elem_of_In, Ha'|done..].
Qed.

Lemma shift_disjoint o l :
  ForallOrdPairs disjoint_rects l -> ForallOrdPairs disjoint_rects (map (shift_rect o) l).
Proof.
  induction 1 as [|q l Hq Hl IH]; simpl; constructor; [|done].
  apply List.Forall_forall. intros r (r' & <- & Hr)%in_map_iff x y. rewrite !in_rect_shift.
  rewrite List.Forall_forall in Hq. apply (Hq r' Hr).
Qed.

Lemma clip_pieces_disjoint p bm dev :
  p_target p = Some bm -> clip_ok p -> ForallOrdPairs disjoint_rects (clip_pieces p dev).
Proof.
  intros Ht Hc. unfold clip_pieces. case_if; [constructor|].
  assert (Hone : ForallOrdPairs disjoint_rects (option_list (target_clip p (sx_apply_painter_clip p dev))))
    by (destruct (target_clip _ _); repeat constructor).
  destruct (p_clip_region p) as [[[|b bs] ov]|] eqn:Er; [done| |done].
  destruct (Hc _ Er) as [Hok _]. eapply ordpairs_omap; [|apply shift_disjoint; by eapply band_rects_disjoint].
  intros q q' r r' D H H' x y Hr Hr'.
  apply (D x y); [by apply (clip_piece_in p bm _ _ _ Ht H)|by apply (clip_piece_in p bm _ _ _ Ht H')].
Qed.

Lemma clip_pieces_in p bm dev :
  p_target p = Some bm -> Forall (piece_in bm) (clip_pieces p dev).
Proof.
  intros Ht. unfold clip_pieces. case_if; [constructor|].
  assert (Hone : Forall (piece_in bm) (option_list (target_clip p (sx_apply_painter_clip p dev)))).
  { destruct (target_clip _ _) eqn:E; simpl; [|done]. apply Forall_singleton. by eapply target_clip_in. }
  destruct (p_clip_region p) as [[[|b bs] ov]|] eqn:Er; [done| |done].
  apply Forall_forall. intros r (q & _ & H)%list_elem_of_omap. by eapply clip_piece_in.
Qed.

Definition shows_rect (q : sx_rect) : Z -> Z -> bool := sx_rect_contains_point q.

(** Drawing disjoint pieces one after the other paints their union. *)
Lemma fold_painted st g (body : sx_rect -> list Z -> list Z) (P : sx_rect -> Prop) n l : forall px,
  (forall q px', P q -> length px' = n -> painted st (shows_rect q) g px' (body q px')) ->
  length px = n -> Forall P l -> ForallOrdPairs disjoint_rects l ->
  painted st (fun x y => existsb (fun q => sx_rect_contains_point q x y) l) g px
    (fold_left (fun px q => body q px) l px).
Proof.
  induction l as [|q l IH]; intros px Hb Hn HP HD; [apply painted_none|].
  apply Forall_cons in HP as [Hq HP]. inversion HD as [|? ? Hd HD']; subst.
  pose proof (Hb q px Hq eq_refl) as H1. cbn [fold_left existsb]. eapply painted_seq; [|exact H1|].
  - intros x y Hx. apply contains_point_iff in Hx. apply not_true_is_false. intros He.
    apply existsb_exists in He as (r & Hr & Hrx). apply contains_point_iff in Hrx.
    rewrite List.Forall_forall in Hd. by apply (Hd r Hr x y Hx).
  - apply IH; [|by destruct H1|done..]. intros r px' Hr Hl. by apply Hb.
Qed.

(** The one lemma behind every primitive: a body that paints any piece of the
    bitmap paints, over the whole walk, the visible points of the shape. *)
Lemma for_pieces_painted p bm px dev g (body : sx_rect -> list Z -> list Z) :
  p_target p = Some bm -> bm_pixels bm = Some px -> bitmap_ok bm -> clip_ok p ->
  (forall q px', piece_in bm q -> length px' = length px ->
     painted (gfx_stride_pixels (bm_info bm)) (shows_rect q) g px' (body q px')) ->
  painted (gfx_stride_pixels (bm_info bm)) (draw_shows p bm dev) g px (for_pieces p dev body px).
Proof.
  intros Ht Hpx Hb Hc Hbody. rewrite for_pieces_fold.
  eapply painted_ext; [|eapply (fold_painted _ g body (piece_in bm) (length px))].
  - intros x y _. apply eq_true_iff_eq. rewrite <- (clip_pieces_points p bm dev x y Ht Hb Hc).
    rewrite existsb_exists, list_exists_elem. setoid_rewrite list_elem_of_In.
    by setoid_rewrite contains_point_iff.
  - intros q px' Hq Hl. by apply Hbody.
  - done.
  - by apply clip_pieces_in.
  - by apply (clip_pieces_disjoint p bm).
Qed.
