(* ===== verification/PainterLaws.v ===== *)
(** * What the painter draws

    Each primitive changes exactly the visible pixels of its shape, each of
    them once, and no other word of the buffer; the clip rectangle confines
    whatever is drawn between a push and its pop. *)

From S2P Require Import Prelude Rect Region RegionFacts RegionLaws Painter PainterFacts.

(** ** Primitives *)

Definition with_pixels (p : sx_painter) (bm : sx_bitmap) (px : list Z) : sx_painter :=
  mk_painter (Some (mk_bitmap (Some px) (bm_info bm) (bm_format bm) (bm_owns_pixels bm)))
    (p_clip_rect p) (p_has_clip p) (p_saved p) (p_origin p) (p_saved_origin p) (p_font p)
    (p_clip_region p) (p_clip_region_origin p).

(** From [p] to [p'] only the pixels of the target changed, those of [vis]
    through [g]. *)
Definition draws (p : sx_painter) (bm : sx_bitmap) (p' : sx_painter)
    (vis : Z -> Z -> bool) (g : Z -> Z -> Z -> Z) : Prop :=
  exists px', p' = with_pixels p bm px' /\
    painted (gfx_stride_pixels (bm_info bm)) vis g (target_pixels bm) px'.

(** A painter ready to draw. *)
Definition painter_ok (p : sx_painter) (bm : sx_bitmap) : Prop :=
  p_target p = Some bm /\ bitmap_ok bm /\ clip_ok p.

Lemma with_pixels_same p bm : painter_ok p bm -> with_pixels p bm (target_pixels bm) = p.
Proof.
  intros (Ht & (px & Hpx & _) & _). unfold with_pixels, target_pixels. rewrite Hpx.
  destruct p, bm. simpl in *. by subst.
Qed.

Lemma draws_none p bm g : painter_ok p bm -> draws p bm p (fun _ _ => false) g.
Proof. intros Hp. exists (target_pixels bm). by rewrite with_pixels_same. Qed.

Lemma draw_draws p bm vis g f :
  painter_ok p bm ->
  (forall px, bm_pixels bm = Some px -> painted (gfx_stride_pixels (bm_info bm)) vis g px (f bm px)) ->
  draws p bm (draw p f) vis g.
Proof.
  intros (Ht & (px & Hpx & _) & _) Hf. unfold draws, draw. rewrite Ht, Hpx.
  exists (f bm px). split; [done|]. unfold target_pixels. rewrite Hpx. by apply Hf.
Qed.

Lemma walk_draws p bm dev g body :
  painter_ok p bm ->
  (forall q px', piece_in bm q -> (forall px, bm_pixels bm = Some px -> length px' = length px) ->
     painted (gfx_stride_pixels (bm_info bm)) (shows_rect q) g px' (body bm q px')) ->
  draws p bm (draw p (fun bm px => for_pieces p dev (body bm) px)) (draw_shows p bm dev) g.
Proof.
  intros Hp Hb. apply (draw_draws p bm _ _ (fun bm px => for_pieces p dev (body bm) px)); [done|].
  intros px Hpx. destruct Hp as (Ht & Hbm & Hc). apply for_pieces_painted; try done.
  intros q px' Hq Hl. apply Hb; [done|]. intros px2 E. rewrite Hpx in E. by simplify_eq.
Qed.

Lemma shows_box q x y : 0 < rw q -> 0 < rh q ->
  in_box (rx q) (rx q + rw q) (ry q) (ry q + rh q) x y = shows_rect q x y.
Proof. unfold shows_rect, in_box. rect_unfold. intros. lia. Qed.

Lemma piece_cell bm q (px : list Z) x y :
  bitmap_ok bm -> piece_in bm q -> (forall px', bm_pixels bm = Some px' -> length px = length px') ->
  rx q <= x < rx q + rw q -> ry q <= y < ry q + rh q ->
  0 <= x < gfx_stride_pixels (bm_info bm) /\ 0 <= y /\ y * gfx_stride_pixels (bm_info bm) + x < zlen px.
Proof.
  intros (px0 & Hpx & Hw & Hh & Hs & Hl) (? & ? & ? & ? & ? & ?) Hlen Hx Hy.
  specialize (Hlen _ Hpx). unfold zlen in *. rewrite Hlen. nia.
Qed.

(** A piece drawn by a double loop over its cells. *)
Lemma loop_painted bm q g px (cell : Z -> Z -> list Z -> list Z) :
  bitmap_ok bm -> piece_in bm q -> (forall px', bm_pixels bm = Some px' -> length px = length px') ->
  (forall x y px', cell x y px' = set_at px' (y * gfx_stride_pixels (bm_info bm) + x)
                                    (g x y (at_ 0 px' (y * gfx_stride_pixels (bm_info bm) + x))) \/
                   (cell x y px' = px' /\ forall v, g x y v = v)) ->
  painted (gfx_stride_pixels (bm_info bm)) (shows_rect q) g px
    (for_z (ry q) (ry q + rh q) (fun y px => for_z (rx q) (rx q + rw q) (fun x px => cell x y px) px) px).
Proof.
  intros Hb Hq Hlen Hc. pose proof Hq as (? & ? & ? & ? & ? & ?). pose proof Hb as (px0 & Hpx & Hw & Hh & Hs & Hl).
  eapply painted_ext; [intros x y _; apply (shows_box q x y); lia|].
  apply box_painted; [lia..|]. intros x y px' Hl' Hx Hy.
  destruct (piece_cell bm q px' x y Hb Hq) as (C1 & C2 & C3); [|done..|].
  { intros px2 E. rewrite Hl'. by apply Hlen. }
  destruct (Hc x y px') as [->|[-> Hid]]; [by apply cell_painted|].
  split; [done|]. intros x' y' _. by destruct ((x' =? x) && (y' =? y)) eqn:E;
    [replace x' with x by lia; replace y' with y by lia; rewrite Hid|].
Qed.

Lemma piece_clip_id bm q :
  piece_in bm q -> fb_pitch (bm_info bm) <> 0 ->
  gfx_clip_rect (fb_pitch (bm_info bm)) (fb_width (bm_info bm)) (fb_height (bm_info bm)) q = Some q.
Proof.
  intros (? & ? & ? & ? & ? & ?) Hp. unfold gfx_clip_rect. destruct q as [x y w h]. simpl in *.
  repeat (case_if; simpl; try lia); f_equal; f_equal; lia.
Qed.

Lemma stride_pitch info : 0 < gfx_stride_pixels info -> fb_pitch info <> 0 /\ gfx_stride_pixels info = fb_pitch info / 4.
Proof. unfold gfx_stride_pixels. case_if; lia. Qed.

Lemma fill_device_draws p bm rect colour :
  painter_ok p bm ->
  draws p bm (sx_fill_rect_device p rect colour) (draw_shows p bm rect) (fun _ _ _ => colour).
Proof.
  intros Hp. unfold sx_fill_rect_device.
  apply (walk_draws p bm rect _ (fun bm piece px => gfx_rect px (bm_info bm) piece colour) Hp).
  intros q px Hq Hl. destruct Hp as (_ & Hb & _). pose proof Hb as (px0 & _ & _ & _ & Hs & _).
  destruct (stride_pitch _ Hs) as [Hp0 Hst]. unfold gfx_rect. rewrite piece_clip_id by done. cbv zeta.
  rewrite <- Hst. rewrite (for_z_shift (ry q) (rh q) (fun y px => gfx_fill_span px (y * gfx_stride_pixels (bm_info bm) + rx q) (rw q) colour)).
  erewrite for_z_ext.
  - apply (loop_painted bm q _ px (fun x y px => set_at px (y * gfx_stride_pixels (bm_info bm) + x) colour)); [done..|].
    intros x y px'. by left.
  - intros y px' _. cbv beta. unfold gfx_fill_span.
    rewrite <- (for_z_shift (rx q) (rw q)). apply for_z_ext. intros i px2 _. f_equal. lia.
Qed.

(** What a brush makes of a pixel. *)
Definition brush_pixel (brush : sx_brush) (x y v : Z) : Z :=
  match brush_source brush x y with
  | None => v
  | Some source => sx_apply_rop (br_rop brush) v source
  end.

Lemma draws_fun p bm p' vis g g' :
  (forall x y v, g x y v = g' x y v) -> draws p bm p' vis g -> draws p bm p' vis g'.
Proof. intros E (px & -> & H). exists px. split; [done|]. eapply painted_fun; [|exact H]. done. Qed.

Lemma draws_ext p bm p' vis vis' g :
  (forall x y, vis x y = vis' x y) -> draws p bm p' vis g -> draws p bm p' vis' g.
Proof. intros E (px & -> & H). exists px. split; [done|]. eapply painted_ext; [|exact H]. done. Qed.

Lemma brush_device_draws p bm rect brush :
  painter_ok p bm ->
  draws p bm (sx_fill_rect_device_brush p rect brush) (draw_shows p bm rect) (brush_pixel brush).
Proof.
  intros Hp. unfold sx_fill_rect_device_brush. destruct (_ && _) eqn:E.
  - eapply draws_fun; [|by apply fill_device_draws]. intros x y v. unfold brush_pixel, brush_source.
    destruct (br_has_pattern brush); [done|]. replace (br_rop brush) with SX_ROP_COPY by lia. done.
  - apply (walk_draws p bm rect _ (fun bm piece px =>
      for_z (ry piece) (sx_rect_bottom piece) (fun y px =>
          for_z (rx piece) (sx_rect_right piece) (fun x px =>
            match brush_source brush x y with
            | None => px
            | Some source =>
                set_at px (y * gfx_stride_pixels (bm_info bm) + x)
                  (sx_apply_rop (br_rop brush) (at_ 0 px (y * gfx_stride_pixels (bm_info bm) + x)) source)
            end) px) px) Hp).
    intros q px Hq Hl. destruct Hp as (_ & Hb & _).
    apply (loop_painted bm q _ px (fun x y px => match brush_source brush x y with None => px | Some source =>
      set_at px (y * gfx_stride_pixels (bm_info bm) + x)
        (sx_apply_rop (br_rop brush) (at_ 0 px (y * gfx_stride_pixels (bm_info bm) + x)) source) end)); [done..|].
    intros x y px'. unfold brush_pixel. destruct (brush_source brush x y); [by left|]. right. done.
Qed.

Definition redrawn (bm : sx_bitmap) (px : list Z) : sx_bitmap :=
  mk_bitmap (Some px) (bm_info bm) (bm_format bm) (bm_owns_pixels bm).

Lemma draws_ok p bm p' vis g :
  painter_ok p bm -> draws p bm p' vis g ->
  exists px, p' = with_pixels p bm px /\ painter_ok p' (redrawn bm px).
Proof.
  intros (Ht & (px0 & Hpx & Hw & Hh & Hs & Hl) & Hc) (px & -> & Hlen & _). exists px. split; [done|].
  split; [done|]. split; [|exact Hc]. exists px.
  unfold target_pixels in Hlen. rewrite Hpx in Hlen. unfold zlen, redrawn in *. cbn [bm_pixels bm_info].
  rewrite Hlen. done.
Qed.

(** Two drawings of disjoint pixels with one effect are one drawing. *)
Lemma draws_seq p bm p1 p2 vis vis' g :
  painter_ok p bm -> draws p bm p1 vis g ->
  (forall bm', painter_ok p1 bm' -> bm_info bm' = bm_info bm -> draws p1 bm' p2 vis' g) ->
  (forall x y, vis x y = true -> vis' x y = false) ->
  draws p bm p2 (fun x y => vis x y || vis' x y) g.
Proof.
  intros Hp H1 H2 D. destruct (draws_ok _ _ _ _ _ Hp H1) as (px & -> & Hok).
  destruct (H2 _ Hok eq_refl) as (px2 & -> & H). destruct H1 as (px' & E & H1).
  assert (px' = px) as -> by (unfold with_pixels in E; congruence).
  exists px2. split; [done|]. eapply painted_seq; [exact D|exact H1|exact H].
Qed.

Lemma draw_shows_info p px bm bm' dev x y :
  bm_info bm' = bm_info bm -> draw_shows (with_pixels p bm px) bm' dev x y = draw_shows p bm dev x y.
Proof. intros E. unfold draw_shows, bitmap_shows. by rewrite E. Qed.

Lemma brush_then p bm p1 vis rect brush :
  painter_ok p bm -> draws p bm p1 vis (brush_pixel brush) ->
  (forall x y, vis x y = true -> sx_rect_contains_point rect x y = false) ->
  draws p bm (sx_fill_rect_device_brush p1 rect brush)
    (fun x y => vis x y || draw_shows p bm rect x y) (brush_pixel brush).
Proof.
  intros Hp H1 D. destruct (draws_ok _ _ _ _ _ Hp H1) as (px & Ep & _).
  eapply (draws_seq p bm p1); [done|exact H1| |].
  - intros bm' Hok E. eapply draws_ext; [|by apply brush_device_draws]. intros x y. subst p1.
    by apply draw_shows_info.
  - intros x y Hv. unfold draw_shows. by rewrite (D x y Hv).
Qed.

Definition on_frame (rect : sx_rect) (x y : Z) : bool :=
  sx_rect_contains_point rect x y &&
  ((x =? rx rect) || (x =? sx_rect_right rect - 1) || (y =? ry rect) || (y =? sx_rect_bottom rect - 1)).

Definition frame_draws_shows (p : sx_painter) (bm : sx_bitmap) (rect : sx_rect) (x y : Z) : bool :=
  on_frame rect x y && clip_shows p x y && bitmap_shows bm x y.

(** Simplifies membership in the strips of a frame. *)
Ltac strips := intros x y; unfold frame_draws_shows, draw_shows, on_frame; rect_unfold;
  repeat match goal with |- context [clip_shows ?p x y] => generalize (clip_shows p x y); intros ? end;
  repeat match goal with |- context [bitmap_shows ?p x y] => generalize (bitmap_shows p x y); intros ? end;
  lia.

Lemma frame_device_draws p bm rect brush :
  painter_ok p bm -> 0 < rw rect -> 0 < rh rect ->
  draws p bm (sx_draw_frame_device p rect brush) (frame_draws_shows p bm rect) (brush_pixel brush).
Proof.
  intros Hp Hw Hh. unfold sx_draw_frame_device.
  set (top := sx_rect_make (rx rect) (ry rect) (rw rect) 1).
  set (bottom := sx_rect_make (rx rect) (ry rect + rh rect - 1) (rw rect) 1).
  set (left_ := sx_rect_make (rx rect) (ry rect + 1) 1 (rh rect - 2)).
  set (right_ := sx_rect_make (rx rect + rw rect - 1) (ry rect + 1) 1 (rh rect - 2)).
  pose proof (brush_device_draws p bm top brush Hp) as H1.
  destruct (rh rect >? 1) eqn:E1.
  2:{ destruct (rh rect >? 2) eqn:?; [lia|]. eapply draws_ext; [|exact H1]. subst top. strips. }
  assert (H2 := fun D => brush_then p bm _ _ bottom brush Hp H1 D). specialize (H2 ltac:(subst top bottom; strips)).
  destruct (rh rect >? 2) eqn:E2.
  2:{ eapply draws_ext; [|exact H2]. subst top bottom. strips. }
  assert (H3 := fun D => brush_then p bm _ _ left_ brush Hp H2 D).
  specialize (H3 ltac:(subst top bottom left_; strips)).
  destruct (rw rect >? 1) eqn:E3.
  2:{ eapply draws_ext; [|exact H3]. subst top bottom left_. strips. }
  assert (H4 := fun D => brush_then p bm _ _ right_ brush Hp H3 D).
  specialize (H4 ltac:(subst top bottom left_ right_; strips)).
  eapply draws_ext; [|exact H4]. subst top bottom left_ right_. strips.
Qed.

(** ** Blits *)

Definition source_pixel (source : sx_bitmap) (x y : Z) : Z :=
  at_ 0 (target_pixels source) (y * gfx_stride_pixels (bm_info source) + x).

(** What a source pixel makes of a target pixel: alpha blends, the rest copies. *)
Definition lay_over (source : sx_bitmap) (v s : Z) : Z :=
  if bm_format source =? SX_PIXEL_FORMAT_BGRA8888 then sx_blend_bgra8888_over_rgb v s else s.

Lemma copy_row_painted bm source px q y sy sx :
  bitmap_ok bm -> piece_in bm q -> (forall px', bm_pixels bm = Some px' -> length px = length px') ->
  ry q <= y < ry q + rh q ->
  let st := gfx_stride_pixels (bm_info bm) in
  painted st (in_box (rx q) (rx q + rw q) y (y + 1))
    (fun x _ _ => at_ 0 source (sy + sx + (x - rx q))) px
    (copy_pixels px (y * st + rx q) source (sy + sx) (rw q)).
Proof.
  intros Hb Hq Hlen Hy st. pose proof Hq as (? & ? & ? & ? & ? & ?).
  destruct (piece_cell bm q px (rx q) y Hb Hq Hlen) as (C1 & C2 & C3); [lia..|].
  destruct (piece_cell bm q px (rx q + rw q - 1) y Hb Hq Hlen) as (D1 & D2 & D3); [lia..|]. fold st in C1, C3, D1, D3.
  pose proof (copy_pixels_at px (y * st + rx q) source (sy + sx) (rw q)) as Hc. split.
  { destruct (Hc 0) as [Hz _]; [nia|lia|lia|]. unfold zlen in Hz. lia. }
  intros x y' Hx. destruct (Hc (y' * st + x)) as [_ ->]; [nia|lia|lia|].
  assert (E : (y * st + rx q <=? y' * st + x) && (y' * st + x <? y * st + rx q + rw q) =
              in_box (rx q) (rx q + rw q) y (y + 1) x y').
  { unfold in_box. destruct (decide (y' = y)) as [->|Hne]; [lia|].
    assert (y' < y \/ y < y') as [Hlt|Hlt] by lia.
    - assert (y' * st + x < y * st) by nia. lia.
    - assert (y * st + st <= y' * st) by nia. lia. }
  rewrite E. destruct (in_box _ _ _ _ _ _) eqn:Ein; [|done]. unfold in_box in Ein.
  replace y' with y by lia. f_equal. lia.
Qed.

(** The three loops of a blit's piece. *)
Section BlitPiece.
Context (bm source : sx_bitmap) (px : list Z) (q : sx_rect) (dst_x dst_y : Z).
Context (Hb : bitmap_ok bm) (Hq : piece_in bm q).
Context (Hlen : forall px', bm_pixels bm = Some px' -> length px = length px').
Abbreviation st := (gfx_stride_pixels (bm_info bm)).
Abbreviation ss := (gfx_stride_pixels (bm_info source)).
Abbreviation under x y := (source_pixel source (x - dst_x) (y - dst_y)).

Lemma blit_rows_painted :
  painted st (shows_rect q) (fun x y _ => under x y) px
    (for_z 0 (rh q) (fun row px => copy_pixels px ((ry q + row) * st + rx q) (target_pixels source)
       ((ry q - dst_y + row) * ss + (rx q - dst_x)) (rw q)) px).
Proof.
  pose proof Hq as (? & ? & ? & ? & ? & ?).
  set (copy_row y px := copy_pixels px (y * st + rx q) (target_pixels source)
                          ((y - dst_y) * ss + (rx q - dst_x)) (rw q)).
  rewrite (for_z_ext 0 (rh q) _ (fun row => copy_row (ry q + row)))
    by (intros i s _; unfold copy_row; f_equal; lia).
  rewrite (for_z_shift (ry q) (rh q) copy_row).
  eapply painted_ext; [intros x y _; apply (shows_box q x y); lia|].
  apply (for_z_ind (fun y px' => painted st (in_box (rx q) (rx q + rw q) (ry q) y)
    (fun x y _ => under x y) px px')); [lia| |].
  - eapply painted_ext; [|apply painted_none]. intros x y _. unfold in_box. lia.
  - intros y px' Hy Hp'. assert (Hl' : length px' = length px) by apply Hp'.
    eapply painted_ext; [|eapply painted_seq; [|exact Hp'|]].
    + intros a b _. instantiate (1 := in_box (rx q) (rx q + rw q) y (y + 1)). unfold in_box. lia.
    + intros a b. unfold in_box. lia.
    + eapply painted_fun; [|apply (copy_row_painted bm _ px' q y); [done|done| |lia]].
      * intros a b v Hv. cbv beta. unfold source_pixel, in_box in *. f_equal.
        replace b with y by lia. lia.
      * intros px2 E. rewrite Hl'. by apply Hlen.
Qed.

Lemma blit_blend_painted :
  painted st (shows_rect q) (fun x y v => sx_blend_bgra8888_over_rgb v (under x y)) px
    (for_z 0 (rh q) (fun row px =>
       for_z 0 (rw q) (fun column px =>
         set_at px ((ry q + row) * st + rx q + column)
           (sx_blend_bgra8888_over_rgb (at_ 0 px ((ry q + row) * st + rx q + column))
              (at_ 0 (target_pixels source)
                 ((ry q - dst_y + row) * ss + (rx q - dst_x) + column)))) px) px).
Proof.
  set (cell x y px := set_at px (y * st + x) (sx_blend_bgra8888_over_rgb (at_ 0 px (y * st + x)) (under x y))).
  rewrite (for_z_ext 0 (rh q) _ (fun row =>
    (fun y px => for_z (rx q) (rx q + rw q) (fun x px => cell x y px) px) (ry q + row))).
  - rewrite (for_z_shift (ry q) (rh q) (fun y px => for_z (rx q) (rx q + rw q) (fun x px => cell x y px) px)).
    apply (loop_painted bm q _ px cell); [done..|]. intros x y px'. by left.
  - intros row px' _. cbv beta. rewrite <- (for_z_shift (rx q) (rw q)). apply for_z_ext. intros i px2 _.
    unfold cell, source_pixel.
    replace ((ry q + row) * st + rx q + i) with ((ry q + row) * st + (rx q + i)) by lia.
    by replace ((ry q - dst_y + row) * ss + (rx q - dst_x) + i)
      with ((ry q + row - dst_y) * ss + (rx q + i - dst_x)) by lia.
Qed.

(** Whole rows on both sides: one run. *)
Lemma blit_run_painted :
  rx q = 0 -> rx q - dst_x = 0 -> rw q = st -> rw q = ss ->
  painted st (shows_rect q) (fun x y _ => under x y) px
    (copy_pixels px (ry q * st) (target_pixels source) ((ry q - dst_y) * ss) (rw q * rh q)).
Proof.
  intros E3 E4 E1 E2. pose proof Hq as (? & ? & ? & ? & ? & ?). pose proof Hb as (px0 & Hpx & Hw & Hh & Hs & Hl).
  eapply painted_ext; [intros x y _; apply (shows_box q x y); lia|].
  assert (Hlz : zlen px = zlen px0) by (unfold zlen; by rewrite (Hlen _ Hpx)).
  pose proof (copy_pixels_at px (ry q * st) (target_pixels source) ((ry q - dst_y) * ss) (rw q * rh q)) as Hc.
  assert (P1 : 0 <= ry q * st) by nia. assert (P2 : 0 <= rw q * rh q) by nia.
  assert (P3 : ry q * st + rw q * rh q <= zlen px) by nia. split.
  { destruct (Hc 0 P1 P2 P3) as [Hz _]. unfold zlen in Hz. lia. }
  intros x y Hx. destruct (Hc (y * st + x) P1 P2 P3) as [_ ->].
  assert (Ein : (ry q * st <=? y * st + x) && (y * st + x <? ry q * st + rw q * rh q) =
                in_box (rx q) (rx q + rw q) (ry q) (ry q + rh q) x y).
  { unfold in_box. rewrite E1, E3.
    assert (y < ry q \/ ry q <= y < ry q + rh q \/ ry q + rh q <= y) as [Hlt|[Hin|Hge]] by lia.
    - assert (y * st + x < ry q * st) by nia. lia.
    - assert (ry q * st <= y * st + x < ry q * st + st * rh q) by nia. lia.
    - assert (ry q * st + st * rh q <= y * st + x) by nia. lia. }
  rewrite Ein. destruct (in_box _ _ _ _ _ _) eqn:Eb; [|done]. unfold source_pixel. f_equal.
  rewrite <- E2, E1. replace dst_x with 0 by lia. lia.
Qed.

(** Whichever loop runs, each pixel takes the source pixel under it. *)
Lemma blit_piece_painted :
  painted st (shows_rect q) (fun x y v => lay_over source v (under x y)) px
    (sx_blit_bitmap_piece bm source px dst_x dst_y q).
Proof.
  unfold sx_blit_bitmap_piece, lay_over. cbn [rx ry sx_rect_make]. cbv zeta.
  destruct (bm_format source =? SX_PIXEL_FORMAT_BGRA8888); [apply blit_blend_painted|].
  destruct (_ && _ && _ && _) eqn:E; [apply blit_run_painted; lia|apply blit_rows_painted].
Qed.
End BlitPiece.

Lemma blit_draws p bm source dst_x dst_y :
  painter_ok p bm -> bm_pixels source <> None ->
  let dx := dst_x + pt_x (p_origin p) in
  let dy := dst_y + pt_y (p_origin p) in
  draws p bm (sx_painter_blit_bitmap p (Some source) dst_x dst_y)
    (draw_shows p bm (sx_rect_make dx dy (fb_width (bm_info source)) (fb_height (bm_info source))))
    (fun x y v => lay_over source v (source_pixel source (x - dx) (y - dy))).
Proof.
  intros Hp Hsrc dx dy. unfold sx_painter_blit_bitmap. destruct (bm_pixels source) eqn:E; [|done]. cbv zeta.
  fold dx dy. apply (walk_draws p bm _ _ (fun bm piece px => sx_blit_bitmap_piece bm source px dx dy piece) Hp).
  intros q px Hq Hl. destruct Hp as (_ & Hb & _). by apply blit_piece_painted.
Qed.

(** ** Scaled blits *)

Lemma scaled_draws p bm source destination source_rect filter :
  painter_ok p bm -> bm_pixels source <> None -> sx_rect_is_empty destination = false ->
  let from := sx_rect_intersect source_rect
                (sx_rect_make 0 0 (fb_width (bm_info source)) (fb_height (bm_info source))) in
  let dev := sx_to_device_rect p destination in
  sx_rect_is_empty from = false ->
  draws p bm (sx_painter_draw_scaled_bitmap p (Some source) destination source_rect filter)
    (draw_shows p bm dev)
    (fun x y v => lay_over source v (scaled_sample source dev from filter x y)).
Proof.
  intros Hp Hsrc Hd from dev Hf. unfold sx_painter_draw_scaled_bitmap.
  destruct (bm_pixels source) eqn:E; [|done].
  assert (Hs : sx_rect_is_empty source_rect = false).
  { apply not_true_is_false. intros K. subst from. revert Hf K. clear. rect_unfold. intros. repeat case_any; lia. }
  rewrite Hd, Hs. cbn [orb]. cbv zeta. fold from dev. rewrite Hf.
  set (cell bm x y px :=
    let source_pixel := scaled_sample source dev from filter x y in
    if bm_format source =? SX_PIXEL_FORMAT_BGRA8888
    then set_at px (y * gfx_stride_pixels (bm_info bm) + x)
           (sx_blend_bgra8888_over_rgb (at_ 0 px (y * gfx_stride_pixels (bm_info bm) + x)) source_pixel)
    else set_at px (y * gfx_stride_pixels (bm_info bm) + x) source_pixel).
  apply (walk_draws p bm dev _ (fun bm q px =>
    for_z (ry q) (sx_rect_bottom q) (fun y px => for_z (rx q) (sx_rect_right q) (fun x px => cell bm x y px) px) px) Hp).
  intros q px Hq Hl. destruct Hp as (_ & Hb & _). apply (loop_painted bm q _ px (cell bm)); [done..|].
  intros x y px'. left. unfold cell, lay_over. by case_if.
Qed.

Lemma to_int_id v : - 2 ^ 31 <= v < 2 ^ 31 -> to_int v = v.
Proof. intros Hv. unfold to_int. rewrite Z.mod_small; lia. Qed.
Lemma to_long_id v : - 2 ^ 63 <= v < 2 ^ 63 -> to_long v = v.
Proof. intros Hv. unfold to_long. rewrite Z.mod_small; lia. Qed.

(** The sizes for which the arithmetic of one axis does not overflow. *)
Definition nearest_fits (n m : Z) : Prop := (n - 1) * m < 2 ^ 31.
Definition bilinear_fits (n s m : Z) : Prop := n < 2 ^ 31 /\ s + m <= 2 ^ 23.

Lemma nearest_exact x d n s m :
  d <= x < d + n -> 0 < m -> nearest_fits n m -> nearest_position x d n s m = s + (x - d) * m / n.
Proof.
  intros Hx Hm Hf. unfold nearest_position, nearest_fits in *. rewrite to_int_id by nia. by rewrite Z.quot_div_nonneg by nia.
Qed.

Lemma nearest_inside x d n s m :
  d <= x < d + n -> 0 < m -> nearest_fits n m -> s <= nearest_position x d n s m < s + m.
Proof.
  intros Hx Hm Hf. rewrite nearest_exact by done.
  assert (0 <= (x - d) * m / n) by (apply Z.div_pos; nia).
  assert ((x - d) * m / n < m) by (apply Z.div_lt_upper_bound; nia). lia.
Qed.

(** Where the centre of the pixel falls, before clamping. *)
Definition centre (x d n s m : Z) : Z := (2 * (x - d) + 1) * m * 128 / n + s * 256 - 128.

Lemma bilinear_exact x d n s m :
  d <= x < d + n -> 0 <= s -> 0 < m -> bilinear_fits n s m ->
  bilinear_position x d n s m = Z.max (s * 256) (Z.min ((s + m - 1) * 256) (centre x d n s m)).
Proof.
  intros Hx Hs Hm [Hn Hf]. unfold bilinear_position. rewrite !Z.shiftl_mul_pow2 by lia. change (2 ^ 8) with 256.
  assert (Hp : 0 < ((x - d) * 2 + 1) * m * 128 < 256 * m * n) by nia.
  assert (Hq : 0 <= ((x - d) * 2 + 1) * m * 128 / n < 256 * m)
    by (split; [apply Z.div_pos; lia|apply Z.div_lt_upper_bound; lia]).
  rewrite (to_long_id (_ * 128)) by nia. rewrite Z.quot_div_nonneg by lia.
  unfold centre. replace (2 * (x - d) + 1) with ((x - d) * 2 + 1) by lia. set (q := _ / n) in *. clearbody q.
  assert (2 ^ 23 * 256 = 2 ^ 31) by reflexivity.
  rewrite (to_int_id q), (to_int_id (s * 256)), (to_int_id (q + _ - _)), (to_int_id (_ * 256)) by lia.
  repeat case_if; lia.
Qed.

Lemma bilinear_inside x d n s m :
  d <= x < d + n -> 0 <= s -> 0 < m -> bilinear_fits n s m ->
  s <= Z.shiftr (bilinear_position x d n s m) 8 < s + m.
Proof.
  intros Hx Hs Hm Hf. rewrite bilinear_exact by done. rewrite Z.shiftr_div_pow2 by lia. change (2 ^ 8) with 256.
  set (f := centre x d n s m). clearbody f. divs.
Qed.

(** The sizes for which a scaled blit does not overflow. *)
Definition scaled_fits (filter : Z) (dev from : sx_rect) : Prop :=
  0 <= rx from /\ 0 <= ry from /\
  if filter =? SX_SCALE_BILINEAR
  then bilinear_fits (rw dev) (rx from) (rw from) /\ bilinear_fits (rh dev) (ry from) (rh from)
  else nearest_fits (rw dev) (rw from) /\ nearest_fits (rh dev) (rh from).

(** The texels a sample reads lie inside the source rectangle: two bitmaps that
    agree there give the same sample. *)
Definition agree_on (r : sx_rect) (s s' : sx_bitmap) : Prop :=
  bm_info s = bm_info s' /\ forall x y, in_rect r x y -> source_pixel s x y = source_pixel s' x y.

Lemma scaled_reads_inside s s' dev from filter x y :
  scaled_fits filter dev from -> agree_on from s s' -> sx_rect_is_empty from = false -> in_rect dev x y ->
  scaled_sample s dev from filter x y = scaled_sample s' dev from filter x y.
Proof.
  intros (Fx & Fy & Fit) [Ei Hag] Hf Hx. unfold scaled_sample. unfold source_pixel in Hag. rewrite Ei in *.
  assert (Hw : 0 < rw from /\ 0 < rh from) by (revert Hf; rect_unfold; lia).
  destruct (filter =? SX_SCALE_BILINEAR).
  - unfold sx_sample_bilinear. cbv zeta.
    destruct Fit as [Bx By], Hx as [Hx Hy].
    apply (bilinear_inside x (rx dev) (rw dev) (rx from) (rw from) Hx Fx (proj1 Hw)) in Bx.
    apply (bilinear_inside y (ry dev) (rh dev) (ry from) (rh from) Hy Fy (proj2 Hw)) in By.
    rewrite !Hag; [done|..]; unfold in_rect, sx_rect_right, sx_rect_bottom; repeat case_if; lia.
  - apply Hag. unfold in_rect in Hx.
    pose proof (nearest_inside x (rx dev) (rw dev) (rx from) (rw from) ltac:(lia) ltac:(lia) (proj1 Fit)).
    pose proof (nearest_inside y (ry dev) (rh dev) (ry from) (rh from) ltac:(lia) ltac:(lia) (proj2 Fit)).
    unfold in_rect. lia.
Qed.

(** *** At its own size a bitmap is copied *)

Lemma byte_bit v k n : 0 <= k -> 0 <= n ->
  Z.testbit (Z.shiftl (Z.land (Z.shiftr v k) 0xff) k) n = (k <=? n) && (n <? k + 8) && Z.testbit v n.
Proof.
  intros Hk Hn. rewrite Z.shiftl_spec by done. change 0xff with (Z.ones 8).
  destruct (k <=? n) eqn:E; [|by rewrite Z.testbit_neg_r by lia].
  rewrite Z.land_spec, Z.shiftr_spec, Z.testbit_ones by lia. replace (n - k + k) with n by lia.
  rewrite andb_comm. f_equal. lia.
Qed.

Lemma bytes_rebuild v : 0 <= v < 2 ^ 32 ->
  fold_left (fun r k => Z.lor r (Z.shiftl (Z.land (Z.shiftr v k) 0xff) k)) [0; 8; 16; 24] 0 = v.
Proof.
  intros Hv. cbn [fold_left]. apply Z.bits_inj'. intros n Hn.
  rewrite !Z.lor_spec, !byte_bit, Z.bits_0 by lia.
  destruct (Z_lt_le_dec n 32) as [Hlt|Hge].
  - destruct (Z.testbit v n); lia.
  - assert (E : Z.testbit v n = false); [|rewrite E; lia].
    destruct (decide (v = 0)) as [->|Hz]; [apply Z.bits_0|]. apply Z.bits_above_log2; [lia|].
    apply Z.log2_lt_pow2; [lia|]. assert (2 ^ 32 <= 2 ^ n) by (apply Z.pow_le_mono_r; lia). lia.
Qed.

Lemma channel_exact p p10 p01 p11 k :
  bilinear_channel p p10 p01 p11 0 0 k = Z.shiftl (Z.land (Z.shiftr p k) 0xff) k.
Proof.
  unfold bilinear_channel. f_equal. rewrite Z.shiftr_div_pow2 by lia. change (2 ^ 16) with 65536.
  change 0xff with (Z.ones 8). rewrite !Z.land_ones by lia. change (2 ^ 8) with 256.
  assert (Hc : 0 <= Z.shiftr p k mod 256 < 256) by (apply Z.mod_pos_bound; lia). revert Hc.
  generalize (Z.shiftr p k mod 256), (Z.shiftr p10 k mod 256), (Z.shiftr p01 k mod 256), (Z.shiftr p11 k mod 256).
  intros c c10 c01 c11 Hc.
  replace ((c * (256 - 0) + c10 * 0) * (256 - 0) + (c01 * (256 - 0) + c11 * 0) * 0 + 32768)
    with (c * 65536 + 32768) by lia.
  change (Z.ones 8) with 255. case_if; divs.
Qed.

Definition words32 (l : list Z) : Prop := Forall (fun v => 0 <= v < 2 ^ 32) l.

Lemma at_words32 l i : words32 l -> 0 <= at_ 0 l i < 2 ^ 32.
Proof.
  intros H. unfold at_. case_if; [lia|]. destruct (Nat.lt_ge_cases (Z.to_nat i) (length l)).
  - unfold words32 in H. rewrite List.Forall_forall in H. apply H, nth_In. lia.
  - rewrite nth_overflow by lia. lia.
Qed.

Lemma nearest_same_size x d n s : d <= x < d + n -> nearest_fits n n -> nearest_position x d n s n = s + (x - d).
Proof. intros Hx Hf. rewrite nearest_exact by (done || lia). by rewrite Z.div_mul by lia. Qed.

Lemma bilinear_same_size x d n s : 0 <= s -> d <= x < d + n -> bilinear_fits n s n ->
  bilinear_position x d n s n = (s + (x - d)) * 256.
Proof.
  intros Hs Hx Hf. rewrite bilinear_exact by (done || lia). unfold centre.
  replace ((2 * (x - d) + 1) * n * 128) with ((2 * (x - d) + 1) * 128 * n) by lia.
  rewrite Z.div_mul by lia. lia.
Qed.

(** Unscaled, both filters take the very pixel under. *)
Lemma scaled_same_size source dev from filter x y :
  scaled_fits filter dev from -> words32 (target_pixels source) -> rw from = rw dev -> rh from = rh dev -> in_rect dev x y ->
  scaled_sample source dev from filter x y =
  source_pixel source (rx from + (x - rx dev)) (ry from + (y - ry dev)).
Proof.
  intros (Fx & Fy & Fit) Hw Ew Eh [Hx Hy]. unfold scaled_sample, source_pixel. rewrite Ew, Eh in *.
  destruct (filter =? SX_SCALE_BILINEAR), Fit as [F1 F2]; [|by rewrite !nearest_same_size by done].
  rewrite !bilinear_same_size by done. unfold sx_sample_bilinear. cbv zeta.
  rewrite !Z.shiftr_div_pow2 by lia. change 0xff with (Z.ones 8). rewrite !Z.land_ones by lia.
  change (2 ^ 8) with 256. rewrite !Z.div_mul, !Z.mod_mul by lia.
  etransitivity; [|apply bytes_rebuild; by apply at_words32].
  cbn [fold_left]. by rewrite !channel_exact.
Qed.

(** ** Confinement

    A widget tree draws by commands nested between pushes and pops.  A failed
    push (a full stack) is not followed by a pop, and its subtree is skipped,
    as the callers do. *)

Inductive paint_cmd : Type :=
| FillRect (rect : sx_rect) (brush : sx_brush)
| DrawFrame (rect : sx_rect) (brush : sx_brush)
| Blit (source : sx_bitmap) (x y : Z)
| BlitScaled (source : sx_bitmap) (destination source_rect : sx_rect) (filter : Z)
| InClip (rect : sx_rect) (body : list paint_cmd)
| InRegion (region : sx_region) (body : list paint_cmd)
| AtOrigin (dx dy : Z) (body : list paint_cmd).

Fixpoint paint (c : paint_cmd) (p : sx_painter) : sx_painter :=
  let all body p := fold_left (fun p c => paint c p) body p in
  match c with
  | FillRect rect brush => sx_painter_fill_rect_brush p rect brush
  | DrawFrame rect brush => sx_painter_draw_frame_brush p rect brush
  | Blit source x y => sx_painter_blit_bitmap p (Some source) x y
  | BlitScaled source destination source_rect filter =>
      sx_painter_draw_scaled_bitmap p (Some source) destination source_rect filter
  | InClip rect body =>
      match sx_painter_push_clip p rect with
      | (p, true) => sx_painter_pop_clip (all body p)
      | (p, false) => p
      end
  | InRegion region body =>
      match sx_painter_push_clip_region p (Some region) with
      | (p, true) => sx_painter_pop_clip (all body p)
      | (p, false) => p
      end
  | AtOrigin dx dy body =>
      match sx_painter_push_origin p dx dy with
      | (p, true) => sx_painter_pop_origin (all body p)
      | (p, false) => p
      end
  end.

Definition paint_all (body : list paint_cmd) (p : sx_painter) : sx_painter :=
  fold_left (fun p c => paint c p) body p.

Fixpoint cmd_ok (c : paint_cmd) : Prop :=
  let all body := fold_right (fun c a => cmd_ok c /\ a) True body in
  match c with
  | InClip _ body => all body
  | InRegion region body => region_ok region /\ all body
  | AtOrigin _ _ body => all body
  | _ => True
  end.

(** No command pushes a region. *)
Fixpoint rect_clips_only (c : paint_cmd) : bool :=
  match c with
  | InClip _ body => forallb rect_clips_only body
  | InRegion _ _ => false
  | AtOrigin _ _ body => forallb rect_clips_only body
  | _ => true
  end.

(** From [p] to [p'] nothing but pixels changed, and only where [may]. *)
Definition confined (p : sx_painter) (bm : sx_bitmap) (p' : sx_painter) (may : Z -> Z -> bool) : Prop :=
  exists px', p' = with_pixels p bm px' /\ length px' = length (target_pixels bm) /\
    forall x y, 0 <= x < gfx_stride_pixels (bm_info bm) -> may x y && bitmap_shows bm x y = false ->
      at_ 0 px' (y * gfx_stride_pixels (bm_info bm) + x) =
      at_ 0 (target_pixels bm) (y * gfx_stride_pixels (bm_info bm) + x).

(** Induction through the bodies. *)
Section PaintInd.
Context (P : paint_cmd -> Prop).
Hypothesis Hfill : forall rect brush, P (FillRect rect brush).
Hypothesis Hframe : forall rect brush, P (DrawFrame rect brush).
Hypothesis Hblit : forall source x y, P (Blit source x y).
Hypothesis Hscaled : forall source d r f, P (BlitScaled source d r f).
Hypothesis Hclip : forall rect body, Forall P body -> P (InClip rect body).
Hypothesis Hregion : forall region body, Forall P body -> P (InRegion region body).
Hypothesis Horigin : forall dx dy body, Forall P body -> P (AtOrigin dx dy body).

Fixpoint paint_cmd_nested (c : paint_cmd) : P c :=
  let go := fix go l : Forall P l :=
    match l with [] => Forall_nil_2 P | c :: l => Forall_cons_2 P c l (paint_cmd_nested c) (go l) end in
  match c with
  | FillRect rect brush => Hfill rect brush
  | DrawFrame rect brush => Hframe rect brush
  | Blit source x y => Hblit source x y
  | BlitScaled source d r f => Hscaled source d r f
  | InClip rect body => Hclip rect body (go body)
  | InRegion region body => Hregion region body (go body)
  | AtOrigin dx dy body => Horigin dx dy body (go body)
  end.
End PaintInd.

Lemma cmds_ok_forall body : fold_right (fun c a => cmd_ok c /\ a) True body <-> Forall cmd_ok body.
Proof. induction body as [|c body IH]; simpl; [done|]. by rewrite Forall_cons, IH. Qed.

Definition clip_rect_shows (p : sx_painter) (x y : Z) : bool :=
  negb (p_has_clip p) || sx_rect_contains_point (p_clip_rect p) x y.

(** Where a command may draw. *)
Definition may_draw (rect_only : bool) (p : sx_painter) : Z -> Z -> bool :=
  if rect_only then clip_shows p else clip_rect_shows p.

Lemma may_draw_weaken b b' p x y : (b = false -> b' = false) -> may_draw b p x y = true -> may_draw b' p x y = true.
Proof.
  unfold may_draw, clip_shows. fold (clip_rect_shows p x y). intros H K.
  destruct b, b'; [done| |by specialize (H eq_refl)|done]. by apply andb_true_iff in K as [K _].
Qed.

Lemma confined_none p bm may : painter_ok p bm -> confined p bm p may.
Proof.
  intros Hp. exists (target_pixels bm). split_and!; [|done..]. by rewrite with_pixels_same.
Qed.

Lemma draws_confined p bm p' vis g b :
  draws p bm p' vis g -> (forall x y, vis x y = true -> clip_shows p x y && bitmap_shows bm x y = true) ->
  confined p bm p' (may_draw b p).
Proof.
  intros (px & -> & Hl & H) Hv. exists px. split_and!; [done..|]. intros x y Hx Hm. rewrite (H x y Hx).
  destruct (vis x y) eqn:E; [|done]. apply Hv in E. apply andb_true_iff in E as [E1 E2]. exfalso.
  pose proof (may_draw_weaken true b p x y ltac:(done) E1). lia.
Qed.

Lemma confined_weaken p bm p' may may' :
  confined p bm p' may -> (forall x y, may x y = true -> may' x y = true) -> confined p bm p' may'.
Proof.
  intros (px & -> & Hl & H) Hm. exists px. split_and!; [done..|]. intros x y Hx Hf. apply H; [done|].
  specialize (Hm x y). destruct (may x y); [by rewrite (Hm eq_refl) in Hf|done].
Qed.

Lemma confined_ok p bm p' may :
  painter_ok p bm -> confined p bm p' may ->
  exists px, p' = with_pixels p bm px /\ painter_ok p' (redrawn bm px).
Proof.
  intros Hp (px & -> & Hl & _). apply (draws_ok p bm _ (fun _ _ => true) (fun x y v => at_ 0 px (y * gfx_stride_pixels (bm_info bm) + x))); [done|].
  exists px. done.
Qed.

Lemma confined_seq p bm p1 p2 may :
  confined p bm p1 may ->
  (forall px, p1 = with_pixels p bm px -> confined p1 (redrawn bm px) p2 may) -> confined p bm p2 may.
Proof.
  intros (px & -> & Hl & H) H2. destruct (H2 px eq_refl) as (px2 & -> & Hl2 & H2').
  exists px2. split; [done|]. cbn [redrawn target_pixels bm_pixels bm_info] in *. split; [congruence|].
  intros x y Hx Hm. rewrite H2' by done. by apply H.
Qed.

(** The commands of a body, one after the other. *)
Lemma body_confined body b : forall p bm,
  Forall (fun c => cmd_ok c -> forall p bm, painter_ok p bm -> confined p bm (paint c p) (may_draw (rect_clips_only c) p)) body ->
  Forall cmd_ok body -> (b = true -> forallb rect_clips_only body = true) -> painter_ok p bm ->
  confined p bm (paint_all body p) (may_draw b p).
Proof.
  induction body as [|c body IH]; intros p bm HP Hok Hb Hp; [by apply confined_none|].
  apply Forall_cons in HP as [Hc HP]. apply Forall_cons in Hok as [Hokc Hok].
  specialize (Hc Hokc p bm Hp). cbn [paint_all fold_left forallb] in *. fold (paint_all body (paint c p)).
  destruct (confined_ok _ _ _ _ Hp Hc) as (px & Ep & Hp1).
  eapply confined_seq; [eapply confined_weaken; [exact Hc|]|].
  - intros x y. apply may_draw_weaken. destruct b; [|done]. specialize (Hb eq_refl). intros K. by rewrite K in Hb.
  - intros px' Ep'. rewrite Ep' in Ep. assert (px' = px) as -> by (unfold with_pixels in Ep; congruence).
    assert (Em : may_draw b (paint c p) = may_draw b p) by by rewrite Ep'. rewrite <- Em.
    apply IH; [done..| |done]. intros ->. specialize (Hb eq_refl). lia.
Qed.

(** Pushing narrows the clip and popping after any drawing restores it. *)
Lemma push_clip_step p bm rect p1 :
  painter_ok p bm -> sx_painter_push_clip p rect = (p1, true) ->
  painter_ok p1 bm /\ (forall px, sx_painter_pop_clip (with_pixels p1 bm px) = with_pixels p bm px) /\
  forall b x y, may_draw b p1 x y = true -> may_draw b p x y = true.
Proof.
  intros (Ht & Hb & Hc) H. unfold sx_painter_push_clip in H.
  destruct (_ >=? _); [done|]. simplify_eq.
  split; [done|]. split; [done|]. intros b x y.
  assert (Hr : clip_rect_shows (set_clip p (if p_has_clip p then sx_rect_intersect (p_clip_rect p) (sx_to_device_rect p rect)
      else sx_to_device_rect p rect) true
      (mk_saved (p_clip_rect p) (p_has_clip p) (p_clip_region p) (p_clip_region_origin p) :: p_saved p)
      (p_clip_region p) (p_clip_region_origin p)) x y = true -> clip_rect_shows p x y = true).
  { unfold clip_rect_shows. simpl. destruct (p_has_clip p); [|done]. simpl.
    rewrite !contains_point_iff, in_rect_intersect. tauto. }
  unfold may_draw, clip_shows. destruct b; [|exact Hr]. rewrite !andb_true_iff.
  fold (clip_rect_shows p x y). intros [K1 K2]. split; [by apply Hr|exact K2].
Qed.

Lemma push_region_step p bm region p1 :
  painter_ok p bm -> region_ok region -> sx_painter_push_clip_region p (Some region) = (p1, true) ->
  painter_ok p1 bm /\ (forall px, sx_painter_pop_clip (with_pixels p1 bm px) = with_pixels p bm px) /\
  forall x y, clip_rect_shows p1 x y = true -> clip_rect_shows p x y = true.
Proof.
  intros Hp Hr H. unfold sx_painter_push_clip_region in H.
  destruct (_ >=? _); [done|]. destruct (sx_region_is_empty region).
  { destruct (push_clip_step p bm _ _ Hp H) as (H1 & H2 & H3). split_and!; [done..|]. apply (H3 false). }
  destruct (sx_painter_push_clip p (sx_region_bounds region)) as [p2 []] eqn:E; [|done]. simplify_eq.
  destruct (push_clip_step p bm _ _ Hp E) as ((Ht & Hb & Hc) & H2 & H3). split.
  - split; [done|]. split; [done|]. intros r. simpl. by intros [= <-].
  - split; [|apply (H3 false)]. intros px. rewrite <- (H2 px).
    unfold sx_painter_push_clip in E. destruct (_ >=? _) in E; by simplify_eq.
Qed.

Lemma nested_confined p p1 bm body (pop : sx_painter -> sx_painter) b :
  painter_ok p bm -> painter_ok p1 bm ->
  confined p1 bm (paint_all body p1) (may_draw b p1) ->
  (forall px, pop (with_pixels p1 bm px) = with_pixels p bm px) ->
  (forall x y, may_draw b p1 x y = true -> may_draw b p x y = true) ->
  confined p bm (pop (paint_all body p1)) (may_draw b p).
Proof.
  intros Hp Hp1 H Hpop Hm. eapply confined_weaken in H; [|exact Hm]. destruct H as (px & -> & H).
  exists px. by split; [apply Hpop|].
Qed.

Lemma cmd_confined c : cmd_ok c -> forall p bm, painter_ok p bm ->
  confined p bm (paint c p) (may_draw (rect_clips_only c) p).
Proof.
  assert (Hd : forall p bm dev x y, draw_shows p bm dev x y = true -> clip_shows p x y && bitmap_shows bm x y = true)
    by (unfold draw_shows; intros; lia).
  induction c as [rect brush|rect brush|source x y|source d r f|rect body IH|region body IH|dx dy body IH]
    using paint_cmd_nested; intros Hok p bm Hp; cbn [paint cmd_ok rect_clips_only] in *; rewrite ?cmds_ok_forall in *.
  - eapply draws_confined; [by apply brush_device_draws|apply Hd].
  - unfold sx_painter_draw_frame_brush. case_if; [by apply confined_none|].
    eapply draws_confined; [apply frame_device_draws; [done|simpl; lia..]|].
    intros x y. unfold frame_draws_shows. lia.
  - unfold sx_painter_blit_bitmap. destruct (bm_pixels source) eqn:E; [|by apply confined_none].
    eapply draws_confined; [pose proof (blit_draws p bm source x y Hp) as H; unfold sx_painter_blit_bitmap in H;
      rewrite E in H; by apply H|apply Hd].
  - pose proof (scaled_draws p bm source d r f Hp) as H. unfold sx_painter_draw_scaled_bitmap in *.
    destruct (bm_pixels source) eqn:E; [|by apply confined_none].
    destruct (sx_rect_is_empty d) eqn:E1; [by apply confined_none|].
    destruct (sx_rect_is_empty r) eqn:E2; [by apply confined_none|]. cbn [orb] in *. cbv zeta in *.
    destruct (sx_rect_is_empty (sx_rect_intersect r _)) eqn:E3; [by apply confined_none|].
    eapply draws_confined; [by apply H|apply Hd].
  - destruct (sx_painter_push_clip p rect) as [p1 []] eqn:E.
    2:{ unfold sx_painter_push_clip in E. destruct (_ >=? _); simplify_eq. by apply confined_none. }
    destruct (push_clip_step p bm _ _ Hp E) as (H1 & H2 & H3).
    eapply nested_confined; [done|exact H1| |exact H2|apply H3]. by apply body_confined.
  - destruct Hok as [Hr Hok]. destruct (sx_painter_push_clip_region p (Some region)) as [p1 []] eqn:E.
    2:{ assert (p1 = p) as -> by (unfold sx_painter_push_clip_region, sx_painter_push_clip in E;
          destruct (_ >=? _), (sx_region_is_empty region); by simplify_eq).
        by apply confined_none. }
    destruct (push_region_step p bm _ _ Hp Hr E) as (H1 & H2 & H3).
    eapply nested_confined; [done|exact H1| |exact H2|apply H3]. by apply body_confined.
  - destruct (sx_painter_push_origin p dx dy) as [p1 []] eqn:E; unfold sx_painter_push_origin in E; destruct (_ >=? _); simplify_eq.
    2:{ by apply confined_none. }
    eapply nested_confined; [done|exact Hp| |done|done]. by apply body_confined.
Qed.

(** ** Theorems *)

(** C36. Solid and patterned fills and frames draw exactly: a fill changes every
    visible pixel of its rectangle (inside the clip rectangle, the clip region
    and the bitmap) through the brush exactly once, a frame does the same for
    the border pixels and only those, corners included once, and no other word
    of the buffer, no other field of the painter, changes. *)
Theorem painter_fill_and_frame_exact (p : sx_painter) (bm : sx_bitmap) (rect : sx_rect) (brush : sx_brush) :
  painter_ok p bm ->
  draws p bm (sx_painter_fill_rect_brush p rect brush)
    (draw_shows p bm (sx_to_device_rect p rect)) (brush_pixel brush) /\
  (sx_rect_is_empty rect = false ->
   draws p bm (sx_painter_draw_frame_brush p rect brush)
     (frame_draws_shows p bm (sx_to_device_rect p rect)) (brush_pixel brush)).
Proof.
  intros Hp. split; [by apply brush_device_draws|]. intros He. unfold sx_painter_draw_frame_brush.
  unfold sx_rect_is_empty in He. rewrite He. apply frame_device_draws; [done|simpl; lia..].
Qed.

(** C9. A blit through any clip is the per-pixel definition: each visible pixel
    takes the source pixel under it, copied or alpha-blended exactly once,
    whether the piece goes row by row, as one run or blended pixel by pixel. *)
Theorem painter_blit_exact (p : sx_painter) (bm source : sx_bitmap) (dst_x dst_y : Z) :
  painter_ok p bm -> bm_pixels source <> None ->
  draws p bm (sx_painter_blit_bitmap p (Some source) dst_x dst_y)
    (draw_shows p bm (sx_rect_make (dst_x + pt_x (p_origin p)) (dst_y + pt_y (p_origin p))
                                   (fb_width (bm_info source)) (fb_height (bm_info source))))
    (fun x y v => lay_over source v
       (source_pixel source (x - (dst_x + pt_x (p_origin p))) (y - (dst_y + pt_y (p_origin p))))).
Proof. intros. by apply blit_draws. Qed.

(** C35. A scaled blit, with either filter: each visible destination pixel takes
    one sample, computed against the whole destination however the clip cuts
    it.  When the sizes do not make the position overflow ([scaled_fits]: with
    the nearest filter the product of both sizes stays an [int], with the
    bilinear one the source lies within 2^23 pixels), the nearest sample is the
    texel at the proportional place and the bilinear one is taken at the
    proportional centre, clamped; the sample reads no texel outside the
    requested source rectangle cut to the source bitmap; and at equal sizes it
    is the pixel under, unscaled. *)
Theorem painter_scaled_exact (p : sx_painter) (bm source : sx_bitmap) (destination source_rect : sx_rect) (filter : Z) :
  painter_ok p bm -> bm_pixels source <> None -> sx_rect_is_empty destination = false ->
  let from := sx_rect_intersect source_rect
                (sx_rect_make 0 0 (fb_width (bm_info source)) (fb_height (bm_info source))) in
  let dev := sx_to_device_rect p destination in
  sx_rect_is_empty from = false ->
  draws p bm (sx_painter_draw_scaled_bitmap p (Some source) destination source_rect filter)
    (draw_shows p bm dev)
    (fun x y v => lay_over source v (scaled_sample source dev from filter x y)) /\
  (scaled_fits filter dev from ->
   (forall x y, in_rect dev x y -> filter <> SX_SCALE_BILINEAR ->
      scaled_sample source dev from filter x y =
      source_pixel source (rx from + (x - rx dev) * rw from / rw dev) (ry from + (y - ry dev) * rh from / rh dev)) /\
   (forall x y, in_rect dev x y -> filter = SX_SCALE_BILINEAR ->
      let clamp s m f := Z.max (s * 256) (Z.min ((s + m - 1) * 256) f) in
      scaled_sample source dev from filter x y =
      sx_sample_bilinear source (gfx_stride_pixels (bm_info source)) from
        (clamp (rx from) (rw from) (centre x (rx dev) (rw dev) (rx from) (rw from)))
        (clamp (ry from) (rh from) (centre y (ry dev) (rh dev) (ry from) (rh from)))) /\
   (forall source' x y, agree_on from source source' -> in_rect dev x y ->
      scaled_sample source dev from filter x y = scaled_sample source' dev from filter x y) /\
   (words32 (target_pixels source) -> rw from = rw dev -> rh from = rh dev -> forall x y, in_rect dev x y ->
      scaled_sample source dev from filter x y =
      source_pixel source (rx from + (x - rx dev)) (ry from + (y - ry dev)))).
Proof.
  intros Hp Hs Hd from dev Hf. split; [by apply scaled_draws|]. intros Hfit.
  assert (Hw : 0 < rw from /\ 0 < rh from) by (revert Hf; clearbody from; rect_unfold; lia).
  pose proof Hfit as (Fx & Fy & Fit). split_and!.
  - intros x y [Hx Hy] Hn. unfold scaled_sample. replace (filter =? SX_SCALE_BILINEAR) with false in * by lia.
    destruct Fit as [F1 F2], Hw. by rewrite !nearest_exact.
  - intros x y [Hx Hy] -> clamp. destruct Fit as [F1 F2], Hw. unfold scaled_sample. rewrite Z.eqb_refl. by rewrite !bilinear_exact.
  - intros source' x y Ha Hx. by apply scaled_reads_inside.
  - intros Hww Ew Eh x y Hx. by apply scaled_same_size.
Qed.

(** C30. Confinement to the clip rectangle: any tree of drawing commands nested in
    clip, region and origin pushes leaves the painter as it found it, stacks and
    clip included, and changes no pixel outside the clip rectangle it started
    under.  The clip region it started under confines it too only if the tree
    pushes no region of its own: a region pushed inside a region replaces it
    ([painter_nested_region_escapes]). *)
Theorem painter_confined (p : sx_painter) (bm : sx_bitmap) (body : list paint_cmd) :
  painter_ok p bm -> Forall cmd_ok body ->
  confined p bm (paint_all body p) (may_draw (forallb rect_clips_only body) p).
Proof.
  intros Hp Hok. apply body_confined; try done. apply Forall_forall. intros c _. apply cmd_confined.
Qed.

(** ** A painter to evaluate: a 6 by 3 bitmap with rows of 7 words, under a clip
    region of two columns *)

Definition demo_bitmap : sx_bitmap :=
  mk_bitmap (Some (replicate 21 7)) (mk_info 6 3 28 32 84) SX_PIXEL_FORMAT_BGRX8888 false.
Definition demo_icon : sx_bitmap :=
  mk_bitmap (Some [1; 2; 3; 4]) (mk_info 2 2 8 32 16) SX_PIXEL_FORMAT_BGRX8888 false.
Definition demo_columns : sx_region :=
  sx_region_union_rect (sx_region_set_rect (sx_rect_make 1 0 1 3)) (sx_rect_make 4 0 1 3).
Definition demo_painter : sx_painter :=
  fst (sx_painter_push_clip_region (sx_painter_init (Some demo_bitmap)) (Some demo_columns)).

Lemma demo_columns_ok : region_ok demo_columns.
Proof. apply (apply_rect_promise _ _ OP_UNION), set_rect_ok. Qed.

Lemma demo_painter_ok : painter_ok demo_painter demo_bitmap.
Proof.
  split; [done|]. split.
  - exists (replicate 21 7). vm_compute. intuition congruence.
  - intros r [= <-]. apply demo_columns_ok.
Qed.

Definition shown (p : sx_painter) : list Z :=
  match p_target p with Some bm => target_pixels bm | None => [] end.

Lemma painter_fill_and_frame_exact_witness :
  draws demo_painter demo_bitmap
    (sx_painter_draw_frame_brush demo_painter (sx_rect_make 0 0 5 3) (sx_brush_with_rop (sx_brush_solid 1) SX_ROP_XOR))
    (frame_draws_shows demo_painter demo_bitmap (sx_to_device_rect demo_painter (sx_rect_make 0 0 5 3)))
    (brush_pixel (sx_brush_with_rop (sx_brush_solid 1) SX_ROP_XOR)) /\
  shown (sx_painter_draw_frame_brush demo_painter (sx_rect_make 0 0 5 3)
           (sx_brush_with_rop (sx_brush_solid 1) SX_ROP_XOR)) =
  [7; 6; 7; 7; 6; 7; 7;
   7; 7; 7; 7; 6; 7; 7;
   7; 6; 7; 7; 6; 7; 7].
Proof.
  split; [|by vm_compute].
  apply (painter_fill_and_frame_exact demo_painter demo_bitmap (sx_rect_make 0 0 5 3)
           (sx_brush_with_rop (sx_brush_solid 1) SX_ROP_XOR) demo_painter_ok). reflexivity.
Defined.

Lemma painter_blit_exact_witness :
  draws demo_painter demo_bitmap (sx_painter_blit_bitmap demo_painter (Some demo_icon) 3 1)
    (draw_shows demo_painter demo_bitmap (sx_rect_make 3 1 2 2))
    (fun x y v => lay_over demo_icon v (source_pixel demo_icon (x - 3) (y - 1))) /\
  shown (sx_painter_blit_bitmap demo_painter (Some demo_icon) 3 1) =
  [7; 7; 7; 7; 7; 7; 7;
   7; 7; 7; 7; 2; 7; 7;
   7; 7; 7; 7; 4; 7; 7].
Proof.
  split; [|by vm_compute].
  apply (painter_blit_exact demo_painter demo_bitmap demo_icon 3 1 demo_painter_ok). discriminate.
Defined.

Lemma painter_scaled_exact_witness :
  draws demo_painter demo_bitmap
    (sx_painter_draw_scaled_bitmap demo_painter (Some demo_icon) (sx_rect_make 0 0 6 2) (sx_rect_make 0 0 2 9) SX_SCALE_NEAREST)
    (draw_shows demo_painter demo_bitmap (sx_rect_make 0 0 6 2))
    (fun x y v => lay_over demo_icon v
       (scaled_sample demo_icon (sx_rect_make 0 0 6 2) (sx_rect_make 0 0 2 2) SX_SCALE_NEAREST x y)) /\
  (forall source' x y, agree_on (sx_rect_make 0 0 2 2) demo_icon source' -> in_rect (sx_rect_make 0 0 6 2) x y ->
     scaled_sample demo_icon (sx_rect_make 0 0 6 2) (sx_rect_make 0 0 2 2) SX_SCALE_NEAREST x y =
     scaled_sample source' (sx_rect_make 0 0 6 2) (sx_rect_make 0 0 2 2) SX_SCALE_NEAREST x y) /\
  shown (sx_painter_draw_scaled_bitmap demo_painter (Some demo_icon) (sx_rect_make 0 0 6 2) (sx_rect_make 0 0 2 9) SX_SCALE_NEAREST) =
  [7; 1; 7; 7; 2; 7; 7;
   7; 3; 7; 7; 4; 7; 7;
   7; 7; 7; 7; 7; 7; 7].
Proof.
  destruct (painter_scaled_exact demo_painter demo_bitmap demo_icon (sx_rect_make 0 0 6 2) (sx_rect_make 0 0 2 9)
    SX_SCALE_NEAREST demo_painter_ok ltac:(discriminate) eq_refl eq_refl) as [H1 H2].
  split; [exact H1|]. split; [|by vm_compute].
  assert (Hfit : scaled_fits SX_SCALE_NEAREST (sx_rect_make 0 0 6 2) (sx_rect_make 0 0 2 2))
    by (vm_compute; intuition congruence).
  exact (proj1 (proj2 (proj2 (H2 Hfit)))).
Defined.

(** The bound is needed: in a picture 65536 pixels wide drawn at its own size
    the nearest filter reads, for the last pixel of a row, the column before the
    first. *)
Lemma nearest_overflows : nearest_position 65535 0 65536 0 65536 = -1.
Proof. reflexivity. Qed.

Definition demo_tree : list paint_cmd :=
  [AtOrigin 1 0 [InClip (sx_rect_make 0 0 3 2) [FillRect (sx_rect_make (-5) (-5) 20 20) (sx_brush_solid 9)]];
   DrawFrame (sx_rect_make 0 0 6 3) (sx_brush_solid 5)].

Lemma painter_confined_witness :
  confined demo_painter demo_bitmap (paint_all demo_tree demo_painter) (may_draw true demo_painter) /\
  shown (paint_all demo_tree demo_painter) =
  [7; 5; 7; 7; 5; 7; 7;
   7; 9; 7; 7; 7; 7; 7;
   7; 5; 7; 7; 5; 7; 7].
Proof.
  split; [|by vm_compute].
  apply (painter_confined demo_painter demo_bitmap demo_tree demo_painter_ok).
  repeat constructor.
Defined.

(** A region pushed inside a region replaces it: only the outer bounding box
    still confines, so the inner region draws between the outer columns. *)
Theorem painter_nested_region_escapes :
  let inner := sx_region_set_rect (sx_rect_make 0 0 6 3) in
  clip_shows demo_painter 2 1 = false /\
  shown (paint (InRegion inner [FillRect (sx_rect_make 2 1 1 1) (sx_brush_solid 9)]) demo_painter) =
  [7; 7; 7; 7; 7; 7; 7;
   7; 7; 9; 7; 7; 7; 7;
   7; 7; 7; 7; 7; 7; 7].
Proof. by vm_compute. Qed.
