(* ===== verification/Scene.v ===== *)
(** * The compositor's scene (system/compositord/compositord_scene.c)

    compositord keeps the surfaces the window manager attached, the layers of
    its last commit and the damage not yet presented, and composes them into
    the display.  The globals of the source are the record [scene].

    A section shared with a client is part of the surface that maps it: its
    header, its batches and its pixels, which the client writes between the
    operations.  What the system calls return is an argument of the operation
    that makes them ([mapped], [staged]); the calls that only have an effect
    (closing a handle, setting an event, unmapping) are recorded in
    [sn_calls].  The cursor images are built from an asset, so they are a
    parameter of the model. *)

From S2P Require Import Prelude Rect Region Painter.

Definition SAVANXP_COMPOSITOR_SURFACE_WM : Z := 1.
Definition SAVANXP_COMPOSITOR_MAX_SURFACES : Z := 32.
Definition SAVANXP_COMPOSITOR_SURFACE_CLIENT : Z := 1.
Definition SAVANXP_COMPOSITOR_LAYER_OPAQUE : Z := 1.
Definition SAVANXP_COMPOSITOR_MAX_LAYERS : Z := 48.
Definition SAVANXP_COMPOSITOR_MAX_DAMAGE : Z := 64.
Definition SAVANXP_COMPOSITOR_SCENE_MAGIC : Z := 0x53584353.
Definition SAVANXP_COMPOSITOR_SCENE_FULL_DAMAGE : Z := 1.
Definition SAVANXP_GPU_CLIENT_BATCH_CAPACITY : Z := 8.
Definition SAVANXP_GPU_CLIENT_BATCH_MAX_RECTS : Z := 32.
Definition SAVANXP_GPU_SURFACE_PRESENT_BATCH_FLAG_FULL_SURFACE : Z := 1.
Definition SAVANXP_CURSOR_ARROW : Z := 0.
Definition SAVANXP_CURSOR_SHAPE_COUNT : Z := 8.
Definition SAVANXP_EINVAL : Z := 22.
Definition SAVANXP_ENODEV : Z := 19.

(** [sizeof] of the client surface's header and of one batch. *)
Definition CLIENT_HEADER_SIZE : Z := 1304.
Definition DIRTY_RECT_BATCH_SIZE : Z := 528.

Definition has_flag (flags bit : Z) : bool := negb (Z.land flags bit =? 0).

(** ** What the WM and the clients write *)

(** [struct savanxp_compositor_layer]; its rectangles have the fields of [sx_rect]. *)
Record compositor_layer := mk_layer {
  ly_surface_id : Z; ly_flags : Z; ly_src : sx_rect; ly_dst : sx_rect }.
Definition layer0 : compositor_layer := mk_layer 0 0 (mk_rect 0 0 0 0) (mk_rect 0 0 0 0).

#[export] Instance compositor_layer_eq_dec : EqDecision compositor_layer.
Proof. solve_decision. Defined.

(** [struct savanxp_compositor_scene]. *)
Record compositor_scene := mk_compositor_scene {
  sc_magic : Z; sc_flags : Z; sc_layer_count : Z; sc_damage_count : Z;
  sc_cursor_x : Z; sc_cursor_y : Z; sc_cursor_shape : Z; sc_cursor_visible : Z;
  sc_layers : list compositor_layer; sc_damage : list sx_rect }.

Record dirty_rect := mk_dirty { dr_x : Z; dr_y : Z; dr_width : Z; dr_height : Z }.

Record dirty_rect_batch := mk_batch {
  bt_submit_sequence : Z; bt_rect_count : Z; bt_flags : Z; bt_rects : list dirty_rect }.
Definition batch0 : dirty_rect_batch := mk_batch 0 0 0 [].

(** The fields of [struct savanxp_gpu_client_surface_header] the scene uses. *)
Record client_header := mk_header {
  hd_submit_sequence : Z; hd_retired_sequence : Z; hd_composed_sequence : Z }.

(** [struct savanxp_compositor_surface]. *)
Record compositor_surface := mk_surface_desc {
  ds_surface_id : Z; ds_flags : Z; ds_section_size : Z; ds_pixels_offset : Z;
  ds_pitch : Z; ds_capacity_width : Z; ds_capacity_height : Z }.

(** What a mapped section holds, read at the offsets the descriptor gives. *)
Record section_view := mk_view {
  vw_header : client_header; vw_batches : list dirty_rect_batch; vw_pixels : list Z }.

(** ** The scene's state *)

(** [struct scene_surface]. *)
Record scene_surface := mk_surface {
  su_in_use : bool; su_broken : bool; su_flags : Z; su_section_size : Z;
  su_header : option client_header; su_batches : list dirty_rect_batch; su_pixels : option (list Z);
  su_pitch : Z; su_capacity_width : Z; su_capacity_height : Z; su_wake_event : Z;
  su_consumed : Z; su_compose_pending : Z; su_retire_pending : Z }.
Definition surface0 : scene_surface :=
  mk_surface false false 0 0 None [] None 0 0 0 (-1) 0 0 0.

Record scene_cursor := mk_cursor { cu_x : Z; cu_y : Z; cu_shape : Z; cu_visible : bool }.

Record cursor_asset := mk_asset {
  as_width : Z; as_height : Z; as_hotspot_x : Z; as_hotspot_y : Z; as_pixels : list Z }.

Inductive sys_call := EventSet (handle : Z) | CloseHandle (handle : Z) | UnmapView.

Record scene := mk_scene {
  sn_surfaces : list scene_surface;
  sn_stage_section : Z; sn_stage : option (list Z);
  sn_shared : option compositor_scene; sn_scene : compositor_scene; sn_layer_count : Z;
  sn_display : option (list Z); sn_display_info : fb_info;
  sn_damage : sx_region; sn_broken : Z;
  sn_software_cursor : bool; sn_cursor : scene_cursor; sn_cursor_drawn : scene_cursor;
  sn_calls : list sys_call }.

Definition set_surfaces (l : list scene_surface) (s : scene) : scene :=
  mk_scene l (sn_stage_section s) (sn_stage s) (sn_shared s) (sn_scene s) (sn_layer_count s)
    (sn_display s) (sn_display_info s) (sn_damage s) (sn_broken s) (sn_software_cursor s)
    (sn_cursor s) (sn_cursor_drawn s) (sn_calls s).
Definition set_surface (id : Z) (u : scene_surface) (s : scene) : scene :=
  set_surfaces (set_at (sn_surfaces s) id u) s.
Definition set_stage (section : Z) (stage : option (list Z)) (s : scene) : scene :=
  mk_scene (sn_surfaces s) section stage (sn_shared s) (sn_scene s) (sn_layer_count s)
    (sn_display s) (sn_display_info s) (sn_damage s) (sn_broken s) (sn_software_cursor s)
    (sn_cursor s) (sn_cursor_drawn s) (sn_calls s).
Definition set_shared (shared : option compositor_scene) (s : scene) : scene :=
  mk_scene (sn_surfaces s) (sn_stage_section s) (sn_stage s) shared (sn_scene s) (sn_layer_count s)
    (sn_display s) (sn_display_info s) (sn_damage s) (sn_broken s) (sn_software_cursor s)
    (sn_cursor s) (sn_cursor_drawn s) (sn_calls s).
Definition set_layers (sc : compositor_scene) (count : Z) (s : scene) : scene :=
  mk_scene (sn_surfaces s) (sn_stage_section s) (sn_stage s) (sn_shared s) sc count
    (sn_display s) (sn_display_info s) (sn_damage s) (sn_broken s) (sn_software_cursor s)
    (sn_cursor s) (sn_cursor_drawn s) (sn_calls s).
Definition set_display (display : option (list Z)) (info : fb_info) (s : scene) : scene :=
  mk_scene (sn_surfaces s) (sn_stage_section s) (sn_stage s) (sn_shared s) (sn_scene s) (sn_layer_count s)
    display info (sn_damage s) (sn_broken s) (sn_software_cursor s)
    (sn_cursor s) (sn_cursor_drawn s) (sn_calls s).
Definition set_damage (r : sx_region) (s : scene) : scene :=
  mk_scene (sn_surfaces s) (sn_stage_section s) (sn_stage s) (sn_shared s) (sn_scene s) (sn_layer_count s)
    (sn_display s) (sn_display_info s) r (sn_broken s) (sn_software_cursor s)
    (sn_cursor s) (sn_cursor_drawn s) (sn_calls s).
Definition set_broken (bits : Z) (s : scene) : scene :=
  mk_scene (sn_surfaces s) (sn_stage_section s) (sn_stage s) (sn_shared s) (sn_scene s) (sn_layer_count s)
    (sn_display s) (sn_display_info s) (sn_damage s) bits (sn_software_cursor s)
    (sn_cursor s) (sn_cursor_drawn s) (sn_calls s).
Definition set_cursors (software : bool) (cursor drawn : scene_cursor) (s : scene) : scene :=
  mk_scene (sn_surfaces s) (sn_stage_section s) (sn_stage s) (sn_shared s) (sn_scene s) (sn_layer_count s)
    (sn_display s) (sn_display_info s) (sn_damage s) (sn_broken s) software
    cursor drawn (sn_calls s).
Definition call (c : sys_call) (s : scene) : scene :=
  mk_scene (sn_surfaces s) (sn_stage_section s) (sn_stage s) (sn_shared s) (sn_scene s) (sn_layer_count s)
    (sn_display s) (sn_display_info s) (sn_damage s) (sn_broken s) (sn_software_cursor s)
    (sn_cursor s) (sn_cursor_drawn s) (sn_calls s ++ [c]).
Definition close_handle (h : Z) (s : scene) : scene :=
  if h >=? 0 then call (CloseHandle h) s else s.

Definition hide (c : scene_cursor) : scene_cursor := mk_cursor (cu_x c) (cu_y c) (cu_shape c) false.

Definition surface (s : scene) (id : Z) : scene_surface := at_ surface0 (sn_surfaces s) id.
Definition layer_at (s : scene) (index : Z) : compositor_layer := at_ layer0 (sc_layers (sn_scene s)) index.

(** The globals as they start: zeroed memory, no stage section, the cursor hidden at (24, 24). *)
Definition scene0 : scene :=
  mk_scene (replicate 32 (mk_surface false false 0 0 None [] None 0 0 0 0 0 0 0)) (-1) None None
    (mk_compositor_scene 0 0 0 0 0 0 0 0 [] []) 0 None (mk_info 0 0 0 0 0) sx_region_clear 0 false
    (mk_cursor 24 24 SAVANXP_CURSOR_ARROW false) (mk_cursor 0 0 SAVANXP_CURSOR_ARROW false) [].

(** ** Damage *)

Definition rect_from (r : sx_rect) : sx_rect := sx_rect_make (rx r) (ry r) (rw r) (rh r).

Definition display_rect (s : scene) : sx_rect :=
  sx_rect_make 0 0 (fb_width (sn_display_info s)) (fb_height (sn_display_info s)).

Definition damage_rect (rect : sx_rect) (s : scene) : scene :=
  let rect := sx_rect_intersect rect (display_rect s) in
  if negb (sx_rect_is_empty rect) then set_damage (sx_region_union_rect (sn_damage s) rect) s else s.

Definition surface_at (s : scene) (surface_id : Z) : option scene_surface :=
  if (surface_id =? 0) || (surface_id >=? SAVANXP_COMPOSITOR_MAX_SURFACES)
     || negb (su_in_use (surface s surface_id)) then None
  else Some (surface s surface_id).

Definition layer_source_valid (layer : compositor_layer) (u : scene_surface) : bool :=
  let src := ly_src layer in
  (rx src >=? 0) && (ry src >=? 0) && (rw src >? 0) && (rh src >? 0) &&
  (rw (ly_dst layer) >? 0) && (rh (ly_dst layer) >? 0) &&
  (u32 (rx src + rw src) <=? su_capacity_width u) &&
  (u32 (ry src + rh src) <=? su_capacity_height u).

Definition layer_scaled (layer : compositor_layer) : bool :=
  negb (rw (ly_src layer) =? rw (ly_dst layer)) || negb (rh (ly_src layer) =? rh (ly_dst layer)).

Definition damage_surface_rect (surface_id : Z) (local : sx_rect) (whole : bool) (s : scene) : scene * bool :=
  for_z 0 (sn_layer_count s) (fun index '(s, shown) =>
    let layer := layer_at s index in
    if negb (ly_surface_id layer =? surface_id) then (s, shown)
    else
      let dst := rect_from (ly_dst layer) in
      if whole || layer_scaled layer then (damage_rect dst s, true)
      else
        (damage_rect (sx_rect_intersect
           (sx_rect_make (rx dst - rx (ly_src layer) + rx local) (ry dst - ry (ly_src layer) + ry local)
                         (rw local) (rh local)) dst) s, true)) (s, false).

(** ** Client frames *)

Definition set_header (u : scene_surface) (h : option client_header) : scene_surface :=
  mk_surface (su_in_use u) (su_broken u) (su_flags u) (su_section_size u) h (su_batches u) (su_pixels u)
    (su_pitch u) (su_capacity_width u) (su_capacity_height u) (su_wake_event u)
    (su_consumed u) (su_compose_pending u) (su_retire_pending u).
Definition set_frames (u : scene_surface) (broken : bool) (consumed compose retire : Z) : scene_surface :=
  mk_surface (su_in_use u) broken (su_flags u) (su_section_size u) (su_header u) (su_batches u) (su_pixels u)
    (su_pitch u) (su_capacity_width u) (su_capacity_height u) (su_wake_event u)
    consumed compose retire.

Definition signal_wake (id : Z) (s : scene) : scene :=
  if su_wake_event (surface s id) >=? 0 then call (EventSet (su_wake_event (surface s id))) s else s.

Definition mark_composed (id sequence : Z) (s : scene) : scene :=
  match su_header (surface s id) with
  | Some h =>
      if negb (sequence =? 0) && (hd_composed_sequence h <? sequence)
      then signal_wake id
             (set_surface id (set_header (surface s id)
                (Some (mk_header (hd_submit_sequence h) (hd_retired_sequence h) sequence))) s)
      else s
  | None => s
  end.

Definition mark_retired (id sequence : Z) (s : scene) : scene :=
  match su_header (surface s id) with
  | Some h =>
      if negb (sequence =? 0) && (hd_retired_sequence h <? sequence)
      then signal_wake id
             (set_surface id (set_header (surface s id)
                (Some (mk_header (hd_submit_sequence h) sequence (hd_composed_sequence h)))) s)
      else s
  | None => s
  end.

(** [surface->broken = 1; g_broken |= 1u << surface_id]. *)
Definition break_surface (id : Z) (s : scene) : scene :=
  let u := surface s id in
  set_broken (Z.lor (sn_broken s) (u32 (Z.shiftl 1 id)))
    (set_surface id (set_frames u true (su_consumed u) (su_compose_pending u) (su_retire_pending u)) s).

Definition dirty_rect_bad (u : scene_surface) (rect : dirty_rect) : bool :=
  (dr_width rect =? 0) || (dr_height rect =? 0) ||
  (dr_x rect >=? su_capacity_width u) || (dr_y rect >=? su_capacity_height u) ||
  (dr_width rect >? su_capacity_width u - dr_x rect) ||
  (dr_height rect >? su_capacity_height u - dr_y rect).

(** The loop over a batch's rectangles: [None] in the second component is the
    early return that leaves the surface broken. *)
Fixpoint consume_rects (id : Z) (rects : list dirty_rect) (shown : bool) (s : scene) : scene * option bool :=
  match rects with
  | [] => (s, Some shown)
  | rect :: rest =>
      if dirty_rect_bad (surface s id) rect then (break_surface id s, None)
      else
        let '(s, on) := damage_surface_rect id
              (sx_rect_make (dr_x rect) (dr_y rect) (dr_width rect) (dr_height rect)) false s in
        consume_rects id rest (shown || on) s
  end.

(** The loop over the published batches.  [None] is the early return of a
    broken surface, [Some (shown, consumed_any)] its end. *)
Fixpoint consume_loop (fuel : nat) (id next submitted : Z) (shown any : bool) (s : scene)
  : scene * option (bool * bool) :=
  match fuel with
  | O => (s, Some (shown, any))
  | S fuel =>
      if negb (next <=? submitted) then (s, Some (shown, any))
      else
        let batch := at_ batch0 (su_batches (surface s id))
                         (u64 (next - 1) mod SAVANXP_GPU_CLIENT_BATCH_CAPACITY) in
        let rect_count := bt_rect_count batch in
        if negb (bt_submit_sequence batch =? next) || (rect_count >? SAVANXP_GPU_CLIENT_BATCH_MAX_RECTS)
        then (break_surface id s, None)
        else
          let '(s, outcome) :=
            if has_flag (bt_flags batch) SAVANXP_GPU_SURFACE_PRESENT_BATCH_FLAG_FULL_SURFACE then
              let '(s, on) := damage_surface_rect id (sx_rect_make 0 0 0 0) true s in (s, Some (shown || on))
            else consume_rects id (take (Z.to_nat rect_count) (bt_rects batch)) shown s in
          match outcome with
          | None => (s, None)
          | Some shown =>
              let u := surface s id in
              consume_loop fuel id (u64 (next + 1)) submitted shown true
                (set_surface id (set_frames u (su_broken u) next (su_compose_pending u) (su_retire_pending u)) s)
          end
  end.

(** A slot holds one sequence number, so whatever a client writes the loop runs
    at most once per slot before a batch does not check out. *)
Definition consume_fuel : nat := 9.

Definition consume_surface (id : Z) (s : scene) : scene :=
  let u := surface s id in
  match su_header u with
  | None => s
  | Some h =>
      if su_broken u then s
      else
        match consume_loop consume_fuel id (u64 (su_consumed u + 1)) (hd_submit_sequence h) false false s with
        | (s, None) => s
        | (s, Some (shown, any)) =>
            if negb any then s
            else
              let u := surface s id in
              if shown
              then set_surface id (set_frames u (su_broken u) (su_consumed u) (su_consumed u) (su_retire_pending u)) s
              else mark_retired id (su_consumed u) (mark_composed id (su_consumed u) s)
        end
  end.

Definition scene_consume_frames (s : scene) : scene :=
  for_z (SAVANXP_COMPOSITOR_SURFACE_WM + 1) SAVANXP_COMPOSITOR_MAX_SURFACES (fun id s =>
    if su_in_use (surface s id) && has_flag (su_flags (surface s id)) SAVANXP_COMPOSITOR_SURFACE_CLIENT
    then consume_surface id s else s) s.

(** ** Surfaces *)

Definition map_failed (value : Z) : bool := (value <? 0) && (value >? -4096).

Definition release_surface (id : Z) (s : scene) : scene :=
  let u := surface s id in
  set_surface id surface0 (close_handle (su_wake_event u) (if su_in_use u then call UnmapView s else s)).

(** The test before anything is mapped. *)
Definition attach_refused (s : scene) (desc : compositor_surface) : bool :=
  let client := has_flag (ds_flags desc) SAVANXP_COMPOSITOR_SURFACE_CLIENT in
  if (ds_surface_id desc =? 0) || (ds_surface_id desc >=? SAVANXP_COMPOSITOR_MAX_SURFACES)
     || su_in_use (surface s (ds_surface_id desc)) || (ds_pitch desc =? 0)
     || (ds_capacity_width desc =? 0) || (ds_capacity_height desc =? 0)
     || (ds_capacity_width desc >? ds_pitch desc / 4) then true
  else if negb (eqb client (negb (ds_surface_id desc =? SAVANXP_COMPOSITOR_SURFACE_WM))) then true
  else
    let pixel_bytes := u64 (ds_pitch desc * ds_capacity_height desc) in
    (u64 (ds_pixels_offset desc + pixel_bytes) >? ds_section_size desc) ||
    (client && (ds_pixels_offset desc <?
       CLIENT_HEADER_SIZE + SAVANXP_GPU_CLIENT_BATCH_CAPACITY * DIRTY_RECT_BATCH_SIZE)).

(** [mapped]: what [sxn_map_view] of the section gave, an error or the view.
    [staged]: what creating and mapping the stage section gave, in that order:
    an error of the first, or the new handle with an error of the second or the
    stage's pixels.  [desc] is never null at the only call. *)
Definition scene_attach (desc : compositor_surface) (section wake_event : Z)
    (mapped : res Z section_view) (staged : res Z (Z * res Z (list Z))) (s : scene) : scene * Z :=
  if attach_refused s desc
  then (close_handle wake_event (close_handle section s), - SAVANXP_EINVAL)
  else
    let s := call (CloseHandle section) s in
    match mapped with
    | Fail e => (close_handle wake_event s, e)
    | Ok view =>
        let id := ds_surface_id desc in
        let client := has_flag (ds_flags desc) SAVANXP_COMPOSITOR_SURFACE_CLIENT in
        let s := set_surface id
          (mk_surface true false (ds_flags desc) (ds_section_size desc)
             (if client then Some (vw_header view) else None)
             (if client then vw_batches view else []) (Some (vw_pixels view))
             (ds_pitch desc) (ds_capacity_width desc) (ds_capacity_height desc)
             (if client then wake_event else -1) 0 0 0) s in
        if client then (s, 0)
        else
          let s := close_handle wake_event s in
          match staged with
          | Fail e => (release_surface id s, e)
          | Ok (stage, Fail e) => (release_surface id (call (CloseHandle stage) s), e)
          | Ok (stage, Ok pixels) => (set_stage stage (Some pixels) s, 0)
          end
    end.

Definition scene_detach (surface_id : Z) (s : scene) : scene :=
  match surface_at s surface_id with
  | None => s
  | Some _ =>
      let s := fst (damage_surface_rect surface_id (sx_rect_make 0 0 0 0) true s) in
      let s :=
        match sn_stage s with
        | Some _ =>
            if surface_id =? SAVANXP_COMPOSITOR_SURFACE_WM
            then set_stage (-1) None (call (CloseHandle (sn_stage_section s)) (call UnmapView s))
            else s
        | None => s
        end in
      let s := release_surface surface_id s in
      set_broken (Z.land (sn_broken s) (u32 (Z.lnot (u32 (Z.shiftl 1 surface_id))))) s
  end.

(** ** Commits *)

Definition layers_equal (left right : compositor_layer) : bool := bool_decide (left = right).

Definition stage_rect (rect : sx_rect) (s : scene) : scene :=
  match surface_at s SAVANXP_COMPOSITOR_SURFACE_WM, sn_stage s with
  | Some wm, Some stage =>
      let rect := sx_rect_intersect rect (sx_rect_make 0 0 (su_capacity_width wm) (su_capacity_height wm)) in
      if sx_rect_is_empty rect then s
      else
        let stride := su_pitch wm / 4 in
        let pixels := match su_pixels wm with Some px => px | None => [] end in
        set_stage (sn_stage_section s)
          (Some (for_z (ry rect) (ry rect + rh rect) (fun row stage =>
             copy_pixels stage (row * stride + rx rect) pixels (row * stride + rx rect) (rw rect)) stage)) s
  | _, _ => s
  end.

Section Cursor.
(** [k_desktop_cursor_assets]. *)
Context (assets : Z -> cursor_asset).

Definition shape_asset (shape : Z) : cursor_asset :=
  assets (if (shape <? 0) || (shape >=? SAVANXP_CURSOR_SHAPE_COUNT) then SAVANXP_CURSOR_ARROW else shape).

Definition cursor_bounds (cursor : scene_cursor) : sx_rect :=
  let asset := shape_asset (cu_shape cursor) in
  sx_rect_make (cu_x cursor - as_hotspot_x asset) (cu_y cursor - as_hotspot_y asset)
               (as_width asset) (as_height asset).

Definition damage_cursor (cursor : scene_cursor) (s : scene) : scene :=
  if cu_visible cursor then damage_rect (cursor_bounds cursor) s else s.

Definition scene_set_display (pixels : option (list Z)) (info : fb_info) (s : scene) : scene :=
  let s := set_display pixels info s in
  let s := set_damage (sx_region_set_rect (display_rect s)) s in
  set_cursors (sn_software_cursor s) (sn_cursor s) (hide (sn_cursor_drawn s)) s.

Definition scene_set_software_cursor (enabled : bool) (s : scene) : scene :=
  let s := set_cursors enabled (sn_cursor s) (hide (sn_cursor_drawn s)) s in
  damage_cursor (sn_cursor s) s.

Definition scene_map_scene_section (section : Z) (mapped : res Z compositor_scene) (s : scene) : scene * Z :=
  let s := call (CloseHandle section) s in
  match mapped with
  | Fail e => (s, e)
  | Ok shared => (set_shared (Some shared) s, 0)
  end.

(** The loop over the layers that changed, appeared or went away. *)
Definition damage_changed_layers (previous : list compositor_layer) (previous_count : Z) (s : scene) : scene :=
  for_z 0 SAVANXP_COMPOSITOR_MAX_LAYERS (fun index s =>
    let had := index <? previous_count in
    let has := index <? sn_layer_count s in
    if had && has && layers_equal (at_ layer0 previous index) (layer_at s index) then s
    else
      let s := if had then damage_rect (rect_from (ly_dst (at_ layer0 previous index))) s else s in
      if has then damage_rect (rect_from (ly_dst (layer_at s index))) s else s) s.

(** The WM's own repaint. *)
Definition take_repaint (s : scene) : scene :=
  let damage_count := sc_damage_count (sn_scene s) in
  if has_flag (sc_flags (sn_scene s)) SAVANXP_COMPOSITOR_SCENE_FULL_DAMAGE
     || (damage_count >? SAVANXP_COMPOSITOR_MAX_DAMAGE)
  then damage_rect (display_rect s) (stage_rect (display_rect s) s)
  else
    for_z 0 damage_count (fun index s =>
      let rect := rect_from (at_ (mk_rect 0 0 0 0) (sc_damage (sn_scene s)) index) in
      damage_rect rect (stage_rect rect s)) s.

Definition take_cursor (s : scene) : scene :=
  let cursor := mk_cursor (sc_cursor_x (sn_scene s)) (sc_cursor_y (sn_scene s))
                  (sc_cursor_shape (sn_scene s)) (negb (sc_cursor_visible (sn_scene s) =? 0)) in
  let s :=
    if sn_software_cursor s &&
       (negb (cu_x cursor =? cu_x (sn_cursor s)) || negb (cu_y cursor =? cu_y (sn_cursor s)) ||
        negb (cu_shape cursor =? cu_shape (sn_cursor s)) || negb (eqb (cu_visible cursor) (cu_visible (sn_cursor s))))
    then damage_cursor cursor (damage_cursor (sn_cursor_drawn s) s)
    else s in
  set_cursors (sn_software_cursor s) cursor (sn_cursor_drawn s) s.

Definition scene_commit (s : scene) : scene * Z :=
  match sn_shared s with
  | None => (s, - SAVANXP_ENODEV)
  | Some shared =>
      let previous := sc_layers (sn_scene s) in
      let previous_count := sn_layer_count s in
      if negb (sc_magic shared =? SAVANXP_COMPOSITOR_SCENE_MAGIC)
      then (set_layers shared 0 s, - SAVANXP_EINVAL)
      else
        let count := if sc_layer_count shared <=? SAVANXP_COMPOSITOR_MAX_LAYERS then sc_layer_count shared else 0 in
        let s := set_layers shared count s in
        (scene_consume_frames (take_cursor (take_repaint (damage_changed_layers previous previous_count s))), 0)
  end.

(** ** Composition *)

Definition scene_has_damage (s : scene) : bool := negb (sx_region_is_empty (sn_damage s)).

(** The pixels a layer shows: the WM's are the staged copy. *)
Definition layer_pixels (s : scene) (layer : compositor_layer) (u : scene_surface) : option (list Z) :=
  if ly_surface_id layer =? SAVANXP_COMPOSITOR_SURFACE_WM then sn_stage s else su_pixels u.

Definition layer_bitmap (layer : compositor_layer) (u : scene_surface) (pixels : list Z) : sx_bitmap :=
  let src := ly_src layer in
  sx_bitmap_wrap (Some pixels)
    (Some (mk_info (rx src + rw src) (ry src + rh src) (su_pitch u) 32 (u32 (su_pitch u * (ry src + rh src)))))
    SX_PIXEL_FORMAT_BGRX8888.

Definition paint_layer (s : scene) (painter : sx_painter) (layer : compositor_layer) : sx_painter :=
  match surface_at s (ly_surface_id layer) with
  | None => painter
  | Some u =>
      match layer_pixels s layer u with
      | None => painter
      | Some pixels =>
          let bitmap := layer_bitmap layer u pixels in
          if layer_scaled layer
          then sx_painter_draw_scaled_bitmap_nearest painter (Some bitmap)
                 (rect_from (ly_dst layer)) (rect_from (ly_src layer))
          else sx_painter_blit_bitmap painter (Some bitmap)
                 (rx (ly_dst layer) - rx (ly_src layer)) (ry (ly_dst layer) - ry (ly_src layer))
      end
  end.

Definition cursor_bitmap (cursor : scene_cursor) : sx_bitmap :=
  let asset := shape_asset (cu_shape cursor) in
  sx_bitmap_wrap (Some (as_pixels asset))
    (Some (mk_info (as_width asset) (as_height asset) (as_width asset * 4) 32
                   (u32 (as_width asset * 4 * as_height asset))))
    SX_PIXEL_FORMAT_BGRA8888.

Definition paint_cursor (painter : sx_painter) (cursor : scene_cursor) : sx_painter :=
  let asset := shape_asset (cu_shape cursor) in
  sx_painter_blit_bitmap painter (Some (cursor_bitmap cursor))
    (cu_x cursor - as_hotspot_x asset) (cu_y cursor - as_hotspot_y asset).

Definition layer_live (s : scene) (layer : compositor_layer) : bool :=
  match surface_at s (ly_surface_id layer) with
  | None => false
  | Some u => layer_source_valid layer u
  end.

(** The part of a layer the damage reaches and no opaque layer in front hides. *)
Definition layer_visible (s : scene) (damage : sx_region) (index : Z) : sx_region :=
  let visible := sx_region_intersect_rect (sx_region_copy (Some damage)) (rect_from (ly_dst (layer_at s index))) in
  for_z (index + 1) (sn_layer_count s) (fun front visible =>
    if sx_region_is_empty visible then visible
    else
      let above := layer_at s front in
      if has_flag (ly_flags above) SAVANXP_COMPOSITOR_LAYER_OPAQUE && layer_live s above
      then sx_region_subtract_rect visible (rect_from (ly_dst above)) else visible) visible.

(** Paints through a region: [clear_clip], [push_clip_region], the drawing, [pop_clip]. *)
Definition through_region (painter : sx_painter) (visible : sx_region) (f : sx_painter -> sx_painter) : sx_painter :=
  let painter := sx_painter_clear_clip painter in
  match sx_painter_push_clip_region painter (Some visible) with
  | (painter, true) => sx_painter_pop_clip (f painter)
  | (painter, false) => painter
  end.

Definition compose_layer (s : scene) (damage : sx_region) (index : Z) (painter : sx_painter) : sx_painter :=
  let layer := layer_at s index in
  if negb (layer_live s layer) then painter
  else
    let visible := layer_visible s damage index in
    if sx_region_is_empty visible then painter
    else through_region painter visible (fun painter => paint_layer s painter layer).

Definition compose_cursor (s : scene) (damage : sx_region) (painter : sx_painter) : sx_painter :=
  let visible := sx_region_intersect_rect (sx_region_copy (Some damage)) (cursor_bounds (sn_cursor s)) in
  if sx_region_is_empty visible then painter
  else through_region painter visible (fun painter => paint_cursor painter (sn_cursor s)).

(** The client surfaces the composition showed. *)
Definition mark_all_composed (s : scene) : scene :=
  for_z (SAVANXP_COMPOSITOR_SURFACE_WM + 1) SAVANXP_COMPOSITOR_MAX_SURFACES (fun id s =>
    let pending := su_compose_pending (surface s id) in
    if su_in_use (surface s id) && negb (pending =? 0) then
      let s := mark_composed id pending s in
      let u := surface s id in
      set_surface id (set_frames u (su_broken u) (su_consumed u) 0
        (if su_retire_pending u <? pending then pending else su_retire_pending u)) s
    else s) s.

(** The display buffer after painting. *)
Definition painted_display (painter : sx_painter) : option (list Z) :=
  match p_target painter with Some bm => bm_pixels bm | None => None end.

(** The second component is what is handed over in [presented]. *)
Definition scene_compose (s : scene) : scene * sx_region :=
  let draw_cursor := sn_software_cursor s && cu_visible (sn_cursor s) in
  let damage := sx_region_intersect_rect (sn_damage s) (display_rect s) in
  let s := set_damage damage s in
  match sn_display s with
  | None => (s, sx_region_clear)
  | Some _ =>
      if sx_region_is_empty damage then (s, sx_region_clear)
      else
        let painter := sx_painter_init
          (Some (sx_bitmap_wrap (sn_display s) (Some (sn_display_info s)) SX_PIXEL_FORMAT_BGRX8888)) in
        let painter := for_z 0 (sn_layer_count s) (compose_layer s damage) painter in
        let painter := if draw_cursor then compose_cursor s damage painter else painter in
        let s := set_display (painted_display painter) (sn_display_info s) s in
        let s := set_cursors (sn_software_cursor s) (sn_cursor s)
                   (if draw_cursor then sn_cursor s else hide (sn_cursor_drawn s)) s in
        (mark_all_composed (set_damage sx_region_clear s), damage)
  end.

Definition scene_retire (s : scene) : scene :=
  for_z (SAVANXP_COMPOSITOR_SURFACE_WM + 1) SAVANXP_COMPOSITOR_MAX_SURFACES (fun id s =>
    let pending := su_retire_pending (surface s id) in
    if su_in_use (surface s id) && negb (pending =? 0) then
      let s := mark_retired id pending s in
      let u := surface s id in
      set_surface id (set_frames u (su_broken u) (su_consumed u) (su_compose_pending u) 0) s
    else s) s.

Definition scene_current_cursor (s : scene) : scene_cursor := sn_cursor s.

Definition scene_take_broken (s : scene) : scene * Z := (set_broken 0 s, sn_broken s).

Definition scene_reset (s : scene) : scene :=
  let s := for_z 0 SAVANXP_COMPOSITOR_MAX_SURFACES (fun id s =>
             if su_in_use (surface s id) then scene_detach id s else s) s in
  let s := match sn_shared s with
           | Some _ => set_shared None (call UnmapView s)
           | None => s
           end in
  set_damage sx_region_clear (set_layers (sn_scene s) 0 s).

End Cursor.
