(* ===== verification/SceneFacts.v ===== *)
(** * What a composition paints

    The regions a layer is painted through, the painter's effect under such a
    region, and from the two the value of every display pixel after
    [scene_compose]. *)

From S2P Require Import Prelude Rect Region RegionFacts RegionLaws RegionClip Painter PainterFacts PainterLaws Scene.

(** ** What the pictures depend on *)

Definition geom (u : scene_surface) : bool * Z * option (list Z) * Z * Z * Z :=
  (su_in_use u, su_flags u, su_pixels u, su_pitch u, su_capacity_width u, su_capacity_height u).

Definition look (s : scene) :=
  (map geom (sn_surfaces s), sn_stage s, sc_layers (sn_scene s), sn_layer_count s).

Lemma at_map {A B} (f : A -> B) d l i : at_ (f d) (map f l) i = f (at_ d l i).
Proof. unfold at_. case_if; [done|]. apply map_nth. Qed.

Lemma look_surface s s' id : look s = look s' -> geom (surface s id) = geom (surface s' id).
Proof.
  intros H. unfold surface. rewrite <- !(at_map geom). unfold look in H.
  assert (E : map geom (sn_surfaces s) = map geom (sn_surfaces s')) by congruence. by rewrite E.
Qed.

Lemma look_layer s s' i : look s = look s' -> layer_at s i = layer_at s' i.
Proof.
  unfold look, layer_at. intros H.
  assert (E : sc_layers (sn_scene s) = sc_layers (sn_scene s')) by congruence. by rewrite E.
Qed.

Lemma look_count s s' : look s = look s' -> sn_layer_count s = sn_layer_count s'.
Proof. unfold look. congruence. Qed.

Lemma look_live s s' layer : look s = look s' -> layer_live s layer = layer_live s' layer.
Proof.
  intros H. pose proof (look_surface s s' (ly_surface_id layer) H) as E. unfold geom in E.
  unfold layer_live, surface_at, layer_source_valid.
  replace (su_in_use (surface s (ly_surface_id layer))) with (su_in_use (surface s' (ly_surface_id layer))) by congruence.
  destruct (_ || _); [done|].
  replace (su_capacity_width (surface s (ly_surface_id layer)))
    with (su_capacity_width (surface s' (ly_surface_id layer))) by congruence.
  by replace (su_capacity_height (surface s (ly_surface_id layer)))
    with (su_capacity_height (surface s' (ly_surface_id layer))) by congruence.
Qed.

(** The pixel a layer shows at a point of the screen. *)
Definition layer_sample (s : scene) (layer : compositor_layer) (x y : Z) : option Z :=
  let u := surface s (ly_surface_id layer) in
  match layer_pixels s layer u with
  | None => None
  | Some pixels =>
      let bitmap := layer_bitmap layer u pixels in
      Some (if layer_scaled layer
            then scaled_sample bitmap (ly_dst layer) (ly_src layer) SX_SCALE_NEAREST x y
            else source_pixel bitmap (x - (rx (ly_dst layer) - rx (ly_src layer)))
                                     (y - (ry (ly_dst layer) - ry (ly_src layer))))
  end.

Lemma look_sample s s' layer x y : look s = look s' -> layer_sample s layer x y = layer_sample s' layer x y.
Proof.
  intros H. pose proof (look_surface s s' (ly_surface_id layer) H) as E. unfold geom in E.
  assert (sn_stage s = sn_stage s') as Est by (unfold look in H; congruence).
  unfold layer_sample, layer_pixels, layer_bitmap.
  replace (su_pixels (surface s (ly_surface_id layer))) with (su_pixels (surface s' (ly_surface_id layer))) by congruence.
  replace (su_pitch (surface s (ly_surface_id layer))) with (su_pitch (surface s' (ly_surface_id layer))) by congruence.
  by rewrite Est.
Qed.

(** A layer shows something at a point. *)
Definition layer_covers (s : scene) (index x y : Z) : bool :=
  layer_live s (layer_at s index) && sx_rect_contains_point (ly_dst (layer_at s index)) x y.

(** The frontmost of the layers before [n] that cover a point. *)
Definition front_below (s : scene) (n x y : Z) : option Z :=
  for_z 0 n (fun index front => if layer_covers s index x y then Some index else front) None.
Definition front_layer (s : scene) (x y : Z) : option Z := front_below s (sn_layer_count s) x y.

Lemma front_spec s n x y :
  match front_below s n x y with
  | Some f => 0 <= f < n /\ layer_covers s f x y = true /\ forall k, f < k < n -> layer_covers s k x y = false
  | None => forall k, 0 <= k < n -> layer_covers s k x y = false
  end.
Proof.
  unfold front_below. destruct (Z_le_gt_dec 0 n) as [Hn|Hn]; [|rewrite for_z_nil by lia; intros; lia].
  apply (for_z_ind (fun i (front : option Z) => match front with
    | Some f => 0 <= f < i /\ layer_covers s f x y = true /\ forall k, f < k < i -> layer_covers s k x y = false
    | None => forall k, 0 <= k < i -> layer_covers s k x y = false end)); [done|intros; lia|].
  intros i front Hi H. destruct (layer_covers s i x y) eqn:E.
  - split; [lia|]. split; [done|]. intros; lia.
  - destruct front as [f|].
    + destruct H as (H1 & H2 & H3). split; [lia|]. split; [done|]. intros k Hk.
      destruct (decide (k = i)) as [->|]; [done|]. apply H3. lia.
    + intros k Hk. destruct (decide (k = i)) as [->|]; [done|]. apply H. lia.
Qed.

Lemma look_covers s s' i x y : look s = look s' -> layer_covers s i x y = layer_covers s' i x y.
Proof. intros H. unfold layer_covers. by rewrite (look_layer s s' i H), (look_live s s' _ H). Qed.

Lemma look_front s s' x y : look s = look s' -> front_layer s x y = front_layer s' x y.
Proof.
  intros H. unfold front_layer, front_below. rewrite (look_count _ _ H). apply for_z_ext.
  intros i f _. by rewrite (look_covers s s' i x y H).
Qed.

(** ** Regions: the overflow mark is passive *)

Definition unmarked (r : sx_region) : sx_region := mk_region (rg_bands r) false.

Lemma apply_rect_bands r r' rect op :
  rg_bands r = rg_bands r' -> rg_bands (sx_region_apply_rect r rect op) = rg_bands (sx_region_apply_rect r' rect op).
Proof.
  intros E. unfold sx_region_apply_rect, sx_region_is_empty, sx_region_collapse, sx_region_bounds. rewrite E.
  destruct (sx_rect_is_empty rect); [by destruct op|].
  destruct (rg_bands r') eqn:E'; [by destruct op; simpl; rewrite ?E, ?E'|].
  destruct (sweep _ _ _ _ _ _) as [[bs|]|]; [done| |by rewrite E].
  destruct op; [done|..]; by destruct (sx_rect_is_empty _).
Qed.

Lemma apply_rect_unmarked r rect op :
  rg_overflowed (sx_region_apply_rect (unmarked r) rect op) = false ->
  region_ok r ->
  forall x y, in_region (sx_region_apply_rect r rect op) x y <-> op_sem op (in_region r x y) (in_rect rect x y).
Proof.
  intros Ho Hr x y. unfold in_region at 1. rewrite (apply_rect_bands r (unmarked r)) by done.
  destruct (apply_rect_promise (unmarked r) rect op Hr) as (_ & _ & H). by apply H.
Qed.

Lemma empty_region_ok : region_ok sx_region_clear.
Proof. apply (set_rect_ok (mk_rect 0 0 0 0)). Qed.

Lemma region_is_empty_bands r r' : rg_bands r = rg_bands r' -> sx_region_is_empty r = sx_region_is_empty r'.
Proof. unfold sx_region_is_empty. by intros ->. Qed.

Lemma region_contains_iff r x y : region_ok r -> sx_region_contains_point r x y = true <-> in_region r x y.
Proof. intros [H _]. unfold sx_region_contains_point, in_region. by eapply contains_from_iff. Qed.

(** A rectangle that covers a region covers what it collapses to. *)
Lemma bounds_within r box : region_ok r ->
  (forall x y, in_region r x y -> in_rect box x y) ->
  forall x y, in_rect (sx_region_bounds r) x y -> in_rect box x y.
Proof.
  intros Hr Hin x y Hb. destruct (rg_bands r) as [|f t] eqn:E.
  { unfold sx_region_bounds in Hb. rewrite E in Hb. unfold in_rect in Hb. simpl in Hb. lia. }
  destruct (bounds_shape r f t Hr E) as (z & x0 & x1 & Hz & Ebox & Hx & (bl & Hbl & El) & (br & Hbr & Er)).
  rewrite Ebox in Hb. destruct Hr as [Hok _].
  assert (P : forall b c, b ∈ rg_bands r -> in_spans (bd_spans b) c -> covers b (bd_y0 b) /\ covers b (bd_y1 b - 1)
              -> in_rect box c (bd_y0 b) /\ in_rect box c (bd_y1 b - 1)).
  { intros b c Hb' Hc [C0 C1]. split; apply Hin; apply in_bands_elem; exists b; done. }
  assert (C : forall b, b ∈ rg_bands r -> covers b (bd_y0 b) /\ covers b (bd_y1 b - 1)).
  { intros b Hb'. destruct (bands_ok_forall _ _ _ Hok Hb') as [? _]. unfold covers. lia. }
  assert (Hf : f ∈ rg_bands r) by (rewrite E; by constructor).
  assert (Hzz : z ∈ rg_bands r) by by apply last_elem.
  destruct (P f _ Hf (band_left_in f (bands_ok_forall _ _ _ Hok Hf)) (C f Hf)) as [P1 _].
  destruct (P z _ Hzz (band_left_in z (bands_ok_forall _ _ _ Hok Hzz)) (C z Hzz)) as [_ P2].
  destruct (P bl _ Hbl (band_left_in bl (bands_ok_forall _ _ _ Hok Hbl)) (C bl Hbl)) as [P3 _].
  destruct (P br _ Hbr (band_right_in br (bands_ok_forall _ _ _ Hok Hbr)) (C br Hbr)) as [P4 _].
  unfold in_rect in *. simpl in *. lia.
Qed.

(** Subtracting stays inside any rectangle that covered the region. *)
Lemma subtract_within r rect box : region_ok r ->
  (forall x y, in_region r x y -> in_rect box x y) ->
  forall x y, in_region (sx_region_subtract_rect r rect) x y -> in_rect box x y.
Proof.
  intros Hr Hin x y H. unfold sx_region_subtract_rect in H.
  destruct (rg_overflowed (sx_region_apply_rect (unmarked r) rect OP_SUBTRACT)) eqn:Eo.
  2:{ apply (apply_rect_unmarked r rect OP_SUBTRACT Eo Hr) in H. destruct H. by apply Hin. }
  unfold in_region in H. rewrite (apply_rect_bands r (unmarked r)) in H by done.
  unfold sx_region_apply_rect in Eo, H. destruct (sx_rect_is_empty rect); [done|].
  destruct (sx_region_is_empty (unmarked r)); [done|].
  destruct (sweep _ _ _ _ _ _) as [[bs|]|]; [done| |done].
  cbn [rg_bands] in H. rewrite collapse_bands in H.
  apply (bounds_within r box Hr Hin). apply set_rect_points. exact H.
Qed.

(** Two loops in step. *)
Lemma for_z_rel {S T} (R : Z -> S -> T -> Prop) lo hi (f : Z -> S -> S) (g : Z -> T -> T) s t :
  lo <= hi -> R lo s t -> (forall i s t, lo <= i < hi -> R i s t -> R (i + 1) (f i s) (g i t)) ->
  R hi (for_z lo hi f s) (for_z lo hi g t).
Proof.
  intros Hle H0 Hstep.
  apply (for_z_ind (fun i s' => R i s' (for_z lo i g t))); [done|by rewrite for_z_nil by lia|].
  intros i s' Hi H. rewrite for_z_last by lia. by apply Hstep.
Qed.

(** ** The part of a layer that is painted *)

Section Visible.
Context (s : scene) (damage : sx_region) (Hd : region_ok damage).

Definition fits (index : Z) : Prop := rg_overflowed (layer_visible s (unmarked damage) index) = false.

Lemma rect_from_id r : rect_from r = r.
Proof. by destruct r. Qed.

(** The region on the way of the loop, with its unmarked twin. *)
Definition visible_inv (index k : Z) (v w : sx_region) : Prop :=
  rg_bands v = rg_bands w /\ region_ok v /\
  (forall x y, in_region v x y -> in_rect (ly_dst (layer_at s index)) x y) /\
  (forall x y, in_region damage x y -> in_rect (ly_dst (layer_at s index)) x y ->
     (forall j, index < j < k -> layer_covers s j x y = false) -> in_region v x y) /\
  (rg_overflowed w = false -> forall x y, in_region v x y -> in_region damage x y).

Lemma visible_step index k v w :
  0 <= index < k -> visible_inv index k v w ->
  let above := layer_at s k in
  has_flag (ly_flags above) SAVANXP_COMPOSITOR_LAYER_OPAQUE && layer_live s above = true ->
  visible_inv index (k + 1) (sx_region_subtract_rect v (rect_from (ly_dst above)))
                            (sx_region_subtract_rect w (rect_from (ly_dst above))).
Proof.
  intros Hk (E & Hok & Hin & Hsup & Hsub) above Hop. rewrite rect_from_id.
  assert (Hw : region_ok w) by (unfold region_ok in *; by rewrite <- E).
  destruct (apply_rect_promise v (ly_dst above) OP_SUBTRACT Hok) as (P1 & P2 & _).
  split; [by apply apply_rect_bands|]. split; [exact P1|]. split; [by apply subtract_within|]. split.
  - intros x y Hdm Hdst Hf. apply P2. split; [apply Hsup; try done; intros j Hj; apply Hf; lia|].
    intros Hc. specialize (Hf k ltac:(lia)). unfold layer_covers in Hf. fold above in Hf.
    apply contains_point_iff in Hc. rewrite Hc in Hf. destruct (layer_live s above); [done|].
    by rewrite andb_false_r in Hop.
  - intros Ho x y Hv. unfold sx_region_subtract_rect in Ho.
    destruct (apply_rect_flag _ _ _ Ho) as [Hflag|[[? _]|[? _]]]; [|done..].
    destruct (apply_rect_promise w (ly_dst above) OP_SUBTRACT Hw) as (_ & _ & P3). specialize (P3 Ho).
    apply (Hsub Hflag). unfold in_region in *. unfold sx_region_subtract_rect in Hv.
    rewrite (apply_rect_bands v w _ _ E) in Hv. apply P3 in Hv. destruct Hv as [Hv _]. by rewrite E.
Qed.

Lemma visible_facts index :
  0 <= index < sn_layer_count s ->
  visible_inv index (sn_layer_count s) (layer_visible s damage index) (layer_visible s (unmarked damage) index).
Proof.
  intros Hi. unfold layer_visible, sx_region_copy. rewrite rect_from_id.
  apply (for_z_rel (visible_inv index)); [lia| |].
  - split; [by apply apply_rect_bands|].
    destruct (apply_rect_promise damage (ly_dst (layer_at s index)) OP_INTERSECT Hd) as (P1 & _ & _).
    split; [exact P1|]. pose proof (intersect_exact damage (ly_dst (layer_at s index))) as X.
    split; [intros x y H; apply (X x y Hd) in H; tauto|]. split; [intros x y H1 H2 _; by apply X|].
    intros _ x y H. apply (X x y Hd) in H. tauto.
  - intros k v w Hk H. rewrite <- (region_is_empty_bands v w) by apply H.
    destruct (sx_region_is_empty v) eqn:Ee.
    { destruct H as (H1 & H2 & H3 & H4 & H5). split_and!; try done.
      intros x y Hdm Hdst Hf. apply H4; [done..|]. intros j Hj. apply Hf. lia. }
    destruct (_ && _) eqn:Eo; [by apply visible_step; [lia|..]|].
    destruct H as (H1 & H2 & H3 & H4 & H5). split_and!; try done.
    intros x y Hdm Hdst Hf. apply H4; [done..|]. intros j Hj. apply Hf. lia.
Qed.
End Visible.

(** ** Painting through a region *)

Definition fresh (p : sx_painter) : Prop :=
  p_has_clip p = false /\ p_saved p = [] /\ p_clip_region p = None /\ p_origin p = mk_point 0 0.

Lemma through_region_draws p bm v f vis g :
  fresh p -> painter_ok p bm -> region_ok v -> sx_region_is_empty v = false ->
  (forall p1, painter_ok p1 bm -> p_origin p1 = mk_point 0 0 ->
     (forall x y, clip_shows p1 x y = sx_region_contains_point v x y) -> draws p1 bm (f p1) vis g) ->
  draws p bm (through_region p v f) vis g.
Proof.
  intros (F1 & F2 & F3 & F4) (Ht & Hb & Hc) Hv He Hf. destruct p as [t cr hc sv o so fo re ro]. simpl in *. subst.
  unfold through_region, sx_painter_clear_clip, sx_painter_push_clip_region, sx_painter_push_clip, set_clip. simpl.
  rewrite He.
  match goal with |- draws _ _ (sx_painter_pop_clip (f ?q)) _ _ => destruct (Hf q) as (px & -> & H) end.
  - split; [done|]. split; [done|]. intros r. simpl. by intros [= <-].
  - done.
  - intros x y. unfold clip_shows, region_shows, sx_to_device_rect. simpl. rewrite He. simpl.
    rewrite !Z.sub_0_r. apply eq_true_iff_eq. rewrite andb_true_iff, contains_point_iff, region_contains_iff by done.
    split; [tauto|]. intros H. split; [|done]. apply (bounds_cover v) in H; [|done].
    unfold in_rect, sx_rect_translate in *. simpl. lia.
  - by exists px.
Qed.

Lemma source_clip_id src :
  0 <= rx src -> 0 <= ry src -> 0 < rw src -> 0 < rh src ->
  sx_rect_intersect src (sx_rect_make 0 0 (rx src + rw src) (ry src + rh src)) = src.
Proof.
  intros. destruct src as [x y w h]. unfold sx_rect_intersect. rect_unfold.
  repeat (case_if; simpl; try lia); f_equal; lia.
Qed.

Lemma translate_zero r : sx_rect_translate r 0 0 = r.
Proof. destruct r. unfold sx_rect_translate. simpl. by rewrite !Z.add_0_r. Qed.

Lemma layer_live_valid s layer : layer_live s layer = true ->
  surface_at s (ly_surface_id layer) = Some (surface s (ly_surface_id layer)) /\
  layer_source_valid layer (surface s (ly_surface_id layer)) = true.
Proof.
  unfold layer_live. destruct (surface_at s _) as [u|] eqn:E; [|done]. intros H.
  unfold surface_at in E. destruct (_ || _); by simplify_eq.
Qed.

Lemma paint_layer_draws s layer p1 bm :
  painter_ok p1 bm -> p_origin p1 = mk_point 0 0 -> layer_live s layer = true ->
  (forall x y, clip_shows p1 x y = true -> in_rect (ly_dst layer) x y) ->
  (forall x y, layer_sample s layer x y <> None) ->
  draws p1 bm (paint_layer s p1 layer) (fun x y => clip_shows p1 x y && bitmap_shows bm x y)
    (fun x y _ => default 0 (layer_sample s layer x y)).
Proof.
  intros Hp Ho Hl Hclip Hsome. destruct (layer_live_valid _ _ Hl) as [Hs Hv].
  unfold paint_layer, layer_sample in *. rewrite Hs.
  destruct (layer_pixels s layer _) as [pixels|] eqn:Epx; [|by specialize (Hsome 0 0)]. clear Hsome.
  set (u := surface s (ly_surface_id layer)) in *. unfold layer_source_valid in Hv. rewrite !rect_from_id.
  destruct (layer_scaled layer) eqn:Esc.
  - pose proof (scaled_draws p1 bm (layer_bitmap layer u pixels) (ly_dst layer) (ly_src layer) SX_SCALE_NEAREST Hp) as H.
    cbn [layer_bitmap sx_bitmap_wrap bm_info fb_width fb_height bm_pixels] in H.
    rewrite source_clip_id in H by lia.
    unfold sx_to_device_rect in H. rewrite Ho in H. cbn [pt_x pt_y] in H. rewrite translate_zero in H.
    eapply draws_ext; [|eapply draws_fun; [|apply H]].
    + intros x y. unfold draw_shows. specialize (Hclip x y). rewrite <- contains_point_iff in Hclip.
      destruct (clip_shows p1 x y); [rewrite Hclip by done; done|by rewrite andb_false_r].
    + intros x y v. done.
    + done.
    + unfold sx_rect_is_empty. lia.
    + unfold sx_rect_is_empty. lia.
  - pose proof (blit_draws p1 bm (layer_bitmap layer u pixels) (rx (ly_dst layer) - rx (ly_src layer))
      (ry (ly_dst layer) - ry (ly_src layer)) Hp) as H.
    rewrite Ho in H. cbn [pt_x pt_y layer_bitmap sx_bitmap_wrap bm_info fb_width fb_height bm_pixels] in H.
    rewrite !Z.add_0_r in H. unfold layer_scaled in Esc.
    eapply draws_ext; [|eapply draws_fun; [|by apply H]]; [|done].
    intros x y. unfold draw_shows. specialize (Hclip x y).
    destruct (clip_shows p1 x y); [|by rewrite andb_false_r].
    assert (E : sx_rect_contains_point (sx_rect_make (rx (ly_dst layer) - rx (ly_src layer)) (ry (ly_dst layer) - ry (ly_src layer))
       (rx (ly_src layer) + rw (ly_src layer)) (ry (ly_src layer) + rh (ly_src layer))) x y = true); [|by rewrite E].
    apply contains_point_iff. specialize (Hclip eq_refl). unfold in_rect in *. simpl. lia.
Qed.

(** ** The layers *)

Definition layer_paints (s : scene) (damage : sx_region) (bm : sx_bitmap) (index x y : Z) : bool :=
  layer_live s (layer_at s index) && sx_region_contains_point (layer_visible s damage index) x y
  && bitmap_shows bm x y.

Definition drawable (s : scene) : Prop :=
  forall index, 0 <= index < sn_layer_count s -> layer_live s (layer_at s index) = true ->
    forall x y, layer_sample s (layer_at s index) x y <> None.

Lemma contains_empty r x y : sx_region_is_empty r = true -> sx_region_contains_point r x y = false.
Proof. unfold sx_region_is_empty, sx_region_contains_point. by destruct (rg_bands r). Qed.

Lemma compose_layer_draws s damage index p bm :
  fresh p -> painter_ok p bm -> region_ok damage -> drawable s -> 0 <= index < sn_layer_count s ->
  draws p bm (compose_layer s damage index p) (layer_paints s damage bm index)
    (fun x y _ => default 0 (layer_sample s (layer_at s index) x y)).
Proof.
  intros Hf Hp Hd Hdr Hi. unfold compose_layer, layer_paints.
  destruct (layer_live s (layer_at s index)) eqn:El; [|by apply draws_none]. cbn [negb].
  destruct (visible_facts s damage Hd index Hi) as (_ & Hok & Hin & _ & _).
  destruct (sx_region_is_empty (layer_visible s damage index)) eqn:Ee.
  { eapply draws_ext; [|by apply draws_none]. intros x y. by rewrite contains_empty. }
  apply through_region_draws; [done..|]. intros p1 Hp1 Ho Hclip.
  eapply draws_ext; [|apply (paint_layer_draws s (layer_at s index) p1 bm Hp1 Ho El)].
  - intros x y. cbv beta. by rewrite Hclip.
  - intros x y H. rewrite Hclip in H. apply Hin. by apply region_contains_iff.
  - intros x y. by apply Hdr.
Qed.

Lemma fresh_with_pixels p bm px : fresh p -> fresh (with_pixels p bm px).
Proof. done. Qed.

(** The value of a pixel after the layers before [n]. *)
Definition stacked (s : scene) (damage : sx_region) (bm : sx_bitmap) (n x y v : Z) : Z :=
  for_z 0 n (fun index v =>
    if layer_paints s damage bm index x y then default 0 (layer_sample s (layer_at s index) x y) else v) v.

Lemma compose_layers_draw s damage p bm :
  fresh p -> painter_ok p bm -> region_ok damage -> drawable s -> 0 <= sn_layer_count s ->
  draws p bm (for_z 0 (sn_layer_count s) (compose_layer s damage) p) (fun _ _ => true)
    (stacked s damage bm (sn_layer_count s)).
Proof.
  intros Hf Hp Hd Hdr Hn.
  assert (Hstart : draws p bm p (fun _ _ => true) (stacked s damage bm 0)).
  { exists (target_pixels bm). by rewrite with_pixels_same. }
  apply (for_z_ind (fun i p' => draws p bm p' (fun _ _ => true) (stacked s damage bm i))); [done..|].
  intros i p' Hi H. destruct (draws_ok _ _ _ _ _ Hp H) as (px & -> & Hp').
  destruct (compose_layer_draws s damage i (with_pixels p bm px) (redrawn bm px) (fresh_with_pixels _ _ _ Hf) Hp' Hd Hdr Hi)
    as (px2 & -> & Hl2 & H2). destruct H as (px' & E & Hl & H).
  assert (px' = px) as -> by (unfold with_pixels in E; congruence). exists px2. split; [done|].
  cbn [redrawn target_pixels bm_pixels bm_info] in *. split; [congruence|]. intros x y Hx.
  rewrite (H2 x y Hx), (H x y Hx). unfold stacked. rewrite for_z_last by lia. done.
Qed.

(** A loop of conditional writes keeps the last one. *)
Lemma for_z_last_write {V} n (P : Z -> bool) (g : Z -> V) v f :
  0 <= f < n -> P f = true -> (forall k, f < k < n -> P k = false) ->
  for_z 0 n (fun i v => if P i then g i else v) v = g f.
Proof.
  intros Hf HP Hk. apply (for_z_ind (fun i w => f < i -> w = g f) 0 n); [lia|lia| |lia].
  intros i w Hi Hw Hlt. destruct (decide (i = f)) as [->|Hne]; [by rewrite HP|].
  rewrite Hk by lia. apply Hw. lia.
Qed.

Lemma for_z_no_write {V} n (P : Z -> bool) (g : Z -> V) v :
  (forall k, 0 <= k < n -> P k = false) -> for_z 0 n (fun i v => if P i then g i else v) v = v.
Proof.
  intros HP. destruct (Z_le_gt_dec 0 n); [|by apply for_z_nil; lia].
  apply (for_z_ind (fun _ w => w = v)); [done..|]. intros i w Hi ->. by rewrite HP.
Qed.

Section Stacked.
Context (s : scene) (damage : sx_region) (bm : sx_bitmap).
Context (Hd : region_ok damage) (Hn : 0 <= sn_layer_count s).

(** A layer that does not cover a point does not paint it. *)
Lemma no_cover_no_paint k x y :
  0 <= k < sn_layer_count s -> layer_covers s k x y = false -> layer_paints s damage bm k x y = false.
Proof.
  intros Hk Hc. unfold layer_paints, layer_covers in *. destruct (layer_live s _); [|done]. cbn [andb] in *.
  destruct (visible_facts s damage Hd k Hk) as (_ & Hok & Hin & _ & _).
  destruct (sx_region_contains_point (layer_visible s damage k) x y) eqn:E; [|done].
  apply region_contains_iff in E; [|done]. apply Hin, contains_point_iff in E. congruence.
Qed.

(** On damage, the frontmost layer; elsewhere nothing, if no region of the
    composition overflowed. *)
Lemma stacked_damaged x y v f :
  in_region damage x y -> bitmap_shows bm x y = true -> front_layer s x y = Some f ->
  stacked s damage bm (sn_layer_count s) x y v = default 0 (layer_sample s (layer_at s f) x y).
Proof.
  intros Hdm Hbm Hf. pose proof (front_spec s (sn_layer_count s) x y) as H. unfold front_layer in Hf. rewrite Hf in H.
  destruct H as (H1 & H2 & H3). unfold stacked.
  apply (for_z_last_write _ (fun i => layer_paints s damage bm i x y)
           (fun i => default 0 (layer_sample s (layer_at s i) x y))); [done| |].
  - unfold layer_paints, layer_covers in *. apply andb_true_iff in H2 as [-> Hdst]. rewrite Hbm, andb_true_r. cbn [andb].
    destruct (visible_facts s damage Hd f H1) as (_ & Hok & _ & Hsup & _).
    apply region_contains_iff; [done|]. apply Hsup; [done|by apply contains_point_iff|]. intros j Hj.
    specialize (H3 j Hj). exact H3.
  - intros k Hk. apply no_cover_no_paint; [lia|]. by apply H3.
Qed.

Lemma stacked_uncovered x y v :
  front_layer s x y = None -> stacked s damage bm (sn_layer_count s) x y v = v.
Proof.
  intros Hf. pose proof (front_spec s (sn_layer_count s) x y) as H. unfold front_layer in Hf. rewrite Hf in H.
  apply (for_z_no_write _ (fun i => layer_paints s damage bm i x y)). intros k Hk. apply no_cover_no_paint; auto.
Qed.

Lemma stacked_undamaged x y v :
  (forall i, 0 <= i < sn_layer_count s -> fits s damage i) -> ~ in_region damage x y ->
  stacked s damage bm (sn_layer_count s) x y v = v.
Proof.
  intros Hfit Hdm. apply (for_z_no_write _ (fun i => layer_paints s damage bm i x y)). intros k Hk.
  destruct (visible_facts s damage Hd k Hk) as (_ & Hok & _ & _ & Hsub). unfold layer_paints.
  destruct (sx_region_contains_point (layer_visible s damage k) x y) eqn:E; [|by rewrite andb_false_r].
  apply region_contains_iff in E; [|done]. exfalso. apply Hdm. eapply Hsub; [by apply Hfit|done].
Qed.
End Stacked.

(** ** The whole composition *)

Section Compose.
Context (assets : Z -> cursor_asset).

(** The pixel of a cursor at a point of the screen, where it shows. *)
Definition cursor_pixel (c : scene_cursor) (x y : Z) : option Z :=
  let bounds := cursor_bounds assets c in
  if cu_visible c && sx_rect_contains_point bounds x y
  then Some (source_pixel (cursor_bitmap assets c) (x - rx bounds) (y - ry bounds)) else None.

Definition over (c : option Z) (v : Z) : Z :=
  match c with Some p => sx_blend_bgra8888_over_rgb v p | None => v end.

(** The cursor a composition leaves on the screen. *)
Definition target_cursor (s : scene) : scene_cursor :=
  if sn_software_cursor s then sn_cursor s else hide (sn_cursor s).

Definition display_bitmap (s : scene) : sx_bitmap :=
  sx_bitmap_wrap (sn_display s) (Some (sn_display_info s)) SX_PIXEL_FORMAT_BGRX8888.
Definition display_ok (s : scene) : Prop := bitmap_ok (display_bitmap s).
Definition on_display (s : scene) (x y : Z) : bool := bitmap_shows (display_bitmap s) x y.
Definition screen_pixel (s : scene) (x y : Z) : Z := source_pixel (display_bitmap s) x y.

Lemma compose_cursor_draws s damage p bm :
  fresh p -> painter_ok p bm -> region_ok damage ->
  let bounds := cursor_bounds assets (sn_cursor s) in
  draws p bm (compose_cursor assets s damage p)
    (fun x y => sx_region_contains_point damage x y && sx_rect_contains_point bounds x y && bitmap_shows bm x y)
    (fun x y v => sx_blend_bgra8888_over_rgb v (source_pixel (cursor_bitmap assets (sn_cursor s)) (x - rx bounds) (y - ry bounds))).
Proof.
  intros Hf Hp Hd bounds. unfold compose_cursor, sx_region_copy. fold bounds.
  set (v := sx_region_intersect_rect damage bounds).
  assert (Hv : region_ok v) by apply (apply_rect_promise damage bounds OP_INTERSECT Hd).
  assert (Ev : forall x y, sx_region_contains_point v x y = sx_region_contains_point damage x y && sx_rect_contains_point bounds x y).
  { intros x y. apply eq_true_iff_eq. rewrite andb_true_iff, contains_point_iff, !region_contains_iff by done.
    by apply intersect_exact. }
  destruct (sx_region_is_empty v) eqn:Ee.
  { eapply draws_ext; [|by apply draws_none]. intros x y. by rewrite <- Ev, contains_empty. }
  apply through_region_draws; [done..|]. intros p1 Hp1 Ho Hclip.
  pose proof (blit_draws p1 bm (cursor_bitmap assets (sn_cursor s)) (rx bounds) (ry bounds) Hp1) as H.
  rewrite Ho in H. cbn [pt_x pt_y] in H. rewrite !Z.add_0_r in H.
  eapply draws_ext; [|eapply draws_fun; [|by apply H]]; [|done].
  intros x y. unfold draw_shows. rewrite Hclip, Ev.
  assert (Eb : sx_rect_contains_point (sx_rect_make (rx bounds) (ry bounds)
    (fb_width (bm_info (cursor_bitmap assets (sn_cursor s)))) (fb_height (bm_info (cursor_bitmap assets (sn_cursor s))))) x y
    = sx_rect_contains_point bounds x y) by done.
  rewrite Eb. destruct (sx_rect_contains_point bounds x y); [|by rewrite andb_false_r]. by rewrite andb_true_r.
Qed.

Lemma painter_start_ok s : display_ok s ->
  fresh (sx_painter_init (Some (display_bitmap s))) /\ painter_ok (sx_painter_init (Some (display_bitmap s))) (display_bitmap s).
Proof. intros H. split; [done|]. split; [done|]. split; [done|]. by intros r. Qed.

(** Only the frames of client surfaces change. *)
Definition same_pictures (s s' : scene) : Prop :=
  look s' = look s /\ sn_display s' = sn_display s /\ sn_display_info s' = sn_display_info s /\
  sn_damage s' = sn_damage s /\ sn_software_cursor s' = sn_software_cursor s /\ sn_cursor s' = sn_cursor s /\
  sn_cursor_drawn s' = sn_cursor_drawn s /\ length (sn_surfaces s') = length (sn_surfaces s) /\
  sn_shared s' = sn_shared s /\ sn_scene s' = sn_scene s.

Lemma same_pictures_refl s : same_pictures s s.
Proof. done. Qed.
Lemma same_pictures_trans s1 s2 s3 : same_pictures s1 s2 -> same_pictures s2 s3 -> same_pictures s1 s3.
Proof. unfold same_pictures. intuition congruence. Qed.

Lemma set_surface_pictures id u s : geom u = geom (surface s id) -> same_pictures s (set_surface id u s).
Proof.
  intros H. unfold same_pictures. split_and!; try done; [|apply length_set_at].
  unfold look, set_surface, set_surfaces. cbn [sn_surfaces sn_stage sn_scene sn_layer_count]. do 3 f_equal.
  unfold set_at. case_if; [done|].
  assert (Hins : forall (l : list scene_surface) n, geom u = geom (nth n l surface0) ->
    map geom (<[n:=u]> l) = map geom l).
  { induction l as [|a l IH]; intros [|n] Hn; simpl in *; [done..| |]; [by rewrite Hn|by rewrite IH]. }
  apply Hins. unfold surface, at_ in H. by destruct (id <? 0) eqn:?; [lia|].
Qed.

Lemma signal_wake_pictures id s : same_pictures s (signal_wake id s).
Proof. unfold signal_wake. by case_if. Qed.

Lemma mark_composed_pictures id q s : same_pictures s (mark_composed id q s).
Proof.
  unfold mark_composed. destruct (su_header _); [|done]. case_if; [|done].
  eapply same_pictures_trans; [|apply signal_wake_pictures]. by apply set_surface_pictures.
Qed.

Lemma mark_retired_pictures id q s : same_pictures s (mark_retired id q s).
Proof.
  unfold mark_retired. destruct (su_header _); [|done]. case_if; [|done].
  eapply same_pictures_trans; [|apply signal_wake_pictures]. by apply set_surface_pictures.
Qed.

Lemma set_frames_pictures id s b c p r : same_pictures s (set_surface id (set_frames (surface s id) b c p r) s).
Proof. by apply set_surface_pictures. Qed.

Lemma mark_all_pictures s : same_pictures s (mark_all_composed s).
Proof.
  apply (for_z_ind (fun _ s' => same_pictures s s')); [done..|]. intros id s' _ H.
  eapply same_pictures_trans; [exact H|]. cbv zeta. destruct (_ && _); [|done].
  eapply same_pictures_trans; [apply mark_composed_pictures|apply set_frames_pictures].
Qed.

Lemma retire_pictures s : same_pictures s (scene_retire s).
Proof.
  apply (for_z_ind (fun _ s' => same_pictures s s')); [done..|]. intros id s' _ H.
  eapply same_pictures_trans; [exact H|]. cbv zeta. destruct (_ && _); [|done].
  eapply same_pictures_trans; [apply mark_retired_pictures|apply set_frames_pictures].
Qed.

(** The damage a composition takes. *)
Definition due (s : scene) : sx_region := sx_region_intersect_rect (sn_damage s) (display_rect s).

Lemma due_ok s : region_ok (sn_damage s) -> region_ok (due s).
Proof. intros H. apply (apply_rect_promise _ (display_rect s) OP_INTERSECT H). Qed.

Lemma due_points s x y : region_ok (sn_damage s) ->
  in_region (due s) x y <-> in_region (sn_damage s) x y /\ on_display s x y = true.
Proof.
  intros H. unfold due, on_display, bitmap_shows. by rewrite intersect_exact, contains_point_iff by done.
Qed.

(** What is on the screen at a pixel after the layers and the cursor. *)
Definition composed_pixel (s : scene) (x y v : Z) : Z :=
  let v := stacked s (due s) (display_bitmap s) (sn_layer_count s) x y v in
  if sx_region_contains_point (due s) x y then over (cursor_pixel (target_cursor s) x y) v else v.

Lemma hidden_pixel c x y : cursor_pixel (hide c) x y = None.
Proof. done. Qed.

(** The painter after the layers and the cursor. *)
Definition composed_painter (s : scene) : sx_painter :=
  let p := for_z 0 (sn_layer_count s) (compose_layer s (due s)) (sx_painter_init (Some (display_bitmap s))) in
  if sn_software_cursor s && cu_visible (sn_cursor s) then compose_cursor assets s (due s) p else p.

Lemma display_column s x y : display_ok s -> on_display s x y = true -> 0 <= x < gfx_stride_pixels (sn_display_info s).
Proof.
  intros (px & _ & Hgeo) Hon. unfold on_display, bitmap_shows in Hon. apply contains_point_iff in Hon.
  unfold in_rect, buffer_rect in Hon. cbn [display_bitmap sx_bitmap_wrap bm_info rx ry rw rh] in *. lia.
Qed.

Lemma composed_painter_pixels s :
  display_ok s -> region_ok (sn_damage s) -> drawable s -> 0 <= sn_layer_count s ->
  exists px, composed_painter s = with_pixels (sx_painter_init (Some (display_bitmap s))) (display_bitmap s) px /\
    length px = length (target_pixels (display_bitmap s)) /\
    forall x y, on_display s x y = true ->
      at_ 0 px (y * gfx_stride_pixels (sn_display_info s) + x) = composed_pixel s x y (screen_pixel s x y).
Proof.
  intros Hok Hd Hdr Hn. destruct (painter_start_ok s Hok) as [Hf Hp].
  pose proof (compose_layers_draw s (due s) _ _ Hf Hp (due_ok s Hd) Hdr Hn) as H1.
  unfold composed_painter, composed_pixel, target_cursor. cbv zeta.
  change (gfx_stride_pixels (sn_display_info s)) with (gfx_stride_pixels (bm_info (display_bitmap s))).
  set (p0 := sx_painter_init (Some (display_bitmap s))) in *.
  set (p1 := for_z 0 (sn_layer_count s) (compose_layer s (due s)) p0) in *.
  destruct (draws_ok _ _ _ _ _ Hp H1) as (px & Ep & Hp1). destruct H1 as (px' & E & Hl & H1).
  assert (px' = px) as -> by (rewrite Ep in E; unfold with_pixels in E; congruence).
  destruct (sn_software_cursor s && cu_visible (sn_cursor s)) eqn:Edc.
  - apply andb_true_iff in Edc as [Es Ec]. rewrite Es.
    assert (Hf1 : fresh p1) by (rewrite Ep; exact Hf).
    destruct (compose_cursor_draws s (due s) p1 _ Hf1 Hp1 (due_ok s Hd)) as (px2 & -> & Hl2 & H2).
    cbn [redrawn target_pixels bm_pixels bm_info] in *. exists px2. split; [by rewrite Ep|]. split; [congruence|].
    intros x y Hon. pose proof (display_column s x y Hok Hon) as Hx. rewrite (H2 x y Hx), (H1 x y Hx).
    unfold cursor_pixel. rewrite Ec. cbn [andb].
    assert (Eon : bitmap_shows (redrawn (display_bitmap s) px) x y = true) by exact Hon. rewrite Eon, andb_true_r.
    destruct (sx_region_contains_point (due s) x y); cbn [andb]; [|done].
    by destruct (sx_rect_contains_point (cursor_bounds assets (sn_cursor s)) x y).
  - exists px. split; [exact Ep|]. split; [exact Hl|]. intros x y Hon.
    rewrite (H1 x y (display_column s x y Hok Hon)).
    destruct (sx_region_contains_point _ x y); [|done].
    destruct (sn_software_cursor s); [|done]. unfold cursor_pixel. cbn [andb] in Edc. by rewrite Edc.
Qed.

(** The state a composition leaves. *)
Lemma compose_state s px :
  sn_display s = Some px -> sx_region_is_empty (due s) = false ->
  exists s1, same_pictures s1 (fst (scene_compose assets s)) /\ snd (scene_compose assets s) = due s /\
    look s1 = look s /\ sn_display s1 = painted_display (composed_painter s) /\ sn_display_info s1 = sn_display_info s /\
    sn_damage s1 = sx_region_clear /\ sn_software_cursor s1 = sn_software_cursor s /\ sn_cursor s1 = sn_cursor s /\
    sn_cursor_drawn s1 = (if sn_software_cursor s && cu_visible (sn_cursor s) then sn_cursor s else hide (sn_cursor_drawn s)).
Proof.
  intros Hpx He. unfold scene_compose. fold (due s). cbv zeta. cbn [set_damage sn_display]. rewrite Hpx, He.
  eexists. split; [apply mark_all_pictures|].
  cbn [fst snd set_damage set_cursors set_display sn_display sn_display_info sn_damage sn_software_cursor sn_cursor sn_cursor_drawn look].
  unfold composed_painter, display_bitmap. rewrite Hpx. done.
Qed.

Lemma compose_effect s :
  display_ok s -> region_ok (sn_damage s) -> drawable s -> 0 <= sn_layer_count s ->
  sx_region_is_empty (due s) = false ->
  let s' := fst (scene_compose assets s) in
  snd (scene_compose assets s) = due s /\ look s' = look s /\ sn_damage s' = sx_region_clear /\
  sn_display_info s' = sn_display_info s /\ display_ok s' /\
  sn_software_cursor s' = sn_software_cursor s /\ sn_cursor s' = sn_cursor s /\
  (forall x y, cursor_pixel (sn_cursor_drawn s') x y = cursor_pixel (target_cursor s) x y) /\
  forall x y, on_display s x y = true -> screen_pixel s' x y = composed_pixel s x y (screen_pixel s x y).
Proof.
  intros Hok Hd Hdr Hn He s'. destruct (composed_painter_pixels s Hok Hd Hdr Hn) as (px & Ep & Hl & H2).
  destruct Hok as (px0 & Hpx & Hgeo). unfold display_bitmap, sx_bitmap_wrap in Hpx. cbn [bm_pixels] in Hpx.
  destruct (compose_state s px0 Hpx He) as (s1 & Hs & Hsnd & L1 & L2 & L3 & L4 & L5 & L6 & L7).
  destruct Hs as (E1 & E2 & E3 & E4 & E5 & E6 & E7 & _). fold s' in E1, E2, E3, E4, E5, E6, E7.
  rewrite Ep in L2. cbn [painted_display with_pixels p_target bm_pixels] in L2.
  split; [done|]. split; [congruence|]. split; [congruence|]. split; [congruence|]. split.
  { exists px. unfold display_bitmap, sx_bitmap_wrap. rewrite E2, E3, L2, L3. cbn [bm_pixels bm_info]. split; [done|].
    unfold target_pixels, display_bitmap, sx_bitmap_wrap in Hl. cbn [bm_pixels] in Hl. rewrite Hpx in Hl.
    unfold zlen in *. rewrite Hl. exact Hgeo. }
  split; [congruence|]. split; [congruence|]. split.
  { intros x y. rewrite E7, L7. unfold target_cursor. destruct (sn_software_cursor s); [|done]. simpl.
    destruct (cu_visible (sn_cursor s)) eqn:Ev; [done|]. rewrite hidden_pixel. unfold cursor_pixel. by rewrite Ev. }
  intros x y Hon. rewrite <- (H2 x y Hon). unfold screen_pixel, source_pixel, target_pixels, display_bitmap, sx_bitmap_wrap.
  cbn [bm_pixels bm_info]. by rewrite E2, E3, L2, L3.
Qed.
End Compose.
