(* ===== verification/WmClient.v ===== *)
(** * The client's side of a surface (include/sxn/sxnwm.h)

    A client publishes what it painted as batches in a ring of slots it shares
    with compositord: it fills the slot of the next sequence number and then
    moves the header's submit sequence.  The context's fields that do not
    change after the attach are [wm_client]; the header and the batches are
    the shared ones of Scene.  The result of setting the submit event is an
    argument. *)

From S2P Require Import Prelude Rect Scene.

Definition SAVANXP_EAGAIN : Z := 11.

(** The geometry of [struct sxnwm_client]. *)
Record wm_client := mk_client {
  cl_width : Z; cl_height : Z; cl_batch_capacity : Z; cl_rect_capacity : Z }.

Definition zero_dirty : dirty_rect := mk_dirty 0 0 0 0.

(** [for (index = from; index < to; ...) batch->rects[index] = 0]. *)
Definition clear_rects (from to : Z) (rects : list dirty_rect) : list dirty_rect :=
  for_z from to (fun index rects => set_at rects index zero_dirty) rects.

(** Publishing: the batch with its sequence, then the header. *)
Definition publish (h : client_header) (batches : list dirty_rect_batch) (slot sequence : Z)
    (batch : dirty_rect_batch) (event_result : Z) : client_header * list dirty_rect_batch * Z :=
  (mk_header sequence (hd_retired_sequence h) (hd_composed_sequence h),
   set_at batches slot batch, if negb (event_result =? 0) then event_result else sequence).

Definition ring_full (ctx : wm_client) (h : client_header) : bool :=
  u64 (hd_submit_sequence h - hd_composed_sequence h) >=? cl_batch_capacity ctx.

Definition sxnwm_submit_full (ctx : wm_client) (event_result : Z) (h : client_header)
    (batches : list dirty_rect_batch) : client_header * list dirty_rect_batch * Z :=
  if ring_full ctx h then (h, batches, - SAVANXP_EAGAIN)
  else
    let sequence := u64 (hd_submit_sequence h + 1) in
    let slot := u64 (sequence - 1) mod cl_batch_capacity ctx in
    let rects := set_at (bt_rects (at_ batch0 batches slot)) 0 (mk_dirty 0 0 (cl_width ctx) (cl_height ctx)) in
    let rects := clear_rects 1 (Z.min (cl_rect_capacity ctx) SAVANXP_GPU_CLIENT_BATCH_MAX_RECTS) rects in
    publish h batches slot sequence
      (mk_batch sequence 1 SAVANXP_GPU_SURFACE_PRESENT_BATCH_FLAG_FULL_SURFACE rects) event_result.

(** The clip of one rectangle to the window: [None] is the loop's [continue]. *)
Definition clip_dirty (ctx : wm_client) (r : dirty_rect) : option dirty_rect :=
  if (dr_x r >=? cl_width ctx) || (dr_y r >=? cl_height ctx) || (dr_width r =? 0) || (dr_height r =? 0) then None
  else
    let width := if dr_width r >? cl_width ctx - dr_x r then cl_width ctx - dr_x r else dr_width r in
    let height := if dr_height r >? cl_height ctx - dr_y r then cl_height ctx - dr_y r else dr_height r in
    Some (mk_dirty (dr_x r) (dr_y r) width height).

(** The loop that stores the clipped rectangles. *)
Fixpoint store_rects (ctx : wm_client) (rects : list dirty_rect) (used : Z) (out : list dirty_rect)
  : Z * list dirty_rect :=
  match rects with
  | [] => (used, out)
  | r :: rest =>
      match clip_dirty ctx r with
      | None => store_rects ctx rest used out
      | Some c => store_rects ctx rest (used + 1) (set_at out used c)
      end
  end.

(** [rects] is the array of [count] rectangles. *)
Definition sxnwm_submit_rects (ctx : wm_client) (rects : list dirty_rect) (event_result : Z) (h : client_header)
    (batches : list dirty_rect_batch) : client_header * list dirty_rect_batch * Z :=
  let capacity := if cl_rect_capacity ctx <? SAVANXP_GPU_CLIENT_BATCH_MAX_RECTS
                  then cl_rect_capacity ctx else SAVANXP_GPU_CLIENT_BATCH_MAX_RECTS in
  if zlen rects >? capacity then sxnwm_submit_full ctx event_result h batches
  else if ring_full ctx h then (h, batches, - SAVANXP_EAGAIN)
  else
    let sequence := u64 (hd_submit_sequence h + 1) in
    let slot := u64 (sequence - 1) mod cl_batch_capacity ctx in
    let old := at_ batch0 batches slot in
    let '(used, out) := store_rects ctx rects 0 (bt_rects old) in
    if used =? 0
    then (h, set_at batches slot (mk_batch (bt_submit_sequence old) (bt_rect_count old) (bt_flags old) out), 0)
    else
      publish h batches slot sequence (mk_batch sequence used 0 (clear_rects used capacity out)) event_result.

Definition sxnwm_idle (h : client_header) : bool := hd_composed_sequence h >=? hd_submit_sequence h.
