(* ===== verification/SceneFrames.v ===== *)
(** * Frames: the protocol between clients and compositord

    A client's frame is published, consumed, composed and retired, each step
    moving one sequence number.  Here: what damage the consumption adds, that a
    client that publishes through sxnwm.h is never taken for a broken one, and
    that every frame it publishes is acknowledged. *)

From S2P Require Import Prelude Rect Region RegionFacts RegionLaws RegionClip Painter PainterFacts PainterLaws Scene SceneFacts WmClient.

(** ** Damage *)

(** [s'] is [s] with at least the points [P] of the display added to its damage. *)
Definition damaged (s s' : scene) (P : Z -> Z -> Prop) : Prop :=
  s' = set_damage (sn_damage s') s /\
  (region_ok (sn_damage s) -> region_ok (sn_damage s') /\
   forall x y, in_region (sn_damage s) x y \/ (P x y /\ on_display s x y = true) -> in_region (sn_damage s') x y).

Lemma damaged_none s : damaged s s (fun _ _ => False).
Proof. split; [by destruct s|]. intros H. split; [done|]. tauto. Qed.

Lemma damaged_seq s s1 s2 P Q :
  damaged s s1 P -> damaged s1 s2 Q -> damaged s s2 (fun x y => P x y \/ Q x y).
Proof.
  intros [E1 H1] [E2 H2]. split; [rewrite E2, E1; done|]. intros Hok.
  destruct (H1 Hok) as [K1 P1]. destruct (H2 K1) as [K2 P2]. split; [done|]. intros x y H. apply P2.
  assert (Eon : on_display s1 x y = on_display s x y) by (by rewrite E1). rewrite Eon.
  destruct H as [H|[[H|H] Hon]]; [left; apply P1; tauto|left; apply P1; tauto|tauto].
Qed.

Lemma damaged_weaken s s' (P Q : Z -> Z -> Prop) :
  damaged s s' P -> (forall x y, Q x y -> P x y) -> damaged s s' Q.
Proof. intros [E H] Hq. split; [done|]. intros Hok. destruct (H Hok) as [K1 K2]. split; [done|]. intros x y [?|[? ?]]; apply K2; auto. Qed.

Lemma damage_rect_damaged r s : damaged s (damage_rect r s) (in_rect r).
Proof.
  unfold damage_rect.
  assert (Hon : forall x y, on_display s x y = true <-> in_rect (display_rect s) x y).
  { intros x y. unfold on_display, bitmap_shows. apply contains_point_iff. }
  destruct (sx_rect_is_empty (sx_rect_intersect r (display_rect s))) eqn:E; cbn [negb].
  - split; [by destruct s|]. intros H. split; [done|]. intros x y [K|[K1 K2]]; [done|].
    apply Hon in K2. exfalso. apply (in_rect_empty _ x y E). by apply in_rect_intersect.
  - split; [by destruct s|]. intros H. cbn [set_damage sn_damage].
    destruct (apply_rect_promise (sn_damage s) (sx_rect_intersect r (display_rect s)) OP_UNION H) as (P1 & P2 & _).
    split; [exact P1|]. intros x y K. apply P2. destruct K as [K|[K1 K2]]; [by left|right].
    apply in_rect_intersect. by rewrite <- Hon.
Qed.

(** The part of the screen a rectangle of a surface reaches through a layer. *)
Definition layer_patch (layer : compositor_layer) (local : sx_rect) (whole : bool) : sx_rect :=
  if whole || layer_scaled layer then ly_dst layer
  else sx_rect_intersect
         (sx_rect_make (rx (ly_dst layer) - rx (ly_src layer) + rx local)
                       (ry (ly_dst layer) - ry (ly_src layer) + ry local) (rw local) (rh local))
         (ly_dst layer).

Definition shows_surface (s : scene) (id index : Z) : Prop :=
  0 <= index < sn_layer_count s /\ ly_surface_id (layer_at s index) = id.

Definition surface_patch (s : scene) (id : Z) (local : sx_rect) (whole : bool) (x y : Z) : Prop :=
  exists index, shows_surface s id index /\ in_rect (layer_patch (layer_at s index) local whole) x y.

Lemma damage_surface_spec id local whole s s' shown :
  damage_surface_rect id local whole s = (s', shown) ->
  damaged s s' (surface_patch s id local whole) /\ (shown = true <-> exists index, shows_surface s id index).
Proof.
  unfold damage_surface_rect. destruct (Z_le_gt_dec 0 (sn_layer_count s)) as [Hn|Hn].
  2:{ rewrite for_z_nil by lia. intros [= <- <-].
      split; [eapply damaged_weaken; [apply damaged_none|]|]; [intros x y (i & [? _] & _); lia|].
      split; [done|]. intros (i & ? & _). lia. }
  match goal with |- for_z 0 _ ?f _ = _ -> _ => set (body := f) end. intros H.
  pose proof (for_z_ind (fun i (st : scene * bool) =>
    damaged s (fst st) (fun x y => exists index, index < i /\ shows_surface s id index /\ in_rect (layer_patch (layer_at s index) local whole) x y)
    /\ (snd st = true <-> exists index, index < i /\ shows_surface s id index)) 0 (sn_layer_count s) body (s, false) Hn) as Hind.
  rewrite H in Hind. destruct Hind as [H1 H2].
  - split; [eapply damaged_weaken; [apply damaged_none|]|]; [intros x y (i & ? & [? _] & _); lia|].
    split; [done|]. intros (i & ? & ? & _). lia.
  - intros i [s1 sh] Hi [I1 I2]. cbn [fst snd] in *. unfold body.
    assert (El : layer_at s1 i = layer_at s i) by (destruct I1 as [-> _]; done). rewrite El. rewrite rect_from_id.
    destruct (ly_surface_id (layer_at s i) =? id) eqn:Eid; cbn [negb].
    2:{ cbn [fst snd]. split.
        - eapply damaged_weaken; [exact I1|]. intros x y (k & Hk & Hs & Hp). exists k. split_and!; try done.
          destruct (decide (k = i)) as [->|]; [destruct Hs; lia|lia].
        - rewrite I2. split; intros (k & Hk & Hs); exists k; (split; [|done]); [lia|].
          destruct (decide (k = i)) as [->|]; [destruct Hs; lia|lia]. }
    assert (Hshow : shows_surface s id i) by (split; lia).
    assert (Hcase : forall r, r = layer_patch (layer_at s i) local whole ->
      damaged s (damage_rect r s1) (fun x y => exists index, index < i + 1 /\ shows_surface s id index /\
         in_rect (layer_patch (layer_at s index) local whole) x y)).
    { intros r ->. eapply damaged_weaken; [eapply damaged_seq; [exact I1|apply damage_rect_damaged]|].
      intros x y (k & Hk & Hs & Hp). destruct (decide (k = i)) as [->|]; [by right|]. left. exists k. split; [lia|done]. }
    unfold layer_patch in Hcase. destruct (whole || layer_scaled (layer_at s i)); cbn [fst snd];
      (split; [by apply Hcase|split; [intros _; exists i; split; [lia|done]|done]]).
  - split; [eapply damaged_weaken; [exact H1|]|].
    + intros x y (i & Hs & Hp). exists i. split; [destruct Hs; lia|done].
    + cbn [snd] in H2. rewrite H2. split; [intros (i & _ & Hs); by exists i|]. intros (i & Hs). exists i. split; [destruct Hs; lia|done].
Qed.

(** ** Surfaces of the array *)

Definition in_array (s : scene) (id : Z) : Prop := 0 <= id < zlen (sn_surfaces s).

Lemma surface_set s id u id' : in_array s id ->
  surface (set_surface id u s) id' = if id =? id' then u else surface s id'.
Proof. intros H. unfold surface, set_surface, set_surfaces. cbn [sn_surfaces]. by apply at_set_at. Qed.

Lemma surface_set_eq s id u : in_array s id -> surface (set_surface id u s) id = u.
Proof. intros H. rewrite surface_set by done. by rewrite Z.eqb_refl. Qed.

Lemma set_surface_twice s id u v : set_surface id v (set_surface id u s) = set_surface id v s.
Proof.
  unfold set_surface, set_surfaces. cbn [sn_surfaces]. f_equal. unfold set_at. case_if; [done|].
  apply list_insert_insert_eq.
Qed.

Lemma set_at_same {A} (d : A) l i : set_at l i (at_ d l i) = l.
Proof.
  unfold set_at, at_. destruct (i <? 0) eqn:?; [done|]. destruct (decide (Z.to_nat i < length l)%nat).
  - apply list_insert_id. rewrite nth_lookup. by destruct (lookup_lt_is_Some_2 l (Z.to_nat i)) as [a ->].
  - by apply list_insert_ge; lia.
Qed.

Lemma set_surface_same s id : set_surface id (surface s id) s = s.
Proof. unfold set_surface, set_surfaces, surface. rewrite set_at_same. by destruct s. Qed.

Lemma set_frames_same u : set_frames u (su_broken u) (su_consumed u) (su_compose_pending u) (su_retire_pending u) = u.
Proof. by destruct u. Qed.

(** ** Consuming a good client's batches *)

Definition dirty_sx (r : dirty_rect) : sx_rect := sx_rect_make (dr_x r) (dr_y r) (dr_width r) (dr_height r).

Definition is_full (b : dirty_rect_batch) : bool :=
  has_flag (bt_flags b) SAVANXP_GPU_SURFACE_PRESENT_BATCH_FLAG_FULL_SURFACE.
Definition batch_list (b : dirty_rect_batch) : list dirty_rect := take (Z.to_nat (bt_rect_count b)) (bt_rects b).

(** The screen points a batch reaches. *)
Definition batch_patch (s : scene) (id : Z) (b : dirty_rect_batch) (x y : Z) : Prop :=
  if is_full b then surface_patch s id (sx_rect_make 0 0 0 0) true x y
  else exists r, r ∈ batch_list b /\ surface_patch s id (dirty_sx r) false x y.

Lemma batch_patch_same s s' id b x y :
  sn_scene s' = sn_scene s -> sn_layer_count s' = sn_layer_count s ->
  batch_patch s' id b x y <-> batch_patch s id b x y.
Proof. intros E1 E2. unfold batch_patch, surface_patch, shows_surface, layer_at. by rewrite E1, E2. Qed.

(** The slot a sequence number uses, and a batch that checks out in it. *)
Definition slot (u : scene_surface) (k : Z) : dirty_rect_batch :=
  at_ batch0 (su_batches u) (u64 (k - 1) mod SAVANXP_GPU_CLIENT_BATCH_CAPACITY).
Definition batch_good (u : scene_surface) (k : Z) (b : dirty_rect_batch) : Prop :=
  bt_submit_sequence b = k /\ bt_rect_count b <= SAVANXP_GPU_CLIENT_BATCH_MAX_RECTS /\
  (is_full b = true \/ Forall (fun r => dirty_rect_bad u r = false) (batch_list b)).

Lemma damaged_surface s s' P id : damaged s s' P -> surface s' id = surface s id.
Proof. by intros [-> _]. Qed.

Lemma damaged_shows s s' P id i : damaged s s' P -> shows_surface s' id i <-> shows_surface s id i.
Proof. intros [E _]. unfold shows_surface, layer_at. by rewrite E. Qed.

Lemma consume_rects_good id rects : forall shown s,
  Forall (fun r => dirty_rect_bad (surface s id) r = false) rects ->
  exists s' shown', consume_rects id rects shown s = (s', Some shown') /\
    damaged s s' (fun x y => exists r, r ∈ rects /\ surface_patch s id (dirty_sx r) false x y) /\
    (shown' = true -> shown = true \/ exists index, shows_surface s id index).
Proof.
  induction rects as [|r rest IH]; intros shown s HF; cbn [consume_rects].
  - exists s, shown. split; [done|]. split; [|by left].
    eapply damaged_weaken; [apply damaged_none|]. intros x y (r & Hr & _). by apply not_elem_of_nil in Hr.
  - apply Forall_cons in HF as [Hr HF]. rewrite Hr. fold (dirty_sx r).
    destruct (damage_surface_rect id (dirty_sx r) false s) as [s1 on] eqn:E.
    destruct (damage_surface_spec _ _ _ _ _ _ E) as [D1 Hon].
    destruct (IH (shown || on) s1) as (s' & shown' & E' & D2 & Hsh).
    { by rewrite (damaged_surface _ _ _ id D1). }
    exists s', shown'. split; [done|]. split.
    2:{ intros K. destruct (Hsh K) as [K'|(i & K')]; [|right; exists i; by apply (damaged_shows _ _ _ _ _ D1)].
        apply orb_true_iff in K' as [K'|K']; [by left|right; by apply Hon]. }
    eapply damaged_weaken; [eapply damaged_seq; [exact D1|exact D2]|].
    intros x y (q & Hq & Hp). apply elem_of_cons in Hq as [->|Hq]; [by left|]. right. exists q. split; [done|].
    destruct D1 as [-> _]. exact Hp.
Qed.

(** [s'] is [s] with the batches of [id] consumed up to [n] and [P] damaged. *)
Definition consumed_to (s s' : scene) (id n : Z) (P : Z -> Z -> Prop) : Prop :=
  exists s1, damaged s s1 P /\
    s' = set_surface id (set_frames (surface s id) (su_broken (surface s id)) n
           (su_compose_pending (surface s id)) (su_retire_pending (surface s id))) s1.

Lemma consume_batch_good id b shown s k :
  batch_good (surface s id) k b ->
  exists s' shown',
    (if is_full b then
       let '(s, on) := damage_surface_rect id (sx_rect_make 0 0 0 0) true s in (s, Some (shown || on))
     else consume_rects id (batch_list b) shown s) = (s', Some shown') /\
    damaged s s' (batch_patch s id b) /\ (shown' = true -> shown = true \/ exists index, shows_surface s id index).
Proof.
  intros (_ & _ & Hr). unfold batch_patch. destruct (is_full b) eqn:Ef.
  - destruct (damage_surface_rect id _ true s) as [s' on] eqn:E.
    exists s', (shown || on). split; [done|]. apply damage_surface_spec in E as [D Hon]. split; [done|].
    intros K. apply orb_true_iff in K as [K|K]; [by left|right; by apply Hon].
  - destruct Hr as [Hr|Hr]; [done|]. by apply consume_rects_good.
Qed.

Lemma consume_loop_good id submitted fuel : forall next shown any s,
  in_array s id -> 0 < next -> next <= submitted + 1 -> submitted < 2 ^ 63 ->
  su_consumed (surface s id) = next - 1 ->
  (forall k, next <= k <= submitted -> batch_good (surface s id) k (slot (surface s id) k)) ->
  (Z.to_nat (submitted + 1 - next) < fuel)%nat ->
  exists s' shown', consume_loop fuel id next submitted shown any s = (s', Some (shown', any || (next <=? submitted))) /\
    consumed_to s s' id submitted (fun x y => exists k, next <= k <= submitted /\ batch_patch s id (slot (surface s id) k) x y) /\
    (shown' = true -> shown = true \/ exists index, shows_surface s id index).
Proof.
  induction fuel as [|fuel IH]; intros next shown any s Hid Hpos Hle Hmax Hc Hb Hf; [lia|]. cbn [consume_loop].
  destruct (next <=? submitted) eqn:En; cbn [negb].
  2:{ exists s, shown. rewrite orb_false_r. split; [done|]. split; [|by left]. exists s. split.
      - eapply damaged_weaken; [apply damaged_none|]. intros x y (k & ? & _). lia.
      - replace submitted with (su_consumed (surface s id)) by lia. by rewrite set_frames_same, set_surface_same. }
  pose proof (Hb next ltac:(lia)) as Hg. pose proof Hg as (G1 & G2 & _). fold (slot (surface s id) next).
  fold (is_full (slot (surface s id) next)). fold (batch_list (slot (surface s id) next)).
  rewrite G1, Z.eqb_refl. destruct (bt_rect_count _ >? _) eqn:?; [lia|]. cbn [negb orb].
  destruct (consume_batch_good id _ shown s next Hg) as (s1 & shown1 & -> & D1 & Hsh1).
  rewrite u64_id by lia. set (s2 := set_surface id _ s1).
  assert (Hid1 : in_array s1 id) by (destruct D1 as [-> _]; exact Hid).
  assert (E2 : surface s2 id = set_frames (surface s id) (su_broken (surface s id)) next
                 (su_compose_pending (surface s id)) (su_retire_pending (surface s id))).
  { unfold s2. rewrite surface_set_eq by done. by rewrite (damaged_surface _ _ _ id D1). }
  destruct (IH (next + 1) shown1 true s2) as (s' & shown' & E & (s3 & D3 & E3) & Hsh); try lia.
  - unfold in_array, s2, set_surface, set_surfaces. cbn [sn_surfaces]. rewrite zlen_set_at. exact Hid1.
  - rewrite E2. cbn [set_frames su_consumed]. lia.
  - intros k Hk. rewrite E2. apply (Hb k). lia.
  - exists s', shown'. split; [rewrite E; by rewrite orb_true_r|]. split.
    2:{ intros K. destruct (Hsh K) as [K'|(i & K')]; [by apply Hsh1|]. right. exists i.
        by apply (damaged_shows _ _ _ _ _ D1). }
    exists (set_damage (sn_damage s3) s1). split.
    + eapply damaged_weaken; [eapply (damaged_seq s s1 _ _ (fun x y => exists k, next + 1 <= k <= submitted /\
        batch_patch s id (slot (surface s id) k) x y)); [exact D1|]|].
      * destruct D3 as [_ D3]. split; [done|]. intros Hok. destruct (D3 Hok) as [K1 K2]. split; [done|].
        intros x y H. apply K2. destruct H as [H|[(k & Hk & H) Hon]]; [by left|]. right. split; [|exact Hon].
        exists k. split; [done|]. rewrite E2.
        apply (batch_patch_same s); [by unfold s2; destruct D1 as [-> _]..|exact H].
      * intros x y (k & Hk & H). destruct (decide (k = next)) as [->|]; [by left|right]. exists k. split; [lia|done].
    + rewrite E3, E2. destruct D3 as [-> _]. unfold s2. 
      match goal with |- set_surface id ?v (set_damage ?d (set_surface id ?u s1)) = _ =>
        change (set_damage d (set_surface id u s1)) with (set_surface id u (set_damage d s1)) end.
      by rewrite set_surface_twice.
Qed.

(** ** Acknowledging frames *)

Definition composed_to (q : Z) (u : scene_surface) : scene_surface :=
  match su_header u with
  | Some h =>
      if negb (q =? 0) && (hd_composed_sequence h <? q)
      then set_header u (Some (mk_header (hd_submit_sequence h) (hd_retired_sequence h) q)) else u
  | None => u
  end.
Definition retired_to (q : Z) (u : scene_surface) : scene_surface :=
  match su_header u with
  | Some h =>
      if negb (q =? 0) && (hd_retired_sequence h <? q)
      then set_header u (Some (mk_header (hd_submit_sequence h) q (hd_composed_sequence h))) else u
  | None => u
  end.

Lemma signal_wake_surface id s id' : surface (signal_wake id s) id' = surface s id'.
Proof. unfold signal_wake. by case_if. Qed.
Lemma signal_wake_array id s id' : in_array (signal_wake id s) id' <-> in_array s id'.
Proof. unfold signal_wake. by case_if. Qed.

Lemma set_surface_array id u s id' : in_array (set_surface id u s) id' <-> in_array s id'.
Proof. unfold in_array, set_surface, set_surfaces. cbn [sn_surfaces]. by rewrite zlen_set_at. Qed.

Lemma mark_composed_surface id q s id' : in_array s id ->
  surface (mark_composed id q s) id' = if id =? id' then composed_to q (surface s id) else surface s id'.
Proof.
  intros H. unfold mark_composed, composed_to. destruct (su_header (surface s id)) as [h|] eqn:E.
  2:{ destruct (id =? id') eqn:?; [|done]. by replace id' with id by lia. }
  destruct (negb (q =? 0) && (hd_composed_sequence h <? q)) eqn:?.
  - by rewrite signal_wake_surface, surface_set.
  - destruct (id =? id') eqn:?; [|done]. by replace id' with id by lia.
Qed.

Lemma mark_retired_surface id q s id' : in_array s id ->
  surface (mark_retired id q s) id' = if id =? id' then retired_to q (surface s id) else surface s id'.
Proof.
  intros H. unfold mark_retired, retired_to. destruct (su_header (surface s id)) as [h|] eqn:E.
  2:{ destruct (id =? id') eqn:?; [|done]. by replace id' with id by lia. }
  destruct (negb (q =? 0) && (hd_retired_sequence h <? q)) eqn:?.
  - by rewrite signal_wake_surface, surface_set.
  - destruct (id =? id') eqn:?; [|done]. by replace id' with id by lia.
Qed.

Lemma pictures_array s s' id : same_pictures s s' -> in_array s' id <-> in_array s id.
Proof. intros (_ & _ & _ & _ & _ & _ & _ & H & _). unfold in_array, zlen. by rewrite H. Qed.

(** A loop that treats each surface of a range on its own. *)
Lemma for_surfaces (f : Z -> scene -> scene) (g : scene_surface -> scene_surface) lo hi s id' :
  (forall id s, same_pictures s (f id s)) ->
  (forall id s, in_array s id -> surface (f id s) id' = if id =? id' then g (surface s id) else surface s id') ->
  0 <= lo <= hi -> hi <= zlen (sn_surfaces s) ->
  surface (for_z lo hi f s) id' = if (lo <=? id') && (id' <? hi) then g (surface s id') else surface s id'.
Proof.
  intros Hp Hf Hlo Hhi.
  apply (for_z_ind (fun i s' => same_pictures s s' /\
    surface s' id' = if (lo <=? id') && (id' <? i) then g (surface s id') else surface s id') lo hi f s);
    [lia|split; [done|case_if; [lia|done]]|].
  intros i s' Hi [H1 H2]. split; [eapply same_pictures_trans; [exact H1|apply Hp]|].
  assert (Ha : in_array s' i) by (apply (pictures_array s s' i H1); unfold in_array; lia).
  rewrite (Hf i s' Ha). destruct (i =? id') eqn:E.
  - replace id' with i in * by lia. rewrite H2. repeat case_if; try done; lia.
  - rewrite H2. repeat case_if; try done; lia.
Qed.

(** What a composition and a retirement do to one surface. *)
Definition compose_surface (u : scene_surface) : scene_surface :=
  if su_in_use u && negb (su_compose_pending u =? 0) then
    let v := composed_to (su_compose_pending u) u in
    set_frames v (su_broken v) (su_consumed v) 0
      (if su_retire_pending v <? su_compose_pending u then su_compose_pending u else su_retire_pending v)
  else u.
Definition retire_surface (u : scene_surface) : scene_surface :=
  if su_in_use u && negb (su_retire_pending u =? 0) then
    let v := retired_to (su_retire_pending u) u in
    set_frames v (su_broken v) (su_consumed v) (su_compose_pending v) 0
  else u.

Definition all_surfaces (s : scene) : Prop := zlen (sn_surfaces s) = SAVANXP_COMPOSITOR_MAX_SURFACES.
Definition client_id (id : Z) : bool := (SAVANXP_COMPOSITOR_SURFACE_WM + 1 <=? id) && (id <? SAVANXP_COMPOSITOR_MAX_SURFACES).

Lemma mark_all_surface s id : all_surfaces s ->
  surface (mark_all_composed s) id = if client_id id then compose_surface (surface s id) else surface s id.
Proof.
  intros Hall. unfold all_surfaces, SAVANXP_COMPOSITOR_MAX_SURFACES in Hall. apply for_surfaces.
  - intros i s'. cbv zeta. destruct (_ && _); [|done].
    eapply same_pictures_trans; [apply mark_composed_pictures|apply set_frames_pictures].
  - intros i s' Ha. unfold compose_surface. destruct (su_in_use (surface s' i) && _).
    + rewrite surface_set by (by apply (pictures_array s'); [apply mark_composed_pictures|]).
      rewrite !mark_composed_surface by done. rewrite Z.eqb_refl. by destruct (i =? id).
    + destruct (i =? id) eqn:?; [|done]. by replace id with i by lia.
  - done.
  - unfold SAVANXP_COMPOSITOR_MAX_SURFACES. lia.
Qed.

Lemma retire_surface_spec s id : all_surfaces s ->
  surface (scene_retire s) id = if client_id id then retire_surface (surface s id) else surface s id.
Proof.
  intros Hall. unfold all_surfaces, SAVANXP_COMPOSITOR_MAX_SURFACES in Hall. apply for_surfaces.
  - intros i s'. cbv zeta. destruct (_ && _); [|done].
    eapply same_pictures_trans; [apply mark_retired_pictures|apply set_frames_pictures].
  - intros i s' Ha. unfold retire_surface. destruct (su_in_use (surface s' i) && _).
    + rewrite surface_set by (by apply (pictures_array s'); [apply mark_retired_pictures|]).
      rewrite !mark_retired_surface by done. rewrite Z.eqb_refl. by destruct (i =? id).
    + destruct (i =? id) eqn:?; [|done]. by replace id with i by lia.
  - done.
  - unfold SAVANXP_COMPOSITOR_MAX_SURFACES. lia.
Qed.

(** ** The invariant of a good client's surface *)

(** The ring as the section lays it out: eight slots of thirty-two rectangles. *)
Definition ring_shape (batches : list dirty_rect_batch) : Prop :=
  length batches = 8%nat /\ Forall (fun b => length (bt_rects b) = 32%nat) batches.

Definition ring_ok (u : scene_surface) (h : client_header) : Prop :=
  ring_shape (su_batches u) /\ hd_submit_sequence h < 2 ^ 63 /\
  hd_submit_sequence h - hd_composed_sequence h <= SAVANXP_GPU_CLIENT_BATCH_CAPACITY /\
  forall k, su_consumed u < k <= hd_submit_sequence h -> batch_good u k (slot u k).

(** Sequence numbers in order, and every consumed frame on its way. *)
Definition sequences_ok (u : scene_surface) (h : client_header) : Prop :=
  0 <= hd_retired_sequence h <= hd_composed_sequence h /\
  hd_composed_sequence h <= su_consumed u <= hd_submit_sequence h /\
  0 <= su_compose_pending u <= su_consumed u /\ 0 <= su_retire_pending u <= hd_composed_sequence h /\
  (hd_composed_sequence h = su_consumed u \/ su_compose_pending u = su_consumed u) /\
  (hd_retired_sequence h = hd_composed_sequence h \/ su_retire_pending u = hd_composed_sequence h).

Definition frames_ok (u : scene_surface) : Prop :=
  su_in_use u = true /\ su_broken u = false /\ has_flag (su_flags u) SAVANXP_COMPOSITOR_SURFACE_CLIENT = true /\
  exists h, su_header u = Some h /\ sequences_ok u h /\ ring_ok u h.

Definition submitted (u : scene_surface) : Z :=
  match su_header u with Some h => hd_submit_sequence h | None => 0 end.
Definition acknowledged (u : scene_surface) (k : Z) : Prop :=
  exists h, su_header u = Some h /\ k <= hd_composed_sequence h /\ k <= hd_retired_sequence h.

Lemma compose_surface_ok u : frames_ok u ->
  frames_ok (compose_surface u) /\ submitted (compose_surface u) = submitted u /\
  su_consumed (compose_surface u) = su_consumed u /\
  exists h, su_header (compose_surface u) = Some h /\ hd_composed_sequence h = su_consumed u.
Proof.
  intros (Hu & Hb & Hfl & h & Hh & (Q1 & Q2 & Q3 & Q4 & Q5 & Q6) & R1 & R2 & R3 & R4).
  unfold compose_surface, composed_to, submitted. rewrite Hu, Hh. cbn [andb].
  destruct (su_compose_pending u =? 0) eqn:Ep; cbn [negb].
  { rewrite Hh. split; [|split; [done|split; [done|exists h; split; [done|lia]]]].
    split; [done|]. split; [done|]. split; [done|]. exists h. split; [done|]. done. }
  destruct (hd_composed_sequence h <? su_compose_pending u) eqn:Ec; cbn [andb set_header set_frames su_header su_consumed su_retire_pending].
  - split; [|split; [done|split; [done|eexists; split; [done|simpl; lia]]]].
    split; [done|]. split; [done|]. split; [done|]. eexists. split; [done|].
    split; [|split; [done|split; [done|split; [simpl; lia|exact R4]]]].
    unfold sequences_ok. cbn [set_header set_frames su_consumed su_compose_pending su_retire_pending hd_composed_sequence hd_retired_sequence hd_submit_sequence].
    destruct (su_retire_pending u <? su_compose_pending u) eqn:?; lia.
  - rewrite Hh. split; [|split; [done|split; [done|exists h; split; [done|lia]]]].
    split; [done|]. split; [done|]. split; [done|]. exists h. split; [done|]. split; [|done].
    unfold sequences_ok. cbn [set_header set_frames su_consumed su_compose_pending su_retire_pending].
    destruct (su_retire_pending u <? su_compose_pending u) eqn:?; lia.
Qed.

Lemma retire_surface_ok u : frames_ok u ->
  frames_ok (retire_surface u) /\ submitted (retire_surface u) = submitted u /\
  su_consumed (retire_surface u) = su_consumed u /\
  exists h h', su_header u = Some h /\ su_header (retire_surface u) = Some h' /\
    hd_composed_sequence h' = hd_composed_sequence h /\ hd_retired_sequence h' = hd_composed_sequence h.
Proof.
  intros (Hu & Hb & Hfl & h & Hh & (Q1 & Q2 & Q3 & Q4 & Q5 & Q6) & R1 & R2 & R3 & R4).
  unfold retire_surface, retired_to, submitted. rewrite Hu, Hh. cbn [andb].
  destruct (su_retire_pending u =? 0) eqn:Ep; cbn [negb].
  { rewrite Hh. split; [|split; [done|split; [done|exists h, h; split_and!; [done..|lia]]]].
    split; [done|]. split; [done|]. split; [done|]. exists h. done. }
  destruct (hd_retired_sequence h <? su_retire_pending u) eqn:Ec; cbn [andb set_header set_frames su_header su_consumed].
  - split; [|split; [done|split; [done|exists h; eexists; split_and!; [done..|simpl; lia]]]].
    split; [done|]. split; [done|]. split; [done|]. eexists. split; [done|].
    split; [|split; [done|split; [done|split; [simpl; lia|exact R4]]]].
    unfold sequences_ok. cbn [set_header set_frames su_consumed su_compose_pending su_retire_pending hd_composed_sequence hd_retired_sequence hd_submit_sequence]. lia.
  - rewrite Hh. split; [|split; [done|split; [done|exists h, h; split_and!; [done..|lia]]]].
    split; [done|]. split; [done|]. split; [done|]. exists h. split; [done|]. split; [|done].
    unfold sequences_ok. cbn [set_header set_frames su_consumed su_compose_pending su_retire_pending]. lia.
Qed.

(** The screen points the published batches of a surface have still to reach. *)
Definition pending_patch (s : scene) (id x y : Z) : Prop :=
  exists k, su_consumed (surface s id) < k <= submitted (surface s id) /\ batch_patch s id (slot (surface s id) k) x y.

(** [s'] is [s] after surface [id] gave up its frames. *)
Definition caught_up (s s' : scene) (id : Z) : Prop :=
  (exists s1, damaged s s1 (pending_patch s id) /\ same_pictures s1 s') /\
  sn_broken s' = sn_broken s /\ (forall id', id' <> id -> surface s' id' = surface s id') /\
  frames_ok (surface s' id) /\ submitted (surface s' id) = submitted (surface s id) /\
  su_consumed (surface s' id) = submitted (surface s id) /\
  ((forall index, ~ shows_surface s id index) -> su_consumed (surface s id) < submitted (surface s id) ->
   acknowledged (surface s' id) (submitted (surface s id))).

Lemma mark_composed_broken id q s : sn_broken (mark_composed id q s) = sn_broken s.
Proof. unfold mark_composed, signal_wake. destruct (su_header _); [|done]. by repeat case_if. Qed.
Lemma mark_retired_broken id q s : sn_broken (mark_retired id q s) = sn_broken s.
Proof. unfold mark_retired, signal_wake. destruct (su_header _); [|done]. by repeat case_if. Qed.

(** The two ways a consumed frame goes on: it waits for a composition, or, shown
    by no layer, it is acknowledged at once. *)
Lemma frames_waiting u h : frames_ok u -> su_header u = Some h ->
  let sq := hd_submit_sequence h in
  frames_ok (set_frames u (su_broken u) sq sq (su_retire_pending u)).
Proof.
  intros (Hu & Hb & Hfl & h' & Hh' & (Q1 & Q2 & Q3 & Q4 & Q5 & Q6) & R1 & R2 & R3 & R4) Hh. rewrite Hh in Hh'. simplify_eq.
  split; [done|]. split; [done|]. split; [done|]. exists h'. split; [done|]. split.
  - unfold sequences_ok. cbn [set_frames su_consumed su_compose_pending su_retire_pending]. lia.
  - split; [done|]. split; [done|]. split; [done|]. cbn [set_frames su_consumed]. intros k Hk. lia.
Qed.

Lemma frames_acked u h : frames_ok u -> su_header u = Some h -> su_consumed u < hd_submit_sequence h ->
  let sq := hd_submit_sequence h in
  let w := retired_to sq (composed_to sq (set_frames u (su_broken u) sq (su_compose_pending u) (su_retire_pending u))) in
  frames_ok w /\ submitted w = sq /\ su_consumed w = sq /\ acknowledged w sq.
Proof.
  intros (Hu & Hb & Hfl & h' & Hh' & (Q1 & Q2 & Q3 & Q4 & Q5 & Q6) & R1 & R2 & R3 & R4) Hh Hlt. rewrite Hh in Hh'. simplify_eq.
  intros sq w.
  assert (Ew : w = set_header (set_frames u (su_broken u) sq (su_compose_pending u) (su_retire_pending u))
                     (Some (mk_header sq sq sq))).
  { unfold w, composed_to. cbn [set_frames su_header]. rewrite Hh. unfold sq.
    destruct (negb (hd_submit_sequence h' =? 0) && (hd_composed_sequence h' <? hd_submit_sequence h')) eqn:?; [|lia].
    unfold retired_to. cbn [set_header su_header hd_retired_sequence hd_submit_sequence hd_composed_sequence].
    destruct (negb (hd_submit_sequence h' =? 0) && (hd_retired_sequence h' <? hd_submit_sequence h')) eqn:?; [done|lia]. }
  rewrite Ew. split; [|split; [done|split; [done|]]].
  - split; [done|]. split; [done|]. split; [done|]. eexists. split; [done|]. split.
    + unfold sequences_ok. cbn [set_header set_frames su_consumed su_compose_pending su_retire_pending hd_retired_sequence hd_submit_sequence hd_composed_sequence]. lia.
    + split; [done|]. cbn [hd_submit_sequence hd_composed_sequence]. split; [lia|].
      split; [unfold SAVANXP_GPU_CLIENT_BATCH_CAPACITY; lia|]. cbn [set_header set_frames su_consumed]. intros k Hk. lia.
  - eexists. split; [done|]. simpl. lia.
Qed.

Lemma surface_set_ne s id u i : i <> id -> surface (set_surface id u s) i = surface s i.
Proof. intros H. unfold surface, set_surface, set_surfaces. cbn [sn_surfaces]. apply at_set_at_ne. lia. Qed.

Lemma consume_surface_good id s : in_array s id -> frames_ok (surface s id) -> caught_up s (consume_surface id s) id.
Proof.
  intros Hid Hok. pose proof Hok as (Hu & Hb & Hfl & h & Hh & (Q1 & Q2 & Q3 & _) & R1 & R2 & R3 & R4).
  unfold consume_surface, caught_up. rewrite Hh, Hb. rewrite u64_id by lia.
  assert (Esub : submitted (surface s id) = hd_submit_sequence h) by (unfold submitted; by rewrite Hh). rewrite Esub.
  destruct (consume_loop_good id (hd_submit_sequence h) consume_fuel (su_consumed (surface s id) + 1) false false s)
    as (s' & shown & -> & (s1 & D1 & ->) & Hsh);
    [done|lia|lia|lia|lia|intros k Hk; apply R4; lia|unfold consume_fuel, SAVANXP_GPU_CLIENT_BATCH_CAPACITY in *; lia|].
  assert (D2 : damaged s s1 (pending_patch s id)).
  { eapply damaged_weaken; [exact D1|]. intros x y (k & Hk & Hp). exists k. split; [lia|done]. }
  assert (Hid1 : in_array s1 id) by (destruct D1 as [-> _]; exact Hid).
  assert (Es1 : forall i, surface s1 i = surface s i) by (intros i; by apply (damaged_surface _ _ _ i D1)).
  assert (Eb1 : sn_broken s1 = sn_broken s) by (destruct D1 as [-> _]; done).
  set (u := surface s id) in *. cbn [orb].
  set (v := set_frames u (su_broken u) (hd_submit_sequence h) (su_compose_pending u) (su_retire_pending u)).
  assert (Hp : forall w, geom w = geom u -> same_pictures s1 (set_surface id w s1))
    by (intros w Hw; apply set_surface_pictures; by rewrite Es1).
  destruct (su_consumed u + 1 <=? hd_submit_sequence h) eqn:En; cbn [negb].
  2:{ assert (v = u) as Ev by (unfold v; replace (hd_submit_sequence h) with (su_consumed u) by lia; apply set_frames_same).
      rewrite surface_set_eq by done. rewrite Ev.
      split; [exists s1; split; [done|by apply Hp]|]. split; [done|].
      split; [intros i Hi; by rewrite surface_set_ne, Es1|]. split; [done|]. split; [done|]. lia. }
  rewrite surface_set_eq by done. destruct shown.
  - cbn [v set_frames su_broken su_consumed su_retire_pending]. rewrite set_surface_twice, surface_set_eq by done.
    split; [exists s1; split; [done|by apply Hp]|]. split; [done|].
    split; [intros i Hi; by rewrite surface_set_ne, Es1|].
    split; [exact (frames_waiting u h Hok Hh)|]. split; [exact Esub|]. split; [done|].
    intros Hno _. destruct (Hsh eq_refl) as [?|(i & Hi)]; [done|]. by apply Hno in Hi.
  - change (su_consumed v) with (hd_submit_sequence h). set (sq := hd_submit_sequence h) in *. set (s2 := set_surface id v s1).
    assert (Hid2 : in_array s2 id) by by apply set_surface_array.
    assert (Hid3 : in_array (mark_composed id sq s2) id) by (by apply (pictures_array s2); [apply mark_composed_pictures|]).
    assert (Hlt : su_consumed u < sq) by lia.
    split; [exists s1; split; [done|]|].
    { eapply same_pictures_trans; [by apply (Hp v)|].
      eapply same_pictures_trans; [apply mark_composed_pictures|apply mark_retired_pictures]. }
    split; [by rewrite mark_retired_broken, mark_composed_broken|]. split.
    { intros i Hi. rewrite mark_retired_surface, !mark_composed_surface by done.
      unfold s2. rewrite (surface_set_ne s1 id v i), Es1 by done. destruct (id =? i) eqn:?; [lia|done]. }
    rewrite mark_retired_surface, !mark_composed_surface by done. rewrite Z.eqb_refl. unfold s2. rewrite surface_set_eq by done.
    destruct (frames_acked u h Hok Hh Hlt) as (A1 & A2 & A3 & A4). done.
Qed.

(** ** Whatever a client writes *)

(** [s'] is [s] with more damage and other frame numbers in surface [id]. *)
Definition contained (s s' : scene) (id : Z) : Prop :=
  (exists s1, damaged s s1 (fun _ _ => False) /\ same_pictures s1 s') /\
  forall i, i <> id -> surface s' i = surface s i.

Lemma contained_refl s id : contained s s id.
Proof. split; [|done]. exists s. split; [apply damaged_none|done]. Qed.

(** Damage after a change of frames is a change of frames after damage. *)
Lemma damaged_after s s1 s2 s3 P Q :
  damaged s s1 P -> same_pictures s1 s2 -> damaged s2 s3 Q ->
  exists s1', damaged s s1' (fun x y => P x y \/ Q x y) /\ same_pictures s1' s3.
Proof.
  intros [E1 H1] (S1 & S2 & S3 & S4 & S5 & S6 & S7 & S8 & S9 & S10) [E2 H2].
  exists (set_damage (sn_damage s3) s1). split.
  - split; [by rewrite E1|]. intros Hok. destruct (H1 Hok) as [K1 P1]. rewrite <- S4 in K1. destruct (H2 K1) as [K2 P2].
    split; [exact K2|]. intros x y H. apply P2. rewrite S4.
    assert (Eon : on_display s2 x y = on_display s x y).
    { unfold on_display, bitmap_shows, display_bitmap, sx_bitmap_wrap. cbn [bm_info]. rewrite S3. by rewrite E1. }
    rewrite Eon. destruct H as [H|[[H|H] Hon]]; [left; apply P1; tauto|left; apply P1; tauto|tauto].
  - rewrite E2. done.
Qed.

Lemma contained_trans s1 s2 s3 id : contained s1 s2 id -> contained s2 s3 id -> contained s1 s3 id.
Proof.
  intros [(a & Da & Sa) Ha] [(b & Db & Sb) Hb]. split; [|intros i Hi; by rewrite Hb, Ha].
  destruct (damaged_after _ _ _ _ _ _ Da Sa Db) as (c & Dc & Sc). exists c. split.
  - eapply damaged_weaken; [exact Dc|]. tauto.
  - by eapply same_pictures_trans.
Qed.

Lemma contained_damage s s' P id : damaged s s' P -> contained s s' id.
Proof.
  intros D. split; [|intros i _; by apply (damaged_surface _ _ _ i D)]. exists s'. split; [|done].
  eapply damaged_weaken; [exact D|]. done.
Qed.

Lemma contained_pictures s s' id : same_pictures s s' -> (forall i, i <> id -> surface s' i = surface s i) -> contained s s' id.
Proof. intros H1 H2. split; [|done]. exists s. split; [apply damaged_none|done]. Qed.

Lemma contained_frames s id b c p r : contained s (set_surface id (set_frames (surface s id) b c p r) s) id.
Proof. apply contained_pictures; [apply set_frames_pictures|]. intros i Hi. by apply surface_set_ne. Qed.

Lemma break_contained s id : contained s (break_surface id s) id.
Proof.
  unfold break_surface. eapply contained_trans; [apply contained_frames|]. apply contained_pictures; [done|done].
Qed.

Lemma consume_rects_any id rects : forall shown s, contained s (fst (consume_rects id rects shown s)) id.
Proof.
  induction rects as [|r rest IH]; intros shown s; cbn [consume_rects]; [apply contained_refl|].
  destruct (dirty_rect_bad _ r); [apply break_contained|].
  destruct (damage_surface_rect id _ false s) as [s1 on] eqn:E. apply damage_surface_spec in E as [D _].
  eapply contained_trans; [by eapply contained_damage|apply IH].
Qed.

Lemma consume_loop_any id sub fuel : forall next shown any s,
  contained s (fst (consume_loop fuel id next sub shown any s)) id.
Proof.
  induction fuel as [|fuel IH]; intros next shown any s; cbn [consume_loop]; [apply contained_refl|].
  destruct (negb (next <=? sub)); [apply contained_refl|]. destruct (_ || _); [apply break_contained|].
  match goal with |- context [if has_flag ?a ?b then ?c else ?d] => set (m := if has_flag a b then c else d) end.
  assert (Hm : contained s (fst m) id).
  { unfold m. destruct (has_flag _ _); [|apply consume_rects_any].
    destruct (damage_surface_rect id _ true s) as [s1 on] eqn:E. apply damage_surface_spec in E as [D _].
    by eapply contained_damage. }
  destruct m as [s1 [sh|]]; cbn [fst] in *; [|done].
  eapply contained_trans; [exact Hm|]. eapply contained_trans; [apply contained_frames|apply IH].
Qed.

Lemma consume_surface_any id s : in_array s id -> contained s (consume_surface id s) id.
Proof.
  intros Hid. unfold consume_surface. destruct (su_header _) as [h|]; [|apply contained_refl].
  destruct (su_broken _); [apply contained_refl|].
  pose proof (consume_loop_any id (hd_submit_sequence h) consume_fuel (u64 (su_consumed (surface s id) + 1)) false false s) as Hl.
  destruct (consume_loop _ _ _ _ _ _ _) as [s1 [[shown any]|]]; cbn [fst] in Hl; [|done].
  destruct any; cbn [negb]; [|done]. eapply contained_trans; [exact Hl|].
  assert (Hid1 : in_array s1 id).
  { destruct Hl as [(a & [Ea _] & Sa) _]. apply (pictures_array a s1 id Sa). rewrite Ea. exact Hid. }
  destruct shown; [apply contained_frames|].
  apply contained_pictures; [eapply same_pictures_trans; [apply mark_composed_pictures|apply mark_retired_pictures]|].
  intros i Hi. rewrite mark_retired_surface.
  - rewrite !mark_composed_surface by done. destruct (id =? i) eqn:?; [lia|done].
  - by apply (pictures_array s1); [apply mark_composed_pictures|].
Qed.

(** One slot holds one sequence number: the loop cannot outlast its fuel,
    whatever the header and the batches hold. *)
Lemma consume_rects_batches id rects : forall shown s s' sh,
  consume_rects id rects shown s = (s', Some sh) -> surface s' id = surface s id.
Proof.
  induction rects as [|r rest IH]; intros shown s s' sh H; cbn [consume_rects] in H; [by simplify_eq|].
  destruct (dirty_rect_bad _ r); [done|].
  destruct (damage_surface_rect id _ false s) as [s1 on] eqn:E. apply damage_surface_spec in E as [D _].
  rewrite (IH _ _ _ _ H). by apply (damaged_surface _ _ _ id D).
Qed.

Lemma set_frames_batches id s b c p r :
  su_batches (surface (set_surface id (set_frames (surface s id) b c p r) s) id) = su_batches (surface s id).
Proof.
  destruct (decide (in_array s id)) as [H|H]; [by rewrite surface_set_eq|].
  assert (E : set_surface id (set_frames (surface s id) b c p r) s = s); [|by rewrite E].
  unfold set_surface, set_at. unfold in_array, zlen in H. case_if; [by destruct s|].
  rewrite list_insert_ge by lia. by destruct s.
Qed.

Lemma consume_loop_stops id sub base extra m : forall j shown any s,
  j + Z.of_nat m = 8 -> 0 <= j -> 0 <= base < 2 ^ 64 ->
  (forall i, 0 <= i < j -> bt_submit_sequence (slot (surface s id) (u64 (base + i))) = u64 (base + i)) ->
  consume_loop (S m + extra) id (u64 (base + j)) sub shown any s = consume_loop (S m) id (u64 (base + j)) sub shown any s.
Proof.
  induction m as [|m IH]; intros j shown any s Hj Hj0 Hb Hprev; cbn [Nat.add consume_loop];
    destruct (negb (u64 (base + j) <=? sub)); try done; fold (slot (surface s id) (u64 (base + j)));
    destruct (bt_submit_sequence (slot (surface s id) (u64 (base + j))) =? u64 (base + j)) eqn:Eq; cbn [negb orb]; try done.
  - exfalso. specialize (Hprev 0 ltac:(lia)). replace j with 8 in * by lia.
    assert (Es : slot (surface s id) (u64 (base + 8)) = slot (surface s id) (u64 (base + 0))).
    { unfold slot. f_equal. unfold SAVANXP_GPU_CLIENT_BATCH_CAPACITY, u64. divs. }
    rewrite Es, Hprev in Eq. unfold u64 in Eq. revert Eq. divs.
  - destruct (_ >? _); [done|].
    match goal with |- context [if has_flag ?a ?b then ?c else ?d] => set (mm := if has_flag a b then c else d) end.
    destruct mm as [s1 [sh|]] eqn:Em; [|done].
    assert (Hs1 : surface s1 id = surface s id).
    { unfold mm in Em. destruct (has_flag _ _); [|by eapply consume_rects_batches].
      destruct (damage_surface_rect id _ true s) as [s2 on] eqn:E. simplify_eq. apply damage_surface_spec in E as [D _].
      by apply (damaged_surface _ _ _ id D). }
    assert (En : u64 (u64 (base + j) + 1) = u64 (base + (j + 1))) by (unfold u64; divs). rewrite En.
    apply IH; [lia|lia|done|]. intros i Hi. unfold slot. rewrite set_frames_batches, Hs1. fold (slot (surface s id) (u64 (base + i))).
    destruct (decide (i = j)) as [->|]; [lia|]. apply Hprev. lia.
Qed.

(** ** All surfaces at once

    Some clients publish through sxnwm.h ([good]); the others write anything
    into their sections. *)

Section Clients.
Context (good : Z -> bool).

Definition behaves (s : scene) (id : Z) : bool := client_id id && good id && su_in_use (surface s id).
Definition good_frames (s : scene) : Prop := forall id, behaves s id = true -> frames_ok (surface s id).

(** What consuming does for one good surface. *)
Definition taken (s s' : scene) (id : Z) : Prop :=
  frames_ok (surface s' id) /\ submitted (surface s' id) = submitted (surface s id) /\
  su_consumed (surface s' id) = submitted (surface s id) /\
  ((forall index, ~ shows_surface s id index) -> su_consumed (surface s id) < submitted (surface s id) ->
   acknowledged (surface s' id) (submitted (surface s id))).

(** Every client surface below [i] was looked at, the others are untouched. *)
Definition taken_below (s : scene) (i : Z) (s' : scene) : Prop :=
  (exists s1, damaged s s1 (fun x y => exists id, behaves s id = true /\ id < i /\ pending_patch s id x y) /\
              same_pictures s1 s') /\
  (forall id, id < 2 \/ i <= id -> surface s' id = surface s id) /\
  forall id, behaves s id = true -> id < i -> taken s s' id.

Lemma pictures_layers s s1 s' P id : damaged s s1 P -> same_pictures s1 s' ->
  (forall index, shows_surface s' id index <-> shows_surface s id index) /\
  (forall b x y, batch_patch s' id b x y <-> batch_patch s id b x y).
Proof.
  intros [E _] (S1 & _ & _ & _ & _ & _ & _ & _ & _ & S10). apply look_count in S1.
  assert (E1 : sn_scene s' = sn_scene s) by (rewrite S10, E; done).
  assert (E2 : sn_layer_count s' = sn_layer_count s) by (rewrite S1, E; done).
  split; [intros index; unfold shows_surface, layer_at; by rewrite E1, E2|]. intros b x y. by apply batch_patch_same.
Qed.

Lemma taken_other s s' s2 id : surface s2 id = surface s' id -> taken s s' id -> taken s s2 id.
Proof. unfold taken. by intros ->. Qed.

(** A change confined to surface [i] that leaves it behind. *)
Lemma taken_below_step s i s' s2 (P : Z -> Z -> Prop) :
  2 <= i < 32 -> taken_below s i s' ->
  (exists s3, damaged s' s3 P /\ same_pictures s3 s2) -> (forall id, id <> i -> surface s2 id = surface s' id) ->
  (behaves s i = true -> taken s s2 i /\ forall x y, pending_patch s i x y -> P x y) ->
  taken_below s (i + 1) s2.
Proof.
  intros Hi ((s1 & D1 & S1) & Hrest & Hdone) (s3 & D3 & S3) Hne Hnew. split; [|split].
  - destruct (damaged_after _ _ _ _ _ _ D1 S1 D3) as (s4 & D4 & S4). exists s4.
    split; [|by eapply same_pictures_trans]. eapply damaged_weaken; [exact D4|]. intros x y (id & Hb & Hlt & Hp).
    destruct (decide (id = i)) as [->|]; [right; by apply Hnew|left; exists id; split_and!; try done; lia].
  - intros id Hid. rewrite Hne by lia. apply Hrest. lia.
  - intros id Hb Hlt. destruct (decide (id = i)) as [->|]; [by apply Hnew|].
    apply (taken_other s s'); [by apply Hne|]. apply Hdone; [done|lia].
Qed.

Lemma taken_step s i s' :
  all_surfaces s -> good_frames s -> 2 <= i < 32 -> taken_below s i s' ->
  taken_below s (i + 1)
    (if su_in_use (surface s' i) && has_flag (su_flags (surface s' i)) SAVANXP_COMPOSITOR_SURFACE_CLIENT
     then consume_surface i s' else s').
Proof.
  intros Hall Hg Hi Hb. pose proof Hb as ((s1 & D1 & S1) & Hrest & Hdone).
  assert (Hin : in_array s' i).
  { apply (pictures_array s1 s' i S1). destruct D1 as [-> _].
    unfold in_array, all_surfaces, SAVANXP_COMPOSITOR_MAX_SURFACES in *. cbn [sn_surfaces set_damage]. lia. }
  assert (Ei : surface s' i = surface s i) by (apply Hrest; lia).
  destruct (pictures_layers s s1 s' _ i D1 S1) as [Hsh Hbp].
  destruct (behaves s i) eqn:Eg.
  - pose proof (Hg i Eg) as Hok. pose proof Hok as (Hu & _ & Hfl & _). rewrite Ei, Hu, Hfl. cbn [andb].
    rewrite <- Ei in Hok. destruct (consume_surface_good i s' Hin Hok) as (C1 & C2 & C3 & C4 & C5 & C6 & C7).
    rewrite Ei in *. eapply taken_below_step; [lia|exact Hb|exact C1|exact C3|]. intros _. split.
    + split; [done|]. split; [done|]. split; [done|]. intros Hno. apply C7. intros index. by rewrite Hsh.
    + intros x y (k & Hk & Hp). exists k. rewrite Ei. split; [done|]. by apply Hbp.
  - destruct (_ && _).
    + destruct (consume_surface_any i s' Hin) as [C1 C2]. eapply taken_below_step; [lia|exact Hb|exact C1|exact C2|]. congruence.
    + eapply taken_below_step; [lia|exact Hb|exists s'; split; [apply damaged_none|done]|done|]. congruence.
Qed.

Lemma taken_below_start s : taken_below s 2 s.
Proof.
  split; [|split; [done|]].
  - exists s. split; [|done]. eapply damaged_weaken; [apply damaged_none|]. intros x y (id & H & ? & _).
    unfold behaves, client_id, SAVANXP_COMPOSITOR_SURFACE_WM in H. lia.
  - intros id H ?. unfold behaves, client_id, SAVANXP_COMPOSITOR_SURFACE_WM in H. lia.
Qed.

Lemma consume_frames_taken s : all_surfaces s -> good_frames s ->
  taken_below s 32 (scene_consume_frames s).
Proof.
  intros Hall Hg. unfold scene_consume_frames. change (SAVANXP_COMPOSITOR_SURFACE_WM + 1) with 2.
  unfold SAVANXP_COMPOSITOR_MAX_SURFACES. apply for_z_ind; [lia|apply taken_below_start|intros i s' Hi; by apply taken_step].
Qed.
End Clients.

(** ** Publishing *)

(** A client context that fits the surface the WM gave it. *)
Definition context_fits (ctx : wm_client) (u : scene_surface) : Prop :=
  cl_batch_capacity ctx = SAVANXP_GPU_CLIENT_BATCH_CAPACITY /\
  0 < cl_rect_capacity ctx <= SAVANXP_GPU_CLIENT_BATCH_MAX_RECTS /\
  cl_width ctx <= su_capacity_width u /\ cl_height ctx <= su_capacity_height u.

Definition dirty_u32 (r : dirty_rect) : Prop := 0 <= dr_x r /\ 0 <= dr_y r /\ 0 <= dr_width r /\ 0 <= dr_height r.

Lemma clip_dirty_good ctx u r c : context_fits ctx u -> dirty_u32 r -> clip_dirty ctx r = Some c -> dirty_rect_bad u c = false.
Proof.
  intros (_ & _ & Hw & Hh) (X1 & X2 & X3 & X4) Hc. unfold clip_dirty in Hc. destruct (_ || _) eqn:E; [done|]. simplify_eq.
  unfold dirty_rect_bad. cbn [dr_x dr_y dr_width dr_height]. repeat case_if; lia.
Qed.

(** The rectangles of a frame, clipped to the window. *)
Definition clipped (ctx : wm_client) (rects : list dirty_rect) : list dirty_rect := omap (clip_dirty ctx) rects.

Lemma store_rects_spec ctx rects : forall used out used' out',
  0 <= used -> store_rects ctx rects used out = (used', out') ->
  used' = used + zlen (clipped ctx rects) /\ length out' = length out /\
  (used' <= zlen out -> take (Z.to_nat used') out' = take (Z.to_nat used) out ++ clipped ctx rects).
Proof.
  induction rects as [|r rest IH]; intros used out used' out' Hu H; cbn [store_rects clipped omap list_omap] in *.
  - simplify_eq. unfold zlen. cbn [clipped omap list_omap length]. split; [simpl; lia|]. split; [done|]. by rewrite app_nil_r.
  - unfold clipped in *. cbn [omap list_omap]. destruct (clip_dirty ctx r) as [c|] eqn:E; [|by apply IH].
    destruct (IH (used + 1) (set_at out used c) used' out' ltac:(lia) H) as (H1 & H2 & H3).
    rewrite length_set_at in H2. split; [|split; [done|]].
    + rewrite H1. unfold zlen. cbn [length]. unfold omap. lia.
    + intros Hle. rewrite zlen_set_at in H3. rewrite H3 by done.
      assert (Hlt : (Z.to_nat used < length out)%nat).
      { rewrite H1 in Hle. pose proof (zlen_nonneg (omap (clip_dirty ctx) rest)). unfold zlen in *. lia. }
      replace (Z.to_nat (used + 1)) with (S (Z.to_nat used)) by lia.
      unfold set_at. destruct (used <? 0) eqn:?; [lia|].
      rewrite (take_S_r _ _ c) by (by rewrite list_lookup_insert_eq). rewrite take_insert_ge by lia.
      by rewrite <- app_assoc.
Qed.

Lemma clear_rects_take from to l : 0 <= from -> take (Z.to_nat from) (clear_rects from to l) = take (Z.to_nat from) l.
Proof.
  intros Hf. unfold clear_rects. destruct (Z_le_gt_dec from to) as [Hle|]; [|by rewrite for_z_nil by lia].
  apply (for_z_ind (fun _ l' => take (Z.to_nat from) l' = take (Z.to_nat from) l)); [done..|].
  intros i l' Hi H. unfold set_at. destruct (i <? 0) eqn:?; [done|]. by rewrite take_insert_ge by lia.
Qed.

(** What the client does to its half of the surface: a frame painted and
    published.  A full ring refuses the frame, and nothing was painted. *)
Inductive client_frame := FullFrame | RectFrame (rects : list dirty_rect).

Definition submit (ctx : wm_client) (f : client_frame) (event_result : Z) (h : client_header)
    (batches : list dirty_rect_batch) : client_header * list dirty_rect_batch * Z :=
  match f with
  | FullFrame => sxnwm_submit_full ctx event_result h batches
  | RectFrame rects => sxnwm_submit_rects ctx rects event_result h batches
  end.

Definition with_section (u : scene_surface) (h : client_header) (batches : list dirty_rect_batch)
    (pixels : option (list Z)) : scene_surface :=
  mk_surface (su_in_use u) (su_broken u) (su_flags u) (su_section_size u) (Some h) batches pixels
    (su_pitch u) (su_capacity_width u) (su_capacity_height u) (su_wake_event u)
    (su_consumed u) (su_compose_pending u) (su_retire_pending u).

(** The batch a frame becomes. *)
Definition frame_batch (ctx : wm_client) (f : client_frame) (b : dirty_rect_batch) : Prop :=
  match f with
  | FullFrame => is_full b = true
  | RectFrame rects =>
      is_full b = true \/
      (is_full b = false /\ 0 <= bt_rect_count b /\ batch_list b = clipped ctx rects /\ clipped ctx rects <> [])
  end.

(** A frame that is published, as the batch [b] of the next sequence number. *)
Definition publishes (ctx : wm_client) (f : client_frame) (h : client_header) (batches : list dirty_rect_batch)
    (h' : client_header) (batches' : list dirty_rect_batch) (b : dirty_rect_batch) : Prop :=
  let sequence := u64 (hd_submit_sequence h + 1) in
  ring_full ctx h = false /\
  h' = mk_header sequence (hd_retired_sequence h) (hd_composed_sequence h) /\
  batches' = set_at batches (u64 (sequence - 1) mod cl_batch_capacity ctx) b /\
  bt_submit_sequence b = sequence /\ bt_rect_count b <= SAVANXP_GPU_CLIENT_BATCH_MAX_RECTS /\
  length (bt_rects b) = 32%nat /\ frame_batch ctx f b.

(** A submission that leaves no trace: the ring is full, or no rectangle of the
    frame reaches the window. *)
Definition refused (ctx : wm_client) (f : client_frame) (h : client_header) : Prop :=
  ring_full ctx h = true \/ exists rects, f = RectFrame rects /\ clipped ctx rects = [].

Lemma clear_rects_length from to l : length (clear_rects from to l) = length l.
Proof.
  unfold clear_rects. destruct (Z_le_gt_dec from to) as [Hle|]; [|by rewrite for_z_nil by lia].
  apply (for_z_ind (fun _ l' => length l' = length l)); [done..|]. intros i l' _ H. by rewrite length_set_at.
Qed.

Lemma ring_slot batches i : ring_shape batches -> length (bt_rects (at_ batch0 batches (i mod 8))) = 32%nat.
Proof.
  intros [Hl HF]. assert (Hi : 0 <= i mod 8 < 8) by (apply Z.mod_pos_bound; lia).
  rewrite Forall_forall in HF. apply HF. unfold at_. destruct (_ <? 0) eqn:?; [lia|].
  apply list_elem_of_In, nth_In. lia.
Qed.

Lemma submit_full_spec ctx f er h batches u :
  context_fits ctx u -> ring_shape batches -> (forall b, is_full b = true -> frame_batch ctx f b) ->
  let '(h', batches', _) := sxnwm_submit_full ctx er h batches in
  (h' = h /\ batches' = batches /\ refused ctx f h) \/ exists b, publishes ctx f h batches h' batches' b.
Proof.
  intros (Hcap & _) Hr Hf. unfold sxnwm_submit_full. destruct (ring_full ctx h) eqn:E.
  - left. split; [done|]. split; [done|]. by left.
  - right. unfold publish. eexists. unfold publishes. split; [done|]. split; [done|]. split; [done|].
    split; [done|]. split; [done|]. split; [|by apply Hf].
    cbn [bt_rects]. rewrite clear_rects_length, length_set_at, Hcap. by apply ring_slot.
Qed.

Lemma store_rects_none ctx rects : forall used out, clipped ctx rects = [] -> store_rects ctx rects used out = (used, out).
Proof.
  induction rects as [|r rest IH]; intros used out H; cbn [store_rects]; [done|].
  unfold clipped in *. cbn [omap list_omap] in H. destruct (clip_dirty ctx r); [done|]. by apply IH.
Qed.

Lemma clipped_length ctx rects : zlen (clipped ctx rects) <= zlen rects.
Proof.
  unfold zlen, clipped. induction rects as [|r rest IH]; [done|]. cbn [omap list_omap].
  destruct (clip_dirty ctx r); cbn [length]; rewrite ?Nat2Z.inj_succ; [apply Zsucc_le_compat; exact IH|].
  eapply Z.le_trans; [exact IH|]. lia.
Qed.

(** Every submission refuses the frame or publishes it. *)
Lemma submit_spec ctx f er h batches u :
  context_fits ctx u -> ring_shape batches ->
  let '(h', batches', _) := submit ctx f er h batches in
  (h' = h /\ batches' = batches /\ refused ctx f h) \/ exists b, publishes ctx f h batches h' batches' b.
Proof.
  intros Hc Hr. destruct f as [|rects]; cbn [submit]; [by eapply submit_full_spec|].
  unfold sxnwm_submit_rects. set (capacity := if _ <? _ then _ else _).
  destruct (zlen rects >? capacity) eqn:Ez; [apply (submit_full_spec ctx _ er h batches u Hc Hr); intros b Hb; by left|].
  destruct (ring_full ctx h) eqn:Ef; [left; split; [done|split; [done|by left]]|].
  pose proof Hc as (Hcap & Hrc & _).
  set (sl := u64 (u64 (hd_submit_sequence h + 1) - 1) mod cl_batch_capacity ctx).
  assert (Hl : length (bt_rects (at_ batch0 batches sl)) = 32%nat) by (unfold sl; rewrite Hcap; by apply ring_slot).
  destruct (store_rects ctx rects 0 (bt_rects (at_ batch0 batches sl))) as [used out] eqn:Es.
  destruct (store_rects_spec ctx rects 0 _ _ _ (Z.le_refl 0) Es) as (Hu & Ho & Ht).
  pose proof (clipped_length ctx rects) as Hcl. pose proof (zlen_nonneg (clipped ctx rects)).
  assert (Hcap32 : capacity <= 32).
  { unfold capacity, SAVANXP_GPU_CLIENT_BATCH_MAX_RECTS in *. destruct (_ <? _) eqn:?; lia. }
  destruct (used =? 0) eqn:E0.
  - left. assert (En : clipped ctx rects = []) by (destruct (clipped ctx rects) as [|r rest]; [done|]; change (zlen (r :: rest)) with (Z.of_nat (S (length rest))) in *; lia).
    rewrite store_rects_none in Es by done. simplify_eq.
    replace (mk_batch _ _ _ _) with (at_ batch0 batches sl) by (by destruct (at_ batch0 batches sl)).
    rewrite set_at_same. split; [done|]. split; [done|]. right. by exists rects.
  - right. unfold publish. eexists. unfold publishes. split; [done|]. split; [done|]. split; [done|].
    split; [done|]. cbn [bt_rect_count bt_rects]. unfold SAVANXP_GPU_CLIENT_BATCH_MAX_RECTS. split; [lia|].
    split; [by rewrite clear_rects_length; congruence|]. right. split; [done|]. split; [cbn [bt_rect_count]; lia|]. split.
    + unfold batch_list. cbn [bt_rect_count bt_rects]. rewrite clear_rects_take by lia. rewrite Ht; [done|].
      unfold zlen. lia.
    + intros En. rewrite En in Hu. change (zlen []) with 0 in Hu. lia.
Qed.

(** ** A good client stays good *)

Lemma slot_other u k b batches i :
  su_batches u = set_at batches (i mod 8) b -> length batches = 8%nat -> 0 <= i < 2 ^ 63 -> i - 8 < k - 1 < i -> 0 < k ->
  slot u k = at_ batch0 batches (u64 (k - 1) mod 8).
Proof.
  intros E Hl Hi Hk Hpos. unfold slot, SAVANXP_GPU_CLIENT_BATCH_CAPACITY. rewrite E, at_set_at_ne; [done|].
  unfold u64. divs.
Qed.

Lemma slot_new u k b batches :
  su_batches u = set_at batches (u64 (k - 1) mod 8) b -> length batches = 8%nat -> slot u k = b.
Proof.
  intros E Hl. unfold slot, SAVANXP_GPU_CLIENT_BATCH_CAPACITY. rewrite E, at_set_at, Z.eqb_refl; [done|].
  unfold zlen. rewrite Hl. change (Z.of_nat 8) with 8. apply Z.mod_pos_bound. lia.
Qed.

Definition frame_u32 (f : client_frame) : Prop :=
  match f with FullFrame => True | RectFrame rects => Forall dirty_u32 rects end.

Lemma frame_batch_good ctx u v f b :
  context_fits ctx u -> frame_u32 f -> frame_batch ctx f b -> 
  su_capacity_width v = su_capacity_width u -> su_capacity_height v = su_capacity_height u ->
  is_full b = true \/ Forall (fun r => dirty_rect_bad v r = false) (batch_list b).
Proof.
  intros Hc Hf Hb Ew Eh. destruct f as [|rects]; [by left|]. destruct Hb as [Hb|(_ & _ & -> & _)]; [by left|right].
  apply Forall_forall. intros c Hin. unfold clipped in Hin. apply list_elem_of_omap in Hin as (r & Hr & Hcl).
  simpl in Hf. rewrite Forall_forall in Hf. pose proof (clip_dirty_good ctx u r c Hc (Hf r Hr) Hcl) as H.
  unfold dirty_rect_bad in *. by rewrite Ew, Eh.
Qed.

Lemma publishes_ok ctx f u h batches h' batches' b px :
  context_fits ctx u -> frame_u32 f -> frames_ok u -> su_header u = Some h -> su_batches u = batches ->
  hd_submit_sequence h + 1 < 2 ^ 63 -> publishes ctx f h batches h' batches' b ->
  let u' := with_section u h' batches' px in
  frames_ok u' /\ submitted u' = submitted u + 1 /\ slot u' (submitted u') = b /\
  forall k, su_consumed u < k <= submitted u -> slot u' k = slot u k.
Proof.
  intros Hc Hf (Hu & Hb & Hfl & h0 & Hh0 & (Q1 & Q2 & Q3 & Q4 & Q5 & Q6) & [R1 R1'] & R2 & R3 & R4) Hh Ebt Hmax.
  rewrite Hh in Hh0. simplify_eq. intros (Hring & -> & -> & S1 & S2 & S3 & S4). cbv zeta.
  pose proof Hc as (Hcap & _). rewrite Hcap. unfold ring_full in Hring. rewrite Hcap in Hring.
  unfold submitted. cbn [with_section su_header]. rewrite Hh. cbn [hd_submit_sequence].
  set (sq := hd_submit_sequence h0) in *. rewrite (u64_id (sq - _)) in Hring by lia. rewrite (u64_id (sq + 1)) by lia.
  unfold SAVANXP_GPU_CLIENT_BATCH_CAPACITY in *.
  set (u' := with_section u _ _ px).
  assert (Eb : su_batches u' = set_at (su_batches u) (u64 (sq + 1 - 1) mod 8) b) by done.
  assert (Hnew : slot u' (sq + 1) = b) by (by apply (slot_new u' (sq + 1) b (su_batches u))).
  assert (Hold : forall k, su_consumed u < k <= sq -> slot u' k = slot u k).
  { intros k Hk. apply (slot_other u' k b (su_batches u) sq); [|done|lia|lia|lia].
    rewrite Eb. by rewrite Z.add_simpl_r, u64_id by lia. }
  rewrite (u64_id (sq + 1)) in S1 by lia.
  split; [|done]. split; [done|]. split; [done|]. split; [done|]. eexists. split; [done|]. split.
  - unfold sequences_ok, u'. cbn [with_section su_consumed su_compose_pending su_retire_pending hd_submit_sequence hd_composed_sequence hd_retired_sequence]. lia.
  - split; [|split; [simpl; lia|split; [simpl; unfold SAVANXP_GPU_CLIENT_BATCH_CAPACITY; lia|]]].
    + rewrite Eb. split; [by rewrite length_set_at|]. unfold set_at. destruct (_ <? 0); [done|]. by apply Forall_insert.
    + cbn [hd_submit_sequence]. intros k Hk. change (su_consumed u') with (su_consumed u) in Hk.
      destruct (decide (k = sq + 1)) as [->|].
      * rewrite Hnew. split; [done|]. split; [done|]. by eapply frame_batch_good.
      * rewrite Hold by lia. apply R4. lia.
Qed.
