(* ===== verification/SceneRun.v ===== *)
(** * The compositor and its peers as a transition system

    The window manager, the clients and compositord share memory; a run
    interleaves what each of them does.  [step] lists what the WM, compositord
    and untrusted clients do, [run] adds the good clients, which paint and submit
    at steps of their own; [scene_ok] is what every action keeps, and [faithful]
    says of a point of the screen that it shows what the scene says unless a
    redraw is already on its way. *)

From S2P Require Import Prelude Rect Region RegionFacts RegionLaws RegionClip Painter PainterFacts PainterLaws Scene SceneFacts WmClient SceneFrames.

(** ** What a picture depends on *)

Definition extent (u : scene_surface) : bool * Z * Z * Z :=
  (su_in_use u, su_pitch u, su_capacity_width u, su_capacity_height u).

Lemma live_extent s s' layer :
  extent (surface s' (ly_surface_id layer)) = extent (surface s (ly_surface_id layer)) ->
  layer_live s' layer = layer_live s layer.
Proof.
  unfold extent, layer_live, surface_at, layer_source_valid. intros [= -> _ Ew Eh].
  destruct (_ || _); [done|]. by rewrite Ew, Eh.
Qed.

(** The memory a layer shows: the stage for the WM's, the client's own else. *)
Definition backing (s : scene) (id : Z) : option (list Z) :=
  if id =? SAVANXP_COMPOSITOR_SURFACE_WM then sn_stage s else su_pixels (surface s id).

Lemma sample_extent s s' layer x y :
  su_pitch (surface s' (ly_surface_id layer)) = su_pitch (surface s (ly_surface_id layer)) ->
  backing s' (ly_surface_id layer) = backing s (ly_surface_id layer) ->
  layer_sample s' layer x y = layer_sample s layer x y.
Proof. unfold layer_sample, layer_pixels, backing, layer_bitmap. by intros -> ->. Qed.

Lemma covers_extent s s' i x y :
  layer_at s' i = layer_at s i ->
  extent (surface s' (ly_surface_id (layer_at s i))) = extent (surface s (ly_surface_id (layer_at s i))) ->
  layer_covers s' i x y = layer_covers s i x y.
Proof. unfold layer_covers. intros -> H. by rewrite (live_extent s s'). Qed.

(** Two scenes have the same front layer where the same layers cover. *)
Lemma front_same s s' x y :
  (forall i, 0 <= i < sn_layer_count s' -> layer_covers s' i x y = true ->
     i < sn_layer_count s /\ layer_covers s i x y = true) ->
  (forall i, 0 <= i < sn_layer_count s -> layer_covers s i x y = true ->
     i < sn_layer_count s' /\ layer_covers s' i x y = true) ->
  front_layer s' x y = front_layer s x y.
Proof.
  intros H1 H2. unfold front_layer.
  pose proof (front_spec s (sn_layer_count s) x y) as A. pose proof (front_spec s' (sn_layer_count s') x y) as B.
  destruct (front_below s _ x y) as [f|], (front_below s' _ x y) as [g|]; [| | |done].
  - destruct A as (A1 & A2 & A3), B as (B1 & B2 & B3).
    destruct (H1 g B1 B2) as [K1 K2]. destruct (H2 f A1 A2) as [K3 K4]. f_equal.
    destruct (Z.lt_total f g) as [H|[H|H]]; [|done|]; [rewrite A3 in K2 by lia|rewrite B3 in K4 by lia]; done.
  - destruct A as (A1 & A2 & _). destruct (H2 f A1 A2) as [K1 K2]. rewrite B in K2 by lia. done.
  - destruct B as (B1 & B2 & _). destruct (H1 g B1 B2) as [K1 K2]. rewrite A in K2 by lia. done.
Qed.

Lemma front_covers s x y f : front_layer s x y = Some f ->
  0 <= f < sn_layer_count s /\ layer_covers s f x y = true /\
  in_rect (ly_dst (layer_at s f)) x y /\ layer_live s (layer_at s f) = true.
Proof.
  unfold front_layer. intros H. pose proof (front_spec s (sn_layer_count s) x y) as A. rewrite H in A.
  destruct A as (A1 & A2 & _). split; [done|]. split; [done|]. unfold layer_covers in A2.
  apply andb_true_iff in A2 as [-> A2]. split; [by apply contains_point_iff|done].
Qed.

#[export] Instance scene_cursor_eq_dec : EqDecision scene_cursor.
Proof. solve_decision. Defined.

(** ** The invariant of the data *)

Definition int32 (n : Z) : Prop := - 2 ^ 31 <= n < 2 ^ 31.
Definition rect_int32 (r : sx_rect) : Prop := int32 (rx r) /\ int32 (ry r) /\ int32 (rw r) /\ int32 (rh r).

(** The WM's own layers show its surface in place: its damage is in screen coordinates. *)
Definition layer_ok (l : compositor_layer) : Prop :=
  rect_int32 (ly_src l) /\ (ly_surface_id l = SAVANXP_COMPOSITOR_SURFACE_WM -> ly_src l = ly_dst l).
Definition layers_ok (sc : compositor_scene) : Prop := forall i, layer_ok (at_ layer0 (sc_layers sc) i).

(** A surface in use has its memory, and rows that hold its width. *)
Definition backed (s : scene) (id : Z) : Prop :=
  su_in_use (surface s id) = true ->
  su_pixels (surface s id) <> None /\ 0 <= su_capacity_width (surface s id) <= su_pitch (surface s id) / 4 /\
  su_pitch (surface s id) <> 0 /\ (id = SAVANXP_COMPOSITOR_SURFACE_WM -> sn_stage s <> None).

Section Run.
Context (assets : Z -> cursor_asset) (good : Z -> bool).

Record scene_ok (s : scene) : Prop := {
  ok_array : all_surfaces s;
  ok_damage : region_ok (sn_damage s);
  ok_count : 0 <= sn_layer_count s <= SAVANXP_COMPOSITOR_MAX_LAYERS;
  ok_display : sn_display s = None \/ display_ok s;
  ok_backed : forall id, backed s id;
  ok_layers : layers_ok (sn_scene s);
  ok_frames : good_frames good s }.

Lemma backed_drawable s : (forall id, backed s id) -> drawable s.
Proof.
  intros Hb i _ Hl x y. destruct (layer_live_valid _ _ Hl) as [Hs _].
  unfold surface_at in Hs. destruct (_ || _) eqn:E; [done|].
  destruct (Hb (ly_surface_id (layer_at s i))) as (H1 & _ & _ & H2); [lia|].
  unfold layer_sample, layer_pixels. cbv zeta. intros K.
  destruct (ly_surface_id (layer_at s i) =? SAVANXP_COMPOSITOR_SURFACE_WM) eqn:Ew.
  - destruct (sn_stage s); [congruence|]. apply H2; [lia|done].
  - destruct (su_pixels _); congruence.
Qed.

(** Surfaces a run can speak for: the WM's and the good clients'. *)
Definition trusted (id : Z) : bool := (id =? SAVANXP_COMPOSITOR_SURFACE_WM) || good id.

(** No redraw of a point is on its way. *)
Definition settled (s : scene) (x y : Z) : Prop :=
  on_display s x y = true /\ sn_display s <> None /\ ~ in_region (sn_damage s) x y /\
  forall id, behaves good s id = true -> ~ pending_patch s id x y.

Definition faithful (s : scene) (x y : Z) : Prop :=
  forall f, settled s x y -> front_layer s x y = Some f -> trusted (ly_surface_id (layer_at s f)) = true ->
    screen_pixel s x y = over (cursor_pixel assets (target_cursor s) x y) (default 0 (layer_sample s (layer_at s f) x y)) /\
    cursor_pixel assets (sn_cursor_drawn s) x y = cursor_pixel assets (target_cursor s) x y.

(** What an action may do to a faithful point. *)
Lemma faithful_keep s s' x y :
  faithful s x y ->
  (settled s' x y -> forall f, front_layer s' x y = Some f -> trusted (ly_surface_id (layer_at s' f)) = true ->
     settled s x y /\ front_layer s x y = Some f /\ layer_at s f = layer_at s' f /\
     layer_sample s' (layer_at s' f) x y = layer_sample s (layer_at s' f) x y /\
     screen_pixel s' x y = screen_pixel s x y /\
     (cursor_pixel assets (sn_cursor_drawn s) x y = cursor_pixel assets (target_cursor s) x y ->
      cursor_pixel assets (target_cursor s') x y = cursor_pixel assets (target_cursor s) x y /\
      cursor_pixel assets (sn_cursor_drawn s') x y = cursor_pixel assets (target_cursor s') x y)) ->
  faithful s' x y.
Proof.
  intros Hf H f Hs Hfr Ht. destruct (H Hs f Hfr Ht) as (H1 & H2 & H3 & H4 & H5 & H6).
  destruct (Hf f H1 H2) as [F1 F2]; [by rewrite H3|]. destruct (H6 F2) as [H7 H8].
  split; [|done]. by rewrite H5, F1, H4, H7, H3.
Qed.

(** *** Actions that change only frames and damage *)

Lemma on_display_info s s' x y : sn_display_info s' = sn_display_info s -> on_display s' x y = on_display s x y.
Proof. unfold on_display, bitmap_shows, display_bitmap, sx_bitmap_wrap. cbn [bm_info]. by intros ->. Qed.

Lemma screen_pixel_same s s' x y :
  sn_display s' = sn_display s -> sn_display_info s' = sn_display_info s -> screen_pixel s' x y = screen_pixel s x y.
Proof. unfold screen_pixel, display_bitmap. by intros -> ->. Qed.

Lemma target_cursor_same s s' :
  sn_software_cursor s' = sn_software_cursor s -> sn_cursor s' = sn_cursor s -> target_cursor s' = target_cursor s.
Proof. unfold target_cursor. by intros -> ->. Qed.

Lemma faithful_pictures s s1 s' P x y :
  damaged s s1 P -> same_pictures s1 s' -> (settled s' x y -> settled s x y) -> faithful s x y -> faithful s' x y.
Proof.
  intros [E _] (S1 & S2 & S3 & S4 & S5 & S6 & S7 & S8 & S9 & S10) Hst Hf. eapply faithful_keep; [exact Hf|].
  assert (L : look s' = look s) by (rewrite S1, E; done).
  intros Hs f Hfr Ht. split; [by apply Hst|]. rewrite <- (look_front s' s x y L).
  split; [done|]. split; [symmetry; by apply look_layer|]. split; [by apply look_sample|].
  split; [apply screen_pixel_same; [rewrite S2, E|rewrite S3, E]; done|].
  rewrite (target_cursor_same s s'); [|rewrite S5, E; done|rewrite S6, E; done]. rewrite S7, E. cbn [set_damage sn_cursor_drawn]. done.
Qed.

Lemma look_backed s s' id : look s' = look s -> backed s id -> backed s' id.
Proof.
  intros S1 Hb. pose proof (look_surface s' s id S1) as G. unfold geom in G. unfold backed in *.
  replace (su_in_use (surface s' id)) with (su_in_use (surface s id)) by congruence.
  replace (su_pixels (surface s' id)) with (su_pixels (surface s id)) by congruence.
  replace (su_pitch (surface s' id)) with (su_pitch (surface s id)) by congruence.
  replace (su_capacity_width (surface s' id)) with (su_capacity_width (surface s id)) by congruence.
  replace (sn_stage s') with (sn_stage s) by (unfold look in S1; congruence). done.
Qed.

Lemma display_ok_same s s' :
  sn_display s' = sn_display s -> sn_display_info s' = sn_display_info s -> display_ok s -> display_ok s'.
Proof. unfold display_ok, display_bitmap. by intros -> ->. Qed.

Lemma ok_pictures s s' : same_pictures s s' -> good_frames good s' -> scene_ok s -> scene_ok s'.
Proof.
  intros S Hg []. pose proof S as (S1 & S2 & S3 & S4 & S5 & S6 & S7 & S8 & S9 & S10). constructor.
  - unfold all_surfaces, zlen in *. by rewrite S8.
  - by rewrite S4.
  - by rewrite (look_count _ _ S1).
  - rewrite S2. destruct ok_display0; [by left|right; by eapply display_ok_same].
  - intros id. by eapply look_backed.
  - by rewrite S10.
  - done.
Qed.

Lemma ok_damaged s s' P : damaged s s' P -> scene_ok s -> scene_ok s'.
Proof.
  intros [E H] Hok. pose proof (proj1 (H (ok_damage s Hok))) as Hd. destruct Hok. rewrite E in *. by constructor.
Qed.

Lemma behaves_look s s' id : look s' = look s -> behaves good s' id = behaves good s id.
Proof. intros L. pose proof (look_surface _ _ id L) as G. unfold geom in G. unfold behaves. congruence. Qed.

Lemma behaves_damaged s s1 s' P id : damaged s s1 P -> same_pictures s1 s' -> behaves good s' id = behaves good s id.
Proof. intros [E _] (S1 & _). rewrite (behaves_look s1 s' id S1). by rewrite E. Qed.

(** What was outside the damage before an action that only adds to it. *)
Lemma undamaged_before s s1 s' P x y :
  scene_ok s -> damaged s s1 P -> same_pictures s1 s' -> on_display s' x y = true -> ~ in_region (sn_damage s') x y ->
  on_display s x y = true /\ ~ in_region (sn_damage s) x y /\ ~ P x y.
Proof.
  intros Hok [E H] (_ & _ & S3 & S4 & _) Hon Hd. destruct (H (ok_damage s Hok)) as [_ K]. rewrite S4 in Hd.
  rewrite (on_display_info s s') in Hon by (rewrite S3, E; done).
  split; [done|]. split; intros X; apply Hd, K; tauto.
Qed.

Lemma display_same s s1 s' P : damaged s s1 P -> same_pictures s1 s' -> sn_display s' = sn_display s.
Proof. intros [E _] (_ & -> & _). by rewrite E. Qed.

(** *** Consuming *)

Lemma consume_ok s : scene_ok s -> scene_ok (scene_consume_frames s).
Proof.
  intros Hok. destruct (consume_frames_taken good s (ok_array s Hok) (ok_frames s Hok)) as ((s1 & D & S) & _ & Ht).
  eapply ok_pictures; [exact S| |by eapply ok_damaged]. intros id Hb. rewrite (behaves_damaged _ _ _ _ _ D S) in Hb.
  apply Ht; [done|]. unfold behaves, client_id, SAVANXP_COMPOSITOR_MAX_SURFACES in Hb. lia.
Qed.

Lemma behaves_below s id : behaves good s id = true -> id < 32.
Proof. unfold behaves, client_id, SAVANXP_COMPOSITOR_MAX_SURFACES. lia. Qed.

Lemma consume_settled s x y : scene_ok s -> settled (scene_consume_frames s) x y -> settled s x y.
Proof.
  intros Hok (H1 & H2 & H3 & _).
  destruct (consume_frames_taken good s (ok_array s Hok) (ok_frames s Hok)) as ((s1 & D & S) & _ & Ht).
  destruct (undamaged_before _ _ _ _ _ _ Hok D S H1 H3) as (U1 & U2 & U3).
  split; [done|]. split; [by rewrite <- (display_same _ _ _ _ D S)|]. split; [done|].
  intros id Hb Hp. apply U3. exists id. split; [done|]. split; [by eapply behaves_below|done].
Qed.

Lemma consume_faithful s x y : scene_ok s -> faithful s x y -> faithful (scene_consume_frames s) x y.
Proof.
  intros Hok. pose proof (consume_settled s x y Hok) as Hst.
  destruct (consume_frames_taken good s (ok_array s Hok) (ok_frames s Hok)) as ((s1 & D & S) & _ & _).
  by eapply faithful_pictures.
Qed.

(** Nothing is left to consume. *)
Lemma consume_nothing_pending s id x y :
  scene_ok s -> behaves good (scene_consume_frames s) id = true -> ~ pending_patch (scene_consume_frames s) id x y.
Proof.
  intros Hok Hb (k & Hk & _).
  destruct (consume_frames_taken good s (ok_array s Hok) (ok_frames s Hok)) as ((s1 & D & S) & _ & Ht).
  rewrite (behaves_damaged _ _ _ _ _ D S) in Hb. destruct (Ht id Hb (behaves_below _ _ Hb)) as (_ & T1 & T2 & _). lia.
Qed.

(** *** Composing and retiring *)

(** The frames of a good surface move without new batches. *)
Lemma frames_step_ok s s' (g : scene_surface -> scene_surface) :
  same_pictures s s' -> (forall id, surface s' id = if client_id id then g (surface s id) else surface s id) ->
  (forall u, frames_ok u -> frames_ok (g u) /\ submitted (g u) = submitted u /\ su_consumed (g u) = su_consumed u /\
     su_batches (g u) = su_batches u) ->
  scene_ok s -> scene_ok s' /\ forall x y, settled s' x y -> settled s x y.
Proof.
  intros S Hsu Hg Hok. pose proof S as (S1 & S2 & S3 & S4 & _ & _ & _ & _ & _ & S10).
  assert (Hbe : forall id, behaves good s' id = behaves good s id) by (intros; by apply behaves_look).
  assert (Hcl : forall id, behaves good s id = true -> client_id id = true) by (unfold behaves; intros id H; destruct (client_id id); done).
  split.
  - eapply ok_pictures; [exact S| |done]. intros id Hb. rewrite Hbe in Hb. rewrite Hsu, (Hcl id Hb).
    by apply Hg, (ok_frames s Hok).
  - intros x y (H1 & H2 & H3 & H4). split; [by rewrite <- (on_display_info s s')|]. split; [congruence|].
    split; [by rewrite <- S4|]. intros id Hb (k & Hk & Hp). rewrite <- Hbe in Hb. apply (H4 id Hb). exists k.
    rewrite Hbe in Hb. unfold slot in *. rewrite Hsu, (Hcl id Hb).
    destruct (Hg _ (ok_frames s Hok id Hb)) as (_ & -> & -> & ->). split; [done|].
    apply (batch_patch_same s); [done|by apply look_count|done].
Qed.

Lemma compose_surface_batches u : su_batches (compose_surface u) = su_batches u.
Proof.
  unfold compose_surface, composed_to. destruct (_ && _); [|done]. destruct (su_header u); [|done]. by destruct (_ && _).
Qed.
Lemma retire_surface_batches u : su_batches (retire_surface u) = su_batches u.
Proof.
  unfold retire_surface, retired_to. destruct (_ && _); [|done]. destruct (su_header u); [|done]. by destruct (_ && _).
Qed.

Lemma retire_keeps s : scene_ok s ->
  scene_ok (scene_retire s) /\ forall x y, faithful s x y -> faithful (scene_retire s) x y.
Proof.
  intros Hok. destruct (frames_step_ok s (scene_retire s) retire_surface) as [H1 H2].
  - apply retire_pictures.
  - intros id. apply retire_surface_spec, ok_array, Hok.
  - intros u Hu. destruct (retire_surface_ok u Hu) as (R1 & R2 & R3 & _). by rewrite retire_surface_batches.
  - done.
  - split; [done|]. intros x y Hf. eapply faithful_pictures; [apply damaged_none|apply retire_pictures|apply H2|exact Hf].
Qed.

Definition compose_fits (s : scene) : Prop := forall i, 0 <= i < sn_layer_count s -> fits s (due s) i.

Lemma compose_idle s : sn_display s = None \/ sx_region_is_empty (due s) = true ->
  scene_compose assets s = (set_damage (due s) s, sx_region_clear).
Proof.
  intros H. unfold scene_compose. fold (due s). cbv zeta. cbn [set_damage sn_display].
  destruct H as [->| ->]; [done|]. by destruct (sn_display s).
Qed.

Lemma compose_surfaces s px id : sn_display s = Some px -> sx_region_is_empty (due s) = false -> all_surfaces s ->
  surface (fst (scene_compose assets s)) id = if client_id id then compose_surface (surface s id) else surface s id.
Proof.
  intros Hpx He Ha. unfold scene_compose. fold (due s). cbv zeta. cbn [set_damage sn_display]. rewrite Hpx, He.
  cbn [fst]. by rewrite mark_all_surface.
Qed.

Lemma look_length s s' : look s' = look s -> length (sn_surfaces s') = length (sn_surfaces s).
Proof.
  intros H. unfold look in H. assert (E : map geom (sn_surfaces s') = map geom (sn_surfaces s)) by congruence.
  apply (f_equal length) in E. by rewrite !length_map in E.
Qed.

Lemma behaves_client s id : behaves good s id = true -> client_id id = true.
Proof. unfold behaves. by destruct (client_id id). Qed.

Lemma batch_patch_look s s' id b x y : look s' = look s -> batch_patch s' id b x y <-> batch_patch s id b x y.
Proof.
  intros L. assert (E : sc_layers (sn_scene s') = sc_layers (sn_scene s)) by (unfold look in L; congruence).
  unfold batch_patch, surface_patch, shows_surface, layer_at. by rewrite E, (look_count _ _ L).
Qed.

(** A composition that has something to draw. *)
Lemma compose_drawn_ok s px : scene_ok s -> sn_display s = Some px -> sx_region_is_empty (due s) = false ->
  let s' := fst (scene_compose assets s) in
  scene_ok s' /\
  (forall x y, settled s' x y -> forall id, behaves good s id = true -> ~ pending_patch s id x y) /\
  (forall x y, on_display s x y = true -> screen_pixel s' x y = composed_pixel assets s x y (screen_pixel s x y)) /\
  sn_damage s' = sx_region_clear /\ look s' = look s /\ sn_display_info s' = sn_display_info s /\
  target_cursor s' = target_cursor s /\
  forall x y, cursor_pixel assets (sn_cursor_drawn s') x y = cursor_pixel assets (target_cursor s) x y.
Proof.
  intros Hok Hpx He s'. pose proof Hok as [A1 A2 A3 A4 A5 A6 A7].
  destruct A4 as [A4|A4]; [congruence|].
  destruct (compose_effect assets s A4 A2 (backed_drawable s A5) (proj1 A3) He) as (E1 & L & E3 & E4 & E5 & E6 & E7 & E8 & E9).
  fold s' in L, E3, E4, E5, E6, E7, E8, E9.
  pose proof (fun id => compose_surfaces s px id Hpx He A1) as Hsu. fold s' in Hsu.
  assert (Hbe : forall id, behaves good s' id = behaves good s id) by (intros; by apply behaves_look).
  assert (Hcs : forall id, behaves good s id = true -> surface s' id = compose_surface (surface s id))
    by (intros id Hb; by rewrite Hsu, (behaves_client _ _ Hb)).
  split; [|split; [|split; [done|]]].
  - constructor.
    + unfold all_surfaces, zlen in *. by rewrite (look_length s s').
    + rewrite E3. apply empty_region_ok.
    + by rewrite (look_count _ _ L).
    + by right.
    + intros id. by eapply look_backed.
    + intros i. assert (E : sc_layers (sn_scene s') = sc_layers (sn_scene s)) by (unfold look in L; congruence).
      rewrite E. apply A6.
    + intros id Hb. rewrite Hbe in Hb. rewrite (Hcs id Hb). by apply compose_surface_ok, A7.
  - intros x y (_ & _ & _ & H4) id Hb (k & Hk & Hp). pose proof Hb as Hb'. rewrite <- Hbe in Hb'. apply (H4 id Hb').
    exists k. unfold slot in *. rewrite (Hcs id Hb), compose_surface_batches.
    destruct (compose_surface_ok _ (A7 id Hb)) as (_ & -> & -> & _). split; [done|]. by apply (batch_patch_look s).
  - split_and!; try done. by apply target_cursor_same.
Qed.

Lemma due_empty_points s x y : region_ok (sn_damage s) -> on_display s x y = true ->
  ~ in_region (due s) x y -> ~ in_region (sn_damage s) x y.
Proof. intros Hd Hon H K. apply H, due_points; done. Qed.

Lemma compose_keeps s : scene_ok s -> compose_fits s ->
  scene_ok (fst (scene_compose assets s)) /\
  forall x y, faithful s x y -> faithful (fst (scene_compose assets s)) x y.
Proof.
  intros Hok Hfit. destruct (sn_display s) as [px|] eqn:Epx; [destruct (sx_region_is_empty (due s)) eqn:Ee|].
  2:{ destruct (compose_drawn_ok s px Hok Epx Ee) as (K1 & K2 & K3 & K4 & L & K5 & K6 & K7). split; [done|].
      set (s' := fst (scene_compose assets s)) in *. intros x y Hf f Hs Hfr Ht. pose proof Hs as (Hon & _ & _ & _).
      rewrite (on_display_info s s') in Hon by done. rewrite K6, K7, (look_sample _ _ _ _ _ L).
      split; [|done]. rewrite K3 by done. rewrite (look_layer _ _ _ L). rewrite (look_front _ _ _ _ L) in Hfr.
      unfold composed_pixel. pose proof Hok as [A1 A2 A3 A4 A5 A6 A7]. pose proof (due_ok s A2) as Hd.
      destruct (sx_region_contains_point (due s) x y) eqn:Ec.
      - f_equal. apply region_contains_iff in Ec; [|done]. apply stacked_damaged; (done || lia).
      - assert (Hnd : ~ in_region (due s) x y) by (rewrite <- region_contains_iff by done; congruence).
        rewrite stacked_undamaged by (try done; lia).
        apply Hf; [|done|by rewrite <- (look_layer _ _ _ L)]. split; [done|]. split; [congruence|].
        split; [by eapply due_empty_points|]. by apply K2. }
  all: rewrite compose_idle by tauto; cbn [fst]; pose proof Hok as [A1 A2 A3 A4 A5 A6 A7]; pose proof (due_ok s A2) as Hd.
  all: split; [by constructor|].
  all: intros x y Hf; eapply faithful_keep; [exact Hf|]; intros (H1 & H2 & H3 & H4) f Hfr Ht.
  all: split; [split; [done|split; [done|split; [by apply due_empty_points|done]]]|].
  all: done.
Qed.

(** *** Writing into a section *)

Section Write.
Context (s : scene) (id : Z) (v : scene_surface).
Context (Hok : scene_ok s) (Hid : in_array s id) (Hext : extent v = extent (surface s id)).
#[local] Abbreviation s' := (set_surface id v s).

Lemma write_extent i : extent (surface s' i) = extent (surface s i).
Proof. rewrite surface_set by done. destruct (id =? i) eqn:E; [|done]. by replace i with id by lia. Qed.

Lemma write_behaves i : behaves good s' i = behaves good s i.
Proof. pose proof (write_extent i) as E. unfold extent in E. unfold behaves. congruence. Qed.

Lemma write_front x y : front_layer s' x y = front_layer s x y.
Proof.
  assert (H : forall i, layer_covers s' i x y = layer_covers s i x y) by (intros i; apply covers_extent; [done|apply write_extent]).
  apply front_same; intros i Hi Hc; rewrite H in *; (split; [apply Hi|done]).
Qed.

Lemma write_ok :
  (su_in_use v = true -> su_pixels v <> None) -> (behaves good s id = true -> frames_ok v) -> scene_ok s'.
Proof.
  intros Hpx Hfr. destruct Hok. constructor; try done.
  - unfold all_surfaces, zlen in *. unfold set_surface, set_surfaces. cbn [sn_surfaces]. by rewrite length_set_at.
  - intros i. unfold backed in *. specialize (ok_backed0 i). rewrite surface_set by done.
    destruct (id =? i) eqn:E; [|done]. replace i with id in * by lia. unfold extent in Hext.
    replace (su_in_use v) with (su_in_use (surface s id)) in * by congruence.
    replace (su_pitch v) with (su_pitch (surface s id)) by congruence.
    replace (su_capacity_width v) with (su_capacity_width (surface s id)) by congruence.
    intros Hu. destruct (ok_backed0 Hu) as (_ & B2). by split; [apply Hpx|].
  - intros i Hb. rewrite write_behaves in Hb. rewrite surface_set by done.
    destruct (id =? i) eqn:E; [|by apply ok_frames0]. replace i with id in * by lia. by apply Hfr.
Qed.

Lemma write_sample layer x y : ly_surface_id layer <> id -> layer_sample s' layer x y = layer_sample s layer x y.
Proof.
  intros Hne. apply sample_extent; [by rewrite surface_set_ne|]. unfold backing. case_if; [done|]. by rewrite surface_set_ne.
Qed.

Lemma write_faithful x y :
  (behaves good s id = true -> pending_patch s id x y -> pending_patch s' id x y) ->
  (forall f, settled s' x y -> front_layer s x y = Some f -> ly_surface_id (layer_at s f) = id -> trusted id = true ->
     layer_sample s' (layer_at s f) x y = layer_sample s (layer_at s f) x y) ->
  faithful s x y -> faithful s' x y.
Proof.
  intros Hpend Hsam Hf. eapply faithful_keep; [exact Hf|]. intros Hs f Hfr Ht. rewrite write_front in Hfr.
  split; [|split; [done|split; [done|split; [|done]]]].
  - destruct Hs as (H1 & H2 & H3 & H4). split; [done|]. split; [done|]. split; [done|].
    intros i Hb Hp. apply (H4 i); [by rewrite write_behaves|]. destruct (decide (i = id)) as [->|Hne]; [by apply Hpend|].
    destruct Hp as (k & Hk & Hp). exists k. rewrite !surface_set_ne by done. split; [done|].
    by apply (batch_patch_same s).
  - change (layer_at s' f) with (layer_at s f) in *.
    destruct (decide (ly_surface_id (layer_at s f) = id)) as [E|E]; [|by apply write_sample].
    apply Hsam; try done. by rewrite <- E.
Qed.
End Write.

(** A client paints a frame: a frame of rectangles changes nothing outside them. *)
Definition repaints (ctx : wm_client) (f : client_frame) (u : scene_surface) (px px' : list Z) : Prop :=
  match f with
  | FullFrame => True
  | RectFrame rects =>
      forall column row, 0 <= column < su_capacity_width u -> 0 <= row < su_capacity_height u ->
        (forall d, d ∈ clipped ctx rects -> ~ in_rect (dirty_sx d) column row) ->
        at_ 0 px' (row * (su_pitch u / 4) + column) = at_ 0 px (row * (su_pitch u / 4) + column)
  end.

Lemma live_source s l : layer_live s l = true -> rect_int32 (ly_src l) ->
  let u := surface s (ly_surface_id l) in
  0 <= rx (ly_src l) /\ 0 <= ry (ly_src l) /\
  rx (ly_src l) + rw (ly_src l) <= su_capacity_width u /\ ry (ly_src l) + rh (ly_src l) <= su_capacity_height u.
Proof.
  intros Hl (I1 & I2 & I3 & I4). destruct (layer_live_valid _ _ Hl) as [_ Hv]. unfold int32 in *.
  unfold layer_source_valid in Hv. cbv zeta in *. unfold u32 in Hv. rewrite !Z.mod_small in Hv by lia. lia.
Qed.

(** Outside what its batch damages, a painted frame shows as before. *)
Lemma repaint_sample s s' id ctx f b px px' layer index x y :
  shows_surface s id index -> layer_at s index = layer -> id <> SAVANXP_COMPOSITOR_SURFACE_WM -> rect_int32 (ly_src layer) ->
  layer_live s layer = true -> in_rect (ly_dst layer) x y ->
  backing s id = Some px -> backing s' id = Some px' -> extent (surface s' id) = extent (surface s id) ->
  su_pitch (surface s id) <> 0 -> frame_batch ctx f b -> repaints ctx f (surface s id) px px' ->
  ~ batch_patch s id b x y -> layer_sample s' layer x y = layer_sample s layer x y.
Proof.
  intros Hsh <- Hid Hint Hl Hdst Hb Hb' Hext Hpitch Hfb Hre Hnp. pose proof Hsh as [_ Hsid].
  set (l := layer_at s index) in *.
  assert (Hp : ~ in_rect (ly_dst l) x y \/ is_full b = false /\ layer_scaled l = false /\
    forall d, d ∈ batch_list b -> ~ in_rect (layer_patch l (dirty_sx d) false) x y).
  { unfold batch_patch in Hnp. destruct (is_full b) eqn:Ef; [left; intros K; apply Hnp; by exists index|].
    destruct f as [|rects]; [by simpl in Hfb; congruence|]. destruct Hfb as [?|(_ & _ & El & Hne)]; [congruence|].
    assert (Hall : forall d, d ∈ batch_list b -> ~ in_rect (layer_patch l (dirty_sx d) false) x y)
      by (intros d Hd K; apply Hnp; exists d; split; [done|by exists index]).
    destruct (layer_scaled l) eqn:Esc; [|by right].
    left. destruct (clipped ctx rects) as [|d rest]; [done|]. specialize (Hall d). rewrite El in Hall.
    unfold layer_patch in Hall. rewrite Esc in Hall. apply Hall. by constructor. }
  destruct Hp as [?|(Ef & Esc & Hall)]; [done|]. destruct f as [|rects]; [simpl in Hfb; congruence|].
  destruct Hfb as [?|(_ & _ & El & _)]; [congruence|]. rewrite El in Hall.
  unfold layer_sample, layer_pixels, backing in *. rewrite Hsid. rewrite Esc, Hb, Hb'. f_equal.
  unfold source_pixel, layer_bitmap, sx_bitmap_wrap, target_pixels, gfx_stride_pixels. cbn [bm_pixels bm_info fb_pitch].
  unfold extent in Hext. replace (su_pitch (surface s' id)) with (su_pitch (surface s id)) by congruence.
  destruct (su_pitch (surface s id) =? 0) eqn:?; [lia|].
  destruct (live_source s l Hl Hint) as (V1 & V2 & V3 & V4). rewrite Hsid in V3, V4. unfold layer_scaled in Esc.
  unfold in_rect in Hdst. apply Hre; [lia|lia|]. intros d Hd K. apply (Hall d Hd).
  unfold layer_patch, layer_scaled. rewrite Esc. cbn [orb]. apply in_rect_intersect.
  unfold in_rect in *. unfold dirty_sx, sx_rect_make in *. cbn [rx ry rw rh] in *. lia.
Qed.

(** *** Clients *)

Lemma array_client s id : scene_ok s -> client_id id = true -> in_array s id.
Proof.
  intros [H _ _ _ _ _ _] Hc. unfold all_surfaces, in_array, client_id, SAVANXP_COMPOSITOR_SURFACE_WM in *. lia.
Qed.

(** A surface with other pixels. *)
Definition repainted (px : list Z) (u : scene_surface) : scene_surface :=
  mk_surface (su_in_use u) (su_broken u) (su_flags u) (su_section_size u) (su_header u) (su_batches u) (Some px)
    (su_pitch u) (su_capacity_width u) (su_capacity_height u) (su_wake_event u)
    (su_consumed u) (su_compose_pending u) (su_retire_pending u).

(** A client paints into the memory it shares: nobody is told. *)
Definition client_paint (id : Z) (px : list Z) (s : scene) : scene := set_surface id (repainted px (surface s id)) s.

(** A client submits a frame through sxnwm.h: the header and the batches change,
    the pixels are what they were. *)
Definition client_submit (ctx : wm_client) (id : Z) (f : client_frame) (event_result : Z) (s : scene) : scene :=
  let u := surface s id in
  match su_header u with
  | None => s
  | Some h =>
      let '(h', batches', _) := submit ctx f event_result h (su_batches u) in
      set_surface id (with_section u h' batches' (su_pixels u)) s
  end.

(** What it painted, [b], is what its frame says. *)
Definition may_paint (ctx : wm_client) (id : Z) (f : client_frame) (b : dirty_rect_batch) (px : list Z) (s : scene) : Prop :=
  behaves good s id = true /\ frame_batch ctx f b /\ repaints ctx f (surface s id) (default [] (su_pixels (surface s id))) px.

Definition may_submit (ctx : wm_client) (id : Z) (f : client_frame) (s : scene) : Prop :=
  let u := surface s id in
  behaves good s id = true /\ context_fits ctx u /\ frame_u32 f /\ submitted u + 1 < 2 ^ 63.

Lemma client_submit_cases ctx id f er s :
  scene_ok s -> may_submit ctx id f s ->
  exists h h' batches', su_header (surface s id) = Some h /\
    client_submit ctx id f er s = set_surface id (with_section (surface s id) h' batches' (su_pixels (surface s id))) s /\
    ((h' = h /\ batches' = su_batches (surface s id)) \/
     exists b, publishes ctx f h (su_batches (surface s id)) h' batches' b).
Proof.
  intros Hok (Hb & Hc & Hf & Hmax). pose proof (ok_frames s Hok id Hb) as (_ & _ & _ & h & Hh & (Q1 & Q2 & _) & [R1 R1'] & R2 & _).
  unfold client_submit. rewrite Hh. pose proof (submit_spec ctx f er h (su_batches (surface s id)) _ Hc (conj R1 R1')) as Hs.
  destruct (submit ctx f er h _) as [[h' batches'] r]. exists h, h', batches'. split; [done|]. split; [done|].
  destruct Hs as [(-> & -> & _)|(b & Hb')]; [by left|right; by exists b].
Qed.

Lemma trusted_client s id : behaves good s id = true -> id <> SAVANXP_COMPOSITOR_SURFACE_WM.
Proof. unfold behaves, client_id, SAVANXP_COMPOSITOR_SURFACE_WM. lia. Qed.

Lemma behaves_in_use s id : behaves good s id = true -> su_in_use (surface s id) = true.
Proof. unfold behaves. destruct (su_in_use (surface s id)); [done|]. by rewrite andb_false_r. Qed.

Lemma paint_keeps ctx id f b px s : scene_ok s -> may_paint ctx id f b px s ->
  let s' := client_paint id px s in
  scene_ok s' /\ forall x y, ~ batch_patch s id b x y -> faithful s x y -> faithful s' x y.
Proof.
  intros Hok (Hb & Hfb & Hre) s'. pose proof (array_client s id Hok (behaves_client _ _ Hb)) as Hid.
  pose proof (trusted_client s id Hb) as Hnw. destruct (ok_backed s Hok id (behaves_in_use s id Hb)) as (B1 & _ & B3 & _).
  unfold s', client_paint. set (v := repainted px (surface s id)).
  assert (Hext : extent v = extent (surface s id)) by done. split.
  { apply write_ok; [done|done|done|done|]. intros _. exact (ok_frames s Hok id Hb). }
  intros x y Hnp. apply write_faithful; try done.
  - intros _ (k & Hk & Hp). exists k. rewrite surface_set_eq by done. split; [exact Hk|]. by apply (batch_patch_same s).
  - intros i _ Hfr Hlid _. pose proof (front_covers s x y i Hfr) as (F1 & _ & F3 & F4).
    assert (Hbk : backing s id = Some (default [] (su_pixels (surface s id)))).
    { unfold backing. destruct (id =? _) eqn:?; [lia|]. destruct (su_pixels (surface s id)); [done|congruence]. }
    eapply (repaint_sample s _ id ctx f b _ px _ i); try done.
    + apply (ok_layers s Hok).
    + unfold backing. destruct (id =? _) eqn:?; [lia|]. by rewrite surface_set_eq.
    + by apply write_extent.
Qed.

(** A submission only adds to what is pending: a batch for the frame, if the ring
    has room. *)
Lemma submit_keeps ctx id f er s : scene_ok s -> may_submit ctx id f s ->
  let s' := client_submit ctx id f er s in
  scene_ok s' /\ (forall x y, faithful s x y -> faithful s' x y) /\
  (submitted (surface s' id) = submitted (surface s id) \/
   exists b, frame_batch ctx f b /\ forall x y, batch_patch s id b x y -> pending_patch s' id x y).
Proof.
  intros Hok Hmay s'. destruct (client_submit_cases ctx id f er s Hok Hmay) as (h & h' & bs & Hh & E & Hcase).
  destruct Hmay as (Hb & Hc & Hf & Hmax). pose proof (array_client s id Hok (behaves_client _ _ Hb)) as Hid.
  unfold s'. rewrite E. set (v := with_section (surface s id) h' bs (su_pixels (surface s id))) in *.
  assert (Hext : extent v = extent (surface s id)) by done.
  assert (Hpx : su_in_use v = true -> su_pixels v <> None).
  { intros _. exact (proj1 (ok_backed s Hok id (behaves_in_use s id Hb))). }
  assert (Hsam : forall i x y, layer_sample (set_surface id v s) (layer_at s i) x y = layer_sample s (layer_at s i) x y).
  { intros i x y. apply sample_extent.
    - rewrite surface_set by done. destruct (id =? _) eqn:Ei; [|done]. by replace (ly_surface_id (layer_at s i)) with id by lia.
    - unfold backing. case_if; [done|]. rewrite surface_set by done. destruct (id =? _) eqn:Ei; [|done].
      by replace (ly_surface_id (layer_at s i)) with id by lia. }
  destruct Hcase as [[-> ->]|(b & Hpub)].
  - assert (Ev : v = surface s id) by (unfold v; destruct (surface s id); cbn in *; by rewrite Hh).
    split; [apply write_ok; try done; intros _; rewrite Ev; exact (ok_frames s Hok id Hb)|]. split; [|left; rewrite surface_set_eq by done; by rewrite Ev].
    intros x y. apply write_faithful; try done.
    intros _ (k & Hk & Hp). exists k. rewrite surface_set_eq, Ev by done. split; [exact Hk|]. by apply (batch_patch_same s).
  - unfold submitted in Hmax. rewrite Hh in Hmax.
    destruct (publishes_ok ctx f _ h _ h' bs b (su_pixels (surface s id)) Hc Hf (ok_frames s Hok id Hb) Hh eq_refl Hmax Hpub) as (P1 & P2 & P3 & P4).
    fold v in P1, P2, P3, P4. split; [by apply write_ok|].
    pose proof (ok_frames s Hok id Hb) as (_ & _ & _ & h0 & Hh0 & (_ & Q2 & _) & _).
    assert (submitted (surface s id) = hd_submit_sequence h0) by (unfold submitted; by rewrite Hh0). split.
    + intros x y. apply write_faithful; try done.
      intros _ (k & Hk & Hp). exists k. rewrite surface_set_eq by done. rewrite P4 by done.
      change (su_consumed v) with (su_consumed (surface s id)). split; [lia|]. by apply (batch_patch_same s).
    + right. exists b. split; [apply Hpub|]. intros x y K. exists (submitted v). rewrite surface_set_eq by done.
      rewrite P3. change (su_consumed v) with (su_consumed (surface s id)). split; [lia|]. by apply (batch_patch_same s).
Qed.

(** Any other client writes what it likes. *)
Definition client_write (id : Z) (h : client_header) (batches : list dirty_rect_batch) (px : list Z) (s : scene) : scene :=
  set_surface id (with_section (surface s id) h batches (Some px)) s.

Lemma client_write_keeps id h bs px s : scene_ok s -> client_id id = true -> good id = false ->
  let s' := client_write id h bs px s in
  scene_ok s' /\ forall x y, faithful s x y -> faithful s' x y.
Proof.
  intros Hok Hc Hg s'. pose proof (array_client s id Hok Hc) as Hid.
  assert (Hnb : behaves good s id = false) by (unfold behaves; by rewrite Hg, andb_false_r).
  split; [by apply write_ok; rewrite ?Hnb|]. intros x y. apply write_faithful; [done..|by rewrite Hnb|].
  intros i _ _ _ Ht. unfold trusted in Ht. rewrite Hg in Ht. unfold client_id, SAVANXP_COMPOSITOR_SURFACE_WM in *. lia.
Qed.

(** The WM paints on its own surface: nothing shows before it is staged. *)
Definition wm_paint (px : list Z) (s : scene) : scene :=
  set_surface SAVANXP_COMPOSITOR_SURFACE_WM (repainted px (surface s SAVANXP_COMPOSITOR_SURFACE_WM)) s.

Lemma wm_paint_keeps px s : scene_ok s ->
  scene_ok (wm_paint px s) /\ forall x y, faithful s x y -> faithful (wm_paint px s) x y.
Proof.
  intros Hok. assert (Hid : in_array s SAVANXP_COMPOSITOR_SURFACE_WM).
  { pose proof (ok_array s Hok) as H. unfold all_surfaces, in_array in *. rewrite H. done. }
  assert (Hnb : behaves good s SAVANXP_COMPOSITOR_SURFACE_WM = false) by done.
  split; [by apply write_ok; rewrite ?Hnb|]. intros x y. apply write_faithful; [done..|].
  intros f _ _ E _. apply sample_extent; [by rewrite E, surface_set_eq|]. unfold backing. by rewrite E.
Qed.

(** *** Attaching and detaching *)

(** [s'] is [s] with another surface [id] (and its stage, if the WM's). *)
Definition swaps (s s' : scene) (id : Z) : Prop :=
  (forall i, i <> id -> surface s' i = surface s i) /\ length (sn_surfaces s') = length (sn_surfaces s) /\
  (id <> SAVANXP_COMPOSITOR_SURFACE_WM -> sn_stage s' = sn_stage s) /\
  sn_scene s' = sn_scene s /\ sn_layer_count s' = sn_layer_count s /\
  sn_display s' = sn_display s /\ sn_display_info s' = sn_display_info s /\ sn_damage s' = sn_damage s /\
  sn_software_cursor s' = sn_software_cursor s /\ sn_cursor s' = sn_cursor s /\ sn_cursor_drawn s' = sn_cursor_drawn s.

Lemma layer_patch_inside l r w x y : in_rect (layer_patch l r w) x y -> in_rect (ly_dst l) x y.
Proof. unfold layer_patch. destruct (_ || _); [done|]. by intros [_ H]%in_rect_intersect. Qed.

Lemma batch_patch_inside s id b x y : batch_patch s id b x y ->
  exists index, shows_surface s id index /\ in_rect (ly_dst (layer_at s index)) x y.
Proof.
  unfold batch_patch. destruct (is_full b); [intros (i & H1 & H2)|intros (r & _ & i & H1 & H2)];
    exists i; (split; [done|by eapply layer_patch_inside]).
Qed.

Lemma swaps_ok s s' id : swaps s s' id -> scene_ok s -> backed s' id ->
  (behaves good s' id = true -> frames_ok (surface s' id)) -> scene_ok s'.
Proof.
  intros (W1 & W2 & W3 & W4 & W5 & W6 & W7 & W8 & _) [] Hb Hf. constructor.
  - unfold all_surfaces, zlen in *. by rewrite W2.
  - by rewrite W8.
  - by rewrite W5.
  - rewrite W6. destruct ok_display0; [by left|right; by eapply display_ok_same].
  - intros i. destruct (decide (i = id)) as [->|Hne]; [done|]. unfold backed in *. rewrite W1 by done.
    intros Hu. destruct (ok_backed0 i Hu) as (B1 & B2 & B3 & B4). split; [done|]. split; [done|]. split; [done|].
    intros ->. rewrite W3 by done. by apply B4.
  - by rewrite W4.
  - intros i Hbi. destruct (decide (i = id)) as [->|Hne]; [by apply Hf|]. rewrite W1 by done.
    apply ok_frames0. unfold behaves in *. by rewrite W1 in Hbi.
Qed.

Lemma swaps_faithful s s' id x y : swaps s s' id ->
  (settled s' x y -> forall index, shows_surface s id index -> ~ in_rect (ly_dst (layer_at s index)) x y) ->
  faithful s x y -> faithful s' x y.
Proof.
  intros (W1 & W2 & W3 & W4 & W5 & W6 & W7 & W8 & W9 & W10 & W11) Hno Hf. eapply faithful_keep; [exact Hf|].
  intros Hs f Hfr Ht. specialize (Hno Hs).
  assert (El : forall i, layer_at s' i = layer_at s i) by (intros i; unfold layer_at; by rewrite W4).
  assert (Hc : forall i, 0 <= i < sn_layer_count s -> layer_covers s' i x y = layer_covers s i x y).
  { intros i Hi. destruct (decide (ly_surface_id (layer_at s i) = id)) as [E|E].
    - unfold layer_covers. rewrite El.
      destruct (sx_rect_contains_point (ly_dst (layer_at s i)) x y) eqn:K; [|by rewrite !andb_false_r].
      apply contains_point_iff in K. destruct (Hno i); [by split|done].
    - apply covers_extent; [done|]. by rewrite W1. }
  assert (Efr : front_layer s' x y = front_layer s x y).
  { apply front_same; rewrite W5; intros i Hi Hci; (split; [lia|]); [by rewrite <- Hc|by rewrite Hc]. }
  rewrite Efr in Hfr. pose proof (front_covers s x y f Hfr) as (F1 & _ & F3 & _).
  assert (Hne : ly_surface_id (layer_at s f) <> id) by (intros E; apply (Hno f); [by split|done]).
  split; [|split; [done|split; [done|split; [|split]]]].
  - destruct Hs as (H1 & H2 & H3 & H4). split; [by rewrite <- (on_display_info s s')|]. split; [congruence|].
    split; [by rewrite <- W8|]. intros i Hb (k & Hk & Hp).
    destruct (decide (i = id)) as [->|Hi]; [apply batch_patch_inside in Hp as (j & J1 & J2); by apply (Hno j)|].
    apply (H4 i); [unfold behaves in *; by rewrite W1|]. exists k. rewrite W1 by done. split; [done|]. by apply (batch_patch_same s).
  - rewrite El. apply sample_extent; [by rewrite W1|]. unfold backing. rewrite W1 by done. case_if; [|done].
    apply W3. lia.
  - by apply screen_pixel_same.
  - rewrite (target_cursor_same s s') by done. by rewrite W11.
Qed.

Lemma calls_pictures s c : same_pictures s (call c s).
Proof. done. Qed.
Lemma close_pictures s h : same_pictures s (close_handle h s).
Proof. unfold close_handle. by case_if. Qed.

(** Only system calls were made. *)
Lemma quiet_keeps s s' : same_pictures s s' -> (forall id, surface s' id = surface s id) -> scene_ok s ->
  scene_ok s' /\ forall x y, faithful s x y -> faithful s' x y.
Proof.
  intros S Hsu Hok. destruct (frames_step_ok s s' id S) as [H1 H2]; [intros i; rewrite Hsu; by destruct (client_id i)|done|done|].
  split; [done|]. intros x y Hf. eapply faithful_pictures; [apply damaged_none|exact S|apply H2|exact Hf].
Qed.

(** The surface an attach creates. *)
Definition attached (desc : compositor_surface) (wake_event : Z) (view : section_view) : scene_surface :=
  let client := has_flag (ds_flags desc) SAVANXP_COMPOSITOR_SURFACE_CLIENT in
  mk_surface true false (ds_flags desc) (ds_section_size desc)
    (if client then Some (vw_header view) else None)
    (if client then vw_batches view else []) (Some (vw_pixels view))
    (ds_pitch desc) (ds_capacity_width desc) (ds_capacity_height desc)
    (if client then wake_event else -1) 0 0 0.

(** The WM attaches a surface no layer names yet; a good client's holds only
    what sxnwm.h published. *)
Definition may_attach (desc : compositor_surface) (wake_event : Z) (mapped : res Z section_view) (s : scene) : Prop :=
  0 <= ds_surface_id desc /\ 0 <= ds_capacity_width desc /\
  (forall index, ~ shows_surface s (ds_surface_id desc) index) /\
  forall view, mapped = Ok view -> good (ds_surface_id desc) = true -> client_id (ds_surface_id desc) = true ->
    frames_ok (attached desc wake_event view).

Lemma swaps_trans s1 s2 s3 id : swaps s1 s2 id -> swaps s2 s3 id -> swaps s1 s3 id.
Proof. unfold swaps. intros (A1 & A2 & A3 & A) (B1 & B2 & B3 & B). split_and!; [|intuition congruence..]. intros i Hi. by rewrite B1, A1. Qed.
Lemma swaps_call s id c : swaps s (call c s) id.
Proof. done. Qed.
Lemma swaps_close s id h : swaps s (close_handle h s) id.
Proof. unfold close_handle. by case_if. Qed.
Lemma swaps_set s id u : swaps s (set_surface id u s) id.
Proof.
  split; [intros i Hi; by apply surface_set_ne|]. split; [|done].
  cbn [set_surface set_surfaces sn_surfaces]. apply length_set_at.
Qed.
Lemma swaps_stage s id section st : id = SAVANXP_COMPOSITOR_SURFACE_WM -> swaps s (set_stage section st s) id.
Proof. intros ->. by split. Qed.
Lemma swaps_broken s id bits : swaps s (set_broken bits s) id.
Proof. done. Qed.
Lemma swaps_release s id : swaps s (release_surface id s) id.
Proof.
  unfold release_surface. eapply swaps_trans; [|apply swaps_set]. eapply swaps_trans; [|apply swaps_close].
  by case_if.
Qed.
Lemma swaps_array s s' id i : swaps s s' id -> in_array s i -> in_array s' i.
Proof. intros (_ & H & _). unfold in_array, zlen. by rewrite H. Qed.
Lemma unused_backed s id : su_in_use (surface s id) = false -> backed s id.
Proof. unfold backed. congruence. Qed.
Lemma release_surface_at s id : in_array s id -> surface (release_surface id s) id = surface0.
Proof.
  intros H. unfold release_surface. apply surface_set_eq. eapply (swaps_array _ _ id); [apply swaps_close|]. by case_if.
Qed.

(** What an attach does: nothing but calls, a new surface, or an empty one. *)
Lemma attach_cases desc section wake mapped staged s :
  all_surfaces s -> 0 <= ds_surface_id desc ->
  let s' := fst (scene_attach desc section wake mapped staged s) in
  let id := ds_surface_id desc in
  (same_pictures s s' /\ forall i, surface s' i = surface s i) \/
  (swaps s s' id /\ attach_refused s desc = false /\
   ((exists view, mapped = Ok view /\ surface s' id = attached desc wake view /\
       (id = SAVANXP_COMPOSITOR_SURFACE_WM -> sn_stage s' <> None)) \/
    surface s' id = surface0)).
Proof.
  intros Hall H0 s' id. unfold s', scene_attach. destruct (attach_refused s desc) eqn:Er.
  { left. unfold close_handle. split; [|intros i]; repeat case_if; done. }
  destruct mapped as [view|e]; [|left; unfold close_handle; split; [|intros i]; repeat case_if; done].
  assert (Hid : in_array s id).
  { unfold attach_refused in Er. unfold in_array, all_surfaces in *. rewrite Hall. fold id in Er, H0.
    destruct (_ || _) eqn:E in Er; [done|]. lia. }
  assert (Hflag : has_flag (ds_flags desc) SAVANXP_COMPOSITOR_SURFACE_CLIENT = negb (id =? SAVANXP_COMPOSITOR_SURFACE_WM)).
  { unfold attach_refused in Er. destruct (_ || _) in Er; [done|]. destruct (negb (eqb _ _)) eqn:E in Er; [done|].
    apply negb_false_iff, eqb_prop in E. exact E. }
  right. fold (attached desc wake view). fold id.
  assert (W1 : swaps s (set_surface id (attached desc wake view) (call (CloseHandle section) s)) id)
    by (eapply swaps_trans; [apply swaps_call|apply swaps_set]).
  set (s1 := set_surface id _ _) in *. assert (Hid1 : in_array s1 id) by (by eapply swaps_array).
  assert (E1 : surface s1 id = attached desc wake view) by by apply surface_set_eq.
  rewrite Hflag. destruct (id =? SAVANXP_COMPOSITOR_SURFACE_WM) eqn:Ew; cbn [negb fst].
  2:{ split; [done|]. split; [done|]. left. exists view. split; [done|]. split; [done|]. lia. }
  assert (Hw : id = SAVANXP_COMPOSITOR_SURFACE_WM) by lia.
  assert (W2 : swaps s (close_handle wake s1) id) by (eapply swaps_trans; [exact W1|apply swaps_close]).
  assert (E2 : surface (close_handle wake s1) id = attached desc wake view) by (unfold close_handle; by case_if).
  set (s2 := close_handle wake s1) in *. assert (Hid2 : in_array s2 id) by (by eapply swaps_array).
  destruct staged as [[stage [pixels|e]]|e]; cbn [fst]; (split; [|split; [done|]]).
  - eapply swaps_trans; [exact W2|]. by apply swaps_stage.
  - left. exists view. done.
  - eapply swaps_trans; [exact W2|]. eapply swaps_trans; [|apply swaps_release]. apply swaps_call.
  - right. by apply release_surface_at.
  - eapply swaps_trans; [exact W2|]. apply swaps_release.
  - right. by apply release_surface_at.
Qed.

Lemma attach_keeps desc section wake mapped staged s :
  scene_ok s -> may_attach desc wake mapped s ->
  let s' := fst (scene_attach desc section wake mapped staged s) in
  scene_ok s' /\ forall x y, faithful s x y -> faithful s' x y.
Proof.
  intros Hok (H0 & Hw & Hno & Hgood) s'.
  destruct (attach_cases desc section wake mapped staged s (ok_array s Hok) H0) as [[S Hsu]|(W & Hr & Hc)];
    [by apply quiet_keeps|]. subst s'.
  split; [|intros x y; eapply swaps_faithful; [exact W|]; intros _ i Hi; by destruct (Hno i)].
  assert (Hdesc : ds_capacity_width desc <= ds_pitch desc / 4 /\ ds_pitch desc <> 0).
  { unfold attach_refused in Hr. destruct (_ || _) eqn:E in Hr; [done|]. lia. }
  destruct Hc as [(view & -> & E & Hst)|E].
  - eapply swaps_ok; [exact W|done|unfold backed; rewrite E; intros _|].
    + split; [done|]. cbn [attached su_capacity_width su_pitch]. split; [lia|]. split; [apply Hdesc|]. done.
    + rewrite E. unfold behaves. intros Hb. apply Hgood; [done|..]; destruct (good _), (client_id _); done.
  - eapply swaps_ok; [exact W|done|by unfold backed; rewrite E|]. unfold behaves. rewrite E. by rewrite andb_false_r.
Qed.

Lemma in_use_array s id : su_in_use (surface s id) = true -> in_array s id.
Proof.
  unfold in_array, surface, at_, zlen. destruct (id <? 0) eqn:?; [done|]. intros H.
  destruct (decide (id < Z.of_nat (length (sn_surfaces s)))); [lia|]. by rewrite nth_overflow in H by lia.
Qed.

(** A detach damages what the surface showed, then lets it go. *)
Lemma detach_cases id s : scene_detach id s = s \/
  exists s1, damaged s s1 (surface_patch s id (sx_rect_make 0 0 0 0) true) /\
    swaps s1 (scene_detach id s) id /\ surface (scene_detach id s) id = surface0.
Proof.
  unfold scene_detach. destruct (surface_at s id) as [u|] eqn:E; [right|by left].
  assert (Hid : in_array s id) by (apply in_use_array; unfold surface_at in E; destruct (_ || _) eqn:?; [done|lia]).
  destruct (damage_surface_rect id _ true s) as [s1 shown] eqn:Ed. apply damage_surface_spec in Ed as [D _].
  exists s1. split; [done|]. cbn [fst].
  match goal with |- context [release_surface id ?q] => set (s2 := q) end.
  assert (W : swaps s1 s2 id).
  { unfold s2. destruct (sn_stage s1); [|done]. case_if; [|done].
    eapply swaps_trans; [|apply swaps_stage; lia]. done. }
  assert (Hid2 : in_array s2 id) by (eapply swaps_array; [exact W|]; by destruct D as [-> _]).
  split; [|by apply release_surface_at].
  eapply swaps_trans; [exact W|]. eapply swaps_trans; [apply swaps_release|apply swaps_broken].
Qed.

Lemma detach_keeps id s : scene_ok s ->
  scene_ok (scene_detach id s) /\ forall x y, faithful s x y -> faithful (scene_detach id s) x y.
Proof.
  intros Hok. destruct (detach_cases id s) as [->|(s1 & D & W & E)]; [done|].
  pose proof (ok_damaged _ _ _ D Hok) as Hok1. split.
  - eapply swaps_ok; [exact W|done|by unfold backed; rewrite E|]. unfold behaves. rewrite E. by rewrite andb_false_r.
  - intros x y Hf. pose proof W as (_ & _ & _ & _ & _ & W6 & W7 & W8 & _).
    eapply swaps_faithful; [exact W| |].
    + intros (H1 & _ & H3 & _) i Hi Hdst. rewrite (on_display_info s1) in H1 by done. rewrite W8 in H3.
      destruct (undamaged_before _ _ _ _ _ _ Hok D (same_pictures_refl s1) H1 H3) as (_ & _ & U). apply U.
      exists i. split; [by apply (damaged_shows _ _ _ _ _ D)|]. destruct D as [E1 _]. rewrite E1 in Hdst. exact Hdst.
    + eapply faithful_pictures; [exact D|done| |exact Hf]. intros (H1 & H2 & H3 & H4).
      destruct (undamaged_before _ _ _ _ _ _ Hok D (same_pictures_refl s1) H1 H3) as (U1 & U2 & _).
      split; [done|]. split; [destruct D as [E1 _]; by rewrite E1 in H2|]. split; [done|]. intros i Hb Hp.
      destruct D as [E1 _]. apply (H4 i); [by rewrite E1|]. by rewrite E1.
Qed.

(** *** The display, the cursor, a reset *)

Lemma no_layers_faithful s x y : sn_layer_count s = 0 -> faithful s x y.
Proof. intros H f _ Hf _. apply front_covers in Hf as [? _]. lia. Qed.

Lemma reset_keeps s : scene_ok s ->
  scene_ok (scene_reset s) /\ forall x y, faithful s x y -> faithful (scene_reset s) x y.
Proof.
  intros Hok. unfold scene_reset. match goal with |- context [for_z 0 ?n ?f s] => set (s1 := for_z 0 n f s) end.
  assert (H1 : scene_ok s1).
  { apply (for_z_ind (fun _ s' => scene_ok s')); [done..|]. intros i s' _ H. case_if; [|done]. by apply detach_keeps. }
  split; [|intros x y _; by apply no_layers_faithful]. destruct H1.
  destruct (sn_shared s1); (constructor; try done; apply empty_region_ok).
Qed.

Lemma set_display_keeps px info s : scene_ok s -> px = None \/ display_ok (set_display px info s) ->
  let s' := scene_set_display px info s in
  scene_ok s' /\ forall x y, faithful s x y -> faithful s' x y.
Proof.
  intros Hok Hd s'. split.
  - destruct Hok. constructor; try done. apply set_rect_ok.
  - intros x y _ f (H1 & _ & H3 & _). exfalso. apply H3, set_rect_points. by apply contains_point_iff.
Qed.

(** The damage of a cursor reaches every point where the cursor shows. *)
Lemma damage_cursor_damaged c s : damaged s (damage_cursor assets c s) (fun x y => cursor_pixel assets c x y <> None).
Proof.
  unfold damage_cursor, cursor_pixel. destruct (cu_visible c); cbn [andb].
  - eapply damaged_weaken; [apply damage_rect_damaged|]. intros x y H. apply contains_point_iff.
    by destruct (sx_rect_contains_point (cursor_bounds assets c) x y).
  - eapply damaged_weaken; [apply damaged_none|]. done.
Qed.

(** Another cursor, where neither it nor the one drawn shows. *)
Lemma cursor_faithful s s1 s2 P software c drawn x y :
  scene_ok s -> s1 = set_cursors software c drawn s -> damaged s1 s2 P ->
  (settled s2 x y -> ~ P x y -> cursor_pixel assets (sn_cursor_drawn s) x y = cursor_pixel assets (target_cursor s) x y ->
     cursor_pixel assets (target_cursor s2) x y = cursor_pixel assets (target_cursor s) x y /\
     cursor_pixel assets (sn_cursor_drawn s2) x y = cursor_pixel assets (target_cursor s2) x y) ->
  faithful s x y -> faithful s2 x y.
Proof.
  intros Hok -> D Hc Hf. assert (Hok1 : scene_ok (set_cursors software c drawn s)) by (destruct Hok; by constructor).
  eapply faithful_keep; [exact Hf|]. intros Hs f Hfr Ht. pose proof Hs as (H1 & H2 & H3 & H4).
  destruct (undamaged_before _ _ _ _ _ _ Hok1 D (same_pictures_refl s2) H1 H3) as (U1 & U2 & U3).
  specialize (Hc Hs U3). destruct D as [E _]. split; [|by rewrite E in Hfr, Hc |- *].
  split; [done|]. split; [by rewrite E in H2|]. split; [done|]. intros i Hb Hp. apply (H4 i); by rewrite E.
Qed.

Lemma hidden_none c x y : cursor_pixel assets (hide c) x y = None.
Proof. done. Qed.

Lemma target_none s x y : cursor_pixel assets (sn_cursor s) x y = None -> cursor_pixel assets (target_cursor s) x y = None.
Proof. intros H. unfold target_cursor. by destruct (sn_software_cursor s). Qed.

Lemma software_cursor_keeps e s : scene_ok s ->
  let s' := scene_set_software_cursor assets e s in
  scene_ok s' /\ forall x y, faithful s x y -> faithful s' x y.
Proof.
  intros Hok s'. unfold s', scene_set_software_cursor. set (s1 := set_cursors _ _ _ s).
  pose proof (damage_cursor_damaged (sn_cursor s1) s1) as D. split.
  - eapply ok_damaged; [exact D|]. destruct Hok. by constructor.
  - intros x y. eapply cursor_faithful; [done|done|exact D|]. intros _ Hno _.
    assert (Hn : cursor_pixel assets (sn_cursor s) x y = None)
      by (destruct (cursor_pixel assets (sn_cursor s) x y) eqn:K; [|done]; exfalso; apply Hno; cbn [s1 set_cursors sn_cursor]; by rewrite K).
    rewrite (target_none s x y Hn). destruct D as [-> _]. rewrite target_none by done. done.
Qed.

Lemma shared_keeps sc s : scene_ok s ->
  scene_ok (set_shared sc s) /\ forall x y, faithful s x y -> faithful (set_shared sc s) x y.
Proof. intros []. split; [by constructor|done]. Qed.

(** *** Commits *)

(** Where a layer changed, appeared or went away. *)
Definition changed_patch (previous : list compositor_layer) (n : Z) (s : scene) (k x y : Z) : Prop :=
  exists i, 0 <= i < k /\ ~ (i < n /\ i < sn_layer_count s /\ at_ layer0 previous i = layer_at s i) /\
    ((i < n /\ in_rect (ly_dst (at_ layer0 previous i)) x y) \/
     (i < sn_layer_count s /\ in_rect (ly_dst (layer_at s i)) x y)).

(** One more layer looked at. *)
Lemma changed_patch_step prev n s k x y (H : Prop) : 0 <= k ->
  (~ (k < n /\ k < sn_layer_count s /\ at_ layer0 prev k = layer_at s k) ->
   (k < n /\ in_rect (ly_dst (at_ layer0 prev k)) x y) \/ (k < sn_layer_count s /\ in_rect (ly_dst (layer_at s k)) x y) -> H) ->
  changed_patch prev n s (k + 1) x y -> changed_patch prev n s k x y \/ H.
Proof using Type.
  intros Hk Hn (i & Hi & Hc & Hp). destruct (decide (i = k)) as [->|]; [right; by apply Hn|].
  left. exists i. split; [lia|done].
Qed.

Lemma changed_damaged prev n s :
  damaged s (damage_changed_layers prev n s) (changed_patch prev n s SAVANXP_COMPOSITOR_MAX_LAYERS).
Proof using Type.
  clear assets good.
  unfold damage_changed_layers.
  apply (for_z_ind (fun k s' => damaged s s' (changed_patch prev n s k))); [done| |].
  { eapply damaged_weaken; [apply damaged_none|]. intros x y (i & ? & _). lia. }
  intros k s' Hk D.
  assert (El : layer_at s' k = layer_at s k) by (destruct D as [-> _]; done).
  assert (Ec : sn_layer_count s' = sn_layer_count s) by (destruct D as [-> _]; done).
  cbv zeta. rewrite !rect_from_id, El, Ec.
  assert (Hb : forall (b : bool) r q, damaged q (if b then damage_rect r q else q) (fun x y => b = true /\ in_rect r x y)).
  { intros [] r q; [eapply damaged_weaken; [apply damage_rect_damaged|]; tauto|].
    eapply damaged_weaken; [apply damaged_none|]. intros x y [? _]. done. }
  destruct ((k <? n) && (k <? sn_layer_count s) && layers_equal (at_ layer0 prev k) (layer_at s k)) eqn:Eq.
  { eapply damaged_weaken; [exact D|]. intros x y Hc. apply (changed_patch_step _ _ _ _ _ _ False) in Hc as [Hc|[]]; [exact Hc|lia|].
    intros Hno _. apply Hno. unfold layers_equal in Eq. apply andb_true_iff in Eq as [Eq1 Eq2].
    apply bool_decide_eq_true in Eq2. split; [lia|]. split; [lia|done]. }
  pose proof (Hb (k <? n) (ly_dst (at_ layer0 prev k)) s') as D1. set (s1 := if k <? n then damage_rect (ly_dst (at_ layer0 prev k)) s' else s') in *.
  assert (El1 : layer_at s1 k = layer_at s k) by (destruct D1 as [-> _]; exact El). rewrite El1.
  pose proof (Hb (k <? sn_layer_count s) (ly_dst (layer_at s k)) s1) as D2.
  eapply damaged_weaken; [eapply damaged_seq; [exact D|eapply damaged_seq; [exact D1|exact D2]]|].
  intros x y Hc. eapply changed_patch_step; [lia| |exact Hc]. intros _ [[? ?]|[? ?]]; [left|right]; (split; [lia|done]).
Qed.

(** The stage changes only where the scene is damaged with it. *)
Definition restaged (s s' : scene) : Prop :=
  exists st, s' = set_stage (sn_stage_section s) st (set_damage (sn_damage s') s) /\
    (sn_stage s <> None -> st <> None) /\
    (region_ok (sn_damage s) -> region_ok (sn_damage s') /\
     (forall x y, in_region (sn_damage s) x y -> in_region (sn_damage s') x y) /\
     (forall x y, let stride := su_pitch (surface s SAVANXP_COMPOSITOR_SURFACE_WM) / 4 in
        su_capacity_width (surface s SAVANXP_COMPOSITOR_SURFACE_WM) <= stride -> 0 <= x < stride ->
        on_display s x y = true -> ~ in_region (sn_damage s') x y ->
        at_ 0 (default [] st) (y * stride + x) = at_ 0 (default [] (sn_stage s)) (y * stride + x))).

Lemma restaged_refl s : restaged s s.
Proof. exists (sn_stage s). split; [by destruct s|done]. Qed.

Lemma restaged_trans s1 s2 s3 : restaged s1 s2 -> restaged s2 s3 -> restaged s1 s3.
Proof.
  intros (st & E & N & H) (st' & E' & N' & H').
  assert (Est : sn_stage s2 = st) by (rewrite E; done).
  assert (Esu : surface s2 = surface s1) by (rewrite E; done).
  assert (Eon : forall x y, on_display s2 x y = on_display s1 x y) by (intros; rewrite E; done).
  exists st'. split; [rewrite E', E; done|]. split; [intros K; apply N'; rewrite Est; by apply N|].
  intros Hok. destruct (H Hok) as (A1 & A2 & A3). destruct (H' A1) as (B1 & B2 & B3). rewrite Est, Esu in B3.
  split; [done|]. split; [auto|]. intros x y. cbv zeta in *. intros Hw Hx Hon Hd. rewrite (B3 x y) by (rewrite ?Eon; done).
  apply A3; try done. auto.
Qed.

Lemma copy_pixels_outside px d src from n j : 0 <= n -> 0 <= d -> ~ (d <= j < d + n) ->
  at_ 0 (copy_pixels px d src from n) j = at_ 0 px j.
Proof.
  intros Hn Hd Hj. unfold copy_pixels. apply (for_z_ind (fun _ px' => at_ 0 px' j = at_ 0 px j)); [done..|].
  intros i px' Hi H. rewrite at_set_at_ne by lia. exact H.
Qed.

(** A row of another rectangle's pixels does not reach a point outside it. *)
Lemma stage_rows_outside rect stride pixels stage x y :
  0 <= rx rect -> 0 <= ry rect -> 0 <= rw rect -> 0 <= rh rect -> rx rect + rw rect <= stride -> 0 <= x < stride ->
  ~ in_rect rect x y ->
  at_ 0 (for_z (ry rect) (ry rect + rh rect) (fun row stage =>
     copy_pixels stage (row * stride + rx rect) pixels (row * stride + rx rect) (rw rect)) stage) (y * stride + x)
  = at_ 0 stage (y * stride + x).
Proof.
  intros H1 H2 H3 H4 H5 Hx Hout. apply (for_z_ind (fun _ st => at_ 0 st (y * stride + x) = at_ 0 stage (y * stride + x))); [lia|done|].
  intros row st Hr H. rewrite copy_pixels_outside; [exact H|lia|nia|]. intros K. apply Hout.
  assert (row = y) as -> by nia. unfold in_rect. lia.
Qed.

(** The corners of a clipped rectangle. *)
Lemma clip_bounds r w h : sx_rect_is_empty (sx_rect_intersect r (sx_rect_make 0 0 w h)) = false ->
  let q := sx_rect_intersect r (sx_rect_make 0 0 w h) in
  0 <= rx q /\ 0 <= ry q /\ 0 < rw q /\ 0 < rh q /\ rx q + rw q <= w /\ ry q + rh q <= h.
Proof.
  intros He q. fold q in He. unfold sx_rect_is_empty in He.
  assert (H : forall x y, in_rect q x y -> 0 <= x < w /\ 0 <= y < h).
  { intros x y H. apply in_rect_intersect in H as [_ H]. unfold in_rect, sx_rect_make in H. cbn [rx ry rw rh] in H. lia. }
  pose proof (H (rx q) (ry q)) as H1. pose proof (H (rx q + rw q - 1) (ry q + rh q - 1)) as H2.
  unfold in_rect in H1, H2. lia.
Qed.

Lemma stage_rect_cases r s :
  stage_rect r s = s \/
  exists stage pixels, let u := surface s SAVANXP_COMPOSITOR_SURFACE_WM in
    let q := sx_rect_intersect r (sx_rect_make 0 0 (su_capacity_width u) (su_capacity_height u)) in
    sn_stage s = Some stage /\ sx_rect_is_empty q = false /\ default [] (su_pixels u) = pixels /\ su_in_use u = true /\
    stage_rect r s = set_stage (sn_stage_section s)
      (Some (for_z (ry q) (ry q + rh q) (fun row stage =>
         copy_pixels stage (row * (su_pitch u / 4) + rx q) pixels (row * (su_pitch u / 4) + rx q) (rw q)) stage)) s.
Proof.
  unfold stage_rect. destruct (surface_at s _) as [wm|] eqn:E; [|by left].
  destruct (sn_stage s) as [stage|]; [|by left].
  unfold surface_at in E. destruct (_ || _) eqn:Eu in E; [done|]. injection E as <-.
  destruct (sx_rect_is_empty _) eqn:Ee; [by left|right]. exists stage. eexists. split_and!; [done..|lia|done].
Qed.

Lemma stage_damage_restaged r s : restaged s (damage_rect r (stage_rect r s)).
Proof.
  pose proof (damage_rect_damaged r (stage_rect r s)) as [E H].
  set (s2 := damage_rect r (stage_rect r s)) in *.
  assert (Hd : sn_damage (stage_rect r s) = sn_damage s /\ forall x y, on_display (stage_rect r s) x y = on_display s x y).
  { destruct (stage_rect_cases r s) as [->|(? & ? & _ & _ & _ & _ & ->)]; done. }
  destruct Hd as [Ed Eon]. rewrite Ed in H.
  exists (sn_stage (stage_rect r s)). split; [|split; [|intros Hok; destruct (H Hok) as [K1 K2]; split; [done|split; [auto|]]]].
  - rewrite E. destruct (stage_rect_cases r s) as [->|(? & ? & _ & _ & _ & _ & ->)]; [by destruct s|done].
  - destruct (stage_rect_cases r s) as [->|(? & ? & _ & _ & _ & _ & ->)]; done.
  - intros x y stride Hw Hx Hon Hnd.
    assert (Hout : ~ in_rect r x y) by (intros K; apply Hnd, K2; right; by rewrite Eon).
    destruct (stage_rect_cases r s) as [->|(stage & pixels & Hst & He & _ & _ & ->)]; [done|].
    cbn [set_stage sn_stage default]. rewrite Hst. cbn [default]. apply clip_bounds in He as (B1 & B2 & B3 & B4 & B5 & B6).
    apply stage_rows_outside; try lia. intros K. apply Hout. by apply in_rect_intersect in K as [K _].
Qed.

Lemma take_repaint_restaged s : restaged s (take_repaint s).
Proof.
  unfold take_repaint. destruct (_ || _).
  - apply stage_damage_restaged.
  - destruct (Z_le_gt_dec 0 (sc_damage_count (sn_scene s))); [|rewrite for_z_nil by lia; apply restaged_refl].
    apply (for_z_ind (fun _ s' => restaged s s')); [lia|apply restaged_refl|]. intros i s' _ H.
    eapply restaged_trans; [exact H|]. apply stage_damage_restaged.
Qed.

(** The cursor of a commit: damaged with the drawn one if it is another. *)
Lemma take_cursor_damaged s : exists s1,
  damaged s s1 (fun x y => sn_software_cursor s = true /\ sn_cursor (take_cursor assets s) <> sn_cursor s /\
    (cursor_pixel assets (sn_cursor_drawn s) x y <> None \/ cursor_pixel assets (sn_cursor (take_cursor assets s)) x y <> None)) /\
  take_cursor assets s = set_cursors (sn_software_cursor s) (sn_cursor (take_cursor assets s)) (sn_cursor_drawn s) s1.
Proof using assets.
  clear good.
  unfold take_cursor. set (c := mk_cursor _ _ _ _). cbn [set_cursors sn_cursor].
  set (b := sn_software_cursor s && _).
  set (s1 := if b then damage_cursor assets c (damage_cursor assets (sn_cursor_drawn s) s) else s).
  assert (D : damaged s s1 (fun x y => sn_software_cursor s = true /\ c <> sn_cursor s /\
    (cursor_pixel assets (sn_cursor_drawn s) x y <> None \/ cursor_pixel assets c x y <> None))).
  { unfold s1. destruct b eqn:Eb.
    - eapply damaged_weaken; [eapply damaged_seq; apply damage_cursor_damaged|]. tauto.
    - eapply damaged_weaken; [apply damaged_none|]. intros x y (H1 & H2 & _). unfold b in Eb. rewrite H1 in Eb. apply H2.
      destruct (sn_cursor s) as [cx cy cs cv] eqn:Ec. unfold c in *. cbn [andb cu_x cu_y cu_shape cu_visible] in *.
      apply orb_false_iff in Eb as [Eb E4]. apply orb_false_iff in Eb as [Eb E3]. apply orb_false_iff in Eb as [E1 E2].
      apply negb_false_iff, eqb_prop in E4. f_equal; lia || done. }
  exists s1. split; [done|]. destruct D as [-> _]. done.
Qed.

Lemma restaged_ok s s' : restaged s s' -> scene_ok s -> scene_ok s'.
Proof.
  intros (st & E & N & H) Hok. destruct (H (ok_damage s Hok)) as (K & _). destruct Hok. rewrite E in *.
  constructor; try done. intros id Hu. destruct (ok_backed0 id Hu) as (B1 & B2 & B3 & B4).
  split; [done|]. split; [done|]. split; [done|]. intros Hi. by apply N, B4.
Qed.

(** A layer of the WM shows the stage in place. *)
Lemma wm_sample s s' l x y : scene_ok s -> restaged s s' -> layer_live s l = true -> layer_ok l ->
  in_rect (ly_dst l) x y -> on_display s x y = true -> ~ in_region (sn_damage s') x y ->
  layer_sample s' l x y = layer_sample s l x y.
Proof.
  intros Hok (st & E & N & H) Hl [Hint Hwm] Hdst Hon Hnd.
  destruct (decide (ly_surface_id l = SAVANXP_COMPOSITOR_SURFACE_WM)) as [Hw|Hw].
  2:{ apply sample_extent; [by rewrite E|]. unfold backing. rewrite E. case_if; [lia|done]. }
  specialize (Hwm Hw). destruct (H (ok_damage s Hok)) as (_ & _ & K). specialize (K x y). cbv zeta in K.
  destruct (layer_live_valid _ _ Hl) as [Hs _]. unfold surface_at in Hs. destruct (_ || _) eqn:Eu in Hs; [done|]. clear Hs.
  destruct (ok_backed s Hok (ly_surface_id l)) as (_ & B2 & B3 & B4); [lia|]. specialize (B4 Hw).
  destruct (live_source s l Hl Hint) as (V1 & V2 & V3 & V4). cbv zeta in *. rewrite Hw in *.
  assert (Esu : surface s' = surface s) by (rewrite E; done).
  assert (Est : sn_stage s' = st) by (rewrite E; done).
  unfold layer_sample, layer_pixels. rewrite Hw, Esu, Est. rewrite Z.eqb_refl.
  destruct (sn_stage s) as [stage|] eqn:E1; [|done]. destruct st as [stage'|]; [|by destruct N].
  unfold layer_scaled. rewrite Hwm. rewrite !Z.eqb_refl, !Z.sub_diag, !Z.sub_0_r. cbn [negb orb default] in *. f_equal.
  unfold source_pixel, layer_bitmap, sx_bitmap_wrap, target_pixels, gfx_stride_pixels. cbn [bm_pixels bm_info fb_pitch].
  destruct (su_pitch _ =? 0) eqn:?; [lia|]. rewrite Hwm in *. unfold in_rect in Hdst. apply K; try done; lia.
Qed.

(** The layers of two commits agree at a point neither changed. *)
Lemma unchanged_layers s s0 x y : sn_layer_count s <= SAVANXP_COMPOSITOR_MAX_LAYERS ->
  sn_layer_count s0 <= SAVANXP_COMPOSITOR_MAX_LAYERS ->
  ~ changed_patch (sc_layers (sn_scene s)) (sn_layer_count s) s0 SAVANXP_COMPOSITOR_MAX_LAYERS x y ->
  forall i, 0 <= i ->
    (i < sn_layer_count s -> in_rect (ly_dst (layer_at s i)) x y -> i < sn_layer_count s0 /\ layer_at s0 i = layer_at s i) /\
    (i < sn_layer_count s0 -> in_rect (ly_dst (layer_at s0 i)) x y -> i < sn_layer_count s /\ layer_at s i = layer_at s0 i).
Proof.
  intros H1 H2 Hno i Hi. fold (layer_at s i) in Hno.
  destruct (decide (i < sn_layer_count s /\ i < sn_layer_count s0 /\ layer_at s i = layer_at s0 i)) as [(K1 & K2 & K3)|K].
  { split; intros; split; done || lia. }
  split; intros Hc Hr; exfalso; apply Hno; exists i; (split; [lia|]); (split; [exact K|]); [left|right]; done.
Qed.

Definition may_commit (s : scene) : Prop :=
  forall sc, sn_shared s = Some sc -> layers_ok sc /\ 0 <= sc_layer_count sc.

(** The scene a commit takes over, before the frames are consumed. *)
Definition taken_over (sc : compositor_scene) (s : scene) : scene :=
  let count := if sc_layer_count sc <=? SAVANXP_COMPOSITOR_MAX_LAYERS then sc_layer_count sc else 0 in
  take_cursor assets (take_repaint
    (damage_changed_layers (sc_layers (sn_scene s)) (sn_layer_count s) (set_layers sc count s))).

Section Commit.
Context (s : scene) (sc : compositor_scene) (Hok : scene_ok s) (Hsc : layers_ok sc) (Hcount : 0 <= sc_layer_count sc).
Let s0 : scene := set_layers sc (if sc_layer_count sc <=? SAVANXP_COMPOSITOR_MAX_LAYERS then sc_layer_count sc else 0) s.
Let s1 : scene := damage_changed_layers (sc_layers (sn_scene s)) (sn_layer_count s) s0.
Let s2 : scene := take_repaint s1.
Let s3 : scene := take_cursor assets s2.

Lemma commit_ok0 : scene_ok s0.
Proof. destruct Hok. constructor; try done. unfold s0. cbn [set_layers sn_layer_count]. case_if; lia. Qed.
Lemma commit_ok1 : scene_ok s1.
Proof. eapply ok_damaged; [apply changed_damaged|apply commit_ok0]. Qed.
Lemma commit_ok2 : scene_ok s2.
Proof. eapply restaged_ok; [apply take_repaint_restaged|apply commit_ok1]. Qed.
Lemma commit_ok3 : scene_ok s3.
Proof.
  unfold s3. destruct (take_cursor_damaged s2) as (q & D & ->). pose proof (ok_damaged _ _ _ D commit_ok2) as [].
  by constructor.
Qed.

(** What did not change. *)
Lemma commit_same : sn_surfaces s3 = sn_surfaces s /\ sn_display s3 = sn_display s /\ sn_display_info s3 = sn_display_info s /\
  sn_scene s3 = sc /\ sn_layer_count s3 = sn_layer_count s0 /\ sn_cursor_drawn s3 = sn_cursor_drawn s /\
  sn_software_cursor s3 = sn_software_cursor s.
Proof.
  unfold s3. destruct (take_cursor_damaged s2) as (q & [Eq _] & ->). rewrite Eq.
  destruct (take_repaint_restaged s1) as (st & E2 & _). fold s2 in E2. rewrite E2.
  destruct (changed_damaged (sc_layers (sn_scene s)) (sn_layer_count s) s0) as [E1 _]. fold s1 in E1. rewrite E1. done.
Qed.

Lemma commit_info : sn_display_info s1 = sn_display_info s /\ sn_display_info s2 = sn_display_info s /\
  sn_software_cursor s2 = sn_software_cursor s /\ sn_cursor s2 = sn_cursor s /\ sn_cursor_drawn s2 = sn_cursor_drawn s.
Proof.
  destruct (take_repaint_restaged s1) as (st & E2 & _). fold s2 in E2. rewrite E2.
  destruct (changed_damaged (sc_layers (sn_scene s)) (sn_layer_count s) s0) as [E1 _]. fold s1 in E1. rewrite E1. done.
Qed.

(** What a point outside the new damage knows. *)
Lemma commit_undamaged x y : on_display s3 x y = true -> ~ in_region (sn_damage s3) x y ->
  on_display s x y = true /\ ~ in_region (sn_damage s) x y /\
  ~ changed_patch (sc_layers (sn_scene s)) (sn_layer_count s) s0 SAVANXP_COMPOSITOR_MAX_LAYERS x y /\
  ~ in_region (sn_damage s2) x y /\
  (cursor_pixel assets (sn_cursor_drawn s) x y = cursor_pixel assets (target_cursor s) x y ->
   cursor_pixel assets (target_cursor s3) x y = cursor_pixel assets (target_cursor s) x y).
Proof.
  intros Hon Hnd. destruct commit_same as (C1 & C2 & C3 & C4 & C5 & C6 & C7).
  rewrite (on_display_info s s3 x y C3) in Hon.
  destruct (take_cursor_damaged s2) as (q & D3 & E3). fold s3 in E3.
  destruct (take_repaint_restaged s1) as (st & E2 & _ & H2). fold s2 in E2, H2.
  pose proof (changed_damaged (sc_layers (sn_scene s)) (sn_layer_count s) s0) as D1. fold s1 in D1.
  assert (Edq : sn_damage s3 = sn_damage q) by (rewrite E3; done). rewrite Edq in Hnd.
  destruct commit_info as (I1 & I2 & F1 & F2 & F3).
  assert (Eiq : sn_display_info q = sn_display_info s2) by (destruct D3 as [Eq _]; rewrite Eq; reflexivity).
  assert (Honq : on_display q x y = true) by (rewrite (on_display_info s q); [exact Hon|congruence]).
  destruct (undamaged_before _ _ _ _ _ _ commit_ok2 D3 (same_pictures_refl q) Honq Hnd) as (_ & U2 & U3).
  destruct (H2 (ok_damage _ commit_ok1)) as (_ & K2 & _).
  assert (Hnd1 : ~ in_region (sn_damage s1) x y) by auto.
  assert (Hon1 : on_display s1 x y = true) by (rewrite (on_display_info s s1); [exact Hon|congruence]).
  destruct (undamaged_before _ _ _ _ _ _ commit_ok0 D1 (same_pictures_refl s1) Hon1 Hnd1) as (_ & V2 & V3).
  split; [done|]. split; [exact V2|]. split; [done|]. split; [done|].
  intros Hdr. unfold target_cursor in *. rewrite C7.
  fold s3 in U3. rewrite F1, F2, F3 in U3.
  destruct (sn_software_cursor s); [|done].
  destruct (decide (sn_cursor s3 = sn_cursor s)) as [->|Hne]; [done|].
  rewrite <- Hdr. destruct (cursor_pixel assets (sn_cursor_drawn s) x y) eqn:Ka;
    [exfalso; apply U3; split_and!; [done..|left; done]|].
  destruct (cursor_pixel assets (sn_cursor s3) x y) eqn:Kb; [|done]. exfalso. apply U3. split_and!; [done..|right; done].
Qed.

(** A layer that reaches an undamaged point is in both commits. *)
Lemma commit_patch x y id b : settled s3 x y -> batch_patch s id b x y -> batch_patch s3 id b x y.
Proof.
  intros (H1 & _ & H3 & _) Hp. destruct (commit_undamaged x y H1 H3) as (U1 & U2 & U3 & _ & _).
  destruct commit_same as (C1 & C2 & C3 & C4 & C5 & _).
  assert (Hpatch : forall r w, surface_patch s id r w x y -> surface_patch s3 id r w x y).
  { intros r w (i & [Hi Hid] & Hr). pose proof (layer_patch_inside _ _ _ _ _ Hr) as Hdst.
    destruct (unchanged_layers s s0 x y (proj2 (ok_count s Hok)) (proj2 (ok_count s0 commit_ok0)) U3 i (proj1 Hi)) as [K _].
    destruct (K (proj2 Hi) Hdst) as [K1 K2].
    assert (El : layer_at s3 i = layer_at s i) by (rewrite <- K2; unfold layer_at; by rewrite C4).
    exists i. split; [|by rewrite El]. split; [rewrite C5; lia|by rewrite El]. }
  unfold batch_patch in *. destruct (is_full _); [by apply Hpatch|]. destruct Hp as (r & Hr & Hp). exists r. auto.
Qed.

Lemma commit_surface i : surface s3 i = surface s i.
Proof. destruct commit_same as (C1 & _). unfold surface. by rewrite C1. Qed.

Lemma commit_settled x y : settled s3 x y -> settled s x y.
Proof.
  intros Hs. pose proof Hs as (H1 & H2 & H3 & H4). destruct (commit_undamaged x y H1 H3) as (U1 & U2 & U3 & _ & _).
  destruct commit_same as (C1 & C2 & C3 & C4 & C5 & _).
  split; [done|]. split; [congruence|]. split; [done|]. intros id Hb (k & Hk & Hp).
  apply (H4 id); [unfold behaves in *; by rewrite commit_surface|]. exists k. rewrite commit_surface. split; [done|].
  by apply commit_patch.
Qed.

Lemma commit_covers x y : settled s3 x y -> front_layer s3 x y = front_layer s x y /\
  forall f, front_layer s x y = Some f -> layer_at s3 f = layer_at s f.
Proof.
  intros (H1 & _ & H3 & _). destruct (commit_undamaged x y H1 H3) as (U1 & U2 & U3 & _ & _).
  destruct commit_same as (C1 & C2 & C3 & C4 & C5 & _).
  assert (Esu : forall i, surface s3 i = surface s i) by (intros i; unfold surface; by rewrite C1).
  assert (El : forall i, layer_at s3 i = layer_at s0 i) by (intros i; unfold layer_at; by rewrite C4).
  pose proof (unchanged_layers s s0 x y (proj2 (ok_count s Hok)) (proj2 (ok_count s0 commit_ok0)) U3) as K.
  assert (Hin : forall q i, layer_covers q i x y = true -> in_rect (ly_dst (layer_at q i)) x y).
  { intros q i Hc. unfold layer_covers in Hc. apply andb_true_iff in Hc as [_ Hc]. by apply contains_point_iff. }
  assert (Hcv : forall i, layer_at s3 i = layer_at s i -> layer_covers s3 i x y = layer_covers s i x y)
    by (intros i E; apply covers_extent; [done|by rewrite Esu]).
  split.
  - apply front_same; intros i Hi Hc; pose proof (Hin _ _ Hc) as Hd; destruct (K i (proj1 Hi)) as [K1 K2].
    + rewrite El in Hd. rewrite C5 in Hi. destruct (K2 (proj2 Hi) Hd) as [K3 K4]. split; [done|].
      rewrite <- Hcv; [done|]. by rewrite El.
    + destruct (K1 (proj2 Hi) Hd) as [K3 K4]. rewrite C5. split; [done|]. rewrite Hcv; [done|]. by rewrite El.
  - intros f Hf. apply front_covers in Hf as (F1 & _ & F3 & _). destruct (K f (proj1 F1)) as [K1 _].
    rewrite El. apply (K1 (proj2 F1) F3).
Qed.

Lemma commit_faithful x y : faithful s x y -> faithful s3 x y.
Proof.
  intros Hf. eapply faithful_keep; [exact Hf|]. intros Hs f Hfr Ht.
  pose proof (commit_settled x y Hs) as Hss. destruct (commit_covers x y Hs) as [E1 E2]. rewrite E1 in Hfr.
  specialize (E2 f Hfr). pose proof Hs as (H1 & _ & H3 & _).
  destruct (commit_undamaged x y H1 H3) as (U1 & U2 & U3 & U4 & U5).
  destruct commit_same as (C1 & C2 & C3 & C4 & C5 & C6 & C7). rewrite E2.
  split; [done|]. split; [done|]. split; [done|]. split; [|split; [by apply screen_pixel_same|]].
  - pose proof (front_covers s x y f Hfr) as (F1 & _ & F3 & F4).
    transitivity (layer_sample s1 (layer_at s f) x y).
    + transitivity (layer_sample s2 (layer_at s f) x y).
      * unfold s3. destruct (take_cursor_damaged s2) as (q & [Eq _] & ->). rewrite Eq. reflexivity.
      * assert (Hl1 : layer_live s1 (layer_at s f) = true).
        { rewrite <- F4. apply live_extent. unfold s1.
          destruct (changed_damaged (sc_layers (sn_scene s)) (sn_layer_count s) s0) as [-> _]. reflexivity. }
        destruct commit_info as (I1 & _).
        assert (Hon1 : on_display s1 x y = true) by (rewrite (on_display_info s s1); [exact U1|exact I1]).
        exact (wm_sample s1 s2 _ x y commit_ok1 (take_repaint_restaged s1) Hl1 (ok_layers s Hok f) F3 Hon1 U4).
    + unfold s1. destruct (changed_damaged (sc_layers (sn_scene s)) (sn_layer_count s) s0) as [-> _]. reflexivity.
  - intros Hdr. specialize (U5 Hdr). split; [done|]. rewrite C6. congruence.
Qed.
End Commit.

Lemma commit_keeps s : scene_ok s -> may_commit s ->
  let s' := fst (scene_commit assets s) in
  scene_ok s' /\ forall x y, faithful s x y -> faithful s' x y.
Proof.
  intros Hok Hmay s'. subst s'. unfold scene_commit. destruct (sn_shared s) as [sc|] eqn:Esc; [|done].
  destruct (Hmay sc Esc) as [Hl Hc]. destruct (negb _).
  - cbn [fst]. split; [|intros x y _; by apply no_layers_faithful]. destruct Hok. by constructor.
  - cbn [fst]. pose proof (commit_ok3 s sc Hok Hl Hc) as Hok3. split; [by apply consume_ok|].
    intros x y Hf. apply consume_faithful; [exact Hok3|]. by apply commit_faithful.
Qed.

(** ** Runs *)

(** What a good client has painted and not submitted stays where it is on the
    screen, wherever something is shown and no redraw is on its way. *)
Definition patches_stay (s s' : scene) : Prop :=
  forall x y f, settled s' x y -> front_layer s' x y = Some f ->
  forall id b, behaves good s id = true -> batch_patch s id b x y -> behaves good s' id = true /\ batch_patch s' id b x y.

Lemma stay_look s s' : look s' = look s -> patches_stay s s'.
Proof. intros L x y f _ _ id b Hb Hp. rewrite (behaves_look s s' id L). split; [done|]. by apply (batch_patch_look s). Qed.

Lemma stay_pictures s s' : same_pictures s s' -> patches_stay s s'.
Proof. intros (L & _). by apply stay_look. Qed.

Lemma stay_write s id v : in_array s id -> extent v = extent (surface s id) -> patches_stay s (set_surface id v s).
Proof. intros Hid Hext x y f _ _ i b Hb Hp. rewrite (write_behaves s id v Hid Hext). split; [done|]. by apply (batch_patch_same s). Qed.

Lemma stay_swaps s s' id : swaps s s' id ->
  (forall x y, settled s' x y -> forall index, shows_surface s id index -> ~ in_rect (ly_dst (layer_at s index)) x y) ->
  patches_stay s s'.
Proof.
  intros (W1 & _ & _ & W4 & W5 & _) Hno x y f Hs _ i b Hb Hp. destruct (decide (i = id)) as [->|Hi].
  - apply batch_patch_inside in Hp as (j & J1 & J2). by destruct (Hno x y Hs j).
  - split; [unfold behaves in *; by rewrite W1|]. by apply (batch_patch_same s).
Qed.

Lemma stay_consume s : scene_ok s -> look (scene_consume_frames s) = look s.
Proof.
  intros Hok. destruct (consume_frames_taken good s (ok_array s Hok) (ok_frames s Hok)) as ((s1 & [E _] & (L & _)) & _).
  by rewrite L, E.
Qed.

Lemma stay_compose s : scene_ok s -> look (fst (scene_compose assets s)) = look s.
Proof.
  intros Hok. destruct (sn_display s) as [px|] eqn:Epx; [destruct (sx_region_is_empty (due s)) eqn:Ee|].
  - by rewrite compose_idle by tauto.
  - by destruct (compose_drawn_ok s px Hok Epx Ee) as (_ & _ & _ & _ & L & _).
  - by rewrite compose_idle by tauto.
Qed.

Lemma stay_detach id s : scene_ok s -> patches_stay s (scene_detach id s).
Proof.
  intros Hok. destruct (detach_cases id s) as [->|(s1 & D & W & E)]; [by apply stay_look|].
  assert (Hno : forall x y, settled (scene_detach id s) x y -> forall index, shows_surface s1 id index -> ~ in_rect (ly_dst (layer_at s1 index)) x y).
  { intros x y (H1 & _ & H3 & _) i Hi Hdst. pose proof W as (_ & _ & _ & _ & _ & W6 & W7 & W8 & _).
    rewrite (on_display_info s1) in H1 by done. rewrite W8 in H3.
    destruct (undamaged_before _ _ _ _ _ _ Hok D (same_pictures_refl s1) H1 H3) as (_ & _ & U). apply U.
    exists i. split; [by apply (damaged_shows _ _ _ _ _ D)|]. destruct D as [E1 _]. rewrite E1 in Hdst. exact Hdst. }
  intros x y f Hs Hf i b Hb Hp. pose proof (stay_swaps s1 _ id W Hno x y f Hs Hf i b) as K.
  destruct D as [E1 _]. apply K; by rewrite E1.
Qed.

Lemma stay_commit s : scene_ok s -> may_commit s -> patches_stay s (fst (scene_commit assets s)).
Proof.
  intros Hok Hmay. unfold scene_commit. destruct (sn_shared s) as [sc|] eqn:Esc; [|by apply stay_look].
  destruct (Hmay sc Esc) as [Hl Hc]. destruct (negb _); cbn [fst].
  - intros x y f _ Hf. apply front_covers in Hf as [Hf _]. cbn in Hf. lia.
  - pose proof (commit_ok3 s sc Hok Hl Hc) as Hok3. intros x y f Hs _ id b Hb Hp.
    apply consume_settled in Hs; [|exact Hok3]. pose proof (stay_consume _ Hok3) as L.
    assert (Hb3 : behaves good (taken_over sc s) id = true) by (unfold behaves in *; by rewrite <- (commit_surface s sc id) in Hb).
    split; [by rewrite (behaves_look _ _ id L)|]. apply (batch_patch_look _ _ id b x y L). by apply (commit_patch s sc Hok Hl Hc).
Qed.

(** One action of the WM, of compositord or of a client that keeps no promise.
    Two of them are restricted where the code is not: a composition whose
    regions overflow, after which the screen may be wrong, is left out, and so is
    an attach to an id that a layer still names. *)
Inductive step (s : scene) : scene -> Prop :=
| StepWrite id h batches px : client_id id = true -> good id = false -> step s (client_write id h batches px s)
| StepWmPaint px : step s (wm_paint px s)
| StepShared sc : sn_shared s <> None -> step s (set_shared (Some sc) s)
| StepMapScene section mapped : step s (fst (scene_map_scene_section section mapped s))
| StepAttach desc section wake mapped staged : may_attach desc wake mapped s ->
    step s (fst (scene_attach desc section wake mapped staged s))
| StepDetach id : step s (scene_detach id s)
| StepCommit : may_commit s -> step s (fst (scene_commit assets s))
| StepConsume : step s (scene_consume_frames s)
| StepCompose : compose_fits s -> step s (fst (scene_compose assets s))
| StepRetire : step s (scene_retire s)
| StepTakeBroken : step s (fst (scene_take_broken s))
| StepDisplay px info : px = None \/ display_ok (set_display px info s) -> step s (scene_set_display px info s)
| StepSoftwareCursor e : step s (scene_set_software_cursor assets e s)
| StepReset : step s (scene_reset s).

(** What each good client has painted and not yet submitted. *)
Definition unsent : Type := Z -> list dirty_rect_batch.
Definition none_unsent : unsent := fun _ => [].
Definition set_unsent (id : Z) (l : list dirty_rect_batch) (un : unsent) : unsent := fun i => if i =? id then l else un i.

(** A submitted frame says all that was painted as [b]. *)
Definition frame_covers (ctx : wm_client) (f : client_frame) (b : dirty_rect_batch) : Prop :=
  match f with
  | FullFrame => True
  | RectFrame rects => is_full b = false /\ forall d, d ∈ batch_list b -> d ∈ clipped ctx rects
  end.

(** A run: the actions, and the good clients, which paint and submit at any time,
    with anything in between.  A submission that the ring refuses leaves what was
    painted unsent. *)
Inductive run : unsent -> scene -> Prop :=
| run_start : run none_unsent scene0
| run_step un s s' : run un s -> step s s' -> run un s'
| run_paint un s ctx id f b px :
    run un s -> may_paint ctx id f b px s -> run (set_unsent id (b :: un id) un) (client_paint id px s)
| run_submit un s ctx id f er left_ :
    run un s -> may_submit ctx id f s ->
    (forall b, b ∈ un id -> b ∈ left_ \/
       submitted (surface (client_submit ctx id f er s) id) <> submitted (surface s id) /\ frame_covers ctx f b) ->
    run (set_unsent id left_ un) (client_submit ctx id f er s).

Definition reachable (s : scene) : Prop := exists un, run un s.

(** A point where something painted and unsent would show. *)
Definition unsent_patch (un : unsent) (s : scene) (x y : Z) : Prop :=
  exists id b, b ∈ un id /\ behaves good s id = true /\ batch_patch s id b x y.

Lemma scene0_unused id : su_in_use (surface scene0 id) = false.
Proof.
  unfold surface, at_. case_if; [done|]. cbn [scene0 sn_surfaces]. rewrite nth_lookup.
  destruct (replicate 32 _ !! Z.to_nat id) eqn:E; [|done]. by apply lookup_replicate in E as [-> _].
Qed.

Definition invariant (un : unsent) (s : scene) : Prop :=
  scene_ok s /\ forall x y, ~ unsent_patch un s x y -> faithful s x y.

Lemma invariant_start : invariant none_unsent scene0.
Proof.
  split; [|intros x y _; by apply no_layers_faithful]. constructor; try done.
  - by left.
  - intros id. apply unused_backed, scene0_unused.
  - intros i. unfold layers_ok. cbn [scene0 sn_scene sc_layers]. unfold at_.
    replace (if i <? 0 then layer0 else _) with layer0 by (case_if; [done|]; by destruct (Z.to_nat i)).
    split; [unfold rect_int32, int32; simpl; lia|done].
  - intros id. unfold behaves. by rewrite scene0_unused, andb_false_r.
Qed.

Lemma step_keeps s s' : scene_ok s -> step s s' ->
  scene_ok s' /\ (forall x y, faithful s x y -> faithful s' x y) /\ patches_stay s s'.
Proof.
  intros Hok Hst. enough ((scene_ok s' /\ (forall x y, faithful s x y -> faithful s' x y)) /\ patches_stay s s') by tauto. destruct Hst as [id h bs px Hc Hg|px|sc Hsc|section mapped|desc section wake mapped staged Hmay|id|Hmay| |Hfit| | |px info Hd|e|].
  - split; [by apply client_write_keeps|]. apply stay_write; [by apply array_client|done].
  - split; [by apply wm_paint_keeps|]. apply stay_write; [|done]. pose proof (ok_array s Hok) as H. unfold all_surfaces, in_array in *. by rewrite H.
  - split; [by apply shared_keeps|]. by apply stay_look.
  - unfold scene_map_scene_section. destruct mapped as [sc|]; cbn [fst]; (split; [|by apply stay_look]); [|by apply quiet_keeps].
    destruct (quiet_keeps s (call (CloseHandle section) s)) as [Q1 Q2]; [done..|].
    destruct (shared_keeps (Some sc) _ Q1) as [P1 P2]. split; auto.
  - split; [by apply attach_keeps|]. destruct Hmay as (H0 & _ & Hno & _).
    destruct (attach_cases desc section wake mapped staged s (ok_array s Hok) H0) as [[S _]|(W & _)]; [by apply stay_pictures|].
    eapply stay_swaps; [exact W|]. intros x y _ i Hi. by destruct (Hno i).
  - split; [by apply detach_keeps|by apply stay_detach].
  - split; [by apply commit_keeps|by apply stay_commit].
  - split; [|by apply stay_look, stay_consume]. split; [by apply consume_ok|]. intros x y. by apply consume_faithful.
  - split; [by apply compose_keeps|by apply stay_look, stay_compose].
  - split; [by apply retire_keeps|by apply stay_pictures, retire_pictures].
  - split; [by apply quiet_keeps|by apply stay_look].
  - split; [by apply set_display_keeps|by apply stay_look].
  - split; [by apply software_cursor_keeps|]. apply stay_look. unfold scene_set_software_cursor.
    match goal with |- look (damage_cursor assets ?c ?q) = _ => destruct (damage_cursor_damaged c q) as [E _] end. by rewrite E.
  - split; [by apply reset_keeps|]. intros x y f _ Hf. apply front_covers in Hf as [Hf _]. exfalso. revert Hf.
    unfold scene_reset. match goal with |- context [for_z 0 ?n ?g s] => generalize (for_z 0 n g s) end.
    intros q. destruct (sn_shared q); cbn; lia.
Qed.

Lemma step_invariant un s s' : invariant un s -> step s s' -> invariant un s'.
Proof.
  intros [Hok Hf] Hst. destruct (step_keeps s s' Hok Hst) as (Hok' & Hk & Hstay). split; [done|].
  intros x y Hno f Hs Hfr Ht. apply (Hk x y); [|done..]. apply Hf. intros (id & b & Hb & Hbe & Hp). apply Hno.
  exists id, b. split; [done|]. by apply (Hstay x y f).
Qed.

Lemma paint_invariant un s ctx id f b px : invariant un s -> may_paint ctx id f b px s ->
  invariant (set_unsent id (b :: un id) un) (client_paint id px s).
Proof.
  intros [Hok Hf] Hmay. destruct (paint_keeps ctx id f b px s Hok Hmay) as [Hok' Hk]. pose proof Hmay as (Hb & _).
  pose proof (array_client s id Hok (behaves_client _ _ Hb)) as Hid. split; [done|].
  assert (Hun : forall x y i c, c ∈ set_unsent id (b :: un id) un i -> behaves good s i = true -> batch_patch s i c x y ->
    unsent_patch (set_unsent id (b :: un id) un) (client_paint id px s) x y).
  { intros x y i c Hc Hbi Hp. exists i, c. split; [done|]. unfold client_paint.
    rewrite (write_behaves s id _ Hid) by done. split; [done|]. by apply (batch_patch_same s). }
  intros x y Hno. apply Hk.
  - intros Hp. apply Hno. apply (Hun x y id b); [unfold set_unsent; rewrite Z.eqb_refl; by left|done|done].
  - apply Hf. intros (i & c & Hc & Hbi & Hp). apply Hno. apply (Hun x y i c); [|done|done].
    unfold set_unsent. case_if; [|done]. replace i with id in Hc by lia. by right.
Qed.

(** What a submitted frame covers is on its way. *)
Lemma covered_patch ctx f b b' s id x y :
  frame_batch ctx f b' -> frame_covers ctx f b -> batch_patch s id b x y -> batch_patch s id b' x y.
Proof.
  intros Hf Hc Hp. assert (Hin := batch_patch_inside s id b x y Hp). unfold batch_patch at 1.
  destruct (is_full b') eqn:Ef; [destruct Hin as (i & H1 & H2); by exists i|].
  destruct f as [|rects]; [cbn in Hf; congruence|]. destruct Hf as [?|(_ & _ & El & _)]; [congruence|].
  destruct Hc as [Eb Hsub]. unfold batch_patch in Hp. rewrite Eb in Hp. destruct Hp as (r & Hr & Hp).
  exists r. split; [rewrite El; by apply Hsub|done].
Qed.

Lemma submit_invariant un s ctx id f er left_ : invariant un s -> may_submit ctx id f s ->
  (forall b, b ∈ un id -> b ∈ left_ \/
     submitted (surface (client_submit ctx id f er s) id) <> submitted (surface s id) /\ frame_covers ctx f b) ->
  invariant (set_unsent id left_ un) (client_submit ctx id f er s).
Proof.
  intros [Hok Hf] Hmay Hleft. destruct (submit_keeps ctx id f er s Hok Hmay) as (Hok' & Hk & Hnew). pose proof Hmay as (Hb & _).
  pose proof (array_client s id Hok (behaves_client _ _ Hb)) as Hid. split; [done|].
  assert (Hbe : forall i, behaves good (client_submit ctx id f er s) i = behaves good s i).
  { destruct (client_submit_cases ctx id f er s Hok Hmay) as (h & h' & bs & _ & -> & _). intros i. by apply write_behaves. }
  assert (Hpa : forall i c x y, batch_patch s i c x y -> batch_patch (client_submit ctx id f er s) i c x y).
  { destruct (client_submit_cases ctx id f er s Hok Hmay) as (h & h' & bs & _ & -> & _). intros i c x y. by apply (batch_patch_same s). }
  intros x y Hno g Hs Hfr Ht. apply (Hk x y); [|done..]. apply Hf. intros (i & c & Hc & Hbi & Hp).
  assert (Hkeep : c ∈ set_unsent id left_ un i -> False).
  { intros K. apply Hno. exists i, c. rewrite Hbe. split_and!; [done|done|by apply Hpa]. }
  unfold set_unsent in Hkeep. destruct (i =? id) eqn:Ei; [|by apply Hkeep]. assert (i = id) as -> by lia.
  destruct (Hleft c Hc) as [K|[Hne Hcov]]; [by apply Hkeep|]. destruct Hnew as [E|(b' & Hfb & Hpend)]; [done|].
  destruct Hs as (_ & _ & _ & H4). apply (H4 id); [by rewrite Hbe|]. apply Hpend. by eapply covered_patch.
Qed.

(** ** The surfaces reported as broken *)

(** No bit of a good client's surface is set. *)
Definition unreported (s : scene) : Prop :=
  forall id, client_id id = true -> good id = true -> Z.testbit (sn_broken s) id = false.

Lemma unreported_same s s' : sn_broken s' = sn_broken s -> unreported s -> unreported s'.
Proof. unfold unreported. by intros ->. Qed.

(** Consuming surface [i] reports [i] at most. *)
Definition reports (i : Z) (s s' : scene) : Prop :=
  forall id, id <> i -> 0 <= id -> Z.testbit (sn_broken s') id = Z.testbit (sn_broken s) id.

Lemma reports_trans i s1 s2 s3 : reports i s1 s2 -> reports i s2 s3 -> reports i s1 s3.
Proof. intros H1 H2 id Hn H0. by rewrite H2, H1. Qed.
Lemma reports_same i s s' : sn_broken s' = sn_broken s -> reports i s s'.
Proof. intros E id _ _. by rewrite E. Qed.
Lemma reports_damaged i s s' P : damaged s s' P -> reports i s s'.
Proof. intros [E _]. apply reports_same. by rewrite E. Qed.

Lemma bit_other i id : 0 <= id -> id <> i -> Z.testbit (u32 (Z.shiftl 1 i)) id = false.
Proof.
  intros H0 Hn. destruct (Z_lt_ge_dec i 0) as [Hi|Hi].
  { rewrite Z.shiftl_div_pow2 by lia. rewrite Z.div_small; [apply Z.bits_0|]. pose proof (Z.pow_gt_1 2 (- i)). lia. }
  unfold u32. destruct (Z_lt_ge_dec id 32).
  - change 0x100000000 with (2 ^ 32). rewrite Z.mod_pow2_bits_low by lia. rewrite Z.shiftl_1_l. by apply Z.pow2_bits_false; lia.
  - change 0x100000000 with (2 ^ 32). by rewrite Z.mod_pow2_bits_high by lia.
Qed.

Lemma break_reports i s : reports i s (break_surface i s).
Proof.
  intros id Hn H0. unfold break_surface. cbn [set_broken sn_broken]. rewrite Z.lor_spec, bit_other by done. by rewrite orb_false_r.
Qed.

Lemma consume_rects_reports i rects : forall shown s, reports i s (fst (consume_rects i rects shown s)).
Proof.
  induction rects as [|r rest IH]; intros shown s; cbn [consume_rects]; [by apply reports_same|].
  destruct (dirty_rect_bad _ r); [apply break_reports|].
  destruct (damage_surface_rect i _ false s) as [s1 on] eqn:E. apply damage_surface_spec in E as [D _].
  eapply reports_trans; [by eapply reports_damaged|apply IH].
Qed.

Lemma consume_loop_reports i sub fuel : forall next shown any s,
  reports i s (fst (consume_loop fuel i next sub shown any s)).
Proof.
  induction fuel as [|fuel IH]; intros next shown any s; cbn [consume_loop]; [by apply reports_same|].
  destruct (negb (next <=? sub)); [by apply reports_same|]. destruct (_ || _); [apply break_reports|].
  match goal with |- context [if has_flag ?a ?b then ?c else ?d] => set (m := if has_flag a b then c else d) end.
  assert (Hm : reports i s (fst m)).
  { unfold m. destruct (has_flag _ _); [|apply consume_rects_reports].
    destruct (damage_surface_rect i _ true s) as [s1 on] eqn:E. apply damage_surface_spec in E as [D _].
    by eapply reports_damaged. }
  destruct m as [s1 [sh|]]; cbn [fst] in *; [|done].
  eapply reports_trans; [exact Hm|]. eapply reports_trans; [|apply IH]. by apply reports_same.
Qed.

Lemma consume_surface_reports i s : reports i s (consume_surface i s).
Proof.
  unfold consume_surface. destruct (su_header _) as [h|]; [|by apply reports_same].
  destruct (su_broken _); [by apply reports_same|].
  pose proof (consume_loop_reports i (hd_submit_sequence h) consume_fuel (u64 (su_consumed (surface s i) + 1)) false false s) as Hl.
  destruct (consume_loop _ _ _ _ _ _ _) as [s1 [[shown any]|]]; cbn [fst] in Hl; [|done].
  destruct any; cbn [negb]; [|done]. eapply reports_trans; [exact Hl|]. apply reports_same.
  destruct shown; [done|]. by rewrite mark_retired_broken, mark_composed_broken.
Qed.

(** A good surface is in its invariant whenever its turn comes. *)
Lemma consume_unreported s : scene_ok s -> unreported s -> unreported (scene_consume_frames s).
Proof.
  intros Hok Hu. unfold scene_consume_frames. change (SAVANXP_COMPOSITOR_SURFACE_WM + 1) with 2.
  unfold SAVANXP_COMPOSITOR_MAX_SURFACES.
  apply (for_z_ind (fun i s' => taken_below good s i s' /\ unreported s')); [lia|split; [|done]|].
  - by apply taken_below_start.
  - intros i s' Hi [Hb Hun]. split; [by apply taken_step; [apply ok_array|apply ok_frames|..]|].
    destruct (_ && _) eqn:Ec; [|done]. intros id Hc Hg. specialize (Hun id Hc Hg).
    destruct (decide (id = i)) as [->|Hne].
    2:{ rewrite (consume_surface_reports i s' id); [done|lia|unfold client_id, SAVANXP_COMPOSITOR_SURFACE_WM in Hc; lia]. }
    pose proof Hb as ((s1 & D1 & S1) & Hrest & _).
    assert (Ei : surface s' i = surface s i) by (apply Hrest; lia).
    assert (Hin : in_array s' i).
    { apply (pictures_array s1 s' i S1). destruct D1 as [-> _]. exact (array_client s i Hok Hc). }
    assert (Hbe : behaves good s i = true) by (unfold behaves; rewrite Hc, Hg, <- Ei; by destruct (su_in_use (surface s' i))).
    destruct (consume_surface_good i s' Hin) as (_ & -> & _); [|done]. rewrite Ei. by apply (ok_frames s Hok).
Qed.

Lemma for_z_broken lo hi (f : Z -> scene -> scene) s :
  (forall i s, sn_broken (f i s) = sn_broken s) -> sn_broken (for_z lo hi f s) = sn_broken s.
Proof.
  intros Hf. destruct (Z_le_gt_dec lo hi); [|by rewrite for_z_nil by lia].
  apply (for_z_ind (fun _ s' => sn_broken s' = sn_broken s)); [done..|]. intros i s' _ H. by rewrite Hf.
Qed.

Lemma damage_rect_broken r s : sn_broken (damage_rect r s) = sn_broken s.
Proof. unfold damage_rect. by case_if. Qed.

Lemma take_cursor_broken s : sn_broken (take_cursor assets s) = sn_broken s.
Proof. destruct (take_cursor_damaged s) as (q & [E _] & ->). cbn [set_cursors sn_broken]. rewrite E. reflexivity. Qed.
Lemma take_repaint_broken s : sn_broken (take_repaint s) = sn_broken s.
Proof. destruct (take_repaint_restaged s) as (st & E & _). rewrite E. reflexivity. Qed.
Lemma changed_broken prev n s : sn_broken (damage_changed_layers prev n s) = sn_broken s.
Proof. destruct (changed_damaged prev n s) as [E _]. rewrite E. reflexivity. Qed.

Lemma taken_over_broken sc s : sn_broken (taken_over sc s) = sn_broken s.
Proof. unfold taken_over. cbv zeta. rewrite take_cursor_broken, take_repaint_broken, changed_broken. reflexivity. Qed.

Lemma detach_unreported id s : unreported s -> unreported (scene_detach id s).
Proof.
  intros H. unfold scene_detach. destruct (surface_at s id); [|done]. intros i Hc Hg.
  cbn [set_broken sn_broken]. rewrite Z.land_spec.
  assert (E : forall q, sn_broken (release_surface id q) = sn_broken q)
    by (intros q; unfold release_surface, close_handle; cbn [set_surface set_surfaces sn_broken]; repeat case_if; done).
  rewrite E. destruct (damage_surface_rect id _ true s) as [s1 on] eqn:Ed. apply damage_surface_spec in Ed as [[E1 _] _].
  cbn [fst]. assert (E2 : sn_broken s1 = sn_broken s) by (rewrite E1; done).
  destruct (sn_stage s1); [case_if|]; cbn [set_stage call sn_broken]; by rewrite E2, H.
Qed.

Lemma compose_broken s : sn_broken (fst (scene_compose assets s)) = sn_broken s.
Proof.
  unfold scene_compose. cbv zeta. destruct (sn_display (set_damage _ s)); [|done]. destruct (sx_region_is_empty _); [done|].
  cbn [fst]. unfold mark_all_composed. rewrite for_z_broken; [done|]. intros i q. cbv zeta. destruct (_ && _); [|done].
  apply mark_composed_broken.
Qed.

Lemma retire_broken s : sn_broken (scene_retire s) = sn_broken s.
Proof.
  unfold scene_retire. rewrite for_z_broken; [done|]. intros i q. cbv zeta. destruct (_ && _); [|done].
  apply mark_retired_broken.
Qed.

Lemma attach_broken desc section wake mapped staged s :
  sn_broken (fst (scene_attach desc section wake mapped staged s)) = sn_broken s.
Proof.
  unfold scene_attach, release_surface, close_handle.
  destruct (attach_refused s desc); [by repeat case_if|]. destruct mapped; [|by repeat case_if].
  destruct (has_flag _ _); [done|]. destruct staged as [[stage [px|e]]|e]; cbn [fst]; repeat case_if; done.
Qed.

Lemma step_unreported s s' : scene_ok s -> unreported s -> step s s' -> unreported s'.
Proof.
  intros Hok Hu Hst. destruct Hst.
  - done.
  - done.
  - done.
  - unfold scene_map_scene_section. by destruct mapped.
  - eapply unreported_same; [apply attach_broken|done].
  - by apply detach_unreported.
  - unfold scene_commit. destruct (sn_shared s) as [sc|] eqn:Esc; [|done]. destruct (negb _); [done|]. cbn [fst].
    destruct (H sc Esc) as [Hl Hc]. fold (taken_over sc s).
    apply consume_unreported; [by apply commit_ok3|]. eapply unreported_same; [apply taken_over_broken|done].
  - by apply consume_unreported.
  - eapply unreported_same; [apply compose_broken|done].
  - eapply unreported_same; [apply retire_broken|done].
  - intros id _ _. apply Z.bits_0.
  - done.
  - unfold scene_set_software_cursor, damage_cursor. destruct (cu_visible _); [|done].
    eapply unreported_same; [apply damage_rect_broken|done].
  - unfold scene_reset. match goal with |- context [for_z 0 ?n ?f s] => set (s1 := for_z 0 n f s) end.
    assert (H1 : unreported s1).
    { apply (for_z_ind (fun _ s' => unreported s')); [done..|]. intros i q _ Hq. case_if; [|done]. by apply detach_unreported. }
    by destruct (sn_shared s1).
Qed.

Lemma submit_unreported ctx id f er s : unreported s -> unreported (client_submit ctx id f er s).
Proof. intros Hu. unfold client_submit. destruct (su_header _); [|done]. by destruct (submit _ _ _ _ _) as [[h' bs'] r]. Qed.

Lemma run_invariant un s : run un s -> invariant un s /\ unreported s.
Proof.
  induction 1 as [|un s s' _ [Hi Hu] Hst|un s ctx id f b px _ [Hi Hu] Hmay|un s ctx id f er left_ _ [Hi Hu] Hmay Hleft].
  - split; [apply invariant_start|]. intros id _ _. apply Z.bits_0.
  - split; [by eapply step_invariant|]. by eapply step_unreported; [apply Hi|..].
  - split; [by apply (paint_invariant un s ctx id f b px)|done].
  - split; [by apply submit_invariant|by apply submit_unreported].
Qed.

Lemma scene_reachable_ok s : reachable s -> scene_ok s /\ unreported s.
Proof. intros [un Hr]. apply run_invariant in Hr as [[Hok _] Hu]. by split. Qed.
End Run.
