(* ===== verification/SceneLaws.v ===== *)
(** * What the compositor promises

    The theorems on the scene: what a composition draws, that the screen shows
    the scene after a run of the window manager and its clients, that a
    client that keeps to sxnwm.h is never taken for a broken one and gets every
    frame back, and the two places where the code falls short. *)

From S2P Require Import Prelude Rect Region RegionFacts RegionLaws RegionClip Painter PainterFacts PainterLaws Scene SceneFacts WmClient SceneFrames SceneRun.

Section Laws.
Context (assets : Z -> cursor_asset).

(** Consuming what the clients published and composing it. *)
Definition frame (s : scene) : scene := fst (scene_compose assets (scene_consume_frames s)).

Lemma consume_look s : all_surfaces s -> look (scene_consume_frames s) = look s /\
  sn_display (scene_consume_frames s) = sn_display s /\ sn_display_info (scene_consume_frames s) = sn_display_info s /\
  target_cursor (scene_consume_frames s) = target_cursor s.
Proof.
  intros Ha. destruct (consume_frames_taken (fun _ => false) s Ha) as ((s1 & [E _] & S) & _).
  { intros id Hb. unfold behaves in Hb. by rewrite andb_false_r in Hb. }
  pose proof S as (S1 & S2 & S3 & _ & S5 & S6 & _).
  split; [rewrite S1, E; done|]. split; [rewrite S2, E; done|]. split; [rewrite S3, E; done|].
  apply target_cursor_same; [rewrite S5, E|rewrite S6, E]; done.
Qed.

Lemma compose_look s : scene_ok (fun _ => false) s ->
  let s' := fst (scene_compose assets s) in
  look s' = look s /\ sn_display_info s' = sn_display_info s /\ target_cursor s' = target_cursor s /\
  (sn_display s <> None -> sn_display s' <> None /\ sx_region_is_empty (sn_damage s') = true).
Proof.
  intros Hok s'. subst s'. destruct (sn_display s) as [px|] eqn:Epx; [destruct (sx_region_is_empty (due s)) eqn:Ee|].
  - rewrite compose_idle by tauto. cbn [fst set_damage sn_display sn_damage]. rewrite Epx. done.
  - destruct (compose_drawn_ok assets _ s px Hok Epx Ee) as (K1 & _ & _ & K4 & L & K5 & K6 & _).
    split; [done|]. split; [done|]. split; [done|]. intros _. rewrite K4. split; [|done].
    destruct Hok as [_ A2 A3 A4 A5 _ _]. destruct A4 as [A4|A4]; [congruence|].
    destruct (compose_effect assets s A4 A2 (backed_drawable s A5) (proj1 A3) Ee) as (_ & _ & _ & _ & (px' & E & _) & _).
    unfold display_bitmap, sx_bitmap_wrap in E. cbn [bm_pixels] in E. congruence.
  - rewrite compose_idle by tauto. cbn [fst]. split; [done|]. split; [done|]. split; [done|]. done.
Qed.

Lemma ok_any good s : scene_ok good s -> scene_ok (fun _ => false) s.
Proof. intros []. constructor; try done. intros id Hb. unfold behaves in Hb. by rewrite andb_false_r in Hb. Qed.

(** A composition leaves no new batch to consume. *)
Lemma compose_pending good s id x y : scene_ok good s -> behaves good s id = true ->
  pending_patch (fst (scene_compose assets s)) id x y -> pending_patch s id x y.
Proof.
  intros Hok Hb (k & Hk & Hp). exists k. destruct (sn_display s) as [px|] eqn:Epx.
  2:{ rewrite compose_idle in Hk, Hp by tauto. split; [exact Hk|exact Hp]. }
  destruct (sx_region_is_empty (due s)) eqn:Ee.
  { rewrite compose_idle in Hk, Hp by tauto. split; [exact Hk|exact Hp]. }
  destruct (compose_drawn_ok assets _ s px (ok_any _ _ Hok) Epx Ee) as (_ & _ & _ & _ & L & _).
  pose proof (compose_surfaces assets s px id Epx Ee (ok_array _ _ Hok)) as Esu.
  rewrite (behaves_client good s id Hb) in Esu. unfold slot in *. rewrite Esu, compose_surface_batches in *.
  destruct (compose_surface_ok _ (ok_frames _ _ Hok id Hb)) as (_ & E1 & E2 & _). rewrite E1, E2 in Hk.
  split; [exact Hk|]. by apply (batch_patch_look s _ id _ x y L).
Qed.

Lemma compose_settled good s x y : scene_ok good s -> sn_display s <> None -> on_display s x y = true ->
  (forall id, behaves good s id = true -> ~ pending_patch s id x y) ->
  settled good (fst (scene_compose assets s)) x y.
Proof.
  intros Hok Hd Hon Hp. destruct (compose_look s (ok_any _ _ Hok)) as (L & I & _ & D). destruct (D Hd) as [D1 D2].
  split; [by rewrite (on_display_info s)|]. split; [done|]. split.
  - intros K. unfold in_region in K. unfold sx_region_is_empty in D2.
    destruct (rg_bands (sn_damage (fst (scene_compose assets s)))); [|done]. by inversion K.
  - intros id Hb K. rewrite (behaves_look good s _ id L) in Hb. apply (Hp id Hb). exact (compose_pending good s id x y Hok Hb K).
Qed.

(** Everything is settled after a frame. *)
Lemma frame_settled good s x y : scene_ok good s -> sn_display s <> None -> on_display s x y = true ->
  settled good (frame s) x y.
Proof.
  intros Hok Hd Hon. destruct (consume_look s (ok_array _ _ Hok)) as (_ & C2 & C3 & _). apply compose_settled.
  - by apply consume_ok.
  - by rewrite C2.
  - by rewrite (on_display_info s).
  - intros id Hb. by apply (consume_nothing_pending good).
Qed.
Lemma frame_look good s : scene_ok good s -> look (frame s) = look s /\ target_cursor (frame s) = target_cursor s.
Proof.
  intros Hok. destruct (consume_look s (ok_array _ _ Hok)) as (C1 & _ & _ & C4).
  destruct (compose_look _ (ok_any _ _ (consume_ok good s Hok))) as (L & _ & T & _). unfold frame. rewrite L, T. done.
Qed.
End Laws.

Lemma faithful_seen assets good s q x y f :
  look q = look s -> target_cursor q = target_cursor s -> faithful assets good q x y -> settled good q x y ->
  front_layer s x y = Some f -> trusted good (ly_surface_id (layer_at s f)) = true ->
  screen_pixel q x y = over (cursor_pixel assets (target_cursor s) x y) (default 0 (layer_sample s (layer_at s f) x y)).
Proof.
  intros L T Hfa Hst Hf Ht. destruct (Hfa f Hst) as [E _].
  - by rewrite (look_front _ s x y L).
  - by rewrite (look_layer _ s f L).
  - by rewrite E, T, (look_layer _ s f L), (look_sample _ s _ x y L).
Qed.

(** What was unsent before a frame is unsent after it. *)
Lemma frame_unsent assets good un s x y : scene_ok good s ->
  ~ unsent_patch good un s x y -> ~ unsent_patch good un (frame assets s) x y.
Proof.
  intros Hok Hno (id & b & Hb & Hbe & Hp). destruct (frame_look assets good s Hok) as [L _]. apply Hno. exists id, b.
  split; [done|]. rewrite <- (behaves_look good s _ id L). split; [done|]. by apply (batch_patch_look s _ id b x y L).
Qed.

(** C2. A run interleaves the window manager, compositord, clients that keep to
    sxnwm.h (they paint and submit at different moments, and a full ring refuses
    the frame) and clients that write anything into their memory.  After a run in
    which no region of a composition overflowed and no surface was attached under
    an id that a layer still named, a frame whose regions do not overflow makes
    every pixel of the display whose frontmost live layer shows a trusted surface
    equal to that layer's pixel with the cursor over it, except where a client
    has painted what it has not submitted: within those runs no damage is
    forgotten, whatever the order of commits, attaches, detaches, submissions,
    mode and cursor changes. *)
Theorem screen_shows_scene assets good un s x y f :
  run assets good un s -> ~ unsent_patch good un s x y -> sn_display s <> None -> compose_fits (scene_consume_frames s) ->
  on_display s x y = true -> front_layer s x y = Some f -> trusted good (ly_surface_id (layer_at s f)) = true ->
  screen_pixel (frame assets s) x y =
    over (cursor_pixel assets (target_cursor s) x y) (default 0 (layer_sample s (layer_at s f) x y)).
Proof.
  intros Hr Hno Hd Hfit Hon Hf Ht.
  assert (Hr' : run assets good un (frame assets s)).
  { eapply run_step; [eapply run_step; [exact Hr|apply StepConsume]|by apply StepCompose]. }
  destruct (run_invariant _ _ _ _ Hr) as [[Hok _] _]. destruct (run_invariant _ _ _ _ Hr') as [[_ Hfa] _].
  destruct (frame_look assets good s Hok) as [L T].
  pose proof (frame_settled assets good s x y Hok Hd Hon) as Hst.
  pose proof (Hfa x y (frame_unsent assets good un s x y Hok Hno)) as Hfx.
  exact (faithful_seen assets good s (frame assets s) x y f L T Hfx Hst Hf Ht).
Qed.

(** C23. What one composition draws, in any state: on the damage the pixel of
    the frontmost live layer with the cursor over it, or, where no layer is,
    the cursor over what was there; elsewhere nothing changes, when no region
    on the way overflowed.  The damage is handed over and starts anew. *)
Theorem scene_compose_exact assets s :
  display_ok s -> region_ok (sn_damage s) -> drawable s -> 0 <= sn_layer_count s ->
  sx_region_is_empty (due s) = false ->
  let s' := fst (scene_compose assets s) in
  snd (scene_compose assets s) = due s /\ sn_damage s' = sx_region_clear /\
  forall x y, on_display s x y = true ->
    let cursor := over (cursor_pixel assets (target_cursor s) x y) in
    (in_region (sn_damage s) x y -> forall f, front_layer s x y = Some f ->
       screen_pixel s' x y = cursor (default 0 (layer_sample s (layer_at s f) x y))) /\
    (in_region (sn_damage s) x y -> front_layer s x y = None -> screen_pixel s' x y = cursor (screen_pixel s x y)) /\
    (compose_fits s -> ~ in_region (sn_damage s) x y -> screen_pixel s' x y = screen_pixel s x y).
Proof.
  intros Hok Hd Hdr Hn He s'. destruct (compose_effect assets s Hok Hd Hdr Hn He) as (E1 & _ & E3 & _ & _ & _ & _ & _ & E9).
  split; [done|]. split; [done|]. intros x y Hon cursor. pose proof (due_ok s Hd) as Hdue.
  assert (Hc : sx_region_contains_point (due s) x y = true <-> in_region (sn_damage s) x y)
    by (rewrite region_contains_iff by done; rewrite due_points by done; tauto).
  assert (Hin : in_region (sn_damage s) x y -> in_region (due s) x y) by (intros K; apply due_points; done).
  subst s'. rewrite E9 by done. unfold composed_pixel. split; [|split].
  - intros K f Hf. rewrite (proj2 Hc K). unfold cursor. f_equal. apply stacked_damaged; auto.
  - intros K Hf. rewrite (proj2 Hc K). unfold cursor. f_equal. apply stacked_uncovered; auto.
  - intros Hfit K. destruct (sx_region_contains_point (due s) x y); [tauto|]. apply stacked_undamaged; auto.
    intros D. apply due_points in D; tauto.
Qed.

(** C10. A client that publishes through sxnwm.h is never marked broken nor
    reported to the window manager, whatever the other clients write and
    whatever the order of a run (of those that C2 is about: compositions that do
    not overflow, no attach to an id a layer still names), and its sequence numbers stay in order: retired,
    composed, consumed, submitted, with at most a ring of frames on the way. *)
Theorem good_client_never_broken assets good s id :
  reachable assets good s -> client_id id = true -> good id = true ->
  Z.testbit (snd (scene_take_broken s)) id = false /\
  (su_in_use (surface s id) = true -> su_broken (surface s id) = false /\
   exists h, su_header (surface s id) = Some h /\
     hd_retired_sequence h <= hd_composed_sequence h <= su_consumed (surface s id) /\
     su_consumed (surface s id) <= hd_submit_sequence h <= hd_composed_sequence h + SAVANXP_GPU_CLIENT_BATCH_CAPACITY).
Proof.
  intros Hr Hc Hg. destruct (scene_reachable_ok _ _ _ Hr) as [Hok Hu]. split; [by apply Hu|]. intros Hin.
  assert (Hb : behaves good s id = true) by (unfold behaves; by rewrite Hc, Hg, Hin).
  destruct (ok_frames _ _ Hok id Hb) as (_ & H1 & _ & h & Hh & (Q1 & Q2 & _) & _ & _ & R3 & _).
  split; [done|]. exists h. split; [done|]. lia.
Qed.

(** C12. In the same runs, every frame a well-behaved client published comes back: where no layer
    shows its surface, as soon as it is consumed; otherwise with the next
    composition that draws, once that is retired.  The client then has nothing
    outstanding and its ring accepts the next frame. *)
Theorem frames_are_acknowledged assets good s id ctx :
  reachable assets good s -> behaves good s id = true ->
  cl_batch_capacity ctx = SAVANXP_GPU_CLIENT_BATCH_CAPACITY ->
  let sent := submitted (surface s id) in
  let s1 := scene_consume_frames s in
  let s3 := scene_retire (fst (scene_compose assets s1)) in
  ((forall index, ~ shows_surface s id index) -> su_consumed (surface s id) < sent -> acknowledged (surface s1 id) sent) /\
  (sn_display s <> None -> sx_region_is_empty (due s1) = false ->
   acknowledged (surface s3 id) sent /\
   exists h, su_header (surface s3 id) = Some h /\ hd_submit_sequence h = sent /\
     sxnwm_idle h = true /\ ring_full ctx h = false).
Proof.
  intros Hr Hb Hcap sent s1 s3. destruct (scene_reachable_ok _ _ _ Hr) as [Hok _].
  destruct (consume_frames_taken good s (ok_array _ _ Hok) (ok_frames _ _ Hok)) as (_ & _ & Ht).
  destruct (Ht id Hb (behaves_below _ _ _ Hb)) as (T1 & T2 & T3 & T4). split; [exact T4|].
  intros Hd He. destruct (consume_look s (ok_array _ _ Hok)) as (L & C2 & _ & _).
  pose proof (consume_ok good s Hok) as Hok1. rewrite <- C2 in Hd. fold s1 in L, Hok1, Hd.
  destruct (sn_display s1) as [px|] eqn:Epx; [|done].
  pose proof (compose_surfaces assets s1 px id Epx He (ok_array _ _ Hok1)) as E2.
  destruct (compose_drawn_ok assets good s1 px Hok1 Epx He) as (Hok2 & _).
  pose proof (retire_surface_spec _ id (ok_array _ _ Hok2)) as E3. rewrite E2 in E3.
  rewrite (behaves_client _ _ _ Hb) in E3. fold s3 in E3.
  destruct (compose_surface_ok _ T1) as (O1 & O2 & O3 & h & O4 & O5).
  destruct (retire_surface_ok _ O1) as (P1 & P2 & P3 & h0 & h1 & P4 & P5 & P6 & P7). rewrite O4 in P4. injection P4 as <-.
  fold s1 in T3, O2, O3, O5, P2, P5.
  assert (Esub : hd_submit_sequence h1 = sent).
  { assert (E : submitted (retire_surface (compose_surface (surface s1 id))) = hd_submit_sequence h1) by (unfold submitted; by rewrite P5).
    unfold sent. rewrite <- E, P2, O2. exact T2. }
  rewrite E3. fold sent in T3. split; [exists h1; split; [done|lia]|]. exists h1. split; [done|]. split; [done|].
  unfold sxnwm_idle, ring_full. rewrite Hcap, P6, O5, T3, Esub, Z.sub_diag. split; [lia|done].
Qed.

(** However a client fills its memory, the loop over its batches stops
    after one turn per slot: more fuel never changes what is consumed. *)
Theorem consume_terminates id s extra shown any :
  let first := u64 (su_consumed (surface s id) + 1) in
  let sent := submitted (surface s id) in
  consume_loop (consume_fuel + extra) id first sent shown any s = consume_loop consume_fuel id first sent shown any s.
Proof.
  cbv zeta. set (first := u64 _). assert (Hf : 0 <= first < 2 ^ 64) by (apply Z.mod_pos_bound; lia).
  assert (E : u64 (first + 0) = first) by (rewrite Z.add_0_r; apply Z.mod_small; exact Hf).
  rewrite <- E. apply (consume_loop_stops id _ first extra 8 0); [done..|]. intros i Hi. lia.
Qed.

(** ** Small desktops

    The first: a display of four by two pixels, the window manager's surface
    behind and a client's two by two window in front of it, with a software
    cursor. *)

Module Demo.
Definition assets (_ : Z) : cursor_asset := mk_asset 1 1 0 0 [0xFF00FF00].
Definition good (id : Z) : bool := id =? 2.
Definition ring : list dirty_rect_batch := replicate 8 (mk_batch 0 0 0 (replicate 32 zero_dirty)).

Lemma ring_fresh desc wake px : has_flag (ds_flags desc) SAVANXP_COMPOSITOR_SURFACE_CLIENT = true ->
  frames_ok (attached desc wake (mk_view (mk_header 0 0 0) ring px)).
Proof.
  intros Hf. unfold attached. rewrite Hf. split; [done|]. split; [done|]. split; [done|]. exists (mk_header 0 0 0). split; [done|].
  split; [unfold sequences_ok; simpl; lia|]. split; [|split; [done|split; [done|simpl; lia]]].
  split; [done|]. by repeat constructor.
Qed.

(** Everything up to the scene section, on a display of the given geometry. *)
Definition start (info : fb_info) (pixels : list Z) : scene :=
  scene_set_software_cursor assets true (scene_set_display (Some pixels) info scene0).
Definition with_wm (desc : compositor_surface) (pixels stage : list Z) (s : scene) : scene :=
  fst (scene_attach desc 3 (-1) (Ok (mk_view (mk_header 0 0 0) [] pixels)) (Ok (5, Ok stage)) s).
Definition with_client (desc : compositor_surface) (pixels : list Z) (s : scene) : scene :=
  fst (scene_attach desc 6 7 (Ok (mk_view (mk_header 0 0 0) ring pixels)) (Fail 0) s).
Definition with_scene (sc : compositor_scene) (s : scene) : scene :=
  fst (scene_map_scene_section 8 (Ok sc) s).
Definition commit (s : scene) : scene := fst (scene_commit assets s).
Definition round (s : scene) : scene := scene_retire (frame assets s).

(** A run after which everything painted was submitted. *)
Definition reached (s : scene) : Prop := exists un, run assets good un s /\ forall id, un id = [].

Lemma reached_reachable s : reached s -> reachable assets good s.
Proof. intros (un & Hr & _). by exists un. Qed.

Lemma reached_start : reached scene0.
Proof. exists none_unsent. split; [constructor|done]. Qed.

Lemma reached_step s s' : reached s -> step assets good s s' -> reached s'.
Proof. intros (un & Hr & Hu) Hst. exists un. split; [by eapply run_step|done]. Qed.

Lemma start_reached info pixels : display_ok (set_display (Some pixels) info scene0) ->
  reached (start info pixels).
Proof.
  intros H. eapply reached_step; [|apply StepSoftwareCursor]. eapply reached_step; [apply reached_start|apply StepDisplay]. by right.
Qed.

Lemma with_wm_reached desc pixels stage s : reached s -> sn_layer_count s = 0 ->
  ds_surface_id desc = 1 -> 0 <= ds_capacity_width desc -> reached (with_wm desc pixels stage s).
Proof.
  intros Hr Hn Hid Hw. eapply reached_step; [exact Hr|apply StepAttach]. unfold may_attach. rewrite Hid.
  split; [done|]. split; [done|]. split; [intros i [Hi _]; lia|done].
Qed.

Lemma with_client_reached desc pixels s : reached s -> sn_layer_count s = 0 ->
  ds_surface_id desc = 2 -> 0 <= ds_capacity_width desc ->
  has_flag (ds_flags desc) SAVANXP_COMPOSITOR_SURFACE_CLIENT = true -> reached (with_client desc pixels s).
Proof.
  intros Hr Hn Hid Hw Hf. eapply reached_step; [exact Hr|apply StepAttach]. unfold may_attach. rewrite Hid.
  split; [done|]. split; [done|]. split; [intros i [Hi _]; lia|]. intros view [= <-] _ _. by apply ring_fresh.
Qed.

Lemma with_scene_reached sc s : reached s -> reached (with_scene sc s).
Proof. intros Hr. eapply reached_step; [exact Hr|apply StepMapScene]. Qed.

Lemma layers_listed sc : Forall layer_ok (sc_layers sc) -> layers_ok sc.
Proof.
  intros H i. assert (H0 : layer_ok layer0) by (split; [unfold rect_int32, int32; simpl; lia|done]).
  unfold at_. destruct (i <? 0); [done|]. rewrite nth_lookup. rewrite Forall_lookup in H.
  destruct (_ !! _) eqn:E; [by eapply H|done].
Qed.

Lemma commit_reached sc s : reached s -> sn_shared s = Some sc -> Forall layer_ok (sc_layers sc) ->
  0 <= sc_layer_count sc -> reached (commit s).
Proof.
  intros Hr Hs Hl Hc. eapply reached_step; [exact Hr|apply StepCommit]. intros sc' H. rewrite Hs in H. injection H as <-.
  split; [by apply layers_listed|done].
Qed.

Lemma round_reached s : reached s -> compose_fits (scene_consume_frames s) -> reached (round s).
Proof.
  intros Hr Hf. eapply reached_step; [|apply StepRetire]. eapply reached_step; [|by apply StepCompose].
  eapply reached_step; [exact Hr|apply StepConsume].
Qed.

(** Decides that no region of a composition overflows. *)
Lemma fits_listed s n : sn_layer_count s = Z.of_nat n ->
  forallb (fun i => negb (rg_overflowed (layer_visible s (unmarked (due s)) (Z.of_nat i)))) (seq 0 n) = true -> compose_fits s.
Proof.
  intros Hn H i Hi. rewrite forallb_forall in H. specialize (H (Z.to_nat i)). rewrite Z2Nat.id in H by lia.
  unfold fits. apply negb_true_iff, H. apply in_seq. lia.
Qed.

Definition info : fb_info := mk_info 4 2 16 32 32.
Definition wm_desc : compositor_surface := mk_surface_desc 1 0 32 0 16 4 2.
Definition client_desc : compositor_surface := mk_surface_desc 2 1 5544 5528 8 2 2.
Definition client_ctx : wm_client := mk_client 2 2 8 32.

(** The scene of the WM, with the client's window at [at_x]. *)
Definition desktop (at_x : Z) : compositor_scene :=
  mk_compositor_scene SAVANXP_COMPOSITOR_SCENE_MAGIC 1 2 0 3 1 0 1
    [mk_layer 1 1 (mk_rect 0 0 4 2) (mk_rect 0 0 4 2); mk_layer 2 1 (mk_rect 0 0 2 2) (mk_rect at_x 0 2 2)] [].

Definition desktop_up (at_x : Z) : scene :=
  with_scene (desktop at_x) (with_client client_desc [21; 22; 23; 24]
    (with_wm wm_desc [11; 12; 13; 14; 15; 16; 17; 18] (replicate 8 0) (start info (replicate 8 0)))).
Definition publish_all (s : scene) : scene := client_submit client_ctx 2 FullFrame 0 (client_paint 2 [31; 32; 33; 34] s).
Definition published : scene := publish_all (commit (desktop_up 1)).

Lemma desktop_reached at_x : reached (commit (desktop_up at_x)).
Proof.
  eapply (commit_reached (desktop at_x)); [|done| |done].
  - apply with_scene_reached, with_client_reached; [|done..]. apply with_wm_reached; [|done..].
    apply start_reached. exists (replicate 8 0). split; [done|]. vm_compute. intuition congruence.
  - repeat constructor; try done; simpl; lia.
Qed.

Lemma publish_reached s : reached s -> behaves good s 2 = true ->
  su_capacity_width (surface s 2) = 2 -> su_capacity_height (surface s 2) = 2 -> submitted (surface s 2) < 100 ->
  negb (submitted (surface (publish_all s) 2) =? submitted (surface s 2)) = true -> reached (publish_all s).
Proof.
  intros (un & Hr & Hu) Hb Hw Hh Hs Hsent. destruct (run_invariant _ _ _ _ Hr) as [[Hok _] _].
  assert (Hid : in_array s 2) by exact (array_client good s 2 Hok eq_refl).
  set (b := mk_batch 0 1 SAVANXP_GPU_SURFACE_PRESENT_BATCH_FLAG_FULL_SURFACE []). assert (Hp : may_paint good client_ctx 2 FullFrame b [31; 32; 33; 34] s) by done.
  pose proof (run_paint _ _ un s client_ctx 2 FullFrame b _ Hr Hp) as Hr1.
  assert (Eu : surface (client_paint 2 [31; 32; 33; 34] s) 2 = repainted [31; 32; 33; 34] (surface s 2)).
  { unfold client_paint. by rewrite surface_set_eq. }
  eexists. split.
  - apply (run_submit _ _ _ _ client_ctx 2 FullFrame 0 [] Hr1).
    + split; [unfold behaves in *; by rewrite Eu|]. rewrite Eu. split; [|split; [done|]].
      * split; [done|]. split; [done|]. cbn [repainted su_capacity_width su_capacity_height]. rewrite Hw, Hh. done.
      * unfold submitted in *. cbn [repainted su_header]. lia.
    + intros c _. right. split; [|done]. rewrite Eu. fold (publish_all s). unfold submitted in *. cbn [repainted su_header]. lia.
  - intros id. unfold set_unsent. destruct (id =? 2); [done|]. by apply Hu.
Qed.

Lemma published_reached : reached published.
Proof. apply publish_reached; [apply desktop_reached|vm_compute; reflexivity..]. Qed.

Lemma published_fits : compose_fits (scene_consume_frames published).
Proof. apply (fits_listed _ 2); vm_compute; reflexivity. Qed.

(** The frame on the screen. *)
Example desktop_pixels : sn_display (frame assets published) = Some [11; 31; 32; 14; 15; 33; 34; 0xFF00].
Proof. vm_compute. reflexivity. Qed.
End Demo.

Lemma screen_shows_scene_witness : screen_pixel (frame Demo.assets Demo.published) 1 0 = 31.
Proof.
  destruct Demo.published_reached as (un & Hr & Hu).
  rewrite (screen_shows_scene Demo.assets Demo.good un Demo.published 1 0 1 Hr);
    [vm_compute; reflexivity| |vm_compute; discriminate|apply Demo.published_fits|reflexivity..].
  intros (id & b & Hb & _). rewrite Hu in Hb. by apply elem_of_nil in Hb.
Defined.

Lemma scene_compose_exact_witness :
  let s := scene_consume_frames Demo.published in
  screen_pixel (fst (scene_compose Demo.assets s)) 3 1 = over (Some 0xFF00FF00) 18.
Proof.
  intros s. destruct (scene_reachable_ok _ _ _ (Demo.reached_reachable _ Demo.published_reached)) as [Hok _].
  apply consume_ok in Hok. fold s in Hok. destruct Hok as [_ A2 A3 A4 A5 _ _]. destruct A4 as [A4|A4]; [by vm_compute in A4|].
  destruct (scene_compose_exact Demo.assets s A4 A2 (backed_drawable s A5) (proj1 A3)) as (_ & _ & H); [vm_compute; reflexivity|].
  destruct (H 3 1) as [H1 _]; [vm_compute; reflexivity|]. rewrite (H1) with (f := 0); [vm_compute; reflexivity| |vm_compute; reflexivity].
  apply region_contains_iff; [exact A2|vm_compute; reflexivity].
Defined.

Lemma good_client_never_broken_witness : su_broken (surface Demo.published 2) = false.
Proof.
  destruct (good_client_never_broken Demo.assets Demo.good Demo.published 2 (Demo.reached_reachable _ Demo.published_reached) eq_refl eq_refl) as [_ H].
  apply H. vm_compute. reflexivity.
Defined.

Lemma frames_are_acknowledged_witness :
  acknowledged (surface (Demo.round Demo.published) 2) 1.
Proof.
  destruct (frames_are_acknowledged Demo.assets Demo.good Demo.published 2 Demo.client_ctx (Demo.reached_reachable _ Demo.published_reached)) as [_ H];
    [vm_compute; reflexivity|reflexivity|]. apply H; [vm_compute; discriminate|vm_compute; reflexivity].
Defined.

(** ** A window off the screen *)

Module Offscreen.
(** The client's window lies right of the display; its ring is full. *)
Definition settled_desktop : scene := Demo.round (Demo.commit (Demo.desktop_up 10)).
Definition full_ring : scene := Nat.iter 8 Demo.publish_all settled_desktop.

Lemma full_ring_reached : Demo.reached full_ring.
Proof.
  unfold full_ring. cbn [Nat.iter nat_rect]. do 8 (apply Demo.publish_reached; [|vm_compute; reflexivity..]).
  apply Demo.round_reached; [apply Demo.desktop_reached|]. apply (Demo.fits_listed _ 2); vm_compute; reflexivity.
Qed.

Lemma round_stands : Demo.round (Demo.round full_ring) = Demo.round full_ring.
Proof. vm_compute. reflexivity. Qed.

Lemma iter_stands {A} (f : A -> A) x n : f (f x) = f x -> Nat.iter (S n) f x = f x.
Proof. intros H. induction n as [|n IH]; [done|]. by rewrite Nat.iter_succ, IH. Qed.
End Offscreen.

(** A window whose layer lies outside the display is shown by a layer, so
    its frames wait for a composition, and its damage clips to nothing, so none
    comes: consuming, composing and retiring any number of times never
    acknowledges them, and with its ring full the client can publish nothing
    more.  The comment above consume_surface says it must never stall. *)
Theorem offscreen_client_stalls :
  reachable Demo.assets Demo.good Offscreen.full_ring /\ behaves Demo.good Offscreen.full_ring 2 = true /\
  forall n, let u := surface (Nat.iter n Demo.round Offscreen.full_ring) 2 in
    su_header u = Some (mk_header 8 0 0) /\
    snd (sxnwm_submit_full Demo.client_ctx 0 (mk_header 8 0 0) (su_batches u)) = - SAVANXP_EAGAIN.
Proof.
  split; [apply Demo.reached_reachable, Offscreen.full_ring_reached|]. split; [vm_compute; reflexivity|].
  intros [|n]; [|rewrite (Offscreen.iter_stands _ _ n Offscreen.round_stands)]; vm_compute; split; reflexivity.
Qed.

(** ** A region that overflows *)

Module Overflow.
(** A display of seventeen by three pixels; the client's window, one column
    wide, is shown seven and then eight times in front of the window manager's surface. *)
Definition info : fb_info := mk_info 17 3 68 32 204.
Definition wm_desc : compositor_surface := mk_surface_desc 1 0 204 0 68 17 3.
Definition client_desc : compositor_surface := mk_surface_desc 2 1 5540 5528 4 1 3.
Definition columns : list compositor_layer :=
  map (fun i => mk_layer 2 1 (mk_rect 0 0 1 3) (mk_rect (2 * Z.of_nat i + 1) 0 1 3)) (seq 0 8).
Definition desktop (flags layer_count damage_count : Z) : compositor_scene :=
  mk_compositor_scene SAVANXP_COMPOSITOR_SCENE_MAGIC flags layer_count damage_count 0 0 0 0
    (mk_layer 1 1 (mk_rect 0 0 17 3) (mk_rect 0 0 17 3) :: columns) [mk_rect 0 0 17 1; mk_rect 0 2 17 1].

Definition shown : scene :=
  Demo.round (Demo.commit (Demo.with_scene (desktop 1 8 0) (Demo.with_client client_desc [7; 7; 7]
    (Demo.with_wm wm_desc (replicate 51 1) (replicate 51 0) (Demo.start info (replicate 51 0)))))).
(** The WM adds the last column and repaints the first and the last row. *)
Definition repainted : scene := Demo.commit (set_shared (Some (desktop 0 9 2)) shown).

Lemma layers_in_place : Forall layer_ok (mk_layer 1 1 (mk_rect 0 0 17 3) (mk_rect 0 0 17 3) :: columns).
Proof. repeat constructor; try done; simpl; lia. Qed.

Lemma repainted_reached : Demo.reached repainted.
Proof.
  eapply (Demo.commit_reached (desktop 0 9 2)); [|done|apply layers_in_place|done].
  eapply Demo.reached_step; [|apply StepShared; vm_compute; discriminate]. apply Demo.round_reached.
  - eapply (Demo.commit_reached (desktop 1 8 0)); [|done|apply layers_in_place|done].
    apply Demo.with_scene_reached, Demo.with_client_reached; [|done..]. apply Demo.with_wm_reached; [|done..].
    apply Demo.start_reached. exists (replicate 51 0). split; [done|]. vm_compute. intuition congruence.
  - apply (Demo.fits_listed _ 8); vm_compute; reflexivity.
Qed.
End Overflow.

(** The overflow of a visible region is not harmless: with eight opaque
    columns in front, the part of the back layer that two damaged rows leave
    overflows to its bounding box, and the back layer is painted over a column
    on the row between, which is not damaged and which the layer in front does
    not repaint.  The comment on regions says that in front of what was painted
    too much there is always a layer that covers it. *)
Theorem overflow_shows_back_layer :
  let s := Overflow.repainted in
  reachable Demo.assets Demo.good s /\ settled Demo.good s 1 1 /\ front_layer s 1 1 = Some 1 /\
  layer_sample s (layer_at s 1) 1 1 = Some 7 /\ screen_pixel s 1 1 = 7 /\
  screen_pixel (frame Demo.assets s) 1 1 = 1 /\ sx_region_is_empty (sn_damage (frame Demo.assets s)) = true.
Proof.
  split; [apply Demo.reached_reachable, Overflow.repainted_reached|]. split; [|vm_compute; split_and!; reflexivity].
  pose proof (scene_reachable_ok _ _ _ (Demo.reached_reachable _ Overflow.repainted_reached)) as [Hok _].
  split; [vm_compute; reflexivity|]. split; [vm_compute; discriminate|]. split.
  - rewrite <- region_contains_iff by apply Hok. vm_compute. discriminate.
  - intros id Hb (k & Hk & _). assert (id = 2) as -> by (unfold behaves, Demo.good in Hb; destruct (id =? 2) eqn:E; [lia|by rewrite andb_false_r in Hb]).
    change (0 < k <= 0) in Hk. lia.
Qed.
