(* ===== verification/SceneStage.v ===== *)
(** * The window manager's stage

    compositord draws the window manager's layers from a copy of its surface,
    the stage, taken with each commit: what the WM paints between commits does
    not show.  Here: a commit copies everything the WM declared repainted, and
    nothing else of the surface. *)

From S2P Require Import Prelude Rect Region RegionFacts RegionLaws RegionClip Painter PainterFacts PainterLaws Scene SceneFacts WmClient SceneFrames SceneRun SceneLaws.

(** A pixel of the WM's surface, and of its stage. *)
Definition wm_index (s : scene) (x y : Z) : Z := y * (su_pitch (surface s SAVANXP_COMPOSITOR_SURFACE_WM) / 4) + x.
Definition wm_pixel (s : scene) (x y : Z) : Z :=
  at_ 0 (default [] (su_pixels (surface s SAVANXP_COMPOSITOR_SURFACE_WM))) (wm_index s x y).
Definition stage_pixel (s : scene) (x y : Z) : Z := at_ 0 (default [] (sn_stage s)) (wm_index s x y).

(** A stage as long as its surface's rows. *)
Definition stage_fits (s : scene) : Prop :=
  let u := surface s SAVANXP_COMPOSITOR_SURFACE_WM in
  su_in_use u = true /\ 0 <= su_capacity_width u <= su_pitch u / 4 /\
  exists stage, sn_stage s = Some stage /\ su_pitch u / 4 * su_capacity_height u <= zlen stage.

(** A point of the WM's surface. *)
Definition on_surface (s : scene) (x y : Z) : Prop :=
  let u := surface s SAVANXP_COMPOSITOR_SURFACE_WM in
  0 <= x < su_capacity_width u /\ 0 <= y < su_capacity_height u.

(** The rows of a rectangle copied over a buffer. *)
Lemma stage_rows_at q stride pixels stage x y :
  0 <= rx q -> 0 <= ry q -> 0 <= rw q -> 0 <= rh q -> rx q + rw q <= stride -> (ry q + rh q) * stride <= zlen stage ->
  0 <= x < stride ->
  let stage' := for_z (ry q) (ry q + rh q) (fun row stage =>
     copy_pixels stage (row * stride + rx q) pixels (row * stride + rx q) (rw q)) stage in
  zlen stage' = zlen stage /\
  at_ 0 stage' (y * stride + x) = if sx_rect_contains_point q x y then at_ 0 pixels (y * stride + x) else at_ 0 stage (y * stride + x).
Proof.
  intros H1 H2 H3 H4 H5 H6 Hx stage'. subst stage'.
  pose proof (for_z_ind (fun i st => zlen st = zlen stage /\
    at_ 0 st (y * stride + x) = if (rx q <=? x) && (x <? rx q + rw q) && (ry q <=? y) && (y <? i)
      then at_ 0 pixels (y * stride + x) else at_ 0 stage (y * stride + x)) (ry q) (ry q + rh q)
    (fun row stage => copy_pixels stage (row * stride + rx q) pixels (row * stride + rx q) (rw q)) stage) as Hind.
  destruct Hind as [I1 I2]; [lia| | |].
  - split; [done|]. destruct (_ && _) eqn:?; [lia|done].
  - intros i st Hi [J1 J2].
    destruct (copy_pixels_at st (i * stride + rx q) pixels (i * stride + rx q) (rw q) (y * stride + x)) as [K1 K2]; [nia|lia|nia|].
    split; [lia|]. rewrite K2, J2. destruct (decide (i = y)) as [->|Hne].
    + repeat case_if; try lia; try (f_equal; lia).
    + assert (E : (i * stride + rx q <=? y * stride + x) && (y * stride + x <? i * stride + rx q + rw q) = false) by nia.
      repeat case_if; try nia; f_equal; lia.
  - split; [done|]. rewrite I2.
    assert (E : sx_rect_contains_point q x y = (rx q <=? x) && (x <? rx q + rw q) && (ry q <=? y) && (y <? ry q + rh q))
      by (apply eq_true_iff_eq; rewrite contains_point_iff; unfold in_rect; lia).
    by rewrite E.
Qed.

(** Staging a rectangle copies its part of the surface, and keeps the rest. *)
Lemma stage_rect_exact r s x y : stage_fits s -> on_surface s x y ->
  stage_fits (stage_rect r s) /\
  stage_pixel (stage_rect r s) x y = if sx_rect_contains_point r x y then wm_pixel s x y else stage_pixel s x y.
Proof.
  intros (Hu & Hw & stage & Hst & Hlen) [Hx Hy]. unfold stage_rect, surface_at. rewrite Hu, Hst. cbn [orb negb].
  change (SAVANXP_COMPOSITOR_SURFACE_WM =? 0) with false. change (SAVANXP_COMPOSITOR_SURFACE_WM >=? _) with false. cbn [orb].
  set (u := surface s SAVANXP_COMPOSITOR_SURFACE_WM) in *.
  set (q := sx_rect_intersect r (sx_rect_make 0 0 (su_capacity_width u) (su_capacity_height u))).
  assert (Eq : sx_rect_contains_point q x y = sx_rect_contains_point r x y).
  { apply eq_true_iff_eq. rewrite !contains_point_iff. unfold q. rewrite in_rect_intersect.
    unfold in_rect, sx_rect_make. cbn [rx ry rw rh]. lia. }
  destruct (sx_rect_is_empty q) eqn:Ee.
  - split; [split; [done|split; [done|by exists stage]]|]. rewrite <- Eq.
    destruct (sx_rect_contains_point q x y) eqn:E; [|done]. apply contains_point_iff in E. by apply in_rect_empty in E.
  - destruct (clip_bounds r _ _ Ee) as (B1 & B2 & B3 & B4 & B5 & B6). fold q in B1, B2, B3, B4, B5, B6.
    destruct (stage_rows_at q (su_pitch u / 4) (default [] (su_pixels u)) stage x y) as [L1 L2]; [lia..|nia|lia|].
    split.
    + split; [done|]. split; [done|]. eexists. split; [done|]. fold u.
      change (surface (set_stage _ _ s) SAVANXP_COMPOSITOR_SURFACE_WM) with u.
      replace (match su_pixels u with Some px => px | None => [] end) with (default [] (su_pixels u)) by done. lia.
    + unfold stage_pixel, wm_pixel, wm_index. rewrite Hst, <- Eq. exact L2.
Qed.

Lemma damage_rect_stage r s : (forall x y, stage_pixel (damage_rect r s) x y = stage_pixel s x y) /\
  surface (damage_rect r s) = surface s /\ sn_stage (damage_rect r s) = sn_stage s /\ sn_scene (damage_rect r s) = sn_scene s /\
  sn_display_info (damage_rect r s) = sn_display_info s.
Proof. destruct (damage_rect_damaged r s) as [E _]. rewrite E. done. Qed.

(** Where a scene declares the WM's surface repainted. *)
Definition repaint_covers (sc : compositor_scene) (display : sx_rect) (x y : Z) : bool :=
  if has_flag (sc_flags sc) SAVANXP_COMPOSITOR_SCENE_FULL_DAMAGE || (sc_damage_count sc >? SAVANXP_COMPOSITOR_MAX_DAMAGE)
  then sx_rect_contains_point display x y
  else for_z 0 (sc_damage_count sc) (fun i b => sx_rect_contains_point (at_ (mk_rect 0 0 0 0) (sc_damage sc) i) x y || b) false.

Lemma stage_fits_same s s' : surface s' = surface s -> sn_stage s' = sn_stage s -> stage_fits s -> stage_fits s'.
Proof. unfold stage_fits. by intros -> ->. Qed.

Lemma stage_rect_same r s : surface (stage_rect r s) = surface s /\ sn_scene (stage_rect r s) = sn_scene s.
Proof. destruct (stage_rect_cases r s) as [->|(? & ? & _ & _ & _ & _ & ->)]; done. Qed.

(** One rectangle staged and damaged. *)
Lemma stage_damage_exact r s x y : stage_fits s -> on_surface s x y ->
  let s' := damage_rect r (stage_rect r s) in
  stage_fits s' /\ surface s' = surface s /\ sn_scene s' = sn_scene s /\
  stage_pixel s' x y = if sx_rect_contains_point r x y then wm_pixel s x y else stage_pixel s x y.
Proof.
  intros Hf Hon s'. destruct (stage_rect_exact r s x y Hf Hon) as [F1 F2]. destruct (stage_rect_same r s) as [E1 E2].
  destruct (damage_rect_stage r (stage_rect r s)) as (D1 & D2 & D3 & D4 & _). subst s'.
  split; [by eapply stage_fits_same|]. split; [congruence|]. split; [congruence|]. by rewrite D1.
Qed.

Lemma take_repaint_exact s x y : stage_fits s -> on_surface s x y ->
  surface (take_repaint s) = surface s /\
  stage_pixel (take_repaint s) x y =
    if repaint_covers (sn_scene s) (display_rect s) x y then wm_pixel s x y else stage_pixel s x y.
Proof.
  intros Hf Hon. unfold take_repaint, repaint_covers. destruct (_ || _).
  - by destruct (stage_damage_exact (display_rect s) s x y Hf Hon) as (_ & E1 & _ & E2).
  - destruct (Z_le_gt_dec 0 (sc_damage_count (sn_scene s))) as [Hc|Hc]; [|by rewrite !for_z_nil by lia].
    match goal with |- surface (for_z 0 ?n ?f s) = _ /\ _ = (if for_z 0 ?n ?g false then _ else _) =>
      pose proof (for_z_rel (fun _ s' (b : bool) => stage_fits s' /\ surface s' = surface s /\ sn_scene s' = sn_scene s /\
        stage_pixel s' x y = if b then wm_pixel s x y else stage_pixel s x y) 0 n f g s false Hc) as Hrel end.
    destruct Hrel as (_ & R1 & _ & R2); [done| |exact (conj R1 R2)].
    intros i s' b Hi (K1 & K2 & K3 & K4). rewrite rect_from_id, K3.
    set (r := at_ (mk_rect 0 0 0 0) (sc_damage (sn_scene s)) i).
    assert (Hon' : on_surface s' x y) by (unfold on_surface; by rewrite K2).
    destruct (stage_damage_exact r s' x y K1 Hon') as (L1 & L2 & L3 & L4).
    split; [done|]. split; [congruence|]. split; [congruence|]. rewrite L4.
    assert (Ew : wm_pixel s' x y = wm_pixel s x y) by (unfold wm_pixel, wm_index; by rewrite K2). rewrite Ew, K4.
    by destruct (sx_rect_contains_point r x y).
Qed.

Lemma stage_pixel_same s s' x y : surface s' = surface s -> sn_stage s' = sn_stage s -> stage_pixel s' x y = stage_pixel s x y.
Proof. unfold stage_pixel, wm_index. by intros -> ->. Qed.

Lemma stage_pixel_look s s' x y : look s' = look s -> stage_pixel s' x y = stage_pixel s x y.
Proof.
  intros L. pose proof (look_surface _ _ SAVANXP_COMPOSITOR_SURFACE_WM L) as G. unfold geom in G.
  assert (E : sn_stage s' = sn_stage s) by (unfold look in L; congruence).
  unfold stage_pixel, wm_index. rewrite E. congruence.
Qed.

Lemma changed_same prev n s : let s' := damage_changed_layers prev n s in
  sn_surfaces s' = sn_surfaces s /\ sn_stage s' = sn_stage s /\ sn_scene s' = sn_scene s /\ sn_display_info s' = sn_display_info s.
Proof. destruct (changed_damaged prev n s) as [-> _]. done. Qed.

Lemma take_cursor_same assets s : let s' := take_cursor assets s in
  sn_surfaces s' = sn_surfaces s /\ sn_stage s' = sn_stage s.
Proof. destruct (take_cursor_damaged assets s) as (q & [Eq _] & ->). cbv zeta. cbn [set_cursors sn_surfaces sn_stage]. rewrite Eq. done. Qed.

Lemma take_repaint_surfaces s : sn_surfaces (take_repaint s) = sn_surfaces s.
Proof. destruct (take_repaint_restaged s) as (st & -> & _). done. Qed.

Lemma surfaces_fun s s' : sn_surfaces s' = sn_surfaces s -> surface s' = surface s.
Proof. unfold surface. by intros ->. Qed.

Lemma taken_stage assets s x y : stage_fits s -> on_surface s x y ->
  stage_pixel (take_cursor assets (take_repaint s)) x y =
    if repaint_covers (sn_scene s) (display_rect s) x y then wm_pixel s x y else stage_pixel s x y.
Proof.
  intros Hf Hon. destruct (take_repaint_exact s x y Hf Hon) as [_ <-].
  destruct (take_cursor_same assets (take_repaint s)) as [E1 E2]. apply stage_pixel_same; [by apply surfaces_fun|exact E2].
Qed.

Lemma taken_over_stage assets sc s x y : stage_fits s -> on_surface s x y ->
  stage_pixel (taken_over assets sc s) x y =
    if repaint_covers sc (display_rect s) x y then wm_pixel s x y else stage_pixel s x y.
Proof.
  intros Hf Hon. unfold taken_over. cbv zeta. set (s0 := set_layers sc _ s).
  pose proof (changed_same (sc_layers (sn_scene s)) (sn_layer_count s) s0) as (A1 & A2 & A3 & A4).
  revert A1 A2 A3 A4. generalize (damage_changed_layers (sc_layers (sn_scene s)) (sn_layer_count s) s0). intros s1 A1 A2 A3 A4.
  assert (Esu : surface s1 = surface s) by (apply surfaces_fun; exact A1).
  rewrite taken_stage; [|by eapply stage_fits_same|unfold on_surface; by rewrite Esu].
  unfold display_rect. rewrite A3, A4. unfold wm_pixel, stage_pixel, wm_index. rewrite Esu, A2. reflexivity.
Qed.

Lemma taken_over_array assets sc s : all_surfaces s -> all_surfaces (taken_over assets sc s).
Proof.
  unfold all_surfaces, taken_over. cbv zeta. set (s0 := set_layers sc _ s).
  rewrite (proj1 (take_cursor_same assets _)), take_repaint_surfaces. destruct (changed_same (sc_layers (sn_scene s)) (sn_layer_count s) s0) as [-> _].
  done.
Qed.

(** With a commit compositord copies exactly the part of the window
    manager's surface the scene declares repainted -- the whole display, or the
    listed rectangles -- and shows the rest as it was committed before, whatever
    the WM has painted there since. *)
Theorem commit_stages_repaint assets s sc x y :
  all_surfaces s -> sn_shared s = Some sc -> sc_magic sc = SAVANXP_COMPOSITOR_SCENE_MAGIC ->
  stage_fits s -> on_surface s x y ->
  stage_pixel (fst (scene_commit assets s)) x y =
    if repaint_covers sc (display_rect s) x y then wm_pixel s x y else stage_pixel s x y.
Proof.
  intros Ha Hs Hm Hf Hon. unfold scene_commit. rewrite Hs, Hm, Z.eqb_refl. cbn [negb fst].
  fold (taken_over assets sc s). rewrite <- (taken_over_stage assets sc s x y Hf Hon). apply stage_pixel_look.
  apply consume_look. apply taken_over_array, Ha.
Qed.

Lemma commit_stages_repaint_witness :
  stage_pixel (fst (scene_commit Demo.assets (Demo.desktop_up 1))) 2 1 = 17.
Proof.
  rewrite (commit_stages_repaint Demo.assets (Demo.desktop_up 1) (Demo.desktop 1) 2 1);
    [vm_compute; reflexivity|reflexivity|reflexivity|reflexivity| |vm_compute; intuition congruence].
  split; [vm_compute; reflexivity|]. split; [vm_compute; intuition congruence|].
  exists (replicate 8 0). split; vm_compute; [reflexivity|congruence].
Defined.
