(* ===== verification/Consent.v ===== *)
(** * The elevation prompt (system/windowd/windowd_consent.c)

    windowd asks the user, for the elevation broker, whether a program may run
    with the system's rights.  This file holds the width of a text
    (system/gfx/pixels.c with its decoder and the interface font), the text the
    prompt shows, and the prompt's state: the connection of the broker, the
    request, the answer.

    [struct windowd_consent] is the record of the same name.  A C string of it
    is the list of its bytes, without the terminator.  What the kernel answers
    to a system call is an argument of the operation that makes it, and the
    replies written are kept with the state, [cs_sent], in the order they were
    written, each with its handle. *)

From S2P Require Import Prelude Rect Painter Scene.
From Stdlib Require Ascii.
From Stdlib Require String.
Import String.StringSyntax.

(** The bytes of a literal. *)
Definition literal (s : String.string) : list Z := map (fun c => Z.of_nat (Ascii.nat_of_ascii c)) (String.list_ascii_of_string s).
Arguments literal _%_string_scope.

(** ** Text width (pixels.c, gfx_utf8.inc, gfx_font_noto.inc) *)

(** The code point at the front of a string that is not empty, and how many
    bytes it takes. *)
Definition sx_utf8_next (s : list Z) : Z * Z :=
  let byte i := at_ 0 s i in
  let sequence cp extra :=
    (fix next (n : nat) (i cp : Z) : Z * Z :=
       match n with
       | O => (cp, extra + 1)
       | S n =>
           if negb (Z.land (byte i) 0xc0 =? 0x80) then (0xfffd, 1)
           else next n (i + 1) (Z.lor (Z.shiftl cp 6) (Z.land (byte i) 0x3f))
       end) (Z.to_nat extra) 1 cp in
  if byte 0 <? 0x80 then (byte 0, 1)
  else if Z.land (byte 0) 0xe0 =? 0xc0 then sequence (Z.land (byte 0) 0x1f) 1
  else if Z.land (byte 0) 0xf0 =? 0xe0 then sequence (Z.land (byte 0) 0x0f) 2
  else if Z.land (byte 0) 0xf8 =? 0xf0 then sequence (Z.land (byte 0) 0x07) 3
  else (0xfffd, 1).

(** The [advance] of [kNotoGlyphs]. *)
Definition kNotoAdvance : list Z :=
  [3; 3; 3; 5; 7; 6; 8; 6; 2; 3; 3; 4; 6; 3; 3; 3; 5; 6; 6; 6; 6; 6; 6; 6; 6; 6; 6; 3; 3; 6; 6; 6; 6; 11; 7; 7;
   7; 8; 7; 6; 8; 8; 3; 5; 7; 6; 9; 8; 8; 7; 8; 8; 7; 7; 8; 7; 11; 7; 7; 7; 3; 5; 3; 6; 6; 3; 6; 6; 6; 6; 6; 3;
   6; 6; 2; 2; 6; 2; 8; 6; 6; 6; 6; 3; 5; 3; 6; 6; 8; 5; 5; 5; 4; 2; 4; 7; 3; 3; 3; 3; 3; 3; 3; 3; 3; 3; 3; 3;
   3; 3; 3; 3; 3; 3; 3; 3; 3; 3; 3; 3; 3; 3; 3; 3; 3; 3; 3; 3; 3; 3; 3; 6; 6; 6; 6; 2; 6; 3; 9; 4; 6; 6; 3; 8;
   6; 4; 6; 3; 3; 3; 6; 6; 3; 3; 3; 4; 6; 8; 8; 8; 6; 7; 7; 7; 7; 7; 7; 10; 7; 7; 7; 7; 7; 3; 3; 3; 3; 8; 8; 8;
   8; 8; 8; 8; 6; 8; 8; 8; 8; 8; 7; 7; 6; 6; 6; 6; 6; 6; 6; 10; 6; 6; 6; 6; 6; 2; 4; 4; 4; 6; 6; 6; 6; 6; 6; 6;
   6; 6; 6; 6; 6; 6; 5; 6; 5; 3; 3; 3; 5; 6; 7; 3; 3; 3; 3; 3; 3; 4; 4; 5; 3; 5; 5; 6; 3; 3; 3; 6; 3; 6].

Definition SX_NOTO_LINE_HEIGHT : Z := 13.

(** The [advance] of the glyph [sx_noto_glyph] finds: one of three ranges, or
    the fallback. *)
Definition sx_noto_glyph (cp : Z) : Z :=
  if (cp >=? 0x20) && (cp <=? 0xff) then at_ 0 kNotoAdvance (1 + (cp - 0x20))
  else if (cp >=? 0x2010) && (cp <=? 0x2027) then at_ 0 kNotoAdvance (225 + (cp - 0x2010))
  else if (cp >=? 0x20ac) && (cp <=? 0x20ac) then at_ 0 kNotoAdvance (249 + (cp - 0x20ac))
  else at_ 0 kNotoAdvance 0.

(** The loop of [gfx_text_width]; every character takes at least one byte, so
    the length of the text is fuel enough. *)
Fixpoint text_width_from (n : nat) (text : list Z) (width : Z) : Z :=
  match n, text with
  | S n, _ :: _ =>
      let '(cp, bytes) := sx_utf8_next text in
      text_width_from n (drop (Z.to_nat bytes) text) (width + sx_noto_glyph cp)
  | _, _ => width
  end.

Definition gfx_text_width (text : list Z) : Z := text_width_from (length text) text 0.
Definition gfx_text_height : Z := SX_NOTO_LINE_HEIGHT.

(** ** The request (elevation_protocol.h) *)

Definition SAVANXP_ELEVATION_PATH_CAPACITY : Z := 128.
Definition SAVANXP_ELEVATION_ARGS_CAPACITY : Z := 384.
Definition SAVANXP_ELEVATION_MAX_ARGS : Z := 16.
Definition SAVANXP_ELEVATION_NAME_CAPACITY : Z := 32.
Definition SAVANXP_CONSENT_MAGIC : Z := 0x534e4f43.
Definition SAVANXP_CONSENT_VERSION : Z := 2.

(** Positive error numbers, as the calls return their negation. *)
Definition SAVANXP_E2BIG : Z := 7.
Definition SAVANXP_EACCES : Z := 13.
Definition SAVANXP_EINVAL : Z := 22.

Record savanxp_consent_request := mk_crequest {
  cr_magic : Z; cr_version : Z; cr_requester_pid : Z; cr_requester_uid : Z; cr_requester_name : list Z;
  cr_path : list Z; cr_argc : Z; cr_args : list Z }.

(** [memchr (bytes, 0, size) != 0] over the whole array. *)
Definition terminated (bytes : list Z) : bool := existsb (Z.eqb 0) bytes.

(** The loop of [savanxp_elevation_args_valid], from what is left of [args]. *)
Fixpoint args_hold (argc : nat) (args : list Z) : bool :=
  match argc with
  | O => true
  | S argc => terminated args && args_hold argc (drop (S (length (c_string args))) args)
  end.

Definition savanxp_elevation_args_valid (args : list Z) (argc : Z) : bool :=
  if (argc =? 0) || (argc >? SAVANXP_ELEVATION_MAX_ARGS) then false
  else args_hold (Z.to_nat argc) args.

Definition request_valid (r : savanxp_consent_request) : bool :=
  (cr_magic r =? SAVANXP_CONSENT_MAGIC) && (cr_version r =? SAVANXP_CONSENT_VERSION) &&
  terminated (cr_path r) && terminated (cr_requester_name r) &&
  savanxp_elevation_args_valid (cr_args r) (cr_argc r).

(** ** What the prompt shows *)

Definition WINDOWD_CONSENT_TEXT_CAPACITY : Z :=
  SAVANXP_ELEVATION_ARGS_CAPACITY * 4 + SAVANXP_ELEVATION_MAX_ARGS * 3 + 1.
Definition WINDOWD_CONSENT_MAX_LINES : Z := 48.

(** [start] and [length] of each line. *)
Record windowd_consent_text := mk_ctext { tx_text : list Z; tx_lines : list (Z * Z) }.

(** The text and whether it was put; a piece that does not fit leaves it. *)
Definition text_put (text piece : list Z) : list Z * bool :=
  if zlen text + zlen piece >=? WINDOWD_CONSENT_TEXT_CAPACITY then (text, false) else (text ++ piece, true).

Definition printable (value : Z) : bool := (value >=? 0x20) && (value <? 0x7f).

Definition backslash : Z := 0x5c.
Definition quote : Z := 0x22.
Definition space : Z := 0x20.

(** A digit of [%02x]. *)
Definition hex_digit (d : Z) : Z := if d <? 10 then 0x30 + d else 0x61 + (d - 10).

(** How a byte is written. *)
Definition escape_byte (value : Z) (quoted : bool) : list Z :=
  if (value =? backslash) || (quoted && (value =? quote)) then [backslash; value]
  else if negb (printable value) then [backslash; 0x78; hex_digit (value / 16); hex_digit (value mod 16)]
  else [value].

Definition text_put_byte (text : list Z) (value : Z) (quoted : bool) : list Z * bool :=
  text_put text (escape_byte value quoted).

(** The loop over the bytes of a string. *)
Fixpoint put_bytes (text bytes : list Z) (quoted : bool) : list Z * bool :=
  match bytes with
  | [] => (text, true)
  | value :: bytes =>
      let '(text, ok) := text_put_byte text value quoted in
      if ok then put_bytes text bytes quoted else (text, false)
  end.

Definition format_program (path : list Z) : list Z * bool := put_bytes [] (c_string path) false.

Definition needs_quotes (argument : list Z) : bool :=
  match argument with
  | [] => true
  | _ => existsb (fun v => (v =? space) || (v =? quote) || (v =? backslash) || negb (printable v)) argument
  end.

(** An argument, between quotes when it needs them. *)
Definition put_argument (text argument : list Z) (first : bool) : list Z * bool :=
  let quoted := needs_quotes argument in
  let '(text, ok) := if first then (text, true) else text_put text [space] in
  if negb ok then (text, false)
  else
    let '(text, ok) := if quoted then text_put text [quote] else (text, true) in
    if negb ok then (text, false)
    else
      let '(text, ok) := put_bytes text argument quoted in
      if negb ok then (text, false)
      else if quoted then text_put text [quote] else (text, true).

(** The loop from argument [index] on, [args] starting at it. *)
Fixpoint put_arguments (n : nat) (index : Z) (text args : list Z) : list Z * bool :=
  match n with
  | O => (text, true)
  | S n =>
      let argument := c_string args in
      let next := drop (S (length argument)) args in
      if index =? 0 then put_arguments n (index + 1) text next
      else
        let '(text, ok) := put_argument text argument (negb (index >? 1)) in
        if ok then put_arguments n (index + 1) text next else (text, false)
  end.

Definition format_arguments (args : list Z) (argc : Z) : list Z * bool :=
  put_arguments (Z.to_nat argc) 0 [] args.

(** [text[position .. position + length)]. *)
Definition slice (text : list Z) (position length : Z) : list Z :=
  take (Z.to_nat length) (drop (Z.to_nat position) text).

(** The inner loop of [wrap]: where it stops, and the last space it passed. *)
Fixpoint wrap_scan (n : nat) (text : list Z) (width position end_ last_space : Z) : Z * Z :=
  match n with
  | O => (end_, last_space)
  | S n =>
      if gfx_text_width (slice text position (end_ - position + 1)) >? width then (end_, last_space)
      else wrap_scan n text width position (end_ + 1) (if at_ 0 text end_ =? space then end_ else last_space)
  end.

(** The end of the line that starts at [position]. *)
Definition line_end (text : list Z) (width position : Z) : Z :=
  let '(end_, last_space) := wrap_scan (Z.to_nat (zlen text - position)) text width position position 0 in
  if end_ =? position then position + 1
  else if (end_ <? zlen text) && (last_space >? position) then last_space
  else end_.

(** The outer loop; every line takes at least a character. *)
Fixpoint wrap_from (n : nat) (text : list Z) (width position : Z) (lines : list (Z * Z)) : list (Z * Z) * bool :=
  match n with
  | O => (lines, true)
  | S n =>
      if position >=? zlen text then (lines, true)
      else if zlen lines =? WINDOWD_CONSENT_MAX_LINES then (lines, false)
      else
        let end_ := line_end text width position in
        let lines := lines ++ [(u16 position, u16 (end_ - position))] in
        let position :=
          if (end_ <? zlen text) && (at_ 0 text end_ =? space) && negb (end_ =? zlen text) then end_ + 1 else end_ in
        wrap_from n text width position lines
  end.

Definition wrap (text : list Z) (width : Z) : list (Z * Z) * bool :=
  wrap_from (S (length text)) text width 0 [].

(** ** The prompt *)

Definition CONSENT_WIDTH : Z := 480.
Definition CONSENT_CAPTION_HEIGHT : Z := 20.
Definition CONSENT_PADDING : Z := 14.
Definition CONSENT_BUTTON_WIDTH : Z := 76.
Definition CONSENT_BUTTON_HEIGHT : Z := 24.
Definition CONSENT_BUTTON_GAP : Z := 10.
Definition WINDOWD_CONSENT_ARM_MS : Z := 500.
Definition WINDOWD_CONSENT_REQUEST_MS : Z := 2000.
Definition WINDOWD_CONSENT_NO : Z := 0.
Definition WINDOWD_CONSENT_YES : Z := 1.

Record windowd_consent := mk_consent {
  cs_port_fd : Z; cs_read_fd : Z; cs_write_fd : Z; cs_deadline_ms : Z; cs_open : bool; cs_armed_at_ms : Z;
  cs_focused : Z; cs_pressed : Z; cs_last_answer : Z; cs_request : savanxp_consent_request;
  cs_program : windowd_consent_text; cs_arguments : windowd_consent_text; cs_width : Z; cs_height : Z;
  cs_sent : list (Z * Z) }.

Definition request0 : savanxp_consent_request := mk_crequest 0 0 0 0 [] [] 0 [].
Definition text0 : windowd_consent_text := mk_ctext [] [].

Definition windowd_consent_init : windowd_consent :=
  mk_consent (-1) (-1) (-1) 0 false 0 0 (-1) (-1) request0 text0 text0 0 0 [].

Definition line_height : Z := gfx_text_height + 4.

Definition label_column : Z :=
  let widest := gfx_text_width (literal "Requested by:") in
  (if gfx_text_width (literal "Arguments:") >? widest then gfx_text_width (literal "Arguments:") else widest) + 10.

(** The requester's name as it is kept: a question mark for what does not print,
    up to the terminator. *)
Fixpoint show_name (name : list Z) : list Z :=
  match name with
  | [] => []
  | v :: rest => if v =? 0 then v :: rest else (if printable v then v else 0x3f) :: show_name rest
  end.

Definition kept_request (r : savanxp_consent_request) : savanxp_consent_request :=
  mk_crequest (cr_magic r) (cr_version r) (cr_requester_pid r) (cr_requester_uid r)
    (show_name (cr_requester_name r)) (cr_path r) (cr_argc r) (cr_args r).

Definition put_request (r : savanxp_consent_request) (c : windowd_consent) : windowd_consent :=
  mk_consent (cs_port_fd c) (cs_read_fd c) (cs_write_fd c) (cs_deadline_ms c) (cs_open c) (cs_armed_at_ms c)
    (cs_focused c) (cs_pressed c) (cs_last_answer c) r (cs_program c) (cs_arguments c) (cs_width c) (cs_height c)
    (cs_sent c).
Definition put_texts (program arguments : windowd_consent_text) (c : windowd_consent) : windowd_consent :=
  mk_consent (cs_port_fd c) (cs_read_fd c) (cs_write_fd c) (cs_deadline_ms c) (cs_open c) (cs_armed_at_ms c)
    (cs_focused c) (cs_pressed c) (cs_last_answer c) (cs_request c) program arguments (cs_width c) (cs_height c)
    (cs_sent c).
Definition put_box (width height : Z) (c : windowd_consent) : windowd_consent :=
  mk_consent (cs_port_fd c) (cs_read_fd c) (cs_write_fd c) (cs_deadline_ms c) (cs_open c) (cs_armed_at_ms c)
    (cs_focused c) (cs_pressed c) (cs_last_answer c) (cs_request c) (cs_program c) (cs_arguments c) width height
    (cs_sent c).
Definition put_choice (focused pressed : Z) (c : windowd_consent) : windowd_consent :=
  mk_consent (cs_port_fd c) (cs_read_fd c) (cs_write_fd c) (cs_deadline_ms c) (cs_open c) (cs_armed_at_ms c)
    focused pressed (cs_last_answer c) (cs_request c) (cs_program c) (cs_arguments c) (cs_width c) (cs_height c)
    (cs_sent c).
Definition put_armed (open : bool) (armed_at_ms : Z) (c : windowd_consent) : windowd_consent :=
  mk_consent (cs_port_fd c) (cs_read_fd c) (cs_write_fd c) (cs_deadline_ms c) open armed_at_ms
    (cs_focused c) (cs_pressed c) (cs_last_answer c) (cs_request c) (cs_program c) (cs_arguments c) (cs_width c)
    (cs_height c) (cs_sent c).
Definition put_connection (port_fd read_fd write_fd deadline_ms : Z) (c : windowd_consent) : windowd_consent :=
  mk_consent port_fd read_fd write_fd deadline_ms (cs_open c) (cs_armed_at_ms c)
    (cs_focused c) (cs_pressed c) (cs_last_answer c) (cs_request c) (cs_program c) (cs_arguments c) (cs_width c)
    (cs_height c) (cs_sent c).
Definition put_answer (answer : Z) (sent : list (Z * Z)) (c : windowd_consent) : windowd_consent :=
  mk_consent (cs_port_fd c) (cs_read_fd c) (cs_write_fd c) (cs_deadline_ms c) (cs_open c) (cs_armed_at_ms c)
    (cs_focused c) (cs_pressed c) answer (cs_request c) (cs_program c) (cs_arguments c) (cs_width c) (cs_height c)
    sent.

Definition drop_connection (c : windowd_consent) : windowd_consent :=
  put_choice (cs_focused c) (-1)
    (put_armed false (cs_armed_at_ms c) (put_connection (cs_port_fd c) (-1) (-1) (cs_deadline_ms c) c)).

Definition send_answer (c : windowd_consent) (answer : Z) : windowd_consent :=
  let sent := if cs_write_fd c >=? 0 then cs_sent c ++ [(cs_write_fd c, answer)] else cs_sent c in
  put_answer (if (answer =? 0) || (answer =? 1) then answer else cs_last_answer c) sent c.

Definition answer_prompt (c : windowd_consent) (yes : bool) : windowd_consent :=
  drop_connection (send_answer c (if yes then 1 else 0)).

Definition windowd_consent_open_port (c : windowd_consent) (port : Z) : windowd_consent * Z :=
  if port <? 0 then (c, port)
  else (put_connection port (cs_read_fd c) (cs_write_fd c) (cs_deadline_ms c) c, 0).

Definition windowd_consent_close (c : windowd_consent) : windowd_consent :=
  let c := drop_connection c in
  put_connection (-1) (cs_read_fd c) (cs_write_fd c) (cs_deadline_ms c) c.

(** The texts: formatted, then wrapped; each step only after the one before it
    succeeded, and what a failing step wrote stays. *)
Definition prepare_texts (c : windowd_consent) (r : savanxp_consent_request) (value_width : Z) : windowd_consent * bool :=
  let '(text, ok) := format_program (cr_path r) in
  let c := put_texts (mk_ctext text (tx_lines (cs_program c))) (cs_arguments c) c in
  if negb ok then (c, false)
  else
    let '(text, ok) := format_arguments (cr_args r) (cr_argc r) in
    let c := put_texts (cs_program c) (mk_ctext text (tx_lines (cs_arguments c))) c in
    if negb ok then (c, false)
    else
      let '(lines, ok) := wrap (tx_text (cs_program c)) value_width in
      let c := put_texts (mk_ctext (tx_text (cs_program c)) lines) (cs_arguments c) c in
      if negb ok then (c, false)
      else
        let '(lines, ok) := wrap (tx_text (cs_arguments c)) value_width in
        (put_texts (cs_program c) (mk_ctext (tx_text (cs_arguments c)) lines) c, ok).

Definition prepare (c : windowd_consent) (r : savanxp_consent_request) (info : fb_info) : windowd_consent * Z :=
  if negb (request_valid r) then (c, - SAVANXP_EINVAL)
  else
    let line := line_height in
    let c := put_request (kept_request r) c in
    let width := if CONSENT_WIDTH >? fb_width info then fb_width info else CONSENT_WIDTH in
    let value_width := width - 2 * CONSENT_PADDING - label_column in
    if value_width <? gfx_text_width (literal "MMMM") then (c, - SAVANXP_E2BIG)
    else
      let '(c, ok) := prepare_texts c r value_width in
      if negb ok then (c, - SAVANXP_E2BIG)
      else
        let lines := zlen (tx_lines (cs_program c)) + zlen (tx_lines (cs_arguments c)) + 1 in
        let height := 3 + CONSENT_CAPTION_HEIGHT + CONSENT_PADDING + 2 * line + line ÷ 2 + lines * line + line ÷ 2
                      + CONSENT_BUTTON_HEIGHT + CONSENT_PADDING in
        if height >? fb_height info then (c, - SAVANXP_E2BIG)
        else (put_box width height c, 0).

Definition show (c : windowd_consent) (now_ms : Z) : windowd_consent :=
  put_choice WINDOWD_CONSENT_NO (-1) (put_armed true (u64 (now_ms + WINDOWD_CONSENT_ARM_MS)) c).

(** A connection the port accepts: the handles, and who made it. *)
Record accepted := mk_accepted { ac_read : Z; ac_write : Z; ac_euid : Z }.

(** What reading the request returns: nothing yet, a whole request, or
    anything else (a hang-up, an error, another size). *)
Inductive request_read := ReadAgain | ReadRequest (r : savanxp_consent_request) | ReadOther (got : Z).

(** What reading a pipe for a hang-up returns, read by read: nothing more, or a
    count. *)
Inductive pipe_read := PipeAgain | PipeGot (got : Z).

(** The loop that throws away what the broker writes; a list that ends is a pipe
    with nothing more in it. *)
Fixpoint discard_loop (c : windowd_consent) (reads : list pipe_read) : windowd_consent * bool :=
  match reads with
  | [] | PipeAgain :: _ => (c, false)
  | PipeGot got :: reads => if got <=? 0 then (drop_connection c, true) else discard_loop c reads
  end.

(** The prompt is not up: the request is read. *)
Definition service_request (c : windowd_consent) (info : fb_info) (now_ms : Z) (got : request_read) : windowd_consent * bool :=
  let refuse c prepared := (drop_connection (send_answer c prepared), false) in
  match got with
  | ReadAgain => if now_ms <? cs_deadline_ms c then (c, false) else refuse c (- SAVANXP_EINVAL)
  | ReadOther _ => refuse c (- SAVANXP_EINVAL)
  | ReadRequest r =>
      let '(c, prepared) := prepare c r info in
      if prepared <? 0 then refuse c prepared else (show c now_ms, true)
  end.

Definition windowd_consent_service (c : windowd_consent) (info : fb_info) (now_ms : Z)
    (accept : option accepted) (got : request_read) (reads : list pipe_read) : windowd_consent * bool :=
  if cs_port_fd c <? 0 then (c, false)
  else
    let serve c := if negb (cs_open c) then service_request c info now_ms got else discard_loop c reads in
    if cs_read_fd c <? 0 then
      match accept with
      | None => (c, false)
      | Some a =>
          let c := put_connection (cs_port_fd c) (ac_read a) (ac_write a) (cs_deadline_ms c) c in
          if negb (ac_euid a =? 0) then (drop_connection (send_answer c (- SAVANXP_EACCES)), false)
          else serve (put_connection (cs_port_fd c) (cs_read_fd c) (cs_write_fd c)
                        (u64 (now_ms + WINDOWD_CONSENT_REQUEST_MS)) c)
      end
    else serve c.

(** ** Its input *)

Definition SAVANXP_INPUT_EVENT_KEY_DOWN : Z := 1.
Definition SAVANXP_INPUT_EVENT_KEY_UP : Z := 2.
Definition SAVANXP_KEY_MOD_REPEAT : Z := 128.
Definition SAVANXP_KEY_TAB : Z := 9.
Definition SAVANXP_KEY_ENTER : Z := 13.
Definition SAVANXP_KEY_ESC : Z := 27.
Definition SAVANXP_KEY_LEFT : Z := 258.
Definition SAVANXP_KEY_RIGHT : Z := 259.
Definition SAVANXP_MOUSE_BUTTON_LEFT : Z := 1.

Record savanxp_input_event := mk_key { ke_type : Z; ke_key : Z; ke_modifiers : Z; ke_ascii : Z }.

(** A letter, lower or upper case. *)
Definition is_letter (event : savanxp_input_event) (lower : Z) : bool :=
  (ke_ascii event =? lower) || (ke_ascii event =? lower - 0x61 + 0x41).

(** The prompt after the event, whether it took it, and [*changed]. *)
Definition windowd_consent_key (c : windowd_consent) (event : savanxp_input_event) (now_ms : Z) : windowd_consent * bool * bool :=
  if negb (cs_open c) then (c, false, false)
  else if negb (ke_type event =? SAVANXP_INPUT_EVENT_KEY_DOWN) || has_flag (ke_modifiers event) SAVANXP_KEY_MOD_REPEAT
          || (now_ms <? cs_armed_at_ms c) then (c, true, false)
  else if is_letter event 0x79 then (answer_prompt c true, true, true)
  else if (ke_key event =? SAVANXP_KEY_ESC) || is_letter event 0x6e then (answer_prompt c false, true, true)
  else if (ke_key event =? SAVANXP_KEY_TAB) || (ke_key event =? SAVANXP_KEY_LEFT) || (ke_key event =? SAVANXP_KEY_RIGHT)
  then (put_choice (if cs_focused c =? WINDOWD_CONSENT_YES then WINDOWD_CONSENT_NO else WINDOWD_CONSENT_YES)
          (cs_pressed c) c, true, true)
  else if (ke_key event =? SAVANXP_KEY_ENTER) || (ke_ascii event =? space)
  then (answer_prompt c (cs_focused c =? WINDOWD_CONSENT_YES), true, true)
  else (c, true, false).

Definition windowd_consent_rect (c : windowd_consent) (info : fb_info) : sx_rect :=
  let width := if cs_width c >? fb_width info then fb_width info else cs_width c in
  let height := if cs_height c >? fb_height info then fb_height info else cs_height c in
  sx_rect_make ((fb_width info - width) ÷ 2) ((fb_height info - height) ÷ 2) width height.

Definition button_rect (c : windowd_consent) (info : fb_info) (button : Z) : sx_rect :=
  let box := windowd_consent_rect c info in
  let right := rx box + rw box - CONSENT_PADDING in
  let y := ry box + rh box - CONSENT_PADDING - CONSENT_BUTTON_HEIGHT in
  let no_x := right - CONSENT_BUTTON_WIDTH in
  if button =? WINDOWD_CONSENT_NO then sx_rect_make no_x y CONSENT_BUTTON_WIDTH CONSENT_BUTTON_HEIGHT
  else sx_rect_make (no_x - CONSENT_BUTTON_GAP - CONSENT_BUTTON_WIDTH) y CONSENT_BUTTON_WIDTH CONSENT_BUTTON_HEIGHT.

Definition button_at (c : windowd_consent) (info : fb_info) (x y : Z) : Z :=
  if sx_rect_contains_point (button_rect c info WINDOWD_CONSENT_NO) x y then WINDOWD_CONSENT_NO
  else if sx_rect_contains_point (button_rect c info WINDOWD_CONSENT_YES) x y then WINDOWD_CONSENT_YES
  else -1.

Definition windowd_consent_pointer (c : windowd_consent) (info : fb_info) (x y buttons last_buttons now_ms : Z)
    : windowd_consent * bool * bool :=
  let left_now := has_flag buttons SAVANXP_MOUSE_BUTTON_LEFT in
  let left_was := has_flag last_buttons SAVANXP_MOUSE_BUTTON_LEFT in
  if negb (cs_open c) then (c, false, false)
  else if left_now && negb left_was then
    let pressed := if now_ms <? cs_armed_at_ms c then -1 else button_at c info x y in
    if pressed >=? 0 then (put_choice pressed pressed c, true, true)
    else (put_choice (cs_focused c) pressed c, true, false)
  else if negb left_now && left_was then
    let pressed := cs_pressed c in
    let c := put_choice (cs_focused c) (-1) c in
    if (pressed >=? 0) && (button_at c info x y =? pressed)
    then (answer_prompt c (pressed =? WINDOWD_CONSENT_YES), true, true)
    else (c, true, true)
  else (c, true, false).

(** ** What it draws *)

(** The lines [draw_field] draws beside a label, each with its place. *)
Fixpoint field_lines (text : list Z) (lines : list (Z * Z)) (column y : Z) : list (Z * Z * list Z) :=
  match lines with
  | [] => []
  | (start, len) :: lines => (column, y, slice text start len) :: field_lines text lines column (y + line_height)
  end.

(** The lines of the program and of the arguments as [windowd_consent_draw]
    places them. *)
Definition drawn_lines (c : windowd_consent) (info : fb_info) : list (Z * Z * list Z) :=
  let box := windowd_consent_rect c info in
  let line := line_height in
  let x := rx box + CONSENT_PADDING in
  let y := ry box + 3 + CONSENT_CAPTION_HEIGHT + CONSENT_PADDING in
  let y := y + line + (line + line ÷ 2) in
  let column := x + label_column in
  let program := field_lines (tx_text (cs_program c)) (tx_lines (cs_program c)) column y in
  let y := y + zlen (tx_lines (cs_program c)) * line in
  if negb (cs_open c) then []
  else program ++ field_lines (tx_text (cs_arguments c)) (tx_lines (cs_arguments c)) column y.

(** The clip those lines are drawn through. *)
Definition text_clip (c : windowd_consent) (info : fb_info) : sx_rect :=
  let box := windowd_consent_rect c info in
  sx_rect_make (rx box + CONSENT_PADDING) (ry box) (rw box - 2 * CONSENT_PADDING) (rh box).
