(* ===== verification/ConsentText.v ===== *)
(** * What the elevation prompt shows

    The text the prompt shows can be read back: a decoder recovers the program
    and every argument from it.  The lines it is broken into hold every
    character but the spaces it is broken at, and they are drawn whole inside
    the box.  Broken at a space or inside an argument, though, a line ends the
    same way: two requests can be drawn alike. *)

From S2P Require Import Prelude Rect Painter Scene Consent.
From Stdlib Require String.
Import String.StringSyntax.

(** ** Reading the text back *)

Definition unhex (d : Z) : Z := if d <? 0x3a then d - 0x30 else d - 0x61 + 10.

(** The byte at the front of a text, and the rest. *)
Definition read_byte (s : list Z) : option (Z * list Z) :=
  match s with
  | [] => None
  | v :: rest =>
      if negb (v =? backslash) then Some (v, rest)
      else
        match rest with
        | [] => None
        | e :: rest =>
            if negb (e =? 0x78) then Some (e, rest)
            else match rest with
                 | h :: l :: rest => Some (unhex h * 16 + unhex l, rest)
                 | _ => None
                 end
        end
  end.

(** The bytes up to a character of [stop] that is not escaped, and the rest from
    it on. *)
Fixpoint read_bytes (n : nat) (stop : Z -> bool) (s : list Z) : list Z * list Z :=
  match n with
  | O => ([], s)
  | S n =>
      if match s with [] => true | v :: _ => stop v end then ([], s)
      else
        match read_byte s with
        | None => ([], s)
        | Some (v, rest) => let '(l, rest) := read_bytes n stop rest in (v :: l, rest)
        end
  end.

(** The argument at the front of a text, and the rest. *)
Definition read_argument (s : list Z) : list Z * list Z :=
  match s with
  | [] => ([], [])
  | v :: rest =>
      if v =? quote
      then let '(l, rest) := read_bytes (length rest) (Z.eqb quote) rest in (l, drop 1 rest)
      else read_bytes (length s) (Z.eqb space) s
  end.

Fixpoint read_arguments (n : nat) (s : list Z) : list (list Z) :=
  match n, s with
  | S n, _ :: _ => let '(l, rest) := read_argument s in l :: read_arguments n (drop 1 rest)
  | _, _ => []
  end.

Definition text_program (text : list Z) : list Z := fst (read_bytes (length text) (fun _ => false) text).
Definition text_arguments (text : list Z) : list (list Z) := read_arguments (length text) text.

(** The strings of [args], as the broker and the program see them. *)
Fixpoint strings_of (argc : nat) (args : list Z) : list (list Z) :=
  match argc with
  | O => []
  | S argc => c_string args :: strings_of argc (drop (S (length (c_string args))) args)
  end.

Definition is_byte (v : Z) : Prop := 0 <= v < 256.
Definition char (v : Z) : Prop := 0 < v < 256.

Lemma c_string_chars l : Forall is_byte l -> Forall char (c_string l).
Proof.
  induction 1 as [|v l Hv _ IH]; cbn [c_string]; [constructor|]. case_if; constructor; auto.
  unfold is_byte, char in *. lia.
Qed.

Lemma hex_digit_range d : 0 <= d < 16 -> 0x30 <= hex_digit d < 0x7f /\ unhex (hex_digit d) = d.
Proof. unfold hex_digit, unhex. intros. ifs_lia. Qed.

(** Every character put in the text prints. *)
Lemma escape_printable v q : char v -> Forall (fun e => printable e = true) (escape_byte v q).
Proof.
  intros [H1 H2]. unfold escape_byte.
  assert (Hb : printable backslash = true) by done.
  assert (Hd : forall d, 0 <= d < 16 -> printable (hex_digit d) = true).
  { intros d Hd. pose proof (hex_digit_range d Hd) as [Hr _]. unfold printable. lia. }
  destruct ((v =? backslash) || (q && (v =? quote))) eqn:E.
  - rewrite !Forall_cons. split_and!; [done| |constructor]. unfold printable, backslash, quote in *. lia.
  - destruct (printable v) eqn:Ep; cbn [negb]; rewrite !Forall_cons; split_and!; auto; apply Hd; divs.
Qed.

Lemma read_escape v q rest : char v -> read_byte (escape_byte v q ++ rest) = Some (v, rest).
Proof.
  intros [H1 H2]. unfold escape_byte.
  destruct ((v =? backslash) || (q && (v =? quote))) eqn:E.
  - cbn [app read_byte]. change (backslash =? backslash) with true. cbn [negb].
    replace (v =? 120) with false by (unfold backslash, quote in *; lia). done.
  - destruct (printable v) eqn:Ep; cbn [negb app read_byte].
    + replace (v =? backslash) with false by lia. done.
    + change (backslash =? backslash) with true. cbn [negb]. change (120 =? 120) with true. cbn [negb].
      destruct (hex_digit_range (v / 16)) as [_ ->]; [divs|].
      destruct (hex_digit_range (v mod 16)) as [_ ->]; [divs|].
      do 2 f_equal. divs.
Qed.

(** The front character of an escaped byte. *)
Lemma escape_head v q : char v -> exists e t, escape_byte v q = e :: t /\
  (e = backslash \/ (e = v /\ printable v = true /\ (q = true -> v <> quote))).
Proof.
  intros H. unfold escape_byte. destruct ((v =? backslash) || (q && (v =? quote))) eqn:E; [eauto|].
  destruct (printable v) eqn:Ep; cbn [negb]; eauto 10.
  do 2 eexists. split; [done|]. right. split_and!; [done..|]. intros ->. cbn in E. lia.
Qed.

Lemma escape_length v q : (1 <= length (escape_byte v q) <= 4)%nat.
Proof. unfold escape_byte. case_ifs; cbn; lia. Qed.

Fixpoint escaped (bytes : list Z) (q : bool) : list Z :=
  match bytes with
  | [] => []
  | v :: bytes => escape_byte v q ++ escaped bytes q
  end.

Lemma escaped_length bytes q : (length bytes <= length (escaped bytes q) <= 4 * length bytes)%nat.
Proof.
  induction bytes as [|v l IH]; [cbn; lia|]. cbn [escaped].
  rewrite length_app. pose proof (escape_length v q). cbn [length]. lia.
Qed.

(** What was escaped is read back, up to a character that stops it. *)
Lemma read_bytes_escaped n stop bytes q rest :
  Forall char bytes -> (length bytes <= n)%nat ->
  (match rest with [] => True | v :: _ => stop v = true end) ->
  Forall (fun v => stop (hd 0 (escape_byte v q)) = false) bytes ->
  read_bytes n stop (escaped bytes q ++ rest) = (bytes, rest).
Proof.
  revert n. induction bytes as [|v l IH]; intros n Hc Hn Hrest Hs.
  - cbn. destruct n; [done|]. cbn. destruct rest as [|w rest]; [done|]. by rewrite Hrest.
  - destruct n as [|n]; [cbn in Hn; lia|].
    apply Forall_cons in Hc as [Hv Hl]. apply Forall_cons in Hs as [Hsv Hsl].
    cbn [escaped]. rewrite <- app_assoc. cbn [read_bytes]. rewrite (read_escape v q _ Hv).
    destruct (escape_head v q Hv) as (e & t & He & _). rewrite He in *. cbn in Hsv |- *.
    rewrite Hsv. rewrite IH; auto. cbn in Hn. lia.
Qed.

(** ** The text, as a whole *)

Definition argument_text (a : list Z) : list Z :=
  if needs_quotes a then quote :: escaped a true ++ [quote] else escaped a false.

Fixpoint arguments_text (first : bool) (l : list (list Z)) : list Z :=
  match l with
  | [] => []
  | a :: l => (if first then [] else [space]) ++ argument_text a ++ arguments_text false l
  end.

Lemma put_ok text piece : zlen text + zlen piece < WINDOWD_CONSENT_TEXT_CAPACITY -> text_put text piece = (text ++ piece, true).
Proof. intros H. unfold text_put. by case_if; [lia|]. Qed.

Lemma put_bytes_ok text bytes q :
  zlen text + zlen (escaped bytes q) < WINDOWD_CONSENT_TEXT_CAPACITY ->
  put_bytes text bytes q = (text ++ escaped bytes q, true).
Proof.
  revert text. induction bytes as [|v l IH]; intros text H; cbn [put_bytes escaped] in *.
  - by rewrite app_nil_r.
  - rewrite zlen_app in H. unfold text_put_byte. rewrite put_ok by (pose proof (zlen_nonneg (escaped l q)); lia).
    rewrite IH by (rewrite zlen_app; lia). by rewrite <- app_assoc.
Qed.

Lemma put_argument_ok text a first :
  zlen text + zlen (arguments_text first [a]) < WINDOWD_CONSENT_TEXT_CAPACITY ->
  put_argument text a first = (text ++ arguments_text first [a], true).
Proof.
  unfold put_argument, arguments_text, argument_text. rewrite app_nil_r. intros H.
  assert (Hs : (if first then (text, true) else text_put text [space]) = (text ++ (if first then [] else [space]), true)).
  { destruct first; [by rewrite app_nil_r|]. apply put_ok. rewrite zlen_app in H.
    pose proof (zlen_nonneg (if needs_quotes a then quote :: escaped a true ++ [quote] else escaped a false)). lia. }
  rewrite Hs. cbn [negb]. set (t := text ++ (if first then [] else [space])).
  rewrite app_assoc. fold t.
  assert (Ht : zlen t + zlen (if needs_quotes a then quote :: escaped a true ++ [quote] else escaped a false)
               < WINDOWD_CONSENT_TEXT_CAPACITY) by (rewrite !zlen_app in *; unfold t; rewrite zlen_app; lia).
  clearbody t. destruct (needs_quotes a); cbn [negb].
  - change (quote :: escaped a true ++ [quote]) with ([quote] ++ escaped a true ++ [quote]) in Ht |- *.
    rewrite !zlen_app in Ht. change (zlen [quote]) with 1 in Ht. pose proof (zlen_nonneg (escaped a true)).
    rewrite put_ok by (change (zlen [quote]) with 1; lia). cbn [negb].
    rewrite put_bytes_ok by (rewrite zlen_app; change (zlen [quote]) with 1; lia). cbn [negb].
    rewrite put_ok by (rewrite !zlen_app; change (zlen [quote]) with 1; lia). by rewrite <- !app_assoc.
  - by rewrite put_bytes_ok.
Qed.

Lemma put_arguments_ok n index text args :
  0 < index ->
  zlen text + zlen (arguments_text (index =? 1) (strings_of n args)) < WINDOWD_CONSENT_TEXT_CAPACITY ->
  put_arguments n index text args = (text ++ arguments_text (index =? 1) (strings_of n args), true).
Proof.
  revert index text args. induction n as [|n IH]; intros index text args Hi H; cbn [put_arguments strings_of arguments_text] in *.
  { by rewrite app_nil_r. }
  replace (index =? 0) with false by lia. replace (negb (index >? 1)) with (index =? 1) by lia.
  set (a := c_string args) in *. set (rest := strings_of n _) in *.
  assert (Ha : arguments_text (index =? 1) [a] = (if index =? 1 then [] else [space]) ++ argument_text a)
    by (cbn [arguments_text]; by rewrite app_nil_r).
  rewrite !zlen_app in H. pose proof (zlen_nonneg (arguments_text false rest)).
  rewrite put_argument_ok by (rewrite Ha, zlen_app; lia).
  rewrite IH; [|lia|]; replace (index + 1 =? 1) with false by lia.
  - by rewrite Ha, <- !app_assoc.
  - rewrite Ha, !zlen_app. fold rest. lia.
Qed.

(** The strings of [args] take their bytes and one more each. *)
Lemma strings_size n args :
  args_hold n args = true -> (sum_list_with (fun a => S (length a)) (strings_of n args) <= length args)%nat.
Proof.
  revert args. induction n as [|n IH]; intros args H; cbn [strings_of sum_list_with args_hold] in *; [lia|].
  apply andb_prop in H as [Ht H]. specialize (IH _ H).
  assert (Hl : (length (c_string args) < length args)%nat).
  { clear -Ht. induction args as [|v l IH]; cbn in *; [done|]. case_if; cbn; [lia|].
    assert (terminated l = true) as Hl by (unfold terminated; destruct v; cbn in *; congruence).
    specialize (IH Hl). lia. }
  rewrite length_drop in IH. lia.
Qed.

Lemma arguments_text_length first l :
  (length (arguments_text first l) <= 4 * sum_list_with (fun a => S (length a)) l)%nat.
Proof.
  revert first. induction l as [|a l IH]; intros first; cbn [arguments_text sum_list_with]; [cbn; lia|].
  rewrite !length_app. specialize (IH false). unfold argument_text.
  pose proof (escaped_length a true). pose proof (escaped_length a false).
  destruct first, (needs_quotes a); cbn [length]; rewrite ?length_app; cbn [length]; lia.
Qed.

Lemma read_argument_text a rest :
  Forall char a -> match rest with [] => True | v :: _ => v = space end ->
  read_argument (argument_text a ++ rest) = (a, rest).
Proof.
  intros Ha Hr. unfold argument_text. destruct (needs_quotes a) eqn:En.
  - cbn [app read_argument]. change (quote =? quote) with true. cbn iota.
    rewrite <- app_assoc. cbn [app]. rewrite read_bytes_escaped; [done|done| |done|].
    + rewrite length_app. pose proof (escaped_length a true). lia.
    + eapply Forall_impl; [exact Ha|]. intros v Hv. cbn beta.
      destruct (escape_head v true Hv) as (e & t & -> & [->|(-> & _ & Hq)]); [done|].
      cbn [hd]. by apply Z.eqb_neq, not_eq_sym, Hq.
  - destruct a as [|w a]; [done|]. unfold needs_quotes in En.
    assert (Hn : Forall (fun v => char v /\ v <> space /\ v <> quote) (w :: a)).
    { rewrite Forall_forall in Ha |- *. intros v Hv. split; [auto|].
      assert (existsb (fun v => (v =? space) || (v =? quote) || (v =? backslash) || negb (printable v)) (w :: a) <> true) as E
        by congruence.
      split; intros ->; apply E; apply existsb_exists; eexists; (split; [by apply list_elem_of_In|]); reflexivity. }
    assert (Hs : Forall (fun v => (space =? hd 0 (escape_byte v false)) = false) (w :: a)).
    { eapply Forall_impl; [exact Hn|]. intros v (Hv & Hsp & _). cbn beta.
      destruct (escape_head v false Hv) as (e & t & -> & [->|(-> & _ & _)]); [done|].
      cbn [hd]. by apply Z.eqb_neq, not_eq_sym. }
    assert (Hq : read_argument (escaped (w :: a) false ++ rest)
                 = read_bytes (length (escaped (w :: a) false ++ rest)) (Z.eqb space) (escaped (w :: a) false ++ rest)).
    { apply Forall_cons in Hn as [(Hw & _ & Hwq) _]. cbn [escaped].
      destruct (escape_head w false Hw) as (e & t & -> & He). cbn [app read_argument].
      replace (e =? quote) with false; [done|]. destruct He as [->|(-> & _)]; [done|lia]. }
    rewrite Hq. apply read_bytes_escaped; [done| |destruct rest; [done|]; subst; done|done].
    rewrite length_app. pose proof (escaped_length (w :: a) false). lia.
Qed.

Lemma argument_text_nonempty a : argument_text a <> [].
Proof.
  unfold argument_text. destruct (needs_quotes a) eqn:E; [done|]. destruct a as [|v a]; [done|].
  intros H. pose proof (escaped_length (v :: a) false) as Hl. rewrite H in Hl. cbn in Hl. lia.
Qed.

Lemma read_arguments_text n l :
  Forall (Forall char) l -> (length (arguments_text true l) <= n)%nat -> read_arguments n (arguments_text true l) = l.
Proof.
  revert n. induction l as [|a l IH]; intros n Hl Hn; [by destruct n|].
  apply Forall_cons in Hl as [Ha Hl]. cbn [arguments_text app] in *.
  assert (Hpos : (1 <= length (argument_text a))%nat).
  { pose proof (argument_text_nonempty a) as H. destruct (argument_text a); cbn; [done|lia]. }
  rewrite length_app in Hn. destruct n as [|n]; [lia|]. cbn [read_arguments].
  assert (Hs : match arguments_text false l with [] => True | v :: _ => v = space end) by (by destruct l).
  rewrite (read_argument_text a _ Ha Hs).
  destruct (argument_text a ++ arguments_text false l) eqn:E.
  { apply (f_equal length) in E. rewrite length_app in E. cbn in E. lia. }
  f_equal. destruct l as [|b l]; [by destruct n|].
  cbn [arguments_text app drop] in *. apply IH; [done|]. cbn [arguments_text app length] in *. lia.
Qed.

(** A request as it lies in memory. *)
Record request_bytes (r : savanxp_consent_request) : Prop := {
  rb_path : Forall is_byte (cr_path r);
  rb_path_length : zlen (cr_path r) = SAVANXP_ELEVATION_PATH_CAPACITY;
  rb_args : Forall is_byte (cr_args r);
  rb_args_length : zlen (cr_args r) = SAVANXP_ELEVATION_ARGS_CAPACITY;
  rb_argc : 0 <= cr_argc r }.

(** The program and the arguments of a request. *)
Definition program_of (r : savanxp_consent_request) : list Z := c_string (cr_path r).
Definition arguments_of (r : savanxp_consent_request) : list (list Z) :=
  drop 1 (strings_of (Z.to_nat (cr_argc r)) (cr_args r)).

Lemma strings_of_chars n args : Forall is_byte args -> Forall (Forall char) (strings_of n args).
Proof.
  revert args. induction n as [|n IH]; intros args H; cbn [strings_of]; constructor.
  - by apply c_string_chars.
  - apply IH. by apply Forall_drop.
Qed.

Lemma c_string_length l : (length (c_string l) <= length l)%nat.
Proof. induction l as [|v l IH]; cbn; [lia|]. case_if; cbn; lia. Qed.

Lemma format_program_text r : request_bytes r ->
  format_program (cr_path r) = (escaped (program_of r) false, true).
Proof.
  intros H. unfold format_program. rewrite put_bytes_ok; [done|].
  pose proof (c_string_length (cr_path r)). pose proof (escaped_length (c_string (cr_path r)) false).
  pose proof (rb_path_length r H) as Hl. unfold zlen, SAVANXP_ELEVATION_PATH_CAPACITY in *.
  change WINDOWD_CONSENT_TEXT_CAPACITY with 1585. cbn [length]. lia.
Qed.

Lemma arguments_fit r : request_bytes r -> request_valid r = true ->
  0 < cr_argc r /\ zlen (arguments_text true (arguments_of r)) < WINDOWD_CONSENT_TEXT_CAPACITY.
Proof.
  intros H Hv. unfold request_valid, savanxp_elevation_args_valid in Hv.
  apply andb_prop in Hv as [_ Hv]. revert Hv. case_if; [done|]. intros Hs%strings_size.
  pose proof (rb_args_length r H) as Hl. pose proof (rb_argc r H). unfold arguments_of.
  destruct (Z.to_nat (cr_argc r)) as [|n] eqn:En; [lia|]. cbn [strings_of drop sum_list_with] in *.
  pose proof (arguments_text_length true (strings_of n (drop (S (length (c_string (cr_args r)))) (cr_args r)))).
  change WINDOWD_CONSENT_TEXT_CAPACITY with 1585. unfold zlen, SAVANXP_ELEVATION_ARGS_CAPACITY in *. rewrite drop_0. split; lia.
Qed.

Lemma format_arguments_text r : request_bytes r -> request_valid r = true ->
  format_arguments (cr_args r) (cr_argc r) = (arguments_text true (arguments_of r), true).
Proof.
  intros H Hv. destruct (arguments_fit r H Hv) as [Hpos Hfit]. unfold format_arguments, arguments_of in *.
  destruct (Z.to_nat (cr_argc r)) as [|n] eqn:En; [lia|]. cbn [put_arguments strings_of drop] in *.
  change (0 =? 0) with true. cbn iota. rewrite drop_0 in *. by rewrite put_arguments_ok.
Qed.

Lemma escaped_printable l q : Forall char l -> Forall (fun v => printable v = true) (escaped l q).
Proof. induction 1; cbn [escaped]; [constructor|]. apply Forall_app. auto using escape_printable. Qed.

Lemma argument_text_printable a : Forall char a -> Forall (fun v => printable v = true) (argument_text a).
Proof.
  intros H. unfold argument_text. case_if; [|by apply escaped_printable].
  constructor; [done|]. apply Forall_app. split; [by apply escaped_printable|]. by constructor.
Qed.

Lemma arguments_text_printable first l :
  Forall (Forall char) l -> Forall (fun v => printable v = true) (arguments_text first l).
Proof.
  intros H. revert first. induction H as [|a l Ha Hl IH]; intros first; cbn [arguments_text]; [constructor|].
  rewrite !Forall_app. split_and!; [destruct first; by repeat constructor|by apply argument_text_printable|apply IH].
Qed.

Lemma text_program_escaped l : Forall char l -> text_program (escaped l false) = l.
Proof.
  intros H. unfold text_program. rewrite <- (app_nil_r (escaped l false)) at 2.
  rewrite read_bytes_escaped; [done|done| |done|by apply Forall_true].
  pose proof (escaped_length l false). lia.
Qed.

(** C21. What the prompt shows can be read back: for every request windowd takes
    (any bytes in the path and in up to sixteen arguments), the program's text
    and the arguments' text are built without running out of room, print in
    full, and decode to exactly the path and the arguments the program would
    get, so no two different requests have the same text. *)
Theorem consent_text_reads_back (r : savanxp_consent_request) (Hr : request_bytes r) (Hv : request_valid r = true) :
  exists program arguments,
    format_program (cr_path r) = (program, true) /\ format_arguments (cr_args r) (cr_argc r) = (arguments, true) /\
    text_program program = program_of r /\ text_arguments arguments = arguments_of r /\
    Forall (fun v => printable v = true) (program ++ arguments).
Proof.
  exists (escaped (program_of r) false), (arguments_text true (arguments_of r)).
  pose proof (c_string_chars _ (rb_path r Hr)) as Hp. pose proof (strings_of_chars (Z.to_nat (cr_argc r)) _ (rb_args r Hr)) as Ha.
  split; [by apply format_program_text|]. split; [by apply format_arguments_text|].
  split; [by apply text_program_escaped|]. split.
  - apply read_arguments_text; [|done]. by apply Forall_drop.
  - apply Forall_app. split; [by apply escaped_printable|]. apply arguments_text_printable. by apply Forall_drop.
Qed.

(** ** Lines *)

(** The width of a text of ASCII characters. *)
Fixpoint advances (l : list Z) : Z :=
  match l with
  | [] => 0
  | v :: l => sx_noto_glyph v + advances l
  end.

Definition prints (l : list Z) : Prop := Forall (fun v => printable v = true) l.

Lemma advances_app l k : advances (l ++ k) = advances l + advances k.
Proof. induction l as [|v l IH]; cbn [advances app]; lia. Qed.

Lemma text_width_prints l : prints l -> gfx_text_width l = advances l.
Proof.
  intros H. unfold gfx_text_width. enough (forall w, text_width_from (length l) l w = w + advances l) as -> by lia.
  induction H as [|v l Hv Hl IH]; intros w; cbn [length text_width_from advances]; [lia|].
  unfold sx_utf8_next. change (at_ 0 (v :: l) 0) with v. unfold printable in Hv.
  replace (v <? 0x80) with true by lia. change (Z.to_nat 1) with 1%nat. cbn [drop]. rewrite IH. lia.
Qed.

(** Every character of the interface font that prints moves the pen by two to
    eleven pixels. *)
Lemma glyph_range v : printable v = true -> 2 <= sx_noto_glyph v <= 11.
Proof.
  intros Hv.
  assert (Hall : forallb (fun v => (2 <=? sx_noto_glyph v) && (sx_noto_glyph v <=? 11)) (seqZ 0x20 95) = true) by (by vm_compute).
  rewrite forallb_forall in Hall. assert (In v (seqZ 0x20 95)) as Hin.
  { apply list_elem_of_In, elem_of_seqZ. unfold printable in Hv. lia. }
  specialize (Hall v Hin). lia.
Qed.

Lemma advances_nonneg l : prints l -> 0 <= advances l.
Proof. induction 1 as [|v l Hv _ IH]; cbn [advances]; [lia|]. pose proof (glyph_range v Hv). lia. Qed.

Lemma slice_prints text p n : prints text -> prints (slice text p n).
Proof. intros. unfold slice. by apply Forall_take, Forall_drop. Qed.

Lemma slice_snoc text p n :
  0 <= p -> 0 <= n -> p + n < zlen text -> slice text p (n + 1) = slice text p n ++ [at_ 0 text (p + n)].
Proof.
  intros Hp Hn Hl. unfold slice, at_, zlen in *. replace (Z.to_nat (n + 1)) with (S (Z.to_nat n)) by lia.
  destruct (p + n <? 0) eqn:E; [lia|].
  apply take_S_r. rewrite lookup_drop. replace (Z.to_nat (p + n)) with (Z.to_nat p + Z.to_nat n)%nat by lia.
  destruct (lookup_lt_is_Some_2 text (Z.to_nat p + Z.to_nat n)%nat) as [x Hx]; [lia|].
  by rewrite Hx, (nth_lookup_Some _ _ _ _ Hx).
Qed.

Lemma slice_prefix text p n m :
  prints text -> 0 <= n <= m -> advances (slice text p n) <= advances (slice text p m).
Proof.
  intros Ht Hnm. unfold slice. rewrite <- (take_drop (Z.to_nat n) (take (Z.to_nat m) (drop (Z.to_nat p) text))).
  rewrite take_take, Nat.min_l, advances_app by lia.
  assert (0 <= advances (drop (Z.to_nat n) (take (Z.to_nat m) (drop (Z.to_nat p) text)))); [|lia].
  apply advances_nonneg. by apply Forall_drop, Forall_take, Forall_drop.
Qed.

(** Where the inner loop stops: what it passed fits, and the space it remembers
    is one of them. *)
Lemma wrap_scan_spec n text width p e ls e' ls' :
  prints text -> 0 <= width -> 0 <= p <= e -> e + Z.of_nat n = zlen text ->
  advances (slice text p (e - p)) <= width ->
  (p < ls -> ls < e /\ at_ 0 text ls = space) ->
  wrap_scan n text width p e ls = (e', ls') ->
  e <= e' <= zlen text /\ advances (slice text p (e' - p)) <= width /\
  (p < ls' -> ls' < e' /\ at_ 0 text ls' = space) /\ (e' < zlen text -> advances (slice text p (e' - p + 1)) > width).
Proof.
  intros Ht Hw. revert e ls. induction n as [|n IH]; intros e ls Hp Hn Hfit Hls; cbn [wrap_scan].
  { intros [= <- <-]. split_and!; [lia..|done|done|lia]. }
  rewrite text_width_prints by (by apply slice_prints).
  destruct (advances (slice text p (e - p + 1)) >? width) eqn:E.
  { intros [= <- <-]. split_and!; [lia..|done|done|lia]. }
  intros Hrec. apply IH in Hrec as (H1 & H2 & H3 & H4); [split_and!; [lia..|done|done|done]|lia|lia| |].
  - replace (e + 1 - p) with (e - p + 1) by lia. lia.
  - case_if; intros; [lia|]. destruct Hls; lia.
Qed.

Lemma line_end_spec text width p :
  prints text -> 11 <= width -> 0 <= p < zlen text ->
  p < line_end text width p <= zlen text /\ advances (slice text p (line_end text width p - p)) <= width.
Proof.
  intros Ht Hw Hp. unfold line_end.
  destruct (wrap_scan (Z.to_nat (zlen text - p)) text width p p 0) as [e ls] eqn:E.
  apply wrap_scan_spec in E as (H1 & H2 & H3 & H4); [|done|lia..| |lia].
  2:{ rewrite Z.sub_diag. change (slice text p 0) with (@nil Z). cbn. lia. }
  assert (Hpe : p < e).
  { destruct (decide (e = p)) as [->|]; [|lia]. exfalso.
    rewrite Z.sub_diag, slice_snoc in H4 by lia. rewrite advances_app in H4. cbn [advances] in H4.
    assert (printable (at_ 0 text (p + 0)) = true) as Hv.
    { rewrite Z.add_0_r. unfold at_. destruct (p <? 0) eqn:?; [lia|].
      apply (proj1 (List.Forall_nth _ _) Ht). unfold zlen in *. lia. }
    pose proof (glyph_range _ Hv). change (slice text p 0) with (@nil Z) in H4. cbn in H4. lia. }
  replace (e =? p) with false by lia. destruct ((e <? zlen text) && (ls >? p)) eqn:?; [|by split; [lia|]].
  split; [lia|].
  etransitivity; [apply slice_prefix with (m := e - p); [done|lia]|done].
Qed.

(** A text laid out in lines from a position on: each line is not empty, no
    wider than [width], and starts where the one before it ended, or one past a
    space there; the last one ends the text. *)
Inductive laid_out (text : list Z) (width : Z) : Z -> list (Z * Z) -> Prop :=
| laid_end p : zlen text <= p -> laid_out text width p []
| laid_line p n next lines :
    0 < n -> p + n <= zlen text -> advances (slice text p n) <= width ->
    next = p + n \/ (next = p + n + 1 /\ p + n < zlen text /\ at_ 0 text (p + n) = space) ->
    laid_out text width next lines -> laid_out text width p ((p, n) :: lines).

Lemma wrap_from_lays_out n text width p acc lines :
  prints text -> zlen text < 65536 -> 11 <= width -> 0 <= p <= zlen text -> zlen text - p < Z.of_nat n ->
  wrap_from n text width p acc = (lines, true) ->
  exists tail, lines = acc ++ tail /\ laid_out text width p tail.
Proof.
  intros Ht Hlen Hw. revert p acc. induction n as [|n IH]; intros p acc Hp Hn; [lia|]. cbn [wrap_from].
  destruct (p >=? zlen text) eqn:Ep.
  { intros [= <-]. exists []. split; [by rewrite app_nil_r|]. constructor. lia. }
  destruct (zlen acc =? WINDOWD_CONSENT_MAX_LINES); [done|].
  destruct (line_end_spec text width p Ht Hw ltac:(lia)) as [He Hfit].
  set (e := line_end text width p) in *. rewrite !u16_id by lia.
  set (next := if (e <? zlen text) && (at_ 0 text e =? space) && negb (e =? zlen text) then e + 1 else e).
  assert (Hnext : next = e \/ (next = e + 1 /\ e < zlen text /\ at_ 0 text e = space)).
  { unfold next. destruct ((e <? zlen text) && _ && _) eqn:?; [right|left]; lia. }
  intros Hrec. apply IH in Hrec as (tail & -> & Htail); [|lia..].
  exists ((p, e - p) :: tail). split; [by rewrite <- app_assoc|].
  apply (laid_line _ _ _ _ next); [lia..|done| |done]. by replace (p + (e - p)) with e by lia.
Qed.

Lemma wrap_lays_out text width lines :
  prints text -> zlen text < 65536 -> 11 <= width -> wrap text width = (lines, true) -> laid_out text width 0 lines.
Proof.
  intros Ht Hlen Hw H. unfold wrap in H.
  apply wrap_from_lays_out in H as (tail & -> & Htail); [done|done..|pose proof (zlen_nonneg text); lia|unfold zlen; lia].
Qed.

(** The lines of a text, drawn: the first at [y], each a line's height below the
    one before. *)
Lemma field_lines_spec text width p lines column y :
  laid_out text width p lines -> prints text ->
  Forall (fun '(x, ly, l) => x = column /\ y <= ly /\ ly + line_height <= y + zlen lines * line_height /\
                            gfx_text_width l <= width) (field_lines text lines column y).
Proof.
  intros H Ht. revert y. induction H as [|p n next lines Hn Hl Hfit Hnext _ IH]; intros y; cbn [field_lines]; [constructor|].
  assert (Hlh : 0 < line_height) by done. rewrite <- (app_nil_l lines) at 1.
  change ((p, n) :: lines) with ([(p, n)] ++ lines). rewrite zlen_app. change (zlen [(p, n)]) with 1.
  pose proof (zlen_nonneg lines). constructor.
  - rewrite text_width_prints by (by apply slice_prints). split_and!; [done|lia|nia|done].
  - eapply Forall_impl; [apply IH|]. intros [[x ly] l] (-> & H1 & H2 & H3). split_and!; [done|lia|lia|done].
Qed.

(** ** The prompt, laid out *)

(** The height of a box of [lines] lines of values. *)
Definition box_height (lines : Z) : Z :=
  3 + CONSENT_CAPTION_HEIGHT + CONSENT_PADDING + 2 * line_height + line_height ÷ 2 + lines * line_height
  + line_height ÷ 2 + CONSENT_BUTTON_HEIGHT + CONSENT_PADDING.

Definition value_width (c : windowd_consent) : Z := cs_width c - 2 * CONSENT_PADDING - label_column.

(** What [prepare] leaves when it succeeds. *)
Record prepared (c : windowd_consent) (r : savanxp_consent_request) (info : fb_info) (c' : windowd_consent) : Prop := {
  pr_valid : request_valid r = true;
  pr_request : cs_request c' = kept_request r;
  pr_program : tx_text (cs_program c') = escaped (program_of r) false;
  pr_arguments : tx_text (cs_arguments c') = arguments_text true (arguments_of r);
  pr_program_lines : laid_out (tx_text (cs_program c')) (value_width c') 0 (tx_lines (cs_program c'));
  pr_arguments_lines : laid_out (tx_text (cs_arguments c')) (value_width c') 0 (tx_lines (cs_arguments c'));
  pr_width : cs_width c' <= fb_width info;
  pr_height : cs_height c' <= fb_height info;
  pr_box : cs_height c' = box_height (zlen (tx_lines (cs_program c')) + zlen (tx_lines (cs_arguments c')) + 1);
  pr_kept : cs_port_fd c' = cs_port_fd c /\ cs_read_fd c' = cs_read_fd c /\ cs_write_fd c' = cs_write_fd c /\
            cs_sent c' = cs_sent c /\ cs_last_answer c' = cs_last_answer c /\ cs_open c' = cs_open c }.

(** The requests' texts fit and print. *)
Lemma texts_print r : request_bytes r -> request_valid r = true ->
  (prints (escaped (program_of r) false) /\ zlen (escaped (program_of r) false) < 65536) /\
  (prints (arguments_text true (arguments_of r)) /\ zlen (arguments_text true (arguments_of r)) < 65536).
Proof.
  intros Hr Hv. split; split.
  - by apply escaped_printable, c_string_chars, rb_path.
  - pose proof (c_string_length (cr_path r)). pose proof (escaped_length (c_string (cr_path r)) false).
    pose proof (rb_path_length r Hr). unfold zlen, SAVANXP_ELEVATION_PATH_CAPACITY, program_of in *. lia.
  - by apply arguments_text_printable, Forall_drop, strings_of_chars, rb_args.
  - destruct (arguments_fit r Hr Hv) as [_ Hf]. change WINDOWD_CONSENT_TEXT_CAPACITY with 1585 in Hf. lia.
Qed.

Lemma prepare_ok c r info c' : request_bytes r -> prepare c r info = (c', 0) -> prepared c r info c'.
Proof.
  intros Hr. unfold prepare. destruct (request_valid r) eqn:Hv; cbn [negb]; [|done].
  set (width := if CONSENT_WIDTH >? fb_width info then fb_width info else CONSENT_WIDTH).
  assert (Hw : width <= fb_width info) by (unfold width; destruct (_ >? _) eqn:?; lia). clearbody width.
  destruct (_ <? gfx_text_width _) eqn:Hvw; [done|].
  assert (Hvw' : 11 <= width - 2 * CONSENT_PADDING - label_column).
  { change (gfx_text_width (literal "MMMM")) with 36 in Hvw. lia. } clear Hvw.
  unfold prepare_texts. rewrite (format_program_text r Hr), (format_arguments_text r Hr Hv). cbn [negb].
  destruct (texts_print r Hr Hv) as [[Hp1 Hp2] [Ha1 Ha2]].
  destruct (wrap (tx_text (cs_program _)) _) as [lp okp] eqn:Ep. cbn in Ep.
  destruct okp; cbn [negb]; [|done].
  destruct (wrap (tx_text (cs_arguments _)) _) as [la oka] eqn:Ea. cbn in Ea.
  destruct oka; cbn [negb]; [|done].
  destruct (_ >? fb_height info) eqn:Hh; [done|]. intros [= <-]. cbn in Hh.
  apply wrap_lays_out in Ep; [|done..]. apply wrap_lays_out in Ea; [|done..].
  split; cbn; try done; unfold value_width; cbn; try done. unfold box_height. lia.
Qed.

(** Where the prompt lies when it fits the screen. *)
Lemma prompt_rect c r info c' now : prepared c r info c' ->
  windowd_consent_rect (show c' now) info =
    mk_rect ((fb_width info - cs_width c') ÷ 2) ((fb_height info - cs_height c') ÷ 2) (cs_width c') (cs_height c').
Proof.
  intros H. pose proof (pr_width _ _ _ _ H). pose proof (pr_height _ _ _ _ H).
  unfold windowd_consent_rect. cbn. replace (cs_width c' >? fb_width info) with false by lia.
  by replace (cs_height c' >? fb_height info) with false by lia.
Qed.

(** A line of text drawn at a place, inside the clip and above the buttons. *)
Definition line_shown (c : windowd_consent) (info : fb_info) (drawn : Z * Z * list Z) : Prop :=
  let '(x, y, line) := drawn in
  let clip := text_clip c info in
  rx clip <= x /\ x + gfx_text_width line <= rx clip + rw clip /\
  ry clip <= y /\ y + line_height <= ry (button_rect c info WINDOWD_CONSENT_NO) /\
  ry (button_rect c info WINDOWD_CONSENT_NO) + CONSENT_BUTTON_HEIGHT <= ry clip + rh clip.

Lemma laid_out_lines text width p lines column y :
  laid_out text width p lines -> map snd (field_lines text lines column y) = map (fun '(p, n) => slice text p n) lines.
Proof. intros H. revert y. induction H as [|????????? IH]; intros y; cbn; [done|]. by rewrite IH. Qed.

(** The lines of a field that lies in the room for the values. *)
Lemma field_shown c r info c' now text lines y :
  prepared c r info c' -> prints text -> laid_out text (value_width c') 0 lines ->
  let prompt := show c' now in let top := ry (windowd_consent_rect prompt info) + 79 in
  top <= y ->
  y + zlen lines * line_height <=
    top + (zlen (tx_lines (cs_program c')) + zlen (tx_lines (cs_arguments c'))) * line_height ->
  Forall (line_shown prompt info)
    (field_lines text lines (rx (windowd_consent_rect prompt info) + CONSENT_PADDING + label_column) y).
Proof.
  intros H Ht Hl prompt top H1 H2. eapply Forall_impl; [apply (field_lines_spec _ _ _ _ _ _ Hl Ht)|].
  intros [[x ly] l] (-> & H3 & H4 & H5). unfold line_shown. revert H5. generalize (gfx_text_width l). intros w H5.
  unfold text_clip, button_rect, top, prompt in *. rewrite (prompt_rect _ _ _ _ now H) in *.
  pose proof (pr_box _ _ _ _ H) as Hbox. cbn in *. rewrite Hbox in *. unfold box_height, value_width in *.
  assert (0 <= label_column) by done. change (line_height ÷ 2) with 8 in *. change line_height with 17 in *.
  unfold CONSENT_PADDING, CONSENT_BUTTON_HEIGHT, CONSENT_CAPTION_HEIGHT in *.
  pose proof (zlen_nonneg (tx_lines (cs_program c'))). pose proof (zlen_nonneg (tx_lines (cs_arguments c'))). lia.
Qed.

(** The box fits every screen it fits. *)
Lemma prepared_screen c r info c' info' :
  prepared c r info c' -> cs_width c' <= fb_width info' -> cs_height c' <= fb_height info' -> prepared c r info' c'.
Proof. intros [H1 H2 H3 H4 H5 H6 H7 H8 H9 H10] Hw Hh. by split. Qed.

(** The lines a prompt draws. *)
Lemma prepared_drawn c r info c' now :
  request_bytes r -> prepared c r info c' ->
  let prompt := show c' now in
  map snd (drawn_lines prompt info) =
    map (fun '(p, n) => slice (tx_text (cs_program c')) p n) (tx_lines (cs_program c')) ++
    map (fun '(p, n) => slice (tx_text (cs_arguments c')) p n) (tx_lines (cs_arguments c')) /\
  Forall (line_shown prompt info) (drawn_lines prompt info).
Proof.
  intros Hr Hp prompt. pose proof (pr_valid _ _ _ _ Hp) as Hv.
  destruct (texts_print r Hr Hv) as [[Hp1 _] [Ha1 _]].
  pose proof (pr_program_lines _ _ _ _ Hp) as Hlp. pose proof (pr_arguments_lines _ _ _ _ Hp) as Hla.
  pose proof (pr_program _ _ _ _ Hp) as Ep. pose proof (pr_arguments _ _ _ _ Hp) as Ea.
  unfold drawn_lines. change (cs_open prompt) with true. cbn [negb].
  split; [rewrite map_app; by erewrite !laid_out_lines by eassumption|].
  rewrite <- Ep in Hp1. rewrite <- Ea in Ha1. set (top := ry _ + _ + _ + _).
  assert (Htop : top = ry (windowd_consent_rect prompt info) + 37) by (unfold top; clear; unfold CONSENT_PADDING, CONSENT_CAPTION_HEIGHT; lia).
  clearbody top. subst top. change (line_height ÷ 2) with 8. assert (Hlh : line_height = 17) by done.
  pose proof (zlen_nonneg (tx_lines (cs_program c'))). pose proof (zlen_nonneg (tx_lines (cs_arguments c'))).
  apply Forall_app. split; eapply field_shown; try eassumption; subst prompt; change (cs_program (show c' now)) with (cs_program c');
    change (cs_arguments (show c' now)) with (cs_arguments c'); rewrite Hlh; lia.
Qed.

(** A text broken into lines: nothing but a space is left out, at a break. *)
Inductive broken : list Z -> list (list Z) -> Prop :=
| broken_end : broken [] []
| broken_line line rest lines : line <> [] -> broken rest lines -> broken (line ++ rest) (line :: lines)
| broken_space line rest lines : line <> [] -> broken rest lines -> broken (line ++ space :: rest) (line :: lines).

Lemma laid_out_broken text width p lines :
  laid_out text width p lines -> 0 <= p ->
  broken (drop (Z.to_nat p) text) (map (fun '(p, n) => slice text p n) lines).
Proof.
  unfold zlen. induction 1 as [p Hp|p n next lines Hn Hl _ Hnext _ IH]; intros H0; cbn [map].
  { rewrite drop_ge by (unfold zlen in *; lia). constructor. }
  unfold zlen in *. specialize (IH ltac:(lia)).
  assert (Hne : slice text p n <> []).
  { unfold slice. intros E. apply (f_equal length) in E. rewrite length_take, length_drop in E. cbn in E. lia. }
  assert (Hcut : drop (Z.to_nat p) text = slice text p n ++ drop (Z.to_nat (p + n)) text).
  { unfold slice. rewrite <- (take_drop (Z.to_nat n) (drop (Z.to_nat p) text)) at 1. f_equal.
    rewrite drop_drop. f_equal. lia. }
  rewrite Hcut. destruct Hnext as [->|(-> & Hlt & Hsp)]; [by apply broken_line|].
  rewrite (drop_S text space (Z.to_nat (p + n))).
  - apply broken_space; [done|]. by replace (S (Z.to_nat (p + n))) with (Z.to_nat (p + n + 1)) by lia.
  - unfold at_ in Hsp. replace (p + n <? 0) with false in Hsp by lia.
    destruct (lookup_lt_is_Some_2 text (Z.to_nat (p + n)) ltac:(lia)) as [v Hv]. rewrite Hv.
    f_equal. rewrite <- Hsp. symmetry. by apply nth_lookup_Some.
Qed.

(** C24. Nothing of a prompt is cut off: when windowd puts one up, the lines it
    draws are the program's text and then the arguments' text, broken into
    lines that leave out nothing but a space at a break, and every one of them
    is drawn whole, inside the box and above its buttons, on any screen. *)
Theorem prompt_draws_everything (c : windowd_consent) (r : savanxp_consent_request) (info : fb_info)
    (c' : windowd_consent) (now : Z) (Hr : request_bytes r) (Hp : prepare c r info = (c', 0)) :
  let prompt := show c' now in
  let program := tx_text (cs_program prompt) in
  let arguments := tx_text (cs_arguments prompt) in
  (program, true) = format_program (cr_path r) /\ (arguments, true) = format_arguments (cr_args r) (cr_argc r) /\
  laid_out program (value_width prompt) 0 (tx_lines (cs_program prompt)) /\
  laid_out arguments (value_width prompt) 0 (tx_lines (cs_arguments prompt)) /\
  map snd (drawn_lines prompt info) =
    map (fun '(p, n) => slice program p n) (tx_lines (cs_program prompt)) ++
    map (fun '(p, n) => slice arguments p n) (tx_lines (cs_arguments prompt)) /\
  Forall (line_shown prompt info) (drawn_lines prompt info).
Proof.
  apply prepare_ok in Hp; [|done]. pose proof (pr_valid _ _ _ _ Hp) as Hv.
  pose proof (pr_program _ _ _ _ Hp) as Ep. pose proof (pr_arguments _ _ _ _ Hp) as Ea. intros prompt program arguments.
  split; [by rewrite format_program_text, <- Ep|]. split; [by rewrite format_arguments_text, <- Ea|].
  split; [exact (pr_program_lines _ _ _ _ Hp)|]. split; [exact (pr_arguments_lines _ _ _ _ Hp)|].
  exact (prepared_drawn c r info c' now Hr Hp).
Qed.

(** ** Two requests on one screen *)

Definition padded (n : nat) (l : list Z) : list Z := l ++ replicate (n - length l) 0.

(** Strings back to back. *)
Definition joined (l : list (list Z)) : list Z := mjoin (map (fun a => a ++ [0]) l).

(** A request for [/bin/disk] with the arguments given. *)
Definition sample_request (arguments : list (list Z)) : savanxp_consent_request :=
  mk_crequest SAVANXP_CONSENT_MAGIC SAVANXP_CONSENT_VERSION 7 1000 (padded 32 (literal "shell"))
    (padded 128 (literal "/bin/disk")) (1 + zlen arguments)
    (padded 384 (joined (literal "disk" :: arguments))).

Definition sample_info : fb_info := mk_info 1024 768 4096 32 3145728.

Definition sixty_two : list Z := replicate 62 0x61.

Lemma sample_bytes l : forallb (forallb (fun v => (0 <=? v) && (v <? 256))) l = true ->
  (length (joined (literal "disk" :: l)) <= 384)%nat -> request_bytes (sample_request l).
Proof.
  intros H Hl.
  assert (Hp : forall n k, Forall is_byte k -> Forall is_byte (padded n k)).
  { intros n k Hk. apply Forall_app. split; [done|]. by apply Forall_replicate. }
  assert (Hlit : forall s, Forall is_byte (literal s)).
  { intros s. unfold literal. apply Forall_map, Forall_forall. intros a _. unfold is_byte.
    pose proof (Ascii.nat_ascii_bounded a). lia. }
  split.
  - apply Hp, Hlit.
  - reflexivity.
  - apply Hp. apply Forall_join. apply Forall_map. cbn [map]. constructor.
    + apply Forall_app. split; [apply Hlit|]. by repeat constructor.
    + rewrite forallb_forall in H. apply Forall_forall. intros a Ha%list_elem_of_In. apply Forall_app.
      split; [|by repeat constructor]. specialize (H a Ha). rewrite forallb_forall in H.
      apply Forall_forall. intros v Hv%list_elem_of_In. specialize (H v Hv). unfold is_byte. lia.
  - unfold sample_request, padded, zlen. cbn [cr_args]. rewrite length_app, length_replicate.
    change SAVANXP_ELEVATION_ARGS_CAPACITY with 384. lia.
  - cbn. pose proof (zlen_nonneg l). lia.
Qed.

(** The lines do not say where one argument ends and the next begins: a
    program asked to run with two arguments, the first as wide as a line, and
    the same program asked to run with one argument, the two joined, get prompts
    that are drawn exactly alike, though the header promises that what is drawn
    is what runs. *)
Theorem prompt_drawing_ambiguous :
  let two := sample_request [sixty_two; literal "b"] in
  let one := sample_request [sixty_two ++ literal "b"] in
  let prompt r := show (fst (prepare windowd_consent_init r sample_info)) 1000 in
  request_valid two = true /\ request_valid one = true /\ arguments_of two <> arguments_of one /\
  snd (prepare windowd_consent_init two sample_info) = 0 /\ snd (prepare windowd_consent_init one sample_info) = 0 /\
  windowd_consent_rect (prompt two) sample_info = windowd_consent_rect (prompt one) sample_info /\
  drawn_lines (prompt two) sample_info = drawn_lines (prompt one) sample_info.
Proof. vm_compute. repeat split; congruence. Qed.

Definition sample : savanxp_consent_request := sample_request [literal "--erase"; [0x61; 0x20; 0x62; 0x22; 1]; []].

Lemma sample_is_bytes : request_bytes sample.
Proof. apply sample_bytes; [reflexivity|vm_compute; lia]. Qed.

Lemma consent_text_reads_back_witness :
  request_valid sample = true /\
  exists program arguments,
    format_program (cr_path sample) = (program, true) /\ format_arguments (cr_args sample) (cr_argc sample) = (arguments, true) /\
    text_program program = program_of sample /\ text_arguments arguments = arguments_of sample /\
    Forall (fun v => printable v = true) (program ++ arguments).
Proof.
  split; [reflexivity|]. exact (consent_text_reads_back sample sample_is_bytes (eq_refl : request_valid sample = true)).
Defined.

Lemma prompt_draws_everything_witness :
  let c' := fst (prepare windowd_consent_init sample sample_info) in
  (length (drawn_lines (show c' 5) sample_info) = 2)%nat /\
  Forall (line_shown (show c' 5) sample_info) (drawn_lines (show c' 5) sample_info).
Proof.
  split; [vm_compute; reflexivity|].
  assert (Hp : prepare windowd_consent_init sample sample_info
               = (fst (prepare windowd_consent_init sample sample_info), 0)) by (vm_compute; reflexivity).
  exact (proj2 (proj2 (proj2 (proj2 (proj2
    (prompt_draws_everything windowd_consent_init sample sample_info _ 5 sample_is_bytes Hp)))))).
Defined.
