(* ===== verification/ConsentRun.v ===== *)
(** * The life of an elevation prompt

    The prompt as a state machine: what the main loop of windowd hands it, one
    input at a time.  A prompt that is up was shown by a request of the system,
    and the only way to a yes is a press made after it was armed. *)

From S2P Require Import Prelude Rect Painter Scene Consent ConsentText.

(** What the main loop hands to the prompt. *)
Inductive input :=
| Key (event : savanxp_input_event) (now_ms : Z)
| Pointer (info : fb_info) (x y buttons last_buttons now_ms : Z)
| Service (info : fb_info) (now_ms : Z) (accept : option accepted) (got : request_read) (reads : list pipe_read).

Definition feed (c : windowd_consent) (i : input) : windowd_consent :=
  match i with
  | Key event now_ms => fst (fst (windowd_consent_key c event now_ms))
  | Pointer info x y buttons last_buttons now_ms =>
      fst (fst (windowd_consent_pointer c info x y buttons last_buttons now_ms))
  | Service info now_ms accept got reads => fst (windowd_consent_service c info now_ms accept got reads)
  end.

(** A handle the kernel gives is not negative. *)
Definition input_ok (i : input) : Prop :=
  match i with
  | Service _ _ (Some a) _ _ => 0 <= ac_read a /\ 0 <= ac_write a
  | _ => True
  end.

(** The states of the prompt from when windowd created its port. *)
Inductive reachable : windowd_consent -> Prop :=
| reach_init port : reachable (fst (windowd_consent_open_port windowd_consent_init port))
| reach_feed c i : reachable c -> input_ok i -> reachable (feed c i)
| reach_close c : reachable c -> reachable (windowd_consent_close c).

(** ** Presses *)

(** A key pressed, not held, once the prompt is armed. *)
Definition fresh_key (armed : Z) (event : savanxp_input_event) (now_ms : Z) : Prop :=
  ke_type event = SAVANXP_INPUT_EVENT_KEY_DOWN /\ has_flag (ke_modifiers event) SAVANXP_KEY_MOD_REPEAT = false /\
  armed <= now_ms.

(** The left button pressed on Yes, once the prompt is armed. *)
Definition press_on_yes (armed : Z) (c : windowd_consent) (i : input) : Prop :=
  match i with
  | Pointer info x y buttons last_buttons now_ms =>
      has_flag buttons SAVANXP_MOUSE_BUTTON_LEFT = true /\ has_flag last_buttons SAVANXP_MOUSE_BUTTON_LEFT = false /\
      button_at c info x y = WINDOWD_CONSENT_YES /\ armed <= now_ms
  | _ => False
  end.

(** An input that moves the focus to Yes: a key that moves it, or a press on Yes. *)
Definition chooses_yes (armed : Z) (c : windowd_consent) (i : input) : Prop :=
  match i with
  | Key event now_ms => fresh_key armed event now_ms /\
      (ke_key event = SAVANXP_KEY_TAB \/ ke_key event = SAVANXP_KEY_LEFT \/ ke_key event = SAVANXP_KEY_RIGHT)
  | _ => press_on_yes armed c i
  end.

(** A prompt that is up: shown for a request at [shown_ms], with the inputs since. *)
Inductive up (r : savanxp_consent_request) (shown_ms : Z) : list input -> windowd_consent -> Prop :=
| up_shown c info accept reads c' :
    reachable c -> cs_open c = false -> input_ok (Service info shown_ms accept (ReadRequest r) reads) ->
    windowd_consent_service c info shown_ms accept (ReadRequest r) reads = (c', true) ->
    up r shown_ms [] c'
| up_input h c i : up r shown_ms h c -> input_ok i -> cs_open (feed c i) = true -> up r shown_ms (h ++ [i]) (feed c i).

(** How an input says yes to a prompt that is up. *)
Definition says_yes (armed : Z) (c : windowd_consent) (h : list input) (i : input) : Prop :=
  match i with
  | Key event now_ms => fresh_key armed event now_ms /\
      (is_letter event 0x79 = true \/
       ((ke_key event = SAVANXP_KEY_ENTER \/ ke_ascii event = space) /\ Exists (chooses_yes armed c) h))
  | Pointer info x y buttons last_buttons now_ms =>
      has_flag buttons SAVANXP_MOUSE_BUTTON_LEFT = false /\ has_flag last_buttons SAVANXP_MOUSE_BUTTON_LEFT = true /\
      button_at c info x y = WINDOWD_CONSENT_YES /\ Exists (press_on_yes armed c) h
  | Service _ _ _ _ _ => False
  end.

(** ** The prompt's box and request stay while it is up *)

Record same_prompt (c c' : windowd_consent) : Prop := {
  sp_open : cs_open c' = cs_open c;
  sp_armed : cs_armed_at_ms c' = cs_armed_at_ms c;
  sp_request : cs_request c' = cs_request c;
  sp_program : cs_program c' = cs_program c;
  sp_arguments : cs_arguments c' = cs_arguments c;
  sp_width : cs_width c' = cs_width c;
  sp_height : cs_height c' = cs_height c;
  sp_connection : cs_port_fd c' = cs_port_fd c /\ cs_read_fd c' = cs_read_fd c /\ cs_write_fd c' = cs_write_fd c;
  sp_sent : cs_sent c' = cs_sent c }.

Lemma same_prompt_refl c : same_prompt c c.
Proof. by split. Qed.

Lemma same_prompt_choice c f p : same_prompt c (put_choice f p c).
Proof. by split. Qed.

Lemma button_at_same c c' info x y : same_prompt c c' -> button_at c' info x y = button_at c info x y.
Proof.
  intros H. unfold button_at, button_rect, windowd_consent_rect. by rewrite (sp_width _ _ H), (sp_height _ _ H).
Qed.

(** What an input does to a prompt that is up. *)
Inductive effect (c : windowd_consent) : windowd_consent -> Prop :=
| eff_same c' : same_prompt c c' -> effect c c'
| eff_answer c1 yes : same_prompt c c1 -> effect c (answer_prompt c1 yes)
| eff_withdrawn : effect c (drop_connection c).

Lemma discard_effect c reads : effect c (fst (discard_loop c reads)).
Proof.
  induction reads as [|[|got] reads IH]; cbn [discard_loop fst]; [apply eff_same, same_prompt_refl..|].
  case_if; [apply eff_withdrawn|done].
Qed.

(** A prompt that is up has its broker on the line. *)
Definition connected (c : windowd_consent) : Prop := cs_open c = true -> 0 <= cs_read_fd c /\ 0 <= cs_write_fd c.

Lemma feed_effect c i : connected c -> cs_open c = true -> effect c (feed c i).
Proof.
  intros Hc Ho. specialize (Hc Ho). destruct i as [event now|info x y b lb now|info now acc got reads]; cbn [feed].
  - unfold windowd_consent_key. rewrite Ho. cbn [negb].
    repeat (destruct (_ || _); cbn [fst]); repeat (destruct (is_letter _ _); cbn [fst]);
      repeat (destruct (_ || _); cbn [fst]);
      first [apply eff_same, same_prompt_refl|apply eff_answer, same_prompt_refl|apply eff_same, same_prompt_choice].
  - unfold windowd_consent_pointer. rewrite Ho. cbn [negb].
    repeat (destruct (_ && _); cbn [fst]); try destruct (_ >=? 0); cbn [fst];
      first [apply eff_same, same_prompt_refl|apply eff_same, same_prompt_choice|apply eff_answer, same_prompt_choice].
  - unfold windowd_consent_service. rewrite Ho. cbn [negb]. case_if; [apply eff_same, same_prompt_refl|].
    replace (cs_read_fd c <? 0) with false by lia. apply discard_effect.
Qed.

(** What preparing a request leaves alone. *)
Record keeps (c c' : windowd_consent) : Prop := {
  kp_open : cs_open c' = cs_open c;
  kp_connection : cs_port_fd c' = cs_port_fd c /\ cs_read_fd c' = cs_read_fd c /\ cs_write_fd c' = cs_write_fd c;
  kp_sent : cs_sent c' = cs_sent c }.

Lemma prepare_keeps c r info c' res : prepare c r info = (c', res) -> keeps c c' /\ res <= 0.
Proof.
  unfold prepare. destruct (request_valid r); cbn [negb]; [|by intros [= <- <-]].
  destruct (_ <? gfx_text_width _); [by intros [= <- <-]|]. unfold prepare_texts.
  destruct (format_program _) as [t1 []]; cbn [negb]; [|by intros [= <- <-]].
  destruct (format_arguments _ _) as [t2 []]; cbn [negb]; [|by intros [= <- <-]].
  destruct (wrap _ _) as [l1 []]; cbn [negb]; [|by intros [= <- <-]].
  destruct (wrap _ _) as [l2 []]; cbn [negb]; [|by intros [= <- <-]].
  destruct (_ >? fb_height info); by intros [= <- <-].
Qed.

(** A connection has both its ends. *)
Definition on_line (c : windowd_consent) : Prop := 0 <= cs_read_fd c -> 0 <= cs_write_fd c.

(** What servicing a prompt that is not up does: it stays down and an answer, if
    any, refuses; or it goes up for a request that was read. *)
Inductive serviced (c : windowd_consent) (info : fb_info) (now : Z) (got : request_read) : windowd_consent * bool -> Prop :=
| sv_down c' : cs_open c' = false -> on_line c' ->
    (cs_sent c' = cs_sent c \/ exists fd answer, answer < 0 /\ cs_sent c' = cs_sent c ++ [(fd, answer)]) ->
    serviced c info now got (c', false)
| sv_up r c1 c2 : got = ReadRequest r -> cs_open c1 = false -> 0 <= cs_read_fd c1 -> 0 <= cs_write_fd c1 ->
    cs_sent c1 = cs_sent c -> prepare c1 r info = (c2, 0) -> serviced c info now got (show c2 now, true).

Lemma refused_down c c1 info now got answer :
  cs_sent c1 = cs_sent c -> answer < 0 -> serviced c info now got (drop_connection (send_answer c1 answer), false).
Proof.
  intros Hs Ha. apply sv_down; [done|unfold on_line; cbn; lia|]. unfold send_answer. cbn. rewrite Hs. case_if; eauto.
Qed.

Lemma service_request_serviced c c1 info now got :
  cs_open c1 = false -> 0 <= cs_read_fd c1 -> 0 <= cs_write_fd c1 -> cs_sent c1 = cs_sent c ->
  serviced c info now got (service_request c1 info now got).
Proof.
  intros Ho Hr Hw Hs. unfold service_request. destruct got as [|r|n].
  - case_if; [|by apply refused_down]. apply sv_down; [done|by intros _|auto].
  - destruct (prepare c1 r info) as [c2 res] eqn:E. pose proof (prepare_keeps _ _ _ _ _ E) as [Hk Hres].
    case_if; [apply refused_down; [by rewrite (kp_sent _ _ Hk)|lia]|].
    replace res with 0 in E by lia. by apply (sv_up c info now _ r c1 c2).
  - by apply refused_down.
Qed.

Lemma service_serviced c info now acc got reads :
  cs_open c = false -> on_line c -> input_ok (Service info now acc got reads) ->
  serviced c info now got (windowd_consent_service c info now acc got reads).
Proof.
  intros Ho Hl Hok. unfold windowd_consent_service.
  case_if; [apply sv_down; auto|]. destruct (cs_read_fd c <? 0) eqn:Er.
  - destruct acc as [a|]; [|apply sv_down; auto]. cbn in Hok. destruct Hok.
    case_if; [by apply refused_down|]. cbn [cs_open put_connection]. rewrite Ho. cbn [negb].
    by apply service_request_serviced.
  - rewrite Ho. cbn [negb]. apply service_request_serviced; [done|lia|apply Hl; lia|done].
Qed.

Lemma reachable_on_line c : reachable c -> on_line c /\ connected c.
Proof.
  induction 1 as [port|c i Hc [Hl Hn] Hi|c Hc [Hl Hn]].
  - unfold windowd_consent_open_port, on_line, connected. case_if; cbn; split; done || lia.
  - destruct (cs_open c) eqn:Ho.
    + destruct (feed_effect c i Hn Ho) as [c' Hs|c1 yes Hs|].
      * destruct (sp_connection _ _ Hs) as (_ & Hr & Hw). unfold on_line, connected in *.
        rewrite (sp_open _ _ Hs), Hr, Hw. auto.
      * split; unfold on_line, connected; cbn; [lia|done].
      * split; unfold on_line, connected; cbn; [lia|done].
    + destruct i as [event now|info x y b lb now|info now acc got reads]; cbn [feed].
      * unfold windowd_consent_key. rewrite Ho. by cbn.
      * unfold windowd_consent_pointer. rewrite Ho. by cbn.
      * pose proof (service_serviced c info now acc got reads Ho Hl Hi) as Hsv.
        destruct Hsv as [c' Ho' Hl' _|r c1 c2 _ _ Hr Hw _ E]; cbn [fst].
        -- split; [done|]. unfold connected. by rewrite Ho'.
        -- apply prepare_keeps in E as [Hk _]. destruct (kp_connection _ _ Hk) as (_ & Er & Ew).
           unfold on_line, connected. cbn. by rewrite Er, Ew.
  - split; unfold on_line, connected; cbn; [lia|done].
Qed.

(** ** A prompt that is up *)

Record up_state (shown_ms : Z) (h : list input) (c : windowd_consent) : Prop := {
  us_open : cs_open c = true;
  us_armed : cs_armed_at_ms c = u64 (shown_ms + WINDOWD_CONSENT_ARM_MS);
  us_pressed : cs_pressed c = WINDOWD_CONSENT_YES -> Exists (press_on_yes (cs_armed_at_ms c) c) h;
  us_focused : cs_focused c = WINDOWD_CONSENT_YES -> Exists (chooses_yes (cs_armed_at_ms c) c) h }.

Lemma press_same armed c c' i : same_prompt c c' -> press_on_yes armed c i <-> press_on_yes armed c' i.
Proof. intros H. destruct i; cbn; [done| |done]. by rewrite (button_at_same c c'). Qed.

Lemma chooses_same armed c c' i : same_prompt c c' -> chooses_yes armed c i <-> chooses_yes armed c' i.
Proof. intros H. unfold chooses_yes. destruct i; [done|by apply press_same|done]. Qed.

(** What an input leaves of the choice. *)
Lemma feed_choice c i : connected c -> cs_open c = true -> cs_open (feed c i) = true ->
  (cs_pressed (feed c i) = WINDOWD_CONSENT_YES -> cs_pressed c = WINDOWD_CONSENT_YES \/ press_on_yes (cs_armed_at_ms c) c i) /\
  (cs_focused (feed c i) = WINDOWD_CONSENT_YES -> cs_focused c = WINDOWD_CONSENT_YES \/ chooses_yes (cs_armed_at_ms c) c i).
Proof.
  intros Hn Ho. specialize (Hn Ho). destruct i as [event now|info x y b lb now|info now acc got reads]; cbn [feed].
  - unfold windowd_consent_key. rewrite Ho. cbn [negb].
    destruct (negb _ || _ || _) eqn:Ef; cbn [fst]; [by auto|].
    destruct (is_letter event 121); cbn [fst]; [done|].
    destruct (_ || is_letter event 110); cbn [fst]; [done|].
    destruct (_ || _ || (_ =? SAVANXP_KEY_RIGHT)) eqn:Et; cbn [fst].
    + intros _. cbn. split; [by auto|]. intros Hf. right. unfold fresh_key. split; [|lia].
      destruct (has_flag _ _); lia.
    + destruct ((_ =? SAVANXP_KEY_ENTER) || _); cbn [fst]; [done|]. auto.
  - unfold windowd_consent_pointer. rewrite Ho. cbn [negb].
    destruct (has_flag b _) eqn:Eb, (has_flag lb _) eqn:Elb; cbn [negb andb fst]; [by auto| | |by auto].
    + destruct (now <? cs_armed_at_ms c) eqn:En; cbn [Z.geb Z.compare Z.opp fst cs_open cs_pressed cs_focused put_choice].
      { intros _. split; [discriminate|by auto]. }
      destruct (button_at c info x y >=? 0) eqn:Ebt; cbn [fst cs_pressed cs_focused put_choice]; intros _.
      * split; intros Hp; right; cbn; repeat split; auto; lia.
      * split; [intros Hp; right; cbn; repeat split; auto; lia|by auto].
    + destruct (_ && _); cbn [fst]; [done|]. intros _. split; [discriminate|by auto].
  - unfold windowd_consent_service. rewrite Ho. cbn [negb]. case_if; [by auto|].
    replace (cs_read_fd c <? 0) with false by lia. cbn [fst].
    induction reads as [|[|n] reads IH]; cbn [discard_loop fst]; [by auto..|]. case_if; [done|]. apply IH.
Qed.

Lemma feed_same c i : connected c -> cs_open c = true -> cs_open (feed c i) = true -> same_prompt c (feed c i).
Proof. intros Hn Ho H. destruct (feed_effect c i Hn Ho); done. Qed.

(** A prompt goes up with its focus on No, nothing pressed, and half a second to
    go. *)
Lemma shown_state c c' info now acc r reads :
  reachable c -> cs_open c = false -> input_ok (Service info now acc (ReadRequest r) reads) ->
  windowd_consent_service c info now acc (ReadRequest r) reads = (c', true) -> up_state now [] c'.
Proof.
  intros Hc Ho Hi E. destruct (reachable_on_line c Hc) as [Hl _].
  pose proof (service_serviced c info now acc _ reads Ho Hl Hi) as Hs. rewrite E in Hs.
  inversion Hs; subst. by split.
Qed.

Lemma up_reachable r now h c : up r now h c -> reachable c.
Proof.
  induction 1 as [c info acc reads c' Hc Ho Hi E|h c i Hup IH Hi Ho].
  - replace c' with (feed c (Service info now acc (ReadRequest r) reads)) by (cbn [feed]; by rewrite E).
    by apply reach_feed.
  - by apply reach_feed.
Qed.

Lemma up_is_up r now h c : up r now h c -> up_state now h c.
Proof.
  induction 1 as [c info acc reads c' Hc Ho Hi E|h c i Hup IH Hi Ho]; [by eapply shown_state|].
  destruct IH as [Hopen Harm Hp Hf]. apply up_reachable in Hup. destruct (reachable_on_line c Hup) as [_ Hn].
  pose proof (feed_same c i Hn Hopen Ho) as Hs. destruct (feed_choice c i Hn Hopen Ho) as [Hp' Hf'].
  split; [done|by rewrite (sp_armed _ _ Hs)| |]; rewrite (sp_armed _ _ Hs); intros H; apply Exists_app.
  - destruct (Hp' H) as [Hy|Hy]; [left|right; constructor]; [|exact (proj1 (press_same _ _ _ _ Hs) Hy)].
    eapply Exists_impl; [by apply Hp|]. intros j. exact (proj1 (press_same _ _ _ j Hs)).
  - destruct (Hf' H) as [Hy|Hy]; [left|right; constructor]; [|exact (proj1 (chooses_same _ _ _ _ Hs) Hy)].
    eapply Exists_impl; [by apply Hf|]. intros j. exact (proj1 (chooses_same _ _ _ j Hs)).
Qed.

(** A prompt on the screen was put there by a request, and has been up since. *)
Lemma reachable_up c : reachable c -> cs_open c = true -> exists r shown_ms h, up r shown_ms h c.
Proof.
  induction 1 as [port|c i Hc IH Hi|c Hc IH]; intros Ho.
  - unfold windowd_consent_open_port in Ho. revert Ho. by case_if.
  - destruct (cs_open c) eqn:Hco.
    { destruct (IH eq_refl) as (r & t & h & Hup). exists r, t, (h ++ [i]). by constructor. }
    destruct i as [event now|info x y b lb now|info now acc got reads]; cbn [feed] in *.
    + unfold windowd_consent_key in Ho. rewrite Hco in Ho. cbn in Ho. congruence.
    + unfold windowd_consent_pointer in Ho. rewrite Hco in Ho. cbn in Ho. congruence.
    + destruct (reachable_on_line c Hc) as [Hl _].
      pose proof (service_serviced c info now acc got reads Hco Hl Hi) as Hs.
      destruct (windowd_consent_service c info now acc got reads) as [c' b] eqn:E. cbn [fst] in *.
      inversion Hs as [? Hd|r c1 c2 Hr]; subst; [congruence|]. exists r, now, []. by eapply up_shown.
  - done.
Qed.

(** The input that writes a yes. *)
Lemma feed_yes c i fd now h :
  connected c -> up_state now h c -> cs_sent (feed c i) = cs_sent c ++ [(fd, 1)] ->
  fd = cs_write_fd c /\ says_yes (cs_armed_at_ms c) c h i.
Proof.
  intros Hn [Ho Harm Hp Hf] Hs. specialize (Hn Ho).
  assert (Hno : cs_sent c <> cs_sent c ++ [(fd, 1)]).
  { intros E. apply (f_equal length) in E. rewrite length_app in E. cbn in E. lia. }
  assert (Hans : forall c1 yes, same_prompt c c1 -> cs_sent (answer_prompt c1 yes) = cs_sent c ++ [(fd, 1)] ->
                 fd = cs_write_fd c /\ yes = true).
  { intros c1 yes Hsp E. unfold answer_prompt, send_answer in E. cbn in E.
    destruct (sp_connection _ _ Hsp) as (_ & _ & Hw). rewrite Hw, (sp_sent _ _ Hsp) in E.
    replace (cs_write_fd c >=? 0) with true in E by lia. apply app_inj_tail in E as [_ [= <- Ey]]. by destruct yes. }
  destruct i as [event t|info x y b lb t|info t acc got reads]; cbn [feed says_yes] in *.
  - unfold windowd_consent_key in Hs. rewrite Ho in Hs. cbn [negb] in Hs.
    destruct (negb _ || _ || _) eqn:Ef in Hs; cbn [fst] in Hs; [done|].
    assert (Hfresh : fresh_key (cs_armed_at_ms c) event t) by (unfold fresh_key; destruct (has_flag _ _); lia).
    destruct (is_letter event 121) eqn:Ey; cbn [fst] in Hs.
    { apply Hans in Hs as [-> _]; [by auto|apply same_prompt_refl]. }
    destruct (_ || is_letter event 110); cbn [fst] in Hs.
    { by apply Hans in Hs as [_ ?]; [|apply same_prompt_refl]. }
    destruct (_ || _ || (_ =? SAVANXP_KEY_RIGHT)); cbn [fst] in Hs; [done|].
    destruct ((_ =? SAVANXP_KEY_ENTER) || _) eqn:Ee; cbn [fst] in Hs; [|done].
    apply Hans in Hs as [-> Hyes]; [|apply same_prompt_refl]. split; [done|]. split; [done|]. right.
    split; [lia|]. apply Hf. lia.
  - unfold windowd_consent_pointer in Hs. rewrite Ho in Hs. cbn [negb] in Hs.
    destruct (has_flag b _) eqn:Eb, (has_flag lb _) eqn:Elb; cbn [negb andb fst] in Hs; [done| | |done].
    { destruct (_ >=? 0); cbn [fst] in Hs; done. }
    destruct (_ && _) eqn:Ep; cbn [fst] in Hs; [|done].
    apply Hans in Hs as [-> Hyes]; [|apply same_prompt_choice].
    rewrite (button_at_same c) in Ep by apply same_prompt_choice.
    split; [done|]. split_and!; [done|done|lia|]. apply Hp. lia.
  - exfalso. unfold windowd_consent_service in Hs. rewrite Ho in Hs. cbn [negb] in Hs.
    revert Hs. case_if; [done|]. replace (cs_read_fd c <? 0) with false by lia.
    induction reads as [|[|n] reads IH]; cbn [discard_loop fst]; [done..|]. case_if; [done|]. apply IH.
Qed.

(** C11. Only the user says yes, and means it: whenever windowd writes a yes to
    the broker, a prompt was up, shown for a request at [shown_ms]; the input
    that wrote it was the letter Y, or Enter or Space with the focus moved to
    Yes by an earlier input, as a key pressed and not held down; or it was the
    left button released on Yes after having been pressed on Yes; and every one
    of these presses came at least half a second after the prompt appeared. *)
Theorem yes_is_deliberate (c : windowd_consent) (i : input) (fd : Z)
    (Hc : reachable c) (Hi : input_ok i) (Hs : cs_sent (feed c i) = cs_sent c ++ [(fd, 1)]) :
  exists r shown_ms h,
    up r shown_ms h c /\ fd = cs_write_fd c /\ says_yes (u64 (shown_ms + WINDOWD_CONSENT_ARM_MS)) c h i.
Proof.
  destruct (reachable_on_line c Hc) as [Hl Hn]. destruct (cs_open c) eqn:Ho.
  - destruct (reachable_up c Hc Ho) as (r & t & h & Hup). exists r, t, h. split; [done|].
    apply up_is_up in Hup. rewrite <- (us_armed _ _ _ Hup). by eapply feed_yes.
  - exfalso. assert (Hno : cs_sent c <> cs_sent c ++ [(fd, 1)]).
    { intros E. apply (f_equal length) in E. rewrite length_app in E. cbn in E. lia. }
    destruct i as [event t|info x y b lb t|info t acc got reads]; cbn [feed] in Hs.
    + unfold windowd_consent_key in Hs. by rewrite Ho in Hs.
    + unfold windowd_consent_pointer in Hs. by rewrite Ho in Hs.
    + pose proof (service_serviced c info t acc got reads Ho Hl Hi) as Hsv.
      destruct Hsv as [c' _ _ [E|(fd' & a & Ha & E)]|r c1 c2 _ _ _ _ E1 Ep]; cbn [fst] in Hs.
      * by rewrite E in Hs.
      * rewrite E in Hs. apply app_inj_tail in Hs as [_ [= _ ->]]. lia.
      * apply prepare_keeps in Ep as [Hk _]. cbn in Hs. rewrite (kp_sent _ _ Hk), E1 in Hs. done.
Qed.

(** A prompt for [sample], shown at one second, with the mouse pressed on Yes a
    second later. *)
Definition sample_start : windowd_consent := fst (windowd_consent_open_port windowd_consent_init 3).
Definition sample_ask : input := Service sample_info 1000 (Some (mk_accepted 5 6 0)) (ReadRequest sample) [].
Definition sample_press : input := Pointer sample_info 600 440 1 0 2000.
Definition sample_release : input := Pointer sample_info 601 441 0 1 2100.
Definition sample_pressed : windowd_consent := feed (feed sample_start sample_ask) sample_press.

Lemma yes_is_deliberate_witness :
  cs_sent (feed sample_pressed sample_release) = [(6, 1)] /\
  exists r shown_ms h,
    up r shown_ms h sample_pressed /\ 6 = cs_write_fd sample_pressed /\
    says_yes (u64 (shown_ms + WINDOWD_CONSENT_ARM_MS)) sample_pressed h sample_release.
Proof.
  assert (Hs : cs_sent (feed sample_pressed sample_release) = cs_sent sample_pressed ++ [(6, 1)]) by (vm_compute; reflexivity).
  assert (Hc : reachable sample_pressed).
  { apply reach_feed; [apply reach_feed; [apply (reach_init 3)|cbn; lia]|exact I]. }
  split; [vm_compute; reflexivity|].
  exact (yes_is_deliberate sample_pressed sample_release 6 Hc I Hs).
Defined.
