(* ===== verification/Elevation.v ===== *)
(** * The elevation broker (system/elevationd/elevationd.c, sxn/sxnelevate.h)

    A program asks the broker to run something with the system's rights
    ([sxn_elevate]); the broker asks windowd to show the prompt, and on yes
    starts the program itself.

    A system call's result is an argument.  [serve] is composed of what it does
    up to the question, the question ([ask_consent]) and what it does with the
    answer, so that the system of the broker and the prompt can be put together
    from the same pieces.  The replies written and the programs started are kept
    with the broker's state. *)

From S2P Require Import Prelude Consent ConsentText.

Definition SAVANXP_ELEVATION_MAGIC : Z := 0x56454c45.
Definition SAVANXP_ELEVATION_VERSION : Z := 1.
Definition SAVANXP_ELEVATION_WAIT : Z := 1.
Definition SAVANXP_ELEVATION_RECORD_STARTED : Z := 1.
Definition SAVANXP_ELEVATION_RECORD_EXITED : Z := 2.
Definition ELEVATIOND_MAX_CHILDREN : Z := 16.
Definition SAVANXP_ENOENT : Z := 2.
Definition SAVANXP_EIO : Z := 5.
Definition SAVANXP_EAGAIN : Z := 11.
Definition SAVANXP_EPIPE : Z := 32.

Record savanxp_elevation_request := mk_erequest {
  er_magic : Z; er_version : Z; er_flags : Z; er_argc : Z; er_path : list Z; er_args : list Z }.

Record sxn_identity := mk_identity { id_uid : Z; id_euid : Z; id_gid : Z }.

(** A connection accepted on the broker's port. *)
Record client := mk_client { cl_pid : Z; cl_identity : sxn_identity; cl_read : Z; cl_write : Z }.

Record elevationd_child := mk_child { ch_pid : Z; ch_reply_handle : Z }.

(** What is started: the path, the arguments, and the identity it runs as. *)
Record program := mk_program { pg_path : list Z; pg_argv : list (list Z); pg_identity : sxn_identity }.

(** [bk_replies]: handle, record and status of every reply written;
    [bk_spawned]: for whom and what, for every program the kernel was asked to
    start. *)
Record broker := mk_broker {
  bk_children : list elevationd_child; bk_replies : list (Z * Z * Z); bk_spawned : list (client * program) }.

Definition broker0 : broker := mk_broker (replicate (Z.to_nat ELEVATIOND_MAX_CHILDREN) (mk_child 0 (-1))) [] [].

Definition send_reply (handle record status : Z) (b : broker) : broker :=
  mk_broker (bk_children b) (bk_replies b ++ [(handle, record, status)]) (bk_spawned b).

Definition put_child (slot : nat) (ch : elevationd_child) (b : broker) : broker :=
  mk_broker (<[slot := ch]> (bk_children b)) (bk_replies b) (bk_spawned b).

Definition free_child (b : broker) : option nat := fst <$> list_find (fun ch => ch_pid ch = 0) (bk_children b).

(** [query]: the child is known and has not ended; [wait]: its status, when
    [waitpid] gives one. *)
Definition reap_child (query : Z -> bool) (wait : Z -> option Z) (slot : nat) (b : broker) : broker :=
  match bk_children b !! slot with
  | None => b
  | Some ch =>
      if ch_pid ch =? 0 then b
      else if query (ch_pid ch) then b
      else
        let status := default (-1) (wait (ch_pid ch)) in
        if ch_reply_handle ch >=? 0
        then put_child slot (mk_child 0 (-1)) (send_reply (ch_reply_handle ch) SAVANXP_ELEVATION_RECORD_EXITED status b)
        else put_child slot (mk_child 0 (ch_reply_handle ch)) b
  end.

Definition reap_children (query : Z -> bool) (wait : Z -> option Z) (b : broker) : broker :=
  foldl (fun b slot => reap_child query wait slot b) b (seq 0 (Z.to_nat ELEVATIOND_MAX_CHILDREN)).

(** The loop of [parse_request] over the strings, from what is left of [args]. *)
Fixpoint parse_strings (argc : nat) (args : list Z) : option (list (list Z)) :=
  match argc with
  | O => Some []
  | S argc =>
      match args with
      | [] => None
      | _ => if negb (terminated args) then None
             else cons (c_string args) <$> parse_strings argc (drop (S (length (c_string args))) args)
      end
  end.

Definition parse_request (r : savanxp_elevation_request) : option (list (list Z)) :=
  if negb (er_magic r =? SAVANXP_ELEVATION_MAGIC) || negb (er_version r =? SAVANXP_ELEVATION_VERSION)
     || negb (Z.ldiff (er_flags r) SAVANXP_ELEVATION_WAIT =? 0)
     || (er_argc r =? 0) || (er_argc r >? SAVANXP_ELEVATION_MAX_ARGS) then None
  else if negb (at_ 0 (er_path r) 0 =? 0x2f) || negb (terminated (er_path r)) then None
  else parse_strings (Z.to_nat (er_argc r)) (er_args r).

(** ** The question *)

(** [name]: the requester's image, when the process can be queried. *)
Definition consent_request_of (c : client) (name : option (list Z)) (asked : savanxp_elevation_request) : savanxp_consent_request :=
  mk_crequest SAVANXP_CONSENT_MAGIC SAVANXP_CONSENT_VERSION (cl_pid c) (id_uid (cl_identity c))
    (match name with Some n => take 31 n ++ [0] | None => replicate 32 0 end)
    (take 127 (er_path asked) ++ [0]) (er_argc asked) (er_args asked).

(** Up to the first wait: an answer at once, or what is written to windowd.
    [creator]: who made the consent port, when there is one. *)
Definition ask_begin (c : client) (asked : savanxp_elevation_request) (creator : option sxn_identity)
    (name : option (list Z)) (wrote : bool) : Z + savanxp_consent_request :=
  match creator with
  | None => inl (- SAVANXP_ENOENT)
  | Some creator =>
      if negb (id_euid creator =? 0) then inl (- SAVANXP_EACCES)
      else if negb wrote then inl (- SAVANXP_EIO)
      else inr (consent_request_of c name asked)
  end.

(** A turn of the wait: the time is up; windowd's pipe is readable, with a whole
    reply (its magic and its answer) or not; the requester's pipe is; or the wait
    ends with nothing. *)
Inductive wait_event :=
| WaitDeadline | WaitWindowd (reply : option (Z * Z)) | WaitClient (got : Z) | WaitNothing.

(** The answer, when the turn ends the wait. *)
Definition ask_turn (e : wait_event) : option Z :=
  match e with
  | WaitDeadline => Some 0
  | WaitWindowd None => Some 0
  | WaitWindowd (Some (magic, answer)) =>
      Some (if magic =? SAVANXP_CONSENT_MAGIC then (if answer =? 1 then 1 else if answer <? 0 then answer else 0) else 0)
  | WaitClient got => if got <=? 0 then Some (- SAVANXP_EPIPE) else None
  | WaitNothing => None
  end.

(** The wait, turn by turn; it ends at the deadline at the latest. *)
Fixpoint ask_wait (events : list wait_event) : Z :=
  match events with
  | [] => 0
  | e :: events => match ask_turn e with Some answer => answer | None => ask_wait events end
  end.

Definition ask_consent (c : client) (asked : savanxp_elevation_request) (creator : option sxn_identity)
    (name : option (list Z)) (wrote : bool) (events : list wait_event) : Z :=
  match ask_begin c asked creator name wrote with
  | inl answer => answer
  | inr _ => ask_wait events
  end.

(** ** Serving a requester *)

(** Up to the question: refused, or what to run and the slot for it. *)
Inductive serve_state := Refused (b : broker) | Accepted (argv : list (list Z)) (slot : nat).

(** [request] is [None] when nothing readable came in time, or another size. *)
Definition serve_begin (b : broker) (c : client) (request : option savanxp_elevation_request) : serve_state :=
  match request with
  | None => Refused b
  | Some r =>
      match parse_request r with
      | None => Refused b
      | Some argv =>
          match free_child b with
          | None => Refused (send_reply (cl_write c) SAVANXP_ELEVATION_RECORD_STARTED (- SAVANXP_EAGAIN) b)
          | Some slot => Accepted argv slot
          end
      end
  end.

(** From the answer on.  [spawn]: what the kernel returns for the program. *)
Definition serve_end (b : broker) (c : client) (r : savanxp_elevation_request) (argv : list (list Z)) (slot : nat)
    (consent spawn : Z) : broker :=
  let p := mk_program (c_string (er_path r)) argv (mk_identity (id_uid (cl_identity c)) 0 (id_gid (cl_identity c))) in
  let '(b, pid) :=
    if consent =? 1 then (mk_broker (bk_children b) (bk_replies b) (bk_spawned b ++ [(c, p)]), spawn)
    else (b, if consent <? 0 then consent else - SAVANXP_EACCES) in
  let b := if negb (consent =? - SAVANXP_EPIPE) then send_reply (cl_write c) SAVANXP_ELEVATION_RECORD_STARTED pid b else b in
  if pid >? 0
  then put_child slot (mk_child pid (if negb (Z.land (er_flags r) SAVANXP_ELEVATION_WAIT =? 0) && negb (consent =? - SAVANXP_EPIPE)
                                     then cl_write c else -1)) b
  else b.

Definition serve (b : broker) (accept : option client) (request : option savanxp_elevation_request)
    (creator : option sxn_identity) (name : option (list Z)) (wrote : bool) (events : list wait_event) (spawn : Z) : broker :=
  match accept, request with
  | Some c, Some r =>
      match serve_begin b c (Some r) with
      | Refused b => b
      | Accepted argv slot =>
          serve_end b c r argv slot
            (if id_euid (cl_identity c) =? 0 then 1 else ask_consent c r creator name wrote events) spawn
      end
  | _, _ => b
  end.

(** ** Asking (sxn_elevate) *)

(** The strings back to back, [None] when they do not fit. *)
Fixpoint pack_args (used : list Z) (argv : list (list Z)) : option (list Z) :=
  match argv with
  | [] => Some used
  | a :: argv =>
      if zlen used + zlen a + 1 >? SAVANXP_ELEVATION_ARGS_CAPACITY then None else pack_args (used ++ a ++ [0]) argv
  end.

Definition zeroed (n : Z) (l : list Z) : list Z := l ++ replicate (Z.to_nat n - length l) 0.

(** The request [sxn_elevate] writes, or its error. *)
Definition elevate_request (path : list Z) (argv : list (list Z)) (wait : bool) : Z + savanxp_elevation_request :=
  if negb (at_ 0 path 0 =? 0x2f) || (zlen argv <=? 0) || (zlen argv >? SAVANXP_ELEVATION_MAX_ARGS)
     || (zlen path >=? SAVANXP_ELEVATION_PATH_CAPACITY) then inl (- SAVANXP_EINVAL)
  else
    match pack_args [] argv with
    | None => inl (- SAVANXP_E2BIG)
    | Some args =>
        inr (mk_erequest SAVANXP_ELEVATION_MAGIC SAVANXP_ELEVATION_VERSION (if wait then SAVANXP_ELEVATION_WAIT else 0)
               (zlen argv) (zeroed SAVANXP_ELEVATION_PATH_CAPACITY path) (zeroed SAVANXP_ELEVATION_ARGS_CAPACITY args))
    end.

(** What [sxn_elevate] returns from the replies it reads: the first, and with
    [wait] the second, each [None] when it is not a whole reply. *)
Definition elevate_result (wait : bool) (first second : option (Z * Z * Z)) : Z * option Z :=
  match first with
  | Some (magic, record, status) =>
      if negb (magic =? SAVANXP_ELEVATION_MAGIC) || negb (record =? SAVANXP_ELEVATION_RECORD_STARTED) then (- SAVANXP_EIO, None)
      else if (status >? 0) && wait then
        match second with
        | Some (magic, record, exit_status) =>
            if negb (magic =? SAVANXP_ELEVATION_MAGIC) || negb (record =? SAVANXP_ELEVATION_RECORD_EXITED) then (- SAVANXP_EIO, None)
            else (status, Some exit_status)
        | None => (- SAVANXP_EIO, None)
        end
      else (status, None)
  | None => (- SAVANXP_EIO, None)
  end.

(** [connect]: the error, or who made the broker's port. *)
Definition sxn_elevate (path : list Z) (argv : list (list Z)) (wait : bool) (connect : Z + sxn_identity) (wrote : bool)
    (first second : option (Z * Z * Z)) : Z * option Z :=
  match elevate_request path argv wait with
  | inl error => (error, None)
  | inr _ =>
      match connect with
      | inl error => (error, None)
      | inr creator =>
          if negb (id_euid creator =? 0) then (- SAVANXP_EACCES, None)
          else if negb wrote then (- SAVANXP_EIO, None)
          else elevate_result wait first second
      end
  end.
