(* ===== verification/ElevationLaws.v ===== *)
(** * Elevation, end to end

    The system of the broker, the prompt and everybody who can reach the
    prompt's port.  The kernel's ports and pipes are in the steps: a connection
    says who made it, a pipe gives what its other end wrote.  Everything else is
    free: who connects and what they write, when anything happens, what the user
    does, whether a write fails or a pipe closes. *)

From S2P Require Import Prelude Rect Painter Scene Consent ConsentText ConsentRun Elevation.
From Stdlib Require String.
Import String.StringSyntax.

(** A connection to the consent port: who made it, what it wrote, and the
    answers windowd wrote to it. *)
Record link := mk_link { lk_euid : Z; lk_request : option savanxp_consent_request; lk_answers : list Z }.

(** The broker while it waits for an answer, on its link. *)
Record waiting := mk_waiting {
  wt_client : client; wt_request : savanxp_elevation_request; wt_argv : list (list Z); wt_slot : nat; wt_link : nat }.

(** [sy_served]: the link windowd has accepted; [sy_approved]: each time it wrote
    a yes, the prompt as it was and the input that made it write it. *)
Record system := mk_system {
  sy_broker : broker; sy_waiting : option waiting; sy_prompt : windowd_consent; sy_links : list link;
  sy_served : option nat; sy_approved : list (windowd_consent * input) }.

(** What the prompt says to who reads it, on any screen it fits: the lines it
    draws, each whole and inside the box, are those of two texts, broken with
    nothing but a space left out at a break, that spell the program and its
    arguments. *)
Definition prompt_shows (c : windowd_consent) (what : list Z * list (list Z)) : Prop :=
  cs_open c = true /\
  forall info, cs_width c <= fb_width info -> cs_height c <= fb_height info ->
  exists program arguments program_lines argument_lines,
    map snd (drawn_lines c info) = program_lines ++ argument_lines /\
    broken program program_lines /\ broken arguments argument_lines /\
    text_program program = what.1 /\ text_arguments arguments = what.2 /\
    Forall (line_shown c info) (drawn_lines c info).

(** The yes of an input to a prompt, for a program and its arguments: the prompt
    had been put up for a request for them, it showed them, and the input was a
    deliberate yes, with all that [says_yes] asks. *)
Definition granted (what : list Z * list (list Z)) (yes : windowd_consent * input) : Prop :=
  let '(c, i) := yes in
  prompt_shows c what /\
  exists r shown_ms h, (program_of r, arguments_of r) = what /\ up r shown_ms h c /\
    says_yes (u64 (shown_ms + WINDOWD_CONSENT_ARM_MS)) c h i.

(** The link an input of the prompt is about: the one it serves, or the one it
    accepts, [n]. *)
Definition about (s : system) (i : input) (n : nat) : option nat :=
  if cs_read_fd (sy_prompt s) >=? 0 then sy_served s
  else match i with Service _ _ (Some _) _ _ => Some n | _ => None end.

(** The kernel's part of an input: the identity is the connection's, the request
    read is the one written there. *)
Definition kernel_ok (s : system) (i : input) (n : nat) : Prop :=
  input_ok i /\
  match i with
  | Service _ _ accept got _ =>
      (forall a, accept = Some a -> exists l, sy_links s !! n = Some l /\ lk_euid l = ac_euid a) /\
      (forall r, got = ReadRequest r -> exists m l, about s i n = Some m /\ sy_links s !! m = Some l /\ lk_request l = Some r)
  | _ => True
  end.

Definition add_answers (answers : list Z) (l : link) : link := mk_link (lk_euid l) (lk_request l) (lk_answers l ++ answers).

(** windowd hands an input to the prompt. *)
Definition windowd_step (s : system) (i : input) (n : nat) : system :=
  let c := sy_prompt s in
  let c' := feed c i in
  let answers := map snd (drop (length (cs_sent c)) (cs_sent c')) in
  mk_system (sy_broker s) (sy_waiting s) c'
    (match about s i n with Some m => alter (add_answers answers) m (sy_links s) | None => sy_links s end)
    (if cs_read_fd c' >=? 0 then about s i n else None)
    (sy_approved s ++ (if bool_decide (1 ∈ answers) then [(c, i)] else [])).

Definition finish (s : system) (w : waiting) (consent spawn : Z) : system :=
  mk_system (serve_end (sy_broker s) (wt_client w) (wt_request w) (wt_argv w) (wt_slot w) consent spawn)
    None (sy_prompt s) (sy_links s) (sy_served s) (sy_approved s).

Definition set_broker (s : system) (b : broker) : system :=
  mk_system b (sy_waiting s) (sy_prompt s) (sy_links s) (sy_served s) (sy_approved s).

(** A requester's memory: the path and the arguments are arrays of bytes. *)
Record erequest_bytes (r : savanxp_elevation_request) : Prop := {
  eb_path : Forall is_byte (er_path r);
  eb_path_length : zlen (er_path r) = SAVANXP_ELEVATION_PATH_CAPACITY;
  eb_args : Forall is_byte (er_args r);
  eb_args_length : zlen (er_args r) = SAVANXP_ELEVATION_ARGS_CAPACITY;
  eb_argc : 0 <= er_argc r }.

Inductive step (s : system) : system -> Prop :=
(** windowd's main loop, with the user's keyboard and mouse. *)
| step_windowd i n : kernel_ok s i n -> step s (windowd_step s i n)
(** Anybody connects to the consent port and writes anything. *)
| step_connect euid request :
    (forall r, request = Some r -> request_bytes r) ->
    step s (mk_system (sy_broker s) (sy_waiting s) (sy_prompt s) (sy_links s ++ [mk_link euid request []])
              (sy_served s) (sy_approved s))
(** A requester the broker refuses. *)
| step_refused c request b :
    sy_waiting s = None -> serve_begin (sy_broker s) c request = Refused b -> step s (set_broker s b)
(** A requester that is the system. *)
| step_system c r argv slot spawn :
    sy_waiting s = None -> serve_begin (sy_broker s) c (Some r) = Accepted argv slot -> id_euid (cl_identity c) = 0 ->
    step s (finish s (mk_waiting c r argv slot 0) 1 spawn)
(** A requester the broker cannot ask about. *)
| step_unasked c r argv slot creator name wrote answer spawn :
    sy_waiting s = None -> serve_begin (sy_broker s) c (Some r) = Accepted argv slot -> id_euid (cl_identity c) <> 0 ->
    ask_begin c r creator name wrote = inl answer ->
    step s (finish s (mk_waiting c r argv slot 0) answer spawn)
(** A requester the broker asks windowd about: it connects as the system. *)
| step_ask c r argv slot creator name q :
    sy_waiting s = None -> serve_begin (sy_broker s) c (Some r) = Accepted argv slot -> id_euid (cl_identity c) <> 0 ->
    erequest_bytes r -> ask_begin c r creator name true = inr q ->
    step s (mk_system (sy_broker s) (Some (mk_waiting c r argv slot (length (sy_links s)))) (sy_prompt s)
              (sy_links s ++ [mk_link 0 (Some q) []]) (sy_served s) (sy_approved s))
(** The broker reads windowd's answer. *)
| step_answer w l answer rest consent spawn :
    sy_waiting s = Some w -> sy_links s !! wt_link w = Some l -> lk_answers l = answer :: rest ->
    ask_turn (WaitWindowd (Some (SAVANXP_CONSENT_MAGIC, answer))) = Some consent -> step s (finish s w consent spawn)
(** The wait ends otherwise: the time, windowd gone, the requester gone. *)
| step_no_answer w e consent spawn :
    sy_waiting s = Some w -> e = WaitDeadline \/ e = WaitWindowd None \/ (exists got, e = WaitClient got) ->
    ask_turn e = Some consent -> step s (finish s w consent spawn)
(** The broker looks at its children, between requests. *)
| step_reap query wait :
    sy_waiting s = None -> step s (set_broker s (reap_children query wait (sy_broker s))).

Definition start (port : Z) : system :=
  mk_system broker0 None (fst (windowd_consent_open_port windowd_consent_init port)) [] None [].

Inductive runs : system -> Prop :=
| runs_start port : runs (start port)
| runs_step s s' : runs s -> step s s' -> runs s'.

(** What was started for requesters that are not the system. *)
Definition elevated (b : broker) : list (client * program) :=
  filter (fun '(c, _) => id_euid (cl_identity c) <> 0) (bk_spawned b).

(** A program and its arguments, the name it is given for itself aside. *)
Definition what (p : program) : list Z * list (list Z) := (pg_path p, drop 1 (pg_argv p)).

(** ** The broker's pieces *)

Lemma parse_strings_of n args argv : parse_strings n args = Some argv -> argv = strings_of n args.
Proof.
  revert args argv. induction n as [|n IH]; intros args argv; cbn [parse_strings strings_of]; [by intros [= <-]|].
  destruct args as [|v args]; [done|]. destruct (negb _); [done|].
  destruct (parse_strings n _) as [l|] eqn:E; [|done]. intros [= <-]. f_equal. by apply IH.
Qed.

Lemma serve_begin_accepted b c r argv slot : serve_begin b c (Some r) = Accepted argv slot ->
  argv = strings_of (Z.to_nat (er_argc r)) (er_args r) /\ terminated (er_path r) = true.
Proof.
  unfold serve_begin, parse_request. case_if; [done|].
  destruct (negb (at_ 0 (er_path r) 0 =? 47) || negb (terminated (er_path r))) eqn:E; [done|].
  destruct (parse_strings _ _) eqn:Ep; [|done]. destruct (free_child b); [|done]. intros [= <- <-].
  split; [by apply parse_strings_of|]. apply orb_false_elim in E as [_ E]. by apply negb_false_iff.
Qed.

(** The path windowd is shown is the path that runs. *)
Lemma c_string_cut l : terminated l = true -> c_string (take (pred (length l)) l ++ [0]) = c_string l.
Proof.
  induction l as [|v l IH]; [done|]. cbn [terminated existsb c_string length pred]. intros H.
  destruct l as [|w l].
  { destruct v; done. }
  change (length (w :: l)) with (S (length l)) in *. cbn [take app c_string].
  destruct (v =? 0) eqn:E; [done|]. f_equal. apply IH. by destruct v.
Qed.

Lemma consent_request_bytes c name r q creator wrote :
  erequest_bytes r -> terminated (er_path r) = true -> ask_begin c r creator name wrote = inr q ->
  request_bytes q /\ program_of q = c_string (er_path r) /\
  arguments_of q = drop 1 (strings_of (Z.to_nat (er_argc r)) (er_args r)).
Proof.
  intros [Hp Hpl Ha Hal Hc] Ht H. unfold ask_begin in H. destruct creator as [cr|]; [|done].
  destruct (negb _); [done|]. destruct wrote; cbn [negb] in H; [|done]. injection H as <-.
  unfold zlen, SAVANXP_ELEVATION_PATH_CAPACITY, SAVANXP_ELEVATION_ARGS_CAPACITY in *.
  split; [split; cbn; unfold zlen, SAVANXP_ELEVATION_PATH_CAPACITY, SAVANXP_ELEVATION_ARGS_CAPACITY; try done|].
  - apply Forall_app. split; [by apply Forall_take|]. by repeat constructor.
  - rewrite length_app, length_take. cbn [length]. lia.
  - split; [|done]. unfold program_of. cbn [cr_path consent_request_of].
    rewrite <- (c_string_cut (er_path r) Ht). by replace (pred (length (er_path r))) with 127%nat by lia.
Qed.

Lemma serve_end_spawned b c r argv slot consent spawn :
  bk_spawned (serve_end b c r argv slot consent spawn) =
    bk_spawned b ++ (if consent =? 1
      then [(c, mk_program (c_string (er_path r)) argv (mk_identity (id_uid (cl_identity c)) 0 (id_gid (cl_identity c))))] else []).
Proof.
  unfold serve_end. destruct (consent =? 1) eqn:E; rewrite ?app_nil_r;
    destruct (negb (consent =? - SAVANXP_EPIPE)); destruct (_ >? 0); reflexivity.
Qed.

Lemma reap_spawned query wait b : bk_spawned (reap_children query wait b) = bk_spawned b.
Proof.
  unfold reap_children. generalize (seq 0 (Z.to_nat ELEVATIOND_MAX_CHILDREN)). intros l. revert b.
  induction l as [|slot l IH]; intros b; cbn [foldl]; [done|]. rewrite IH. unfold reap_child.
  destruct (_ !! slot) as [ch|]; [|done]. repeat case_if; done.
Qed.

Lemma refused_spawned b c request b' : serve_begin b c request = Refused b' -> bk_spawned b' = bk_spawned b.
Proof.
  unfold serve_begin. destruct request as [r|]; [|by intros [= <-]]. destruct (parse_request r); [|by intros [= <-]].
  destruct (free_child b); [done|]. by intros [= <-].
Qed.

(** ** The prompt's pieces *)

(** An input makes the prompt write one answer at most, and a yes only when it is
    up. *)
Lemma feed_sent c i : reachable c -> input_ok i -> exists new, cs_sent (feed c i) = cs_sent c ++ new /\
  (new = [] \/ exists fd answer, new = [(fd, answer)] /\ (answer = 1 -> cs_open c = true)).
Proof.
  intros Hc Hi. destruct (reachable_on_line c Hc) as [Hl Hn]. destruct (cs_open c) eqn:Ho.
  - destruct (feed_effect c i Hn Ho) as [c' Hs|c1 yes Hs|].
    + exists []. rewrite app_nil_r. split; [apply Hs|by left].
    + unfold answer_prompt, send_answer. cbn. rewrite (sp_sent _ _ Hs).
      case_if; [eexists; split; [done|]; right; eauto|]. exists []. rewrite app_nil_r. auto.
    + exists []. rewrite app_nil_r. auto.
  - destruct i as [event t|info x y b lb t|info t acc got reads]; cbn [feed].
    + unfold windowd_consent_key. rewrite Ho. exists []. rewrite app_nil_r. auto.
    + unfold windowd_consent_pointer. rewrite Ho. exists []. rewrite app_nil_r. auto.
    + destruct (service_serviced c info t acc got reads Ho Hl Hi) as [c' _ _ [E|(fd & a & Ha & E)]|r c1 c2 _ _ _ _ E1 Ep]; cbn [fst].
      * exists []. rewrite app_nil_r. auto.
      * eexists. split; [done|]. right. do 2 eexists. split; [done|]. lia.
      * apply prepare_keeps in Ep as [Hk _]. exists []. rewrite app_nil_r. split; [|by left].
        cbn. by rewrite (kp_sent _ _ Hk), E1.
Qed.

(** A prompt that is up is the one that was prepared for its request. *)
Lemma up_prepared r now h c : request_bytes r -> up r now h c ->
  exists c0 info c1, prepared c0 r info c1 /\ same_prompt (show c1 now) c.
Proof.
  intros Hr. induction 1 as [c info acc reads c' Hc Ho Hi E|h c i Hup IH Hi Ho].
  - destruct (reachable_on_line c Hc) as [Hl _]. pose proof (service_serviced c info now acc _ reads Ho Hl Hi) as Hs.
    rewrite E in Hs. inversion Hs as [|r' c1 c2 Er _ _ _ _ Hp]; subst. injection Er as <-.
    exists c1, info, c2. split; [by apply prepare_ok|apply same_prompt_refl].
  - destruct IH as (c0 & info & c1 & Hp & Hs). exists c0, info, c1. split; [done|].
    pose proof (up_is_up _ _ _ _ Hup) as Hst. apply up_reachable in Hup. destruct (reachable_on_line c Hup) as [_ Hn].
    pose proof (feed_same c i Hn (us_open _ _ _ Hst) Ho) as Hs'.
    destruct Hs as [S1 S2 S3 S4 S5 S6 S7 (S8 & S9 & S10) S11], Hs' as [T1 T2 T3 T4 T5 T6 T7 (T8 & T9 & T10) T11].
    split; try (etransitivity; eassumption). split_and!; etransitivity; eassumption.
Qed.

(** So it shows what the request asks for. *)
Lemma up_shows r now h c : request_bytes r -> up r now h c -> prompt_shows c (program_of r, arguments_of r).
Proof.
  intros Hr Hup. destruct (up_prepared r now h c Hr Hup) as (c0 & info0 & c1 & Hp0 & Hs).
  split; [exact (us_open _ _ _ (up_is_up _ _ _ _ Hup))|]. intros info Hw Hh.
  rewrite (sp_width _ _ Hs) in Hw. rewrite (sp_height _ _ Hs) in Hh.
  pose proof (prepared_screen _ _ _ _ info Hp0 Hw Hh) as Hp.
  destruct (prepared_drawn c0 r info c1 now Hr Hp) as [Hl Hf].
  assert (Hrect : windowd_consent_rect c info = windowd_consent_rect (show c1 now) info)
    by (unfold windowd_consent_rect; by rewrite (sp_width _ _ Hs), (sp_height _ _ Hs)).
  assert (Hd : drawn_lines c info = drawn_lines (show c1 now) info).
  { unfold drawn_lines. by rewrite Hrect, (sp_program _ _ Hs), (sp_arguments _ _ Hs), (sp_open _ _ Hs). }
  rewrite Hd. pose proof (pr_program _ _ _ _ Hp) as Ep. pose proof (pr_arguments _ _ _ _ Hp) as Ea.
  eexists (tx_text (cs_program c1)), (tx_text (cs_arguments c1)), _, _. split; [exact Hl|].
  split; [exact (laid_out_broken _ _ _ _ (pr_program_lines _ _ _ _ Hp) ltac:(lia))|].
  split; [exact (laid_out_broken _ _ _ _ (pr_arguments_lines _ _ _ _ Hp) ltac:(lia))|]. cbn [fst snd]. split_and!.
  - rewrite Ep. by apply text_program_escaped, c_string_chars, rb_path.
  - rewrite Ea. apply read_arguments_text; [|done]. by apply Forall_drop, strings_of_chars, rb_args.
  - eapply Forall_impl; [exact Hf|]. intros [[x y] line]. unfold line_shown, text_clip, button_rect. by rewrite Hrect.
Qed.

(** ** The invariant *)

(** What the broker's request would run. *)
Definition wanted (w : waiting) : list Z * list (list Z) := (c_string (er_path (wt_request w)), drop 1 (wt_argv w)).

(** The yes that windowd wrote and the broker has not read. *)
Definition pending (s : system) : list (list Z * list (list Z)) :=
  match sy_waiting s with
  | Some w => match sy_links s !! wt_link w with
              | Some l => if bool_decide (head (lk_answers l) = Some 1) then [wanted w] else []
              | None => []
              end
  | None => []
  end.

(** The request of a link. *)
Definition asks (links : list link) (n : nat) (r : savanxp_consent_request) : Prop :=
  exists l, links !! n = Some l /\ lk_request l = Some r.

(** Each of [l] has a yes of its own among [yeses], in order. *)
Definition approved (l : list (list Z * list (list Z))) (yeses : list (windowd_consent * input)) : Prop :=
  exists own, own `sublist_of` yeses /\ Forall2 granted l own.

Lemma approved_more l yeses more : approved l yeses -> approved l (yeses ++ more).
Proof. intros (own & H1 & H2). exists own. split; [by apply sublist_inserts_r|done]. Qed.

Lemma approved_prefix l k yeses : approved (l ++ k) yeses -> approved l yeses.
Proof.
  intros (own & H1 & H2). apply Forall2_app_inv_l in H2 as (a & b & H2 & _ & ->). exists a.
  split; [|done]. etrans; [|exact H1]. by apply sublist_inserts_r.
Qed.

Lemma approved_snoc l p yeses yes : approved l yeses -> granted p yes -> approved (l ++ [p]) (yeses ++ [yes]).
Proof.
  intros (own & H1 & H2) Hg. exists (own ++ [yes]). split; [by apply sublist_app|]. apply Forall2_app; [done|]. by repeat constructor.
Qed.

Record invariant (s : system) : Prop := {
  iv_prompt : reachable (sy_prompt s);
  iv_served : 0 <= cs_read_fd (sy_prompt s) -> exists n l, sy_served s = Some n /\ sy_links s !! n = Some l;
  iv_links : forall n r, asks (sy_links s) n r -> request_bytes r;
  iv_shown : cs_open (sy_prompt s) = true -> exists n r,
    sy_served s = Some n /\ asks (sy_links s) n r /\ exists shown_ms h, up r shown_ms h (sy_prompt s);
  iv_waiting : forall w, sy_waiting s = Some w -> id_euid (cl_identity (wt_client w)) <> 0 /\
    exists r, asks (sy_links s) (wt_link w) r /\ (program_of r, arguments_of r) = wanted w;
  iv_approved : approved (map (fun x => what (snd x)) (elevated (sy_broker s)) ++ pending s) (sy_approved s) }.

Lemma asks_alter links m answers n r : asks (alter (add_answers answers) m links) n r <-> asks links n r.
Proof.
  unfold asks. destruct (decide (m = n)) as [->|Hne].
  - rewrite list_lookup_alter_eq. destruct (links !! n) as [l|]; cbn; [|split; intros (l' & ? & ?); congruence].
    split; intros (l' & [= <-] & H); eauto.
  - by rewrite list_lookup_alter_ne.
Qed.

Lemma asks_app links l n r : asks links n r -> asks (links ++ [l]) n r.
Proof. intros (k & Hk & Hr). exists k. by rewrite (lookup_app_l_Some _ _ _ _ Hk). Qed.

Lemma asks_snoc links l n r : asks (links ++ [l]) n r -> asks links n r \/ lk_request l = Some r.
Proof.
  intros (k & Hk & Hr). apply lookup_snoc_Some in Hk as [[_ Hk]|[_ <-]]; [left|by right]. by exists k.
Qed.

(** The links after an input of the prompt. *)
Lemma windowd_links s i n m r : asks (sy_links (windowd_step s i n)) m r <-> asks (sy_links s) m r.
Proof. unfold windowd_step. cbn [sy_links]. destruct (about s i n); [apply asks_alter|done]. Qed.

Lemma prompt_closed_same c event t info x y b lb : cs_open c = false ->
  feed c (Key event t) = c /\ feed c (Pointer info x y b lb t) = c.
Proof.
  intros Ho. cbn [feed]. unfold windowd_consent_key, windowd_consent_pointer. by rewrite Ho.
Qed.

(** A connection the prompt holds after an input is the one the input was about. *)
Lemma windowd_served s i n : invariant s -> kernel_ok s i n -> 0 <= cs_read_fd (feed (sy_prompt s) i) ->
  exists m l, about s i n = Some m /\ sy_links s !! m = Some l.
Proof.
  intros H [Hi Hk] Hr. unfold about. destruct (cs_read_fd (sy_prompt s) >=? 0) eqn:E; [apply (iv_served _ H); lia|].
  destruct (reachable_on_line _ (iv_prompt _ H)) as [_ Hn].
  assert (Ho : cs_open (sy_prompt s) = false).
  { destruct (cs_open (sy_prompt s)) eqn:Ho; [|done]. destruct (Hn Ho). lia. }
  destruct i as [event t|info x y b lb t|info t acc got reads].
  - destruct (prompt_closed_same (sy_prompt s) event t info0 0 0 0 0 Ho) as [Es _]. rewrite Es in Hr. lia.
  - destruct (prompt_closed_same (sy_prompt s) (mk_key 0 0 0 0) t info x y b lb Ho) as [_ Es]. rewrite Es in Hr. lia.
  - destruct acc as [a|]; [destruct Hk as [Hk _]; destruct (Hk a eq_refl) as (l & Hl & _); eauto|].
    exfalso. cbn [feed] in Hr. unfold windowd_consent_service in Hr.
    destruct (cs_port_fd (sy_prompt s) <? 0); cbn [fst] in Hr; [lia|].
    replace (cs_read_fd (sy_prompt s) <? 0) with true in Hr by lia. cbn [fst] in Hr. lia.
Qed.

(** What the prompt shows after an input is the request of the link it is about. *)
Lemma windowd_shown s i n : invariant s -> kernel_ok s i n -> cs_open (feed (sy_prompt s) i) = true ->
  exists m r, about s i n = Some m /\ asks (sy_links s) m r /\ exists shown_ms h, up r shown_ms h (feed (sy_prompt s) i).
Proof.
  intros H [Hi Hk] Ho'. destruct (reachable_on_line _ (iv_prompt _ H)) as [Hl Hn].
  destruct (cs_open (sy_prompt s)) eqn:Ho.
  - destruct (iv_shown _ H Ho) as (m & r & Hm & Hr & t & h & Hup). destruct (Hn Ho) as [Hrd _]. exists m, r.
    unfold about. replace (cs_read_fd (sy_prompt s) >=? 0) with true by lia. split; [done|]. split; [done|].
    exists t, (h ++ [i]). by apply up_input.
  - destruct i as [event t|info x y b lb t|info t acc got reads].
    + destruct (prompt_closed_same (sy_prompt s) event t info0 0 0 0 0 Ho) as [Es _]. congruence.
    + destruct (prompt_closed_same (sy_prompt s) (mk_key 0 0 0 0) t info x y b lb Ho) as [_ Es]. congruence.
    + cbn [feed] in *. pose proof (service_serviced _ info t acc got reads Ho Hl Hi) as Hs.
      destruct (windowd_consent_service (sy_prompt s) info t acc got reads) as [c' b] eqn:E. cbn [fst] in *.
      inversion Hs as [c'' Hd _ _|r c1 c2 -> _ _ _ _ Hp]; subst; [congruence|].
      destruct Hk as [_ Hk]. destruct (Hk r eq_refl) as (m & l & Hm & Hlk & Hr).
      assert (asks (sy_links s) m r) as Ha by (by exists l). exists m, r. split; [done|]. split; [done|].
      exists t, []. eapply up_shown; [apply (iv_prompt _ H)|done|exact Hi|exact E].
Qed.

(** The yes of an input is the one the broker waits for, or nobody's. *)
Lemma windowd_pending s i n : invariant s -> kernel_ok s i n ->
  pending (windowd_step s i n) = pending s \/
  (pending s = [] /\ exists p, granted p (sy_prompt s, i) /\
     sy_approved (windowd_step s i n) = sy_approved s ++ [(sy_prompt s, i)] /\ pending (windowd_step s i n) = [p]).
Proof.
  intros H [Hi Hk]. destruct (feed_sent (sy_prompt s) i (iv_prompt _ H) Hi) as (new & Es & Hnew).
  unfold pending, windowd_step. cbn [sy_waiting sy_links sy_approved]. rewrite Es, drop_app_length.
  destruct (sy_waiting s) as [w|] eqn:Ew; [|by left].
  destruct (about s i n) as [m|] eqn:Ea; [|by left].
  destruct (decide (m = wt_link w)) as [->|Hne]; [|left; by rewrite list_lookup_alter_ne].
  rewrite list_lookup_alter_eq. destruct (sy_links s !! wt_link w) as [l|] eqn:El; [cbn|by left].
  destruct (lk_answers l) as [|a0 rest] eqn:Eans; cbn [head app]; [|by left].
  destruct Hnew as [->|(fd & a & -> & Hopen)]; cbn [map snd head]; [by left|].
  destruct (decide (a = 1)) as [->|Ha1]; [right|left; by rewrite !bool_decide_eq_false_2 by (by intros [= ?])].
  rewrite bool_decide_eq_false_2 by done. split; [done|]. rewrite !bool_decide_eq_true_2 by (done || by constructor).
  specialize (Hopen eq_refl). destruct (iv_shown _ H Hopen) as (m & r & Hm & Hr & t & h & Hup).
  destruct (reachable_on_line _ (iv_prompt _ H)) as [_ Hn]. destruct (Hn Hopen) as [Hrd _].
  unfold about in Ea. replace (cs_read_fd (sy_prompt s) >=? 0) with true in Ea by lia.
  destruct (iv_waiting _ H w Ew) as (_ & r' & Hr' & Hw).
  assert (m = wt_link w) as -> by congruence. pose proof (iv_links _ H _ _ Hr) as Hb.
  destruct Hr as (l1 & ? & ?), Hr' as (l2 & ? & ?). assert (r' = r) as -> by congruence.
  exists (wanted w). split; [|done]. rewrite <- Hw. split; [by eapply up_shows|].
  exists r, t, h. split; [done|]. split; [done|]. pose proof (up_is_up _ _ _ _ Hup) as Hst.
  rewrite <- (us_armed _ _ _ Hst). exact (proj2 (feed_yes _ i fd t h Hn Hst Es)).
Qed.

Lemma windowd_invariant s i n : invariant s -> kernel_ok s i n -> invariant (windowd_step s i n).
Proof.
  intros H Hk. assert (Hi := proj1 Hk). split.
  - apply reach_feed; [apply (iv_prompt _ H)|done].
  - cbn [windowd_step sy_prompt sy_served]. intros Hr. destruct (windowd_served s i n H Hk Hr) as (m & l & Hm & Hl).
    rewrite Hm. replace (_ >=? 0) with true by lia. exists m.
    destruct (lookup_lt_is_Some_2 (sy_links (windowd_step s i n)) m) as [l' Hl'].
    { unfold windowd_step. cbn [sy_links]. rewrite Hm, length_alter. by eapply lookup_lt_Some. }
    eauto.
  - intros m r. rewrite windowd_links. apply (iv_links _ H).
  - intros Ho. cbn [windowd_step sy_prompt] in Ho. destruct (windowd_shown s i n H Hk Ho) as (m & r & Hm & Hr & Hs).
    exists m, r. rewrite windowd_links. split; [|done]. cbn [windowd_step sy_served].
    assert (Hc : reachable (feed (sy_prompt s) i)) by (apply reach_feed; [apply (iv_prompt _ H)|done]).
    destruct (proj2 (reachable_on_line _ Hc) Ho) as [Hr' _]. by replace (_ >=? 0) with true by lia.
  - intros w Hw. destruct (iv_waiting _ H w Hw) as (He & r & Hr & Hq). split; [done|]. exists r.
    by rewrite windowd_links.
  - change (sy_broker (windowd_step s i n)) with (sy_broker s). pose proof (iv_approved _ H) as Ha.
    destruct (windowd_pending s i n H Hk) as [->|(E & p & Hg & -> & ->)].
    + unfold windowd_step. cbn [sy_approved]. by apply approved_more.
    + rewrite E, app_nil_r in Ha. by apply approved_snoc.
Qed.

(** The end of a request: the yes that was pending is the one that is used. *)
Lemma finish_invariant s w consent spawn :
  invariant s ->
  (consent = 1 -> id_euid (cl_identity (wt_client w)) = 0 \/ (sy_waiting s = Some w /\ pending s = [wanted w])) ->
  invariant (finish s w consent spawn).
Proof.
  intros H Hc. pose proof (iv_approved _ H) as Ha.
  assert (Ha' : approved (map (fun x => what (snd x)) (elevated (sy_broker s))) (sy_approved s))
    by (by eapply approved_prefix).
  destruct H as [H1 H2 H3 H4 H5 _]. split; try done.
  unfold pending. cbn [finish sy_waiting sy_broker sy_approved]. rewrite app_nil_r.
  unfold elevated. rewrite serve_end_spawned, filter_app, map_app. fold (elevated (sy_broker s)).
  destruct (consent =? 1) eqn:E; [|rewrite filter_nil, app_nil_r; exact Ha'].
  assert (consent = 1) as -> by lia. destruct (Hc eq_refl) as [Hz|[Hw Hp]].
  - rewrite filter_cons_False by (cbn; lia). rewrite filter_nil, app_nil_r. exact Ha'.
  - destruct (H5 w Hw) as [Hz _]. rewrite filter_cons_True by done. rewrite filter_nil. by rewrite Hp in Ha.
Qed.

(** A new link changes nothing of the others. *)
Lemma link_invariant s l w :
  invariant s -> (forall r, lk_request l = Some r -> request_bytes r) -> lk_answers l = [] ->
  (forall w', w = Some w' -> sy_waiting s = Some w' \/
     (sy_waiting s = None /\ wt_link w' = length (sy_links s) /\ id_euid (cl_identity (wt_client w')) <> 0 /\
      exists r, lk_request l = Some r /\ (program_of r, arguments_of r) = wanted w')) ->
  (w = None -> sy_waiting s = None) ->
  invariant (mk_system (sy_broker s) w (sy_prompt s) (sy_links s ++ [l]) (sy_served s) (sy_approved s)).
Proof.
  intros H Hl Hans Hw Hnone. pose proof (iv_approved _ H) as Ha. destruct H as [H1 H2 H3 H4 H5 _]. split; cbn.
  - done.
  - intros Hr. destruct (H2 Hr) as (n & k & Hn & Hk). exists n, k. by rewrite (lookup_app_l_Some _ _ _ _ Hk).
  - intros n r [Hr|Hr]%asks_snoc; eauto.
  - intros Ho. destruct (H4 Ho) as (n & r & Hn & Hr & Hs).
    exists n, r. split; [done|]. split; [by apply asks_app|done].
  - intros w' ->. destruct (Hw w' eq_refl) as [Hs|(_ & Elk & Hz & r & Hr & Hq)].
    + destruct (H5 w' Hs) as (Hz & r & Hr & Hq).
      split; [done|]. exists r. split; [by apply asks_app|done].
    + split; [done|]. exists r. split; [|done]. exists l. rewrite Elk, list_lookup_middle; done.
  - replace (pending _) with (pending s); [done|]. unfold pending. cbn. destruct w as [w'|].
    + destruct (Hw w' eq_refl) as [Hs|(Hs & Elk & _)]; rewrite Hs.
      * destruct (H5 w' Hs) as (_ & r & (k & Hk & _) & _). by rewrite (lookup_app_l_Some _ _ _ _ Hk), Hk.
      * rewrite Elk, list_lookup_middle by done. by rewrite Hans.
    + by rewrite (Hnone eq_refl).
Qed.

Lemma set_broker_invariant s b : invariant s -> bk_spawned b = bk_spawned (sy_broker s) -> invariant (set_broker s b).
Proof.
  intros [H1 H2 H3 H4 H5 H6] E. split; try done. unfold pending, set_broker, elevated in *. cbn in *. by rewrite E.
Qed.

Lemma elevation_step_invariant s s' : invariant s -> step s s' -> invariant s'.
Proof.
  intros H Hstep. destruct Hstep as [i n Hk|euid request Hr|c request b Hw Hb|c r argv slot spawn Hw Hb Hz
    |c r argv slot creator name wrote answer spawn Hw Hb Hz Hask|c r argv slot creator name q Hw Hb Hz Hbytes Hask
    |w l answer rest consent spawn Hw Hl Hans Ht|w e consent spawn Hw He Ht|query wait Hw].
  - by apply windowd_invariant.
  - apply link_invariant; cbn; auto.
  - apply set_broker_invariant; [done|]. by eapply refused_spawned.
  - apply finish_invariant; auto.
  - apply finish_invariant; [done|]. intros ->. exfalso. revert Hask. unfold ask_begin.
    destruct creator; [|done]. destruct (negb _); [done|]. by destruct wrote.
  - apply serve_begin_accepted in Hb as [-> Ht].
    destruct (consent_request_bytes _ _ _ _ _ _ Hbytes Ht Hask) as (Hq & Ep & Ea).
    apply link_invariant; cbn; [done|by intros r' [= <-]|done| |done].
    intros w' [= <-]. right. cbn. split_and!; [done..|]. exists q. split; [done|]. unfold wanted. cbn. by rewrite Ep, Ea.
  - apply finish_invariant; [done|]. intros ->. right. split; [done|]. cbn in Ht.
    change (SAVANXP_CONSENT_MAGIC =? SAVANXP_CONSENT_MAGIC) with true in Ht. cbn iota in Ht. injection Ht as Ht.
    assert (answer = 1) as -> by (destruct (answer =? 1) eqn:?, (answer <? 0) eqn:?; lia).
    unfold pending. rewrite Hw, Hl, Hans. done.
  - apply finish_invariant; [done|]. intros ->. exfalso. destruct He as [->|[->|[got ->]]]; cbn in Ht; [done..|].
    revert Ht. by case_if.
  - apply set_broker_invariant; [done|]. apply reap_spawned.
Qed.

Lemma runs_invariant s : runs s -> invariant s.
Proof.
  induction 1 as [port|s s' _ IH Hs]; [|by eapply elevation_step_invariant].
  split; cbn; try done; try lia.
  - apply reach_init.
  - unfold windowd_consent_open_port. case_if; cbn; lia.
  - intros n r (l & Hl & _). by rewrite lookup_nil in Hl.
  - unfold windowd_consent_open_port. by case_if.
  - exists []. split; [done|constructor].
Qed.

(** C6. Nothing is elevated without consent: in every run of the broker, the
    prompt, any number of other programs at the consent port and any input of
    the user, each program started with the system's rights for a requester that
    is not the system has a yes of its own, in the same order.  That yes was
    given to a prompt that was up for a request for exactly that path and exactly
    these arguments and that drew them, nothing but a space at a line break left
    out; and it was a deliberate one: the letter Y, or Enter or Space after the
    focus was moved to Yes, pressed and not held, or a click on Yes, every press
    of it at least half a second after the prompt appeared. *)
Theorem elevation_needs_consent (s : system) (Hs : runs s) :
  exists yeses, yeses `sublist_of` sy_approved s /\
    Forall2 (fun started yes => granted (what (snd started)) yes) (elevated (sy_broker s)) yeses.
Proof.
  destruct (approved_prefix _ _ _ (iv_approved _ (runs_invariant s Hs))) as (own & H1 & H2).
  exists own. split; [done|]. exact (proj1 (Forall2_fmap_l _ _ _ _) H2).
Qed.

(** ** A run *)

Module Run.

Definition asked : savanxp_elevation_request :=
  mk_erequest SAVANXP_ELEVATION_MAGIC SAVANXP_ELEVATION_VERSION 0 2
    (zeroed 128 (literal "/bin/disk")) (zeroed 384 (joined [literal "disk"; literal "--erase"])).
Definition user : client := mk_client 40 (mk_identity 1000 1000 1000) 8 9.
Definition argv : list (list Z) := [literal "disk"; literal "--erase"].
Definition question : savanxp_consent_request := consent_request_of user None asked.

(** The user's shell asks, the prompt goes up, the user clicks Yes, the broker
    starts the program. *)
Definition s0 : system := start 3.
Definition s1 : system :=
  mk_system (sy_broker s0) (Some (mk_waiting user asked argv 0 0)) (sy_prompt s0) (sy_links s0 ++ [mk_link 0 (Some question) []])
    (sy_served s0) (sy_approved s0).
Definition shows : input := Service sample_info 1000 (Some (mk_accepted 5 6 0)) (ReadRequest question) [].
Definition s2 : system := windowd_step s1 shows 0.
Definition s3 : system := windowd_step s2 sample_press 0.
Definition s4 : system := windowd_step s3 sample_release 0.
Definition s5 : system := finish s4 (mk_waiting user asked argv 0 0) 1 77.

Lemma asked_bytes : erequest_bytes asked.
Proof.
  assert (Hb : forall l, forallb (fun v => (0 <=? v) && (v <? 256)) l = true -> Forall is_byte l).
  { intros l Hl. rewrite forallb_forall in Hl. apply Forall_forall. intros v Hv%list_elem_of_In.
    specialize (Hl v Hv). unfold is_byte. lia. }
  split; [by apply Hb|done|by apply Hb|done|done].
Qed.

Lemma runs_s5 : runs s5.
Proof.
  assert (H1 : runs s1).
  { apply (runs_step s0); [apply (runs_start 3)|].
    apply (step_ask s0 user asked argv 0 (Some (mk_identity 0 0 0)) None question);
      [reflexivity|vm_compute; reflexivity|done|apply asked_bytes|reflexivity]. }
  assert (H2 : runs s2).
  { apply (runs_step s1); [done|]. apply step_windowd. split; [cbn; lia|]. split.
    - intros a [= <-]. eexists. split; reflexivity.
    - intros r [= <-]. do 2 eexists. split_and!; reflexivity. }
  assert (H3 : runs s3) by (apply (runs_step s2); [done|]; by apply step_windowd).
  assert (H4 : runs s4) by (apply (runs_step s3); [done|]; by apply step_windowd).
  apply (runs_step s4); [done|].
  apply (step_answer s4 (mk_waiting user asked argv 0 0) (mk_link 0 (Some question) [1]) 1 []);
    [reflexivity|vm_compute; reflexivity|reflexivity|reflexivity].
Qed.

End Run.

Lemma elevation_needs_consent_witness :
  length (elevated (sy_broker Run.s5)) = 1%nat /\
  exists yeses, yeses `sublist_of` sy_approved Run.s5 /\
    Forall2 (fun started yes => granted (what (snd started)) yes) (elevated (sy_broker Run.s5)) yeses.
Proof. split; [vm_compute; reflexivity|]. exact (elevation_needs_consent Run.s5 Run.runs_s5). Defined.

(** ** What [sxn_elevate] writes is what the broker reads *)

Lemma pack_args_joined used argv : 0 <= zlen used <= SAVANXP_ELEVATION_ARGS_CAPACITY ->
  pack_args used argv = if zlen (used ++ joined argv) <=? SAVANXP_ELEVATION_ARGS_CAPACITY then Some (used ++ joined argv) else None.
Proof.
  revert used. induction argv as [|a argv IH]; intros used Hu; cbn [pack_args].
  { change (joined []) with (@nil Z). rewrite app_nil_r. by replace (_ <=? _) with true by lia. }
  assert (Ej : used ++ joined (a :: argv) = (used ++ a ++ [0]) ++ joined argv).
  { unfold joined. cbn. by rewrite <- !app_assoc. }
  assert (El : zlen (used ++ a ++ [0]) = zlen used + zlen a + 1) by (rewrite !zlen_app; change (zlen [0]) with 1; lia).
  case_if.
  - rewrite Ej, zlen_app, El. pose proof (zlen_nonneg (joined argv)). by replace (_ <=? _) with false by lia.
  - rewrite IH by (rewrite El; pose proof (zlen_nonneg a); lia). by rewrite Ej.
Qed.

Lemma terminated_string a rest : terminated (a ++ 0 :: rest) = true.
Proof. unfold terminated. rewrite existsb_app. cbn. by rewrite orb_true_r. Qed.

Lemma chars_nonzero l : Forall char l -> Forall (fun v => v <> 0) l.
Proof. intros H. eapply Forall_impl; [exact H|]. unfold char. lia. Qed.

Lemma parse_joined argv rest : Forall (Forall char) argv -> parse_strings (length argv) (joined argv ++ rest) = Some argv.
Proof.
  induction 1 as [|a argv Ha Hl IH]; [done|]. cbn [length parse_strings].
  replace (joined (a :: argv) ++ rest) with (a ++ 0 :: joined argv ++ rest) by (unfold joined; cbn; by rewrite <- !app_assoc).
  rewrite terminated_string, c_string_app by (by apply chars_nonzero). cbn [negb].
  destruct (a ++ 0 :: joined argv ++ rest) eqn:E; [by destruct a|]. rewrite <- E.
  rewrite drop_app_ge by lia. replace (S (length a) - length a)%nat with 1%nat by lia. cbn [drop].
  change (drop 0 ?l) with l. by rewrite IH.
Qed.

(** C31. What a program asks for is what the broker starts: a call of [sxn_elevate]
    builds a request exactly when the path is absolute and shorter than 128
    bytes, there are one to sixteen arguments, and they take at most 384 bytes
    with their terminators; and the broker reads back from it the very path and
    the very arguments, whatever bytes they hold. *)
Theorem elevate_request_roundtrip (path : list Z) (argv : list (list Z)) (wait : bool)
    (Hp : Forall char path) (Ha : Forall (Forall char) argv) :
  if (at_ 0 path 0 =? 0x2f) && (zlen path <? 128) && (1 <=? zlen argv) && (zlen argv <=? 16) && (zlen (joined argv) <=? 384)
  then exists r, elevate_request path argv wait = inr r /\ parse_request r = Some argv /\ c_string (er_path r) = path
  else exists error, elevate_request path argv wait = inl error /\ error < 0.
Proof.
  unfold elevate_request. rewrite pack_args_joined by (change (zlen []) with 0; done). cbn [app].
  change SAVANXP_ELEVATION_MAX_ARGS with 16. change SAVANXP_ELEVATION_PATH_CAPACITY with 128.
  change SAVANXP_ELEVATION_ARGS_CAPACITY with 384.
  destruct ((at_ 0 path 0 =? 0x2f) && _ && _ && _ && _) eqn:E.
  - replace (negb (at_ 0 path 0 =? 47) || (zlen argv <=? 0) || (zlen argv >? 16) || (zlen path >=? 128)) with false by lia.
    replace (zlen (joined argv) <=? 384) with true by lia. eexists. split; [done|].
    assert (Hz : exists t, zeroed 128 path = path ++ 0 :: t).
    { unfold zeroed, zlen in *. destruct (Z.to_nat 128 - length path)%nat as [|n] eqn:En; [lia|]. by eexists. }
    destruct Hz as [t Hz]. unfold parse_request. cbn [er_magic er_version er_flags er_argc er_path er_args].
    rewrite Hz, terminated_string, c_string_app by (by apply chars_nonzero). split; [|done].
    assert (Hflag : (Z.ldiff (if wait then SAVANXP_ELEVATION_WAIT else 0) SAVANXP_ELEVATION_WAIT =? 0) = true) by (by destruct wait).
    rewrite Hflag. change (SAVANXP_ELEVATION_MAGIC =? SAVANXP_ELEVATION_MAGIC) with true.
    change (SAVANXP_ELEVATION_VERSION =? SAVANXP_ELEVATION_VERSION) with true. cbn [negb orb].
    replace ((zlen argv =? 0) || (zlen argv >? SAVANXP_ELEVATION_MAX_ARGS)) with false by (unfold SAVANXP_ELEVATION_MAX_ARGS; lia).
    replace (at_ 0 (path ++ 0 :: t) 0) with (at_ 0 path 0).
    2:{ destruct path; [cbn in E; done|done]. }
    replace (negb (at_ 0 path 0 =? 47) || false) with false by lia.
    unfold zlen. rewrite Nat2Z.id. unfold zeroed. by apply parse_joined.
  - destruct (negb (at_ 0 path 0 =? 47) || _ || _ || _) eqn:E1; [eexists; split; [done|done]|].
    replace (zlen (joined argv) <=? 384) with false by lia. eexists. split; [done|done].
Qed.

Lemma elevate_request_roundtrip_witness :
  exists r, elevate_request (literal "/bin/disk") [literal "disk"; []; [0x20; 0xff]] true = inr r /\
    parse_request r = Some [literal "disk"; []; [0x20; 0xff]] /\ c_string (er_path r) = literal "/bin/disk".
Proof.
  assert (Hc : forall l, forallb (fun v => (0 <? v) && (v <? 256)) l = true -> Forall char l).
  { intros l Hl. rewrite forallb_forall in Hl. apply Forall_forall. intros v Hv%list_elem_of_In.
    specialize (Hl v Hv). unfold char. lia. }
  assert (Hp : Forall char (literal "/bin/disk")) by (apply Hc; reflexivity).
  assert (Ha : Forall (Forall char) [literal "disk"; []; [0x20; 0xff]]).
  { repeat (apply Forall_cons_2; [apply Hc; reflexivity|]). constructor. }
  exact (elevate_request_roundtrip (literal "/bin/disk") [literal "disk"; []; [0x20; 0xff]] true Hp Ha).
Defined.
