(* ===== verification/Presentation.v ===== *)
(** * What a window shows of its program (system/windowd/windowd_presentation.c)

    The title, the icon, the accent and the style of a window: from the path of
    the program until the window publishes its own, in memory that another
    process writes ([struct savanxp_wm_presentation]).

    Buffers are kept whole, with the bytes after a string's terminator, because
    [windowd_presentation_adopt] compares them. *)

From S2P Require Import Prelude Rect Region Painter Scene Consent.
From Stdlib Require String.
Import String.StringSyntax.

Definition WINDOWD_PRESENTATION_LABEL_CAPACITY : Z := 32.
Definition WINDOWD_PRESENTATION_ICON_EXTENT : Z := 16.
Definition WINDOWD_PRESENTATION_ICON_PIXELS : Z := WINDOWD_PRESENTATION_ICON_EXTENT * WINDOWD_PRESENTATION_ICON_EXTENT.
Definition SAVANXP_WM_PRESENTATION_TITLE_CAPACITY : Z := 32.
Definition SAVANXP_WM_PRESENTATION_HAS_ACCENT : Z := 1.
Definition DESKTOP_ICON_DESKTOP : Z := 0.
Definition WINDOWD_DEFAULT_ACCENT : Z := Z.lor (Z.lor (Z.shiftl 59 16) (Z.shiftl 95 8)) 156.

Record windowd_presentation := mk_presentation {
  pr_label : list Z; pr_accent : Z; pr_accent_declared : Z; pr_window_flags : Z; pr_icon_extent : Z;
  pr_fallback_icon_id : Z; pr_icon_pixels : list Z }.

#[export] Instance windowd_presentation_eq_dec : EqDecision windowd_presentation.
Proof. solve_decision. Defined.

(** What the window publishes; the sequence of its seqlock is read apart. *)
Record savanxp_wm_presentation := mk_published {
  pu_flags : Z; pu_accent : Z; pu_window_style : Z; pu_icon_extent : Z; pu_title : list Z; pu_icon_pixels : list Z }.

(** A zeroed presentation. *)
Definition presentation0 : windowd_presentation :=
  mk_presentation (replicate (Z.to_nat WINDOWD_PRESENTATION_LABEL_CAPACITY) 0) 0 0 0 0 0
    (replicate (Z.to_nat WINDOWD_PRESENTATION_ICON_PIXELS) 0).

(** A string and its terminator, written at the start of a buffer. *)
Definition write_string (buffer text : list Z) : list Z := text ++ 0 :: drop (S (length text)) buffer.

(** What is copied of [source]: up to its terminator, [source_capacity] bytes
    and one less than the room. *)
Definition copy_label (destination : list Z) (source : list Z) (source_capacity : Z) : list Z :=
  write_string destination
    (take (Z.to_nat (Z.min source_capacity (zlen destination - 1))) (c_string source)).

(** The characters after the last slash. *)
Fixpoint base_name (name path : list Z) : list Z :=
  match path with
  | [] => name
  | c :: path => base_name (if c =? 0x2f then path else name) path
  end.

Definition windowd_presentation_default (path : list Z) : windowd_presentation :=
  let name := base_name path path in
  let length := zlen name in
  let length := if (length >? 4) && bool_decide (drop (Z.to_nat (length - 4)) name = literal ".sxe") then length - 4 else length in
  mk_presentation (copy_label (pr_label presentation0) name length) WINDOWD_DEFAULT_ACCENT 0 0 0 DESKTOP_ICON_DESKTOP
    (pr_icon_pixels presentation0).

(** The presentation, and whether a byte of it changed. *)
Definition windowd_presentation_adopt (p : windowd_presentation) (published : savanxp_wm_presentation) : windowd_presentation * bool :=
  let label := if negb (at_ 0 (pu_title published) 0 =? 0)
               then copy_label (pr_label p) (pu_title published) SAVANXP_WM_PRESENTATION_TITLE_CAPACITY else pr_label p in
  let declares := has_flag (pu_flags published) SAVANXP_WM_PRESENTATION_HAS_ACCENT in
  let accent := if declares then Z.land (pu_accent published) 0x00ffffff else pr_accent p in
  let accent_declared := if declares then 1 else pr_accent_declared p in
  let drawable := pu_icon_extent published =? WINDOWD_PRESENTATION_ICON_EXTENT in
  let p' := mk_presentation label accent accent_declared (pu_window_style published)
              (if drawable then WINDOWD_PRESENTATION_ICON_EXTENT else pr_icon_extent p) (pr_fallback_icon_id p)
              (if drawable then pu_icon_pixels published else pr_icon_pixels p) in
  (p', negb (bool_decide (p' = p))).

Definition windowd_presentation_label (p : windowd_presentation) (path : list Z) : list Z :=
  if negb (at_ 0 (pr_label p) 0 =? 0) then c_string (pr_label p)
  else if negb (at_ 0 path 0 =? 0) then path else literal "App".

Definition windowd_presentation_accent (p : windowd_presentation) : Z := pr_accent p.
Definition windowd_presentation_has_accent (p : windowd_presentation) : bool := negb (pr_accent_declared p =? 0).

(** The icon to draw: the window's own pixels, or one of the baked set. *)
Inductive icon := OwnIcon (extent : Z) (pixels : list Z) | BakedIcon (id : Z).

Definition windowd_presentation_icon (p : windowd_presentation) : icon :=
  if negb (pr_icon_extent p =? 0) then OwnIcon (pr_icon_extent p) (pr_icon_pixels p) else BakedIcon (pr_fallback_icon_id p).

(** ** Well-formedness and what is shown *)

Record presentation_ok (p : windowd_presentation) : Prop := {
  po_label : zlen (pr_label p) = WINDOWD_PRESENTATION_LABEL_CAPACITY;
  po_terminated : terminated (pr_label p) = true;
  po_accent : 0 <= pr_accent p < 2 ^ 24;
  po_declared : pr_accent_declared p = 0 \/ pr_accent_declared p = 1;
  po_extent : pr_icon_extent p = 0 \/ pr_icon_extent p = WINDOWD_PRESENTATION_ICON_EXTENT;
  po_pixels : zlen (pr_icon_pixels p) = WINDOWD_PRESENTATION_ICON_PIXELS }.

(** The arrays of the header have their sizes; what is in them is the client's. *)
Definition published_ok (u : savanxp_wm_presentation) : Prop :=
  zlen (pu_title u) = SAVANXP_WM_PRESENTATION_TITLE_CAPACITY /\ zlen (pu_icon_pixels u) = WINDOWD_PRESENTATION_ICON_PIXELS.

Definition shown (p : windowd_presentation) : list Z * Z * bool * Z * icon :=
  (c_string (pr_label p), windowd_presentation_accent p, windowd_presentation_has_accent p, pr_window_flags p,
   windowd_presentation_icon p).

Lemma c_string_nonzero l : Forall (fun c => c <> 0) (c_string l).
Proof. induction l as [|c l IH]; cbn; [constructor|]. case_if; [constructor|]. constructor; [lia|done]. Qed.

Lemma terminated_split l : terminated l = true -> l = c_string l ++ 0 :: drop (S (length (c_string l))) l.
Proof.
  induction l as [|c l IH]; [done|]. cbn [terminated existsb c_string]. destruct (c =? 0) eqn:E.
  - intros _. apply Z.eqb_eq in E. by subst.
  - replace (0 =? c) with false by lia. cbn [orb]. intros H. cbn [app length drop]. f_equal. exact (IH H).
Qed.

Lemma write_string_same b : terminated b = true -> write_string b (c_string b) = b.
Proof. intros H. unfold write_string. by rewrite <- terminated_split. Qed.

Lemma c_string_write b t : Forall (fun c => c <> 0) t -> c_string (write_string b t) = t.
Proof. apply c_string_app. Qed.

Lemma terminated_write b t : terminated (write_string b t) = true.
Proof. unfold terminated, write_string. rewrite existsb_app. cbn. apply orb_true_r. Qed.

Lemma zlen_write b t : zlen t < zlen b -> zlen (write_string b t) = zlen b.
Proof. unfold zlen, write_string. intros H. rewrite length_app. cbn [length]. rewrite length_drop. lia. Qed.

Lemma nonzero_take n t : Forall (fun c : Z => c <> 0) t -> Forall (fun c => c <> 0) (take n t).
Proof. apply Forall_take. Qed.

Lemma c_string_copy_label b source capacity :
  c_string (copy_label b source capacity) = take (Z.to_nat (Z.min capacity (zlen b - 1))) (c_string source).
Proof. apply c_string_write, nonzero_take, c_string_nonzero. Qed.

Lemma zlen_copy_label b source capacity : 0 < zlen b -> zlen (copy_label b source capacity) = zlen b.
Proof. intros H. apply zlen_write. unfold zlen. rewrite length_take. unfold zlen in *. lia. Qed.

(** Writing what a buffer already holds changes nothing. *)
Lemma copy_label_same b source capacity :
  terminated b = true -> c_string (copy_label b source capacity) = c_string b -> copy_label b source capacity = b.
Proof.
  intros H E. rewrite c_string_copy_label in E. unfold copy_label. rewrite E. by apply write_string_same.
Qed.

Lemma accent_range a : 0 <= Z.land a 0x00ffffff < 2 ^ 24.
Proof. change 0x00ffffff with (Z.ones 24). rewrite Z.land_ones by lia. apply Z.mod_pos_bound. lia. Qed.

Lemma default_ok path : presentation_ok (windowd_presentation_default path).
Proof.
  split; cbn [windowd_presentation_default pr_label pr_accent pr_accent_declared pr_icon_extent pr_icon_pixels].
  - by rewrite zlen_copy_label.
  - apply terminated_write.
  - done.
  - by left.
  - by left.
  - done.
Qed.

Lemma adopt_ok p u : presentation_ok p -> published_ok u -> presentation_ok (fst (windowd_presentation_adopt p u)).
Proof.
  intros [Hl Ht Ha Hd He Hp] [Hu Hx].
  split; cbn [fst windowd_presentation_adopt pr_label pr_accent pr_accent_declared pr_icon_extent pr_icon_pixels].
  - case_if; [|done]. rewrite zlen_copy_label by (rewrite Hl; done). done.
  - case_if; [apply terminated_write|done].
  - case_if; [apply accent_range|done].
  - case_if; [by right|done].
  - case_if; [by right|done].
  - by case_if.
Qed.

(** Adopting what is shown already changes no byte. *)
Lemma adopt_same p u : presentation_ok p ->
  shown (fst (windowd_presentation_adopt p u)) = shown p -> fst (windowd_presentation_adopt p u) = p.
Proof.
  intros [Hl Ht Ha Hd He Hp]. destruct p as [label accent declared flags extent fallback pixels].
  unfold shown, windowd_presentation_icon, windowd_presentation_has_accent, windowd_presentation_accent.
  cbn [fst windowd_presentation_adopt pr_label pr_accent pr_accent_declared pr_window_flags pr_icon_extent pr_fallback_icon_id pr_icon_pixels] in *.
  intros E. injection E as E1 E2 E3 E4 E5. f_equal; [|exact E2| |exact E4| |].
  - case_if; [|done]. by apply copy_label_same.
  - case_if; [|done]. destruct Hd as [->| ->]; done.
  - destruct (_ =? WINDOWD_PRESENTATION_ICON_EXTENT); [|done]. destruct He as [->| ->]; done.
  - destruct (_ =? WINDOWD_PRESENTATION_ICON_EXTENT); [|done]. destruct He as [->| ->]; [done|]. by injection E5.
Qed.

(** What is shown of a published title: its first 31 characters, when it has any. *)
Lemma adopt_title p u : presentation_ok p ->
  c_string (pr_label (fst (windowd_presentation_adopt p u))) =
  if at_ 0 (pu_title u) 0 =? 0 then c_string (pr_label p) else take 31 (c_string (pu_title u)).
Proof.
  intros [Hl _ _ _ _ _]. cbn [fst windowd_presentation_adopt pr_label]. destruct (_ =? 0); cbn [negb]; [done|].
  rewrite c_string_copy_label, Hl. done.
Qed.

(** Adopting is idempotent. *)
Lemma adopt_again p u : presentation_ok p -> published_ok u ->
  fst (windowd_presentation_adopt (fst (windowd_presentation_adopt p u)) u) = fst (windowd_presentation_adopt p u).
Proof.
  intros Hp Hu. apply adopt_same; [by apply adopt_ok|]. pose proof (adopt_ok p u Hp Hu) as Hp'. unfold shown.
  rewrite (adopt_title _ u Hp'), (adopt_title p u Hp).
  unfold windowd_presentation_icon, windowd_presentation_has_accent, windowd_presentation_accent.
  cbn [fst windowd_presentation_adopt pr_label pr_accent pr_accent_declared pr_window_flags pr_icon_extent pr_fallback_icon_id pr_icon_pixels].
  f_equal; [|by repeat case_if]. f_equal. f_equal; [|by repeat case_if]. f_equal; [|by repeat case_if].
  by destruct (_ =? 0).
Qed.

(** C27. Whatever bytes a window publishes, what windowd keeps of them is well
    formed: a terminated title of at most 31 characters, a 24-bit accent, an icon
    of the size of the frame's slot or none.  The title shown is the published
    one, cut; windowd is told of a change exactly when something shown changed,
    and adopting the same again is no change. *)
Theorem adopt_exact (p : windowd_presentation) (u : savanxp_wm_presentation) (Hp : presentation_ok p) (Hu : published_ok u) :
  let '(p', changed) := windowd_presentation_adopt p u in
  presentation_ok p' /\
  c_string (pr_label p') = (if at_ 0 (pu_title u) 0 =? 0 then c_string (pr_label p) else take 31 (c_string (pu_title u))) /\
  (changed = true <-> shown p' <> shown p) /\
  windowd_presentation_adopt p' u = (p', false).
Proof.
  pose proof (adopt_ok p u Hp Hu) as Hok. pose proof (adopt_title p u Hp) as Ht. pose proof (adopt_same p u Hp) as Hs.
  pose proof (adopt_again p u Hp Hu) as Ha.
  assert (Hc : forall q, snd (windowd_presentation_adopt q u) = negb (bool_decide (fst (windowd_presentation_adopt q u) = q))) by done.
  destruct (windowd_presentation_adopt p u) as [p' changed] eqn:E. cbn [fst] in *.
  pose proof (Hc p) as Hcp. pose proof (Hc p') as Hcp'. rewrite E in Hcp. cbn [fst snd] in Hcp. rewrite Ha in Hcp'.
  split; [done|]. split; [done|]. split.
  - subst changed. rewrite negb_true_iff, bool_decide_eq_false. split; [|congruence]. intros Hn He. by apply Hn, Hs.
  - destruct (windowd_presentation_adopt p' u) as [q b]. cbn [fst snd] in *. subst. by rewrite bool_decide_eq_true_2.
Qed.

(** A published title longer than the room, without a terminator. *)
Definition long_title : savanxp_wm_presentation :=
  mk_published SAVANXP_WM_PRESENTATION_HAS_ACCENT 0xff123456 1 4096 (replicate 32 0x61) (replicate 256 7).

Lemma adopt_exact_witness :
  let p := windowd_presentation_default (literal "/disk/bin/notepad.sxe") in
  c_string (pr_label p) = literal "notepad" /\
  let '(p', changed) := windowd_presentation_adopt p long_title in
  presentation_ok p' /\ c_string (pr_label p') = take 31 (replicate 32 0x61) /\ (changed = true <-> shown p' <> shown p) /\
  windowd_presentation_adopt p' long_title = (p', false).
Proof.
  split; [vm_compute; reflexivity|].
  exact (adopt_exact (windowd_presentation_default (literal "/disk/bin/notepad.sxe")) long_title (default_ok _)
           (conj eq_refl eq_refl)).
Defined.

(** The name of a program: what follows the last slash, without [.sxe]. *)
Lemma base_name_app dir name other : Forall (fun c => c <> 0x2f) name -> base_name other (dir ++ 0x2f :: name) = name.
Proof.
  intros Hn. assert (Hno : forall other, base_name other name = other).
  { induction Hn as [|c l Hc _ IH]; intros o; [done|]. cbn. replace (c =? 0x2f) with false by lia. apply IH. }
  revert other. induction dir as [|c dir IH]; intros other; cbn [app base_name]; [|apply IH]. cbn. apply Hno.
Qed.
