(* ===== verification/Wm.v ===== *)
(** * The window manager's windows (system/windowd)

    What windowd decides by itself: where windows are (windowd_layout.c), which
    is above which, which has the keyboard, what minimizing, maximizing,
    dragging and fullscreen do to them (windowd.c), which window a point hits,
    and the scene it hands to the compositor (windowd_render.c).

    [struct windowd_client] and [struct windowd_session] keep the fields these
    decisions read or write; the damage an event accumulates, a parameter
    [dirty] of the source, is kept with the session, and so are the events
    offered to the clients, in [se_sent].  A pointer to a client is where it
    lies: its slot, or its index among the desktop's windows. *)

From S2P Require Import Prelude Rect Region Painter Scene Consent Presentation.

Definition WINDOWD_MAX_OVERLAY_CLIENTS : Z := 12.
Definition SAVANXP_WM_MAX_OWNED_WINDOWS : Z := 4.
Definition WINDOWD_DESKTOP_WINDOW_COUNT : Z := 1 + SAVANXP_WM_MAX_OWNED_WINDOWS.
Definition WINDOWD_WINDOW_BORDER : Z := 4.
Definition WINDOWD_WINDOW_TITLEBAR_HEIGHT : Z := 24.
Definition WINDOWD_WINDOW_BUTTON_WIDTH : Z := 16.
Definition WINDOWD_WINDOW_BUTTON_HEIGHT : Z := 14.
Definition WINDOWD_WINDOW_BUTTON_GAP : Z := 0.
Definition WINDOWD_RESIZE_BORDER : Z := 4.
Definition WINDOWD_WINDOW_MIN_WIDTH : Z := 200.
Definition WINDOWD_WINDOW_MIN_HEIGHT : Z := 140.
Definition WINDOWD_RESIZE_EDGE_NONE : Z := 0.
Definition WINDOWD_RESIZE_EDGE_LEFT : Z := 1.
Definition WINDOWD_RESIZE_EDGE_RIGHT : Z := 2.
Definition WINDOWD_RESIZE_EDGE_TOP : Z := 4.
Definition WINDOWD_RESIZE_EDGE_BOTTOM : Z := 8.
Definition WINDOWD_SWITCHER_WIDTH : Z := 360.
Definition WINDOWD_SWITCHER_HEIGHT : Z := 56.
Definition SAVANXP_WM_WINDOW_STYLE_FIXED_SIZE : Z := 1.
Definition SAVANXP_WM_PANEL_EDGE_TOP : Z := 1.
Definition SAVANXP_CURSOR_WAIT : Z := 1.
Definition SAVANXP_CURSOR_MOVE : Z := 3.
Definition SAVANXP_CURSOR_RESIZE_H : Z := 4.
Definition SAVANXP_CURSOR_RESIZE_V : Z := 5.

(** [enum windowd_window_role]. *)
Definition WINDOWD_ROLE_NORMAL : Z := 0.
Definition WINDOWD_ROLE_BACKGROUND : Z := 1.
Definition WINDOWD_ROLE_PANEL : Z := 2.
Definition WINDOWD_ROLE_POPUP : Z := 3.

(** [enum windowd_client_kind]: what has the keyboard. *)
Inductive client_kind := ClientNone | ClientApp | ClientDesktop.

#[export] Instance client_kind_eq_dec : EqDecision client_kind.
Proof. solve_decision. Defined.

(** What windowd and a client read in the header of its surface: the size, the
    request to close, the request to capture the pointer. *)
Record client_header := mk_header { hd_width : Z; hd_height : Z; hd_shutdown : bool; hd_capture : bool }.

(** A client by where it lies. *)
Inductive place := Desktop (index : Z) | Overlay (slot : Z).

#[export] Instance place_eq_dec : EqDecision place.
Proof. solve_decision. Defined.

(** An event for a client ([struct savanxp_wm_event]). *)
Inductive wm_event :=
| EventKey (key : savanxp_input_event)
| EventPointer (x y wheel buttons : Z)
| EventMotion (dx dy wheel buttons : Z).

(** A resize by the edges in progress, and the pointer's capture. *)
Record resize_state := mk_resize { rs_slot : Z; rs_edges : Z; rs_origin : sx_rect; rs_grab_x : Z; rs_grab_y : Z }.
Record capture_state := mk_capture { cp_captured : bool; cp_has_last : bool; cp_last_x : Z; cp_last_y : Z }.

(** The list of windows a client reads ([struct savanxp_wm_window_list]). *)
Record savanxp_wm_window_entry := mk_entry {
  we_window_id : Z; we_flags : Z; we_icon_id : Z; we_icon_extent : Z; we_title : list Z; we_icon_pixels : list Z }.
Record savanxp_wm_window_list := mk_list { wl_version : Z; wl_count : Z; wl_sequence : Z; wl_windows : list savanxp_wm_window_entry }.

(** What windowd keeps of the hints in a client's header: the size hint it read
    last, whether one was obeyed, where the window is in the cascade, and the
    presentation it read last. *)
Record hint_state := mk_hint { hs_consumed : Z; hs_applied : bool; hs_cascade : Z; hs_presentation : Z }.
Definition hint0 : hint_state := mk_hint 0 false 0 0.

Record windowd_client := mk_wclient {
  wc_pid : Z; wc_reserved_pid : Z; wc_owner_slot : Z; wc_window_id : Z; wc_role : Z; wc_role_flags : Z;
  wc_presentation : windowd_presentation; wc_cursor_hint : Z; wc_events : bool; wc_native_input : bool;
  wc_dismiss_requested : bool; wc_close_requested_ms : Z; wc_not_responding : bool; wc_surface_id : Z;
  wc_started : bool; wc_header : option client_header; wc_pixels : option (list Z); wc_info : fb_info;
  wc_x : Z; wc_y : Z; wc_width : Z; wc_height : Z; wc_restore : sx_rect; wc_frame_visible : bool;
  wc_minimized : bool; wc_maximized : bool; wc_active : bool; wc_fullscreen_capable : bool;
  wc_fullscreen : bool; wc_fs_x : Z; wc_fs_y : Z; wc_fs_frame_visible : bool; wc_fs_maximized : bool;
  wc_path : list Z; wc_hint : hint_state; wc_list : option savanxp_wm_window_list }.

Record windowd_session := mk_session {
  se_info : fb_info; se_native : fb_info; se_kind : client_kind; se_active_slot : Z; se_fullscreen_slot : Z;
  se_count : Z; se_order : list Z; se_desktop : list windowd_client; se_overlays : list windowd_client;
  se_resize : resize_state; se_switcher_open : bool; se_switcher_selected : Z; se_consent : windowd_consent;
  se_hotkeys : list (Z * Z); se_hotkey_held : Z; se_shape : Z; se_previous_shape : Z; se_cursor_moved : bool;
  se_capture : capture_state; se_dirty : sx_region; se_sent : list (place * wm_event) }.

Definition put_position (x y : Z) (c : windowd_client) : windowd_client :=
  mk_wclient (wc_pid c) (wc_reserved_pid c) (wc_owner_slot c) (wc_window_id c) (wc_role c) (wc_role_flags c)
    (wc_presentation c) (wc_cursor_hint c) (wc_events c) (wc_native_input c) (wc_dismiss_requested c)
    (wc_close_requested_ms c) (wc_not_responding c) (wc_surface_id c) (wc_started c) (wc_header c) (wc_pixels c)
    (wc_info c) x y (wc_width c) (wc_height c) (wc_restore c) (wc_frame_visible c) (wc_minimized c)
    (wc_maximized c) (wc_active c) (wc_fullscreen_capable c) (wc_fullscreen c) (wc_fs_x c) (wc_fs_y c)
    (wc_fs_frame_visible c) (wc_fs_maximized c)
    (wc_path c) (wc_hint c) (wc_list c).

Definition put_extent (width height : Z) (c : windowd_client) : windowd_client :=
  mk_wclient (wc_pid c) (wc_reserved_pid c) (wc_owner_slot c) (wc_window_id c) (wc_role c) (wc_role_flags c)
    (wc_presentation c) (wc_cursor_hint c) (wc_events c) (wc_native_input c) (wc_dismiss_requested c)
    (wc_close_requested_ms c) (wc_not_responding c) (wc_surface_id c) (wc_started c) (wc_header c) (wc_pixels c)
    (wc_info c) (wc_x c) (wc_y c) width height (wc_restore c) (wc_frame_visible c) (wc_minimized c)
    (wc_maximized c) (wc_active c) (wc_fullscreen_capable c) (wc_fullscreen c) (wc_fs_x c) (wc_fs_y c)
    (wc_fs_frame_visible c) (wc_fs_maximized c)
    (wc_path c) (wc_hint c) (wc_list c).

Definition put_restore (r : sx_rect) (c : windowd_client) : windowd_client :=
  mk_wclient (wc_pid c) (wc_reserved_pid c) (wc_owner_slot c) (wc_window_id c) (wc_role c) (wc_role_flags c)
    (wc_presentation c) (wc_cursor_hint c) (wc_events c) (wc_native_input c) (wc_dismiss_requested c)
    (wc_close_requested_ms c) (wc_not_responding c) (wc_surface_id c) (wc_started c) (wc_header c) (wc_pixels c)
    (wc_info c) (wc_x c) (wc_y c) (wc_width c) (wc_height c) r (wc_frame_visible c) (wc_minimized c)
    (wc_maximized c) (wc_active c) (wc_fullscreen_capable c) (wc_fullscreen c) (wc_fs_x c) (wc_fs_y c)
    (wc_fs_frame_visible c) (wc_fs_maximized c)
    (wc_path c) (wc_hint c) (wc_list c).

Definition put_minimized (b : bool) (c : windowd_client) : windowd_client :=
  mk_wclient (wc_pid c) (wc_reserved_pid c) (wc_owner_slot c) (wc_window_id c) (wc_role c) (wc_role_flags c)
    (wc_presentation c) (wc_cursor_hint c) (wc_events c) (wc_native_input c) (wc_dismiss_requested c)
    (wc_close_requested_ms c) (wc_not_responding c) (wc_surface_id c) (wc_started c) (wc_header c) (wc_pixels c)
    (wc_info c) (wc_x c) (wc_y c) (wc_width c) (wc_height c) (wc_restore c) (wc_frame_visible c) b
    (wc_maximized c) (wc_active c) (wc_fullscreen_capable c) (wc_fullscreen c) (wc_fs_x c) (wc_fs_y c)
    (wc_fs_frame_visible c) (wc_fs_maximized c)
    (wc_path c) (wc_hint c) (wc_list c).

Definition put_maximized (b : bool) (c : windowd_client) : windowd_client :=
  mk_wclient (wc_pid c) (wc_reserved_pid c) (wc_owner_slot c) (wc_window_id c) (wc_role c) (wc_role_flags c)
    (wc_presentation c) (wc_cursor_hint c) (wc_events c) (wc_native_input c) (wc_dismiss_requested c)
    (wc_close_requested_ms c) (wc_not_responding c) (wc_surface_id c) (wc_started c) (wc_header c) (wc_pixels c)
    (wc_info c) (wc_x c) (wc_y c) (wc_width c) (wc_height c) (wc_restore c) (wc_frame_visible c)
    (wc_minimized c) b (wc_active c) (wc_fullscreen_capable c) (wc_fullscreen c) (wc_fs_x c) (wc_fs_y c)
    (wc_fs_frame_visible c) (wc_fs_maximized c)
    (wc_path c) (wc_hint c) (wc_list c).

Definition put_active (b : bool) (c : windowd_client) : windowd_client :=
  mk_wclient (wc_pid c) (wc_reserved_pid c) (wc_owner_slot c) (wc_window_id c) (wc_role c) (wc_role_flags c)
    (wc_presentation c) (wc_cursor_hint c) (wc_events c) (wc_native_input c) (wc_dismiss_requested c)
    (wc_close_requested_ms c) (wc_not_responding c) (wc_surface_id c) (wc_started c) (wc_header c) (wc_pixels c)
    (wc_info c) (wc_x c) (wc_y c) (wc_width c) (wc_height c) (wc_restore c) (wc_frame_visible c)
    (wc_minimized c) (wc_maximized c) b (wc_fullscreen_capable c) (wc_fullscreen c) (wc_fs_x c) (wc_fs_y c)
    (wc_fs_frame_visible c) (wc_fs_maximized c)
    (wc_path c) (wc_hint c) (wc_list c).

Definition put_surface (header : option client_header) (pixels : option (list Z)) (info : fb_info) (c : windowd_client) : windowd_client :=
  mk_wclient (wc_pid c) (wc_reserved_pid c) (wc_owner_slot c) (wc_window_id c) (wc_role c) (wc_role_flags c)
    (wc_presentation c) (wc_cursor_hint c) (wc_events c) (wc_native_input c) (wc_dismiss_requested c)
    (wc_close_requested_ms c) (wc_not_responding c) (wc_surface_id c) (wc_started c) header pixels info (wc_x c)
    (wc_y c) (wc_width c) (wc_height c) (wc_restore c) (wc_frame_visible c) (wc_minimized c) (wc_maximized c)
    (wc_active c) (wc_fullscreen_capable c) (wc_fullscreen c) (wc_fs_x c) (wc_fs_y c) (wc_fs_frame_visible c)
    (wc_fs_maximized c)
    (wc_path c) (wc_hint c) (wc_list c).

Definition put_fullscreen (on : bool) (frame_visible maximized : bool) (c : windowd_client) : windowd_client :=
  mk_wclient (wc_pid c) (wc_reserved_pid c) (wc_owner_slot c) (wc_window_id c) (wc_role c) (wc_role_flags c)
    (wc_presentation c) (wc_cursor_hint c) (wc_events c) (wc_native_input c) (wc_dismiss_requested c)
    (wc_close_requested_ms c) (wc_not_responding c) (wc_surface_id c) (wc_started c) (wc_header c) (wc_pixels c)
    (wc_info c) (wc_x c) (wc_y c) (wc_width c) (wc_height c) (wc_restore c) frame_visible (wc_minimized c)
    maximized (wc_active c) (wc_fullscreen_capable c) on (wc_fs_x c) (wc_fs_y c) (wc_fs_frame_visible c)
    (wc_fs_maximized c)
    (wc_path c) (wc_hint c) (wc_list c).

Definition put_fs_restore (x y : Z) (frame_visible maximized : bool) (c : windowd_client) : windowd_client :=
  mk_wclient (wc_pid c) (wc_reserved_pid c) (wc_owner_slot c) (wc_window_id c) (wc_role c) (wc_role_flags c)
    (wc_presentation c) (wc_cursor_hint c) (wc_events c) (wc_native_input c) (wc_dismiss_requested c)
    (wc_close_requested_ms c) (wc_not_responding c) (wc_surface_id c) (wc_started c) (wc_header c) (wc_pixels c)
    (wc_info c) (wc_x c) (wc_y c) (wc_width c) (wc_height c) (wc_restore c) (wc_frame_visible c)
    (wc_minimized c) (wc_maximized c) (wc_active c) (wc_fullscreen_capable c) (wc_fullscreen c) x y
    frame_visible maximized
    (wc_path c) (wc_hint c) (wc_list c).

Definition put_info (info : fb_info) (s : windowd_session) : windowd_session :=
  mk_session info (se_native s) (se_kind s) (se_active_slot s) (se_fullscreen_slot s) (se_count s) (se_order s)
    (se_desktop s) (se_overlays s) (se_resize s) (se_switcher_open s) (se_switcher_selected s) (se_consent s)
    (se_hotkeys s) (se_hotkey_held s) (se_shape s) (se_previous_shape s) (se_cursor_moved s) (se_capture s)
    (se_dirty s) (se_sent s).

Definition put_focus (kind : client_kind) (slot : Z) (s : windowd_session) : windowd_session :=
  mk_session (se_info s) (se_native s) kind slot (se_fullscreen_slot s) (se_count s) (se_order s) (se_desktop s)
    (se_overlays s) (se_resize s) (se_switcher_open s) (se_switcher_selected s) (se_consent s) (se_hotkeys s)
    (se_hotkey_held s) (se_shape s) (se_previous_shape s) (se_cursor_moved s) (se_capture s) (se_dirty s)
    (se_sent s).

Definition put_fullscreen_slot (slot : Z) (s : windowd_session) : windowd_session :=
  mk_session (se_info s) (se_native s) (se_kind s) (se_active_slot s) slot (se_count s) (se_order s)
    (se_desktop s) (se_overlays s) (se_resize s) (se_switcher_open s) (se_switcher_selected s) (se_consent s)
    (se_hotkeys s) (se_hotkey_held s) (se_shape s) (se_previous_shape s) (se_cursor_moved s) (se_capture s)
    (se_dirty s) (se_sent s).

Definition put_order (count : Z) (order : list Z) (s : windowd_session) : windowd_session :=
  mk_session (se_info s) (se_native s) (se_kind s) (se_active_slot s) (se_fullscreen_slot s) count order
    (se_desktop s) (se_overlays s) (se_resize s) (se_switcher_open s) (se_switcher_selected s) (se_consent s)
    (se_hotkeys s) (se_hotkey_held s) (se_shape s) (se_previous_shape s) (se_cursor_moved s) (se_capture s)
    (se_dirty s) (se_sent s).

Definition put_overlays (l : list windowd_client) (s : windowd_session) : windowd_session :=
  mk_session (se_info s) (se_native s) (se_kind s) (se_active_slot s) (se_fullscreen_slot s) (se_count s)
    (se_order s) (se_desktop s) l (se_resize s) (se_switcher_open s) (se_switcher_selected s) (se_consent s)
    (se_hotkeys s) (se_hotkey_held s) (se_shape s) (se_previous_shape s) (se_cursor_moved s) (se_capture s)
    (se_dirty s) (se_sent s).

Definition put_switcher (open : bool) (selected : Z) (s : windowd_session) : windowd_session :=
  mk_session (se_info s) (se_native s) (se_kind s) (se_active_slot s) (se_fullscreen_slot s) (se_count s)
    (se_order s) (se_desktop s) (se_overlays s) (se_resize s) open selected (se_consent s) (se_hotkeys s)
    (se_hotkey_held s) (se_shape s) (se_previous_shape s) (se_cursor_moved s) (se_capture s) (se_dirty s)
    (se_sent s).

Definition put_dirty (r : sx_region) (s : windowd_session) : windowd_session :=
  mk_session (se_info s) (se_native s) (se_kind s) (se_active_slot s) (se_fullscreen_slot s) (se_count s)
    (se_order s) (se_desktop s) (se_overlays s) (se_resize s) (se_switcher_open s) (se_switcher_selected s)
    (se_consent s) (se_hotkeys s) (se_hotkey_held s) (se_shape s) (se_previous_shape s) (se_cursor_moved s)
    (se_capture s) r (se_sent s).

Definition put_close (close_requested_ms : Z) (not_responding : bool) (c : windowd_client) : windowd_client :=
  mk_wclient (wc_pid c) (wc_reserved_pid c) (wc_owner_slot c) (wc_window_id c) (wc_role c) (wc_role_flags c)
    (wc_presentation c) (wc_cursor_hint c) (wc_events c) (wc_native_input c) (wc_dismiss_requested c)
    close_requested_ms not_responding (wc_surface_id c) (wc_started c) (wc_header c) (wc_pixels c) (wc_info c)
    (wc_x c) (wc_y c) (wc_width c) (wc_height c) (wc_restore c) (wc_frame_visible c) (wc_minimized c)
    (wc_maximized c) (wc_active c) (wc_fullscreen_capable c) (wc_fullscreen c) (wc_fs_x c) (wc_fs_y c)
    (wc_fs_frame_visible c) (wc_fs_maximized c)
    (wc_path c) (wc_hint c) (wc_list c).

Definition put_dismissed (header : option client_header) (b : bool) (c : windowd_client) : windowd_client :=
  mk_wclient (wc_pid c) (wc_reserved_pid c) (wc_owner_slot c) (wc_window_id c) (wc_role c) (wc_role_flags c)
    (wc_presentation c) (wc_cursor_hint c) (wc_events c) (wc_native_input c) b (wc_close_requested_ms c)
    (wc_not_responding c) (wc_surface_id c) (wc_started c) header (wc_pixels c) (wc_info c) (wc_x c) (wc_y c)
    (wc_width c) (wc_height c) (wc_restore c) (wc_frame_visible c) (wc_minimized c) (wc_maximized c)
    (wc_active c) (wc_fullscreen_capable c) (wc_fullscreen c) (wc_fs_x c) (wc_fs_y c) (wc_fs_frame_visible c)
    (wc_fs_maximized c)
    (wc_path c) (wc_hint c) (wc_list c).

Definition put_desktop (l : list windowd_client) (s : windowd_session) : windowd_session :=
  mk_session (se_info s) (se_native s) (se_kind s) (se_active_slot s) (se_fullscreen_slot s) (se_count s)
    (se_order s) l (se_overlays s) (se_resize s) (se_switcher_open s) (se_switcher_selected s) (se_consent s)
    (se_hotkeys s) (se_hotkey_held s) (se_shape s) (se_previous_shape s) (se_cursor_moved s) (se_capture s)
    (se_dirty s) (se_sent s).

Definition put_resize (r : resize_state) (s : windowd_session) : windowd_session :=
  mk_session (se_info s) (se_native s) (se_kind s) (se_active_slot s) (se_fullscreen_slot s) (se_count s)
    (se_order s) (se_desktop s) (se_overlays s) r (se_switcher_open s) (se_switcher_selected s) (se_consent s)
    (se_hotkeys s) (se_hotkey_held s) (se_shape s) (se_previous_shape s) (se_cursor_moved s) (se_capture s)
    (se_dirty s) (se_sent s).

Definition put_consent (p : windowd_consent) (s : windowd_session) : windowd_session :=
  mk_session (se_info s) (se_native s) (se_kind s) (se_active_slot s) (se_fullscreen_slot s) (se_count s)
    (se_order s) (se_desktop s) (se_overlays s) (se_resize s) (se_switcher_open s) (se_switcher_selected s) p
    (se_hotkeys s) (se_hotkey_held s) (se_shape s) (se_previous_shape s) (se_cursor_moved s) (se_capture s)
    (se_dirty s) (se_sent s).

Definition put_hotkeys (l : list (Z * Z)) (held : Z) (s : windowd_session) : windowd_session :=
  mk_session (se_info s) (se_native s) (se_kind s) (se_active_slot s) (se_fullscreen_slot s) (se_count s)
    (se_order s) (se_desktop s) (se_overlays s) (se_resize s) (se_switcher_open s) (se_switcher_selected s)
    (se_consent s) l held (se_shape s) (se_previous_shape s) (se_cursor_moved s) (se_capture s) (se_dirty s)
    (se_sent s).

Definition put_cursor (shape previous : Z) (moved : bool) (s : windowd_session) : windowd_session :=
  mk_session (se_info s) (se_native s) (se_kind s) (se_active_slot s) (se_fullscreen_slot s) (se_count s)
    (se_order s) (se_desktop s) (se_overlays s) (se_resize s) (se_switcher_open s) (se_switcher_selected s)
    (se_consent s) (se_hotkeys s) (se_hotkey_held s) shape previous moved (se_capture s) (se_dirty s)
    (se_sent s).

Definition put_capture (cap : capture_state) (s : windowd_session) : windowd_session :=
  mk_session (se_info s) (se_native s) (se_kind s) (se_active_slot s) (se_fullscreen_slot s) (se_count s)
    (se_order s) (se_desktop s) (se_overlays s) (se_resize s) (se_switcher_open s) (se_switcher_selected s)
    (se_consent s) (se_hotkeys s) (se_hotkey_held s) (se_shape s) (se_previous_shape s) (se_cursor_moved s) cap
    (se_dirty s) (se_sent s).

Definition put_sent (l : list (place * wm_event)) (s : windowd_session) : windowd_session :=
  mk_session (se_info s) (se_native s) (se_kind s) (se_active_slot s) (se_fullscreen_slot s) (se_count s)
    (se_order s) (se_desktop s) (se_overlays s) (se_resize s) (se_switcher_open s) (se_switcher_selected s)
    (se_consent s) (se_hotkeys s) (se_hotkey_held s) (se_shape s) (se_previous_shape s) (se_cursor_moved s)
    (se_capture s) (se_dirty s) l.

Definition put_identity (pid owner_slot window_id : Z) (c : windowd_client) : windowd_client :=
  mk_wclient pid (wc_reserved_pid c) owner_slot window_id (wc_role c) (wc_role_flags c) (wc_presentation c)
    (wc_cursor_hint c) (wc_events c) (wc_native_input c) (wc_dismiss_requested c) (wc_close_requested_ms c)
    (wc_not_responding c) (wc_surface_id c) (wc_started c) (wc_header c) (wc_pixels c) (wc_info c) (wc_x c)
    (wc_y c) (wc_width c) (wc_height c) (wc_restore c) (wc_frame_visible c) (wc_minimized c) (wc_maximized c)
    (wc_active c) (wc_fullscreen_capable c) (wc_fullscreen c) (wc_fs_x c) (wc_fs_y c) (wc_fs_frame_visible c)
    (wc_fs_maximized c)
    (wc_path c) (wc_hint c) (wc_list c).

Definition put_role (role role_flags : Z) (presentation : windowd_presentation) (c : windowd_client) : windowd_client :=
  mk_wclient (wc_pid c) (wc_reserved_pid c) (wc_owner_slot c) (wc_window_id c) role role_flags presentation
    (wc_cursor_hint c) (wc_events c) (wc_native_input c) (wc_dismiss_requested c) (wc_close_requested_ms c)
    (wc_not_responding c) (wc_surface_id c) (wc_started c) (wc_header c) (wc_pixels c) (wc_info c) (wc_x c)
    (wc_y c) (wc_width c) (wc_height c) (wc_restore c) (wc_frame_visible c) (wc_minimized c) (wc_maximized c)
    (wc_active c) (wc_fullscreen_capable c) (wc_fullscreen c) (wc_fs_x c) (wc_fs_y c) (wc_fs_frame_visible c)
    (wc_fs_maximized c)
    (wc_path c) (wc_hint c) (wc_list c).

Definition put_channels (events native_input : bool) (surface_id : Z) (c : windowd_client) : windowd_client :=
  mk_wclient (wc_pid c) (wc_reserved_pid c) (wc_owner_slot c) (wc_window_id c) (wc_role c) (wc_role_flags c)
    (wc_presentation c) (wc_cursor_hint c) events native_input (wc_dismiss_requested c)
    (wc_close_requested_ms c) (wc_not_responding c) surface_id (wc_started c) (wc_header c) (wc_pixels c)
    (wc_info c) (wc_x c) (wc_y c) (wc_width c) (wc_height c) (wc_restore c) (wc_frame_visible c)
    (wc_minimized c) (wc_maximized c) (wc_active c) (wc_fullscreen_capable c) (wc_fullscreen c) (wc_fs_x c)
    (wc_fs_y c) (wc_fs_frame_visible c) (wc_fs_maximized c)
    (wc_path c) (wc_hint c) (wc_list c).

Definition put_reserved (reserved_pid : Z) (c : windowd_client) : windowd_client :=
  mk_wclient (wc_pid c) reserved_pid (wc_owner_slot c) (wc_window_id c) (wc_role c) (wc_role_flags c)
    (wc_presentation c) (wc_cursor_hint c) (wc_events c) (wc_native_input c) (wc_dismiss_requested c)
    (wc_close_requested_ms c) (wc_not_responding c) (wc_surface_id c) (wc_started c) (wc_header c) (wc_pixels c)
    (wc_info c) (wc_x c) (wc_y c) (wc_width c) (wc_height c) (wc_restore c) (wc_frame_visible c)
    (wc_minimized c) (wc_maximized c) (wc_active c) (wc_fullscreen_capable c) (wc_fullscreen c) (wc_fs_x c)
    (wc_fs_y c) (wc_fs_frame_visible c) (wc_fs_maximized c)
    (wc_path c) (wc_hint c) (wc_list c).

Definition put_capable (b : bool) (c : windowd_client) : windowd_client :=
  mk_wclient (wc_pid c) (wc_reserved_pid c) (wc_owner_slot c) (wc_window_id c) (wc_role c) (wc_role_flags c)
    (wc_presentation c) (wc_cursor_hint c) (wc_events c) (wc_native_input c) (wc_dismiss_requested c)
    (wc_close_requested_ms c) (wc_not_responding c) (wc_surface_id c) (wc_started c) (wc_header c) (wc_pixels c)
    (wc_info c) (wc_x c) (wc_y c) (wc_width c) (wc_height c) (wc_restore c) (wc_frame_visible c)
    (wc_minimized c) (wc_maximized c) (wc_active c) b (wc_fullscreen c) (wc_fs_x c) (wc_fs_y c)
    (wc_fs_frame_visible c) (wc_fs_maximized c)
    (wc_path c) (wc_hint c) (wc_list c).

Definition put_started (b : bool) (c : windowd_client) : windowd_client :=
  mk_wclient (wc_pid c) (wc_reserved_pid c) (wc_owner_slot c) (wc_window_id c) (wc_role c) (wc_role_flags c)
    (wc_presentation c) (wc_cursor_hint c) (wc_events c) (wc_native_input c) (wc_dismiss_requested c)
    (wc_close_requested_ms c) (wc_not_responding c) (wc_surface_id c) b (wc_header c) (wc_pixels c) (wc_info c)
    (wc_x c) (wc_y c) (wc_width c) (wc_height c) (wc_restore c) (wc_frame_visible c) (wc_minimized c)
    (wc_maximized c) (wc_active c) (wc_fullscreen_capable c) (wc_fullscreen c) (wc_fs_x c) (wc_fs_y c)
    (wc_fs_frame_visible c) (wc_fs_maximized c)
    (wc_path c) (wc_hint c) (wc_list c).

Definition put_presentation (presentation : windowd_presentation) (c : windowd_client) : windowd_client :=
  put_role (wc_role c) (wc_role_flags c) presentation c.

(** The path, what is kept of the hints, the cursor asked for, and the list it reads. *)
Definition put_shared (path : list Z) (hint : hint_state) (cursor_hint : Z) (windows : option savanxp_wm_window_list)
    (c : windowd_client) : windowd_client :=
  mk_wclient (wc_pid c) (wc_reserved_pid c) (wc_owner_slot c) (wc_window_id c) (wc_role c) (wc_role_flags c)
    (wc_presentation c) cursor_hint (wc_events c) (wc_native_input c) (wc_dismiss_requested c)
    (wc_close_requested_ms c) (wc_not_responding c) (wc_surface_id c) (wc_started c) (wc_header c) (wc_pixels c)
    (wc_info c) (wc_x c) (wc_y c) (wc_width c) (wc_height c) (wc_restore c) (wc_frame_visible c)
    (wc_minimized c) (wc_maximized c) (wc_active c) (wc_fullscreen_capable c) (wc_fullscreen c) (wc_fs_x c)
    (wc_fs_y c) (wc_fs_frame_visible c) (wc_fs_maximized c) path hint windows.

Definition put_path (path : list Z) (c : windowd_client) : windowd_client :=
  put_shared path (wc_hint c) (wc_cursor_hint c) (wc_list c) c.
Definition put_hint (hint : hint_state) (c : windowd_client) : windowd_client :=
  put_shared (wc_path c) hint (wc_cursor_hint c) (wc_list c) c.
Definition put_list (windows : option savanxp_wm_window_list) (c : windowd_client) : windowd_client :=
  put_shared (wc_path c) (wc_hint c) (wc_cursor_hint c) windows c.

(** The style of a window. *)
Definition wc_window_flags (c : windowd_client) : Z := pr_window_flags (wc_presentation c).

(** A client after [reset_client]: zeroed, without an owner. *)
Definition reset_client : windowd_client :=
  mk_wclient 0 0 (-1) 0 0 0 presentation0 0 false false false 0 false 0 false None None info0 0 0 0 0 (mk_rect 0 0 0 0)
    false false false false false false 0 0 false false [] hint0 None.

Definition overlay (s : windowd_session) (slot : Z) : windowd_client := at_ reset_client (se_overlays s) slot.
Definition desktop_window (s : windowd_session) (index : Z) : windowd_client := at_ reset_client (se_desktop s) index.
Definition put_overlay (slot : Z) (c : windowd_client) (s : windowd_session) : windowd_session :=
  put_overlays (set_at (se_overlays s) slot c) s.
Definition order_at (s : windowd_session) (index : Z) : Z := at_ (-1) (se_order s) index.

(** ** Layout (windowd_layout.c) *)

Definition windowd_clamp_int (value minimum maximum : Z) : Z :=
  if value <? minimum then minimum else if value >? maximum then maximum else value.

Definition windowd_point_in_rect (x y rect_x rect_y rect_w rect_h : Z) : bool :=
  (x >=? rect_x) && (y >=? rect_y) && (x <? rect_x + rect_w) && (y <? rect_y + rect_h).

Definition windowd_rects_intersect (left_x left_y left_w left_h right_x right_y right_w right_h : Z) : bool :=
  (left_x <? right_x + right_w) && (right_x <? left_x + left_w) &&
  (left_y <? right_y + right_h) && (right_y <? left_y + left_h).

Definition windowd_work_area_bounds (info : fb_info) : sx_rect :=
  mk_rect 0 0 (fb_width info) (fb_height info).

Definition windowd_maximize_area_bounds (info : fb_info) (reserved_top reserved_bottom : Z) : sx_rect :=
  let area := windowd_work_area_bounds info in
  let height := rh area - (reserved_top + reserved_bottom) in
  mk_rect (rx area) (ry area + reserved_top) (rw area) (if height <? 0 then 0 else height).

Definition windowd_fill_shell_surface_info (display_info : fb_info) (capacity_width capacity_height : Z) : fb_info :=
  let area := windowd_work_area_bounds display_info in
  let capacity_width := if capacity_width <? u32 (rw area) then u32 (rw area) else capacity_width in
  let capacity_height := if capacity_height <? u32 (rh area) then u32 (rh area) else capacity_height in
  let pitch := u32 (capacity_width * 4) in
  mk_info (u32 (rw area)) (u32 (rh area)) pitch (fb_bpp display_info) (u32 (pitch * capacity_height)).

Definition windowd_fill_overlay_surface_info (display_info : fb_info) : fb_info :=
  let area := windowd_work_area_bounds display_info in
  let target_width := rw area - 160 in
  let target_height := rh area - 140 in
  let target_width := if target_width >? 1280 then 1280 else target_width in
  let target_height := if target_height >? 900 then 900 else target_height in
  let target_width := if target_width <? 480 then (if rw area >? 480 then 480 else rw area) else target_width in
  let target_height := if target_height <? 320 then (if rh area >? 320 then 320 else rh area) else target_height in
  let pitch := u32 (rw area * 4) in
  mk_info (u32 target_width) (u32 target_height) pitch 32 (u32 (pitch * u32 (rh area))).

Definition windowd_center_overlay_window (display_info surface_info : fb_info) : sx_rect :=
  let area := windowd_work_area_bounds display_info in
  let frame_width := fb_width surface_info + WINDOWD_WINDOW_BORDER * 2 in
  let frame_height := fb_height surface_info + WINDOWD_WINDOW_TITLEBAR_HEIGHT + WINDOWD_WINDOW_BORDER in
  let x := rx area + (rw area - frame_width) ÷ 2 in
  let y := ry area + (rh area - frame_height) ÷ 2 in
  let x := if x <? rx area + 24 then rx area + 24 else x in
  let y := if y <? ry area + 24 then ry area + 24 else y in
  mk_rect x y frame_width frame_height.

Definition windowd_place_overlay_window (display_info surface_info : fb_info) (cascade_index : Z) : sx_rect :=
  let r := windowd_center_overlay_window display_info surface_info in
  let area := windowd_work_area_bounds display_info in
  let cascade_index := if cascade_index <? 0 then 0 else cascade_index in
  let x := rx r + cascade_index mod WINDOWD_MAX_OVERLAY_CLIENTS * 28 in
  let y := ry r + cascade_index mod WINDOWD_MAX_OVERLAY_CLIENTS * 24 in
  let x := if x + rw r >? rx area + rw area - 16 then rx area + rw area - rw r - 16 else x in
  let y := if y + rh r >? ry area + rh area - 16 then ry area + rh area - rh r - 16 else y in
  let x := if x <? rx area + 12 then rx area + 12 else x in
  let y := if y <? ry area + 12 then ry area + 12 else y in
  mk_rect x y (rw r) (rh r).

Definition windowd_client_surface_rect (c : windowd_client) : sx_rect :=
  if wc_pid c <=? 0 then sx_rect_make 0 0 0 0
  else if negb (wc_frame_visible c) then
    sx_rect_make (wc_x c) (wc_y c)
      (if wc_width c >? 0 then wc_width c else fb_width (wc_info c))
      (if wc_height c >? 0 then wc_height c else fb_height (wc_info c))
  else
    sx_rect_make (wc_x c + WINDOWD_WINDOW_BORDER) (wc_y c + WINDOWD_WINDOW_TITLEBAR_HEIGHT)
      (fb_width (wc_info c)) (fb_height (wc_info c)).

Definition windowd_client_frame_rect (c : windowd_client) : sx_rect :=
  if wc_pid c <=? 0 then sx_rect_make 0 0 0 0
  else if negb (wc_frame_visible c) then windowd_client_surface_rect c
  else sx_rect_make (wc_x c) (wc_y c) (wc_width c) (wc_height c).

Definition windowd_client_titlebar_rect (c : windowd_client) : sx_rect :=
  if (wc_pid c <=? 0) || negb (wc_frame_visible c) then sx_rect_make 0 0 0 0
  else
    let frame := windowd_client_frame_rect c in
    sx_rect_make (rx frame + 2) (ry frame + 2) (rw frame - 4) (WINDOWD_WINDOW_TITLEBAR_HEIGHT - 4).

Definition windowd_client_minimize_button_rect (c : windowd_client) : sx_rect :=
  if (wc_pid c <=? 0) || negb (wc_frame_visible c) || (wc_owner_slot c >=? 0) then sx_rect_make 0 0 0 0
  else
    let bar := windowd_client_titlebar_rect c in
    if (rw bar <? WINDOWD_WINDOW_BUTTON_WIDTH * 3 + WINDOWD_WINDOW_BUTTON_GAP * 2 + 8)
       || (rh bar <? WINDOWD_WINDOW_BUTTON_HEIGHT) then sx_rect_make 0 0 0 0
    else
      sx_rect_make (rx bar + rw bar - WINDOWD_WINDOW_BUTTON_WIDTH * 3 - WINDOWD_WINDOW_BUTTON_GAP * 2 - 2)
        (ry bar + (rh bar - WINDOWD_WINDOW_BUTTON_HEIGHT) ÷ 2)
        WINDOWD_WINDOW_BUTTON_WIDTH WINDOWD_WINDOW_BUTTON_HEIGHT.

Definition windowd_client_maximize_button_rect (c : windowd_client) : sx_rect :=
  let minimize := windowd_client_minimize_button_rect c in
  if sx_rect_is_empty minimize then sx_rect_make 0 0 0 0
  else
    sx_rect_make (rx minimize + WINDOWD_WINDOW_BUTTON_WIDTH + WINDOWD_WINDOW_BUTTON_GAP) (ry minimize)
      WINDOWD_WINDOW_BUTTON_WIDTH WINDOWD_WINDOW_BUTTON_HEIGHT.

Definition windowd_client_close_button_rect (c : windowd_client) : sx_rect :=
  if (wc_pid c <=? 0) || negb (wc_frame_visible c) then sx_rect_make 0 0 0 0
  else
    let bar := windowd_client_titlebar_rect c in
    if (rw bar <? WINDOWD_WINDOW_BUTTON_WIDTH) || (rh bar <? WINDOWD_WINDOW_BUTTON_HEIGHT) then sx_rect_make 0 0 0 0
    else
      sx_rect_make (rx bar + rw bar - WINDOWD_WINDOW_BUTTON_WIDTH - 2)
        (ry bar + (rh bar - WINDOWD_WINDOW_BUTTON_HEIGHT) ÷ 2)
        WINDOWD_WINDOW_BUTTON_WIDTH WINDOWD_WINDOW_BUTTON_HEIGHT.

Definition windowd_point_in_client (c : windowd_client) (x y : Z) : bool :=
  sx_rect_contains_point (windowd_client_surface_rect c) x y.
Definition windowd_point_in_frame (c : windowd_client) (x y : Z) : bool :=
  sx_rect_contains_point (windowd_client_frame_rect c) x y.
Definition windowd_point_in_titlebar (c : windowd_client) (x y : Z) : bool :=
  sx_rect_contains_point (windowd_client_titlebar_rect c) x y.
Definition windowd_point_in_minimize_button (c : windowd_client) (x y : Z) : bool :=
  sx_rect_contains_point (windowd_client_minimize_button_rect c) x y.
Definition windowd_point_in_maximize_button (c : windowd_client) (x y : Z) : bool :=
  sx_rect_contains_point (windowd_client_maximize_button_rect c) x y.
Definition windowd_point_in_close_button (c : windowd_client) (x y : Z) : bool :=
  sx_rect_contains_point (windowd_client_close_button_rect c) x y.

Definition windowd_client_fixed_size (c : windowd_client) : bool :=
  has_flag (wc_window_flags c) SAVANXP_WM_WINDOW_STYLE_FIXED_SIZE.

Definition windowd_resize_edge_from_point (c : windowd_client) (x y : Z) : Z :=
  if (wc_pid c <=? 0) || negb (wc_frame_visible c) || wc_maximized c || wc_fullscreen c || wc_minimized c
     || windowd_client_fixed_size c then WINDOWD_RESIZE_EDGE_NONE
  else
    let frame := windowd_client_frame_rect c in
    if negb (sx_rect_contains_point frame x y) then WINDOWD_RESIZE_EDGE_NONE
    else
      let edges := WINDOWD_RESIZE_EDGE_NONE in
      let edges :=
        if x <? rx frame + WINDOWD_RESIZE_BORDER then Z.lor edges WINDOWD_RESIZE_EDGE_LEFT
        else if x >=? sx_rect_right frame - WINDOWD_RESIZE_BORDER then Z.lor edges WINDOWD_RESIZE_EDGE_RIGHT
        else edges in
      if y <? ry frame + WINDOWD_RESIZE_BORDER then Z.lor edges WINDOWD_RESIZE_EDGE_TOP
      else if y >=? sx_rect_bottom frame - WINDOWD_RESIZE_BORDER then Z.lor edges WINDOWD_RESIZE_EDGE_BOTTOM
      else edges.

(** The position a frame is moved to. *)
Definition windowd_clamp_overlay_frame_position (display_info : fb_info) (frame_width frame_height x y : Z) : Z * Z :=
  let area := windowd_work_area_bounds display_info in
  let max_x := rx area + rw area - frame_width in
  let max_y := ry area + rh area - frame_height in
  let max_x := if max_x <? rx area then rx area else max_x in
  let max_y := if max_y <? ry area then ry area else max_y in
  (windowd_clamp_int x (rx area) max_x, windowd_clamp_int y (ry area) max_y).

(** A slot of the order that holds a task. *)
Definition is_task (s : windowd_session) (slot : Z) : bool :=
  (slot >=? 0) && (slot <? WINDOWD_MAX_OVERLAY_CLIENTS) && (wc_pid (overlay s slot) >? 0) &&
  (wc_owner_slot (overlay s slot) <? 0).

Definition windowd_task_count (s : windowd_session) : Z :=
  for_z 0 (se_count s) (fun index count => if is_task s (order_at s index) then count + 1 else count) 0.

(** The slot of a task: [Some] where the source returns its client. *)
Definition windowd_task_client (s : windowd_session) (index : Z) : option Z :=
  if index <? 0 then None
  else
    (fix find (slots : list Z) (task_index : Z) : option Z :=
       match slots with
       | [] => None
       | slot :: rest =>
           if negb (is_task s slot) then find rest task_index
           else if task_index =? index then Some slot
           else find rest (task_index + 1)
       end) (take (Z.to_nat (se_count s)) (se_order s)) 0.

Definition windowd_switcher_rect (info : fb_info) : sx_rect :=
  let width := if WINDOWD_SWITCHER_WIDTH >? fb_width info then fb_width info else WINDOWD_SWITCHER_WIDTH in
  sx_rect_make ((fb_width info - width) ÷ 2) ((fb_height info - WINDOWD_SWITCHER_HEIGHT) ÷ 2)
    width WINDOWD_SWITCHER_HEIGHT.

(** ** Damage (windowd_render.c) *)

(** [None]: nothing of the rectangle is on the display. *)
Definition clip_rect_to_framebuffer (info : fb_info) (rect : sx_rect) : option sx_rect :=
  if (rw rect <=? 0) || (rh rect <=? 0) then None
  else
    let rect := if rx rect <? 0 then mk_rect 0 (ry rect) (rw rect + rx rect) (rh rect) else rect in
    let rect := if ry rect <? 0 then mk_rect (rx rect) 0 (rw rect) (rh rect + ry rect) else rect in
    if (rw rect <=? 0) || (rh rect <=? 0) || (rx rect >=? fb_width info) || (ry rect >=? fb_height info) then None
    else
      let rect := if sx_rect_right rect >? fb_width info
                  then mk_rect (rx rect) (ry rect) (fb_width info - rx rect) (rh rect) else rect in
      let rect := if sx_rect_bottom rect >? fb_height info
                  then mk_rect (rx rect) (ry rect) (rw rect) (fb_height info - ry rect) else rect in
      if (rw rect >? 0) && (rh rect >? 0) then Some rect else None.

Definition windowd_dirty_rect_add (x y width height : Z) (s : windowd_session) : windowd_session :=
  match clip_rect_to_framebuffer (se_info s) (sx_rect_make x y width height) with
  | None => s
  | Some rect => put_dirty (sx_region_union_rect (se_dirty s) rect) s
  end.
Definition dirty_rect (r : sx_rect) (s : windowd_session) : windowd_session :=
  windowd_dirty_rect_add (rx r) (ry r) (rw r) (rh r) s.

Definition windowd_dirty_rect_add_fullscreen (s : windowd_session) : windowd_session :=
  windowd_dirty_rect_add 0 0 (fb_width (se_info s)) (fb_height (se_info s)) s.

Definition windowd_dirty_rect_add_client (c : windowd_client) (s : windowd_session) : windowd_session :=
  if wc_pid c <=? 0 then s
  else
    put_dirty (sx_region_union_rect (se_dirty s)
      (if wc_frame_visible c then windowd_client_frame_rect c else windowd_client_surface_rect c)) s.

(** ** Stacking and focus (windowd.c) *)

Definition overlay_slot_valid (slot : Z) : bool := (slot >=? 0) && (slot <? WINDOWD_MAX_OVERLAY_CLIENTS).

Definition find_free_overlay_slot (s : windowd_session) : Z :=
  default (-1) (list_find (fun slot => (wc_pid (overlay s slot) <=? 0) && (wc_reserved_pid (overlay s slot) <=? 0) = true)
                  (seqZ 0 WINDOWD_MAX_OVERLAY_CLIENTS) ≫= fun p => Some (snd p)).

(** The shift that closes the gap at [index]. *)
Definition shift_order (index count : Z) (order : list Z) : list Z :=
  for_z index (count - 1) (fun i order => set_at order i (at_ (-1) order (i + 1))) order.

(** The loop up to the slot: [None] when it is not in the order. *)
Definition order_index (s : windowd_session) (slot : Z) : option Z :=
  fmap (fun p => Z.of_nat (fst p)) (list_find (fun k => k = slot) (take (Z.to_nat (se_count s)) (se_order s))).

Definition remove_overlay_from_order (slot : Z) (s : windowd_session) : windowd_session :=
  if negb (overlay_slot_valid slot) then s
  else
    match order_index s slot with
    | None => s
    | Some index =>
        put_order (se_count s - 1) (set_at (shift_order index (se_count s) (se_order s)) (se_count s - 1) (-1)) s
    end.

Definition append_overlay_to_order (slot : Z) (s : windowd_session) : windowd_session :=
  if negb (overlay_slot_valid slot) then s
  else
    let s := remove_overlay_from_order slot s in
    if se_count s >=? WINDOWD_MAX_OVERLAY_CLIENTS then s
    else put_order (se_count s + 1) (set_at (se_order s) (se_count s) slot) s.

Definition overlay_client_visible (c : windowd_client) : bool := (wc_pid c >? 0) && negb (wc_minimized c).

(** The slots of the order, top first. *)
Definition top_down (s : windowd_session) : list Z := rev (take (Z.to_nat (se_count s)) (se_order s)).

Definition first_slot (p : Z -> bool) (slots : list Z) : option Z :=
  fmap snd (list_find (fun slot => p slot = true) slots).

Definition top_visible_overlay_slot (s : windowd_session) : Z :=
  default (-1) (first_slot (fun slot => (slot >=? 0) && (slot <? WINDOWD_MAX_OVERLAY_CLIENTS) &&
                              overlay_client_visible (overlay s slot)) (top_down s)).

(** The loop that sets [active] in every slot. *)
Definition mark_active (s : windowd_session) : windowd_session :=
  for_z 0 WINDOWD_MAX_OVERLAY_CLIENTS (fun slot s =>
    let c := overlay s slot in
    put_overlay slot (put_active (overlay_client_visible c && bool_decide (se_kind s = ClientApp) &&
                                  (slot =? se_active_slot s)) c) s) s.

Definition refresh_active_state (s : windowd_session) : windowd_session :=
  let active_slot :=
    if negb (overlay_slot_valid (se_active_slot s)) || negb (overlay_client_visible (overlay s (se_active_slot s)))
    then -1 else se_active_slot s in
  let s := put_focus (se_kind s) active_slot s in
  let visible_slot := top_visible_overlay_slot s in
  let s :=
    if bool_decide (se_kind s = ClientDesktop) && (wc_pid (desktop_window s 0) >? 0)
    then put_focus (se_kind s) (-1) s
    else if negb (bool_decide (se_kind s = ClientApp)) || (se_active_slot s <? 0)
    then put_focus (if visible_slot >=? 0 then ClientApp else ClientNone) visible_slot s
    else s in
  mark_active s.

Definition desktop_reserved_strips (s : windowd_session) : Z * Z :=
  for_z 1 WINDOWD_DESKTOP_WINDOW_COUNT (fun index '(top, bottom) =>
    let c := desktop_window s index in
    if (wc_pid c <=? 0) || negb (wc_role c =? WINDOWD_ROLE_PANEL) then (top, bottom)
    else if has_flag (wc_role_flags c) SAVANXP_WM_PANEL_EDGE_TOP then (top + wc_height c, bottom)
    else (top, bottom + wc_height c)) (0, 0).

Definition overlay_client_owned (c : windowd_client) : bool := wc_owner_slot c >=? 0.

Definition overlay_root_slot (s : windowd_session) (slot : Z) : Z :=
  if negb (overlay_slot_valid slot) || negb (overlay_slot_valid (wc_owner_slot (overlay s slot))) then slot
  else wc_owner_slot (overlay s slot).

Definition owned_window_slot (s : windowd_session) (owner_slot window_id : Z) : Z :=
  if negb (overlay_slot_valid owner_slot) then -1
  else
    default (-1) (first_slot (fun slot =>
      let c := overlay s slot in
      (wc_pid c >? 0) && (wc_owner_slot c =? owner_slot) && ((window_id =? 0) || (wc_window_id c =? window_id)))
      (seqZ 0 WINDOWD_MAX_OVERLAY_CLIENTS)).

Definition layout_display (s : windowd_session) : fb_info :=
  if negb (fb_width (se_native s) =? 0) && negb (fb_height (se_native s) =? 0) then se_native s else se_info s.

Definition owned_dialog_open (s : windowd_session) (owner_slot : Z) : bool :=
  existsb (fun slot => let c := overlay s slot in
    (wc_pid c >? 0) && (wc_owner_slot c =? owner_slot) && negb (wc_role c =? WINDOWD_ROLE_POPUP))
    (seqZ 0 WINDOWD_MAX_OVERLAY_CLIENTS).

(** [client] is the overlay client of [slot]. *)
Definition overlay_client_disabled (s : windowd_session) (slot : Z) : bool :=
  overlay_slot_valid slot && negb (overlay_client_owned (overlay s slot)) && owned_dialog_open s slot.

(** The loop over the windows a root owns. *)
Definition raise_owned (root : Z) (s : windowd_session) : windowd_session :=
  for_z 0 WINDOWD_MAX_OVERLAY_CLIENTS (fun child s =>
    let owned := overlay s child in
    if (wc_pid owned <=? 0) || negb (wc_owner_slot owned =? root) then s
    else
      let s := append_overlay_to_order child (put_overlay child (put_minimized false owned) s) in
      if negb (wc_role owned =? WINDOWD_ROLE_POPUP) then put_focus (se_kind s) child s else s) s.

Definition raise_overlay (slot : Z) (s : windowd_session) : windowd_session :=
  if negb (overlay_slot_valid slot) || (wc_pid (overlay s slot) <=? 0) then refresh_active_state s
  else
    let root := overlay_root_slot s slot in
    let s := put_overlay root (put_minimized false (overlay s root)) s in
    let s := append_overlay_to_order root s in
    let s := put_focus (se_kind s) root s in
    let s := raise_owned root s in
    let s :=
      if negb (slot =? root) then
        let s := append_overlay_to_order slot s in
        if negb (wc_role (overlay s slot) =? WINDOWD_ROLE_POPUP) then put_focus (se_kind s) slot s else s
      else s in
    refresh_active_state (put_focus ClientApp (se_active_slot s) s).

Definition client_of (s : windowd_session) (p : place) : windowd_client :=
  match p with Desktop index => desktop_window s index | Overlay slot => overlay s slot end.

Definition active_client (s : windowd_session) : option place :=
  if bool_decide (se_kind s = ClientApp) && overlay_slot_valid (se_active_slot s)
  then Some (Overlay (se_active_slot s)) else None.

Definition keyboard_client (s : windowd_session) : option place :=
  if bool_decide (se_kind s = ClientDesktop) && (wc_pid (desktop_window s 0) >? 0)
  then Some (Desktop 0) else active_client s.

Definition drag_overlay_slot_active (s : windowd_session) (slot : Z) : bool :=
  overlay_slot_valid slot && overlay_client_visible (overlay s slot).

Definition dirty_overlay_family (root : Z) (s : windowd_session) : windowd_session :=
  for_z 0 WINDOWD_MAX_OVERLAY_CLIENTS (fun slot s =>
    let c := overlay s slot in
    if (wc_pid c <=? 0) || (negb (slot =? root) && negb (wc_owner_slot c =? root)) then s
    else dirty_rect (windowd_client_frame_rect c) s) s.

(** The loop that minimizes the windows a root owns. *)
Definition minimize_owned (root : Z) (s : windowd_session) : windowd_session :=
  for_z 0 WINDOWD_MAX_OVERLAY_CLIENTS (fun child s =>
    let c := overlay s child in
    if (wc_pid c >? 0) && (wc_owner_slot c =? root) then put_overlay child (put_minimized true c) s else s) s.

Definition minimize_overlay_client (slot : Z) (s : windowd_session) : windowd_session :=
  let root := overlay_root_slot s slot in
  if negb (overlay_slot_valid root) || (wc_pid (overlay s root) <=? 0) || wc_minimized (overlay s root) then s
  else
    let s := dirty_overlay_family root s in
    let s := put_overlay root (put_minimized true (overlay s root)) s in
    refresh_active_state (minimize_owned root s).

Definition restore_overlay_client (slot : Z) (s : windowd_session) : windowd_session :=
  if negb (overlay_slot_valid slot) || (wc_pid (overlay s slot) <=? 0) then s
  else
    let s := raise_overlay slot s in
    dirty_overlay_family (overlay_root_slot s slot) s.
