(* ===== verification/WmInput.v ===== *)
(** * What the window manager does with the user's input (system/windowd)

    The operations on a window that change its size or its place, fullscreen,
    closing (windowd.c), the hit test, the keys the window manager keeps, the
    hotkeys of the desktop, the pointer ([handle_pointer_event], whole), the
    coalescing of mouse events, and the scene handed to the compositor
    (windowd_render.c).

    A call to compositord to change the mode, and the clock, are arguments:
    [answer] is the mode it replies with, [None] when it refuses. *)

From S2P Require Import Prelude Rect Region Painter Scene Consent Wm.

(** ** Size and place (windowd.c) *)

Definition client_surface_capacity_width (c : windowd_client) : Z := fb_pitch (wc_info c) / 4.
Definition client_surface_capacity_height (c : windowd_client) : Z :=
  if fb_pitch (wc_info c) =? 0 then 0 else fb_buffer_size (wc_info c) / fb_pitch (wc_info c).

(** The frame of a surface of this size: what [resize_overlay_client_surface]
    does to a window with a frame. *)
Definition fit_frame (display : fb_info) (surface_width surface_height : Z) (c : windowd_client) : windowd_client :=
  if negb (wc_frame_visible c) then c
  else
    let c := put_extent (surface_width + WINDOWD_WINDOW_BORDER * 2)
               (surface_height + WINDOWD_WINDOW_TITLEBAR_HEIGHT + WINDOWD_WINDOW_BORDER) c in
    let c := if negb (wc_maximized c)
             then put_restore (mk_rect (rx (wc_restore c)) (ry (wc_restore c)) (wc_width c) (wc_height c)) c else c in
    let '(x, y) := windowd_clamp_overlay_frame_position display (wc_width c) (wc_height c) (wc_x c) (wc_y c) in
    put_position x y c.

Definition resize_overlay_client_surface (slot surface_width surface_height : Z) (s : windowd_session) : windowd_session :=
  let c := overlay s slot in
  if negb (overlay_slot_valid slot) || (wc_pid c <=? 0) then s
  else
    let max_width := client_surface_capacity_width c in
    let max_height := client_surface_capacity_height c in
    if (max_width =? 0) || (max_height =? 0) then s
    else
      let surface_width := windowd_clamp_int surface_width 1 max_width in
      let surface_height := windowd_clamp_int surface_height 1 max_height in
      if (fb_width (wc_info c) =? surface_width) && (fb_height (wc_info c) =? surface_height) then s
      else
        let previous_frame := windowd_client_frame_rect c in
        let info := mk_info (u32 surface_width) (u32 surface_height) (fb_pitch (wc_info c)) (fb_bpp (wc_info c))
                      (fb_buffer_size (wc_info c)) in
        let header := fmap (fun h => mk_header (fb_width info) (fb_height info) (hd_shutdown h) (hd_capture h)) (wc_header c) in
        let c := put_surface header (fmap (map (fun _ => 0)) (wc_pixels c)) info c in
        let c := fit_frame (layout_display s) surface_width surface_height c in
        let s := put_overlay slot c s in
        dirty_rect (windowd_client_frame_rect c) (dirty_rect previous_frame s).

(** What maximizing or restoring does to the window, and the size its surface is
    asked for. *)
Definition toggle_maximized (s : windowd_session) (c : windowd_client) : windowd_client * (Z * Z) :=
  let target c := (wc_width c - WINDOWD_WINDOW_BORDER * 2, wc_height c - WINDOWD_WINDOW_TITLEBAR_HEIGHT - WINDOWD_WINDOW_BORDER) in
  if negb (wc_maximized c) then
    let c := put_restore (mk_rect (wc_x c) (wc_y c) (wc_width c) (wc_height c)) c in
    let '(reserved_top, reserved_bottom) := desktop_reserved_strips s in
    let area := windowd_maximize_area_bounds (layout_display s) reserved_top reserved_bottom in
    let c := put_extent (rw area) (rh area) (put_position (rx area) (ry area) c) in
    (put_maximized true c, target c)
  else if (rw (wc_restore c) >? 0) && (rh (wc_restore c) >? 0) then
    let r := wc_restore c in
    let c := put_extent (rw r) (rh r) (put_position (rx r) (ry r) c) in
    (put_maximized false c, target c)
  else (put_maximized false c, (0, 0)).

Definition toggle_overlay_client_maximized (slot : Z) (s : windowd_session) : windowd_session :=
  let c := overlay s slot in
  if negb (overlay_slot_valid slot) || (wc_pid c <=? 0) then s
  else
    let previous_frame := windowd_client_frame_rect c in
    let '(c, (target_width, target_height)) := toggle_maximized s c in
    let s := resize_overlay_client_surface slot target_width target_height (put_overlay slot c s) in
    let s := dirty_rect previous_frame s in
    let s := windowd_dirty_rect_add_client (overlay s slot) s in
    raise_overlay slot s.

Definition apply_overlay_client_frame (slot : Z) (frame : sx_rect) (s : windowd_session) : windowd_session :=
  let c := overlay s slot in
  if negb (overlay_slot_valid slot) || (wc_pid c <=? 0) || negb (wc_frame_visible c) then s
  else
    let previous_frame := windowd_client_frame_rect c in
    let c := put_position (rx frame) (ry frame) c in
    let c := put_restore (mk_rect (rx frame) (ry frame) (rw (wc_restore c)) (rh (wc_restore c))) c in
    let s := resize_overlay_client_surface slot (rw frame - WINDOWD_WINDOW_BORDER * 2)
               (rh frame - WINDOWD_WINDOW_TITLEBAR_HEIGHT - WINDOWD_WINDOW_BORDER) (put_overlay slot c s) in
    dirty_rect previous_frame s.

Definition resize_frame_for_drag (origin : sx_rect) (edges delta_x delta_y : Z) : sx_rect :=
  let frame := origin in
  let frame :=
    if has_flag edges WINDOWD_RESIZE_EDGE_LEFT then
      let right := sx_rect_right origin in
      let x := rx origin + delta_x in
      let x := if x >? right - WINDOWD_WINDOW_MIN_WIDTH then right - WINDOWD_WINDOW_MIN_WIDTH else x in
      mk_rect x (ry frame) (right - x) (rh frame)
    else if has_flag edges WINDOWD_RESIZE_EDGE_RIGHT then
      let width := rw origin + delta_x in
      mk_rect (rx frame) (ry frame) (if width <? WINDOWD_WINDOW_MIN_WIDTH then WINDOWD_WINDOW_MIN_WIDTH else width) (rh frame)
    else frame in
  if has_flag edges WINDOWD_RESIZE_EDGE_TOP then
    let bottom := sx_rect_bottom origin in
    let y := ry origin + delta_y in
    let y := if y >? bottom - WINDOWD_WINDOW_MIN_HEIGHT then bottom - WINDOWD_WINDOW_MIN_HEIGHT else y in
    mk_rect (rx frame) y (rw frame) (bottom - y)
  else if has_flag edges WINDOWD_RESIZE_EDGE_BOTTOM then
    let height := rh origin + delta_y in
    mk_rect (rx frame) (ry frame) (rw frame) (if height <? WINDOWD_WINDOW_MIN_HEIGHT then WINDOWD_WINDOW_MIN_HEIGHT else height)
  else frame.

(** [answer]: the mode in compositord's reply, or [None] when it refused.  It may
    be any mode: windowd takes the geometry of the reply, not the one it asked
    for (windowd_compositor_set_mode).  The session, and whether the mode is
    applied. *)
Definition apply_display_mode (width height : Z) (answer : option fb_info) (s : windowd_session) : windowd_session * bool :=
  if (width =? 0) || (height =? 0) then (s, false)
  else if (fb_width (se_info s) =? width) && (fb_height (se_info s) =? height) then (s, true)
  else match answer with
       | None => (s, false)
       | Some info => (put_info info s, true)
       end.

(** The session, and whether the window is in fullscreen. *)
Definition enter_overlay_fullscreen (slot : Z) (answer : option fb_info) (s : windowd_session) : windowd_session * bool :=
  let c := overlay s slot in
  if negb (overlay_slot_valid slot) || (wc_pid c <=? 0) then (s, false)
  else if negb (wc_fullscreen_capable c) || wc_fullscreen c || wc_minimized c || (se_fullscreen_slot s >=? 0) then (s, false)
  else
    let c := put_fs_restore (wc_x c) (wc_y c) (wc_frame_visible c) (wc_maximized c) c in
    let s := fst (apply_display_mode (fb_width (wc_info c)) (fb_height (wc_info c)) answer s) in
    let c := put_fullscreen true false false c in
    let c := put_extent (fb_width (se_info s)) (fb_height (se_info s)) (put_position 0 0 c) in
    let s := put_fullscreen_slot slot (put_overlay slot c s) in
    let s := raise_overlay slot s in
    (windowd_dirty_rect_add_fullscreen s, true).

Definition exit_overlay_fullscreen (answer : option fb_info) (s : windowd_session) : windowd_session :=
  let slot := se_fullscreen_slot s in
  if negb (overlay_slot_valid slot) then put_fullscreen_slot (-1) s
  else
    let c := overlay s slot in
    let s := put_fullscreen_slot (-1) s in
    let s := fst (apply_display_mode (fb_width (se_native s)) (fb_height (se_native s)) answer s) in
    let c := put_fullscreen false (wc_fs_frame_visible c) (wc_fs_maximized c) c in
    let c := put_position (wc_fs_x c) (wc_fs_y c) c in
    let c := put_extent
      (fb_width (wc_info c) + (if wc_frame_visible c then WINDOWD_WINDOW_BORDER * 2 else 0))
      (fb_height (wc_info c) + (if wc_frame_visible c then WINDOWD_WINDOW_TITLEBAR_HEIGHT + WINDOWD_WINDOW_BORDER else 0)) c in
    windowd_dirty_rect_add_fullscreen (put_overlay slot c s).

Definition move_overlay_client_window (slot window_x window_y : Z) (s : windowd_session) : windowd_session :=
  let c := overlay s slot in
  if negb (overlay_slot_valid slot) || (wc_pid c <=? 0) then s
  else
    let previous_frame := windowd_client_frame_rect c in
    let '(window_x, window_y) :=
      windowd_clamp_overlay_frame_position (layout_display s) (rw previous_frame) (rh previous_frame) window_x window_y in
    if (wc_x c =? window_x) && (wc_y c =? window_y) then s
    else
      let c := put_position window_x window_y c in
      dirty_rect (windowd_client_frame_rect c) (dirty_rect previous_frame (put_overlay slot c s)).

(** ** What is under a point *)

Definition top_overlay_client_at_point (s : windowd_session) (x y : Z) : option place :=
  fmap Overlay (first_slot (fun slot => overlay_slot_valid slot && overlay_client_visible (overlay s slot) &&
                                        windowd_point_in_frame (overlay s slot) x y) (top_down s)).

(** The desktop's windows, the last first. *)
Definition desktop_down : list Z := rev (seqZ 0 WINDOWD_DESKTOP_WINDOW_COUNT).

Definition top_desktop_window_at_point (s : windowd_session) (role x y : Z) : option place :=
  fmap Desktop (first_slot (fun index => let c := desktop_window s index in
    (wc_pid c >? 0) && (wc_role c =? role) && windowd_point_in_client c x y) desktop_down).

(** The first of two places. *)
Definition or_else (p q : option place) : option place := match p with Some _ => p | None => q end.

Definition top_client_at_point (s : windowd_session) (x y : Z) : option place :=
  let below := or_else (top_overlay_client_at_point s x y) (top_desktop_window_at_point s WINDOWD_ROLE_BACKGROUND x y) in
  if se_fullscreen_slot s <? 0 then
    or_else (top_desktop_window_at_point s WINDOWD_ROLE_POPUP x y)
      (or_else (top_desktop_window_at_point s WINDOWD_ROLE_PANEL x y) below)
  else below.

Definition any_overlay_client_starting (s : windowd_session) : bool :=
  existsb (fun slot => (wc_pid (overlay s slot) >? 0) && negb (wc_started (overlay s slot)))
    (seqZ 0 WINDOWD_MAX_OVERLAY_CLIENTS).

(** [overlay_client_disabled] of a client by where it lies: the desktop's are not
    overlay clients. *)
Definition place_disabled (s : windowd_session) (p : place) : bool :=
  match p with Desktop _ => false | Overlay slot => overlay_client_disabled s slot end.

Definition SAVANXP_CURSOR_ARROW : Z := 0.

Definition resolve_cursor_shape (s : windowd_session) (hover : option place) (x y : Z) (drag_active : bool) : Z :=
  if drag_active then SAVANXP_CURSOR_MOVE
  else if any_overlay_client_starting s then SAVANXP_CURSOR_WAIT
  else
    match hover with
    | None => SAVANXP_CURSOR_ARROW
    | Some p =>
        let edges := windowd_resize_edge_from_point (client_of s p) x y in
        if negb (edges =? WINDOWD_RESIZE_EDGE_NONE) then
          if negb (Z.land edges (Z.lor WINDOWD_RESIZE_EDGE_LEFT WINDOWD_RESIZE_EDGE_RIGHT) =? 0)
          then SAVANXP_CURSOR_RESIZE_H else SAVANXP_CURSOR_RESIZE_V
        else if negb (place_disabled s p) && windowd_point_in_client (client_of s p) x y
        then wc_cursor_hint (client_of s p)
        else SAVANXP_CURSOR_ARROW
    end.

(** ** Events to the clients *)

(** The event is offered to the client's ring or to its pipe; whether there is
    room is the client's, and no caller looks. *)
Definition route_event (p : place) (event : wm_event) (s : windowd_session) : windowd_session :=
  let c := client_of s p in
  if wc_native_input c || wc_events c then put_sent (se_sent s ++ [(p, event)]) s else s.

Definition route_key (p : option place) (key : savanxp_input_event) (s : windowd_session) : windowd_session :=
  match p with Some p => route_event p (EventKey key) s | None => s end.

Definition route_pointer (p : option place) (x y wheel buttons : Z) (s : windowd_session) : windowd_session :=
  match p with
  | None => s
  | Some p =>
      if negb (wc_events (client_of s p)) then s
      else let r := windowd_client_surface_rect (client_of s p) in
           route_event p (EventPointer (x - rx r) (y - ry r) wheel buttons) s
  end.

Definition route_pointer_motion (p : place) (dx dy wheel buttons : Z) (s : windowd_session) : windowd_session :=
  route_event p (EventMotion dx dy wheel buttons) s.

(** ** Tasks and closing *)

Definition repaint_activation_change (previous_active_slot : Z) (s : windowd_session) : windowd_session :=
  if se_active_slot s =? previous_active_slot then s
  else
    let s := if overlay_slot_valid previous_active_slot
             then windowd_dirty_rect_add_client (overlay s previous_active_slot) s else s in
    if overlay_slot_valid (se_active_slot s) then windowd_dirty_rect_add_client (overlay s (se_active_slot s)) s else s.

(** [slot] is valid. *)
Definition activate_task (slot : Z) (s : windowd_session) : windowd_session :=
  let s := if wc_minimized (overlay s slot) then restore_overlay_client slot s else s in
  windowd_dirty_rect_add_fullscreen (raise_overlay slot s).

(** The slot of a process's main window, by its pid as an unsigned number. *)
Definition resolve_window_id (s : windowd_session) (window_id : Z) : Z :=
  if window_id =? 0 then -1
  else default (-1) (first_slot (fun slot => let c := overlay s slot in
         (wc_pid c >? 0) && (wc_owner_slot c <? 0) && (u32 (wc_pid c) =? window_id)) (seqZ 0 WINDOWD_MAX_OVERLAY_CLIENTS)).

(** What [destroy_client_instance] leaves of a client, and of its window. *)
Definition destroy_client_instance (slot : Z) (s : windowd_session) : windowd_session := put_overlay slot reset_client s.

Definition destroy_owned (slot : Z) (s : windowd_session) : windowd_session :=
  for_z 0 WINDOWD_MAX_OVERLAY_CLIENTS (fun child s =>
    let c := overlay s child in
    if negb (child =? slot) && (wc_pid c >? 0) && (wc_owner_slot c =? slot)
    then remove_overlay_from_order child (destroy_client_instance child s) else s) s.

Definition destroy_overlay_client (slot : Z) (answer : option fb_info) (s : windowd_session) : windowd_session :=
  if negb (overlay_slot_valid slot) then s
  else
    let c := overlay s slot in
    let s := if (wc_pid c >? 0) && (wc_owner_slot c <? 0) then destroy_owned slot s else s in
    let s :=
      if se_fullscreen_slot s =? slot then
        let s := put_fullscreen_slot (-1) s in
        fst (apply_display_mode (fb_width (se_native s)) (fb_height (se_native s)) answer s)
      else s in
    refresh_active_state (remove_overlay_from_order slot (destroy_client_instance slot s)).

(** The SHUTDOWN flag in the header, when there is one. *)
Definition ask_shutdown (c : windowd_client) : windowd_client :=
  put_surface (fmap (fun h => mk_header (hd_width h) (hd_height h) true (hd_capture h)) (wc_header c)) (wc_pixels c) (wc_info c) c.

(** The session, and whether there was a window to close. *)
Definition close_overlay_window (slot : Z) (now_ms : Z) (answer : option fb_info) (s : windowd_session) : windowd_session * bool :=
  if negb (overlay_slot_valid slot) || (wc_pid (overlay s slot) <=? 0) then (s, false)
  else if overlay_client_owned (overlay s slot) then (put_overlay slot (ask_shutdown (overlay s slot)) s, true)
  else
    let s := if wc_fullscreen (overlay s slot) then exit_overlay_fullscreen answer s else s in
    let c := ask_shutdown (overlay s slot) in
    let s := put_overlay slot c s in
    if (wc_close_requested_ms c =? 0) || wc_not_responding c then
      let s := if wc_not_responding c
               then let c := put_close (wc_close_requested_ms c) false c in
                    windowd_dirty_rect_add_client c (put_overlay slot c s)
               else s in
      let c := overlay s slot in
      (put_overlay slot (put_close (if now_ms =? 0 then 1 else now_ms) (wc_not_responding c) c) s, true)
    else (s, true).

Definition service_close_requests (now_ms hung_close_ms : Z) (s : windowd_session) : windowd_session :=
  for_z 0 WINDOWD_MAX_OVERLAY_CLIENTS (fun slot s =>
    let c := overlay s slot in
    if (wc_pid c <=? 0) || (wc_owner_slot c >=? 0) || (wc_close_requested_ms c =? 0) || wc_not_responding c
       || (u64 (now_ms - wc_close_requested_ms c) <? hung_close_ms) then s
    else
      let c := put_close (wc_close_requested_ms c) true c in
      windowd_dirty_rect_add_client c (put_overlay slot c s)) s.

(** ** Keys *)

Definition SAVANXP_KEY_NONE : Z := 0.
Definition SAVANXP_KEY_ALT : Z := 262.
Definition SAVANXP_KEY_F4 : Z := 273.
Definition SAVANXP_KEY_F11 : Z := 280.
Definition SAVANXP_KEY_MOD_SHIFT : Z := 1.
Definition SAVANXP_KEY_MOD_ALT : Z := 4.
Definition SAVANXP_KEY_MOD_ALT_GR : Z := 8.
Definition WINDOWD_HOTKEY_MODIFIERS : Z := 7.
Definition WINDOWD_MAX_HOTKEYS : Z := 8.

Definition dirty_consent (s : windowd_session) : windowd_session :=
  dirty_rect (windowd_consent_rect (se_consent s) (se_info s)) s.

Definition dirty_switcher (s : windowd_session) : windowd_session := dirty_rect (windowd_switcher_rect (se_info s)) s.

Definition switcher_close (s : windowd_session) : windowd_session :=
  if negb (se_switcher_open s) then s else dirty_switcher (put_switcher false (se_switcher_selected s) s).

Definition consent_opened_or_closed (s : windowd_session) : windowd_session :=
  let s := if cs_open (se_consent s) then put_hotkeys (se_hotkeys s) 0 (switcher_close s) else s in
  dirty_consent s.

Definition windowd_active_task_index (s : windowd_session) : Z :=
  let count := windowd_task_count s in
  default (if count >? 0 then count - 1 else 0)
    (first_slot (fun index =>
       match windowd_task_client s index with
       | None => false
       | Some slot => bool_decide (se_kind s = ClientApp) && (slot =? overlay_root_slot s (se_active_slot s))
       end) (seqZ 0 count)).

Definition switcher_switch_to (task_index : Z) (s : windowd_session) : windowd_session :=
  let client := windowd_task_client s task_index in
  let s := switcher_close s in
  match client with
  | None => s
  | Some slot =>
      if negb (overlay_slot_valid slot) then s
      else
        let s := if wc_minimized (overlay s slot) then restore_overlay_client slot s else s in
        windowd_dirty_rect_add_fullscreen (raise_overlay slot s)
  end.

(** The key events the window manager looks for. *)
Definition key_down (key : savanxp_input_event) (code : Z) : bool :=
  (ke_type key =? SAVANXP_INPUT_EVENT_KEY_DOWN) && (ke_key key =? code).

(** The session, and whether the key was the window manager's. *)
Definition wm_handle_key (key : savanxp_input_event) (now_ms : Z) (answer : option fb_info) (s : windowd_session) : windowd_session * bool :=
  if key_down key SAVANXP_KEY_TAB && has_flag (ke_modifiers key) SAVANXP_KEY_MOD_ALT then
    let count := windowd_task_count s in
    let step := if has_flag (ke_modifiers key) SAVANXP_KEY_MOD_SHIFT then 1 else -1 in
    if count <=? 0 then (s, true)
    else
      let s := if negb (se_switcher_open s) then put_switcher true (windowd_active_task_index s) s else s in
      let s := put_switcher (se_switcher_open s) (Z.rem (se_switcher_selected s + count + step) count) s in
      (dirty_switcher s, true)
  else if se_switcher_open s && (ke_type key =? SAVANXP_INPUT_EVENT_KEY_UP) && (ke_key key =? SAVANXP_KEY_ALT)
  then (switcher_switch_to (se_switcher_selected s) s, true)
  else if se_switcher_open s
  then ((if key_down key SAVANXP_KEY_ESC then switcher_close s else s), true)
  else if key_down key SAVANXP_KEY_F4 && has_flag (ke_modifiers key) SAVANXP_KEY_MOD_ALT
  then ((if bool_decide (se_kind s = ClientApp) then fst (close_overlay_window (se_active_slot s) now_ms answer s) else s), true)
  else if negb (key_down key SAVANXP_KEY_F11) then (s, false)
  else if se_fullscreen_slot s >=? 0 then (exit_overlay_fullscreen answer s, true)
  else if bool_decide (se_kind s = ClientApp) && overlay_slot_valid (se_active_slot s)
  then (fst (enter_overlay_fullscreen (se_active_slot s) answer s), true)
  else (s, true).

Definition hotkey_reserved (key modifiers : Z) : bool :=
  (key =? SAVANXP_KEY_F11) ||
  (((key =? SAVANXP_KEY_TAB) || (key =? SAVANXP_KEY_F4)) && has_flag modifiers SAVANXP_KEY_MOD_ALT).

Definition register_hotkey (key modifiers : Z) (s : windowd_session) : windowd_session :=
  let modifiers := Z.land modifiers WINDOWD_HOTKEY_MODIFIERS in
  if (key =? SAVANXP_KEY_NONE) || hotkey_reserved key modifiers then s
  else if bool_decide ((key, modifiers) ∈ se_hotkeys s) then s
  else if zlen (se_hotkeys s) >=? WINDOWD_MAX_HOTKEYS then s
  else put_hotkeys (se_hotkeys s ++ [(key, modifiers)]) (se_hotkey_held s) s.

Definition deliver_hotkey (key : savanxp_input_event) (answer : option fb_info) (s : windowd_session) : windowd_session * bool :=
  if (ke_type key =? SAVANXP_INPUT_EVENT_KEY_UP) && negb (se_hotkey_held s =? 0) && (ke_key key =? se_hotkey_held s)
  then (route_key (Some (Desktop 0)) key (put_hotkeys (se_hotkeys s) 0 s), true)
  else if negb (ke_type key =? SAVANXP_INPUT_EVENT_KEY_DOWN) || (wc_pid (desktop_window s 0) <=? 0) then (s, false)
  else if has_flag (ke_modifiers key) SAVANXP_KEY_MOD_ALT_GR then (s, false)
  else if bool_decide ((ke_key key, Z.land (ke_modifiers key) WINDOWD_HOTKEY_MODIFIERS) ∈ se_hotkeys s) then
    let s := if se_fullscreen_slot s >=? 0 then exit_overlay_fullscreen answer s else s in
    (route_key (Some (Desktop 0)) key (put_hotkeys (se_hotkeys s) (ke_key key) s), true)
  else (s, false).

(** A key of the keyboard's pipe, as the main loop arbitrates it. *)
Definition main_key (key : savanxp_input_event) (now_ms : Z) (answer : option fb_info) (s : windowd_session) : windowd_session :=
  let '(consent, taken, changed) := windowd_consent_key (se_consent s) key now_ms in
  if taken then
    let s := put_consent consent s in
    if changed then dirty_consent s else s
  else
    let '(s, handled) := wm_handle_key key now_ms answer s in
    if handled then s
    else
      let '(s, delivered) := deliver_hotkey key answer s in
      if delivered then s else route_key (keyboard_client s) key s.

(** ** The pointer *)

Definition SAVANXP_MOUSE_BUTTON_RIGHT : Z := 2.
Definition SAVANXP_MOUSE_FLAG_ABSOLUTE : Z := 1.
Definition SAVANXP_WM_POPUP_DISMISS_ON_OUTSIDE : Z := 1.
Definition WINDOWD_MAX_MOUSE_EVENTS_PER_FRAME : Z := 16.

Record savanxp_mouse_event := mk_mouse {
  me_delta_x : Z; me_delta_y : Z; me_wheel : Z; me_buttons : Z; me_flags : Z; me_absolute_x : Z; me_absolute_y : Z }.

(** The variables of the main loop the pointer is followed with. *)
Record pointer := mk_pointer {
  pt_x : Z; pt_y : Z; pt_last_buttons : Z; pt_drag_slot : Z; pt_drag_x : Z; pt_drag_y : Z }.

Definition slot_of (p : place) : Z := match p with Overlay slot => slot | Desktop _ => -1 end.

(** What [overlay_client_at_const] finds at a slot. *)
Definition overlay_place (slot : Z) : option place := if overlay_slot_valid slot then Some (Overlay slot) else None.

Definition put_client (p : place) (c : windowd_client) (s : windowd_session) : windowd_session :=
  match p with
  | Overlay slot => put_overlay slot c s
  | Desktop index => put_desktop (set_at (se_desktop s) index c) s
  end.

Definition request_popup_dismiss (p : place) (s : windowd_session) : windowd_session :=
  let c := ask_shutdown (client_of s p) in put_client p (put_dismissed (wc_header c) true c) s.

(** A popup that closes on a press outside it and was not asked to yet. *)
Definition dismissable (c : windowd_client) : bool :=
  negb (wc_pid c <=? 0) && (wc_role c =? WINDOWD_ROLE_POPUP) && negb (wc_dismiss_requested c) &&
  has_flag (wc_role_flags c) SAVANXP_WM_POPUP_DISMISS_ON_OUTSIDE.

Definition dismiss_popups_for_press (x y : Z) (s : windowd_session) : windowd_session :=
  let hit := top_client_at_point s x y in
  let s := for_z 1 WINDOWD_DESKTOP_WINDOW_COUNT (fun index s =>
    let popup := desktop_window s index in
    if negb (dismissable popup) then s
    else match hit with
         | Some p => if wc_pid (client_of s p) =? wc_pid popup then s else request_popup_dismiss (Desktop index) s
         | None => request_popup_dismiss (Desktop index) s
         end) s in
  for_z 0 WINDOWD_MAX_OVERLAY_CLIENTS (fun index s =>
    if negb (dismissable (overlay s index)) || bool_decide (hit = Some (Overlay index)) then s
    else request_popup_dismiss (Overlay index) s) s.

Definition refresh_cursor_after_move (p q : pointer) (s : windowd_session) : windowd_session :=
  if (pt_x p =? pt_x q) && (pt_y p =? pt_y q) && (se_shape s =? se_previous_shape s) then s
  else put_cursor (se_shape s) (se_previous_shape s) true s.

(** The shape of the cursor becomes [shape]. *)
Definition change_shape (shape : Z) (s : windowd_session) : windowd_session :=
  put_cursor shape (se_shape s) (if negb (shape =? se_shape s) then true else se_cursor_moved s) s.

(** Where an event takes the cursor. *)
Definition move_cursor (info : fb_info) (event : savanxp_mouse_event) (x y : Z) : Z * Z :=
  if has_flag (me_flags event) SAVANXP_MOUSE_FLAG_ABSOLUTE
  then (windowd_clamp_int (me_absolute_x event) 0 (fb_width info - 1), windowd_clamp_int (me_absolute_y event) 0 (fb_height info - 1))
  else (windowd_clamp_int (x + me_delta_x event) 0 (fb_width info - 1), windowd_clamp_int (y + me_delta_y event) 0 (fb_height info - 1)).

(** A press of the right button: what it lands on is activated. *)
Definition press_right (hover : option place) (s : windowd_session) : windowd_session * option place :=
  match hover with
  | None => (s, hover)
  | Some p =>
      let c := client_of s p in
      if wc_role c =? WINDOWD_ROLE_BACKGROUND then (refresh_active_state (put_focus ClientDesktop (se_active_slot s) s), hover)
      else if (wc_role c =? WINDOWD_ROLE_NORMAL) && negb (place_disabled s p) then
        if overlay_slot_valid (slot_of p) && negb (wc_active (overlay s (slot_of p)))
        then (raise_overlay (slot_of p) s, overlay_place (slot_of p)) else (s, hover)
      else (s, hover)
  end.

(** What a press of the left button leaves: the session, the client under the
    pointer if it still takes part, whether the press was routed, the drag. *)
Record pressed := mk_pressed { ps_session : windowd_session; ps_hover : option place; ps_routed : bool;
  ps_drag_slot : Z; ps_drag_x : Z; ps_drag_y : Z }.

(** What the press lands on: a window of another role takes it, an application's
    window comes to the front. *)
Definition press_target (p : place) (x y wheel buttons : Z) (s : windowd_session) : windowd_session * option place * bool :=
  if negb (wc_role (client_of s p) =? WINDOWD_ROLE_NORMAL) then
    let s := if wc_role (client_of s p) =? WINDOWD_ROLE_BACKGROUND
             then refresh_active_state (put_focus ClientDesktop (se_active_slot s) s) else s in
    (route_pointer (Some p) x y wheel buttons s, None, true)
  else
    let disabled := place_disabled s p in
    (raise_overlay (slot_of p) s, (if disabled then None else overlay_place (slot_of p)), false).

(** What the press does to the window in front: its buttons, its edges, its
    title bar, or its content. *)
Definition press_window (p : place) (x y wheel buttons now_ms : Z) (answer : option fb_info) (q : pointer) (s : windowd_session) : pressed :=
  let c := client_of s p in
  let slot := slot_of p in
  let keep s := mk_pressed s (Some p) false (pt_drag_slot q) (pt_drag_x q) (pt_drag_y q) in
  let gone s := mk_pressed s None false (-1) (pt_drag_x q) (pt_drag_y q) in
  if windowd_point_in_minimize_button c x y then
    if overlay_slot_valid slot then gone (minimize_overlay_client slot s) else keep s
  else if windowd_point_in_maximize_button c x y then
    if overlay_slot_valid slot && negb (windowd_client_fixed_size c) then keep (toggle_overlay_client_maximized slot s) else keep s
  else if windowd_point_in_close_button c x y then
    let '(s, closed) := close_overlay_window slot now_ms answer s in
    if closed then gone s else keep s
  else if negb (windowd_resize_edge_from_point c x y =? WINDOWD_RESIZE_EDGE_NONE) then
    if overlay_slot_valid slot
    then keep (put_resize (mk_resize slot (windowd_resize_edge_from_point c x y) (windowd_client_frame_rect c) x y) s)
    else keep s
  else if negb (wc_maximized c) && windowd_point_in_titlebar c x y then
    if drag_overlay_slot_active s slot then mk_pressed s (Some p) false slot (x - wc_x c) (y - wc_y c) else keep s
  else if wc_events c then mk_pressed (route_pointer (Some p) x y wheel buttons s) (Some p) true (pt_drag_slot q) (pt_drag_x q) (pt_drag_y q)
  else keep s.

Definition press_left (hover : option place) (x y wheel buttons now_ms : Z) (answer : option fb_info) (q : pointer) (s : windowd_session) : pressed :=
  match hover with
  | None => mk_pressed s None false (pt_drag_slot q) (pt_drag_x q) (pt_drag_y q)
  | Some p =>
      let '(s, hover, routed) := press_target p x y wheel buttons s in
      match hover with
      | None => mk_pressed s None routed (pt_drag_slot q) (pt_drag_x q) (pt_drag_y q)
      | Some p => press_window p x y wheel buttons now_ms answer q s
      end
  end.

(** The resize in progress: the session, and whether the event ends there. *)
Definition resize_in_progress (x y : Z) (left_pressed : bool) (s : windowd_session) : windowd_session * bool :=
  let r := se_resize s in
  if rs_slot r <? 0 then (s, false)
  else
    let c := overlay s (rs_slot r) in
    if negb left_pressed || negb (overlay_slot_valid (rs_slot r)) || (wc_pid c <=? 0) || negb (wc_frame_visible c)
    then (put_resize (mk_resize (-1) WINDOWD_RESIZE_EDGE_NONE (rs_origin r) (rs_grab_x r) (rs_grab_y r)) s, false)
    else (apply_overlay_client_frame (rs_slot r)
            (resize_frame_for_drag (rs_origin r) (rs_edges r) (x - rs_grab_x r) (y - rs_grab_y r)) s, true).

(** The client that is told of the pointer when nothing else took the event. *)
Definition hover_route (s : windowd_session) (hover previous : option place) : option place :=
  let takes p := wc_events (client_of s p) && negb (place_disabled s p) in
  match hover with
  | Some p => if takes p then Some p else None
  | None => match previous with Some p => if takes p then Some p else None | None => None end
  end.

(** The captions of the windows whose activation changed. *)
Definition repaint_focus_change (kind : client_kind) (slot : Z) (s : windowd_session) : windowd_session :=
  if bool_decide (kind = se_kind s) && (slot =? se_active_slot s) then s
  else
    let s := if overlay_slot_valid slot then windowd_dirty_rect_add_client (overlay s slot) s else s in
    if overlay_slot_valid (se_active_slot s) then windowd_dirty_rect_add_client (overlay s (se_active_slot s)) s else s.

Definition handle_pointer_event (event : savanxp_mouse_event) (now_ms : Z) (answer : option fb_info) (p : pointer) (s : windowd_session)
    : pointer * windowd_session :=
  let buttons := me_buttons event in
  let left_pressed := has_flag buttons SAVANXP_MOUSE_BUTTON_LEFT in
  let right_pressed := has_flag buttons SAVANXP_MOUSE_BUTTON_RIGHT in
  let left_was_pressed := has_flag (pt_last_buttons p) SAVANXP_MOUSE_BUTTON_LEFT in
  let right_was_pressed := has_flag (pt_last_buttons p) SAVANXP_MOUSE_BUTTON_RIGHT in
  let drag_slot := if drag_overlay_slot_active s (pt_drag_slot p) then pt_drag_slot p else -1 in
  let drag_was_active := drag_overlay_slot_active s drag_slot in
  let previous_hover := top_client_at_point s (pt_x p) (pt_y p) in
  let '(x, y) := move_cursor (se_info s) event (pt_x p) (pt_y p) in
  let q := mk_pointer x y buttons drag_slot (pt_drag_x p) (pt_drag_y p) in
  if cs_open (se_consent s) then
    let '(consent, _, changed) := windowd_consent_pointer (se_consent s) (se_info s) x y buttons (pt_last_buttons p) now_ms in
    let s := put_consent consent s in
    let s := if changed then dirty_consent s else s in
    (q, refresh_cursor_after_move p q (change_shape SAVANXP_CURSOR_ARROW s))
  else
    let hover := top_client_at_point s x y in
    let s0 := s in
    let s := change_shape (resolve_cursor_shape s hover x y drag_was_active) s in
    let pressing := (left_pressed && negb left_was_pressed) || (right_pressed && negb right_was_pressed) in
    let s := if pressing then dismiss_popups_for_press x y s else s in
    let '(s, hover) :=
      if right_pressed && negb right_was_pressed && negb left_pressed then press_right hover s else (s, hover) in
    let pr :=
      if left_pressed && negb left_was_pressed then press_left hover x y (me_wheel event) buttons now_ms answer q s
      else mk_pressed s hover false drag_slot (pt_drag_x p) (pt_drag_y p) in
    let q := mk_pointer x y buttons (ps_drag_slot pr) (ps_drag_x pr) (ps_drag_y pr) in
    let '(s, resizing) := resize_in_progress x y left_pressed (ps_session pr) in
    if resizing then (q, refresh_cursor_after_move p q s)
    else
      let drag_active_now := drag_overlay_slot_active s (pt_drag_slot q) in
      let s := if drag_active_now && left_pressed
               then move_overlay_client_window (pt_drag_slot q) (x - pt_drag_x q) (y - pt_drag_y q) s else s in
      let ends := drag_was_active && negb left_pressed in
      let q := if ends then mk_pointer x y buttons (-1) (pt_drag_x q) (pt_drag_y q) else q in
      let drag_active_now := if ends then false else drag_active_now in
      let s :=
        if negb (ps_routed pr) && negb drag_was_active && negb drag_active_now && negb (left_pressed && negb left_was_pressed)
        then route_pointer (hover_route s (ps_hover pr) previous_hover) x y (me_wheel event) buttons s else s in
      let s := refresh_cursor_after_move p q s in
      (q, repaint_focus_change (se_kind s0) (se_active_slot s0) s).

(** ** Mouse events, coalesced *)

(** Two events as one: the motion and the wheel add up, the position is the last
    one's. *)
Definition merge_events (a b : savanxp_mouse_event) : savanxp_mouse_event :=
  if has_flag (me_flags b) SAVANXP_MOUSE_FLAG_ABSOLUTE
  then mk_mouse (me_delta_x a + me_delta_x b) (me_delta_y a + me_delta_y b) (me_wheel a + me_wheel b) (me_buttons a)
         (Z.lor (me_flags a) SAVANXP_MOUSE_FLAG_ABSOLUTE) (me_absolute_x b) (me_absolute_y b)
  else mk_mouse (me_delta_x a + me_delta_x b) (me_delta_y a + me_delta_y b) (me_wheel a + me_wheel b) (me_buttons a)
         (Z.ldiff (me_flags a) SAVANXP_MOUSE_FLAG_ABSOLUTE) (me_absolute_x a) (me_absolute_y a).

(** The loop: [out] holds the events so far, the last one apart. *)
Fixpoint coalesce_from (events : list savanxp_mouse_event) (capacity : Z) (out : list savanxp_mouse_event)
    (current_buttons : Z) (last_was_transition : bool) : list savanxp_mouse_event :=
  match events with
  | [] => out
  | event :: events =>
      let transition := negb (me_buttons event =? current_buttons) in
      let fresh := transition || (match last out with None => true | Some e => negb (me_buttons e =? me_buttons event) end)
                   || last_was_transition in
      if fresh then
        if zlen out >=? capacity then out
        else coalesce_from events capacity (out ++ [event]) (me_buttons event) transition
      else
        match last out with
        | None => out
        | Some e => coalesce_from events capacity (removelast out ++ [merge_events e event]) (me_buttons event) transition
        end
  end.

Definition coalesce_mouse_events (events : list savanxp_mouse_event) (capacity initial_buttons : Z) : list savanxp_mouse_event :=
  if capacity =? 0 then [] else coalesce_from events capacity [] initial_buttons false.

(** ** The pointer's capture *)

Definition capture_client (s : windowd_session) : option place :=
  match active_client s with
  | None => None
  | Some p =>
      match wc_header (client_of s p) with
      | None => None
      | Some h => if cs_open (se_consent s) || negb (hd_capture h) || place_disabled s p then None else Some p
      end
  end.

(** The capture's last position after the event, and the motion. *)
Definition windowd_capture_motion (event : savanxp_mouse_event) (cap : capture_state) : capture_state * (Z * Z) :=
  if negb (has_flag (me_flags event) SAVANXP_MOUSE_FLAG_ABSOLUTE) then (cap, (me_delta_x event, me_delta_y event))
  else
    (mk_capture (cp_captured cap) true (me_absolute_x event) (me_absolute_y event),
     (if cp_has_last cap then me_absolute_x event - cp_last_x cap else 0,
      if cp_has_last cap then me_absolute_y event - cp_last_y cap else 0)).

(** The main loop follows the focus with the capture. *)
Definition main_capture (s : windowd_session) : windowd_session :=
  let captured := match capture_client s with Some _ => true | None => false end in
  let cap := se_capture s in
  if Bool.eqb captured (cp_captured cap) then s
  else put_cursor (se_shape s) (se_previous_shape s) true
         (put_capture (mk_capture captured false (cp_last_x cap) (cp_last_y cap)) s).

(** The main loop keeps the cursor on a screen that shrank. *)
Definition main_reframe (p : pointer) (s : windowd_session) : pointer * windowd_session :=
  if (pt_x p >=? fb_width (se_info s)) || (pt_y p >=? fb_height (se_info s)) then
    (mk_pointer (windowd_clamp_int (pt_x p) 0 (fb_width (se_info s) - 1)) (windowd_clamp_int (pt_y p) 0 (fb_height (se_info s) - 1))
       (pt_last_buttons p) (pt_drag_slot p) (pt_drag_x p) (pt_drag_y p),
     put_cursor (se_shape s) (se_previous_shape s) true s)
  else (p, s).

(** A mouse event of the main loop: to the window that holds the pointer, or to
    the window manager. *)
Definition main_mouse (event : savanxp_mouse_event) (now_ms : Z) (answer : option fb_info) (p : pointer) (s : windowd_session)
    : pointer * windowd_session :=
  match (if cp_captured (se_capture s) then capture_client s else None) with
  | Some captor =>
      let '(cap, (dx, dy)) := windowd_capture_motion event (se_capture s) in
      let s := put_capture cap s in
      let s := if negb (dx =? 0) || negb (dy =? 0) || negb (me_wheel event =? 0) || negb (me_buttons event =? pt_last_buttons p)
               then route_pointer_motion captor dx dy (me_wheel event) (me_buttons event) s else s in
      (mk_pointer (pt_x p) (pt_y p) (me_buttons event) (pt_drag_slot p) (pt_drag_x p) (pt_drag_y p), s)
  | None => handle_pointer_event event now_ms answer p s
  end.

(** ** The scene (windowd_render.c) *)

Definition windowd_client_in_scene (c : windowd_client) : bool :=
  (wc_pid c >? 0) && match wc_pixels c with Some _ => true | None => false end && negb (wc_surface_id c =? 0) &&
  negb (wc_minimized c) && wc_started c.

Definition add_wm_layer (capacity : Z) (rect : sx_rect) (layers : list compositor_layer) : list compositor_layer :=
  if (zlen layers >=? capacity) || sx_rect_is_empty rect then layers
  else layers ++ [mk_layer SAVANXP_COMPOSITOR_SURFACE_WM SAVANXP_COMPOSITOR_LAYER_OPAQUE rect rect].

Definition add_surface_layer (capacity : Z) (c : windowd_client) (dst : sx_rect) (layers : list compositor_layer) : list compositor_layer :=
  if zlen layers >=? capacity then layers
  else layers ++ [mk_layer (wc_surface_id c) SAVANXP_COMPOSITOR_LAYER_OPAQUE
                    (sx_rect_make 0 0 (fb_width (wc_info c)) (fb_height (wc_info c))) dst].

Definition add_window_layers (capacity : Z) (c : windowd_client) (layers : list compositor_layer) : list compositor_layer :=
  if negb (windowd_client_in_scene c) then layers
  else
    let layers := if wc_frame_visible c then add_wm_layer capacity (windowd_client_frame_rect c) layers else layers in
    add_surface_layer capacity c (windowd_client_surface_rect c) layers.

Definition add_desktop_layers (capacity : Z) (s : windowd_session) (role : Z) (layers : list compositor_layer) : list compositor_layer :=
  for_z 0 WINDOWD_DESKTOP_WINDOW_COUNT (fun index layers =>
    if wc_role (desktop_window s index) =? role then add_window_layers capacity (desktop_window s index) layers else layers) layers.

(** The layers of the overlay windows, in stacking order. *)
Definition add_overlay_layers (capacity : Z) (s : windowd_session) (layers : list compositor_layer) : list compositor_layer :=
  for_z 0 (se_count s) (fun index layers =>
    let slot := order_at s index in
    if (slot >=? 0) && (slot <? WINDOWD_MAX_OVERLAY_CLIENTS) then add_window_layers capacity (overlay s slot) layers else layers) layers.

Definition windowd_build_scene (s : windowd_session) (capacity : Z) : list compositor_layer :=
  let info := se_info s in
  let screen := sx_rect_make 0 0 (fb_width info) (fb_height info) in
  let layers := add_wm_layer capacity screen [] in
  let layers := add_desktop_layers capacity s WINDOWD_ROLE_BACKGROUND layers in
  let layers :=
    if (se_fullscreen_slot s >=? 0) && (se_fullscreen_slot s <? WINDOWD_MAX_OVERLAY_CLIENTS) then
      let c := overlay s (se_fullscreen_slot s) in
      let layers := add_desktop_layers capacity s WINDOWD_ROLE_PANEL layers in
      if windowd_client_in_scene c then add_surface_layer capacity c screen layers else layers
    else
      let layers := add_overlay_layers capacity s layers in
      let layers := add_desktop_layers capacity s WINDOWD_ROLE_PANEL layers in
      add_desktop_layers capacity s WINDOWD_ROLE_POPUP layers in
  let layers := if se_switcher_open s then add_wm_layer capacity (windowd_switcher_rect info) layers else layers in
  if cs_open (se_consent s) then add_wm_layer capacity (windowd_consent_rect (se_consent s) info) layers else layers.
