(* ===== verification/WmList.v ===== *)
(** * The list of windows other programs read (system/windowd/windowd.c)

    windowd publishes its windows in a section it shares with the desktop, and
    with any program that asks for a list of its own: the taskbar and the task
    manager.  A list is written only when it changed, under a sequence number
    that is odd meanwhile; the two readers of it are here too. *)

From S2P Require Import Prelude Bytes Rect Region Painter Scene Consent Presentation Wm WmInput.

Definition SAVANXP_WM_SHELL_PROTOCOL_VERSION : Z := 5.
Definition SAVANXP_WM_WINDOW_TITLE_CAPACITY : Z := 64.
Definition SAVANXP_WM_MAX_WINDOWS : Z := 12.
Definition SAVANXP_WM_WINDOW_ICON_EXTENT : Z := 16.
Definition SAVANXP_WM_WINDOW_ICON_PIXELS : Z := SAVANXP_WM_WINDOW_ICON_EXTENT * SAVANXP_WM_WINDOW_ICON_EXTENT.
Definition SAVANXP_WM_WINDOW_FLAG_NONE : Z := 0.
Definition SAVANXP_WM_WINDOW_FLAG_ACTIVE : Z := 1.
Definition SAVANXP_WM_WINDOW_FLAG_MINIMIZED : Z := 2.
Definition SAVANXP_WM_WINDOW_FLAG_NOT_RESPONDING : Z := 4.

#[export] Instance window_entry_eq_dec : EqDecision savanxp_wm_window_entry.
Proof. solve_decision. Defined.
#[export] Instance window_list_eq_dec : EqDecision savanxp_wm_window_list.
Proof. solve_decision. Defined.

(** A zeroed entry, and a zeroed list with its version. *)
Definition entry0 : savanxp_wm_window_entry :=
  mk_entry 0 0 0 0 (replicate (Z.to_nat SAVANXP_WM_WINDOW_TITLE_CAPACITY) 0) (replicate (Z.to_nat SAVANXP_WM_WINDOW_ICON_PIXELS) 0).
Definition new_list : savanxp_wm_window_list :=
  mk_list SAVANXP_WM_SHELL_PROTOCOL_VERSION 0 0 (replicate (Z.to_nat SAVANXP_WM_MAX_WINDOWS) entry0).

Definition window_lists_equal (left right : savanxp_wm_window_list) : bool := bool_decide (left = right).

Definition with_sequence (sequence : Z) (l : savanxp_wm_window_list) : savanxp_wm_window_list :=
  mk_list (wl_version l) (wl_count l) sequence (wl_windows l).

(** The list after each store of [write_window_list]: the sequence, then the
    entries, the count and the version, then the sequence.  [middle] is what the
    memory holds between the stores of the copy and of the two fields, of any
    size and in any order.  Empty when nothing is written. *)
Definition write_steps (l staging : savanxp_wm_window_list) (middle : list savanxp_wm_window_list) : list savanxp_wm_window_list :=
  if window_lists_equal (with_sequence (wl_sequence l) staging) l then []
  else
    let odd := u64 (wl_sequence l + 1) in
    with_sequence odd l :: map (with_sequence odd) middle ++
    [with_sequence odd staging; with_sequence (u64 (odd + 1)) staging].

Definition write_window_list (l staging : savanxp_wm_window_list) : savanxp_wm_window_list :=
  List.last (write_steps l staging []) l.

Definition has_list (c : windowd_client) : bool := match wc_list c with Some _ => true | None => false end.

(** A window of the taskbar: a main window. *)
Definition is_listed (s : windowd_session) (slot : Z) : bool := (wc_pid (overlay s slot) >? 0) && (wc_owner_slot (overlay s slot) <? 0).

Definition window_entry (s : windowd_session) (slot : Z) : savanxp_wm_window_entry :=
  let c := overlay s slot in
  let p := wc_presentation c in
  let flags := SAVANXP_WM_WINDOW_FLAG_NONE in
  let flags := if bool_decide (se_kind s = ClientApp) && (slot =? overlay_root_slot s (se_active_slot s))
               then Z.lor flags SAVANXP_WM_WINDOW_FLAG_ACTIVE else flags in
  let flags := if wc_minimized c then Z.lor flags SAVANXP_WM_WINDOW_FLAG_MINIMIZED else flags in
  let flags := if wc_not_responding c then Z.lor flags SAVANXP_WM_WINDOW_FLAG_NOT_RESPONDING else flags in
  let own := pr_icon_extent p =? SAVANXP_WM_WINDOW_ICON_EXTENT in
  let title := windowd_presentation_label p (wc_path c) in
  mk_entry (u32 (wc_pid c)) flags (pr_fallback_icon_id p) (if own then SAVANXP_WM_WINDOW_ICON_EXTENT else 0)
    (write_string (we_title entry0) (take (Z.to_nat (SAVANXP_WM_WINDOW_TITLE_CAPACITY - 1)) title))
    (if own then pr_icon_pixels p else we_icon_pixels entry0).

(** The loop over the slots, while there is room. *)
Definition staged_entries (s : windowd_session) : list savanxp_wm_window_entry :=
  for_z 0 WINDOWD_MAX_OVERLAY_CLIENTS (fun slot entries =>
    if (zlen entries <? SAVANXP_WM_MAX_WINDOWS) && is_listed s slot then entries ++ [window_entry s slot] else entries) [].

Definition staged_list (s : windowd_session) : savanxp_wm_window_list :=
  let entries := staged_entries s in
  mk_list SAVANXP_WM_SHELL_PROTOCOL_VERSION (zlen entries) 0
    (entries ++ drop (length entries) (wl_windows new_list)).

(** The list of a client, written from the staged one. *)
Definition write_client_list (staging : savanxp_wm_window_list) (c : windowd_client) : windowd_client :=
  put_list (fmap (fun l => write_window_list l staging) (wc_list c)) c.

Definition publish_window_list (s : windowd_session) : windowd_session :=
  if negb (has_list (desktop_window s 0)
           || existsb (fun slot => (wc_pid (overlay s slot) >? 0) && has_list (overlay s slot)) (seqZ 0 WINDOWD_MAX_OVERLAY_CLIENTS))
  then s
  else
    let staging := staged_list s in
    let s := put_client (Desktop 0) (write_client_list staging (desktop_window s 0)) s in
    for_z 0 WINDOWD_MAX_OVERLAY_CLIENTS (fun slot s =>
      if wc_pid (overlay s slot) >? 0 then put_overlay slot (write_client_list staging (overlay s slot)) s else s) s.

(** ** Reading it

    Two readers, [sxnwm_task_list_read] of a program's own list and
    [taskbar_snapshot] of the desktop's.  Both copy the whole structure under
    its sequence number; [memory] is the list at each moment, and a schedule says
    at which moment each load of an attempt falls. *)

Definition entry_bytes (e : savanxp_wm_window_entry) : list Z :=
  le 4 (we_window_id e) ++ le 4 (we_flags e) ++ le 4 (we_icon_id e) ++ le 4 (we_icon_extent e) ++
  we_title e ++ concat (map (le 4) (we_icon_pixels e)).
Definition list_bytes (l : savanxp_wm_window_list) : list Z :=
  le 4 (wl_version l) ++ le 4 (wl_count l) ++ le 8 (wl_sequence l) ++ concat (map entry_bytes (wl_windows l)).

(** sizeof(struct savanxp_wm_window_list) *)
Definition LIST_SIZE : nat := Z.to_nat 13264.

Record attempt := mk_attempt { at_before : nat; at_byte : nat -> nat; at_after : nat }.

(** The turns of the loop; [None] is giving up. *)
Fixpoint read_attempts (memory : nat -> savanxp_wm_window_list) (schedule : list attempt) : option (list Z) :=
  match schedule with
  | [] => None
  | a :: schedule =>
      let before := wl_sequence (memory (at_before a)) in
      if Z.odd before then read_attempts memory schedule
      else
        let out := map (fun i => nth i (list_bytes (memory (at_byte a i))) 0) (seq 0 LIST_SIZE) in
        if wl_sequence (memory (at_after a)) =? before then Some out else read_attempts memory schedule
  end.

(** [out->count > SAVANXP_WM_MAX_WINDOWS] *)
Definition bound_count (out : list Z) : list Z :=
  if unle (take 4 (drop 4 out)) >? SAVANXP_WM_MAX_WINDOWS
  then take 4 out ++ le 4 SAVANXP_WM_MAX_WINDOWS ++ drop 8 out else out.

Definition sxnwm_task_list_read (memory : nat -> savanxp_wm_window_list) (schedule : nat -> attempt) : option (list Z) :=
  bound_count <$> read_attempts memory (map schedule (seq 0 64)).

Definition taskbar_snapshot (memory : nat -> savanxp_wm_window_list) (schedule : nat -> attempt) : option (list Z) :=
  read_attempts memory (map schedule (seq 0 8)).
