(* ===== verification/WmOpen.v ===== *)
(** * Windows that come and go (system/windowd/windowd.c)

    A program connects and gets a window, opens dialogs and popups, closes them,
    ends; the desktop activates and minimizes windows.  What setting up a surface
    returns (its header, its memory, its place in compositord's scene), which
    processes are alive and the answers of compositord are arguments. *)

From S2P Require Import Prelude Rect Region Painter Scene Consent Presentation Wm WmInput WmList.

Definition WINDOWD_FULLSCREEN_MODE_WIDTH : Z := 640.
Definition WINDOWD_FULLSCREEN_MODE_HEIGHT : Z := 400.
Definition SAVANXP_ENOMEM : Z := 12.
Definition SAVANXP_EBUSY : Z := 16.
Definition SAVANXP_ENOSPC : Z := 28.

(** A surface set up for a client: the header, the memory, and its channels. *)
Record surface_setup := mk_setup { su_header : client_header; su_memory : list Z; su_events : bool; su_native : bool }.

(** What connecting a client comes to: no surface, and the client is left as it
    was prepared; a channel that fails later, and the client is reset; or the
    surface. *)
Inductive connection_outcome := SurfaceFailed | ChannelFailed | Connected (u : surface_setup).

(** A window's place becomes where a later restore puts it back. *)
Definition keep_place (c : windowd_client) : windowd_client :=
  put_restore (mk_rect (wc_x c) (wc_y c) (wc_width c) (wc_height c)) c.

Definition position_client_window (s : windowd_session) (background : bool) (cascade_index : Z) (c : windowd_client) : windowd_client :=
  let r := if negb background then windowd_place_overlay_window (layout_display s) (wc_info c) cascade_index
           else mk_rect 0 0 (fb_width (wc_info c)) (fb_height (wc_info c)) in
  let c := keep_place (put_extent (rw r) (rh r) (put_position (rx r) (ry r) c)) in
  put_minimized false (put_fullscreen (wc_fullscreen c) (negb background) false c).

Definition process_has_window (s : windowd_session) (pid : Z) : bool :=
  (wc_pid (desktop_window s 0) =? pid) ||
  existsb (fun slot => (wc_pid (overlay s slot) =? pid) && (wc_owner_slot (overlay s slot) <? 0))
    (seqZ 0 WINDOWD_MAX_OVERLAY_CLIENTS).

(** The id of the surface of an overlay client in compositord's scene. *)
Definition session_surface_id (slot : Z) : Z := slot + 2 + WINDOWD_DESKTOP_WINDOW_COUNT.

Definition WINDOWD_CLIENT_PATH_CAPACITY : Z := 192.

(** The path of a client, cut to its room. *)
Definition copy_client_path (path : list Z) (c : windowd_client) : windowd_client :=
  put_path (take (Z.to_nat (WINDOWD_CLIENT_PATH_CAPACITY - 1)) path) c.

(** [name]: the name the kernel keeps for the process, when it can be queried. *)
Definition client_path_from_process (name : option (list Z)) (c : windowd_client) : windowd_client :=
  match name with Some name => copy_client_path name c | None => put_path [] c end.

(** What [connect_client] and [admit_connection] set in a client that connected. *)
Definition connected_client (pid surface_id : Z) (info : fb_info) (u : surface_setup) (c : windowd_client) : windowd_client :=
  let c := put_channels (su_events u) (su_native u) surface_id (put_surface (Some (su_header u)) (Some (su_memory u)) info c) in
  let c := put_hint (mk_hint 0 (hs_applied (wc_hint c)) (hs_cascade (wc_hint c)) (hs_presentation (wc_hint c))) c in
  put_identity pid (wc_owner_slot c) (wc_window_id c) (put_presentation (windowd_presentation_default (wc_path c)) c).

(** An application's hello ([admit_connection] without the shell role): the
    session, and the refusal when it is refused. *)
Definition admit_application (pid : Z) (name : option (list Z)) (fullscreen_launch : bool) (setup : connection_outcome) (s : windowd_session)
    : windowd_session * option Z :=
  if (pid <=? 0) || process_has_window s pid then (s, Some (- SAVANXP_EBUSY))
  else
    let held := first_slot (fun slot => wc_reserved_pid (overlay s slot) =? pid) (seqZ 0 WINDOWD_MAX_OVERLAY_CLIENTS) in
    let slot := match held with Some slot => slot | None => find_free_overlay_slot s end in
    if negb (overlay_slot_valid slot) then (s, Some (- SAVANXP_EBUSY))
    else
      let c := put_reserved 0 (match held with Some _ => overlay s slot | None => client_path_from_process name reset_client end) in
      let info := windowd_fill_overlay_surface_info (layout_display s) in
      let info := if fullscreen_launch
                  then mk_info WINDOWD_FULLSCREEN_MODE_WIDTH WINDOWD_FULLSCREEN_MODE_HEIGHT (WINDOWD_FULLSCREEN_MODE_WIDTH * 4)
                         (fb_bpp info) (WINDOWD_FULLSCREEN_MODE_WIDTH * 4 * WINDOWD_FULLSCREEN_MODE_HEIGHT)
                  else info in
      let c := put_surface (wc_header c) (wc_pixels c) info c in
      let c := if fullscreen_launch then put_capable true c else c in
      let c := put_hint (mk_hint (hs_consumed (wc_hint c)) (hs_applied (wc_hint c)) (se_count s) (hs_presentation (wc_hint c))) c in
      let c := position_client_window s false (hs_cascade (wc_hint c)) c in
      match setup with
      | SurfaceFailed => (put_overlay slot c s, Some (- SAVANXP_ENOMEM))
      | ChannelFailed => (destroy_client_instance slot s, Some (- SAVANXP_ENOMEM))
      | Connected u =>
          let s := put_overlay slot (connected_client pid (session_surface_id slot) info u c) s in
          let s := raise_overlay slot (append_overlay_to_order slot s) in
          (windowd_dirty_rect_add_fullscreen s, None)
      end.

(** [(int)] of an unsigned number. *)
Definition i32 (x : Z) : Z := if x >? INT_MAX then x - 4294967296 else x.

(** What a window asks for its own windows ([struct savanxp_wm_window_request]). *)
Record window_request := mk_wrequest { wr_window_id : Z; wr_width : Z; wr_height : Z; wr_x : Z; wr_y : Z; wr_role_flags : Z; wr_title : list Z }.

Definition owned_info (r : window_request) : fb_info :=
  mk_info (wr_width r) (wr_height r) (u32 (wr_width r * 4)) 32 (u32 (u32 (wr_width r * 4) * wr_height r)).

(** The requests [open_owned_window] and [open_owned_popup] refuse: among them
    the windows that do not fit the screen with their margins, added as unsigned
    numbers. *)
Definition owned_refused (s : windowd_session) (owner_slot : Z) (r : window_request) (margin_x margin_y : Z) : bool :=
  let display := layout_display s in
  negb (overlay_slot_valid owner_slot) || (wc_pid (overlay s owner_slot) <=? 0) || negb (wc_events (overlay s owner_slot)) ||
  (wr_window_id r =? 0) || (wr_window_id r >? SAVANXP_WM_MAX_OWNED_WINDOWS) ||
  (owned_window_slot s owner_slot (wr_window_id r) >=? 0) ||
  (wr_width r =? 0) || (wr_height r =? 0) || (u32 (wr_width r + margin_x) >? fb_width display) || (u32 (wr_height r + margin_y) >? fb_height display).

(** A presentation that fixes the window's size. *)
Definition fixed_size (p : windowd_presentation) : windowd_presentation :=
  mk_presentation (pr_label p) (pr_accent p) (pr_accent_declared p) (Z.lor (pr_window_flags p) SAVANXP_WM_WINDOW_STYLE_FIXED_SIZE)
    (pr_icon_extent p) (pr_fallback_icon_id p) (pr_icon_pixels p).

(** The owner's presentation with a title of its own. *)
Definition titled (title : list Z) (p : windowd_presentation) : windowd_presentation :=
  mk_presentation (write_string (pr_label p) (take (Z.to_nat (zlen (pr_label p) - 1)) title)) (pr_accent p) (pr_accent_declared p)
    (pr_window_flags p) (pr_icon_extent p) (pr_fallback_icon_id p) (pr_icon_pixels p).

(** The window of the owner's process in a slot, its surface set up. *)
Definition owned_client (owner_slot slot : Z) (r : window_request) (role role_flags : Z) (presentation : windowd_presentation) (owner : windowd_client) (u : surface_setup) : windowd_client :=
  put_shared (wc_path owner) (mk_hint 0 true (hs_cascade (wc_hint owner)) 0) 0 None
  (put_role role role_flags (fixed_size presentation)
    (put_identity (wc_pid owner) owner_slot (wr_window_id r)
      (put_channels (su_events u) (su_native u) (session_surface_id slot)
        (put_surface (Some (su_header u)) (Some (su_memory u)) (owned_info r) reset_client)))).

(** [setup]: the error of the call that failed, or the surface. *)
Definition open_owned_window (owner_slot : Z) (r : window_request) (setup : Z + surface_setup) (answer : option fb_info)
    (s : windowd_session) : windowd_session * Z :=
  let display := layout_display s in
  if owned_refused s owner_slot r (WINDOWD_WINDOW_BORDER * 2) (WINDOWD_WINDOW_TITLEBAR_HEIGHT + WINDOWD_WINDOW_BORDER)
  then (s, - SAVANXP_EINVAL)
  else
    let slot := find_free_overlay_slot s in
    if negb (overlay_slot_valid slot) then (s, - SAVANXP_ENOSPC)
    else
      let s := if se_fullscreen_slot s =? owner_slot then exit_overlay_fullscreen answer s else s in
      match setup with
      | inl error => (put_overlay slot reset_client s, error)
      | inr u =>
          let owner := overlay s owner_slot in
          let c := owned_client owner_slot slot r WINDOWD_ROLE_NORMAL 0 (titled (wr_title r) (wc_presentation owner)) owner u in
          let width := i32 (wr_width r) + WINDOWD_WINDOW_BORDER * 2 in
          let height := i32 (wr_height r) + WINDOWD_WINDOW_TITLEBAR_HEIGHT + WINDOWD_WINDOW_BORDER in
          let frame := windowd_client_frame_rect owner in
          let '(x, y) := windowd_clamp_overlay_frame_position display width height
                           (rx frame + (rw frame - width) ÷ 2) (ry frame + (rh frame - height) ÷ 2) in
          let c := put_fullscreen false true false (keep_place (put_position x y (put_extent width height c))) in
          let s := raise_overlay slot (put_overlay slot c s) in
          (windowd_dirty_rect_add_client (overlay s slot) (windowd_dirty_rect_add_client (overlay s owner_slot) s), 0)
      end.

Definition open_owned_popup (owner_slot : Z) (r : window_request) (setup : Z + surface_setup) (answer : option fb_info)
    (s : windowd_session) : windowd_session * Z :=
  let display := layout_display s in
  if wc_minimized (overlay s owner_slot) || owned_refused s owner_slot r 0 0
  then (s, - SAVANXP_EINVAL)
  else
    let slot := find_free_overlay_slot s in
    if negb (overlay_slot_valid slot) then (s, - SAVANXP_ENOSPC)
    else
      let s := if se_fullscreen_slot s =? owner_slot then exit_overlay_fullscreen answer s else s in
      match setup with
      | inl error => (put_overlay slot reset_client s, error)
      | inr u =>
          let owner := overlay s owner_slot in
          let c := owned_client owner_slot slot r WINDOWD_ROLE_POPUP (wr_role_flags r) (wc_presentation owner) owner u in
          let surface := windowd_client_surface_rect owner in
          let x := windowd_clamp_int (rx surface + wr_x r) 0 (fb_width display - i32 (wr_width r)) in
          let y := windowd_clamp_int (ry surface + wr_y r) 0 (fb_height display - i32 (wr_height r)) in
          let c := keep_place (put_position x y (put_extent (i32 (wr_width r)) (i32 (wr_height r)) c)) in
          let s := raise_overlay owner_slot (put_overlay slot c s) in
          (windowd_dirty_rect_add_client (overlay s slot) s, 0)
      end.

Definition close_owned_window (owner_slot window_id : Z) (answer : option fb_info) (s : windowd_session) : windowd_session :=
  let slot := owned_window_slot s owner_slot window_id in
  if (window_id =? 0) || negb (overlay_slot_valid slot) then s
  else
    let was_active := bool_decide (se_kind s = ClientApp) && (se_active_slot s =? slot) in
    let frame := windowd_client_frame_rect (overlay s slot) in
    let s := dirty_rect frame (destroy_overlay_client slot answer s) in
    let s := if was_active then raise_overlay owner_slot s else s in
    windowd_dirty_rect_add_client (overlay s owner_slot) s.

Definition destroy_desktop (s : windowd_session) : windowd_session :=
  put_hotkeys [] 0 (put_desktop (replicate (length (se_desktop s)) reset_client) s).

(** The processes that ended.  [answers]: compositord's, for each slot. *)
Definition reap_dead_clients (alive : Z -> bool) (answers : Z -> option fb_info) (s : windowd_session) : windowd_session :=
  let d := desktop_window s 0 in
  let s := if ((wc_pid d >? 0) && negb (alive (wc_pid d))) || ((wc_reserved_pid d >? 0) && negb (alive (wc_reserved_pid d)))
           then windowd_dirty_rect_add_fullscreen (destroy_desktop s) else s in
  for_z 0 WINDOWD_MAX_OVERLAY_CLIENTS (fun slot s =>
    let c := overlay s slot in
    if (wc_pid c >? 0) && (wc_owner_slot c <? 0) && negb (alive (wc_pid c))
    then windowd_dirty_rect_add_fullscreen (destroy_overlay_client slot (answers slot) s)
    else if (wc_reserved_pid c >? 0) && negb (alive (wc_reserved_pid c)) then destroy_client_instance slot s else s) s.

(** What the shell asks for ([struct savanxp_wm_shell_request]). *)
Inductive shell_request :=
| ShellHotkey (key modifiers : Z)
| ShellActivate (window_id : Z)
| ShellMinimize (window_id : Z).

(** One turn of [service_shell_requests]. *)
Definition service_shell_request (r : shell_request) (s : windowd_session) : windowd_session :=
  match r with
  | ShellHotkey key modifiers => register_hotkey key modifiers s
  | ShellActivate id =>
      let slot := resolve_window_id s id in
      if negb (overlay_slot_valid slot) then s
      else repaint_activation_change (se_active_slot s) (activate_task slot s)
  | ShellMinimize id =>
      let slot := resolve_window_id s id in
      if negb (overlay_slot_valid slot) then s
      else
        let previous := se_active_slot s in
        let s := if negb (wc_minimized (overlay s slot)) then minimize_overlay_client slot s else s in
        repaint_activation_change previous s
  end.
