(* ===== verification/WmScene.v ===== *)
(** * The scene the window manager builds

    The scene has room for every layer, so it is a list that can be written
    down: the fallback background, the desktop's background, the windows in
    stacking order, panels, popups, the switcher, the elevation prompt.  From
    that form: the prompt is above everything and has all the input while it is
    up; the layers keep the compositor's rules; the hit test finds the window
    whose layer is in front. *)

From S2P Require Import Prelude Rect Region Painter Scene SceneFacts SceneRun Consent Presentation Wm WmInput.

(** The arrays of a session have their sizes. *)
Record session_ok (s : windowd_session) : Prop := {
  so_count : 0 <= se_count s <= WINDOWD_MAX_OVERLAY_CLIENTS;
  so_order : zlen (se_order s) = WINDOWD_MAX_OVERLAY_CLIENTS;
  so_overlays : zlen (se_overlays s) = WINDOWD_MAX_OVERLAY_CLIENTS;
  so_desktop : zlen (se_desktop s) = WINDOWD_DESKTOP_WINDOW_COUNT }.

(** ** Layers as lists *)

Definition wm_layer (rect : sx_rect) : compositor_layer :=
  mk_layer SAVANXP_COMPOSITOR_SURFACE_WM SAVANXP_COMPOSITOR_LAYER_OPAQUE rect rect.
Definition wm_layers (rect : sx_rect) : list compositor_layer := if sx_rect_is_empty rect then [] else [wm_layer rect].

Definition surface_layer (c : windowd_client) (dst : sx_rect) : compositor_layer :=
  mk_layer (wc_surface_id c) SAVANXP_COMPOSITOR_LAYER_OPAQUE
    (sx_rect_make 0 0 (fb_width (wc_info c)) (fb_height (wc_info c))) dst.

Definition window_layers (c : windowd_client) : list compositor_layer :=
  if windowd_client_in_scene c
  then (if wc_frame_visible c then wm_layers (windowd_client_frame_rect c) else []) ++
       [surface_layer c (windowd_client_surface_rect c)]
  else [].

Definition has_role (s : windowd_session) (role index : Z) : bool := wc_role (desktop_window s index) =? role.

(** The windows of a role, and the overlay windows, from the bottom up. *)
Definition desktop_places (s : windowd_session) (role : Z) : list place :=
  map Desktop (List.filter (has_role s role) (seqZ 0 WINDOWD_DESKTOP_WINDOW_COUNT)).
Definition overlay_places (s : windowd_session) : list place :=
  map Overlay (List.filter overlay_slot_valid (take (Z.to_nat (se_count s)) (se_order s))).

Definition layers_of (s : windowd_session) (l : list place) : list compositor_layer :=
  flat_map (fun p => window_layers (client_of s p)) l.

Definition screen_rect (s : windowd_session) : sx_rect := sx_rect_make 0 0 (fb_width (se_info s)) (fb_height (se_info s)).

(** A window in fullscreen. *)
Definition in_fullscreen (s : windowd_session) : bool := overlay_slot_valid (se_fullscreen_slot s).

(** What lies between the backgrounds and the switcher. *)
Definition middle_layers (s : windowd_session) : list compositor_layer :=
  if in_fullscreen s then
    layers_of s (desktop_places s WINDOWD_ROLE_PANEL) ++
    (if windowd_client_in_scene (overlay s (se_fullscreen_slot s))
     then [surface_layer (overlay s (se_fullscreen_slot s)) (screen_rect s)] else [])
  else
    layers_of s (overlay_places s ++ desktop_places s WINDOWD_ROLE_PANEL ++ desktop_places s WINDOWD_ROLE_POPUP).

Definition scene_layers (s : windowd_session) : list compositor_layer :=
  wm_layers (screen_rect s) ++ layers_of s (desktop_places s WINDOWD_ROLE_BACKGROUND) ++ middle_layers s ++
  (if se_switcher_open s then wm_layers (windowd_switcher_rect (se_info s)) else []) ++
  (if cs_open (se_consent s) then wm_layers (windowd_consent_rect (se_consent s) (se_info s)) else []).

(** ** There is room for all of them *)

(** An operation that adds layers when there is room. *)
Definition adds (capacity : Z) (f : list compositor_layer -> list compositor_layer) (g : list compositor_layer) : Prop :=
  forall layers, zlen layers + zlen g <= capacity -> f layers = layers ++ g.

Lemma adds_nothing capacity : adds capacity (fun l => l) [].
Proof. intros l _. by rewrite app_nil_r. Qed.

Lemma adds_then capacity f g f' g' : adds capacity f g -> adds capacity f' g' -> adds capacity (fun l => f' (f l)) (g ++ g').
Proof.
  intros H H' l Hl. rewrite zlen_app in Hl. pose proof (zlen_nonneg g'). rewrite H by lia.
  rewrite H' by (rewrite zlen_app; lia). by rewrite <- app_assoc.
Qed.

Lemma adds_wm capacity rect : adds capacity (add_wm_layer capacity rect) (wm_layers rect).
Proof.
  intros l Hl. unfold add_wm_layer, wm_layers in *. destruct (sx_rect_is_empty rect); [by rewrite orb_true_r, app_nil_r|].
  change (zlen [wm_layer rect]) with 1 in Hl. by replace (zlen l >=? capacity) with false by lia.
Qed.

Lemma adds_surface capacity c dst : adds capacity (add_surface_layer capacity c dst) [surface_layer c dst].
Proof.
  intros l Hl. unfold add_surface_layer. change (zlen [_]) with 1 in Hl. by replace (zlen l >=? capacity) with false by lia.
Qed.

Lemma adds_window capacity c : adds capacity (add_window_layers capacity c) (window_layers c).
Proof.
  unfold add_window_layers, window_layers. destruct (windowd_client_in_scene c); cbn [negb]; [|apply adds_nothing].
  apply (adds_then capacity (fun l => if wc_frame_visible c then _ else l)); [|apply adds_surface].
  destruct (wc_frame_visible c); [apply adds_wm|apply adds_nothing].
Qed.

(** A loop over the integers of a range. *)
Lemma for_z_seqZ {S} lo hi (f : Z -> S -> S) s : for_z lo hi f s = fold_left (fun s i => f i s) (seqZ lo (hi - lo)) s.
Proof.
  unfold for_z, seqZ. generalize (seq 0 (Z.to_nat (hi - lo))). intros l. revert s.
  induction l as [|i l IH]; intros s; cbn; [done|]. rewrite IH. by rewrite Z.add_comm.
Qed.

(** A loop of such operations. *)
Lemma adds_each {A} capacity (f : A -> list compositor_layer -> list compositor_layer) g xs :
  (forall i, adds capacity (f i) (g i)) -> adds capacity (fun l => fold_left (fun l i => f i l) xs l) (flat_map g xs).
Proof.
  intros Hf. induction xs as [|x xs IH]; [apply adds_nothing|]. cbn [fold_left flat_map].
  exact (adds_then capacity (f x) (g x) _ _ (Hf x) IH).
Qed.

Lemma flat_map_filter {A B} (p : A -> bool) (g : A -> list B) l :
  flat_map (fun x => if p x then g x else []) l = flat_map g (List.filter p l).
Proof. induction l as [|x l IH]; [done|]. cbn. destruct (p x); cbn; by rewrite IH. Qed.

Lemma flat_map_fmap {A B C} (h : A -> B) (g : B -> list C) l : flat_map g (map h l) = flat_map (fun x => g (h x)) l.
Proof. induction l as [|x l IH]; [done|]. cbn. by rewrite IH. Qed.

Lemma adds_desktop capacity s role : adds capacity (add_desktop_layers capacity s role) (layers_of s (desktop_places s role)).
Proof.
  unfold layers_of, desktop_places. rewrite flat_map_fmap, <- flat_map_filter. intros l. unfold add_desktop_layers.
  rewrite for_z_seqZ. apply (adds_each capacity (fun index l => if wc_role (desktop_window s index) =? role
    then add_window_layers capacity (desktop_window s index) l else l)). intros i. cbn [client_of].
  unfold has_role. destruct (_ =? role); [apply adds_window|apply adds_nothing].
Qed.

(** The slots of the order, as the loops read them. *)
Lemma order_seqZ s : session_ok s ->
  map (order_at s) (seqZ 0 (se_count s)) = take (Z.to_nat (se_count s)) (se_order s).
Proof.
  intros [Hc Ho _ _]. apply list_eq. intros i. destruct (decide (i < Z.to_nat (se_count s))%nat) as [Hi|Hi].
  - rewrite list_lookup_fmap, lookup_seqZ_lt by lia. cbn. rewrite lookup_take_lt by done. unfold order_at, at_, zlen in *.
    replace (0 + Z.of_nat i <? 0) with false by lia. replace (Z.to_nat (0 + Z.of_nat i)) with i by lia.
    destruct (lookup_lt_is_Some_2 (se_order s) i) as [x Hx]; [lia|]. by rewrite Hx, (nth_lookup_Some _ _ _ _ Hx).
  - rewrite list_lookup_fmap, lookup_seqZ_ge by lia. cbn. symmetry. apply lookup_take_ge. lia.
Qed.

Lemma adds_overlays capacity s : session_ok s -> adds capacity (add_overlay_layers capacity s) (layers_of s (overlay_places s)).
Proof.
  intros H. unfold layers_of, overlay_places. rewrite flat_map_fmap, <- flat_map_filter, <- order_seqZ, flat_map_fmap by done.
  intros l. unfold add_overlay_layers. rewrite for_z_seqZ, Z.sub_0_r.
  apply (adds_each capacity (fun index l => if overlay_slot_valid (order_at s index)
    then add_window_layers capacity (overlay s (order_at s index)) l else l)). intros i. cbn [client_of].
  destruct (overlay_slot_valid _); [apply adds_window|apply adds_nothing].
Qed.

(** ** How many there are *)

Lemma wm_layers_length rect : zlen (wm_layers rect) <= 1.
Proof. unfold wm_layers. by case_if. Qed.

Lemma window_layers_length c : zlen (window_layers c) <= 2.
Proof.
  unfold window_layers. destruct (windowd_client_in_scene c); [|done]. rewrite zlen_app.
  destruct (wc_frame_visible c); [pose proof (wm_layers_length (windowd_client_frame_rect c))|]; change (zlen [_]) with 1;
    [lia|change (zlen []) with 0; lia].
Qed.

Lemma layers_of_app s l k : layers_of s (l ++ k) = layers_of s l ++ layers_of s k.
Proof. unfold layers_of. apply flat_map_app. Qed.

Lemma layers_of_length s l : zlen (layers_of s l) <= 2 * zlen l.
Proof.
  induction l as [|p l IH]; [done|]. unfold layers_of in *. cbn [flat_map].
  rewrite zlen_app. change (p :: l) with ([p] ++ l). rewrite zlen_app. change (zlen [p]) with 1.
  pose proof (window_layers_length (client_of s p)). lia.
Qed.

(** A window has one role. *)
Lemma desktop_places_length s a b c : a <> b -> a <> c -> b <> c ->
  zlen (desktop_places s a) + zlen (desktop_places s b) + zlen (desktop_places s c) <= WINDOWD_DESKTOP_WINDOW_COUNT.
Proof.
  intros Hab Hac Hbc. unfold desktop_places, zlen. rewrite !length_map.
  enough (forall l, (length (List.filter (has_role s a) l) +
    length (List.filter (has_role s b) l) +
    length (List.filter (has_role s c) l) <= length l)%nat) as H.
  { specialize (H (seqZ 0 WINDOWD_DESKTOP_WINDOW_COUNT)). rewrite length_seqZ in H.
    change WINDOWD_DESKTOP_WINDOW_COUNT with 5 in *. lia. }
  induction l as [|i l IH]; [done|]. cbn [List.filter]. unfold has_role in *.
  destruct (_ =? a) eqn:Ea, (_ =? b) eqn:Eb, (_ =? c) eqn:Ec; cbn [length]; lia.
Qed.

Lemma overlay_places_length s : session_ok s -> zlen (overlay_places s) <= WINDOWD_MAX_OVERLAY_CLIENTS.
Proof.
  intros [Hc _ _ _]. unfold overlay_places, zlen. rewrite length_map.
  pose proof (List.filter_length_le overlay_slot_valid (take (Z.to_nat (se_count s)) (se_order s))) as H.
  rewrite length_take in H. lia.
Qed.

Lemma scene_room s : session_ok s -> zlen (scene_layers s) <= SAVANXP_COMPOSITOR_MAX_LAYERS.
Proof.
  intros H. pose proof (overlay_places_length s H). unfold scene_layers, middle_layers. rewrite !zlen_app.
  pose proof (desktop_places_length s WINDOWD_ROLE_BACKGROUND WINDOWD_ROLE_PANEL WINDOWD_ROLE_POPUP) as Hd.
  pose proof (wm_layers_length (screen_rect s)). pose proof (wm_layers_length (windowd_switcher_rect (se_info s))).
  pose proof (wm_layers_length (windowd_consent_rect (se_consent s) (se_info s))).
  pose proof (layers_of_length s (desktop_places s WINDOWD_ROLE_BACKGROUND)).
  pose proof (layers_of_length s (desktop_places s WINDOWD_ROLE_PANEL)).
  pose proof (layers_of_length s (desktop_places s WINDOWD_ROLE_POPUP)).
  pose proof (layers_of_length s (overlay_places s)).
  specialize (Hd ltac:(done) ltac:(done) ltac:(done)).
  pose proof (zlen_nonneg (desktop_places s WINDOWD_ROLE_POPUP)).
  change WINDOWD_DESKTOP_WINDOW_COUNT with 5 in *. change WINDOWD_MAX_OVERLAY_CLIENTS with 12 in *.
  change SAVANXP_COMPOSITOR_MAX_LAYERS with 48.
  assert (zlen (if se_switcher_open s then wm_layers (windowd_switcher_rect (se_info s)) else []) <= 1) by (by case_if).
  assert (zlen (if cs_open (se_consent s) then wm_layers (windowd_consent_rect (se_consent s) (se_info s)) else []) <= 1) by (by case_if).
  destruct (in_fullscreen s); rewrite ?layers_of_app, ?zlen_app; [|lia].
  assert (zlen (if windowd_client_in_scene (overlay s (se_fullscreen_slot s))
    then [surface_layer (overlay s (se_fullscreen_slot s)) (screen_rect s)] else []) <= 1) by (by case_if). lia.
Qed.

(** The parts of the scene as operations. *)
Definition add_middle (cap : Z) (s : windowd_session) (l : list compositor_layer) : list compositor_layer :=
  if in_fullscreen s then
    let l := add_desktop_layers cap s WINDOWD_ROLE_PANEL l in
    if windowd_client_in_scene (overlay s (se_fullscreen_slot s))
    then add_surface_layer cap (overlay s (se_fullscreen_slot s)) (screen_rect s) l else l
  else
    let l := add_overlay_layers cap s l in
    let l := add_desktop_layers cap s WINDOWD_ROLE_PANEL l in
    add_desktop_layers cap s WINDOWD_ROLE_POPUP l.
Definition add_optional (cap : Z) (b : bool) (rect : sx_rect) (l : list compositor_layer) : list compositor_layer :=
  if b then add_wm_layer cap rect l else l.

Lemma adds_middle cap s : session_ok s -> adds cap (add_middle cap s) (middle_layers s).
Proof.
  intros H. unfold add_middle, middle_layers. destruct (in_fullscreen s).
  - eapply (adds_then cap _ _ (fun l => if windowd_client_in_scene (overlay s (se_fullscreen_slot s))
      then add_surface_layer cap (overlay s (se_fullscreen_slot s)) (screen_rect s) l else l)); [apply adds_desktop|].
    destruct (windowd_client_in_scene _); [apply adds_surface|apply adds_nothing].
  - rewrite !layers_of_app. exact (adds_then cap _ _ _ _ (adds_overlays cap s H)
      (adds_then cap _ _ _ _ (adds_desktop cap s WINDOWD_ROLE_PANEL) (adds_desktop cap s WINDOWD_ROLE_POPUP))).
Qed.

Lemma adds_optional cap b rect : adds cap (add_optional cap b rect) (if b then wm_layers rect else []).
Proof. destruct b; [apply adds_wm|apply adds_nothing]. Qed.

(** The scene is the list. *)
Lemma build_scene_is s : session_ok s -> windowd_build_scene s SAVANXP_COMPOSITOR_MAX_LAYERS = scene_layers s.
Proof.
  intros H. pose proof (scene_room s H) as Hroom. set (cap := SAVANXP_COMPOSITOR_MAX_LAYERS) in *.
  pose proof (adds_then cap _ _ _ _ (adds_wm cap (screen_rect s))
    (adds_then cap _ _ _ _ (adds_desktop cap s WINDOWD_ROLE_BACKGROUND)
    (adds_then cap _ _ _ _ (adds_middle cap s H)
    (adds_then cap _ _ _ _ (adds_optional cap (se_switcher_open s) (windowd_switcher_rect (se_info s)))
      (adds_optional cap (cs_open (se_consent s)) (windowd_consent_rect (se_consent s) (se_info s))))))) as Ha.
  specialize (Ha []). etrans; [|apply Ha; change (zlen []) with 0; exact Hroom]. reflexivity.
Qed.

(** ** A session to try things on *)

(** A desktop of one background with a window over it. *)
Definition sample_info : fb_info := mk_info 1024 768 4096 32 3145728.
Definition sample_client (pid owner role surface x y : Z) (frame : bool) (info : fb_info) : windowd_client :=
  mk_wclient pid 0 owner 0 role 0 presentation0 0 true false false 0 false surface true (Some (mk_header (fb_width info) (fb_height info) false false))
    (Some [0]) info x y (if frame then fb_width info + 8 else fb_width info) (if frame then fb_height info + 28 else fb_height info)
    (mk_rect x y 0 0) frame false false false false false 0 0 false false [] hint0 None.
Definition sample_window (pid surface x y : Z) : windowd_client :=
  sample_client pid (-1) WINDOWD_ROLE_NORMAL surface x y true (mk_info 320 200 1280 32 256000).
Definition sample_session (windows : list windowd_client) (active : Z) (consent : windowd_consent) : windowd_session :=
  mk_session sample_info sample_info ClientApp active (-1) (zlen windows)
    (seqZ 0 (zlen windows) ++ replicate (12 - length windows) (-1))
    (sample_client 7 (-1) WINDOWD_ROLE_BACKGROUND 2 0 0 false sample_info :: replicate 4 reset_client)
    (windows ++ replicate (12 - length windows) reset_client) (mk_resize (-1) 0 (mk_rect 0 0 0 0) 0 0) false 0 consent
    [] 0 0 0 false (mk_capture false false 0 0) sx_region_clear [].

Definition sample_prompt : windowd_consent :=
  mk_consent 3 4 5 0 true 0 0 (-1) (-1) request0 text0 text0 400 200 [].

Lemma sample_session_ok windows active consent : (length windows <= 12)%nat -> session_ok (sample_session windows active consent).
Proof.
  intros H. split; unfold sample_session, WINDOWD_MAX_OVERLAY_CLIENTS, WINDOWD_DESKTOP_WINDOW_COUNT, zlen; cbn [se_count se_order se_overlays se_desktop].
  - lia.
  - rewrite length_app, length_seqZ, length_replicate. lia.
  - rewrite length_app, length_replicate. lia.
  - reflexivity.
Qed.

(** ** The elevation prompt *)

(** Nothing changed but the prompt, the cursor and the damage: no window, no
    focus, no event to a client. *)
Record only_prompt (s s' : windowd_session) : Prop := {
  op_sent : se_sent s' = se_sent s;
  op_windows : se_overlays s' = se_overlays s /\ se_desktop s' = se_desktop s;
  op_order : se_order s' = se_order s /\ se_count s' = se_count s;
  op_focus : se_kind s' = se_kind s /\ se_active_slot s' = se_active_slot s;
  op_screen : se_info s' = se_info s /\ se_fullscreen_slot s' = se_fullscreen_slot s;
  op_keys : se_hotkeys s' = se_hotkeys s /\ se_hotkey_held s' = se_hotkey_held s /\
            se_switcher_open s' = se_switcher_open s /\ se_switcher_selected s' = se_switcher_selected s;
  op_drag : se_resize s' = se_resize s /\ se_capture s' = se_capture s }.

Lemma only_prompt_dirty s s' r : only_prompt s s' -> only_prompt s (dirty_rect r s').
Proof.
  intros H. unfold dirty_rect, windowd_dirty_rect_add. destruct (clip_rect_to_framebuffer _ _); [|done].
  destruct H. by split.
Qed.

Lemma only_prompt_consent s c : only_prompt s (put_consent c s).
Proof. by split. Qed.

Lemma only_prompt_cursor s s' a b m : only_prompt s s' -> only_prompt s (put_cursor a b m s').
Proof. intros H. destruct H. by split. Qed.

(** C14. The elevation prompt owns the session: while it is up, its box is the
    last layer of the scene windowd commits, whatever windows, panels, popups,
    switcher or fullscreen app there are, and no layer is dropped for want of
    room; and every key and every mouse event goes to the prompt and to nothing
    else: no event is offered to a client, no window moves, opens, closes or
    changes place, no hotkey and no key of the window manager works. *)
Theorem prompt_owns_session (s : windowd_session) (key : savanxp_input_event) (event : savanxp_mouse_event) (now_ms : Z)
    (answer : option fb_info) (p : pointer) (Hs : session_ok s) (Ho : cs_open (se_consent s) = true) :
  (exists below, windowd_build_scene s SAVANXP_COMPOSITOR_MAX_LAYERS =
     below ++ wm_layers (windowd_consent_rect (se_consent s) (se_info s)) /\
     zlen (scene_layers s) <= SAVANXP_COMPOSITOR_MAX_LAYERS) /\
  (only_prompt s (main_key key now_ms answer s) /\
   se_consent (main_key key now_ms answer s) = fst (fst (windowd_consent_key (se_consent s) key now_ms))) /\
  let '(q, s') := main_mouse event now_ms answer p s in
  only_prompt s s' /\
  se_consent s' = fst (fst (windowd_consent_pointer (se_consent s) (se_info s) (pt_x q) (pt_y q) (me_buttons event)
                             (pt_last_buttons p) now_ms)).
Proof.
  split; [|split].
  - rewrite build_scene_is by done. unfold scene_layers. rewrite Ho.
    eexists. split; [by rewrite !app_assoc|]. pose proof (scene_room s Hs) as Hr. unfold scene_layers in Hr.
    by rewrite Ho in Hr.
  - unfold main_key. destruct (windowd_consent_key (se_consent s) key now_ms) as [[c taken] changed] eqn:E.
    assert (taken = true) as ->.
    { unfold windowd_consent_key in E. rewrite Ho in E. cbn [negb] in E.
      revert E. case_ifs; congruence. }
    cbn [fst]. destruct changed; [|by split].
    split; [apply only_prompt_dirty, only_prompt_consent|]. unfold dirty_consent, dirty_rect, windowd_dirty_rect_add.
    by destruct (clip_rect_to_framebuffer _ _).
  - unfold main_mouse.
    assert (Hc : (if cp_captured (se_capture s) then capture_client s else None) = None).
    { destruct (cp_captured _); [|done]. unfold capture_client. destruct (active_client s) as [pl|]; [|done].
      destruct (wc_header _); [|done]. by rewrite Ho. }
    rewrite Hc. unfold handle_pointer_event. destruct (move_cursor _ _ _ _) as [x y]. rewrite Ho.
    destruct (windowd_consent_pointer _ _ _ _ _ _ _) as [[c taken] changed] eqn:E. cbn [pt_x pt_y]. rewrite E. cbn [fst].
    set (s1 := if changed then dirty_consent (put_consent c s) else put_consent c s).
    assert (H1 : only_prompt s s1 /\ se_consent s1 = c).
    { unfold s1. destruct changed; [|by split].
      split; [apply only_prompt_dirty, only_prompt_consent|]. unfold dirty_consent, dirty_rect, windowd_dirty_rect_add.
      by destruct (clip_rect_to_framebuffer _ _). }
    clearbody s1. destruct H1 as [H1 H2]. unfold refresh_cursor_after_move, change_shape.
    destruct (_ && _ && _); (split; [repeat apply only_prompt_cursor; exact H1|exact H2]).
Qed.

(** Alt+Tab with the prompt over two windows. *)
Lemma prompt_owns_session_witness :
  let s := sample_session [sample_window 20 8 40 40; sample_window 21 9 200 90] 1 sample_prompt in
  let key := mk_key SAVANXP_INPUT_EVENT_KEY_DOWN SAVANXP_KEY_TAB SAVANXP_KEY_MOD_ALT 0 in
  session_ok s /\ only_prompt s (main_key key 5 None s).
Proof.
  intros s key. assert (Hs : session_ok s) by (apply sample_session_ok; cbn; lia).
  split; [exact Hs|].
  exact (proj1 (proj1 (proj2 (prompt_owns_session s key (mk_mouse 0 0 0 0 0 0 0) 5 None (mk_pointer 0 0 0 (-1) 0 0) Hs eq_refl)))).
Defined.

(** ** The hit test *)

Definition layer_has (x y : Z) (l : compositor_layer) : bool := sx_rect_contains_point (ly_dst l) x y.
Definition covers (s : windowd_session) (x y : Z) (p : place) : bool := existsb (layer_has x y) (window_layers (client_of s p)).

(** A window with a frame: its surface lies inside it. *)
Definition framed (c : windowd_client) : Prop :=
  0 <= fb_width (wc_info c) /\ 0 <= fb_height (wc_info c) /\
  wc_width c = fb_width (wc_info c) + WINDOWD_WINDOW_BORDER * 2 /\
  wc_height c = fb_height (wc_info c) + WINDOWD_WINDOW_TITLEBAR_HEIGHT + WINDOWD_WINDOW_BORDER.

(** Every window that is not minimized has its first frame and takes part in the
    scene; the desktop's windows have no frames. *)
Record all_shown (s : windowd_session) : Prop := {
  as_overlay : forall slot, overlay_slot_valid slot = true -> overlay_client_visible (overlay s slot) = true ->
    windowd_client_in_scene (overlay s slot) = true /\ (wc_frame_visible (overlay s slot) = true -> framed (overlay s slot));
  as_desktop : forall index, 0 <= index < WINDOWD_DESKTOP_WINDOW_COUNT -> wc_pid (desktop_window s index) > 0 ->
    windowd_client_in_scene (desktop_window s index) = true /\ wc_frame_visible (desktop_window s index) = false }.

Lemma in_scene_visible c : windowd_client_in_scene c = true -> overlay_client_visible c = true /\ wc_pid c > 0.
Proof. unfold windowd_client_in_scene, overlay_client_visible. intros H. destruct (wc_minimized c); lia. Qed.

Lemma overlay_covers s x y slot : all_shown s -> overlay_slot_valid slot = true ->
  covers s x y (Overlay slot) = overlay_client_visible (overlay s slot) && windowd_point_in_frame (overlay s slot) x y.
Proof.
  intros Ha Hv. unfold covers. cbn [client_of]. set (c := overlay s slot).
  destruct (overlay_client_visible c) eqn:Hvis; cbn [andb].
  - destruct (as_overlay s Ha slot Hv Hvis) as [Hin Hf]. fold c in Hin, Hf. destruct (in_scene_visible c Hin) as [_ Hpid].
    unfold window_layers, windowd_point_in_frame, windowd_client_frame_rect, windowd_client_surface_rect. rewrite Hin.
    replace (wc_pid c <=? 0) with false by lia. destruct (wc_frame_visible c); cbn [negb].
    + destruct (Hf eq_refl) as (H1 & H2 & H3 & H4). rewrite existsb_app. unfold wm_layers.
      destruct (sx_rect_is_empty _) eqn:E; cbn [existsb]; unfold layer_has, wm_layer, surface_layer; cbn [ly_dst];
        unfold sx_rect_contains_point, sx_rect_is_empty, sx_rect_right, sx_rect_bottom, sx_rect_make in *;
        cbn [rx ry rw rh] in *; unfold WINDOWD_WINDOW_BORDER, WINDOWD_WINDOW_TITLEBAR_HEIGHT in *; lia.
    + cbn [app existsb]. by rewrite orb_false_r.
  - unfold window_layers. destruct (windowd_client_in_scene c) eqn:Hin; [|done].
    apply in_scene_visible in Hin as [Hin _]. congruence.
Qed.

Lemma desktop_covers s x y index : all_shown s -> 0 <= index < WINDOWD_DESKTOP_WINDOW_COUNT ->
  covers s x y (Desktop index) = (wc_pid (desktop_window s index) >? 0) && windowd_point_in_client (desktop_window s index) x y.
Proof.
  intros Ha Hi. unfold covers. cbn [client_of]. set (c := desktop_window s index).
  destruct (wc_pid c >? 0) eqn:Hpid; cbn [andb].
  - destruct (as_desktop s Ha index Hi) as [Hin Hf]; [fold c; lia|]. fold c in Hin, Hf.
    unfold window_layers. rewrite Hin, Hf. cbn [app existsb]. by rewrite orb_false_r.
  - unfold window_layers. destruct (windowd_client_in_scene c) eqn:Hin; [|done].
    apply in_scene_visible in Hin as [_ Hin]. lia.
Qed.

(** The search from the top, on lists. *)
Lemma first_slot_find (p : Z -> bool) l : first_slot p l = List.find p l.
Proof.
  unfold first_slot. induction l as [|x l IH]; [done|]. cbn [list_find List.find].
  destruct (p x) eqn:E; [by rewrite decide_True|]. rewrite decide_False by congruence. rewrite <- IH.
  by destruct (list_find _ l) as [[? ?]|].
Qed.

Lemma find_map {A B} (h : A -> B) (p : B -> bool) l : List.find p (map h l) = fmap h (List.find (fun x => p (h x)) l).
Proof. induction l as [|x l IH]; [done|]. cbn. destruct (p (h x)); [done|apply IH]. Qed.

Lemma find_app {A} (p : A -> bool) l k :
  List.find p (l ++ k) = match List.find p l with Some x => Some x | None => List.find p k end.
Proof. induction l as [|x l IH]; [done|]. cbn. destruct (p x); [done|apply IH]. Qed.

Lemma find_filter {A} (p q : A -> bool) l : List.find p (List.filter q l) = List.find (fun x => q x && p x) l.
Proof. induction l as [|x l IH]; [done|]. cbn. destruct (q x) eqn:Eq; cbn; [destruct (p x); [done|]|]; apply IH. Qed.

Lemma find_ext_in {A} (p q : A -> bool) l : (forall x, In x l -> p x = q x) -> List.find p l = List.find q l.
Proof.
  induction l as [|x l IH]; intros H; [done|]. cbn. rewrite (H x) by (by left). destruct (q x); [done|].
  apply IH. intros y Hy. apply H. by right.
Qed.

Lemma filter_rev_list {A} (q : A -> bool) l : List.filter q (rev l) = rev (List.filter q l).
Proof.
  induction l as [|x l IH]; [done|]. cbn [rev List.filter]. rewrite List.filter_app, IH. cbn.
  destruct (q x); cbn [rev]; [done|by rewrite app_nil_r].
Qed.

Definition shown_places (s : windowd_session) : list place :=
  desktop_places s WINDOWD_ROLE_BACKGROUND ++ overlay_places s ++ desktop_places s WINDOWD_ROLE_PANEL ++
  desktop_places s WINDOWD_ROLE_POPUP.

Lemma top_desktop_find s role x y : all_shown s ->
  top_desktop_window_at_point s role x y = List.find (covers s x y) (rev (desktop_places s role)).
Proof.
  intros Ha. unfold top_desktop_window_at_point, desktop_places, desktop_down.
  rewrite first_slot_find, <- map_rev, find_map, <- filter_rev_list, find_filter. f_equal.
  apply find_ext_in. intros i Hi%in_rev%list_elem_of_In%elem_of_seqZ. unfold has_role.
  rewrite desktop_covers by (done || lia). destruct (_ >? 0), (_ =? role); reflexivity.
Qed.

Lemma top_overlay_find s x y : all_shown s ->
  top_overlay_client_at_point s x y = List.find (covers s x y) (rev (overlay_places s)).
Proof.
  intros Ha. unfold top_overlay_client_at_point, overlay_places, top_down.
  rewrite first_slot_find, <- map_rev, find_map, <- filter_rev_list, find_filter. f_equal.
  apply find_ext_in. intros slot _. destruct (overlay_slot_valid slot) eqn:Hv; [|done]. cbn [andb].
  by rewrite overlay_covers.
Qed.

Lemma hit_find s x y : all_shown s -> se_fullscreen_slot s < 0 ->
  top_client_at_point s x y = List.find (covers s x y) (rev (shown_places s)).
Proof.
  intros Ha Hf. unfold top_client_at_point, shown_places, or_else. replace (se_fullscreen_slot s <? 0) with true by lia.
  rewrite !top_desktop_find, top_overlay_find by done. rewrite !rev_app_distr, !find_app.
  by repeat destruct (List.find _ _).
Qed.

Lemma find_last_split {A} (p : A -> bool) l x : List.find p (rev l) = Some x ->
  exists a b, l = a ++ x :: b /\ p x = true /\ Forall (fun y => p y = false) b.
Proof.
  induction l as [|y l IH] using rev_ind; [done|]. rewrite rev_app_distr. cbn.
  destruct (p y) eqn:E; [intros [= <-]; by exists l, []|].
  intros H. destruct (IH H) as (a & b & -> & Hx & Hb). exists a, (b ++ [y]).
  rewrite <- app_assoc. split_and!; [done..|]. apply Forall_app. split; [done|]. by constructor.
Qed.

Lemma existsb_last {A} (p : A -> bool) l : existsb p l = true ->
  exists a x b, l = a ++ x :: b /\ p x = true /\ Forall (fun y => p y = false) b.
Proof.
  induction l as [|y l IH] using rev_ind; [done|]. rewrite existsb_app. cbn. rewrite orb_false_r.
  destruct (p y) eqn:E; [intros _; by exists l, y, []|]. rewrite orb_false_r.
  intros H. destruct (IH H) as (a & x & b & -> & Hx & Hb). exists a, x, (b ++ [y]).
  rewrite <- app_assoc. split_and!; [done..|]. apply Forall_app. split; [done|]. by constructor.
Qed.

(** Windows that do not cover a point have no layer on it. *)
Lemma uncovered s x y l : Forall (fun p => covers s x y p = false) l -> Forall (fun k => layer_has x y k = false) (layers_of s l).
Proof.
  induction 1 as [|p l Hp Hl IH]; cbn; [constructor|]. apply Forall_app. split; [|done].
  unfold covers in Hp. induction (window_layers (client_of s p)) as [|k ks IHk]; [constructor|]. cbn in Hp.
  apply orb_false_elim in Hp as [Hk Hks]. constructor; auto.
Qed.

(** The scene of a session with neither a fullscreen app, the switcher nor the
    prompt. *)
Lemma plain_scene s : session_ok s -> se_fullscreen_slot s < 0 -> se_switcher_open s = false -> cs_open (se_consent s) = false ->
  windowd_build_scene s SAVANXP_COMPOSITOR_MAX_LAYERS = wm_layers (screen_rect s) ++ layers_of s (shown_places s).
Proof.
  intros H Hf Hsw Hc. rewrite build_scene_is by done. unfold scene_layers, middle_layers, in_fullscreen, overlay_slot_valid.
  replace (se_fullscreen_slot s >=? 0) with false by lia. cbn [andb]. rewrite Hsw, Hc, !app_nil_r.
  unfold shown_places. by rewrite !layers_of_app.
Qed.

(** C17. The window under the pointer is the one the user sees there: when every
    window that is not minimized has its first frame, nothing is in
    fullscreen, and neither the window switcher nor the consent prompt is open,
    the hit test finds exactly the window whose layer is in front at
    that point of the scene windowd commits, and finds nothing exactly when only
    the fallback background is there. *)
Theorem hit_test_is_front_layer (s : windowd_session) (x y : Z) (Hs : session_ok s) (Ha : all_shown s)
    (Hf : se_fullscreen_slot s < 0) (Hsw : se_switcher_open s = false) (Hc : cs_open (se_consent s) = false) :
  match top_client_at_point s x y with
  | Some p => exists below l above,
      windowd_build_scene s SAVANXP_COMPOSITOR_MAX_LAYERS = below ++ l :: above /\
      l ∈ window_layers (client_of s p) /\ layer_has x y l = true /\ Forall (fun k => layer_has x y k = false) above
  | None => exists above,
      windowd_build_scene s SAVANXP_COMPOSITOR_MAX_LAYERS = wm_layers (screen_rect s) ++ above /\
      Forall (fun k => layer_has x y k = false) above
  end.
Proof.
  rewrite (plain_scene s Hs Hf Hsw Hc), (hit_find s x y Ha Hf).
  destruct (List.find (covers s x y) (rev (shown_places s))) as [p|] eqn:E.
  - apply find_last_split in E as (a & b & -> & Hp & Hb).
    apply existsb_last in Hp as (la & l & lb & El & Hl & Hlb).
    exists (wm_layers (screen_rect s) ++ layers_of s a ++ la), l, (lb ++ layers_of s b). split_and!.
    + rewrite layers_of_app. change (layers_of s (p :: b)) with (window_layers (client_of s p) ++ layers_of s b).
      rewrite El. by rewrite <- !app_assoc.
    + rewrite El. apply elem_of_app. right. by left.
    + done.
    + apply Forall_app. split; [done|by apply uncovered].
  - eexists. split; [done|]. apply uncovered. apply Forall_forall. intros p Hp.
    apply (find_none _ _ E). rewrite <- in_rev. by apply list_elem_of_In.
Qed.

(** A slot of a short list of windows, or a free one. *)
Lemma sample_slots (P : windowd_client -> Prop) windows active consent :
  (length windows <= 12)%nat -> Forall P windows -> P reset_client ->
  forall slot, overlay_slot_valid slot = true -> P (overlay (sample_session windows active consent) slot).
Proof.
  intros Hl Hw H0 slot Hv. unfold overlay, sample_session, at_. cbn [se_overlays].
  destruct (slot <? 0); [done|]. rewrite <- nth_default_eq. unfold nth_default.
  destruct (nth_error _ _) as [c|] eqn:E; [|done]. apply nth_error_In, in_app_or in E as [E|E].
  - rewrite Forall_forall in Hw. apply Hw. by apply list_elem_of_In.
  - apply list_elem_of_In, elem_of_replicate in E as [-> _]. done.
Qed.

(** The pointer over the title bar of the window in front. *)
Lemma hit_test_is_front_layer_witness :
  let s := sample_session [sample_window 20 8 40 40; sample_window 21 9 200 90] 1 windowd_consent_init in
  session_ok s /\ all_shown s /\ top_client_at_point s 210 95 = Some (Overlay 1) /\
  exists below l above, windowd_build_scene s SAVANXP_COMPOSITOR_MAX_LAYERS = below ++ l :: above /\
    l ∈ window_layers (client_of s (Overlay 1)) /\ layer_has 210 95 l = true /\
    Forall (fun k => layer_has 210 95 k = false) above.
Proof.
  intros s. assert (Hs : session_ok s) by (apply sample_session_ok; cbn; lia).
  assert (Ha : all_shown s).
  { split.
    - intros slot Hv. apply (sample_slots (fun c => overlay_client_visible c = true ->
        windowd_client_in_scene c = true /\ (wc_frame_visible c = true -> framed c)));
        [cbn; lia| |done|exact Hv].
      repeat constructor; unfold framed; cbn; intros; repeat split; lia.
    - intros index Hi Hp. change (0 <= index < 5) in Hi.
      assert (index = 0 \/ index = 1 \/ index = 2 \/ index = 3 \/ index = 4) as Hc by lia.
      destruct Hc as [->|[->|[->|[->| ->]]]]; vm_compute in Hp; [done|discriminate..]. }
  split; [exact Hs|]. split; [exact Ha|]. assert (E : top_client_at_point s 210 95 = Some (Overlay 1)) by (vm_compute; reflexivity).
  split; [exact E|]. pose proof (hit_test_is_front_layer s 210 95 Hs Ha eq_refl eq_refl eq_refl) as H.
  rewrite E in H. exact H.
Defined.
