(* ===== verification/WmMouse.v ===== *)
(** * Mouse events, coalesced

    windowd reads up to sixteen mouse events at a time and handles fewer: events
    that only move are merged.  Nothing the user did is lost. *)

From S2P Require Import Prelude Scene Wm WmInput.

(** The buttons after some events. *)
Definition buttons_after (initial : Z) (l : list savanxp_mouse_event) : Z :=
  match last l with None => initial | Some e => me_buttons e end.

(** The events that press or release a button. *)
Fixpoint transitions (buttons : Z) (l : list savanxp_mouse_event) : list savanxp_mouse_event :=
  match l with
  | [] => []
  | e :: l => (if me_buttons e =? buttons then [] else [e]) ++ transitions (me_buttons e) l
  end.

Definition total (f : savanxp_mouse_event -> Z) (l : list savanxp_mouse_event) : Z := foldr (fun e n => f e + n) 0 l.

Lemma total_app f l k : total f (l ++ k) = total f l + total f k.
Proof. induction l as [|e l IH]; [done|]. unfold total in *. cbn [app foldr]. lia. Qed.

Lemma total_one f e : total f [e] = f e.
Proof. unfold total. cbn. lia. Qed.

Lemma buttons_after_snoc b l e : buttons_after b (l ++ [e]) = me_buttons e.
Proof. unfold buttons_after. by rewrite last_snoc. Qed.

Lemma buttons_after_cons b e l : buttons_after b (e :: l) = buttons_after (me_buttons e) l.
Proof. unfold buttons_after. destruct l as [|e' l]; [done|]. cbn [last]. by destruct (last (e' :: l)) eqn:E; [|apply last_None in E]. Qed.

Lemma transitions_app b l k : transitions b (l ++ k) = transitions b l ++ transitions (buttons_after b l) k.
Proof.
  revert b. induction l as [|e l IH]; intros b; [done|]. cbn [app transitions].
  by rewrite IH, buttons_after_cons, <- app_assoc.
Qed.

(** The loop keeps the motion, the wheel and the presses of what it has read. *)
Lemma coalesce_from_spec initial events : forall capacity out cur lwt,
  zlen out + zlen events <= capacity -> cur = buttons_after initial out ->
  (forall o e, out = o ++ [e] -> lwt = false -> me_buttons e = buttons_after initial o) ->
  let res := coalesce_from events capacity out cur lwt in
  transitions initial res = transitions initial out ++ transitions cur events /\
  buttons_after initial res = buttons_after cur events /\
  total me_delta_x res = total me_delta_x out + total me_delta_x events /\
  total me_delta_y res = total me_delta_y out + total me_delta_y events /\
  total me_wheel res = total me_wheel out + total me_wheel events /\
  zlen res <= zlen out + zlen events.
Proof.
  induction events as [|e events IH]; intros capacity out cur lwt Hcap Hcur Hlast; cbn [coalesce_from].
  { cbn. rewrite app_nil_r. change (zlen []) with 0. repeat split; done || lia. }
  change (e :: events) with ([e] ++ events) in Hcap. rewrite zlen_app in Hcap. change (zlen [e]) with 1 in Hcap.
  pose proof (zlen_nonneg events) as Hpos.
  destruct (negb (me_buttons e =? cur) || _ || lwt) eqn:Ef.
  - replace (zlen out >=? capacity) with false by lia.
    destruct (IH capacity (out ++ [e]) (me_buttons e) (negb (me_buttons e =? cur))) as (H1 & H2 & H3 & H4 & H5 & H6).
    { rewrite zlen_snoc. lia. }
    { by rewrite buttons_after_snoc. }
    { intros o e' [<- [= <-]]%app_inj_tail Ht. lia. }
    rewrite H1, H2, H3, H4, H5, transitions_app, !total_app, <- Hcur. rewrite zlen_snoc in H6.
    change (e :: events) with ([e] ++ events). rewrite zlen_app, !total_app, transitions_app. change (zlen [e]) with 1.
    rewrite <- app_assoc. change (buttons_after cur [e]) with (me_buttons e). repeat split; try done; try lia; symmetry; apply buttons_after_cons.
  - destruct (last out) as [d|] eqn:Ed; [|by rewrite orb_true_r in Ef].
    apply last_Some in Ed as [o ->]. rewrite removelast_last. rewrite buttons_after_snoc in Hcur.
    assert (Hb : me_buttons e = me_buttons d) by lia. specialize (Hlast o d eq_refl ltac:(destruct lwt; [lia|done])).
    assert (Hm : me_buttons (merge_events d e) = me_buttons d /\ me_delta_x (merge_events d e) = me_delta_x d + me_delta_x e /\
      me_delta_y (merge_events d e) = me_delta_y d + me_delta_y e /\ me_wheel (merge_events d e) = me_wheel d + me_wheel e).
    { unfold merge_events. by case_if. }
    destruct Hm as (M1 & M2 & M3 & M4). rewrite zlen_snoc in Hcap.
    destruct (IH capacity (o ++ [merge_events d e]) (me_buttons e) (negb (me_buttons e =? cur))) as (H1 & H2 & H3 & H4 & H5 & H6).
    { rewrite zlen_snoc. lia. }
    { rewrite buttons_after_snoc. congruence. }
    { intros o' e' [<- [= <-]]%app_inj_tail _. congruence. }
    revert H1 H2 H3 H4 H5 H6. generalize (coalesce_from events capacity (o ++ [merge_events d e]) (me_buttons e) (negb (me_buttons e =? cur))).
    intros res H1 H2 H3 H4 H5 H6.
    rewrite H1, H2, H3, H4, H5, !transitions_app, !total_app. rewrite zlen_snoc in H6 |- *.
    cbn [transitions app]. rewrite !total_one, M1, M2, M3, M4, Hlast, Z.eqb_refl, Hb.
    replace (me_buttons d =? cur) with true by lia. change (e :: events) with ([e] ++ events).
    rewrite zlen_app, !total_app, !total_one. change (zlen [e]) with 1.
    rewrite app_nil_r. repeat split; try done; try lia.
    rewrite <- Hb. symmetry. apply buttons_after_cons.
Qed.

(** The position an event carries, when it is one of an absolute pointer. *)
Definition position_of (e : savanxp_mouse_event) : option (Z * Z) :=
  if has_flag (me_flags e) SAVANXP_MOUSE_FLAG_ABSOLUTE then Some (me_absolute_x e, me_absolute_y e) else None.

(** [e] stands for the events of [group]: all under the same buttons; their
    motion and wheel added; and where the last of them says the pointer is. *)
Definition stands_for (group : list savanxp_mouse_event) (e : savanxp_mouse_event) : Prop :=
  Forall (fun x => me_buttons x = me_buttons e) group /\
  total me_delta_x group = me_delta_x e /\ total me_delta_y group = me_delta_y e /\ total me_wheel group = me_wheel e /\
  option_map position_of (last group) = Some (position_of e).

Lemma stands_for_one e : stands_for [e] e.
Proof. split; [by constructor|]. rewrite !total_one. by split_and!. Qed.

Lemma absolute_flag f :
  has_flag (Z.lor f SAVANXP_MOUSE_FLAG_ABSOLUTE) SAVANXP_MOUSE_FLAG_ABSOLUTE = true /\
  has_flag (Z.ldiff f SAVANXP_MOUSE_FLAG_ABSOLUTE) SAVANXP_MOUSE_FLAG_ABSOLUTE = false.
Proof.
  unfold has_flag. rewrite Z.land_lor_distr_l, Z.land_diag. split.
  - apply negb_true_iff, Z.eqb_neq. intros E. apply Z.lor_eq_0_iff in E as [_ E]. discriminate E.
  - apply negb_false_iff, Z.eqb_eq. apply Z.bits_inj'. intros n Hn.
    rewrite Z.land_spec, Z.ldiff_spec, Z.bits_0. by destruct (Z.testbit f n), (Z.testbit SAVANXP_MOUSE_FLAG_ABSOLUTE n).
Qed.

Lemma stands_for_merge group d e :
  stands_for group d -> me_buttons d = me_buttons e -> stands_for (group ++ [e]) (merge_events d e).
Proof.
  intros (Hb & Hx & Hy & Hw & _) He. unfold stands_for. rewrite !total_app, !total_one, last_snoc. cbn [option_map].
  assert (Hm : me_buttons (merge_events d e) = me_buttons d) by (unfold merge_events; by case_if).
  split; [rewrite Hm; apply Forall_app; split; [done|]; by constructor|].
  unfold merge_events, position_of. destruct (has_flag (me_flags e) _) eqn:Ef; destruct (absolute_flag (me_flags d)) as [A B];
    cbn [me_delta_x me_delta_y me_wheel me_flags me_absolute_x me_absolute_y]; rewrite ?A, ?B; split_and!; done || lia.
Qed.

(** The loop groups what it has read, without leaving an event out. *)
Lemma coalesce_from_groups events : forall capacity out cur lwt groups,
  zlen out + zlen events <= capacity -> Forall2 stands_for groups out ->
  exists groups', concat groups' = concat groups ++ events /\
                  Forall2 stands_for groups' (coalesce_from events capacity out cur lwt).
Proof.
  induction events as [|e events IH]; intros capacity out cur lwt groups Hcap Hg; cbn [coalesce_from].
  { exists groups. by rewrite app_nil_r. }
  change (e :: events) with ([e] ++ events) in *. rewrite zlen_app in Hcap. change (zlen [e]) with 1 in Hcap.
  pose proof (zlen_nonneg events) as Hpos. destruct (negb (me_buttons e =? cur) || _ || lwt) eqn:Ef.
  - replace (zlen out >=? capacity) with false by lia.
    destruct (IH capacity (out ++ [e]) (me_buttons e) (negb (me_buttons e =? cur)) (groups ++ [[e]])) as (gs & E & H).
    + rewrite zlen_snoc. lia.
    + apply Forall2_app; [done|]. constructor; [apply stands_for_one|constructor].
    + exists gs. split; [|done]. rewrite E, concat_app, <- app_assoc. done.
  - destruct (last out) as [d|] eqn:Ed; [|by rewrite orb_true_r in Ef].
    apply last_Some in Ed as [o ->]. rewrite removelast_last. rewrite zlen_snoc in Hcap.
    apply Forall2_app_inv_r in Hg as (gs0 & gs1 & Hg0 & Hg1 & ->). inversion Hg1 as [|g ? ? ? Hd Hnil]; subst. inversion Hnil; subst.
    destruct (IH capacity (o ++ [merge_events d e]) (me_buttons e) (negb (me_buttons e =? cur)) (gs0 ++ [g ++ [e]])) as (gs & E & H).
    + rewrite zlen_snoc. lia.
    + apply Forall2_app; [done|]. constructor; [|constructor]. apply stands_for_merge; [done|lia].
    + exists gs. split; [|done]. rewrite E, !concat_app. cbn [concat]. by rewrite !app_nil_r, <- !app_assoc.
Qed.

(** C26. Coalescing loses nothing the user did.  The up to sixteen mouse events
    read at a time fall, in order and without a gap, into groups, one for each
    event that comes out: those of a group were read under the buttons the event
    has, their motion and wheel add up to its, and it has the absolute position
    of the last of them, or none if the last one has none.  Every press and every
    release of a button comes out as it was read, in order, and the motion and
    the turns of the wheel of what comes out add up to what went in (the sums
    are taken to fit their 32 bits). *)
Theorem coalesce_keeps_everything (events : list savanxp_mouse_event) (initial : Z)
    (Hn : zlen events <= WINDOWD_MAX_MOUSE_EVENTS_PER_FRAME) :
  let res := coalesce_mouse_events events WINDOWD_MAX_MOUSE_EVENTS_PER_FRAME initial in
  (exists groups, concat groups = events /\ Forall2 stands_for groups res) /\
  transitions initial res = transitions initial events /\
  buttons_after initial res = buttons_after initial events /\
  total me_delta_x res = total me_delta_x events /\ total me_delta_y res = total me_delta_y events /\
  total me_wheel res = total me_wheel events /\ zlen res <= zlen events.
Proof.
  unfold coalesce_mouse_events. change (WINDOWD_MAX_MOUSE_EVENTS_PER_FRAME =? 0) with false. cbn iota.
  destruct (coalesce_from_spec initial events WINDOWD_MAX_MOUSE_EVENTS_PER_FRAME [] initial false) as (H1 & H2 & H3 & H4 & H5 & H6).
  - change (zlen []) with 0. lia.
  - done.
  - intros o e H. by destruct o.
  - change (zlen []) with 0 in H6. cbn [total foldr transitions app] in *.
    split; [|repeat split; done || lia].
    destruct (coalesce_from_groups events WINDOWD_MAX_MOUSE_EVENTS_PER_FRAME [] initial false []) as (gs & E & H);
      [change (zlen []) with 0; lia|constructor|]. by exists gs.
Qed.

Lemma coalesce_keeps_everything_witness :
  let move dx := mk_mouse dx 1 0 0 0 0 0 in let press b := mk_mouse 0 0 1 b 0 0 0 in
  let at_ x := mk_mouse 1 0 0 0 SAVANXP_MOUSE_FLAG_ABSOLUTE x 7 in
  let events := [move 1; at_ 30; at_ 40; press 1; press 1; press 1; press 0; move 5; move 6] in
  (exists groups, concat groups = events /\ Forall2 stands_for groups (coalesce_mouse_events events 16 0)) /\
  map position_of (coalesce_mouse_events events 16 0) = [Some (40, 7); None; None; None; None] /\
  transitions 0 (coalesce_mouse_events events 16 0) = [press 1; press 0] /\
  total me_delta_x (coalesce_mouse_events events 16 0) = total me_delta_x events.
Proof.
  intros move press at_ events.
  assert (Hn : zlen events <= WINDOWD_MAX_MOUSE_EVENTS_PER_FRAME) by (vm_compute; congruence).
  destruct (coalesce_keeps_everything events 0 Hn) as (H0 & H1 & _ & H3 & _).
  split; [exact H0|]. split; [vm_compute; reflexivity|]. split; [exact H1|exact H3].
Defined.
