(* ===== verification/WmRequests.v ===== *)
(** * What programs ask the window manager for (system/windowd/windowd.c)

    The requests a window writes in its surface's header
    ([service_client_window_requests], whole): dialogs and popups of an
    application, panels and popups of the desktop, the task list, a change of
    the screen's resolution; the hello that asks for the shell role, and the
    programs windowd starts itself; the hints of a window about its cursor, its
    size and its presentation.

    The seqlock that protects a request, the creation of surfaces, the users of
    the processes and the answers of compositord are arguments. *)

From S2P Require Import Prelude Rect Region Painter Scene Consent Presentation Wm WmInput WmList WmOpen.

Definition SAVANXP_EPERM : Z := 1.
Definition SAVANXP_ENOENT : Z := 2.
Definition SAVANXP_EIO : Z := 5.

Definition SAVANXP_WM_WINDOW_ACTION_OPEN : Z := 1.
Definition SAVANXP_WM_WINDOW_ACTION_CLOSE : Z := 2.
Definition SAVANXP_WM_WINDOW_ACTION_TASK_LIST : Z := 3.
Definition SAVANXP_WM_WINDOW_ACTION_TASK_ACTIVATE : Z := 4.
Definition SAVANXP_WM_WINDOW_ACTION_TASK_CLOSE : Z := 5.
Definition SAVANXP_WM_WINDOW_ACTION_SET_DISPLAY_MODE : Z := 6.
Definition SAVANXP_WM_WINDOW_ROLE_NORMAL : Z := 0.
Definition SAVANXP_WM_WINDOW_ROLE_PANEL : Z := 1.
Definition SAVANXP_WM_WINDOW_ROLE_POPUP : Z := 2.
Definition WINDOWD_DISPLAY_MIN_WIDTH : Z := 640.
Definition WINDOWD_DISPLAY_MIN_HEIGHT : Z := 480.

Definition put_native (info : fb_info) (s : windowd_session) : windowd_session :=
  mk_session (se_info s) info (se_kind s) (se_active_slot s) (se_fullscreen_slot s) (se_count s) (se_order s)
    (se_desktop s) (se_overlays s) (se_resize s) (se_switcher_open s) (se_switcher_selected s) (se_consent s)
    (se_hotkeys s) (se_hotkey_held s) (se_shape s) (se_previous_shape s) (se_cursor_moved s) (se_capture s)
    (se_dirty s) (se_sent s).

Definition put_window (index : Z) (c : windowd_client) (s : windowd_session) : windowd_session :=
  put_desktop (set_at (se_desktop s) index c) s.

(** ** Programs windowd starts, and the shell *)

(** A slot held for a program just started; [spawned] is its pid, or the error.
    The slot, or -1. *)
Definition launch_overlay_client (spawned : Z) (path : list Z) (s : windowd_session) : windowd_session * Z :=
  let slot := find_free_overlay_slot s in
  if negb (overlay_slot_valid slot) then (s, -1)
  else
    let s := put_overlay slot reset_client s in
    if spawned <? 0 then (s, -1)
    else (put_overlay slot (copy_client_path path (put_reserved spawned (overlay s slot))) s, slot).

(** The desktop's index in compositord's scene. *)
Definition desktop_surface_id (index : Z) : Z := index + 2.

(** The hello of a shell ([admit_connection] with the shell role).  [ours]: its
    parent is the session's ([started_by_session]). *)
Definition admit_shell (pid : Z) (ours : bool) (max_width max_height : Z) (setup : connection_outcome) (s : windowd_session)
    : windowd_session * option Z :=
  if (pid <=? 0) || process_has_window s pid then (s, Some (- SAVANXP_EBUSY))
  else
    let d := desktop_window s 0 in
    if negb ours || (wc_pid d >? 0) || ((wc_reserved_pid d >? 0) && negb (wc_reserved_pid d =? pid))
    then (s, Some (- SAVANXP_EACCES))
    else
      let c := put_reserved 0 d in
      let info := windowd_fill_shell_surface_info (layout_display s) max_width max_height in
      let c := position_client_window s true 0 (put_surface (wc_header c) (wc_pixels c) info c) in
      let c := put_role WINDOWD_ROLE_BACKGROUND (wc_role_flags c) (wc_presentation c) c in
      match setup with
      | SurfaceFailed => (put_window 0 (put_reserved pid c) s, Some (- SAVANXP_ENOMEM))
      | ChannelFailed => (put_window 0 (put_reserved pid reset_client) s, Some (- SAVANXP_ENOMEM))
      | Connected u =>
          let c := put_list (Some new_list) (connected_client pid (desktop_surface_id 0) info u c) in
          (windowd_dirty_rect_add_fullscreen (put_window 0 c s), None)
      end.

(** ** The desktop's own windows *)

(** The request of a window: what it wants, and the window it is about. *)
Record client_request := mk_clrequest { cr_action : Z; cr_role : Z; cr_window : window_request }.

(** Where a panel or a popup of the desktop goes, or [None] when the request is
    refused. *)
Definition desktop_frame (display : fb_info) (role : Z) (r : window_request) : option sx_rect :=
  if role =? SAVANXP_WM_WINDOW_ROLE_PANEL then
    if (wr_height r =? 0) || (wr_height r >? fb_height display / 2) then None
    else Some (mk_rect 0 (if has_flag (wr_role_flags r) SAVANXP_WM_PANEL_EDGE_TOP then 0 else fb_height display - wr_height r)
                 (fb_width display) (wr_height r))
  else if role =? SAVANXP_WM_WINDOW_ROLE_POPUP then
    if (wr_width r =? 0) || (wr_height r =? 0) || (wr_width r >? fb_width display) || (wr_height r >? fb_height display) then None
    else Some (mk_rect (windowd_clamp_int (wr_x r) 0 (fb_width display - wr_width r))
                 (windowd_clamp_int (wr_y r) 0 (fb_height display - wr_height r)) (wr_width r) (wr_height r))
  else None.

Definition open_desktop_window (role : Z) (r : window_request) (max_width : Z) (setup : Z + surface_setup) (s : windowd_session)
    : windowd_session * Z :=
  let owner := desktop_window s 0 in
  let index := wr_window_id r in
  if (wc_pid owner <=? 0) || negb (wc_events owner) || (index =? 0) || (index >=? WINDOWD_DESKTOP_WINDOW_COUNT)
     || (wc_pid (desktop_window s index) >? 0) then (s, - SAVANXP_EINVAL)
  else
    match desktop_frame (layout_display s) role r with
    | None => (s, - SAVANXP_EINVAL)
    | Some f =>
        match setup with
        | inl error => (put_window index reset_client s, error)
        | inr u =>
            let panel := role =? SAVANXP_WM_WINDOW_ROLE_PANEL in
            let pitch := if panel && (max_width >? u32 (rw f)) then u32 (max_width * 4) else u32 (u32 (rw f) * 4) in
            let info := mk_info (u32 (rw f)) (u32 (rh f)) pitch 32 (u32 (pitch * u32 (rh f))) in
            let c := put_channels (su_events u) (su_native u) (desktop_surface_id index)
                       (put_surface (Some (su_header u)) (Some (su_memory u)) info reset_client) in
            let c := put_identity (wc_pid owner) (-1) index c in
            let c := put_role (if panel then WINDOWD_ROLE_PANEL else WINDOWD_ROLE_POPUP) (wr_role_flags r) (wc_presentation owner) c in
            let c := put_shared (wc_path owner) (mk_hint 0 true 0 0) 0 None c in
            let c := keep_place (put_extent (rw f) (rh f) (put_position (rx f) (ry f) c)) in
            (windowd_dirty_rect_add_client c (put_window index c s), 0)
        end
    end.

Definition close_desktop_window (index : Z) (s : windowd_session) : windowd_session :=
  if (index =? 0) || (index >=? WINDOWD_DESKTOP_WINDOW_COUNT) then s
  else
    let c := desktop_window s index in
    if wc_pid c <=? 0 then s
    else put_window index reset_client (windowd_dirty_rect_add_client c s).

(** ** The task list *)

(** [list_status]: what setting up a list of the client's own and sending it
    returns.
    [users]: the real and the effective user of the process in a slot. *)
Definition service_task_request (slot action window_id now_ms list_status : Z) (users : Z -> Z * Z) (answer : option fb_info)
    (s : windowd_session) : windowd_session * Z :=
  if action =? SAVANXP_WM_WINDOW_ACTION_TASK_LIST then
    if has_list (overlay s slot) then (s, 0)
    else if list_status <? 0 then (s, list_status)
    else (publish_window_list (put_overlay slot (put_list (Some new_list) (overlay s slot)) s), 0)
  else
    let target := resolve_window_id s window_id in
    if negb (overlay_slot_valid target) then (s, - SAVANXP_ENOENT)
    else if action =? SAVANXP_WM_WINDOW_ACTION_TASK_ACTIVATE
    then (repaint_activation_change (se_active_slot s) (activate_task target s), 0)
    else if negb (snd (users slot) =? 0) && negb (fst (users slot) =? fst (users target)) then (s, - SAVANXP_EPERM)
    else (fst (close_overlay_window target now_ms answer s), 0).

(** ** The screen's resolution *)

Definition resize_shell_surface (width height : Z) (c : windowd_client) : windowd_client :=
  let capacity_width := client_surface_capacity_width c in
  let capacity_height := client_surface_capacity_height c in
  let width := windowd_clamp_int width 1 (if capacity_width >? 0 then capacity_width else 1) in
  let height := windowd_clamp_int height 1 (if capacity_height >? 0 then capacity_height else 1) in
  let info := mk_info width height (fb_pitch (wc_info c)) (fb_bpp (wc_info c)) (fb_buffer_size (wc_info c)) in
  let header := fmap (fun h => mk_header width height (hd_shutdown h) (hd_capture h)) (wc_header c) in
  let c := put_surface header (wc_pixels c) info c in
  put_restore (mk_rect (rx (wc_restore c)) (ry (wc_restore c)) width height) (put_extent width height c).

(** A window of the desktop on a screen of this size. *)
Definition relayout_desktop (width height index : Z) (s : windowd_session) : windowd_session :=
  let c := desktop_window s index in
  if wc_pid c <=? 0 then s
  else if wc_role c =? WINDOWD_ROLE_PANEL then
    let c := resize_shell_surface width (fb_height (wc_info c)) c in
    let c := put_position 0 (if has_flag (wc_role_flags c) SAVANXP_WM_PANEL_EDGE_TOP then 0 else height - wc_height c) c in
    put_window index (put_restore (mk_rect (wc_x c) (wc_y c) (rw (wc_restore c)) (rh (wc_restore c))) c) s
  else if (wc_role c =? WINDOWD_ROLE_POPUP) && negb (wc_dismiss_requested c) then request_popup_dismiss (Desktop index) s
  else s.

(** A window of an application, refitted or pulled back. *)
Definition relayout_overlay (slot : Z) (s : windowd_session) : windowd_session :=
  let c := overlay s slot in
  let display := layout_display s in
  if wc_pid c <=? 0 then s
  else if wc_role c =? WINDOWD_ROLE_POPUP then
    if negb (wc_dismiss_requested c) then request_popup_dismiss (Overlay slot) s else s
  else if negb (wc_frame_visible c) then s
  else
    let s :=
      if wc_maximized c then
        let '(reserved_top, reserved_bottom) := desktop_reserved_strips s in
        let area := windowd_maximize_area_bounds display reserved_top reserved_bottom in
        let c := put_extent (rw area) (rh area) (put_position (rx area) (ry area) c) in
        resize_overlay_client_surface slot (rw area - WINDOWD_WINDOW_BORDER * 2)
          (rh area - WINDOWD_WINDOW_TITLEBAR_HEIGHT - WINDOWD_WINDOW_BORDER) (put_overlay slot c s)
      else s in
    let c := overlay s slot in
    let '(x, y) := windowd_clamp_overlay_frame_position display (wc_width c) (wc_height c) (wc_x c) (wc_y c) in
    let c := put_position x y c in
    let r := wc_restore c in
    let '(x, y) := windowd_clamp_overlay_frame_position display (rw r) (rh r) (rx r) (ry r) in
    put_overlay slot (put_restore (mk_rect x y (rw r) (rh r)) c) s.

Definition relayout_for_display (s : windowd_session) : windowd_session :=
  let width := fb_width (layout_display s) in
  let height := fb_height (layout_display s) in
  let s := if wc_pid (desktop_window s 0) >? 0
           then put_window 0 (resize_shell_surface width height (desktop_window s 0)) s else s in
  let s := for_z 1 WINDOWD_DESKTOP_WINDOW_COUNT (relayout_desktop width height) s in
  let s := for_z 0 WINDOWD_MAX_OVERLAY_CLIENTS relayout_overlay s in
  windowd_dirty_rect_add_fullscreen s.

(** Compositord's answers: to leaving fullscreen, to the new mode, and to the
    previous mode again. *)
Record mode_answers := mk_modes { ma_exit : option fb_info; ma_set : option fb_info; ma_again : option fb_info }.

(** The mode in use is the one compositord reported last. *)
Definition adopt_mode (answer : option fb_info) (s : windowd_session) : windowd_session :=
  match answer with Some info => put_info info s | None => s end.

Definition set_display_mode (width height max_width max_height : Z) (a : mode_answers) (s : windowd_session) : windowd_session * Z :=
  let previous := se_native s in
  if (width <? WINDOWD_DISPLAY_MIN_WIDTH) || (height <? WINDOWD_DISPLAY_MIN_HEIGHT) || (width >? max_width) || (height >? max_height)
  then (s, - SAVANXP_EINVAL)
  else
    let s := if se_fullscreen_slot s >=? 0 then exit_overlay_fullscreen (ma_exit a) s else s in
    if (width =? fb_width previous) && (height =? fb_height previous) &&
       (fb_width (se_info s) =? width) && (fb_height (se_info s) =? height) then (s, 0)
    else
      let refused := (adopt_mode (ma_again a) (adopt_mode (ma_set a) s), - SAVANXP_EIO) in
      match ma_set a with
      | None => refused
      | Some info =>
          if negb (fb_width info =? width) || negb (fb_height info =? height) then refused
          else (relayout_for_display (put_native info (put_info info s)), 0)
      end.

(** ** The request in a window's header *)

(** What the rest of the system answers while a request is served. *)
Record request_env := mk_env {
  rq_now_ms : Z; rq_max_width : Z; rq_max_height : Z; rq_setup : Z + surface_setup; rq_modes : mode_answers;
  rq_users : Z -> Z * Z; rq_list_status : Z }.

Definition is_task_action (action : Z) : bool :=
  (action =? SAVANXP_WM_WINDOW_ACTION_TASK_LIST) || (action =? SAVANXP_WM_WINDOW_ACTION_TASK_ACTIVATE) ||
  (action =? SAVANXP_WM_WINDOW_ACTION_TASK_CLOSE).

(** The request of the window at a place; [request] is what the seqlock lets
    windowd read, [None] when there is nothing new or it is half written.  The
    session, and the status of the reply. *)
Definition service_client_window_requests (p : place) (request : option client_request) (e : request_env) (s : windowd_session)
    : windowd_session * option Z :=
  let c := client_of s p in
  let slot := slot_of p in
  let main := overlay_slot_valid slot && (wc_owner_slot c <? 0) in
  let shell := bool_decide (p = Desktop 0) in
  let a := rq_modes e in
  if (wc_pid c <=? 0) || match wc_header c with None => true | Some _ => false end then (s, None)
  else
    match request with
    | None => (s, None)
    | Some r =>
        let w := cr_window r in
        let '(s, status) :=
          if (cr_action r =? SAVANXP_WM_WINDOW_ACTION_SET_DISPLAY_MODE) && (shell || main)
          then set_display_mode (wr_width w) (wr_height w) (rq_max_width e) (rq_max_height e) a s
          else if shell then
            if cr_action r =? SAVANXP_WM_WINDOW_ACTION_OPEN then open_desktop_window (cr_role r) w (rq_max_width e) (rq_setup e) s
            else if cr_action r =? SAVANXP_WM_WINDOW_ACTION_CLOSE then (close_desktop_window (wr_window_id w) s, 0)
            else (s, - SAVANXP_EINVAL)
          else if main && is_task_action (cr_action r)
          then service_task_request slot (cr_action r) (wr_window_id w) (rq_now_ms e) (rq_list_status e) (rq_users e) (ma_exit a) s
          else if negb main || (negb (cr_role r =? SAVANXP_WM_WINDOW_ROLE_NORMAL) && negb (cr_role r =? SAVANXP_WM_WINDOW_ROLE_POPUP))
          then (s, - SAVANXP_EINVAL)
          else if (cr_action r =? SAVANXP_WM_WINDOW_ACTION_OPEN) && (cr_role r =? SAVANXP_WM_WINDOW_ROLE_POPUP)
          then open_owned_popup slot w (rq_setup e) (ma_exit a) s
          else if cr_action r =? SAVANXP_WM_WINDOW_ACTION_OPEN then open_owned_window slot w (rq_setup e) (ma_exit a) s
          else if cr_action r =? SAVANXP_WM_WINDOW_ACTION_CLOSE then (close_owned_window slot (wr_window_id w) (ma_exit a) s, 0)
          else (s, - SAVANXP_EINVAL) in
        (s, Some status)
    end.

(** A client's first frame ([service_client_start]): [submitted] is whether its
    header counts one. *)
Definition service_client_start (submitted : bool) (p : place) (s : windowd_session) : windowd_session :=
  let c := client_of s p in
  if (wc_pid c <=? 0) || wc_started c || match wc_header c with None => true | Some _ => false end then s
  else if submitted
  then windowd_dirty_rect_add_client (put_started true c) (put_client p (put_started true c) s)
  else s.

(** ** Hints

    The cursor, the size the content needs, the presentation.  A header is memory
    of the client's, so what windowd reads of it is an argument: for the two
    under a sequence number, the number, what was copied, and the number read
    again. *)

Definition no_header (c : windowd_client) : bool := match wc_header c with None => true | Some _ => false end.

Definition service_client_cursor_hints (shape : Z) (p : place) (s : windowd_session) : windowd_session :=
  let c := client_of s p in
  if (wc_pid c <=? 0) || no_header c then s
  else if shape <? SAVANXP_CURSOR_SHAPE_COUNT then put_client p (put_shared (wc_path c) (wc_hint c) shape (wc_list c) c) s else s.

Definition reposition_overlay_client_window (slot : Z) (s : windowd_session) : windowd_session :=
  let c := overlay s slot in
  if negb (wc_frame_visible c) then s
  else
    let place := windowd_place_overlay_window (layout_display s) (wc_info c) (hs_cascade (wc_hint c)) in
    if (rx place =? wc_x c) && (ry place =? wc_y c) then s
    else
      let c' := put_position (rx place) (ry place) c in
      dirty_rect (windowd_client_frame_rect c') (dirty_rect (windowd_client_frame_rect c) (put_overlay slot c' s)).

Definition client_accepts_size_hint (c : windowd_client) : bool :=
  if negb (wc_frame_visible c) || wc_maximized c || wc_fullscreen c then false
  else negb (hs_applied (wc_hint c)) || windowd_client_fixed_size c.

(** A read under a sequence number: the number before, the copy, the number after. *)
Record guarded (A : Type) := mk_guarded { gu_sequence : Z; gu_value : A; gu_again : Z }.
Arguments mk_guarded {A} _ _ _.
Arguments gu_sequence {A} _.
Arguments gu_value {A} _.
Arguments gu_again {A} _.

(** What may be taken of it: something new, and not half written. *)
Definition fresh_read {A} (consumed : Z) (r : guarded A) : bool :=
  negb (Z.odd (gu_sequence r) || (gu_sequence r =? consumed)) && (gu_again r =? gu_sequence r).

Definition service_client_size_hints (r : guarded (Z * Z)) (p : place) (s : windowd_session) : windowd_session :=
  let c := client_of s p in
  let slot := slot_of p in
  let h := wc_hint c in
  if (wc_pid c <=? 0) || no_header c || negb (fresh_read (hs_consumed h) r) then s
  else
    let h := mk_hint (gu_sequence r) (hs_applied h) (hs_cascade h) (hs_presentation h) in
    let c := put_hint h c in
    let '(width, height) := gu_value r in
    if (width =? 0) || (height =? 0) || negb (overlay_slot_valid slot) || negb (client_accepts_size_hint c)
    then put_client p c s
    else
      let first_hint := negb (hs_applied h) in
      let c := put_hint (mk_hint (hs_consumed h) true (hs_cascade h) (hs_presentation h)) c in
      let s := resize_overlay_client_surface slot (i32 width) (i32 height) (put_client p c s) in
      if first_hint then reposition_overlay_client_window slot s else s.

Definition service_client_presentation (r : guarded savanxp_wm_presentation) (p : place) (s : windowd_session) : windowd_session :=
  let c := client_of s p in
  let h := wc_hint c in
  if (wc_pid c <=? 0) || no_header c || negb (fresh_read (hs_presentation h) r) then s
  else
    let c := put_hint (mk_hint (hs_consumed h) (hs_applied h) (hs_cascade h) (gu_sequence r)) c in
    let '(presentation, changed) := windowd_presentation_adopt (wc_presentation c) (gu_value r) in
    let c := put_presentation presentation c in
    let s := put_client p c s in
    if changed then windowd_dirty_rect_add_client c s else s.
