(* ===== verification/WmCommit.v ===== *)
(** * Handing the scene to compositord (system/windowd/windowd.c)

    A commit writes the layers, the damage and the cursor into the section
    windowd shares with compositord, and drops the clients whose frames
    compositord found malformed.  With it, the processes windowd ended and still
    has to reap. *)

From S2P Require Import Prelude Rect Region RegionFacts RegionLaws Painter Scene SceneFacts WmClient SceneFrames SceneRun SceneLaws SceneStage Consent Presentation Wm WmInput WmList WmOpen WmScene WmRequests.

Definition WINDOWD_SESSION_CLIENT_COUNT : Z := WINDOWD_DESKTOP_WINDOW_COUNT + WINDOWD_MAX_OVERLAY_CLIENTS.

(** [session_client_at]: the desktop's windows, then the slots; and the id of the
    surface of each. *)
Definition session_client_at (index : Z) : place :=
  if index <? WINDOWD_DESKTOP_WINDOW_COUNT then Desktop index else Overlay (index - WINDOWD_DESKTOP_WINDOW_COUNT).
Definition surface_id_of (p : place) : Z :=
  match p with Desktop index => desktop_surface_id index | Overlay slot => session_surface_id slot end.

(** [broken]: the surfaces compositord reported, a bit each.  [answers]: its
    answers when a fullscreen window goes. *)
Definition drop_broken_clients (broken : Z) (answers : Z -> option fb_info) (s : windowd_session) : windowd_session :=
  for_z 0 (if broken =? 0 then 0 else WINDOWD_SESSION_CLIENT_COUNT) (fun index s =>
    let p := session_client_at index in
    let c := client_of s p in
    if (wc_surface_id c =? 0) || negb (Z.testbit broken (surface_id_of p)) then s
    else
      let s := match p with Desktop _ => destroy_desktop s | Overlay slot => destroy_overlay_client slot (answers slot) s end in
      windowd_dirty_rect_add_fullscreen s) s.

(** The rectangles of the damage, as the loop over them writes them. *)
Definition damage_rects (r : sx_region) : list sx_rect :=
  for_z 0 (sx_region_rect_count r) (fun index l => match sx_region_rect_at r index with Some q => l ++ [q] | None => l end) [].

(** What the section holds at a commit; what it held before stays in the cells
    that are not written. *)
Definition committed_scene (s : windowd_session) (cursor_x cursor_y : Z) (before : compositor_scene) : compositor_scene :=
  let layers := windowd_build_scene s SAVANXP_COMPOSITOR_MAX_LAYERS in
  let full := sx_region_rect_count (se_dirty s) >? SAVANXP_COMPOSITOR_MAX_DAMAGE in
  let damage := if full then [] else damage_rects (se_dirty s) in
  mk_compositor_scene SAVANXP_COMPOSITOR_SCENE_MAGIC (if full then SAVANXP_COMPOSITOR_SCENE_FULL_DAMAGE else 0)
    (zlen layers) (zlen damage) cursor_x cursor_y (se_shape s) (if cp_captured (se_capture s) then 0 else 1)
    (layers ++ drop (length layers) (sc_layers before)) (damage ++ drop (length damage) (sc_damage before)).

(** [scene]: the section shared with compositord, if it is mapped; without it
    nothing happens and the damage is kept.  [reply]: the surfaces compositord
    reported broken, or [None] when the request failed.  The section as it is
    left, the session and the result.  Painting windowd's own surface
    (windowd_paint_wm_surface) changes neither. *)
Definition windowd_commit (scene : option compositor_scene) (cursor_x cursor_y : Z) (reply : option Z)
    (answers : Z -> option fb_info) (s : windowd_session) : option compositor_scene * windowd_session * Z :=
  match scene with
  | None => (None, s, -1)
  | Some before =>
      let written := Some (committed_scene s cursor_x cursor_y before) in
      let s := put_cursor (se_shape s) (se_previous_shape s) false (put_dirty sx_region_clear s) in
      match reply with
      | None => (written, s, -1)
      | Some broken => (written, drop_broken_clients broken answers s, 0)
      end
  end.

(** ** Processes to reap *)

Definition WINDOWD_MAX_PENDING_REAPS : Z := 32.

Definition queue_pending_reap (pid : Z) (reaps : list Z) : list Z :=
  if pid <=? 0 then reaps
  else if bool_decide (pid ∈ reaps) then reaps
  else if zlen reaps >=? WINDOWD_MAX_PENDING_REAPS then reaps
  else reaps ++ [pid].

(** The last entry over the one at an index, and one entry less. *)
Definition swap_remove (index : nat) (l : list Z) : list Z := take (pred (length l)) (<[index := List.last l 0]> l).

(** The sweep from an index on: the processes left, and those waited for. *)
Fixpoint sweep_from (fuel : nat) (alive : Z -> bool) (index : nat) (reaps reaped : list Z) : list Z * list Z :=
  match fuel with
  | O => (reaps, reaped)
  | S fuel =>
      match reaps !! index with
      | None => (reaps, reaped)
      | Some pid =>
          if alive pid then sweep_from fuel alive (S index) reaps reaped
          else sweep_from fuel alive index (swap_remove index reaps) (reaped ++ [pid])
      end
  end.

Definition sweep_pending_reaps (alive : Z -> bool) (reaps : list Z) : list Z * list Z :=
  sweep_from (length reaps) alive 0 reaps [].
