(* ===== verification/WmStack.v ===== *)
(** * The stacking order

    The array [overlay_order] as a list from the bottom to the top: what taking
    a slot out and putting it on top do to it, and what raising a window does to
    the order, to the windows and to the focus, exactly. *)

From S2P Require Import Prelude Rect Region Painter Scene Consent Wm WmInput WmOpen WmScene.

(** The slots from the bottom to the top. *)
Definition stack (s : windowd_session) : list Z := take (Z.to_nat (se_count s)) (se_order s).

Definition other (slot k : Z) : bool := negb (k =? slot).
(** A slot on top of a list. *)
Definition on_top (slot : Z) (l : list Z) : list Z := List.filter (other slot) l ++ [slot].

(** The order is a list of distinct slots. *)
Record order_ok (s : windowd_session) : Prop := {
  oo_session : session_ok s;
  oo_nodup : NoDup (stack s);
  oo_valid : Forall (fun k => overlay_slot_valid k = true) (stack s) }.

(** ** Taking a slot out *)

Lemma at_middle {A} (d : A) l x k : at_ d (l ++ x :: k) (zlen l) = x.
Proof.
  unfold at_, zlen. replace (Z.of_nat (length l) <? 0) with false by lia. rewrite Nat2Z.id, app_nth2 by lia.
  by rewrite Nat.sub_diag.
Qed.

Lemma set_at_middle {A} l (x y : A) k : set_at (l ++ x :: k) (zlen l) y = l ++ y :: k.
Proof.
  unfold set_at, zlen. replace (Z.of_nat (length l) <? 0) with false by lia. rewrite Nat2Z.id.
  replace (length l) with (length l + 0)%nat by lia. by rewrite insert_app_r.
Qed.

Lemma for_z_first {S} lo hi (f : Z -> S -> S) s : lo < hi -> for_z lo hi f s = for_z (lo + 1) hi f (f lo s).
Proof.
  intros H. rewrite !for_z_seqZ. rewrite seqZ_cons by lia. cbn [fold_left]. unfold Z.succ.
  replace (Z.pred (hi - lo)) with (hi - (lo + 1)) by lia. done.
Qed.

Lemma shift_order_is l2 : forall l1 x l3,
  exists y, shift_order (zlen l1) (zlen l1 + 1 + zlen l2) (l1 ++ x :: l2 ++ l3) = l1 ++ l2 ++ y :: l3.
Proof.
  unfold shift_order. induction l2 as [|y l2 IH]; intros l1 x l3.
  - rewrite for_z_nil by (change (zlen []) with 0; lia). by exists x.
  - change (y :: l2) with ([y] ++ l2). rewrite zlen_app. change (zlen [y]) with 1. pose proof (zlen_nonneg l2).
    rewrite for_z_first by lia. cbn [app].
    assert (Ey : at_ (-1) (l1 ++ x :: y :: l2 ++ l3) (zlen l1 + 1) = y).
    { replace (l1 ++ x :: y :: l2 ++ l3) with ((l1 ++ [x]) ++ y :: l2 ++ l3) by (by rewrite <- app_assoc).
      replace (zlen l1 + 1) with (zlen (l1 ++ [x])) by (by rewrite zlen_app). apply at_middle. }
    rewrite Ey, set_at_middle.
    destruct (IH (l1 ++ [y]) y l3) as [z Hz]. exists z. rewrite zlen_app in Hz. change (zlen [y]) with 1 in Hz.
    rewrite <- !app_assoc in Hz. cbn [app] in Hz. rewrite <- Hz. f_equal. lia.
Qed.

Lemma filter_other_id slot l : slot ∉ l -> List.filter (other slot) l = l.
Proof.
  induction l as [|k l IH]; intros H; [done|]. apply not_elem_of_cons in H as [Hk Hl]. cbn.
  replace (other slot k) with true by (unfold other; lia). by rewrite IH.
Qed.

Lemma elem_filter_other slot l k : k ∈ List.filter (other slot) l <-> k ∈ l /\ k <> slot.
Proof. rewrite !list_elem_of_In, List.filter_In. unfold other. split; intros [H1 H2]; (split; [done|lia]). Qed.

(** The order of a session that holds a slot. *)
Lemma order_split s l1 x l2 : session_ok s -> stack s = l1 ++ x :: l2 ->
  exists l3, se_order s = l1 ++ x :: l2 ++ l3 /\ se_count s = zlen l1 + 1 + zlen l2.
Proof.
  intros [Hc Ho _ _] E. exists (drop (Z.to_nat (se_count s)) (se_order s)). split.
  - rewrite <- (take_drop (Z.to_nat (se_count s)) (se_order s)) at 1. unfold stack in E. rewrite E. by rewrite <- app_assoc.
  - assert (L : length (stack s) = Z.to_nat (se_count s)).
    { unfold stack. rewrite length_take. unfold zlen in Ho. lia. }
    rewrite E, length_app in L. cbn in L. unfold zlen. lia.
Qed.

Lemma take_zlen {A} (l k : list A) : take (Z.to_nat (zlen l)) (l ++ k) = l.
Proof. unfold zlen. rewrite Nat2Z.id. apply take_app_length. Qed.

(** What [remove_overlay_from_order] changes. *)
Record reordered (s s' : windowd_session) : Prop := {
  ro_overlays : se_overlays s' = se_overlays s;
  ro_desktop : se_desktop s' = se_desktop s;
  ro_focus : se_kind s' = se_kind s /\ se_active_slot s' = se_active_slot s }.

Lemma remove_spec slot s : order_ok s -> overlay_slot_valid slot = true ->
  stack (remove_overlay_from_order slot s) = List.filter (other slot) (stack s) /\
  reordered s (remove_overlay_from_order slot s) /\ order_ok (remove_overlay_from_order slot s).
Proof.
  intros [Hs Hn Hv] Hslot. unfold remove_overlay_from_order. rewrite Hslot. cbn [negb]. unfold order_index.
  fold (stack s). destruct (list_find (fun k => k = slot) (stack s)) as [[i x]|] eqn:E; cbn [fmap option_fmap option_map fst].
  - apply list_find_Some in E as (Hi & -> & _). pose proof (take_drop_middle _ _ _ Hi) as Es.
    set (l1 := take i (stack s)) in *. set (l2 := drop (S i) (stack s)) in *. symmetry in Es.
    assert (Hl1 : Z.of_nat i = zlen l1).
    { unfold zlen, l1. rewrite length_take. apply lookup_lt_Some in Hi. lia. }
    destruct (order_split s l1 slot l2 Hs Es) as (l3 & Eo & Ec). rewrite Eo, Ec, Hl1.
    destruct (shift_order_is l2 l1 slot l3) as [y Hy]. rewrite Hy. clear Hy.
    replace (zlen l1 + 1 + zlen l2 - 1) with (zlen (l1 ++ l2)) by (rewrite zlen_app; lia).
    rewrite app_assoc, set_at_middle.
    assert (Est : stack (put_order (zlen (l1 ++ l2)) ((l1 ++ l2) ++ -1 :: l3) s) = l1 ++ l2) by apply take_zlen.
    rewrite Es in Hn, Hv. apply NoDup_app in Hn as (Hn1 & Hd & Hn2). apply NoDup_cons in Hn2 as [Hn2 Hn3].
    assert (~ slot ∈ l1) by (intros H; apply (Hd _ H); by left).
    assert (Ef : List.filter (other slot) (stack s) = l1 ++ l2).
    { rewrite Es, List.filter_app. cbn. replace (other slot slot) with false by (unfold other; lia). by rewrite !filter_other_id. }
    rewrite Ef, Est. split; [done|]. split; [by split|]. split.
    + destruct Hs as [Hc Ho ? ?]. split; cbn [se_count se_order se_overlays se_desktop put_order]; try done.
      * rewrite Ec in Hc. rewrite zlen_app. pose proof (zlen_nonneg l1). pose proof (zlen_nonneg l2). lia.
      * rewrite Eo in Ho. rewrite <- Ho. unfold zlen. rewrite !length_app. cbn. rewrite !length_app. lia.
    + rewrite Est. apply NoDup_app. split; [done|]. split; [|done]. intros k Hk H2. apply (Hd k Hk). by right.
    + rewrite Est. apply Forall_app in Hv as [? Hv]. inversion Hv; subst. by apply Forall_app.
  - apply list_find_None in E. split; [|by split]. symmetry. apply filter_other_id. intros H. rewrite Forall_forall in E. by apply (E slot).
Qed.

(** ** Putting a slot on top *)

(** Twelve slots at most. *)
Lemma valid_slots_bound l slot : NoDup l -> Forall (fun k => overlay_slot_valid k = true) l -> overlay_slot_valid slot = true ->
  slot ∉ l -> zlen l < WINDOWD_MAX_OVERLAY_CLIENTS.
Proof.
  intros Hn Hv Hs Hd. assert (NoDup (slot :: l)) as Hn' by (by constructor).
  pose proof (NoDup_incl_length (proj1 (NoDup_ListNoDup _) Hn') (l' := seqZ 0 WINDOWD_MAX_OVERLAY_CLIENTS)) as H.
  rewrite length_seqZ in H. cbn [length] in H. unfold zlen. change WINDOWD_MAX_OVERLAY_CLIENTS with 12 in *.
  enough (S (length l) <= Z.to_nat 12)%nat by lia. apply H. intros k Hk. apply list_elem_of_In, elem_of_seqZ.
  assert (overlay_slot_valid k = true) as Hk'.
  { destruct Hk as [<-|Hk]; [done|]. rewrite Forall_forall in Hv. apply Hv. by apply list_elem_of_In. }
  unfold overlay_slot_valid, WINDOWD_MAX_OVERLAY_CLIENTS in Hk'. lia.
Qed.

Lemma append_spec slot s : order_ok s -> overlay_slot_valid slot = true ->
  stack (append_overlay_to_order slot s) = on_top slot (stack s) /\
  reordered s (append_overlay_to_order slot s) /\ order_ok (append_overlay_to_order slot s).
Proof.
  intros Ho Hslot. unfold append_overlay_to_order. rewrite Hslot. cbn [negb].
  destruct (remove_spec slot s Ho Hslot) as (Est & Hr & Ho'). set (t := remove_overlay_from_order slot s) in *.
  destruct Ho' as [Hs Hn Hv]. assert (Hd : slot ∉ stack t) by (rewrite Est; intros [_ H]%elem_filter_other; done).
  pose proof (valid_slots_bound _ _ Hn Hv Hslot Hd) as Hb. destruct (Hs) as [Hc Hl Hov Hde].
  assert (Lc : zlen (stack t) = se_count t).
  { unfold stack, zlen. rewrite length_take. unfold zlen in Hl. lia. }
  replace (se_count t >=? WINDOWD_MAX_OVERLAY_CLIENTS) with false by lia.
  destruct (drop (Z.to_nat (se_count t)) (se_order t)) as [|y l3] eqn:Ed.
  { pose proof (length_drop (se_order t) (Z.to_nat (se_count t))) as H. rewrite Ed in H. cbn in H. unfold zlen in *. lia. }
  assert (Eo : se_order t = stack t ++ y :: l3) by (rewrite <- Ed; symmetry; apply take_drop).
  assert (E' : set_at (se_order t) (se_count t) slot = stack t ++ slot :: l3) by (rewrite Eo, <- Lc; apply set_at_middle).
  set (u := put_order _ _ t).
  assert (Eu : stack u = stack t ++ [slot]).
  { unfold u, stack at 1. cbn [se_count se_order put_order]. rewrite E'. replace (se_count t + 1) with (zlen (stack t ++ [slot])).
    - replace (stack t ++ slot :: l3) with ((stack t ++ [slot]) ++ l3) by (by rewrite <- app_assoc). apply take_zlen.
    - rewrite zlen_app. change (zlen [slot]) with 1. lia. }
  split; [by rewrite Eu, Est|]. split; [destruct Hr as [? ? [? ?]]; by split|]. split.
  - split; cbn [u se_count se_order se_overlays se_desktop put_order]; [lia|by rewrite zlen_set_at|done..].
  - rewrite Eu. apply NoDup_app. split; [done|]. split; [|by apply NoDup_singleton]. intros k Hk Hk'.
    apply list_elem_of_singleton in Hk' as ->. done.
  - rewrite Eu. apply Forall_app. split; [done|]. by constructor.
Qed.

(** ** Putting several on top *)

Definition move_up (ks l : list Z) : list Z := fold_left (fun l k => on_top k l) ks l.
Definition outside (ks : list Z) (k : Z) : bool := bool_decide (k ∉ ks).

Lemma filter_outside_nil l : List.filter (outside []) l = l.
Proof. induction l as [|k l IH]; [done|]. cbn. unfold outside at 1. rewrite bool_decide_true by apply not_elem_of_nil. by rewrite IH. Qed.

Lemma filter_filter_ext (p q r : Z -> bool) l : (forall k, p k && q k = r k) -> List.filter p (List.filter q l) = List.filter r l.
Proof.
  intros H. induction l as [|k l IH]; [done|]. cbn. specialize (H k). destruct (q k) eqn:E; cbn; rewrite IH.
  - rewrite andb_true_r in H. by rewrite H.
  - rewrite andb_false_r in H. by rewrite <- H.
Qed.

Lemma move_up_is ks l : NoDup ks -> move_up ks l = List.filter (outside ks) l ++ ks.
Proof.
  revert l. unfold move_up. induction ks as [|k ks IH] using rev_ind; intros l Hn.
  - cbn. by rewrite filter_outside_nil, app_nil_r.
  - apply NoDup_app in Hn as (Hn & Hd & _). rewrite fold_left_app. cbn [fold_left]. rewrite IH by done. unfold on_top.
    rewrite List.filter_app, (filter_other_id k ks) by (intros H; apply (Hd _ H); by left).
    rewrite (filter_filter_ext _ _ (outside (ks ++ [k]))); [by rewrite <- app_assoc|].
    intros j. unfold other, outside. destruct (j =? k) eqn:E; cbn.
    + symmetry. apply bool_decide_eq_false. intros H. apply H. apply elem_of_app. right. apply list_elem_of_singleton. lia.
    + apply bool_decide_ext. rewrite elem_of_app, list_elem_of_singleton. split; intros H; [intros [H'|H']; [done|lia]|tauto].
Qed.

(** ** What raising does to the windows a program owns *)

Definition child (s : windowd_session) (root k : Z) : bool :=
  (wc_pid (overlay s k) >? 0) && (wc_owner_slot (overlay s k) =? root).
Definition dialog (s : windowd_session) (k : Z) : bool := negb (wc_role (overlay s k) =? WINDOWD_ROLE_POPUP).
Definition all_slots : list Z := seqZ 0 WINDOWD_MAX_OVERLAY_CLIENTS.
Definition children (s : windowd_session) (root : Z) : list Z := List.filter (child s root) all_slots.

Lemma all_slots_valid k : k ∈ all_slots <-> overlay_slot_valid k = true.
Proof. unfold all_slots. rewrite elem_of_seqZ. unfold overlay_slot_valid, WINDOWD_MAX_OVERLAY_CLIENTS. lia. Qed.

Lemma all_slots_nodup : NoDup all_slots.
Proof. apply NoDup_seqZ. Qed.

Lemma elem_children s root k : k ∈ children s root <-> overlay_slot_valid k = true /\ child s root k = true.
Proof. unfold children. rewrite list_elem_of_In, List.filter_In, <- list_elem_of_In, all_slots_valid. done. Qed.

Lemma children_nodup s root : NoDup (children s root).
Proof. apply NoDup_ListNoDup, List.NoDup_filter, NoDup_ListNoDup, all_slots_nodup. Qed.

(** A session with another window in a slot. *)
Lemma overlay_put slot c s k : session_ok s -> overlay_slot_valid slot = true ->
  overlay (put_overlay slot c s) k = if slot =? k then c else overlay s k.
Proof.
  intros [_ _ Ho _] Hv. unfold overlay, put_overlay. cbn [se_overlays put_overlays]. apply at_set_at.
  rewrite Ho. unfold overlay_slot_valid in Hv. lia.
Qed.

Lemma session_ok_put slot c s : session_ok s -> session_ok (put_overlay slot c s).
Proof. intros [? ? ? ?]. split; unfold put_overlay; cbn [se_count se_order se_overlays se_desktop put_overlays]; rewrite ?zlen_set_at; done. Qed.

Lemma order_ok_put slot c s : order_ok s -> order_ok (put_overlay slot c s).
Proof. intros [? ? ?]. split; [by apply session_ok_put|done..]. Qed.

(** Two sessions whose windows differ in what the order does not look at. *)
Definition raise_child (root child : Z) (s : windowd_session) : windowd_session :=
  let owned := overlay s child in
  if (wc_pid owned <=? 0) || negb (wc_owner_slot owned =? root) then s
  else
    let s := append_overlay_to_order child (put_overlay child (put_minimized false owned) s) in
    if negb (wc_role owned =? WINDOWD_ROLE_POPUP) then put_focus (se_kind s) child s else s.

(** What a sequence of raises leaves. *)
Record raised_to (s s' : windowd_session) (ks : list Z) (active : Z) : Prop := {
  rt_order : order_ok s';
  rt_stack : stack s' = move_up ks (stack s);
  rt_overlay : forall k, overlay s' k = if bool_decide (k ∈ ks) then put_minimized false (overlay s k) else overlay s k;
  rt_desktop : se_desktop s' = se_desktop s;
  rt_kind : se_kind s' = se_kind s;
  rt_active : se_active_slot s' = active }.

Lemma raised_to_nothing s : order_ok s -> raised_to s s [] (se_active_slot s).
Proof. intros H. by split. Qed.

Lemma raised_to_trans s t u ks ks' a b : raised_to s t ks a -> raised_to t u ks' b -> raised_to s u (ks ++ ks') b.
Proof.
  intros H H'. split.
  - apply (rt_order _ _ _ _ H').
  - rewrite (rt_stack _ _ _ _ H'), (rt_stack _ _ _ _ H). unfold move_up. by rewrite fold_left_app.
  - intros k. rewrite (rt_overlay _ _ _ _ H'), (rt_overlay _ _ _ _ H).
    destruct (bool_decide (k ∈ ks)) eqn:E1, (bool_decide (k ∈ ks')) eqn:E2;
      repeat match goal with
      | H : bool_decide _ = true |- _ => apply bool_decide_eq_true in H
      | H : bool_decide _ = false |- _ => apply bool_decide_eq_false in H
      end;
      (rewrite bool_decide_true by (apply elem_of_app; tauto)) || (rewrite bool_decide_false by (rewrite elem_of_app; tauto));
      reflexivity.
  - by rewrite (rt_desktop _ _ _ _ H'), (rt_desktop _ _ _ _ H).
  - by rewrite (rt_kind _ _ _ _ H'), (rt_kind _ _ _ _ H).
  - apply (rt_active _ _ _ _ H').
Qed.

Lemma raised_to_focus s t ks a b : raised_to s t ks a -> raised_to s (put_focus (se_kind t) b t) ks b.
Proof. intros H. destruct H as [[[? ? ? ?] ? ?] ? ? ? ? ?]. split; try done. Qed.

(** One window, on top and not minimized. *)
Lemma raised_to_one s k : order_ok s -> overlay_slot_valid k = true ->
  raised_to s (append_overlay_to_order k (put_overlay k (put_minimized false (overlay s k)) s)) [k] (se_active_slot s).
Proof.
  intros Ho Hv. pose proof (oo_session s Ho) as Hs. apply order_ok_put with (slot := k) (c := put_minimized false (overlay s k)) in Ho as Ho'.
  destruct (append_spec k _ Ho' Hv) as (Est & [Eov Ed [Ek Ea]] & Ho''). split; try done.
  intros j. unfold overlay at 1. rewrite Eov. fold (overlay (put_overlay k (put_minimized false (overlay s k)) s) j).
  rewrite overlay_put by done. destruct (k =? j) eqn:E.
  - rewrite bool_decide_true by (apply list_elem_of_singleton; lia). by replace j with k by lia.
  - by rewrite bool_decide_false by (rewrite list_elem_of_singleton; lia).
Qed.

Lemma raised_child s t ks a root k : raised_to s t ks a -> child t root k = child s root k /\ dialog t k = dialog s k.
Proof.
  intros H. unfold child, dialog. rewrite (rt_overlay _ _ _ _ H).
  by destruct (bool_decide (k ∈ ks)).
Qed.

Definition focus_after (s : windowd_session) (active : Z) (ks : list Z) : Z := default active (last (List.filter (dialog s) ks)).

Lemma focus_after_cons s active k ks :
  focus_after s active (k :: ks) = focus_after s (if dialog s k then k else active) ks.
Proof.
  unfold focus_after. cbn [List.filter]. destruct (dialog s k); [|done]. destruct (List.filter (dialog s) ks) as [|j js] eqn:E; [done|].
  rewrite last_cons. destruct (last (j :: js)) eqn:El; [done|]. apply last_None in El. done.
Qed.

Lemma raise_child_spec s root k : order_ok s -> overlay_slot_valid k = true ->
  raised_to s (raise_child root k s) (if child s root k then [k] else [])
    (if child s root k && dialog s k then k else se_active_slot s).
Proof.
  intros Ho Hv. unfold raise_child. replace ((wc_pid (overlay s k) <=? 0) || negb (wc_owner_slot (overlay s k) =? root))
    with (negb (child s root k)) by (unfold child; lia).
  destruct (child s root k); cbn [negb andb]; [|by apply raised_to_nothing].
  pose proof (raised_to_one s k Ho Hv) as H. unfold dialog. destruct (negb _); [|done]. by eapply raised_to_focus.
Qed.

Lemma raise_children_spec root ks : forall s, order_ok s -> Forall (fun k => overlay_slot_valid k = true) ks ->
  raised_to s (fold_left (fun s k => raise_child root k s) ks s) (List.filter (child s root) ks)
    (focus_after s (se_active_slot s) (List.filter (child s root) ks)).
Proof.
  induction ks as [|k ks IH]; intros s Ho Hv; [by apply raised_to_nothing|]. inversion Hv as [|? ? Hk Hks]; subst. cbn [fold_left].
  pose proof (raise_child_spec s root k Ho Hk) as H1.
  pose proof (IH (raise_child root k s) (rt_order _ _ _ _ H1) Hks) as H2.
  assert (Ec : List.filter (child (raise_child root k s) root) ks = List.filter (child s root) ks).
  { apply List.filter_ext. intros j. apply (raised_child _ _ _ _ root j H1). }
  assert (Ef : forall a l, focus_after (raise_child root k s) a l = focus_after s a l).
  { intros a l. unfold focus_after. do 2 f_equal. apply List.filter_ext. intros j. apply (raised_child _ _ _ _ root j H1). }
  rewrite Ec, Ef, (rt_active _ _ _ _ H1) in H2. pose proof (raised_to_trans _ _ _ _ _ _ _ H1 H2) as H. cbn [List.filter].
  destruct (child s root k); cbn [andb] in H; [|exact H]. by rewrite focus_after_cons.
Qed.

Lemma raise_owned_spec root s : order_ok s ->
  raised_to s (raise_owned root s) (children s root) (focus_after s (se_active_slot s) (children s root)).
Proof.
  intros Ho. unfold raise_owned. rewrite for_z_seqZ. apply (raise_children_spec root all_slots s Ho).
  apply Forall_forall. intros k. by rewrite all_slots_valid.
Qed.

(** ** The focus *)

(** The loop that marks the active window. *)
Definition active_flag (s : windowd_session) (k : Z) : bool :=
  overlay_client_visible (overlay s k) && bool_decide (se_kind s = ClientApp) && (k =? se_active_slot s).

Lemma mark_active_is s : session_ok s -> exists ov, mark_active s = put_overlays ov s /\ zlen ov = WINDOWD_MAX_OVERLAY_CLIENTS /\
  forall k, at_ reset_client ov k =
    if overlay_slot_valid k then put_active (active_flag s k) (overlay s k) else overlay s k.
Proof.
  intros Hs. unfold mark_active.
  enough (exists ov, for_z 0 WINDOWD_MAX_OVERLAY_CLIENTS (fun slot s =>
    put_overlay slot (put_active (active_flag s slot) (overlay s slot)) s) s = put_overlays ov s /\ zlen ov = WINDOWD_MAX_OVERLAY_CLIENTS /\
    forall k, at_ reset_client ov k = if (k >=? 0) && (k <? WINDOWD_MAX_OVERLAY_CLIENTS)
      then put_active (active_flag s k) (overlay s k) else overlay s k) as H by exact H.
  apply (for_z_ind (fun i t => exists ov, t = put_overlays ov s /\ zlen ov = WINDOWD_MAX_OVERLAY_CLIENTS /\
    forall k, at_ reset_client ov k = if (k >=? 0) && (k <? i) then put_active (active_flag s k) (overlay s k) else overlay s k)); [done| |].
  - exists (se_overlays s). split; [by destruct s|]. split; [apply Hs|]. intros k. by replace ((k >=? 0) && (k <? 0)) with false by lia.
  - intros i t Hi (ov & -> & Hl & Hat).
    exists (set_at ov i (put_active (active_flag (put_overlays ov s) i) (overlay (put_overlays ov s) i))).
    split; [done|]. split; [by rewrite zlen_set_at|]. intros k. rewrite at_set_at by lia. destruct (i =? k) eqn:E.
    + replace k with i by lia. replace ((i >=? 0) && (i <? i + 1)) with true by lia. unfold active_flag, overlay. cbn [se_overlays put_overlays].
      rewrite !Hat. by replace ((i >=? 0) && (i <? i)) with false by lia.
    + rewrite Hat. by replace ((k >=? 0) && (k <? i + 1)) with ((k >=? 0) && (k <? i)) by lia.
Qed.

(** Where the focus goes. *)
Definition focus_choice (s : windowd_session) : client_kind * Z :=
  let active := if negb (overlay_slot_valid (se_active_slot s)) || negb (overlay_client_visible (overlay s (se_active_slot s)))
                then -1 else se_active_slot s in
  let visible := top_visible_overlay_slot s in
  if bool_decide (se_kind s = ClientDesktop) && (wc_pid (desktop_window s 0) >? 0) then (ClientDesktop, -1)
  else if negb (bool_decide (se_kind s = ClientApp)) || (active <? 0)
  then (if visible >=? 0 then ClientApp else ClientNone, visible) else (ClientApp, active).

(** Only the marks of the windows and the focus change. *)
Record refocused (s s' : windowd_session) (kind : client_kind) (active : Z) : Prop := {
  rf_session : session_ok s -> session_ok s';
  rf_stack : stack s' = stack s;
  rf_desktop : se_desktop s' = se_desktop s;
  rf_kind : se_kind s' = kind;
  rf_active : se_active_slot s' = active;
  rf_overlay : forall k, overlay s' k = if overlay_slot_valid k
    then put_active (overlay_client_visible (overlay s k) && bool_decide (kind = ClientApp) && (k =? active)) (overlay s k)
    else overlay s k }.

Lemma refresh_spec s : session_ok s ->
  refocused s (refresh_active_state s) (fst (focus_choice s)) (snd (focus_choice s)).
Proof.
  intros Hs. unfold refresh_active_state.
  match goal with |- refocused _ (mark_active ?t) _ _ => set (u := t) end.
  assert (Hu : u = put_focus (fst (focus_choice s)) (snd (focus_choice s)) s).
  { unfold u, focus_choice. cbn [se_kind se_active_slot put_focus]. change (desktop_window (put_focus _ _ s) 0) with (desktop_window s 0).
    change (top_visible_overlay_slot (put_focus _ _ s)) with (top_visible_overlay_slot s).
    destruct (bool_decide (se_kind s = ClientDesktop)) eqn:Ed; cbn [andb].
    - apply bool_decide_eq_true in Ed. rewrite Ed. destruct (wc_pid (desktop_window s 0) >? 0); [done|].
      rewrite bool_decide_false by done. cbn [negb orb]. done.
    - destruct (bool_decide (se_kind s = ClientApp)) eqn:Ea; cbn [negb orb]; [|done].
      apply bool_decide_eq_true in Ea. rewrite Ea. destruct (_ <? 0); done. }
  clearbody u. subst u. assert (Ho : session_ok (put_focus (fst (focus_choice s)) (snd (focus_choice s)) s)) by (by destruct Hs).
  destruct (mark_active_is _ Ho) as (ov & -> & Hl & Hat). split; try done.
  intros _. destruct Hs. by split.
Qed.

Lemma refresh_order_ok s : order_ok s -> order_ok (refresh_active_state s).
Proof.
  intros [Hs Hn Hv]. destruct (refresh_spec s Hs) as [H1 H2 _ _ _ _]. split; [auto|by rewrite H2..].
Qed.

(** ** Raising a window *)

Lemma raise_unfold slot s : overlay_slot_valid slot = true -> wc_pid (overlay s slot) > 0 ->
  raise_overlay slot s =
    let root := overlay_root_slot s slot in
    let s := append_overlay_to_order root (put_overlay root (put_minimized false (overlay s root)) s) in
    let s := raise_owned root (put_focus (se_kind s) root s) in
    let s := if negb (slot =? root) then
               let s := append_overlay_to_order slot s in
               if negb (wc_role (overlay s slot) =? WINDOWD_ROLE_POPUP) then put_focus (se_kind s) slot s else s
             else s in
    refresh_active_state (put_focus ClientApp (se_active_slot s) s).
Proof. intros Hv Hp. unfold raise_overlay. rewrite Hv. by replace (wc_pid (overlay s slot) <=? 0) with false by lia. Qed.

(** The windows that come up with a slot, from the bottom to the top. *)
Definition above_root (s : windowd_session) (slot : Z) : list Z :=
  let root := overlay_root_slot s slot in
  if slot =? root then children s root else List.filter (other slot) (children s root) ++ [slot].

(** The focus ends on the last dialog of them, or on the program's own window. *)
Definition raise_focus (s : windowd_session) (slot : Z) : Z :=
  focus_after s (overlay_root_slot s slot) (above_root s slot).

(** The program whose window is raised has its own window. *)
Definition has_root (s : windowd_session) (slot : Z) : Prop :=
  let root := overlay_root_slot s slot in
  overlay_slot_valid root = true /\ wc_pid (overlay s root) > 0 /\ wc_owner_slot (overlay s root) < 0 /\
  wc_role (overlay s root) = WINDOWD_ROLE_NORMAL.

Lemma raised_to_unchanged s t k ks a : raised_to s t ks a -> overlay_slot_valid k = true -> k ∈ ks ->
  raised_to s (append_overlay_to_order k t) (ks ++ [k]) a.
Proof.
  intros H Hv Hk. destruct (append_spec k t (rt_order _ _ _ _ H) Hv) as (Est & [Eov Ed [Ek Ea]] & Ho). split; try done.
  - rewrite Est, (rt_stack _ _ _ _ H). unfold move_up. by rewrite fold_left_app.
  - intros j. unfold overlay at 1. rewrite Eov. fold (overlay t j). rewrite (rt_overlay _ _ _ _ H).
    destruct (decide (j ∈ ks)) as [Hj|Hj].
    + by rewrite !bool_decide_true by (rewrite ?elem_of_app; tauto).
    + rewrite !bool_decide_false; [done| |done]. rewrite elem_of_app, list_elem_of_singleton. intros [?| ->]; done.
  - by rewrite Ed, (rt_desktop _ _ _ _ H).
  - by rewrite Ek, (rt_kind _ _ _ _ H).
  - by rewrite Ea, (rt_active _ _ _ _ H).
Qed.

Lemma focus_after_snoc s root ks slot :
  focus_after s root (List.filter (other slot) ks ++ [slot]) = if dialog s slot then slot else focus_after s root ks.
Proof.
  unfold focus_after. rewrite List.filter_app. cbn [List.filter]. destruct (dialog s slot) eqn:E.
  - by rewrite last_snoc.
  - rewrite app_nil_r. do 2 f_equal. apply filter_filter_ext. intros k. unfold other.
    destruct (k =? slot) eqn:Ek; cbn [negb]; [|by rewrite andb_true_r]. replace k with slot by lia. by rewrite E.
Qed.

Lemma child_root s slot : overlay_slot_valid slot = true -> wc_pid (overlay s slot) > 0 -> slot <> overlay_root_slot s slot ->
  slot ∈ children s (overlay_root_slot s slot).
Proof.
  intros Hv Hp Hne. apply elem_children. split; [done|]. unfold child. revert Hne. unfold overlay_root_slot.
  case_if; [done|]. lia.
Qed.

Lemma root_not_child s slot : has_root s slot -> overlay_root_slot s slot ∉ children s (overlay_root_slot s slot).
Proof.
  intros (Hv & _ & Ho & _) [_ H]%elem_children. unfold child in H. unfold overlay_slot_valid in Hv. lia.
Qed.

(** The order before the focus is settled. *)
Lemma raise_before_focus slot s : order_ok s -> overlay_slot_valid slot = true -> wc_pid (overlay s slot) > 0 -> has_root s slot ->
  exists t, raise_overlay slot s = refresh_active_state (put_focus ClientApp (raise_focus s slot) t) /\
    raised_to s t (overlay_root_slot s slot :: children s (overlay_root_slot s slot) ++ (if slot =? overlay_root_slot s slot then [] else [slot]))
      (raise_focus s slot).
Proof.
  intros Ho Hv Hp Hr. pose proof Hr as (Hvr & Hpr & Hor & Hrr). rewrite raise_unfold by done. cbv zeta.
  set (root := overlay_root_slot s slot) in *.
  pose proof (raised_to_focus _ _ _ _ root (raised_to_one s root Ho Hvr)) as H1.
  set (t1 := put_focus _ root _) in *.
  pose proof (raise_owned_spec root t1 (rt_order _ _ _ _ H1)) as H2.
  assert (Ec : children t1 root = children s root).
  { apply List.filter_ext. intros j. apply (raised_child _ _ _ _ root j H1). }
  assert (Ef : forall a l, focus_after t1 a l = focus_after s a l).
  { intros a l. unfold focus_after. do 2 f_equal. apply List.filter_ext. intros j. apply (raised_child _ _ _ _ root j H1). }
  rewrite Ec, Ef, (rt_active _ _ _ _ H1) in H2. pose proof (raised_to_trans _ _ _ _ _ _ _ H1 H2) as H3. cbn [app] in H3.
  set (t2 := raise_owned root t1) in *. unfold raise_focus, above_root. fold root.
  destruct (slot =? root) eqn:E; cbn [negb].
  - exists t2. rewrite (rt_active _ _ _ _ H3). rewrite app_nil_r. done.
  - assert (Hc : slot ∈ children s root) by (apply child_root; [done|done|fold root; lia]).
    pose proof (raised_to_unchanged _ _ slot _ _ H3 Hv (list_elem_of_further _ _ _ Hc)) as H4. rewrite focus_after_snoc.
    change ((root :: children s root) ++ [slot]) with (root :: children s root ++ [slot]) in H4.
    pose proof (proj2 (raised_child _ _ _ _ root slot H4)) as Hd. unfold dialog in Hd at 1. rewrite Hd.
    destruct (dialog s slot).
    + pose proof (raised_to_focus _ _ _ _ slot H4) as H5. eexists. rewrite (rt_active _ _ _ _ H5). done.
    + eexists. rewrite (rt_active _ _ _ _ H4). done.
Qed.

Lemma move_up_snoc s root slot l : root ∉ children s root -> slot ∈ children s root ->
  move_up (root :: children s root ++ [slot]) l =
    List.filter (outside (root :: children s root)) l ++ root :: List.filter (other slot) (children s root) ++ [slot].
Proof.
  intros Hr Hs. change (root :: children s root ++ [slot]) with ((root :: children s root) ++ [slot]).
  unfold move_up. rewrite fold_left_app. fold (move_up (root :: children s root) l). rewrite (move_up_is (root :: children s root)) by (apply NoDup_cons; split; [done|apply children_nodup]).
  cbn [fold_left]. unfold on_top. rewrite List.filter_app, <- !app_assoc. f_equal.
  - apply filter_filter_ext. intros k. unfold other, outside. destruct (k =? slot) eqn:E; cbn [negb andb]; [|done].
    symmetry. apply bool_decide_eq_false. intros H. apply H. replace k with slot by lia. by right.
  - cbn [List.filter]. by replace (other slot root) with true by (unfold other; assert (root <> slot) by congruence; lia).
Qed.

(** The session after a window is raised. *)
Record raised (s s' : windowd_session) (slot : Z) : Prop := {
  ra_order : order_ok s';
  ra_stack : stack s' = List.filter (outside (overlay_root_slot s slot :: children s (overlay_root_slot s slot))) (stack s) ++
               overlay_root_slot s slot :: above_root s slot;
  ra_kind : se_kind s' = ClientApp;
  ra_active : se_active_slot s' = raise_focus s slot;
  ra_desktop : se_desktop s' = se_desktop s;
  ra_overlay : forall k, overlay_slot_valid k = true -> overlay s' k =
    put_active (k =? raise_focus s slot)
      (if bool_decide (k ∈ overlay_root_slot s slot :: children s (overlay_root_slot s slot))
       then put_minimized false (overlay s k) else overlay s k) }.

Lemma raise_focus_in s slot : overlay_slot_valid slot = true -> wc_pid (overlay s slot) > 0 -> has_root s slot ->
  raise_focus s slot ∈ overlay_root_slot s slot :: children s (overlay_root_slot s slot) /\
  overlay_slot_valid (raise_focus s slot) = true /\ wc_pid (overlay s (raise_focus s slot)) > 0.
Proof.
  intros Hv Hp (Hvr & Hpr & _). assert (raise_focus s slot ∈ overlay_root_slot s slot :: children s (overlay_root_slot s slot)) as H.
  { unfold raise_focus, focus_after. destruct (last _) as [k|] eqn:E; [|by left]. right. cbn [default from_option].
    apply last_Some_elem_of in E. apply list_elem_of_In, List.filter_In in E as [E _]. apply list_elem_of_In in E.
    revert E. unfold above_root. destruct (slot =? _) eqn:Es; [done|]. rewrite elem_of_app, elem_filter_other, list_elem_of_singleton.
    intros [[E _]| ->]; [done|]. apply child_root; [done..|lia]. }
  split; [done|]. apply elem_of_cons in H as [->|H]; [done|]. apply elem_children in H as [H1 H2]. unfold child in H2.
  split; [done|lia].
Qed.

Lemma raise_spec slot s : order_ok s -> overlay_slot_valid slot = true -> wc_pid (overlay s slot) > 0 -> has_root s slot ->
  raised s (raise_overlay slot s) slot.
Proof.
  intros Ho Hv Hp Hr. destruct (raise_before_focus slot s Ho Hv Hp Hr) as (t & -> & H).
  destruct (raise_focus_in s slot Hv Hp Hr) as (Hin & Hvf & Hpf). pose proof (root_not_child s slot Hr) as Hnc.
  set (root := overlay_root_slot s slot) in *. set (u := put_focus ClientApp (raise_focus s slot) t).
  assert (Hmem : forall k, k ∈ root :: children s root ++ (if slot =? root then [] else [slot]) <-> k ∈ root :: children s root).
  { intros k. destruct (slot =? root) eqn:E; [by rewrite app_nil_r|]. rewrite !elem_of_cons, elem_of_app, list_elem_of_singleton.
    split; [|tauto]. intros [->|[?| ->]]; [tauto..|]. right. apply child_root; [done..|fold root; lia]. }
  assert (Hov : forall k, overlay u k = if bool_decide (k ∈ root :: children s root) then put_minimized false (overlay s k) else overlay s k).
  { intros k. change (overlay u k) with (overlay t k). rewrite (rt_overlay _ _ _ _ H). by rewrite (bool_decide_ext _ _ (Hmem k)). }
  assert (Hou : order_ok u) by (destruct (rt_order _ _ _ _ H) as [[? ? ? ?] ? ?]; by split).
  assert (Hc : focus_choice u = (ClientApp, raise_focus s slot)).
  { assert (Hvis : overlay_client_visible (overlay u (raise_focus s slot)) = true).
    { rewrite Hov, bool_decide_true by done. unfold overlay_client_visible. cbn. lia. }
    unfold focus_choice. change (se_kind u) with ClientApp. change (se_active_slot u) with (raise_focus s slot). rewrite Hvf, Hvis.
    unfold overlay_slot_valid in Hvf. cbn. by replace (raise_focus s slot <? 0) with false by lia. }
  pose proof (refresh_spec u (oo_session u Hou)) as Hf. rewrite Hc in Hf. cbn [fst snd] in Hf. split.
  - by apply refresh_order_ok.
  - rewrite (rf_stack _ _ _ _ Hf). change (stack u) with (stack t). rewrite (rt_stack _ _ _ _ H). unfold above_root. fold root.
    destruct (slot =? root) eqn:E.
    + rewrite app_nil_r. apply move_up_is. apply NoDup_cons. split; [done|apply children_nodup].
    + apply move_up_snoc; [done|]. apply child_root; [done..|fold root; lia].
  - apply (rf_kind _ _ _ _ Hf).
  - apply (rf_active _ _ _ _ Hf).
  - rewrite (rf_desktop _ _ _ _ Hf). apply (rt_desktop _ _ _ _ H).
  - intros k Hk. rewrite (rf_overlay _ _ _ _ Hf), Hk, Hov. fold root. f_equal. rewrite (bool_decide_true (ClientApp = ClientApp)) by done.
    rewrite andb_true_r. destruct (k =? raise_focus s slot) eqn:E; [|by rewrite andb_false_r]. replace k with (raise_focus s slot) by lia.
    rewrite bool_decide_true by done. unfold overlay_client_visible. cbn. lia.
Qed.
