(* ===== verification/WmFocus.v ===== *)
(** * The windows' invariant

    What is true of the windows between one operation and the next: the order
    holds every window once, a program's dialogs and popups lie above its own
    window and are minimized with it, no two main windows are of one process, and the keyboard is on a window the user
    sees and can answer.  The operations that only touch geometry, damage,
    cursor or events keep all of it because they keep the shape of the windows. *)

From S2P Require Import Prelude Rect Region Painter Scene Consent Wm WmInput WmOpen WmScene WmRequests WmStack.

Abbreviation pid_at s k := (wc_pid (overlay s k)).
Abbreviation owner_at s k := (wc_owner_slot (overlay s k)).

(** [o] is below [k] in a list. *)
Definition below (o k : Z) (l : list Z) : Prop := exists a b, l = a ++ k :: b /\ o ∈ a.

Lemma below_filter p o k l : below o k l -> p o = true -> p k = true -> below o k (List.filter p l).
Proof.
  intros (a & b & -> & Ha) Ho Hk. exists (List.filter p a), (List.filter p b). rewrite List.filter_app. cbn. rewrite Hk.
  split; [done|]. apply list_elem_of_In, List.filter_In. split; [by apply list_elem_of_In|done].
Qed.

Lemma below_app o k l l' : below o k l -> below o k (l ++ l').
Proof. intros (a & b & -> & Ha). exists a, (b ++ l'). by rewrite <- app_assoc. Qed.

Lemma below_last o k l : o ∈ l -> below o k (l ++ [k]).
Proof. intros H. by exists l, []. Qed.

Lemma below_split o k a l : o ∈ a -> k ∈ l -> below o k (a ++ l).
Proof. intros Ho (l1 & l2 & ->)%list_elem_of_split. exists (a ++ l1), l2. split; [by rewrite app_assoc|]. apply elem_of_app. by left. Qed.

Lemma below_after o k a b : NoDup (a ++ o :: b) -> below o k (a ++ o :: b) -> k ∈ b.
Proof.
  intros Hn (a' & b' & E & Ho). revert a' E Ho. induction a as [|i a IH]; intros [|i' a'] E Ho; cbn in E; injection E as -> E.
  - by apply not_elem_of_nil in Ho.
  - rewrite E. apply elem_of_app. right. by left.
  - by apply not_elem_of_nil in Ho.
  - apply NoDup_cons in Hn as [Hi Hn]. apply (IH Hn a' E). apply elem_of_cons in Ho as [->|Ho]; [|done].
    exfalso. apply Hi. apply elem_of_app. right. by left.
Qed.

(** The invariant of the windows; [x] is a window that is being put in place. *)
Record core_but (x : Z) (s : windowd_session) : Prop := {
  wk_order : order_ok s;
  wk_live : forall k, overlay_slot_valid k = true -> k <> x -> (k ∈ stack s <-> pid_at s k > 0);
  wk_new : x ∈ stack s -> pid_at s x > 0;
  wk_free : forall k, overlay_slot_valid k = true -> pid_at s k <= 0 ->
    owner_at s k < 0 /\ wc_role (overlay s k) = WINDOWD_ROLE_NORMAL;
  wk_reserved : forall k, overlay_slot_valid k = true -> wc_reserved_pid (overlay s k) > 0 -> pid_at s k <= 0;
  wk_owner : forall k, overlay_slot_valid k = true -> pid_at s k > 0 -> owner_at s k >= 0 ->
    overlay_slot_valid (owner_at s k) = true /\ pid_at s (owner_at s k) > 0 /\ owner_at s (owner_at s k) < 0;
  wk_root : forall k, overlay_slot_valid k = true -> pid_at s k > 0 -> owner_at s k < 0 ->
    wc_role (overlay s k) = WINDOWD_ROLE_NORMAL;
  wk_above : forall k, k ∈ stack s -> owner_at s k >= 0 -> owner_at s k <> x -> below (owner_at s k) k (stack s);
  wk_family : forall k, overlay_slot_valid k = true -> k <> x -> pid_at s k > 0 -> owner_at s k >= 0 ->
    wc_minimized (overlay s k) = wc_minimized (overlay s (owner_at s k));
  wk_pid : forall k j, overlay_slot_valid k = true -> overlay_slot_valid j = true -> pid_at s k > 0 -> pid_at s j = pid_at s k ->
    owner_at s k < 0 -> owner_at s j < 0 -> k = j }.

(** Every window in place. *)
Definition core (s : windowd_session) : Prop := core_but (-1) s.

(** Where the keyboard is. *)
Record focus_ok (s : windowd_session) : Prop := {
  fo_app : se_kind s = ClientApp -> overlay_slot_valid (se_active_slot s) = true /\
    overlay_client_visible (overlay s (se_active_slot s)) = true /\ overlay_client_disabled s (se_active_slot s) = false;
  fo_other : se_kind s <> ClientApp -> se_active_slot s = -1;
  fo_none : se_kind s = ClientNone -> forall k, overlay_slot_valid k = true -> overlay_client_visible (overlay s k) = false;
  fo_mark : forall k, overlay_slot_valid k = true -> wc_active (overlay s k) = active_flag s k }.

Definition windows_ok (s : windowd_session) : Prop := core s /\ focus_ok s.

(** ** Sessions with windows of the same shape *)

Definition shape (c : windowd_client) : Z * Z * Z * Z * bool :=
  (wc_pid c, wc_reserved_pid c, wc_owner_slot c, wc_role c, wc_minimized c).

Record same_windows (s s' : windowd_session) : Prop := {
  sw_order : se_order s' = se_order s;
  sw_count : se_count s' = se_count s;
  sw_desktop : zlen (se_desktop s') = zlen (se_desktop s);
  sw_overlays : zlen (se_overlays s') = zlen (se_overlays s);
  sw_shape : forall k, shape (overlay s' k) = shape (overlay s k) }.

Record same (s s' : windowd_session) : Prop := {
  sa_windows : same_windows s s';
  sa_focus : se_kind s' = se_kind s /\ se_active_slot s' = se_active_slot s;
  sa_mark : forall k, wc_active (overlay s' k) = wc_active (overlay s k) }.

#[export] Instance same_windows_preorder : PreOrder same_windows.
Proof.
  split; [intros s; by split|]. intros s t u [H1 H2 H3 H4 H5] [K1 K2 K3 K4 K5]. split; congruence.
Qed.

#[export] Instance same_preorder : PreOrder same.
Proof.
  split; [intros s; split; [reflexivity|done..]|]. intros s t u [H1 [H2 H3] H4] [K1 [K2 K3] K4].
  split; [by transitivity t|split; congruence|]. intros k. by rewrite K4, H4.
Qed.

Lemma same_stack s s' : same_windows s s' -> stack s' = stack s.
Proof. intros [H1 H2 _ _ _]. unfold stack. by rewrite H1, H2. Qed.

Lemma shape_parts s s' k : same_windows s s' ->
  pid_at s' k = pid_at s k /\ wc_reserved_pid (overlay s' k) = wc_reserved_pid (overlay s k) /\ owner_at s' k = owner_at s k /\
  wc_role (overlay s' k) = wc_role (overlay s k) /\ wc_minimized (overlay s' k) = wc_minimized (overlay s k).
Proof. intros [_ _ _ _ H]. specialize (H k). unfold shape in H. injection H. auto. Qed.

Lemma same_order_ok s s' : same_windows s s' -> order_ok s -> order_ok s'.
Proof.
  intros H [[Ho1 Ho2 Ho3 Ho4] Hn Hv]. pose proof (same_stack _ _ H) as Es. destruct H as [H1 H2 H3 H4 H5].
  split; [split; congruence|by rewrite Es..].
Qed.

Lemma same_core x s s' : same_windows s s' -> core_but x s -> core_but x s'.
Proof.
  intros H C. pose proof (same_stack _ _ H) as Es. pose proof (fun k => shape_parts s s' k H) as P.
  assert (Pp : forall k, pid_at s' k = pid_at s k) by (intros k; apply P).
  assert (Pr : forall k, wc_reserved_pid (overlay s' k) = wc_reserved_pid (overlay s k)) by (intros k; apply P).
  assert (Po : forall k, owner_at s' k = owner_at s k) by (intros k; apply P).
  assert (Pl : forall k, wc_role (overlay s' k) = wc_role (overlay s k)) by (intros k; apply P).
  assert (Pm : forall k, wc_minimized (overlay s' k) = wc_minimized (overlay s k)) by (intros k; apply P).
  destruct C. split; [by apply (same_order_ok s)|..]; repeat setoid_rewrite Es; repeat setoid_rewrite Pp; repeat setoid_rewrite Pr;
    repeat setoid_rewrite Po; repeat setoid_rewrite Pl; repeat setoid_rewrite Pm; repeat setoid_rewrite Po; try done.
Qed.

(** ** Operations that keep the shape *)

Lemma overlay_put_cases slot c s k :
  (k = slot /\ overlay (put_overlay slot c s) k = c) \/ overlay (put_overlay slot c s) k = overlay s k.
Proof.
  unfold overlay, put_overlay. cbn [se_overlays put_overlays]. destruct (decide (0 <= slot < zlen (se_overlays s))) as [H|H].
  - rewrite at_set_at by done. destruct (slot =? k) eqn:E; [left|by right]. split; [lia|done].
  - right. unfold set_at. destruct (slot <? 0) eqn:E; [done|]. rewrite list_insert_ge; [done|]. unfold zlen in H. lia.
Qed.

Lemma same_put_overlay s t slot c : same s t -> shape c = shape (overlay t slot) -> wc_active c = wc_active (overlay t slot) ->
  same s (put_overlay slot c t).
Proof.
  intros H Hc Ha. transitivity t; [done|]. split; [split; try done|done|].
  - unfold put_overlay. cbn [se_overlays put_overlays]. by rewrite zlen_set_at.
  - intros k. by destruct (overlay_put_cases slot c t k) as [[-> ->]| ->].
  - intros k. by destruct (overlay_put_cases slot c t k) as [[-> ->]| ->].
Qed.

(** A setter of a field the windows' shape does not look at. *)
Lemma same_dirty_add x y w h s t : same s t -> same s (windowd_dirty_rect_add x y w h t).
Proof. intros H. unfold windowd_dirty_rect_add. destruct (clip_rect_to_framebuffer _ _); [|done]. transitivity t; [done|]. by split. Qed.
Lemma same_dirty_rect r s t : same s t -> same s (dirty_rect r t).
Proof. apply same_dirty_add. Qed.
Lemma same_dirty_fullscreen s t : same s t -> same s (windowd_dirty_rect_add_fullscreen t).
Proof. apply same_dirty_add. Qed.
Lemma same_dirty_client c s t : same s t -> same s (windowd_dirty_rect_add_client c t).
Proof. intros H. unfold windowd_dirty_rect_add_client. case_if; [done|]. transitivity t; [done|]. by split. Qed.
Lemma same_put_info i s t : same s t -> same s (put_info i t).
Proof. intros H. transitivity t; [done|]. by split. Qed.
Lemma same_put_native i s t : same s t -> same s (put_native i t).
Proof. intros H. transitivity t; [done|]. by split. Qed.
Lemma same_put_fullscreen_slot i s t : same s t -> same s (put_fullscreen_slot i t).
Proof. intros H. transitivity t; [done|]. by split. Qed.
Lemma same_put_switcher o i s t : same s t -> same s (put_switcher o i t).
Proof. intros H. transitivity t; [done|]. by split. Qed.
Lemma same_put_resize r s t : same s t -> same s (put_resize r t).
Proof. intros H. transitivity t; [done|]. by split. Qed.
Lemma same_put_consent c s t : same s t -> same s (put_consent c t).
Proof. intros H. transitivity t; [done|]. by split. Qed.
Lemma same_put_hotkeys l h s t : same s t -> same s (put_hotkeys l h t).
Proof. intros H. transitivity t; [done|]. by split. Qed.
Lemma same_put_cursor a b m s t : same s t -> same s (put_cursor a b m t).
Proof. intros H. transitivity t; [done|]. by split. Qed.
Lemma same_put_capture c s t : same s t -> same s (put_capture c t).
Proof. intros H. transitivity t; [done|]. by split. Qed.
Lemma same_put_sent l s t : same s t -> same s (put_sent l t).
Proof. intros H. transitivity t; [done|]. by split. Qed.
Lemma same_put_desktop l s t : same s t -> length l = length (se_desktop t) -> same s (put_desktop l t).
Proof. intros H Hl. transitivity t; [done|]. split; [split|..]; try done. unfold zlen. cbn. by rewrite Hl. Qed.
Lemma same_put_window i c s t : same s t -> same s (put_window i c t).
Proof. intros H. unfold put_window. apply same_put_desktop; [done|]. apply length_set_at. Qed.

Lemma same_refl s : same s s.
Proof. reflexivity. Qed.

Create HintDb calm.
#[export] Hint Resolve same_refl same_dirty_add same_dirty_rect same_dirty_fullscreen same_dirty_client same_put_info same_put_native
  same_put_fullscreen_slot same_put_switcher same_put_resize same_put_consent same_put_hotkeys same_put_cursor same_put_capture
  same_put_sent same_put_window : calm.

(** Through the branches of an operation. *)
Ltac calm_branch :=
  match goal with
  | |- same _ (if ?b then _ else _) => destruct b
  | |- same _ (match ?o with Some _ => _ | None => _ end) => destruct o
  | |- same _ (fst (if ?b then _ else _)) => destruct b; cbn [fst]
  | |- same _ (fst (match ?o with Some _ => _ | None => _ end)) => destruct o; cbn [fst]
  | |- same _ (let '(_, _) := ?p in _) => destruct p
  end.
#[export] Hint Extern 2 (same _ (if ?b then _ else _)) => destruct b : calm.
Ltac calm := cbv zeta; repeat calm_branch; eauto 20 with calm.

Lemma same_for_z lo hi (f : Z -> windowd_session -> windowd_session) s t : lo <= hi -> same s t ->
  (forall i u, same s u -> same s (f i u)) -> same s (for_z lo hi f t).
Proof. intros Hle H Hf. apply (for_z_ind (fun _ u => same s u)); auto. Qed.

Lemma same_route_event p e s t : same s t -> same s (route_event p e t).
Proof. intros H. unfold route_event. calm. Qed.
#[export] Hint Resolve same_route_event : calm.
Lemma same_route_key p k s t : same s t -> same s (route_key p k t).
Proof. intros H. unfold route_key. calm. Qed.
Lemma same_route_pointer p x y w b s t : same s t -> same s (route_pointer p x y w b t).
Proof. intros H. unfold route_pointer. destruct p; calm. Qed.
Lemma same_route_motion p x y w b s t : same s t -> same s (route_pointer_motion p x y w b t).
Proof. intros H. unfold route_pointer_motion. calm. Qed.
Lemma same_dirty_consent s t : same s t -> same s (dirty_consent t).
Proof. intros H. unfold dirty_consent. calm. Qed.
Lemma same_dirty_switcher s t : same s t -> same s (dirty_switcher t).
Proof. intros H. unfold dirty_switcher. calm. Qed.
#[export] Hint Resolve same_route_key same_route_pointer same_route_motion same_dirty_consent same_dirty_switcher : calm.
Lemma same_switcher_close s t : same s t -> same s (switcher_close t).
Proof. intros H. unfold switcher_close. calm. Qed.
#[export] Hint Resolve same_switcher_close : calm.
Lemma same_consent_opened s t : same s t -> same s (consent_opened_or_closed t).
Proof. intros H. unfold consent_opened_or_closed. apply same_dirty_consent. calm. Qed.
Lemma same_repaint i s t : same s t -> same s (repaint_activation_change i t).
Proof. intros H. unfold repaint_activation_change. calm. Qed.
Lemma same_repaint_focus k i s t : same s t -> same s (repaint_focus_change k i t).
Proof. intros H. unfold repaint_focus_change. calm. Qed.
Lemma same_family root s t : same s t -> same s (dirty_overlay_family root t).
Proof. intros H. unfold dirty_overlay_family. apply same_for_z; [done..|]. intros i u Hu. calm. Qed.
Lemma same_apply_mode w h a s t : same s t -> same s (fst (apply_display_mode w h a t)).
Proof. intros H. unfold apply_display_mode. calm. Qed.
#[export] Hint Resolve same_consent_opened same_repaint same_repaint_focus same_family same_apply_mode : calm.

Lemma same_exit_fullscreen a s t : same s t -> same s (exit_overlay_fullscreen a t).
Proof.
  intros H. unfold exit_overlay_fullscreen. case_if; [calm|]. apply same_dirty_fullscreen. apply same_put_overlay; [calm|..].
  - transitivity (shape (overlay t (se_fullscreen_slot t))); [done|]. unfold apply_display_mode. by repeat case_if; destruct a.
  - transitivity (wc_active (overlay t (se_fullscreen_slot t))); [done|]. unfold apply_display_mode. by repeat case_if; destruct a.
Qed.
Lemma shape_fit d w h c : shape (fit_frame d w h c) = shape c /\ wc_active (fit_frame d w h c) = wc_active c.
Proof. unfold fit_frame. case_if; [done|]. by case_if; destruct (windowd_clamp_overlay_frame_position _ _ _ _ _). Qed.
Lemma same_resize_surface slot w h s t : same s t -> same s (resize_overlay_client_surface slot w h t).
Proof.
  intros H. unfold resize_overlay_client_surface. do 3 (case_if; [done|]). apply same_dirty_rect, same_dirty_rect.
  apply same_put_overlay; [done|..]; [etrans; [apply shape_fit|done]|etrans; [apply shape_fit|done]].
Qed.
#[export] Hint Resolve same_exit_fullscreen same_resize_surface : calm.

Lemma same_move slot x y s t : same s t -> same s (move_overlay_client_window slot x y t).
Proof.
  intros H. unfold move_overlay_client_window. case_if; [done|]. destruct (windowd_clamp_overlay_frame_position _ _ _ _ _). case_if; [done|].
  apply same_dirty_rect, same_dirty_rect, same_put_overlay; done.
Qed.
Lemma same_apply_frame slot f s t : same s t -> same s (apply_overlay_client_frame slot f t).
Proof.
  intros H. unfold apply_overlay_client_frame. case_if; [done|]. apply same_dirty_rect, same_resize_surface, same_put_overlay; done.
Qed.
Lemma same_close slot now a s t : same s t -> same s (fst (close_overlay_window slot now a t)).
Proof.
  intros H. unfold close_overlay_window. case_if; [done|]. case_if; cbn [fst]; [by apply same_put_overlay|].
  set (u := if wc_fullscreen _ then _ else t). assert (Hu : same s u) by (unfold u; calm). clearbody u. cbv zeta.
  case_if; cbn [fst]; [|by apply same_put_overlay].
  apply same_put_overlay; [|done..]. case_if; [|by apply same_put_overlay].
  apply same_dirty_client, same_put_overlay; [by apply same_put_overlay|..].
  - by destruct (overlay_put_cases slot (ask_shutdown (overlay u slot)) u slot) as [[_ ->]| ->].
  - by destruct (overlay_put_cases slot (ask_shutdown (overlay u slot)) u slot) as [[_ ->]| ->].
Qed.
Lemma same_dismiss p s t : same s t -> same s (request_popup_dismiss p t).
Proof.
  intros H. unfold request_popup_dismiss. destruct p; cbn [put_client]; [|by apply same_put_overlay].
  apply same_put_desktop; [done|]. apply length_set_at.
Qed.
#[export] Hint Resolve same_move same_apply_frame same_close same_dismiss : calm.

(** ** The focus settled *)

Lemma refresh_same_windows s : session_ok s -> same_windows s (refresh_active_state s).
Proof.
  intros Hs. pose proof (refresh_spec s Hs) as H. pose proof (rf_overlay _ _ _ _ H) as Ho.
  assert (E : exists ov, refresh_active_state s = mark_active ov /\ se_order ov = se_order s /\ se_count ov = se_count s /\ session_ok ov).
  { unfold refresh_active_state. eexists. split; [done|]. destruct Hs. repeat case_if; (split; [done|]); (split; [done|]); by split. }
  destruct E as (t & Et & E1 & E2 & Ht). destruct (mark_active_is t Ht) as (ov & Em & Hl & _). rewrite Em in Et. split.
  - by rewrite Et.
  - by rewrite Et.
  - by rewrite (rf_desktop _ _ _ _ H).
  - rewrite Et. cbn. rewrite Hl. symmetry. apply Hs.
  - intros k. rewrite Ho. by case_if.
Qed.

Lemma disabled_ext s s' slot : (forall k, shape (overlay s' k) = shape (overlay s k)) -> overlay_client_disabled s' slot = overlay_client_disabled s slot.
Proof.
  intros H. unfold overlay_client_disabled, overlay_client_owned, owned_dialog_open.
  assert (P : forall k, pid_at s' k = pid_at s k /\ owner_at s' k = owner_at s k /\ wc_role (overlay s' k) = wc_role (overlay s k)).
  { intros k. specialize (H k). unfold shape in H. injection H. auto. }
  f_equal; [by rewrite (proj1 (proj2 (P slot)))|]. induction (seqZ 0 WINDOWD_MAX_OVERLAY_CLIENTS) as [|k l IH]; [done|]. cbn. rewrite IH. destruct (P k) as (-> & -> & ->). done.
Qed.

Lemma visible_ext c c' : shape c' = shape c -> overlay_client_visible c' = overlay_client_visible c.
Proof. unfold shape, overlay_client_visible. intros [= -> _ _ _ ->]. done. Qed.

Lemma same_ok s s' : same s s' -> windows_ok s -> windows_ok s'.
Proof.
  intros [Hw [Hk Ha] Hm] [Hc Hf]. split; [by apply (same_core _ s)|]. pose proof (sw_shape _ _ Hw) as Hs.
  pose proof (fun k => visible_ext _ _ (Hs k)) as Hv. pose proof (fun k => disabled_ext s s' k Hs) as Hd.
  destruct Hf as [F1 F2 F3 F4]. split; rewrite ?Hk, ?Ha, ?Hv, ?Hd; try done.
  - intros E k Hvk. rewrite Hv. by apply F3.
  - intros k Hvk. rewrite Hm, F4 by done. unfold active_flag. by rewrite Hv, Hk, Ha.
Qed.

Lemma last_in_find (p : Z -> bool) l : default (-1) (first_slot p (rev l)) = -1 \/
  exists a k b, l = a ++ k :: b /\ default (-1) (first_slot p (rev l)) = k /\ p k = true /\ Forall (fun j => p j = false) b.
Proof.
  rewrite first_slot_find. destruct (List.find p (rev l)) as [k|] eqn:E; [right|by left].
  apply find_last_split in E as (a & b & -> & Hk & Hb). by exists a, k, b.
Qed.

(** A dialog of the window lies above it and is seen when it is. *)
Lemma top_visible_enabled s : core s -> overlay_slot_valid (top_visible_overlay_slot s) = true ->
  overlay_client_visible (overlay s (top_visible_overlay_slot s)) = true /\ overlay_client_disabled s (top_visible_overlay_slot s) = false.
Proof.
  intros C Hv. unfold top_visible_overlay_slot, top_down in *. fold (stack s) in *.
  destruct (last_in_find (fun slot => (slot >=? 0) && (slot <? WINDOWD_MAX_OVERLAY_CLIENTS) && overlay_client_visible (overlay s slot)) (stack s))
    as [E|(a & k & b & Es & E & Hk & Hb)]; rewrite E in *; [done|].
  split; [lia|]. unfold overlay_client_disabled. rewrite Hv. unfold overlay_client_owned. cbn [andb].
  destruct (owner_at s k >=? 0) eqn:Eo; [done|]. cbn [negb andb]. unfold owned_dialog_open. apply Bool.not_true_is_false.
  intros (j & Hj & Hjd)%existsb_exists. apply list_elem_of_In in Hj. change (j ∈ all_slots) in Hj. apply all_slots_valid in Hj.
  assert (Hp : pid_at s j > 0) by lia. assert (Ho : owner_at s j = k) by lia.
  assert (Hkv : k >= 0) by (unfold overlay_slot_valid in Hv; lia).
  assert (Hne : forall i, overlay_slot_valid i = true -> i <> -1) by (intros i Hi ->; done).
  assert (Hjs : j ∈ stack s) by (apply (wk_live _ _ C); auto).
  assert (Hb' : below k j (stack s)) by (rewrite <- Ho; apply (wk_above _ _ C); [done|lia..]).
  assert (Hm : wc_minimized (overlay s j) = wc_minimized (overlay s k)).
  { rewrite <- Ho. apply (wk_family _ _ C); auto; lia. }
  assert (Hjb : j ∈ b).
  { pose proof (oo_nodup s (wk_order _ _ C)) as Hn. rewrite Es in Hn, Hb'. by apply (below_after _ _ _ _ Hn). }
  rewrite Forall_forall in Hb. specialize (Hb j Hjb). unfold overlay_client_visible in *. rewrite Hm in Hb.
  unfold overlay_slot_valid in Hj. lia.
Qed.

(** The focus is not on a window with a dialog. *)
Definition focus_free (s : windowd_session) : Prop := se_kind s = ClientApp -> overlay_client_disabled s (se_active_slot s) = false.

Lemma refresh_ok s : core s -> focus_free s -> windows_ok (refresh_active_state s).
Proof.
  intros C Hff. pose proof (oo_session s (wk_order _ _ C)) as Hs. pose proof (refresh_same_windows s Hs) as Hw.
  split; [by apply (same_core _ s)|]. pose proof (refresh_spec s Hs) as R. pose proof (sw_shape _ _ Hw) as Hsh.
  pose proof (fun k => visible_ext _ _ (Hsh k)) as Hv. pose proof (fun k => disabled_ext s _ k Hsh) as Hd.
  assert (Hmark : forall k, overlay_slot_valid k = true -> wc_active (overlay (refresh_active_state s) k) = active_flag (refresh_active_state s) k).
  { intros k Hk. unfold active_flag. rewrite Hv, (rf_kind _ _ _ _ R), (rf_active _ _ _ _ R), (rf_overlay _ _ _ _ R), Hk. done. }
  assert (Hnone : top_visible_overlay_slot s < 0 -> forall k, overlay_slot_valid k = true -> overlay_client_visible (overlay s k) = false).
  { intros Hn k Hk. apply Bool.not_true_is_false. intros Hvis.
    assert (k ∈ stack s) as Hks.
    { apply (wk_live _ _ C); [done|by intros ->|]. unfold overlay_client_visible in Hvis. lia. }
    unfold top_visible_overlay_slot, top_down in Hn. fold (stack s) in Hn. rewrite first_slot_find in Hn.
    destruct (List.find _ (rev (stack s))) as [j|] eqn:E; cbn in Hn.
    - apply List.find_some in E as [_ E]. lia.
    - assert (In k (rev (stack s))) as Hi by (rewrite <- in_rev; by apply list_elem_of_In).
      pose proof (List.find_none _ _ E k Hi) as H. cbn in H. unfold overlay_slot_valid in Hk. lia. }
  assert (Htop : top_visible_overlay_slot s >= 0 -> overlay_slot_valid (top_visible_overlay_slot s) = true).
  { unfold top_visible_overlay_slot, top_down. fold (stack s). rewrite first_slot_find. destruct (List.find _ _) as [j|] eqn:E; cbn; [|lia].
    apply List.find_some in E as [_ E]. unfold overlay_slot_valid. lia. }
  split; rewrite ?(rf_kind _ _ _ _ R), ?(rf_active _ _ _ _ R), ?Hv, ?Hd; [| | |exact Hmark];
    unfold focus_choice; cbv zeta.
  - destruct (bool_decide (se_kind s = ClientDesktop) && _); cbn [fst snd]; [done|].
    set (active := if negb _ || negb _ then -1 else _). destruct (negb (bool_decide (se_kind s = ClientApp)) || (active <? 0)) eqn:E; cbn [fst snd].
    + destruct (top_visible_overlay_slot s >=? 0) eqn:Et; [|done]. intros _. rewrite Htop by lia.
      split; [done|]. by apply top_visible_enabled; [|apply Htop; lia].
    + intros _. apply orb_false_elim in E as [E1 E2]. apply negb_false_iff, bool_decide_eq_true in E1.
      unfold active in *. destruct (negb _ || negb _) eqn:Ea; [done|]. apply orb_false_elim in Ea as [Ea1 Ea2].
      apply negb_false_iff in Ea1, Ea2. rewrite Ea1, Ea2. by rewrite (Hff E1).
  - destruct (bool_decide (se_kind s = ClientDesktop) && _); cbn [fst snd]; [done|].
    destruct (negb (bool_decide (se_kind s = ClientApp)) || _); cbn [fst snd]; [|done].
    destruct (top_visible_overlay_slot s >=? 0) eqn:Et; [done|]. intros _. unfold top_visible_overlay_slot in *.
    destruct (first_slot _ _) as [j|] eqn:Ef; [|done]. cbn in *. rewrite first_slot_find in Ef. apply List.find_some in Ef as [_ Ef]. lia.
  - destruct (bool_decide (se_kind s = ClientDesktop) && _); cbn [fst snd]; [done|].
    destruct (negb (bool_decide (se_kind s = ClientApp)) || _); cbn [fst snd]; [|done].
    destruct (top_visible_overlay_slot s >=? 0) eqn:Et; [done|]. intros _ k Hk. rewrite Hv. apply Hnone; [lia|done].
Qed.
