(* ===== verification/WmKeep.v ===== *)
(** * The operations keep the windows' invariant

    Raising, minimizing, opening and destroying windows, one by one. *)

From S2P Require Import Prelude Rect Region Painter Scene Consent Wm WmInput WmOpen WmScene WmRequests WmStack WmFocus.

Lemma valid_not_new k : overlay_slot_valid k = true -> k <> -1.
Proof. by intros H ->. Qed.
#[export] Hint Resolve valid_not_new : calm.

(** A window in place. *)
Lemma core_weaken x s : core s -> core_but x s.
Proof.
  intros C. assert (Hn : -1 ∉ stack s).
  { intros H. pose proof (oo_valid s (wk_order _ _ C)) as Hv. rewrite Forall_forall in Hv. by specialize (Hv _ H). }
  assert (Hin : forall k, k ∈ stack s -> overlay_slot_valid k = true).
  { intros k H. pose proof (oo_valid s (wk_order _ _ C)) as Hv. rewrite Forall_forall in Hv. by apply Hv. }
  pose proof (wk_live _ _ C) as Hl. pose proof (wk_above _ _ C) as Ha. pose proof (wk_family _ _ C) as Hf. destruct C. split; try done.
  - intros k Hk _. apply Hl; auto with calm.
  - intros H. apply Hl; auto with calm.
  - intros k Hk Ho _. apply Ha; [done..|lia].
  - intros k Hk _. apply Hf; auto with calm.
Qed.

Lemma in_stack_valid s k : order_ok s -> k ∈ stack s -> overlay_slot_valid k = true.
Proof. intros [_ _ H] Hk. rewrite Forall_forall in H. by apply H. Qed.

(** ** A slot without a window changes *)

Lemma core_put_free s slot c : core s -> overlay_slot_valid slot = true -> pid_at s slot <= 0 ->
  wc_pid c <= 0 -> wc_owner_slot c < 0 -> wc_role c = WINDOWD_ROLE_NORMAL -> core (put_overlay slot c s).
Proof.
  intros C Hv Hp Hc Ho Hr. pose proof (oo_session s (wk_order _ _ C)) as Hs. pose proof (fun k => overlay_put slot c s k Hs Hv) as E.
  assert (Hne : forall k, pid_at s k > 0 -> slot <> k) by (intros k Hk <-; lia).
  assert (Est : stack (put_overlay slot c s) = stack s) by done.
  split; rewrite ?Est.
  - apply order_ok_put, C.
  - intros k Hk Hkx. rewrite E, (wk_live _ _ C k Hk Hkx). destruct (slot =? k) eqn:Ek; [|done]. replace k with slot by lia. lia.
  - intros H. exfalso. apply (in_stack_valid s) in H; [done|apply C].
  - intros k Hk. rewrite E. destruct (slot =? k); [done|by apply C].
  - intros k Hk. rewrite E. destruct (slot =? k); [done|by apply C].
  - intros k Hk. rewrite E. destruct (slot =? k) eqn:Ek; [lia|]. intros Hkp Hko.
    destruct (wk_owner _ _ C k Hk Hkp Hko) as (H1 & H2 & H3). rewrite !E. specialize (Hne _ H2).
    by replace (slot =? owner_at s k) with false by lia.
  - intros k Hk. rewrite E. destruct (slot =? k); [lia|by apply C].
  - intros k Hk. rewrite E. destruct (slot =? k) eqn:Ek; [lia|by apply C].
  - intros k Hk Hkx. rewrite E. destruct (slot =? k) eqn:Ek; [lia|]. intros Hkp Hko.
    destruct (wk_owner _ _ C k Hk Hkp Hko) as (H1 & H2 & H3). rewrite E. specialize (Hne _ H2).
    replace (slot =? owner_at s k) with false by lia. by apply C.
  - intros k j Hk Hj. rewrite !E. destruct (slot =? k); [lia|]. destruct (slot =? j); [lia|]. by apply C.
Qed.

Lemma focus_put_free s slot c : windows_ok s -> overlay_slot_valid slot = true -> pid_at s slot <= 0 ->
  wc_pid c <= 0 -> wc_active c = false -> focus_ok (put_overlay slot c s).
Proof.
  intros [C [F1 F2 F3 F4]] Hv Hp Hc Ha. pose proof (oo_session s (wk_order _ _ C)) as Hs. pose proof (fun k => overlay_put slot c s k Hs Hv) as E.
  assert (Ev : forall k, overlay_client_visible (overlay (put_overlay slot c s) k) = overlay_client_visible (overlay s k)).
  { intros k. rewrite E. destruct (slot =? k) eqn:Ek; [|done]. replace k with slot by lia. unfold overlay_client_visible.
    by replace (wc_pid c >? 0) with false by lia; replace (pid_at s slot >? 0) with false by lia. }
  assert (Ed : forall k, pid_at s k > 0 -> overlay_client_disabled (put_overlay slot c s) k = overlay_client_disabled s k).
  { intros k Hk. unfold overlay_client_disabled, overlay_client_owned, owned_dialog_open. rewrite E. replace (slot =? k) with false by (assert (slot <> k) by (intros ->; lia); lia).
    f_equal. induction (seqZ 0 WINDOWD_MAX_OVERLAY_CLIENTS) as [|j l IH]; [done|]. cbn. rewrite IH. f_equal. rewrite E.
    destruct (slot =? j) eqn:Ej; [|done]. replace j with slot by lia.
    by replace (wc_pid c >? 0) with false by lia; replace (pid_at s slot >? 0) with false by lia. }
  split; cbn [put_overlay se_kind se_active_slot put_overlays]; fold (put_overlay slot c s).
  - intros Hk. destruct (F1 Hk) as (H1 & H2 & H3). rewrite Ev. split; [done|]. split; [done|]. rewrite Ed; [done|].
    unfold overlay_client_visible in H2. lia.
  - done.
  - intros Hk k Hkv. rewrite Ev. by apply F3.
  - intros k Hk. unfold active_flag. rewrite Ev. cbn [put_overlay se_kind se_active_slot put_overlays]. fold (put_overlay slot c s).
    rewrite E. destruct (slot =? k) eqn:Ek; [|by apply F4]. rewrite Ha. replace k with slot by lia.
    unfold overlay_client_visible. by replace (pid_at s slot >? 0) with false by lia.
Qed.

Lemma ok_put_free s slot c : windows_ok s -> overlay_slot_valid slot = true -> pid_at s slot <= 0 ->
  wc_pid c <= 0 -> wc_owner_slot c < 0 -> wc_role c = WINDOWD_ROLE_NORMAL -> wc_active c = false -> windows_ok (put_overlay slot c s).
Proof. intros H. split; [apply core_put_free; [apply H|done..]|by apply focus_put_free]. Qed.

(** ** A slot gets a window *)

Lemma core_put_live s slot c : core s -> overlay_slot_valid slot = true -> pid_at s slot <= 0 ->
  wc_pid c > 0 -> wc_reserved_pid c <= 0 ->
  (wc_owner_slot c < 0 /\ wc_role c = WINDOWD_ROLE_NORMAL /\
     (forall k, overlay_slot_valid k = true -> pid_at s k = wc_pid c -> owner_at s k >= 0) \/
   overlay_slot_valid (wc_owner_slot c) = true /\ pid_at s (wc_owner_slot c) > 0 /\ owner_at s (wc_owner_slot c) < 0) ->
  core_but slot (put_overlay slot c s).
Proof.
  intros C Hv Hp Hc Hres Ho. pose proof (oo_session s (wk_order _ _ C)) as Hs. pose proof (fun k => overlay_put slot c s k Hs Hv) as E.
  assert (Hne : forall k, pid_at s k > 0 -> slot <> k) by (intros k Hk <-; lia).
  assert (Est : stack (put_overlay slot c s) = stack s) by done.
  assert (Hnin : slot ∉ stack s) by (intros H; apply (wk_live _ _ C) in H; [lia|done|by apply valid_not_new]).
  split; rewrite ?Est.
  - apply order_ok_put, C.
  - intros k Hk Hkx. rewrite E. replace (slot =? k) with false by lia. apply (wk_live _ _ C); auto with calm.
  - done.
  - intros k Hk. rewrite E. destruct (slot =? k); [lia|by apply C].
  - intros k Hk. rewrite E. destruct (slot =? k); [lia|by apply C].
  - intros k Hk. rewrite E. destruct (slot =? k) eqn:Ek.
    + intros _ Hko. destruct Ho as [(Ho & _)|(H1 & H2 & H3)]; [lia|]. rewrite !E.
      replace (slot =? wc_owner_slot c) with false by (specialize (Hne _ H2); lia). done.
    + intros Hkp Hko. destruct (wk_owner _ _ C k Hk Hkp Hko) as (H1 & H2 & H3). rewrite !E. specialize (Hne _ H2).
      by replace (slot =? owner_at s k) with false by lia.
  - intros k Hk. rewrite E. destruct (slot =? k) eqn:Ek; [|by apply C]. intros _ Hko.
    destruct Ho as [(_ & Ho & _)|(H1 & H2 & H3)]; [done|]. unfold overlay_slot_valid in H1. lia.
  - intros k Hk. rewrite E. replace (slot =? k) with false by (assert (slot <> k) by (intros ->; done); lia).
    intros Hko Hkx. apply C; [done..|lia].
  - intros k Hk Hkx. rewrite E. replace (slot =? k) with false by lia. intros Hkp Hko.
    destruct (wk_owner _ _ C k Hk Hkp Hko) as (H1 & H2 & H3). rewrite E. specialize (Hne _ H2).
    replace (slot =? owner_at s k) with false by lia. apply C; auto with calm.
  - intros k j Hk Hj. rewrite !E.
    assert (Hfresh : forall i, overlay_slot_valid i = true -> pid_at s i = wc_pid c -> wc_owner_slot c < 0 -> owner_at s i >= 0).
    { intros i Hi Hpi Hci. destruct Ho as [(_ & _ & Hf)|(H1 & _)]; [by apply Hf|unfold overlay_slot_valid in H1; lia]. }
    destruct (slot =? k) eqn:Ek, (slot =? j) eqn:Ej; [lia| | |by apply C].
    + intros _ Hpj Hck Hoj. specialize (Hfresh j Hj Hpj Hck). lia.
    + intros _ Hpk Hok Hcj. specialize (Hfresh k Hk (eq_sym Hpk) Hcj). lia.
Qed.

Lemma core_append s slot : core_but slot s -> overlay_slot_valid slot = true -> pid_at s slot > 0 -> owner_at s slot < 0 ->
  core_but slot (append_overlay_to_order slot s).
Proof.
  intros C Hv Hp Ho. destruct (append_spec slot s (wk_order _ _ C) Hv) as (Est & [Eov Ed _] & Hok).
  set (t := append_overlay_to_order slot s) in *. assert (E : forall k, overlay t k = overlay s k) by (intros k; unfold overlay; by rewrite Eov).
  assert (Hin : forall k, k ∈ stack t <-> k = slot \/ k ∈ stack s).
  { intros k. rewrite Est. unfold on_top. rewrite elem_of_app, elem_filter_other, list_elem_of_singleton.
    split; [intros [[? _]|?]; auto|intros [?|?]; [auto|]]. destruct (decide (k = slot)); auto. }
  split; repeat setoid_rewrite E; [done| |intros _; done|apply C|apply C|apply C|apply C| |apply C|apply C].
  - intros k Hk Hkx. rewrite Hin, <- (wk_live _ _ C k Hk Hkx). split; [intros [->|?]; done|auto].
  - intros k Hk Hko Hkx. apply Hin in Hk as [->|Hk]; [lia|]. rewrite Est. unfold on_top. apply below_app, below_filter.
    + by apply C.
    + unfold other. lia.
    + unfold other. assert (k <> slot) by (intros ->; lia). lia.
Qed.

(** ** Raising *)

Lemma core_has_root x s slot : core_but x s -> overlay_slot_valid slot = true -> pid_at s slot > 0 -> has_root s slot.
Proof.
  intros C Hv Hp. unfold has_root, overlay_root_slot. rewrite Hv. cbn [negb orb].
  destruct (owner_at s slot >=? 0) eqn:Eo.
  - destruct (wk_owner _ _ C slot Hv Hp) as (H1 & H2 & H3); [lia|]. rewrite H1. cbn [negb].
    split; [done|]. split; [done|]. split; [done|]. by apply (wk_root _ _ C).
  - replace (overlay_slot_valid (owner_at s slot)) with false by (unfold overlay_slot_valid; lia). cbn [negb].
    split; [done|]. split; [done|]. split; [lia|]. apply (wk_root _ _ C); [done..|lia].
Qed.

(** A window's program, all of it. *)
Definition program (s : windowd_session) (slot : Z) : list Z :=
  overlay_root_slot s slot :: children s (overlay_root_slot s slot).

Lemma in_program s slot k : has_root s slot -> k ∈ program s slot -> overlay_slot_valid k = true /\ pid_at s k > 0.
Proof.
  intros (Hv & Hp & _) H. apply elem_of_cons in H as [->|[H1 H2]%elem_children]; [done|]. split; [done|]. unfold child in H2. lia.
Qed.

Lemma above_root_program s slot k : overlay_slot_valid slot = true -> pid_at s slot > 0 ->
  k ∈ above_root s slot <-> k ∈ children s (overlay_root_slot s slot).
Proof.
  intros Hv Hp. unfold above_root. destruct (slot =? _) eqn:E; [done|].
  rewrite elem_of_app, elem_filter_other, list_elem_of_singleton. split.
  - intros [[? _]| ->]; [done|]. apply child_root; [done..|lia].
  - intros H. destruct (decide (k = slot)); auto.
Qed.

Lemma raised_members s s' slot k : raised s s' slot -> overlay_slot_valid slot = true -> pid_at s slot > 0 ->
  k ∈ stack s' <-> k ∈ program s slot \/ k ∈ stack s.
Proof.
  intros R Hv Hp. rewrite (ra_stack _ _ _ R). rewrite elem_of_app, elem_of_cons, above_root_program by done.
  rewrite list_elem_of_In, List.filter_In, <- list_elem_of_In. unfold program. rewrite elem_of_cons. unfold outside.
  destruct (decide (k ∈ program s slot)) as [H|H]; unfold program in H; rewrite elem_of_cons in H; [tauto|].
  rewrite bool_decide_true by (rewrite elem_of_cons; tauto). tauto.
Qed.

Lemma program_owner x s slot k : core_but x s -> has_root s slot -> overlay_slot_valid k = true -> pid_at s k > 0 -> owner_at s k >= 0 ->
  k ∉ program s slot -> owner_at s k ∉ program s slot.
Proof.
  intros C (Hrv & _ & Hro & _) Hk Hp Ho Hn H. destruct (wk_owner _ _ C k Hk Hp Ho) as (H1 & H2 & H3).
  apply elem_of_cons in H as [H|[_ H]%elem_children].
  - apply Hn. right. apply elem_children. split; [done|]. unfold child. lia.
  - unfold child in H. unfold overlay_slot_valid in Hrv. lia.
Qed.

Lemma core_raised x s s' slot : core_but x s -> raised s s' slot -> overlay_slot_valid slot = true -> pid_at s slot > 0 ->
  x = -1 \/ x ∈ program s slot -> core s'.
Proof.
  intros C R Hv Hp Hx. pose proof (core_has_root _ _ _ C Hv Hp) as Hr. pose proof (fun k => raised_members _ _ _ k R Hv Hp) as Hin.
  pose proof (ra_overlay _ _ _ R) as Hov. fold (program s slot) in Hov.
  assert (Hpa : forall k, overlay_slot_valid k = true -> pid_at s' k = pid_at s k /\ owner_at s' k = owner_at s k /\
    wc_role (overlay s' k) = wc_role (overlay s k) /\ wc_reserved_pid (overlay s' k) = wc_reserved_pid (overlay s k) /\
    wc_minimized (overlay s' k) = if bool_decide (k ∈ program s slot) then false else wc_minimized (overlay s k)).
  { intros k Hk. rewrite Hov by done. by destruct (bool_decide _). }
  assert (Hxk : forall k, overlay_slot_valid k = true -> k ∉ program s slot -> k <> x).
  { intros k Hk Hn ->. destruct Hx as [->|Hx]; [by apply valid_not_new in Hk|done]. }
  assert (Hch : forall k, k ∈ program s slot -> owner_at s k >= 0 -> k ∈ children s (overlay_root_slot s slot) /\ owner_at s k = overlay_root_slot s slot).
  { intros k H Ho. apply elem_of_cons in H as [->|H]; [destruct Hr as (_ & _ & Hro & _); lia|]. split; [done|].
    apply elem_children in H as [_ H]. unfold child in H. lia. }
  assert (Hsv : forall k, k ∈ stack s' -> overlay_slot_valid k = true) by (intros k; apply in_stack_valid, R).
  split.
  - apply R.
  - intros k Hk _. rewrite Hin. destruct (Hpa k Hk) as (-> & _). destruct (decide (k ∈ program s slot)) as [H|H].
    + destruct (in_program _ _ _ Hr H). tauto.
    + rewrite <- (wk_live _ _ C k Hk) by auto. tauto.
  - intros H%Hsv. done.
  - intros k Hk. destruct (Hpa k Hk) as (-> & -> & -> & _). by apply C.
  - intros k Hk. destruct (Hpa k Hk) as (-> & _ & _ & -> & _). by apply C.
  - intros k Hk. destruct (Hpa k Hk) as (-> & -> & _). intros H1 H2. destruct (wk_owner _ _ C k Hk H1 H2) as (K1 & K2 & K3).
    destruct (Hpa _ K1) as (-> & -> & _). done.
  - intros k Hk. destruct (Hpa k Hk) as (-> & -> & -> & _). by apply C.
  - intros k Hks. pose proof (Hsv k Hks) as Hk. destruct (Hpa k Hk) as (_ & -> & _). intros Ho _. rewrite (ra_stack _ _ _ R).
    fold (program s slot). destruct (decide (k ∈ program s slot)) as [H|H].
    + destruct (Hch k H Ho) as [H1 ->]. replace (_ ++ _ :: above_root s slot)
        with ((List.filter (outside (program s slot)) (stack s) ++ [overlay_root_slot s slot]) ++ above_root s slot) by (by rewrite <- app_assoc).
      apply below_split; [apply elem_of_app; right; by left|]. by apply above_root_program.
    + apply Hin in Hks as [?|Hks]; [done|]. assert (pid_at s k > 0) as Hkp.
      { apply (wk_live _ _ C); auto. }
      pose proof (program_owner _ _ _ _ C Hr Hk Hkp Ho H) as Ho'. destruct (wk_owner _ _ C k Hk Hkp Ho) as (K1 & _).
      apply below_app, below_filter; [apply C; auto|unfold outside; by apply bool_decide_eq_true..].
  - intros k Hk _. destruct (Hpa k Hk) as (-> & -> & _ & _ & ->). intros Hkp Ho. destruct (wk_owner _ _ C k Hk Hkp Ho) as (K1 & _).
    destruct (Hpa _ K1) as (_ & _ & _ & _ & ->). destruct (decide (k ∈ program s slot)) as [H|H].
    + destruct (Hch k H Ho) as [_ ->]. rewrite !bool_decide_true; [done|by left|done].
    + pose proof (program_owner _ _ _ _ C Hr Hk Hkp Ho H) as Ho'. rewrite !bool_decide_false by done. apply C; auto.
  - intros k j Hk Hj. destruct (Hpa k Hk) as (-> & -> & _). destruct (Hpa j Hj) as (-> & -> & _). by apply C.
Qed.

(** A window's dialog. *)
Definition dialog_of (s : windowd_session) (o j : Z) : bool :=
  (pid_at s j >? 0) && (owner_at s j =? o) && negb (wc_role (overlay s j) =? WINDOWD_ROLE_POPUP).

Lemma owned_dialog_ext s s' o : (forall j, overlay_slot_valid j = true -> dialog_of s' o j = dialog_of s o j) ->
  owned_dialog_open s' o = owned_dialog_open s o.
Proof.
  intros H. change (existsb (dialog_of s' o) all_slots = existsb (dialog_of s o) all_slots).
  assert (Hv : Forall (fun j => overlay_slot_valid j = true) all_slots) by (apply Forall_forall; intros j; apply all_slots_valid).
  induction Hv as [|j l Hj _ IH]; [done|]. cbn [existsb]. by rewrite IH, H.
Qed.

Lemma raise_not_disabled s slot : has_root s slot -> overlay_slot_valid slot = true -> pid_at s slot > 0 ->
  overlay_client_disabled s (raise_focus s slot) = false.
Proof.
  intros Hr Hv Hp. destruct (raise_focus_in s slot Hv Hp Hr) as (Hin & Hvf & Hpf).
  unfold overlay_client_disabled, overlay_client_owned. rewrite Hvf. cbn [andb].
  destruct (owner_at s (raise_focus s slot) >=? 0) eqn:Eo; [done|]. cbn [negb andb].
  apply Bool.not_true_is_false. unfold owned_dialog_open. intros (j & Hj & Hjd)%existsb_exists.
  apply list_elem_of_In in Hj. change (j ∈ all_slots) in Hj. apply all_slots_valid in Hj.
  assert (Ef : raise_focus s slot = overlay_root_slot s slot).
  { apply elem_of_cons in Hin as [H|[_ H]%elem_children]; [done|]. unfold child in H. destruct Hr as (Hrv & _).
    unfold overlay_slot_valid in Hrv. lia. }
  rewrite Ef in Hjd. assert (j ∈ List.filter (dialog s) (above_root s slot)) as H.
  { apply list_elem_of_In, List.filter_In. split; [|unfold dialog; lia]. apply list_elem_of_In, above_root_program; [done..|].
    apply elem_children. split; [done|]. unfold child. lia. }
  revert Ef. unfold raise_focus, focus_after. destruct (last _) as [k|] eqn:El.
  - cbn. intros ->. apply last_Some_elem_of in El. apply list_elem_of_In, List.filter_In in El as [El _].
    apply list_elem_of_In, above_root_program in El; [|done..]. by apply root_not_child in El.
  - apply last_None in El. rewrite El in H. by apply not_elem_of_nil in H.
Qed.

Lemma focus_raised s s' slot : has_root s slot -> raised s s' slot -> overlay_slot_valid slot = true -> pid_at s slot > 0 -> focus_ok s'.
Proof.
  intros Hr R Hv Hp. destruct (raise_focus_in s slot Hv Hp Hr) as (Hin & Hvf & Hpf). pose proof (ra_overlay _ _ _ R) as Hov.
  assert (Hvis : overlay_client_visible (overlay s' (raise_focus s slot)) = true).
  { rewrite Hov by done. rewrite bool_decide_true by done. unfold overlay_client_visible. cbn. lia. }
  split; rewrite ?(ra_kind _ _ _ R), ?(ra_active _ _ _ R); [|done..|].
  - intros _. split; [done|]. split; [done|]. rewrite <- (raise_not_disabled s slot Hr Hv Hp).
    unfold overlay_client_disabled. rewrite Hvf. f_equal.
    + f_equal. f_equal. unfold overlay_client_owned. rewrite Hov by done. by case_if.
    + apply owned_dialog_ext. intros j Hj. unfold dialog_of. rewrite Hov by done. by case_if.
  - intros k Hk. unfold active_flag. rewrite (ra_kind _ _ _ R), (ra_active _ _ _ R). rewrite bool_decide_true by done. rewrite andb_true_r.
    destruct (k =? raise_focus s slot) eqn:E.
    + replace k with (raise_focus s slot) by lia. rewrite Hvis, Hov by done. cbn. lia.
    + rewrite andb_false_r, Hov by done. exact E.
Qed.

Lemma raise_new x s slot : core_but x s -> overlay_slot_valid slot = true -> pid_at s slot > 0 -> x = -1 \/ x ∈ program s slot ->
  windows_ok (raise_overlay slot s).
Proof.
  intros C Hv Hp Hx. pose proof (core_has_root _ _ _ C Hv Hp) as Hr. pose proof (raise_spec slot s (wk_order _ _ C) Hv Hp Hr) as R.
  split; [by apply (core_raised x s _ slot)|by apply (focus_raised s _ slot)].
Qed.

Lemma ok_free s : windows_ok s -> focus_free s.
Proof. intros [_ F] H. by apply F. Qed.

Lemma raise_ok slot s : windows_ok s -> windows_ok (raise_overlay slot s).
Proof.
  intros H. destruct (negb (overlay_slot_valid slot) || (pid_at s slot <=? 0)) eqn:E.
  - unfold raise_overlay. rewrite E. apply refresh_ok; [apply H|by apply ok_free].
  - apply (raise_new (-1)); [apply H|..|by left]; [by destruct (overlay_slot_valid slot)|lia].
Qed.

(** ** Minimizing *)

Lemma put_overlay_id slot s : put_overlay slot (overlay s slot) s = s.
Proof.
  unfold put_overlay, overlay, set_at, at_. destruct (slot <? 0) eqn:E; [by destruct s|].
  rewrite (list_insert_id'); [by destruct s|]. intros H. destruct (lookup_lt_is_Some_2 _ _ H) as [c Hc].
  by rewrite Hc, (nth_lookup_Some _ _ _ _ Hc).
Qed.

(** A loop over the slots that changes each window by itself. *)
Lemma each_slot (g : Z -> windowd_client -> windowd_client) s : session_ok s ->
  exists ov, for_z 0 WINDOWD_MAX_OVERLAY_CLIENTS (fun k s => put_overlay k (g k (overlay s k)) s) s = put_overlays ov s /\
    zlen ov = WINDOWD_MAX_OVERLAY_CLIENTS /\
    forall k, at_ reset_client ov k = if overlay_slot_valid k then g k (overlay s k) else overlay s k.
Proof.
  intros Hs. apply (for_z_ind (fun i t => exists ov, t = put_overlays ov s /\ zlen ov = WINDOWD_MAX_OVERLAY_CLIENTS /\
    forall k, at_ reset_client ov k = if (k >=? 0) && (k <? i) then g k (overlay s k) else overlay s k)); [done| |].
  - exists (se_overlays s). split; [by destruct s|]. split; [apply Hs|]. intros k. by replace ((k >=? 0) && (k <? 0)) with false by lia.
  - intros i t Hi (ov & -> & Hl & Hat). exists (set_at ov i (g i (overlay (put_overlays ov s) i))).
    split; [done|]. split; [by rewrite zlen_set_at|]. intros k. rewrite at_set_at by lia. destruct (i =? k) eqn:E.
    + replace k with i by lia. replace ((i >=? 0) && (i <? i + 1)) with true by lia. unfold overlay. cbn [se_overlays put_overlays].
      rewrite Hat. by replace ((i >=? 0) && (i <? i)) with false by lia.
    + rewrite Hat. by replace ((k >=? 0) && (k <? i + 1)) with ((k >=? 0) && (k <? i)) by lia.
Qed.

Lemma minimize_owned_is root s : session_ok s ->
  exists ov, minimize_owned root s = put_overlays ov s /\ zlen ov = WINDOWD_MAX_OVERLAY_CLIENTS /\
    forall k, at_ reset_client ov k = if overlay_slot_valid k && child s root k then put_minimized true (overlay s k) else overlay s k.
Proof.
  intros Hs. destruct (each_slot (fun _ c => if (wc_pid c >? 0) && (wc_owner_slot c =? root) then put_minimized true c else c) s Hs)
    as (ov & E & Hl & Hat). exists ov. split; [|split; [done|]].
  - rewrite <- E. unfold minimize_owned. apply for_z_ext. intros i t _. case_if; [done|]. by rewrite put_overlay_id.
  - intros k. rewrite Hat. unfold child. by destruct (overlay_slot_valid k).
Qed.

(** A program's windows minimized or shown together. *)
Lemma core_together s s' slot b : core s -> has_root s slot ->
  order_ok s' -> stack s' = stack s ->
  (forall k, overlay_slot_valid k = true -> pid_at s' k = pid_at s k /\ owner_at s' k = owner_at s k /\
    wc_role (overlay s' k) = wc_role (overlay s k) /\ wc_reserved_pid (overlay s' k) = wc_reserved_pid (overlay s k) /\
    wc_minimized (overlay s' k) = if bool_decide (k ∈ program s slot) then b else wc_minimized (overlay s k)) -> core s'.
Proof.
  intros C Hr Ho Est Hpa. split; rewrite ?Est; [done|..].
  - intros k Hk Hkx. destruct (Hpa k Hk) as (-> & _). by apply C.
  - intros H. by apply (in_stack_valid s _ (wk_order _ _ C)) in H.
  - intros k Hk. destruct (Hpa k Hk) as (-> & -> & -> & _). by apply C.
  - intros k Hk. destruct (Hpa k Hk) as (-> & _ & _ & -> & _). by apply C.
  - intros k Hk. destruct (Hpa k Hk) as (-> & -> & _). intros H1 H2. destruct (wk_owner _ _ C k Hk H1 H2) as (K1 & K2 & K3).
    destruct (Hpa _ K1) as (-> & -> & _). done.
  - intros k Hk. destruct (Hpa k Hk) as (-> & -> & -> & _). by apply C.
  - intros k Hks. pose proof (in_stack_valid _ _ (wk_order _ _ C) Hks) as Hk. destruct (Hpa k Hk) as (_ & -> & _). by apply C.
  - intros k Hk Hkx. destruct (Hpa k Hk) as (-> & -> & _ & _ & ->). intros Hkp Hko. destruct (wk_owner _ _ C k Hk Hkp Hko) as (K1 & _).
    destruct (Hpa _ K1) as (_ & _ & _ & _ & ->). destruct (decide (k ∈ program s slot)) as [H|H].
    + pose proof H as H'. apply elem_of_cons in H' as [->|[_ H']%elem_children]; [destruct Hr as (_ & _ & ? & _); lia|].
      unfold child in H'. rewrite (bool_decide_true (k ∈ _)) by done. rewrite bool_decide_true; [done|]. apply elem_of_cons. left. lia.
    + pose proof (program_owner _ _ _ _ C Hr Hk Hkp Hko H) as Ho'. rewrite !bool_decide_false by done. by apply C.
  - intros k j Hk Hj. destruct (Hpa k Hk) as (-> & -> & _). destruct (Hpa j Hj) as (-> & -> & _). by apply C.
Qed.

(** The root of a window is a program's own window. *)
Lemma root_is_root s slot : core s -> overlay_slot_valid (overlay_root_slot s slot) = true -> pid_at s (overlay_root_slot s slot) > 0 ->
  owner_at s (overlay_root_slot s slot) < 0.
Proof.
  intros C. unfold overlay_root_slot. destruct (overlay_slot_valid slot) eqn:Hsv; cbn [negb orb]; [|congruence].
  destruct (overlay_slot_valid (owner_at s slot)) eqn:Hov; cbn [negb]; intros Hv Hp.
  - assert (owner_at s slot >= 0) by (unfold overlay_slot_valid in Hov; lia). destruct (pid_at s slot >? 0) eqn:Hps.
    + apply (wk_owner _ _ C slot); [done|lia..].
    + destruct (wk_free _ _ C slot); [done|lia..].
  - destruct (owner_at s slot <? 0) eqn:Eo; [lia|]. destruct (wk_owner _ _ C slot) as (K & _); [done|lia..|]. congruence.
Qed.

Lemma root_of_root s root : owner_at s root < 0 -> overlay_root_slot s root = root.
Proof.
  intros Ho. unfold overlay_root_slot. replace (overlay_slot_valid (owner_at s root)) with false by (unfold overlay_slot_valid; lia).
  by rewrite orb_true_r.
Qed.

Lemma minimized_overlay t root ov k : session_ok t -> overlay_slot_valid root = true -> overlay_root_slot t root = root ->
  overlay_slot_valid k = true ->
  (forall k, at_ reset_client ov k = if overlay_slot_valid k && child (put_overlay root (put_minimized true (overlay t root)) t) root k
     then put_minimized true (overlay (put_overlay root (put_minimized true (overlay t root)) t) k)
     else overlay (put_overlay root (put_minimized true (overlay t root)) t) k) ->
  at_ reset_client ov k = if bool_decide (k ∈ program t root) then put_minimized true (overlay t k) else overlay t k.
Proof.
  intros Hs Hv Hrr Hk Hat. rewrite Hat, Hk. cbn [andb]. unfold child. rewrite overlay_put by done. unfold program. rewrite Hrr.
  destruct (root =? k) eqn:Ek.
  - rewrite bool_decide_true by (apply elem_of_cons; left; lia). replace k with root by lia. by case_if.
  - rewrite (bool_decide_ext _ (child t root k = true)).
    + unfold child. by destruct ((wc_pid _ >? 0) && _).
    + rewrite elem_of_cons, elem_children. assert (k <> root) by lia. tauto.
Qed.

Lemma minimize_root_ok t root : windows_ok t -> overlay_slot_valid root = true -> pid_at t root > 0 -> owner_at t root < 0 ->
  windows_ok (refresh_active_state (minimize_owned root (put_overlay root (put_minimized true (overlay t root)) t))).
Proof.
  intros [C F] Hv Hrp Hro. pose proof (oo_session t (wk_order _ _ C)) as Hs.
  destruct (minimize_owned_is root _ (session_ok_put root (put_minimized true (overlay t root)) t Hs)) as (ov & -> & Hl & Hat).
  pose proof (root_of_root t root Hro) as Hrr. pose proof (core_has_root _ _ _ C Hv Hrp) as Hr.
  assert (Hu : exists u, put_overlays ov (put_overlay root (put_minimized true (overlay t root)) t) = u /\ stack u = stack t /\ order_ok u /\
    se_kind u = se_kind t /\ se_active_slot u = se_active_slot t /\
    forall k, overlay_slot_valid k = true -> overlay u k = if bool_decide (k ∈ program t root) then put_minimized true (overlay t k) else overlay t k).
  { eexists. split; [reflexivity|]. split; [done|]. split; [|split; [done|]; split; [done|]; intros k Hk; by apply minimized_overlay].
    destruct (wk_order _ _ C) as [[? ? ? ?] ? ?]. split; [split|..]; done. }
  destruct Hu as (u & -> & Est & Hou & Eki & Ea & Hov). apply refresh_ok.
  - apply (core_together t u root true C Hr Hou Est). intros k Hk. rewrite Hov by done. by case_if.
  - intros Hk. rewrite Eki in Hk. rewrite Ea.
    destruct (fo_app _ F Hk) as (A1 & A2 & A3). rewrite <- A3. unfold overlay_client_disabled. rewrite A1. f_equal.
    + unfold overlay_client_owned. rewrite Hov by done. by case_if.
    + apply owned_dialog_ext. intros j Hj. unfold dialog_of. rewrite Hov by done. by case_if.
Qed.

Lemma minimize_ok slot s : windows_ok s -> windows_ok (minimize_overlay_client slot s).
Proof.
  intros H. unfold minimize_overlay_client. set (root := overlay_root_slot s slot).
  destruct (negb (overlay_slot_valid root) || (pid_at s root <=? 0) || wc_minimized (overlay s root)) eqn:Eg; [done|].
  apply orb_false_elim in Eg as [Eg _]. apply orb_false_elim in Eg as [Eg1 Eg2]. apply negb_false_iff in Eg1.
  assert (Hrp : pid_at s root > 0) by lia. pose proof (root_is_root s slot (proj1 H) Eg1 Hrp) as Hro. fold root in Hro.
  assert (Ht : same s (dirty_overlay_family root s)) by calm. cbv zeta.
  destruct (shape_parts _ _ root (sa_windows _ _ Ht)) as (P1 & _ & P2 & _). rewrite <- P1 in Hrp. rewrite <- P2 in Hro.
  apply minimize_root_ok; [by apply (same_ok s)|done..].
Qed.

(** ** Destroying *)

(** The windows of some slots are gone, from their slots and from the order. *)
Record gone (s s' : windowd_session) (ks : list Z) : Prop := {
  gn_order : order_ok s';
  gn_stack : stack s' = List.filter (outside ks) (stack s);
  gn_overlay : forall k, overlay s' k = if bool_decide (k ∈ ks) then reset_client else overlay s k;
  gn_focus : se_kind s' = se_kind s /\ se_active_slot s' = se_active_slot s;
  gn_desktop : se_desktop s' = se_desktop s }.

Lemma gone_nothing s : order_ok s -> gone s s [].
Proof. intros H. split; try done. by rewrite filter_outside_nil. Qed.

Lemma gone_trans s t u ks ks' : gone s t ks -> gone t u ks' -> gone s u (ks ++ ks').
Proof.
  intros [_ E1 E2 [E3 E4] E5] [H0 H1 H2 [H3 H4] H5]. split; [done|..].
  - rewrite H1, E1. apply filter_filter_ext. intros k. unfold outside. rewrite <- bool_decide_and. apply bool_decide_ext.
    rewrite elem_of_app. tauto.
  - intros k. rewrite H2, E2. destruct (decide (k ∈ ks')), (decide (k ∈ ks));
      repeat first [rewrite (bool_decide_true (k ∈ ks')) by done | rewrite (bool_decide_false (k ∈ ks')) by done];
      repeat first [rewrite (bool_decide_true (k ∈ ks)) by done | rewrite (bool_decide_false (k ∈ ks)) by done];
      first [rewrite bool_decide_true by (rewrite elem_of_app; tauto) | rewrite bool_decide_false by (rewrite elem_of_app; tauto)]; done.
  - split; congruence.
  - congruence.
Qed.

Lemma gone_one s k : order_ok s -> overlay_slot_valid k = true -> gone s (remove_overlay_from_order k (destroy_client_instance k s)) [k].
Proof.
  intros Ho Hv. unfold destroy_client_instance. pose proof (order_ok_put k reset_client s Ho) as Ho'.
  destruct (remove_spec k _ Ho' Hv) as (Est & [Eov Ed Ef] & Hok). split; [done|..|done|done].
  - rewrite Est. change (stack (put_overlay k reset_client s)) with (stack s). apply List.filter_ext. intros j. unfold other, outside.
    destruct (j =? k) eqn:E; cbn.
    + symmetry. apply bool_decide_eq_false. rewrite list_elem_of_singleton. lia.
    + symmetry. apply bool_decide_eq_true. rewrite list_elem_of_singleton. lia.
  - intros j. unfold overlay at 1. rewrite Eov. fold (overlay (put_overlay k reset_client s) j). rewrite overlay_put by (done || apply Ho).
    destruct (k =? j) eqn:E.
    + by rewrite bool_decide_true by (apply list_elem_of_singleton; lia).
    + by rewrite bool_decide_false by (rewrite list_elem_of_singleton; lia).
Qed.

Definition destroy_child (slot child : Z) (s : windowd_session) : windowd_session :=
  let c := overlay s child in
  if negb (child =? slot) && (wc_pid c >? 0) && (wc_owner_slot c =? slot)
  then remove_overlay_from_order child (destroy_client_instance child s) else s.

Lemma destroy_children_spec slot ks : forall s, order_ok s -> NoDup ks -> Forall (fun k => overlay_slot_valid k = true) ks ->
  owner_at s slot < 0 -> 0 <= slot ->
  gone s (fold_left (fun s k => destroy_child slot k s) ks s) (List.filter (child s slot) ks).
Proof.
  induction ks as [|k ks IH]; intros s Ho Hn Hv Hso Hsv; [by apply gone_nothing|]. apply NoDup_cons in Hn as [Hk Hn].
  inversion Hv as [|? ? Hvk Hvs]; subst. cbn [fold_left List.filter].
  assert (E : destroy_child slot k s = if child s slot k then remove_overlay_from_order k (destroy_client_instance k s) else s).
  { unfold destroy_child, child. destruct (k =? slot) eqn:Ek; cbn [negb andb]; [|done].
    replace k with slot by lia. by replace (owner_at s slot =? slot) with false by lia; rewrite andb_false_r. }
  rewrite E. destruct (child s slot k) eqn:Ec; [|by apply IH].
  pose proof (gone_one s k Ho Hvk) as H1. set (t := remove_overlay_from_order k _) in *.
  assert (Ech : List.filter (child t slot) ks = List.filter (child s slot) ks).
  { apply List.filter_ext_in. intros j Hj. unfold child. rewrite (gn_overlay _ _ _ H1), bool_decide_false; [done|].
    rewrite list_elem_of_singleton. intros ->. apply Hk. by apply list_elem_of_In. }
  change (k :: List.filter (child s slot) ks) with ([k] ++ List.filter (child s slot) ks). eapply gone_trans; [exact H1|].
  rewrite <- Ech. apply IH; [apply H1|done..| |done]. rewrite (gn_overlay _ _ _ H1). by case_if.
Qed.

Lemma destroy_owned_spec slot s : order_ok s -> owner_at s slot < 0 -> 0 <= slot ->
  gone s (destroy_owned slot s) (children s slot).
Proof.
  intros Ho Hso Hs. unfold destroy_owned. rewrite for_z_seqZ. apply (destroy_children_spec slot all_slots s); [done|apply all_slots_nodup| |done..].
  apply Forall_forall. intros k. by rewrite all_slots_valid.
Qed.

(** The windows that go with a slot. *)
Definition closes (s : windowd_session) (ks : list Z) : Prop :=
  forall k, overlay_slot_valid k = true -> pid_at s k > 0 -> owner_at s k >= 0 -> owner_at s k ∈ ks -> k ∈ ks.

Lemma core_gone s s' ks : core s -> gone s s' ks -> closes s ks -> core s'.
Proof.
  intros C G Hcl. pose proof (gn_overlay _ _ _ G) as E.
  assert (Hin : forall k, k ∈ stack s' <-> k ∈ stack s /\ k ∉ ks).
  { intros k. rewrite (gn_stack _ _ _ G), list_elem_of_In, List.filter_In, <- list_elem_of_In. unfold outside. by rewrite bool_decide_eq_true. }
  assert (Hout : forall k, k ∉ ks -> overlay s' k = overlay s k) by (intros k Hk; by rewrite E, bool_decide_false).
  assert (Hpo : forall k, pid_at s' k > 0 -> k ∉ ks) by (intros k Hp Hk; by rewrite E, bool_decide_true in Hp).
  assert (Hoo : forall k, overlay_slot_valid k = true -> pid_at s k > 0 -> owner_at s k >= 0 -> k ∉ ks -> owner_at s k ∉ ks).
  { intros k Hk Hp Ho Hn Hc. by apply Hn, Hcl. }
  split.
  - apply G.
  - intros k Hk Hkx. rewrite Hin, (wk_live _ _ C k Hk Hkx), E. destruct (decide (k ∈ ks)) as [H|H].
    + rewrite bool_decide_true by done. cbn. split; [tauto|lia].
    + rewrite bool_decide_false by done. tauto.
  - intros H. apply Hin in H as [H _]. by apply (in_stack_valid s _ (wk_order _ _ C)) in H.
  - intros k Hk. rewrite E. case_if; [done|by apply C].
  - intros k Hk. rewrite E. case_if; [done|by apply C].
  - intros k Hk Hp. pose proof (Hpo k Hp) as Hn. rewrite (Hout k Hn) in Hp. rewrite (Hout k Hn). intros Ho.
    rewrite (Hout (owner_at s k)) by auto. by apply C.
  - intros k Hk Hp. pose proof (Hpo k Hp) as Hn. rewrite (Hout k Hn) in Hp. rewrite (Hout k Hn). by apply C.
  - intros k [Hks Hn]%Hin. rewrite (Hout k Hn). intros Ho Hkx. rewrite (gn_stack _ _ _ G).
    pose proof (in_stack_valid s _ (wk_order _ _ C) Hks) as Hk. assert (pid_at s k > 0) by (apply (wk_live _ _ C); auto with calm).
    apply below_filter; [by apply C|unfold outside; apply bool_decide_eq_true; auto..].
  - intros k Hk Hkx Hp. pose proof (Hpo k Hp) as Hn. rewrite (Hout k Hn) in Hp. rewrite (Hout k Hn). intros Ho.
    rewrite (Hout (owner_at s k)) by auto. by apply C.
  - intros k j Hk Hj. rewrite !E. case_if; [done|]. case_if; [cbn; lia|]. by apply C.
Qed.

Lemma focus_gone s s' ks : windows_ok s -> gone s s' ks -> closes s ks -> focus_free s'.
Proof.
  intros [C F] G Hcl Hk. pose proof (gn_overlay _ _ _ G) as E. destruct (gn_focus _ _ _ G) as [Ek Ea]. rewrite Ek in Hk. rewrite Ea.
  destruct (fo_app _ F Hk) as (A1 & A2 & A3). set (a := se_active_slot s) in *. unfold overlay_client_disabled in *. rewrite A1 in *. cbn [andb] in *.
  apply Bool.not_true_is_false. intros [H1 (j & Hj & Hjd)%existsb_exists]%andb_prop.
  apply list_elem_of_In in Hj. change (j ∈ all_slots) in Hj. pose proof Hj as Hjv. apply all_slots_valid in Hjv.
  change (dialog_of s' a j = true) in Hjd. unfold dialog_of in Hjd. rewrite E in Hjd. destruct (decide (j ∈ ks)) as [Hjk|Hjk].
  { by rewrite bool_decide_true in Hjd. }
  rewrite bool_decide_false in Hjd by done. destruct (decide (a ∈ ks)) as [Hak|Hak].
  { apply Hjk, Hcl; [done|lia|..]; [unfold overlay_slot_valid in A1; lia|]. by replace (owner_at s j) with a by lia. }
  unfold overlay_client_owned in H1, A3. rewrite E, bool_decide_false in H1 by done. rewrite H1 in A3. cbn [andb] in A3.
  revert A3. apply Bool.not_false_iff_true, existsb_exists. exists j. split; [by apply list_elem_of_In|exact Hjd].
Qed.

Lemma destroy_ok slot answer s : windows_ok s -> windows_ok (destroy_overlay_client slot answer s).
Proof.
  intros H. unfold destroy_overlay_client. destruct (overlay_slot_valid slot) eqn:Hv; cbn [negb]; [|done].
  pose proof (proj1 H) as C. set (kids := if (pid_at s slot >? 0) && (owner_at s slot <? 0) then children s slot else []).
  assert (G1 : gone s (if (pid_at s slot >? 0) && (owner_at s slot <? 0) then destroy_owned slot s else s) kids).
  { unfold kids. destruct (_ && _) eqn:E; [|by apply gone_nothing, C]. apply destroy_owned_spec; [apply C|lia|].
    unfold overlay_slot_valid in Hv. lia. }
  set (t := if _ && _ then _ else s) in *. clearbody t. cbv zeta.
  set (u := if se_fullscreen_slot t =? slot then _ else t). assert (Hu : same t u).
  { unfold u. destruct (_ =? slot); [|reflexivity]. calm. }
  assert (G2 : gone s (remove_overlay_from_order slot (destroy_client_instance slot u)) (kids ++ [slot])).
  { assert (Gu : gone s u kids).
    { destruct G1 as [G1 G2 G3 [G4 G5] G6]. assert (Eo : se_overlays u = se_overlays t /\ se_desktop u = se_desktop t).
      { unfold u. destruct (_ =? slot); [|done]. unfold apply_display_mode. repeat case_if; by destruct answer. }
      destruct Eo as [Eo Ed]. destruct (sa_focus _ _ Hu) as [U1 U2]. split; [by apply (same_order_ok t), G1; apply Hu|..].
      - by rewrite (same_stack t u (sa_windows _ _ Hu)).
      - intros k. unfold overlay at 1. rewrite Eo. apply G3.
      - split; congruence.
      - congruence. }
    apply (gone_trans s u); [done|]. apply gone_one; [apply Gu|done]. }
  assert (Hcl : closes s (kids ++ [slot])).
  { intros k Hk Hp Ho. rewrite !elem_of_app, list_elem_of_singleton. destruct (wk_owner _ _ C k Hk Hp Ho) as (K1 & K2 & K3).
    intros [Hc|Hc]; left; unfold kids in *.
    - destruct (_ && _); [|by apply not_elem_of_nil in Hc]. apply elem_children in Hc as [_ Hc]. unfold child, overlay_slot_valid in *. lia.
    - rewrite Hc in K2, K3. replace (_ && _) with true by lia. apply elem_children. split; [done|]. unfold child. lia. }
  apply refresh_ok; [by apply (core_gone s _ (kids ++ [slot]))|by apply (focus_gone s _ (kids ++ [slot]))].
Qed.
