(* ===== verification/WmSteps.v ===== *)
(** * Every step of the window manager keeps the windows' invariant

    Keys, the pointer, programs that connect, open, close and end, the desktop's
    requests, changes of the screen: the operations of the main loop, composed
    from the ones that keep the invariant. *)

From S2P Require Import Prelude Rect Region Painter Scene Consent Presentation Wm WmInput WmList WmOpen WmScene WmRequests WmCommit WmStack WmFocus WmKeep.

Create HintDb windows.

(** An operation that keeps the shape after one that keeps the invariant. *)
Lemma ok_same s t : windows_ok s -> same s t -> windows_ok t.
Proof. intros H E. by apply (same_ok s). Qed.

#[export] Hint Resolve raise_ok minimize_ok destroy_ok : windows.

(** ** Windows brought to the front *)

Lemma restore_ok slot s : windows_ok s -> windows_ok (restore_overlay_client slot s).
Proof. intros H. unfold restore_overlay_client. case_if; [done|]. eapply ok_same; [by apply raise_ok|]. calm. Qed.
#[export] Hint Resolve restore_ok : windows.

Lemma front_ok slot s : windows_ok s ->
  windows_ok (windowd_dirty_rect_add_fullscreen (raise_overlay slot (if wc_minimized (overlay s slot) then restore_overlay_client slot s else s))).
Proof. intros H. eapply ok_same; [apply raise_ok|calm]. case_if; auto with windows. Qed.

Lemma activate_ok slot s : windows_ok s -> windows_ok (activate_task slot s).
Proof. apply front_ok. Qed.

Lemma switch_ok i s : windows_ok s -> windows_ok (switcher_switch_to i s).
Proof.
  intros H. unfold switcher_switch_to. assert (Hc : windows_ok (switcher_close s)) by (eapply ok_same; [exact H|calm]).
  destruct (windowd_task_client s i) as [slot|]; [|done]. case_if; [done|]. by apply front_ok.
Qed.

Lemma toggle_shape s c : shape (fst (toggle_maximized s c)) = shape c /\ wc_active (fst (toggle_maximized s c)) = wc_active c.
Proof. unfold toggle_maximized. repeat case_if; try done. by destruct (desktop_reserved_strips s). Qed.

Lemma toggle_ok slot s : windows_ok s -> windows_ok (toggle_overlay_client_maximized slot s).
Proof.
  intros H. unfold toggle_overlay_client_maximized. case_if; [done|]. destruct (toggle_shape s (overlay s slot)) as [H1 H2].
  destruct (toggle_maximized s (overlay s slot)) as [c [w h]]. cbn [fst] in H1, H2. apply raise_ok. eapply ok_same; [exact H|].
  apply same_dirty_client, same_dirty_rect, same_resize_surface. by apply same_put_overlay.
Qed.
#[export] Hint Resolve activate_ok switch_ok toggle_ok : windows.

Lemma enter_ok slot a s : windows_ok s -> windows_ok (fst (enter_overlay_fullscreen slot a s)).
Proof.
  intros H. unfold enter_overlay_fullscreen. case_if; [done|]. case_if; [done|]. cbn [fst].
  eapply ok_same; [apply raise_ok|calm]. eapply ok_same; [exact H|]. apply same_put_fullscreen_slot.
  assert (Em : overlay (fst (apply_display_mode (fb_width (wc_info (overlay s slot))) (fb_height (wc_info (overlay s slot))) a s)) slot = overlay s slot).
  { unfold apply_display_mode. repeat case_if; by destruct a. }
  apply same_put_overlay; [calm|by setoid_rewrite Em..].
Qed.
#[export] Hint Resolve enter_ok : windows.

(** ** The keyboard *)

Lemma wm_key_ok key now a s : windows_ok s -> windows_ok (fst (wm_handle_key key now a s)).
Proof.
  intros H. unfold wm_handle_key. repeat (case_if; cbn [fst]); auto with windows;
    eapply ok_same; try exact H; calm.
Qed.

Lemma hotkey_ok key a s : windows_ok s -> windows_ok (fst (deliver_hotkey key a s)).
Proof. intros H. unfold deliver_hotkey. repeat (case_if; cbn [fst]); auto; eapply ok_same; try exact H; calm. Qed.

Lemma key_ok key now a s : windows_ok s -> windows_ok (main_key key now a s).
Proof.
  intros H. unfold main_key. destruct (windowd_consent_key _ _ _) as [[c taken] changed].
  destruct taken; [eapply ok_same; [exact H|calm]|].
  pose proof (wm_key_ok key now a s H) as H1. destruct (wm_handle_key key now a s) as [s1 handled]. cbn [fst] in H1.
  destruct handled; [done|]. pose proof (hotkey_ok key a s1 H1) as H2. destruct (deliver_hotkey key a s1) as [s2 delivered]. cbn [fst] in H2.
  destruct delivered; [done|]. eapply ok_same; [exact H2|calm].
Qed.

(** ** The pointer *)

Lemma desktop_focus_ok a s : windows_ok s -> windows_ok (refresh_active_state (put_focus ClientDesktop a s)).
Proof.
  intros [C _]. apply refresh_ok; [|done]. by apply (same_core _ s).
Qed.

Lemma same_dismiss_all x y s t : same s t -> same s (dismiss_popups_for_press x y t).
Proof.
  intros H. unfold dismiss_popups_for_press. apply same_for_z; [done| |].
  - apply same_for_z; [done..|]. intros i u Hu. case_if; [done|]. destruct (top_client_at_point t x y); calm.
  - intros i u Hu. calm.
Qed.
Lemma same_change_shape i s t : same s t -> same s (change_shape i t).
Proof. intros H. unfold change_shape. calm. Qed.
Lemma same_refresh_cursor p q s t : same s t -> same s (refresh_cursor_after_move p q t).
Proof. intros H. unfold refresh_cursor_after_move. calm. Qed.
#[export] Hint Resolve same_dismiss_all same_change_shape same_refresh_cursor : calm.

Lemma press_right_ok hover s : windows_ok s -> windows_ok (fst (press_right hover s)).
Proof.
  intros H. unfold press_right. destruct hover as [p|]; [|done]. repeat (case_if; cbn [fst]); auto with windows.
  by apply desktop_focus_ok.
Qed.

Lemma press_target_ok p x y w b s : windows_ok s -> windows_ok (fst (fst (press_target p x y w b s))).
Proof.
  intros H. unfold press_target. case_if; cbn [fst]; [|by apply raise_ok].
  case_if; [|eapply ok_same; [exact H|calm]].
  apply (ok_same (refresh_active_state (put_focus ClientDesktop (se_active_slot s) s))); [by apply desktop_focus_ok|calm].
Qed.

Lemma press_window_ok p x y w b now a q s : windows_ok s -> windows_ok (ps_session (press_window p x y w b now a q s)).
Proof.
  intros H. unfold press_window. cbv zeta.
  destruct (windowd_point_in_minimize_button _ _ _); [case_if; cbn [ps_session]; auto with windows|].
  destruct (windowd_point_in_maximize_button _ _ _); [case_if; cbn [ps_session]; auto with windows|].
  destruct (windowd_point_in_close_button _ _ _).
  { assert (Hc : windows_ok (fst (close_overlay_window (slot_of p) now a s))) by (eapply ok_same; [exact H|calm]).
    destruct (close_overlay_window _ _ _ _) as [s1 closed]. cbn [fst] in Hc. by case_if. }
  destruct (negb (_ =? WINDOWD_RESIZE_EDGE_NONE)); [case_if; cbn [ps_session]; [eapply ok_same; [exact H|calm]|done]|].
  destruct (negb (wc_maximized _) && _); [by case_if|].
  case_if; cbn [ps_session]; [|done]. eapply ok_same; [exact H|calm].
Qed.

Lemma press_left_ok hover x y w b now a q s : windows_ok s -> windows_ok (ps_session (press_left hover x y w b now a q s)).
Proof.
  intros H. unfold press_left. destruct hover as [p|]; [|done]. pose proof (press_target_ok p x y w b s H) as H1.
  destruct (press_target p x y w b s) as [[s1 hover] routed]. cbn [fst] in H1. destruct hover as [p'|]; [|done]. by apply press_window_ok.
Qed.

Lemma resizing_ok x y l s : windows_ok s -> windows_ok (fst (resize_in_progress x y l s)).
Proof. intros H. unfold resize_in_progress. repeat (case_if; cbn [fst]); auto; eapply ok_same; try exact H; calm. Qed.

Lemma pointer_ok event now a p s : windows_ok s -> windows_ok (snd (handle_pointer_event event now a p s)).
Proof.
  intros H. unfold handle_pointer_event. cbv zeta. destruct (move_cursor _ _ _ _) as [x y]. destruct (cs_open (se_consent s)).
  { destruct (windowd_consent_pointer _ _ _ _ _ _ _) as [[c taken] changed]. cbn [snd]. eapply ok_same; [exact H|]. calm. }
  match goal with |- context [dismiss_popups_for_press x y ?t] => set (s1 := if _ : bool then dismiss_popups_for_press x y t else t) end.
  assert (H1 : windows_ok s1) by (unfold s1; eapply ok_same; [exact H|calm]). clearbody s1.
  match goal with |- context [let '(_, _) := ?e in _] => set (e1 := e) end.
  assert (H2 : windows_ok (fst e1)) by (unfold e1; case_if; [by apply press_right_ok|exact H1]).
  clearbody e1. destruct e1 as [s2 hover]. cbn [fst] in H2.
  match goal with |- context [ps_session ?e] => set (pr := e) end.
  assert (H3 : windows_ok (ps_session pr)) by (unfold pr; case_if; [by apply press_left_ok|exact H2]). clearbody pr.
  pose proof (resizing_ok x y (has_flag (me_buttons event) SAVANXP_MOUSE_BUTTON_LEFT) _ H3) as H4.
  destruct (resize_in_progress _ _ _ _) as [s3 resizing]. cbn [fst] in H4. destruct resizing; cbn [snd]; (eapply ok_same; [exact H4|]); [calm|].
  apply same_repaint_focus, same_refresh_cursor. calm.
Qed.

Lemma mouse_ok event now a p s : windows_ok s -> windows_ok (snd (main_mouse event now a p s)).
Proof.
  intros H. unfold main_mouse. destruct (if cp_captured _ then _ else None) as [captor|]; [|by apply pointer_ok].
  destruct (windowd_capture_motion _ _) as [cap [dx dy]]. cbn [snd]. eapply ok_same; [exact H|calm].
Qed.

(** ** Windows that come *)

Lemma free_slot s slot : find_free_overlay_slot s = slot -> overlay_slot_valid slot = true ->
  pid_at s slot <= 0 /\ wc_reserved_pid (overlay s slot) <= 0.
Proof.
  unfold find_free_overlay_slot. intros <-. destruct (list_find _ _) as [[i k]|] eqn:E; cbn; [|done].
  apply list_find_Some in E as (_ & E & _). lia.
Qed.

(** A program's own window, just connected. *)
Lemma main_window_ok s slot c : windows_ok s -> overlay_slot_valid slot = true -> pid_at s slot <= 0 ->
  wc_pid c > 0 -> wc_reserved_pid c <= 0 -> wc_owner_slot c < 0 -> wc_role c = WINDOWD_ROLE_NORMAL ->
  (forall k, overlay_slot_valid k = true -> pid_at s k = wc_pid c -> owner_at s k >= 0) ->
  windows_ok (raise_overlay slot (append_overlay_to_order slot (put_overlay slot c s))).
Proof.
  intros [C F] Hv Hp Hc Hr Ho Hro Hfresh. pose proof (oo_session s (wk_order _ _ C)) as Hs.
  pose proof (core_put_live s slot c C Hv Hp Hc Hr (or_introl (conj Ho (conj Hro Hfresh)))) as C1.
  assert (E : overlay (put_overlay slot c s) slot = c) by (rewrite overlay_put by done; by rewrite Z.eqb_refl).
  assert (C2 : core_but slot (append_overlay_to_order slot (put_overlay slot c s))) by (apply core_append; rewrite ?E; done).
  destruct (append_spec slot _ (wk_order _ _ C1) Hv) as (_ & [Eov _ _] & _).
  assert (E' : overlay (append_overlay_to_order slot (put_overlay slot c s)) slot = c) by (unfold overlay; rewrite Eov; exact E).
  apply (raise_new slot); [done|done|by rewrite E'|]. right. unfold program. rewrite root_of_root by (by rewrite E'). by left.
Qed.

(** A client that is not a window yet. *)
Record blank (c : windowd_client) : Prop := {
  bl_pid : wc_pid c <= 0; bl_reserved : wc_reserved_pid c <= 0; bl_owner : wc_owner_slot c < 0;
  bl_role : wc_role c = WINDOWD_ROLE_NORMAL; bl_active : wc_active c = false }.

Lemma blank_reset : blank reset_client.
Proof. by split. Qed.
Lemma blank_surface h p i c : blank c -> blank (put_surface h p i c).
Proof. intros []. by split. Qed.
Lemma blank_capable b c : blank c -> blank (put_capable b c).
Proof. intros []. by split. Qed.
Lemma blank_channels e n i c : blank c -> blank (put_channels e n i c).
Proof. intros []. by split. Qed.
Lemma blank_shared p h i l c : blank c -> blank (put_shared p h i l c).
Proof. intros []. by split. Qed.
Lemma blank_path name c : blank c -> blank (client_path_from_process name c).
Proof. intros []. destruct name; by split. Qed.
Lemma blank_position s b i c : blank c -> blank (position_client_window s b i c).
Proof. intros []. unfold position_client_window. destruct b; by split. Qed.

Lemma blank_slot s slot : windows_ok s -> overlay_slot_valid slot = true -> pid_at s slot <= 0 -> blank (put_reserved 0 (overlay s slot)).
Proof.
  intros H Hv Hp. destruct (wk_free _ _ (proj1 H) slot Hv Hp) as [Ho Hr]. split; cbn; try done.
  rewrite (fo_mark _ (proj2 H) slot Hv). unfold active_flag, overlay_client_visible. by replace (pid_at s slot >? 0) with false by lia.
Qed.

Lemma ok_put_blank s slot c : windows_ok s -> overlay_slot_valid slot = true -> pid_at s slot <= 0 -> blank c ->
  windows_ok (put_overlay slot c s).
Proof. intros H Hv Hp []. by apply ok_put_free. Qed.

Lemma ok_put_connected s slot c pid id info u : windows_ok s -> overlay_slot_valid slot = true -> pid_at s slot <= 0 -> blank c -> pid > 0 ->
  process_has_window s pid = false ->
  windows_ok (raise_overlay slot (append_overlay_to_order slot (put_overlay slot (connected_client pid id info u c) s))).
Proof.
  intros H Hv Hp [] Hpid Hno. apply main_window_ok; try done. intros k Hk Hkp. unfold process_has_window in Hno.
  apply orb_false_elim in Hno as [_ Hno]. destruct (Z_lt_ge_dec (owner_at s k) 0) as [Hlt|]; [|lia]. exfalso. revert Hno.
  apply Bool.not_false_iff_true, existsb_exists. exists k. apply all_slots_valid in Hk. split; [by apply list_elem_of_In|].
  cbn in Hkp. lia.
Qed.

(** A slot admission can take: held for the program, or free. *)
Lemma admit_slot s pid slot : windows_ok s -> pid > 0 ->
  slot = match first_slot (fun slot => wc_reserved_pid (overlay s slot) =? pid) all_slots with
         | Some slot => slot | None => find_free_overlay_slot s end ->
  overlay_slot_valid slot = true -> pid_at s slot <= 0.
Proof.
  intros [C _] Hp -> Hv. rewrite first_slot_find in *. destruct (List.find _ _) as [k|] eqn:E.
  - apply List.find_some in E as [_ E]. apply (wk_reserved _ _ C); [done|lia].
  - by apply (free_slot s _ eq_refl).
Qed.

Lemma admit_ok pid name fs setup s : windows_ok s -> windows_ok (fst (admit_application pid name fs setup s)).
Proof.
  intros H. unfold admit_application. destruct (_ || _) eqn:Eg; [done|]. apply orb_false_elim in Eg as [Eg Eno]. cbv zeta.
  set (held := first_slot _ _). set (slot := match held with Some slot => slot | None => find_free_overlay_slot s end).
  destruct (overlay_slot_valid slot) eqn:Hv; cbn [negb]; [|done].
  assert (Hp : pid_at s slot <= 0) by (apply (admit_slot s pid slot H); [lia|done|done]).
  assert (Hpid : pid > 0) by lia.
  assert (Hb : blank (put_reserved 0 (match held with Some _ => overlay s slot | None => client_path_from_process name reset_client end))).
  { destruct held; [by apply blank_slot|]. destruct name; by split. }
  set (c0 := put_reserved 0 _) in *. clearbody c0. match goal with |- context [position_client_window s false _ ?x] => set (c1 := x) end.
  assert (Hb1 : blank c1) by (unfold c1; apply blank_shared; destruct fs; [apply blank_capable|]; by apply blank_surface).
  clearbody c1. apply (blank_position s false (hs_cascade (wc_hint c1))) in Hb1. set (c2 := position_client_window s false _ c1) in *.
  clearbody c2. destruct setup as [| |u]; cbn [fst].
  - by apply ok_put_blank.
  - by apply ok_put_blank.
  - match goal with |- windows_ok (windowd_dirty_rect_add_fullscreen ?x) => apply (ok_same x); [|calm] end.
    by apply ok_put_connected.
Qed.

(** A window of a program that has its own, just opened. *)
Lemma owned_ok s owner slot c target : windows_ok s -> overlay_slot_valid slot = true -> pid_at s slot <= 0 ->
  overlay_slot_valid owner = true -> pid_at s owner > 0 -> owner_at s owner < 0 ->
  wc_pid c > 0 -> wc_reserved_pid c <= 0 -> wc_owner_slot c = owner -> target = slot \/ target = owner ->
  windows_ok (raise_overlay target (put_overlay slot c s)).
Proof.
  intros [C F] Hv Hp Hvo Hpo Hoo Hc Hr Ho Ht. pose proof (oo_session s (wk_order _ _ C)) as Hs.
  assert (Hne : slot <> owner) by (intros ->; lia). pose proof (fun k => overlay_put slot c s k Hs Hv) as E.
  assert (C1 : core_but slot (put_overlay slot c s)).
  { apply core_put_live; try done. right. by rewrite Ho. }
  assert (Hroot : overlay_root_slot (put_overlay slot c s) target = owner).
  { destruct Ht as [->| ->].
    - unfold overlay_root_slot. rewrite E, Z.eqb_refl, Hv, Ho, Hvo. done.
    - apply root_of_root. rewrite E. by replace (slot =? owner) with false by lia. }
  apply (raise_new slot); [done|by destruct Ht as [->| ->]| |].
  - rewrite E. destruct Ht as [->| ->]; [by rewrite Z.eqb_refl|]. by replace (slot =? owner) with false by lia.
  - right. unfold program. rewrite Hroot. right. apply elem_children. split; [done|]. unfold child. rewrite E, Z.eqb_refl, Ho. lia.
Qed.

(** The fullscreen application leaves fullscreen first. *)
Lemma leave_ok a b s : windows_ok s -> windows_ok (if b : bool then exit_overlay_fullscreen a s else s) /\
  same s (if b then exit_overlay_fullscreen a s else s).
Proof. intros H. assert (same s (if b then exit_overlay_fullscreen a s else s)) by calm. split; [by apply (same_ok s)|done]. Qed.

Lemma not_refused s owner r mx my : owned_refused s owner r mx my = false -> overlay_slot_valid owner = true /\ pid_at s owner > 0.
Proof. unfold owned_refused. intros H. repeat (apply orb_false_elim in H as [H ?]). apply negb_false_iff in H. split; [done|lia]. Qed.

Lemma open_window_ok owner r setup a s : windows_ok s -> (overlay_slot_valid owner = true -> owner_at s owner < 0) ->
  windows_ok (fst (open_owned_window owner r setup a s)).
Proof.
  intros H Ho. unfold open_owned_window. destruct (owned_refused _ _ _ _ _) eqn:Er; [done|]. apply not_refused in Er as [Hvo Hpo].
  destruct (overlay_slot_valid (find_free_overlay_slot s)) eqn:Hv; cbn [negb]; [|done]. specialize (Ho Hvo).
  destruct (free_slot s _ eq_refl Hv) as [Hp _]. set (slot := find_free_overlay_slot s) in *. cbv zeta.
  destruct (leave_ok a (se_fullscreen_slot s =? owner) s H) as [H1 E1]. set (t := if _ =? owner then _ else s) in *. clearbody t slot.
  destruct (shape_parts _ _ slot (sa_windows _ _ E1)) as (P1 & _). destruct (shape_parts _ _ owner (sa_windows _ _ E1)) as (P2 & _ & P3 & _).
  destruct setup as [e|u]; cbn [fst]; [apply ok_put_free; done || lia|].
  destruct (windowd_clamp_overlay_frame_position _ _ _ _ _) as [x y]. cbn [fst].
  eapply ok_same; [|apply same_dirty_client, same_dirty_client; reflexivity].
  apply (owned_ok t owner slot); cbn; first [done|lia|by left].
Qed.

Lemma open_popup_ok owner r setup a s : windows_ok s -> (overlay_slot_valid owner = true -> owner_at s owner < 0) ->
  windows_ok (fst (open_owned_popup owner r setup a s)).
Proof.
  intros H Ho. unfold open_owned_popup. destruct (_ || owned_refused _ _ _ _ _) eqn:Er; [done|]. apply orb_false_elim in Er as [_ Er].
  apply not_refused in Er as [Hvo Hpo].
  destruct (overlay_slot_valid (find_free_overlay_slot s)) eqn:Hv; cbn [negb]; [|done]. specialize (Ho Hvo).
  destruct (free_slot s _ eq_refl Hv) as [Hp _]. set (slot := find_free_overlay_slot s) in *. cbv zeta.
  destruct (leave_ok a (se_fullscreen_slot s =? owner) s H) as [H1 E1]. set (t := if _ =? owner then _ else s) in *. clearbody t slot.
  destruct (shape_parts _ _ slot (sa_windows _ _ E1)) as (P1 & _). destruct (shape_parts _ _ owner (sa_windows _ _ E1)) as (P2 & _ & P3 & _).
  destruct setup as [e|u]; cbn [fst]; [apply ok_put_free; done || lia|].
  eapply ok_same; [|apply same_dirty_client; reflexivity].
  apply (owned_ok t owner slot); cbn; first [done|lia|by right].
Qed.

Lemma launch_ok spawned path s : windows_ok s -> windows_ok (fst (launch_overlay_client spawned path s)).
Proof.
  intros H. unfold launch_overlay_client. destruct (overlay_slot_valid (find_free_overlay_slot s)) eqn:Hv; cbn [negb]; [|done].
  destruct (free_slot s _ eq_refl Hv) as [Hp _]. set (slot := find_free_overlay_slot s) in *. clearbody slot.
  assert (H1 : windows_ok (put_overlay slot reset_client s)) by (by apply ok_put_free).
  assert (E : overlay (put_overlay slot reset_client s) slot = reset_client).
  { rewrite overlay_put by (done || apply H). by rewrite Z.eqb_refl. }
  case_if; cbn [fst]; [done|]. rewrite E. apply ok_put_free; try done. by rewrite E.
Qed.

(** ** Windows that go *)

Lemma close_owned_ok owner id a s : windows_ok s -> windows_ok (close_owned_window owner id a s).
Proof.
  intros H. unfold close_owned_window. case_if; [done|]. cbv zeta.
  set (t := dirty_rect _ _). assert (Ht : windows_ok t) by (unfold t; eapply ok_same; [by apply destroy_ok|apply same_dirty_rect; reflexivity]).
  eapply ok_same; [|apply same_dirty_client; reflexivity]. case_if; auto with windows.
Qed.

Lemma same_destroy_desktop s t : same s t -> same s (destroy_desktop t).
Proof. intros H. unfold destroy_desktop. apply same_put_hotkeys, same_put_desktop; [done|]. apply length_replicate. Qed.
#[export] Hint Resolve same_destroy_desktop : calm.

Lemma reap_ok alive answers s : windows_ok s -> windows_ok (reap_dead_clients alive answers s).
Proof.
  intros H. unfold reap_dead_clients. cbv zeta. set (t := if _ || _ then _ else s).
  assert (Ht : windows_ok t) by (eapply ok_same; [exact H|unfold t; calm]). clearbody t.
  apply (for_z_ind (fun _ u => windows_ok u)); [done|done|]. intros i u Hi Hu. case_if.
  - eapply ok_same; [by apply destroy_ok|apply same_dirty_fullscreen; reflexivity].
  - case_if; [|done]. assert (Hv : overlay_slot_valid i = true) by (unfold overlay_slot_valid; lia).
    apply ok_put_free; try done. apply (wk_reserved _ _ (proj1 Hu)); [done|lia].
Qed.

Lemma same_close_requests now hung s t : same s t -> same s (service_close_requests now hung t).
Proof.
  intros H. unfold service_close_requests. apply same_for_z; [done..|]. intros i u Hu. case_if; [done|].
  apply same_dirty_client. by apply same_put_overlay.
Qed.

(** ** What programs ask for *)

Lemma shell_request_ok r s : windows_ok s -> windows_ok (service_shell_request r s).
Proof.
  intros H. unfold service_shell_request. destruct r as [k m|id|id].
  - unfold register_hotkey. eapply ok_same; [exact H|]. calm.
  - case_if; [done|]. eapply ok_same; [by apply activate_ok|calm].
  - case_if; [done|]. cbv zeta. case_if.
    + eapply ok_same; [by apply minimize_ok|calm].
    + eapply ok_same; [exact H|calm].
Qed.

Lemma same_relayout_desktop w h i s t : same s t -> same s (relayout_desktop w h i t).
Proof. intros H. unfold relayout_desktop. calm. Qed.

Lemma same_relayout_overlay i s t : same s t -> same s (relayout_overlay i t).
Proof.
  intros H. unfold relayout_overlay. do 3 (case_if; [calm|]). cbv zeta.
  set (u := if wc_maximized _ then _ else t). assert (Hu : same s u).
  { unfold u. case_if; [|done]. destruct (desktop_reserved_strips t). apply same_resize_surface. by apply same_put_overlay. }
  clearbody u. destruct (windowd_clamp_overlay_frame_position _ _ _ _ _), (windowd_clamp_overlay_frame_position _ _ _ _ _).
  by apply same_put_overlay.
Qed.

Lemma same_relayout s t : same s t -> same s (relayout_for_display t).
Proof.
  intros H. unfold relayout_for_display. apply same_dirty_fullscreen.
  apply same_for_z; [done| |intros; by apply same_relayout_overlay]. apply same_for_z; [done| |intros; by apply same_relayout_desktop]. calm.
Qed.
#[export] Hint Resolve same_relayout : calm.

Lemma same_adopt a s t : same s t -> same s (adopt_mode a t).
Proof. intros H. unfold adopt_mode. calm. Qed.
#[export] Hint Resolve same_adopt : calm.

Lemma same_set_mode w h mw mh a s : same s (fst (set_display_mode w h mw mh a s)).
Proof. unfold set_display_mode. case_if; cbn [fst]; [reflexivity|]. cbv zeta. case_if; cbn [fst]; [calm|]. destruct (ma_set a); [case_if|]; cbn [fst]; calm. Qed.

Lemma same_open_desktop role r mw setup s : same s (fst (open_desktop_window role r mw setup s)).
Proof. unfold open_desktop_window. case_if; cbn [fst]; [reflexivity|]. destruct (desktop_frame _ _ _); [destruct setup|]; cbn [fst]; calm. Qed.

Lemma same_close_desktop i s : same s (close_desktop_window i s).
Proof. unfold close_desktop_window. calm. Qed.

(** A list is not part of a window's shape. *)
Lemma same_put_client p c s t : same s t -> shape c = shape (client_of t p) -> wc_active c = wc_active (client_of t p) -> same s (put_client p c t).
Proof.
  intros H. destruct p; cbn [put_client client_of]; [|by apply same_put_overlay]. intros _ _. apply same_put_desktop; [done|]. apply length_set_at.
Qed.

Lemma same_publish s t : same s t -> same s (publish_window_list t).
Proof.
  intros H. unfold publish_window_list. case_if; [done|]. apply same_for_z; [done|by apply same_put_client|].
  intros i u Hu. case_if; [|done]. by apply same_put_overlay.
Qed.
#[export] Hint Resolve same_publish : calm.

Lemma task_request_ok slot action id now ls users a s : windows_ok s -> windows_ok (fst (service_task_request slot action id now ls users a s)).
Proof.
  intros H. unfold service_task_request. destruct (action =? SAVANXP_WM_WINDOW_ACTION_TASK_LIST).
  - repeat (case_if; [done|]). cbn [fst]. eapply ok_same; [exact H|]. apply same_publish. by apply same_put_overlay.
  - cbv zeta. repeat (case_if; cbn [fst]; [first [done|eapply ok_same; [by apply activate_ok|calm]]|]). eapply ok_same; [exact H|calm].
Qed.

Lemma request_ok p r e s : windows_ok s -> windows_ok (fst (service_client_window_requests p r e s)).
Proof.
  intros H. unfold service_client_window_requests. cbv zeta. destruct ((wc_pid (client_of s p) <=? 0) || _); [done|]. destruct r as [r|]; [|done].
  match goal with |- windows_ok (fst (let '(_, _) := ?x in _)) => enough (windows_ok (fst x)) as Hx by (destruct x; exact Hx) end.
  cbv zeta. case_if; [eapply ok_same; [exact H|apply same_set_mode]|].
  case_if. { case_if; [eapply ok_same; [exact H|apply same_open_desktop]|]. case_if; cbn [fst]; [eapply ok_same; [exact H|apply same_close_desktop]|done]. }
  case_if; [by apply task_request_ok|]. destruct (negb (overlay_slot_valid (slot_of p) && _) || _) eqn:Em; [done|].
  apply orb_false_elim in Em as [Em _]. apply negb_false_iff in Em. apply andb_prop in Em as [Em1 Em2].
  assert (Ho : owner_at s (slot_of p) < 0) by (destruct p; cbn in *; [done|lia]).
  case_if; [by apply open_popup_ok|]. case_if; [by apply open_window_ok|]. case_if; cbn [fst]; [by apply close_owned_ok|done].
Qed.

Lemma same_admit_shell pid ours mw mh setup s : same s (fst (admit_shell pid ours mw mh setup s)).
Proof. unfold admit_shell. repeat (case_if; cbn [fst]; [reflexivity|]). destruct setup; cbn [fst]; calm. Qed.

Lemma same_start b p s t : same s t -> same s (service_client_start b p t).
Proof.
  intros H. unfold service_client_start. destruct ((wc_pid (client_of t p) <=? 0) || _ || _); [done|]. destruct b; [|done]. apply same_dirty_client.
  destruct p; cbn [put_client]; [|by apply same_put_overlay]. apply same_put_desktop; [done|]. apply length_set_at.
Qed.

(** ** Hints, and commits *)

Lemma same_cursor_hints shape p s : same s (service_client_cursor_hints shape p s).
Proof. unfold service_client_cursor_hints. case_if; [reflexivity|]. case_if; [|reflexivity]. by apply same_put_client. Qed.

Lemma same_reposition slot s t : same s t -> same s (reposition_overlay_client_window slot t).
Proof.
  intros H. unfold reposition_overlay_client_window. case_if; [done|]. cbv zeta. case_if; [done|].
  apply same_dirty_rect, same_dirty_rect. by apply same_put_overlay.
Qed.

Lemma same_size_hints r p s : same s (service_client_size_hints r p s).
Proof.
  unfold service_client_size_hints. cbv zeta. case_if; [reflexivity|]. destruct (gu_value r) as [w h].
  assert (Hp : forall hint, same s (put_client p (put_hint hint (client_of s p)) s)) by (intros hint; by apply same_put_client).
  case_if; [apply Hp|]. case_if; [apply same_reposition|]; apply same_resize_surface; by apply same_put_client.
Qed.

Lemma same_presentation r p s : same s (service_client_presentation r p s).
Proof.
  unfold service_client_presentation. cbv zeta. case_if; [reflexivity|]. destruct (windowd_presentation_adopt _ _) as [q changed].
  case_if; [apply same_dirty_client|]; by apply same_put_client.
Qed.

Lemma drop_broken_ok broken answers s : windows_ok s -> windows_ok (drop_broken_clients broken answers s).
Proof.
  intros H. unfold drop_broken_clients. apply (for_z_ind (fun _ u => windows_ok u)); [by case_if|done|].
  intros i u _ Hu. cbv zeta. case_if; [done|]. destruct (session_client_at i) as [k|slot].
  - eapply ok_same; [exact Hu|]. calm.
  - eapply ok_same; [by apply destroy_ok|]. calm.
Qed.

Lemma commit_ok scene cursor_x cursor_y reply answers s : windows_ok s ->
  windows_ok (snd (fst (windowd_commit scene cursor_x cursor_y reply answers s))).
Proof.
  intros H. unfold windowd_commit. destruct scene as [before|]; [|done]. cbv zeta. set (t := put_cursor _ _ _ _). assert (Ht : windows_ok t).
  { eapply ok_same; [exact H|]. unfold t. apply same_put_cursor. transitivity s; [reflexivity|]. by split. }
  destruct reply; [by apply drop_broken_ok|done].
Qed.
