(* ===== verification/WmLaws.v ===== *)
(** * What the window manager guarantees

    The main loop as a state machine: whatever the keyboard, the mouse, the
    programs and the screen do, every window is in the stacking order once, a
    program's dialogs lie above it, and the keyboard is on a window that can
    take it.  What bringing a window to the front does, exactly. *)

From S2P Require Import Prelude Rect Region Painter Scene Consent Presentation Wm WmInput WmList WmOpen WmScene WmRequests WmCommit WmStack WmFocus WmKeep WmSteps.

(** The session [open_compositor_session] starts with. *)
Definition open_compositor_session (info native : fb_info) (consent : windowd_consent) : windowd_session :=
  refresh_active_state (mk_session info native ClientNone (-1) (-1) 0
    (replicate (Z.to_nat WINDOWD_MAX_OVERLAY_CLIENTS) (-1)) (replicate (Z.to_nat WINDOWD_DESKTOP_WINDOW_COUNT) reset_client)
    (replicate (Z.to_nat WINDOWD_MAX_OVERLAY_CLIENTS) reset_client)
    (mk_resize (-1) WINDOWD_RESIZE_EDGE_NONE (mk_rect 0 0 0 0) 0 0) false 0 consent [] 0 0 0 false (mk_capture false false 0 0)
    sx_region_clear []).

(** What a pass of the main loop serves. *)
Inductive wm_action :=
| KeyRead (key : savanxp_input_event) (now_ms : Z) (answer : option fb_info)
| MouseRead (event : savanxp_mouse_event) (now_ms : Z) (answer : option fb_info) (p : pointer)
| Reframe (p : pointer)
| FollowCapture
| Reap (alive : Z -> bool) (answers : Z -> option fb_info)
| Hello (pid : Z) (name : option (list Z)) (fullscreen_launch : bool) (setup : connection_outcome)
| HelloShell (pid : Z) (ours : bool) (max_width max_height : Z) (setup : connection_outcome)
| Launch (spawned : Z) (path : list Z)
| ServeConsent (now_ms : Z) (accept : option accepted) (got : request_read) (reads : list pipe_read)
| CloseTimeouts (now_ms hung_close_ms : Z)
| WindowRequest (p : place) (request : option client_request) (e : request_env)
| ShellRequest (r : shell_request)
| FirstFrame (submitted : bool) (p : place)
| CursorHint (shape : Z) (p : place)
| SizeHint (r : guarded (Z * Z)) (p : place)
| PresentationRead (r : guarded savanxp_wm_presentation) (p : place)
| PublishList
| Commit (scene : option compositor_scene) (cursor_x cursor_y : Z) (reply : option Z) (answers : Z -> option fb_info).

Definition wm_step (a : wm_action) (s : windowd_session) : windowd_session :=
  match a with
  | KeyRead key now_ms answer => main_key key now_ms answer s
  | MouseRead event now_ms answer p => snd (main_mouse event now_ms answer p s)
  | Reframe p => snd (main_reframe p s)
  | FollowCapture => main_capture s
  | Reap alive answers => reap_dead_clients alive answers s
  | Hello pid name fullscreen_launch setup => fst (admit_application pid name fullscreen_launch setup s)
  | HelloShell pid ours max_width max_height setup => fst (admit_shell pid ours max_width max_height setup s)
  | Launch spawned path => fst (launch_overlay_client spawned path s)
  | ServeConsent now_ms accept got reads =>
      let '(consent, changed) := windowd_consent_service (se_consent s) (se_info s) now_ms accept got reads in
      let s := put_consent consent s in
      if changed then consent_opened_or_closed s else s
  | CloseTimeouts now_ms hung_close_ms => service_close_requests now_ms hung_close_ms s
  | WindowRequest p request e => fst (service_client_window_requests p request e s)
  | ShellRequest r => service_shell_request r s
  | FirstFrame submitted p => service_client_start submitted p s
  | CursorHint shape p => service_client_cursor_hints shape p s
  | SizeHint r p => service_client_size_hints r p s
  | PresentationRead r p => service_client_presentation r p s
  | PublishList => publish_window_list s
  | Commit scene cursor_x cursor_y reply answers => snd (fst (windowd_commit scene cursor_x cursor_y reply answers s))
  end.

(** The sessions windowd can be in. *)
Inductive wm_reachable : windowd_session -> Prop :=
| reach_open info native consent : wm_reachable (open_compositor_session info native consent)
| reach_step a s : wm_reachable s -> wm_reachable (wm_step a s).

Lemma wm_step_ok a s : windows_ok s -> windows_ok (wm_step a s).
Proof.
  intros H. destruct a; cbn [wm_step].
  - by apply key_ok.
  - by apply mouse_ok.
  - unfold main_reframe. case_if; [|done]. eapply ok_same; [exact H|]. cbn [snd]. calm.
  - unfold main_capture. eapply ok_same; [exact H|]. calm.
  - by apply reap_ok.
  - by apply admit_ok.
  - eapply ok_same; [exact H|apply same_admit_shell].
  - by apply launch_ok.
  - destruct (windowd_consent_service _ _ _ _ _ _) as [c changed]. eapply ok_same; [exact H|]. calm.
  - eapply ok_same; [exact H|]. apply same_close_requests. reflexivity.
  - by apply request_ok.
  - by apply shell_request_ok.
  - eapply ok_same; [exact H|]. apply same_start. reflexivity.
  - eapply ok_same; [exact H|apply same_cursor_hints].
  - eapply ok_same; [exact H|apply same_size_hints].
  - eapply ok_same; [exact H|apply same_presentation].
  - eapply ok_same; [exact H|]. calm.
  - by apply commit_ok.
Qed.

(** A session without windows. *)
Lemma empty_core s : session_ok s -> se_count s = 0 -> se_overlays s = replicate (Z.to_nat WINDOWD_MAX_OVERLAY_CLIENTS) reset_client -> core s.
Proof.
  intros Hs Hc Ho. assert (E : forall k, overlay s k = reset_client) by (intros k; unfold overlay; rewrite Ho; apply at_replicate).
  assert (Est : stack s = []) by (unfold stack; by rewrite Hc).
  split; repeat setoid_rewrite E; rewrite ?Est; try (intros; done || (by apply not_elem_of_nil in H)).
  - split; [done|rewrite Est; constructor..].
  - intros k _ _. rewrite elem_of_nil. cbn. lia.
Qed.

Lemma reachable_ok s : wm_reachable s -> windows_ok s.
Proof.
  induction 1; [|by apply wm_step_ok]. unfold open_compositor_session. apply refresh_ok; [|done]. by apply empty_core.
Qed.

(** C4. Every window is in the stacking order exactly once, and nothing else is,
    whatever happens: in every session windowd can be in, the order holds
    distinct slots, a slot is in it exactly when it has a window, the dialogs
    and popups of a program belong to a live main window that is not itself
    owned, lie above it, and are minimized with it. *)
Theorem order_holds_every_window (s : windowd_session) (Hr : wm_reachable s) :
  NoDup (stack s) /\
  (forall k, k ∈ stack s <-> overlay_slot_valid k = true /\ wc_pid (overlay s k) > 0) /\
  (forall k, k ∈ stack s -> wc_owner_slot (overlay s k) >= 0 ->
     let o := wc_owner_slot (overlay s k) in
     o ∈ stack s /\ wc_owner_slot (overlay s o) < 0 /\ below o k (stack s) /\
     wc_minimized (overlay s k) = wc_minimized (overlay s o)).
Proof.
  apply reachable_ok in Hr as [C _]. pose proof (wk_order _ _ C) as Ho.
  assert (Hin : forall k, k ∈ stack s <-> overlay_slot_valid k = true /\ pid_at s k > 0).
  { intros k. split.
    - intros H. pose proof (in_stack_valid _ _ Ho H) as Hv. split; [done|]. apply (wk_live _ _ C); auto with calm.
    - intros [Hv Hp]. apply (wk_live _ _ C); auto with calm. }
  split; [apply Ho|]. split; [done|]. intros k Hk Hko o. apply Hin in Hk as Hk'. destruct Hk' as [Hv Hp].
  destruct (wk_owner _ _ C k Hv Hp Hko) as (K1 & K2 & K3). split; [by apply Hin|]. split; [done|].
  split; [apply (wk_above _ _ C); [done..|lia]|]. apply (wk_family _ _ C); auto with calm.
Qed.

(** C7. Where the keyboard goes: in every session windowd can be in, the client
    that gets the keys is either the desktop, alive, or a window of the order
    that is live, not minimized and without a dialog open over it (it may not
    have drawn its first frame yet), and that window and no other is marked
    active.  Nothing gets the keys only when every window of the order is
    minimized or gone, or when the desktop had the focus and has ended; the
    second case is one the comment in the source (windowd.c:224) does not
    have. *)
Theorem keyboard_on_usable_window (s : windowd_session) (Hr : wm_reachable s) :
  match keyboard_client s with
  | Some (Desktop i) => i = 0 /\ wc_pid (desktop_window s 0) > 0
  | Some (Overlay k) => k ∈ stack s /\ overlay_client_visible (overlay s k) = true /\ overlay_client_disabled s k = false /\
      forall j, overlay_slot_valid j = true -> (wc_active (overlay s j) = true <-> j = k)
  | None => (forall k, k ∈ stack s -> overlay_client_visible (overlay s k) = false) \/
            (se_kind s = ClientDesktop /\ wc_pid (desktop_window s 0) <= 0)
  end.
Proof.
  apply reachable_ok in Hr as [C F]. unfold keyboard_client, active_client.
  destruct (bool_decide (se_kind s = ClientDesktop)) eqn:Ed; [apply bool_decide_eq_true in Ed|apply bool_decide_eq_false in Ed]; cbn [andb].
  { destruct (wc_pid (desktop_window s 0) >? 0) eqn:Ep; [split; [done|lia]|]. rewrite bool_decide_false by congruence. cbn [andb].
    right. split; [done|lia]. }
  destruct (bool_decide (se_kind s = ClientApp)) eqn:Ea; [apply bool_decide_eq_true in Ea|apply bool_decide_eq_false in Ea]; cbn [andb].
  - destruct (fo_app _ F Ea) as (A1 & A2 & A3). rewrite A1. split; [|split; [done|split; [done|]]].
    + apply (wk_live _ _ C); auto with calm. unfold overlay_client_visible in A2. lia.
    + intros j Hj. rewrite (fo_mark _ F j Hj). unfold active_flag. rewrite bool_decide_true by done. rewrite andb_true_r. split.
      * intros [_ H]%andb_prop. lia.
      * intros ->. rewrite A2. cbn. lia.
  - left. intros k Hk. apply (fo_none _ F); [by destruct (se_kind s)|]. by apply (in_stack_valid _ _ (wk_order _ _ C)).
Qed.

(** C16. What bringing a window to the front does, exactly: the program's own
    window, then its dialogs and popups in slot order with the window itself
    last, go on top of everything else, which keeps its order; they are restored
    if they were minimized; the keyboard goes to the last dialog among them, or
    to the program's own window when it has none; nothing else changes in any
    window but the mark of the active one. *)
Theorem raise_is_exact (s : windowd_session) (slot : Z) (Hr : wm_reachable s) (Hv : overlay_slot_valid slot = true)
    (Hp : wc_pid (overlay s slot) > 0) :
  let root := overlay_root_slot s slot in
  let s' := raise_overlay slot s in
  stack s' = List.filter (outside (root :: children s root)) (stack s) ++ root :: above_root s slot /\
  se_kind s' = ClientApp /\ se_active_slot s' = default root (last (List.filter (dialog s) (above_root s slot))) /\
  (forall k, overlay_slot_valid k = true -> overlay s' k =
     put_active (k =? se_active_slot s') (if bool_decide (k ∈ root :: children s root) then put_minimized false (overlay s k) else overlay s k)).
Proof.
  apply reachable_ok in Hr as [C _]. pose proof (core_has_root _ _ _ C Hv Hp) as Hr.
  destruct (raise_spec slot s (wk_order _ _ C) Hv Hp Hr) as [_ R1 R2 R3 _ R4]. cbv zeta. rewrite R3.
  split; [exact R1|]. split; [exact R2|]. split; [done|exact R4].
Qed.
