(* ===== verification/WmFrames.v ===== *)
(** * Maximize and fullscreen, there and back

    Maximizing a window and restoring it puts back its frame and the size of its
    surface;
    entering fullscreen and leaving it puts back the window's place, its frame
    and the screen's mode. *)

From S2P Require Import Prelude Rect Region Painter Scene Consent Wm WmInput WmOpen WmScene WmRequests WmStack WmFocus WmKeep WmSteps WmLaws.

(** ** What raising leaves alone *)

Definition screen (s : windowd_session) : fb_info * fb_info * Z := (se_info s, se_native s, se_fullscreen_slot s).

Lemma screen_append slot s : screen (append_overlay_to_order slot s) = screen s.
Proof.
  unfold append_overlay_to_order, remove_overlay_from_order. case_if; [done|]. destruct (order_index s slot); by case_if.
Qed.

Lemma screen_raise_owned root s : screen (raise_owned root s) = screen s.
Proof.
  unfold raise_owned. apply (for_z_ind (fun _ t => screen t = screen s)); [done..|]. intros i t _ Ht. case_if; [done|].
  case_if; [|by rewrite screen_append]. etrans; [|apply Ht]. etrans; [|apply (screen_append i (put_overlay i (put_minimized false (overlay t i)) t))]. done.
Qed.

Lemma screen_refresh s : screen (refresh_active_state s) = screen s.
Proof.
  unfold refresh_active_state, mark_active.
  apply (for_z_ind (fun _ t => screen t = screen s)); [done|by repeat case_if|]. intros i t _ Ht. exact Ht.
Qed.

Lemma screen_raise slot s : screen (raise_overlay slot s) = screen s.
Proof.
  unfold raise_overlay. case_if; [apply screen_refresh|]. cbv zeta. rewrite screen_refresh.
  set (root := overlay_root_slot s slot). set (t := raise_owned root _).
  assert (Ht : screen t = screen s) by (unfold t; rewrite screen_raise_owned; etrans; [|apply (screen_append root (put_overlay root (put_minimized false (overlay s root)) s))]; done).
  clearbody t. case_if; [|exact Ht]. case_if; (etrans; [|exact Ht]); (etrans; [|apply (screen_append slot t)]); done.
Qed.

Lemma screen_dirty_add x y w h s : screen (windowd_dirty_rect_add x y w h s) = screen s.
Proof. unfold windowd_dirty_rect_add. by destruct (clip_rect_to_framebuffer _ _). Qed.
Lemma screen_dirty r s : screen (dirty_rect r s) = screen s.
Proof. apply screen_dirty_add. Qed.
Lemma screen_dirty_client c s : screen (windowd_dirty_rect_add_client c s) = screen s.
Proof. unfold windowd_dirty_rect_add_client. by case_if. Qed.

Lemma screen_layout s s' : screen s' = screen s -> layout_display s' = layout_display s.
Proof. unfold screen, layout_display. by intros [= -> -> _]. Qed.

Lemma overlay_dirty r s k : overlay (dirty_rect r s) k = overlay s k.
Proof. unfold dirty_rect, windowd_dirty_rect_add. by destruct (clip_rect_to_framebuffer _ _). Qed.
Lemma overlay_dirty_client c s k : overlay (windowd_dirty_rect_add_client c s) k = overlay s k.
Proof. unfold windowd_dirty_rect_add_client. by case_if. Qed.

(** A window brought to the front, by itself. *)
Lemma raise_self s slot : windows_ok s -> overlay_slot_valid slot = true -> pid_at s slot > 0 ->
  exists b, overlay (raise_overlay slot s) slot = put_active b (put_minimized false (overlay s slot)).
Proof.
  intros [C _] Hv Hp. pose proof (core_has_root _ _ _ C Hv Hp) as Hr.
  rewrite (ra_overlay _ _ _ (raise_spec slot s (wk_order _ _ C) Hv Hp Hr)) by done. rewrite bool_decide_true; [by eexists|].
  destruct (decide (slot = overlay_root_slot s slot)) as [E|E]; [rewrite <- E; by left|]. right. by apply child_root.
Qed.

(** ** A surface's size *)

Definition resized (display : fb_info) (w h : Z) (c : windowd_client) : windowd_client :=
  let max_width := client_surface_capacity_width c in
  let max_height := client_surface_capacity_height c in
  if (max_width =? 0) || (max_height =? 0) then c
  else
    let w := windowd_clamp_int w 1 max_width in
    let h := windowd_clamp_int h 1 max_height in
    if (fb_width (wc_info c) =? w) && (fb_height (wc_info c) =? h) then c
    else
      let info := mk_info (u32 w) (u32 h) (fb_pitch (wc_info c)) (fb_bpp (wc_info c)) (fb_buffer_size (wc_info c)) in
      fit_frame display w h
        (put_surface (fmap (fun x => mk_header (fb_width info) (fb_height info) (hd_shutdown x) (hd_capture x)) (wc_header c))
           (fmap (map (fun _ => 0)) (wc_pixels c)) info c).

Lemma resized_keeps d w h c :
  wc_pid (resized d w h c) = wc_pid c /\ wc_frame_visible (resized d w h c) = wc_frame_visible c /\
  wc_maximized (resized d w h c) = wc_maximized c /\ fb_pitch (wc_info (resized d w h c)) = fb_pitch (wc_info c) /\
  fb_bpp (wc_info (resized d w h c)) = fb_bpp (wc_info c) /\ fb_buffer_size (wc_info (resized d w h c)) = fb_buffer_size (wc_info c) /\
  (wc_maximized c = true -> wc_restore (resized d w h c) = wc_restore c).
Proof.
  unfold resized. cbv zeta. destruct (_ || _); [done|]. destruct (_ && _); [done|]. unfold fit_frame. cbv zeta.
  cbn [wc_frame_visible put_surface]. destruct (wc_frame_visible c) eqn:Ef; cbn [negb]; [|by repeat split].
  cbn [wc_maximized put_extent put_surface]. destruct (wc_maximized c) eqn:Em; cbn [negb]; unfold windowd_clamp_overlay_frame_position; cbn; rewrite ?Em, ?Ef; by repeat split.
Qed.

Lemma resize_is slot w h s : session_ok s -> overlay_slot_valid slot = true -> pid_at s slot > 0 ->
  overlay (resize_overlay_client_surface slot w h s) slot = resized (layout_display s) w h (overlay s slot) /\
  screen (resize_overlay_client_surface slot w h s) = screen s.
Proof.
  intros Hs Hv Hp. unfold resize_overlay_client_surface, resized. rewrite Hv. replace (pid_at s slot <=? 0) with false by lia. cbn [negb orb].
  cbv zeta. destruct (_ || _); [done|]. destruct (_ && _); [done|].
  rewrite !overlay_dirty, !screen_dirty, overlay_put, Z.eqb_refl by done. done.
Qed.

Lemma toggle_is slot s : windows_ok s -> overlay_slot_valid slot = true -> pid_at s slot > 0 ->
  let '(c, (w, h)) := toggle_maximized s (overlay s slot) in
  (exists b, overlay (toggle_overlay_client_maximized slot s) slot = put_active b (put_minimized false (resized (layout_display s) w h c))) /\
  screen (toggle_overlay_client_maximized slot s) = screen s.
Proof.
  intros H Hv Hp. unfold toggle_overlay_client_maximized. rewrite Hv. replace (pid_at s slot <=? 0) with false by lia. cbn [negb orb].
  pose proof (toggle_shape s (overlay s slot)) as [H1 H2]. destruct (toggle_maximized s (overlay s slot)) as [c [w h]]. cbn [fst] in H1, H2. cbv zeta.
  pose proof (oo_session s (wk_order _ _ (proj1 H))) as Hs.
  assert (Hpc : wc_pid c > 0) by (unfold shape in H1; injection H1 as -> _ _ _ _; done).
  assert (Ht : windows_ok (put_overlay slot c s)) by (apply (ok_same s); [done|]; apply same_put_overlay; [reflexivity|done..]).
  assert (E : overlay (put_overlay slot c s) slot = c) by (rewrite overlay_put by done; by rewrite Z.eqb_refl).
  destruct (resize_is slot w h (put_overlay slot c s)) as [R1 R2]; [apply Ht|done|by rewrite E|]. rewrite E in R1.
  set (u := resize_overlay_client_surface slot w h (put_overlay slot c s)) in *.
  assert (Hu : windows_ok u) by (eapply ok_same; [exact Ht|unfold u; calm]). clearbody u.
  set (v := windowd_dirty_rect_add_client _ _).
  assert (Ev : overlay v slot = overlay u slot) by (unfold v; by rewrite overlay_dirty_client, overlay_dirty).
  assert (Hv' : windows_ok v) by (eapply ok_same; [exact Hu|unfold v; calm]).
  assert (Sv : screen v = screen s) by (unfold v; rewrite screen_dirty_client, screen_dirty, R2; done). clearbody v.
  split; [|by rewrite screen_raise]. destruct (raise_self v slot Hv' Hv) as [b Hb].
  - rewrite Ev, R1. destruct (resized_keeps (layout_display (put_overlay slot c s)) w h c) as (-> & _). done.
  - exists b. rewrite Hb, Ev, R1. done.
Qed.

(** A window whose place a clamp leaves alone, with a surface in its capacity. *)
Record settled (display : fb_info) (c : windowd_client) : Prop := {
  st_framed : framed c;
  st_visible : wc_frame_visible c = true;
  st_width : 1 <= fb_width (wc_info c) <= client_surface_capacity_width c;
  st_height : 1 <= fb_height (wc_info c) <= client_surface_capacity_height c;
  st_machine : client_surface_capacity_width c < 4294967296 /\ client_surface_capacity_height c < 4294967296;
  st_place : windowd_clamp_overlay_frame_position display (wc_width c) (wc_height c) (wc_x c) (wc_y c) = (wc_x c, wc_y c) }.

(** A surface that comes back to a size it had. *)
Lemma resized_back d c w h x y : 1 <= w <= client_surface_capacity_width c -> 1 <= h <= client_surface_capacity_height c ->
  client_surface_capacity_width c < 4294967296 -> client_surface_capacity_height c < 4294967296 ->
  wc_frame_visible c = true -> wc_maximized c = false -> wc_x c = x -> wc_y c = y ->
  wc_width c = w + WINDOWD_WINDOW_BORDER * 2 -> wc_height c = h + WINDOWD_WINDOW_TITLEBAR_HEIGHT + WINDOWD_WINDOW_BORDER ->
  windowd_clamp_overlay_frame_position d (wc_width c) (wc_height c) x y = (x, y) ->
  let r := resized d w h c in
  wc_x r = x /\ wc_y r = y /\ wc_width r = wc_width c /\ wc_height r = wc_height c /\
  wc_info r = mk_info w h (fb_pitch (wc_info c)) (fb_bpp (wc_info c)) (fb_buffer_size (wc_info c)).
Proof.
  intros Hw Hh Hcw Hch Hv Hm Hx Hy Ew Eh Hcl. unfold resized. cbv zeta.
  replace (client_surface_capacity_width c =? 0) with false by lia. replace (client_surface_capacity_height c =? 0) with false by lia. cbn [orb].
  assert (Cw : windowd_clamp_int w 1 (client_surface_capacity_width c) = w) by (unfold windowd_clamp_int; repeat case_if; lia).
  assert (Ch : windowd_clamp_int h 1 (client_surface_capacity_height c) = h) by (unfold windowd_clamp_int; repeat case_if; lia).
  rewrite Cw, Ch.
  destruct ((fb_width (wc_info c) =? w) && _) eqn:E.
  - repeat split; try done. destruct (wc_info c) eqn:Ei. cbn in *. f_equal; lia.
  - unfold fit_frame. cbv zeta. cbn [wc_frame_visible wc_maximized put_surface put_extent]. rewrite Hv, Hm. cbn [negb].
    cbn [wc_width wc_height wc_x wc_y put_extent put_surface put_restore]. rewrite <- Ew, <- Eh, Hx, Hy, Hcl. cbn.
    repeat split; try done. unfold u32. rewrite !Z.mod_small by lia. done.
Qed.

(** A window just maximized: where it was is kept for the way back. *)
Lemma maximize_once s slot : windows_ok s -> overlay_slot_valid slot = true -> pid_at s slot > 0 -> wc_maximized (overlay s slot) = false ->
  let c := overlay s slot in
  let c1 := overlay (toggle_overlay_client_maximized slot s) slot in
  wc_pid c1 = wc_pid c /\ wc_maximized c1 = true /\ wc_frame_visible c1 = wc_frame_visible c /\
  wc_restore c1 = mk_rect (wc_x c) (wc_y c) (wc_width c) (wc_height c) /\
  fb_pitch (wc_info c1) = fb_pitch (wc_info c) /\ fb_bpp (wc_info c1) = fb_bpp (wc_info c) /\
  fb_buffer_size (wc_info c1) = fb_buffer_size (wc_info c).
Proof.
  intros H Hv Hp Hm c c1. pose proof (toggle_is slot s H Hv Hp) as T. fold c c1 in T. fold c in Hm. unfold toggle_maximized in T. rewrite Hm in T.
  cbn [negb] in T. destruct (desktop_reserved_strips s) as [top bottom]. cbv zeta in T. destruct T as [[b E] _].
  match type of E with _ = put_active _ (put_minimized _ (resized ?d ?w ?h ?x)) =>
    destruct (resized_keeps d w h x) as (K1 & K2 & K3 & K4 & K5 & K6 & K7); set (r := resized d w h x) in * end.
  specialize (K7 eq_refl). rewrite E. cbn [wc_pid wc_maximized wc_frame_visible wc_restore wc_info put_active put_minimized].
  rewrite K1, K2, K3, K4, K5, K6, K7. by repeat split.
Qed.

(** A maximized window back at a place where it fits. *)
Lemma restore_once s slot c : windows_ok s -> overlay_slot_valid slot = true -> pid_at s slot > 0 -> settled (layout_display s) c ->
  let c1 := overlay s slot in
  let c2 := overlay (toggle_overlay_client_maximized slot s) slot in
  wc_maximized c1 = true -> wc_frame_visible c1 = true -> wc_restore c1 = mk_rect (wc_x c) (wc_y c) (wc_width c) (wc_height c) ->
  fb_pitch (wc_info c1) = fb_pitch (wc_info c) -> fb_bpp (wc_info c1) = fb_bpp (wc_info c) ->
  fb_buffer_size (wc_info c1) = fb_buffer_size (wc_info c) ->
  wc_pid c2 = wc_pid c1 /\ wc_maximized c2 = false /\ wc_frame_visible c2 = true /\
  wc_x c2 = wc_x c /\ wc_y c2 = wc_y c /\ wc_width c2 = wc_width c /\ wc_height c2 = wc_height c /\ wc_info c2 = wc_info c.
Proof.
  intros H Hv Hp [(F1 & F2 & F3 & F4) _ Hw Hh [Hcw Hch] Hcl] c1 c2 P2 P3 P4 P5 P6 P7.
  pose proof (toggle_is slot s H Hv Hp) as T. fold c1 c2 in T. clearbody c2. unfold toggle_maximized in T. rewrite P2, P4 in T.
  cbn [negb rx ry rw rh] in T. unfold WINDOWD_WINDOW_BORDER, WINDOWD_WINDOW_TITLEBAR_HEIGHT in F3, F4.
  replace ((wc_width c >? 0) && (wc_height c >? 0)) with true in T by lia. cbv zeta in T. destruct T as [[b E] _].
  cbn [wc_width wc_height put_extent put_position] in E.
  replace (wc_width c - WINDOWD_WINDOW_BORDER * 2) with (fb_width (wc_info c)) in E by (unfold WINDOWD_WINDOW_BORDER; lia).
  replace (wc_height c - WINDOWD_WINDOW_TITLEBAR_HEIGHT - WINDOWD_WINDOW_BORDER) with (fb_height (wc_info c)) in E
    by (unfold WINDOWD_WINDOW_BORDER, WINDOWD_WINDOW_TITLEBAR_HEIGHT; lia).
  set (m := put_maximized false _) in E.
  assert (Q1 : client_surface_capacity_width m = client_surface_capacity_width c) by (unfold client_surface_capacity_width; cbn; by rewrite P5).
  assert (Q2 : client_surface_capacity_height m = client_surface_capacity_height c) by (unfold client_surface_capacity_height; cbn; by rewrite P5, P7).
  pose proof (resized_back (layout_display s) m (fb_width (wc_info c)) (fb_height (wc_info c)) (wc_x c) (wc_y c)) as B.
  rewrite Q1, Q2 in B. specialize (B Hw Hh Hcw Hch P3 eq_refl eq_refl eq_refl F3 F4 Hcl). cbv zeta in B. destruct B as (B1 & B2 & B3 & B4 & B5).
  destruct (resized_keeps (layout_display s) (fb_width (wc_info c)) (fb_height (wc_info c)) m) as (L1 & L2 & L3 & _).
  rewrite E. set (r := resized _ _ _ m) in *. clearbody r.
  cbn [wc_pid wc_maximized wc_frame_visible wc_x wc_y wc_width wc_height wc_info put_active put_minimized].
  rewrite L1, L2, L3, B1, B2, B3, B4, B5. cbn. rewrite P5, P6, P7, P3. destruct (wc_info c). by repeat split.
Qed.

(** C28. Toggling a window's maximized state twice puts it back.  For a live
    window with a frame that is not maximized, in its place on the screen and
    with a surface within its memory ([settled]): after the first toggle it is
    maximized, after the second it is not, its frame is where it was and its
    surface has the size it had, whatever panels the desktop reserves and however
    little of the screen the surface's memory can fill.  Only the size of the
    surface comes back: a resize clears its pixels, and the client paints anew. *)
Theorem maximize_restores (s : windowd_session) (slot : Z) (Hr : wm_reachable s) (Hv : overlay_slot_valid slot = true)
    (Hp : wc_pid (overlay s slot) > 0) (Hm : wc_maximized (overlay s slot) = false) (Hs : settled (layout_display s) (overlay s slot)) :
  let once := toggle_overlay_client_maximized slot s in
  let twice := toggle_overlay_client_maximized slot once in
  wc_maximized (overlay once slot) = true /\ wc_maximized (overlay twice slot) = false /\
  windowd_client_frame_rect (overlay twice slot) = windowd_client_frame_rect (overlay s slot) /\
  wc_info (overlay twice slot) = wc_info (overlay s slot).
Proof.
  apply reachable_ok in Hr. cbv zeta. destruct (maximize_once s slot Hr Hv Hp Hm) as (P1 & P2 & P3 & P4 & P5 & P6 & P7).
  pose proof (toggle_is slot s Hr Hv Hp) as T. destruct (toggle_maximized s (overlay s slot)) as [? [? ?]]. destruct T as [_ S].
  pose proof (toggle_ok slot s Hr) as H1. set (once := toggle_overlay_client_maximized slot s) in *. clearbody once.
  pose proof (st_visible _ _ Hs) as Hf. rewrite <- (screen_layout _ _ S) in Hs. rewrite Hf in P3.
  assert (Hp1 : pid_at once slot > 0) by lia.
  destruct (restore_once once slot (overlay s slot) H1 Hv Hp1 Hs P2 P3 P4 P5 P6 P7) as (R1 & R2 & R3 & R4 & R5 & R6 & R7 & R8).
  split; [done|]. split; [done|]. split; [|done]. unfold windowd_client_frame_rect. rewrite R1, P1, R3, Hf, R4, R5, R6, R7. done.
Qed.

(** ** Fullscreen *)

Lemma overlay_mode w h a s k : overlay (fst (apply_display_mode w h a s)) k = overlay s k.
Proof. unfold apply_display_mode. repeat case_if; by destruct a. Qed.

(** What a window is like in fullscreen. *)
Lemma enter_is slot a s : windows_ok s -> overlay_slot_valid slot = true -> pid_at s slot > 0 ->
  wc_fullscreen_capable (overlay s slot) = true -> wc_fullscreen (overlay s slot) = false -> wc_minimized (overlay s slot) = false ->
  se_fullscreen_slot s < 0 ->
  let c := overlay s slot in
  let '(s1, entered) := enter_overlay_fullscreen slot a s in
  entered = true /\ se_fullscreen_slot s1 = slot /\ se_native s1 = se_native s /\
  exists b, overlay s1 slot = put_active b (put_minimized false (put_extent (fb_width (se_info s1)) (fb_height (se_info s1))
    (put_position 0 0 (put_fullscreen true false false (put_fs_restore (wc_x c) (wc_y c) (wc_frame_visible c) (wc_maximized c) c))))).
Proof.
  intros H Hv Hp Hc Hf Hm Hs c. unfold enter_overlay_fullscreen. fold c. fold c in Hc, Hf, Hm, Hp. rewrite Hv, Hc, Hf, Hm.
  replace (wc_pid c <=? 0) with false by lia. replace (se_fullscreen_slot s >=? 0) with false by lia. cbn [negb orb].
  set (t := fst (apply_display_mode _ _ a s)). assert (Ht : same s t) by (unfold t; calm).
  assert (En : se_native t = se_native s) by (unfold t, apply_display_mode; repeat case_if; by destruct a).
  assert (Eo : overlay t slot = c) by (unfold t; apply overlay_mode). pose proof (same_ok _ _ Ht H) as Hok. clearbody t.
  set (c' := put_extent _ _ _). set (u := put_fullscreen_slot slot (put_overlay slot c' t)).
  assert (Eu : overlay u slot = c').
  { change (overlay u slot) with (overlay (put_overlay slot c' t) slot). rewrite overlay_put by (done || apply Hok). by rewrite Z.eqb_refl. }
  assert (Hu : windows_ok u).
  { apply (ok_same t); [done|]. apply same_put_fullscreen_slot, same_put_overlay; [reflexivity|by rewrite Eo..]. }
  assert (Su : screen u = (se_info t, se_native t, slot)) by done. destruct (raise_self u slot Hu Hv) as [b Hb]; [by rewrite Eu|].
  assert (Sr : screen (windowd_dirty_rect_add_fullscreen (raise_overlay slot u)) = screen u).
  { etrans; [apply screen_dirty_add|apply screen_raise]. }
  rewrite Su in Sr. unfold screen in Sr. injection Sr as Sr1 Sr2 Sr3. split; [done|]. split; [done|]. split; [by rewrite Sr2|].
  exists b. rewrite Sr1. etrans; [apply (overlay_dirty (mk_rect 0 0 (fb_width (se_info (raise_overlay slot u))) (fb_height (se_info (raise_overlay slot u)))))|].
  by rewrite Hb, Eu.
Qed.

(** A window whose extent is that of its surface and its frame. *)
Definition fits (c : windowd_client) : Prop :=
  wc_width c = fb_width (wc_info c) + (if wc_frame_visible c then WINDOWD_WINDOW_BORDER * 2 else 0) /\
  wc_height c = fb_height (wc_info c) + (if wc_frame_visible c then WINDOWD_WINDOW_TITLEBAR_HEIGHT + WINDOWD_WINDOW_BORDER else 0).

(** What a window in fullscreen keeps of before: its process, its surface, and
    where and how to come back. *)
Definition kept (c : windowd_client) :=
  (wc_pid c, wc_info c, (wc_fs_x c, wc_fs_y c), (wc_fs_frame_visible c, wc_fs_maximized c)).

(** The size of a mode. *)
Definition mode_size (info : fb_info) : Z * Z := (fb_width info, fb_height info).

(** C29. Leaving fullscreen undoes entering it, whatever the compositor answers.
    A live window that can be in fullscreen, is not minimized, and whose extent
    is that of its surface and frame enters it: alone on the screen, without its
    frame.  Leaving from any later session in which it is still the window in
    fullscreen, with the same surface and the place kept for it, puts it back at
    its place with its frame, its size and its maximized state, and no window is
    in fullscreen; and the screen has the size of the native mode if the
    compositor grants that mode, or has not left it. *)
Theorem fullscreen_restores (s : windowd_session) (slot : Z) (granted : option fb_info) (Hr : wm_reachable s)
    (Hv : overlay_slot_valid slot = true) (Hp : wc_pid (overlay s slot) > 0) (Hc : wc_fullscreen_capable (overlay s slot) = true)
    (Hf : wc_fullscreen (overlay s slot) = false) (Hm : wc_minimized (overlay s slot) = false) (Hs : se_fullscreen_slot s < 0)
    (Hfit : fits (overlay s slot)) :
  let '(s1, entered) := enter_overlay_fullscreen slot granted s in
  entered = true /\ se_fullscreen_slot s1 = slot /\ wc_fullscreen (overlay s1 slot) = true /\ wc_frame_visible (overlay s1 slot) = false /\
  forall t answer, session_ok t -> se_fullscreen_slot t = slot -> kept (overlay t slot) = kept (overlay s1 slot) ->
    let s2 := exit_overlay_fullscreen answer t in
    se_fullscreen_slot s2 = -1 /\ wc_fullscreen (overlay s2 slot) = false /\
    wc_maximized (overlay s2 slot) = wc_maximized (overlay s slot) /\
    windowd_client_frame_rect (overlay s2 slot) = windowd_client_frame_rect (overlay s slot) /\
    (fb_width (se_native t) <> 0 -> fb_height (se_native t) <> 0 ->
     mode_size (default (se_info t) answer) = mode_size (se_native t) -> mode_size (se_info s2) = mode_size (se_native t)).
Proof.
  apply reachable_ok in Hr. pose proof (enter_is slot granted s Hr Hv Hp Hc Hf Hm Hs) as E. cbv zeta in E.
  set (c := overlay s slot) in *.
  destruct (enter_overlay_fullscreen slot granted s) as [s1 entered]. destruct E as (-> & E1 & E2 & b & Eo). cbv zeta.
  split; [done|]. split; [done|]. rewrite Eo. split; [done|]. split; [done|]. intros t answer Ht Ets Hk.
  unfold exit_overlay_fullscreen. rewrite Ets, Hv. cbn [negb].
  set (m := fst (apply_display_mode _ _ _ _)).
  assert (Hmode : session_ok m /\ se_fullscreen_slot m = -1 /\
    (fb_width (se_native t) <> 0 -> fb_height (se_native t) <> 0 ->
     mode_size (default (se_info t) answer) = mode_size (se_native t) -> mode_size (se_info m) = mode_size (se_native t))).
  { unfold m, apply_display_mode. cbn [se_native se_info put_fullscreen_slot]. destruct Ht as [? ? ? ?].
    destruct (_ || _) eqn:Ez; [split; [by split|]; split; [done|]; intros; lia|].
    destruct (_ && _) eqn:Es; [split; [by split|]; split; [done|]; intros _ _ _; unfold mode_size; f_equal; cbn; lia|].
    destruct answer as [info|]; cbn [fst default]; (split; [by split|]); by split. }
  clearbody m. destruct Hmode as (M3 & M4 & M5). unfold kept in Hk. cbn in Hk.
  injection Hk as K1 K2 K3 K4 K5 K6.
  match goal with |- context [put_overlay slot ?x m] => set (c2 := x) end.
  assert (Ed : forall k, overlay (windowd_dirty_rect_add_fullscreen (put_overlay slot c2 m)) k = overlay (put_overlay slot c2 m) k).
  { intros k. apply (overlay_dirty (mk_rect 0 0 (fb_width (se_info (put_overlay slot c2 m))) (fb_height (se_info (put_overlay slot c2 m))))). }
  pose proof (screen_dirty_add 0 0 (fb_width (se_info (put_overlay slot c2 m))) (fb_height (se_info (put_overlay slot c2 m))) (put_overlay slot c2 m)) as Sd.
  fold (windowd_dirty_rect_add_fullscreen (put_overlay slot c2 m)) in Sd. unfold screen in Sd. injection Sd as Sd1 _ Sd3.
  rewrite Sd1, Sd3, Ed, overlay_put, Z.eqb_refl by done. split; [done|]. split; [done|]. split; [exact K6|]. split; [|exact M5].
  destruct Hfit as [W1 W2]. unfold windowd_client_frame_rect, windowd_client_surface_rect. cbn. rewrite K1, K2, K3, K4, K5.
  destruct (wc_pid c <=? 0) eqn:Epid; [done|]. destruct (wc_frame_visible c) eqn:Efv; cbn [negb]; rewrite ?W1, ?W2; f_equal; lia.
Qed.
