(* ===== verification/WmExamples.v ===== *)
(** * Sessions step by step

    Sessions of the window manager built by its own steps, on which its
    guarantees are tried, and three that show where the keyboard goes astray. *)

From S2P Require Import Prelude Rect Region Painter Scene Consent Presentation Wm WmInput WmList WmOpen WmScene WmRequests WmCommit WmStack WmFocus WmKeep WmSteps WmLaws WmFrames.

Definition wm_run (actions : list wm_action) (s : windowd_session) : windowd_session := fold_left (fun s a => wm_step a s) actions s.

Lemma reach_run actions s : wm_reachable s -> wm_reachable (wm_run actions s).
Proof. revert s. induction actions as [|a l IH]; intros s H; [done|]. cbn. apply IH. by constructor. Qed.

Definition opened : windowd_session := open_compositor_session sample_info sample_info windowd_consent_init.
Definition surface_ready : surface_setup := mk_setup (mk_header 320 200 false false) [0] true false.

(** A program connects and draws its first frame in a slot. *)
Definition arrives (pid slot : Z) (fullscreen : bool) : list wm_action :=
  [Hello pid (Some [0x61; 0x70; 0x70]) fullscreen (Connected surface_ready); FirstFrame true (Overlay slot)].
Definition desktop_arrives : list wm_action := [HelloShell 7 true 1024 768 (Connected surface_ready); FirstFrame true (Desktop 0)].

Definition plain_env : request_env := mk_env 5 1024 768 (inr surface_ready) (mk_modes None None None) (fun _ => (0, 0)) 0.
(** A program opens a dialog, or a popup. *)
Definition opens (slot role id : Z) : wm_action :=
  WindowRequest (Overlay slot) (Some (mk_clrequest SAVANXP_WM_WINDOW_ACTION_OPEN role (mk_wrequest id 200 100 10 10 0 [0x41]))) plain_env.

Definition press (x y : Z) : wm_action :=
  MouseRead (mk_mouse 0 0 0 1 SAVANXP_MOUSE_FLAG_ABSOLUTE x y) 5 None (mk_pointer x y 0 (-1) 0 0).
Definition key (type code modifiers : Z) (answer : option fb_info) : wm_action := KeyRead (mk_key type code modifiers 0) 5 answer.

(** Two programs, the first with a dialog, the second in front. *)
Definition two_programs : windowd_session :=
  wm_run (desktop_arrives ++ arrives 20 0 false ++ [opens 0 SAVANXP_WM_WINDOW_ROLE_NORMAL 1] ++ arrives 21 2 false) opened.

Lemma two_programs_reachable : wm_reachable two_programs.
Proof. apply reach_run. constructor. Qed.

Lemma order_holds_every_window_witness :
  wm_reachable two_programs /\ stack two_programs = [0; 1; 2] /\ NoDup (stack two_programs).
Proof.
  split; [exact two_programs_reachable|]. split; [vm_compute; reflexivity|].
  exact (proj1 (order_holds_every_window two_programs two_programs_reachable)).
Defined.

Lemma keyboard_on_usable_window_witness :
  keyboard_client two_programs = Some (Overlay 2) /\ overlay_client_disabled two_programs 2 = false.
Proof.
  assert (E : keyboard_client two_programs = Some (Overlay 2)) by (vm_compute; reflexivity). split; [exact E|].
  pose proof (keyboard_on_usable_window two_programs two_programs_reachable) as H. rewrite E in H. exact (proj1 (proj2 (proj2 H))).
Defined.

(** Raising the first program brings its dialog above it, and the keyboard. *)
Lemma raise_is_exact_witness :
  stack (raise_overlay 0 two_programs) = [2; 0; 1] /\ se_active_slot (raise_overlay 0 two_programs) = 1.
Proof.
  assert (Hp : wc_pid (overlay two_programs 0) > 0) by (vm_compute; reflexivity).
  destruct (raise_is_exact two_programs 0 two_programs_reachable eq_refl Hp) as (H1 & _ & H2 & _). cbv zeta in H1, H2.
  rewrite H1, H2. split; vm_compute; reflexivity.
Defined.

Lemma maximize_restores_witness :
  let s := wm_run (arrives 20 0 false) opened in
  settled (layout_display s) (overlay s 0) /\
  windowd_client_frame_rect (overlay (toggle_overlay_client_maximized 0 (toggle_overlay_client_maximized 0 s)) 0) =
    windowd_client_frame_rect (overlay s 0).
Proof.
  intros s. assert (Hr : wm_reachable s) by (apply reach_run; constructor).
  assert (Hs : settled (layout_display s) (overlay s 0)).
  { split; [vm_compute; repeat split; discriminate|vm_compute; reflexivity|vm_compute; split; discriminate|vm_compute; split; discriminate|vm_compute; split; reflexivity|vm_compute; reflexivity]. }
  split; [exact Hs|]. assert (Hp : wc_pid (overlay s 0) > 0) by (vm_compute; reflexivity).
  assert (Hm : wc_maximized (overlay s 0) = false) by (vm_compute; reflexivity).
  exact (proj1 (proj2 (proj2 (maximize_restores s 0 Hr eq_refl Hp Hm Hs)))).
Defined.

(** A fullscreen game in its own mode. *)
Definition game_mode : fb_info := mk_info 640 400 2560 32 1024000.
Definition game : windowd_session := wm_run (arrives 20 0 true) opened.

Lemma fullscreen_restores_witness :
  wc_fullscreen_capable (overlay game 0) = true /\
  windowd_client_frame_rect (overlay (exit_overlay_fullscreen None (fst (enter_overlay_fullscreen 0 (Some game_mode) game))) 0) =
    windowd_client_frame_rect (overlay game 0).
Proof.
  assert (Hr : wm_reachable game) by (apply reach_run; constructor).
  assert (Hp : wc_pid (overlay game 0) > 0) by (vm_compute; reflexivity).
  assert (Hc : wc_fullscreen_capable (overlay game 0) = true) by (vm_compute; reflexivity).
  assert (Hf : wc_fullscreen (overlay game 0) = false) by (vm_compute; reflexivity).
  assert (Hm : wc_minimized (overlay game 0) = false) by (vm_compute; reflexivity).
  assert (Hs : se_fullscreen_slot game < 0) by (vm_compute; reflexivity).
  assert (Hfit : fits (overlay game 0)) by (vm_compute; split; reflexivity).
  split; [exact Hc|].
  pose proof (enter_ok 0 (Some game_mode) game (reachable_ok game Hr)) as Hok.
  pose proof (fullscreen_restores game 0 (Some game_mode) Hr eq_refl Hp Hc Hf Hm Hs Hfit) as H. revert Hok H.
  destruct (enter_overlay_fullscreen 0 (Some game_mode) game) as [s1 b]. cbn [fst]. intros Hok H.
  exact (proj1 (proj2 (proj2 (proj2 (proj2 (proj2 (proj2 (proj2 H))) s1 None (oo_session _ (wk_order _ _ (proj1 Hok))) (proj1 (proj2 H)) eq_refl))))).
Defined.

(** ** Where the keyboard goes astray *)

(** The surface of a window is on the screen. *)
Definition on_screen (s : windowd_session) (p : place) : bool :=
  existsb (fun l => ly_surface_id l =? wc_surface_id (client_of s p)) (windowd_build_scene s SAVANXP_COMPOSITOR_MAX_LAYERS).

(** A program in fullscreen, another behind it, and Alt+Tab to the other. *)
Definition switched_away : windowd_session :=
  wm_run (arrives 20 0 true ++ arrives 21 1 false ++
    [ShellRequest (ShellActivate 20); key SAVANXP_INPUT_EVENT_KEY_DOWN SAVANXP_KEY_F11 0 (Some game_mode);
     key SAVANXP_INPUT_EVENT_KEY_DOWN SAVANXP_KEY_TAB SAVANXP_KEY_MOD_ALT None;
     key SAVANXP_INPUT_EVENT_KEY_UP SAVANXP_KEY_ALT 0 None]) opened.

(** Alt+Tab away from a fullscreen program types into a window that is not
    shown: the switcher raises and focuses the other program's window but does
    not leave fullscreen, so in a session that can happen the keys go to a
    window with no layer in the scene, while the fullscreen program still fills
    the screen and gets none. *)
Theorem alt_tab_types_blind :
  wm_reachable switched_away /\ keyboard_client switched_away = Some (Overlay 1) /\
  on_screen switched_away (Overlay 1) = false /\ on_screen switched_away (Overlay 0) = true /\
  se_fullscreen_slot switched_away = 0 /\ se_switcher_open switched_away = false.
Proof. split; [apply reach_run; constructor|]. vm_compute. repeat split. Qed.

(** A program with a menu open, another that comes and ends. *)
Definition menu_left_on_top : windowd_session :=
  wm_run (arrives 20 0 false ++ [opens 0 SAVANXP_WM_WINDOW_ROLE_POPUP 1] ++ arrives 21 2 false ++
    [Reap (fun pid => pid =? 20) (fun _ => None)]) opened.

(** A popup can get the keyboard: when the window in front ends, the focus
    goes to the highest window that is not minimized, and a menu counts, so in a
    session that can happen the keys go to a popup while its owner, the window
    that had them when the menu opened, is shown and enabled. *)
Theorem popup_takes_keyboard :
  wm_reachable menu_left_on_top /\ keyboard_client menu_left_on_top = Some (Overlay 1) /\
  wc_role (overlay menu_left_on_top 1) = WINDOWD_ROLE_POPUP /\ wc_owner_slot (overlay menu_left_on_top 1) = 0 /\
  overlay_client_visible (overlay menu_left_on_top 0) = true /\ overlay_client_disabled menu_left_on_top 0 = false.
Proof. split; [apply reach_run; constructor|]. vm_compute. repeat split. Qed.

(** The desktop has the keyboard and ends. *)
Definition desktop_gone : windowd_session :=
  wm_run (desktop_arrives ++ arrives 20 0 false ++ [press 5 5; Reap (fun pid => pid =? 20) (fun _ => None)]) opened.

(** When the desktop ends while it has the focus, the keyboard goes nowhere:
    its windows are destroyed without settling the focus again, so in a session
    that can happen no client gets the keys although a window is on the screen. *)
Theorem desktop_end_drops_keyboard :
  wm_reachable desktop_gone /\ keyboard_client desktop_gone = None /\ se_kind desktop_gone = ClientDesktop /\
  on_screen desktop_gone (Overlay 0) = true /\ overlay_client_disabled desktop_gone 0 = false.
Proof. split; [apply reach_run; constructor|]. vm_compute. repeat split. Qed.

(** A program opens a dialog of 200 by 100, which then hints at another size. *)
Definition hinting_dialog : windowd_session :=
  wm_run (arrives 20 0 false ++ [opens 0 SAVANXP_WM_WINDOW_ROLE_NORMAL 1; SizeHint (mk_guarded 2 (120, 50) 2) (Overlay 1)]) opened.

(** The size of the surface of the window in a slot. *)
Definition surface_size (s : windowd_session) (slot : Z) : Z * Z := (fb_width (wc_info (overlay s slot)), fb_height (wc_info (overlay s slot))).

(** A dialog's size can be hinted at, again and again: it is opened with the
    mark of a window whose hint was obeyed, so that it keeps the size it asked
    for, but it is of fixed size, and for those the mark is not looked at. *)
Theorem dialog_follows_hints :
  wm_reachable hinting_dialog /\ hs_applied (wc_hint (overlay (wm_run (arrives 20 0 false ++ [opens 0 SAVANXP_WM_WINDOW_ROLE_NORMAL 1]) opened) 1)) = true /\
  surface_size hinting_dialog 1 = (120, 50) /\
  surface_size (wm_step (SizeHint (mk_guarded 4 (90, 40) 4) (Overlay 1)) hinting_dialog) 1 = (90, 40).
Proof. split; [apply reach_run; constructor|]. vm_compute. repeat split. Qed.
