(* ===== verification/WmListLaws.v ===== *)
(** * What readers of the window list can rely on

    A published list is the live main windows, each with an id that resolves
    back to it; what a reader copies is one published list, whatever is written
    meanwhile. *)

From Stdlib Require Import Sorting.Sorted.
From S2P Require Import Prelude Bytes Rect Region Painter Scene Consent Presentation Wm WmInput WmList WmOpen WmScene WmRequests WmStack WmFocus WmKeep WmSteps WmLaws WmExamples.

(** The windows of the taskbar, by slot. *)
Definition tasks (s : windowd_session) : list Z := List.filter (is_listed s) all_slots.

(** What a list says, its sequence number apart. *)
Definition content (l : savanxp_wm_window_list) : Z * Z * list savanxp_wm_window_entry := (wl_version l, wl_count l, wl_windows l).

Lemma content_with_sequence n l : content (with_sequence n l) = content l.
Proof. by destruct l. Qed.

Lemma last_app_one {A} (l : list A) x d : List.last (l ++ [x]) d = x.
Proof. apply List.last_last. Qed.

Lemma write_steps_cases l staging middle :
  (write_steps l staging middle = [] /\ content staging = content l /\ write_window_list l staging = l) \/
  (write_steps l staging middle =
     with_sequence (u64 (wl_sequence l + 1)) l :: map (with_sequence (u64 (wl_sequence l + 1))) middle ++
     [with_sequence (u64 (wl_sequence l + 1)) staging; write_window_list l staging] /\
   content staging <> content l /\
   write_window_list l staging = with_sequence (u64 (u64 (wl_sequence l + 1) + 1)) staging).
Proof.
  unfold write_window_list, write_steps, window_lists_equal, content. case_bool_decide as E.
  - left. split; [done|]. split; [|done]. rewrite <- E. done.
  - right. split; [done|]. split; [|done]. intros H. apply E. destruct l, staging. unfold with_sequence. cbn in *. congruence.
Qed.

Lemma write_cases l staging :
  (content staging = content l /\ write_window_list l staging = l) \/
  (content staging <> content l /\ write_window_list l staging = with_sequence (u64 (u64 (wl_sequence l + 1) + 1)) staging).
Proof. destruct (write_steps_cases l staging []) as [(_ & ? & ?)|(_ & ? & ?)]; [by left|by right]. Qed.

Lemma write_content l staging : content (write_window_list l staging) = content staging.
Proof. by destruct (write_cases l staging) as [(E & ->)|(_ & ->)]. Qed.

(** Nothing more to write. *)
Lemma write_again l staging : write_window_list (write_window_list l staging) staging = write_window_list l staging.
Proof.
  destruct (write_cases (write_window_list l staging) staging) as [(_ & E)|(E & _)]; [done|]. by rewrite write_content in E.
Qed.

(** ** The staged list *)

Lemma is_listed_valid s k : k ∈ tasks s <-> overlay_slot_valid k = true /\ is_listed s k = true.
Proof. unfold tasks. rewrite list_elem_of_In, List.filter_In, <- list_elem_of_In. by rewrite all_slots_valid. Qed.

Lemma staged_entries_are s : staged_entries s = map (window_entry s) (tasks s).
Proof.
  unfold staged_entries, tasks. rewrite for_z_seqZ. change (seqZ 0 (WINDOWD_MAX_OVERLAY_CLIENTS - 0)) with all_slots.
  assert (H : forall l acc, zlen acc + zlen l <= SAVANXP_WM_MAX_WINDOWS ->
    fold_left (fun entries slot => if (zlen entries <? SAVANXP_WM_MAX_WINDOWS) && is_listed s slot then entries ++ [window_entry s slot] else entries) l acc =
    acc ++ map (window_entry s) (List.filter (is_listed s) l)).
  { induction l as [|k l IH]; intros acc Hl; cbn [fold_left List.filter map]; [by rewrite app_nil_r|]. assert (zlen (k :: l) = 1 + zlen l) by (unfold zlen; cbn [length]; lia).
    pose proof (zlen_nonneg l). replace (zlen acc <? SAVANXP_WM_MAX_WINDOWS) with true by lia. cbn [andb].
    destruct (is_listed s k); rewrite IH.
    - by rewrite <- app_assoc.
    - rewrite zlen_app. change (zlen [window_entry s k]) with 1. lia.
    - done.
    - lia. }
  rewrite H; [done|]. vm_compute. discriminate.
Qed.

Lemma staged_content s :
  content (staged_list s) =
  (SAVANXP_WM_SHELL_PROTOCOL_VERSION, zlen (tasks s),
   map (window_entry s) (tasks s) ++ drop (length (tasks s)) (wl_windows new_list)).
Proof. unfold staged_list, content. cbn [wl_version wl_count wl_windows]. rewrite staged_entries_are. unfold zlen. by rewrite !length_map. Qed.

(** ** Ids *)

(** The id in an entry leads back to its window. *)
Lemma entry_resolves s k : windows_ok s -> (forall j, overlay_slot_valid j = true -> pid_at s j < 2 ^ 32) -> k ∈ tasks s ->
  resolve_window_id s (we_window_id (window_entry s k)) = k.
Proof.
  intros [C _] Hb Hk. apply is_listed_valid in Hk as [Hv Hl]. unfold is_listed in Hl.
  assert (Hid : forall j, overlay_slot_valid j = true -> pid_at s j > 0 -> u32 (pid_at s j) = pid_at s j).
  { intros j Hj Hp. apply u32_id. specialize (Hb j Hj). lia. }
  cbn [window_entry we_window_id]. rewrite Hid by (done || lia). unfold resolve_window_id.
  replace (pid_at s k =? 0) with false by lia. rewrite first_slot_find.
  destruct (List.find _ _) as [j|] eqn:E; cbn.
  - apply List.find_some in E as [Hj E]. apply list_elem_of_In in Hj. change (j ∈ all_slots) in Hj. apply all_slots_valid in Hj.
    symmetry. apply (wk_pid _ _ C); try done; try lia. rewrite Hid in E by (done || lia). lia.
  - assert (Hin : In k (seqZ 0 WINDOWD_MAX_OVERLAY_CLIENTS)) by (apply list_elem_of_In; by apply all_slots_valid).
    pose proof (List.find_none _ _ E k Hin) as Hf. cbv beta zeta in Hf. rewrite Hid in Hf by (done || lia). lia.
Qed.

(** ** Publishing *)

(** A place whose list is written. *)
Definition reads_list (s : windowd_session) (p : place) : Prop :=
  match p with Desktop i => i = 0 | Overlay k => overlay_slot_valid k = true /\ pid_at s k > 0 end.

Lemma no_list_here s p : session_ok s -> reads_list s p ->
  has_list (desktop_window s 0) || existsb (fun slot => (wc_pid (overlay s slot) >? 0) && has_list (overlay s slot)) (seqZ 0 WINDOWD_MAX_OVERLAY_CLIENTS) = false ->
  wc_list (client_of s p) = None.
Proof.
  intros Hs Hp [Hd Ho]%orb_false_elim. destruct p as [i|k]; cbn [client_of].
  - cbn in Hp. subst i. unfold has_list in Hd. by destruct (wc_list _).
  - destruct Hp as [Hv Hp]. apply Bool.not_true_iff_false in Ho. destruct (wc_list (overlay s k)) eqn:E; [|done]. exfalso. apply Ho.
    apply existsb_exists. exists k. split; [apply list_elem_of_In; by apply all_slots_valid|]. unfold has_list. rewrite E. lia.
Qed.

Lemma put_list_same c : put_list (wc_list c) c = c.
Proof. by destruct c. Qed.

(** Every client after a publication. *)
Lemma publish_client s p : session_ok s -> reads_list s p ->
  client_of (publish_window_list s) p = write_client_list (staged_list s) (client_of s p).
Proof.
  intros Hs Hp. unfold publish_window_list. destruct (_ || _) eqn:E; cbn [negb].
  2:{ pose proof (no_list_here s p Hs Hp E) as Hn. unfold write_client_list. rewrite Hn. cbn. rewrite <- Hn. symmetry. apply put_list_same. }
  set (t := put_client (Desktop 0) _ s). assert (Ht : session_ok t).
  { destruct Hs. unfold t. cbn [put_client]. split; [done..|]. cbn [se_desktop put_desktop]. by rewrite zlen_set_at. }
  destruct (each_slot (fun k c => if wc_pid c >? 0 then write_client_list (staged_list s) c else c) t Ht) as (ov & Eo & _ & Hat).
  rewrite (for_z_ext _ _ _ (fun k u => put_overlay k (if wc_pid (overlay u k) >? 0 then write_client_list (staged_list s) (overlay u k) else overlay u k) u)).
  2:{ intros i u _. case_if; [done|]. by rewrite put_overlay_id. }
  rewrite Eo. destruct p as [i|k]; cbn [client_of].
  - cbn in Hp. subst i. unfold desktop_window at 1, t. cbn [put_overlays se_desktop put_client put_desktop]. rewrite at_set_at_eq; [done|].
    destruct Hs as [_ _ _ Hd]. rewrite Hd. done.
  - destruct Hp as [Hv Hp]. unfold overlay at 1. cbn [put_overlays se_overlays]. rewrite Hat, Hv.
    change (overlay t k) with (overlay s k). by replace (pid_at s k >? 0) with true by lia.
Qed.

(** Publishing touches nothing else of the windows. *)
Lemma publish_overlay s k : session_ok s -> exists windows, overlay (publish_window_list s) k = put_list windows (overlay s k).
Proof.
  intros Hs. destruct (decide (overlay_slot_valid k = true /\ pid_at s k > 0)) as [Hk|Hk].
  { exists (fmap (fun l => write_window_list l (staged_list s)) (wc_list (overlay s k))). exact (publish_client s (Overlay k) Hs Hk). }
  exists (wc_list (overlay s k)). rewrite put_list_same. unfold publish_window_list. case_if; [done|]. cbv zeta.
  match goal with |- overlay (for_z _ _ ?f ?t) k = _ => assert (E : forall hi, 0 <= hi <= WINDOWD_MAX_OVERLAY_CLIENTS -> overlay (for_z 0 hi f t) k = overlay s k) end.
  { intros hi Hhi. apply (for_z_ind (fun _ u => overlay u k = overlay s k)); [lia|done|]. intros i u Hi Hu. cbv beta.
    case_if; [|done]. destruct (overlay_put_cases i (write_client_list (staged_list s) (overlay u i)) u k) as [[-> _]| ->]; [|done].
    exfalso. apply Hk. split; [unfold overlay_slot_valid; lia|]. rewrite <- Hu. lia. }
  by apply E.
Qed.

Lemma publish_focus s : se_kind (publish_window_list s) = se_kind s /\ se_active_slot (publish_window_list s) = se_active_slot s.
Proof. apply (sa_focus s), same_publish. reflexivity. Qed.

Lemma publish_staged s : session_ok s -> staged_list (publish_window_list s) = staged_list s.
Proof.
  intros Hs. pose proof (fun k => publish_overlay s k Hs) as Hov. destruct (publish_focus s) as [E1 E2].
  assert (Hl : forall k, is_listed (publish_window_list s) k = is_listed s k).
  { intros k. unfold is_listed. by destruct (Hov k) as [w ->]. }
  assert (Hr : overlay_root_slot (publish_window_list s) (se_active_slot s) = overlay_root_slot s (se_active_slot s)).
  { unfold overlay_root_slot. by destruct (Hov (se_active_slot s)) as [w ->]. }
  assert (He : forall k, window_entry (publish_window_list s) k = window_entry s k).
  { intros k. unfold window_entry. rewrite E1, E2, Hr. by destruct (Hov k) as [w ->]. }
  unfold staged_list. rewrite !staged_entries_are. unfold tasks. rewrite (List.filter_ext _ _ Hl). by rewrite (List.map_ext _ _ He).
Qed.

Lemma publish_session_ok s : session_ok s -> session_ok (publish_window_list s).
Proof.
  intros [H1 H2 H3 H4]. destruct (sa_windows s (publish_window_list s)) as [E1 E2 E3 E4 _]; [apply same_publish; reflexivity|].
  split; congruence.
Qed.

Lemma publish_reads s p : session_ok s -> reads_list s p -> reads_list (publish_window_list s) p.
Proof. intros Hs. destruct p as [i|k]; [done|]. cbn. by destruct (publish_overlay s k Hs) as [w ->]. Qed.

Lemma u64_two x : u64 (u64 (x + 1) + 1) = u64 (x + 2).
Proof. unfold u64. rewrite Zplus_mod_idemp_l. f_equal. lia. Qed.

(** C18. The published list is exact: in every session windowd can be in, after a
    publication each client with a list -- the desktop, or a program that asked
    for one -- reads the live main windows and no dialog, each exactly once
    (in which order is not part of this), under an id that leads back to that
    very window.  The list was left alone when it said so already, else its
    sequence number went up by two; publishing again writes nothing. *)
Theorem window_list_exact (s : windowd_session) (p : place) (l : savanxp_wm_window_list) (Hr : wm_reachable s)
    (Hb : forall k, overlay_slot_valid k = true -> wc_pid (overlay s k) < 2 ^ 32)
    (Hp : reads_list s p) (Hl : wc_list (client_of s p) = Some l) :
  exists l' listed, wc_list (client_of (publish_window_list s) p) = Some l' /\
    NoDup listed /\
    (forall k, k ∈ listed <-> overlay_slot_valid k = true /\ wc_pid (overlay s k) > 0 /\ wc_owner_slot (overlay s k) < 0) /\
    wl_version l' = SAVANXP_WM_SHELL_PROTOCOL_VERSION /\ wl_count l' = zlen listed /\
    take (length listed) (wl_windows l') ≡ₚ map (window_entry s) listed /\
    (forall k, k ∈ listed -> resolve_window_id s (we_window_id (window_entry s k)) = k) /\
    (l' = l \/ content l <> content l' /\ wl_sequence l' = u64 (wl_sequence l + 2)) /\
    wc_list (client_of (publish_window_list (publish_window_list s)) p) = Some l'.
Proof.
  apply reachable_ok in Hr. pose proof (oo_session s (wk_order _ _ (proj1 Hr))) as Hs.
  assert (E : forall t m, session_ok t -> reads_list t p -> wc_list (client_of t p) = Some m ->
    wc_list (client_of (publish_window_list t) p) = Some (write_window_list m (staged_list t))).
  { intros t m Ht Hpt Hm. rewrite publish_client by done. unfold write_client_list. cbn. by rewrite Hm. }
  exists (write_window_list l (staged_list s)), (tasks s). pose proof (E s l Hs Hp Hl) as E1. split; [done|].
  split. { unfold tasks. apply NoDup_ListNoDup, List.NoDup_filter, NoDup_ListNoDup, NoDup_seqZ. }
  split. { intros k. rewrite is_listed_valid. unfold is_listed. lia. }
  pose proof (write_content l (staged_list s)) as Hc. rewrite staged_content in Hc. injection Hc as Hv Hn Hw.
  split; [exact Hv|]. split; [exact Hn|]. split.
  { rewrite Hw. rewrite take_app_le by (rewrite length_map; lia). by rewrite take_ge by (rewrite length_map; lia). }
  split; [intros k; by apply entry_resolves|]. split.
  - destruct (write_cases l (staged_list s)) as [(_ & Ew)|(Hne & Ew)]; rewrite Ew; [by left|]. right. rewrite content_with_sequence. split; [|cbn [with_sequence wl_sequence]; apply u64_two].
    intros H. apply Hne. by rewrite H.
  - rewrite (E _ _ (publish_session_ok s Hs) (publish_reads s p Hs Hp) E1), publish_staged by done. by rewrite write_again.
Qed.

Lemma window_list_exact_witness :
  exists l' listed, wc_list (client_of (publish_window_list two_programs) (Desktop 0)) = Some l' /\
    take (length listed) (wl_windows l') ≡ₚ map (window_entry two_programs) listed /\ (0 ∈ listed /\ 2 ∈ listed /\ 1 ∉ listed).
Proof.
  assert (Hb : forall k, overlay_slot_valid k = true -> wc_pid (overlay two_programs k) < 2 ^ 32).
  { assert (Hf : forallb (fun k => wc_pid (overlay two_programs k) <? 2 ^ 32) all_slots = true) by (vm_compute; reflexivity).
    intros k Hk. rewrite List.forallb_forall in Hf. apply Z.ltb_lt, Hf, list_elem_of_In. by apply all_slots_valid. }
  assert (Hl : wc_list (client_of two_programs (Desktop 0)) = Some new_list) by (vm_compute; reflexivity).
  destruct (window_list_exact two_programs (Desktop 0) new_list two_programs_reachable Hb eq_refl Hl)
    as (l' & listed & H1 & _ & H2 & _ & _ & H3 & _).
  exists l', listed. split; [exact H1|]. split; [exact H3|].
  assert (Hk : forall s k, overlay_slot_valid k && is_listed s k = true <->
    overlay_slot_valid k = true /\ wc_pid (overlay s k) > 0 /\ wc_owner_slot (overlay s k) < 0) by (intros; unfold is_listed; lia).
  assert (E0 : overlay_slot_valid 0 && is_listed two_programs 0 = true) by (vm_compute; reflexivity).
  assert (E1 : overlay_slot_valid 1 && is_listed two_programs 1 = false) by (vm_compute; reflexivity).
  assert (E2 : overlay_slot_valid 2 && is_listed two_programs 2 = true) by (vm_compute; reflexivity).
  split; [exact (proj2 (H2 0) (proj1 (Hk two_programs 0) E0))|]. split; [exact (proj2 (H2 2) (proj1 (Hk two_programs 2) E2))|].
  intros H. pose proof (proj2 (Hk two_programs 1) (proj1 (H2 1) H)) as E. rewrite E1 in E. discriminate E.
Defined.

(** ** Reading while it is written

    windowd publishes [pubs] one after the other: each a staged list, with what
    the memory holds in the middle of writing it. *)

Abbreviation publication := (prod savanxp_wm_window_list (list savanxp_wm_window_list)).

Definition published (l : savanxp_wm_window_list) (pubs : list publication) : savanxp_wm_window_list :=
  fold_left (fun l pub => write_window_list l pub.1) pubs l.

(** Every store of the publications. *)
Fixpoint stores (l : savanxp_wm_window_list) (pubs : list publication) : list savanxp_wm_window_list :=
  match pubs with
  | [] => []
  | pub :: pubs => write_steps l pub.1 pub.2 ++ stores (write_window_list l pub.1) pubs
  end.

(** The list in memory after some number of stores. *)
Definition memory_of (l : savanxp_wm_window_list) (pubs : list publication) (time : nat) : savanxp_wm_window_list :=
  nth time (l :: stores l pubs) (published l pubs).

(** The loads of an attempt fall between its two loads of the number. *)
Definition in_order (a : attempt) : Prop :=
  forall i, (at_before a <= at_byte a i <= at_after a)%nat.

(** The same stores, each with how far the number has gone. *)
Fixpoint tagged (g : Z) (l : savanxp_wm_window_list) (pubs : list publication) : list (Z * savanxp_wm_window_list) :=
  match pubs with
  | [] => []
  | pub :: pubs =>
      match write_steps l pub.1 pub.2 with
      | [] => tagged g l pubs
      | steps => map (pair (g + 1)) (removelast steps) ++
                 (g + 2, write_window_list l pub.1) :: tagged (g + 2) (write_window_list l pub.1) pubs
      end
  end.

Lemma u64_plus x a b : u64 (u64 (x + a) + b) = u64 (x + (a + b)).
Proof. unfold u64. rewrite Zplus_mod_idemp_l. f_equal. lia. Qed.

Lemma zlen_push {A} (x : A) l : zlen (x :: l) = 1 + zlen l.
Proof. unfold zlen. cbn [length]. lia. Qed.

(** What holds of every store. *)
Definition tag_ok (q g0 : Z) (l : savanxp_wm_window_list) (pubs : list publication) (x : Z * savanxp_wm_window_list) : Prop :=
  g0 < x.1 <= g0 + 2 * zlen pubs /\ wl_sequence x.2 = u64 (q + x.1) /\
  (Z.even x.1 = true -> exists n, x.2 = published l (take n pubs)).

Lemma tag_ok_cons q g0 l pub pubs x : 
  tag_ok q g0 (write_window_list l pub.1) pubs x -> tag_ok q g0 l (pub :: pubs) x.
Proof.
  intros (H1 & H2 & H3). pose proof (zlen_push pub pubs).
  split; [lia|]. split; [done|]. intros He. destruct (H3 He) as [n Hn]. by exists (S n).
Qed.

Lemma tag_ok_later q g0 l pub pubs x :
  tag_ok q (g0 + 2) (write_window_list l pub.1) pubs x -> tag_ok q g0 l (pub :: pubs) x.
Proof.
  intros (H1 & H2 & H3). pose proof (zlen_push pub pubs).
  split; [lia|]. split; [done|]. intros He. destruct (H3 He) as [n Hn]. by exists (S n).
Qed.

(** The stores of one publication that writes. *)
Lemma steps_split l pub : 
  (write_steps l pub.1 pub.2 = [] /\ write_window_list l pub.1 = l) \/
  exists middle, write_steps l pub.1 pub.2 = middle ++ [write_window_list l pub.1] /\ middle <> [] /\
    Forall (fun m => wl_sequence m = u64 (wl_sequence l + 1)) middle /\
    wl_sequence (write_window_list l pub.1) = u64 (wl_sequence l + 2).
Proof.
  destruct (write_steps_cases l pub.1 pub.2) as [(E & _ & W)|(E & _ & W)]; [by left|]. right. rewrite E.
  exists (with_sequence (u64 (wl_sequence l + 1)) l :: map (with_sequence (u64 (wl_sequence l + 1))) pub.2 ++
     [with_sequence (u64 (wl_sequence l + 1)) pub.1]).
  split; [cbn [app]; by rewrite <- app_assoc|]. split; [done|]. split.
  - constructor; [done|]. apply Forall_app. split; [|by repeat constructor]. apply Forall_forall.
    intros m (n & -> & _)%list_elem_of_fmap. done.
  - rewrite W. cbn [with_sequence wl_sequence]. apply u64_two.
Qed.

Lemma tagged_cons g l pub pubs :
  (write_window_list l pub.1 = l /\ tagged g l (pub :: pubs) = tagged g (write_window_list l pub.1) pubs /\
   stores l (pub :: pubs) = stores (write_window_list l pub.1) pubs) \/
  exists middle, Forall (fun m => wl_sequence m = u64 (wl_sequence l + 1)) middle /\
    wl_sequence (write_window_list l pub.1) = u64 (wl_sequence l + 2) /\
    tagged g l (pub :: pubs) = map (pair (g + 1)) middle ++ (g + 2, write_window_list l pub.1) :: tagged (g + 2) (write_window_list l pub.1) pubs /\
    stores l (pub :: pubs) = middle ++ write_window_list l pub.1 :: stores (write_window_list l pub.1) pubs.
Proof.
  cbn [tagged stores]. destruct (steps_split l pub) as [[E W]|(middle & E & Hne & Hm & Hs)]; rewrite E.
  - left. by rewrite W.
  - right. exists middle. split; [done|]. split; [done|]. split.
    + destruct (middle ++ _) as [|x t] eqn:En; [by destruct middle|]. rewrite <- En. by rewrite removelast_last.
    + by rewrite <- app_assoc.
Qed.

Lemma tagged_stores pubs : forall g l, map snd (tagged g l pubs) = stores l pubs.
Proof.
  induction pubs as [|pub pubs IH]; intros g l; [done|].
  destruct (tagged_cons g l pub pubs) as [(_ & -> & ->)|(middle & _ & _ & -> & ->)]; [apply IH|].
  rewrite map_app, map_map. cbn [map snd]. rewrite map_id, IH. done.
Qed.

Lemma tagged_ok q pubs : forall g l, Z.even g = true -> wl_sequence l = u64 (q + g) -> Forall (tag_ok q g l pubs) (tagged g l pubs).
Proof.
  induction pubs as [|pub pubs IH]; intros g l He Hl; [constructor|].
  pose proof (zlen_push pub pubs). pose proof (zlen_nonneg pubs).
  destruct (tagged_cons g l pub pubs) as [(W & -> & _)|(middle & Hm & Hs & -> & _)].
  - eapply Forall_impl; [apply IH; [done|by rewrite W]|]. intros x. apply tag_ok_cons.
  - rewrite Hl, u64_plus in Hs. apply Forall_app. split; [|constructor].
    + apply Forall_map. eapply Forall_impl; [exact Hm|]. intros m Hq. cbn [fst snd] in *. rewrite Hl, u64_plus in Hq.
      split; [cbn; lia|]. split; [done|]. cbn [fst]. rewrite Z.even_add, He. done.
    + split; [cbn; lia|]. split; [done|]. intros _. by exists 1%nat.
    + eapply Forall_impl; [apply IH; [by rewrite Z.even_add, He|done]|]. intros x. apply tag_ok_later.
Qed.

(** The number never goes back, and an even one is never met twice. *)
Definition before (x y : Z * savanxp_wm_window_list) : Prop := x.1 <= y.1 /\ (Z.even x.1 = true -> x.1 < y.1).

Lemma tagged_above pubs : forall g l, Forall (fun x => g < x.1) (tagged g l pubs).
Proof.
  induction pubs as [|pub pubs IH]; intros g l; [constructor|].
  destruct (tagged_cons g l pub pubs) as [(_ & -> & _)|(middle & _ & _ & -> & _)]; [apply IH|].
  apply Forall_app. split; [apply Forall_map, Forall_true; intros; cbn; lia|]. constructor; [cbn; lia|].
  eapply Forall_impl; [apply IH|]. intros x. cbn. lia.
Qed.

Lemma tagged_sorted pubs : forall g l, Z.even g = true -> StronglySorted before (tagged g l pubs).
Proof.
  induction pubs as [|pub pubs IH]; intros g l He; [constructor|].
  destruct (tagged_cons g l pub pubs) as [(_ & -> & _)|(middle & _ & _ & -> & _)]; [by apply IH|].
  assert (He2 : Z.even (g + 2) = true) by (by rewrite Z.even_add, He).
  assert (Hgt : forall l', Forall (fun x => g + 2 < x.1) (tagged (g + 2) l' pubs)) by (intros; apply tagged_above).
  assert (Ht : StronglySorted before ((g + 2, write_window_list l pub.1) :: tagged (g + 2) (write_window_list l pub.1) pubs)).
  { constructor; [by apply IH|]. eapply Forall_impl; [apply Hgt|]. intros x Hx. unfold before. cbn [fst] in *. lia. }
  induction middle as [|m middle IHm]; [exact Ht|]. cbn [map app]. constructor; [exact IHm|].
  apply Forall_app. split; [|constructor].
  - apply Forall_map, Forall_true. intros x. unfold before. cbn [fst]. rewrite Z.even_add, He. split; [lia|done].
  - unfold before. cbn [fst]. lia.
  - eapply Forall_impl; [apply Hgt|]. intros x Hx. unfold before. cbn [fst] in *. lia.
Qed.

Lemma sorted_apart (h : list (Z * savanxp_wm_window_list)) : StronglySorted before h -> forall i j x y,
  (i < j)%nat -> h !! i = Some x -> h !! j = Some y -> before x y.
Proof.
  induction 1 as [|a h Hs IH Ha]; intros i j x y Hij Hx Hy; [done|]. destruct j as [|j]; [lia|]. cbn in Hy.
  destruct i as [|i]; cbn in Hx; [|apply (IH i j); (done || lia)]. simplify_eq. rewrite Forall_lookup in Ha. by apply (Ha j).
Qed.

Lemma last_cons_default {A} (t : list A) : forall x d, List.last (x :: t) d = List.last t x.
Proof. induction t as [|y t IH]; intros x d; [done|]. change (List.last (y :: t) d = List.last (y :: t) x). by rewrite !IH. Qed.

Lemma last_behind {A} (k : list A) x t d : List.last (k ++ x :: t) d = List.last t x.
Proof.
  induction k as [|y k IH]; [apply last_cons_default|]. cbn [app]. rewrite <- IH, last_cons_default. by destruct k; cbn [app]; rewrite !last_cons_default.
Qed.

Lemma last_store l pubs : List.last (stores l pubs) l = published l pubs.
Proof.
  revert l. induction pubs as [|pub pubs IH]; intros l; [done|]. unfold published. cbn [fold_left]. fold (published (write_window_list l pub.1) pubs).
  rewrite <- IH. destruct (tagged_cons 0 l pub pubs) as [(W & _ & ->)|(middle & _ & _ & _ & ->)]; [by rewrite W|].
  apply last_behind.
Qed.

(** The memory at any time is one of the stores. *)
Lemma memory_tagged l pubs time : exists i x,
  ((0, l) :: tagged 0 l pubs) !! i = Some x /\ x.2 = memory_of l pubs time /\
  i = Nat.min time (length (stores l pubs)).
Proof.
  pose proof (tagged_stores pubs 0 l) as E. unfold memory_of. rewrite <- (last_store l pubs), <- E, length_map.
  generalize (tagged 0 l pubs). intros h. clear E. destruct (Nat.le_gt_cases time (length h)) as [Hlt|Hge]; swap 1 2.
  - assert (Hl : exists x, ((0, l) :: h) !! length h = Some x) by (apply lookup_lt_is_Some; cbn; lia).
    destruct Hl as [x Hx]. exists (length h), x. split; [done|]. split; [|lia].
    assert (Hlast : x.2 = List.last (map snd h) l).
    { clear Hge time. assert (Hx' : last ((0, l) :: h) = Some x) by (rewrite last_lookup; cbn; done).
      destruct h as [|y h] using rev_ind; [cbn in Hx; by simplify_eq|].
      rewrite app_comm_cons, last_snoc in Hx'. simplify_eq. rewrite map_app. cbn [map]. by rewrite List.last_last. }
    rewrite Hlast. by rewrite nth_overflow by (cbn [length]; rewrite length_map; lia).
  - assert (Hl : exists x, ((0, l) :: h) !! time = Some x) by (apply lookup_lt_is_Some; cbn; lia).
    destruct Hl as [x Hx]. exists time, x. split; [done|]. split; [|lia].
    destruct time as [|time]; [cbn in Hx; by simplify_eq|]. change (h !! time = Some x) in Hx. cbn [nth].
    rewrite <- (nth_lookup_Some (map snd h) time (List.last (map snd h) l) x.2); [done|]. change (map snd h) with (snd <$> h). by rewrite list_lookup_fmap, Hx.
Qed.

(** Two moments with the same even number: nothing was stored in between. *)
Lemma memory_still l pubs t1 t2 :
  0 <= wl_sequence l < 2 ^ 64 -> Z.even (wl_sequence l) = true -> zlen pubs < 2 ^ 63 -> (t1 <= t2)%nat ->
  Z.odd (wl_sequence (memory_of l pubs t1)) = false -> wl_sequence (memory_of l pubs t2) = wl_sequence (memory_of l pubs t1) ->
  (exists n, memory_of l pubs t1 = published l (take n pubs)) /\
  forall t, (t1 <= t <= t2)%nat -> memory_of l pubs t = memory_of l pubs t1.
Proof.
  intros Hr He Hn Hle Hodd Hsame. pose proof (zlen_nonneg pubs) as Hpos.
  set (h := (0, l) :: tagged 0 l pubs).
  assert (Hl : wl_sequence l = u64 (wl_sequence l + 0)) by (rewrite Z.add_0_r, u64_id; done).
  assert (Hall : forall i x, h !! i = Some x -> 0 <= x.1 <= 2 * zlen pubs /\ wl_sequence x.2 = u64 (wl_sequence l + x.1) /\
            (Z.even x.1 = true -> exists n, x.2 = published l (take n pubs))).
  { intros [|i] x Hx; cbn in Hx; [simplify_eq; cbn [fst snd]; split; [lia|]; split; [done|]; by exists 0%nat|].
    pose proof (tagged_ok (wl_sequence l) pubs 0 l eq_refl Hl) as Hf. rewrite Forall_lookup in Hf.
    destruct (Hf i x Hx) as (A & B & C). split; [lia|done]. }
  assert (Hso : StronglySorted before h).
  { constructor; [by apply tagged_sorted|]. eapply Forall_impl; [apply tagged_above|]. intros x Hx. unfold before. cbn [fst] in *. lia. }
  destruct (memory_tagged l pubs t1) as (i1 & x1 & Hi1 & E1 & J1). destruct (memory_tagged l pubs t2) as (i2 & x2 & Hi2 & E2 & J2).
  fold h in Hi1, Hi2. destruct (Hall i1 x1 Hi1) as (R1 & S1 & P1). destruct (Hall i2 x2 Hi2) as (R2 & S2 & _).
  rewrite <- E1, <- E2 in *. assert (Hx1 : Z.even x1.1 = true).
  { rewrite <- Z.negb_odd in *. apply negb_true_iff. rewrite S1 in Hodd. clear - Hodd He.
    unfold u64 in Hodd. rewrite Zodd_mod in *. Z.div_mod_to_equations. lia. }
  assert (Hg : x1.1 = x2.1). { rewrite S1, S2 in Hsame. clear - Hsame R1 R2 Hn. unfold u64 in Hsame. Z.div_mod_to_equations. lia. }
  split; [by apply P1|]. assert (i1 = i2) as Hi.
  { destruct (Nat.lt_trichotomy i1 i2) as [Hlt|[?|?]]; [|done|lia].
    destruct (sorted_apart h Hso i1 i2 x1 x2 Hlt Hi1 Hi2) as [_ Hb]. specialize (Hb Hx1). lia. }
  intros t Ht. destruct (memory_tagged l pubs t) as (i & x & Hx & E & J). fold h in Hx. rewrite <- E.
  assert (i = i1) as -> by lia. congruence.
Qed.

#[local] Opaque LIST_SIZE.

(** The arrays of a list are as long as the structure says. *)
Definition list_shape (l : savanxp_wm_window_list) : Prop :=
  length (wl_windows l) = 12%nat /\
  Forall (fun e => length (we_title e) = 64%nat /\ length (we_icon_pixels e) = 256%nat) (wl_windows l).

Lemma length_concat_same {A B} (f : A -> list B) n (l : list A) :
  Forall (fun x => length (f x) = n) l -> length (concat (map f l)) = (n * length l)%nat.
Proof. induction 1 as [|x l Hx _ IH]; cbn [map concat length]; [lia|]. rewrite length_app, Hx, IH. lia. Qed.

Lemma list_size_eq : (4 + (4 + (8 + 1104 * 12)))%nat = LIST_SIZE.
Proof. apply Nat2Z.inj. vm_compute. reflexivity. Qed.

Lemma list_bytes_length l : list_shape l -> length (list_bytes l) = LIST_SIZE.
Proof.
  intros [Hn Hf]. unfold list_bytes. rewrite !length_app, !le_length.
  rewrite (length_concat_same entry_bytes 1104); [rewrite Hn; exact list_size_eq|].
  eapply Forall_impl; [exact Hf|]. intros e [Ht Hp]. unfold entry_bytes. rewrite !length_app, !le_length, Ht.
  rewrite (length_concat_same (le 4) 4); [rewrite Hp; reflexivity|]. apply Forall_true. intros. apply le_length.
Qed.

Lemma published_shape l pubs : list_shape l -> Forall (fun pub => list_shape pub.1) pubs -> list_shape (published l pubs).
Proof.
  intros Hl Hp. revert l Hl. induction Hp as [|pub pubs H _ IH]; intros l Hl; [done|]. cbn. apply IH.
  destruct (write_cases l pub.1) as [[_ ->]|[_ ->]]; done.
Qed.

(** Every load of the copy from the same list. *)
Lemma copy_of m (f : nat -> savanxp_wm_window_list) :
  list_shape m -> (forall i, f i = m) -> map (fun i => nth i (list_bytes (f i)) 0) (seq 0 LIST_SIZE) = list_bytes m.
Proof.
  intros Hm Hf. rewrite <- (list_bytes_length m Hm). rewrite (List.map_ext _ (fun i => nth i (list_bytes m) 0)) by (intros i; by rewrite Hf).
  generalize (list_bytes m). clear. intros b. apply list_eq. intros i. change (map ?f ?l) with (f <$> l). rewrite list_lookup_fmap.
  destruct (Nat.lt_ge_cases i (length b)) as [Hi|Hi].
  - rewrite lookup_seq_lt by done. cbn [fmap option_fmap option_map]. symmetry. destruct (lookup_lt_is_Some_2 b i Hi) as [x Hx].
    rewrite Hx. f_equal. symmetry. by apply nth_lookup_Some.
  - rewrite lookup_seq_ge by done. symmetry. by apply lookup_ge_None.
Qed.

(** What an attempt that is accepted saw, and when one is. *)
Lemma read_attempts_some memory sched out : read_attempts memory sched = Some out ->
  exists a, a ∈ sched /\ Z.odd (wl_sequence (memory (at_before a))) = false /\
    wl_sequence (memory (at_after a)) = wl_sequence (memory (at_before a)) /\
    out = map (fun i => nth i (list_bytes (memory (at_byte a i))) 0) (seq 0 LIST_SIZE).
Proof.
  induction sched as [|a sched IH]; [done|]. cbn [read_attempts]. intros H.
  destruct (Z.odd _) eqn:Eo in H; [destruct (IH H) as (b & Hb & K); exists b; split; [by right|done]|].
  destruct (_ =? _) eqn:Es in H; [|destruct (IH H) as (b & Hb & K); exists b; split; [by right|done]].
  exists a. split; [by left|]. split; [done|]. split; [lia|]. congruence.
Qed.

Lemma read_attempts_returns memory sched a : a ∈ sched -> Z.odd (wl_sequence (memory (at_before a))) = false ->
  wl_sequence (memory (at_after a)) = wl_sequence (memory (at_before a)) -> read_attempts memory sched <> None.
Proof.
  intros Ha Ho Hs. induction sched as [|b sched IH]; [by apply elem_of_nil in Ha|]. cbn [read_attempts].
  apply elem_of_cons in Ha as [E|Ha]; [rewrite <- E, Ho, Hs, Z.eqb_refl; discriminate|].
  destruct (Z.odd (wl_sequence (memory (at_before b)))); [exact (IH Ha)|]. destruct (_ =? _); [discriminate|exact (IH Ha)].
Qed.

Lemma scheduled n (schedule : nat -> attempt) a : a ∈ map schedule (seq 0 n) <-> exists k, (k < n)%nat /\ a = schedule k.
Proof.
  rewrite list_elem_of_fmap. split.
  - intros (k & -> & Hk%elem_of_seq). exists k. split; [lia|done].
  - intros (k & Hk & ->). exists k. split; [done|]. apply elem_of_seq. lia.
Qed.

(** C19. A reader takes no list half written, however often windowd publishes
    meanwhile.  Over any number of successive publications (fewer than 2^63, so
    that the sequence number does not come round), with the stores between two
    updates of the number of any size and in any order, and with the reader's
    loads, byte by byte, at any moments: what [sxnwm_task_list_read] and the
    taskbar's [taskbar_snapshot] return is, byte for byte, one of the published
    lists, the one in memory when the attempt began; and an attempt during which
    nothing is stored succeeds.  The two updates of the number are taken to reach
    memory before and after the stores between them, as they are written. *)
Theorem window_list_seqlock (l : savanxp_wm_window_list) (pubs : list publication) (schedule : nat -> attempt)
    (Hrange : 0 <= wl_sequence l < 2 ^ 64) (Heven : Z.even (wl_sequence l) = true) (Hn : zlen pubs < 2 ^ 63)
    (Hl : list_shape l) (Hpubs : Forall (fun pub => list_shape pub.1) pubs) (Ho : forall k, in_order (schedule k)) :
  let memory := memory_of l pubs in
  (forall out, sxnwm_task_list_read memory schedule = Some out -> exists k n, (k < 64)%nat /\
     memory (at_before (schedule k)) = published l (take n pubs) /\ out = bound_count (list_bytes (published l (take n pubs)))) /\
  (forall out, taskbar_snapshot memory schedule = Some out -> exists k n, (k < 8)%nat /\
     memory (at_before (schedule k)) = published l (take n pubs) /\ out = list_bytes (published l (take n pubs))) /\
  (forall k, (k < 8)%nat -> Z.even (wl_sequence (memory (at_before (schedule k)))) = true ->
     memory (at_after (schedule k)) = memory (at_before (schedule k)) ->
     sxnwm_task_list_read memory schedule <> None /\ taskbar_snapshot memory schedule <> None).
Proof.
  intros memory.
  assert (Hread : forall n out, read_attempts memory (map schedule (seq 0 n)) = Some out -> exists k m, (k < n)%nat /\
     memory (at_before (schedule k)) = published l (take m pubs) /\ out = list_bytes (published l (take m pubs))).
  { intros n out (a & (k & Hk & ->)%scheduled & Hodd & Hsame & ->)%read_attempts_some.
    destruct (memory_still l pubs _ _ Hrange Heven Hn (Nat.le_trans _ _ _ (proj1 (Ho k 0%nat)) (proj2 (Ho k 0%nat))) Hodd Hsame)
      as [[m Hm] Hstill]. fold memory in Hm. exists k, m. split; [done|]. split; [done|]. apply copy_of.
    - apply published_shape; [done|]. by apply Forall_take.
    - intros i. rewrite <- Hm. apply Hstill, Ho. }
  split_and!.
  - intros out. unfold sxnwm_task_list_read. destruct (read_attempts _ _) as [b|] eqn:E; intros [= <-].
    destruct (Hread 64%nat b E) as (k & m & Hk & Hm & ->). by exists k, m.
  - intros out H. by apply (Hread 8%nat).
  - intros k Hk Hev Hst. assert (Hnodd : Z.odd (wl_sequence (memory (at_before (schedule k)))) = false)
      by (by rewrite <- Z.negb_even, Hev).
    assert (Hr : forall n, (8 <= n)%nat -> read_attempts memory (map schedule (seq 0 n)) <> None).
    { intros n Hn'. apply (read_attempts_returns memory _ (schedule k)); [apply scheduled; exists k; split; [lia|done]|done|by rewrite Hst]. }
    split; [|apply (Hr 8%nat); lia]. unfold sxnwm_task_list_read. pose proof (Hr 64%nat ltac:(lia)).
    by destruct (read_attempts _ _).
Qed.

(** Two publications of the desktop's list, the second of an empty one, and a
    reader whose first attempt starts before them and ends after, and whose
    second falls in the middle of the second write. *)
Definition half_written (l staging : savanxp_wm_window_list) : list savanxp_wm_window_list :=
  [mk_list (wl_version l) (wl_count l) 0 (take 1 (wl_windows staging) ++ drop 1 (wl_windows l))].
Definition two_publications : list publication :=
  let staging := staged_list two_programs in [(staging, half_written new_list staging); (new_list, half_written staging new_list)].
Definition late_reader (k : nat) : attempt :=
  match k with
  | O => mk_attempt 0 (fun i => if (i <? 700)%nat then 0 else 7)%nat 7
  | 1%nat => mk_attempt 6 (fun _ => 7)%nat 8
  | _ => mk_attempt 8 (fun _ => 8)%nat 9
  end.

Definition shape_b (l : savanxp_wm_window_list) : bool :=
  (length (wl_windows l) =? 12)%nat &&
  forallb (fun e => (length (we_title e) =? 64)%nat && (length (we_icon_pixels e) =? 256)%nat) (wl_windows l).
Lemma shape_b_spec l : shape_b l = true -> list_shape l.
Proof.
  unfold shape_b. intros [H1 H2]%andb_true_iff. split; [by apply Nat.eqb_eq|]. apply List.Forall_forall. intros e He.
  rewrite List.forallb_forall in H2. specialize (H2 e He). apply andb_true_iff in H2 as [? ?]. by split; apply Nat.eqb_eq.
Qed.

Lemma window_list_seqlock_witness :
  let memory := memory_of new_list two_publications in
  map (fun t => wl_sequence (memory t)) (seq 0 10) = [0; 1; 1; 1; 2; 3; 3; 3; 4; 4] /\
  taskbar_snapshot memory late_reader <> None /\
  forall out, taskbar_snapshot memory late_reader = Some out -> exists k n, (k < 8)%nat /\
     memory (at_before (late_reader k)) = published new_list (take n two_publications) /\
     out = list_bytes (published new_list (take n two_publications)).
Proof.
  intros memory. split; [vm_compute; reflexivity|].
  assert (Hr : 0 <= wl_sequence new_list < 2 ^ 64) by (split; [discriminate|reflexivity]).
  assert (He : Z.even (wl_sequence new_list) = true) by reflexivity.
  assert (Hs : forallb shape_b [new_list; staged_list two_programs] = true) by (vm_compute; reflexivity).
  assert (Hf : Forall list_shape [new_list; staged_list two_programs]).
  { apply List.Forall_forall. intros l Hl. apply shape_b_spec. rewrite List.forallb_forall in Hs. exact (Hs l Hl). }
  assert (Ho : forall k, in_order (late_reader k)).
  { intros [|[|k]] i; unfold late_reader; cbn [at_before at_byte at_after]; [destruct (i <? 700)%nat|..]; lia. }
  assert (Hp : Forall (fun pub => list_shape pub.1) two_publications).
  { pose proof (List.Forall_inv Hf) as A. pose proof (List.Forall_inv (List.Forall_inv_tail Hf)) as B. revert A B.
    unfold two_publications. generalize new_list (staged_list two_programs). intros x y A B. cbn zeta.
    apply List.Forall_cons; [exact B|]. apply List.Forall_cons; [exact A|]. apply List.Forall_nil. }
  assert (Hn : zlen two_publications < 2 ^ 63) by reflexivity.
  destruct (window_list_seqlock new_list two_publications late_reader Hr He Hn (List.Forall_inv Hf) Hp Ho) as (_ & H2 & H3).
  split; [|exact H2]. apply (H3 2%nat); [lia|vm_compute; reflexivity|vm_compute; reflexivity].
Defined.
