(* ===== verification/WmHandover.v ===== *)
(** * From the window manager to the screen

    windowd's commit and compositord's put together: the scene windowd writes
    into the section they share is the scene compositord composes from, with
    every layer and every pixel windowd repainted.  And the processes windowd
    ended: each is waited for once it is gone. *)

From S2P Require Import Prelude Rect Region RegionFacts RegionLaws Painter Scene SceneFacts WmClient SceneFrames SceneRun SceneLaws SceneStage Consent Presentation Wm WmInput WmList WmOpen WmScene WmRequests WmCommit WmStack WmFocus WmKeep WmSteps WmLaws WmExamples.

(** ** The damage *)

Lemma damage_rects_are r : damage_rects r = band_rects (rg_bands r).
Proof.
  unfold damage_rects. rewrite rect_count_length. set (l := band_rects (rg_bands r)).
  assert (Hat : forall i, 0 <= i -> sx_region_rect_at r i = l !! Z.to_nat i).
  { intros i Hi. unfold sx_region_rect_at. rewrite rect_at_from_lookup by lia. f_equal. lia. }
  pose proof (for_z_ind (fun i acc => acc = take (Z.to_nat i) l) 0 (zlen l)
    (fun index acc => match sx_region_rect_at r index with Some q => acc ++ [q] | None => acc end) []) as H.
  rewrite H; [apply take_ge; unfold zlen; lia|apply zlen_nonneg|done|].
  intros i acc Hi ->. rewrite Hat by lia. destruct (lookup_lt_is_Some_2 l (Z.to_nat i)) as [q Hq]; [unfold zlen in Hi; lia|].
  rewrite Hq. replace (Z.to_nat (i + 1)) with (S (Z.to_nat i)) by lia. symmetry. by apply take_S_r.
Qed.

(** A loop that asks whether some cell of an array passes a test. *)
Lemma for_z_some (p : Z -> bool) n : 0 <= n -> for_z 0 n (fun i b => p i || b) false = true <-> exists i, 0 <= i < n /\ p i = true.
Proof.
  intros Hn. apply (for_z_ind (fun k b => b = true <-> exists i, 0 <= i < k /\ p i = true)); [done| |].
  - split; [done|]. intros (i & ? & _). lia.
  - intros k b Hk IH. rewrite orb_true_iff, IH. split.
    + intros [H|(i & Hi & H)]; [exists k|exists i]; (split; [lia|done]).
    + intros (i & Hi & H). destruct (decide (i = k)) as [->|]; [by left|]. right. exists i. split; [lia|done].
Qed.

(** What compositord stages of windowd's surface: everything marked dirty, and
    nothing else when the rectangles fit. *)
Lemma committed_covers s px py before display x y :
  let sc := committed_scene s px py before in
  (in_region (se_dirty s) x y -> in_rect display x y -> repaint_covers sc display x y = true) /\
  (sx_region_rect_count (se_dirty s) <= SAVANXP_COMPOSITOR_MAX_DAMAGE -> repaint_covers sc display x y = true -> in_region (se_dirty s) x y).
Proof.
  intros sc. unfold repaint_covers, sc, committed_scene. cbn [sc_flags sc_damage_count sc_damage].
  destruct (sx_region_rect_count (se_dirty s) >? SAVANXP_COMPOSITOR_MAX_DAMAGE) eqn:Ef.
  { change (has_flag _ _) with true. cbn [orb]. split; [|lia]. intros _ H. by apply contains_point_iff. }
  change (has_flag 0 SAVANXP_COMPOSITOR_SCENE_FULL_DAMAGE) with false. rewrite damage_rects_are, <- rect_count_length. rewrite Ef. cbn [orb].
  rewrite rect_count_length. set (l := band_rects (rg_bands (se_dirty s))).
  set (rest := drop _ _). assert (Hat : forall i, 0 <= i < zlen l -> l !! Z.to_nat i = Some (at_ (mk_rect 0 0 0 0) (l ++ rest) i)).
  { intros i Hi. unfold at_. replace (i <? 0) with false by lia. unfold zlen in Hi. destruct (lookup_lt_is_Some_2 l (Z.to_nat i)) as [q Hq]; [lia|].
    rewrite Hq. f_equal. symmetry. apply nth_lookup_Some. by apply lookup_app_l_Some. }
  rewrite for_z_some by apply zlen_nonneg. unfold in_region. rewrite <- band_rects_points, list_exists_elem. fold l. split.
  - intros (q & (i & Hi)%list_elem_of_lookup_1 & Hq) _. pose proof (lookup_lt_Some _ _ _ Hi). exists (Z.of_nat i).
    split; [unfold zlen; lia|]. specialize (Hat (Z.of_nat i) ltac:(unfold zlen; lia)). rewrite Nat2Z.id in Hat.
    rewrite Hi in Hat. injection Hat as <-. by apply contains_point_iff.
  - intros _ (i & Hi & Hc). eexists. split; [by eapply list_elem_of_lookup_2, Hat|]. by apply contains_point_iff.
Qed.

(** ** The commit *)

(** What a commit leaves of compositord, before it looks for frames. *)
Lemma taken_over_layers assets sc c : sc_layer_count sc <= SAVANXP_COMPOSITOR_MAX_LAYERS ->
  sc_layers (sn_scene (taken_over assets sc c)) = sc_layers sc /\ sn_layer_count (taken_over assets sc c) = sc_layer_count sc.
Proof.
  intros Hn. unfold taken_over. cbv zeta. replace (sc_layer_count sc <=? SAVANXP_COMPOSITOR_MAX_LAYERS) with true by lia.
  set (c0 := set_layers sc _ c). destruct (changed_damaged (sc_layers (sn_scene c)) (sn_layer_count c) c0) as [E1 _].
  set (c1 := damage_changed_layers _ _ c0) in *. destruct (take_repaint_restaged c1) as (st & E2 & _).
  destruct (take_cursor_damaged assets (take_repaint c1)) as (q & [E3 _] & ->). rewrite E3, E2, E1. done.
Qed.

Lemma consume_layers c : all_surfaces c ->
  sc_layers (sn_scene (scene_consume_frames c)) = sc_layers (sn_scene c) /\ sn_layer_count (scene_consume_frames c) = sn_layer_count c.
Proof.
  intros Hc. pose proof (proj1 (consume_look c Hc)) as Hlook. revert Hlook. generalize (scene_consume_frames c). intros d Hlook.
  split; [exact (f_equal (fun l => snd (fst l)) Hlook)|exact (f_equal snd Hlook)].
Qed.

(** A commit of any scene of the right form. *)
Lemma commit_any assets c sc : all_surfaces c -> stage_fits c -> sn_shared c = Some sc -> sc_magic sc = SAVANXP_COMPOSITOR_SCENE_MAGIC ->
  sc_layer_count sc <= SAVANXP_COMPOSITOR_MAX_LAYERS ->
  snd (scene_commit assets c) = 0 /\ sn_layer_count (fst (scene_commit assets c)) = sc_layer_count sc /\
  sc_layers (sn_scene (fst (scene_commit assets c))) = sc_layers sc /\
  forall x y, on_surface c x y -> stage_pixel (fst (scene_commit assets c)) x y =
    if repaint_covers sc (display_rect c) x y then wm_pixel c x y else stage_pixel c x y.
Proof.
  intros Hc Hf Hs Hm Hn. pose proof (fun x y => commit_stages_repaint assets c sc x y Hc Hs Hm Hf) as Hst.
  assert (Ecm : scene_commit assets c = (scene_consume_frames (taken_over assets sc c), 0)).
  { unfold scene_commit. rewrite Hs, Hm, Z.eqb_refl. reflexivity. }
  destruct (taken_over_layers assets sc c Hn) as [El Ec]. destruct (consume_layers _ (taken_over_array assets sc c Hc)) as [L3 L4].
  split; [by rewrite Ecm|]. rewrite El in L3. rewrite Ec in L4. split; [rewrite Ecm; exact L4|]. split; [rewrite Ecm; exact L3|exact Hst].
Qed.

Lemma committed_layers s px py before : session_ok s ->
  sc_magic (committed_scene s px py before) = SAVANXP_COMPOSITOR_SCENE_MAGIC /\
  sc_layer_count (committed_scene s px py before) = zlen (scene_layers s) /\
  take (length (scene_layers s)) (sc_layers (committed_scene s px py before)) = scene_layers s.
Proof.
  intros Hs. unfold committed_scene. cbn [sc_magic sc_layer_count sc_layers]. rewrite (build_scene_is s Hs).
  split; [reflexivity|]. split; [reflexivity|]. apply take_app_length.
Qed.

(** What windowd's commit does to the section and to its damage. *)
Lemma commit_writes scene before cursor_x cursor_y reply answers s section s' result :
  scene = Some before -> windowd_commit scene cursor_x cursor_y reply answers s = (section, s', result) ->
  section = Some (committed_scene s cursor_x cursor_y before) /\
  (reply = Some 0 -> result = 0 /\ se_dirty s' = sx_region_clear).
Proof.
  intros -> E. unfold windowd_commit in E. cbv zeta in E. destruct reply as [broken|].
  - assert (E1 : Some (committed_scene s cursor_x cursor_y before) = section) by congruence. split; [done|].
    intros [= ->]. assert (result = 0) by congruence. split; [done|].
    apply (f_equal (fun p => se_dirty (snd (fst p)))) in E. cbn [fst snd] in E. by rewrite <- E.
  - split; [congruence|done].
Qed.

(** C5. What windowd commits is what compositord shows, in every session windowd
    can be in: [windowd_commit] writes the section they share, whatever
    compositord will answer, and compositord's commit of it succeeds; its
    layers are windowd's scene, none left out, in its order; every pixel
    windowd marked dirty is shown as its surface has it, and where it marked
    nothing -- as long as the damage fits the section -- the screen keeps what was
    committed before.  Windowd's damage starts anew when nobody is reported
    broken, and is kept when there is no section to write. *)
Theorem commit_hands_over (assets : Z -> cursor_asset) (s : windowd_session) (c : scene) (before : compositor_scene) (cursor_x cursor_y : Z)
    (reply : option Z) (answers : Z -> option fb_info)
    (Hr : wm_reachable s) (Hc : all_surfaces c) (Hf : stage_fits c) (Hs : sn_shared c = Some before) :
  let '(section, s', result) := windowd_commit (sn_shared c) cursor_x cursor_y reply answers s in
  let '(c', status) := scene_commit assets (set_shared section c) in
  status = 0 /\ sn_layer_count c' = zlen (scene_layers s) /\
  take (length (scene_layers s)) (sc_layers (sn_scene c')) = scene_layers s /\
  (forall x y, on_surface c x y -> in_region (se_dirty s) x y -> in_rect (display_rect c) x y -> stage_pixel c' x y = wm_pixel c x y) /\
  (forall x y, on_surface c x y -> ~ in_region (se_dirty s) x y -> sx_region_rect_count (se_dirty s) <= SAVANXP_COMPOSITOR_MAX_DAMAGE ->
     stage_pixel c' x y = stage_pixel c x y) /\
  (reply = Some 0 -> result = 0 /\ se_dirty s' = sx_region_clear) /\
  windowd_commit None cursor_x cursor_y reply answers s = (None, s, -1).
Proof.
  apply reachable_ok in Hr as [C _]. pose proof (oo_session s (wk_order _ _ C)) as Hso.
  destruct (windowd_commit (sn_shared c) cursor_x cursor_y reply answers s) as [[section s'] result] eqn:Ew.
  destruct (commit_writes _ before _ _ _ _ _ _ _ _ Hs Ew) as [-> Hlast].
  destruct (committed_layers s cursor_x cursor_y before Hso) as (Hm & Hn & Hl). pose proof (scene_room s Hso) as Hroom.
  pose proof (committed_covers s cursor_x cursor_y before (display_rect c)) as Hcov. cbv zeta in Hcov. clear Ew.
  revert Hm Hn Hl Hcov. generalize (committed_scene s cursor_x cursor_y before). intros sc Hm Hn Hl Hcov.
  destruct (commit_any assets (set_shared (Some sc) c) sc Hc Hf eq_refl Hm) as (H1 & H2 & H3 & H4); [lia|].
  change (display_rect (set_shared (Some sc) c)) with (display_rect c) in H4.
  destruct (scene_commit assets (set_shared (Some sc) c)) as [c' status]. cbn [fst snd] in *.
  split; [exact H1|]. split; [lia|]. split; [by rewrite H3|]. split; [|split; [|by split]];
    intros x y Hon; rewrite (H4 x y Hon); destruct (Hcov x y) as [K1 K2].
  - intros Hd Hin. by rewrite (K1 Hd Hin).
  - intros Hd Hle. destruct (repaint_covers _ _ _ _) eqn:E; [|done]. exfalso. apply Hd, K2; done.
Qed.

(** A compositord that is up, and the two programs' session to commit to it. *)
Definition receiving : scene := set_shared (Some (Demo.desktop 1)) (Demo.desktop_up 1).
Definition handed_over : scene :=
  fst (scene_commit Demo.assets (set_shared (fst (fst (windowd_commit (sn_shared receiving) 24 24 (Some 0) (fun _ => None) two_programs))) receiving)).

Lemma commit_hands_over_witness :
  length (scene_layers two_programs) = 6%nat /\ sn_layer_count handed_over = 6.
Proof.
  assert (El : length (scene_layers two_programs) = 6%nat) by (vm_compute; reflexivity). split; [exact El|].
  assert (Hf : stage_fits receiving).
  { split; [vm_compute; reflexivity|]. split; [vm_compute; intuition congruence|]. exists (replicate 8 0). split; vm_compute; [reflexivity|congruence]. }
  pose proof (commit_hands_over Demo.assets two_programs receiving (Demo.desktop 1) 24 24 (Some 0) (fun _ => None) two_programs_reachable eq_refl Hf eq_refl) as H.
  unfold handed_over. destruct (windowd_commit _ _ _ _ _ _) as [[section s'] result]. cbn [fst].
  destruct (scene_commit Demo.assets (set_shared section receiving)) as [c' status]. cbn [fst]. rewrite (proj1 (proj2 H)).
  unfold zlen. rewrite El. reflexivity.
Defined.

(** ** Processes to reap *)

Lemma Permutation_filter_bool (p : Z -> bool) l l' : l ≡ₚ l' -> List.filter p l ≡ₚ List.filter p l'.
Proof.
  induction 1 as [|x l l' _ IH|x y l|l l' l'' _ IH _ IH']; cbn; [done| | |by rewrite IH].
  - destruct (p x); [by rewrite IH|done].
  - destruct (p x), (p y); try done. apply perm_swap.
Qed.

Lemma swap_remove_at (a b : list Z) pid : swap_remove (length a) (a ++ pid :: b) = a ++ match reverse b with [] => [] | z :: r => z :: reverse r end.
Proof.
  unfold swap_remove. destruct (reverse b) as [|z r] eqn:E.
  - apply (f_equal reverse) in E. rewrite reverse_involutive in E. cbn in E. subst b. rewrite length_app. cbn [length].
    replace (pred (length a + 1)) with (length a) by lia. rewrite list_insert_id' by (intros _; rewrite List.last_last; by apply list_lookup_middle).
    by rewrite take_app_length, app_nil_r.
  - apply (f_equal reverse) in E. rewrite reverse_involutive, reverse_cons in E. subst b.
    rewrite app_comm_cons, app_assoc, List.last_last. rewrite !length_app. cbn [length].
    replace (pred (length a + S (length (reverse r)) + 1)) with (length a + S (length (reverse r)))%nat by lia.
    rewrite <- app_assoc, insert_app_r_alt by lia. rewrite Nat.sub_diag. cbn [app insert list_insert].
    rewrite take_app_ge by lia. f_equal. replace (length a + S (length (reverse r)) - length a)%nat with (S (length (reverse r))) by lia.
    cbn [take]. f_equal. by rewrite take_app_length.
Qed.

Lemma swap_remove_perm (b : list Z) : match reverse b with [] => [] | z :: r => z :: reverse r end ≡ₚ b.
Proof.
  destruct (reverse b) as [|z r] eqn:E.
  - apply (f_equal reverse) in E. rewrite reverse_involutive in E. by subst b.
  - rewrite <- (reverse_involutive b), E, reverse_cons. by rewrite Permutation_app_comm.
Qed.

(** The sweep from an index: the entries before it are alive already. *)
Lemma sweep_from_exact alive n : forall a b reaped, length b = n -> Forall (fun pid => alive pid = true) a ->
  let '(kept, waited) := sweep_from n alive (length a) (a ++ b) reaped in
  kept ≡ₚ a ++ List.filter alive b /\ exists gone, waited = reaped ++ gone /\ gone ≡ₚ List.filter (fun pid => negb (alive pid)) b.
Proof.
  induction n as [|n IH]; intros a b reaped Hb Ha.
  - destruct b; [|done]. cbn. split; [done|]. exists []. by rewrite app_nil_r.
  - destruct b as [|pid b]; [done|]. cbn [length] in Hb. cbn [sweep_from]. rewrite list_lookup_middle by done.
    cbn [List.filter]. destruct (alive pid) eqn:Ep; cbn [negb].
    + specialize (IH (a ++ [pid]) b reaped ltac:(lia)). rewrite length_app in IH. cbn [length] in IH. rewrite Nat.add_1_r, <- app_assoc in IH.
      cbn [app] in IH. specialize (IH ltac:(apply Forall_app; split; [done|by constructor])).
      destruct (sweep_from _ _ _ _ _) as [kept reaped']. destruct IH as [H1 H2]. split; [|done]. rewrite H1, <- app_assoc. done.
    + rewrite swap_remove_at. set (b' := match reverse b with [] => [] | z :: r => z :: reverse r end).
      pose proof (swap_remove_perm b) as Hp. fold b' in Hp. specialize (IH a b' (reaped ++ [pid])).
      rewrite (Permutation_length Hp) in IH. specialize (IH ltac:(lia) Ha). destruct (sweep_from _ _ _ _ _) as [kept reaped'].
      destruct IH as [H1 (gone & -> & H2)]. split.
      * rewrite H1. apply Permutation_app_head. by apply Permutation_filter_bool.
      * exists (pid :: gone). split; [by rewrite <- app_assoc|]. rewrite H2. apply perm_skip. by apply Permutation_filter_bool.
Qed.

(** Every process that ended is waited for exactly once, and those that still
    run stay in the table. *)
Theorem sweep_exact alive reaps :
  let '(kept, waited) := sweep_pending_reaps alive reaps in
  kept ≡ₚ List.filter alive reaps /\ waited ≡ₚ List.filter (fun pid => negb (alive pid)) reaps.
Proof.
  unfold sweep_pending_reaps. pose proof (sweep_from_exact alive (length reaps) [] reaps [] eq_refl ltac:(constructor)) as H.
  cbn [length app] in H. destruct (sweep_from _ _ _ _ _) as [kept waited]. destruct H as [H1 (gone & -> & H2)]. done.
Qed.
